(* ===== verification/_CoqProject ===== *)
-Q . S2P
Prelude.v
Mmu.v
Bits.v
Tiling.v
Pmem.v
PmemBoot.v
PmemBuddy.v
PmemSpec.v
PageAlloc.v
DList.v
CString.v
Printf.v
Console.v
ConsoleSpec.v
Keyboard.v
ConsoleClaims.v
Kmalloc.v
KmallocInv.v
ObjAlloc.v
KmallocSpec.v
KmallocClaims.v
Vpmap.v
VpmapInv.v
VpmapSpec.v
VpmapMap.v
VpmapCopy.v
VpmapUnmap.v
RadixTree.v
RadixTreeFacts.v
RadixTreeSpec.v
RadixTreeClaims.v
Trap.v
VpmapClaims.v
Vm.v
VmSpec.v
VmClaims.v
Pgfault.v
Bdev.v
BdevSpec.v
BdevClaims.v
Ide.v
IdeClaims.v
Jbd.v
JbdCrash.v
JbdSpec.v
JbdClaims.v
Blocks.v
Sfs.v
SfsDir.v
SfsBits.v
SfsAlloc.v
SfsInode.v
SfsData.v
SfsBytes.v
SfsDirSpec.v
SfsClaims.v
SfsDirClaims.v
Fs.v
FsOps.v
FsObjs.v
FsSpec.v
FsPath.v
FsFiles.v
FsClaims.v
Proc.v
Syscall.v
FdsSpec.v
FdsClaims.v
ProcClaims.v
Exec.v
Malloc.v
MallocClaims.v
Synch.v
SynchType.v
SynchInv.v
SynchSafe.v
SynchBoot.v
Bbq.v
BbqSpec.v
BbqClaims.v
