(* ===== verification/Prelude.v ===== *)
(** * OSV: a verification development for the kernel

    OSV is a teaching kernel for x86-64 in C.  This library models its memory
    management, synchronisation, devices, journal, file system, file layer,
    processes and system calls, and the allocator of user programs, as
    executable functions, and proves what each component promises to the ones
    above it.

    ** The program and the files

    - Shared: [Prelude.v] (machine words, the state and failure monad [M], the
      total-correctness predicate [wp], frame conditions [pres]); [Mmu.v]
      (address arithmetic of include/kernel/vm.h and arch/mmu.h); [Bits.v]
      (lib/bits.c).
    - Physical memory, kernel/mm/pmem.c: [Pmem.v] (the code: boot bitmap, buddy
      system, reference counts), [Tiling.v], [PmemBuddy.v] (tilings of memory by
      blocks, the invariant), [PmemBoot.v] (boot allocator), [PmemSpec.v] (the
      free lists, refinement of an abstract allocator).  [PageAlloc.v] is the
      interface its clients use.
    - Slab allocator, kernel/mm/kmalloc.c: [Kmalloc.v], [KmallocInv.v],
      [KmallocSpec.v], [KmallocClaims.v].  [ObjAlloc.v] is the interface its
      clients use; KmallocSpec.v gives the instance.
    - Page tables, arch/x86_64/kernel/mm/vpmap.c: [Vpmap.v] (the code, over the
      two allocator interfaces), [VpmapInv.v], [VpmapSpec.v], [VpmapMap.v],
      [VpmapCopy.v], [VpmapUnmap.v], [VpmapClaims.v].
    - Address spaces, kernel/mm/vm.c: [Vm.v], [VmSpec.v], [VmClaims.v], on the
      page tables; [Pgfault.v] (kernel/pgfault.c) on both.
    - Radix tree, kernel/radix_tree.c: [RadixTree.v], [RadixTreeFacts.v],
      [RadixTreeSpec.v], [RadixTreeClaims.v]; [Trap.v] (the table of handlers of
      kernel/trap.c) on it.
    - Console: [Printf.v], [Console.v] (kernel/console.c, drivers/uart.c and
      cga.c), [ConsoleSpec.v], [Keyboard.v] (drivers/keyboard.c),
      [ConsoleClaims.v].
    - Block layer: [Bdev.v] (kernel/bdev.c, bdevms.c and mm/pgcache.c: the block
      and page cache on the radix tree and both allocators), [BdevSpec.v],
      [BdevClaims.v]; [Ide.v] (drivers/ide.c and bdev_make_request),
      [IdeClaims.v].
    - Journal, kernel/fs/jbd.c: [Jbd.v], [JbdCrash.v] (crash points and
      recovery), [JbdSpec.v], [JbdClaims.v], on the block cache.
    - File system, kernel/fs/sfs/sfs.c: [Blocks.v] (the interface of block cache
      and journal it uses, with an instance), [Sfs.v] (bitmaps, inodes, data
      blocks, reading and writing), [SfsDir.v] (directories, creation, links);
      [SfsBits.v], [SfsAlloc.v], [SfsInode.v], [SfsData.v], [SfsBytes.v] (files
      as lists of bytes), [SfsDirSpec.v] (directories as maps), [SfsClaims.v],
      [SfsDirClaims.v].
    - File layer, kernel/fs/fs.c, fs/filems.c, mm/memstore.c: [Fs.v] (inode
      cache, reference counts, paths), [FsOps.v] (operations on names, open
      files, deletion of inodes, the cleanup thread's round), [FsObjs.v] (who
      owns which object), [FsSpec.v], [FsPath.v] (path lookup, reference
      counts), [FsFiles.v] (open files), [FsClaims.v].
    - Processes, kernel/proc.c: [Proc.v]; system calls, kernel/syscall.c:
      [Syscall.v], on the file layer and the address spaces; [FdsSpec.v] (tables
      of descriptors), [FdsClaims.v], [ProcClaims.v] (wait, arguments); [Exec.v]
      (loading of executables).
    - User programs, lib/malloc.c: [Malloc.v] (the code and its free list),
      [MallocClaims.v].
    - Threads, kernel/synch.c, sched.c, thread.c, timer.c: [Synch.v] (an
      interleaving machine of CPUs and threads whose steps are the instructions
      between two points where the code can be interrupted), [SynchType.v]
      (which lock a program point holds), [SynchInv.v], [SynchSafe.v],
      [SynchBoot.v].  [Bbq.v] puts kernel/bbq.c and pipe.c on the machine, with
      [BbqSpec.v], [BbqClaims.v].
    - Libraries: [DList.v] (kernel/list.c on a memory of links), [CString.v]
      (lib/string.c on byte memory).

    ** How the code is read

    A C function is a Definition of the same name in the monad [M St]: state
    passing with failures as values.  [KAssert] and [KPanic] are the kernel's
    assertions and panics, [BadAccess] a dereference outside the modelled memory,
    [Diverge] a wait that cannot end or fuel that runs out.  [wp m Q s] says that
    [m] returns from [s] with [Q]: theorems of this form exclude all of them.
    Structs are records, pointers are addresses in Z, memory of one kind of
    object is a gmap from addresses.  Machine words wrap where the code computes
    on them ([u32], [u64], [i32]; the kernel is compiled with -fwrapv).  A lock
    that one thread takes twice is [Diverge] in the sequential components; the
    machine of Synch.v runs all interleavings.  Junk that the code reads before
    it writes it is a parameter ([junk] of Bdev.v and Vm.v).  Components are
    composed by [zoom]: the state of a component is a field of the state of its
    client.

    Loops that end by a bound of the code are [for_] and [for_ret]; the others
    take fuel: the number of list nodes in memory (DList.v), the number of pages
    in the range plus one (map_pages), seven levels of a radix tree for indices
    below 2^30, two rounds for the block map of a journal, the length of a path
    (fs_find_parent_inode), the number of present bytes (strings of user
    memory), twice the units of the heap (malloc).  The theorems show that the
    fuel suffices.  proc_wait, which spins until a child exits, is described
    round by round.

    ** Memory in reserve

    The allocators can run out of memory, and the file layer then fails (an
    assertion of fs_free_inode, [FsClaims.get_nomem_kassert]).  Theorems that
    need an answer state how much is in reserve: [oa_spare n s] of ObjAlloc.v
    says that the allocator in state [s] serves the next [n] requests, whatever
    they are, and [enough k] of FsSpec.v is what [k] inodes take.  It is a
    condition on the state, which operations use up; KmallocSpec.v shows that
    kmalloc.c meets it with [n] free blocks of the largest order
    ([stocked_spare]), and the witness of [FsClaims.fs_find_inode_spec] runs on
    it.  In the same way [blk_rep true] and the [true] of [file_state] and
    [dir_state] say that block fetches find memory; with [false] they may fail.

    ** What is proved

    - Memory: the buddy allocator refines an abstract allocator of disjoint
      blocks for every sequence of requests ([PmemSpec.pmem_refines]); slab
      objects are disjoint and fresh for every sequence of requests
      ([KmallocClaims.kmem_objects_disjoint]); mapping, copying,
      unmapping, changing and destroying page tables are described page by page,
      with the frames they take and give back; regions of an address space are found, mapped and
      extended as documented, on every error branch; every outcome of a user
      page fault is described.
    - Composition: the radix tree implements a finite map on the slab allocator
      on the buddy allocator, for indices below 2^30
      ([RadixTreeClaims.radix_tree_on_kmalloc]).
    - Block layer and journal: one header per cached block, writes reach exactly
      their block, the IDE driver sends requests in order, each once, and drains
      its queue; a journal commit is atomic at every crash point
      ([JbdClaims.commit_journal_atomic]).
    - File system: reading and writing refine lists of bytes, also through the
      indirect blocks, while block fetches succeed
      ([SfsClaims.sfs_write_data_spec]); directories are finite maps from names;
      allocation takes free blocks only.
    - File layer and processes: path lookup refines a walk in the tree of
      directories ([FsClaims.fs_find_parent_inode_spec]); reference counts of
      inodes and open files are exact, for gets and releases
      ([FsClaims.fs_refcounts_exact]) and for processes that open, duplicate,
      copy and close descriptors ([FdsClaims.fd_refs_exact]); opening, reading
      and closing leaves nothing behind; descriptors are the lowest free ones
      (from 2 on for open).  These need memory in reserve, block fetches that
      succeed, paths below the root, no FS_CREAT and files without holes.  Wait
      reaps an exited child with its status.
    - User programs: the blocks malloc returns are apart for every sequence of
      requests that fits the heap, and nothing is lost
      ([MallocClaims.malloc_blocks_disjoint]).
    - Console: the line discipline refines two lists; kprintf prints what its
      format says.
    - Concurrency: locks, condition variables and the scheduler never panic
      under any schedule ([BbqClaims.synch_safe]); bounded buffers and pipes are
      FIFO queues: what the writing threads were given goes in, in order, and
      what comes out is in the buffers of the reading ones
      ([BbqClaims.bbq_fifo]).
    - Libraries: list operations, string functions and memmove.

    Theorems without a claim number in the Claims files evaluate the model on an
    input, in most cases one where the code departs from its documentation.

    ** What is not modelled

    Hardware (page walks, interrupt controllers, the disk) is a parameter or a
    record of accesses.  A disk write is atomic per block.  Printing, firmware
    tables, multiprocessor start-up and assembly are left out, and so are
    registration and mounting of file systems (one is mounted), creation of
    threads (a parameter of proc_fork and proc_spawn), the user's printf, user
    programs, and the host tool mkfs.  The
    laws of Blocks.v are what sfs.c relies on, not theorems about Bdev.v and
    Jbd.v, and do not check that blocks are logged inside a transaction.  The
    nodes of the inode cache and the objects of the file layer come from two
    states of the slab allocator where the kernel has one.  The
    file layer and the processes are sequential: their locks are taken and
    released, but no other thread runs in between. *)

From stdpp Require Import prelude list gmap numbers.
From Stdlib Require Import ZArith Lia.

#[global] Open Scope Z_scope.

(** ** Machine integers

    The kernel is compiled with [-fwrapv]: every fixed-width integer wraps.
    A [w]-bit unsigned value is a [Z] in [0, 2^w), a signed one a [Z] in
    [-2^(w-1), 2^(w-1)); [wrapu] and [wraps] are the conversions into them. *)

Definition wrapu (w x : Z) : Z := x mod 2 ^ w.
Definition wraps (w x : Z) : Z := (x + 2 ^ (w - 1)) mod 2 ^ w - 2 ^ (w - 1).

Declare Scope word_scope.
Delimit Scope word_scope with word.
Notation "'u8' x" := (wrapu 8 x) (at level 10, x at next level) : word_scope.
Notation "'u16' x" := (wrapu 16 x) (at level 10, x at next level) : word_scope.
Notation "'u32' x" := (wrapu 32 x) (at level 10, x at next level) : word_scope.
Notation "'u64' x" := (wrapu 64 x) (at level 10, x at next level) : word_scope.
Notation "'i8' x" := (wraps 8 x) (at level 10, x at next level) : word_scope.
Notation "'i32' x" := (wraps 32 x) (at level 10, x at next level) : word_scope.
Notation "'i64' x" := (wraps 64 x) (at level 10, x at next level) : word_scope.
#[global] Open Scope word_scope.

Lemma wrapu_bound w x : 0 <= w -> 0 <= wrapu w x < 2 ^ w.
Proof. intros. unfold wrapu. apply Z.mod_pos_bound. lia. Qed.

Lemma wrapu_small w x : 0 <= x < 2 ^ w -> wrapu w x = x.
Proof. intros. unfold wrapu. by apply Z.mod_small. Qed.

Lemma wraps_bound w x : 0 < w -> - 2 ^ (w - 1) <= wraps w x < 2 ^ (w - 1).
Proof.
  intros. unfold wraps.
  replace (2 ^ w) with (2 * 2 ^ (w - 1))
    by (rewrite <- Z.pow_succ_r by lia; f_equal; lia).
  pose proof (Z.mod_pos_bound (x + 2 ^ (w - 1)) (2 * 2 ^ (w - 1))). lia.
Qed.

Lemma wraps_small w x :
  0 < w -> - 2 ^ (w - 1) <= x < 2 ^ (w - 1) -> wraps w x = x.
Proof.
  intros. unfold wraps.
  replace (2 ^ w) with (2 * 2 ^ (w - 1))
    by (rewrite <- Z.pow_succ_r by lia; f_equal; lia).
  rewrite Z.mod_small; lia.
Qed.

(** ** Error codes (include/lib/errcode.h) *)

Definition ERR_OK : Z := 0.
Definition ERR_NOMEM : Z := -1.
Definition ERR_NORES : Z := -2.
Definition ERR_UNALLOC : Z := -3.
Definition ERR_EXIST : Z := -4.
Definition ERR_NOTEXIST : Z := -5.
Definition ERR_INCOMP : Z := -6.
Definition ERR_FTYPE : Z := -7.
Definition ERR_REGISTER : Z := -8.
Definition ERR_NOTEMPTY : Z := -9.
Definition ERR_END : Z := -10.
Definition ERR_INIT : Z := -11.
Definition ERR_FAULT : Z := -12.
Definition ERR_INVAL : Z := -13.
Definition ERR_CHILD : Z := -14.
Definition ERR_PGFAULT_ALLOC : Z := -15.
Definition ERR_LOCK_BUSY : Z := -16.

(** The null pointer (include/lib/stddef.h). *)
Definition NULL : Z := 0.

(** ** Kernel computations

    A function of the kernel that reads or writes state is a computation
    [M St A].  It returns a value and the new state, or stops the machine:
    - [KAssert]: a [kassert] failed;
    - [KPanic]: an explicit [panic];
    - [BadAccess]: a load or store through an address that holds no object
      of the expected kind (the C program has no defined behaviour there);
    - [Diverge]: the loop did not leave within the fuel the model gives it,
      or the caller blocks forever. *)

Inductive fault : Set := KAssert | KPanic | BadAccess | Diverge.

Inductive res (A : Type) : Type :=
| Done (a : A)
| Stop (f : fault).
Arguments Done {A} a.
Arguments Stop {A} f.

Definition M (St A : Type) : Type := St -> res (A * St).

(** The value a run returns. *)
Definition value_of {St A} (r : res (A * St)) : option A :=
  match r with Done (a, _) => Some a | Stop _ => None end.

(** The value of a run that returns. *)
Lemma run_value {St A} (m : M St A) s a s' v : m s = Done (a, s') -> value_of (m s) = Some v -> m s = Done (a, s') /\ a = v.
Proof. intros E1 E2. split; [done|]. rewrite E1 in E2. by injection E2. Qed.

Definition ret {St A} (a : A) : M St A := fun s => Done (a, s).
Definition bind {St A B} (m : M St A) (k : A -> M St B) : M St B := fun s =>
  match m s with
  | Done (a, s') => k a s'
  | Stop f => Stop f
  end.

Declare Scope kernel_scope.
Delimit Scope kernel_scope with kernel.
Notation "x <- m ;; k" := (bind m (fun x => k))
  (at level 100, m at next level, k at level 200, right associativity) : kernel_scope.
Notation "m ;; k" := (bind m (fun _ => k))
  (at level 100, k at level 200, right associativity) : kernel_scope.
#[global] Open Scope kernel_scope.

Definition stop {St A} (f : fault) : M St A := fun _ => Stop f.
Definition gets {St A} (g : St -> A) : M St A := fun s => Done (g s, s).
Definition modify {St} (g : St -> St) : M St unit := fun s => Done (tt, g s).
Definition kassert {St} (b : bool) : M St unit :=
  if b then ret tt else stop KAssert.
Definition panic {St A} : M St A := stop KPanic.
(** A pointer dereference: the object, or [BadAccess]. *)
Definition deref {St A} (o : option A) : M St A :=
  match o with Some a => ret a | None => stop BadAccess end.

(** Run a computation of a sub-component on its part of the state. *)
Definition zoom {St T A} (get : St -> T) (set : T -> St -> St) (m : M T A) : M St A :=
  fun s => match m (get s) with
           | Done (a, t) => Done (a, set t s)
           | Stop f => Stop f
           end.

(** The general loop: [step] maps the loop variables to their next values
    ([inl]) or leaves the loop with a result ([inr]). *)
Fixpoint loop {St L R} (fuel : nat) (step : L -> M St (L + R)) (l : L) : M St R :=
  match fuel with
  | O => stop Diverge
  | S fuel' =>
      r <- step l;;
      match r with
      | inl l' => loop fuel' step l'
      | inr v => ret v
      end
  end.

(** [for (i = lo; i < lo + n; i++) body(i)] with an early return. *)
Fixpoint for_ret {St R} (n : nat) (i : Z) (body : Z -> M St (option R)) :
    M St (option R) :=
  match n with
  | O => ret None
  | S n' =>
      r <- body i;;
      match r with
      | Some v => ret (Some v)
      | None => for_ret n' (i + 1) body
      end
  end.

(** [for (i = lo; i < lo + n; i++) body(i)] without one. *)
Fixpoint for_ {St} (n : nat) (i : Z) (body : Z -> M St unit) : M St unit :=
  match n with
  | O => ret tt
  | S n' => body i;; for_ n' (i + 1) body
  end.

Lemma done_inj {A B} (a a' : A) (b b' : B) : Done (a, b) = Done (a', b') -> a' = a /\ b' = b.
Proof. by intros [= -> ->]. Qed.

(** Equational reasoning about a run. *)
Lemma bind_done {St A B} (m : M St A) (k : A -> M St B) s a s' :
  m s = Done (a, s') -> bind m k s = k a s'.
Proof. intros H. unfold bind. by rewrite H. Qed.

Lemma bind_stop {St A B} (m : M St A) (k : A -> M St B) s f :
  m s = Stop f -> bind m k s = Stop f.
Proof. intros H. unfold bind. by rewrite H. Qed.

Lemma zoom_done {St T A} (get : St -> T) set (m : M T A) s a t :
  m (get s) = Done (a, t) -> zoom get set m s = Done (a, set t s).
Proof. intros H. unfold zoom. by rewrite H. Qed.

Lemma zoom_stop {St T A} (get : St -> T) set (m : M T A) s f :
  m (get s) = Stop f -> zoom get set m s = Stop f.
Proof. intros H. unfold zoom. by rewrite H. Qed.

Lemma kassert_done {St} b (s : St) : b = true -> kassert b s = Done (tt, s).
Proof. by intros ->. Qed.

(** ** Total correctness

    [wp m Q s]: from [s] the computation [m] returns (no fault, no fuel
    exhaustion) with a value and a state that satisfy [Q]. *)

Definition wp {St A} (m : M St A) (Q : A -> St -> Prop) (s : St) : Prop :=
  exists a s', m s = Done (a, s') /\ Q a s'.

Section wp_rules.
Context {St : Type}.
Implicit Types s : St.

Lemma wp_ret {A} (a : A) Q s : Q a s -> wp (ret a) Q s.
Proof. intros. by exists a, s. Qed.

Lemma wp_bind {A B} (m : M St A) (k : A -> M St B) Q s :
  wp m (fun a s' => wp (k a) Q s') s -> wp (bind m k) Q s.
Proof.
  intros (a & s' & Hm & b & s'' & Hk & HQ).
  exists b, s''. split; [|done]. unfold bind. by rewrite Hm.
Qed.

Lemma wp_unbind {A B} (m : M St A) (k : A -> M St B) Q s :
  wp (bind m k) Q s -> wp m (fun a s' => wp (k a) Q s') s.
Proof.
  intros (b & s'' & H & HQ). unfold bind in H. destruct (m s) as [[a s']|f] eqn:E; [|done].
  exists a, s'. split; [done|]. by exists b, s''.
Qed.

Lemma wp_mono {A} (m : M St A) (P Q : A -> St -> Prop) s :
  wp m P s -> (forall a s', P a s' -> Q a s') -> wp m Q s.
Proof. intros (a & s' & ? & ?) ?. exists a, s'. eauto. Qed.

Lemma wp_gets {A} (g : St -> A) Q s : Q (g s) s -> wp (gets g) Q s.
Proof. intros. by exists (g s), s. Qed.

Lemma wp_modify (g : St -> St) Q s : Q tt (g s) -> wp (modify g) Q s.
Proof. intros. by exists tt, (g s). Qed.

Lemma wp_kassert b Q s : b = true -> Q tt s -> wp (kassert b) Q s.
Proof. intros -> ?. by exists tt, s. Qed.

Lemma wp_deref {A} (o : option A) a Q s : o = Some a -> Q a s -> wp (deref o) Q s.
Proof. intros -> ?. by exists a, s. Qed.

Lemma wp_zoom {T A} (get : St -> T) set (m : M T A) Q s :
  wp m (fun a t => Q a (set t s)) (get s) -> wp (zoom get set m) Q s.
Proof.
  intros (a & t & Hm & HQ). exists a, (set t s). split; [|done].
  unfold zoom. by rewrite Hm.
Qed.

Lemma wp_for n i (body : Z -> M St unit) (I : Z -> St -> Prop) Q s :
  I i s ->
  (forall j s', i <= j < i + Z.of_nat n -> I j s' ->
     wp (body j) (fun _ s'' => I (j + 1) s'') s') ->
  (forall s', I (i + Z.of_nat n) s' -> Q tt s') ->
  wp (for_ n i body) Q s.
Proof.
  revert i s. induction n as [|n IH]; intros i s HI Hb HQ; simpl.
  - apply wp_ret, HQ. by replace (i + Z.of_nat 0) with i by lia.
  - apply wp_bind. eapply wp_mono; [apply Hb; [lia|done]|].
    intros [] s' HI'. apply IH; [done| |].
    + intros j s'' ??. apply Hb; [lia|done].
    + intros s'' ?. apply HQ. by replace (i + Z.of_nat (S n))
        with (i + 1 + Z.of_nat n) by lia.
Qed.

Lemma wp_for_ret {R} n i (body : Z -> M St (option R)) (I : Z -> St -> Prop) Q s :
  I i s ->
  (forall j s', i <= j < i + Z.of_nat n -> I j s' ->
     wp (body j) (fun r s'' => match r with
                               | Some v => Q (Some v) s''
                               | None => I (j + 1) s''
                               end) s') ->
  (forall s', I (i + Z.of_nat n) s' -> Q None s') ->
  wp (for_ret n i body) Q s.
Proof.
  revert i s. induction n as [|n IH]; intros i s HI Hb HQ; simpl.
  - apply wp_ret, HQ. by replace (i + Z.of_nat 0) with i by lia.
  - apply wp_bind. eapply wp_mono; [apply Hb; [lia|done]|].
    intros [v|] s' H'; [by apply wp_ret|]. apply IH; [done| |].
    + intros j s'' ??. apply Hb; [lia|done].
    + intros s'' ?. apply HQ. by replace (i + Z.of_nat (S n))
        with (i + 1 + Z.of_nat n) by lia.
Qed.

Lemma wp_loop {L R} fuel (step : L -> M St (L + R))
    (I : L -> St -> Prop) (mes : L -> St -> nat) (Q : R -> St -> Prop) l s :
  (forall l s, I l s ->
     wp (step l) (fun r s' => match r with
                              | inl l' => I l' s' /\ (mes l' s' < mes l s)%nat
                              | inr v => Q v s'
                              end) s) ->
  I l s -> (mes l s < fuel)%nat -> wp (loop fuel step l) Q s.
Proof.
  intros Hstep. revert l s. induction fuel as [|fuel IH]; intros l s HI Hm; [lia|].
  simpl. apply wp_bind. eapply wp_mono; [by apply Hstep|].
  intros [l'|v] s'; simpl; [|by apply wp_ret].
  intros [??]. apply IH; [done|lia].
Qed.

(** The same with a ghost measure carried by the invariant. *)
Lemma wp_loop_ghost {L R} fuel (step : L -> M St (L + R))
    (I : nat -> L -> St -> Prop) (Q : R -> St -> Prop) k l s :
  (forall k l s, I k l s ->
     wp (step l) (fun r s' => match r with
                              | inl l' => exists k', (k' < k)%nat /\ I k' l' s'
                              | inr v => Q v s'
                              end) s) ->
  I k l s -> (k < fuel)%nat -> wp (loop fuel step l) Q s.
Proof.
  intros Hstep. revert k l s. induction fuel as [|fuel IH]; intros k l s HI Hm; [lia|].
  simpl. apply wp_bind. eapply wp_mono; [by apply (Hstep k)|].
  intros [l'|v] s'; simpl; [|by apply wp_ret].
  intros (k' & ? & ?). apply (IH k'); [done|lia].
Qed.
End wp_rules.

Lemma wp_elim {St A} (m : M St A) Q s :
  wp m Q s -> exists a s', m s = Done (a, s') /\ Q a s'.
Proof. done. Qed.

Lemma wp_intro {St A} (m : M St A) (Q : A -> St -> Prop) s a s' :
  m s = Done (a, s') -> Q a s' -> wp m Q s.
Proof. intros. by exists a, s'. Qed.

#[global] Opaque wp.

(** ** Frame conditions

    [pres R m]: whenever [m] returns, the states before and after are related
    by [R].  It combines with [wp] and is proved by following the structure of
    the program, with the lemmas of the database [pres] for its operations. *)

Definition pres {St A} (R : St -> St -> Prop) (m : M St A) : Prop :=
  forall s a s', m s = Done (a, s') -> R s s'.

Lemma bind_inv {St A B} (m : M St A) (k : A -> M St B) s b s'' :
  bind m k s = Done (b, s'') -> exists a s', m s = Done (a, s') /\ k a s' = Done (b, s'').
Proof. unfold bind. destruct (m s) as [[a s']|f]; [eauto|done]. Qed.

Lemma wp_pres {St A} (R : St -> St -> Prop) (m : M St A) (Q : A -> St -> Prop) s :
  pres R m -> wp m Q s -> wp m (fun a s' => Q a s' /\ R s s') s.
Proof.
  intros HR (a & s' & Hm & HQ)%wp_elim. eapply wp_intro; [done|]. split; [done|]. by eapply HR.
Qed.

Section pres_rules.
Context {St : Type} (R : St -> St -> Prop) `{!PreOrder R}.

Lemma pres_ret {A} (a : A) : pres R (ret a).
Proof using Type*. intros s b s' [= _ <-]. reflexivity. Qed.
Lemma pres_gets {A} (g : St -> A) : pres R (gets g).
Proof using Type*. intros s b s' [= _ <-]. reflexivity. Qed.
Lemma pres_stop {A} f : pres R (stop (A := A) f).
Proof using Type*. by intros s b s'. Qed.
Lemma pres_kassert b : pres R (kassert b).
Proof using Type*. destruct b; [apply pres_ret|apply pres_stop]. Qed.
Lemma pres_deref {A} (o : option A) : pres R (deref o).
Proof using Type*. destruct o; [apply pres_ret|apply pres_stop]. Qed.
Lemma pres_modify g : (forall s, R s (g s)) -> pres R (modify g).
Proof using Type*. intros H s b s' [= _ <-]. apply H. Qed.
Lemma pres_bind {A B} (m : M St A) (k : A -> M St B) :
  pres R m -> (forall a, pres R (k a)) -> pres R (bind m k).
Proof using Type*.
  intros Hm Hk s b s'' (a & s' & H1 & H2)%bind_inv. transitivity s'; [by eapply Hm|by eapply Hk].
Qed.
Lemma pres_loop {L X} fuel (step : L -> M St (L + X)) l :
  (forall l, pres R (step l)) -> pres R (loop fuel step l).
Proof using Type*.
  intros H. revert l. induction fuel as [|fuel IH]; intros l; [apply pres_stop|].
  simpl. apply pres_bind; [apply H|]. intros [l'|v]; [apply IH|apply pres_ret].
Qed.
Lemma pres_for n i (body : Z -> M St unit) : (forall j, pres R (body j)) -> pres R (for_ n i body).
Proof using Type*.
  intros H. revert i. induction n as [|n IH]; intros i; simpl; [apply pres_ret|].
  apply pres_bind; [apply H|]. intros _. apply IH.
Qed.
Lemma pres_for_ret {X} n i (body : Z -> M St (option X)) :
  (forall j, pres R (body j)) -> pres R (for_ret n i body).
Proof using Type*.
  intros H. revert i. induction n as [|n IH]; intros i; simpl; [apply pres_ret|].
  apply pres_bind; [apply H|]. intros [v|]; [apply pres_ret|apply IH].
Qed.
End pres_rules.

Create HintDb pres.
#[export] Hint Resolve pres_ret pres_gets pres_stop pres_kassert pres_deref : pres.

(** Follow the structure of a program; leaves the updates. *)
Ltac pres_step :=
  match goal with
  | |- pres _ (bind _ _) => apply pres_bind
  | |- pres _ (match ?x with _ => _ end) => destruct x
  | |- pres _ (let _ := _ in _) => cbv zeta
  | |- pres _ panic => apply pres_stop
  | |- forall _, _ => intros ?
  | |- PreOrder _ => exact _
  | |- pres _ (loop _ _ _) => apply pres_loop
  | |- pres _ (for_ _ _ _) => apply pres_for
  | |- pres _ (for_ret _ _ _) => apply pres_for_ret
  | |- pres _ _ => solve [eauto with pres typeclass_instances]
  end.
Ltac pres_run := repeat pres_step.

(** One step of symbolic execution of the head command of a goal
    [wp (c ;; k) Q s]. *)
Ltac wp_step :=
  match goal with
  | |- wp (bind _ _) _ _ => apply wp_bind
  | |- wp (ret _) _ _ => apply wp_ret
  | |- wp (gets _) _ _ => apply wp_gets
  | |- wp (modify _) _ _ => apply wp_modify
  | |- wp (kassert _) _ _ => apply wp_kassert
  | |- wp (zoom _ _ _) _ _ => apply wp_zoom
  | |- wp (deref _) _ _ => eapply wp_deref
  end.
Ltac wp_run := repeat (wp_step; cbn beta iota).

