(* ===== verification/Mmu.v ===== *)
(** * Address arithmetic

    include/kernel/vm.h (page rounding helpers) and
    arch/x86_64/include/arch/mmu.h (page-table indices, KMAP translation,
    address-space bounds), on 64-bit words. *)

From stdpp Require Import prelude.
From Stdlib Require Import ZArith Lia.
From S2P Require Import Prelude.

Definition PG_SIZE : Z := 4096.
(** arch/x86_64/kernel/mm/vm.c: [size_t pg_size = PG_SIZE]. *)
Definition pg_size : Z := PG_SIZE.

Definition KMAP_BASE : Z := 0xFFFFFFFF80000000.
Definition DEVMEM_BASE : Z := 0xFFFFFFFFFE000000.
Definition EXTMEM_BASE : Z := 0x00100000.
Definition USTACK_PAGES : Z := 10.
Definition USTACK_UPPERBOUND : Z := 0xFFFFFF7FFFFFF000.
Definition USTACK_LOWERBOUND : Z := USTACK_UPPERBOUND - USTACK_PAGES * PG_SIZE.
(** arch/x86_64/kernel/mm/pmem.c, pmem_arch_init: [kvm_base = KMAP_BASE]. *)
Definition kvm_base : Z := KMAP_BASE.

Definition KMAP_V2P (v : Z) : Z := u64 (v - KMAP_BASE).
Definition KMAP_P2V (p : Z) : Z := u64 (p + KMAP_BASE).
Definition KMAP_IO2V (a : Z) : Z := u64 (a + 0xFFFFFFFF00000000).

Definition pg_round_up (addr : Z) : Z :=
  Z.land (u64 (addr + pg_size - 1)) (u64 (Z.lnot (pg_size - 1))).
Definition pg_round_down (addr : Z) : Z :=
  Z.land addr (u64 (Z.lnot (pg_size - 1))).
Definition pg_ofs (addr : Z) : Z := Z.land addr (pg_size - 1).
Definition pg_aligned (addr : Z) : bool := Z.land addr (pg_size - 1) =? 0.
Definition is_user_addr (addr : Z) : bool := addr <? kvm_base.

Definition PTX_SHIFT : Z := 12.
Definition PDX_SHIFT : Z := 21.
Definition PDPTX_SHIFT : Z := 30.
Definition PML4X_SHIFT : Z := 39.
Definition PHYS_ADDR_MASK : Z := u64 (Z.lnot 0xFFF8000000000000).

Definition VPN (v : Z) : Z := Z.land v (u64 (Z.lnot 0xFFF)).
Definition PPN (p : Z) : Z := Z.land (Z.land p (u64 (Z.lnot 0xFFF))) PHYS_ADDR_MASK.
Definition ENTRY_IDX (v shift : Z) : Z := Z.land (Z.shiftr v shift) 0x1FF.
Definition PTX (v : Z) : Z := ENTRY_IDX v PTX_SHIFT.
Definition PDX (v : Z) : Z := ENTRY_IDX v PDX_SHIFT.
Definition PDPTX (v : Z) : Z := ENTRY_IDX v PDPTX_SHIFT.
Definition PML4X (v : Z) : Z := ENTRY_IDX v PML4X_SHIFT.
Definition ENTRY_ADDR (e : Z) : Z := Z.land (Z.land e (u64 (Z.lnot 0xFFF))) PHYS_ADDR_MASK.
Definition ENTRY_FLAGS (e : Z) : Z := Z.land e 0xFFF.

Definition PTE_P : Z := 0x001.
Definition PTE_W : Z := 0x002.
Definition PTE_U : Z := 0x004.
Definition PTE_A : Z := 0x020.
Definition PTE_D : Z := 0x040.

(** ** Facts shared by the memory components *)

Lemma land_low_mask a k : 0 <= k -> Z.land a (2 ^ k - 1) = a mod 2 ^ k.
Proof. intros. rewrite <- Z.land_ones by lia. f_equal. rewrite Z.ones_equiv. lia. Qed.

Lemma land_high_mask a w k :
  0 <= k <= w -> 0 <= a < 2 ^ w -> Z.land a (wrapu w (Z.lnot (2 ^ k - 1))) = a - a mod 2 ^ k.
Proof.
  intros Hk Ha. unfold wrapu.
  rewrite <- Z.land_ones by lia. rewrite (Z.land_comm (Z.lnot _)), Z.land_assoc.
  rewrite (Z.land_ones a) by lia. rewrite (Z.mod_small a) by lia.
  replace (2 ^ k - 1) with (Z.ones k) by (rewrite Z.ones_equiv; lia).
  rewrite <- Z.ldiff_land, Z.ldiff_ones_r by lia.
  rewrite Z.shiftl_mul_pow2, Z.shiftr_div_pow2 by lia.
  pose proof (Z.div_mod a (2 ^ k)). lia.
Qed.

Lemma pg_ofs_mod a : pg_ofs a = a mod PG_SIZE.
Proof. apply (land_low_mask a 12). lia. Qed.

Lemma pg_aligned_spec a : pg_aligned a = true <-> a mod PG_SIZE = 0.
Proof. unfold pg_aligned. change (Z.land a (pg_size - 1)) with (pg_ofs a).
  rewrite pg_ofs_mod. apply Z.eqb_eq. Qed.

Lemma pg_round_down_spec a :
  0 <= a < 2 ^ 64 -> pg_round_down a = a / PG_SIZE * PG_SIZE.
Proof.
  intros. unfold pg_round_down. change (pg_size - 1) with (2 ^ 12 - 1).
  rewrite land_high_mask by lia. unfold PG_SIZE. change (2 ^ 12) with 4096.
  pose proof (Z.div_mod a 4096). lia.
Qed.

Lemma pg_round_up_spec a :
  0 <= a -> a + PG_SIZE - 1 < 2 ^ 64 ->
  pg_round_up a = (a + PG_SIZE - 1) / PG_SIZE * PG_SIZE.
Proof.
  unfold PG_SIZE. intros. unfold pg_round_up. rewrite wrapu_small by (unfold pg_size, PG_SIZE; lia).
  change (pg_size - 1) with (2 ^ 12 - 1). unfold pg_size, PG_SIZE.
  rewrite land_high_mask by lia. change (2 ^ 12) with 4096.
  pose proof (Z.div_mod (a + 4096 - 1) 4096). lia.
Qed.

Lemma KMAP_V2P_P2V p : 0 <= p < 2 ^ 31 -> KMAP_V2P (KMAP_P2V p) = p.
Proof.
  intros. unfold KMAP_V2P, KMAP_P2V.
  rewrite (wrapu_small 64 (p + KMAP_BASE)) by (unfold KMAP_BASE; lia).
  rewrite wrapu_small; unfold KMAP_BASE; lia.
Qed.

Lemma ENTRY_IDX_spec v sh : 0 <= sh -> ENTRY_IDX v sh = (v / 2 ^ sh) mod 512.
Proof.
  intros. unfold ENTRY_IDX. change 0x1FF with (2 ^ 9 - 1).
  rewrite land_low_mask by lia. by rewrite Z.shiftr_div_pow2.
Qed.
