(* ===== verification/Bits.v ===== *)
(** * State bits (lib/bits.c)

    [state_t] is a 32-bit flag word; [get_state_bit] and [set_state_bit]
    read and write one flag.  Page, block-header, inode and superblock
    states are all of this type. *)

From stdpp Require Import prelude.
From Stdlib Require Import ZArith Lia.
From S2P Require Import Prelude.

(** lib/bits.c: get_state_bit.  [1 << bit] is a 32-bit int. *)
Definition get_state_bit (state bit : Z) : bool :=
  if Z.land state (u32 (Z.shiftl 1 bit)) =? 0 then false else true.

(** lib/bits.c: set_state_bit. *)
Definition set_state_bit (state bit : Z) (value : bool) : Z :=
  if value then Z.lor state (u32 (Z.shiftl 1 bit))
  else Z.land state (u32 (Z.lnot (Z.shiftl 1 bit))).

Lemma get_bit_testbit x c : 0 <= c < 32 -> get_state_bit x c = Z.testbit x c.
Proof.
  intros Hc. unfold get_state_bit.
  replace (u32 (Z.shiftl 1 c)) with (2 ^ c).
  2:{ rewrite Z.shiftl_1_l. symmetry. apply wrapu_small. split; [lia|]. apply Z.pow_lt_mono_r; lia. }
  destruct (Z.eqb_spec (Z.land x (2 ^ c)) 0) as [E|E].
  - assert (Ht : Z.testbit (Z.land x (2 ^ c)) c = false) by (rewrite E; apply Z.bits_0).
    rewrite Z.land_spec, Z.pow2_bits_true, andb_true_r in Ht by lia. congruence.
  - destruct (Z.testbit x c) eqn:Et; [done|]. exfalso. apply E.
    apply Z.bits_inj'. intros n Hn. rewrite Z.land_spec, Z.bits_0.
    rewrite Z.pow2_bits_eqb by lia. destruct (Z.eqb_spec c n) as [<-|]; [by rewrite Et|].
    apply andb_false_r.
Qed.

Section facts.
Context (bit : Z) (Hbit : 0 <= bit < 32).

Lemma one_shl_wrap : u32 (Z.shiftl 1 bit) = 2 ^ bit.
Proof using Hbit.
  rewrite Z.shiftl_1_l. apply wrapu_small. split; [lia|]. apply Z.pow_lt_mono_r; lia.
Qed.

Lemma get_state_bit_testbit st : get_state_bit st bit = Z.testbit st bit.
Proof using Hbit. by apply get_bit_testbit. Qed.

Lemma set_state_bit_testbit st v n :
  0 <= st < 2 ^ 32 -> 0 <= n ->
  Z.testbit (set_state_bit st bit v) n = if n =? bit then v else Z.testbit st n.
Proof using Hbit.
  intros Hst Hn. unfold set_state_bit. destruct v.
  - rewrite one_shl_wrap, Z.lor_spec, Z.pow2_bits_eqb by lia.
    destruct (Z.eqb_spec bit n), (Z.eqb_spec n bit); subst; try lia;
      by rewrite ?orb_true_r, ?orb_false_r.
  - rewrite Z.land_spec. unfold wrapu. rewrite <- Z.land_ones, Z.land_spec by lia.
    rewrite Z.lnot_spec, Z.shiftl_1_l, Z.pow2_bits_eqb by lia.
    destruct (Z.eqb_spec bit n), (Z.eqb_spec n bit); subst; try lia;
      simpl; rewrite ?andb_false_r.
    destruct (Z.lt_ge_cases n 32).
    + rewrite Z.ones_spec_low by lia. by rewrite andb_true_r.
    + rewrite Z.ones_spec_high by lia. rewrite andb_false_r.
      symmetry. apply Z.bits_above_log2; [lia|].
      destruct (Z.eq_dec st 0) as [->|]; [simpl; lia|].
      apply Z.log2_lt_pow2; [lia|]. eapply Z.lt_le_trans; [apply Hst|].
      apply Z.pow_le_mono_r; lia.
Qed.

Lemma get_set_state_bit st v : get_state_bit (set_state_bit st bit v) bit = v.
Proof using Hbit.
  rewrite get_state_bit_testbit. unfold set_state_bit. destruct v.
  - rewrite one_shl_wrap, Z.lor_spec, Z.pow2_bits_true by lia. apply orb_true_r.
  - rewrite Z.land_spec. unfold wrapu. rewrite <- Z.land_ones, Z.land_spec by lia.
    rewrite Z.lnot_spec, Z.shiftl_1_l, Z.pow2_bits_true by lia. simpl. apply andb_false_r.
Qed.

(** The other flags are kept. *)
Lemma get_set_other st v c : 0 <= c < 32 -> c <> bit ->
  get_state_bit (set_state_bit st bit v) c = get_state_bit st c.
Proof using Hbit.
  intros Hc Hne. assert (Hg : forall x, get_state_bit x c = Z.testbit x c) by (intros x; by apply get_bit_testbit).
  rewrite !Hg. unfold set_state_bit. destruct v.
  - rewrite one_shl_wrap, Z.lor_spec, Z.pow2_bits_false by lia. apply orb_false_r.
  - rewrite Z.land_spec. unfold wrapu. rewrite <- Z.land_ones, Z.land_spec by lia.
    rewrite Z.lnot_spec, Z.shiftl_1_l, Z.pow2_bits_false, Z.ones_spec_low by lia. apply andb_true_r.
Qed.
End facts.
