(* ===== verification/Tiling.v ===== *)
(** * Power-of-two tilings

    The arithmetic behind the buddy allocator, independent of its state: a
    tiling of the pages [0, n) by aligned blocks whose sizes are powers of
    two, the buddy of a block, and how splitting a block or merging it with
    its buddy changes the tiling. *)

From stdpp Require Import prelude gmap.
From Stdlib Require Import ZArith Lia Znumtheory.
From S2P Require Import Prelude.

Create HintDb tiling.

Lemma pow2_pos o : 0 <= o -> 0 < 2 ^ o.
Proof. lia. Qed.

Lemma pow2_succ o : 0 <= o -> 2 ^ (o + 1) = 2 * 2 ^ o.
Proof. intros. by rewrite Z.pow_add_r, Z.mul_comm. Qed.

Lemma pow2_pred o : 0 < o -> 2 ^ o = 2 * 2 ^ (o - 1).
Proof. intros. rewrite <- pow2_succ by lia. f_equal. lia. Qed.

Lemma pow2_divide a b : 0 <= a <= b -> (2 ^ a | 2 ^ b).
Proof.
  intros. exists (2 ^ (b - a)). rewrite <- Z.pow_add_r by lia. f_equal. lia.
Qed.

(** Two multiples of [d] less than [d] apart are equal. *)
Lemma divide_close d a b : 0 < d -> (d | a) -> (d | b) -> a <= b < a + d -> a = b.
Proof. intros ? [x ->] [y ->] ?. assert (x = y) by nia. by subst. Qed.

Lemma mul_le_floor d a k r : 0 <= r < d -> a * d <= k * d + r <-> a <= k.
Proof. intros. split; nia. Qed.

(** The buddy of the block of order [o] at page [h]. *)
Definition buddy_of (h o : Z) : Z :=
  if Z.even (h / 2 ^ o) then h + 2 ^ o else h - 2 ^ o.

Lemma buddy_cases h o :
  0 <= o -> (2 ^ o | h) ->
  (2 ^ (o + 1) | h) /\ buddy_of h o = h + 2 ^ o \/
  (2 ^ (o + 1) | h - 2 ^ o) /\ buddy_of h o = h - 2 ^ o.
Proof.
  intros Ho [k ->]. unfold buddy_of. pose proof (pow2_pos o Ho).
  rewrite Z.div_mul by lia. rewrite pow2_succ by lia.
  destruct (Z.even k) eqn:E.
  - left. apply Z.even_spec in E as [m ->]. split; [exists m; lia|done].
  - right. assert (Z.odd k = true) as [m ->]%Z.odd_spec
      by (rewrite <- Z.negb_even, E; done).
    split; [exists m; lia|done].
Qed.

Lemma buddy_lo h o : 0 <= o -> (2 ^ (o + 1) | h) -> buddy_of h o = h + 2 ^ o.
Proof.
  intros Ho [k ->]. unfold buddy_of. pose proof (pow2_pos o Ho).
  rewrite pow2_succ by lia.
  replace (k * (2 * 2 ^ o)) with ((2 * k) * 2 ^ o) by lia.
  rewrite Z.div_mul by lia. by rewrite Z.even_mul.
Qed.

Lemma buddy_involutive h o : 0 <= o -> (2 ^ o | h) -> buddy_of (buddy_of h o) o = h.
Proof.
  intros Ho Hh. destruct (buddy_cases h o Ho Hh) as [[Hd ->]|[Hd ->]].
  - assert (Hs : (2 ^ o | h + 2 ^ o)) by (apply Z.divide_add_r; [done|apply Z.divide_refl]).
    destruct (buddy_cases (h + 2 ^ o) o Ho Hs) as [[Hd' _]|[_ ->]]; [exfalso|lia].
    destruct Hd as [a ->], Hd' as [b Hb]. rewrite pow2_succ in Hb by lia.
    pose proof (pow2_pos o Ho).
    assert ((2 * a + 1 - 2 * b) * 2 ^ o = 0) as [?|?]%Z.mul_eq_0 by lia; lia.
  - rewrite buddy_lo by done. ring.
Qed.

Lemma buddy_ne h o : 0 <= o -> buddy_of h o <> h.
Proof. intros. unfold buddy_of. pose proof (pow2_pos o ltac:(lia)). destruct (Z.even _); lia. Qed.

Lemma buddy_aligned h o : 0 <= o -> (2 ^ o | h) -> (2 ^ o | buddy_of h o).
Proof.
  intros. unfold buddy_of.
  destruct (Z.even _); [apply Z.divide_add_r|apply Z.divide_sub_r]; done.
Qed.

(** [B] maps the first page of each block to the order of the block. *)
Record tiling (maxo : Z) (B : gmap Z Z) (n : Z) : Prop := {
  tl_blk : forall h o, B !! h = Some o ->
             0 <= o <= maxo /\ 0 <= h /\ (2 ^ o | h) /\ h + 2 ^ o <= n;
  tl_disj : forall h1 o1 h2 o2, B !! h1 = Some o1 -> B !! h2 = Some o2 -> h1 <> h2 ->
              h1 + 2 ^ o1 <= h2 \/ h2 + 2 ^ o2 <= h1;
  tl_cover : forall i, 0 <= i < n ->
               exists h o, B !! h = Some o /\ h <= i < h + 2 ^ o
}.

Section tiling.
Context {maxo : Z} {B : gmap Z Z} {n : Z} (T : tiling maxo B n).

(** The block that contains a page is unique. *)
Lemma tiling_unique i h1 o1 h2 o2 :
  B !! h1 = Some o1 -> B !! h2 = Some o2 ->
  h1 <= i < h1 + 2 ^ o1 -> h2 <= i < h2 + 2 ^ o2 -> h1 = h2 /\ o1 = o2.
Proof using T.
  intros H1 H2 ??. destruct (decide (h1 = h2)) as [->|Hne].
  - split; congruence.
  - destruct (tl_disj _ _ _ T _ _ _ _ H1 H2 Hne); lia.
Qed.

(** A block aligned for order [o] whose first page is not strictly inside a
    bigger block starts a block of the tiling. *)
Lemma tiling_aligned_head b o :
  0 <= o -> (2 ^ o | b) -> 0 <= b < n ->
  (forall h o', B !! h = Some o' -> h <= b < h + 2 ^ o' -> o' <= o) ->
  exists o', B !! b = Some o' /\ o' <= o.
Proof using T.
  intros Ho Hb Hn Hsmall.
  destruct (tl_cover _ _ _ T b Hn) as (h & o' & HB & Hin).
  destruct (tl_blk _ _ _ T _ _ HB) as (Ho' & Hh & Hdiv & _).
  specialize (Hsmall _ _ HB Hin).
  assert (h = b) as ->; [|by exists o'].
  apply (divide_close (2 ^ o')); [lia|done| |done].
  etrans; [apply pow2_divide|done]; lia.
Qed.

(** The buddy of a block, when it lies inside the map, starts a block of
    no greater order. *)
Lemma tiling_buddy_head p o :
  B !! p = Some o -> buddy_of p o < n ->
  exists o', B !! buddy_of p o = Some o' /\ o' <= o.
Proof using T.
  intros HB Hn. destruct (tl_blk _ _ _ T _ _ HB) as (Ho & Hp & Hdiv & Hend).
  pose proof (pow2_pos o ltac:(lia)). set (b := buddy_of p o) in *.
  assert (Hb0 : 0 <= b).
  { destruct (buddy_cases p o ltac:(lia) Hdiv) as [[_ E]|[[k Hk] E]]; fold b in E.
    - lia.
    - rewrite pow2_succ in Hk by lia.
      assert (0 <= k) by (apply (mul_le_floor (2 * 2 ^ o) 0 k (2 ^ o)); lia). nia. }
  apply tiling_aligned_head; [lia|by apply buddy_aligned; [lia|]|lia|].
  intros h o' HB' Hin. destruct (Z.le_gt_cases o' o) as [|Hgt]; [done|exfalso].
  destruct (tl_blk _ _ _ T _ _ HB') as (Ho' & Hh & Hdiv' & Hend').
  (* the bigger block also contains p *)
  assert (Hd : (2 ^ (o + 1) | h)) by (etrans; [apply pow2_divide|done]; lia).
  assert (Hd2 : (2 ^ (o + 1) | 2 ^ o')) by (apply pow2_divide; lia).
  destruct Hd as [x Hx], Hd2 as [y Hy]. rewrite pow2_succ in * by lia.
  assert (h <= p < h + 2 ^ o').
  { destruct (buddy_cases p o ltac:(lia) Hdiv) as [[[k Hk] E]|[[k Hk] E]];
      fold b in E; rewrite pow2_succ in Hk by lia.
    - assert (x <= k) by (apply (mul_le_floor (2 * 2 ^ o) x k (2 ^ o)); lia).
      assert (~ x + y <= k) by
        (rewrite <- (mul_le_floor (2 * 2 ^ o) (x + y) k (2 ^ o)); lia). nia.
    - assert (x <= k) by (apply (mul_le_floor (2 * 2 ^ o) x k 0); lia).
      assert (~ x + y <= k) by
        (rewrite <- (mul_le_floor (2 * 2 ^ o) (x + y) k 0); lia). nia. }
  destruct (tiling_unique p p o h o') as [-> ->]; [done|done|lia|lia|]. lia.
Qed.

Definition split_at (h o : Z) : gmap Z Z := <[h := o - 1]> (<[h + 2 ^ (o - 1) := o - 1]> B).

Lemma tiling_half_fresh h o :
  B !! h = Some o -> 0 < o -> B !! (h + 2 ^ (o - 1)) = None.
Proof using T.
  intros HB Ho. destruct (B !! (h + 2 ^ (o - 1))) as [o'|] eqn:E; [|done].
  destruct (tl_blk _ _ _ T _ _ E) as (? & _).
  pose proof (pow2_pred o Ho). pose proof (pow2_pos (o - 1) ltac:(lia)). pose proof (pow2_pos o' ltac:(lia)).
  destruct (tiling_unique (h + 2 ^ (o - 1)) _ _ _ _ HB E); lia.
Qed.

Lemma tiling_split h o :
  B !! h = Some o -> 0 < o -> tiling maxo (split_at h o) n.
Proof using T.
  intros HB Ho. pose proof (pow2_pred o Ho). pose proof (pow2_pos (o - 1) ltac:(lia)).
  destruct (tl_blk _ _ _ T _ _ HB) as (Ho1 & Hh & Hdiv & Hend).
  assert (Hd1 : (2 ^ (o - 1) | h)) by (etrans; [apply pow2_divide|done]; lia).
  unfold split_at. constructor.
  - intros h' o'. rewrite !lookup_insert. repeat case_decide; intros; simplify_eq.
    + repeat split; try lia; done.
    + repeat split; try lia. apply Z.divide_add_r; [done|apply Z.divide_refl].
    + by apply (tl_blk _ _ _ T).
  - assert (Hout : forall h' o', B !! h' = Some o' -> h' <> h ->
              h + 2 ^ o <= h' \/ h' + 2 ^ o' <= h).
    { intros h' o' HB' Hne. by apply (tl_disj _ _ _ T h o h' o'). }
    intros h1 o1 h2 o2. rewrite !lookup_insert.
    repeat case_decide; intros; simplify_eq; try lia.
    + edestruct Hout; eauto; lia.
    + edestruct Hout; eauto; lia.
    + edestruct (Hout h1); eauto; lia.
    + edestruct (Hout h1); eauto; lia.
    + by eapply (tl_disj _ _ _ T).
  - intros i Hi. destruct (tl_cover _ _ _ T i Hi) as (h' & o' & HB' & Hin).
    destruct (decide (h' = h)) as [->|Hne].
    + simplify_eq. destruct (Z.lt_ge_cases i (h + 2 ^ (o - 1))).
      * exists h, (o - 1). rewrite lookup_insert_eq. split; [done|lia].
      * exists (h + 2 ^ (o - 1)), (o - 1).
        rewrite lookup_insert_ne by lia. rewrite lookup_insert_eq. split; [done|lia].
    + exists h', o'. split; [|done]. rewrite lookup_insert_ne by done.
      rewrite lookup_insert_ne; [done|]. intros <-.
      by rewrite (tiling_half_fresh h o) in HB'.
Qed.

Definition merge_at (h o : Z) : gmap Z Z := <[h := o + 1]> (delete (h + 2 ^ o) B).

Lemma tiling_merge h o :
  B !! h = Some o -> B !! (h + 2 ^ o) = Some o -> (2 ^ (o + 1) | h) -> o < maxo ->
  tiling maxo (merge_at h o) n.
Proof using T.
  intros HB HB2 Hdiv Ho.
  destruct (tl_blk _ _ _ T _ _ HB) as (Ho1 & Hh & _ & Hend).
  destruct (tl_blk _ _ _ T _ _ HB2) as (_ & _ & _ & Hend2).
  pose proof (pow2_succ o ltac:(lia)). pose proof (pow2_pos o ltac:(lia)).
  assert (Hout : forall h' o', B !! h' = Some o' -> h' <> h -> h' <> h + 2 ^ o ->
            h + 2 ^ (o + 1) <= h' \/ h' + 2 ^ o' <= h).
  { intros h' o' HB' Hn1 Hn2. destruct (tl_blk _ _ _ T _ _ HB') as (? & _).
    pose proof (pow2_pos o' ltac:(lia)).
    destruct (tl_disj _ _ _ T _ _ _ _ HB HB'); [done| |];
    destruct (tl_disj _ _ _ T _ _ _ _ HB2 HB'); try done; lia. }
  unfold merge_at. constructor.
  - intros h' o'. rewrite lookup_insert, lookup_delete.
    repeat case_decide; intros; simplify_eq.
    + repeat split; try lia; done.
    + by apply (tl_blk _ _ _ T).
  - intros h1 o1 h2 o2. rewrite !lookup_insert, !lookup_delete.
    repeat case_decide; intros; simplify_eq; try lia.
    + by eapply Hout.
    + edestruct (Hout h1); eauto; lia.
    + by eapply (tl_disj _ _ _ T).
  - intros i Hi. destruct (tl_cover _ _ _ T i Hi) as (h' & o' & HB' & Hin).
    destruct (decide (h' = h)) as [->|Hn1];
      [|destruct (decide (h' = h + 2 ^ o)) as [->|Hn2]].
    + simplify_eq. exists h, (o + 1). rewrite lookup_insert_eq. split; [done|lia].
    + simplify_eq. exists h, (o + 1). rewrite lookup_insert_eq. split; [done|lia].
    + exists h', o'. rewrite lookup_insert_ne, lookup_delete_ne by done. done.
Qed.

(** In a tiling where no two free buddies of the same order lie side by
    side, an aligned run of free pages lies inside one free block. *)
Lemma tiling_free_run (free : Z -> Prop) b o :
  (forall h k, B !! h = Some k -> k < maxo -> free h ->
     B !! buddy_of h k = Some k -> free (buddy_of h k) -> False) ->
  0 <= o <= maxo -> (2 ^ o | b) -> 0 <= b -> b + 2 ^ o <= n ->
  (forall h k i, B !! h = Some k -> b <= i < b + 2 ^ o -> h <= i < h + 2 ^ k -> free h) ->
  exists h k, B !! h = Some k /\ free h /\ o <= k /\ h <= b /\ b + 2 ^ o <= h + 2 ^ k.
Proof using T.
  intros Hco Ho. destruct Ho as [Ho0 Ho]. revert b Ho.
  pattern o. apply natlike_ind; [| |done]; clear o Ho0.
  - intros b _ _ Hb Hn Hfree. rewrite Z.pow_0_r in *.
    destruct (tl_cover _ _ _ T b) as (h & k & HB & Hin); [lia|].
    destruct (tl_blk _ _ _ T _ _ HB) as (Hk & _).
    exists h, k. repeat split; [done| |lia..]. by apply (Hfree h k b); [|lia|].
  - intros o Ho IH b Hom Hdiv Hb Hn Hfree. rewrite <- Z.add_1_r in *.
    pose proof (pow2_succ o Ho). pose proof (pow2_pos o Ho).
    assert (Hdo : (2 ^ o | b)) by (etrans; [apply pow2_divide|done]; lia).
    destruct (IH b) as (h1 & k1 & HB1 & Hf1 & Hk1 & ? & ?); [lia|done|lia|lia| |].
    { intros h k i ???. by apply (Hfree h k i); [|lia|]. }
    destruct (Z.eq_dec k1 o) as [->|Hne].
    2: { destruct (tl_blk _ _ _ T _ _ HB1) as (Hk & Hh & Hd1 & _).
      exists h1, k1. repeat split; [done|done|lia|lia|].
      assert ((2 ^ (o + 1) | h1)) as [x Hx] by (etrans; [apply pow2_divide|done]; lia).
      assert ((2 ^ (o + 1) | 2 ^ k1)) as [y Hy] by (apply pow2_divide; lia).
      destruct Hdiv as [z Hz].
      assert (~ x + y <= z); [|nia]. intros ?. nia. }
    destruct (IH (b + 2 ^ o)) as (h2 & k2 & HB2 & Hf2 & Hk2 & ? & ?); [lia| |lia|lia| |].
    { apply Z.divide_add_r; [done|apply Z.divide_refl]. }
    { intros h k i ???. by apply (Hfree h k i); [|lia|]. }
    assert (h1 = b) as -> by lia.
    destruct (Z.eq_dec k2 o) as [->|Hne].
    + assert (h2 = b + 2 ^ o) as -> by lia. exfalso.
      rewrite <- (buddy_lo b o) in HB2, Hf2 by done.
      apply (Hco b o); auto; lia.
    + exfalso. destruct (tl_blk _ _ _ T _ _ HB2) as (_ & Hh2 & Hd2 & _).
      assert ((2 ^ (o + 1) | h2)) as [x Hx] by (etrans; [apply pow2_divide|done]; lia).
      destruct Hdiv as [z Hz].
      assert (x <= z) by (apply (mul_le_floor (2 * 2 ^ o) x z (2 ^ o)); lia).
      assert ((2 ^ (o + 1) | 2 ^ k2)) as [y Hy] by (apply pow2_divide; lia).
      destruct (tiling_unique b b o h2 k2) as [_ ->]; [done|done|lia| |lia].
      split; [nia|lia].
Qed.
End tiling.
