(* ===== verification/Pmem.v ===== *)
(** * Physical memory (kernel/mm/pmem.c, include/kernel/pmem.h)

    The two allocators of [pmem.c]: the boot allocator, a first-fit search
    over a bitmap of pages, and the binary buddy allocator that replaces it
    once [pmem_init] has built the page map.

    A [struct page *] is the index of the page in [pagemap]; the null
    pointer of [find_freeblock] and [find_buddy] is [None].  The intrusive
    list [freeblocks[o]] is the list of the indices linked into it
    (kernel/list.c is treated in DList.v).  [pmem_lock] is the flag "held by
    the running thread". *)

From stdpp Require Import prelude list.
From Stdlib Require Import ZArith Lia.
From S2P Require Import Prelude Mmu Bits.

(** ** State *)

(** include/kernel/pmem.h: struct page (its [node] is the membership in
    [freeblocks], its [lock] the holder of the sleeplock). *)
Record page := mkPage {
  page_lock : option Z;
  page_kmem_cache : Z;
  page_slab : Z;
  page_rmap : Z;
  page_refcnt : Z;
  page_order : Z;
  page_state : Z;
  page_blk_headers : list Z
}.

Definition page_zero : page := mkPage None 0 0 0 0 0 0 [].
Definition set_refcnt (v : Z) (p : page) : page :=
  mkPage (page_lock p) (page_kmem_cache p) (page_slab p) (page_rmap p) v
         (page_order p) (page_state p) (page_blk_headers p).
Definition set_order (v : Z) (p : page) : page :=
  mkPage (page_lock p) (page_kmem_cache p) (page_slab p) (page_rmap p)
         (page_refcnt p) v (page_state p) (page_blk_headers p).
Definition set_state (v : Z) (p : page) : page :=
  mkPage (page_lock p) (page_kmem_cache p) (page_slab p) (page_rmap p)
         (page_refcnt p) (page_order p) v (page_blk_headers p).
Definition set_slab (c sl : Z) (p : page) : page :=
  mkPage (page_lock p) c sl (page_rmap p)
         (page_refcnt p) (page_order p) (page_state p) (page_blk_headers p).
(** The field updates [pmem_nalloc_internal] makes besides [refcnt] and the
    dirty bit: fresh lock, no cache, no slab, no rmap, no block headers. *)
Definition reset_links (p : page) : page :=
  mkPage None 0 0 0 (page_refcnt p) (page_order p) (page_state p) [].

(** The static variables of pmem.c. *)
Record pmem := mkPmem {
  pmem_start : Z;
  pmem_end : Z;
  bitmap : list Z;
  bitmap_contig_start : Z;
  bitmap_end : Z;
  pagemap : list page;
  pagemap_initialized : bool;
  freeblocks : list (list Z);
  pmem_lock : bool
}.

Definition set_bitmap (v : list Z) (s : pmem) : pmem :=
  mkPmem (pmem_start s) (pmem_end s) v (bitmap_contig_start s) (bitmap_end s)
         (pagemap s) (pagemap_initialized s) (freeblocks s) (pmem_lock s).
Definition set_contig_start (v : Z) (s : pmem) : pmem :=
  mkPmem (pmem_start s) (pmem_end s) (bitmap s) v (bitmap_end s)
         (pagemap s) (pagemap_initialized s) (freeblocks s) (pmem_lock s).
Definition set_bitmap_end (v : Z) (s : pmem) : pmem :=
  mkPmem (pmem_start s) (pmem_end s) (bitmap s) (bitmap_contig_start s) v
         (pagemap s) (pagemap_initialized s) (freeblocks s) (pmem_lock s).
Definition set_pagemap (v : list page) (s : pmem) : pmem :=
  mkPmem (pmem_start s) (pmem_end s) (bitmap s) (bitmap_contig_start s)
         (bitmap_end s) v (pagemap_initialized s) (freeblocks s) (pmem_lock s).
Definition set_initialized (v : bool) (s : pmem) : pmem :=
  mkPmem (pmem_start s) (pmem_end s) (bitmap s) (bitmap_contig_start s)
         (bitmap_end s) (pagemap s) v (freeblocks s) (pmem_lock s).
Definition set_freeblocks (v : list (list Z)) (s : pmem) : pmem :=
  mkPmem (pmem_start s) (pmem_end s) (bitmap s) (bitmap_contig_start s)
         (bitmap_end s) (pagemap s) (pagemap_initialized s) v (pmem_lock s).
Definition set_lock (v : bool) (s : pmem) : pmem :=
  mkPmem (pmem_start s) (pmem_end s) (bitmap s) (bitmap_contig_start s)
         (bitmap_end s) (pagemap s) (pagemap_initialized s) (freeblocks s) v.

Definition PAGE_DIRTY_BIT : Z := 0.
Definition MAX_ORDER : Z := 10.
(** [sizeof(struct page)] with the x86-64 layout of its fields. *)
Definition SIZEOF_PAGE : Z := 136.

Definition lock_pmem : M pmem unit :=
  h <- gets pmem_lock;; if h then panic else modify (set_lock true).
Definition unlock_pmem : M pmem unit := modify (set_lock false).

(** ** Page map access *)

Definition page_at (i : Z) (s : pmem) : option page :=
  if 0 <=? i then pagemap s !! Z.to_nat i else None.
Definition get_page (i : Z) : M pmem page := p <- gets (page_at i);; deref p.
Definition upd_page (i : Z) (f : page -> page) : M pmem unit :=
  p <- get_page i;;
  modify (fun s => set_pagemap (<[Z.to_nat i := f p]> (pagemap s)) s).

Definition paddr_to_page (paddr : Z) : Z := paddr / pg_size.
Definition page_to_paddr (page : Z) : Z := u64 (page * pg_size).

(** arch/x86_64/kernel/mm/vpmap.c: kmap_v2p checks that the address is in the
    direct map of the installed memory; kmap_p2v is [KMAP_P2V]. *)
Definition kmap_v2p (vaddr : Z) : M pmem Z :=
  en <- gets pmem_end;;
  kassert ((KMAP_BASE <=? vaddr) && (vaddr <? u64 (KMAP_BASE + en)));;
  ret (KMAP_V2P vaddr).

(** ** Boot allocator *)

Definition BITMAP_ISSET (i : Z) : M pmem bool :=
  bm <- gets bitmap;;
  b <- deref (bm !! Z.to_nat (i / 8));;
  ret (negb (Z.land b (Z.shiftl 1 (i mod 8)) =? 0)).
Definition BITMAP_SET (i : Z) : M pmem unit :=
  bm <- gets bitmap;;
  b <- deref (bm !! Z.to_nat (i / 8));;
  modify (set_bitmap (<[Z.to_nat (i / 8) := u8 (Z.lor b (Z.shiftl 1 (i mod 8)))]> bm)).
Definition BITMAP_UNSET (i : Z) : M pmem unit :=
  bm <- gets bitmap;;
  b <- deref (bm !! Z.to_nat (i / 8));;
  modify (set_bitmap
    (<[Z.to_nat (i / 8) := u8 (Z.land b (Z.lnot (Z.shiftl 1 (i mod 8))))]> bm)).
Definition BITMAP_ITOP (i : Z) (s : pmem) : Z := u64 (i * pg_size + pmem_start s).
Definition BITMAP_PTOI (p : Z) (s : pmem) : Z := u64 (p - pmem_start s) / pg_size.

Definition bitmap_alloc (index n : Z) : M pmem unit :=
  e <- gets bitmap_end;;
  kassert (index + n <=? e);;
  for_ (Z.to_nat n) 0 (fun i =>
    b <- BITMAP_ISSET (index + i);;
    kassert (negb b);;
    BITMAP_SET (index + i));;
  cs <- gets bitmap_contig_start;;
  if cs <? index + n then modify (set_contig_start (index + n)) else ret tt.

Definition bitmap_free (index n : Z) : M pmem unit :=
  e <- gets bitmap_end;;
  kassert (index + n <=? e);;
  cs <- gets bitmap_contig_start;;
  kassert (index + n <=? cs);;
  for_ (Z.to_nat n) 0 (fun i =>
    b <- BITMAP_ISSET (index + i);;
    kassert b;;
    BITMAP_UNSET (index + i));;
  cs <- gets bitmap_contig_start;;
  if index + n =? cs then
    (* scan for contiguous free pages *)
    idx <- loop (S (Z.to_nat index)) (fun index =>
      if 0 <? index then
        b <- BITMAP_ISSET (index - 1);;
        if (b : bool) then ret (inr index) else ret (inl (index - 1))
      else ret (inr index)) index;;
    modify (set_contig_start idx)
  else ret tt.

(** The loop variables are [(i, first, n_free_pages)]; [-1] means not found. *)
Definition bitmap_find (n : Z) : M pmem Z :=
  kassert (0 <? n);;
  e <- gets bitmap_end;;
  loop (S (Z.to_nat e)) (fun '(i, first, n_free_pages) =>
    if i <? e then
      b <- BITMAP_ISSET i;;
      if (b : bool) then ret (inl (i + 1, first + 1, 0))
      else if n <=? n_free_pages + 1 then ret (inr first)
      else ret (inl (i + 1, first, n_free_pages + 1))
    else ret (inr (-1))) (0, 0, 0).

Definition bitmap_n_pages (s : pmem) : Z :=
  pg_round_up ((pmem_end s - pmem_start s) / pg_size / 8) / pg_size.

Definition bitmap_init : M pmem unit :=
  st <- gets pmem_start;; en <- gets pmem_end;;
  kassert (st <? en);;
  kassert (pg_aligned st);;
  kassert (pg_aligned en);;
  modify (set_contig_start 0);;
  n <- gets bitmap_n_pages;;
  modify (set_bitmap_end ((en - st) / pg_size));;
  e <- gets bitmap_end;;
  kassert (n <? e);;
  modify (set_bitmap (replicate (Z.to_nat (pg_size * n)) 0));;
  bitmap_alloc 0 n.

(** ** Buddy allocator *)

(** The loop [for (order = MAX_ORDER; order > 0; order--)]; [k] counts the
    orders left. *)
Fixpoint max_order_from (k : nat) (start_index end_index : Z) : Z :=
  match k with
  | O => 0
  | S k' =>
      let order := Z.of_nat k in
      if (start_index mod Z.shiftl 1 order =? 0)
         && (start_index + Z.shiftl 1 order <=? end_index)
      then order
      else max_order_from k' start_index end_index
  end.

Definition get_max_page_order (start end_ : Z) : M pmem Z :=
  let start_index := start / pg_size in
  let end_index := end_ / pg_size in
  kassert (start_index <? end_index);;
  ret (max_order_from (Z.to_nat MAX_ORDER) start_index end_index).

Definition get_min_page_order (n : Z) : M pmem Z :=
  r <- for_ret (Z.to_nat (MAX_ORDER + 1)) 0 (fun order =>
        ret (if n <=? Z.shiftl 1 order then Some order else None));;
  match r with Some order => ret order | None => panic end.

Definition order_ok (o : Z) : bool := (0 <=? o) && (o <=? MAX_ORDER).

Definition freeblocks_insert (page : Z) : M pmem unit :=
  p <- get_page page;;
  kassert (order_ok (page_order p));;
  upd_page page (set_refcnt 0);;
  modify (fun s => set_freeblocks
    (alter (fun l => l ++ [page]) (Z.to_nat (page_order p)) (freeblocks s)) s).

(** [list_remove(&page->node)] unlinks the page from the list it is in; a
    page that is in no list has no valid links. *)
Definition freeblocks_remove (page : Z) : M pmem unit :=
  p <- get_page page;;
  kassert (page_refcnt p =? 0);;
  kassert (order_ok (page_order p));;
  fb <- gets freeblocks;;
  if existsb (fun l => bool_decide (page ∈ l)) fb
  then modify (set_freeblocks (map (filter (fun q => q ≠ page)) fb))
  else stop BadAccess.

(** The loop of [freeblocks_insert_range]. *)
Definition freeblocks_insert_range (start end_ : Z) : M pmem unit :=
  loop (S (Z.to_nat (end_ - start))) (fun start =>
    if start <? end_ then
      order <- get_max_page_order start end_;;
      let page := paddr_to_page start in
      upd_page page (set_order order);;
      freeblocks_insert page;;
      ret (inl (start + Z.shiftl 1 order * pg_size))
    else ret (inr tt)) start.

Definition find_buddy (page : Z) : M pmem (option Z) :=
  p <- get_page page;;
  kassert (order_ok (page_order p));;
  kassert (page mod Z.shiftl 1 (page_order p) =? 0);;
  let index := page / Z.shiftl 1 (page_order p) in
  let buddy := if Z.land index 1 =? 0 then page + Z.shiftl 1 (page_order p)
               else page - Z.shiftl 1 (page_order p) in
  pm <- gets pagemap;;
  if Z.of_nat (length pm) <=? buddy then ret None else ret (Some buddy).

(** [fuel] bounds the recursion through the orders. *)
Fixpoint find_freeblock_rec (fuel : nat) (order : Z) (split : bool) :
    M pmem (option Z) :=
  match fuel with
  | O => stop Diverge
  | S fuel' =>
    if (order <? 0) || (MAX_ORDER <? order) then ret None
    else
      fb <- gets freeblocks;;
      l <- deref (fb !! Z.to_nat order);;
      r <- match l with
          | page :: _ => freeblocks_remove page;; ret (Some page)
          | [] => find_freeblock_rec fuel' (order + 1) true
          end;;
      match r with
      | None => ret None
      | Some page =>
          (if split then
             upd_page page (set_order (order - 1));;
             b <- find_buddy page;;
             match b with
             | None => panic
             | Some buddy =>
                 upd_page buddy (set_order (order - 1));;
                 freeblocks_insert buddy
             end
           else ret tt);;
          ret (Some page)
      end
  end.
Definition find_freeblock (order : Z) (split : bool) : M pmem (option Z) :=
  find_freeblock_rec (Z.to_nat (MAX_ORDER + 2)) order split.

Fixpoint merge_block_rec (fuel : nat) (page : Z) : M pmem Z :=
  match fuel with
  | O => stop Diverge
  | S fuel' =>
    p <- get_page page;;
    kassert (page_refcnt p =? 0);;
    kassert (order_ok (page_order p));;
    if page_order p =? MAX_ORDER then ret page
    else
      b <- find_buddy page;;
      match b with
      | None => ret page
      | Some buddy =>
          bp <- get_page buddy;;
          if (page_refcnt bp =? 0) && (page_order bp =? page_order p) then
            freeblocks_remove buddy;;
            if page <? buddy then
              upd_page page (set_order (page_order p + 1));;
              merge_block_rec fuel' page
            else
              upd_page buddy (set_order (page_order bp + 1));;
              merge_block_rec fuel' buddy
          else ret page
      end
  end.
Definition merge_block (page : Z) : M pmem Z :=
  merge_block_rec (Z.to_nat (MAX_ORDER + 1)) page.

Definition pmem_is_page_dirty (p : page) : bool :=
  get_state_bit (page_state p) PAGE_DIRTY_BIT.
Definition pmem_set_page_dirty (dirty : bool) (p : page) : page :=
  set_state (set_state_bit (page_state p) PAGE_DIRTY_BIT dirty) p.

(** [inl paddr]: ERR_OK with the address stored through the pointer;
    [inr tt]: ERR_NOMEM. *)
Definition pmem_nalloc_internal (n : Z) (lock : bool) : M pmem (Z + unit) :=
  kassert (0 <? n);;
  (if lock then lock_pmem else ret tt);;
  init <- gets pagemap_initialized;;
  r <- (if negb init then
         index <- bitmap_find n;;
         if index =? -1 then ret (inr tt)
         else bitmap_alloc index n;; pa <- gets (BITMAP_ITOP index);; ret (inl pa)
       else
         order <- get_min_page_order n;;
         f <- find_freeblock order false;;
         match f with
         | None => ret (inr tt)
         | Some page =>
             upd_page page reset_links;;
             upd_page page (pmem_set_page_dirty false);;
             p <- get_page page;;
             kassert (page_refcnt p =? 0);;
             upd_page page (set_refcnt 1);;
             let paddr := page_to_paddr page in
             kassert (negb (paddr =? NULL));;
             ret (inl paddr)
         end);;
  (if lock then unlock_pmem else ret tt);;
  ret r.

Definition pmem_nfree_internal (paddr n : Z) (lock : bool) : M pmem unit :=
  kassert (0 <? n);;
  (if lock then lock_pmem else ret tt);;
  init <- gets pagemap_initialized;;
  (if negb init then
     index <- gets (BITMAP_PTOI paddr);;
     bitmap_free index n
   else
     let page := paddr_to_page paddr in
     upd_page page (set_refcnt 0);;
     page <- merge_block page;;
     freeblocks_insert page);;
  (if lock then unlock_pmem else ret tt).

Definition pmem_nalloc (n : Z) : M pmem (Z + unit) := pmem_nalloc_internal n true.
Definition pmem_alloc : M pmem (Z + unit) := pmem_nalloc 1.
Definition pmem_nfree (paddr n : Z) : M pmem unit := pmem_nfree_internal paddr n true.
Definition pmem_free (paddr : Z) : M pmem unit := pmem_nfree paddr 1.

Definition pmem_get_refcnt (paddr : Z) : M pmem Z :=
  p <- get_page (paddr_to_page paddr);; ret (page_refcnt p).

Definition pmem_inc_refcnt (paddr n : Z) : M pmem unit :=
  let page := paddr_to_page paddr in
  lock_pmem;;
  p <- get_page page;;
  kassert (0 <? page_refcnt p);;
  kassert (page_order p =? 0);;
  upd_page page (set_refcnt (i32 (page_refcnt p + n)));;
  unlock_pmem.

Definition pmem_dec_refcnt (paddr : Z) : M pmem unit :=
  let page := paddr_to_page paddr in
  lock_pmem;;
  p <- get_page page;;
  kassert (0 <? page_refcnt p);;
  kassert (page_order p =? 0);;
  upd_page page (set_refcnt (page_refcnt p - 1));;
  p <- get_page page;;
  (if page_refcnt p =? 0 then pmem_nfree_internal paddr 1 false else ret tt);;
  unlock_pmem.

(** ** Initialisation *)

Definition pagemap_init : M pmem unit :=
  en <- gets pmem_end;;
  let n_pages := en / pg_size in
  let pagemap_n_pages := pg_round_up (n_pages * SIZEOF_PAGE) / pg_size in
  r <- pmem_nalloc_internal pagemap_n_pages false;;
  match r with
  | inr _ => panic
  | inl _ => modify (set_pagemap (replicate (Z.to_nat n_pages) page_zero))
  end.

(** The first allocated bit at or after [probe], or [bitmap_contig_start]. *)
Definition probe_free (probe0 : Z) : M pmem Z :=
  cs <- gets bitmap_contig_start;;
  loop (S (Z.to_nat (cs - probe0))) (fun probe =>
    if probe <? cs then
      b <- BITMAP_ISSET probe;;
      if (b : bool) then ret (inr probe) else ret (inl (probe + 1))
    else ret (inr probe)) probe0.

Definition mark_allocated (page : Z) : M pmem unit :=
  upd_page page (set_refcnt 1);; upd_page page (set_order 0).

Definition freeblocks_init : M pmem unit :=
  (* free pages used by bitmap; bitmap lives at pmem_start *)
  n <- gets bitmap_n_pages;;
  paddr <- gets pmem_start;;
  pmem_nfree_internal paddr n false;;
  (* initialize free lists *)
  modify (set_freeblocks (replicate (Z.to_nat (MAX_ORDER + 1)) []));;
  (* mark unavailable physical pages as allocated *)
  for_ (Z.to_nat (paddr / pg_size)) 0 (fun i =>
    mark_allocated (paddr_to_page (i * pg_size)));;
  (* go through bitmap to add free pages to free lists *)
  cs <- gets bitmap_contig_start;;
  loop (S (Z.to_nat cs)) (fun index =>
    if index <? cs then
      b <- BITMAP_ISSET index;;
      if (b : bool) then
        pa <- gets (BITMAP_ITOP index);;
        mark_allocated (paddr_to_page pa);;
        ret (inl (index + 1))
      else
        probe <- probe_free (index + 1);;
        lo <- gets (BITMAP_ITOP index);;
        hi <- gets (BITMAP_ITOP probe);;
        freeblocks_insert_range lo hi;;
        ret (inl probe)
    else ret (inr tt)) 0;;
  (* add the remaining physical pages to free lists *)
  lo <- gets (BITMAP_ITOP cs);;
  en <- gets pmem_end;;
  freeblocks_insert_range lo en.

Definition pmem_init : M pmem unit :=
  lock_pmem;;
  pagemap_init;;
  freeblocks_init;;
  modify (set_initialized true);;
  unlock_pmem.

(** [pmem_arch_init] (arch/x86_64/kernel/mm/pmem.c) leaves the bounds of the
    usable region in [pmemconfig]; the rest of [pmem_boot_init]: *)
Definition pmem_boot_init : M pmem unit :=
  bitmap_init;;
  modify (set_lock false);;
  modify (set_initialized false).
