(* ===== verification/PmemBoot.v ===== *)
(** * The boot allocator

    Before [pmem_init] the kernel allocates pages from a bitmap, and at that
    stage it only ever takes pages, so the allocated pages form a prefix.
    [boot_inv k s]: pages [0, k) of the region are taken, the rest is free.
    On such a bitmap the allocator is exact; on a general one [bitmap_find]
    is not ([bitmap_find_not_first_fit]). *)

From stdpp Require Import prelude list gmap.
From Stdlib Require Import ZArith Lia.
From S2P Require Import Prelude Mmu Bits Pmem.

(** ** Bits of the bitmap *)

Definition bm_bit (bm : list Z) (i : Z) : bool :=
  Z.testbit (default 0 (bm !! Z.to_nat (i / 8))) (i mod 8).
Definition bm_ok (bm : list Z) (e : Z) : Prop :=
  e <= 8 * Z.of_nat (length bm) /\ Forall (fun b => 0 <= b < 2 ^ 8) bm.

Lemma bm_byte bm e i : bm_ok bm e -> 0 <= i < e ->
  exists b, bm !! Z.to_nat (i / 8) = Some b /\ 0 <= b < 2 ^ 8 /\ bm_bit bm i = Z.testbit b (i mod 8).
Proof.
  intros [Hlen Hb] Hi.
  destruct (lookup_lt_is_Some_2 bm (Z.to_nat (i / 8))) as [b Eb].
  { pose proof (Z.div_mod i 8). pose proof (Z.mod_pos_bound i 8). lia. }
  exists b. split; [done|]. split; [by eapply Forall_lookup_1 in Hb|].
  unfold bm_bit. by rewrite Eb.
Qed.

Lemma land_pow2_testbit b k : 0 <= k -> negb (Z.land b (Z.shiftl 1 k) =? 0) = Z.testbit b k.
Proof.
  intros Hk. rewrite Z.shiftl_1_l. destruct (Z.eqb_spec (Z.land b (2 ^ k)) 0) as [E|E]; simpl.
  - assert (Ht : Z.testbit (Z.land b (2 ^ k)) k = false) by (rewrite E; apply Z.bits_0).
    rewrite Z.land_spec, Z.pow2_bits_true, andb_true_r in Ht by lia. congruence.
  - destruct (Z.testbit b k) eqn:Et; [done|]. exfalso. apply E. apply Z.bits_inj'. intros n Hn.
    rewrite Z.land_spec, Z.bits_0, Z.pow2_bits_eqb by lia.
    destruct (Z.eqb_spec k n) as [<-|]; [by rewrite Et|]. apply andb_false_r.
Qed.

Lemma lor_pow2_bound b k : 0 <= b < 2 ^ 8 -> 0 <= k < 8 -> 0 <= Z.lor b (Z.shiftl 1 k) < 2 ^ 8.
Proof.
  intros Hb Hk. rewrite Z.shiftl_1_l. split; [apply Z.lor_nonneg; lia|].
  assert (E : Z.lor b (2 ^ k) = Z.land (Z.lor b (2 ^ k)) (Z.ones 8)).
  { symmetry. apply Z.bits_inj'. intros n Hn. rewrite Z.land_spec.
    destruct (Z.lt_ge_cases n 8); [rewrite Z.ones_spec_low by lia; apply andb_true_r|].
    rewrite Z.ones_spec_high, andb_false_r by lia. rewrite Z.lor_spec, Z.pow2_bits_false by lia.
    rewrite orb_false_r. symmetry. apply Z.bits_above_log2; [lia|].
    destruct (Z.eq_dec b 0) as [->|]; [simpl; lia|]. apply Z.log2_lt_pow2; [lia|].
    eapply Z.lt_le_trans; [apply Hb|]. apply Z.pow_le_mono_r; lia. }
  rewrite E, Z.land_ones by lia. apply Z.mod_pos_bound. lia.
Qed.

Definition bm_set (i : Z) (bm : list Z) : list Z :=
  <[Z.to_nat (i / 8) := Z.lor (default 0 (bm !! Z.to_nat (i / 8))) (Z.shiftl 1 (i mod 8))]> bm.

Lemma bm_set_ok bm e i : bm_ok bm e -> 0 <= i < e -> bm_ok (bm_set i bm) e.
Proof.
  intros Hok Hi. destruct (bm_byte _ _ _ Hok Hi) as (b & Eb & Hb & _). destruct Hok as [Hlen HF].
  unfold bm_set. rewrite Eb. simpl. split; [by rewrite length_insert|].
  apply Forall_insert; [done|]. apply lor_pow2_bound; [done|]. apply Z.mod_pos_bound. lia.
Qed.

Lemma bm_bit_set bm e i j :
  bm_ok bm e -> 0 <= i < e -> 0 <= j -> bm_bit (bm_set i bm) j = (j =? i) || bm_bit bm j.
Proof.
  intros Hok Hi Hj. destruct (bm_byte _ _ _ Hok Hi) as (b & Eb & _).
  pose proof (lookup_lt_Some _ _ _ Eb).
  unfold bm_bit, bm_set. rewrite Eb. simpl.
  pose proof (Z.div_mod i 8). pose proof (Z.div_mod j 8).
  pose proof (Z.mod_pos_bound i 8). pose proof (Z.mod_pos_bound j 8).
  destruct (decide (Z.to_nat (j / 8) = Z.to_nat (i / 8))) as [E|E].
  - rewrite E, list_lookup_insert_eq, Eb by done. simpl.
    rewrite Z.lor_spec, Z.shiftl_1_l, Z.pow2_bits_eqb by lia. rewrite orb_comm. f_equal.
    destruct (Z.eqb_spec (i mod 8) (j mod 8)), (Z.eqb_spec j i); try done; lia.
  - rewrite list_lookup_insert_ne by done.
    destruct (Z.eqb_spec j i) as [->|]; [done|]. done.
Qed.

(** ** The accessors *)

Lemma wp_ISSET i s e (Q : bool -> pmem -> Prop) :
  bm_ok (bitmap s) e -> 0 <= i < e -> Q (bm_bit (bitmap s) i) s -> wp (BITMAP_ISSET i) Q s.
Proof.
  intros Hok Hi HQ. destruct (bm_byte _ _ _ Hok Hi) as (b & Eb & _ & Et).
  unfold BITMAP_ISSET. wp_step. wp_step. wp_step. wp_step; [done|]. wp_step.
  rewrite land_pow2_testbit by (apply Z.mod_pos_bound; lia). by rewrite <- Et.
Qed.

Lemma wp_SET i s e (Q : unit -> pmem -> Prop) :
  bm_ok (bitmap s) e -> 0 <= i < e -> Q tt (set_bitmap (bm_set i (bitmap s)) s) ->
  wp (BITMAP_SET i) Q s.
Proof.
  intros Hok Hi HQ. destruct (bm_byte _ _ _ Hok Hi) as (b & Eb & Hb & _).
  unfold BITMAP_SET. wp_step. wp_step. wp_step. wp_step; [done|]. wp_step.
  rewrite wrapu_small; [|apply lor_pow2_bound; [done|apply Z.mod_pos_bound; lia]].
  unfold bm_set in HQ. by rewrite Eb in HQ.
Qed.

(** ** The boot invariant *)

Record boot_inv (k : Z) (s : pmem) : Prop := {
  bi_bm : bm_ok (bitmap s) (bitmap_end s);
  bi_cs : bitmap_contig_start s = k;
  bi_k : 0 <= k <= bitmap_end s;
  bi_bits : forall i, 0 <= i < bitmap_end s -> bm_bit (bitmap s) i = (i <? k)
}.

Definition same_region (s s' : pmem) : Prop :=
  pmem_start s' = pmem_start s /\ pmem_end s' = pmem_end s /\ bitmap_end s' = bitmap_end s /\
  pagemap s' = pagemap s /\ pagemap_initialized s' = pagemap_initialized s /\
  freeblocks s' = freeblocks s /\ pmem_lock s' = pmem_lock s.

(** [bitmap_alloc] of the [n] pages after the prefix. *)
Lemma wp_bitmap_alloc k n s :
  boot_inv k s -> 0 <= n -> k + n <= bitmap_end s ->
  wp (bitmap_alloc k n) (fun _ s' => boot_inv (k + n) s' /\ same_region s s') s.
Proof.
  intros [Hok Hcs Hk Hbits] Hn Hle. unfold bitmap_alloc. wp_step. wp_step. wp_step.
  wp_step; [by apply Z.leb_le|]. wp_step.
  apply (wp_for _ _ _ (fun i s' => 0 <= i <= n /\ bm_ok (bitmap s') (bitmap_end s) /\ same_region s s' /\
     bitmap_contig_start s' = k /\
     forall j, 0 <= j < bitmap_end s -> bm_bit (bitmap s') j = (j <? k + i))).
  - split; [lia|]. split; [done|]. split; [done|]. split; [done|]. intros. by rewrite Z.add_0_r, Hbits.
  - intros i s' Hi (_ & Hok' & Hsame & Hcs' & Hb'). wp_step.
    eapply wp_ISSET; [done|lia|]. wp_step. wp_step.
    { rewrite Hb' by lia. apply negb_true_iff, Z.ltb_ge. lia. }
    eapply wp_SET; [done|lia|]. split; [lia|]. split; [apply bm_set_ok; [done|lia]|].
    split; [done|]. split; [done|]. intros j Hj. simpl.
    erewrite bm_bit_set by (done || lia). rewrite Hb' by done.
    destruct (Z.eqb_spec j (k + i)), (Z.ltb_spec j (k + i)), (Z.ltb_spec j (k + (i + 1))); done || lia.
  - intros s' (_ & Hok' & Hsame & Hcs' & Hb'). wp_step. wp_step. rewrite Hcs'.
    rewrite Z2Nat.id in Hb' by lia.
    assert (He : bitmap_end s' = bitmap_end s) by apply Hsame.
    destruct (Z.ltb_spec k (k + n)); wp_step; (split; [|done]);
      constructor; simpl; rewrite ?He; try done; lia.
Qed.

(** [bitmap_find] on a prefix. *)
Lemma wp_bitmap_find k n s :
  boot_inv k s -> 0 < n ->
  wp (bitmap_find n) (fun r s' => s' = s /\ r = if k + n <=? bitmap_end s then k else -1) s.
Proof.
  intros [Hok Hcs Hk Hbits] Hn. unfold bitmap_find. wp_step. wp_step; [by apply Z.ltb_lt|].
  wp_step. wp_step.
  apply (wp_loop _ _ (fun '(i, first, nfree) s' => s' = s /\ 0 <= i <= bitmap_end s /\
            first = Z.min i k /\ nfree = i - first /\ nfree < n)
          (fun '(i, _, _) _ => Z.to_nat (bitmap_end s - i))).
  - intros [[i first] nfree] s' (-> & Hi & -> & -> & Hlt).
    destruct (Z.ltb_spec i (bitmap_end s)).
    + wp_step. eapply wp_ISSET; [done|lia|]. rewrite Hbits by lia.
      destruct (Z.ltb_spec i k); [wp_step; split; [split; [done|lia]|lia]|].
      destruct (Z.leb_spec n (i - Z.min i k + 1)); wp_step.
      * split; [done|]. destruct (Z.leb_spec (k + n) (bitmap_end s)); lia.
      * split; [split; [done|lia]|lia].
    + wp_step. split; [done|]. destruct (Z.leb_spec (k + n) (bitmap_end s)); lia.
  - split; [done|lia].
  - simpl. lia.
Qed.

Lemma wp_boot_nalloc k n s lock :
  boot_inv k s -> 0 < n -> pagemap_initialized s = false -> (lock = true -> pmem_lock s = false) ->
  wp (pmem_nalloc_internal n lock)
    (fun r s' => same_region s s' /\
       if k + n <=? bitmap_end s then r = inl (u64 (k * pg_size + pmem_start s)) /\ boot_inv (k + n) s'
       else r = inr tt /\ boot_inv k s') s.
Proof.
  intros HI Hn Hinit Hl.
  assert (Hbody : forall s1, boot_inv k s1 ->
    wp (index <- bitmap_find n;;
        if index =? -1 then ret (inr tt)
        else bitmap_alloc index n;; pa <- gets (BITMAP_ITOP index);; ret (inl pa))
      (fun r s' => same_region s1 s' /\
         if k + n <=? bitmap_end s1 then r = inl (u64 (k * pg_size + pmem_start s1)) /\ boot_inv (k + n) s'
         else r = inr tt /\ boot_inv k s') s1).
  { clear s HI Hinit Hl. intros s1 H1. pose proof (bi_k _ _ H1).
    wp_step. eapply wp_mono; [by apply wp_bitmap_find|]. intros r s' [-> ->].
    destruct (Z.leb_spec (k + n) (bitmap_end s1)).
    - destruct (Z.eqb_spec k (-1)); [lia|]. wp_step.
      eapply wp_mono; [by apply wp_bitmap_alloc; [| lia|]|]. intros [] s' [H2 Hs].
      wp_run. split; [done|]. split; [|done]. unfold BITMAP_ITOP. by destruct Hs as (-> & _).
    - simpl. wp_step. done. }
  unfold pmem_nalloc_internal. wp_step. wp_step; [by apply Z.ltb_lt|]. wp_step. destruct lock.
  - unfold lock_pmem. wp_step. wp_step. rewrite Hl by done. wp_step. wp_step. wp_step.
    simpl pagemap_initialized. rewrite Hinit. cbn [negb]. wp_step.
    eapply wp_mono; [apply (Hbody (set_lock true s)); by destruct HI|].
    intros r s' [Hs Hr]. unfold unlock_pmem. wp_run. simpl in *. split.
    { unfold same_region in *. simpl in *. rewrite Hl by done. intuition. }
    destruct (_ <=? _); (split; [apply Hr|]); destruct Hr as [_ [? ? ? ?]]; by constructor.
  - wp_step. wp_step. wp_step. rewrite Hinit. cbn [negb]. wp_step.
    eapply wp_mono; [by apply Hbody|]. intros. wp_run. done.
Qed.

Definition np_region (s : pmem) : Z := (pmem_end s - pmem_start s) / pg_size.

Lemma bm_bit_zero n i : bm_bit (replicate n 0) i = false.
Proof.
  unfold bm_bit. destruct (replicate n 0 !! _) eqn:E; simpl; [|apply Z.bits_0].
  apply lookup_replicate in E as [-> _]. apply Z.bits_0.
Qed.

(** ** Claims *)

(** ([pmem_boot_init], [bitmap_init]): from the page-aligned region the
    architecture code found, of which the bitmap has a bit for every page,
    booting succeeds, and the first pages, those of the bitmap itself, are
    the allocated prefix. *)
Theorem pmem_boot_init_spec s :
  0 <= pmem_start s < pmem_end s -> pg_aligned (pmem_start s) = true ->
  pg_aligned (pmem_end s) = true ->
  np_region s <= 8 * (pg_size * bitmap_n_pages s) -> bitmap_n_pages s < np_region s ->
  wp pmem_boot_init
    (fun _ s' => boot_inv (bitmap_n_pages s) s' /\ bitmap_end s' = np_region s /\
       pmem_start s' = pmem_start s /\ pmem_end s' = pmem_end s /\
       pagemap_initialized s' = false /\ pmem_lock s' = false) s.
Proof.
  intros Hlt Ha1 Ha2 Hcov Hn. unfold pmem_boot_init, bitmap_init.
  assert (Hn0 : 0 <= bitmap_n_pages s).
  { unfold np_region, pg_size, PG_SIZE in *. pose proof (Z.div_pos (pmem_end s - pmem_start s) 4096). lia. }
  do 3 wp_step. wp_step. wp_step. wp_step. wp_step; [apply Z.ltb_lt; lia|].
  wp_step. wp_step; [done|]. wp_step. wp_step; [done|].
  wp_step. wp_step. wp_step. wp_step. wp_step. wp_step. wp_step. wp_step. wp_step.
  change (bitmap_n_pages (set_contig_start 0 s)) with (bitmap_n_pages s).
  wp_step; [apply Z.ltb_lt; done|]. wp_step. wp_step.
  change (bitmap_n_pages s) with (0 + bitmap_n_pages s) at 3.
  eapply wp_mono; [apply wp_bitmap_alloc|].
  - constructor; simpl; [split| |fold (np_region s); lia|].
    + rewrite length_replicate. fold (np_region s). unfold pg_size, PG_SIZE in *. lia.
    + apply Forall_replicate. lia.
    + done.
    + intros i Hi. rewrite bm_bit_zero. symmetry. apply Z.ltb_ge. lia.
  - done.
  - simpl. fold (np_region s). lia.
  - intros [] s' [[? ? ? ?] Hs]. wp_run. split; [by constructor|].
    destruct Hs as (H1 & H2 & H3 & _). simpl in *. done.
Qed.

(** The machine of the witnesses: 64 pages of usable memory from 256 KB on. *)
Definition demo_boot : pmem := mkPmem (64 * 4096) (128 * 4096) [] 0 0 [] false [] false.

Lemma pmem_boot_init_spec_witness :
  wp pmem_boot_init
    (fun _ s' => boot_inv (bitmap_n_pages demo_boot) s' /\ bitmap_end s' = np_region demo_boot /\
       pmem_start s' = pmem_start demo_boot /\ pmem_end s' = pmem_end demo_boot /\
       pagemap_initialized s' = false /\ pmem_lock s' = false) demo_boot.
Proof.
  apply (pmem_boot_init_spec demo_boot); [simpl; lia|reflexivity|reflexivity|vm_compute; discriminate|reflexivity].
Defined.

(** ([pmem_nalloc] at boot): on an allocated prefix of [k] pages a request
    for [n] pages returns the address of page [k] of the region and extends
    the prefix to [k + n], exactly when that fits; otherwise it returns
    ERR_NOMEM and changes nothing. *)
Theorem boot_nalloc_spec k n s :
  boot_inv k s -> 0 < n -> pagemap_initialized s = false -> pmem_lock s = false ->
  wp (pmem_nalloc n)
    (fun r s' => same_region s s' /\
       if k + n <=? bitmap_end s then r = inl (u64 (k * pg_size + pmem_start s)) /\ boot_inv (k + n) s'
       else r = inr tt /\ boot_inv k s') s.
Proof. intros. by apply (wp_boot_nalloc k n s true). Qed.

Definition demo_bm : pmem := mkPmem 0 (8 * 4096) [7] 3 8 [] false [] false.

Lemma boot_nalloc_spec_witness :
  wp (pmem_nalloc 2)
    (fun r s' => same_region demo_bm s' /\
       if 3 + 2 <=? bitmap_end demo_bm then r = inl (u64 (3 * pg_size + pmem_start demo_bm)) /\ boot_inv (3 + 2) s'
       else r = inr tt /\ boot_inv 3 s') demo_bm.
Proof.
  apply (boot_nalloc_spec 3 2 demo_bm); [|lia|reflexivity|reflexivity].
  constructor; simpl; [split; [simpl; lia|by repeat constructor]|done|lia|].
  intros i Hi. assert (i = 0 \/ i = 1 \/ i = 2 \/ i = 3 \/ i = 4 \/ i = 5 \/ i = 6 \/ i = 7) by lia.
  naive_solver.
Defined.

(** on a bitmap with holes the search is wrong.  When a set bit follows a
    free one, [first] advances by one instead of moving behind the set bit:
    with pages 1 taken and 0, 2, 3 free, [bitmap_find 2] answers page 1, which
    is taken, and the allocation of two pages then fails its kassert although
    pages 2 and 3 are free. *)
Theorem bitmap_find_not_first_fit :
  let s := mkPmem 0 (4 * 4096) [2] 2 4 [] false [] false in
  bm_bit (bitmap s) 2 = false /\ bm_bit (bitmap s) 3 = false /\
  bm_bit (bitmap s) 1 = true /\
  bitmap_find 2 s = Done (1, s) /\ pmem_nalloc 2 s = Stop KAssert.
Proof. vm_compute. auto. Qed.

(** [bitmap_init] rounds the number of bytes down before it rounds to
    pages.  With 32769 pages the one bitmap page has no bit for the last
    page of the region. *)
Theorem bitmap_init_misses_last_page :
  let s := mkPmem 0 (32769 * 4096) [] 0 0 [] false [] false in
  np_region s = 32769 /\ 8 * (pg_size * bitmap_n_pages s) = 32768.
Proof. vm_compute. auto. Qed.
