(* ===== verification/PmemBuddy.v ===== *)
(** * The buddy allocator: invariant and specification

    [inv B held s]: the page map and the free lists of [s] represent the
    tiling [B] of all physical pages; the blocks of [held] are in the hands
    of the running operation (free, but unlinked).  [buddy_rep A s] is the
    abstract view: [A] maps the first page of every allocated block to its
    order and reference count, everything else is free and fully coalesced. *)

From stdpp Require Import prelude list gmap.
From Stdlib Require Import ZArith Lia Znumtheory.
From S2P Require Import Prelude Mmu Bits Tiling Pmem.

Definition npages (s : pmem) : Z := Z.of_nat (length (pagemap s)).
Definition fl (o : Z) (s : pmem) : list Z := default [] (freeblocks s !! Z.to_nat o).

Record inv (B : gmap Z Z) (held : gset Z) (s : pmem) : Prop := {
  inv_small : npages s <= 2 ^ 31;
  inv_lists : length (freeblocks s) = 11%nat;
  inv_tiling : tiling MAX_ORDER B (npages s);
  inv_page : forall h o, B !! h = Some o -> exists p,
      page_at h s = Some p /\ page_order p = o /\ 0 <= page_refcnt p /\
      (page_refcnt p = 0 <-> h ∈ fl o s \/ h ∈ held);
  inv_fl : forall o h, 0 <= o -> h ∈ fl o s -> B !! h = Some o;
  inv_nodup : forall o, 0 <= o -> NoDup (fl o s);
  inv_held : forall h, h ∈ held -> is_Some (B !! h) /\ forall o, 0 <= o -> h ∉ fl o s;
  inv_coal : forall o h, 0 <= o < MAX_ORDER -> h ∈ fl o s -> buddy_of h o ∉ fl o s
}.

(** The state of pmem.c the buddy operations leave alone. *)
Definition cfg (s : pmem) :=
  (pmem_start s, pmem_end s, bitmap s, bitmap_contig_start s, bitmap_end s,
   pagemap_initialized s, pmem_lock s).

(** ** Page-map updates *)

Definition set_pg (i : Z) (p : page) (s : pmem) : pmem :=
  set_pagemap (<[Z.to_nat i := p]> (pagemap s)) s.

Lemma npages_set_pg i p s : npages (set_pg i p s) = npages s.
Proof. unfold npages, set_pg. simpl. by rewrite length_insert. Qed.

Lemma fl_set_pg o i p s : fl o (set_pg i p s) = fl o s.
Proof. done. Qed.

Lemma page_at_bounds i s p : page_at i s = Some p -> 0 <= i < npages s.
Proof.
  unfold page_at, npages. destruct (Z.leb_spec 0 i); [|done].
  intros ?%lookup_lt_Some. lia.
Qed.

Lemma page_at_is_Some i s : 0 <= i < npages s -> is_Some (page_at i s).
Proof.
  intros. unfold page_at, npages in *. destruct (Z.leb_spec 0 i); [|lia].
  apply lookup_lt_is_Some_2. lia.
Qed.

Lemma page_at_set i j p s :
  0 <= i < npages s -> page_at j (set_pg i p s) = if decide (i = j) then Some p else page_at j s.
Proof.
  intros Hi. unfold page_at, npages in *. simpl.
  destruct (Z.leb_spec 0 j); case_decide; subst; try lia; try done.
  - rewrite list_lookup_insert_eq; [done|lia].
  - rewrite list_lookup_insert_ne; [done|lia].
Qed.

Section pages.
Context (i : Z) (s : pmem) (p : page) (Hp : page_at i s = Some p).

Lemma wp_get_page (Q : page -> pmem -> Prop) : Q p s -> wp (get_page i) Q s.
Proof using Hp. intros. unfold get_page. wp_run; done. Qed.

Lemma wp_upd_page f (Q : unit -> pmem -> Prop) :
  Q tt (set_pg i (f p) s) -> wp (upd_page i f) Q s.
Proof using Hp.
  intros. unfold upd_page. wp_step. apply wp_get_page. wp_run. done.
Qed.

Lemma page_at_set_eq q : page_at i (set_pg i q s) = Some q.
Proof using Hp. rewrite page_at_set by (by eapply page_at_bounds). by case_decide. Qed.

Lemma page_at_set_ne j q : i <> j -> page_at j (set_pg i q s) = page_at j s.
Proof using Hp. intros. rewrite page_at_set by (by eapply page_at_bounds). by case_decide. Qed.
End pages.

(** ** Free-list updates *)

Definition rm_fl (h : Z) (s : pmem) : pmem :=
  set_freeblocks (map (filter (fun q => q ≠ h)) (freeblocks s)) s.
Definition add_fl (h o : Z) (s : pmem) : pmem :=
  set_freeblocks (alter (fun l => l ++ [h]) (Z.to_nat o) (freeblocks s)) s.

Lemma fl_rm h o s : fl o (rm_fl h s) = filter (fun q => q ≠ h) (fl o s).
Proof.
  unfold fl, rm_fl. simpl. rewrite list_lookup_fmap. by destruct (freeblocks s !! _).
Qed.

Lemma elem_fl_rm h o s q : q ∈ fl o (rm_fl h s) <-> q ∈ fl o s /\ q <> h.
Proof. rewrite fl_rm, list_elem_of_filter. tauto. Qed.

Lemma fl_add h o o' s :
  0 <= o < Z.of_nat (length (freeblocks s)) -> 0 <= o' ->
  fl o' (add_fl h o s) = if decide (o = o') then fl o' s ++ [h] else fl o' s.
Proof.
  intros. unfold fl, add_fl. simpl. rewrite list_lookup_alter.
  case_decide; case_decide; subst; try lia; [|done].
  destruct (freeblocks s !! Z.to_nat o') eqn:E; [done|].
  apply lookup_ge_None in E. lia.
Qed.

Lemma elem_fl_add h o o' s q :
  0 <= o < Z.of_nat (length (freeblocks s)) -> 0 <= o' ->
  q ∈ fl o' (add_fl h o s) <-> q ∈ fl o' s \/ (q = h /\ o = o').
Proof.
  intros. rewrite fl_add by done. case_decide; subst.
  - rewrite elem_of_app, list_elem_of_singleton. tauto.
  - tauto.
Qed.

Lemma fl_in_freeblocks h o s :
  0 <= o -> h ∈ fl o s -> existsb (fun l => bool_decide (h ∈ l)) (freeblocks s) = true.
Proof.
  unfold fl. intros ? Hin. destruct (freeblocks s !! Z.to_nat o) as [l|] eqn:E;
    simpl in Hin; [|by apply not_elem_of_nil in Hin].
  apply existsb_exists. exists l. split; [|by apply bool_decide_eq_true].
  apply list_elem_of_In, list_elem_of_lookup. eauto.
Qed.

(** ** The steps of the allocator on the invariant *)

Lemma order_ok_spec o : order_ok o = true <-> 0 <= o <= MAX_ORDER.
Proof. unfold order_ok. rewrite andb_true_iff, !Z.leb_le. done. Qed.

Lemma inv_blk B H s h o :
  inv B H s -> B !! h = Some o ->
  0 <= o <= MAX_ORDER /\ 0 <= h /\ (2 ^ o | h) /\ h + 2 ^ o <= npages s.
Proof. intros I. by apply (tl_blk _ _ _ (inv_tiling _ _ _ I)). Qed.

Lemma wp_freeblocks_remove B H s h o (Q : unit -> pmem -> Prop) :
  inv B H s -> 0 <= o -> h ∈ fl o s -> Q tt (rm_fl h s) -> wp (freeblocks_remove h) Q s.
Proof.
  intros I Ho Hin HQ. pose proof (inv_fl _ _ _ I _ _ Ho Hin) as HB.
  destruct (inv_page _ _ _ I _ _ HB) as (p & Hp & Hpo & _ & Hr).
  destruct (inv_blk _ _ _ _ _ I HB) as (Ho' & _).
  unfold freeblocks_remove. wp_step. eapply wp_get_page; [done|]. wp_run.
  - rewrite Z.eqb_eq. tauto.
  - apply order_ok_spec. lia.
  - rewrite (fl_in_freeblocks h o) by done. wp_run. done.
Qed.

Lemma inv_remove B H s h o :
  inv B H s -> 0 <= o -> h ∈ fl o s -> inv B (H ∪ {[h]}) (rm_fl h s).
Proof.
  intros I Ho Hin. pose proof (inv_fl _ _ _ I _ _ Ho Hin) as HB. constructor.
  - apply I.
  - simpl. rewrite length_map. apply I.
  - apply I.
  - intros h' o' HB'. destruct (inv_page _ _ _ I _ _ HB') as (p & ? & ? & ? & Hr).
    exists p. repeat split; try done.
    + rewrite Hr, elem_fl_rm, elem_of_union, elem_of_singleton. destruct (decide (h' = h)); tauto.
    + intros [[? ?]%elem_fl_rm|[?|?%elem_of_singleton]%elem_of_union]; apply Hr; [tauto|tauto|].
      subst. left. congruence.
  - intros o' h' ? [? _]%elem_fl_rm. by apply (inv_fl _ _ _ I).
  - intros o' ?. rewrite fl_rm. by apply NoDup_filter, I.
  - intros h' [?|?%elem_of_singleton]%elem_of_union.
    + destruct (inv_held _ _ _ I h') as [? Hn]; [done|]. split; [done|].
      intros o' ? [? _]%elem_fl_rm. by eapply Hn.
    + subst. split; [by rewrite HB|]. intros o' ? Hx. apply elem_fl_rm in Hx. tauto.
  - intros o' h' ? [? ?]%elem_fl_rm [? ?]%elem_fl_rm. by apply (inv_coal _ _ _ I o' h').
Qed.

(** Linking a held block back into its free list. *)
Lemma wp_freeblocks_insert B H s h o (Q : unit -> pmem -> Prop) :
  inv B H s -> B !! h = Some o -> h ∈ H ->
  (forall p, page_at h s = Some p -> Q tt (add_fl h o (set_pg h (set_refcnt 0 p) s))) ->
  wp (freeblocks_insert h) Q s.
Proof.
  intros I HB Hh HQ. destruct (inv_page _ _ _ I _ _ HB) as (p & Hp & Hpo & _ & Hr).
  destruct (inv_blk _ _ _ _ _ I HB) as (Ho & _).
  unfold freeblocks_insert. wp_step. eapply wp_get_page; [done|]. wp_step. wp_step.
  { apply order_ok_spec. lia. }
  wp_step. eapply wp_upd_page; [done|]. wp_run. rewrite Hpo. by apply HQ.
Qed.

Lemma inv_insert B H s h o p :
  inv B H s -> B !! h = Some o -> h ∈ H -> page_at h s = Some p ->
  (o < MAX_ORDER -> buddy_of h o ∉ fl o s) ->
  inv B (H ∖ {[h]}) (add_fl h o (set_pg h (set_refcnt 0 p) s)).
Proof.
  intros I HB Hh Hp Hbud. destruct (inv_blk _ _ _ _ _ I HB) as (Ho & Hh0 & Hdiv & _).
  destruct (inv_page _ _ _ I _ _ HB) as (p' & Hp' & Hpo & _ & Hr). simplify_eq.
  destruct (inv_held _ _ _ I h Hh) as [_ Hnot].
  set (s1 := set_pg h (set_refcnt 0 p) s).
  assert (Hlen : 0 <= page_order p < Z.of_nat (length (freeblocks s1)))
    by (simpl; rewrite (inv_lists _ _ _ I); unfold MAX_ORDER in *; lia).
  assert (Hel : forall o' q, 0 <= o' -> q ∈ fl o' (add_fl h (page_order p) s1) <->
            q ∈ fl o' s \/ (q = h /\ page_order p = o')).
  { intros. rewrite elem_fl_add by done. unfold s1. by rewrite fl_set_pg. }
  constructor.
  - change (npages s1 <= 2 ^ 31). unfold s1. rewrite npages_set_pg. apply I.
  - simpl. rewrite length_alter. apply I.
  - change (npages (add_fl _ _ s1)) with (npages s1). unfold s1. rewrite npages_set_pg. apply I.
  - intros h' o' HB'. destruct (inv_blk _ _ _ _ _ I HB') as (Ho' & _).
    change (page_at h' (add_fl h (page_order p) s1)) with (page_at h' s1).
    destruct (decide (h' = h)) as [->|Hne].
    + exists (set_refcnt 0 p). rewrite HB in HB'. simplify_eq.
      unfold s1. rewrite (page_at_set_eq h s p) by done.
      do 3 (split; [done|]). split; [|done]. intros _. left. apply Hel; [lia|auto].
    + destruct (inv_page _ _ _ I _ _ HB') as (q & Hq & ? & ? & Hr').
      exists q. unfold s1 at 1. rewrite (page_at_set_ne h s p) by done.
      do 3 (split; [done|]).
      rewrite Hr', Hel, elem_of_difference, elem_of_singleton by lia. tauto.
  - intros o' h' ?. rewrite Hel by done. intros [?|[-> <-]]; [by apply (inv_fl _ _ _ I)|done].
  - intros o' ?. rewrite fl_add by done. unfold s1. rewrite fl_set_pg.
    case_decide; [|by apply I]. apply NoDup_app. split; [by apply I|]. split.
    + intros x Hx ->%list_elem_of_singleton. by eapply (Hnot o').
    + apply NoDup_singleton.
  - intros h' [Hin Hn]%elem_of_difference.
    destruct (inv_held _ _ _ I h' Hin) as [? Hno]. split; [done|].
    intros o' ?. rewrite Hel by done. rewrite elem_of_singleton in Hn.
    intros [?|[-> _]]; [by eapply Hno|tauto].
  - intros o' h' Ho'. rewrite !Hel by lia. intros [Hin|[-> <-]].
    + intros [?|[Hb Heq]]; [by apply (inv_coal _ _ _ I o' h')|]. subst o'.
      apply Hbud; [lia|]. rewrite <- Hb. rewrite buddy_involutive; [done|lia|].
      eapply (inv_blk _ _ _ _ _ I), (inv_fl _ _ _ I); [lia|done].
    + intros [?|[? _]]; [by apply Hbud; [lia|]|]. by apply (buddy_ne h (page_order p)); [lia|].
Qed.

(** ** Frame: the allocated blocks an operation leaves alone *)

Definition allocd (B : gmap Z Z) (s : pmem) (h o : Z) (p : page) : Prop :=
  B !! h = Some o /\ page_at h s = Some p /\ 0 < page_refcnt p.

Definition frame (B : gmap Z Z) (s : pmem) (B' : gmap Z Z) (s' : pmem) : Prop :=
  (forall h o p, allocd B s h o p <-> allocd B' s' h o p) /\
  cfg s' = cfg s /\ npages s' = npages s.

Lemma frame_refl B s : frame B s B s.
Proof. done. Qed.

Lemma frame_trans B1 s1 B2 s2 B3 s3 :
  frame B1 s1 B2 s2 -> frame B2 s2 B3 s3 -> frame B1 s1 B3 s3.
Proof.
  intros (H1 & C1 & N1) (H2 & C2 & N2). split; [|split; congruence].
  intros. by rewrite H1, H2.
Qed.
#[export] Hint Resolve frame_refl : tiling.

Lemma not_allocd_zero B s h o p q :
  allocd B s h o p -> page_at h s = Some q -> page_refcnt q = 0 -> False.
Proof. intros (_ & Hp & Hr) Hq Hz. simplify_eq. lia. Qed.

(** The page record of a held or linked block has no references. *)
Lemma inv_free_page B H s h o :
  inv B H s -> B !! h = Some o -> h ∈ fl o s \/ h ∈ H ->
  exists p, page_at h s = Some p /\ page_order p = o /\ page_refcnt p = 0.
Proof.
  intros I HB Hor. destruct (inv_page _ _ _ I _ _ HB) as (p & ? & ? & _ & Hr).
  exists p. tauto.
Qed.

Lemma land_1_even k : (Z.land k 1 =? 0) = Z.even k.
Proof.
  change 1 with (2 ^ 1 - 1). rewrite Mmu.land_low_mask by lia.
  change (2 ^ 1) with 2. pose proof (Zmod_even k) as E. rewrite E. by destruct (Z.even k).
Qed.

Lemma wp_find_buddy s h p o (Q : option Z -> pmem -> Prop) :
  page_at h s = Some p -> page_order p = o -> 0 <= o <= MAX_ORDER -> (2 ^ o | h) ->
  Q (if npages s <=? buddy_of h o then None else Some (buddy_of h o)) s ->
  wp (find_buddy h) Q s.
Proof.
  intros Hp <- Ho Hd HQ. unfold find_buddy. wp_step. eapply wp_get_page; [done|].
  wp_step. wp_step; [by apply order_ok_spec|].
  rewrite Z.shiftl_1_l. pose proof (pow2_pos (page_order p) ltac:(lia)).
  wp_step. wp_step; [apply Z.eqb_eq, Z.mod_divide; [lia|done]|].
  rewrite land_1_even. wp_step. wp_step.
  change (Z.of_nat (length (pagemap s))) with (npages s).
  fold (buddy_of h (page_order p)). destruct (_ <=? _); by apply wp_ret.
Qed.

(** *** Splitting a held block *)

Section split.
Context (B : gmap Z Z) (s : pmem) (h o b : Z).
Context (I : inv B {[h]} s) (HB : B !! h = Some o) (Ho : 0 < o)
        (Hb : b = h + 2 ^ (o - 1)).
Lemma split_fresh : B !! b = None.
Proof using I HB Ho Hb. rewrite Hb. exact (tiling_half_fresh (inv_tiling _ _ _ I) _ _ HB Ho). Qed.

Lemma split_lookup x :
  @split_at B h o !! x = if decide (h = x) then Some (o - 1)
                         else if decide (b = x) then Some (o - 1) else B !! x.
Proof using Hb. unfold split_at. rewrite <- Hb. by rewrite !lookup_insert. Qed.

Lemma split_arith :
  (0 < o <= MAX_ORDER) /\ (h < b < npages s) /\ buddy_of h (o - 1) = b /\ (2 ^ (o - 1) | h).
Proof using I HB Ho Hb.
  destruct (inv_blk _ _ _ _ _ I HB) as (Ho1 & Hh & Hdiv & Hend).
  pose proof (pow2_pred o Ho). pose proof (pow2_pos (o - 1) ltac:(lia)).
  repeat split; try lia.
  - subst b. apply buddy_lo; [lia|]. by replace (o - 1 + 1) with o by lia.
  - etrans; [apply pow2_divide|done]; lia.
Qed.

Lemma split_notin o' : 0 <= o' -> (h ∉ fl o' s) /\ (b ∉ fl o' s).
Proof using I HB Ho Hb.
  intros Ho'. split.
  - apply (inv_held _ _ _ I h); [by apply elem_of_singleton|done].
  - intros Hin%(inv_fl _ _ _ I); [|done]. pose proof split_fresh. congruence.
Qed.

Context (s' : pmem) (p q : page)
        (Hp : page_at h s = Some p) (Hpr : page_refcnt p = 0).
(** What [s'] looks like: both halves have order [o - 1], the upper half
    is linked. *)
Context (Hat : forall j, page_at j s' =
           if decide (j = b) then Some (set_refcnt 0 (set_order (o - 1) q))
           else if decide (j = h) then Some (set_order (o - 1) p) else page_at j s)
        (Hfl : forall o', 0 <= o' ->
           fl o' s' = if decide (o - 1 = o') then fl o' s ++ [b] else fl o' s)
        (Hnp : npages s' = npages s)
        (Hlen : length (freeblocks s') = 11%nat).

Lemma split_el o' x : 0 <= o' -> x ∈ fl o' s' <-> x ∈ fl o' s \/ (x = b /\ o - 1 = o').
Proof using Hfl.
  intros. rewrite Hfl by done. case_decide; [rewrite elem_of_app, list_elem_of_singleton|]; tauto.
Qed.

Lemma split_page h' o' :
  @split_at B h o !! h' = Some o' -> exists r, page_at h' s' = Some r /\
    page_order r = o' /\ 0 <= page_refcnt r /\
    (page_refcnt r = 0 <-> h' ∈ fl o' s' \/ h' ∈ ({[h]} : gset Z)).
Proof using All.
  destruct split_arith as (? & ? & _).
  rewrite split_lookup, Hat. intros HB'.
  destruct (decide (h = h')) as [<-|];
    [|destruct (decide (b = h')) as [<-|]]; repeat case_decide; try lia;
    try (injection HB' as <-).
  - eexists. do 2 (split; [done|]). rewrite elem_of_singleton. simpl. split; [lia|tauto].
  - eexists. do 2 (split; [done|]). rewrite split_el by lia. simpl. split; [lia|tauto].
  - destruct (inv_page _ _ _ I _ _ HB') as (r & Hr & Hro & ? & Hiff).
    destruct (inv_blk _ _ _ _ _ I HB') as (? & _).
    exists r. rewrite split_el, Hiff by lia. do 3 (split; [done|]). tauto.
Qed.

Lemma split_coal o' x : 0 <= o' < MAX_ORDER -> x ∈ fl o' s' -> buddy_of x o' ∉ fl o' s'.
Proof using All.
  destruct split_arith as (? & ? & Hbud & Hd).
  intros Ho'. destruct (split_notin o') as [Hnh Hnb]; [lia|]. rewrite !split_el by lia.
  intros [Hin|[-> <-]].
  - intros [?|[Hx <-]]; [by apply (inv_coal _ _ _ I o' x)|]. apply Hnh.
    rewrite <- (buddy_involutive h (o - 1)), Hbud, <- Hx, buddy_involutive; [done|lia| |lia|done].
    eapply (inv_blk _ _ _ _ _ I), (inv_fl _ _ _ I); [lia|done].
  - rewrite <- Hbud, buddy_involutive by (done || lia). intros [?|[? _]]; [done|lia].
Qed.

Lemma inv_split : inv (@split_at B h o) {[h]} s'.
Proof using All.
  destruct split_arith as (? & ? & _). constructor.
  - rewrite Hnp. apply I.
  - done.
  - rewrite Hnp. apply tiling_split; [apply I|done..].
  - apply split_page.
  - intros o' x ?. destruct (split_notin o') as [Hnh Hnb]; [done|].
    rewrite split_el, split_lookup by done.
    intros [Hin|[-> <-]]; repeat case_decide; subst; try done; [|lia..].
    by apply (inv_fl _ _ _ I).
  - intros o' ?. destruct (split_notin o') as [Hnh Hnb]; [done|]. rewrite Hfl by done.
    case_decide; [|by apply I]. apply NoDup_app.
    split; [by apply I|]. split; [|apply NoDup_singleton].
    by intros x Hx ->%list_elem_of_singleton.
  - intros x ->%elem_of_singleton. rewrite split_lookup. case_decide; [|done].
    split; [done|]. intros o' ?. destruct (split_notin o') as [Hnh Hnb]; [done|].
    rewrite split_el by done. intros [?|[? _]]; [done|lia].
  - apply split_coal.
Qed.

Lemma frame_split : cfg s' = cfg s -> frame B s (@split_at B h o) s'.
Proof using All.
  destruct split_arith as (? & ? & _). pose proof split_fresh.
  intros Hcfg. split; [|done]. intros x k r. unfold allocd. rewrite Hat, split_lookup.
  clear Hcfg.
  split; intros (HBx & Hx & Hr).
  - assert (x <> h) by (intros ->; simplify_eq; lia).
    assert (x <> b) by (intros ->; congruence).
    repeat case_decide; subst; done.
  - repeat case_decide; simplify_eq; try (simpl in Hr; lia); done.
Qed.
End split.

(** The split branch of [find_freeblock]: the upper half goes to the free
    list of the order below, the lower half stays in hand. *)
Lemma wp_split B s h o (Q : unit -> pmem -> Prop) :
  inv B {[h]} s -> B !! h = Some o -> 0 < o ->
  (forall s', inv (@split_at B h o) {[h]} s' -> frame B s (@split_at B h o) s' -> Q tt s') ->
  wp (upd_page h (set_order (o - 1));;
      b <- find_buddy h;;
      match b with
      | None => panic
      | Some buddy => upd_page buddy (set_order (o - 1));; freeblocks_insert buddy
      end) Q s.
Proof.
  intros I HB Ho HQ. remember (h + 2 ^ (o - 1)) as b eqn:Hb.
  destruct (split_arith B s h o b I HB Ho Hb) as (Ho1 & Hhb & Hbud & Hd).
  destruct (inv_free_page _ _ _ _ _ I HB) as (p & Hp & Hpo & Hpr);
    [right; by apply elem_of_singleton|].
  destruct (page_at_is_Some b s) as [q Hq]; [pose proof (page_at_bounds _ _ _ Hp); lia|].
  wp_step. eapply wp_upd_page; [done|].
  set (s1 := set_pg h (set_order (o - 1) p) s).
  assert (Hp1 : page_at h s1 = Some (set_order (o - 1) p)) by (by apply (page_at_set_eq h s p)).
  wp_step. apply (wp_find_buddy _ _ _ (o - 1) _ Hp1); [done|lia|done|].
  unfold s1 at 1. rewrite npages_set_pg, Hbud.
  destruct (Z.leb_spec (npages s) b) as [?|_]; [lia|].
  assert (Hq1 : page_at b s1 = Some q) by (unfold s1; rewrite (page_at_set_ne h s p); [done..|lia]).
  wp_step. eapply wp_upd_page; [done|].
  set (s2 := set_pg b (set_order (o - 1) q) s1).
  assert (Hq2 : page_at b s2 = Some (set_order (o - 1) q)) by (by apply (page_at_set_eq b s1 q)).
  unfold freeblocks_insert. wp_step. eapply wp_get_page; [done|].
  wp_step. wp_step; [apply order_ok_spec; simpl; lia|].
  wp_step. eapply wp_upd_page; [done|]. wp_step. cbn [page_order set_order].
  set (s3 := set_pg b (set_refcnt 0 (set_order (o - 1) q)) s2).
  assert (Hat : forall j, page_at j s3 =
             if decide (j = b) then Some (set_refcnt 0 (set_order (o - 1) q))
             else if decide (j = h) then Some (set_order (o - 1) p) else page_at j s).
  { intros j. unfold s3, s2, s1.
    rewrite !page_at_set by (rewrite ?npages_set_pg; eauto using page_at_bounds).
    repeat case_decide; subst; congruence. }
  assert (Hfl : forall o', 0 <= o' -> fl o' (add_fl b (o - 1) s3) =
            if decide (o - 1 = o') then fl o' s ++ [b] else fl o' s).
  { intros. rewrite fl_add; [done| |done]. simpl. rewrite (inv_lists _ _ _ I).
    unfold MAX_ORDER in *. lia. }
  assert (Hnp : npages s3 = npages s) by (unfold s3, s2, s1; by rewrite !npages_set_pg).
  apply HQ; [eapply inv_split|eapply frame_split]; try done;
    simpl; rewrite length_alter; apply I.
Qed.

(** *** Merging a held block with its held buddy *)

Section merge.
Context (B : gmap Z Z) (s : pmem) (h o hi : Z) (p : page).
Context (I : inv B {[h; hi]} s) (HB : B !! h = Some o) (HB2 : B !! hi = Some o)
        (Hhi : hi = h + 2 ^ o) (Hdiv : (2 ^ (o + 1) | h)) (Ho : o < MAX_ORDER)
        (Hp : page_at h s = Some p).
Let s' := set_pg h (set_order (o + 1) p) s.

Lemma merge_lookup x :
  @merge_at B h o !! x = if decide (h = x) then Some (o + 1)
                         else if decide (hi = x) then None else B !! x.
Proof using Hhi.
  unfold merge_at. rewrite <- Hhi, lookup_insert, lookup_delete. done.
Qed.

Lemma merge_at_page j : page_at j s' = if decide (h = j) then Some (set_order (o + 1) p) else page_at j s.
Proof using Hp. apply page_at_set. by eapply page_at_bounds. Qed.

Lemma merge_held x : x = h \/ x = hi -> forall o', 0 <= o' -> x ∉ fl o' s.
Proof using I. intros Hx. apply (inv_held _ _ _ I x). set_solver +Hx. Qed.

Lemma merge_hi_ne : hi <> h.
Proof using I HB Hhi.
  destruct (inv_blk _ _ _ _ _ I HB) as (? & _). pose proof (pow2_pos o ltac:(lia)). lia.
Qed.

Lemma merge_page h' o' :
  @merge_at B h o !! h' = Some o' -> exists r, page_at h' s' = Some r /\
    page_order r = o' /\ 0 <= page_refcnt r /\
    (page_refcnt r = 0 <-> h' ∈ fl o' s' \/ h' ∈ ({[h]} : gset Z)).
Proof using All.
  rewrite merge_lookup, merge_at_page. change (fl o' s') with (fl o' s).
  destruct (decide (h = h')) as [<-|]; [|destruct (decide (hi = h')) as [<-|]]; intros HB'.
  - injection HB' as <-. eexists. do 2 (split; [done|]).
    destruct (inv_free_page _ _ _ _ _ I HB) as (q & Hq & _ & Hr); [set_solver +|].
    simplify_eq. rewrite elem_of_singleton. simpl. split; [lia|tauto].
  - done.
  - destruct (inv_page _ _ _ I _ _ HB') as (r & Hr & Hro & ? & Hiff).
    exists r. do 3 (split; [done|]). rewrite Hiff, elem_of_union, !elem_of_singleton.
    split; [intros [?|[?|?]]|]; (congruence || tauto).
Qed.

Lemma inv_merge : inv (@merge_at B h o) {[h]} s'.
Proof using All.
  destruct (inv_blk _ _ _ _ _ I HB) as (Ho0 & _). constructor.
  - unfold s'. rewrite npages_set_pg. apply I.
  - apply I.
  - unfold s'. rewrite npages_set_pg. apply tiling_merge; [apply I|done| |done..].
    by rewrite <- Hhi.
  - apply merge_page.
  - intros o' x ? Hin. change (x ∈ fl o' s) in Hin. rewrite merge_lookup.
    pose proof (inv_fl _ _ _ I o' x) as Hfl.
    repeat case_decide; [subst x..|by apply Hfl].
    + by destruct (merge_held h (or_introl eq_refl) o').
    + by destruct (merge_held hi (or_intror eq_refl) o').
  - apply I.
  - intros x ->%elem_of_singleton. rewrite merge_lookup. case_decide; [|done].
    split; [done|]. apply merge_held. by left.
  - apply I.
Qed.

Lemma frame_merge : frame B s (@merge_at B h o) s'.
Proof using All.
  destruct (inv_free_page _ _ _ _ _ I HB) as (q & Hq & _ & Hr); [set_solver +|].
  destruct (inv_free_page _ _ _ _ _ I HB2) as (q2 & Hq2 & _ & Hr2); [set_solver +|].
  split; [|split; [done|unfold s'; apply npages_set_pg]].
  intros x k r. unfold allocd. rewrite merge_lookup, merge_at_page.
  split; intros (HBx & Hx & Hrx).
  - assert (x <> h) by (intros ->; simplify_eq; lia).
    assert (x <> hi) by (intros ->; simplify_eq; lia).
    repeat case_decide; subst; done.
  - repeat case_decide; simplify_eq; [simpl in Hrx; lia|done].
Qed.
End merge.

Lemma frame_remove B s h : frame B s B (rm_fl h s).
Proof. done. Qed.

Lemma inv_buddy_free B s p o bp :
  inv B {[p]} s -> B !! p = Some o -> o < MAX_ORDER ->
  page_at (buddy_of p o) s = Some bp ->
  (page_refcnt bp = 0 /\ page_order bp = o <-> buddy_of p o ∈ fl o s).
Proof.
  intros I HB Ho Hbp. destruct (inv_blk _ _ _ _ _ I HB) as (Ho0 & _).
  split.
  - intros [Hr Hbo]. pose proof (page_at_bounds _ _ _ Hbp).
    destruct (tiling_buddy_head (inv_tiling _ _ _ I) _ _ HB) as (o' & HB' & _); [lia|].
    destruct (inv_page _ _ _ I _ _ HB') as (q & Hq & Hqo & _ & Hiff).
    assert (q = bp) as -> by congruence. assert (o' = o) as -> by congruence.
    apply Hiff in Hr as [?|?%elem_of_singleton]; [done|].
    by destruct (buddy_ne p o); [lia|].
  - intros Hin. pose proof (inv_fl _ _ _ I o _ ltac:(lia) Hin) as HB'.
    destruct (inv_page _ _ _ I _ _ HB') as (q & Hq & Hqo & _ & Hiff). simplify_eq. tauto.
Qed.

(** The effect of [merge_block] on a held block. *)
Definition merged (B : gmap Z Z) (s : pmem) (r : Z) (s' : pmem) : Prop :=
  exists B' o', inv B' {[r]} s' /\ B' !! r = Some o' /\
    (o' < MAX_ORDER -> buddy_of r o' ∉ fl o' s') /\ frame B s B' s'.

Lemma merged_frame B s B1 s1 r s' :
  frame B s B1 s1 -> merged B1 s1 r s' -> merged B s r s'.
Proof.
  intros F (B' & o' & ? & ? & ? & F'). exists B', o'. eauto using frame_trans.
Qed.

(** One merge: the buddy is unlinked and the lower of the two pages becomes
    the head of the block of the next order. *)
Lemma merge_step B s p o q :
  inv B {[p]} s -> B !! p = Some o -> o < MAX_ORDER -> buddy_of p o ∈ fl o s ->
  let lo := Z.min p (buddy_of p o) in
  page_at lo s = Some q ->
  let s' := set_pg lo (set_order (o + 1) q) (rm_fl (buddy_of p o) s) in
  let B' := @merge_at B lo o in
  inv B' {[lo]} s' /\ B' !! lo = Some (o + 1) /\ frame B s B' s'.
Proof.
  intros I HB Ho Hin lo Hq s' B'. destruct (inv_blk _ _ _ _ _ I HB) as (Ho0 & Hp & Hd & _).
  pose proof (inv_fl _ _ _ I o _ ltac:(lia) Hin) as HBb.
  pose proof (pow2_pos o ltac:(lia)).
  pose proof (inv_remove _ _ _ _ o I ltac:(lia) Hin) as I1.
  assert (Hset : exists hi, hi = lo + 2 ^ o /\ inv B {[lo; hi]} (rm_fl (buddy_of p o) s) /\
            B !! lo = Some o /\ B !! hi = Some o /\ (2 ^ (o + 1) | lo)).
  { unfold lo. destruct (buddy_cases p o) as [[Hdd E]|[Hdd E]]; [lia|done| |].
    - exists (buddy_of p o). rewrite Z.min_l by lia. by rewrite E in *.
    - exists p. rewrite Z.min_r by lia. split; [lia|]. split; [|rewrite E in *; done].
      by rewrite (union_comm_L {[buddy_of p o]}). }
  destruct Hset as (hi & Hhi & I2 & HBlo & HBhi & Hdd).
  split; [|split].
  - by eapply inv_merge.
  - unfold B', merge_at. apply lookup_insert_eq.
  - eapply frame_trans; [apply frame_remove|]. by eapply frame_merge.
Qed.

Lemma wp_merge_block fuel : forall B s p o,
  inv B {[p]} s -> B !! p = Some o -> (Z.to_nat (MAX_ORDER - o) < fuel)%nat ->
  wp (merge_block_rec fuel p) (merged B s) s.
Proof.
  induction fuel as [|fuel IH]; intros B s p o I HB Hf; [lia|].
  destruct (inv_blk _ _ _ _ _ I HB) as (Ho & Hp0 & Hd & Hend).
  destruct (inv_free_page _ _ _ _ _ I HB) as (q & Hq & Hqo & Hqr);
    [right; by apply elem_of_singleton|].
  simpl. wp_step. eapply wp_get_page; [done|]. rewrite Hqr, Hqo.
  wp_step. wp_step; [done|]. wp_step. wp_step; [by apply order_ok_spec|].
  destruct (Z.eqb_spec o MAX_ORDER) as [->|Hne].
  { apply wp_ret. exists B, MAX_ORDER. eauto with lia tiling. }
  wp_step. eapply wp_find_buddy; [done..|].
  assert (Hstay : buddy_of p o ∉ fl o s -> wp (ret p) (merged B s) s).
  { intros Hno. apply wp_ret. exists B, o. eauto with tiling. }
  destruct (Z.leb_spec (npages s) (buddy_of p o)) as [Hout|Hin].
  { apply Hstay. intros HB'%(inv_fl _ _ _ I); [|lia].
    destruct (inv_blk _ _ _ _ _ I HB') as (_ & _ & _ & ?).
    pose proof (pow2_pos o ltac:(lia)). lia. }
  destruct (tiling_buddy_head (inv_tiling _ _ _ I) _ _ HB Hin) as (o' & HBb & _).
  destruct (inv_page _ _ _ I _ _ HBb) as (bp & Hbp & _).
  wp_step. eapply wp_get_page; [done|].
  pose proof (inv_buddy_free _ _ _ _ _ I HB ltac:(lia) Hbp) as Hfree.
  destruct (Z.eqb_spec (page_refcnt bp) 0); simpl; [|apply Hstay; tauto].
  destruct (Z.eqb_spec (page_order bp) o) as [Hbo|]; simpl; [|apply Hstay; tauto].
  assert (Hfl : buddy_of p o ∈ fl o s) by tauto.
  wp_step. eapply wp_freeblocks_remove; [done| |done|]; [lia|].
  pose proof (merge_step B s p o) as Hstep.
  destruct (Z.ltb_spec p (buddy_of p o)).
  - rewrite Z.min_l in Hstep by lia. destruct (Hstep q) as (I' & HB' & F); [done|done|lia|done..|].
    wp_step. eapply wp_upd_page; [done|]. eapply wp_mono; [by eapply IH; [done|done|lia]|].
    intros r s'. by apply merged_frame.
  - rewrite Z.min_r in Hstep by lia. destruct (Hstep bp) as (I' & HB' & F); [done|done|lia|done..|].
    wp_step. eapply wp_upd_page; [done|]. rewrite Hbo.
    eapply wp_mono; [by eapply IH; [done|done|lia]|].
    intros r s'. by apply merged_frame.
Qed.

(** ** Finding a free block *)

(** The block [find_freeblock] returns is out of the free lists and has the
    wanted order; [None] means that no list of that order or above has a
    block. *)
Definition found (B : gmap Z Z) (s : pmem) (order want : Z) (r : option Z) (s' : pmem) : Prop :=
  match r with
  | Some h => exists B', inv B' {[h]} s' /\ B' !! h = Some want /\ frame B s B' s'
  | None => s' = s /\ forall o, order <= o <= MAX_ORDER -> fl o s = []
  end.

(** The common end of the two branches: split the block in hand if asked. *)
Lemma wp_found_split B s B1 s1 order split h :
  inv B1 {[h]} s1 -> B1 !! h = Some order -> frame B s B1 s1 ->
  0 <= order -> (split = true -> 0 < order) ->
  wp ((if split then
         upd_page h (set_order (order - 1));;
         b <- find_buddy h;;
         match b with
         | None => panic
         | Some buddy => upd_page buddy (set_order (order - 1));; freeblocks_insert buddy
         end
       else ret tt);;
      ret (Some h))
    (found B s order (if split then order - 1 else order)) s1.
Proof.
  intros I HB F Ho Hs. wp_step. destruct split.
  - apply (wp_split B1); [done|done|by apply Hs|]. intros s2 I2 F2. apply wp_ret.
    exists (@split_at B1 h order). split; [done|]. split; [|by eapply frame_trans].
    unfold split_at. by rewrite lookup_insert_eq.
  - apply wp_ret. apply wp_ret. exists B1. done.
Qed.

Lemma wp_find_freeblock fuel : forall B s order split,
  inv B ∅ s -> 0 <= order -> (split = true -> 0 < order) ->
  (Z.to_nat (MAX_ORDER + 1 - order) < fuel)%nat ->
  wp (find_freeblock_rec fuel order split)
     (found B s order (if split then order - 1 else order)) s.
Proof.
  induction fuel as [|fuel IH]; intros B s order split I Ho Hsp Hf; [lia|]. simpl.
  destruct (Z.ltb_spec order 0); [lia|].
  destruct (Z.ltb_spec MAX_ORDER order); simpl.
  { apply wp_ret. split; [done|]. intros o ?. lia. }
  destruct (lookup_lt_is_Some_2 (freeblocks s) (Z.to_nat order)) as [l Hl].
  { rewrite (inv_lists _ _ _ I). unfold MAX_ORDER in *. lia. }
  assert (Hfl : fl order s = l) by (unfold fl; by rewrite Hl).
  wp_step. wp_step. wp_step. wp_step; [done|]. wp_step. destruct l as [|page l].
  - eapply wp_mono; [apply (IH B s (order + 1) true I); unfold MAX_ORDER in *; lia|].
    replace (order + 1 - 1) with order by lia.
    intros [h|] s'; [|intros (-> & Hnone)].
    + intros (B' & I' & HB' & F). by eapply wp_found_split.
    + apply wp_ret. split; [done|]. intros o ?.
      destruct (decide (o = order)) as [->|]; [done|apply Hnone; lia].
  - assert (Hin : page ∈ fl order s) by (rewrite Hfl; constructor).
    wp_step. eapply wp_freeblocks_remove; [done..|]. wp_step.
    pose proof (inv_remove _ _ _ _ order I ltac:(lia) Hin) as I1.
    rewrite (union_empty_l_L {[page]}) in I1.
    eapply wp_found_split; [done| |apply frame_remove|done..].
    by apply (inv_fl _ _ _ I).
Qed.

(** ** The abstract allocator *)

(** [A] maps the first page of every allocated block to its order and its
    reference count. *)
Definition reps (A : gmap Z (Z * Z)) (B : gmap Z Z) (s : pmem) : Prop :=
  forall h o r, A !! h = Some (o, r) <-> exists p, allocd B s h o p /\ page_refcnt p = r.
Definition buddy_rep (A : gmap Z (Z * Z)) (s : pmem) : Prop :=
  exists B, inv B ∅ s /\ reps A B s.

(** Two ranges of pages share no page. *)
Definition disjoint_pages (h1 n1 h2 n2 : Z) : Prop := h1 + n1 <= h2 \/ h2 + n2 <= h1.

(** The pages [b, b + 2^o) form an aligned block inside the page map that
    meets no allocated block. *)
Definition free_run (A : gmap Z (Z * Z)) (s : pmem) (b o : Z) : Prop :=
  0 <= b /\ (2 ^ o | b) /\ b + 2 ^ o <= npages s /\
  forall h k r, A !! h = Some (k, r) -> disjoint_pages b (2 ^ o) h (2 ^ k).

(** The least order whose blocks hold [n] pages. *)
Definition min_order (n o : Z) : Prop :=
  0 <= o <= MAX_ORDER /\ n <= 2 ^ o /\ forall k, 0 <= k < o -> 2 ^ k < n.

Lemma wp_get_min_page_order n s (Q : Z -> pmem -> Prop) :
  n <= 2 ^ MAX_ORDER -> (forall o, min_order n o -> Q o s) ->
  wp (get_min_page_order n) Q s.
Proof.
  intros Hn HQ. unfold get_min_page_order. wp_step.
  apply wp_for_ret with (I := fun j s' => s' = s /\ forall k, 0 <= k < j -> 2 ^ k < n).
  - split; [done|]. lia.
  - intros j s' Hj (-> & Hlt). apply wp_ret. rewrite Z.shiftl_1_l.
    destruct (Z.leb_spec n (2 ^ j)).
    + apply wp_ret, HQ. split; [unfold MAX_ORDER in *; lia|done].
    + split; [done|]. intros k ?. destruct (decide (k = j)) as [->|]; [done|]. apply Hlt. lia.
  - intros s' (-> & Hlt). specialize (Hlt MAX_ORDER). unfold MAX_ORDER in *. lia.
Qed.

(** A block of the tiling that is not allocated meets no allocated block. *)
Lemma unallocd_disjoint B s A h o :
  inv B ∅ s ->
  reps A B s ->
  B !! h = Some o -> (forall r, A !! h <> Some (o, r)) -> free_run A s h o.
Proof.
  intros I HA HB Hno. destruct (inv_blk _ _ _ _ _ I HB) as (Ho & Hh & Hd & Hend).
  repeat split; [done..|]. intros h' k r Hk. pose proof Hk as (p & (HB' & _) & _)%HA.
  assert (h <> h') by (intros ->; simplify_eq; by eapply Hno).
  by eapply (tl_disj _ _ _ (inv_tiling _ _ _ I)).
Qed.

(** When the lists of order [o] and above are empty, no aligned run of [2^o]
    pages is free: the allocator never fails while such a run exists. *)
Lemma no_free_run A B s o b :
  inv B ∅ s ->
  reps A B s ->
  0 <= o <= MAX_ORDER -> (forall k, o <= k <= MAX_ORDER -> fl k s = []) ->
  ~ free_run A s b o.
Proof.
  intros I HA Ho Hempty (Hb & Hd & Hend & Hdis).
  pose proof (inv_tiling _ _ _ I) as T.
  assert (Hfree : forall h k, B !! h = Some k -> (forall r, A !! h <> Some (k, r)) -> h ∈ fl k s).
  { intros h k HB Hno. destruct (inv_page _ _ _ I _ _ HB) as (p & Hp & Hpo & Hr0 & Hr).
    assert (page_refcnt p = 0) as [?|?]%Hr; [|done|set_solver].
    destruct (Z.eq_dec (page_refcnt p) 0) as [|Hne]; [done|].
    destruct (Hno (page_refcnt p)). apply HA. exists p. split; [|done].
    repeat split; (done || lia). }
  destruct (tiling_free_run T (fun h => exists k, h ∈ fl k s /\ 0 <= k) b o)
    as (h & k & HB & (k' & Hin & Hk') & Hle & _); [|done..| |].
  - intros h k HB Hk (k1 & Hin & Hk1) HB' (k2 & Hin' & Hk2).
    pose proof (inv_fl _ _ _ I _ _ Hk1 Hin).
    pose proof (inv_fl _ _ _ I _ _ Hk2 Hin'). simplify_eq.
    by apply (inv_coal _ _ _ I k h).
  - intros h k i HB Hi Hi'. destruct (inv_blk _ _ _ _ _ I HB) as (Hk & _).
    exists k. split; [|lia]. apply Hfree; [done|]. intros r Hr.
    destruct (Hdis h k r Hr); lia.
  - pose proof (inv_fl _ _ _ I _ _ Hk' Hin). simplify_eq.
    destruct (inv_blk _ _ _ _ _ I HB) as (Hk & _).
    rewrite (Hempty k) in Hin by lia. by apply not_elem_of_nil in Hin.
Qed.

(** ** Allocation and release *)

Lemma min_order_bound n o : 0 < n -> n <= 2 ^ MAX_ORDER -> min_order n o -> 2 ^ o < 2 * n.
Proof.
  intros Hn _ (Ho & Hle & Hmin). destruct (Z.eq_dec o 0) as [->|]; [simpl; lia|].
  rewrite pow2_pred by lia. specialize (Hmin (o - 1)). lia.
Qed.

(** Handing out a block in hand: its record is reset and gets one reference. *)
Lemma inv_hand_out B s h o p' :
  inv B {[h]} s -> B !! h = Some o -> page_order p' = o -> 0 < page_refcnt p' ->
  inv B ∅ (set_pg h p' s).
Proof.
  intros I HB Hpo Hr.
  destruct (inv_free_page _ _ _ _ _ I HB) as (p & Hp & _); [right; by apply elem_of_singleton|].
  destruct (inv_held _ _ _ I h) as [_ Hnot]; [by apply elem_of_singleton|].
  destruct (inv_blk _ _ _ _ _ I HB) as (Ho & _). constructor.
  - rewrite npages_set_pg. apply I.
  - apply I.
  - rewrite npages_set_pg. apply I.
  - intros h' o' HB'. rewrite page_at_set by (by eapply page_at_bounds). case_decide; subst.
    + simplify_eq. exists p'. do 2 (split; [done|]). split; [lia|]. split; [lia|].
      intros [?|?%elem_of_empty]; [|done]. exfalso. eapply Hnot; [|done]. lia.
    + destruct (inv_page _ _ _ I _ _ HB') as (r & ? & ? & ? & Hiff). exists r.
      do 3 (split; [done|]). rewrite Hiff, elem_of_singleton, elem_of_empty.
      split; [intros [?| ->]; [tauto|done]|tauto].
  - apply I.
  - apply I.
  - by intros x ?%elem_of_empty.
  - apply I.
Qed.

(** The converse: dropping the last reference puts a block in hand. *)
Lemma inv_take_back B s h o p :
  inv B ∅ s -> allocd B s h o p -> inv B {[h]} (set_pg h (set_refcnt 0 p) s).
Proof.
  intros I (HB & Hp & Hr). destruct (inv_blk _ _ _ _ _ I HB) as (Ho & _).
  destruct (inv_page _ _ _ I _ _ HB) as (p0 & Hp0 & Hpo & _ & Hiff0). simplify_eq.
  assert (Hnot : forall o', 0 <= o' -> h ∉ fl o' s).
  { intros o' ? Hin. pose proof (inv_fl _ _ _ I o' _ ltac:(done) Hin). simplify_eq.
    assert (page_refcnt p = 0) by tauto. lia. }
  constructor.
  - rewrite npages_set_pg. apply I.
  - apply I.
  - rewrite npages_set_pg. apply I.
  - intros h' o' HB'. rewrite page_at_set by (by eapply page_at_bounds). case_decide; subst.
    + simplify_eq. exists (set_refcnt 0 p). do 3 (split; [done|]).
      rewrite elem_of_singleton. simpl. tauto.
    + destruct (inv_page _ _ _ I _ _ HB') as (r & ? & ? & ? & Hiff). exists r.
      do 3 (split; [done|]). rewrite Hiff, elem_of_singleton, elem_of_empty.
      split; [tauto|intros [?| ->]; [tauto|done]].
  - apply I.
  - apply I.
  - intros x ->%elem_of_singleton. split; [by rewrite HB|done].
  - apply I.
Qed.

(** What the record of a freshly allocated block looks like. *)
Definition fresh_page (o : Z) (p : page) : Prop :=
  page_lock p = None /\ page_kmem_cache p = NULL /\ page_slab p = NULL /\
  page_rmap p = NULL /\ page_blk_headers p = [] /\ page_refcnt p = 1 /\
  page_order p = o /\ pmem_is_page_dirty p = false.

Lemma inv_set_lock B H v s : inv B H s -> inv B H (set_lock v s).
Proof. intros I. constructor; apply I. Qed.

Lemma buddy_rep_set_lock A v s : buddy_rep A s -> buddy_rep A (set_lock v s).
Proof. intros (B & I & HA). exists B. split; [by apply inv_set_lock|done]. Qed.

(** The postcondition of an allocation of [n] pages. *)
Definition nalloc_post (A : gmap Z (Z * Z)) (s : pmem) (n : Z) (r : Z + unit) (s' : pmem) : Prop :=
  match r with
  | inl pa => exists h o p, pa = h * PG_SIZE /\ min_order n o /\ free_run A s h o /\
                buddy_rep (<[h := (o, 1)]> A) s' /\ page_at h s' = Some p /\ fresh_page o p
  | inr _ => buddy_rep A s' /\ forall o b, min_order n o -> ~ free_run A s b o
  end.

Lemma min_order_unique n o1 o2 : min_order n o1 -> min_order n o2 -> o1 = o2.
Proof.
  intros (? & ? & Hm1) (? & ? & Hm2).
  destruct (Z.lt_trichotomy o1 o2) as [?|[?|?]]; [|done|].
  - specialize (Hm2 o1). lia.
  - specialize (Hm1 o2). lia.
Qed.

(** A block in hand is unallocated. *)
Lemma hand_free A B0 s0 B s h o :
  reps A B0 s0 ->
  frame B0 s0 B s -> inv B {[h]} s -> B !! h = Some o -> forall k r, A !! h <> Some (k, r).
Proof.
  intros HA F I HB k r (p & Hal & _)%HA. apply F in Hal as (_ & Hp & Hr).
  destruct (inv_free_page _ _ _ _ _ I HB) as (q & Hq & _ & Hq0);
    [right; by apply elem_of_singleton|]. simplify_eq. lia.
Qed.

(** The record and the abstract state after handing out block [h]. *)
Lemma rep_hand_out A B0 s0 B s h o p' :
  reps A B0 s0 ->
  frame B0 s0 B s -> inv B {[h]} s -> B !! h = Some o -> fresh_page o p' ->
  buddy_rep (<[h := (o, 1)]> A) (set_pg h p' s) /\ free_run A s h o.
Proof.
  intros HA F I HB Hf. pose proof (hand_free _ _ _ _ _ _ _ HA F I HB) as Hno.
  destruct Hf as (_ & _ & _ & _ & _ & Hr1 & Hpo & _).
  destruct (inv_free_page _ _ _ _ _ I HB) as (p & Hp & _ & Hpr);
    [right; by apply elem_of_singleton|]. split.
  - exists B. split; [eapply inv_hand_out; [done|done|done|lia]|].
    intros h' k r. rewrite lookup_insert. unfold allocd.
    setoid_rewrite page_at_set; [|by eapply page_at_bounds]. case_decide; subst.
    + split; [intros [= <- <-]; exists p'; repeat split; (done || lia)|].
      intros (q & (HB' & Hq & _) & Hqr). simplify_eq. by rewrite Hr1.
    + rewrite (HA h' k r). split; intros (q & Hal & Hqr); exists q; (split; [|done]); by apply F.
  - destruct (inv_blk _ _ _ _ _ I HB) as (Ho & Hh & Hd & Hend). repeat split; [done..|].
    intros h' k r Hk. pose proof Hk as (q & Hal & _)%HA. apply F in Hal as (HB' & _).
    assert (h <> h') by (intros <-; by eapply Hno).
    by eapply (tl_disj _ _ _ (inv_tiling _ _ _ I)).
Qed.

Lemma free_run_npages A s s' b o : npages s' = npages s -> free_run A s' b o -> free_run A s b o.
Proof. intros E (? & ? & ? & ?). rewrite E in *. done. Qed.

Lemma wp_buddy_alloc A s n :
  buddy_rep A s -> is_Some (A !! 0) -> 0 < n <= 2 ^ MAX_ORDER ->
  wp (order <- get_min_page_order n;;
      f <- find_freeblock order false;;
      match f with
      | None => ret (inr tt)
      | Some page =>
          upd_page page reset_links;;
          upd_page page (pmem_set_page_dirty false);;
          p <- get_page page;;
          kassert (page_refcnt p =? 0);;
          upd_page page (set_refcnt 1);;
          let paddr := page_to_paddr page in
          kassert (negb (paddr =? NULL));;
          ret (inl paddr)
      end)
    (fun r s' => cfg s' = cfg s /\ npages s' = npages s /\ nalloc_post A s n r s') s.
Proof.
  intros (B & I & HA) H0 [Hn Hmax]. wp_step. apply wp_get_min_page_order; [done|].
  intros o Hmin. pose proof Hmin as (Ho & _). wp_step.
  eapply wp_mono; [apply (wp_find_freeblock _ B); [done|lia|done|]|].
  { change (Z.to_nat (MAX_ORDER + 2)) with 12%nat. unfold MAX_ORDER in *. lia. }
  intros [h|] s1; [intros (B1 & I1 & HB1 & F1)|intros (-> & Hnone)].
  2: { apply wp_ret. split; [done|]. split; [done|]. split; [by exists B|].
    intros o' b Hmin'. rewrite (min_order_unique _ _ _ Hmin' Hmin).
    by apply (no_free_run A B). }
  destruct (inv_free_page _ _ _ _ _ I1 HB1) as (p & Hp & Hpo & Hpr);
    [right; by apply elem_of_singleton|].
  wp_step. eapply wp_upd_page; [done|]. set (s2 := set_pg h (reset_links p) s1).
  assert (Hp2 : page_at h s2 = Some (reset_links p)) by (by apply (page_at_set_eq h s1 p)).
  wp_step. eapply wp_upd_page; [done|]. set (p3 := pmem_set_page_dirty false (reset_links p)).
  set (s3 := set_pg h p3 s2).
  assert (Hp3 : page_at h s3 = Some p3) by (by apply (page_at_set_eq h s2 _ Hp2)).
  wp_step. eapply wp_get_page; [done|]. wp_step. wp_step; [by apply Z.eqb_eq|].
  wp_step. eapply wp_upd_page; [done|]. set (s4 := set_pg h (set_refcnt 1 p3) s3).
  assert (E4 : s4 = set_pg h (set_refcnt 1 p3) s1).
  { unfold s4, s3, s2, set_pg. simpl. unfold set_pagemap. simpl. by rewrite !list_insert_insert_eq. }
  assert (Hfresh : fresh_page o (set_refcnt 1 p3)).
  { unfold fresh_page. do 7 (split; [done|]). 
    apply (get_set_state_bit PAGE_DIRTY_BIT ltac:(done) (page_state p) false). }
  destruct (rep_hand_out A B s B1 s1 h o _ HA F1 I1 HB1 Hfresh) as [Hrep Hrun].
  pose proof (page_at_bounds _ _ _ Hp) as Hb. pose proof (inv_small _ _ _ I1).
  assert (Hpa : page_to_paddr h = h * PG_SIZE).
  { unfold page_to_paddr. apply wrapu_small. unfold pg_size, PG_SIZE. lia. }
  assert (h <> 0).
  { intros ->. destruct H0 as [[k r] H0]. by apply (hand_free _ _ _ _ _ _ _ HA F1 I1 HB1 k r). }
  cbv zeta. wp_step. wp_step.
  { rewrite Hpa. unfold NULL, PG_SIZE. apply negb_true_iff, Z.eqb_neq. lia. }
  apply wp_ret. rewrite E4. destruct F1 as (_ & Hc & Hnp).
  split; [done|]. split; [by rewrite npages_set_pg|].
  exists h, o, (set_refcnt 1 p3). split; [done|]. split; [done|].
  split; [by eapply free_run_npages|]. split; [done|]. split; [|done].
  by apply (page_at_set_eq h s1 p).
Qed.

(** ** The operations of pmem.h *)

(** Entering and leaving [pmem_lock] around the body of an operation. *)
Definition lk (lock : bool) (v : bool) (s : pmem) : pmem := if lock then set_lock v s else s.

Lemma wp_lock (lock : bool) (Q : unit -> pmem -> Prop) s :
  (lock = true -> pmem_lock s = false) -> Q tt (lk lock true s) ->
  wp (if lock then lock_pmem else ret tt) Q s.
Proof.
  intros Hl HQ. destruct lock; [|by wp_step]. unfold lock_pmem. wp_step. wp_step.
  rewrite Hl by done. by wp_step.
Qed.

Lemma wp_unlock (lock : bool) (Q : unit -> pmem -> Prop) s :
  Q tt (lk lock false s) -> wp (if lock then unlock_pmem else ret tt) Q s.
Proof. destruct lock; intros; [unfold unlock_pmem|]; by wp_step. Qed.

Lemma cfg_lk lock s s' :
  (lock = true -> pmem_lock s = false) -> cfg s' = cfg (lk lock true s) ->
  cfg (lk lock false s') = cfg s.
Proof.
  intros Hl. destruct lock; [|done]. unfold cfg. simpl. intros. simplify_eq.
  rewrite (Hl eq_refl). congruence.
Qed.

Lemma buddy_rep_lk A lock v s : buddy_rep A s -> buddy_rep A (lk lock v s).
Proof. destruct lock; [apply buddy_rep_set_lock|done]. Qed.

Lemma npages_lk lock v s : npages (lk lock v s) = npages s.
Proof. by destruct lock. Qed.

Lemma init_lk lock v s : pagemap_initialized (lk lock v s) = pagemap_initialized s.
Proof. by destruct lock. Qed.

Lemma paddr_to_page_mul h : paddr_to_page (h * PG_SIZE) = h.
Proof. unfold paddr_to_page, pg_size, PG_SIZE. apply Z.div_mul. done. Qed.

Lemma set_pg_set_pg h p q s : set_pg h p (set_pg h q s) = set_pg h p s.
Proof. unfold set_pg, set_pagemap. simpl. by rewrite list_insert_insert_eq. Qed.

(** The concrete side of an abstract allocated block. *)
Lemma reps_allocd A B s h o r :
  reps A B s -> A !! h = Some (o, r) -> exists p, allocd B s h o p /\ page_refcnt p = r.
Proof. intros HA ?. by apply HA. Qed.

(** Changing the reference count of an allocated block to another positive one. *)
Lemma rep_set_refcnt A B s h o p v :
  inv B ∅ s -> reps A B s -> allocd B s h o p -> 0 < v ->
  buddy_rep (<[h := (o, v)]> A) (set_pg h (set_refcnt v p) s).
Proof.
  intros I HA Hal Hv. pose proof Hal as (HB & Hp & _).
  destruct (inv_page _ _ _ I _ _ HB) as (p0 & Hp0 & Hpo & _). simplify_eq.
  pose proof (inv_take_back _ _ _ _ _ I Hal) as I1. exists B. split.
  - pose proof (inv_hand_out _ _ _ _ (set_refcnt v p) I1 HB eq_refl Hv) as I2.
    unfold set_pg, set_pagemap in I2. simpl in I2. by rewrite list_insert_insert_eq in I2.
  - intros h' k r. rewrite lookup_insert. unfold allocd.
    setoid_rewrite page_at_set; [|by eapply page_at_bounds]. case_decide; subst.
    + split; [intros [= <- <-]; exists (set_refcnt v p); repeat split; (done || simpl; lia)|].
      intros (q & (HB' & Hq & _) & Hqr). by simplify_eq.
    + apply HA.
Qed.


(** Linking a free block touches no allocated one. *)
Lemma frame_insert B s h o q :
  page_at h s = Some q -> page_refcnt q = 0 ->
  frame B s B (add_fl h o (set_pg h (set_refcnt 0 q) s)).
Proof.
  intros Hq Hz. split; [|split; [done|apply npages_set_pg]].
  intros h' k p. unfold allocd.
  change (page_at h' (add_fl h o (set_pg h (set_refcnt 0 q) s)))
    with (page_at h' (set_pg h (set_refcnt 0 q) s)).
  rewrite page_at_set by (by eapply page_at_bounds). case_decide; [subst|done].
  split; intros (? & ? & ?); simplify_eq; simpl in *; lia.
Qed.

(** Taking back a block and linking it, merged, removes it from the
    allocated ones and leaves the others alone. *)
Lemma wp_buddy_free A B s h o p :
  inv B ∅ s -> reps A B s -> allocd B s h o p ->
  wp (page <- merge_block h;; freeblocks_insert page)
    (fun _ s' => cfg s' = cfg s /\ npages s' = npages s /\ buddy_rep (delete h A) s')
    (set_pg h (set_refcnt 0 p) s).
Proof.
  intros I HA Hal. pose proof Hal as (HB & Hp & Hr).
  pose proof (inv_take_back _ _ _ _ _ I Hal) as I1.
  destruct (inv_blk _ _ _ _ _ I1 HB) as (Ho & _).
  wp_step. eapply wp_mono; [apply (wp_merge_block _ B _ h o I1 HB)|].
  { change (Z.to_nat (MAX_ORDER + 1)) with 11%nat. unfold MAX_ORDER in *. lia. }
  intros r s1 (B' & o' & I2 & HB' & Hbud & F).
  destruct (inv_free_page _ _ _ _ _ I2 HB') as (q & Hq & Hqo & Hqr);
    [right; by apply elem_of_singleton|].
  apply (wp_freeblocks_insert B' {[r]} _ _ o'); [done|done|by apply elem_of_singleton|].
  intros q' Hq'. simplify_eq.
  pose proof (frame_trans _ _ _ _ _ _ F (frame_insert B' s1 r (page_order q) q Hq Hqr)) as (Hfr & Hc & Hnp).
  split; [by rewrite Hc|]. split; [by rewrite Hnp, npages_set_pg|].
  exists B'. split.
  - pose proof (inv_insert _ _ _ _ _ _ I2 HB' (proj2 (elem_of_singleton _ _) eq_refl) Hq Hbud) as I3.
    by rewrite difference_diag_L in I3.
  - intros h' k v. rewrite lookup_delete. setoid_rewrite <- Hfr. unfold allocd.
    setoid_rewrite page_at_set; [|by eapply page_at_bounds]. case_decide; subst.
    + split; [done|]. intros (x & (_ & Hx & ?) & _). simplify_eq. simpl in *. lia.
    + apply HA.
Qed.


Lemma wp_nfree_internal A s h o r n lock :
  buddy_rep A s -> pagemap_initialized s = true -> (lock = true -> pmem_lock s = false) ->
  A !! h = Some (o, r) -> 0 < n ->
  wp (pmem_nfree_internal (h * PG_SIZE) n lock)
    (fun _ s' => cfg s' = cfg s /\ npages s' = npages s /\ buddy_rep (delete h A) s') s.
Proof.
  intros Hrep Hinit Hl Hh Hn. unfold pmem_nfree_internal. wp_step.
  wp_step; [by apply Z.ltb_lt|].
  wp_step. apply wp_lock; [done|]. wp_step. wp_step. rewrite init_lk, Hinit.
  apply (buddy_rep_lk _ lock true) in Hrep as (B & I & HA).
  destruct (reps_allocd _ _ _ _ _ _ HA Hh) as (p & Hal & _). pose proof Hal as (_ & Hp & _).
  cbn [negb]. cbv zeta. rewrite paddr_to_page_mul. wp_step. wp_step.
  eapply wp_upd_page; [done|]. eapply wp_mono; [by eapply wp_buddy_free|].
  intros [] s' (Hc & Hnp & Hr). apply wp_unlock.
  split; [by apply cfg_lk|]. rewrite npages_lk in *. split; [done|]. by apply buddy_rep_lk.
Qed.

Lemma wp_nalloc_internal A s n lock :
  buddy_rep A s -> pagemap_initialized s = true -> (lock = true -> pmem_lock s = false) ->
  is_Some (A !! 0) -> 0 < n <= 2 ^ MAX_ORDER ->
  wp (pmem_nalloc_internal n lock)
    (fun r s' => cfg s' = cfg s /\ npages s' = npages s /\ nalloc_post A s n r s') s.
Proof.
  intros Hrep Hinit Hl H0 Hn. unfold pmem_nalloc_internal. wp_step.
  wp_step; [apply Z.ltb_lt; lia|].
  wp_step. apply wp_lock; [done|]. wp_step. wp_step. rewrite init_lk, Hinit.
  cbn [negb]. wp_step. eapply wp_mono.
  { apply wp_buddy_alloc; [by apply buddy_rep_lk|done|done]. }
  intros r s' (Hc & Hnp & Hr). wp_step. apply wp_unlock. wp_step.
  split; [by apply cfg_lk|]. rewrite npages_lk in *. split; [done|].
  assert (Hfr : forall b o, free_run A (lk lock true s) b o <-> free_run A s b o)
    by (by destruct lock).
  destruct r as [pa|]; simpl in *.
  - destruct Hr as (h & o & p & ? & ? & ?%Hfr & Hr & Hp & ?). exists h, o, p.
    do 3 (split; [done|]). split; [by apply buddy_rep_lk|]. split; [by destruct lock|done].
  - destruct Hr as [Hr Hno]. split; [by apply buddy_rep_lk|]. intros o b ? ?%Hfr. by eapply Hno.
Qed.

Lemma wp_inc_refcnt A s h r n :
  buddy_rep A s -> pmem_lock s = false -> A !! h = Some (0, r) ->
  0 < r + n < 2 ^ 31 ->
  wp (pmem_inc_refcnt (h * PG_SIZE) n)
    (fun _ s' => cfg s' = cfg s /\ npages s' = npages s /\ buddy_rep (<[h := (0, r + n)]> A) s') s.
Proof.
  intros Hrep Hl Hh Hn. unfold pmem_inc_refcnt. cbv zeta. rewrite paddr_to_page_mul.
  wp_step. apply (wp_lock true); [done|].
  apply (buddy_rep_lk _ true true) in Hrep as (B & I & HA).
  destruct (reps_allocd _ _ _ _ _ _ HA Hh) as (p & Hal & Hpr). pose proof Hal as (HB & Hp & Hpos).
  destruct (inv_page _ _ _ I _ _ HB) as (p0 & Hp0 & Hpo & _). simplify_eq.
  wp_step. eapply wp_get_page; [done|]. wp_step. wp_step; [by apply Z.ltb_lt|].
  wp_step. wp_step; [by apply Z.eqb_eq|]. wp_step. eapply wp_upd_page; [done|].
  apply (wp_unlock true). rewrite wraps_small by lia.
  split; [apply (cfg_lk true s); done|]. rewrite !npages_lk.
  split; [by rewrite npages_set_pg|]. apply buddy_rep_lk.
  by apply (rep_set_refcnt A B); [..|lia].
Qed.

(** Dropping a reference; the last one frees the page. *)
Definition drop_ref (h r : Z) (A : gmap Z (Z * Z)) : gmap Z (Z * Z) :=
  if r =? 1 then delete h A else <[h := (0, r - 1)]> A.

Lemma wp_dec_refcnt A s h r :
  buddy_rep A s -> pagemap_initialized s = true -> pmem_lock s = false ->
  A !! h = Some (0, r) ->
  wp (pmem_dec_refcnt (h * PG_SIZE))
    (fun _ s' => cfg s' = cfg s /\ npages s' = npages s /\ buddy_rep (drop_ref h r A) s') s.
Proof.
  intros Hrep Hinit Hl Hh. unfold pmem_dec_refcnt. cbv zeta. rewrite paddr_to_page_mul.
  wp_step. apply (wp_lock true); [done|].
  apply (buddy_rep_lk _ true true) in Hrep as (B & I & HA).
  destruct (reps_allocd _ _ _ _ _ _ HA Hh) as (p & Hal & Hpr). pose proof Hal as (HB & Hp & Hpos).
  destruct (inv_page _ _ _ I _ _ HB) as (p0 & Hp0 & Hpo & _). simplify_eq.
  set (s1 := lk true true s) in *.
  wp_step. eapply wp_get_page; [done|]. wp_step. wp_step; [by apply Z.ltb_lt|].
  wp_step. wp_step; [by apply Z.eqb_eq|]. wp_step. eapply wp_upd_page; [done|].
  wp_step. eapply wp_get_page; [by eapply page_at_set_eq|]. wp_step.
  unfold drop_ref. simpl page_refcnt. destruct (Z.eqb_spec (page_refcnt p) 1) as [E|E].
  - rewrite E. simpl (1 - 1 =? 0). cbn iota.
    unfold pmem_nfree_internal. wp_step. wp_step; [done|]. wp_step. wp_step.
    wp_step. wp_step. simpl pagemap_initialized. rewrite Hinit. cbn [negb]. cbv zeta.
    rewrite paddr_to_page_mul. wp_step. wp_step.
    eapply wp_upd_page; [by eapply page_at_set_eq|].
    rewrite set_pg_set_pg. change (set_refcnt 0 (set_refcnt _ p)) with (set_refcnt 0 p).
    eapply wp_mono; [by eapply wp_buddy_free|].
    intros [] s' (Hc & Hnp & Hr). wp_step. apply (wp_unlock true).
    split; [by apply (cfg_lk true s)|]. rewrite npages_lk. split; [done|]. by apply buddy_rep_lk.
  - destruct (Z.eqb_spec (page_refcnt p - 1) 0); [lia|]. wp_step. apply (wp_unlock true).
    split; [apply (cfg_lk true s); done|]. rewrite npages_lk.
    split; [by rewrite npages_set_pg|]. apply buddy_rep_lk.
    by apply (rep_set_refcnt A B); [..|lia].
Qed.
