(* ===== verification/PmemSpec.v ===== *)
(** * Page links across the page allocator

    The slab allocator stores the owner of a page in its [struct page].  This
    file shows that allocating pages does not disturb the links of any other
    page, and that writing links does not disturb the page allocator. *)

From stdpp Require Import prelude list gmap.
From Stdlib Require Import ZArith Lia.
From S2P Require Import Prelude Mmu Bits Tiling Pmem PmemBuddy.

(** ** The links of the pages

    [page_kmem_cache] and [page_slab] belong to the slab allocator.  The page
    allocator clears them on the first page of a block it hands out and
    leaves them alone otherwise. *)

Definition links (p : page) : Z * Z := (page_kmem_cache p, page_slab p).
Definition same_links (s s' : pmem) : Prop :=
  forall i, links <$> page_at i s' = links <$> page_at i s.

#[export] Instance same_links_preorder : PreOrder same_links.
Proof.
  split; [by intros s i|]. intros s1 s2 s3 H1 H2 i. by rewrite H2, H1.
Qed.

Lemma upd_page_inv i f s a s' :
  upd_page i f s = Done (a, s') -> exists p, page_at i s = Some p /\ s' = set_pg i (f p) s.
Proof.
  intros (p & s1 & (o & s2 & [= <- <-] & Hd)%bind_inv & [= _ <-])%bind_inv.
  destruct (page_at i s) as [q|] eqn:E; simpl in Hd; [|done]. injection Hd as <- <-. by exists q.
Qed.

Lemma same_links_upd i f : (forall p, links (f p) = links p) -> pres same_links (upd_page i f).
Proof.
  intros Hf s a s' (p & Hp & ->)%upd_page_inv j.
  rewrite page_at_set by (by eapply page_at_bounds). case_decide; [subst|done].
  rewrite Hp. simpl. by rewrite Hf.
Qed.
#[export] Hint Resolve same_links_upd : pres.

Lemma same_links_free f : pres same_links (modify (fun s => set_freeblocks (f s) s)).
Proof. by intros s a s' [= _ <-]. Qed.
Lemma same_links_get i : pres same_links (get_page i).
Proof. unfold get_page. pres_run. Qed.
#[export] Hint Resolve same_links_free same_links_get : pres.

Lemma same_links_insert i : pres same_links (freeblocks_insert i).
Proof. unfold freeblocks_insert. pres_run. Qed.
Lemma same_links_remove i : pres same_links (freeblocks_remove i).
Proof. unfold freeblocks_remove. pres_run. Qed.
Lemma same_links_buddy i : pres same_links (find_buddy i).
Proof. unfold find_buddy. pres_run. Qed.
#[export] Hint Resolve same_links_insert same_links_remove same_links_buddy : pres.

Lemma same_links_find fuel : forall o b, pres same_links (find_freeblock_rec fuel o b).
Proof. induction fuel as [|fuel IH]; intros o b; simpl; pres_run. Qed.
#[export] Hint Resolve same_links_find : pres.

Lemma same_links_lock (b : bool) : pres same_links (if b then lock_pmem else ret tt).
Proof. unfold lock_pmem. pres_run; by intros s x s' [= _ <-] i. Qed.
Lemma same_links_unlock (b : bool) : pres same_links (if b then unlock_pmem else ret tt).
Proof. unfold unlock_pmem. pres_run; by intros s x s' [= _ <-] i. Qed.

Definition links_but (h : Z) (s s' : pmem) : Prop :=
  forall i, i <> h -> links <$> page_at i s' = links <$> page_at i s.
#[export] Instance links_but_preorder h : PreOrder (links_but h).
Proof. split; [by intros s i|]. intros s1 s2 s3 H1 H2 i Hi. by rewrite H2, H1. Qed.
Lemma same_links_but h s s' : same_links s s' -> links_but h s s'.
Proof. intros H i _. apply H. Qed.
Lemma links_but_upd h f : pres (links_but h) (upd_page h f).
Proof.
  intros s a s' (p & Hp & ->)%upd_page_inv j Hj.
  rewrite page_at_set by (by eapply page_at_bounds). case_decide; [by subst|done].
Qed.
#[export] Hint Resolve links_but_upd : pres.

Lemma page_to_paddr_div h : 0 <= h < 2 ^ 52 -> page_to_paddr h / PG_SIZE = h.
Proof.
  intros. unfold page_to_paddr, pg_size, PG_SIZE. rewrite wrapu_small by lia. apply Z.div_mul. lia.
Qed.


Ltac run_inv H a s' :=
  let H1 := fresh "Hrun" in
  apply bind_inv in H; destruct H as (a & s' & H1 & H).

(** What an allocation leaves of the links. *)
Lemma nalloc_links n s r s' :
  pagemap_initialized s = true ->
  pmem_nalloc n s = Done (r, s') ->
  match r with
  | inl pa => exists h, pa = page_to_paddr h /\ is_Some (page_at h s) /\ links_but h s s'
  | inr _ => same_links s s'
  end.
Proof.
  unfold pmem_nalloc, pmem_nalloc_internal. intros Hi H.
  run_inv H x1 s1. apply (pres_kassert same_links) in Hrun as L1.
  assert (s1 = s) as -> by (destruct (0 <? n); simpl in Hrun; [by injection Hrun|done]). clear Hrun L1.
  run_inv H x2 s2. assert (Hi2 : pagemap_initialized s2 = true).
  { unfold lock_pmem in Hrun. run_inv Hrun h s3. injection Hrun0 as <- <-.
    destruct (pmem_lock s); [done|]. by injection Hrun as _ <-. }
  apply (same_links_lock true) in Hrun as L2. clear Hrun.
  run_inv H init s3. injection Hrun as <- <-. rewrite Hi2 in H. cbn [negb] in H.
  run_inv H r4 s4. run_inv H x5 s5. injection H as <- <-.
  apply (same_links_unlock true) in Hrun0 as L5. clear Hrun0.
  run_inv Hrun o s6. assert (L6 : same_links s2 s6).
  { eapply (pres_bind same_links); [| |exact Hrun0]; unfold get_min_page_order; pres_run. }
  run_inv Hrun f s7. apply (same_links_find _ _ _) in Hrun1 as L7.
  assert (L : same_links s s7) by (etransitivity; [done|]; by etransitivity).
  destruct f as [h|].
  - assert (Hb : exists pa, r4 = inl pa /\ pa = page_to_paddr h /\ is_Some (page_at h s7) /\ links_but h s7 s4).
    { run_inv Hrun y1 t1. pose proof (upd_page_inv _ _ _ _ _ Hrun2) as (p0 & Hp0 & _). run_inv Hrun y2 t2. run_inv Hrun y3 t3. run_inv Hrun y4 t4.
      run_inv Hrun y5 t5. cbv zeta in Hrun. run_inv Hrun y6 t6. injection Hrun as <- <-.
      exists (page_to_paddr h). do 3 (split; [done|]).
      apply links_but_upd in Hrun2, Hrun3, Hrun6.
      apply (pres_kassert (links_but h)) in Hrun5, Hrun7.
      apply same_links_get in Hrun4. apply (same_links_but h) in Hrun4.
      repeat (etransitivity; [eassumption|]). reflexivity. }
    destruct Hb as (pa & -> & -> & [p0 Hp0] & Lb). exists h. split; [done|]. split.
    { specialize (L h). rewrite Hp0 in L. destruct (page_at h s); [done|by simpl in L]. }
    intros i Hne. by rewrite L5, Lb, L.
  - injection Hrun as <- <-. intros i. by rewrite L5, L.
Qed.

(** ** Writing links leaves the allocator alone *)

Definition core (p : page) : Z * Z := (page_refcnt p, page_order p).
Definition same_core (s s' : pmem) : Prop :=
  (forall i, core <$> page_at i s' = core <$> page_at i s) /\
  length (pagemap s') = length (pagemap s) /\ freeblocks s' = freeblocks s /\ cfg s' = cfg s.

#[export] Instance same_core_preorder : PreOrder same_core.
Proof.
  split; [by intros s|]. intros s1 s2 s3 (C1 & L1 & F1 & G1) (C2 & L2 & F2 & G2).
  split; [intros i; by rewrite C2, C1|]. split; [congruence|]. split; congruence.
Qed.

Lemma same_core_upd i c sl : pres same_core (upd_page i (set_slab c sl)).
Proof.
  intros s a s' (p & Hp & ->)%upd_page_inv. split; [|by simpl; rewrite length_insert].
  intros j. rewrite page_at_set by (by eapply page_at_bounds). case_decide; [subst|done]. by rewrite Hp.
Qed.

Lemma same_core_page s s' i p : same_core s s' -> page_at i s = Some p ->
  exists p', page_at i s' = Some p' /\ page_refcnt p' = page_refcnt p /\ page_order p' = page_order p.
Proof.
  intros (H & _) Hp. specialize (H i). rewrite Hp in H. destruct (page_at i s') as [p'|]; simpl in H; [|done].
  injection H as ? ?. by exists p'.
Qed.

Lemma inv_core B H s s' : same_core s s' -> inv B H s -> inv B H s'.
Proof.
  intros C I. pose proof C as (_ & Hlen & Hfb & _).
  assert (Hfl : forall o, fl o s' = fl o s) by (intros; unfold fl; by rewrite Hfb).
  assert (Hnp : npages s' = npages s) by (unfold npages; by rewrite Hlen).
  constructor; rewrite ?Hnp, ?Hfb; try apply I.
  - intros h o HB. destruct (inv_page _ _ _ I _ _ HB) as (p & Hp & Ho & Hr & Hiff).
    destruct (same_core_page _ _ _ _ C Hp) as (p' & Hp' & Hr' & Ho'). exists p'.
    rewrite Hr', Ho', Hfl. done.
  - intros o h. rewrite Hfl. apply I.
  - intros o. rewrite Hfl. apply I.
  - intros h Hh. destruct (inv_held _ _ _ I h Hh) as [? Hn]. split; [done|]. intros o. rewrite Hfl. apply Hn.
  - intros o h. rewrite Hfl. apply I.
Qed.

Lemma buddy_rep_core A s s' : same_core s s' -> buddy_rep A s -> buddy_rep A s'.
Proof.
  intros C (B & I & HR). exists B. split; [by eapply inv_core|]. intros h o r. rewrite (HR h o r). unfold allocd.
  pose proof (proj1 C h) as E. split; intros (p & (HB & Hp & Hpos) & Hr); rewrite Hp in E; simpl in E.
  - destruct (page_at h s') as [p'|]; simpl in E; [|done]. unfold core in E. simplify_eq. exists p'.
    repeat split; (done || congruence || lia).
  - destruct (page_at h s) as [p'|]; simpl in E; [|done]. unfold core in E. simplify_eq. exists p'.
    repeat split; (done || congruence || lia).
Qed.

(** * What pmem.c promises

    The claims about the two page allocators: the specification of each
    operation of include/kernel/pmem.h over the abstract allocator
    [A : head page -> (order, reference count)] of PmemBuddy.v, the safety of
    every sequence of requests a well-behaved client makes, and the behaviour
    of the boot allocator. *)

(** ** A small machine for the witnesses: page 0 allocated, page 1 free *)

Definition demo : pmem :=
  mkPmem 0 8192 [] 0 0 [set_refcnt 1 page_zero; page_zero] true
         ([[1]] ++ replicate 10 []) false.
Definition demo_A : gmap Z (Z * Z) := {[0 := (0, 1)]}.

Lemma demo_fl o h : 0 <= o -> h ∈ fl o demo <-> o = 0 /\ h = 1.
Proof.
  intros Ho. unfold fl. destruct (decide (o = 0)) as [->|Hne].
  - simpl. set_solver.
  - destruct (Z.to_nat o) as [|k] eqn:E; [lia|].
    change (freeblocks demo !! S k) with (replicate 10 ([] : list Z) !! k).
    destruct (replicate 10 ([] : list Z) !! k) eqn:El; simpl; [|set_solver].
    apply lookup_replicate in El as [-> _]. set_solver.
Qed.

Lemma demo_B h o : ({[0 := 0; 1 := 0]} : gmap Z Z) !! h = Some o <-> o = 0 /\ (h = 0 \/ h = 1).
Proof. rewrite lookup_insert, lookup_singleton. repeat case_decide; naive_solver lia. Qed.

Lemma demo_rep : buddy_rep demo_A demo.
Proof.
  exists {[0 := 0; 1 := 0]}. split.
  - constructor.
    + done.
    + done.
    + constructor.
      * intros h o [-> [->| ->]]%demo_B; repeat split; try done; by exists 0 || by exists 1.
      * intros h1 o1 h2 o2 [-> ?]%demo_B [-> ?]%demo_B ?. simpl. lia.
      * intros i Hi. change (npages demo) with 2 in Hi. exists i, 0.
        rewrite demo_B. simpl. lia.
    + intros h o [-> [->| ->]]%demo_B; eexists; (split; [done|]);
        rewrite demo_fl, elem_of_empty by lia; simpl; lia.
    + intros o h ? [-> ->]%demo_fl; [|done]. apply demo_B. auto.
    + intros o ?. unfold fl. destruct (freeblocks demo !! Z.to_nat o) as [l|] eqn:E; simpl.
      * apply list_elem_of_lookup_2 in E. repeat (apply elem_of_cons in E as [->|E];
          [repeat constructor; set_solver|]). by apply elem_of_nil in E.
      * constructor.
    + by intros h ?%elem_of_empty.
    + intros o h ? [-> ->]%demo_fl [_ ?]%demo_fl; try lia. done.
  - intros h o r. unfold demo_A, allocd. rewrite lookup_singleton. case_decide; subst.
    + split.
      * intros [= <- <-]. eexists. rewrite demo_B. repeat split; [by left|done..].
      * intros (p & ([-> _]%demo_B & Hp & _) & <-). vm_compute in Hp. by simplify_eq.
    + split; [done|]. intros (p & ([-> [->| ->]]%demo_B & Hp & ?) & _); [done|].
      vm_compute in Hp. by simplify_eq.
Qed.

(** ** Operations *)

(** ([pmem_nalloc], [pmem_alloc]): on a buddy allocator that represents
    [A], a request for [n] pages either returns the address of a block of the
    least order that holds [n] pages, aligned to its size, inside the page map
    and disjoint from every allocated block, whose record is reset and has one
    reference, and then [A] grows by exactly that block; or it returns
    ERR_NOMEM, changes nothing, and no aligned free run of that size exists.
    No kassert fails, the recursion terminates, the lock is released and the
    boot-time configuration is untouched. *)
Theorem pmem_nalloc_spec (A : gmap Z (Z * Z)) s n :
  buddy_rep A s -> pagemap_initialized s = true -> pmem_lock s = false ->
  is_Some (A !! 0) -> 0 < n <= 2 ^ MAX_ORDER ->
  wp (pmem_nalloc n)
    (fun r s' => cfg s' = cfg s /\ npages s' = npages s /\ nalloc_post A s n r s') s.
Proof. intros. by apply wp_nalloc_internal. Qed.

Lemma pmem_nalloc_spec_witness :
  wp (pmem_nalloc 1)
    (fun r s' => cfg s' = cfg demo /\ npages s' = npages demo /\ nalloc_post demo_A demo 1 r s') demo.
Proof.
  apply (pmem_nalloc_spec demo_A demo 1 demo_rep eq_refl eq_refl); [by exists (0, 1)|done].
Defined.

(** ([pmem_nfree], [pmem_free]): freeing the address of an allocated block
    removes exactly that block from [A], whatever its order and count; the
    merge loop terminates and the result is again fully coalesced (part of
    [buddy_rep]). *)
Theorem pmem_nfree_spec (A : gmap Z (Z * Z)) s h o r n :
  buddy_rep A s -> pagemap_initialized s = true -> pmem_lock s = false ->
  A !! h = Some (o, r) -> 0 < n ->
  wp (pmem_nfree (h * PG_SIZE) n)
    (fun _ s' => cfg s' = cfg s /\ npages s' = npages s /\ buddy_rep (delete h A) s') s.
Proof. intros. by apply (wp_nfree_internal A s h o r n true). Qed.

Lemma pmem_nfree_spec_witness :
  wp (pmem_nfree 0 1)
    (fun _ s' => cfg s' = cfg demo /\ npages s' = npages demo /\ buddy_rep (delete 0 demo_A) s') demo.
Proof. apply (pmem_nfree_spec demo_A demo 0 0 1 1 demo_rep); done. Defined.

(** ([pmem_dec_refcnt]): dropping a reference of a single page lowers its
    count, and the drop of the last one frees the page. *)
Theorem pmem_dec_refcnt_spec (A : gmap Z (Z * Z)) s h r :
  buddy_rep A s -> pagemap_initialized s = true -> pmem_lock s = false ->
  A !! h = Some (0, r) ->
  wp (pmem_dec_refcnt (h * PG_SIZE))
    (fun _ s' => cfg s' = cfg s /\ npages s' = npages s /\ buddy_rep (drop_ref h r A) s') s.
Proof. apply wp_dec_refcnt. Qed.

Lemma pmem_dec_refcnt_spec_witness :
  wp (pmem_dec_refcnt 0)
    (fun _ s' => cfg s' = cfg demo /\ npages s' = npages demo /\ buddy_rep (drop_ref 0 1 demo_A) s') demo.
Proof. apply (pmem_dec_refcnt_spec demo_A demo 0 1 demo_rep); done. Defined.

(** ** Sequences of requests *)

(** What the rest of the kernel asks of pmem.c. *)
Inductive request : Set :=
| RAlloc (n : Z)
| RFree (h n : Z)
| RInc (h n : Z)
| RDec (h : Z).

Definition serve (q : request) : M pmem (option (Z + unit)) :=
  match q with
  | RAlloc n => r <- pmem_nalloc n;; ret (Some r)
  | RFree h n => pmem_nfree (h * PG_SIZE) n;; ret None
  | RInc h n => pmem_inc_refcnt (h * PG_SIZE) n;; ret None
  | RDec h => pmem_dec_refcnt (h * PG_SIZE);; ret None
  end.

(** The step relation of the abstract allocator: the requests a client that
    owns the blocks of [A] may make, the answers and the effect on [A].
    [n] is the number of pages of the machine. *)
Inductive astep (np : Z) (A : gmap Z (Z * Z)) :
    request -> option (Z + unit) -> gmap Z (Z * Z) -> Prop :=
| AAlloc n h o : 0 < n <= 2 ^ MAX_ORDER -> min_order n o ->
    0 < h -> (2 ^ o | h) -> h + 2 ^ o <= np ->
    (forall h' k r, A !! h' = Some (k, r) -> disjoint_pages h (2 ^ o) h' (2 ^ k)) ->
    astep np A (RAlloc n) (Some (inl (h * PG_SIZE))) (<[h := (o, 1)]> A)
| ANoMem n : 0 < n <= 2 ^ MAX_ORDER -> astep np A (RAlloc n) (Some (inr tt)) A
| AFree h o r n : 0 < h -> 0 < n -> A !! h = Some (o, r) ->
    astep np A (RFree h n) None (delete h A)
| AInc h r n : A !! h = Some (0, r) -> 0 < r + n < 2 ^ 31 ->
    astep np A (RInc h n) None (<[h := (0, r + n)]> A)
| ADec h r : 0 < h -> A !! h = Some (0, r) ->
    astep np A (RDec h) None (drop_ref h r A).

(** The client may ask [q] in state [A]. *)
Definition allowed (np : Z) (A : gmap Z (Z * Z)) (q : request) : Prop :=
  exists r A', astep np A q r A'.

(** The simulation relation between the abstract and the concrete allocator. *)
Definition sim (A : gmap Z (Z * Z)) (s : pmem) : Prop :=
  buddy_rep A s /\ pagemap_initialized s = true /\ pmem_lock s = false /\ is_Some (A !! 0).

Lemma sim_cfg A s A' s' :
  sim A s -> cfg s' = cfg s -> buddy_rep A' s' -> is_Some (A' !! 0) -> sim A' s'.
Proof. intros (_ & Hi & Hl & _) Hc ? ?. unfold cfg in Hc. simplify_eq. by repeat split; congruence. Qed.

Lemma sim_head_pos A s h o : sim A s -> 0 <= o -> free_run A s h o -> 0 < h.
Proof.
  intros ((B & I & HA) & _ & _ & [[k r] H0]) Ho (? & _ & _ & Hdisj).
  destruct (reps_allocd _ _ _ _ _ _ HA H0) as (q & (HB & _) & _).
  destruct (inv_blk _ _ _ _ _ I HB) as (? & _). specialize (Hdisj _ _ _ H0).
  pose proof (pow2_pos o Ho). pose proof (pow2_pos k ltac:(lia)).
  unfold disjoint_pages in Hdisj. lia.
Qed.

Lemma sim_alloc A s n :
  sim A s -> 0 < n <= 2 ^ MAX_ORDER ->
  wp (serve (RAlloc n)) (fun r s' => npages s' = npages s /\
     exists A', astep (npages s) A (RAlloc n) r A' /\ sim A' s') s.
Proof.
  intros Hs Hn. pose proof Hs as (Hrep & Hi & Hl & H0). simpl. wp_step.
  eapply wp_mono; [by apply wp_nalloc_internal|]. intros [pa|[]] s' (Hc & Hnp & Hp);
    apply wp_ret; (split; [done|]).
  - destruct Hp as (h & o & p & -> & Hm & Hfr & Hr & _).
    pose proof (sim_head_pos _ _ _ _ Hs ltac:(apply Hm) Hfr).
    destruct Hfr as (_ & ? & ? & ?).
    exists (<[h := (o, 1)]> A). split; [by constructor|].
    apply (sim_cfg A s); [done..|]. rewrite lookup_insert_ne by lia. done.
  - destruct Hp as [Hr _]. exists A. split; [by constructor|]. by apply (sim_cfg A s).
Qed.

(** Every allowed request is served without a fault, with an answer and an
    effect the abstract allocator allows. *)
Lemma sim_step A s q :
  sim A s -> allowed (npages s) A q ->
  wp (serve q) (fun r s' => npages s' = npages s /\
     exists A', astep (npages s) A q r A' /\ sim A' s') s.
Proof.
  intros Hs (r0 & A0 & Hstep). pose proof Hs as (Hrep & Hi & Hl & H0).
  inversion Hstep; subst; [by apply sim_alloc..| | |]; simpl; wp_step;
    (eapply wp_mono; [by (eapply wp_nfree_internal || eapply wp_inc_refcnt || eapply wp_dec_refcnt)|]);
    intros [] s' (Hc & Hnp & Hr); wp_step; (split; [done|]); (eexists; split; [done|]);
    apply (sim_cfg A s); try done.
  - rewrite lookup_delete_ne by lia. done.
  - rewrite lookup_insert. by case_decide.
  - unfold drop_ref. destruct (_ =? _);
      [rewrite lookup_delete_ne by lia|rewrite lookup_insert_ne by lia]; done.
Qed.

(** A client: it looks at the history of requests and answers (latest first)
    and decides what to ask next, or stops. *)
Definition history : Type := list (request * option (Z + unit)).
Definition client : Type := history -> option request.

Fixpoint run_client (steps : nat) (c : client) (hist : history) : M pmem history :=
  match steps with
  | O => ret hist
  | S k => match c hist with
           | None => ret hist
           | Some q => r <- serve q;; run_client k c ((q, r) :: hist)
           end
  end.

(** The abstract allocator, asked by [c], goes from [A] through [hist]. *)
Inductive atrace (np : Z) (c : client) (A : gmap Z (Z * Z)) : history -> gmap Z (Z * Z) -> Prop :=
| ATnil : atrace np c A [] A
| ATcons hist A1 q r A2 :
    atrace np c A hist A1 -> c hist = Some q -> astep np A1 q r A2 ->
    atrace np c A ((q, r) :: hist) A2.

(** A client that, after any history the abstract allocator can produce with
    it, asks only what it is allowed to ask. *)
Definition well_behaved (np : Z) (A : gmap Z (Z * Z)) (c : client) : Prop :=
  forall hist A' q, atrace np c A hist A' -> c hist = Some q -> allowed np A' q.

Lemma wp_run_client np A c : well_behaved np A c ->
  forall steps hist A1 s, atrace np c A hist A1 -> sim A1 s -> npages s = np ->
  wp (run_client steps c hist)
     (fun hist' s' => npages s' = np /\ exists A', atrace np c A hist' A' /\ sim A' s') s.
Proof.
  intros Hc. induction steps as [|k IH]; intros hist A1 s Ht Hs Hn; simpl; [wp_step; eauto|].
  destruct (c hist) as [q|] eqn:Eq; [|wp_step; eauto].
  wp_step. eapply wp_mono; [apply sim_step; [done|rewrite Hn; by eapply Hc]|].
  intros r s' (Hn' & A' & Hstep & Hs'). rewrite Hn in *.
  eapply IH; [by eapply ATcons|done|done].
Qed.

(** The allocated blocks of a represented state are pairwise disjoint and
    inside the page map. *)
Definition blocks_apart (np : Z) (A : gmap Z (Z * Z)) : Prop :=
  (forall h o r, A !! h = Some (o, r) -> 0 <= h /\ h + 2 ^ o <= np /\ 0 < r) /\
  (forall h1 o1 r1 h2 o2 r2, A !! h1 = Some (o1, r1) -> A !! h2 = Some (o2, r2) -> h1 <> h2 ->
     disjoint_pages h1 (2 ^ o1) h2 (2 ^ o2)).

Lemma buddy_rep_apart A s : buddy_rep A s -> blocks_apart (npages s) A.
Proof.
  intros (B & I & HA). split.
  - intros h o r Hh. destruct (reps_allocd _ _ _ _ _ _ HA Hh) as (p & (HB & Hp & Hr) & <-).
    destruct (inv_blk _ _ _ _ _ I HB) as (? & ? & ? & ?). done.
  - intros h1 o1 r1 h2 o2 r2 H1 H2 Hne.
    destruct (reps_allocd _ _ _ _ _ _ HA H1) as (p1 & (HB1 & _) & _).
    destruct (reps_allocd _ _ _ _ _ _ HA H2) as (p2 & (HB2 & _) & _).
    by eapply (tl_disj _ _ _ (inv_tiling _ _ _ I)).
Qed.

(** C1: the page allocator refines the abstract allocator for every
    interaction.  Whatever a well-behaved client does, for however many
    requests, no kassert fails and no operation faults or diverges; the
    answers are a trace of the abstract allocator; and in the end the
    allocated blocks lie inside the machine and are pairwise disjoint. *)
Theorem pmem_refines np (A : gmap Z (Z * Z)) c s steps :
  sim A s -> npages s = np -> well_behaved np A c ->
  wp (run_client steps c [])
     (fun hist s' => exists A', atrace np c A hist A' /\ sim A' s' /\ blocks_apart np A') s.
Proof.
  intros Hs Hn Hc. eapply wp_mono; [by eapply wp_run_client; [|constructor|..]|].
  intros hist s' (Hn' & A' & ? & Hs'). exists A'. do 2 (split; [done|]).
  rewrite <- Hn'. by apply buddy_rep_apart, Hs'.
Qed.

(** Allocates one page, takes and drops a reference, allocates again. *)
Definition demo_client : client := fun hist =>
  match hist with
  | [] => Some (RAlloc 1)
  | [_] => Some (RInc 0 1)
  | [_; _] => Some (RAlloc 2)
  | _ => None
  end.

Lemma demo_client_ok : well_behaved 2 demo_A demo_client.
Proof.
  intros hist A' q Ht Hq. destruct hist as [|x [|y [|]]]; simpl in Hq; simplify_eq.
  - exists (Some (inr tt)), A'. by constructor.
  - inversion Ht as [|? A1 ? ? ? H1 Hc H2]; subst. inversion H1; subst.
    simpl in Hc. simplify_eq.
    assert (HA : A' !! 0 = Some (0, 1)).
    { inversion H2; subst; try done. by rewrite lookup_insert_ne by lia. }
    eexists _, _. by apply (AInc _ _ _ 1).
  - exists (Some (inr tt)), A'. by constructor.
Qed.

Lemma pmem_refines_witness :
  wp (run_client 3 demo_client [])
     (fun hist s' => exists A', atrace 2 demo_client demo_A hist A' /\ sim A' s' /\ blocks_apart 2 A') demo.
Proof.
  apply (pmem_refines 2 demo_A demo_client demo 3); [|done|apply demo_client_ok].
  split; [apply demo_rep|]. do 2 (split; [done|]). by exists (0, 1).
Defined.
