(* ===== verification/PageAlloc.v ===== *)
(** * The page-frame interface

    What the page tables and the page cache rely on when they take, share and
    return single physical pages (include/kernel/pmem.h).  [pg_held s H]: in
    state [s] the client holds the frames of [H] (by physical address), each
    with its reference count.  The instance at the end shows that pmem.c
    implements the interface. *)

From stdpp Require Import prelude gmap.
From Stdlib Require Import ZArith Lia.
From S2P Require Import Prelude Mmu Tiling Pmem PmemBuddy PmemSpec.

(** A page-aligned address of the direct map that is not page 0. *)
Definition frame_addr (p : Z) : Prop := 0 < p < 2 ^ 31 /\ p mod PG_SIZE = 0.

(** The frames after one reference to [p] is dropped. *)
Definition drop_frame (p r : Z) (H : gmap Z Z) : gmap Z Z :=
  if r =? 1 then delete p H else <[p := r - 1]> H.

Class PageAlloc (St : Type) := {
  pg_alloc : M St (Z + unit);
  pg_free : Z -> M St unit;
  pg_dec : Z -> M St unit;
  pg_held : St -> gmap Z Z -> Prop;
  pg_alloc_spec s H : pg_held s H ->
    wp pg_alloc (fun r s' => match r with
      | inl p => frame_addr p /\ H !! p = None /\ pg_held s' (<[p := 1]> H)
      | inr _ => pg_held s' H
      end) s;
  pg_free_spec s H p r : pg_held s H -> H !! p = Some r ->
    wp (pg_free p) (fun _ s' => pg_held s' (delete p H)) s;
  pg_dec_spec s H p r : pg_held s H -> H !! p = Some r ->
    wp (pg_dec p) (fun _ s' => pg_held s' (drop_frame p r H)) s;
  pg_held_addr s H p r : pg_held s H -> H !! p = Some r -> frame_addr p /\ 0 < r
}.

(** ** pmem.c implements it *)

(** The frames of [H] are single-page blocks of [A]. *)
Definition backed (A : gmap Z (Z * Z)) (H : gmap Z Z) : Prop :=
  forall p r, H !! p = Some r -> exists h, p = h * PG_SIZE /\ 0 < h /\ A !! h = Some (0, r).

Definition pmem_holds (s : pmem) (H : gmap Z Z) : Prop :=
  exists A, sim A s /\ npages s * PG_SIZE <= 2 ^ 31 /\ backed A H.

Lemma page_mul_inj h k : h * PG_SIZE = k * PG_SIZE -> h = k.
Proof. unfold PG_SIZE. lia. Qed.

Lemma holds_alloc A H s s' h :
  backed A H ->
  0 < h -> A !! h = None -> sim (<[h := (0, 1)]> A) s' -> npages s' = npages s ->
  npages s * PG_SIZE <= 2 ^ 31 ->
  H !! (h * PG_SIZE) = None /\ pmem_holds s' (<[h * PG_SIZE := 1]> H).
Proof.
  intros HH Hh Hn Hs Hp Hle. split.
  - destruct (H !! _) as [r|] eqn:E; [|done]. destruct (HH _ _ E) as (k & Ek & _ & Hk).
    apply page_mul_inj in Ek as <-. congruence.
  - exists (<[h := (0, 1)]> A). do 2 (split; [done || by rewrite Hp|]).
    intros p r. rewrite lookup_insert. case_decide as E; [intros [= <-]|].
    + exists h. by rewrite lookup_insert, decide_True.
    + intros Hr. destruct (HH _ _ Hr) as (k & -> & Hk & ?). exists k. do 2 (split; [done|]).
      rewrite lookup_insert_ne; [done|]. by intros <-.
Qed.

(** An operation that changes only the block [h] keeps the other frames. *)
Lemma holds_change A A' H H' s' h :
  backed A H ->
  (forall k, k <> h -> A' !! k = A !! k) ->
  (forall p, p <> h * PG_SIZE -> H' !! p = H !! p) ->
  (forall r, H' !! (h * PG_SIZE) = Some r -> A' !! h = Some (0, r)) ->
  0 < h -> sim A' s' -> npages s' * PG_SIZE <= 2 ^ 31 -> pmem_holds s' H'.
Proof.
  intros HH HA HH' Hh Hpos Hs Hn. exists A'. do 2 (split; [done|]). intros p r Hp.
  destruct (Z.eq_dec p (h * PG_SIZE)) as [->|Hne]; [exists h; auto|].
  rewrite HH' in Hp by done. destruct (HH _ _ Hp) as (k & -> & ? & Hk). exists k.
  do 2 (split; [done|]). rewrite HA; [done|]. intros ->. done.
Qed.

Lemma pmem_step A H s q r A' h s' :
  backed A H ->
  q = RFree h 1 \/ q = RDec h -> 0 < h -> A !! h = Some (0, r) ->
  astep (npages s) A q None A' -> sim A' s' -> npages s' * PG_SIZE <= 2 ^ 31 ->
  pmem_holds s' (match q with RDec _ => drop_frame (h * PG_SIZE) r H | _ => delete (h * PG_SIZE) H end).
Proof.
  intros HH [-> | ->] Hpos Hh Hst Hs Hn; inversion Hst; simplify_eq.
  - apply (holds_change A (delete h A) H _ s' h); [exact HH|..]; [| | | |done|done].
    + intros k ?. by rewrite lookup_delete_ne.
    + intros p ?. by rewrite lookup_delete_ne.
    + intros r'. by rewrite lookup_delete, decide_True.
    + done.
  - apply (holds_change A (drop_ref h r A) H _ s' h); [exact HH|..]; unfold drop_ref, drop_frame; [| | |done|done|done].
    + intros k ?. destruct (r =? 1); [by rewrite lookup_delete_ne|by rewrite lookup_insert_ne].
    + intros p ?. destruct (r =? 1); [by rewrite lookup_delete_ne|by rewrite lookup_insert_ne].
    + intros r'. destruct (r =? 1); [by rewrite lookup_delete, decide_True|].
      rewrite !lookup_insert, !decide_True by done. by intros [= <-].
Qed.

#[export] Program Instance pmem_pagealloc : PageAlloc pmem := {|
  pg_alloc := pmem_alloc; pg_free := pmem_free; pg_dec := pmem_dec_refcnt; pg_held := pmem_holds
|}.
Next Obligation.
  intros s H (A & Hs & Hn & HH).
  destruct (wp_elim _ _ _ (sim_alloc A s 1 Hs ltac:(unfold MAX_ORDER; lia)))
    as (v & s' & Hrun & Hn' & A' & Hst & Hs').
  apply bind_inv in Hrun as (a & s1 & Hrun & [= <- <-]). eapply wp_intro; [exact Hrun|].
  inversion Hst as [n h o ? (Ho & _ & Hmin) Hh _ Hend Hdisj| | | |]; subst.
  - assert (o = 0) as -> by (destruct (Z.eq_dec o 0); [done|]; specialize (Hmin 0); lia).
    assert (Hfresh : A !! h = None).
    { destruct (A !! h) as [[k r]|] eqn:E; [|done]. specialize (Hdisj _ _ _ E).
      destruct (buddy_rep_apart A s (proj1 Hs)) as [Hb _]. specialize (Hb _ _ _ E).
      pose proof (Z.pow_nonneg 2 k). destruct (Z.le_gt_cases 0 k) as [Hk|Hk].
      - pose proof (pow2_pos k Hk). unfold disjoint_pages in Hdisj. lia.
      - destruct (proj1 Hs) as (B & I & HA). destruct (reps_allocd _ _ _ _ _ _ HA E) as (p & (HB & _) & _).
        destruct (inv_blk _ _ _ _ _ I HB) as (? & _). lia. }
    split; [|by apply (holds_alloc A H s s1 h)].
    unfold frame_addr, PG_SIZE in *. rewrite Z.mod_mul by lia. lia.
  - exists A'. split; [done|]. by rewrite Hn'.
Qed.
Next Obligation.
  intros s H p r (A & Hs & Hn & HH) Hp. destruct (HH _ _ Hp) as (h & -> & Hh & HA).
  destruct (wp_elim _ _ _ (sim_step A s (RFree h 1) Hs (ex_intro _ _ (ex_intro _ _ (AFree _ _ h 0 r 1 Hh eq_refl HA)))))
    as (v & s' & Hrun & Hn' & A' & Hst & Hs').
  apply bind_inv in Hrun as (a & s1 & Hrun & [= <- <-]). eapply wp_intro; [exact Hrun|].
  apply (pmem_step A H s (RFree h 1) r A' h s1); [done|by left|done..|by rewrite Hn'].
Qed.
Next Obligation.
  intros s H p r (A & Hs & Hn & HH) Hp. destruct (HH _ _ Hp) as (h & -> & Hh & HA).
  destruct (wp_elim _ _ _ (sim_step A s (RDec h) Hs (ex_intro _ _ (ex_intro _ _ (ADec _ _ _ _ Hh HA)))))
    as (v & s' & Hrun & Hn' & A' & Hst & Hs').
  apply bind_inv in Hrun as (a & s1 & Hrun & [= <- <-]). eapply wp_intro; [exact Hrun|].
  apply (pmem_step A H s (RDec h) r A' h s1); [done|by right|done..|by rewrite Hn'].
Qed.
Next Obligation.
  intros s H p r (A & Hs & Hn & HH) Hp. destruct (HH _ _ Hp) as (h & -> & Hh & HA).
  destruct (buddy_rep_apart A s (proj1 Hs)) as [Hb _]. specialize (Hb _ _ _ HA).
  unfold frame_addr, PG_SIZE in *. rewrite Z.mod_mul by lia. lia.
Qed.
