(* ===== verification/DList.v ===== *)
(** * Intrusive doubly-linked lists (kernel/list.c, include/kernel/list.h)

    The memory of the list nodes is kept per field: [m_prev] and [m_next] map
    the address of a node to the value of the field.  A load or store through
    an address that is not a node is a [BadAccess].  A [List] is the address
    of its [header] node.

    [dll m h xs]: the list with header [h] holds the nodes [xs], in order.
    The operations of list.c are shown to be the operations on [xs], which is
    why the other components model an intrusive list by its sequence of
    nodes. *)

From stdpp Require Import prelude list gmap sorting.
From Stdlib Require Import ZArith Lia.
From S2P Require Import Prelude.

Record nodes := mkNodes { m_prev : gmap Z Z; m_next : gmap Z Z }.

Definition load_prev (n : Z) : M nodes Z := v <- gets (fun m => m_prev m !! n);; deref v.
Definition load_next (n : Z) : M nodes Z := v <- gets (fun m => m_next m !! n);; deref v.
Definition store_prev (n v : Z) : M nodes unit :=
  load_prev n;; modify (fun m => mkNodes (<[n := v]> (m_prev m)) (m_next m)).
Definition store_next (n v : Z) : M nodes unit :=
  load_next n;; modify (fun m => mkNodes (m_prev m) (<[n := v]> (m_next m))).
Definition nonnull (p : Z) : bool := negb (p =? NULL).

(** ** list.c *)

Definition list_init (list : Z) : M nodes unit :=
  kassert (nonnull list);;
  store_prev list list;;
  store_next list list.

Definition list_empty (list : Z) : M nodes bool :=
  kassert (nonnull list);;
  p <- load_prev list;;
  n <- load_next list;;
  ret ((p =? list) && (n =? list)).

Definition list_append (list node : Z) : M nodes unit :=
  kassert (nonnull list);;
  e <- list_empty list;;
  (if (e : bool) then store_next list node
   else p <- load_prev list;; store_next p node);;
  p <- load_prev list;;
  store_prev node p;;
  store_next node list;;
  store_prev list node.

Definition list_begin (list : Z) : M nodes Z :=
  kassert (nonnull list);; load_next list.
Definition list_end (list : Z) : M nodes Z :=
  kassert (nonnull list);; ret list.
Definition list_next (n : Z) : M nodes Z :=
  kassert (nonnull n);; load_next n.
Definition list_prev (n : Z) : M nodes Z :=
  kassert (nonnull n);; load_prev n.

Definition list_remove (node : Z) : M nodes Z :=
  kassert (nonnull node);;
  p <- load_prev node;;
  n <- load_next node;;
  store_next p n;;
  n <- load_next node;;
  p <- load_prev node;;
  store_prev n p;;
  load_next node.

(** Every loop below visits each node once: the number of nodes in memory
    bounds its length. *)
Definition fuel_of (m : nodes) : nat := S (S (size (m_next m))).

Definition list_append_ordered (list node : Z) (compare : Z -> Z -> Z) : M nodes unit :=
  kassert (nonnull list && nonnull node);;
  fuel <- gets fuel_of;;
  n <- list_begin list;;
  inserted <- loop fuel (fun n =>
    e <- list_end list;;
    if n =? e then ret (inr false)
    else if 0 <? compare n node then
      p <- load_prev n;; store_prev node p;;
      store_next node n;;
      p <- load_prev n;; store_next p node;;
      store_prev n node;;
      ret (inr true)
    else n' <- list_next n;; ret (inl n')) n;;
  if (inserted : bool) then ret tt else list_append list node.

(** [op] works on a state of its own ([aux]). *)
Definition list_foreach_do {X} (list : Z) (op : Z -> M X Z) : M (nodes * X) Z :=
  let on_nodes {A} (m : M nodes A) := zoom fst (fun t s => (t, snd s)) m in
  on_nodes (kassert (nonnull list));;
  fuel <- gets (fun s => fuel_of (fst s));;
  node <- on_nodes (list_begin list);;
  loop fuel (fun node =>
    e <- on_nodes (list_end list);;
    if node =? e then ret (inr ERR_OK)
    else
      err <- zoom snd (fun x s => (fst s, x)) (op node);;
      if negb (err =? ERR_OK) then ret (inr err)
      else node' <- on_nodes (list_next node);; ret (inl node')) node.

(** ** Representation *)

Fixpoint chain (m : nodes) (a : Z) (xs : list Z) (z : Z) : Prop :=
  match xs with
  | [] => m_next m !! a = Some z /\ m_prev m !! z = Some a
  | x :: xs' => m_next m !! a = Some x /\ m_prev m !! x = Some a /\ chain m x xs' z
  end.

Record dll (m : nodes) (h : Z) (xs : list Z) : Prop := {
  dll_nodup : NoDup (h :: xs);
  dll_nonnull : NULL ∉ h :: xs;
  dll_chain : chain m h xs h
}.

Definition valid_node (m : nodes) (n : Z) : Prop :=
  n <> NULL /\ is_Some (m_prev m !! n) /\ is_Some (m_next m !! n).

Lemma chain_app m a xs y ys z :
  chain m a (xs ++ y :: ys) z <-> chain m a xs y /\ chain m y ys z.
Proof. revert a. induction xs as [|x xs IH]; intros a; simpl; [tauto|]. rewrite IH. tauto. Qed.

(** A chain depends on the [next] fields of its sources and the [prev]
    fields of its targets only. *)
Lemma chain_frame m m' a xs z :
  (forall x, x ∈ a :: xs -> m_next m' !! x = m_next m !! x) ->
  (forall x, x ∈ z :: xs -> m_prev m' !! x = m_prev m !! x) ->
  chain m a xs z -> chain m' a xs z.
Proof.
  revert a. induction xs as [|x xs IH]; intros a Hn Hp; simpl.
  - rewrite Hn, Hp by set_solver. done.
  - rewrite Hn, Hp by set_solver. intros (? & ? & ?). do 2 (split; [done|]).
    apply IH; [set_solver|set_solver|done].
Qed.

Lemma last_cons_default (x a : Z) xs : List.last (x :: xs) a = List.last xs x.
Proof. revert x. induction xs as [|y xs IH]; intros x; [done|]. simpl in *. by destruct xs. Qed.

Lemma last_elem (a : Z) xs : List.last xs a ∈ a :: xs.
Proof.
  revert a. induction xs as [|x xs IH]; intros a; [apply elem_of_cons; by left|].
  rewrite last_cons_default. apply elem_of_cons. right. apply IH.
Qed.

Lemma hd_elem (z : Z) ys : hd z ys ∈ z :: ys.
Proof. destruct ys; rewrite !elem_of_cons; simpl; auto. Qed.

Lemma chain_last m a xs z : chain m a xs z -> m_prev m !! z = Some (List.last xs a).
Proof.
  revert a. induction xs as [|x xs IH]; intros a; [simpl; tauto|].
  intros (_ & _ & Hc). rewrite last_cons_default. by apply IH.
Qed.

Lemma chain_first m a xs z : chain m a xs z -> m_next m !! a = Some (hd z xs).
Proof. destruct xs; simpl; tauto. Qed.

Lemma chain_sources m a xs z x : chain m a xs z -> x ∈ a :: xs -> is_Some (m_next m !! x).
Proof.
  revert a. induction xs as [|y xs IH]; intros a; simpl.
  - intros [E _] ->%list_elem_of_singleton. by rewrite E.
  - intros (E & _ & Hc) [->|Hx]%elem_of_cons; [by rewrite E|]. by eapply IH.
Qed.

Lemma chain_targets m a xs z x : chain m a xs z -> x ∈ z :: xs -> is_Some (m_prev m !! x).
Proof.
  revert a. induction xs as [|y xs IH]; intros a; simpl.
  - intros [_ E] ->%list_elem_of_singleton. by rewrite E.
  - intros (_ & E & Hc). rewrite !elem_of_cons. intros [->|[->|Hx]]; [|by rewrite E|].
    + eapply IH; [done|set_solver].
    + eapply IH; [done|set_solver].
Qed.

Lemma dll_length_fuel m h xs : dll m h xs -> (S (length xs) < fuel_of m)%nat.
Proof.
  intros [Hnd _ Hc]. unfold fuel_of.
  assert (list_to_set (h :: xs) ⊆ dom (m_next m)) as Hsub.
  { intros x Hx%elem_of_list_to_set. apply elem_of_dom. by eapply chain_sources. }
  apply subseteq_size in Hsub. rewrite size_list_to_set, size_dom in Hsub by done. simpl in Hsub. lia.
Qed.

(** ** Load and store *)

Lemma wp_load_prev n v m (Q : Z -> nodes -> Prop) :
  m_prev m !! n = Some v -> Q v m -> wp (load_prev n) Q m.
Proof. intros. unfold load_prev. wp_run; done. Qed.
Lemma wp_load_next n v m (Q : Z -> nodes -> Prop) :
  m_next m !! n = Some v -> Q v m -> wp (load_next n) Q m.
Proof. intros. unfold load_next. wp_run; done. Qed.
Lemma wp_store_prev n v m (Q : unit -> nodes -> Prop) :
  is_Some (m_prev m !! n) -> Q tt (mkNodes (<[n := v]> (m_prev m)) (m_next m)) ->
  wp (store_prev n v) Q m.
Proof. intros [w ?] ?. unfold store_prev. wp_step. eapply wp_load_prev; [done|]. by wp_step. Qed.
Lemma wp_store_next n v m (Q : unit -> nodes -> Prop) :
  is_Some (m_next m !! n) -> Q tt (mkNodes (m_prev m) (<[n := v]> (m_next m))) ->
  wp (store_next n v) Q m.
Proof. intros [w ?] ?. unfold store_next. wp_step. eapply wp_load_next; [done|]. by wp_step. Qed.

Lemma nonnull_true p : p <> NULL -> nonnull p = true.
Proof. intros. unfold nonnull. by apply negb_true_iff, Z.eqb_neq. Qed.

Lemma dll_h m h xs : dll m h xs -> h <> NULL.
Proof. intros [_ Hn _] ->. set_solver. Qed.

(** ** The one insertion: a node between two neighbours *)

(** The four stores of an insertion of [n] between [a] and [b]. *)
Definition link_between (a n b : Z) (m : nodes) : nodes :=
  mkNodes (<[b := n]> (<[n := a]> (m_prev m))) (<[a := n]> (<[n := b]> (m_next m))).
(** The nodes a list operation may write. *)
Definition untouched (l : list Z) (m m' : nodes) : Prop :=
  forall x, x ∉ l -> m_prev m' !! x = m_prev m !! x /\ m_next m' !! x = m_next m !! x.

Lemma chain_insert m a0 xs ys z0 n :
  chain m a0 (xs ++ ys) z0 -> NoDup (a0 :: xs ++ ys) -> NoDup (z0 :: xs ++ ys) ->
  n ∉ a0 :: z0 :: xs ++ ys ->
  chain (link_between (List.last xs a0) n (hd z0 ys) m) a0 (xs ++ n :: ys) z0.
Proof.
  revert a0. induction xs as [|x xs IH]; intros a0 Hc Ha Hz Hn.
  - simpl in *. apply NoDup_cons in Ha as [Ha Hnd]. apply NoDup_cons in Hz as [Hz _].
    rewrite !elem_of_cons in Hn. rewrite lookup_insert_eq.
    split; [done|]. split; [|destruct ys as [|y ys]; simpl in *].
    + rewrite lookup_insert_ne, lookup_insert_eq; [done|].
      pose proof (hd_elem z0 ys) as Hh. intros E. rewrite E, elem_of_cons in Hh. tauto.
    + split; [rewrite lookup_insert_ne by naive_solver|]; by rewrite lookup_insert_eq.
    + rewrite !elem_of_cons in *. apply NoDup_cons in Hnd as [Hy _].
      rewrite lookup_insert_ne, !lookup_insert_eq by naive_solver. do 2 (split; [done|]).
      eapply chain_frame; [..|apply Hc]; simpl; intros w Hw%elem_of_cons;
        rewrite !lookup_insert_ne; try done; naive_solver.
  - rewrite last_cons_default. simpl in Hc. destruct Hc as (H1 & H2 & H3).
    apply NoDup_cons in Ha as [Ha Hnd]. apply NoDup_cons in Hz as [Hz _].
    simpl in Ha, Hz, Hn, Hnd. rewrite elem_of_cons in Ha, Hz.
    do 3 rewrite elem_of_cons in Hn.
    pose proof (last_elem x xs) as Hl. pose proof (hd_elem z0 ys) as Hh.
    apply NoDup_cons in Hnd as [Hx Hnd]. rewrite !elem_of_app in *.
    rewrite elem_of_cons in Hl, Hh.
    assert (List.last xs x <> a0) by (intros E; rewrite E in Hl; intuition congruence).
    assert (hd z0 ys <> x) by (intros E; rewrite E in Hh; intuition congruence).
    simpl. split; [|split].
    + rewrite !lookup_insert_ne; [done|congruence || (intros ->; intuition congruence)..].
    + rewrite !lookup_insert_ne; [done|congruence || (intros ->; intuition congruence)..].
    + apply IH; [done| | |].
      * constructor; [by rewrite elem_of_app|done].
      * constructor; [rewrite elem_of_app; tauto|done].
      * rewrite !elem_of_cons, elem_of_app. tauto.
Qed.

Lemma dll_insert_between m h xs ys n :
  dll m h (xs ++ ys) -> n <> NULL -> n ∉ h :: xs ++ ys ->
  let m' := link_between (List.last xs h) n (hd h ys) m in
  dll m' h (xs ++ n :: ys) /\ untouched (n :: h :: xs ++ ys) m m'.
Proof.
  intros [Hnd Hnn Hc] Hn Hfresh m'. split; [constructor|].
  - apply (NoDup_Permutation_proper _ (n :: h :: xs ++ ys)).
    { rewrite <- Permutation_middle. by apply perm_swap. }
    by constructor.
  - set_unfold. intuition congruence.
  - apply chain_insert; [done|done|done|]. rewrite elem_of_cons. set_solver +Hfresh.
  - intros x Hx. unfold m', link_between. simpl.
    pose proof (last_elem h xs) as Hl. pose proof (hd_elem h ys) as Hh.
    rewrite elem_of_cons in Hl, Hh. rewrite !elem_of_cons, elem_of_app in Hx.
    assert (List.last xs h <> x) by (intros E; rewrite E in Hl; intuition congruence).
    assert (hd h ys <> x) by (intros E; rewrite E in Hh; intuition congruence).
    rewrite !lookup_insert_ne; [done|congruence || (intros ->; intuition congruence)..].
Qed.

(** ** The one removal *)

Definition unlink (a b : Z) (m : nodes) : nodes :=
  mkNodes (<[b := a]> (m_prev m)) (<[a := b]> (m_next m)).

Lemma chain_remove m a0 xs x ys z0 :
  chain m a0 (xs ++ x :: ys) z0 -> NoDup (a0 :: xs ++ x :: ys) -> NoDup (z0 :: xs ++ x :: ys) ->
  chain (unlink (List.last xs a0) (hd z0 ys) m) a0 (xs ++ ys) z0.
Proof.
  revert a0. induction xs as [|y xs IH]; intros a0 Hc Ha Hz.
  - simpl in *. destruct Hc as (_ & _ & Hc). apply NoDup_cons in Ha as [Ha Hnd].
    apply NoDup_cons in Hz as [Hz _]. destruct ys as [|y ys]; simpl in *;
      rewrite !lookup_insert_eq; [done|]. do 2 (split; [done|]).
    destruct Hc as (_ & _ & Hc). apply NoDup_cons in Hnd as [_ [Hy Hnd]%NoDup_cons].
    eapply chain_frame; [..|apply Hc]; simpl; intros w Hw; rewrite lookup_insert_ne; try done;
      intros <-; set_unfold; intuition congruence.
  - rewrite last_cons_default. simpl in Hc. destruct Hc as (H1 & H2 & H3).
    apply NoDup_cons in Ha as [Ha Hnd]. apply NoDup_cons in Hz as [Hz _].
    simpl in Ha, Hz, Hnd. pose proof (last_elem y xs) as Hl. pose proof (hd_elem z0 ys) as Hh.
    apply NoDup_cons in Hnd as [Hy Hnd].
    assert (List.last xs y <> a0) by (intros E; rewrite E in Hl; set_unfold; intuition congruence).
    assert (hd z0 ys <> y) by (intros E; rewrite E in Hh; set_unfold; intuition congruence).
    simpl. rewrite !lookup_insert_ne by done. do 2 (split; [done|]).
    apply IH; [done|by constructor|constructor; [|done]].
    set_unfold. intuition congruence.
Qed.

Lemma dll_unlink m h xs x ys :
  dll m h (xs ++ x :: ys) ->
  let m' := unlink (List.last xs h) (hd h ys) m in
  dll m' h (xs ++ ys) /\ untouched (h :: xs ++ ys) m m'.
Proof.
  intros [Hnd Hnn Hc] m'. split; [constructor|].
  - apply NoDup_cons in Hnd as [Hh Hnd]. constructor; [set_unfold; intuition congruence|].
    rewrite <- Permutation_middle in Hnd. by apply NoDup_cons in Hnd as [_ ?].
  - set_unfold. intuition congruence.
  - by apply chain_remove with (x := x).
  - intros w Hw. unfold m', unlink. simpl.
    pose proof (last_elem h xs) as Hl. pose proof (hd_elem h ys) as Hh.
    assert (List.last xs h <> w) by (intros E; rewrite E in Hl; set_unfold; intuition congruence).
    assert (hd h ys <> w) by (intros E; rewrite E in Hh; set_unfold; intuition congruence).
    by rewrite !lookup_insert_ne.
Qed.

(** A list none of whose nodes is written is unchanged. *)
Lemma dll_untouched l m m' h xs :
  untouched l m m' -> dll m h xs -> (forall x, x ∈ h :: xs -> x ∉ l) -> dll m' h xs.
Proof.
  intros Hu [? ? Hc] Hd. constructor; [done|done|].
  eapply chain_frame; [..|done]; intros x Hx; by apply Hu, Hd.
Qed.

(** ** The operations *)

Lemma wp_list_empty m h xs (Q : bool -> nodes -> Prop) :
  dll m h xs -> Q (bool_decide (xs = [])) m -> wp (list_empty h) Q m.
Proof.
  intros D HQ. pose proof (dll_h _ _ _ D). destruct D as [Hnd Hnn Hc].
  unfold list_empty. wp_step. wp_step; [by apply nonnull_true|].
  wp_step. eapply wp_load_prev; [by apply (chain_last _ _ _ _ Hc)|].
  wp_step. eapply wp_load_next; [by apply (chain_first _ _ _ _ Hc)|]. wp_step.
  assert (((List.last xs h =? h) && (hd h xs =? h)) = bool_decide (xs = [])) as ->; [|done].
  destruct xs as [|x xs]; [simpl; by rewrite Z.eqb_refl|].
  rewrite bool_decide_eq_false_2 by done. apply NoDup_cons in Hnd as [Hh _].
  simpl hd. destruct (Z.eqb_spec x h) as [->|]; [set_unfold; tauto|]. by rewrite andb_false_r.
Qed.

Lemma insert_commute_next m (a n b : Z) : a <> n ->
  <[n := b]> (<[a := n]> (m_next m)) = <[a := n]> (<[n := b]> (m_next m)).
Proof. intros. by apply insert_insert_ne. Qed.

Lemma wp_list_append m h xs n (Q : unit -> nodes -> Prop) :
  dll m h xs -> valid_node m n -> n ∉ h :: xs ->
  (forall m', dll m' h (xs ++ [n]) -> untouched (n :: h :: xs) m m' -> Q tt m') ->
  wp (list_append h n) Q m.
Proof.
  intros D (Hn0 & Hvp & Hvn) Hfr HQ. pose proof (dll_h _ _ _ D) as Hh.
  unfold list_append. wp_step. wp_step; [by apply nonnull_true|].
  wp_step. eapply wp_list_empty; [done|]. wp_step.
  pose proof D as [Hnd Hnn Hc]. pose proof (chain_last _ _ _ _ Hc) as Hlast.
  set (a := List.last xs h) in *.
  assert (Ha : a ∈ h :: xs) by apply last_elem.
  assert (Hne : a <> n) by (intros ->; done).
  assert (Hsa : is_Some (m_next m !! a)) by (by eapply chain_sources).
  assert (Hstore : forall Q', Q' tt (mkNodes (m_prev m) (<[a := n]> (m_next m))) ->
    wp (if bool_decide (xs = []) then store_next h n
        else p <- load_prev h;; store_next p n) Q' m).
  { intros Q' HQ'. case_bool_decide as E.
    - subst xs. by apply wp_store_next.
    - wp_step. eapply wp_load_prev; [done|]. by apply wp_store_next. }
  apply Hstore. wp_step. eapply wp_load_prev; [done|]. wp_step. apply wp_store_prev; [done|].
  wp_step. apply wp_store_next; [simpl; by rewrite lookup_insert_ne|]. apply wp_store_prev.
  { simpl. rewrite lookup_insert_ne by (set_unfold; intuition congruence). by rewrite Hlast. }
  simpl. rewrite insert_commute_next by done.
  destruct (dll_insert_between m h xs [] n) as [D' U]; [by rewrite app_nil_r|done|by rewrite app_nil_r|].
  rewrite app_nil_r in *. by apply HQ.
Qed.

Lemma wp_list_remove m h xs x ys (Q : Z -> nodes -> Prop) :
  dll m h (xs ++ x :: ys) ->
  (forall m', dll m' h (xs ++ ys) -> untouched (h :: xs ++ ys) m m' -> Q (hd h ys) m') ->
  wp (list_remove x) Q m.
Proof.
  intros D HQ. pose proof D as [Hnd Hnn Hc]. apply chain_app in Hc as [Hc1 Hc2].
  pose proof (chain_last _ _ _ _ Hc1) as Hp. pose proof (chain_first _ _ _ _ Hc2) as Hn.
  assert (Hx : List.last xs h <> x /\ hd h ys <> x).
  { pose proof (last_elem h xs) as Hl. pose proof (hd_elem h ys) as Hh.
    apply NoDup_cons in Hnd as [Hnh Hnd]. apply NoDup_app in Hnd as (_ & Hd & [Hxy _]%NoDup_cons).
    split; intros E; rewrite E in *; set_unfold; naive_solver. }
  unfold list_remove. wp_step. wp_step; [apply nonnull_true; set_unfold; intuition congruence|].
  wp_step. eapply wp_load_prev; [done|]. wp_step. eapply wp_load_next; [done|].
  wp_step. apply wp_store_next; [apply (chain_sources _ _ _ _ _ Hc1 (last_elem _ _))|].
  wp_step. eapply wp_load_next; [simpl; rewrite lookup_insert_ne by apply Hx; done|].
  wp_step. eapply wp_load_prev; [done|].
  wp_step. apply wp_store_prev; [simpl; apply (chain_targets _ _ _ _ _ Hc2 (hd_elem _ _))|].
  eapply wp_load_next; [simpl; rewrite lookup_insert_ne by apply Hx; done|].
  destruct (dll_unlink m h xs x ys D) as [D' U]. by apply HQ.
Qed.

(** The position at which an ordered insertion puts [node]: in front of the
    first element that compares greater. *)
Fixpoint insert_ordered (compare : Z -> Z -> Z) (node : Z) (xs : list Z) : list Z :=
  match xs with
  | [] => [node]
  | x :: xs' => if 0 <? compare x node then node :: x :: xs'
                else x :: insert_ordered compare node xs'
  end.

Lemma insert_ordered_skip compare node xs ys :
  Forall (fun x => compare x node <= 0) xs ->
  insert_ordered compare node (xs ++ ys) = xs ++ insert_ordered compare node ys.
Proof.
  induction 1 as [|x xs Hx _ IH]; simpl; [done|].
  destruct (Z.ltb_spec 0 (compare x node)); [lia|]. by rewrite IH.
Qed.

Section ordered.
Context (m : nodes) (h n : Z) (xs : list Z).
Context (D : dll m h xs) (V : valid_node m n) (Hfr : n ∉ h :: xs).

(** The four stores of the insertion in front of [y]. *)
Lemma wp_insert_front pre y ys (Q : bool -> nodes -> Prop) :
  xs = pre ++ y :: ys ->
  (forall m', dll m' h (pre ++ n :: y :: ys) -> untouched (n :: h :: xs) m m' -> Q true m') ->
  wp (p <- load_prev y;; store_prev n p;;
      store_next n y;;
      p <- load_prev y;; store_next p n;;
      store_prev y n;;
      ret (inr true)) (fun r m' => exists b, r = @inr Z bool b /\ Q b m') m.
Proof using D V Hfr.
  intros E HQ. destruct V as (Hn0 & Hvp & Hvn). pose proof D as [Hnd Hnn Hc].
  assert (Hyx : y ∈ xs) by (rewrite E; set_solver).
  rewrite E in Hc. apply chain_app in Hc as [Hc1 Hc2].
  pose proof (chain_last _ _ _ _ Hc1) as Hp.
  pose proof (last_elem h pre) as Hl. set (a := List.last pre h) in *.
  assert (Ha : a ∈ h :: xs) by (rewrite E; set_unfold; intuition congruence).
  assert (n <> y) by (intros ->; apply Hfr; set_unfold; auto).
  assert (a <> n) by (intros Ean; rewrite Ean in Ha; done).
  wp_step. eapply wp_load_prev; [done|]. wp_step. apply wp_store_prev; [done|].
  wp_step. apply wp_store_next; [done|].
  wp_step. eapply wp_load_prev; [simpl; by rewrite lookup_insert_ne|].
  wp_step. apply wp_store_next.
  { simpl. rewrite lookup_insert_ne by done. eapply chain_sources; [apply Hc1|apply last_elem]. }
  wp_step. apply wp_store_prev; [simpl; by rewrite lookup_insert_ne, Hp|]. simpl. wp_step.
  exists true. split; [done|]. rewrite E in D, Hfr, HQ.
  destruct (dll_insert_between m h pre (y :: ys) n D Hn0 Hfr) as [D' U]. by apply HQ.
Qed.
End ordered.

Lemma wp_list_append_ordered m h xs n compare (Q : unit -> nodes -> Prop) :
  dll m h xs -> valid_node m n -> n ∉ h :: xs ->
  (forall m', dll m' h (insert_ordered compare n xs) -> untouched (n :: h :: xs) m m' -> Q tt m') ->
  wp (list_append_ordered h n compare) Q m.
Proof.
  intros D V Hfr HQ. pose proof (dll_h _ _ _ D) as Hh. pose proof V as (Hn0 & _).
  unfold list_append_ordered. wp_step. wp_step; [by rewrite !nonnull_true|].
  wp_step. wp_step. wp_step. unfold list_begin. wp_step. wp_step; [by apply nonnull_true|].
  eapply wp_load_next; [apply (chain_first _ _ _ _ (dll_chain _ _ _ D))|]. wp_step.
  apply (wp_loop_ghost _ _ (fun k cur m' => m' = m /\ exists pre suf, xs = pre ++ suf /\
            cur = hd h suf /\ length suf = k /\ Forall (fun x => compare x n <= 0) pre)
          _ (length xs)).
  - intros k cur m' (-> & pre & suf & E & -> & <- & HF).
    wp_step. unfold list_end. wp_step. wp_step; [by apply nonnull_true|]. wp_step.
    destruct suf as [|y suf]; simpl.
    + rewrite Z.eqb_refl. wp_step. rewrite app_nil_r in E. subst pre.
      eapply wp_list_append; [done..|]. intros m' D' U. apply HQ; [|done].
      rewrite <- (app_nil_r xs), insert_ordered_skip by done. done.
    + assert (Hy : y <> h).
      { intros ->. destruct D as [[Hnin _]%NoDup_cons _ _]. apply Hnin. rewrite E. set_solver. }
      destruct (Z.eqb_spec y h); [done|]. destruct (Z.ltb_spec 0 (compare y n)).
      * eapply wp_mono; [eapply (wp_insert_front m h n xs D V Hfr pre y suf
                            (fun b m' => b = true /\ Q tt m') E)|].
        -- intros m' D' U. split; [done|]. apply HQ; [|done].
           rewrite E, insert_ordered_skip by done. simpl.
           destruct (Z.ltb_spec 0 (compare y n)); [done|lia].
        -- intros r m' (b & -> & -> & ?). by wp_step.
      * unfold list_next. wp_step. wp_step. wp_step.
        { apply nonnull_true. intros ->. destruct D as [_ Hnn _]. apply Hnn. rewrite E. set_solver. }
        pose proof (dll_chain _ _ _ D) as Hc. rewrite E in Hc.
        apply chain_app in Hc as [_ Hc]. eapply wp_load_next; [by eapply chain_first|]. wp_step.
        exists (length suf). split; [lia|]. split; [done|]. exists (pre ++ [y]), suf.
        rewrite <- app_assoc. split; [done|]. do 2 (split; [done|]).
        apply Forall_app. split; [done|]. by repeat constructor.
  - split; [done|]. by exists [], xs.
  - pose proof (dll_length_fuel _ _ _ D). lia.
Qed.

(** ** Traversal with an operation *)

(** [op] over the nodes in order, up to the first error. *)
Fixpoint foreach_seq {X} (op : Z -> M X Z) (xs : list Z) : M X Z :=
  match xs with
  | [] => ret ERR_OK
  | x :: xs' => err <- op x;; if negb (err =? ERR_OK) then ret err else foreach_seq op xs'
  end.

Lemma list_end_eq m h : h <> NULL -> list_end h m = Done (h, m).
Proof. intros. unfold list_end. by erewrite bind_done by by apply kassert_done, nonnull_true. Qed.

Lemma list_next_eq m n v : n <> NULL -> m_next m !! n = Some v -> list_next n m = Done (v, m).
Proof.
  intros ? H. unfold list_next. erewrite bind_done by by apply kassert_done, nonnull_true.
  unfold load_next, bind, gets, deref. by rewrite H.
Qed.

(** The body of the loop of [list_foreach_do] at node [node]. *)
Definition foreach_step {X} (h : Z) (op : Z -> M X Z) (node : Z) : M (nodes * X) (Z + Z) :=
  e <- zoom fst (fun t s => (t, snd s)) (list_end h);;
  if node =? e then ret (inr ERR_OK)
  else
    err <- zoom snd (fun x s => (fst s, x)) (op node);;
    if negb (err =? ERR_OK) then ret (inr err)
    else node' <- zoom fst (fun t s => (t, snd s)) (list_next node);; ret (inl node').

Lemma foreach_step_end {X} (op : Z -> M X Z) m h (x : X) :
  h <> NULL -> foreach_step h op h (m, x) = Done (inr ERR_OK, (m, x)).
Proof.
  intros. unfold foreach_step.
  erewrite bind_done by (apply zoom_done; by apply list_end_eq). by rewrite Z.eqb_refl.
Qed.

Lemma foreach_step_node {X} (op : Z -> M X Z) m h (x : X) y v :
  h <> NULL -> y <> NULL -> y <> h -> m_next m !! y = Some v ->
  foreach_step h op y (m, x) =
  match op y x with
  | Done (err, x') => Done (if err =? ERR_OK then inl v else inr err, (m, x'))
  | Stop f => Stop f
  end.
Proof.
  intros ? ? ? Hv. unfold foreach_step.
  erewrite bind_done by (apply zoom_done; by apply list_end_eq). cbn [fst snd].
  destruct (Z.eqb_spec y h); [done|]. destruct (op y x) as [[err x']|f] eqn:E.
  - erewrite bind_done by (by apply zoom_done). cbn [fst snd].
    destruct (Z.eqb_spec err ERR_OK); simpl; [|done].
    erewrite bind_done by (apply zoom_done; by apply list_next_eq). done.
  - erewrite bind_stop by (by apply zoom_stop). done.
Qed.

Lemma foreach_loop {X} (op : Z -> M X Z) m h (x : X) fuel pre suf :
  dll m h (pre ++ suf) -> (length suf < fuel)%nat ->
  loop fuel (foreach_step h op) (hd h suf) (m, x) =
  match foreach_seq op suf x with
  | Done (e, x') => Done (e, (m, x'))
  | Stop f => Stop f
  end.
Proof.
  intros D. pose proof (dll_h _ _ _ D) as Hh. revert x pre suf D.
  induction fuel as [|fuel IH]; intros x pre suf D Hf; [lia|].
  cbn [loop]. destruct suf as [|y suf]; cbn [hd foreach_seq].
  - by erewrite bind_done by by apply foreach_step_end.
  - assert (Hy : y <> h /\ y <> NULL).
    { destruct D as [[Hnin _]%NoDup_cons Hnn _]. set_unfold. intuition congruence. }
    pose proof (dll_chain _ _ _ D) as Hc. apply chain_app in Hc as [_ Hc].
    pose proof (foreach_step_node op m h x y _ Hh (proj2 Hy) (proj1 Hy) (chain_first _ _ _ _ Hc)) as Hs.
    destruct (op y x) as [[err x']|f] eqn:E.
    + rewrite (bind_done _ _ _ _ _ Hs), (bind_done _ _ _ _ _ E).
      destruct (Z.eqb_spec err ERR_OK); simpl; [|done].
      apply (IH x' (pre ++ [y])); [by rewrite <- app_assoc|simpl in Hf; lia].
    + by rewrite (bind_stop _ _ _ _ Hs), (bind_stop _ _ _ _ E).
Qed.

Lemma foreach_do_seq {X} (op : Z -> M X Z) m h xs (x : X) :
  dll m h xs ->
  list_foreach_do h op (m, x) =
  match foreach_seq op xs x with
  | Done (e, x') => Done (e, (m, x'))
  | Stop f => Stop f
  end.
Proof.
  intros D. pose proof (dll_h _ _ _ D) as Hh. pose proof (dll_length_fuel _ _ _ D).
  rewrite <- (foreach_loop op m h x (fuel_of m) [] xs D) by lia. unfold list_foreach_do.
  rewrite (bind_done _ _ _ _ _ (zoom_done fst _ _ (m, x) _ _ (kassert_done _ m (nonnull_true _ Hh)))).
  erewrite bind_done by done. cbn [fst snd].
  rewrite (bind_done _ _ _ (hd h xs) (m, x)); [done|].
  apply (zoom_done fst (fun t s => (t, snd s)) _ (m, x) _ m). unfold list_begin. erewrite bind_done by by apply kassert_done, nonnull_true.
  unfold load_next, bind, gets, deref. cbn [fst]. by rewrite (chain_first _ _ _ _ (dll_chain _ _ _ D)).
Qed.

(** ** Claims *)

(** The concrete memory of the witnesses: header 1, nodes 10 and 20 linked,
    node 30 free, and an unrelated empty list with header 2. *)
Definition demo_nodes : nodes :=
  mkNodes {[1 := 20; 10 := 1; 20 := 10; 30 := 7; 2 := 2]} {[1 := 10; 10 := 20; 20 := 1; 30 := 7; 2 := 2]}.

Lemma demo_dll : dll demo_nodes 1 [10; 20].
Proof. constructor; [apply (bool_decide_unpack _); by vm_compute|set_solver|done]. Qed.

Lemma demo_valid : valid_node demo_nodes 30.
Proof. repeat split; [done|by exists 7|by exists 7]. Qed.

(** ([list_append]): appends the node at the end; every list that shares
    no node with this one is unchanged. *)
Theorem list_append_spec m h xs n :
  dll m h xs -> valid_node m n -> n ∉ h :: xs ->
  wp (list_append h n) (fun _ m' => dll m' h (xs ++ [n]) /\
     forall h' ys, dll m h' ys -> (forall x, x ∈ h' :: ys -> x ∉ n :: h :: xs) -> dll m' h' ys) m.
Proof.
  intros. eapply wp_list_append; [done..|]. intros m' D U. split; [done|].
  intros. by eapply dll_untouched.
Qed.

Lemma list_append_spec_witness :
  wp (list_append 1 30) (fun _ m' => dll m' 1 ([10; 20] ++ [30]) /\
     forall h' ys, dll demo_nodes h' ys -> (forall x, x ∈ h' :: ys -> x ∉ [30; 1; 10; 20]) ->
                   dll m' h' ys) demo_nodes.
Proof. apply (list_append_spec demo_nodes 1 [10; 20] 30 demo_dll demo_valid). set_solver. Defined.

(** ([list_remove]): unlinks the node and returns its successor (the
    header for the last one); the rest of the list keeps its order and other
    lists are unchanged. *)
Theorem list_remove_spec m h xs x ys :
  dll m h (xs ++ x :: ys) ->
  wp (list_remove x) (fun r m' => r = hd h ys /\ dll m' h (xs ++ ys) /\
     forall h' zs, dll m h' zs -> (forall y, y ∈ h' :: zs -> y ∉ h :: xs ++ ys) -> dll m' h' zs) m.
Proof.
  intros. eapply wp_list_remove; [done..|]. intros m' D U. do 2 (split; [done|]).
  intros. by eapply dll_untouched.
Qed.

Lemma list_remove_spec_witness :
  wp (list_remove 10) (fun r m' => r = hd 1 [20] /\ dll m' 1 ([] ++ [20]) /\
     forall h' zs, dll demo_nodes h' zs -> (forall y, y ∈ h' :: zs -> y ∉ [1; 20]) -> dll m' h' zs)
    demo_nodes.
Proof. apply (list_remove_spec demo_nodes 1 [] 10 [20] demo_dll). Defined.

(** [compare] orders nodes: a three-way comparison of a total preorder. *)
Definition key_order (compare : Z -> Z -> Z) : Prop :=
  (forall x y, 0 < compare x y -> compare y x <= 0) /\
  (forall x y z, compare x y <= 0 -> compare y z <= 0 -> compare x z <= 0).

Lemma insert_ordered_sorted compare n xs :
  key_order compare -> StronglySorted (fun x y => compare x y <= 0) xs ->
  StronglySorted (fun x y => compare x y <= 0) (insert_ordered compare n xs) /\
  insert_ordered compare n xs ≡ₚ n :: xs.
Proof.
  intros [Htot Htr] Hs. induction Hs as [|x xs Hs [IH Hp] HF]; simpl.
  { split; [by repeat constructor|done]. }
  destruct (Z.ltb_spec 0 (compare x n)) as [Hlt|Hle].
  - split; [|done]. constructor; [by constructor|]. constructor; [by apply Htot|].
    eapply Forall_impl; [done|]. intros y Hy. simpl in Hy. eapply Htr; [by apply Htot|done].
  - split; [|rewrite Hp; apply perm_swap]. constructor; [done|]. rewrite Hp. by constructor.
Qed.

(** ([list_append_ordered]): with a comparator that orders the nodes, a
    sorted list stays sorted and gains exactly the new node. *)
Theorem list_append_ordered_sorted m h xs n compare :
  dll m h xs -> valid_node m n -> n ∉ h :: xs -> key_order compare ->
  StronglySorted (fun x y => compare x y <= 0) xs ->
  wp (list_append_ordered h n compare) (fun _ m' => exists xs', dll m' h xs' /\
     StronglySorted (fun x y => compare x y <= 0) xs' /\ xs' ≡ₚ n :: xs) m.
Proof.
  intros D V Hn Hk Hs. eapply wp_list_append_ordered; [done..|]. intros m' D' _.
  eexists. split; [done|]. by apply insert_ordered_sorted.
Qed.

Lemma list_append_ordered_sorted_witness :
  wp (list_append_ordered 1 30 Z.sub) (fun _ m' => exists xs', dll m' 1 xs' /\
     StronglySorted (fun x y => x - y <= 0) xs' /\ xs' ≡ₚ [30; 10; 20]) demo_nodes.
Proof.
  apply (list_append_ordered_sorted demo_nodes 1 [10; 20] 30 Z.sub demo_dll demo_valid); [set_solver| |].
  - split; intros; lia.
  - repeat constructor; lia.
Defined.

(** ([list_foreach_do]): runs the operation on the nodes in list order
    and stops with the first result that is not ERR_OK; the traversal
    terminates and leaves the links alone. *)
Theorem list_foreach_do_spec {X} (op : Z -> M X Z) m h xs (x : X) :
  dll m h xs ->
  list_foreach_do h op (m, x) =
  match foreach_seq op xs x with
  | Done (e, x') => Done (e, (m, x'))
  | Stop f => Stop f
  end.
Proof. apply foreach_do_seq. Qed.

Lemma list_foreach_do_spec_witness :
  let op := fun n (acc : Z) => Done (if n =? 20 then ERR_NOTEXIST else ERR_OK, acc + n) in
  list_foreach_do 1 op (demo_nodes, 0) = Done (ERR_NOTEXIST, (demo_nodes, 30)).
Proof.
  intros op. refine (eq_trans (list_foreach_do_spec op demo_nodes 1 [10; 20] 0 demo_dll) _). reflexivity.
Defined.
