(* ===== verification/CString.v ===== *)
(** * Byte strings (lib/string.c)

    Memory is a finite map from addresses to bytes (0..255); an access
    outside it is a [BadAccess].  [char] is signed: a load through a
    [char *] converts with [i8], a store keeps the low byte. *)

From stdpp Require Import prelude list gmap.
From Stdlib Require Import ZArith Lia.
From S2P Require Import Prelude.

Abbreviation mem := (gmap Z Z).

Definition load8 (a : Z) : M mem Z := b <- gets (fun m : mem => m !! a);; deref b.
Definition loadc (a : Z) : M mem Z := b <- load8 a;; ret (i8 b).
Definition store8 (a v : Z) : M mem unit :=
  load8 a;; modify (fun m => <[a := u8 v]> m).

(** A string is at most as long as the memory. *)
Definition mem_fuel (m : mem) : nat := S (S (size m)).

(** ** lib/string.c *)

Definition memset (s c n : Z) : M mem Z :=
  loop (S (Z.to_nat n)) (fun p =>
    if p <? u64 (s + n) then store8 p c;; ret (inl (p + 1)) else ret (inr tt)) s;;
  ret s.

(** [while (n-- > 0) { *d++ = *s++; }] *)
Fixpoint copy_up (n : nat) (d s : Z) : M mem unit :=
  match n with
  | O => ret tt
  | S n' => v <- load8 s;; store8 d v;; copy_up n' (d + 1) (s + 1)
  end.
(** [while (n-- > 0) { *--d = *--s; }] *)
Fixpoint copy_down (n : nat) (d s : Z) : M mem unit :=
  match n with
  | O => ret tt
  | S n' => v <- load8 (s - 1);; store8 (d - 1) v;; copy_down n' (d - 1) (s - 1)
  end.

Definition memcpy (dest src n : Z) : M mem Z :=
  copy_up (Z.to_nat n) dest src;; ret dest.

Definition memmove (dest src n : Z) : M mem Z :=
  (if (src <? dest) && (dest <? u64 (src + n))
   then copy_down (Z.to_nat n) (dest + n) (src + n)
   else copy_up (Z.to_nat n) dest src);;
  ret dest.

Fixpoint memcmp_from (n : nat) (p1 p2 : Z) : M mem Z :=
  match n with
  | O => ret 0
  | S n' => a <- load8 p1;; b <- load8 p2;;
            if negb (a =? b) then ret (a - b) else memcmp_from n' (p1 + 1) (p2 + 1)
  end.
Definition memcmp (s1 s2 n : Z) : M mem Z := memcmp_from (Z.to_nat n) s1 s2.

Definition strlen (s : Z) : M mem Z :=
  fuel <- gets mem_fuel;;
  loop fuel (fun '(s, len) =>
    c <- loadc s;;
    if negb (c =? 0) then ret (inl (s + 1, len + 1)) else ret (inr len)) (s, 0).

Definition strcpy (dest src : Z) : M mem Z :=
  fuel <- gets mem_fuel;;
  loop fuel (fun '(d, src) =>
    c <- loadc src;; store8 d c;;
    if negb (c =? 0) then ret (inl (d + 1, src + 1)) else ret (inr tt)) (dest, src);;
  ret dest.

(** First loop: copy until [n] is used up or the terminator was copied; it
    leaves [(d, n)].  Second loop: fill with zeros. *)
Fixpoint strncpy_copy (n : nat) (d src : Z) : M mem (Z * nat) :=
  match n with
  | O => ret (d, O)
  | S n' => c <- loadc src;; store8 d c;;
            if negb (c =? 0) then strncpy_copy n' (d + 1) (src + 1) else ret (d + 1, n)
  end.
Fixpoint zero_fill (n : nat) (d : Z) : M mem unit :=
  match n with
  | O => ret tt
  | S n' => store8 d 0;; zero_fill n' (d + 1)
  end.
Definition strncpy (dest src n : Z) : M mem Z :=
  r <- strncpy_copy (Z.to_nat n) dest src;;
  zero_fill (snd r) (fst r);;
  ret dest.

Definition strcmp (s1 s2 : Z) : M mem Z :=
  fuel <- gets mem_fuel;;
  loop fuel (fun '(s1, s2) =>
    a <- loadc s1;;
    if negb (a =? 0) then
      b <- loadc s2;;
      if a =? b then ret (inl (s1 + 1, s2 + 1)) else ret (inr (a - b))
    else b <- loadc s2;; ret (inr (a - b))) (s1, s2).

Fixpoint strncmp_from (n : nat) (s1 s2 : Z) : M mem Z :=
  match n with
  | O => ret 0
  | S n' =>
      a <- loadc s1;;
      if negb (a =? 0) then
        b <- loadc s2;;
        if a =? b then strncmp_from n' (s1 + 1) (s2 + 1) else ret (a - b)
      else b <- loadc s2;; ret (a - b)
  end.
Definition strncmp (s1 s2 n : Z) : M mem Z := strncmp_from (Z.to_nat n) s1 s2.

Definition strchr (s c_ : Z) : M mem Z :=
  let c := i8 c_ in
  if s =? NULL then ret NULL
  else
    fuel <- gets mem_fuel;;
    loop fuel (fun s =>
      b <- loadc s;;
      if b =? c then ret (inr s)
      else if b =? 0 then ret (inr NULL)
      else ret (inl (s + 1))) s.

(** The result is the token (or NULL) and the new value of [*save_ptr]. *)
Definition strtok_r (s delimiters save_ptr : Z) : M mem (Z * Z) :=
  if delimiters =? NULL then ret (NULL, save_ptr)
  else
    let s := if s =? NULL then save_ptr else s in
    fuel <- gets mem_fuel;;
    (* skip any delimiters at the current position *)
    r <- loop fuel (fun s =>
      c <- loadc s;;
      p <- strchr delimiters c;;
      if negb (p =? NULL) then
        if c =? 0 then ret (inr (inl s)) else ret (inl (s + 1))
      else ret (inr (inr s))) s;;
    match r with
    | inl s => ret (NULL, s)
    | inr token =>
        (* skip any non-delimiters up to the end of the string *)
        s <- loop fuel (fun s =>
          c <- loadc s;;
          p <- strchr delimiters c;;
          if p =? NULL then ret (inl (s + 1)) else ret (inr s)) token;;
        c <- loadc s;;
        if negb (c =? 0) then store8 s 0;; ret (token, s + 1)
        else ret (token, s)
    end.

(** ** Representation *)

(** The bytes [l] are stored from address [a] on. *)
Definition bytes_at (m : mem) (a : Z) (l : list Z) : Prop :=
  forall i b, l !! i = Some b -> m !! (a + Z.of_nat i) = Some b.
(** A C string: the characters [l], none of them NUL, and a terminator. *)
Definition cstr (m : mem) (a : Z) (l : list Z) : Prop :=
  bytes_at m a (l ++ [0]) /\ Forall (fun b => 0 < b < 256) l.
(** Memory [m] with the bytes [l] written from [a] on. *)
Fixpoint write_bytes (a : Z) (l : list Z) (m : mem) : mem :=
  match l with
  | [] => m
  | b :: l' => write_bytes (a + 1) l' (<[a := b]> m)
  end.
Definition mapped (m : mem) (a n : Z) : Prop := forall i, a <= i < a + n -> is_Some (m !! i).

Lemma lookup_write_bytes a l m x :
  write_bytes a l m !! x =
  if decide (a <= x < a + Z.of_nat (length l)) then l !! Z.to_nat (x - a) else m !! x.
Proof.
  revert a m. induction l as [|b l IH]; intros a m; simpl.
  - case_decide; [lia|done].
  - rewrite IH, lookup_insert. repeat case_decide; try lia; subst; try done.
    + replace (Z.to_nat (x - a)) with (S (Z.to_nat (x - (a + 1)))) by lia. done.
    + by rewrite Z.sub_diag.
Qed.

Lemma bytes_at_nil m a : bytes_at m a [].
Proof. by intros i b. Qed.

Lemma bytes_at_cons m a b l : bytes_at m a (b :: l) <-> m !! a = Some b /\ bytes_at m (a + 1) l.
Proof.
  split.
  - intros H. split; [rewrite <- (Z.add_0_r a); by apply (H 0%nat)|].
    intros i c Hi. replace (a + 1 + Z.of_nat i) with (a + Z.of_nat (S i)) by lia. by apply H.
  - intros [H1 H2] [|i] c Hi; simpl in Hi; [by rewrite Z.add_0_r, H1|].
    replace (a + Z.of_nat (S i)) with (a + 1 + Z.of_nat i) by lia. by apply H2.
Qed.

Lemma bytes_at_app m a l1 l2 :
  bytes_at m a (l1 ++ l2) <-> bytes_at m a l1 /\ bytes_at m (a + Z.of_nat (length l1)) l2.
Proof.
  revert a. induction l1 as [|b l1 IH]; intros a; simpl.
  - rewrite Z.add_0_r. pose proof (bytes_at_nil m a). tauto.
  - rewrite !bytes_at_cons, IH.
    replace (a + Z.of_nat (S (length l1))) with (a + 1 + Z.of_nat (length l1)) by lia. tauto.
Qed.

Lemma bytes_at_write m a l : bytes_at (write_bytes a l m) a l.
Proof.
  intros i b Hi. rewrite lookup_write_bytes. pose proof (lookup_lt_Some _ _ _ Hi).
  rewrite decide_True by lia. by replace (Z.to_nat (a + Z.of_nat i - a)) with i by lia.
Qed.

Lemma bytes_at_fuel m a l : bytes_at m a l -> (length l <= size m)%nat.
Proof.
  intros H. assert (Hsub : list_to_set ((fun i => a + Z.of_nat i) <$> seq 0 (length l)) ⊆ dom m).
  { intros x (i & -> & Hi%elem_of_seq)%elem_of_list_to_set%list_elem_of_fmap.
    destruct (lookup_lt_is_Some_2 l i) as [b Hb]; [lia|]. apply elem_of_dom. by rewrite (H _ _ Hb). }
  apply subseteq_size in Hsub. rewrite size_dom, size_list_to_set in Hsub.
  - by rewrite length_fmap, length_seq in Hsub.
  - apply NoDup_fmap_2; [intros ???; lia|apply NoDup_seq].
Qed.

(** ** Loads, stores, copies *)

Lemma wp_load8 a b m (Q : Z -> mem -> Prop) : m !! a = Some b -> Q b m -> wp (load8 a) Q m.
Proof. intros. unfold load8. wp_run; done. Qed.
Lemma wp_loadc a b m (Q : Z -> mem -> Prop) : m !! a = Some b -> Q (i8 b) m -> wp (loadc a) Q m.
Proof. intros. unfold loadc. wp_step. eapply wp_load8; [done|]. by wp_step. Qed.
Lemma wp_store8 a v m (Q : unit -> mem -> Prop) :
  is_Some (m !! a) -> Q tt (<[a := u8 v]> m) -> wp (store8 a v) Q m.
Proof. intros [b ?] ?. unfold store8. wp_step. eapply wp_load8; [done|]. by wp_step. Qed.

Definition byte (b : Z) : Prop := 0 <= b < 256.

Lemma u8_byte b : byte b -> u8 b = b.
Proof. intros. by apply wrapu_small. Qed.
Lemma i8_zero b : byte b -> i8 b = 0 <-> b = 0.
Proof.
  intros Hb. unfold byte in Hb. unfold wraps. change (2 ^ (8 - 1)) with 128. change (2 ^ 8) with 256.
  split; [|by intros ->]. intros. pose proof (Z.div_mod (b + 128) 256).
  pose proof (Z.mod_pos_bound (b + 128) 256). lia.
Qed.
Lemma i8_nonzero b : 0 < b < 256 -> i8 b <> 0.
Proof. intros Hb E. apply (i8_zero b) in E; unfold byte in *; lia. Qed.
Lemma i8_inj a b : byte a -> byte b -> i8 a = i8 b -> a = b.
Proof.
  unfold byte, wraps. change (2 ^ (8 - 1)) with 128. change (2 ^ 8) with 256. intros.
  pose proof (Z.div_mod (a + 128) 256). pose proof (Z.mod_pos_bound (a + 128) 256).
  pose proof (Z.div_mod (b + 128) 256). pose proof (Z.mod_pos_bound (b + 128) 256). lia.
Qed.
Lemma u8_i8 b : byte b -> u8 (i8 b) = b.
Proof.
  unfold byte, wraps, wrapu. change (2 ^ (8 - 1)) with 128. change (2 ^ 8) with 256. intros.
  pose proof (Z.div_mod (b + 128) 256). pose proof (Z.mod_pos_bound (b + 128) 256).
  assert ((b + 128) / 256 = 0 \/ (b + 128) / 256 = 1) as [E|E] by lia.
  - rewrite E in *. rewrite Z.mod_small; lia.
  - rewrite E in *. symmetry. apply (Z.mod_unique _ _ (-1)); lia.
Qed.

Lemma mapped_insert m a n x v : mapped m a n -> mapped (<[x := v]> m) a n.
Proof. intros H i Hi. rewrite lookup_insert. case_decide; [done|by apply H]. Qed.

Lemma bytes_at_insert_out m a l x v :
  bytes_at m a l -> x < a \/ a + Z.of_nat (length l) <= x -> bytes_at (<[x := v]> m) a l.
Proof.
  intros H Hx i b Hi. pose proof (lookup_lt_Some _ _ _ Hi).
  rewrite lookup_insert_ne by lia. by apply H.
Qed.

Lemma write_bytes_snoc a l b m :
  write_bytes a (l ++ [b]) m = write_bytes a l (<[a + Z.of_nat (length l) := b]> m).
Proof.
  revert a m. induction l as [|c l IH]; intros a m; simpl; [by rewrite Z.add_0_r|].
  rewrite IH. f_equal. rewrite insert_insert_ne by lia. do 2 f_equal. lia.
Qed.

Lemma wp_copy_up l : forall d s m (Q : unit -> mem -> Prop),
  bytes_at m s l -> Forall byte l -> mapped m d (Z.of_nat (length l)) ->
  d <= s \/ s + Z.of_nat (length l) <= d ->
  Q tt (write_bytes d l m) -> wp (copy_up (length l) d s) Q m.
Proof.
  induction l as [|b l IH]; intros d s m Q Hs HF Hm Hd HQ; simpl in *; [by wp_step|].
  apply bytes_at_cons in Hs as [Hb Hs]. apply Forall_cons in HF as [? HF].
  wp_step. eapply wp_load8; [done|]. wp_step. apply wp_store8; [apply Hm; lia|].
  rewrite u8_byte by done. apply IH; [|done| |lia|done].
  - apply bytes_at_insert_out; [done|lia].
  - apply mapped_insert. intros i ?. apply Hm. lia.
Qed.

Lemma wp_copy_down l : forall d s m (Q : unit -> mem -> Prop),
  bytes_at m s l -> Forall byte l -> mapped m d (Z.of_nat (length l)) -> s <= d ->
  Q tt (write_bytes d l m) ->
  wp (copy_down (length l) (d + Z.of_nat (length l)) (s + Z.of_nat (length l))) Q m.
Proof.
  induction l as [|b l IH] using rev_ind; intros d s m Q Hs HF Hm Hd HQ; [by apply wp_ret|].
  rewrite length_app in *. simpl in *. rewrite Nat.add_1_r in *. cbn [copy_down].
  apply bytes_at_app in Hs as [Hs [Hb _]%bytes_at_cons].
  apply Forall_app in HF as [HF [? _]%Forall_cons].
  wp_step. eapply wp_load8; [by replace (s + Z.of_nat (S (length l)) - 1)
    with (s + Z.of_nat (length l)) by lia|].
  replace (d + Z.of_nat (S (length l)) - 1) with (d + Z.of_nat (length l)) by lia.
  replace (s + Z.of_nat (S (length l)) - 1) with (s + Z.of_nat (length l)) by lia.
  wp_step. apply wp_store8; [apply Hm; lia|]. rewrite u8_byte by done.
  apply IH; [|done| |done|by rewrite <- write_bytes_snoc].
  - apply bytes_at_insert_out; [done|lia].
  - apply mapped_insert. intros i ?. apply Hm. lia.
Qed.

(** ** Scanning *)

Lemma cstr_split m a l1 l2 :
  cstr m a (l1 ++ l2) -> cstr m (a + Z.of_nat (length l1)) l2.
Proof.
  intros [H HF]. rewrite <- app_assoc in H. apply bytes_at_app in H as [_ H].
  apply Forall_app in HF as [_ HF]. done.
Qed.

Lemma cstr_head m a l : cstr m a l -> m !! a = Some (hd 0 l) /\ byte (hd 0 l) /\ (hd 0 l = 0 <-> l = []).
Proof.
  intros [H HF]. unfold byte. destruct l as [|b l]; simpl in *; apply bytes_at_cons in H as [H _].
  - split; [done|]. split; [lia|done].
  - apply Forall_cons in HF as [? _]. split; [done|]. split; [lia|]. split; [lia|by intros [=]].
Qed.

Lemma cstr_fuel m a l : cstr m a l -> (S (length l) < mem_fuel m)%nat.
Proof. intros [H _]. apply bytes_at_fuel in H. rewrite length_app in H. simpl in H. unfold mem_fuel. lia. Qed.

Lemma wp_strlen m a l (Q : Z -> mem -> Prop) :
  cstr m a l -> Q (Z.of_nat (length l)) m -> wp (strlen a) Q m.
Proof.
  intros Hc HQ. unfold strlen. wp_step. wp_step.
  apply (wp_loop_ghost _ _ (fun k '(s, len) m' => m' = m /\ exists l1 l2, l = l1 ++ l2 /\
            s = a + Z.of_nat (length l1) /\ len = Z.of_nat (length l1) /\ k = length l2) _ (length l)).
  - intros k [s len] m' (-> & l1 & l2 & -> & -> & -> & ->).
    pose proof (cstr_split _ _ _ _ Hc) as Hc2. destruct (cstr_head _ _ _ Hc2) as (Hh & Hb & Hz).
    wp_step. eapply wp_loadc; [done|]. destruct l2 as [|b l2]; simpl in *.
    + change (i8 0) with 0. simpl. wp_step. by rewrite app_nil_r in HQ.
    + destruct (Z.eqb_spec (i8 b) 0) as [E|E]; simpl.
      * apply (i8_zero b Hb) in E. apply Hz in E. done.
      * wp_step. exists (length l2). split; [lia|]. split; [done|]. exists (l1 ++ [b]), l2.
        rewrite <- app_assoc, length_app. simpl. split; [done|]. lia.
  - split; [done|]. exists [], l. simpl. rewrite Z.add_0_r. done.
  - pose proof (cstr_fuel _ _ _ Hc). lia.
Qed.

(** The C comparison of two strings, on their characters. *)
Fixpoint cmp_chars (l1 l2 : list Z) : Z :=
  match l1, l2 with
  | a :: l1', b :: l2' => if a =? b then cmp_chars l1' l2' else i8 a - i8 b
  | _, _ => i8 (hd 0 l1) - i8 (hd 0 l2)
  end.

Lemma cmp_chars_eq l1 l2 :
  Forall (fun b => 0 < b < 256) l1 -> Forall (fun b => 0 < b < 256) l2 ->
  cmp_chars l1 l2 = 0 <-> l1 = l2.
Proof.
  intros H1. revert l2. induction H1 as [|a l1 Ha H1 IH]; intros l2 H2.
  - destruct H2 as [|b l2 Hb H2]; simpl; [done|]. split; [|done]. intros E.
    change (i8 0) with 0 in E. pose proof (i8_nonzero b Hb). lia.
  - destruct H2 as [|b l2 Hb H2]; simpl.
    + split; [|done]. change (i8 0) with 0. intros E. pose proof (i8_nonzero a Ha). lia.
    + destruct (Z.eqb_spec a b) as [->|Hne].
      * rewrite IH by done. split; [by intros ->|by intros [= ->]].
      * split; [|by intros [= -> ->]]. intros E. exfalso. apply Hne, i8_inj; unfold byte; lia.
Qed.

Lemma cmp_chars_skip a l1 l2 : cmp_chars (a :: l1) (a :: l2) = cmp_chars l1 l2.
Proof. simpl. by rewrite Z.eqb_refl. Qed.

(** One step of the comparison loop. *)
Lemma cmp_chars_stop l1 l2 :
  l1 = [] \/ hd 0 l1 <> hd 0 l2 -> cmp_chars l1 l2 = i8 (hd 0 l1) - i8 (hd 0 l2).
Proof.
  destruct l1 as [|a l1], l2 as [|b l2]; simpl; try done.
  intros [?|?]; [done|]. by destruct (Z.eqb_spec a b).
Qed.

Lemma wp_strcmp m a1 l1 a2 l2 (Q : Z -> mem -> Prop) :
  cstr m a1 l1 -> cstr m a2 l2 -> Q (cmp_chars l1 l2) m -> wp (strcmp a1 a2) Q m.
Proof.
  intros H1 H2 HQ. unfold strcmp. wp_step. wp_step.
  apply (wp_loop_ghost _ _ (fun k '(s1, s2) m' => m' = m /\ exists r1 r2, cstr m s1 r1 /\ cstr m s2 r2 /\
            cmp_chars r1 r2 = cmp_chars l1 l2 /\ k = length r1) _ (length l1)).
  - intros k [s1 s2] m' (-> & r1 & r2 & C1 & C2 & E & ->).
    destruct (cstr_head _ _ _ C1) as (Hh1 & Hb1 & Hz1). destruct (cstr_head _ _ _ C2) as (Hh2 & Hb2 & Hz2).
    wp_step. eapply wp_loadc; [done|]. destruct (Z.eqb_spec (i8 (hd 0 r1)) 0) as [Ez|Ez]; simpl.
    + wp_step. eapply wp_loadc; [done|]. wp_step. rewrite <- cmp_chars_stop; [by rewrite E|].
      left. by apply Hz1, i8_zero.
    + wp_step. eapply wp_loadc; [done|]. destruct (Z.eqb_spec (i8 (hd 0 r1)) (i8 (hd 0 r2))) as [Eq|Ne].
      * apply i8_inj in Eq; [|done..]. destruct r1 as [|b r1]; [by destruct Ez; apply i8_zero|].
        destruct r2 as [|b' r2]; simpl in Eq; [exfalso; apply Hz1 in Eq; done|]. subst b'.
        wp_step. exists (length r1). split; [simpl; lia|]. split; [done|]. exists r1, r2.
        split; [apply (cstr_split m s1 [b] r1 C1)|]. split; [apply (cstr_split m s2 [b] r2 C2)|].
        by rewrite <- E, cmp_chars_skip.
      * wp_step. rewrite <- cmp_chars_stop; [by rewrite E|]. right. congruence.
  - split; [done|]. by exists l1, l2.
  - pose proof (cstr_fuel _ _ _ H1). lia.
Qed.

(** The result of [strchr]: the address of the first occurrence of [b] in the
    string, its terminator included. *)
Definition chr_result (a : Z) (l : list Z) (b p : Z) : Prop :=
  ((b ∉ l ++ [0]) /\ p = NULL) \/
  exists i, p = a + Z.of_nat i /\ (l ++ [0]) !! i = Some b /\ b ∉ take i (l ++ [0]).

Lemma i8_idem b : byte b -> i8 (i8 b) = i8 b.
Proof. intros. apply wraps_small; [lia|]. apply (wraps_bound 8). lia. Qed.

Lemma wp_strchr m a l b (Q : Z -> mem -> Prop) :
  cstr m a l -> a <> NULL -> byte b -> (forall p, chr_result a l b p -> Q p m) ->
  wp (strchr a (i8 b)) Q m.
Proof.
  intros Hc Ha Hb HQ. unfold strchr. rewrite i8_idem by done.
  destruct (Z.eqb_spec a NULL); [done|]. cbv zeta. wp_step. wp_step.
  apply (wp_loop_ghost _ _ (fun k s m' => m' = m /\ exists l1 l2, l = l1 ++ l2 /\
            s = a + Z.of_nat (length l1) /\ (b ∉ l1) /\ k = length l2) _ (length l)).
  - intros k s m' (-> & l1 & l2 & -> & -> & Hnot & ->).
    pose proof (cstr_split _ _ _ _ Hc) as Hc2. destruct (cstr_head _ _ _ Hc2) as (Hh & Hbh & Hz).
    wp_step. eapply wp_loadc; [done|].
    destruct (Z.eqb_spec (i8 (hd 0 l2)) (i8 b)) as [E|E].
    + apply i8_inj in E; [|done..]. wp_step. apply HQ. right. exists (length l1). split; [done|].
      rewrite <- app_assoc, take_app_length. split; [|done].
      rewrite lookup_app_r, Nat.sub_diag by lia. destruct l2; simpl in *; by rewrite E.
    + destruct (Z.eqb_spec (i8 (hd 0 l2)) 0) as [E0|E0].
      * rewrite i8_zero in E0 by done. rewrite E0 in E. apply Hz in E0 as ->.
        wp_step. apply HQ. left. rewrite app_nil_r. split; [|done].
        rewrite elem_of_app, list_elem_of_singleton. intros [?| ->]; done.
      * destruct l2 as [|c l2]; [done|]. wp_step. exists (length l2). simpl. split; [lia|]. split; [done|].
        exists (l1 ++ [c]), l2. rewrite <- app_assoc, length_app. simpl. split; [done|]. split; [lia|].
        split; [|done]. rewrite elem_of_app, list_elem_of_singleton. intros [?| ->]; done.
  - split; [done|]. exists [], l. simpl. rewrite Z.add_0_r. do 2 (split; [done|]).
    split; [apply not_elem_of_nil|done].
  - pose proof (cstr_fuel _ _ _ Hc). lia.
Qed.

(** For the tokeniser only whether the character occurs matters. *)
Lemma wp_strchr_mem m a l b (Q : Z -> mem -> Prop) :
  cstr m a l -> 0 < a -> byte b ->
  (forall p, (p =? NULL) = bool_decide (b ∉ l ++ [0]) -> Q p m) -> wp (strchr a (i8 b)) Q m.
Proof.
  intros Hc Ha Hb HQ. eapply wp_strchr; [done|unfold NULL; lia|done|].
  intros p [[Hn ->]|(i & -> & Hi & _)]; apply HQ.
  - by rewrite bool_decide_eq_true_2.
  - apply list_elem_of_lookup_2 in Hi. rewrite bool_decide_eq_false_2 by (by intros ?).
    apply Z.eqb_neq. unfold NULL. lia.
Qed.

(** ** strncpy *)

Lemma wp_strncpy_copy k : forall d s l m (Q : Z * nat -> mem -> Prop),
  cstr m s l -> mapped m d (Z.of_nat k) -> d + Z.of_nat k <= s \/ s + Z.of_nat (length l) < d ->
  (if (length l <? k)%nat
   then Q (d + Z.of_nat (length l) + 1, (k - length l)%nat) (write_bytes d (l ++ [0]) m)
   else Q (d + Z.of_nat k, 0%nat) (write_bytes d (take k l) m)) ->
  wp (strncpy_copy k d s) Q m.
Proof.
  induction k as [|k IH]; intros d s l m Q Hc Hm Hd HQ; simpl.
  - destruct (Nat.ltb_spec (length l) 0); [lia|]. rewrite Z.add_0_r in HQ. by wp_step.
  - destruct (cstr_head _ _ _ Hc) as (Hh & Hb & Hz).
    wp_step. eapply wp_loadc; [done|]. wp_step. apply wp_store8; [apply Hm; lia|].
    rewrite u8_i8 by done. destruct l as [|b l]; simpl in Hh, Hb |- *.
    + change (i8 0) with 0. simpl. wp_step. simpl in HQ. by rewrite Z.add_0_r in HQ.
    + destruct (Z.eqb_spec (i8 b) 0) as [E|E]; simpl; [apply (i8_zero b Hb) in E; by apply Hz in E|].
      destruct Hc as [Hbs HF]. simpl in Hbs. apply bytes_at_cons in Hbs as [_ Hbs].
      apply Forall_cons in HF as [_ HF]. simpl in Hd. apply (IH _ _ l).
      * split; [|done]. apply bytes_at_insert_out; [done|]. rewrite length_app. simpl. lia.
      * apply mapped_insert. intros i ?. apply Hm. lia.
      * lia.
      * simpl in HQ. destruct (Nat.ltb_spec (S (length l)) (S k)), (Nat.ltb_spec (length l) k); try lia.
        -- by replace (d + 1 + Z.of_nat (length l) + 1) with (d + Z.of_nat (S (length l)) + 1) by lia.
        -- by replace (d + 1 + Z.of_nat k) with (d + Z.of_nat (S k)) by lia.
Qed.

Lemma wp_zero_fill k : forall d m (Q : unit -> mem -> Prop),
  mapped m d (Z.of_nat k) -> Q tt (write_bytes d (replicate k 0) m) -> wp (zero_fill k d) Q m.
Proof.
  induction k as [|k IH]; intros d m Q Hm HQ; simpl; [by wp_step|].
  wp_step. apply wp_store8; [apply Hm; lia|]. apply IH; [|done].
  apply mapped_insert. intros i ?. apply Hm. lia.
Qed.

Lemma write_bytes_app a l1 l2 m :
  write_bytes a (l1 ++ l2) m = write_bytes (a + Z.of_nat (length l1)) l2 (write_bytes a l1 m).
Proof.
  revert a m. induction l1 as [|b l1 IH]; intros a m; simpl; [by rewrite Z.add_0_r|].
  rewrite IH. f_equal. lia.
Qed.

Lemma mapped_write m a n d l : mapped m a n -> mapped (write_bytes d l m) a n.
Proof.
  revert d m. induction l as [|b l IH]; intros d m H; simpl; [done|]. by apply IH, mapped_insert.
Qed.

(** The bytes [strncpy] writes. *)
Definition strncpy_bytes (l : list Z) (n : Z) : list Z :=
  if Z.of_nat (length l) <? n then l ++ replicate (S (Z.to_nat n - length l)) 0
  else take (Z.to_nat n) l.

Lemma wp_strncpy m dest src l n (Q : Z -> mem -> Prop) :
  cstr m src l -> 0 <= n -> mapped m dest (n + 1) ->
  dest + n + 1 <= src \/ src + Z.of_nat (length l) < dest ->
  Q dest (write_bytes dest (strncpy_bytes l n) m) -> wp (strncpy dest src n) Q m.
Proof.
  intros Hc Hn Hm Hd HQ. unfold strncpy. wp_step. apply (wp_strncpy_copy _ _ _ l); [done| |lia|].
  { intros i ?. apply Hm. lia. }
  unfold strncpy_bytes in HQ.
  destruct (Nat.ltb_spec (length l) (Z.to_nat n)), (Z.ltb_spec (Z.of_nat (length l)) n); try lia.
  - wp_step. simpl. apply wp_zero_fill.
    + apply mapped_write. intros i ?. apply Hm. lia.
    + wp_step. rewrite replicate_S in HQ.
      replace (l ++ 0 :: replicate (Z.to_nat n - length l) 0)
        with ((l ++ [0]) ++ replicate (Z.to_nat n - length l) 0) in HQ by (by rewrite <- app_assoc).
      rewrite write_bytes_app, length_app in HQ. simpl in HQ.
      by replace (dest + Z.of_nat (length l) + 1) with (dest + Z.of_nat (length l + 1)) by lia.
  - wp_step. simpl. by wp_run.
Qed.

(** ** strtok_r *)

(** The longest prefix whose elements satisfy [p], and the rest. *)
Fixpoint span (p : Z -> bool) (l : list Z) : list Z * list Z :=
  match l with
  | [] => ([], [])
  | x :: l' => if p x then let r := span p l' in (x :: fst r, snd r) else ([], l)
  end.

Lemma span_app p l : fst (span p l) ++ snd (span p l) = l.
Proof. induction l as [|x l IH]; simpl; [done|]. destruct (p x); simpl; [by rewrite IH|done]. Qed.

Lemma span_skip p l1 l2 : Forall (fun x => p x = true) l1 ->
  span p (l1 ++ l2) = (l1 ++ fst (span p l2), snd (span p l2)).
Proof.
  induction 1 as [|x l1 Hx _ IH]; simpl; [by destruct (span p l2)|].
  rewrite Hx, IH. done.
Qed.

Definition delim (ds : list Z) (b : Z) : bool := bool_decide (b ∈ ds).

Section tok.
Context (m : mem) (ds : list Z) (da : Z) (Hd : cstr m da ds) (Hda : 0 < da).

(** Scan from [s] as long as [p] holds; [p] says what [strchr] reports on
    the characters of the string. *)
Lemma wp_skip_delims s l fuel (Q : Z + Z -> mem -> Prop) :
  cstr m s l -> (length l < fuel)%nat ->
  Q (match snd (span (delim ds) l) with
     | [] => inl (s + Z.of_nat (length l))
     | _ => inr (s + Z.of_nat (length (fst (span (delim ds) l))))
     end) m ->
  wp (loop fuel (fun s =>
    c <- loadc s;;
    p <- strchr da c;;
    if negb (p =? NULL) then
      if c =? 0 then ret (inr (inl s)) else ret (inl (s + 1))
    else ret (inr (inr s))) s) Q m.
Proof using Hd Hda.
  intros Hs Hf HQ.
  apply (wp_loop_ghost _ _ (fun k a m' => m' = m /\ exists l1 l2, l = l1 ++ l2 /\
            Forall (fun x => delim ds x = true) l1 /\
            a = s + Z.of_nat (length l1) /\ k = length l2) _ (length l)); [|by split; [|exists [], l; simpl; rewrite Z.add_0_r]|done].
  intros k a m' (-> & l1 & l2 & -> & HF & -> & ->).
  rewrite span_skip in HQ by done. cbn [fst snd] in HQ. rewrite !length_app in HQ.
  pose proof (cstr_split _ _ _ _ Hs) as Hs2. destruct (cstr_head _ _ _ Hs2) as (Hh & Hb & Hz).
  wp_step. eapply wp_loadc; [done|]. wp_step. eapply wp_strchr_mem; [done..|]. intros p ->.
  destruct l2 as [|c l2]; simpl in *.
  - rewrite bool_decide_eq_false_2 by (intros H; apply H; set_solver). simpl. wp_step.
    by rewrite Nat.add_0_r in HQ.
  - pose proof (Forall_inv (proj2 Hs2)) as Hc. simpl in Hc. destruct (decide (c ∈ ds)) as [Hin|Hin].
    + rewrite bool_decide_eq_false_2 by (intros H; apply H; set_solver). simpl.
      destruct (Z.eqb_spec (i8 c) 0) as [E|E]; [by apply i8_nonzero in E|]. wp_step.
      exists (length l2). split; [lia|]. split; [done|]. exists (l1 ++ [c]), l2.
      rewrite <- app_assoc, length_app. simpl. split; [done|].
      split; [|lia]. apply Forall_app. split; [done|]. constructor; [by apply bool_decide_eq_true_2|done].
    + rewrite bool_decide_eq_true_2 by (rewrite elem_of_app, list_elem_of_singleton; intros [?|?]; [done|lia]). simpl. wp_step.
      unfold delim in HQ. rewrite bool_decide_eq_false_2 in HQ by done. simpl in HQ.
      by rewrite Nat.add_0_r in HQ.
Qed.

Lemma wp_skip_token s l fuel (Q : Z -> mem -> Prop) :
  cstr m s l -> (length l < fuel)%nat ->
  Q (s + Z.of_nat (length (fst (span (fun b => negb (delim ds b)) l)))) m ->
  wp (loop fuel (fun s =>
    c <- loadc s;;
    p <- strchr da c;;
    if p =? NULL then ret (inl (s + 1)) else ret (inr s)) s) Q m.
Proof using Hd Hda.
  intros Hs Hf HQ.
  apply (wp_loop_ghost _ _ (fun k a m' => m' = m /\ exists l1 l2, l = l1 ++ l2 /\
            Forall (fun x => negb (delim ds x) = true) l1 /\
            a = s + Z.of_nat (length l1) /\ k = length l2) _ (length l)); [|by split; [|exists [], l; simpl; rewrite Z.add_0_r]|done].
  intros k a m' (-> & l1 & l2 & -> & HF & -> & ->).
  rewrite span_skip in HQ by done. cbn [fst snd] in HQ. rewrite !length_app in HQ.
  pose proof (cstr_split _ _ _ _ Hs) as Hs2. destruct (cstr_head _ _ _ Hs2) as (Hh & Hb & Hz).
  wp_step. eapply wp_loadc; [done|]. wp_step. eapply wp_strchr_mem; [done..|]. intros p ->.
  destruct l2 as [|c l2]; simpl in *.
  - rewrite bool_decide_eq_false_2 by (intros H; apply H; set_solver). wp_step.
    by rewrite Nat.add_0_r in HQ.
  - pose proof (Forall_inv (proj2 Hs2)) as Hc. simpl in Hc. unfold delim in HQ at 1.
    destruct (decide (c ∈ ds)) as [Hin|Hin].
    + rewrite bool_decide_eq_false_2 by (intros H; apply H; set_solver). wp_step.
      rewrite bool_decide_eq_true_2 in HQ by done. simpl in HQ. by rewrite Nat.add_0_r in HQ.
    + rewrite bool_decide_eq_true_2 by (rewrite elem_of_app, list_elem_of_singleton; intros [?|?]; [done|lia]). wp_step.
      exists (length l2). split; [lia|]. split; [done|]. exists (l1 ++ [c]), l2.
      rewrite <- app_assoc, length_app. simpl. split; [done|].
      split; [|lia]. apply Forall_app. split; [done|].
      constructor; [unfold delim; by rewrite bool_decide_eq_false_2|done].
Qed.
End tok.

(** One call on the string [l] at [s]. *)
Definition strtok_post (m : mem) (ds : list Z) (s : Z) (l : list Z) (r : Z * Z) (m' : mem) : Prop :=
  let sp := span (delim ds) l in
  let sp2 := span (fun b => negb (delim ds b)) (snd sp) in
  let t := s + Z.of_nat (length (fst sp)) in
  let e := t + Z.of_nat (length (fst sp2)) in
  match snd sp with
  | [] => r = (NULL, s + Z.of_nat (length l)) /\ m' = m
  | _ => match snd sp2 with
         | [] => r = (t, e) /\ m' = m
         | _ => r = (t, e + 1) /\ m' = <[e := 0]> m
         end
  end.

Lemma wp_strtok m ds da s s0 l :
  cstr m da ds -> 0 < da -> cstr m s l -> (s0 = s \/ s0 = NULL) -> s <> NULL ->
  wp (strtok_r s0 da s) (strtok_post m ds s l) m.
Proof.
  intros Hd Hda Hs Hs0 Hnz. unfold strtok_r.
  destruct (Z.eqb_spec da NULL); [unfold NULL in *; lia|].
  assert ((if s0 =? NULL then s else s0) = s) as ->.
  { destruct Hs0 as [->| ->]; [by destruct (s =? NULL)|done]. }
  cbv zeta. wp_step. wp_step. wp_step. pose proof (cstr_fuel _ _ _ Hs).
  apply (wp_skip_delims m ds da Hd Hda _ l); [done|lia|]. unfold strtok_post. cbv zeta.
  pose proof (span_app (delim ds) l) as Hsp.
  destruct (span (delim ds) l) as [pre rest]. cbn [fst snd] in *.
  destruct rest as [|c rest]; [by wp_step|]. set (w := c :: rest) in *.
  rewrite <- Hsp in Hs. pose proof (cstr_split _ _ _ _ Hs) as Hs2.
  assert (length l = length pre + length w)%nat by (rewrite <- Hsp; apply length_app).
  wp_step. apply (wp_skip_token m ds da Hd Hda _ w); [done|lia|].
  pose proof (span_app (fun b => negb (delim ds b)) w) as Hsp2.
  destruct (span (fun b => negb (delim ds b)) w) as [tok rest2]. cbn [fst snd] in *.
  rewrite <- Hsp2 in Hs2. pose proof (cstr_split _ _ _ _ Hs2) as Hs3.
  destruct (cstr_head _ _ _ Hs3) as (Hh & Hb & Hz).
  wp_step. eapply wp_loadc; [done|]. destruct rest2 as [|b rest2]; simpl in *.
  - change (i8 0) with 0. simpl. by wp_step.
  - destruct (Z.eqb_spec (i8 b) 0) as [E|E].
    { apply (i8_zero b Hb) in E. by apply Hz in E. }
    simpl. wp_step. apply wp_store8; [by rewrite Hh|]. wp_step. done.
Qed.

(** The words of [l] between delimiters, empty ones left out; [acc] is the
    current word, reversed. *)
Fixpoint words (ds acc l : list Z) : list (list Z) :=
  let flush := match acc with [] => [] | _ => [rev acc] end in
  match l with
  | [] => flush
  | c :: l' => if delim ds c then flush ++ words ds [] l' else words ds (c :: acc) l'
  end.

Lemma words_skip ds l : words ds [] l = words ds [] (snd (span (delim ds) l)).
Proof.
  induction l as [|c l IH]; simpl; [done|]. destruct (delim ds c) eqn:E; simpl; [done|].
  by rewrite E.
Qed.

Lemma words_take ds acc l :
  words ds acc l =
  let sp := span (fun b => negb (delim ds b)) l in
  match rev acc ++ fst sp with [] => [] | w => [w] end ++
  match snd sp with [] => [] | _ :: l' => words ds [] l' end.
Proof.
  revert acc. induction l as [|c l IH]; intros acc; simpl.
  - rewrite app_nil_r. destruct acc as [|a acc]; [done|]. simpl.
    destruct (rev acc ++ [a]) eqn:E; [by destruct (rev acc)|by rewrite app_nil_r].
  - destruct (delim ds c) eqn:E; simpl.
    + rewrite app_nil_r. destruct acc as [|a acc]; [done|]. simpl.
      by destruct (rev acc ++ [a]) eqn:E'; [by destruct (rev acc)|].
    + rewrite IH. simpl. by rewrite <- app_assoc.
Qed.

(** All tokens of the string at [s]: the way a caller drives [strtok_r]. *)
Fixpoint tokenize (fuel : nat) (da s : Z) : M mem (list Z) :=
  match fuel with
  | O => stop Diverge
  | S fuel' =>
      r <- strtok_r NULL da s;;
      if fst r =? NULL then ret []
      else ts <- tokenize fuel' da (snd r);; ret (fst r :: ts)
  end.

Definition agree_outside (lo hi : Z) (m m' : mem) : Prop :=
  forall x, x < lo \/ hi <= x -> m' !! x = m !! x.

Lemma cstr_agree m m' a l :
  (forall x, a <= x <= a + Z.of_nat (length l) -> m' !! x = m !! x) -> cstr m a l -> cstr m' a l.
Proof.
  intros Ha [H HF]. split; [|done]. intros i b Hi. pose proof (lookup_lt_Some _ _ _ Hi) as Hl.
  rewrite length_app in Hl. simpl in Hl. rewrite Ha by lia. by apply H.
Qed.

Lemma span_nonempty p c l : p c = true -> fst (span p (c :: l)) <> [].
Proof. intros H. simpl. by rewrite H. Qed.

Lemma span_head p l c r : snd (span p l) = c :: r -> p c = false.
Proof.
  induction l as [|x l IH]; simpl; [done|]. destruct (p x) eqn:E; simpl; [done|]. congruence.
Qed.

(** Cutting the string after its first token. *)
Lemma cstr_cut m t tok c rest :
  cstr m t (tok ++ c :: rest) ->
  cstr (<[t + Z.of_nat (length tok) := 0]> m) t tok /\
  cstr (<[t + Z.of_nat (length tok) := 0]> m) (t + Z.of_nat (length tok) + 1) rest.
Proof.
  intros [H HF]. rewrite <- app_assoc in H. apply bytes_at_app in H as [H1 H2].
  apply Forall_app in HF as [HF1 [_ HF2]%Forall_cons]. simpl in H2. apply bytes_at_cons in H2 as [H3 H4].
  split; (split; [|done]).
  - apply bytes_at_app. split; [by apply bytes_at_insert_out; [|lia]|].
    apply bytes_at_cons. split; [by rewrite lookup_insert_eq|apply bytes_at_nil].
  - apply bytes_at_insert_out; [done|]. lia.
Qed.

Lemma wp_tokenize fuel : forall m ds da s l,
  cstr m da ds -> 0 < da -> cstr m s l -> 0 < s -> (length l < fuel)%nat ->
  da + Z.of_nat (length ds) < s \/ s + Z.of_nat (length l) < da ->
  wp (tokenize fuel da s) (fun ts m' => Forall2 (cstr m') ts (words ds [] l) /\
     agree_outside s (s + Z.of_nat (length l)) m m') m.
Proof.
  induction fuel as [|fuel IH]; intros m ds da s l Hd Hda Hs Hs0 Hf Hdis; [lia|]. simpl.
  wp_step. eapply wp_mono; [apply (wp_strtok m ds da s NULL l); [done..|by right|unfold NULL; lia]|].
  intros r m1 Hp. unfold strtok_post in Hp. cbv zeta in Hp.
  rewrite words_skip. pose proof (span_app (delim ds) l) as Hsp.
  pose proof (span_head (delim ds) l) as Hhd.
  destruct (span (delim ds) l) as [pre rest]. cbn [fst snd] in *.
  destruct rest as [|c rest].
  { destruct Hp as [-> ->]. simpl. wp_step. split; [constructor|done]. }
  specialize (Hhd c rest eq_refl).
  set (nd := fun b => negb (delim ds b)) in *.
  assert (Hne : fst (span nd (c :: rest)) <> []) by (apply span_nonempty; unfold nd; by rewrite Hhd).
  rewrite words_take. fold nd. cbv zeta. pose proof (span_app nd (c :: rest)) as Hsp2.
  set (w := c :: rest) in *. destruct (span nd w) as [tok rest2]. cbn [fst snd] in *.
  rewrite <- Hsp in Hs. pose proof (cstr_split _ _ _ _ Hs) as Hs2. rewrite <- Hsp2 in Hs2.
  assert (Hlen : (length l = length pre + length tok + length rest2)%nat)
    by (rewrite <- Hsp, <- Hsp2, !length_app; lia).
  set (t := s + Z.of_nat (length pre)) in *.
  change (rev []) with (@nil Z). rewrite app_nil_l.
  assert (Htok : match tok with [] => [] | z :: l0 => [z :: l0] end = [tok]) by (by destruct tok).
  assert (Hwl : (0 < length tok)%nat) by (destruct tok; [done|simpl; lia]).
  assert (Ht0 : (t =? NULL) = false) by (apply Z.eqb_neq; unfold t, NULL; lia).
  rewrite Htok. destruct rest2 as [|d rest2]; destruct Hp as [-> ->]; cbn [fst snd]; rewrite Ht0; wp_step.
  - rewrite app_nil_r in Hs2. simpl in Hlen.
    eapply wp_mono; [apply (IH m ds da _ []); [done|done| |unfold t; lia|simpl; lia|unfold t; simpl; lia]|].
    { apply (cstr_split m t tok []). by rewrite app_nil_r. }
    intros ts m' [HF Ha]. simpl in HF, Ha. wp_step. apply Forall2_nil_inv_r in HF as ->. split.
    + constructor; [|constructor]. eapply cstr_agree; [|done]. intros x ?. apply Ha. lia.
    + intros x ?. apply Ha. lia.
  - destruct (cstr_cut _ _ _ _ _ Hs2) as [Ct Cr]. simpl in Hlen.
    eapply wp_mono; [apply (IH _ ds da _ rest2); [|done|done|unfold t; lia|lia|unfold t; lia]|].
    { eapply cstr_agree; [|done]. intros x ?. apply lookup_insert_ne. unfold t. lia. }
    intros ts m' [HF Ha]. wp_step. split.
    + constructor; [|done]. eapply cstr_agree; [|done]. intros x ?. apply Ha. lia.
    + intros x Hx. rewrite Ha by (unfold t; lia). apply lookup_insert_ne. unfold t. lia.
Qed.

(** ** Claims *)

(** A small memory: the string "/a//bc" at 100, the delimiter "/" at 200. *)
Definition demo_mem : mem :=
  write_bytes 100 [47; 97; 47; 47; 98; 99; 0] (write_bytes 200 [47; 0] ∅).

Lemma demo_cstr : cstr demo_mem 100 [47; 97; 47; 47; 98; 99].
Proof.
  split; [|by repeat constructor].
  intros i b Hi. do 7 (destruct i as [|i]; [simpl in Hi; by simplify_eq|]). done.
Qed.
Lemma demo_delim : cstr demo_mem 200 [47].
Proof.
  split; [|by repeat constructor].
  intros i b Hi. do 2 (destruct i as [|i]; [simpl in Hi; by simplify_eq|]). done.
Qed.

(** ([memmove]): the destination receives the bytes the source held
    before the call and nothing else changes, whether or not the two ranges
    overlap and in whichever direction. *)
Theorem memmove_spec m dest src l :
  bytes_at m src l -> Forall byte l -> mapped m dest (Z.of_nat (length l)) ->
  0 <= src -> src + Z.of_nat (length l) < 2 ^ 64 ->
  wp (memmove dest src (Z.of_nat (length l))) (fun r m' => r = dest /\ m' = write_bytes dest l m) m.
Proof.
  intros Hs HF Hm H0 Hw. unfold memmove. rewrite wrapu_small, Nat2Z.id by lia. wp_step.
  destruct (Z.ltb_spec src dest), (Z.ltb_spec dest (src + Z.of_nat (length l))); simpl;
    first [apply wp_copy_down; [done..|lia|by wp_step] | apply wp_copy_up; [done..|lia|by wp_step]].
Qed.

Lemma memmove_spec_witness :
  wp (memmove 102 100 3) (fun r m' => r = 102 /\ m' = write_bytes 102 [47; 97; 47] demo_mem) demo_mem.
Proof.
  apply (memmove_spec demo_mem 102 100 [47; 97; 47]); [|by repeat constructor| |lia|simpl; lia].
  - pose proof demo_cstr as [H _]. exact (proj1 (proj1 (bytes_at_app _ _ [47; 97; 47] [47; 98; 99; 0]) H)).
  - intros i Hi. simpl in Hi. assert (i = 102 \/ i = 103 \/ i = 104) as [->|[->| ->]] by lia; by eexists.
Defined.

(** ([strcmp]): on two C strings the comparison terminates and returns 0
    exactly when they are the same string. *)
Theorem strcmp_spec m a1 l1 a2 l2 :
  cstr m a1 l1 -> cstr m a2 l2 ->
  wp (strcmp a1 a2) (fun r m' => m' = m /\ r = cmp_chars l1 l2 /\ (r = 0 <-> l1 = l2)) m.
Proof.
  intros H1 H2. eapply wp_strcmp; [done..|]. do 2 (split; [done|]).
  apply cmp_chars_eq; [apply H1|apply H2].
Qed.

Lemma strcmp_spec_witness :
  wp (strcmp 100 200) (fun r m' => m' = demo_mem /\ r = cmp_chars [47; 97; 47; 47; 98; 99] [47] /\
     (r = 0 <-> [47; 97; 47; 47; 98; 99] = [47])) demo_mem.
Proof. exact (strcmp_spec demo_mem 100 _ 200 _ demo_cstr demo_delim). Defined.

(** C40 ([strtok_r]): calling it until it returns NULL cuts the string, in
    place, into its words between delimiters, in order and without the empty
    ones; nothing outside the string is written. *)
Theorem strtok_r_words m ds da s l :
  cstr m da ds -> 0 < da -> cstr m s l -> 0 < s ->
  da + Z.of_nat (length ds) < s \/ s + Z.of_nat (length l) < da ->
  wp (tokenize (S (length l)) da s) (fun ts m' => Forall2 (cstr m') ts (words ds [] l) /\
     agree_outside s (s + Z.of_nat (length l)) m m') m.
Proof. intros. apply wp_tokenize; by try lia. Qed.

Lemma strtok_r_words_witness :
  words [47] [] [47; 97; 47; 47; 98; 99] = [[97]; [98; 99]] /\
  wp (tokenize 7 200 100) (fun ts m' => Forall2 (cstr m') ts (words [47] [] [47; 97; 47; 47; 98; 99]) /\
     agree_outside 100 106 demo_mem m') demo_mem.
Proof.
  split; [reflexivity|].
  apply (strtok_r_words demo_mem [47] 200 100 [47; 97; 47; 47; 98; 99] demo_delim ltac:(lia) demo_cstr ltac:(lia)).
  right. simpl. lia.
Defined.

(** ([strncpy]): the bytes it writes.  When the source is shorter than
    [n] it writes [n + 1] bytes, one past the buffer of [n] bytes the caller
    provides: the terminator is stored without being counted. *)
Theorem strncpy_writes_past_end m dest src l n :
  cstr m src l -> mapped m dest (n + 1) ->
  dest + n + 1 <= src \/ src + Z.of_nat (length l) < dest -> Z.of_nat (length l) < n ->
  wp (strncpy dest src n) (fun r m' => r = dest /\
     m' = write_bytes dest (l ++ replicate (Z.to_nat n + 1 - length l) 0) m /\
     m' !! (dest + n) = Some 0) m.
Proof.
  intros Hc Hm Hd Hl. eapply wp_strncpy; [done|lia|done|done|].
  unfold strncpy_bytes. destruct (Z.ltb_spec (Z.of_nat (length l)) n); [|lia].
  replace (S (Z.to_nat n - length l)) with (Z.to_nat n + 1 - length l)%nat by lia.
  do 2 (split; [done|]). rewrite lookup_write_bytes, length_app, length_replicate.
  rewrite decide_True by lia. rewrite lookup_app_r by lia. apply lookup_replicate. split; [done|lia].
Qed.

Lemma strncpy_writes_past_end_witness :
  wp (strncpy 100 200 4) (fun r m' => r = 100 /\
     m' = write_bytes 100 ([47] ++ replicate (Z.to_nat 4 + 1 - length [47]) 0) demo_mem /\
     m' !! (100 + 4) = Some 0) demo_mem.
Proof.
  apply (strncpy_writes_past_end demo_mem 100 200 [47] 4 demo_delim); [|lia|simpl; lia].
  intros i Hi. assert (i = 100 \/ i = 101 \/ i = 102 \/ i = 103 \/ i = 104) as [->|[->|[->|[->| ->]]]] by lia;
    by eexists.
Defined.
