(* ===== verification/Printf.v ===== *)
(** * Formatted output (kernel/console.c and lib/stdio.c)

    The number printers are the same in the kernel and in the user library but
    for the function that outputs a character, the parameter [putc].  A string
    is the list of its characters without the terminating zero; the variable
    arguments are a list. *)

From stdpp Require Import prelude list.
From Stdlib Require Import ZArith Lia.
From S2P Require Import Prelude.

(** digits: "0123456789ABCDEF". *)
Definition digits : list Z := [48; 49; 50; 51; 52; 53; 54; 55; 56; 57; 65; 66; 67; 68; 69; 70].
Definition PERCENT : Z := 37.

Inductive arg : Type := AInt (v : Z) | AStr (v : option (list Z)).
(** "(null)" *)
Definition null_str : list Z := [40; 110; 117; 108; 108; 41].

Section printf.
Context {St : Type} (putc : Z -> M St unit).

Fixpoint outs (l : list Z) : M St unit :=
  match l with
  | [] => ret tt
  | c :: l => putc c;; outs l
  end.

(** The do-while loop that fills [buf], of [size] characters. *)
Definition digit_step (size base : Z) (l : Z * list Z) : M St (Z * list Z + list Z) :=
  let '(num, buf) := l in
  d <- deref (digits !! Z.to_nat (num mod base));;
  if Z.of_nat (length buf) <? size then
    let buf := buf ++ [d] in
    let num := num / base in
    if negb (num =? 0) then ret (inl (num, buf)) else ret (inr buf)
  else stop BadAccess.
Definition digit_loop (size base num : Z) : M St (list Z) := loop 65 (digit_step size base) (num, []).

(** [w]: the width of the number. *)
Definition printnum_w (w size num base : Z) (sign : bool) : M St unit :=
  let neg := sign && (wraps w num <? 0) in
  let num := if neg then wrapu w (- wraps w num) else num in
  buf <- digit_loop size base num;;
  (if neg then putc 45 else ret tt);;
  (if base =? 16 then putc 48;; putc 120 else ret tt);;
  outs (rev buf).

Definition printnum : Z -> Z -> bool -> M St unit := printnum_w 32 16.
Definition printnum64 : Z -> Z -> bool -> M St unit := printnum_w 64 32.

(** va_arg *)
Definition arg_int (args : list arg) : M St (Z * list arg) :=
  match args with AInt v :: args => ret (v, args) | _ => stop BadAccess end.
Definition arg_str (args : list arg) : M St (option (list Z) * list arg) :=
  match args with AStr v :: args => ret (v, args) | _ => stop BadAccess end.

(** One conversion: the rest of the arguments. [other] handles the
    conversions the two versions treat differently. *)
Definition convert (other : Z -> list arg -> M St (list arg)) (c : Z) (args : list arg) : M St (list arg) :=
  if c =? 100 then a <- arg_int args;; printnum (u32 (fst a)) 10 true;; ret (snd a)
  else if c =? 117 then a <- arg_int args;; printnum (u32 (fst a)) 10 false;; ret (snd a)
  else if (c =? 120) || (c =? 112) then a <- arg_int args;; printnum64 (u64 (fst a)) 16 false;; ret (snd a)
  else if c =? 115 then a <- arg_str args;; outs (default null_str (fst a));; ret (snd a)
  else if c =? PERCENT then putc PERCENT;; ret args
  else other c args.

Fixpoint format_loop (other : Z -> list arg -> M St (list arg)) (fmt : list Z) (args : list arg) : M St unit :=
  match fmt with
  | [] => ret tt
  | c :: fmt =>
      if c =? PERCENT then
        match fmt with
        | [] => ret tt
        | k :: fmt => args <- convert other k args;; format_loop other fmt args
        end
      else putc c;; format_loop other fmt args
  end.
End printf.

(** ** Numbers *)

(** The digits of [n] in base [base], the lowest first. *)
Fixpoint digits_of (fuel : nat) (base n : Z) : list Z :=
  match fuel with
  | O => []
  | S fuel => nth (Z.to_nat (n mod base)) digits 0 :: if n / base =? 0 then [] else digits_of fuel base (n / base)
  end.

(** The text of a number, and the number of a text. *)
Definition num_str (w num base : Z) (sign : bool) : list Z :=
  let neg := sign && (wraps w num <? 0) in
  (if neg then [45] else []) ++ (if base =? 16 then [48; 120] else []) ++
  rev (digits_of 64 base (if neg then wrapu w (- wraps w num) else num)).

Definition digit_val (c : Z) : Z := if c <? 65 then c - 48 else c - 55.
Definition parse (base : Z) (l : list Z) : Z := fold_left (fun n c => n * base + digit_val c) l 0.

Section numbers.
Context (base : Z) (Hb : 2 <= base <= 16).

Lemma digit_spec n : exists c, digits !! Z.to_nat (n mod base) = Some c /\ nth (Z.to_nat (n mod base)) digits 0 = c /\
  digit_val c = n mod base.
Proof using Hb.
  pose proof (Z.mod_pos_bound n base ltac:(lia)) as Hd. set (d := n mod base) in *.
  assert (Hin : d ∈ seqZ 0 16) by (apply elem_of_seqZ; lia).
  assert (HF : Forall (fun d => exists c, digits !! Z.to_nat d = Some c /\ nth (Z.to_nat d) digits 0 = c /\ digit_val c = d) (seqZ 0 16)).
  { vm_compute. repeat (apply Forall_cons; split; [eexists; by repeat split|]). by apply Forall_nil. }
  rewrite Forall_forall in HF. by apply HF.
Qed.

Lemma parse_app l1 l2 : parse base (l1 ++ l2) = fold_left (fun n c => n * base + digit_val c) l2 (parse base l1).
Proof using Type. unfold parse. apply fold_left_app. Qed.

Lemma digits_parse fuel n : 0 <= n < base ^ Z.of_nat fuel -> (0 < fuel)%nat -> parse base (rev (digits_of fuel base n)) = n.
Proof using Hb.
  revert n. induction fuel as [|fuel IH]; intros n Hn Hf; [lia|]. cbn [digits_of rev]. rewrite parse_app. cbn [fold_left].
  destruct (digit_spec n) as (c & _ & -> & ->). pose proof (Z.div_mod n base ltac:(lia)).
  destruct (Z.eqb_spec (n / base) 0) as [E|E]; [unfold parse; cbn [rev fold_left]; lia|].
  rewrite IH; [lia| |].
  - split; [apply Z.div_pos; lia|]. apply Z.div_lt_upper_bound; [lia|].
    rewrite Nat2Z.inj_succ, Z.pow_succ_r in Hn by lia. lia.
  - destruct fuel; [|lia]. exfalso. apply E. rewrite Z.pow_1_r in Hn. apply Z.div_small. lia.
Qed.

(** A number below [base ^ k] has at most [k] digits. *)
Lemma digits_length fuel n k : 0 <= n < base ^ Z.of_nat k -> (0 < k)%nat -> (length (digits_of fuel base n) <= k)%nat.
Proof using Hb.
  revert n k. induction fuel as [|fuel IH]; intros n k Hn Hk; simpl; [lia|].
  destruct (Z.eqb_spec (n / base) 0) as [E|E]; [simpl; lia|]. destruct k as [|[|k]]; [lia| |].
  - exfalso. apply E. rewrite Z.pow_1_r in Hn. apply Z.div_small. lia.
  - apply le_n_S. apply IH; [|lia]. split; [apply Z.div_pos; lia|]. apply Z.div_lt_upper_bound; [lia|].
    rewrite Nat2Z.inj_succ, Z.pow_succ_r in Hn by lia. lia.
Qed.
End numbers.

(** ** The printers output the text of the number *)

Section equations.
Context {St : Type} (putc : Z -> M St unit).
Implicit Types s : St.

Lemma bind_ext {A B} (m m' : M St A) (k k' : A -> M St B) s :
  m s = m' s -> (forall a s, k a s = k' a s) -> bind m k s = bind m' k' s.
Proof using Type. intros Hm Hk. unfold bind. rewrite Hm. destruct (m' s) as [[a s']|]; [apply Hk|done]. Qed.

Lemma outs_app l1 l2 s : outs putc (l1 ++ l2) s = bind (outs putc l1) (fun _ => outs putc l2) s.
Proof using Type.
  revert s. induction l1 as [|c l IH]; intros s; simpl; [done|]. unfold bind. destruct (putc c s) as [[[] s']|]; [|done].
  rewrite IH. unfold bind. by destruct (outs putc l s') as [[[] s'']|].
Qed.

Lemma loop_S {L X} fuel (f : L -> M St (L + X)) l :
  loop (S fuel) f l = bind (f l) (fun r => match r with inl l' => loop fuel f l' | inr x => ret x end).
Proof using Type. done. Qed.

Lemma digit_loop_run size base fuel n buf s : 2 <= base <= 16 -> (0 < fuel)%nat -> 0 <= n < base ^ Z.of_nat fuel ->
  Z.of_nat (length buf + length (digits_of fuel base n)) <= size ->
  loop (S fuel) (digit_step size base) (n, buf) s = Done (buf ++ digits_of fuel base n, s).
Proof using Type.
  intros Hb. revert n buf. induction fuel as [|fuel IH]; intros n buf Hf Hn Hsz; [lia|].
  rewrite loop_S. destruct (digit_spec base Hb n) as (c & Hc & En & _). unfold bind at 1. unfold digit_step at 1, bind at 1. rewrite Hc.
  cbn [deref ret digits_of length] in *. rewrite En in *.
  rewrite (proj2 (Z.ltb_lt (Z.of_nat (length buf)) size)) by lia.
  destruct (Z.eqb_spec (n / base) 0) as [E|E]; [done|]. cbn [negb]. unfold ret at 1.
  destruct fuel as [|fuel]; [exfalso; apply E, Z.div_small; rewrite Z.pow_1_r in Hn; lia|].
  etrans; [apply IH|].
  - lia.
  - split; [apply Z.div_pos; lia|]. apply Z.div_lt_upper_bound; [lia|].
    rewrite (Nat2Z.inj_succ (S fuel)), Z.pow_succ_r in Hn by lia. lia.
  - rewrite length_app. cbn [length] in *. lia.
  - by rewrite <- app_assoc.
Qed.

Lemma printnum_w_eq w size num base sign s :
  2 <= base <= 16 -> 0 < w -> 0 <= num < 2 ^ w -> 2 ^ w <= base ^ size -> 0 < size <= 64 ->
  printnum_w putc w size num base sign s = outs putc (num_str w num base sign) s.
Proof using Type.
  intros Hb Hw Hn Hfit Hsz. unfold printnum_w, num_str. cbv zeta.
  set (neg := sign && (wraps w num <? 0)). set (a := if neg then _ else num).
  assert (Ha : 0 <= a < 2 ^ w) by (unfold a; destruct neg; [apply wrapu_bound; lia|done]).
  assert (Hlen : (length (digits_of 64 base a) <= Z.to_nat size)%nat).
  { apply digits_length; [done|rewrite Z2Nat.id by lia; lia|lia]. }
  assert (Hrun : digit_loop size base a s = Done (digits_of 64 base a, s)).
  { apply (digit_loop_run size base 64 a [] s Hb); [lia| |cbn [length Nat.add]; lia].
    pose proof (Z.pow_le_mono_r base size 64 ltac:(lia) ltac:(lia)). change (Z.of_nat 64) with 64. lia. }
  rewrite (bind_done _ _ _ _ _ Hrun). generalize (rev (digits_of 64 base a)). intros ds. rewrite outs_app. apply bind_ext.
  - destruct neg; simpl; [|done]. unfold bind. by destruct (putc 45 s) as [[[] s']|].
  - intros [] s'. rewrite outs_app. apply bind_ext; [|done]. destruct (base =? 16); simpl; [|done].
    unfold bind. destruct (putc 48 s') as [[[] s1]|]; [|done]. by destruct (putc 120 s1) as [[[] s2]|].
Qed.

Lemma printnum_eq num base sign s : base = 10 \/ base = 16 -> 0 <= num < 2 ^ 32 ->
  printnum putc num base sign s = outs putc (num_str 32 num base sign) s.
Proof using Type.
  intros [->| ->] Hn; unfold printnum; (apply printnum_w_eq; [lia|lia|exact Hn|vm_compute; discriminate|lia]).
Qed.
Lemma printnum64_eq num base sign s : base = 10 \/ base = 16 -> 0 <= num < 2 ^ 64 ->
  printnum64 putc num base sign s = outs putc (num_str 64 num base sign) s.
Proof using Type.
  intros [->| ->] Hn; unfold printnum64; (apply printnum_w_eq; [lia|lia|exact Hn|vm_compute; discriminate|lia]).
Qed.
End equations.

(** The magnitude of a printed number is read back from its digits. *)
Lemma num_str_parse w num base : 2 <= base <= 16 -> 0 <= num < base ^ 64 -> base <> 16 ->
  parse base (num_str w num base false) = num.
Proof.
  intros Hb Hn Hne. unfold num_str. cbv zeta. cbn [andb]. rewrite (proj2 (Z.eqb_neq base 16) Hne). cbn [app].
  apply digits_parse; [done|change (Z.of_nat 64) with 64; lia|lia].
Qed.

(** ** Formats *)

(** A format as its pieces: what it contains and the argument it takes. *)
Inductive piece : Type :=
| Lit (c : Z)
| Dec (v : Z)
| Uns (v : Z)
| Hex (v : Z)
| Str (v : option (list Z))
| Pct.

Definition piece_fmt (p : piece) : list Z :=
  match p with
  | Lit c => [c]
  | Dec _ => [PERCENT; 100]
  | Uns _ => [PERCENT; 117]
  | Hex _ => [PERCENT; 120]
  | Str _ => [PERCENT; 115]
  | Pct => [PERCENT; PERCENT]
  end.
Definition piece_args (p : piece) : list arg :=
  match p with
  | Dec v | Uns v | Hex v => [AInt v]
  | Str v => [AStr v]
  | _ => []
  end.
Definition piece_text (p : piece) : list Z :=
  match p with
  | Lit c => [c]
  | Dec v => num_str 32 (u32 v) 10 true
  | Uns v => num_str 32 (u32 v) 10 false
  | Hex v => num_str 64 (u64 v) 16 false
  | Str v => default null_str v
  | Pct => [PERCENT]
  end.
Definition piece_ok (p : piece) : Prop := match p with Lit c => c <> PERCENT | _ => True end.

#[local] Arguments digits_of : simpl never.
#[local] Arguments digit_loop : simpl never.
#[local] Arguments printnum_w : simpl never.
#[local] Arguments printnum : simpl never.
#[local] Arguments printnum64 : simpl never.
#[local] Arguments num_str : simpl never.

(** Runs the conversion at the head of the format. *)
Ltac run_convert := simpl; unfold convert, bind, arg_int, arg_str; simpl; unfold bind, ret; simpl.

Lemma format_pieces {St} (putc : Z -> M St unit) other ps s : Forall piece_ok ps ->
  format_loop putc other (flat_map piece_fmt ps) (flat_map piece_args ps) s = outs putc (flat_map piece_text ps) s.
Proof.
  intros Hps. revert s. induction Hps as [|p ps Hp Hps IH]; intros s; [done|].
  assert (Hk : forall l l', outs putc l s = l' s -> bind l' (fun _ => format_loop putc other (flat_map piece_fmt ps) (flat_map piece_args ps)) s =
    outs putc (l ++ flat_map piece_text ps) s).
  { intros l l' E. rewrite outs_app. apply bind_ext; [done|]. intros [] s'. apply IH. }
  destruct p as [c|v|v|v|v|]; cbn [flat_map piece_fmt piece_args piece_text app].
  - cbn [format_loop]. rewrite (proj2 (Z.eqb_neq c PERCENT) Hp). apply (Hk [c]). simpl. unfold bind.
    by destruct (putc c s) as [[[] s']|].
  - change (PERCENT =? PERCENT) with true. rewrite <- (Hk _ (printnum putc (u32 v) 10 true)).
    + run_convert. by destruct (printnum putc (u32 v) 10 true s) as [[[] s']|].
    + symmetry. apply printnum_eq; [by left|]. apply wrapu_bound. lia.
  - rewrite <- (Hk _ (printnum putc (u32 v) 10 false)).
    + run_convert. by destruct (printnum putc (u32 v) 10 false s) as [[[] s']|].
    + symmetry. apply printnum_eq; [by left|]. apply wrapu_bound. lia.
  - rewrite <- (Hk _ (printnum64 putc (u64 v) 16 false)).
    + run_convert. by destruct (printnum64 putc (u64 v) 16 false s) as [[[] s']|].
    + symmetry. apply printnum64_eq; [by right|]. apply wrapu_bound. lia.
  - rewrite <- (Hk _ (outs putc (default null_str v)) eq_refl).
    run_convert. by destruct (outs putc (default null_str v) s) as [[[] s']|].
  - etrans; [|apply (Hk [PERCENT] (putc PERCENT))].
    + run_convert. by destruct (putc PERCENT s) as [[[] s']|].
    + simpl. unfold bind. by destruct (putc PERCENT s) as [[[] s']|].
Qed.
