(* ===== verification/Console.v ===== *)
(** * Console (kernel/console.c, drivers/cga.c, drivers/uart.c, drivers/keyboard.c)

    The console keeps a ring of 256 typed characters with a read, a write and
    an edit index of 32 bits that wrap, echoes to the serial line and to the
    text screen, and reads the keyboard.  [console_lock] makes every function
    atomic: a reader that waits lets characters arrive, a batch of them at each
    wake-up. *)

From stdpp Require Import prelude list.
From Stdlib Require Import ZArith Lia.
From S2P Require Import Prelude Printf.

Definition BUF_LEN : Z := 256.
Definition BACKSPACE : Z := 256.
(** C(x): a control character. *)
Definition Ctl (x : Z) : Z := x - 64.
Definition CTRL_D : Z := Ctl 68.
Definition CTRL_H : Z := Ctl 72.
Definition CTRL_U : Z := Ctl 85.
Definition DEL : Z := 127.
Definition LF : Z := 10.
Definition CR : Z := 13.

Record input : Type := mkIn { in_buf : list Z; in_r : Z; in_w : Z; in_e : Z }.

(** The serial line, [None] before uart_init, else the bytes sent; the text
    memory, [None] before cga_init; the cursor register of the controller. *)
Record devs : Type := mkDev { uart : option (list Z); cga_mem : option (list Z); cursor : Z }.

(** [typed]: the batches of characters that arrive while a reader waits. *)
Record console : Type := mkCon { inp : input; dev : devs; typed : list (list Z) }.

Definition on_inp {A} : M input A -> M console A := zoom inp (fun i s => mkCon i (dev s) (typed s)).
Definition on_dev {A} : M devs A -> M console A := zoom dev (fun d s => mkCon (inp s) d (typed s)).

(** ** Output devices *)

(** The wait for the transmitter is bounded and has no effect. *)
Definition uart_putc (c : Z) : M devs unit :=
  modify (fun d => mkDev (match uart d with Some out => Some (out ++ [u8 c]) | None => None end) (cga_mem d) (cursor d)).

Definition RES_X : Z := 80.
Definition RES_Y : Z := 25.
Definition ATB_NORMAL : Z := 1792.

(** memmove(cga_mem, cga_mem + RES_X, ...) and memset(cga_mem + cursor, 0, ...) *)
Definition scroll (m : list Z) (cur : Z) : list Z :=
  let n := Z.to_nat (RES_X * (RES_Y - 1)) in
  let m := take n (drop (Z.to_nat RES_X) m) ++ drop n m in
  let k := Z.to_nat (RES_X * RES_Y - cur) in
  take (Z.to_nat cur) m ++ replicate k 0 ++ drop (Z.to_nat cur + k) m.

Definition cga_putc (c : Z) : M devs unit :=
  d <- gets (fun d => d);;
  match cga_mem d with
  | None => ret tt
  | Some m =>
      let cur := Z.lor (Z.land (cursor d) 255) (Z.shiftl (Z.land (Z.shiftr (cursor d) 8) 255) 8) in
      p <- (if c =? LF then ret (cur + (RES_X - cur mod RES_X), m)
            else if c =? BACKSPACE then ret ((if 0 <? cur then cur - 1 else cur), m)
            else if cur <? Z.of_nat (length m) then ret (cur + 1, <[Z.to_nat cur := u16 (Z.lor c ATB_NORMAL)]> m)
            else stop BadAccess);;
      let '(cur, m) := p in
      let '(cur, m) := if RES_X * RES_Y <=? cur then (cur - RES_X, scroll m (cur - RES_X)) else (cur, m) in
      modify (fun d => mkDev (uart d) (Some m) (Z.lor (Z.land cur 255) (Z.shiftl (Z.land (Z.shiftr cur 8) 255) 8)))
  end.

Definition console_putc (c : Z) : M console unit :=
  on_dev (
    (if c =? BACKSPACE then uart_putc 8;; uart_putc 32;; uart_putc 8
     else uart_putc (i8 c));;
    cga_putc c).

(** ** The input ring *)

Definition bufat (i : input) (x : Z) : option Z := in_buf i !! Z.to_nat (x mod BUF_LEN).

Definition set_e (x : Z) (i : input) : input := mkIn (in_buf i) (in_r i) (in_w i) x.
Definition set_w (x : Z) (i : input) : input := mkIn (in_buf i) (in_r i) x (in_e i).
Definition set_r (x : Z) (i : input) : input := mkIn (in_buf i) x (in_w i) (in_e i).

(** The loop of the kill character: at most [e - w] steps. *)
Definition kill_step (_ : unit) : M console (unit + unit) :=
  i <- gets inp;;
  if negb (in_e i =? in_w i) then
    c <- deref (bufat i (u32 (in_e i - 1)));;
    if negb (c =? LF) then
      on_inp (modify (set_e (u32 (in_e i - 1))));;
      console_putc BACKSPACE;;
      ret (inl tt)
    else ret (inr tt)
  else ret (inr tt).

Definition kill_line : M console unit :=
  i <- gets inp;;
  loop (S (Z.to_nat (u32 (in_e i - in_w i)))) kill_step tt.

(** console_storec: [c] is a [char].  condvar_signal wakes a reader, which
    finds the ring as it is when it runs. *)
Definition console_storec (c : Z) : M console unit :=
  if c =? CTRL_U then kill_line
  else if (c =? CTRL_H) || (c =? DEL) then
    i <- gets inp;;
    if negb (in_e i =? in_w i) then
      on_inp (modify (set_e (u32 (in_e i - 1))));;
      console_putc BACKSPACE
    else ret tt
  else
    i <- gets inp;;
    if negb (c =? 0) && (u32 (in_e i - in_r i) <? BUF_LEN) then
      let c := if c =? CR then LF else c in
      on_inp (
        match bufat i (in_e i) with
        | None => stop BadAccess
        | Some _ => modify (fun i => mkIn (<[Z.to_nat (in_e i mod BUF_LEN) := c]> (in_buf i)) (in_r i) (in_w i) (u32 (in_e i + 1)))
        end;;
        i <- gets (fun i => i);;
        if (c =? LF) || (c =? CTRL_D) || (in_e i =? u32 (in_r i + BUF_LEN)) then modify (set_w (in_e i)) else ret tt);;
      console_putc c
    else ret tt.

(** The handlers run one after the other. *)
Fixpoint storecs (l : list Z) : M console unit :=
  match l with [] => ret tt | c :: l => console_storec c;; storecs l end.

(** condvar_wait(&read_cv, console_lock): a batch of characters arrives. *)
Definition wait_input : M console unit :=
  s <- gets (fun s => s);;
  match typed s with
  | [] => stop Diverge
  | b :: rest => modify (fun s => mkCon (inp s) (dev s) rest);; storecs b
  end.

Definition wait_step (_ : unit) : M console (unit + unit) :=
  i <- gets inp;;
  if in_r i =? in_w i then wait_input;; ret (inl tt) else ret (inr tt).

(** The loop of console_read: [n] characters are missing, [out] were copied. *)
Definition read_step (size : Z) (l : Z * list Z) : M console ((Z * list Z) + (Z * list Z)) :=
  let '(n, out) := l in
  if 0 <? n then
    s <- gets (fun s => s);;
    loop (S (length (typed s))) wait_step tt;;
    i <- gets inp;;
    c <- deref (bufat i (in_r i));;
    on_inp (modify (set_r (u32 (in_r i + 1))));;
    if c =? CTRL_D then
      (if n <? size then i <- gets inp;; on_inp (modify (set_r (u32 (in_r i - 1)))) else ret tt);;
      ret (inr (n, out))
    else if c =? LF then ret (inr (n - 1, out ++ [c]))
    else ret (inl (n - 1, out ++ [c]))
  else ret (inr (n, out)).

(** The value and the characters stored at [buf]. *)
Definition console_read (size : Z) : M console (Z * list Z) :=
  p <- loop (S (Z.to_nat size)) (read_step size) (size, []);;
  ret (size - fst p, snd p).

(** console_write: the buffer has [size] characters. *)
Definition console_write (b : list Z) (size : Z) : M console Z :=
  for_ (Z.to_nat size) 0 (fun i => c <- deref (b !! Z.to_nat i);; console_putc c);;
  ret size.

(** kprintf, its format not null. *)
Definition kprintf_other (c : Z) (args : list arg) : M console (list arg) :=
  if c =? 99 then a <- arg_int args;; console_putc (i32 (fst a));; ret (snd a)
  else console_putc PERCENT;; console_putc c;; ret args.

Definition kprintf (format : list Z) (args : list arg) : M console unit :=
  format_loop console_putc kprintf_other format args.

Definition stdin_read (count : Z) : M console (Z * list Z) := console_read (i32 count).
Definition stdout_write (b : list Z) (count : Z) : M console Z := console_write b (i32 count).

(** uart_input_handler: [lsr] and [rbr] are what the registers hold. *)
Definition uart_getc (lsr rbr : Z) (d : devs) : Z :=
  match uart d with
  | None => -1
  | Some _ => if Z.land lsr 1 =? 0 then -1 else i8 rbr
  end.

Definition uart_input_handler (lsr rbr : Z) : M console unit :=
  d <- gets dev;;
  console_storec (uart_getc lsr rbr d).
