(* ===== verification/ConsoleSpec.v ===== *)
(** * Console: the line discipline

    The ring with its three wrapping indices implements two lists: the
    characters a reader may take and the line that is being edited. *)

From stdpp Require Import prelude list.
From Stdlib Require Import ZArith Lia.
From S2P Require Import Prelude Printf Console.

(** ** The abstract terminal *)

Record tty : Type := mkTty { committed : list Z; edit : list Z }.

Definition tty_len (t : tty) : Z := Z.of_nat (length (committed t) + length (edit t)).

Definition tty_store (c : Z) (t : tty) : tty :=
  if c =? CTRL_U then mkTty (committed t) []
  else if (c =? CTRL_H) || (c =? DEL) then mkTty (committed t) (removelast (edit t))
  else if (c =? 0) || (BUF_LEN <=? tty_len t) then t
  else
    let c := if c =? CR then LF else c in
    let l := edit t ++ [c] in
    if (c =? LF) || (c =? CTRL_D) || (tty_len t + 1 =? BUF_LEN) then mkTty (committed t ++ l) []
    else mkTty (committed t) l.

(** What the serial line shows: a stored character is echoed, an erased one
    is overwritten with a blank. *)
Definition erase : list Z := [8; 32; 8].
Definition tty_echo (c : Z) (t : tty) : list Z :=
  if c =? CTRL_U then concat (replicate (length (edit t)) erase)
  else if (c =? CTRL_H) || (c =? DEL) then match edit t with [] => [] | _ => erase end
  else if (c =? 0) || (BUF_LEN <=? tty_len t) then []
  else [u8 (if c =? CR then LF else c)].

Fixpoint tty_stores (l : list Z) (t : tty) : tty :=
  match l with [] => t | c :: l => tty_stores l (tty_store c t) end.

(** A reader takes characters up to a line end, a ^D or its size; with
    nothing committed it waits for the next batch of typed characters.
    [None]: it waits forever. *)
Fixpoint tty_wait (t : tty) (batches : list (list Z)) : option (tty * list (list Z)) :=
  match committed t, batches with
  | _ :: _, _ => Some (t, batches)
  | [], [] => None
  | [], b :: batches => tty_wait (tty_stores b t) batches
  end.

Fixpoint tty_read (n : nat) (first : bool) (t : tty) (batches : list (list Z)) : option (list Z * tty * list (list Z)) :=
  match n with
  | O => Some ([], t, batches)
  | S n =>
      match tty_wait t batches with
      | None => None
      | Some (t, batches) =>
          match committed t with
          | [] => None
          | c :: rest =>
              if c =? CTRL_D then Some ([], (if first then mkTty rest (edit t) else t), batches)
              else if c =? LF then Some ([c], mkTty rest (edit t), batches)
              else match tty_read n false (mkTty rest (edit t)) batches with
                   | None => None
                   | Some (out, t, batches) => Some (c :: out, t, batches)
                   end
          end
      end
  end.

(** ** The devices *)

(** The cursor is on the screen and the text memory has its size. *)
Definition dev_ok (d : devs) : Prop :=
  match cga_mem d with
  | None => True
  | Some m => length m = 2000%nat /\ 0 <= cursor d < 2000
  end.

Definition out_add (l : list Z) (d : devs) : option (list Z) :=
  match uart d with Some out => Some (out ++ l) | None => None end.

Lemma scroll_length m cur : length m = 2000%nat -> 0 <= cur < 2000 -> length (scroll m cur) = 2000%nat.
Proof.
  intros Hm Hc. unfold scroll. change (Z.to_nat (RES_X * (RES_Y - 1))) with 1920%nat. change (Z.to_nat RES_X) with 80%nat.
  change (RES_X * RES_Y) with 2000. rewrite !length_app, length_replicate, !length_take, !length_drop, !length_app, !length_take, !length_drop.
  lia.
Qed.

(** Two registers of one byte hold the cursor. *)
Lemma cursor_bytes x : 0 <= x < 2 ^ 16 -> Z.lor (Z.land x 255) (Z.shiftl (Z.land (Z.shiftr x 8) 255) 8) = x.
Proof.
  intros Hx. apply Z.bits_inj'. intros n Hn. rewrite Z.lor_spec, Z.land_spec, Z.shiftl_spec by lia.
  change 255 with (Z.ones 8). rewrite !Z.testbit_ones by lia.
  destruct (Z.ltb_spec n 8) as [Hn8|Hn8]; simpl.
  - rewrite (Z.testbit_neg_r _ (n - 8)) by lia. rewrite (proj2 (Z.leb_le 0 n)) by lia. by rewrite orb_false_r, andb_true_r.
  - rewrite andb_false_r, andb_false_r || rewrite andb_false_r. simpl. rewrite Z.land_spec, Z.shiftr_spec by lia.
    rewrite Z.testbit_ones by lia. replace (n - 8 + 8) with n by lia.
    destruct (Z.ltb_spec (n - 8) 8) as [H16|H16].
    + rewrite (proj2 (Z.leb_le 0 (n - 8))) by lia. by rewrite andb_true_r.
    + rewrite andb_false_r, andb_false_r || rewrite andb_false_r. symmetry. apply Z.bits_above_log2; [lia|].
      destruct (Z.eq_dec x 0) as [->|]; [simpl; lia|]. assert (Z.log2 x < 16) by (apply Z.log2_lt_pow2; lia). lia.
Qed.

Lemma wp_cga_putc c d (Q : unit -> devs -> Prop) : dev_ok d ->
  (forall d', dev_ok d' -> uart d' = uart d -> Q tt d') -> wp (cga_putc c) Q d.
Proof.
  intros Hok HQ. unfold cga_putc. wp_step. wp_step. unfold dev_ok in Hok. destruct (cga_mem d) as [m|] eqn:Em.
  2:{ wp_step. apply HQ; [|done]. unfold dev_ok. by rewrite Em. }
  destruct Hok as [Hm Hc]. rewrite cursor_bytes by lia. set (cur := cursor d) in *.
  assert (Hfin : forall p, length p.2 = 2000%nat -> 0 <= p.1 <= 2000 ->
    wp (let '(cur, m) := p in
        let '(cur, m) := if RES_X * RES_Y <=? cur then (cur - RES_X, scroll m (cur - RES_X)) else (cur, m) in
        modify (fun d => mkDev (uart d) (Some m) (Z.lor (Z.land cur 255) (Z.shiftl (Z.land (Z.shiftr cur 8) 255) 8)))) Q d).
  { intros [x l] Hl Hx. simpl in *. change (RES_X * RES_Y) with 2000. change RES_X with 80.
    destruct (Z.leb_spec 2000 x); wp_step; (apply HQ; [|done]); unfold dev_ok; simpl; rewrite cursor_bytes by lia.
    - split; [apply scroll_length; [done|lia]|lia].
    - split; [done|lia]. }
  wp_step. change RES_X with 80 in *. destruct (c =? LF).
  - wp_step. apply (Hfin (cur + (80 - cur mod 80), m)); simpl; [done|]. pose proof (Z.mod_pos_bound cur 80 ltac:(lia)). pose proof (Z.div_mod cur 80 ltac:(lia)).
    assert (cur / 80 < 25) by (apply Z.div_lt_upper_bound; lia). lia.
  - destruct (c =? BACKSPACE).
    + wp_step. apply (Hfin (if 0 <? cur then cur - 1 else cur, m)); simpl; [done|]. destruct (Z.ltb_spec 0 cur); lia.
    + rewrite (proj2 (Z.ltb_lt cur (Z.of_nat (length m)))) by lia. wp_step.
      apply (Hfin (cur + 1, <[Z.to_nat cur := u16 (Z.lor c ATB_NORMAL)]> m)); simpl; [by rewrite length_insert|lia].
Qed.

Lemma out_add_app l1 l2 d d' : uart d' = out_add l1 d -> out_add l2 d' = out_add (l1 ++ l2) d.
Proof. unfold out_add. intros ->. destruct (uart d); [|done]. by rewrite app_assoc. Qed.

Lemma wp_uart_putc c d (Q : unit -> devs -> Prop) : dev_ok d ->
  (forall d', dev_ok d' -> uart d' = out_add [u8 c] d -> Q tt d') -> wp (uart_putc c) Q d.
Proof. intros Hok HQ. unfold uart_putc. wp_step. by apply HQ. Qed.

Definition putc_bytes (c : Z) : list Z := if c =? BACKSPACE then erase else [u8 (i8 c)].

(** console_putc never writes outside the screen. *)
Lemma wp_console_putc c s (Q : unit -> console -> Prop) : dev_ok (dev s) ->
  (forall d', dev_ok d' -> uart d' = out_add (putc_bytes c) (dev s) -> Q tt (mkCon (inp s) d' (typed s))) ->
  wp (console_putc c) Q s.
Proof.
  intros Hok HQ. unfold console_putc, on_dev. wp_step. wp_step. unfold putc_bytes in HQ. destruct (c =? BACKSPACE).
  - wp_step. apply wp_uart_putc; [done|]. intros d1 Hd1 E1. wp_step. apply wp_uart_putc; [done|]. intros d2 Hd2 E2.
    apply wp_uart_putc; [done|]. intros d3 Hd3 E3. apply wp_cga_putc; [done|]. intros d4 Hd4 E4. apply HQ; [done|].
    rewrite E4, E3. by rewrite (out_add_app _ _ _ _ E2), (out_add_app _ _ _ _ E1).
  - apply wp_uart_putc; [done|]. intros d1 Hd1 E1. apply wp_cga_putc; [done|]. intros d2 Hd2 E2. apply HQ; [done|]. congruence.
Qed.

(** ** The ring *)

(** The ring [i] holds the terminal [t]. *)
Record ring (t : tty) (i : input) : Prop := {
  rg_len : length (in_buf i) = 256%nat;
  rg_r : 0 <= in_r i < 2 ^ 32;
  rg_w : in_w i = u32 (in_r i + Z.of_nat (length (committed t)));
  rg_e : in_e i = u32 (in_r i + tty_len t);
  rg_fits : tty_len t <= BUF_LEN;
  rg_nolf : LF ∉ edit t;
  rg_at : forall k c, (committed t ++ edit t) !! k = Some c -> bufat i (in_r i + Z.of_nat k) = Some c
}.

Lemma u32_mod256 x : u32 x mod BUF_LEN = x mod BUF_LEN.
Proof. unfold wrapu, BUF_LEN. apply Z.mod_mod_divide. by exists (2 ^ 24). Qed.

Lemma u32_add x y : u32 (u32 x + y) = u32 (x + y).
Proof. unfold wrapu. apply Zplus_mod_idemp_l. Qed.
Lemma u32_sub x y : u32 (u32 x - y) = u32 (x - y).
Proof. unfold wrapu. apply Zminus_mod_idemp_l. Qed.

Lemma u32_sub_r x y : u32 (x - u32 y) = u32 (x - y).
Proof. unfold wrapu. apply Zminus_mod_idemp_r. Qed.

(** Distances below the width are not confused by the wrap. *)
Lemma u32_eq_dist x m n : 0 <= m < 2 ^ 32 -> 0 <= n < 2 ^ 32 -> (u32 (x + m) =? u32 (x + n)) = (m =? n).
Proof.
  intros Hm Hn. destruct (Z.eqb_spec m n) as [->|Hne]; [apply Z.eqb_refl|]. apply Z.eqb_neq. intros E. apply Hne.
  assert (E2 : u32 (u32 (x + m) - x) = u32 (u32 (x + n) - x)) by (by rewrite E).
  rewrite !u32_sub in E2. replace (x + m - x) with m in E2 by lia. replace (x + n - x) with n in E2 by lia.
  by rewrite !wrapu_small in E2 by lia.
Qed.

Lemma u32_dist x m : 0 <= m < 2 ^ 32 -> u32 (u32 (x + m) - x) = m.
Proof. intros Hm. rewrite u32_sub. replace (x + m - x) with m by lia. by apply wrapu_small. Qed.

Lemma bufat_u32 i x : bufat i (u32 x) = bufat i x.
Proof. unfold bufat. by rewrite u32_mod256. Qed.

Lemma length_last {A} (l : list A) : l <> [] -> length l = S (length (removelast l)).
Proof. intros H. destruct (exists_last H) as (l' & a & ->). rewrite removelast_last, length_app. simpl. lia. Qed.

Lemma tty_len_add t : tty_len t = Z.of_nat (length (committed t)) + Z.of_nat (length (edit t)).
Proof. unfold tty_len. lia. Qed.

Lemma ring_e_w t i : ring t i -> (in_e i =? in_w i) = (match edit t with [] => true | _ => false end).
Proof.
  intros [_ _ Hw He Hf _ _]. rewrite He, Hw. pose proof (tty_len_add t). unfold BUF_LEN in Hf. rewrite u32_eq_dist by lia.
  destruct (edit t); simpl in *; [apply Z.eqb_eq|apply Z.eqb_neq]; lia.
Qed.
Lemma ring_r_w t i : ring t i -> (in_r i =? in_w i) = (match committed t with [] => true | _ => false end).
Proof.
  intros [_ Hr Hw He Hf _ _]. rewrite Hw. pose proof (tty_len_add t). unfold BUF_LEN in Hf.
  rewrite <- (wrapu_small 32 (in_r i)) at 1 by lia. replace (in_r i) with (in_r i + 0) at 1 by lia. rewrite u32_eq_dist by lia.
  destruct (committed t); simpl in *; done.
Qed.

(** One character less in the line. *)
Lemma ring_back t i : ring t i -> edit t <> [] ->
  ring (mkTty (committed t) (removelast (edit t))) (set_e (u32 (in_e i - 1)) i) /\
  exists c, bufat i (u32 (in_e i - 1)) = Some c /\ c <> LF.
Proof.
  intros [Hl Hr Hw He Hf Hn Hat] Hne. pose proof (length_last _ Hne) as Hlen. pose proof (tty_len_add t) as Htl.
  assert (He' : u32 (in_e i - 1) = u32 (in_r i + (tty_len t - 1))).
  { rewrite He, u32_sub. f_equal. lia. }
  destruct (exists_last Hne) as (l & a & El). rewrite El in *. rewrite removelast_last in *.
  assert (Hnew : tty_len (mkTty (committed t) l) = tty_len t - 1).
  { rewrite tty_len_add. simpl. rewrite length_app in Htl. simpl in Htl. lia. }
  split.
  - split; simpl; [done|done|done| | | |].
    + by rewrite He', Hnew.
    + lia.
    + set_solver.
    + intros k c Hk. unfold bufat. simpl. apply (Hat k c). rewrite app_assoc. apply lookup_app_Some. by left.
  - exists a. split; [|set_solver]. rewrite He', bufat_u32. rewrite <- (Hat (length (committed t) + length l)%nat a).
    + f_equal. rewrite length_app in Htl. simpl in Htl. lia.
    + rewrite app_assoc, lookup_app_r by (rewrite length_app; lia). rewrite length_app.
      by replace (_ - _)%nat with 0%nat by lia.
Qed.

(** The slot a new character goes to is none of those in use. *)
Lemma slots_differ x k n : 0 <= k < n -> n < 256 -> Z.to_nat ((x + n) mod BUF_LEN) <> Z.to_nat ((x + k) mod BUF_LEN).
Proof.
  intros Hk Hn E. unfold BUF_LEN in E. pose proof (Z.mod_pos_bound (x + n) 256 ltac:(lia)). pose proof (Z.mod_pos_bound (x + k) 256 ltac:(lia)).
  pose proof (Z.div_mod (x + n) 256 ltac:(lia)). pose proof (Z.div_mod (x + k) 256 ltac:(lia)). lia.
Qed.

Definition store_at (c : Z) (i : input) : input :=
  mkIn (<[Z.to_nat (in_e i mod BUF_LEN) := c]> (in_buf i)) (in_r i) (in_w i) (u32 (in_e i + 1)).

Lemma store_lookup t i c k a : ring t i -> tty_len t < BUF_LEN -> (committed t ++ edit t ++ [c]) !! k = Some a ->
  bufat (store_at c i) (in_r i + Z.of_nat k) = Some a.
Proof.
  intros [Hl Hr Hw He Hf Hn Hat] Hlt Hk. unfold bufat, store_at. simpl. rewrite He, u32_mod256.
  assert (Htl : tty_len t = Z.of_nat (length (committed t ++ edit t))) by (unfold tty_len; by rewrite length_app).
  rewrite app_assoc in Hk. apply lookup_app_Some in Hk as [Hk|[Hge Hk]].
  - pose proof (lookup_lt_Some _ _ _ Hk). rewrite list_lookup_insert_ne by (apply slots_differ; unfold BUF_LEN in *; lia). by apply Hat.
  - apply list_lookup_singleton_Some in Hk as [Hk ->]. replace (Z.of_nat k) with (tty_len t) by lia.
    apply list_lookup_insert_eq. rewrite Hl. pose proof (Z.mod_pos_bound (in_r i + tty_len t) BUF_LEN ltac:(done)). unfold BUF_LEN in *. lia.
Qed.

Lemma ring_push t i c : ring t i -> tty_len t < BUF_LEN -> c <> LF -> ring (mkTty (committed t) (edit t ++ [c])) (store_at c i).
Proof.
  intros Hring Hlt Hc. pose proof Hring as [Hl Hr Hw He Hf Hn Hat].
  assert (Htl : tty_len (mkTty (committed t) (edit t ++ [c])) = tty_len t + 1) by (unfold tty_len; simpl; rewrite length_app; simpl; lia).
  split; simpl; [by rewrite length_insert|done|done| | | |].
  - rewrite Htl, He, u32_add. f_equal. lia.
  - lia.
  - set_solver.
  - intros k a Hk. by apply (store_lookup t).
Qed.

Lemma ring_commit t i c : ring t i -> tty_len t < BUF_LEN ->
  ring (mkTty (committed t ++ edit t ++ [c]) []) (set_w (u32 (in_e i + 1)) (store_at c i)).
Proof.
  intros Hring Hlt. pose proof Hring as [Hl Hr Hw He Hf Hn Hat].
  assert (Htl : tty_len (mkTty (committed t ++ edit t ++ [c]) []) = tty_len t + 1)
    by (unfold tty_len; simpl; rewrite !length_app; simpl; lia).
  split; simpl; [by rewrite length_insert|done| | | | |].
  - rewrite He, u32_add. f_equal. rewrite tty_len_add in Htl. simpl in Htl. lia.
  - rewrite Htl, He, u32_add. f_equal. lia.
  - lia.
  - set_solver.
  - intros k a Hk. rewrite app_nil_r in Hk. by apply (store_lookup t).
Qed.

Lemma ring_pop t i c rest : ring t i -> committed t = c :: rest ->
  bufat i (in_r i) = Some c /\ ring (mkTty rest (edit t)) (set_r (u32 (in_r i + 1)) i).
Proof.
  intros [Hl Hr Hw He Hf Hn Hat] Ec. rewrite Ec in *. split.
  { rewrite <- (Hat 0%nat c eq_refl). f_equal. lia. }
  pose proof (tty_len_add t) as Htl. rewrite Ec in Htl. simpl in Htl.
  assert (Htl' : tty_len (mkTty rest (edit t)) = tty_len t - 1) by (unfold tty_len in *; simpl in *; lia).
  split; simpl; [done|apply wrapu_bound; lia| | |lia|done|].
  - rewrite Hw, u32_add. f_equal. simpl. lia.
  - rewrite Htl', He, u32_add. f_equal. lia.
  - intros k a Hk. unfold bufat. simpl. rewrite <- (Hat (S k) a Hk). unfold bufat.
    rewrite <- u32_mod256, u32_add, u32_mod256. do 3 f_equal. lia.
Qed.

(** Taking a character back. *)
Lemma unpop t i : ring t i -> set_r (u32 (in_r (set_r (u32 (in_r i + 1)) i) - 1)) (set_r (u32 (in_r i + 1)) i) = i.
Proof.
  intros [_ Hr _ _ _ _ _]. destruct i as [b x y z]. simpl in *. unfold set_r. simpl. f_equal. rewrite u32_sub.
  replace (x + 1 - 1) with x by lia. apply wrapu_small. lia.
Qed.

(** ** The operations *)

(** The console holds the terminal [t] and its devices are well formed. *)
Definition con (t : tty) (s : console) : Prop := ring t (inp s) /\ dev_ok (dev s).

Lemma tty_eta t : mkTty (committed t) (edit t) = t.
Proof. by destruct t. Qed.

Lemma concat_snoc n : concat (replicate (S n) erase) = erase ++ concat (replicate n erase).
Proof. done. Qed.

Lemma wp_kill t s :
  con t s -> wp kill_line (fun _ s' => con (mkTty (committed t) []) s' /\ typed s' = typed s /\
    uart (dev s') = out_add (concat (replicate (length (edit t)) erase)) (dev s)) s.
Proof.
  intros [Hring Hdev]. unfold kill_line. wp_step. wp_step.
  assert (Hd : u32 (in_e (inp s) - in_w (inp s)) = Z.of_nat (length (edit t))).
  { pose proof Hring as [_ _ Hw He Hf _ _]. rewrite Hw, He. pose proof (tty_len_add t). unfold BUF_LEN in Hf.
    rewrite u32_sub, u32_sub_r.  rewrite wrapu_small; lia. }
  rewrite Hd, Nat2Z.id. clear Hd. remember (length (edit t)) as n eqn:En.
  assert (Hgoal : forall n t s, con t s -> length (edit t) = n ->
    wp (loop (S n) kill_step tt) (fun _ s' => con (mkTty (committed t) []) s' /\ typed s' = typed s /\
      uart (dev s') = out_add (concat (replicate n erase)) (dev s)) s); [|by apply Hgoal; [split|]].
  clear. induction n as [|n IH]; intros t s [Hring Hdev] Hn.
  - destruct (edit t) as [|a l] eqn:El; [|done]. rewrite loop_S. wp_step. unfold kill_step. wp_step. wp_step.
    rewrite (ring_e_w _ _ Hring), El. simpl. wp_step. wp_step. split; [split; [|done]|split; [done|]].
    + by rewrite <- El, tty_eta.
    + unfold out_add. destruct (uart (dev s)); [by rewrite app_nil_r|done].
  - assert (Hne : edit t <> []) by (by intros E; rewrite E in Hn). rewrite loop_S. wp_step. unfold kill_step at 1. wp_step. wp_step.
    destruct (ring_back _ _ Hring Hne) as [Hring' (c & Hc & Hlf)].
    rewrite (ring_e_w _ _ Hring). destruct (edit t) as [|a l] eqn:El; [done|]. cbn [negb]. rewrite <- El in *.
    wp_step. eapply wp_deref; [exact Hc|]. rewrite (proj2 (Z.eqb_neq c LF) Hlf). cbn [negb].
    wp_step. unfold on_inp. wp_step. wp_step. wp_step. apply wp_console_putc; [done|]. intros d' Hd' Eu. wp_step.
    pose proof (length_last _ Hne) as Hlen.
    eapply wp_mono; [apply (IH (mkTty (committed t) (removelast (edit t)))); [by split|simpl; lia]|].
    intros _ s' (Hcon & Hty & Hu). split; [exact Hcon|]. split; [exact Hty|]. rewrite Hu, concat_snoc. simpl dev in *.
    change (putc_bytes BACKSPACE) with erase in Eu. by rewrite (out_add_app _ _ _ _ Eu).
Qed.

Lemma out_add_nil d : uart d = out_add [] d.
Proof. unfold out_add. destruct (uart d); [by rewrite app_nil_r|done]. Qed.

(** console_storec implements [tty_store] on every character, whatever the
    indices are, and echoes what [tty_echo] says. *)
Lemma wp_storec c t s : -128 <= c < 128 -> con t s ->
  wp (console_storec c) (fun _ s' => con (tty_store c t) s' /\ typed s' = typed s /\
    uart (dev s') = out_add (tty_echo c t) (dev s)) s.
Proof.
  intros Hc [Hring Hdev]. unfold console_storec, tty_store, tty_echo. destruct (c =? CTRL_U); [by apply wp_kill|].
  destruct ((c =? CTRL_H) || (c =? DEL)).
  { wp_step. wp_step. rewrite (ring_e_w _ _ Hring). destruct (edit t) as [|a l] eqn:El; cbn [negb].
    - wp_step. split; [|split; [done|apply out_add_nil]]. split; [|done]. simpl. rewrite <- El at 1. by rewrite tty_eta.
    - rewrite <- El in *. wp_step. unfold on_inp. wp_step. wp_step. apply wp_console_putc; [done|]. intros d' Hd' Eu.
      split; [split; [|exact Hd']|split; [done|exact Eu]]. apply ring_back; [done|]. by rewrite El. }
  wp_step. wp_step. pose proof Hring as [Hl Hr Hw He Hf Hn Hat].
  assert (Hdist : u32 (in_e (inp s) - in_r (inp s)) = tty_len t).
  { rewrite He. apply u32_dist. unfold BUF_LEN, tty_len in *. lia. }
  rewrite Hdist. destruct (c =? 0); simpl.
  { wp_step. split; [by split|]. split; [done|apply out_add_nil]. }
  destruct (Z.ltb_spec (tty_len t) BUF_LEN) as [Hlt|Hge].
  2:{ rewrite (proj2 (Z.leb_le BUF_LEN (tty_len t))) by lia. wp_step. split; [by split|]. split; [done|apply out_add_nil]. }
  rewrite (proj2 (Z.leb_gt BUF_LEN (tty_len t))) by lia. set (k := if c =? CR then LF else c).
  assert (Hk : -128 <= k < 128) by (unfold k, LF; destruct (c =? CR); lia).
  assert (Hfull : (in_e (store_at k (inp s)) =? u32 (in_r (store_at k (inp s)) + BUF_LEN)) = (tty_len t + 1 =? BUF_LEN)).
  { simpl. rewrite He, u32_add. rewrite <- Z.add_assoc. apply u32_eq_dist; unfold BUF_LEN, tty_len in *; lia. }
  assert (Hslot : exists z, bufat (inp s) (in_e (inp s)) = Some z).
  { unfold bufat. apply lookup_lt_is_Some. rewrite Hl. pose proof (Z.mod_pos_bound (in_e (inp s)) BUF_LEN ltac:(done)). unfold BUF_LEN in *. lia. }
  destruct Hslot as [z Hz]. wp_step. unfold on_inp. wp_step. wp_step. rewrite Hz. wp_step.
  change (mkIn _ _ _ _) with (store_at k (inp s)). wp_step. wp_step. rewrite Hfull.
  assert (Hput : putc_bytes k = [u8 k]).
  { unfold putc_bytes. rewrite (proj2 (Z.eqb_neq k BACKSPACE)) by (unfold BACKSPACE; lia). by rewrite (wraps_small 8 k) by lia. }
  destruct ((k =? LF) || (k =? CTRL_D) || (tty_len t + 1 =? BUF_LEN)) eqn:Eb; wp_step; (apply wp_console_putc; [done|]); intros d' Hd' Eu;
    (split; [split; [|exact Hd']|split; [done|rewrite <- Hput; exact Eu]]).
  - by apply ring_commit.
  - apply ring_push; [done|done|]. intros E. by rewrite E in Eb.
Qed.

Lemma wp_storecs l t s : Forall (fun c => -128 <= c < 128) l -> con t s ->
  wp (storecs l) (fun _ s' => con (tty_stores l t) s' /\ typed s' = typed s) s.
Proof.
  intros Hl. revert t s. induction Hl as [|c l Hc Hl IH]; intros t s Hcon; simpl; [by wp_step|].
  wp_step. eapply wp_mono; [by apply wp_storec|]. intros _ s1 (Hcon1 & Ht1 & _).
  eapply wp_mono; [by apply IH|]. intros _ s2 [Hcon2 Ht2]. split; [done|congruence].
Qed.

Lemma wp_wait t s t' bs : Forall (Forall (fun c => -128 <= c < 128)) (typed s) -> con t s -> tty_wait t (typed s) = Some (t', bs) ->
  wp (loop (S (length (typed s))) wait_step tt) (fun _ s' => con t' s' /\ typed s' = bs /\ committed t' <> []) s.
Proof.
  remember (typed s) as l eqn:El. intros Hl. revert t s El. induction Hl as [|b l Hb Hl IH]; intros t s El Hcon Hw.
  - simpl in Hw. destruct (committed t) as [|c rest] eqn:Ec; [done|]. injection Hw as Ht Hb.
    rewrite loop_S. wp_step. unfold wait_step. wp_step. wp_step. rewrite (ring_r_w _ _ (proj1 Hcon)), Ec. wp_step. wp_step.
    split; [by rewrite <- Ht|]. split; [congruence|]. by rewrite <- Ht, Ec.
  - cbn [length]. rewrite loop_S. wp_step. unfold wait_step at 1. wp_step. wp_step. rewrite (ring_r_w t _ (proj1 Hcon)).
    simpl in Hw. destruct (committed t) as [|c rest] eqn:Ec.
    + wp_step. unfold wait_input. wp_step. wp_step. rewrite <- El. wp_step. wp_step.
      eapply wp_mono; [apply (wp_storecs b t); [done|by destruct Hcon; split]|]. intros _ s1 [Hcon1 Ht1]. wp_step.
      eapply IH; [by rewrite Ht1|done|done].
    + injection Hw as <- <-. wp_step. wp_step. split; [done|]. split; [congruence|]. by rewrite Ec.
Qed.

Lemma tty_wait_typed P t bs t' bs' : Forall P bs -> tty_wait t bs = Some (t', bs') -> Forall P bs'.
Proof.
  intros Hbs. revert t. induction Hbs as [|b bs Hb Hbs IH]; intros t; simpl; destruct (committed t); try done.
  - intros [= <- <-]. constructor.
  - apply IH.
  - intros [= <- <-]. by constructor.
Qed.

Lemma wp_read_loop size n out t s l t' bs :
  Forall (Forall (fun c => -128 <= c < 128)) (typed s) -> con t s -> Z.of_nat n <= size ->
  tty_read n (Z.of_nat n =? size) t (typed s) = Some (l, t', bs) ->
  wp (loop (S n) (read_step size) (Z.of_nat n, out)) (fun p s' =>
    p = (Z.of_nat n - Z.of_nat (length l), out ++ l) /\ con t' s' /\ typed s' = bs) s.
Proof.
  revert out t s l t' bs. induction n as [|n IH]; intros out t s l t' bs Hty Hcon Hn Hrd.
  { simpl in Hrd. injection Hrd as <- <- <-. rewrite loop_S. wp_step. simpl. wp_step. wp_step. rewrite app_nil_r. by destruct Hcon. }
  cbn [tty_read] in Hrd. destruct (tty_wait t (typed s)) as [[t1 bs1]|] eqn:Ew; [|done].
  destruct (committed t1) as [|c rest] eqn:Ec; [done|]. rewrite loop_S. wp_step. cbn [read_step].
  rewrite (proj2 (Z.ltb_lt 0 (Z.of_nat (S n)))) by lia. wp_step. wp_step. wp_step.
  eapply wp_mono; [by eapply wp_wait|]. intros _ s1 ([Hr1 Hd1] & Ht1 & _). wp_step. wp_step. wp_step.
  destruct (ring_pop _ _ _ _ Hr1 Ec) as [Hat Hpop]. eapply wp_deref; [exact Hat|]. wp_step. unfold on_inp. wp_step. wp_step.
  assert (Hty1 : Forall (Forall (fun c => -128 <= c < 128)) (typed s1)) by (rewrite Ht1; by eapply tty_wait_typed).
  destruct (c =? CTRL_D).
  { wp_step. destruct (Z.eqb_spec (Z.of_nat (S n)) size) as [E|E]; injection Hrd as <- <- <-; rewrite app_nil_r.
    - rewrite (proj2 (Z.ltb_ge _ _)) by lia. wp_step. wp_step. wp_step. split; [f_equal; simpl length; lia|]. by split; [split|].
    - rewrite (proj2 (Z.ltb_lt _ _)) by lia. wp_step. wp_step. wp_step. wp_step. simpl inp. rewrite (unpop _ _ Hr1). wp_step. wp_step.
      split; [f_equal; simpl length; lia|]. by split; [split|]. }
  destruct (c =? LF) eqn:Elf.
  { injection Hrd as <- <- <-. wp_step. wp_step. split; [f_equal; simpl length; lia|]. by split; [split|]. }
  destruct (tty_read n false (mkTty rest (edit t1)) bs1) as [[[l' t2] bs2]|] eqn:Er; [|done]. injection Hrd as <- <- <-. wp_step.
  replace (Z.of_nat (S n) - 1) with (Z.of_nat n) by lia.
  eapply wp_mono; [eapply (IH _ (mkTty rest (edit t1))); [exact Hty1|by split|lia|]|].
  - simpl typed. rewrite Ht1. rewrite (proj2 (Z.eqb_neq (Z.of_nat n) size)) by lia. exact Er.
  - intros p s2 (-> & Hc2 & Ht2). split; [|done]. rewrite <- app_assoc. f_equal. simpl length. lia.
Qed.

Lemma wp_read size t s l t' bs :
  Forall (Forall (fun c => -128 <= c < 128)) (typed s) -> con t s ->
  tty_read (Z.to_nat size) true t (typed s) = Some (l, t', bs) -> 0 <= size ->
  wp (console_read size) (fun p s' => p = (Z.of_nat (length l), l) /\ con t' s' /\ typed s' = bs) s.
Proof.
  intros Hty Hcon Hrd Hsz. unfold console_read. wp_step. eapply wp_mono.
  - pose proof (wp_read_loop size (Z.to_nat size) [] t s l t' bs Hty Hcon) as H. rewrite Z2Nat.id in H by lia.
    apply H; [lia|]. by rewrite Z.eqb_refl.
  - intros p s' (-> & Hc & Ht). wp_step. simpl. split; [f_equal; lia|done].
Qed.

(** A committed line is read whatever the ring holds behind it. *)
Lemma tty_read_line l rest ed n first bs :
  Forall (fun c => c <> LF /\ c <> CTRL_D) l -> (length l < n)%nat ->
  tty_read n first (mkTty (l ++ LF :: rest) ed) bs = Some (l ++ [LF], mkTty rest ed, bs).
Proof.
  intros Hl. revert n first. induction Hl as [|c l [Hc1 Hc2] Hl IH]; intros [|n] first Hn; cbn [length] in Hn; try lia.
  - simpl. by destruct bs.
  - cbn [tty_read]. assert (Hw : forall t, committed t = (c :: l) ++ LF :: rest -> tty_wait t bs = Some (t, bs)).
    { intros t Ht. destruct bs; simpl; by rewrite Ht. }
    rewrite Hw by done. cbn [committed edit app]. rewrite (proj2 (Z.eqb_neq _ _) Hc1), (proj2 (Z.eqb_neq _ _) Hc2).
    rewrite IH by lia. done.
Qed.

(** A character that is stored as it is. *)
Definition plain (c : Z) : Prop :=
  -128 <= c < 128 /\ c <> 0 /\ c <> LF /\ c <> CR /\ c <> CTRL_D /\ c <> CTRL_U /\ c <> CTRL_H /\ c <> DEL.

Lemma tty_store_plain c t : plain c -> tty_len t + 1 < BUF_LEN -> tty_store c t = mkTty (committed t) (edit t ++ [c]).
Proof.
  intros (_ & H0 & H1 & H2 & H3 & H4 & H5 & H6) Hlen. unfold tty_store.
  rewrite (proj2 (Z.eqb_neq c CTRL_U) H4), (proj2 (Z.eqb_neq c CTRL_H) H5), (proj2 (Z.eqb_neq c DEL) H6), (proj2 (Z.eqb_neq c 0) H0).
  rewrite (proj2 (Z.leb_gt BUF_LEN (tty_len t))) by lia. cbn [orb].
  rewrite (proj2 (Z.eqb_neq c CR) H2), (proj2 (Z.eqb_neq c LF) H1), (proj2 (Z.eqb_neq c CTRL_D) H3).
  rewrite (proj2 (Z.eqb_neq (tty_len t + 1) BUF_LEN)) by lia. done.
Qed.

Lemma tty_stores_plain l t : Forall plain l -> tty_len t + Z.of_nat (length l) < BUF_LEN ->
  tty_stores l t = mkTty (committed t) (edit t ++ l).
Proof.
  intros Hl. revert t. induction Hl as [|c l Hc Hl IH]; intros t Hlen; simpl; [by rewrite app_nil_r, tty_eta|].
  cbn [length] in Hlen. rewrite tty_store_plain by (done || lia). rewrite IH.
  - cbn [committed edit]. by rewrite <- app_assoc.
  - rewrite tty_len_add in *. cbn [committed edit]. rewrite length_app. cbn [length]. lia.
Qed.

Lemma tty_stores_app l1 l2 t : tty_stores (l1 ++ l2) t = tty_stores l2 (tty_stores l1 t).
Proof. revert t. induction l1; intros t; simpl; [done|auto]. Qed.

(** ** Writing *)

Lemma wp_outs l s : dev_ok (dev s) ->
  wp (outs console_putc l) (fun _ s' => inp s' = inp s /\ typed s' = typed s /\ dev_ok (dev s') /\
    uart (dev s') = out_add (flat_map putc_bytes l) (dev s)) s.
Proof.
  revert s. induction l as [|c l IH]; intros s Hok; simpl.
  - wp_step. do 3 (split; [done|]). apply out_add_nil.
  - wp_step. apply wp_console_putc; [done|]. intros d' Hd' Eu. eapply wp_mono; [by apply IH|].
    intros _ s' (E1 & E2 & E3 & E4). do 3 (split; [done|]). rewrite E4. by apply (out_add_app _ _ _ _ Eu).
Qed.
