(* ===== verification/Keyboard.v ===== *)
(** * Keyboard interrupt handler (kernel/drivers/keyboard.c)

    The handler keeps the modifiers in the static variable [shift] and turns a
    scan code into a character for the console. *)

From stdpp Require Import prelude list.
From Stdlib Require Import ZArith Lia.
From S2P Require Import Prelude Printf Console ConsoleSpec.

Definition KB_DIB : Z := 1.
Definition NO : Z := 0.
Definition SHIFT : Z := 1.
Definition CTL : Z := 2.
Definition ALT : Z := 4.
Definition CAPSLOCK : Z := 8.
Definition NUMLOCK : Z := 16.
Definition SCROLLLOCK : Z := 32.
Definition E0ESC : Z := 64.
Definition KEY_HOME : Z := 224.
Definition KEY_END : Z := 225.
Definition KEY_UP : Z := 226.
Definition KEY_DN : Z := 227.
Definition KEY_LF : Z := 228.
Definition KEY_RT : Z := 229.
Definition KEY_PGUP : Z := 230.
Definition KEY_PGDN : Z := 231.
Definition KEY_INS : Z := 232.
Definition KEY_DEL : Z := 233.

(** A table of 256 bytes: the first entries, then designated ones. *)
Definition table256 (l : list Z) (des : list (nat * Z)) : list Z :=
  foldl (fun t '(i, v) => <[i := v]> t) (take 256 (l ++ replicate 256 NO)) des.

Definition shiftcode : list Z := table256 [] [(29%nat, CTL); (42%nat, SHIFT); (54%nat, SHIFT); (56%nat, ALT); (157%nat, CTL); (184%nat, ALT)].
Definition togglecode : list Z := table256 [] [(58%nat, CAPSLOCK); (69%nat, NUMLOCK); (70%nat, SCROLLLOCK)].

Definition keypad (enter div : Z) : list (nat * Z) :=
  [(156%nat, enter); (181%nat, div); (200%nat, KEY_UP); (208%nat, KEY_DN); (201%nat, KEY_PGUP); (209%nat, KEY_PGDN);
   (203%nat, KEY_LF); (205%nat, KEY_RT); (151%nat, KEY_HOME); (207%nat, KEY_END); (210%nat, KEY_INS); (211%nat, KEY_DEL)].

Definition normalmap : list Z := table256
  [NO; 27; 49; 50; 51; 52; 53; 54; 55; 56; 57; 48; 45; 61; 8; 9;
   113; 119; 101; 114; 116; 121; 117; 105; 111; 112; 91; 93; 10; NO; 97; 115;
   100; 102; 103; 104; 106; 107; 108; 59; 39; 96; NO; 92; 122; 120; 99; 118;
   98; 110; 109; 44; 46; 47; NO; 42; NO; 32; NO; NO; NO; NO; NO; NO;
   NO; NO; NO; NO; NO; NO; NO; 55; 56; 57; 45; 52; 53; 54; 43; 49;
   50; 51; 48; 46; NO; NO; NO; NO] (keypad 10 47).

Definition shiftmap : list Z := table256
  [NO; 27; 33; 64; 35; 36; 37; 94; 38; 42; 40; 41; 95; 43; 8; 9;
   81; 87; 69; 82; 84; 89; 85; 73; 79; 80; 123; 125; 10; NO; 65; 83;
   68; 70; 71; 72; 74; 75; 76; 58; 34; 126; NO; 124; 90; 88; 67; 86;
   66; 78; 77; 60; 62; 63; NO; 42; NO; 32; NO; NO; NO; NO; NO; NO;
   NO; NO; NO; NO; NO; NO; NO; 55; 56; 57; 45; 52; 53; 54; 43; 49;
   50; 51; 48; 46; NO; NO; NO; NO] (keypad 10 47).

(** C('/') is negative and is stored as a byte. *)
Definition ctlmap : list Z := table256
  [NO; NO; NO; NO; NO; NO; NO; NO; NO; NO; NO; NO; NO; NO; NO; NO;
   Ctl 81; Ctl 87; Ctl 69; Ctl 82; Ctl 84; Ctl 89; Ctl 85; Ctl 73; Ctl 79; Ctl 80; NO; NO; CR; NO; Ctl 65; Ctl 83;
   Ctl 68; Ctl 70; Ctl 71; Ctl 72; Ctl 74; Ctl 75; Ctl 76; NO; NO; NO; NO; Ctl 92; Ctl 90; Ctl 88; Ctl 67; Ctl 86;
   Ctl 66; Ctl 78; Ctl 77; NO; NO; u8 (Ctl 47); NO; NO] (keypad CR (u8 (Ctl 47))).

Definition charcode : list (list Z) := [normalmap; shiftmap; ctlmap; ctlmap].

(** The modifiers after a scan code and the character it stands for; 0 for
    none. *)
Definition decode (shift data : Z) : option (Z * Z) :=
  if data =? 224 then Some (Z.lor shift E0ESC, 0)
  else if negb (Z.land data 128 =? 0) then
    let data := if negb (Z.land shift E0ESC =? 0) then data else Z.land data 127 in
    match shiftcode !! Z.to_nat data with
    | None => None
    | Some m => Some (Z.land shift (u32 (Z.lnot (Z.lor m E0ESC))), 0)
    end
  else
    let '(shift, data) :=
      if negb (Z.land shift E0ESC =? 0) then (Z.land shift (u32 (Z.lnot E0ESC)), Z.lor data 128) else (shift, data) in
    match shiftcode !! Z.to_nat data, togglecode !! Z.to_nat data with
    | Some m, Some t =>
        let shift := Z.lxor (Z.lor shift m) t in
        match charcode !! Z.to_nat (Z.land shift (Z.lor CTL SHIFT)) with
        | None => None
        | Some map =>
            match map !! Z.to_nat data with
            | None => None
            | Some c =>
                let c :=
                  if negb (Z.land shift CAPSLOCK =? 0) then
                    if (97 <=? c) && (c <=? 122) then u32 (c + (65 - 97))
                    else if (65 <=? c) && (c <=? 90) then u32 (c + (97 - 65)) else c
                  else c in
                Some (shift, c)
            end
        end
    | _, _ => None
    end.

(** The handler: [st] and [data] are the two bytes it reads from KB_STATUS. *)
Definition keyboard_input_handler (shift st data : Z) : M console Z :=
  if Z.land st KB_DIB =? 0 then ret shift
  else
    match decode shift data with
    | None => stop BadAccess
    | Some (shift', c) => console_storec (i8 c);; ret shift'
    end.

(** ** The handler stays inside its tables *)

Lemma decode_total shift data : 0 <= shift < 128 -> 0 <= data < 256 ->
  exists shift' c, decode shift data = Some (shift', c) /\ 0 <= shift' < 128 /\ 0 <= c < 256.
Proof.
  intros Hs Hd.
  assert (HF : Forall (fun s => Forall (fun d => match decode s d with
      | Some (s', c) => (0 <=? s') && (s' <? 128) && (0 <=? c) && (c <? 256) | None => false end = true) (seqZ 0 256)) (seqZ 0 128)).
  { eapply Forall_forall. intros s Hs'. apply Forall_forall. intros d Hd'. revert s Hs' d Hd'.
    assert (Hb : forallb (fun s => forallb (fun d => match decode s d with
      | Some (s', c) => (0 <=? s') && (s' <? 128) && (0 <=? c) && (c <? 256) | None => false end) (seqZ 0 256)) (seqZ 0 128) = true)
      by (vm_compute; reflexivity).
    intros s Hs' d Hd'. rewrite forallb_forall in Hb. specialize (Hb s). rewrite <- list_elem_of_In in Hb. specialize (Hb Hs').
    rewrite forallb_forall in Hb. specialize (Hb d). rewrite <- list_elem_of_In in Hb. exact (Hb Hd'). }
  rewrite Forall_forall in HF. specialize (HF shift ltac:(apply elem_of_seqZ; lia)). rewrite Forall_forall in HF.
  specialize (HF data ltac:(apply elem_of_seqZ; lia)). destruct (decode shift data) as [[s' c]|]; [|done].
  exists s', c. split; [done|]. rewrite !andb_true_iff, !Z.leb_le, !Z.ltb_lt in HF. lia.
Qed.

(** The letter keys: without modifiers a letter, with shift or caps lock its
    capital, with both the letter again, with control its control character. *)
Lemma decode_letter shift data c : 0 <= shift < 64 -> 0 <= data < 128 -> normalmap !! Z.to_nat data = Some c -> 97 <= c <= 122 ->
  decode shift data = Some (shift,
    if negb (Z.land shift CTL =? 0) then c - 96
    else if xorb (negb (Z.land shift SHIFT =? 0)) (negb (Z.land shift CAPSLOCK =? 0)) then c - 32 else c).
Proof.
  intros Hs Hd. revert c.
  assert (Hb : forallb (fun s => forallb (fun d => match normalmap !! Z.to_nat d with
      | Some c => if (97 <=? c) && (c <=? 122) then bool_decide (decode s d = Some (s,
          if negb (Z.land s CTL =? 0) then c - 96
          else if xorb (negb (Z.land s SHIFT =? 0)) (negb (Z.land s CAPSLOCK =? 0)) then c - 32 else c)) else true
      | None => true end) (seqZ 0 128)) (seqZ 0 64) = true) by (vm_compute; reflexivity).
  intros c Hc Hlet. rewrite forallb_forall in Hb. specialize (Hb shift). rewrite <- list_elem_of_In, elem_of_seqZ in Hb.
  specialize (Hb ltac:(lia)). rewrite forallb_forall in Hb. specialize (Hb data). rewrite <- list_elem_of_In, elem_of_seqZ in Hb.
  specialize (Hb ltac:(lia)). rewrite Hc in Hb. rewrite (proj2 (Z.leb_le 97 c)), (proj2 (Z.leb_le c 122)) in Hb by lia.
  exact (bool_decide_eq_true_1 _ Hb).
Qed.

(** The keyboard handler is total and only talks to the console through
    the line discipline: whatever bytes it reads, it stays inside its tables,
    keeps the modifiers in 7 bits, and either ignores the interrupt or feeds
    one character to the terminal; a letter key gives the letter, its capital
    under exactly one of shift and caps lock, its control character under
    control. *)
Theorem keyboard_input_handler_spec shift st data t s :
  0 <= shift < 128 -> 0 <= data < 256 -> con t s ->
  wp (keyboard_input_handler shift st data) (fun shift' s' => 0 <= shift' < 128 /\ typed s' = typed s /\
    if Z.land st KB_DIB =? 0 then shift' = shift /\ con t s'
    else exists c, con (tty_store (i8 c) t) s' /\
      (shift < 64 -> data < 128 -> forall a, normalmap !! Z.to_nat data = Some a -> 97 <= a <= 122 ->
        c = if negb (Z.land shift CTL =? 0) then a - 96
            else if xorb (negb (Z.land shift SHIFT =? 0)) (negb (Z.land shift CAPSLOCK =? 0)) then a - 32 else a)) s.
Proof.
  intros Hs Hd Hcon. unfold keyboard_input_handler. destruct (Z.land st KB_DIB =? 0); [by wp_step|].
  destruct (decode_total shift data Hs Hd) as (shift' & c & Hdec & Hs' & Hc). rewrite Hdec. wp_step.
  eapply wp_mono; [apply (wp_storec (i8 c) t); [apply (wraps_bound 8); lia|done]|]. intros _ s' (Hcon' & Hty & _). wp_step.
  split; [done|]. split; [done|]. exists c. split; [done|]. intros H1 H2 a Ha Hlet.
  rewrite (decode_letter shift data a) in Hdec by (done || lia). by injection Hdec.
Qed.
