(* ===== verification/ConsoleClaims.v ===== *)
(** * Console: properties *)

From stdpp Require Import prelude list.
From Stdlib Require Import ZArith Lia.
From S2P Require Import Prelude Printf Console ConsoleSpec Keyboard.

(** C35 console_storec implements the line discipline of a buffer that is not
    full: whatever the three wrapping indices are, a typed character turns the
    ring that holds the terminal [t] (characters a reader may take, line being
    edited) into one that holds [tty_store c t]: ^U erases the edited line and
    nothing a reader may take, backspace its last character, a line end, ^D or
    the character that fills the ring commits it; the serial line shows
    [tty_echo c t], no other field changes and no access is out of bounds.  What
    a full buffer does is [console_full_drops]. *)
Theorem console_storec_spec c t s : -128 <= c < 128 -> con t s -> tty_len t < BUF_LEN ->
  wp (console_storec c) (fun _ s' => con (tty_store c t) s' /\ typed s' = typed s /\
    uart (dev s') = out_add (tty_echo c t) (dev s)) s.
Proof. intros ? ? _. by apply wp_storec. Qed.

(** A character that finds the buffer full is dropped without an echo, where
    console.h says that it overwrites the stale entry. *)
Theorem console_full_drops c t s : -128 <= c < 128 -> con t s -> tty_len t = BUF_LEN -> c <> CTRL_U -> c <> CTRL_H -> c <> DEL ->
  wp (console_storec c) (fun _ s' => con t s' /\ uart (dev s') = out_add [] (dev s)) s.
Proof.
  intros Hc Ht Hf H1 H2 H3. eapply wp_mono; [by apply (wp_storec c t)|]. intros [] s' (Hcon & _ & Hu). unfold tty_store, tty_echo in *.
  rewrite (proj2 (Z.eqb_neq c CTRL_U) H1), (proj2 (Z.eqb_neq c CTRL_H) H2), (proj2 (Z.eqb_neq c DEL) H3), (proj2 (Z.leb_le BUF_LEN _)) in * by lia.
  by rewrite orb_true_r in *.
Qed.

(** C36 A line that is typed while console_read waits is what it returns: from
    an empty ring at any index, the characters [l] and a carriage return give
    the reader [l] and a line end, provided the line fits the ring and the
    buffer, and leave the ring empty; later input is not consumed. *)
Theorem console_line_roundtrip l size later s :
  Forall plain l -> Z.of_nat (length l) + 1 < BUF_LEN -> Z.of_nat (length l) + 1 <= size ->
  con (mkTty [] []) s -> typed s = (l ++ [CR]) :: later -> Forall (Forall (fun c => -128 <= c < 128)) later ->
  wp (console_read size) (fun p s' => p = (Z.of_nat (length l) + 1, l ++ [LF]) /\ con (mkTty [] []) s' /\ typed s' = later) s.
Proof.
  intros Hl Hfit Hsz Hcon Hty Hlater. eapply wp_mono; [apply (wp_read size (mkTty [] []) s (l ++ [LF]) (mkTty [] []) later)|].
  - rewrite Hty. constructor; [|done]. apply Forall_app. split; [|repeat constructor; unfold CR; lia].
    eapply Forall_impl; [exact Hl|]. by intros c [? _].
  - done.
  - assert (Hw : tty_wait (mkTty [] []) (typed s) = tty_wait (mkTty (l ++ [LF]) []) later).
    { rewrite Hty. cbn [tty_wait committed]. rewrite tty_stores_app, (tty_stores_plain l) by (done || (unfold tty_len; cbn [committed edit length]; unfold BUF_LEN in *; lia)).
      cbn [tty_stores committed edit app]. unfold tty_store. cbn [committed edit app].
      rewrite (proj2 (Z.leb_gt BUF_LEN _)) by (unfold tty_len; cbn [committed edit length]; unfold BUF_LEN in *; lia). done. }
    destruct (Z.to_nat size) as [|n] eqn:En; [lia|]. pose proof (tty_read_line l [] [] (S n) true later) as Hrl.
    cbn [tty_read] in *. rewrite Hw.
    assert (Hw2 : tty_wait (mkTty (l ++ [LF]) []) later = Some (mkTty (l ++ [LF]) [], later)) by (destruct l, later; done).
    rewrite Hw2 in *. apply Hrl; [|lia]. eapply Forall_impl; [exact Hl|]. intros c Hc. unfold plain in Hc. tauto.
  - lia.
  - intros p s' (-> & Hc & Ht). split; [|done]. rewrite length_app. cbn [length]. f_equal. lia.
Qed.

(** Console_read returns what the abstract terminal gives a reader: the
    characters up to a line end, a ^D (which is left for the next call unless
    it comes first) or [size], waiting for input whenever nothing is committed;
    [tty_read] is [None] only for a reader that waits forever. *)
Theorem console_read_spec size t s l t' bs :
  Forall (Forall (fun c => -128 <= c < 128)) (typed s) -> con t s ->
  tty_read (Z.to_nat size) true t (typed s) = Some (l, t', bs) -> 0 <= size ->
  wp (console_read size) (fun p s' => p = (Z.of_nat (length l), l) /\ con t' s' /\ typed s' = bs) s.
Proof. apply wp_read. Qed.

(** C37 kprintf sends the text of its format: for a format made of characters
    and the conversions d, u, x, s and percent with their arguments, the serial
    line receives exactly the characters and the texts of the arguments, in
    order, the digit buffers are large enough and the screen is not left; and
    the text of an unsigned argument is its decimal representation. *)
Theorem kprintf_spec ps s : Forall piece_ok ps -> dev_ok (dev s) ->
  wp (kprintf (flat_map piece_fmt ps) (flat_map piece_args ps)) (fun _ s' =>
    inp s' = inp s /\ typed s' = typed s /\ dev_ok (dev s') /\
    uart (dev s') = out_add (flat_map putc_bytes (flat_map piece_text ps)) (dev s)) s /\
  forall v, Uns v ∈ ps -> parse 10 (piece_text (Uns v)) = u32 v.
Proof.
  intros Hps Hok. split.
  - unfold kprintf. destruct (wp_outs (flat_map piece_text ps) s Hok) as (a & s' & Hrun & HQ).
    exists a, s'. split; [|exact HQ]. by rewrite format_pieces.
  - intros v _. apply num_str_parse; [lia| |done]. pose proof (wrapu_bound 32 v ltac:(lia)).
    assert (2 ^ 32 < 10 ^ 64) by done. lia.
Qed.

(** A console whose indices are about to wrap and whose screen is about to
    scroll. *)
Definition demo_con (batches : list (list Z)) : console :=
  mkCon (mkIn (replicate 256 0) (2 ^ 32 - 2) (2 ^ 32 - 2) (2 ^ 32 - 2)) (mkDev (Some []) (Some (replicate 2000 0)) 1999) batches.

Lemma demo_con_ok batches : con (mkTty [] []) (demo_con batches).
Proof.
  split; [split|]; try done. by apply not_elem_of_nil.
Qed.

(** "hi" *)
Lemma console_storec_spec_witness : -128 <= 104 < 128 /\ con (mkTty [] []) (demo_con []) /\
  wp (console_storec 104) (fun _ s' => con (tty_store 104 (mkTty [] [])) s' /\ typed s' = typed (demo_con []) /\
    uart (dev s') = out_add (tty_echo 104 (mkTty [] [])) (dev (demo_con []))) (demo_con []).
Proof.
  split; [lia|]. split; [apply demo_con_ok|]. apply (console_storec_spec 104 (mkTty [] []) (demo_con [])); [lia|apply demo_con_ok|done].
Defined.

Lemma plain_hi : Forall plain [104; 105].
Proof. unfold plain, LF, CR, CTRL_D, CTRL_U, CTRL_H, DEL, Ctl. repeat constructor; lia. Qed.

Lemma console_line_roundtrip_witness :
  wp (console_read 80) (fun p s' => p = (3, [104; 105; 10]) /\ con (mkTty [] []) s' /\ typed s' = []) (demo_con [[104; 105; 13]]).
Proof.
  apply (console_line_roundtrip [104; 105] 80 [] (demo_con [[104; 105; 13]])).
  - exact plain_hi.
  - reflexivity.
  - discriminate.
  - apply demo_con_ok.
  - reflexivity.
  - constructor.
Defined.

(** ^D after a character ends the read and stays for the next one. *)
Lemma console_read_spec_witness :
  wp (console_read 80) (fun p s' => p = (1, [104]) /\ con (mkTty [CTRL_D] []) s' /\ typed s' = []) (demo_con [[104; 4]]).
Proof.
  apply (console_read_spec 80 (mkTty [] []) (demo_con [[104; 4]]) [104] (mkTty [CTRL_D] []) []).
  - repeat constructor; lia.
  - apply demo_con_ok.
  - vm_compute. reflexivity.
  - lia.
Defined.

(** "n=%u" of 42 *)
Lemma kprintf_spec_witness : Forall piece_ok [Lit 110; Lit 61; Uns 42] /\ dev_ok (dev (demo_con [])) /\
  (wp (kprintf [110; 61; 37; 117] [AInt 42]) (fun _ s' =>
    inp s' = inp (demo_con []) /\ typed s' = typed (demo_con []) /\ dev_ok (dev s') /\
    uart (dev s') = Some [110; 61; 52; 50]) (demo_con []) /\
  (forall v, Uns v ∈ [Lit 110; Lit 61; Uns 42] -> parse 10 (piece_text (Uns v)) = u32 v)).
Proof.
  assert (Hps : Forall piece_ok [Lit 110; Lit 61; Uns 42]) by (repeat constructor; discriminate).
  assert (Hok : dev_ok (dev (demo_con []))) by (split; [vm_compute; reflexivity|simpl; lia]).
  exact (conj Hps (conj Hok (kprintf_spec [Lit 110; Lit 61; Uns 42] (demo_con []) Hps Hok))).
Defined.

(** The key a, caps lock on. *)
Lemma keyboard_input_handler_spec_witness : con (mkTty [] []) (demo_con []) /\
  wp (keyboard_input_handler CAPSLOCK 1 30) (fun shift' s' => 0 <= shift' < 128 /\ typed s' = [] /\
    exists c, con (tty_store (i8 c) (mkTty [] [])) s' /\
      (CAPSLOCK < 64 -> 30 < 128 -> forall a, normalmap !! Z.to_nat 30 = Some a -> 97 <= a <= 122 ->
        c = if negb (Z.land CAPSLOCK CTL =? 0) then a - 96
            else if xorb (negb (Z.land CAPSLOCK SHIFT =? 0)) (negb (Z.land CAPSLOCK CAPSLOCK =? 0)) then a - 32 else a)) (demo_con []).
Proof.
  split; [apply demo_con_ok|].
  apply (keyboard_input_handler_spec CAPSLOCK 1 30 (mkTty [] []) (demo_con [])); [unfold CAPSLOCK; lia|lia|apply demo_con_ok].
Defined.
