(* ===== verification/Kmalloc.v ===== *)
(** * Kernel memory allocator (kernel/mm/kmalloc.c, include/kernel/kmalloc.h)

    Slab allocation of fixed-size objects on top of the page allocator.
    [struct slab] and [struct kmem_cache] are kept by address; the free-index
    array that follows a slab header is the list [sl_freearr].  A slab's
    [node] is its membership in one of the lists of one of the caches.  The
    contents of objects belong to their clients; here only the fill with
    0x2b is recorded ([k_fill]: object address -> (byte, length)). *)

From stdpp Require Import prelude list gmap.
From Stdlib Require Import ZArith Lia.
From S2P Require Import Prelude Mmu Bits Pmem DList.

Record slab := mkSlab {
  sl_objs : Z;
  sl_free : Z;
  sl_n_pages : Z;
  sl_freearr : list Z
}.

Record kmem_cache := mkCache {
  kc_full : list Z;
  kc_free : list Z;
  kc_lock : bool;
  kc_obj_size : Z
}.

Record kstate := mkK {
  k_pmem : pmem;
  k_slabs : gmap Z slab;
  k_caches : gmap Z kmem_cache;
  k_fill : gmap Z (Z * Z);
  k_allocators : list (Z * Z)
}.

Definition set_pmem (v : pmem) (s : kstate) : kstate :=
  mkK v (k_slabs s) (k_caches s) (k_fill s) (k_allocators s).
Definition set_slabs (v : gmap Z slab) (s : kstate) : kstate :=
  mkK (k_pmem s) v (k_caches s) (k_fill s) (k_allocators s).
Definition set_caches (v : gmap Z kmem_cache) (s : kstate) : kstate :=
  mkK (k_pmem s) (k_slabs s) v (k_fill s) (k_allocators s).
Definition set_fill (v : gmap Z (Z * Z)) (s : kstate) : kstate :=
  mkK (k_pmem s) (k_slabs s) (k_caches s) v (k_allocators s).
Definition set_allocators (v : list (Z * Z)) (s : kstate) : kstate :=
  mkK (k_pmem s) (k_slabs s) (k_caches s) (k_fill s) v.

Definition MIN_OBJS_PER_SLAB : Z := 128.
(** sizeof of the two structures with the x86-64 layout. *)
Definition SIZEOF_SLAB : Z := 40.
Definition SIZEOF_INT : Z := 4.
Definition SIZEOF_KMEM_CACHE : Z := 104.
(** The address of the static [allocator_cache]. *)
Definition allocator_cache : Z := 0xFFFFFFFF80200000.
Definition kmalloc_sizes : list Z := [32; 64; 128; 256; 512; 1024; 2048; 4096].

Definition on_pmem {A} (m : M pmem A) : M kstate A := zoom k_pmem set_pmem m.
Definition get_slab (a : Z) : M kstate slab := o <- gets (fun s => k_slabs s !! a);; deref o.
Definition put_slab (a : Z) (sl : slab) : M kstate unit :=
  modify (fun s => set_slabs (<[a := sl]> (k_slabs s)) s).
Definition get_cache (a : Z) : M kstate kmem_cache := o <- gets (fun s => k_caches s !! a);; deref o.
Definition put_cache (a : Z) (c : kmem_cache) : M kstate unit :=
  modify (fun s => set_caches (<[a := c]> (k_caches s)) s).
(** [memset(obj, 0x2b, n)] of a whole object. *)
Definition memset_obj (obj c n : Z) : M kstate unit :=
  modify (fun s => set_fill (<[obj := (c, n)]> (k_fill s)) s).

Definition lock_cache (a : Z) : M kstate unit :=
  c <- get_cache a;;
  if kc_lock c then panic else put_cache a (mkCache (kc_full c) (kc_free c) true (kc_obj_size c)).
Definition unlock_cache (a : Z) : M kstate unit :=
  c <- get_cache a;; put_cache a (mkCache (kc_full c) (kc_free c) false (kc_obj_size c)).

(** The list operations on [&slab->node]. *)
Definition append_full (a v : Z) : M kstate unit :=
  c <- get_cache a;; put_cache a (mkCache (kc_full c ++ [v]) (kc_free c) (kc_lock c) (kc_obj_size c)).
Definition append_free (a v : Z) : M kstate unit :=
  c <- get_cache a;; put_cache a (mkCache (kc_full c) (kc_free c ++ [v]) (kc_lock c) (kc_obj_size c)).
Definition without (v : Z) (c : kmem_cache) : kmem_cache :=
  mkCache (filter (fun x => x ≠ v) (kc_full c)) (filter (fun x => x ≠ v) (kc_free c))
          (kc_lock c) (kc_obj_size c).
(** [list_remove(&slab->node)]: unlinks the slab from the list it is in. *)
Definition unlink_slab (v : Z) : M kstate unit :=
  cs <- gets k_caches;;
  if bool_decide (map_Exists (fun _ c => v ∈ kc_full c \/ v ∈ kc_free c) cs)
  then modify (set_caches (without v <$> cs))
  else stop BadAccess.

Definition slab_pages (obj_size : Z) : Z :=
  pg_round_up (SIZEOF_SLAB + (obj_size + SIZEOF_INT) * MIN_OBJS_PER_SLAB) / pg_size.
Definition slab_objs (obj_size : Z) : Z :=
  (slab_pages obj_size * pg_size - SIZEOF_SLAB) / (obj_size + SIZEOF_INT).
(** The free-index array of a new slab: 1, 2, ..., n-1, -1. *)
Definition init_freearr (n : Z) : list Z :=
  ((fun i => Z.of_nat i + 1) <$> seq 0 (Z.to_nat n - 1)) ++ [-1].

(** ** kmalloc.c *)

Definition slab_create (kmem_cache : Z) : M kstate Z :=
  kassert (nonnull kmem_cache);;
  c <- get_cache kmem_cache;;
  kassert (0 <? kc_obj_size c);;
  let n_pages := slab_pages (kc_obj_size c) in
  r <- on_pmem (pmem_nalloc n_pages);;
  match r with
  | inr _ => ret NULL
  | inl paddr =>
      let n_objs := slab_objs (kc_obj_size c) in
      kassert (MIN_OBJS_PER_SLAB <=? n_objs);;
      let slab := KMAP_P2V paddr in
      kassert (nonnull slab);;
      (* link allocator and slab into each allocated page's page structure *)
      for_ (Z.to_nat n_pages) 0 (fun i =>
        on_pmem (upd_page (paddr_to_page (paddr + i * pg_size)) (set_slab kmem_cache slab)));;
      put_slab slab (mkSlab (u64 (slab + SIZEOF_SLAB + SIZEOF_INT * n_objs)) 0 n_pages
                            (init_freearr n_objs));;
      append_free kmem_cache slab;;
      ret slab
  end.

Definition slab_destroy (slab : Z) : M kstate unit :=
  kassert (nonnull slab);;
  sl <- get_slab slab;;
  paddr <- on_pmem (kmap_v2p slab);;
  on_pmem (pmem_nfree paddr (sl_n_pages sl)).

(** The loop takes the first slab until the list is empty. *)
Definition slab_list_destroy (lst : kstate -> option (list Z)) : M kstate unit :=
  l0 <- gets lst;;
  l0 <- deref l0;;
  loop (S (length l0)) (fun _ =>
    l <- gets lst;;
    l <- deref l;;
    match l with
    | [] => ret (inr tt)
    | curr :: _ => unlink_slab curr;; slab_destroy curr;; ret (inl tt)
    end) tt.

Definition kmem_cache_alloc (kmem_cache : Z) : M kstate Z :=
  kassert (nonnull kmem_cache);;
  lock_cache kmem_cache;;
  c <- get_cache kmem_cache;;
  slab <- match kc_free c with
          | [] => slab_create kmem_cache
          | slab :: _ => ret slab
          end;;
  if slab =? NULL then unlock_cache kmem_cache;; ret NULL
  else
    sl <- get_slab slab;;
    kassert (negb (sl_free sl =? -1));;
    let obj := u64 (sl_objs sl + kc_obj_size c * sl_free sl) in
    next <- deref (sl_freearr sl !! Z.to_nat (sl_free sl));;
    put_slab slab (mkSlab (sl_objs sl) next (sl_n_pages sl) (sl_freearr sl));;
    (if next =? -1 then unlink_slab slab;; append_full kmem_cache slab else ret tt);;
    unlock_cache kmem_cache;;
    memset_obj obj 0x2b (kc_obj_size c);;
    ret obj.

Definition kmem_cache_free (kmem_cache obj : Z) : M kstate unit :=
  kassert (nonnull kmem_cache);;
  lock_cache kmem_cache;;
  c <- get_cache kmem_cache;;
  memset_obj obj 0x2b (kc_obj_size c);;
  paddr <- on_pmem (kmap_v2p obj);;
  page <- on_pmem (get_page (paddr_to_page paddr));;
  let slab := page_slab page in
  kassert (nonnull slab);;
  sl <- get_slab slab;;
  let full := sl_free sl =? -1 in
  let index := i32 (u64 (obj - sl_objs sl) / kc_obj_size c) in
  _ <- deref (sl_freearr sl !! Z.to_nat index);;
  put_slab slab (mkSlab (sl_objs sl) index (sl_n_pages sl)
                        (<[Z.to_nat index := sl_free sl]> (sl_freearr sl)));;
  (if (full : bool) then unlink_slab slab;; append_free kmem_cache slab else ret tt);;
  unlock_cache kmem_cache.

Definition kmem_cache_create (size : Z) : M kstate Z :=
  kmem_cache <- kmem_cache_alloc allocator_cache;;
  if kmem_cache =? NULL then ret NULL
  else put_cache kmem_cache (mkCache [] [] false size);; ret kmem_cache.

Definition kmem_cache_destroy (kmem_cache : Z) : M kstate unit :=
  kassert (nonnull kmem_cache);;
  slab_list_destroy (fun s => kc_free <$> k_caches s !! kmem_cache);;
  slab_list_destroy (fun s => kc_full <$> k_caches s !! kmem_cache);;
  kmem_cache_free allocator_cache kmem_cache;;
  (* the object's bytes are overwritten: it is no cache any more *)
  modify (fun s => set_caches (delete kmem_cache (k_caches s)) s).

Definition kmalloc_init : M kstate unit :=
  put_cache allocator_cache (mkCache [] [] false SIZEOF_KMEM_CACHE);;
  modify (set_allocators []);;
  for_ (length kmalloc_sizes) 0 (fun i =>
    size <- deref (kmalloc_sizes !! Z.to_nat i);;
    c <- kmem_cache_create size;;
    if c =? NULL then panic
    else modify (fun s => set_allocators (k_allocators s ++ [(c, size)]) s)).

(** [N_ELEM(kmalloc_allocators) - 1] is the last entry. *)
Definition kmalloc (size : Z) : M kstate Z :=
  if size =? 0 then ret NULL
  else
    ka <- gets k_allocators;;
    big <- deref (List.last (Some <$> ka) None);;
    if snd big <? size then ret NULL
    else
      r <- for_ret (length ka) 0 (fun i =>
        e <- deref (ka !! Z.to_nat i);;
        if size <=? snd e then p <- kmem_cache_alloc (fst e);; ret (Some p) else ret None);;
      match r with Some p => ret p | None => panic end.

Definition kfree (ptr : Z) : M kstate unit :=
  paddr <- on_pmem (kmap_v2p ptr);;
  page <- on_pmem (get_page (paddr_to_page paddr));;
  kassert (nonnull (page_kmem_cache page));;
  kmem_cache_free (page_kmem_cache page) ptr.
