(* ===== verification/KmallocInv.v ===== *)
(** * The slab allocator: invariant and specification

    [kinv A F s]: every slab linked into a cache occupies a block of the page
    allocator ([A] is its abstract state), its pages point back to it, and
    its free-index array is a list of distinct free slots, recorded in
    [F : slab -> free slots].  A cache's full list holds exactly the slabs
    without free slots.  [live F s c x]: [x] is an allocated object of [c]. *)

From stdpp Require Import prelude list gmap.
From Stdlib Require Import ZArith Lia.
From S2P Require Import Prelude Mmu Bits Tiling Pmem PmemBuddy PmemSpec DList Kmalloc.

(** ** Geometry of a slab *)

(** The sizes for which a slab fits in the largest block. *)
Definition good_size (size : Z) : Prop := 0 < size <= 32000.

Lemma slab_geometry size : good_size size ->
  let np := slab_pages size in let n := slab_objs size in
  0 < np <= 2 ^ MAX_ORDER /\ 128 <= n <= 2 ^ 22 /\ SIZEOF_SLAB + SIZEOF_INT * n + size * n <= np * PG_SIZE.
Proof.
  intros Hs np n.
  assert (Hnp : 40 + (size + 4) * 128 <= np * 4096 <= 40 + (size + 4) * 128 + 4095).
  { unfold np, slab_pages, SIZEOF_SLAB, SIZEOF_INT, MIN_OBJS_PER_SLAB, good_size in *.
    rewrite pg_round_up_spec by (unfold PG_SIZE; lia).
    unfold pg_size, PG_SIZE. rewrite Z.div_mul by lia.
    pose proof (Z.div_mod (40 + (size + 4) * 128 + 4096 - 1) 4096).
    pose proof (Z.mod_pos_bound (40 + (size + 4) * 128 + 4096 - 1) 4096). lia. }
  unfold good_size in Hs.
  assert (Hn : (size + 4) * n <= np * 4096 - 40 < (size + 4) * n + (size + 4)).
  { unfold n, slab_objs. fold np. unfold SIZEOF_SLAB, SIZEOF_INT, pg_size, PG_SIZE.
    pose proof (Z.div_mod (np * 4096 - 40) (size + 4)).
    pose proof (Z.mod_pos_bound (np * 4096 - 40) (size + 4)). lia. }
  unfold SIZEOF_SLAB, SIZEOF_INT, PG_SIZE, MAX_ORDER. change (2 ^ 10) with 1024. change (2 ^ 22) with 4194304.
  split; [lia|]. split; [|lia]. nia.
Qed.

(** ** Free-index arrays *)

Fixpoint freelist (arr : list Z) (f : Z) (l : list Z) : Prop :=
  match l with
  | [] => f = -1
  | i :: l' => f = i /\ 0 <= i < Z.of_nat (length arr) /\
               exists g, arr !! Z.to_nat i = Some g /\ freelist arr g l'
  end.

Lemma freelist_bound arr f l i : freelist arr f l -> i ∈ l -> 0 <= i < Z.of_nat (length arr).
Proof.
  revert f. induction l as [|j l IH]; intros f; simpl; [by intros _ ?%elem_of_nil|].
  intros (-> & ? & g & _ & Hl) [->|?]%elem_of_cons; [done|by eapply IH].
Qed.

Lemma freelist_insert arr f l i v :
  freelist arr f l -> i ∉ l -> 0 <= i -> freelist (<[Z.to_nat i := v]> arr) f l.
Proof.
  revert f. induction l as [|j l IH]; intros f; simpl; [done|].
  intros (-> & ? & g & Hg & Hl) Hi Hi0. rewrite elem_of_cons in Hi. split; [done|].
  rewrite length_insert. split; [done|]. exists g. split; [|apply IH; tauto].
  rewrite list_lookup_insert_ne; [done|]. intros ?. apply Hi. left. lia.
Qed.

Lemma length_init_freearr n : 0 < n -> Z.of_nat (length (init_freearr n)) = n.
Proof. intros. unfold init_freearr. rewrite length_app, length_fmap, length_seq. simpl. lia. Qed.

Lemma lookup_init_freearr n i : 0 <= i < n ->
  init_freearr n !! Z.to_nat i = Some (if i =? n - 1 then -1 else i + 1).
Proof.
  intros. unfold init_freearr. destruct (Z.eqb_spec i (n - 1)).
  - rewrite lookup_app_r; rewrite length_fmap, length_seq; [|lia].
    by replace (Z.to_nat i - (Z.to_nat n - 1))%nat with 0%nat by lia.
  - rewrite lookup_app_l by (rewrite length_fmap, length_seq; lia).
    rewrite list_lookup_fmap, lookup_seq_lt by lia. simpl. f_equal. lia.
Qed.

Lemma freelist_init n : 0 < n -> freelist (init_freearr n) 0 (seqZ 0 n).
Proof.
  intros Hn.
  assert (H : forall k i, i + Z.of_nat k = n -> 0 <= i < n ->
            freelist (init_freearr n) i (seqZ i (Z.of_nat k))).
  { induction k as [|k IH]; intros i Hk Hi; [lia|].
    rewrite Nat2Z.inj_succ, seqZ_cons by lia. rewrite Z.pred_succ.
    simpl. split; [done|]. rewrite length_init_freearr by done. split; [done|].
    eexists. split; [by apply lookup_init_freearr|]. destruct (Z.eqb_spec i (n - 1)).
    - replace (Z.of_nat k) with 0 by lia. done.
    - rewrite <- Z.add_1_r. apply IH; lia. }
  rewrite <- (Z2Nat.id n) at 2 by lia. apply H; lia.
Qed.

(** ** The invariant *)

Definition in_cache (v : Z) (kc : kmem_cache) : Prop := v ∈ kc_full kc ++ kc_free kc.

(** Slab [v] of cache [c]: its block starts at page [h]. *)
Record slab_ok (A : gmap Z (Z * Z)) (P : pmem) (c size v : Z) (sl : slab) (fr : list Z) (h : Z) : Prop := {
  so_addr : v = KMAP_BASE + h * PG_SIZE;
  so_block : exists o r, A !! h = Some (o, r) /\ slab_pages size <= 2 ^ o;
  so_pages : sl_n_pages sl = slab_pages size;
  so_arr : Z.of_nat (length (sl_freearr sl)) = slab_objs size;
  so_objs : sl_objs sl = v + SIZEOF_SLAB + SIZEOF_INT * slab_objs size;
  so_back : forall i, 0 <= i < slab_pages size ->
              exists p, page_at (h + i) P = Some p /\ page_slab p = v /\ page_kmem_cache p = c;
  so_free : freelist (sl_freearr sl) (sl_free sl) fr;
  so_nodup : NoDup fr
}.

(** The page of the kernel image that holds the static [allocator_cache]: it
    is allocated for good and never a slab. *)
Definition static_page : Z := (allocator_cache - KMAP_BASE) / PG_SIZE.

Record kinv (A : gmap Z (Z * Z)) (F : gmap Z (list Z)) (s : kstate) : Prop := {
  ki_rep : buddy_rep A (k_pmem s);
  ki_init : pagemap_initialized (k_pmem s) = true;
  ki_lock : pmem_lock (k_pmem s) = false;
  ki_zero : is_Some (A !! 0);
  ki_end : npages (k_pmem s) * PG_SIZE <= pmem_end (k_pmem s) < 2 ^ 31;
  ki_cache : forall c kc, k_caches s !! c = Some kc ->
     c <> NULL /\ good_size (kc_obj_size kc) /\ NoDup (kc_full kc ++ kc_free kc) /\
     forall v, in_cache v kc -> exists sl fr h, k_slabs s !! v = Some sl /\ F !! v = Some fr /\
       slab_ok A (k_pmem s) c (kc_obj_size kc) v sl fr h /\ (v ∈ kc_full kc <-> fr = []);
  ki_uniq : forall c1 kc1 c2 kc2 v, k_caches s !! c1 = Some kc1 -> k_caches s !! c2 = Some kc2 ->
     in_cache v kc1 -> in_cache v kc2 -> c1 = c2;
  ki_static : exists r, A !! static_page = Some (0, r);
  ki_image : forall c kc v, k_caches s !! c = Some kc -> in_cache v kc ->
     v <> KMAP_BASE + static_page * PG_SIZE
}.

(** No cache is locked. *)
Definition unlocked (s : kstate) : Prop :=
  forall c kc, k_caches s !! c = Some kc -> kc_lock kc = false.

(** Slot [i] of slab [v], at address [x], belongs to cache [c]; it is taken
    when it is not in the slab's free list. *)
Definition slot (s : kstate) (c v i x : Z) : Prop :=
  exists kc sl, k_caches s !! c = Some kc /\ in_cache v kc /\ k_slabs s !! v = Some sl /\
    0 <= i < slab_objs (kc_obj_size kc) /\ x = sl_objs sl + kc_obj_size kc * i.
Definition taken (F : gmap Z (list Z)) (v i : Z) : Prop :=
  exists fr, F !! v = Some fr /\ i ∉ fr.
Definition live (F : gmap Z (list Z)) (s : kstate) (c x : Z) : Prop :=
  exists v i, slot s c v i x /\ taken F v i.

(** A slab lies in the direct map, inside its block. *)
Lemma slab_bounds A F s c size v sl fr h :
  kinv A F s -> slab_ok A (k_pmem s) c size v sl fr h -> good_size size ->
  0 <= h /\ h + slab_pages size <= npages (k_pmem s) /\ KMAP_BASE <= v /\
  v + slab_pages size * PG_SIZE <= KMAP_BASE + pmem_end (k_pmem s).
Proof.
  intros K S Hs. destruct (so_block _ _ _ _ _ _ _ _ S) as (o & r & HA & Hle).
  destruct (ki_rep _ _ _ K) as (B & I & HR). destruct (reps_allocd _ _ _ _ _ _ HR HA) as (p & (HB & _) & _).
  destruct (inv_blk _ _ _ _ _ I HB) as (_ & Hh & _ & Hend).
  rewrite (so_addr _ _ _ _ _ _ _ _ S). pose proof (ki_end _ _ _ K).
  unfold PG_SIZE in *. lia.
Qed.

(** Object [i] of a slab lies between its free array and its end. *)
Lemma obj_bounds A F s c size v sl fr h i :
  kinv A F s -> slab_ok A (k_pmem s) c size v sl fr h -> good_size size -> 0 <= i < slab_objs size ->
  let x := sl_objs sl + size * i in
  v < x /\ x + size <= v + slab_pages size * PG_SIZE /\
  KMAP_BASE <= x < KMAP_BASE + pmem_end (k_pmem s).
Proof.
  intros K S Hs Hi x. destruct (slab_bounds _ _ _ _ _ _ _ _ _ K S Hs) as (? & ? & ? & ?).
  destruct (slab_geometry size Hs) as (Hnp & Hn & Hfit).
  unfold x. rewrite (so_objs _ _ _ _ _ _ _ _ S). unfold good_size, SIZEOF_SLAB, SIZEOF_INT in *. nia.
Qed.

(** ** Changing one slab *)

(** [kc'] differs from [kc] at most in where [v] is linked. *)
Record relinked (v : Z) (kc kc' : kmem_cache) : Prop := {
  rl_size : kc_obj_size kc' = kc_obj_size kc;
  rl_nodup : NoDup (kc_full kc' ++ kc_free kc');
  rl_in : forall w, in_cache w kc' <-> in_cache w kc;
  rl_full : forall w, w <> v -> w ∈ kc_full kc' <-> w ∈ kc_full kc
}.

Definition set_slot (c v : Z) (kc' : kmem_cache) (sl' : slab) (s : kstate) : kstate :=
  set_caches (<[c := kc']> (k_caches s)) (set_slabs (<[v := sl']> (k_slabs s)) s).

Section change.
Context (A : gmap Z (Z * Z)) (F : gmap Z (list Z)) (s : kstate) (K : kinv A F s).
Context (c : Z) (kc : kmem_cache) (Hc : k_caches s !! c = Some kc).
Context (v : Z) (Hv : in_cache v kc).

(** No other cache links [v]. *)
Lemma other_cache c' kc' : k_caches s !! c' = Some kc' -> c' <> c -> ~ in_cache v kc'.
Proof using K Hc Hv. intros H' Hne Hin. by apply Hne, (ki_uniq _ _ _ K c' kc' c kc v). Qed.

Lemma kinv_change kc' sl' fr' h :
  relinked v kc kc' -> slab_ok A (k_pmem s) c (kc_obj_size kc) v sl' fr' h ->
  (v ∈ kc_full kc' <-> fr' = []) ->
  kinv A (<[v := fr']> F) (set_slot c v kc' sl' s).
Proof using K Hc Hv.
  intros R S Hfull. constructor; simpl; try apply K.
  - intros c1 kc1. rewrite lookup_insert. case_decide; [intros [= <-]; subst c1|intros H1].
    + destruct (ki_cache _ _ _ K _ _ Hc) as (Hnn & Hsz & _ & Hall).
      split; [done|]. rewrite (rl_size _ _ _ R). split; [done|]. split; [apply R|].
      intros w Hw%R. rewrite !lookup_insert. case_decide.
      * subst w. exists sl', fr', h. done.
      * destruct (Hall w Hw) as (sl & fr & h' & ? & ? & ? & ?). exists sl, fr, h'.
        do 3 (split; [done|]). rewrite (rl_full _ _ _ R) by done. done.
    + destruct (ki_cache _ _ _ K _ _ H1) as (Hnn & Hsz & Hnd & Hall). do 3 (split; [done|]).
      intros w Hw. assert (v <> w) by (intros <-; by eapply other_cache).
      rewrite !lookup_insert_ne by done. by apply Hall.
  - intros c1 kc1 c2 kc2 w. rewrite !lookup_insert.
    repeat case_decide; intros; simplify_eq; try done.
    + symmetry. eapply (ki_uniq _ _ _ K c2 kc2 c1 kc w); [done..|by apply R].
    + eapply (ki_uniq _ _ _ K c1 kc1 c2 kc w); [done..|by apply R].
    + by eapply (ki_uniq _ _ _ K c1 kc1 c2 kc2 w).
  - intros c1 kc1 w. rewrite lookup_insert. case_decide; [intros [= <-]; subst|]; intros.
    + eapply (ki_image _ _ _ K); [exact Hc|by apply R].
    + by eapply (ki_image _ _ _ K).
Qed.

Lemma slot_change kc' sl sl' c1 w i x :
  relinked v kc kc' -> k_slabs s !! v = Some sl -> sl_objs sl' = sl_objs sl ->
  slot (set_slot c v kc' sl' s) c1 w i x <-> slot s c1 w i x.
Proof using Hc.
  intros R Hsl Ho. unfold slot. simpl.
  assert (Hs : forall P : Z -> Prop, (exists slw, <[v := sl']> (k_slabs s) !! w = Some slw /\ P (sl_objs slw)) <->
                   exists slw, k_slabs s !! w = Some slw /\ P (sl_objs slw)).
  { intros P. rewrite lookup_insert. case_decide; [subst w|done]. split.
    - intros (? & [= <-] & ?). exists sl. by rewrite <- Ho.
    - intros (? & ? & ?). simplify_eq. exists sl'. by rewrite Ho. }
  split.
  - intros (kc1 & slw & H1 & H2 & H3 & H4 & H5).
    destruct (proj1 (Hs (fun o => x = o + kc_obj_size kc1 * i)) (ex_intro _ slw (conj H3 H5))) as (slw' & ? & ?).
    rewrite lookup_insert in H1. case_decide; simplify_eq.
    + exists kc, slw'. rewrite <- (rl_size _ _ _ R). rewrite <- (rl_in _ _ _ R). done.
    + exists kc1, slw'. done.
  - intros (kc1 & slw & H1 & H2 & H3 & H4 & H5).
    destruct (proj2 (Hs (fun o => x = o + kc_obj_size kc1 * i)) (ex_intro _ slw (conj H3 H5))) as (slw' & ? & ?).
    rewrite lookup_insert. case_decide; simplify_eq.
    + exists kc', slw'. rewrite (rl_size _ _ _ R), (rl_in _ _ _ R). done.
    + exists kc1, slw'. done.
Qed.
End change.

(** ** Objects never overlap *)

Lemma slot_data A F s c v i x : kinv A F s -> slot s c v i x ->
  exists kc sl fr h, k_caches s !! c = Some kc /\ in_cache v kc /\ k_slabs s !! v = Some sl /\
    F !! v = Some fr /\ slab_ok A (k_pmem s) c (kc_obj_size kc) v sl fr h /\
    good_size (kc_obj_size kc) /\ (v ∈ kc_full kc <-> fr = []) /\
    0 <= i < slab_objs (kc_obj_size kc) /\ x = sl_objs sl + kc_obj_size kc * i.
Proof.
  intros K (kc & sl & Hc & Hin & Hsl & Hi & Hx).
  destruct (ki_cache _ _ _ K _ _ Hc) as (_ & Hg & _ & Hall).
  destruct (Hall v Hin) as (sl' & fr & h & ? & ? & ? & ?). simplify_eq.
  by exists kc, sl, fr, h.
Qed.

(** Two different slabs occupy different blocks. *)
Lemma slabs_apart A F s c1 z1 v1 sl1 fr1 h1 c2 z2 v2 sl2 fr2 h2 :
  kinv A F s -> slab_ok A (k_pmem s) c1 z1 v1 sl1 fr1 h1 -> slab_ok A (k_pmem s) c2 z2 v2 sl2 fr2 h2 ->
  v1 <> v2 ->
  v1 + slab_pages z1 * PG_SIZE <= v2 \/ v2 + slab_pages z2 * PG_SIZE <= v1.
Proof.
  intros K S1 S2 Hne.
  destruct (so_block _ _ _ _ _ _ _ _ S1) as (o1 & r1 & HA1 & Hle1).
  destruct (so_block _ _ _ _ _ _ _ _ S2) as (o2 & r2 & HA2 & Hle2).
  destruct (ki_rep _ _ _ K) as (B & I & HR).
  destruct (reps_allocd _ _ _ _ _ _ HR HA1) as (p1 & (HB1 & _) & _).
  destruct (reps_allocd _ _ _ _ _ _ HR HA2) as (p2 & (HB2 & _) & _).
  rewrite (so_addr _ _ _ _ _ _ _ _ S1), (so_addr _ _ _ _ _ _ _ _ S2) in *.
  assert (h1 <> h2) by (intros ->; done).
  destruct (tl_disj _ _ _ (inv_tiling _ _ _ I) _ _ _ _ HB1 HB2 ltac:(done)); unfold PG_SIZE in *; lia.
Qed.

Lemma slots_apart A F s c1 v1 i1 x1 c2 v2 i2 x2 kc1 kc2 :
  kinv A F s -> slot s c1 v1 i1 x1 -> slot s c2 v2 i2 x2 ->
  k_caches s !! c1 = Some kc1 -> k_caches s !! c2 = Some kc2 -> (v1, i1) <> (v2, i2) ->
  x1 + kc_obj_size kc1 <= x2 \/ x2 + kc_obj_size kc2 <= x1.
Proof.
  intros K H1 H2 Hc1 Hc2 Hne.
  destruct (slot_data _ _ _ _ _ _ _ K H1) as (k1 & sl1 & fr1 & h1 & ? & Hin1 & Hs1 & HF1 & S1 & G1 & _ & Hi1 & ->).
  destruct (slot_data _ _ _ _ _ _ _ K H2) as (k2 & sl2 & fr2 & h2 & ? & Hin2 & Hs2 & HF2 & S2 & G2 & _ & Hi2 & ->).
  simplify_eq. destruct (decide (v1 = v2)) as [<-|Hv].
  - assert (c1 = c2) as <- by (by eapply (ki_uniq _ _ _ K)). simplify_eq.
    assert (i1 <> i2) by congruence. unfold good_size in *. nia.
  - destruct (obj_bounds _ _ _ _ _ _ _ _ _ _ K S1 G1 Hi1) as (? & ? & _).
    destruct (obj_bounds _ _ _ _ _ _ _ _ _ _ K S2 G2 Hi2) as (? & ? & _).
    destruct (slabs_apart _ _ _ _ _ _ _ _ _ _ _ _ _ _ _ K S1 S2 Hv); lia.
Qed.

Lemma slot_inj A F s c1 v1 i1 c2 v2 i2 x :
  kinv A F s -> slot s c1 v1 i1 x -> slot s c2 v2 i2 x -> v1 = v2 /\ i1 = i2 /\ c1 = c2.
Proof.
  intros K H1 H2. pose proof H1 as (kc1 & sl1 & Hc1 & Hin1 & _). pose proof H2 as (kc2 & sl2 & Hc2 & Hin2 & _).
  destruct (decide ((v1, i1) = (v2, i2))) as [[= -> ->]|Hne].
  - do 2 (split; [done|]). by eapply (ki_uniq _ _ _ K).
  - destruct (ki_cache _ _ _ K _ _ Hc1) as (_ & G1 & _). destruct (ki_cache _ _ _ K _ _ Hc2) as (_ & G2 & _).
    destruct (slots_apart _ _ _ _ _ _ _ _ _ _ _ _ _ K H1 H2 Hc1 Hc2 Hne); unfold good_size in *; lia.
Qed.

(** ** Symbolic execution of the small steps *)

Definition relock (b : bool) (kc : kmem_cache) : kmem_cache :=
  mkCache (kc_full kc) (kc_free kc) b (kc_obj_size kc).
Definition ins_cache (c : Z) (kc : kmem_cache) (s : kstate) : kstate :=
  set_caches (<[c := kc]> (k_caches s)) s.

Lemma ins_ins c kc kc' s : ins_cache c kc (ins_cache c kc' s) = ins_cache c kc s.
Proof. unfold ins_cache, set_caches. simpl. by rewrite insert_insert_eq. Qed.

Lemma ins_slot c v kc kc' sl s : ins_cache c kc (set_slot c v kc' sl s) = set_slot c v kc sl s.
Proof. unfold set_slot, ins_cache, set_caches. simpl. by rewrite insert_insert_eq. Qed.

Lemma filter_ne_id (v : Z) (l : list Z) : v ∉ l -> filter (fun x => x ≠ v) l = l.
Proof.
  induction l as [|x l IH]; intros Hv; [done|]. rewrite elem_of_cons in Hv. rewrite filter_cons.
  rewrite decide_True by (intros ->; tauto). f_equal. apply IH. tauto.
Qed.

Section steps.
Context (c : Z) (kc : kmem_cache) (s : kstate) (Hc : k_caches s !! c = Some kc).

Lemma wp_get_cache (Q : kmem_cache -> kstate -> Prop) : Q kc s -> wp (get_cache c) Q s.
Proof using Hc. intros. unfold get_cache. wp_run; done. Qed.

Lemma wp_lock_cache (Q : unit -> kstate -> Prop) :
  kc_lock kc = false -> Q tt (ins_cache c (relock true kc) s) -> wp (lock_cache c) Q s.
Proof using Hc. intros Hl ?. unfold lock_cache. wp_step. apply wp_get_cache. rewrite Hl. by apply wp_modify. Qed.

Lemma wp_unlock_cache (Q : unit -> kstate -> Prop) :
  Q tt (ins_cache c (relock false kc) s) -> wp (unlock_cache c) Q s.
Proof using Hc. intros. unfold unlock_cache. wp_step. apply wp_get_cache. by apply wp_modify. Qed.

Lemma wp_append_full v (Q : unit -> kstate -> Prop) :
  Q tt (ins_cache c (mkCache (kc_full kc ++ [v]) (kc_free kc) (kc_lock kc) (kc_obj_size kc)) s) ->
  wp (append_full c v) Q s.
Proof using Hc. intros. unfold append_full. wp_step. apply wp_get_cache. by apply wp_modify. Qed.

Lemma wp_append_free v (Q : unit -> kstate -> Prop) :
  Q tt (ins_cache c (mkCache (kc_full kc) (kc_free kc ++ [v]) (kc_lock kc) (kc_obj_size kc)) s) ->
  wp (append_free c v) Q s.
Proof using Hc. intros. unfold append_free. wp_step. apply wp_get_cache. by apply wp_modify. Qed.

(** Unlinking a slab that only this cache holds. *)
Lemma wp_unlink_slab v (Q : unit -> kstate -> Prop) :
  in_cache v kc ->
  (forall c' kc', k_caches s !! c' = Some kc' -> c' <> c -> ~ in_cache v kc') ->
  Q tt (ins_cache c (without v kc) s) -> wp (unlink_slab v) Q s.
Proof using Hc.
  intros Hv Hoth HQ. unfold unlink_slab. wp_step. wp_step. rewrite bool_decide_eq_true_2.
  - wp_step. unfold ins_cache in HQ.
    assert (without v <$> k_caches s = <[c := without v kc]> (k_caches s)) as ->; [|done].
    apply map_eq. intros c'. rewrite lookup_fmap, lookup_insert. case_decide; [subst; by rewrite Hc|].
    destruct (k_caches s !! c') as [kc'|] eqn:E; [|done]. simpl. f_equal.
    specialize (Hoth c' kc' E ltac:(congruence)). unfold in_cache in Hoth. rewrite elem_of_app in Hoth.
    destruct kc' as [fu fr l z]. unfold without. simpl in *.
    rewrite !filter_ne_id; [done|tauto..].
  - exists c, kc. split; [done|]. by apply elem_of_app.
Qed.
End steps.

Lemma in_without w v kc : in_cache w (without v kc) <-> in_cache w kc /\ w <> v.
Proof. unfold in_cache, without. simpl. rewrite !elem_of_app, !list_elem_of_filter. tauto. Qed.

Lemma nodup_without v kc : NoDup (kc_full kc ++ kc_free kc) ->
  NoDup (kc_full (without v kc) ++ kc_free (without v kc)).
Proof. intros H. unfold without. simpl. rewrite <- filter_app. by apply NoDup_filter. Qed.

(** The two moves between the lists of a cache. *)
Definition to_full (v : Z) (kc : kmem_cache) : kmem_cache :=
  let k := without v kc in mkCache (kc_full k ++ [v]) (kc_free k) (kc_lock k) (kc_obj_size k).
Definition to_free (v : Z) (kc : kmem_cache) : kmem_cache :=
  let k := without v kc in mkCache (kc_full k) (kc_free k ++ [v]) (kc_lock k) (kc_obj_size k).

Lemma relinked_to_full v kc :
  in_cache v kc -> NoDup (kc_full kc ++ kc_free kc) -> relinked v kc (to_full v kc) /\ v ∈ kc_full (to_full v kc).
Proof.
  intros Hv Hnd. pose proof (nodup_without v _ Hnd) as Hnd'.
  pose proof (in_without v v kc) as Hnv. split; [constructor|].
  - done.
  - simpl. rewrite <- app_assoc. simpl. rewrite <- Permutation_middle. constructor; [|done].
    intros Hin. apply Hnv in Hin. tauto.
  - intros w. assert (Hw : in_cache w (to_full v kc) <-> in_cache w (without v kc) \/ w = v).
    { unfold in_cache. simpl. rewrite !elem_of_app, list_elem_of_singleton. clear. tauto. }
    rewrite Hw, in_without. clear Hw Hnd Hnd'. destruct (decide (w = v)) as [->|]; tauto.
  - intros w Hw. simpl. rewrite elem_of_app, list_elem_of_singleton, list_elem_of_filter. clear -Hw. tauto.
  - simpl. rewrite elem_of_app, list_elem_of_singleton. auto.
Qed.

Lemma relinked_to_free v kc :
  in_cache v kc -> NoDup (kc_full kc ++ kc_free kc) -> relinked v kc (to_free v kc) /\ v ∉ kc_full (to_free v kc).
Proof.
  intros Hv Hnd. pose proof (nodup_without v _ Hnd) as Hnd'.
  pose proof (in_without v v kc) as Hnv. split; [constructor|].
  - done.
  - simpl. rewrite app_assoc, <- Permutation_cons_append. constructor; [|done].
    intros Hin. apply Hnv in Hin. tauto.
  - intros w. assert (Hw : in_cache w (to_free v kc) <-> in_cache w (without v kc) \/ w = v).
    { unfold in_cache. simpl. rewrite !elem_of_app, list_elem_of_singleton. clear. tauto. }
    rewrite Hw, in_without. clear Hw Hnd Hnd'. destruct (decide (w = v)) as [->|]; tauto.
  - intros w Hw. simpl. rewrite list_elem_of_filter. clear -Hw. tauto.
  - simpl. rewrite list_elem_of_filter. clear. tauto.
Qed.

Lemma relinked_refl v kc : NoDup (kc_full kc ++ kc_free kc) -> relinked v kc kc.
Proof. by constructor. Qed.

(** A lock bit is invisible to the invariant. *)
Lemma relinked_relock v b kc kc' : relinked v kc kc' -> relinked v kc (relock b kc').
Proof. intros [? ? ? ?]. by constructor. Qed.

Lemma kinv_relock A F s c kc b :
  kinv A F s -> k_caches s !! c = Some kc -> kinv A F (ins_cache c (relock b kc) s).
Proof.
  intros K Hc. constructor; simpl; try apply K.
  - intros c1 kc1. rewrite lookup_insert. case_decide; [intros [= <-]; subst c1|].
    + by apply (ki_cache _ _ _ K c kc).
    + apply K.
  - intros c1 kc1 c2 kc2 w. rewrite !lookup_insert.
    repeat case_decide; intros; simplify_eq; try done.
    + by eapply (ki_uniq _ _ _ K c1 kc c2 kc2 w).
    + by eapply (ki_uniq _ _ _ K c1 kc1 c2 kc w).
    + by eapply (ki_uniq _ _ _ K c1 kc1 c2 kc2 w).
  - intros c1 kc1 w. rewrite lookup_insert. case_decide; [intros [= <-]; subst|]; intros.
    + by eapply (ki_image _ _ _ K c1 kc).
    + by eapply (ki_image _ _ _ K).
Qed.

Lemma slot_relock s c kc b c1 v i x : k_caches s !! c = Some kc ->
  slot (ins_cache c (relock b kc) s) c1 v i x <-> slot s c1 v i x.
Proof.
  intros Hc. unfold slot. simpl. split; intros (k1 & sl & H1 & H2).
  - rewrite lookup_insert in H1. case_decide; simplify_eq; [by exists kc, sl|by exists k1, sl].
  - destruct (decide (c = c1)) as [<-|].
    + simplify_eq. exists (relock b kc), sl. by rewrite lookup_insert_eq.
    + exists k1, sl. by rewrite lookup_insert_ne.
Qed.

Lemma k_of_slot_caches c v kc' sl' s : k_caches (set_slot c v kc' sl' s) !! c = Some kc'.
Proof. simpl. apply lookup_insert_eq. Qed.

(** ** Taking a slot *)

Lemma freelist_end arr f l : freelist arr f l -> f = -1 <-> l = [].
Proof. destruct l as [|i l]; simpl; [done|]. intros (-> & ? & _). split; [lia|done]. Qed.

Definition slab_with (free : Z) (arr : list Z) (sl : slab) : slab :=
  mkSlab (sl_objs sl) free (sl_n_pages sl) arr.

(** The slab at the head of a free list has a first free slot [i]; taking it
    leaves [fr], and the slab moves to the full list when [fr] is empty. *)
Lemma take_slot A F s c kc v :
  kinv A F s -> k_caches s !! c = Some kc -> v ∈ kc_free kc ->
  exists sl i fr next, k_slabs s !! v = Some sl /\ F !! v = Some (i :: fr) /\ sl_free sl = i /\
    0 <= i < slab_objs (kc_obj_size kc) /\ (i ∉ fr) /\
    sl_freearr sl !! Z.to_nat i = Some next /\ (next = -1 <-> fr = []) /\
    let kc' := if next =? -1 then to_full v kc else kc in
    relinked v kc kc' /\
    kinv A (<[v := fr]> F) (set_slot c v kc' (slab_with next (sl_freearr sl) sl) s) /\
    slot s c v i (sl_objs sl + kc_obj_size kc * i).
Proof.
  intros K Hc Hv. assert (Hin : in_cache v kc) by (apply elem_of_app; auto).
  destruct (ki_cache _ _ _ K _ _ Hc) as (_ & Hg & Hnd & Hall).
  destruct (Hall v Hin) as (sl & fr0 & h & Hsl & HF & S & Hfull).
  assert (Hnf : v ∉ kc_full kc) by (apply NoDup_app in Hnd as (_ & Hd & _); intros ?; by eapply Hd).
  pose proof (so_free _ _ _ _ _ _ _ _ S) as Hfl. pose proof (so_nodup _ _ _ _ _ _ _ _ S) as Hfnd.
  destruct fr0 as [|i fr]; [tauto|]. simpl in Hfl. destruct Hfl as (Hi & Hb & next & Hn & Hfl).
  rewrite (so_arr _ _ _ _ _ _ _ _ S) in Hb. apply NoDup_cons in Hfnd as [Hnotin Hfnd].
  pose proof (freelist_end _ _ _ Hfl) as Hend.
  exists sl, i, fr, next. do 7 (split; [done|]). intros kc'.
  assert (R : relinked v kc kc' /\ (v ∈ kc_full kc' <-> fr = [])).
  { unfold kc'. destruct (Z.eqb_spec next (-1)) as [E|E].
    - destruct (relinked_to_full v kc Hin Hnd) as [R Hvf]. tauto.
    - split; [by apply relinked_refl|]. tauto. }
  destruct R as [R Hvf]. split; [done|]. split; [|by exists kc, sl].
  apply (kinv_change A F s K c kc Hc v Hin kc' _ fr h R); [|done].
  destruct S. constructor; try done.
Qed.

(** Taking slot [i] of [v] makes exactly its address live. *)
Lemma live_take A F s c kc kc' v i fr x sl sl' c1 y :
  kinv A F s -> k_caches s !! c = Some kc -> relinked v kc kc' ->
  k_slabs s !! v = Some sl -> sl_objs sl' = sl_objs sl ->
  F !! v = Some (i :: fr) -> i ∉ fr -> slot s c v i x ->
  live (<[v := fr]> F) (set_slot c v kc' sl' s) c1 y <-> live F s c1 y \/ (c1 = c /\ y = x).
Proof.
  intros K Hc R Hsl Ho HF Hni Hx. unfold live.
  setoid_rewrite (slot_change s c kc Hc v kc' sl sl'); [|done..]. split.
  - intros (w & j & Hs & fr' & HF' & Hj). rewrite lookup_insert in HF'. case_decide; simplify_eq.
    + destruct (decide (j = i)) as [->|Hne].
      * right. destruct Hs as (k1 & s1 & H1 & H2 & H3 & H4 & ->).
        destruct Hx as (k2 & s2 & G1 & G2 & G3 & G4 & ->). simplify_eq.
        assert (c1 = c) as -> by (by eapply (ki_uniq _ _ _ K)). by simplify_eq.
      * left. exists w, j. split; [done|]. exists (i :: fr'). split; [done|]. rewrite elem_of_cons. tauto.
    + left. exists w, j. split; [done|]. by exists fr'.
  - intros [(w & j & Hs & fr' & HF' & Hj)|[-> ->]].
    + exists w, j. split; [done|]. destruct (decide (v = w)) as [<-|].
      * simplify_eq. exists fr. rewrite lookup_insert_eq. split; [done|]. rewrite elem_of_cons in Hj. tauto.
      * exists fr'. by rewrite lookup_insert_ne.
    + exists v, i. split; [done|]. exists fr. by rewrite lookup_insert_eq.
Qed.

Lemma not_live_free A F s c v i fr x c1 :
  kinv A F s -> F !! v = Some (i :: fr) -> slot s c v i x -> ~ live F s c1 x.
Proof.
  intros K HF Hx (w & j & Hs & fr' & HF' & Hj).
  destruct (slot_inj _ _ _ _ _ _ _ _ _ _ K Hx Hs) as (<- & <- & _). simplify_eq. set_solver.
Qed.

(** ** A new slab *)

Lemma set_pmem_id s : set_pmem (k_pmem s) s = s.
Proof. by destruct s. Qed.

(** The loop that links the pages of a block to their slab. *)
Lemma wp_link_pages s h np c v (Q : unit -> kstate -> Prop) :
  0 <= h -> h + np <= npages (k_pmem s) -> 0 <= np ->
  (forall P', same_core (k_pmem s) P' ->
     (forall i, h <= i < h + np -> exists p, page_at i P' = Some p /\ links p = (c, v)) ->
     (forall i, ~ (h <= i < h + np) -> links <$> page_at i P' = links <$> page_at i (k_pmem s)) ->
     Q tt (set_pmem P' s)) ->
  wp (for_ (Z.to_nat np) 0 (fun i =>
        on_pmem (upd_page (paddr_to_page (h * PG_SIZE + i * pg_size)) (set_slab c v)))) Q s.
Proof.
  intros Hh Hend Hnp HQ.
  apply (wp_for _ _ _ (fun j s' => exists P', s' = set_pmem P' s /\ same_core (k_pmem s) P' /\
     (forall i, h <= i < h + j -> exists p, page_at i P' = Some p /\ links p = (c, v)) /\
     (forall i, ~ (h <= i < h + j) -> links <$> page_at i P' = links <$> page_at i (k_pmem s)))).
  - exists (k_pmem s). rewrite set_pmem_id. split; [done|]. split; [reflexivity|].
    split; [intros; lia|done].
  - intros j s' Hj (P' & -> & C & Hin & Hout). rewrite Z2Nat.id in Hj by lia.
    assert (E : paddr_to_page (h * PG_SIZE + j * pg_size) = h + j).
    { unfold paddr_to_page, pg_size, PG_SIZE. rewrite <- Z.mul_add_distr_r. apply Z.div_mul. lia. }
    rewrite E. unfold on_pmem. wp_step. simpl.
    assert (Hnp' : npages P' = npages (k_pmem s)) by (unfold npages; f_equal; apply C).
    destruct (page_at_is_Some (h + j) P') as [p Hp]; [lia|].
    eapply wp_upd_page; [done|]. exists (set_pg (h + j) (set_slab c v p) P').
    split; [done|]. split.
    { etransitivity; [exact C|]. eapply (same_core_upd (h + j) c v). unfold upd_page, get_page, gets, deref, bind.
      by rewrite Hp. }
    split; intros i Hi; rewrite page_at_set by (by eapply page_at_bounds); case_decide; subst; try lia.
    + eexists. done.
    + apply Hin. lia.
    + apply Hout. lia.
  - intros s' (P' & -> & C & Hin & Hout). rewrite Z2Nat.id in * by lia. by apply HQ.
Qed.

Lemma slab_ok_frame A A' P P' c size v sl fr h :
  slab_ok A P c size v sl fr h ->
  (forall o r, A !! h = Some (o, r) -> A' !! h = Some (o, r)) ->
  (forall i, h <= i < h + slab_pages size -> links <$> page_at i P' = links <$> page_at i P) ->
  slab_ok A' P' c size v sl fr h.
Proof.
  intros S HA HP. destruct S as [? (o & r & ? & ?) ? ? ? Hb ? ?]. constructor; try done.
  - exists o, r. split; [by apply HA|done].
  - intros i Hi. destruct (Hb i Hi) as (p & Hp & Hps & Hpc). specialize (HP (h + i) ltac:(lia)).
    rewrite Hp in HP. destruct (page_at (h + i) P') as [p'|]; simpl in HP; [|done].
    unfold links in HP. simplify_eq. exists p'. repeat split; congruence.
Qed.

Definition with_slab (v : Z) (kc : kmem_cache) : kmem_cache :=
  mkCache (kc_full kc) (kc_free kc ++ [v]) (kc_lock kc) (kc_obj_size kc).
Definition new_slab (v size : Z) : slab :=
  mkSlab (v + SIZEOF_SLAB + SIZEOF_INT * slab_objs size) 0 (slab_pages size) (init_freearr (slab_objs size)).

Section create.
Context (A : gmap Z (Z * Z)) (F : gmap Z (list Z)) (s : kstate) (K : kinv A F s).
Context (c : Z) (kc : kmem_cache) (Hc : k_caches s !! c = Some kc).
Let size := kc_obj_size kc.

(** The page allocator's answer, with what it means for the slabs. *)
Context (P1 P2 : pmem) (h o : Z).
Context (Hrun : free_run A (k_pmem s) h o) (Ho : 0 <= o /\ slab_pages size <= 2 ^ o).
Context (Hrep : buddy_rep (<[h := (o, 1)]> A) P1).
Context (Hcfg : cfg P1 = cfg (k_pmem s)) (Hnp : npages P1 = npages (k_pmem s)).
Context (Hlk : links_but h (k_pmem s) P1).
Context (Hcore : same_core P1 P2).
Let v := KMAP_BASE + h * PG_SIZE.
Context (Hback : forall i, h <= i < h + slab_pages size -> exists p, page_at i P2 = Some p /\ links p = (c, v)).
Context (Hout : forall i, ~ (h <= i < h + slab_pages size) -> links <$> page_at i P2 = links <$> page_at i P1).

Let s' := set_pmem P2 (set_slot c v (with_slab v kc) (new_slab v size) s).

Lemma block_fresh o' r : A !! h = Some (o', r) -> False.
Proof using K Hrun Ho.
  intros HA. destruct (ki_rep _ _ _ K) as (B & I & HR).
  destruct (reps_allocd _ _ _ _ _ _ HR HA) as (p & (HB & _) & _).
  destruct (inv_blk _ _ _ _ _ I HB) as (Ho' & _). destruct Hrun as (_ & _ & _ & Hd).
  specialize (Hd _ _ _ HA). unfold disjoint_pages in Hd.
  pose proof (pow2_pos o ltac:(lia)). pose proof (pow2_pos o' ltac:(lia)). lia.
Qed.

(** No slab in use has the address of the new one. *)
Lemma new_slab_fresh c1 kc1 : k_caches s !! c1 = Some kc1 -> ~ in_cache v kc1.
Proof using K Hrun Ho.
  intros H1 Hin. destruct (ki_cache _ _ _ K _ _ H1) as (_ & _ & _ & Hall).
  destruct (Hall v Hin) as (sl & fr & h1 & _ & _ & S & _). assert (h1 = h) as ->.
  { pose proof (so_addr _ _ _ _ _ _ _ _ S) as E. unfold v, PG_SIZE in E. lia. }
  destruct (so_block _ _ _ _ _ _ _ _ S) as (o' & r & HA & _). by eapply block_fresh.
Qed.

Lemma new_slab_ok : good_size size ->
  slab_ok (<[h := (o, 1)]> A) P2 c size v (new_slab v size) (seqZ 0 (slab_objs size)) h.
Proof using Ho Hback.
  intros Hg. destruct (slab_geometry size Hg) as (? & ? & _). constructor; simpl; try done.
  - exists o, 1. rewrite lookup_insert_eq. split; [done|apply Ho].
  - apply length_init_freearr. lia.
  - intros i Hi. destruct (Hback (h + i)) as (p & Hp & [= ? ?]); [lia|]. by exists p.
  - apply freelist_init. lia.
  - apply NoDup_seqZ.
Qed.

(** The other slabs keep their blocks and their pages' links. *)
Lemma old_slab_ok c1 size1 w sl fr h1 :
  slab_ok A (k_pmem s) c1 size1 w sl fr h1 -> good_size size1 ->
  slab_ok (<[h := (o, 1)]> A) P2 c1 size1 w sl fr h1.
Proof using K Hrun Ho Hlk Hout.
  intros S Hg. destruct (so_block _ _ _ _ _ _ _ _ S) as (o1 & r1 & HA & Hle).
  assert (Hne : h <> h1) by (intros <-; by eapply block_fresh).
  destruct Hrun as (_ & _ & _ & Hd). specialize (Hd _ _ _ HA). unfold disjoint_pages in Hd.
  destruct (slab_geometry size1 Hg) as (? & _).
  eapply slab_ok_frame; [done|by intros; rewrite lookup_insert_ne|].
  intros i Hi. rewrite Hout by lia. apply Hlk. lia.
Qed.

Lemma kinv_create : kinv (<[h := (o, 1)]> A) (<[v := seqZ 0 (slab_objs size)]> F) s'.
Proof using K Hc Hrun Ho Hrep Hcfg Hnp Hlk Hcore Hback Hout.
  pose proof Hcore as (_ & Hlen & _ & Hcfg2). unfold cfg in Hcfg, Hcfg2.
  assert (Hnp2 : npages P2 = npages (k_pmem s)) by (unfold npages in *; congruence).
  assert (Hcf : pmem_end P2 = pmem_end (k_pmem s) /\ pagemap_initialized P2 = pagemap_initialized (k_pmem s) /\
                pmem_lock P2 = pmem_lock (k_pmem s)) by (repeat split; congruence).
  destruct Hcf as (E1 & E2 & E3). constructor; simpl.
  - by eapply buddy_rep_core.
  - rewrite E2. apply K.
  - rewrite E3. apply K.
  - rewrite lookup_insert. case_decide; [done|apply K].
  - rewrite Hnp2, E1. apply K.
  - intros c1 kc1. rewrite lookup_insert. case_decide as Ec; [intros [= <-]; subst c1|intros H1].
    + destruct (ki_cache _ _ _ K _ _ Hc) as (Hnn & Hg & Hnd & Hall). do 2 (split; [done|]). simpl. split.
      { rewrite app_assoc, <- Permutation_cons_append. constructor; [|done]. by eapply new_slab_fresh. }
      intros w Hw. unfold in_cache in Hw. simpl in Hw. rewrite app_assoc in Hw.
      apply elem_of_app in Hw as [Hw| ->%list_elem_of_singleton].
      * assert (v <> w) by (intros <-; by eapply new_slab_fresh). rewrite !lookup_insert_ne by done.
        destruct (Hall w Hw) as (sl & fr & h1 & ? & ? & S & ?). exists sl, fr, h1. do 2 (split; [done|]).
        split; [by eapply old_slab_ok|done].
      * rewrite !lookup_insert_eq. eexists _, _, h. do 2 (split; [done|]). split; [by apply new_slab_ok|].
        split; [|intros E; destruct (slab_geometry size Hg) as (_ & ? & _)].
        -- intros Hf. exfalso. eapply new_slab_fresh; [exact Hc|]. apply elem_of_app. auto.
        -- apply (f_equal length) in E. rewrite length_seqZ in E. simpl in E. lia.
    + destruct (ki_cache _ _ _ K _ _ H1) as (Hnn & Hg & Hnd & Hall). do 3 (split; [done|]).
      intros w Hw. assert (v <> w) by (intros <-; by eapply new_slab_fresh). rewrite !lookup_insert_ne by done.
      destruct (Hall w Hw) as (sl & fr & h1 & ? & ? & S & ?). exists sl, fr, h1. do 2 (split; [done|]).
      split; [by eapply old_slab_ok|done].
  - assert (Hin : forall w, in_cache w (with_slab v kc) -> in_cache w kc \/ w = v).
    { intros w. unfold in_cache. simpl. rewrite app_assoc. intros [?| ->%list_elem_of_singleton]%elem_of_app; auto. }
    intros c1 kc1 c2 kc2 w. rewrite !lookup_insert. intros H1 H2 I1 I2. repeat case_decide; simplify_eq; try done.
    + destruct (Hin _ I2) as [?| ->]; [|by exfalso; eapply new_slab_fresh]. by eapply (ki_uniq _ _ _ K).
    + destruct (Hin _ I1) as [?| ->]; [|by exfalso; eapply new_slab_fresh]. by eapply (ki_uniq _ _ _ K).
    + by eapply (ki_uniq _ _ _ K).
  - destruct (ki_static _ _ _ K) as [r Hr]. exists r. rewrite lookup_insert_ne; [done|].
    intros E. apply (block_fresh 0 r). by rewrite E.
  - destruct (ki_static _ _ _ K) as [r Hr].
    assert (v <> KMAP_BASE + static_page * PG_SIZE).
    { intros E. assert (Eh : h = static_page) by (unfold v, PG_SIZE in E; lia).
      apply (block_fresh 0 r). by rewrite Eh. }
    intros c1 kc1 w. rewrite lookup_insert. case_decide as Ec; [intros [= <-] Hw|intros Hk Hw].
    + unfold in_cache in Hw. simpl in Hw. rewrite app_assoc in Hw.
      apply elem_of_app in Hw as [Hw| ->%list_elem_of_singleton]; [|done]. by eapply (ki_image _ _ _ K).
    + by eapply (ki_image _ _ _ K).
Qed.

(** All slots of the new slab are free: nothing becomes live. *)
Lemma live_create c1 x :
  live (<[v := seqZ 0 (slab_objs size)]> F) s' c1 x <-> live F s c1 x.
Proof using K Hc Hrun Ho Hcfg Hback.
  unfold live, s'. split.
  - intros (w & i & (k1 & sl & H1 & H2 & H3 & H4 & H5) & fr & HF & Hi). simpl k_caches in H1. simpl k_slabs in H3.
    destruct (decide (v = w)) as [<-|Hne].
    { exfalso. rewrite lookup_insert_eq in HF. injection HF as <-. rewrite lookup_insert in H1.
      case_decide; simplify_eq.
      - apply Hi. apply elem_of_seqZ. simpl in H4. unfold size. lia.
      - by eapply new_slab_fresh. }
    rewrite lookup_insert_ne in HF by done. rewrite lookup_insert_ne in H3 by done. exists w, i. split; [|by exists fr].
    rewrite lookup_insert in H1. case_decide; simplify_eq.
    + exists kc, sl. split; [done|]. split; [|done].
      unfold in_cache in *. simpl in H2. rewrite app_assoc in H2.
      apply elem_of_app in H2 as [?| ->%list_elem_of_singleton]; done.
    + by exists k1, sl.
  - intros (w & i & (k1 & sl & H1 & H2 & H3 & H4 & H5) & fr & HF & Hi). simpl in *.
    assert (v <> w) by (intros <-; by eapply new_slab_fresh).
    exists w, i. split; [|exists fr; by rewrite lookup_insert_ne].
    destruct (decide (c = c1)) as [<-|].
    + simplify_eq. exists (with_slab v kc), sl. simpl. rewrite lookup_insert_eq, lookup_insert_ne by done.
      split; [done|]. split; [|done].
      unfold in_cache in *. simpl. rewrite app_assoc. apply elem_of_app. auto.
    + exists k1, sl. simpl. by rewrite !lookup_insert_ne.
Qed.
End create.

(** ** The operations *)

Lemma free_run_smaller A P b o k : 0 <= k <= o -> free_run A P b o -> free_run A P b k.
Proof.
  intros Hk (Hb & Hd & He & Hdis). assert (Hpow : 2 ^ o = 2 ^ (o - k) * 2 ^ k) by (rewrite <- Z.pow_add_r by lia; f_equal; lia).
  pose proof (pow2_pos k ltac:(lia)). pose proof (pow2_pos (o - k) ltac:(lia)). assert (Hle : 2 ^ k <= 2 ^ o) by nia.
  split; [done|]. split; [etrans; [by exists (2 ^ (o - k))|done]|]. split; [lia|]. intros h j r Hh. specialize (Hdis h j r Hh). unfold disjoint_pages in *. lia.
Qed.

(** The blocks of pages after an allocation: one more, or the same. *)
Definition grown (A A' : gmap Z (Z * Z)) : Prop :=
  A' = A \/ exists h o, 0 <= o <= MAX_ORDER /\ (2 ^ o | h) /\ A' = <[h := (o, 1)]> A.

(** [slab_create]: no memory and nothing changed for the slabs, or a new slab
    at the end of the free list of the cache.  It does not fail while a block of
    the largest order is free. *)
Lemma wp_slab_create A F s c kc (Q : Z -> kstate -> Prop) :
  kinv A F s -> k_caches s !! c = Some kc ->
  (forall s', kinv A F s' -> k_caches s' = k_caches s -> k_slabs s' = k_slabs s -> npages (k_pmem s') = npages (k_pmem s) ->
     (forall b, ~ free_run A (k_pmem s) b MAX_ORDER) -> Q NULL s') ->
  (forall A' F' v s', kinv A' F' s' -> v <> NULL -> grown A A' -> npages (k_pmem s') = npages (k_pmem s) ->
     k_caches s' = <[c := with_slab v kc]> (k_caches s) ->
     (forall c1 x, live F' s' c1 x <-> live F s c1 x) -> Q v s') ->
  wp (slab_create c) Q s.
Proof.
  intros K Hc HQ0 HQ1. destruct (ki_cache _ _ _ K _ _ Hc) as (Hnn & Hg & _).
  destruct (slab_geometry _ Hg) as (Hnp & Hno & _). pose proof (ki_end _ _ _ K) as Hend.
  unfold slab_create. wp_step. wp_step; [by apply nonnull_true|]. wp_step. eapply wp_get_cache; [done|].
  wp_step. wp_step; [apply Z.ltb_lt, Hg|]. cbv zeta. wp_step. unfold on_pmem at 1. wp_step.
  destruct (wp_elim _ _ _ (wp_nalloc_internal A (k_pmem s) (slab_pages (kc_obj_size kc)) true
    (ki_rep _ _ _ K) (ki_init _ _ _ K) (fun _ => ki_lock _ _ _ K) (ki_zero _ _ _ K) Hnp))
    as (r & P1 & Hrun & Hcfg & Hnp1 & Hpost).
  pose proof (nalloc_links _ _ _ _ (ki_init _ _ _ K) Hrun) as Hlk.
  eapply wp_intro; [exact Hrun|]. destruct r as [pa|[]].
  - destruct Hpost as (h & o & p & -> & Hmin & Hfree & Hrep & Hp & _).
    destruct Hlk as (h' & Eh & [p0 Hp0] & Hlk). destruct Hmin as (Ho & Hle & _).
    apply page_at_bounds in Hp0. pose proof Hfree as (Hh0 & _ & Hhe & _).
    pose proof (pow2_pos o ltac:(lia)) as Hpow. unfold PG_SIZE in Hend.
    assert (h' = h) as ->.
    { unfold page_to_paddr in Eh. rewrite wrapu_small in Eh; unfold pg_size, PG_SIZE in *; lia. }
    wp_step. wp_step; [apply Z.leb_le; unfold MIN_OBJS_PER_SLAB; lia|]. cbv zeta.
    assert (Ev : KMAP_P2V (h * PG_SIZE) = KMAP_BASE + h * PG_SIZE).
    { unfold KMAP_P2V, PG_SIZE. rewrite wrapu_small; unfold KMAP_BASE; lia. }
    rewrite Ev. set (v := KMAP_BASE + h * PG_SIZE).
    assert (Hv0 : v <> NULL) by (unfold v, KMAP_BASE, PG_SIZE, NULL; lia).
    wp_step. wp_step; [by apply nonnull_true|]. wp_step.
    apply wp_link_pages; [done|simpl; lia|lia|]. simpl. intros P2 Hcore Hback Hout.
    wp_step. unfold put_slab. wp_step. wp_step. eapply wp_append_free; [done|]. wp_step.
    assert (Eo : u64 (v + SIZEOF_SLAB + SIZEOF_INT * slab_objs (kc_obj_size kc)) =
                 v + SIZEOF_SLAB + SIZEOF_INT * slab_objs (kc_obj_size kc)).
    { destruct (slab_geometry _ Hg) as (_ & _ & Hfit).
      apply wrapu_small. unfold v, KMAP_BASE, SIZEOF_SLAB, SIZEOF_INT, PG_SIZE in *.
      unfold good_size in Hg. nia. }
    rewrite Eo.
    eapply (HQ1 (<[h := (o, 1)]> A) (<[v := seqZ 0 (slab_objs (kc_obj_size kc))]> F)); [|done| | |done|].
    + by apply (kinv_create A F s K c kc Hc P1 P2 h o Hfree (conj (proj1 Ho) Hle) Hrep Hcfg Hnp1 Hlk Hcore).
    + right. exists h, o. destruct Hfree as (_ & Hdiv & _). exact (conj Ho (conj Hdiv eq_refl)).
    + simpl. destruct Hcore as (_ & Hl2 & _). unfold npages in *. by rewrite Hl2.
    + intros c1 x. by apply (live_create A F s K c kc Hc P1 P2 h o Hfree (conj (proj1 Ho) Hle) Hcfg).
  - wp_step. destruct Hpost as [Hrep Hnor]. apply HQ0; [|done|done|done|].
    2: { intros b Hb. destruct (wp_elim _ _ _ (wp_get_min_page_order (slab_pages (kc_obj_size kc)) (k_pmem s) (fun o _ => min_order (slab_pages (kc_obj_size kc)) o) ltac:(lia) ltac:(done))) as (o & _ & _ & Ho). apply (Hnor o b Ho).
         apply (free_run_smaller _ _ _ MAX_ORDER); [apply Ho|done]. }
    unfold cfg in Hcfg. assert (pmem_end P1 = pmem_end (k_pmem s) /\
      pagemap_initialized P1 = pagemap_initialized (k_pmem s) /\ pmem_lock P1 = pmem_lock (k_pmem s))
      as (E1 & E2 & E3) by (repeat split; congruence).
    constructor; simpl; rewrite ?E1, ?E2, ?E3, ?Hnp1; try apply K; [done|].
    intros c1 kc1 H1. destruct (ki_cache _ _ _ K _ _ H1) as (? & ? & ? & Hall). do 3 (split; [done|]).
    intros w Hw. destruct (Hall w Hw) as (sl & fr & h1 & ? & ? & S & ?). exists sl, fr, h1.
    do 2 (split; [done|]). split; [|done]. eapply slab_ok_frame; [done|done|]. intros i _. apply Hlk.
Qed.

(** The sizes of the caches: what no object operation changes. *)
Definition sizes (s : kstate) : gmap Z Z := kc_obj_size <$> k_caches s.

Lemma sizes_ins c kc kc' s :
  k_caches s !! c = Some kc -> kc_obj_size kc' = kc_obj_size kc -> sizes (ins_cache c kc' s) = sizes s.
Proof.
  intros Hc Hs. unfold sizes. simpl. rewrite fmap_insert, Hs. apply insert_id. by rewrite lookup_fmap, Hc.
Qed.

Lemma unlocked_ins c kc s : unlocked s -> unlocked (ins_cache c (relock false kc) s).
Proof. intros U c1 kc1. simpl. rewrite lookup_insert. case_decide; [by intros [= <-]|apply U]. Qed.

Lemma live_relock F s c kc b c1 x : k_caches s !! c = Some kc ->
  live F (ins_cache c (relock b kc) s) c1 x <-> live F s c1 x.
Proof. intros Hc. unfold live. by setoid_rewrite (slot_relock s c kc b). Qed.

Definition alloc_post (F : gmap Z (list Z)) (s : kstate) (c p : Z) (s' : kstate) : Prop :=
  exists A' F', kinv A' F' s' /\ unlocked s' /\ sizes s' = sizes s /\
    ((p = NULL /\ forall c1 y, live F' s' c1 y <-> live F s c1 y) \/
     (p <> NULL /\ (forall c1, ~ live F s c1 p) /\
      forall c1 y, live F' s' c1 y <-> live F s c1 y \/ (c1 = c /\ y = p))).

(** The same with what is known of the pages: [A'] are the blocks after it. *)
Definition took (A' : gmap Z (Z * Z)) (F : gmap Z (list Z)) (s : kstate) (c p : Z) (s' : kstate) : Prop :=
  exists F', kinv A' F' s' /\ unlocked s' /\ npages (k_pmem s') = npages (k_pmem s) /\ sizes s' = sizes s /\
    p <> NULL /\ (forall c1, ~ live F s c1 p) /\ forall c1 y, live F' s' c1 y <-> live F s c1 y \/ (c1 = c /\ y = p).
Definition alloc_in (A : gmap Z (Z * Z)) (F : gmap Z (list Z)) (s : kstate) (c p : Z) (s' : kstate) : Prop :=
  (p = NULL /\ (forall b, ~ free_run A (k_pmem s) b MAX_ORDER) /\ kinv A F s' /\ unlocked s' /\ npages (k_pmem s') = npages (k_pmem s) /\ sizes s' = sizes s /\
     forall c1 y, live F s' c1 y <-> live F s c1 y) \/
  exists A', grown A A' /\ took A' F s c p s'.

Lemma alloc_in_post A F s c p s' : alloc_in A F s c p s' -> alloc_post F s c p s'.
Proof.
  intros [(-> & _ & K & U & _ & E & H)|(A' & _ & F' & K & U & _ & E & Hp & Hn & H)].
  - exists A, F. do 3 (split; [done|]). by left.
  - exists A', F'. do 3 (split; [done|]). by right.
Qed.

(** The second half of [kmem_cache_alloc]: take a slot of slab [v]. *)
Definition take_from (kmem_cache v size : Z) : M kstate Z :=
  sl <- get_slab v;;
  kassert (negb (sl_free sl =? -1));;
  let obj := u64 (sl_objs sl + size * sl_free sl) in
  next <- deref (sl_freearr sl !! Z.to_nat (sl_free sl));;
  put_slab v (mkSlab (sl_objs sl) next (sl_n_pages sl) (sl_freearr sl));;
  (if next =? -1 then unlink_slab v;; append_full kmem_cache v else ret tt);;
  unlock_cache kmem_cache;;
  memset_obj obj 0x2b size;;
  ret obj.

Lemma ins_caches_slot c v kc sl s :
  ins_cache c kc (set_slabs (<[v := sl]> (k_slabs s)) s) = set_slot c v kc sl s.
Proof. done. Qed.

Lemma unlocked_slot c v kc sl s : (forall c1 k1, c1 <> c -> k_caches s !! c1 = Some k1 -> kc_lock k1 = false) ->
  unlocked (set_slot c v (relock false kc) sl s).
Proof.
  intros U c1 kc1. simpl. rewrite lookup_insert. case_decide; [by intros [= <-]|].
  intros. by apply (U c1).
Qed.

Lemma live_fill F f s c x : live F (set_fill f s) c x <-> live F s c x.
Proof. done. Qed.

Lemma kinv_fill A F f s : kinv A F s -> kinv A F (set_fill f s).
Proof. intros K. constructor; apply K. Qed.

Lemma wp_take_from A F s c kc v :
  kinv A F s -> k_caches s !! c = Some kc -> v ∈ kc_free kc ->
  (forall c1 k1, c1 <> c -> k_caches s !! c1 = Some k1 -> kc_lock k1 = false) ->
  wp (take_from c v (kc_obj_size kc)) (took A F s c) s.
Proof.
  intros K Hc Hv U. assert (Hin : in_cache v kc) by (apply elem_of_app; auto).
  pose proof (take_slot A F s c kc v K Hc Hv) as Hts. cbv zeta in Hts.
  destruct Hts as (sl & i & fr & next & Hsl & HF & Hfree & Hi & Hni & Harr & Hend & R & K' & Hslot).
  destruct (slot_data _ _ _ _ _ _ _ K Hslot) as (kc1 & sl1 & fr1 & h & Hc1 & _ & Hsl1 & _ & S & Hg & _).
  rewrite Hc in Hc1. injection Hc1 as <-. rewrite Hsl in Hsl1. injection Hsl1 as <-.
  pose proof (ki_end _ _ _ K) as Hpe.
  destruct (obj_bounds _ _ _ _ _ _ _ _ _ _ K S Hg Hi) as (Hvx & _ & Hx).
  unfold take_from. wp_step. unfold get_slab. wp_step. wp_step. wp_step; [done|].
  wp_step. wp_step; [apply negb_true_iff, Z.eqb_neq; lia|]. cbv zeta.
  rewrite Hfree, wrapu_small by (unfold KMAP_BASE in *; lia).
  set (x := sl_objs sl + kc_obj_size kc * i) in *.
  wp_step. wp_step; [done|]. wp_step. unfold put_slab. wp_step. wp_step.
  set (kc' := if next =? -1 then to_full v kc else kc) in *.
  set (sl' := slab_with next (sl_freearr sl) sl) in *.
  assert (Hstep : forall Q : unit -> kstate -> Prop, Q tt (set_slot c v kc' sl' s) ->
    wp (if next =? -1 then unlink_slab v;; append_full c v else ret tt) Q
       (set_slabs (<[v := mkSlab (sl_objs sl) next (sl_n_pages sl) (sl_freearr sl)]> (k_slabs s)) s)).
  { intros Q HQ. unfold kc' in HQ. destruct (next =? -1).
    - wp_step. eapply wp_unlink_slab; [done|done|exact (other_cache A F s K c kc Hc v Hin)|].
      eapply wp_append_full; [simpl; apply lookup_insert_eq|]. rewrite ins_ins. done.
    - wp_step. unfold set_slot in HQ. rewrite (insert_id (k_caches s)) in HQ by done. exact HQ. }
  apply Hstep. wp_step. eapply wp_unlock_cache; [apply k_of_slot_caches|]. rewrite ins_slot.
  wp_step. unfold memset_obj. wp_step. wp_step.
  exists (<[v := fr]> F). split; [|split; [|split; [done|split]]].
  - apply kinv_fill. apply (kinv_relock _ _ _ c kc' false) in K'; [|apply k_of_slot_caches].
    by rewrite ins_slot in K'.
  - by apply unlocked_slot.
  - change (sizes (set_slot c v (relock false kc') sl' s) = sizes s).
    rewrite <- ins_caches_slot. erewrite sizes_ins; [done|exact Hc|]. simpl. apply R.
  - split; [unfold KMAP_BASE, NULL in *; lia|]. split; [intros c1; by eapply not_live_free|].
    intros c1 y. rewrite live_fill.
    apply (live_take A F s c kc (relock false kc') v i fr x sl); try done. by apply relinked_relock.
Qed.

Lemma took_frame A F s F0 s0 c p s' :
  (forall c1 x, live F s c1 x <-> live F0 s0 c1 x) -> sizes s = sizes s0 -> npages (k_pmem s) = npages (k_pmem s0) ->
  took A F s c p s' -> took A F0 s0 c p s'.
Proof.
  intros HL Hs Hn (F' & K & U & En & E & Hp & Hno & H). exists F'. do 2 (split; [done|]). split; [by rewrite En|].
  split; [by rewrite E|]. setoid_rewrite HL in H. setoid_rewrite HL in Hno. done.
Qed.

Lemma wp_kmem_cache_alloc_in A F s c kc :
  kinv A F s -> unlocked s -> k_caches s !! c = Some kc ->
  wp (kmem_cache_alloc c) (alloc_in A F s c) s.
Proof.
  intros K U Hc. destruct (ki_cache _ _ _ K _ _ Hc) as (Hnn & _).
  unfold kmem_cache_alloc. wp_step. wp_step; [by apply nonnull_true|].
  wp_step. eapply wp_lock_cache; [done|by eapply U|]. set (s1 := ins_cache c (relock true kc) s).
  assert (K1 : kinv A F s1) by (by apply kinv_relock).
  assert (Hc1 : k_caches s1 !! c = Some (relock true kc)) by apply lookup_insert_eq.
  assert (U1 : forall c1 k1, c1 <> c -> k_caches s1 !! c1 = Some k1 -> kc_lock k1 = false).
  { intros c1 k1 ?. unfold s1. simpl. rewrite lookup_insert_ne by done. apply U. }
  assert (HL1 : forall c1 x, live F s1 c1 x <-> live F s c1 x) by (intros; by apply live_relock).
  assert (Hz1 : sizes s1 = sizes s) by (by eapply sizes_ins).
  wp_step. eapply wp_get_cache; [done|]. wp_step. destruct (kc_free (relock true kc)) as [|v l] eqn:Efree.
  - eapply wp_slab_create; [done|done| |].
    + intros s2 K2 Ec Es En Hno. simpl. wp_step. eapply wp_unlock_cache; [rewrite Ec; done|]. wp_step.
      assert (HL2 : forall c1 x, live F s2 c1 x <-> live F s1 c1 x).
      { intros. unfold live, slot. by rewrite Ec, Es. }
      left. split; [done|]. split; [done|]. split; [apply kinv_relock; [done|by rewrite Ec]|]. split.
      * intros c1 k1. simpl. rewrite Ec, lookup_insert. case_decide; [by intros [= <-]|by apply U1].
      * split; [done|]. split.
        -- erewrite sizes_ins; [|by rewrite Ec|done]. unfold sizes. by rewrite Ec.
        -- intros c1 y. rewrite live_relock by (by rewrite Ec). by rewrite HL2, HL1.
    + intros A2 F2 v s2 K2 Hv HA2 En Ec HL2. destruct (Z.eqb_spec v NULL); [done|].
      apply (wp_mono _ (took A2 F2 s2 c)).
      * change (kc_obj_size (relock true kc)) with (kc_obj_size (with_slab v (relock true kc))).
        apply (wp_take_from A2); [done|rewrite Ec; apply lookup_insert_eq| |].
        -- simpl. apply elem_of_app. right. by apply list_elem_of_singleton.
        -- intros c1 k1 ?. rewrite Ec, lookup_insert_ne by done. by apply U1.
      * intros p s' Ht. right. exists A2. split; [done|]. revert Ht. apply took_frame; [intros; by rewrite HL2, HL1| |done].
        unfold sizes in *. rewrite Ec, fmap_insert. simpl. rewrite <- Hz1. apply insert_id.
        by rewrite lookup_fmap, Hc1.
  - wp_step. assert (Hv : v ∈ kc_free (relock true kc)) by (rewrite Efree; apply elem_of_cons; auto).
    destruct (Z.eqb_spec v NULL) as [->|].
    { exfalso. destruct (ki_cache _ _ _ K1 _ _ Hc1) as (_ & _ & _ & Hall).
      destruct (Hall NULL) as (? & ? & h & _ & _ & S & _); [apply elem_of_app; auto|].
      destruct (slab_bounds _ _ _ _ _ _ _ _ _ K1 S) as (_ & _ & ? & _);
        [apply (ki_cache _ _ _ K1 _ _ Hc1)|]. unfold KMAP_BASE, NULL in *. lia. }
    apply (wp_mono _ (took A F s1 c)).
    + by apply (wp_take_from A).
    + intros p s' Ht. right. exists A. split; [by left|]. by eapply took_frame.
Qed.

Lemma wp_kmem_cache_alloc A F s c kc :
  kinv A F s -> unlocked s -> k_caches s !! c = Some kc ->
  wp (kmem_cache_alloc c) (alloc_post F s c) s.
Proof. intros K U Hc. eapply wp_mono; [by eapply wp_kmem_cache_alloc_in|]. intros p s'. apply alloc_in_post. Qed.

(** ** Freeing *)

(** The page that holds an object points to its slab. *)
Lemma object_page A F s c kc v i x sl fr h :
  kinv A F s -> k_caches s !! c = Some kc ->
  slab_ok A (k_pmem s) c (kc_obj_size kc) v sl fr h -> good_size (kc_obj_size kc) ->
  0 <= i < slab_objs (kc_obj_size kc) -> x = sl_objs sl + kc_obj_size kc * i ->
  exists p, page_at (paddr_to_page (KMAP_V2P x)) (k_pmem s) = Some p /\ page_slab p = v /\
    page_kmem_cache p = c.
Proof.
  intros K Hc S Hg Hi ->. pose proof (ki_end _ _ _ K).
  destruct (obj_bounds _ _ _ _ _ _ _ _ _ _ K S Hg Hi) as (Hvx & Hend & Hx).
  set (x := sl_objs sl + kc_obj_size kc * i) in *.
  unfold KMAP_V2P. rewrite wrapu_small by (unfold KMAP_BASE in *; lia).
  unfold paddr_to_page, pg_size. pose proof (so_addr _ _ _ _ _ _ _ _ S) as Ev.
  pose proof (Z.div_mod (x - KMAP_BASE) PG_SIZE ltac:(done)).
  pose proof (Z.mod_pos_bound (x - KMAP_BASE) PG_SIZE ltac:(done)).
  unfold good_size, PG_SIZE in *.
  destruct (so_back _ _ _ _ _ _ _ _ S ((x - KMAP_BASE) / 4096 - h)) as (p & Hp & ? & ?); [lia|].
  exists p. by replace (h + ((x - KMAP_BASE) / 4096 - h)) with ((x - KMAP_BASE) / 4096) in Hp by lia.
Qed.

Lemma live_give A F s c kc kc' v i fr x sl sl' c1 y :
  kinv A F s -> k_caches s !! c = Some kc -> relinked v kc kc' ->
  k_slabs s !! v = Some sl -> sl_objs sl' = sl_objs sl ->
  F !! v = Some fr -> slot s c v i x ->
  live (<[v := i :: fr]> F) (set_slot c v kc' sl' s) c1 y <-> live F s c1 y /\ y <> x.
Proof.
  intros K Hc R Hsl Ho HF Hx. unfold live.
  setoid_rewrite (slot_change s c kc Hc v kc' sl sl'); [|done..]. split.
  - intros (w & j & Hs & fr' & HF' & Hj). rewrite lookup_insert in HF'. case_decide as Ew.
    + injection HF' as <-. subst w. rewrite elem_of_cons in Hj. split.
      * exists v, j. split; [done|]. exists fr. tauto.
      * intros ->. destruct (slot_inj _ _ _ _ _ _ _ _ _ _ K Hx Hs) as (_ & <- & _). tauto.
    + split; [exists w, j; split; [done|]; by exists fr'|].
      intros ->. by destruct (slot_inj _ _ _ _ _ _ _ _ _ _ K Hx Hs) as (-> & _).
  - intros [(w & j & Hs & fr' & HF' & Hj) Hne]. exists w, j. split; [done|].
    destruct (decide (v = w)) as [<-|].
    + rewrite HF in HF'. injection HF' as <-. exists (i :: fr). rewrite lookup_insert_eq. split; [done|].
      rewrite elem_of_cons. intros [->|?]; [|done]. apply Hne.
      destruct Hs as (k1 & s1 & G1 & G2 & G3 & _ & ->). destruct Hx as (k2 & s2 & E1 & E2 & E3 & _ & ->).
      assert (c1 = c) as -> by (by eapply (ki_uniq _ _ _ K)). congruence.
    + exists fr'. by rewrite lookup_insert_ne.
Qed.

Definition free_post (F : gmap Z (list Z)) (s : kstate) (x : Z) (s' : kstate) : Prop :=
  exists A' F', kinv A' F' s' /\ unlocked s' /\ sizes s' = sizes s /\
    forall c1 y, live F' s' c1 y <-> live F s c1 y /\ y <> x.

Definition freed (A : gmap Z (Z * Z)) (F : gmap Z (list Z)) (s : kstate) (x : Z) (s' : kstate) : Prop :=
  exists F', kinv A F' s' /\ unlocked s' /\ npages (k_pmem s') = npages (k_pmem s) /\ sizes s' = sizes s /\
    forall c1 y, live F' s' c1 y <-> live F s c1 y /\ y <> x.

Lemma wp_kmem_cache_free_in A F s c x :
  kinv A F s -> unlocked s -> live F s c x ->
  wp (kmem_cache_free c x) (fun _ s' => freed A F s x s') s.
Proof.
  intros K U (v & i & Hslot & fr0 & HF & Hi0).
  destruct (slot_data _ _ _ _ _ _ _ K Hslot) as (kc & sl & fr & h & Hc & Hin & Hsl & HF' & S & Hg & Hfull & Hi & Hx).
  rewrite HF in HF'. injection HF' as <-. destruct (ki_cache _ _ _ K _ _ Hc) as (Hnn & _ & Hnd & _).
  pose proof (ki_end _ _ _ K) as Hpe.
  destruct (obj_bounds _ _ _ _ _ _ _ _ _ _ K S Hg Hi) as (Hvx & _ & Hxb). rewrite <- Hx in *.
  destruct (object_page _ _ _ _ _ _ _ _ _ _ _ K Hc S Hg Hi Hx) as (p & Hp & Hps & _).
  destruct (slab_bounds _ _ _ _ _ _ _ _ _ K S Hg) as (_ & _ & Hvb & _).
  destruct (slab_geometry _ Hg) as (_ & Hno & _).
  unfold kmem_cache_free. wp_step. wp_step; [by apply nonnull_true|].
  wp_step. eapply wp_lock_cache; [done|by eapply U|].
  wp_step. eapply wp_get_cache; [apply lookup_insert_eq|]. wp_step. unfold memset_obj. wp_step.
  wp_step. unfold on_pmem at 1. wp_step. unfold kmap_v2p. wp_step. wp_step. simpl. wp_step. wp_step.
  { rewrite wrapu_small by (unfold KMAP_BASE, PG_SIZE in *; pose proof (page_at_bounds _ _ _ Hp); lia).
    apply andb_true_iff. split; [apply Z.leb_le|apply Z.ltb_lt]; lia. }
  wp_step. wp_step. unfold on_pmem. wp_step. simpl. eapply wp_get_page; [done|]. rewrite Hps.
  wp_step. wp_step; [apply nonnull_true; unfold KMAP_BASE, NULL in *; lia|].
  wp_step. unfold get_slab. wp_step. wp_step. wp_step; [done|].
  assert (Ei : i32 (u64 (x - sl_objs sl) / kc_obj_size kc) = i).
  { assert (0 <= kc_obj_size kc * i <= 32000 * 2 ^ 22) by (unfold good_size in Hg; nia).
    rewrite wrapu_small by lia.
    replace (x - sl_objs sl) with (i * kc_obj_size kc) by lia.
    rewrite Z.div_mul by (unfold good_size in Hg; lia). apply wraps_small; lia. }
  rewrite Ei. destruct (lookup_lt_is_Some_2 (sl_freearr sl) (Z.to_nat i)) as [old Hold].
  { pose proof (so_arr _ _ _ _ _ _ _ _ S). lia. }
  wp_step. wp_step; [done|]. wp_step. unfold put_slab. wp_step. wp_step.
  pose proof (freelist_end _ _ _ (so_free _ _ _ _ _ _ _ _ S)) as Hend.
  set (sl' := slab_with i (<[Z.to_nat i := sl_free sl]> (sl_freearr sl)) sl).
  set (kc' := if sl_free sl =? -1 then to_free v (relock true kc) else relock true kc).
  assert (R : relinked v kc kc' /\ (v ∈ kc_full kc' <-> i :: fr0 = [])).
  { unfold kc'. destruct (Z.eqb_spec (sl_free sl) (-1)) as [E|E].
    - destruct (relinked_to_free v (relock true kc) Hin Hnd) as [[R1 R2 R3 R4] Hvf]. split; [by constructor|].
      split; [intros; done|done].
    - split; [apply relinked_relock; by apply relinked_refl|]. split; [|done]. simpl. rewrite Hfull. intros ->. tauto. }
  destruct R as [R Hvf].
  assert (S' : slab_ok A (k_pmem s) c (kc_obj_size kc) v sl' (i :: fr0) h).
  { destruct S. unfold sl', slab_with. constructor; simpl; try done.
    - by rewrite length_insert.
    - split; [done|]. rewrite length_insert, so_arr0. split; [done|].
      exists (sl_free sl). split; [apply list_lookup_insert_eq; lia|]. by apply freelist_insert; [| |lia].
    - by constructor. }
  pose proof (kinv_change A F s K c kc Hc v Hin kc' sl' (i :: fr0) h R S' Hvf) as K'.
  set (f' := <[x := (0x2b, kc_obj_size kc)]> (k_fill s)).
  assert (Hstep : forall Q : unit -> kstate -> Prop, Q tt (set_fill f' (set_slot c v kc' sl' s)) ->
    wp (if sl_free sl =? -1 then unlink_slab v;; append_free c v else ret tt) Q
       (set_slabs (<[v := sl']> (k_slabs s)) (set_fill f' (ins_cache c (relock true kc) s)))).
  { intros Q HQ. unfold kc' in HQ. destruct (sl_free sl =? -1).
    - wp_step. eapply wp_unlink_slab; [apply lookup_insert_eq|done| |].
      { simpl. intros c' k'. rewrite lookup_insert. case_decide; [by subst|].
        exact (other_cache A F s K c kc Hc v Hin c' k'). }
      eapply wp_append_free; [simpl; apply lookup_insert_eq|]. rewrite ins_ins.
      unfold ins_cache, set_caches, set_slabs, set_fill. simpl. rewrite insert_insert_eq. done.
    - wp_step. done. }
  apply Hstep. eapply wp_unlock_cache; [apply lookup_insert_eq|].
  replace (ins_cache c (relock false kc') (set_fill f' (set_slot c v kc' sl' s)))
    with (set_fill f' (set_slot c v (relock false kc') sl' s))
    by (unfold ins_cache, set_slot, set_fill, set_caches; simpl; by rewrite insert_insert_eq).
  exists (<[v := i :: fr0]> F). split; [|split; [|split; [done|split]]].
  - apply kinv_fill. apply (kinv_relock _ _ _ c kc' false) in K'; [|apply k_of_slot_caches].
    by rewrite ins_slot in K'.
  - apply unlocked_slot. intros c1 k1 _. apply U.
  - change (sizes (set_slot c v (relock false kc') sl' s) = sizes s).
    rewrite <- ins_caches_slot. erewrite sizes_ins; [done|exact Hc|]. simpl. apply R.
  - intros c1 y. rewrite live_fill. apply (live_give A F s c kc _ v i fr0 x sl); try done.
    by apply relinked_relock.
Qed.

Lemma wp_kmem_cache_free A F s c x :
  kinv A F s -> unlocked s -> live F s c x ->
  wp (kmem_cache_free c x) (fun _ s' => free_post F s x s') s.
Proof.
  intros K U L. eapply wp_mono; [by eapply wp_kmem_cache_free_in|]. intros [] s' (F' & K' & U' & _ & E & H). by exists A, F'.
Qed.
