(* ===== verification/ObjAlloc.v ===== *)
(** * The object-allocator interface

    What the kernel's data structures rely on when they allocate their nodes
    (include/kernel/kmalloc.h): caches of fixed-size objects, created on
    first use.  [oa_live s L]: in state [s] the caches are the keys of [L],
    each with its set of live objects.  KmallocSpec.v shows that kmalloc.c
    implements the interface; RadixTree.v and Bbq.v are proved against it. *)

From stdpp Require Import prelude gmap.
From Stdlib Require Import ZArith Lia.
From S2P Require Import Prelude.

Abbreviation live_map := (gmap Z (gset Z)).

Class ObjAlloc (St : Type) := {
  oa_create : Z -> M St Z;
  oa_alloc : Z -> M St Z;
  oa_free : Z -> Z -> M St unit;
  oa_size_ok : Z -> Prop;
  oa_live : St -> live_map -> Prop;
  oa_create_spec s L size : oa_live s L -> oa_size_ok size ->
    wp (oa_create size) (fun c s' => exists L', oa_live s' L' /\
      ((c = NULL /\ L' = L) \/
       (c <> NULL /\ L !! c = None /\ L' = <[c := ∅]> L))) s;
  oa_alloc_spec s L c X : oa_live s L -> L !! c = Some X ->
    wp (oa_alloc c) (fun p s' =>
      (p = NULL /\ oa_live s' L) \/
      (p <> NULL /\ (p ∉ X) /\ oa_live s' (<[c := {[p]} ∪ X]> L))) s;
  oa_free_spec s L c X p : oa_live s L -> L !! c = Some X -> p ∈ X ->
    wp (oa_free c p) (fun _ s' => oa_live s' (<[c := X ∖ {[p]}]> L)) s
}.

(** ** Memory in reserve

    [oa_serving P]: in a state with [P n], the next [n] requests for an object
    or a cache are served, whatever the client asks for and gives back in
    between.  [oa_spare n s] is the weakest such [P].  It is a condition on the
    state: the theorems that need memory say how much, and KmallocClaims.v shows
    which free pages are enough for kmalloc.c. *)
Record oa_serving {St : Type} `{!ObjAlloc St} (P : nat -> St -> Prop) : Prop := {
  sv_alloc n s L c X : P (S n) s -> oa_live s L -> L !! c = Some X -> wp (oa_alloc c) (fun p s' => p <> NULL /\ P n s') s;
  sv_create n s L size : P (S n) s -> oa_live s L -> oa_size_ok size -> wp (oa_create size) (fun c s' => c <> NULL /\ P n s') s;
  sv_free n s L c X p : P n s -> oa_live s L -> L !! c = Some X -> p ∈ X -> wp (oa_free c p) (fun _ s' => P n s') s
}.

Definition oa_spare {St : Type} `{!ObjAlloc St} (n : nat) (s : St) : Prop := exists P, oa_serving P /\ exists k, (n <= k)%nat /\ P k s.

Section spare.
Context {St : Type} `{!ObjAlloc St}.
Implicit Types s : St.

Lemma spare_le n k s : (n <= k)%nat -> oa_spare k s -> oa_spare n s.
Proof using Type. intros Hle (P & HP & j & Hj & H). exists P. split; [done|]. exists j. split; [lia|done]. Qed.

(** What is known of one run. *)
Lemma wp_all {T A} (m : M St A) (P : A -> St -> Prop) (C : T -> Prop) (Q : T -> A -> St -> Prop) s :
  wp m P s -> (forall t, C t -> wp m (Q t) s) -> wp m (fun a s' => P a s' /\ forall t, C t -> Q t a s') s.
Proof using Type.
  intros (a & s' & E & HP)%wp_elim HQ. eapply wp_intro; [exact E|]. split; [done|]. intros t Ht.
  destruct (wp_elim _ _ _ (HQ t Ht)) as (b & s2 & E2 & H). rewrite E in E2. by injection E2 as <- <-.
Qed.

(** What a run that made [k] requests leaves of any reserve. *)
Definition uses (k : nat) s s' : Prop := forall n, oa_spare n s -> oa_spare (n - k) s'.
(** ... and when one of its requests can have failed. *)
Definition short (k : nat) s : Prop := forall n, oa_spare n s -> (n < k)%nat.

Lemma uses_refl s : uses 0 s s.
Proof using Type. intros n. by rewrite Nat.sub_0_r. Qed.
Lemma uses_trans j k s1 s2 s3 : uses j s1 s2 -> uses k s2 s3 -> uses (j + k) s1 s3.
Proof using Type. intros H1 H2 n Hn. rewrite Nat.sub_add_distr. auto. Qed.
Lemma uses_le j k s s' : (j <= k)%nat -> uses j s s' -> uses k s s'.
Proof using Type. intros Hle H n Hn. eapply spare_le, H, Hn. lia. Qed.
Lemma short_le j k s : (j <= k)%nat -> short j s -> short k s.
Proof using Type. intros Hle H n Hn. specialize (H n Hn). lia. Qed.
Lemma short_after j k s s' : uses j s s' -> short k s' -> (0 < k)%nat -> short (j + k) s.
Proof using Type. intros H1 H2 Hk n Hn. specialize (H2 _ (H1 n Hn)). lia. Qed.

Lemma spare_0 s : oa_spare 0 s.
Proof using Type.
  exists (fun n _ => n = 0%nat). split; [|by exists 0%nat]. split; [done|done|]. intros n s1 L c X p -> HL HX Hp. eapply wp_mono; [by eapply oa_free_spec|]. done.
Qed.

(** A request: it succeeds while there is a reserve, and takes one of it. *)
Lemma wp_uses (m : M St Z) (Q : Z -> St -> Prop) s :
  wp m Q s -> (forall P n, oa_serving P -> P (S n) s -> wp m (fun p s' => p <> NULL /\ P n s') s) ->
  wp m (fun p s' => Q p s' /\ uses 1 s s' /\ (p = NULL -> short 1 s)) s.
Proof using Type.
  intros HQ Hm. eapply wp_mono; [apply (wp_all m Q (fun n => oa_spare (S n) s) (fun n p s' => p <> NULL /\ oa_spare n s')); [exact HQ|]|].
  - intros n (P & HP & [|k] & Hk & H); [lia|]. eapply wp_mono; [by apply Hm|]. intros p s' [Hp H']. split; [done|]. exists P. split; [done|]. exists k. split; [lia|done].
  - intros p s' [H1 H2]. split; [done|]. split.
    + intros [|n] Hn; [apply spare_0|]. rewrite Nat.sub_1_r. by apply H2.
    + intros -> [|n] Hn; [lia|]. by destruct (H2 n Hn).
Qed.

Lemma oa_alloc_uses s L c X : oa_live s L -> L !! c = Some X ->
  wp (oa_alloc c) (fun p s' => ((p = NULL /\ oa_live s' L) \/ (p <> NULL /\ (p ∉ X) /\ oa_live s' (<[c := {[p]} ∪ X]> L))) /\
    uses 1 s s' /\ (p = NULL -> short 1 s)) s.
Proof using Type. intros HL HX. apply wp_uses; [by apply oa_alloc_spec|]. intros P n HP H. by eapply (sv_alloc P). Qed.

Lemma oa_create_uses s L size : oa_live s L -> oa_size_ok size ->
  wp (oa_create size) (fun c s' => (exists L', oa_live s' L' /\ ((c = NULL /\ L' = L) \/ (c <> NULL /\ L !! c = None /\ L' = <[c := ∅]> L))) /\
    uses 1 s s' /\ (c = NULL -> short 1 s)) s.
Proof using Type. intros HL Hs. apply wp_uses; [by apply oa_create_spec|]. intros P n HP H. by eapply (sv_create P). Qed.

Lemma oa_free_uses s L c X p : oa_live s L -> L !! c = Some X -> p ∈ X ->
  wp (oa_free c p) (fun _ s' => oa_live s' (<[c := X ∖ {[p]}]> L) /\ uses 0 s s') s.
Proof using Type.
  intros HL HX Hp. eapply wp_mono; [apply (wp_all _ (fun _ s' => oa_live s' (<[c := X ∖ {[p]}]> L)) (fun n => oa_spare n s) (fun n _ s' => oa_spare n s')); [by apply oa_free_spec|]|].
  - intros n (P & HP & k & Hk & H). eapply wp_mono; [by eapply (sv_free P)|]. intros [] s' H'. exists P. split; [done|]. by exists k.
  - intros [] s' [H1 H2]. split; [done|]. intros n Hn. rewrite Nat.sub_0_r. by apply H2.
Qed.
End spare.
