(* ===== verification/KmallocSpec.v ===== *)
(** * What kmalloc.c promises

    The claims about the slab allocator, and the instance that shows it
    implements the object-allocator interface of ObjAlloc.v. *)

From stdpp Require Import prelude list gmap.
From Stdlib Require Import ZArith Lia.
From S2P Require Import Prelude Mmu Bits Tiling Pmem PmemBuddy PmemSpec DList Kmalloc KmallocInv ObjAlloc.

(** ** A live object is never the static cache *)

Lemma live_not_static A F s c : kinv A F s -> ~ live F s c allocator_cache.
Proof.
  intros K (v & i & Hslot & _).
  destruct (slot_data _ _ _ _ _ _ _ K Hslot) as (kc & sl & fr & h & Hc & Hin & _ & _ & S & Hg & _ & Hi & Hx).
  destruct (obj_bounds _ _ _ _ _ _ _ _ _ _ K S Hg Hi) as (Hlo & Hhi & _). rewrite <- Hx in *.
  destruct (ki_static _ _ _ K) as [r Hr]. pose proof (ki_image _ _ _ K _ _ _ Hc Hin) as Hne.
  destruct (so_block _ _ _ _ _ _ _ _ S) as (o & r' & HA & Hle).
  destruct (ki_rep _ _ _ K) as (B & I & HR).
  destruct (reps_allocd _ _ _ _ _ _ HR HA) as (p1 & (HB1 & _) & _).
  destruct (reps_allocd _ _ _ _ _ _ HR Hr) as (p2 & (HB2 & _) & _).
  rewrite (so_addr _ _ _ _ _ _ _ _ S) in *. unfold good_size in Hg.
  change static_page with 512 in *. change allocator_cache with (KMAP_BASE + 512 * 4096) in *.
  assert (h <> 512) by (intros ->; done).
  destruct (tl_disj _ _ _ (inv_tiling _ _ _ I) _ _ _ _ HB1 HB2 ltac:(done)); unfold PG_SIZE in *; lia.
Qed.

(** ** Creating a cache *)

(** Every cache but the static one is a live object of the static one. *)
Definition caches_owned (F : gmap Z (list Z)) (s : kstate) : Prop :=
  is_Some (k_caches s !! allocator_cache) /\
  forall c, is_Some (k_caches s !! c) -> c = allocator_cache \/ live F s allocator_cache c.

Lemma sizes_is_Some s s' c : sizes s' = sizes s -> is_Some (k_caches s' !! c) <-> is_Some (k_caches s !! c).
Proof.
  intros E. apply (f_equal (lookup c)) in E. unfold sizes in E. rewrite !lookup_fmap in E.
  rewrite <- !(fmap_is_Some kc_obj_size). by rewrite E.
Qed.

Lemma kinv_new_cache A F s c size :
  kinv A F s -> c <> NULL -> good_size size -> k_caches s !! c = None ->
  kinv A F (ins_cache c (mkCache [] [] false size) s).
Proof.
  intros K Hn Hg Hc. constructor; simpl; try apply K.
  - intros c1 kc1. rewrite lookup_insert. case_decide; [intros [= <-]; subst|apply K].
    do 2 (split; [done|]). split; [constructor|]. intros v Hv. by apply elem_of_nil in Hv.
  - intros c1 kc1 c2 kc2 v. rewrite !lookup_insert. intros H1 H2 I1 I2.
    repeat case_decide; simplify_eq; try done; try (by apply elem_of_nil in I1 || by apply elem_of_nil in I2).
    by eapply (ki_uniq _ _ _ K).
  - intros c1 kc1 v. rewrite lookup_insert. case_decide; [intros [= <-] Hv; by apply elem_of_nil in Hv|].
    intros. by eapply (ki_image _ _ _ K).
Qed.

Lemma live_new_cache F s c size c1 x :
  k_caches s !! c = None ->
  live F (ins_cache c (mkCache [] [] false size) s) c1 x <-> live F s c1 x.
Proof.
  intros Hc. unfold live, slot. simpl. split.
  - intros (v & i & (kc & sl & H1 & H2 & H3) & Ht). rewrite lookup_insert in H1.
    case_decide; [injection H1 as <-; by apply elem_of_nil in H2|].
    exists v, i. split; [|done]. by exists kc, sl.
  - intros (v & i & (kc & sl & H1 & H2 & H3) & Ht). exists v, i. split; [|done]. exists kc, sl.
    rewrite lookup_insert_ne; [done|]. intros <-. by rewrite Hc in H1.
Qed.

Lemma owned_after F s F' s' :
  caches_owned F s -> sizes s' = sizes s ->
  (forall x, live F s allocator_cache x -> live F' s' allocator_cache x) -> caches_owned F' s'.
Proof.
  intros [H1 H2] Hs HL. split; [by rewrite (sizes_is_Some s)|].
  intros c. rewrite (sizes_is_Some s s') by done. intros [->|?]%H2; auto.
Qed.

Definition create_post (F : gmap Z (list Z)) (s : kstate) (size c : Z) (s' : kstate) : Prop :=
  exists A' F', kinv A' F' s' /\ unlocked s' /\ caches_owned F' s' /\
    ((c = NULL /\ sizes s' = sizes s /\ forall c1 x, live F' s' c1 x <-> live F s c1 x) \/
     (c <> NULL /\ k_caches s !! c = None /\ sizes s' = <[c := size]> (sizes s) /\
      forall c1 x, live F' s' c1 x <-> live F s c1 x \/ (c1 = allocator_cache /\ x = c))).

(** The same with what is known of the pages. *)
Definition create_in (A : gmap Z (Z * Z)) (F : gmap Z (list Z)) (s : kstate) (size c : Z) (s' : kstate) : Prop :=
  exists A' F', grown A A' /\ npages (k_pmem s') = npages (k_pmem s) /\ (c = NULL -> forall b, ~ free_run A (k_pmem s) b MAX_ORDER) /\
    kinv A' F' s' /\ unlocked s' /\ caches_owned F' s' /\
    ((c = NULL /\ sizes s' = sizes s /\ forall c1 x, live F' s' c1 x <-> live F s c1 x) \/
     (c <> NULL /\ k_caches s !! c = None /\ sizes s' = <[c := size]> (sizes s) /\
      forall c1 x, live F' s' c1 x <-> live F s c1 x \/ (c1 = allocator_cache /\ x = c))).

Lemma wp_kmem_cache_create_in A F s size :
  kinv A F s -> unlocked s -> caches_owned F s -> good_size size ->
  wp (kmem_cache_create size) (create_in A F s size) s.
Proof.
  intros K U O Hg. pose proof O as [[kc0 Hc0] Hown]. unfold kmem_cache_create. wp_step.
  eapply wp_mono; [by eapply wp_kmem_cache_alloc_in|].
  intros c s1 [(-> & Hno & K1 & U1 & En & Hs1 & HL)|(A1 & HA1 & F1 & K1 & U1 & En & Hs1 & Hnz & Hfresh & HL)].
  - simpl. wp_step. exists A, F. split; [by left|]. do 4 (split; [done|]). split; [|by left].
    eapply owned_after; [done..|]. intros. by apply HL.
  - destruct (Z.eqb_spec c NULL); [done|]. wp_step. unfold put_cache. wp_step. wp_step.
    assert (Hc : k_caches s !! c = None).
    { apply eq_None_not_Some. intros [->|?]%Hown; [|by eapply Hfresh].
      eapply (live_not_static _ _ _ allocator_cache K1). apply HL. auto. }
    assert (Hc1 : k_caches s1 !! c = None).
    { apply eq_None_not_Some. rewrite (sizes_is_Some s) by done. intros [? E]. by rewrite Hc in E. }
    fold (ins_cache c (mkCache [] [] false size) s1).
    exists A1, F1. do 3 (split; [done|]). split; [by apply kinv_new_cache|]. split; [|split].
    + intros c1 k1. simpl. rewrite lookup_insert. case_decide; [by intros [= <-]|apply U1].
    + split; [simpl; rewrite lookup_insert; case_decide; [done|by rewrite (sizes_is_Some s)]|].
      intros c1. simpl. rewrite lookup_insert. rewrite live_new_cache, HL by done.
      case_decide; [subst; auto|]. rewrite (sizes_is_Some s s1) by done. intros [->|?]%Hown; auto.
    + right. do 2 (split; [done|]). split.
      * unfold sizes in *. simpl. by rewrite fmap_insert, Hs1.
      * intros c1 x. by rewrite live_new_cache, HL.
Qed.

Lemma wp_kmem_cache_create A F s size :
  kinv A F s -> unlocked s -> caches_owned F s -> good_size size ->
  wp (kmem_cache_create size) (create_post F s size) s.
Proof. intros. eapply wp_mono; [by eapply wp_kmem_cache_create_in|]. intros c s' (A' & F' & _ & _ & _ & Hpost). by exists A', F'. Qed.

(** ** The interface *)

(** The caches a client can use are all but the static one. *)
Definition kalloc_live (s : kstate) (L : live_map) : Prop :=
  exists A F, kinv A F s /\ unlocked s /\ caches_owned F s /\
    (forall c, is_Some (L !! c) <-> is_Some (k_caches s !! c) /\ c <> allocator_cache) /\
    (forall c X x, L !! c = Some X -> x ∈ X <-> live F s c x).

Lemma owned_alloc F s F' s' c :
  caches_owned F s -> sizes s' = sizes s -> c <> allocator_cache ->
  (forall c1 y, c1 <> c -> live F' s' c1 y <-> live F s c1 y) -> caches_owned F' s'.
Proof. intros O Hs Hc HL. eapply owned_after; [done..|]. intros x. by rewrite HL. Qed.

#[export] Program Instance kmalloc_objalloc : ObjAlloc kstate := {|
  oa_create := kmem_cache_create;
  oa_alloc := kmem_cache_alloc;
  oa_free := kmem_cache_free;
  oa_size_ok := good_size;
  oa_live := kalloc_live
|}.
Next Obligation.
  intros s L size (A & F & K & U & O & Hdom & HL) Hg.
  eapply wp_mono; [by eapply wp_kmem_cache_create|].
  intros c s' (A' & F' & K' & U' & O' & [(-> & Hs & HL')|(Hnz & Hnew & Hs & HL')]).
  - exists L. split; [|by left]. exists A', F'. do 3 (split; [done|]).
    split; [intros c; by rewrite Hdom, (sizes_is_Some s s')|].
    intros c X x Hc. by rewrite HL', (HL c X).
  - assert (Hne : c <> allocator_cache) by (intros ->; destruct O as [[? E] _]; congruence).
    exists (<[c := ∅]> L). split; [|right].
    + exists A', F'. do 3 (split; [done|]). split.
      * intros c1. assert (Hs1 : is_Some (k_caches s' !! c1) <-> c1 = c \/ is_Some (k_caches s !! c1)).
        { rewrite <- (fmap_is_Some kc_obj_size), <- lookup_fmap. change (kc_obj_size <$> k_caches s') with (sizes s').
          rewrite Hs, lookup_insert. unfold sizes. rewrite lookup_fmap, <- (fmap_is_Some kc_obj_size (k_caches s !! c1)).
          case_decide; [subst; split; [auto|by eexists]|]. naive_solver. }
        rewrite Hs1, lookup_insert. case_decide; [subst; split; [auto|by eexists]|]. rewrite Hdom. naive_solver.
      * intros c1 X x. rewrite lookup_insert, HL'. case_decide; [subst; intros [= <-]|intros Hc1].
        -- split; [set_solver|]. intros [(v & i & (kc & sl & E & _) & _)|[? _]]; [congruence|done].
        -- rewrite (HL c1 X) by done. split; [auto|]. intros [?|[-> _]]; [done|].
           destruct (proj1 (Hdom allocator_cache)) as [_ ?]; [by eexists|done].
    + split; [done|]. split; [|done].
      apply eq_None_not_Some. rewrite Hdom. intros [[? E] _]. congruence.
Qed.
Next Obligation.
  intros s L c X (A & F & K & U & O & Hdom & HL) HX.
  destruct (proj1 (Hdom c)) as [[kc Hc] Hne]; [by eexists|].
  eapply wp_mono; [by eapply wp_kmem_cache_alloc|].
  intros p s' (A' & F' & K' & U' & Hs & [[-> HL']|(Hnz & Hfresh & HL')]).
  - left. split; [done|]. exists A', F'. do 2 (split; [done|]).
    split; [eapply owned_after; [done..|]; intros; by apply HL'|].
    split; [intros c1; by rewrite Hdom, (sizes_is_Some s s')|].
    intros c1 X1 x H1. by rewrite HL', (HL c1 X1).
  - right. split; [done|]. split; [rewrite (HL c X) by done; apply Hfresh|].
    exists A', F'. do 2 (split; [done|]).
    split; [eapply owned_after; [done..|]; intros; apply HL'; auto|]. split.
    + intros c1. rewrite (sizes_is_Some s s'), <- Hdom, lookup_insert by done.
      case_decide; [subst; by rewrite HX|done].
    + intros c1 X1 x. rewrite lookup_insert, HL'. case_decide; [subst; intros [= <-]|intros H1].
      * rewrite elem_of_union, elem_of_singleton, (HL c1 X) by done. tauto.
      * rewrite (HL c1 X1) by done. naive_solver.
Qed.
Next Obligation.
  intros s L c X p (A & F & K & U & O & Hdom & HL) HX Hp.
  destruct (proj1 (Hdom c)) as [_ Hne]; [by eexists|]. apply (HL c X) in Hp as Hlive; [|done].
  eapply wp_mono; [by eapply wp_kmem_cache_free|].
  intros [] s' (A' & F' & K' & U' & Hs & HL').
  assert (Hother : forall c1, c1 <> c -> ~ live F s c1 p).
  { intros c1 Hc1 (v1 & i1 & H1 & _). destruct Hlive as (v & i & H2 & _).
    by destruct (slot_inj _ _ _ _ _ _ _ _ _ _ K H1 H2) as (_ & _ & ?). }
  exists A', F'. do 2 (split; [done|]). split.
  { eapply owned_after; [done..|]. intros x Hx. apply HL'. split; [done|]. intros ->. by eapply Hother. }
  split.
  - intros c1. rewrite (sizes_is_Some s s'), <- Hdom, lookup_insert by done.
    case_decide; [subst; by rewrite HX|done].
  - intros c1 X1 x. rewrite lookup_insert, HL'. case_decide; [subst; intros [= <-]|intros H1].
    + rewrite elem_of_difference, elem_of_singleton, (HL c1 X) by done. done.
    + rewrite (HL c1 X1) by done. split; [|tauto]. intros Hx. split; [done|]. intros ->. by eapply Hother.
Qed.

(** ** Memory in reserve

    [runs A P n]: at least [n] blocks of the largest order are free.  An
    allocation of any size takes at most one of them. *)
Definition runs (A : gmap Z (Z * Z)) (P : pmem) (n : nat) : Prop :=
  exists l, NoDup l /\ (n <= length l)%nat /\ Forall (fun b => free_run A P b MAX_ORDER) l.

Lemma runs_free A P n : runs A P (S n) -> exists b, free_run A P b MAX_ORDER.
Proof. intros ([|b l] & _ & Hn & Hl); [cbn in Hn; lia|]. exists b. by inversion Hl. Qed.

(** An aligned block lies in one block of the largest order. *)
Lemma block_in_run h o b : 0 <= o <= MAX_ORDER -> (2 ^ o | h) -> (2 ^ MAX_ORDER | b) -> b <> h / 2 ^ MAX_ORDER * 2 ^ MAX_ORDER ->
  disjoint_pages b (2 ^ MAX_ORDER) h (2 ^ o).
Proof.
  intros Ho [q ->] [k ->] Hne. set (m := 2 ^ MAX_ORDER) in *.
  assert (Hm : m = 2 ^ (MAX_ORDER - o) * 2 ^ o) by (unfold m; rewrite <- Z.pow_add_r by lia; f_equal; lia).
  pose proof (pow2_pos o ltac:(lia)). pose proof (pow2_pos (MAX_ORDER - o) ltac:(lia)). set (w := 2 ^ o) in *. set (z := 2 ^ (MAX_ORDER - o)) in *.
  assert (E : q * w / m = q / z) by (rewrite Hm, Z.div_mul_cancel_r by lia; done).
  rewrite E in Hne. pose proof (Z.div_mod q z ltac:(lia)). pose proof (Z.mod_pos_bound q z ltac:(lia)). assert (k <> q / z) by congruence.
  unfold disjoint_pages. destruct (Z.lt_ge_cases k (q / z)); [left|right]; nia.
Qed.

Lemma runs_grown A A' P P' n : grown A A' -> npages P' = npages P -> runs A P (S n) -> runs A' P' n.
Proof.
  intros HA Hn (l & Hnd & Hlen & Hl). rewrite Forall_forall in Hl.
  assert (Hkeep : forall b, free_run A P b MAX_ORDER -> free_run A P' b MAX_ORDER) by (unfold free_run; intros; by rewrite Hn).
  destruct HA as [->|(h & o & Ho & Hd & ->)].
  { exists l. split; [done|]. split; [lia|]. apply Forall_forall. auto. }
  set (t := h / 2 ^ MAX_ORDER * 2 ^ MAX_ORDER). exists (filter (fun b => b <> t) l). split; [by apply NoDup_filter|]. split.
  - assert (Hsplit : (length l <= S (length (filter (fun b => b <> t) l)))%nat); [|lia]. clear -Hnd. induction Hnd as [|x l Hx Hnd IH]; [cbn; lia|].
    rewrite filter_cons. case_decide as E; cbn [length]; [lia|]. subst x. clear IH.
    rewrite filter_ne_id by done. done.
  - apply Forall_forall. intros b [Hb Hin]%list_elem_of_filter. destruct (Hkeep b (Hl b Hin)) as (H1 & H2 & H3 & H4). do 3 (split; [done|]).
    intros h' k r. rewrite lookup_insert. case_decide; [intros [= <- <-]; subst h'; by apply block_in_run|apply H4].
Qed.

(** The free slots of a slab are determined by its array. *)
Lemma freelist_unique arr l1 : forall f l2, freelist arr f l1 -> freelist arr f l2 -> l1 = l2.
Proof.
  induction l1 as [|i l1 IH]; intros f [|j l2]; cbn [freelist]; [done|..].
  - intros -> (? & ? & _). lia.
  - intros (-> & ? & _) E. lia.
  - intros (-> & _ & g1 & E1 & H1) (-> & _ & g2 & E2 & H2). rewrite E1 in E2. injection E2 as <-. f_equal. by eapply IH.
Qed.

Lemma live_unique A1 F1 A2 F2 s c x : kinv A1 F1 s -> kinv A2 F2 s -> live F1 s c x -> live F2 s c x.
Proof.
  intros K1 K2 (v & i & Hs & fr & HF & Hi).
  destruct (slot_data _ _ _ _ _ _ _ K1 Hs) as (kc1 & sl1 & fr1 & h1 & Hc1 & _ & Hsl1 & HF1 & S1 & _).
  destruct (slot_data _ _ _ _ _ _ _ K2 Hs) as (kc2 & sl2 & fr2 & h2 & Hc2 & _ & Hsl2 & HF2 & S2 & _). simplify_eq.
  exists v, i. split; [done|]. exists fr2. split; [done|]. by rewrite <- (freelist_unique _ _ _ _ (so_free _ _ _ _ _ _ _ _ S1) (so_free _ _ _ _ _ _ _ _ S2)).
Qed.

(** A state with [n] such blocks serves the next [n] requests. *)
Definition stocked (n : nat) (s : kstate) : Prop :=
  exists A F, kinv A F s /\ unlocked s /\ caches_owned F s /\ runs A (k_pmem s) n.

Lemma stocked_serving : oa_serving stocked.
Proof.
  split.
  - intros n s L c X (A & F & K & U & O & HR) (_ & _ & _ & _ & _ & Hdom & _) HX. destruct (proj1 (Hdom c)) as [[kc Hc] Hne]; [by eexists|].
    eapply wp_mono; [by eapply wp_kmem_cache_alloc_in|]. intros p s' [(-> & Hno & _)|(A' & HA & F' & K' & U' & En & Hs & Hp & _ & HL)].
    { destruct (runs_free _ _ _ HR) as [b Hb]. by destruct (Hno b). }
    split; [done|]. exists A', F'. do 2 (split; [done|]). split; [|by eapply runs_grown].
    eapply owned_after; [done..|]. intros x Hx. apply HL. by left.
  - intros n s L size (A & F & K & U & O & HR) _ Hg. eapply wp_mono; [by eapply wp_kmem_cache_create_in|].
    intros c s' (A' & F' & HA & En & Hno & K' & U' & O' & _). split.
    + intros ->. destruct (runs_free _ _ _ HR) as [b Hb]. by destruct (Hno eq_refl b).
    + exists A', F'. do 3 (split; [done|]). by eapply runs_grown.
  - intros n s L c X p (A & F & K & U & O & HR) (A1 & F1 & K1 & _ & _ & Hdom & HL) HX Hp. apply (HL c X) in Hp; [|done].
    destruct (proj1 (Hdom c)) as [_ Hne]; [by eexists|]. pose proof (live_unique _ _ _ _ _ _ _ K1 K Hp) as Hlive.
    eapply wp_mono; [exact (wp_kmem_cache_free_in A F s c p K U Hlive)|]. intros [] s' (F' & K' & U' & En & Hs & HL'). exists A, F'. do 2 (split; [done|]). split.
    + eapply owned_after; [done..|]. intros x Hx. apply HL'. split; [done|]. intros ->.
      destruct Hx as (v1 & i1 & H1 & _), Hlive as (v & i & H2 & _). destruct (slot_inj _ _ _ _ _ _ _ _ _ _ K H1 H2) as (_ & _ & ?). congruence.
    + destruct HR as (l & ? & ? & Hl). exists l. do 2 (split; [done|]). eapply Forall_impl; [exact Hl|]. intros b. unfold free_run. rewrite En. done.
Qed.

Lemma stocked_spare n s : stocked n s -> oa_spare n s.
Proof. intros H. exists stocked. split; [apply stocked_serving|]. by exists n. Qed.

(** ** kmalloc and kfree *)

(** The table [kmalloc_allocators] after [kmalloc_init]. *)
Definition table_ok (s : kstate) : Prop :=
  exists cs, length cs = length kmalloc_sizes /\ k_allocators s = zip cs kmalloc_sizes /\
    forall c z, (c, z) ∈ zip cs kmalloc_sizes -> sizes s !! c = Some z.

(** The size class that serves a request. *)
Definition size_class (size z : Z) : Prop :=
  z ∈ kmalloc_sizes /\ size <= z /\ forall z', z' ∈ kmalloc_sizes -> size <= z' -> z <= z'.

Lemma table_lookup s i : table_ok s -> (i < 8)%nat ->
  exists c z, k_allocators s !! i = Some (c, z) /\ kmalloc_sizes !! i = Some z /\ sizes s !! c = Some z.
Proof.
  intros (cs & Hlen & E & Hall) Hi.
  destruct (lookup_lt_is_Some_2 cs i) as [c Hc]; [by rewrite Hlen|].
  destruct (lookup_lt_is_Some_2 kmalloc_sizes i) as [z Hz]; [done|]. exists c, z.
  assert (Hl : zip cs kmalloc_sizes !! i = Some (c, z)) by (by apply lookup_zip_with_Some; eauto 6).
  rewrite E. do 2 (split; [done|]). by apply Hall, list_elem_of_lookup_2 with i.
Qed.

Lemma sizes_mono i j zi zj : kmalloc_sizes !! i = Some zi -> kmalloc_sizes !! j = Some zj ->
  (i < j)%nat -> zi < zj.
Proof.
  intros Hi Hj Hlt. pose proof (lookup_lt_Some _ _ _ Hj) as Hl. simpl in Hl.
  do 8 (destruct j as [|j]; [do 8 (destruct i as [|i]; [simpl in *; simplify_eq; lia|]); lia|]). lia.
Qed.

Lemma table_last s c7 : table_ok s -> k_allocators s !! 7%nat = Some (c7, 4096) ->
  List.last (Some <$> k_allocators s) None = Some (c7, 4096).
Proof.
  intros (cs & Hlen & E & _) H7. rewrite E in *. do 9 (destruct cs as [|? cs]; try done).
Qed.

Lemma wp_kmalloc A F s size :
  kinv A F s -> unlocked s -> table_ok s -> 0 < size <= 4096 ->
  wp (kmalloc size) (fun p s' => exists c z, size_class size z /\ sizes s !! c = Some z /\
     alloc_post F s c p s') s.
Proof.
  intros K U T Hsz. unfold kmalloc. destruct (Z.eqb_spec size 0); [lia|]. wp_step. wp_step.
  assert (Hlen : length (k_allocators s) = 8%nat).
  { destruct T as (cs & Hl & E & _). rewrite E, length_zip_with, Hl. done. }
  destruct (table_lookup s 7 T ltac:(lia)) as (c7 & z7 & H7 & [= <-] & _).
  wp_step. wp_step; [by apply table_last|]. simpl. destruct (Z.ltb_spec 4096 size); [lia|].
  wp_step. rewrite Hlen.
  apply (wp_for_ret _ _ _ (fun i s' => s' = s /\ 0 <= i /\
     forall j z, (Z.of_nat j < i) -> kmalloc_sizes !! j = Some z -> z < size)).
  - split; [done|]. split; [lia|]. intros. lia.
  - intros i s' Hi (-> & _ & Hsmall).
    destruct (table_lookup s (Z.to_nat i) T ltac:(lia)) as (c & z & Ht & Hz & Hs).
    wp_step. wp_step; [done|]. simpl. destruct (Z.leb_spec size z).
    + wp_step. unfold sizes in Hs. rewrite lookup_fmap in Hs.
      destruct (k_caches s !! c) as [kc|] eqn:Ec; [|done]. simpl in Hs.
      eapply wp_mono; [by eapply wp_kmem_cache_alloc|]. intros p s' Hp. wp_step. wp_step.
      exists c, z. split; [|split; [|done]].
      * split; [by eapply list_elem_of_lookup_2|]. split; [done|].
        intros z' [j Hj]%list_elem_of_lookup Hle.
        destruct (decide (Z.of_nat j < i)) as [Hlt|]; [pose proof (Hsmall j z' Hlt Hj); lia|].
        destruct (decide (j = Z.to_nat i)) as [->|]; [rewrite Hz in Hj; injection Hj as <-; lia|].
        pose proof (sizes_mono _ _ _ _ Hz Hj ltac:(lia)). lia.
      * unfold sizes. by rewrite lookup_fmap, Ec.
    + wp_step. split; [done|]. split; [lia|]. intros j z' Hj Hz'.
      destruct (decide (Z.of_nat j = i)) as [<-|]; [|apply (Hsmall j); [lia|done]].
      rewrite Nat2Z.id in Hz. by simplify_eq.
  - intros s' (_ & _ & Hsmall). exfalso. pose proof (Hsmall 7%nat 4096 ltac:(lia) eq_refl). lia.
Qed.

(** [kfree] finds the cache of an object through its page. *)
Lemma wp_kfree A F s c x :
  kinv A F s -> unlocked s -> live F s c x -> wp (kfree x) (fun _ s' => free_post F s x s') s.
Proof.
  intros K U Hlive. pose proof Hlive as (v & i & Hslot & _).
  destruct (slot_data _ _ _ _ _ _ _ K Hslot) as (kc & sl & fr & h & Hc & Hin & _ & _ & S & Hg & _ & Hi & Hx).
  destruct (object_page _ _ _ _ _ _ _ _ _ _ _ K Hc S Hg Hi Hx) as (p & Hp & _ & Hpc).
  destruct (obj_bounds _ _ _ _ _ _ _ _ _ _ K S Hg Hi) as (_ & _ & Hxb). rewrite <- Hx in *.
  pose proof (ki_end _ _ _ K). destruct (ki_cache _ _ _ K _ _ Hc) as (Hnn & _).
  unfold kfree. wp_step. unfold on_pmem at 1. wp_step. unfold kmap_v2p. wp_step. wp_step. wp_step. wp_step.
  { rewrite wrapu_small by (unfold KMAP_BASE, PG_SIZE in *; pose proof (page_at_bounds _ _ _ Hp); lia).
    apply andb_true_iff. split; [apply Z.leb_le|apply Z.ltb_lt]; lia. }
  wp_step. wp_step. unfold on_pmem. wp_step. rewrite set_pmem_id. eapply wp_get_page; [done|].
  rewrite set_pmem_id, Hpc. wp_step. wp_step; [by apply nonnull_true|].
  by eapply wp_kmem_cache_free.
Qed.
