(* ===== verification/KmallocClaims.v ===== *)
(** * Claims about the slab allocator

    The theorems about kernel/mm/kmalloc.c, each with a witness on a small
    machine of 2048 pages: the first 1024 are allocated singly, the others are
    one free block, and one cache of 8-byte objects has one slab, on page 1,
    whose slot 0 is taken. *)

From stdpp Require Import prelude list gmap.
From Stdlib Require Import ZArith Lia.
From S2P Require Import Prelude Mmu Bits Tiling Pmem PmemBuddy PmemSpec DList Kmalloc KmallocInv ObjAlloc KmallocSpec.

(** ** A flat machine: 1024 single pages, then [m] free blocks of 1024 pages *)

Definition flat_page (f : Z -> Z * Z) (i : Z) : page := set_slab (fst (f i)) (snd (f i)) (set_refcnt 1 page_zero).
Definition run_head (k : Z) : Z := 1024 * k.
Definition flat (m : Z) (f : Z -> Z * Z) : pmem :=
  mkPmem 0 ((1024 + 1024 * m) * PG_SIZE) [] 0 0
         ((flat_page f <$> seqZ 0 1024) ++ replicate (Z.to_nat (1024 * m)) (set_order MAX_ORDER page_zero)) true
         (replicate 10 [] ++ [run_head <$> seqZ 1 m]) false.
Definition flat_A : gmap Z (Z * Z) := gset_to_gmap (0, 1) (list_to_set (seqZ 0 1024)).

Section flat.
Context (m : Z) (f : Z -> Z * Z) (Hm : 0 <= m <= 510).

Lemma flat_npages : npages (flat m f) = 1024 + 1024 * m.
Proof using Hm. unfold npages. cbn [pagemap flat]. rewrite length_app, length_fmap, length_seqZ, length_replicate. lia. Qed.

Lemma flat_page_at i : 0 <= i < 1024 + 1024 * m ->
  page_at i (flat m f) = Some (if i <? 1024 then flat_page f i else set_order MAX_ORDER page_zero).
Proof using Hm.
  intros Hi. unfold page_at. destruct (Z.leb_spec 0 i); [|lia]. cbn [pagemap flat].
  destruct (Z.ltb_spec i 1024).
  - rewrite lookup_app_l by (rewrite length_fmap, length_seqZ; lia).
    rewrite list_lookup_fmap, lookup_seqZ_lt by lia. simpl. do 2 f_equal. lia.
  - rewrite lookup_app_r; rewrite length_fmap, length_seqZ; [|lia]. apply lookup_replicate_2. lia.
Qed.

Lemma elem_runs h : h ∈ run_head <$> seqZ 1 m <-> exists k, h = 1024 * k /\ 1 <= k <= m.
Proof using Hm.
  clear f. rewrite list_elem_of_fmap. unfold run_head. setoid_rewrite elem_of_seqZ. split; intros (k & -> & Hk); exists k; (split; [done|lia]).
Qed.

Lemma nodup_runs : NoDup (run_head <$> seqZ 1 m).
Proof using Type. clear f Hm. assert (Inj (=) (=) run_head) by (unfold run_head; intros i j; lia). apply (NoDup_fmap_2 run_head), NoDup_seqZ. Qed.

Lemma flat_fl o h : 0 <= o -> h ∈ fl o (flat m f) <-> o = MAX_ORDER /\ exists k, h = 1024 * k /\ 1 <= k <= m.
Proof using Hm.
  intros Ho. unfold fl. change MAX_ORDER with 10. destruct (decide (o = 10)) as [->|Hne].
  - change (freeblocks (flat m f) !! Z.to_nat 10) with (Some (run_head <$> seqZ 1 m)). simpl default. rewrite elem_runs. tauto.
  - assert (E : default [] (freeblocks (flat m f) !! Z.to_nat o) = []).
    { destruct (decide (Z.to_nat o < 10)%nat) as [Hlt|Hge].
      - change (freeblocks (flat m f)) with (replicate 10 ([] : list Z) ++ [run_head <$> seqZ 1 m]).
        rewrite lookup_app_l by (rewrite length_replicate; lia). by rewrite lookup_replicate_2.
      - rewrite lookup_ge_None_2; [done|]. change (length (freeblocks (flat m f))) with 11%nat. lia. }
    rewrite E, elem_of_nil. split; [done|]. intros [? _]. done.
Qed.

Let B : gmap Z Z := gset_to_gmap MAX_ORDER (list_to_set (run_head <$> seqZ 1 m)) ∪ gset_to_gmap 0 (list_to_set (seqZ 0 1024)).

Lemma flat_B h o : B !! h = Some o <-> (o = 0 /\ 0 <= h < 1024) \/ (o = MAX_ORDER /\ exists k, h = 1024 * k /\ 1 <= k <= m).
Proof using Hm.
  clear f. unfold B. rewrite lookup_union_Some_raw, !lookup_gset_to_gmap_Some, lookup_gset_to_gmap_None, !elem_of_list_to_set, elem_runs, elem_of_seqZ. split.
  - intros [[Hk <-]|(_ & Hh & <-)]; [right; by split|left; lia].
  - intros [[-> Hh]|[-> Hk]]; [right|left; by split]. split; [|split; [lia|done]]. intros (k & ? & ?). lia.
Qed.

Lemma flat_A_lookup h o r : flat_A !! h = Some (o, r) <-> o = 0 /\ r = 1 /\ 0 <= h < 1024.
Proof using Type.
  clear Hm f B. unfold flat_A. rewrite lookup_gset_to_gmap_Some, elem_of_list_to_set, elem_of_seqZ.
  split; [intros [? [= <- <-]]; lia|intros (-> & -> & ?); split; [lia|done]].
Qed.

Lemma flat_tiling : tiling MAX_ORDER B (1024 + 1024 * m).
Proof using Hm.
  clear f. change MAX_ORDER with 10. constructor.
  - intros h o [[-> Hh]|[-> (k & -> & Hk)]]%flat_B; change (2 ^ MAX_ORDER) with 1024; change MAX_ORDER with 10.
    + split; [lia|]. split; [lia|]. split; [exists h; lia|simpl; lia].
    + split; [lia|]. split; [lia|]. split; [exists k; lia|lia].
  - intros h1 o1 h2 o2 H1%flat_B H2%flat_B Hne. change MAX_ORDER with 10 in *.
    destruct H1 as [[-> ?]|[-> (k1 & -> & ?)]], H2 as [[-> ?]|[-> (k2 & -> & ?)]]; change (2 ^ 10) with 1024; change (2 ^ 0) with 1; lia.
  - intros i Hi. destruct (Z.lt_ge_cases i 1024); [exists i, 0; rewrite flat_B; change (2 ^ 0) with 1; split; [left; lia|lia]|].
    exists (1024 * (i / 1024)), 10. pose proof (Z.div_mod i 1024 ltac:(lia)). pose proof (Z.mod_pos_bound i 1024 ltac:(lia)). rewrite flat_B. change (2 ^ 10) with 1024. split; [right|lia].
    split; [done|]. exists (i / 1024). split; [done|]. lia.
Qed.

Lemma flat_rep : buddy_rep flat_A (flat m f).
Proof using Hm.
  exists B. split; [constructor|].
  - rewrite flat_npages. lia.
  - done.
  - rewrite flat_npages. apply flat_tiling.
  - intros h o [[-> Hh]|[-> (k & -> & Hk)]]%flat_B; rewrite flat_page_at by lia; eexists; (split; [done|]);
      rewrite flat_fl, elem_of_empty by (unfold MAX_ORDER; lia).
    + rewrite (proj2 (Z.ltb_lt h 1024)) by lia. simpl. split; [done|]. split; [lia|]. split; [lia|]. intros [[? _]|?]; done.
    + rewrite (proj2 (Z.ltb_ge (1024 * k) 1024)) by lia. simpl. split; [done|]. split; [lia|]. split; [intros _; left; split; [done|]; by exists k|done].
  - intros o h ? [-> Hk]%flat_fl; [|done]. apply flat_B. by right.
  - intros o Ho. unfold fl. destruct (freeblocks (flat m f) !! Z.to_nat o) as [l|] eqn:E; simpl; [|constructor].
    change (freeblocks (flat m f)) with (replicate 10 ([] : list Z) ++ [run_head <$> seqZ 1 m]) in E.
    apply lookup_app_Some in E as [[-> _]%lookup_replicate_1|[_ E]]; [constructor|]. apply list_lookup_singleton_Some in E as [_ <-].
    apply nodup_runs.
  - by intros h ?%elem_of_empty.
  - intros o h Ho [-> _]%flat_fl; lia.
  - intros h o r. rewrite flat_A_lookup. unfold allocd. split.
    + intros (-> & -> & Hh). exists (flat_page f h). rewrite flat_page_at, flat_B by lia.
      rewrite (proj2 (Z.ltb_lt h 1024)) by lia. repeat split; left; lia.
    + intros (p & (HB & Hp & Hr) & <-). apply flat_B in HB as [[-> Hh]|[-> (k & -> & Hk)]]; rewrite flat_page_at in Hp by lia; injection Hp as <-.
      * rewrite (proj2 (Z.ltb_lt h 1024)) in * by lia. simpl in *. lia.
      * rewrite (proj2 (Z.ltb_ge (1024 * k) 1024)) in Hr by lia. simpl in Hr. lia.
Qed.

(** Its free blocks. *)
Lemma flat_runs : runs flat_A (flat m f) (Z.to_nat m).
Proof using Hm.
  exists (run_head <$> seqZ 1 m). split; [apply nodup_runs|].
  split; [rewrite length_fmap, length_seqZ; lia|]. apply Forall_forall. intros b (k & -> & Hk)%elem_runs. unfold free_run. rewrite flat_npages.
  change (2 ^ MAX_ORDER) with 1024. split; [lia|]. split; [exists k; lia|]. split; [lia|].
  intros h o r (-> & _ & Hh)%flat_A_lookup. right. change (2 ^ 0) with 1. lia.
Qed.
End flat.

(** ** The machine of the witnesses *)

Definition demo_c : Z := KMAP_BASE + 600000.
Definition demo_v : Z := KMAP_BASE + 1 * PG_SIZE.
Definition demo_slab : slab :=
  mkSlab (demo_v + SIZEOF_SLAB + SIZEOF_INT * slab_objs 8) 1 1 (init_freearr (slab_objs 8)).
Definition demo_k : kstate :=
  mkK (flat 1 (fun i => if i =? 1 then (demo_c, demo_v) else (0, 0))) {[demo_v := demo_slab]}
      {[demo_c := mkCache [] [demo_v] false 8]} ∅ [].
Definition demo_F : gmap Z (list Z) := {[demo_v := seqZ 1 (slab_objs 8 - 1)]}.
Definition demo_x : Z := sl_objs demo_slab.

Lemma demo_slab_ok :
  slab_ok flat_A (k_pmem demo_k) demo_c 8 demo_v demo_slab (seqZ 1 (slab_objs 8 - 1)) 1.
Proof.
  constructor; try done.
  - exists 0, 1. split; [by apply flat_A_lookup; lia|done].
  - intros i Hi. change (slab_pages 8) with 1 in Hi. assert (i = 0) as -> by lia.
    simpl k_pmem. rewrite flat_page_at by lia. by eexists.
  - pose proof (freelist_init (slab_objs 8) ltac:(done)) as H.
    change (slab_objs 8) with (Z.succ (slab_objs 8 - 1)) in H at 2.
    rewrite seqZ_cons in H by done. destruct H as (_ & _ & g & Hg & H).
    vm_compute in Hg. injection Hg as <-. exact H.
  - apply NoDup_seqZ.
Qed.

Lemma demo_caches c kc :
  k_caches demo_k !! c = Some kc -> c = demo_c /\ kc = mkCache [] [demo_v] false 8.
Proof.
  change (k_caches demo_k) with ({[demo_c := mkCache [] [demo_v] false 8]} : gmap Z kmem_cache).
  by intros [<- <-]%lookup_singleton_Some.
Qed.

Lemma demo_kinv : kinv flat_A demo_F demo_k.
Proof.
  constructor.
  - apply flat_rep. lia.
  - done.
  - done.
  - exists (0, 1). apply flat_A_lookup; lia.
  - simpl k_pmem. rewrite flat_npages by lia. done.
  - intros c kc [-> ->]%demo_caches. split; [done|]. split; [done|]. split; [apply NoDup_singleton|].
    intros v ->%list_elem_of_singleton. exists demo_slab, (seqZ 1 (slab_objs 8 - 1)), 1.
    split; [apply lookup_singleton_eq|]. split; [apply lookup_singleton_eq|].
    split; [apply demo_slab_ok|]. split; [by intros ?%elem_of_nil|]. by vm_compute.
  - intros c1 kc1 c2 kc2 v [-> ->]%demo_caches [-> ->]%demo_caches. done.
  - exists 1. apply flat_A_lookup. change static_page with 512. lia.
  - intros c kc v [-> ->]%demo_caches ->%list_elem_of_singleton. done.
Qed.

Lemma demo_unlocked : unlocked demo_k.
Proof. by intros c kc [-> ->]%demo_caches. Qed.

Lemma demo_live : live demo_F demo_k demo_c demo_x.
Proof.
  exists demo_v, 0. split.
  - exists (mkCache [] [demo_v] false 8), demo_slab. split; [apply lookup_singleton_eq|].
    split; [by apply list_elem_of_singleton|]. split; [apply lookup_singleton_eq|]. done.
  - exists (seqZ 1 (slab_objs 8 - 1)). split; [apply lookup_singleton_eq|]. rewrite elem_of_seqZ. lia.
Qed.

(** ** Claims *)

(** ([kmem_cache_alloc]): on a well-formed allocator with no cache locked,
    an allocation from a cache returns NULL and changes no cache's objects,
    or returns the address of an object that was live in no cache and is now
    live in this one, and in no other way changes which objects are live.
    The invariant and the object sizes are kept, every lock is released, and
    no kassert fails, also when a new slab has to be created. *)
Theorem kmem_cache_alloc_spec A F s c kc :
  kinv A F s -> unlocked s -> k_caches s !! c = Some kc ->
  wp (kmem_cache_alloc c) (alloc_post F s c) s.
Proof. apply wp_kmem_cache_alloc. Qed.

Lemma kmem_cache_alloc_spec_witness : wp (kmem_cache_alloc demo_c) (alloc_post demo_F demo_k demo_c) demo_k.
Proof. exact (kmem_cache_alloc_spec flat_A demo_F demo_k demo_c _ demo_kinv demo_unlocked eq_refl). Defined.

(** ([kmem_cache_free], [kfree]): freeing a live object, through its cache
    or through [kfree], which finds the cache from the page of the object,
    makes exactly that object not live. *)
Theorem kfree_spec A F s c x :
  kinv A F s -> unlocked s -> live F s c x ->
  wp (kmem_cache_free c x) (fun _ s' => free_post F s x s') s /\
  wp (kfree x) (fun _ s' => free_post F s x s') s.
Proof. intros. split; [by eapply wp_kmem_cache_free|by eapply wp_kfree]. Qed.

Lemma kfree_spec_witness :
  wp (kmem_cache_free demo_c demo_x) (fun _ s' => free_post demo_F demo_k demo_x s') demo_k /\
  wp (kfree demo_x) (fun _ s' => free_post demo_F demo_k demo_x s') demo_k.
Proof. exact (kfree_spec flat_A demo_F demo_k demo_c demo_x demo_kinv demo_unlocked demo_live). Defined.

(** ** Sequences of requests

    A client makes caches, takes objects from the caches it made and gives back
    objects it holds; it keeps the caches with their sizes and the objects with
    their caches and sizes. *)
Inductive kreq : Set := KCreate (size : Z) | KAlloc (k : nat) | KFree (k : nat).

Fixpoint kruns (rs : list kreq) (cs : list (Z * Z)) (os : list (Z * Z * Z)) : M kstate (list (Z * Z) * list (Z * Z * Z)) :=
  match rs with
  | [] => ret (cs, os)
  | KCreate size :: rs =>
      c <- kmem_cache_create size;;
      kruns rs (if c =? NULL then cs else cs ++ [(c, size)]) os
  | KAlloc k :: rs =>
      match cs !! k with
      | Some (c, size) => p <- kmem_cache_alloc c;; kruns rs cs (if p =? NULL then os else os ++ [(c, p, size)])
      | None => kruns rs cs os
      end
  | KFree k :: rs =>
      match os !! k with
      | Some (c, p, _) => kmem_cache_free c p;; kruns rs cs (delete k os)
      | None => kruns rs cs os
      end
  end.

Definition apart (x1 z1 x2 z2 : Z) : Prop := x1 + z1 <= x2 \/ x2 + z2 <= x1.

(** The object lies in a slab, behind the header and the free-index array, and in
    installed memory. *)
Definition in_slab (s : kstate) (x z : Z) : Prop :=
  exists v sl, k_slabs s !! v = Some sl /\ v + SIZEOF_SLAB + SIZEOF_INT * Z.of_nat (length (sl_freearr sl)) <= x /\
    x + z <= v + sl_n_pages sl * PG_SIZE /\ KMAP_BASE <= x < KMAP_BASE + pmem_end (k_pmem s).

Lemma live_apart A F s c1 x1 z1 c2 x2 z2 : kinv A F s -> live F s c1 x1 -> live F s c2 x2 -> x1 <> x2 ->
  sizes s !! c1 = Some z1 -> sizes s !! c2 = Some z2 -> apart x1 z1 x2 z2.
Proof.
  intros K (v1 & i1 & S1 & T1) (v2 & i2 & S2 & T2) Hne. unfold sizes. rewrite !lookup_fmap.
  intros (kc1 & H1 & ->)%fmap_Some_1 (kc2 & H2 & ->)%fmap_Some_1.
  eapply (slots_apart A F s c1 v1 i1 x1 c2 v2 i2 x2); [done..|]. intros [= -> ->]. apply Hne.
  destruct S1 as (k1 & s1 & E1 & I1 & G1 & _ & ->), S2 as (k2 & s2 & E2 & I2 & G2 & _ & ->).
  pose proof (ki_uniq _ _ _ K c1 k1 c2 k2 _ E1 E2 I1 I2). subst c2. congruence.
Qed.

Lemma live_in_slab A F s c x z : kinv A F s -> live F s c x -> sizes s !! c = Some z -> in_slab s x z.
Proof.
  intros K (v & i & S1 & _). unfold sizes. rewrite lookup_fmap. intros (kc1 & H1 & ->)%fmap_Some_1.
  destruct (slot_data _ _ _ _ _ _ _ K S1) as (kc & sl & fr & h & Hc & Hin & Hsl & _ & S & Hg & _ & Hi & Hx).
  destruct (obj_bounds _ _ _ _ _ _ _ _ _ _ K S Hg Hi) as (? & ? & ?). rewrite H1 in Hc. injection Hc as <-.
  exists v, sl. split; [done|]. rewrite (so_arr _ _ _ _ _ _ _ _ S), (so_pages _ _ _ _ _ _ _ _ S).
  rewrite <- Hx in *. split; [|done]. pose proof (so_objs _ _ _ _ _ _ _ _ S). unfold good_size in Hg. nia.
Qed.

Section requests.
Context (F0 : gmap Z (list Z)) (s0 : kstate).

(** What holds between the requests: the objects of the client are live, new
    since [s0] and different; what was live in [s0] is live. *)
Record kclient (cs : list (Z * Z)) (os : list (Z * Z * Z)) (F : gmap Z (list Z)) (s : kstate) : Prop := {
  kl_owned : caches_owned F s;
  kl_caches : forall c z, (c, z) ∈ cs -> sizes s !! c = Some z /\ c <> allocator_cache;
  kl_nodup : NoDup (snd ∘ fst <$> os);
  kl_objs : forall c p z, (c, p, z) ∈ os -> live F s c p /\ sizes s !! c = Some z /\ c <> allocator_cache /\ forall c', ~ live F0 s0 c' p;
  kl_old : forall c x, live F0 s0 c x -> live F s c x;
  kl_sizes : forall c z, sizes s0 !! c = Some z -> sizes s !! c = Some z
}.

Lemma kclient_create cs os F s size c s' A' F' : kclient cs os F s -> caches_owned F' s' ->
  (c = NULL /\ sizes s' = sizes s /\ forall c1 x, live F' s' c1 x <-> live F s c1 x) \/
     (c <> NULL /\ k_caches s !! c = None /\ sizes s' = <[c := size]> (sizes s) /\
      forall c1 x, live F' s' c1 x <-> live F s c1 x \/ (c1 = allocator_cache /\ x = c)) -> kinv A' F' s' ->
  kclient (if c =? NULL then cs else cs ++ [(c, size)]) os F' s'.
Proof using Type.
  intros [H1 H2 H3 H4 H5 H6] Ho [(-> & Hs & HL)|(Hc & Hn & Hs & HL)] K.
  - rewrite Z.eqb_refl. split; rewrite ?Hs; try done; [intros; rewrite HL; by apply H4|intros; rewrite HL; by apply H5].
  - rewrite (proj2 (Z.eqb_neq c NULL) Hc).
    assert (Hold : forall d z, sizes s !! d = Some z -> sizes s' !! d = Some z).
    { intros d z Hd. rewrite Hs, lookup_insert_ne; [done|]. intros <-. unfold sizes in Hd. by rewrite lookup_fmap, Hn in Hd. }
    split; try done.
    + intros d z [Hd|Hd]%elem_of_app; [destruct (H2 d z Hd); auto|]. apply list_elem_of_singleton in Hd as [= -> ->]. split; [by rewrite Hs, lookup_insert_eq|].
      intros ->. destruct H1 as [[? E] _]. congruence.
    + intros d p z Hd. destruct (H4 d p z Hd) as (? & ? & ? & ?). split; [rewrite HL; by left|]. auto.
    + intros d x Hd. rewrite HL. auto.
    + auto.
Qed.

Lemma kclient_alloc cs os F s c p z s' F' : kclient cs os F s -> (c, z) ∈ cs -> sizes s' = sizes s ->
  (p = NULL /\ forall c1 y, live F' s' c1 y <-> live F s c1 y) \/
     (p <> NULL /\ (forall c1, ~ live F s c1 p) /\ forall c1 y, live F' s' c1 y <-> live F s c1 y \/ (c1 = c /\ y = p)) ->
  kclient cs (if p =? NULL then os else os ++ [(c, p, z)]) F' s'.
Proof using Type.
  intros [H1 H2 H3 H4 H5 H6] Hin Hs [(-> & HL)|(Hp & Hn & HL)]; [|rewrite (proj2 (Z.eqb_neq p NULL) Hp)].
  - rewrite Z.eqb_refl. split; rewrite ?Hs; try done; [eapply owned_after; [done..|]; intros; by apply HL|intros; rewrite HL; by apply H4|intros; rewrite HL; by apply H5].
  - assert (HF : forall d x, live F s d x -> live F' s' d x) by (intros; apply HL; by left). split; rewrite ?Hs; try done.
    + by eapply owned_after; [done..|]; auto.
    + rewrite fmap_app. apply NoDup_app. split; [done|]. split; [|apply NoDup_singleton]. intros x (o & -> & Ho)%list_elem_of_fmap Hx.
      apply list_elem_of_singleton in Hx. destruct o as [[d x] w]. cbn in Hx. subst x. by apply (Hn d), (H4 d p w).
    + intros d x w [Hd|Hd]%elem_of_app; [destruct (H4 d x w Hd) as (? & ? & ? & ?); auto|]. apply list_elem_of_singleton in Hd as [= -> -> ->].
      destruct (H2 c z Hin). split; [apply HL; by right|]. do 2 (split; [done|]). intros c' Hc'. by apply (Hn c'), H5.
    + auto.
Qed.

Lemma kclient_free cs os F s k c p z s' A F' : kclient cs os F s -> kinv A F s -> os !! k = Some (c, p, z) -> sizes s' = sizes s ->
  (forall c1 y, live F' s' c1 y <-> live F s c1 y /\ y <> p) -> kclient cs (delete k os) F' s'.
Proof using Type.
  intros [H1 H2 H3 H4 H5 H6] K Hk Hs HL. destruct (H4 c p z) as (Hl & _ & Hne & Hold); [by eapply list_elem_of_lookup_2|].
  rewrite <- (take_drop_middle os k _ Hk), fmap_app in H3. cbn [fmap list_fmap] in H3. apply NoDup_app in H3 as (N1 & N2 & [N3 N4]%NoDup_cons).
  assert (Hsub : forall o, o ∈ delete k os -> o ∈ os /\ o.1.2 <> p).
  { intros o. rewrite delete_take_drop, elem_of_app. intros [Ho|Ho].
    - split; [rewrite <- (take_drop k os); apply elem_of_app; by left|]. intros E. apply (N2 (o.1.2)); [apply list_elem_of_fmap; by exists o|]. rewrite E. apply elem_of_cons. by left.
    - split; [rewrite <- (take_drop (S k) os); apply elem_of_app; by right|]. intros E. apply N3. apply list_elem_of_fmap. exists o. by rewrite <- E. }
  split; rewrite ?Hs; try done.
  - eapply owned_after; [done..|]. intros x Hx. apply HL. split; [done|]. intros ->. destruct Hx as (v1 & i1 & X1 & _), Hl as (v & i & X2 & _).
    destruct (slot_inj _ _ _ _ _ _ _ _ _ _ K X1 X2) as (_ & _ & ?). congruence.
  - rewrite delete_take_drop, fmap_app. apply NoDup_app. split; [done|]. split; [|done]. intros x Hx ?. apply (N2 x Hx). apply elem_of_cons. by right.
  - intros d x w [Hd Hx]%Hsub. destruct (H4 d x w Hd) as (? & ? & ? & ?). split; [by apply HL|done].
  - intros d x Hd. apply HL. split; [by apply H5|]. intros ->. by apply (Hold d).
Qed.

Lemma wp_kruns rs : forall cs os A F s, kinv A F s -> unlocked s -> kclient cs os F s ->
  Forall (fun r => match r with KCreate z => good_size z | _ => True end) rs ->
  wp (kruns rs cs os) (fun r s' => exists A' F', kinv A' F' s' /\ kclient r.1 r.2 F' s') s.
Proof using Type.
  induction rs as [|[size|k|k] rs IH]; intros cs os A F s K U C Hrs; cbn [kruns].
  - wp_step. by exists A, F.
  - apply Forall_cons in Hrs as [Hg Hrs]. wp_step. eapply wp_mono; [by eapply wp_kmem_cache_create; [..|apply C|]|].
    intros c s1 (A1 & F1 & K1 & U1 & O1 & H). eapply IH; [exact K1|exact U1|by eapply kclient_create|done].
  - apply Forall_cons in Hrs as [_ Hrs]. destruct (cs !! k) as [[c z]|] eqn:Hk; [|by eapply IH]. apply list_elem_of_lookup_2 in Hk as Hin.
    destruct (kl_caches _ _ _ _ C c z Hin) as [Hz _]. unfold sizes in Hz. rewrite lookup_fmap in Hz. apply fmap_Some_1 in Hz as (kc & Hc & _).
    wp_step. eapply wp_mono; [by eapply wp_kmem_cache_alloc|]. intros p s1 (A1 & F1 & K1 & U1 & Hs & H). eapply IH; [exact K1|exact U1|by eapply kclient_alloc|done].
  - apply Forall_cons in Hrs as [_ Hrs]. destruct (os !! k) as [[[c p] z]|] eqn:Hk; [|by eapply IH].
    destruct (kl_objs _ _ _ _ C c p z) as (Hl & _); [by eapply list_elem_of_lookup_2|]. wp_step. eapply wp_mono; [by eapply wp_kmem_cache_free|].
    intros [] s1 (A1 & F1 & K1 & U1 & Hs & HL). eapply IH; [exact K1|exact U1|by eapply kclient_free|done].
Qed.
End requests.

(** C38 for every sequence of kmem_cache_create (of sizes that fit a slab),
    kmem_cache_alloc and kmem_cache_free in which a client uses the caches
    it made and frees objects it holds, from any well-formed state of the
    allocator, no operation faults or fails a kassert, and afterwards the
    objects it holds occupy disjoint ranges of bytes, none overlaps an
    object that was live before, and each lies behind the header and the
    free-index array of its slab, inside the pages of the slab and inside
    installed memory. *)
Theorem kmem_objects_disjoint A F s rs :
  kinv A F s -> unlocked s -> caches_owned F s -> Forall (fun r => match r with KCreate z => good_size z | _ => True end) rs ->
  wp (kruns rs [] []) (fun '(cs, os) s' =>
    (forall i j c1 x1 z1 c2 x2 z2, os !! i = Some (c1, x1, z1) -> os !! j = Some (c2, x2, z2) -> i <> j -> apart x1 z1 x2 z2) /\
    (forall c1 x1 z1 c2 x2 z2, (c1, x1, z1) ∈ os -> live F s c2 x2 -> sizes s !! c2 = Some z2 -> apart x1 z1 x2 z2) /\
    (forall c x z, (c, x, z) ∈ os -> in_slab s' x z)) s.
Proof.
  intros K U O Hrs. assert (C : kclient F s [] [] F s) by (split; try done; [intros ? ? ?%elem_of_nil; done|constructor|intros ? ? ? ?%elem_of_nil; done]).
  eapply wp_mono; [by eapply (wp_kruns F s rs [] [] A F s)|]. intros [cs os] s' (A' & F' & K' & C'). cbn [fst snd] in C'. split; [|split].
  - intros i j c1 x1 z1 c2 x2 z2 Hi Hj Hne. destruct (kl_objs _ _ _ _ _ _ C' c1 x1 z1) as (L1 & Z1 & _); [by eapply list_elem_of_lookup_2|].
    destruct (kl_objs _ _ _ _ _ _ C' c2 x2 z2) as (L2 & Z2 & _); [by eapply list_elem_of_lookup_2|]. eapply live_apart; [exact K'|exact L1|exact L2| |exact Z1|exact Z2].
    intros ->. apply Hne. eapply (NoDup_lookup _ i j x2 (kl_nodup _ _ _ _ _ _ C')); rewrite list_lookup_fmap; [by rewrite Hi|by rewrite Hj].
  - intros c1 x1 z1 c2 x2 z2 Hi L2 Z2. destruct (kl_objs _ _ _ _ _ _ C' c1 x1 z1 Hi) as (L1 & Z1 & _ & Hn).
    eapply live_apart; [exact K'|exact L1|by eapply (kl_old _ _ _ _ _ _ C')| |exact Z1|by eapply (kl_sizes _ _ _ _ _ _ C')]. intros ->. by apply (Hn c2).
  - intros c x z Hi. destruct (kl_objs _ _ _ _ _ _ C' c x z Hi) as (L1 & Z1 & _). by eapply live_in_slab.
Qed.

(** ** A machine with the static cache and [m] free blocks *)

Definition demo_static (m : Z) : kstate :=
  mkK (flat m (fun _ => (0, 0))) ∅ {[allocator_cache := mkCache [] [] false SIZEOF_KMEM_CACHE]} ∅ [].

Lemma demo_static_caches m c kc : k_caches (demo_static m) !! c = Some kc ->
  c = allocator_cache /\ kc = mkCache [] [] false SIZEOF_KMEM_CACHE.
Proof.
  change (k_caches (demo_static m))
    with ({[allocator_cache := mkCache [] [] false SIZEOF_KMEM_CACHE]} : gmap Z kmem_cache).
  by intros [<- <-]%lookup_singleton_Some.
Qed.

Lemma demo_static_kinv m : 0 <= m <= 500 -> kinv flat_A ∅ (demo_static m) /\ unlocked (demo_static m) /\ caches_owned ∅ (demo_static m).
Proof.
  intros Hm. split; [constructor|split].
  - apply flat_rep. lia.
  - done.
  - done.
  - exists (0, 1). apply flat_A_lookup; lia.
  - cbn [k_pmem demo_static]. rewrite flat_npages by lia. cbn [pmem_end flat]. unfold PG_SIZE. lia.
  - intros c kc [-> ->]%demo_static_caches. split; [done|]. split; [done|]. split; [constructor|].
    by intros v ?%elem_of_nil.
  - intros c1 kc1 c2 kc2 v [-> ->]%demo_static_caches [-> ->]%demo_static_caches. done.
  - exists 1. apply flat_A_lookup. change static_page with 512. lia.
  - intros c kc v [-> ->]%demo_static_caches ?%elem_of_nil. done.
  - by intros c kc [-> ->]%demo_static_caches.
  - split; [by eexists|]. intros c [kc [-> _]%demo_static_caches]. by left.
Qed.

Lemma demo_static_live m : 0 <= m <= 500 -> kalloc_live (demo_static m) ∅.
Proof.
  intros Hm. destruct (demo_static_kinv m Hm) as (K & U & O). exists flat_A, ∅. do 3 (split; [done|]). split.
  - intros c. rewrite lookup_empty. split; [by intros [? ?]|]. intros [[kc [-> _]%demo_static_caches] ?]. done.
  - intros c X x E. by rewrite lookup_empty in E.
Qed.

(** Its free blocks are a reserve of [m] requests. *)
Lemma demo_static_spare m : 0 <= m <= 500 -> oa_spare (Z.to_nat m) (demo_static m).
Proof.
  intros Hm. destruct (demo_static_kinv m Hm) as (K & U & O). apply stocked_spare. exists flat_A, ∅. do 3 (split; [done|]).
  apply flat_runs. lia.
Qed.

Lemma kmem_objects_disjoint_witness : exists cs os s', kruns [KCreate 24; KAlloc 0; KAlloc 0; KAlloc 0; KFree 1; KAlloc 0] [] [] (demo_static 1) = Done (cs, os, s') /\
  ((fun o => snd (fst o) - KMAP_BASE) <$> os) = [4211304; 4211352; 4211328] /\ forall i j c1 x1 z1 c2 x2 z2, os !! i = Some (c1, x1, z1) -> os !! j = Some (c2, x2, z2) -> i <> j -> apart x1 z1 x2 z2.
Proof.
  destruct (demo_static_kinv 1 ltac:(lia)) as (K & U & O).
  destruct (wp_elim _ _ _ (kmem_objects_disjoint flat_A ∅ (demo_static 1) [KCreate 24; KAlloc 0; KAlloc 0; KAlloc 0; KFree 1; KAlloc 0] K U O
    ltac:(repeat constructor; unfold good_size; lia))) as ([cs os] & s' & E & H & _).
  exists cs, os, s'. split; [exact E|]. split; [|exact H].
  assert (V : value_of (kruns [KCreate 24; KAlloc 0; KAlloc 0; KAlloc 0; KFree 1; KAlloc 0] [] [] (demo_static 1)) = Some (cs, os)) by (by rewrite E).
  vm_compute in V.
  injection V as _ <-. reflexivity.
Defined.

(** ([kmalloc]): a request of 1 to 4096 bytes is served, as by
    [kmem_cache_alloc], from the cache of the smallest size class that fits. *)
Theorem kmalloc_spec A F s size :
  kinv A F s -> unlocked s -> table_ok s -> 0 < size <= 4096 ->
  wp (kmalloc size) (fun p s' => exists c z, size_class size z /\ sizes s !! c = Some z /\
     alloc_post F s c p s') s.
Proof. apply wp_kmalloc. Qed.

(** The table of the witness: the eight caches, without slabs. *)
Definition demo_table : list (Z * Z) := zip (seqZ 1 8) kmalloc_sizes.
Definition demo_t : kstate :=
  mkK (flat 1 (fun _ => (0, 0))) ∅ (list_to_map ((fun e => (fst e, mkCache [] [] false (snd e))) <$> demo_table)) ∅ demo_table.

Lemma demo_t_caches c kc :
  k_caches demo_t !! c = Some kc -> 1 <= c <= 8 /\ kc_full kc = [] /\ kc_free kc = [] /\ kc_lock kc = false /\
    good_size (kc_obj_size kc).
Proof.
  intros H. apply elem_of_list_to_map_2 in H. apply list_elem_of_fmap in H as ([c' z] & [= -> ->] & H).
  unfold demo_table in H. repeat (apply elem_of_cons in H as [[= -> ->]|H]; [done|]). by apply elem_of_nil in H.
Qed.

Lemma demo_t_kinv : kinv flat_A ∅ demo_t.
Proof.
  constructor.
  - apply flat_rep. lia.
  - done.
  - done.
  - exists (0, 1). apply flat_A_lookup; lia.
  - simpl k_pmem. rewrite flat_npages by lia. done.
  - intros c kc (Hc & E1 & E2 & _ & Hg)%demo_t_caches. split; [unfold NULL; lia|]. split; [done|].
    unfold in_cache. rewrite E1, E2. split; [constructor|]. by intros v ?%elem_of_nil.
  - intros c1 kc1 c2 kc2 v (_ & E1 & E2 & _)%demo_t_caches _ Hin. unfold in_cache in Hin.
    rewrite E1, E2 in Hin. by apply elem_of_nil in Hin.
  - exists 1. apply flat_A_lookup. change static_page with 512. lia.
  - intros c kc v (_ & E1 & E2 & _)%demo_t_caches Hin. unfold in_cache in Hin.
    rewrite E1, E2 in Hin. by apply elem_of_nil in Hin.
Qed.

Lemma kmalloc_spec_witness :
  wp (kmalloc 100) (fun p s' => exists c z, size_class 100 z /\ sizes demo_t !! c = Some z /\
     alloc_post ∅ demo_t c p s') demo_t.
Proof.
  apply (kmalloc_spec flat_A ∅ demo_t 100 demo_t_kinv); [| |lia].
  - intros c kc H. apply (demo_t_caches c kc H).
  - exists (seqZ 1 8). split; [reflexivity|]. split; [reflexivity|]. intros c z H.
    repeat (apply elem_of_cons in H as [[= -> ->]|H]; [reflexivity|]). by apply elem_of_nil in H.
Defined.
