(* ===== verification/Vpmap.v ===== *)
(** * Page tables (arch/x86_64/kernel/mm/vpmap.c)

    The state is physical memory by page frame (512 words of 64 bits each,
    reached through the kernel's direct map at KMAP_BASE), the [struct vpmap]
    objects, the statics [vpmap_allocator] and [kvpmap], the register cr3, and
    the states of the page allocator and of the object allocator, used through
    their interfaces (PageAlloc.v, ObjAlloc.v).  A pointer to a page-table
    entry is the direct-map address of its word. *)

From stdpp Require Import prelude list gmap.
From Stdlib Require Import ZArith Lia.
From S2P Require Import Prelude Mmu DList ObjAlloc PageAlloc.

Definition ERR_VPMAP_NOTPRESENT : Z := 1.
Definition ERR_VPMAP_MAP : Z := 2.
Definition PADDR_NONE : Z := 0.
Definition SWAPID_NONE : Z := 0.
Definition SIZEOF_VPMAP : Z := 8.
(** N_PTE_PER_PG, N_PDE_PER_PG, N_PDPTE_PER_PG and N_PML4E_PER_PG. *)
Definition N_PTE_PER_PG : Z := PG_SIZE / 8.

(** include/kernel/vm.h *)
Inductive memperm : Set := MEMPERM_R | MEMPERM_RW | MEMPERM_UR | MEMPERM_URW.

Record vst (P O : Type) := mkV {
  v_frames : gmap Z (list Z);
  v_vpmaps : gmap Z Z;
  v_allocator : Z;
  v_kvpmap : Z;
  v_cr3 : Z;
  v_pages : P;
  v_objs : O
}.
Arguments mkV {P O}.
Arguments v_frames {P O}.
Arguments v_vpmaps {P O}.
Arguments v_allocator {P O}.
Arguments v_kvpmap {P O}.
Arguments v_cr3 {P O}.
Arguments v_pages {P O}.
Arguments v_objs {P O}.

(** The words of a page of zeros. *)
Definition zero_page : list Z := replicate 512 0.

Definition memperm_to_pteperm (memperm : memperm) : Z :=
  match memperm with
  | MEMPERM_R => 0
  | MEMPERM_RW => PTE_W
  | MEMPERM_UR => PTE_U
  | MEMPERM_URW => Z.lor PTE_U PTE_W
  end.

Section ops.
Context {P O : Type} `{!PageAlloc P, !ObjAlloc O}.
Implicit Types s : vst P O.
Abbreviation VM := (M (vst P O)).

Definition set_frames (v : gmap Z (list Z)) s : vst P O :=
  mkV v (v_vpmaps s) (v_allocator s) (v_kvpmap s) (v_cr3 s) (v_pages s) (v_objs s).
Definition set_vpmaps (v : gmap Z Z) s : vst P O :=
  mkV (v_frames s) v (v_allocator s) (v_kvpmap s) (v_cr3 s) (v_pages s) (v_objs s).
Definition set_vallocator (v : Z) s : vst P O :=
  mkV (v_frames s) (v_vpmaps s) v (v_kvpmap s) (v_cr3 s) (v_pages s) (v_objs s).
Definition set_cr3 (v : Z) s : vst P O :=
  mkV (v_frames s) (v_vpmaps s) (v_allocator s) (v_kvpmap s) v (v_pages s) (v_objs s).
Definition set_pages (v : P) s : vst P O :=
  mkV (v_frames s) (v_vpmaps s) (v_allocator s) (v_kvpmap s) (v_cr3 s) v (v_objs s).
Definition set_objs (v : O) s : vst P O :=
  mkV (v_frames s) (v_vpmaps s) (v_allocator s) (v_kvpmap s) (v_cr3 s) (v_pages s) v.

Definition on_pages {A} (m : M P A) : VM A := zoom v_pages set_pages m.
Definition on_objs {A} (m : M O A) : VM A := zoom v_objs set_objs m.

(** The word at a direct-map address. *)
Definition frame_of (a : Z) : Z := KMAP_V2P a - KMAP_V2P a mod PG_SIZE.
Definition word_of (a : Z) : nat := Z.to_nat (KMAP_V2P a mod PG_SIZE / 8).
Definition load64 (a : Z) : VM Z :=
  f <- gets (fun s => v_frames s !! frame_of a);;
  l <- deref f;;
  deref (l !! word_of a).
Definition store64 (a w : Z) : VM unit :=
  f <- gets (fun s => v_frames s !! frame_of a);;
  l <- deref f;;
  deref (l !! word_of a);;
  modify (fun s => set_frames (<[frame_of a := <[word_of a := w]> l]> (v_frames s)) s).
(** [memset(page, 0, pg_size)] and [memcpy(dst, src, pg_size)] on whole pages. *)
Definition clear_page (a : Z) : VM unit :=
  modify (fun s => set_frames (<[frame_of a := zero_page]> (v_frames s)) s).
Definition copy_page (dst src : Z) : VM unit :=
  f <- gets (fun s => v_frames s !! frame_of src);;
  l <- deref f;;
  modify (fun s => set_frames (<[frame_of dst := l]> (v_frames s)) s).

Definition get_pml4 (vpmap : Z) : VM Z := o <- gets (fun s => v_vpmaps s !! vpmap);; deref o.

(** ** vpmap.c *)

(** One level of the walk of find_pte: follow the entry at [e], allocating
    the table it lacks when [alloc] is set. *)
Definition walk_level (e : Z) (alloc : bool) : VM (option Z) :=
  w <- load64 e;;
  if Z.land w PTE_P =? 0 then
    if negb alloc then ret None
    else
      r <- on_pages pg_alloc;;
      match r with
      | inr _ => ret None
      | inl paddr =>
          clear_page (KMAP_P2V paddr);;
          store64 e (Z.lor (Z.lor (Z.lor paddr PTE_P) PTE_W) PTE_U);;
          w <- load64 e;;
          ret (Some (KMAP_P2V (ENTRY_ADDR w)))
      end
  else ret (Some (KMAP_P2V (ENTRY_ADDR w))).

Definition find_pte (pml4 vaddr : Z) (alloc : bool) : VM Z :=
  kassert (nonnull pml4);;
  o <- walk_level (pml4 + 8 * PML4X vaddr) alloc;;
  match o with
  | None => ret NULL
  | Some pdpt =>
      o <- walk_level (pdpt + 8 * PDPTX vaddr) alloc;;
      match o with
      | None => ret NULL
      | Some pgdir =>
          o <- walk_level (pgdir + 8 * PDX vaddr) alloc;;
          match o with
          | None => ret NULL
          | Some pgtab => ret (pgtab + 8 * PTX vaddr)
          end
      end
  end.

Definition clear_pte (pte : Z) : VM unit :=
  kassert (nonnull pte);;
  w <- load64 pte;;
  (if negb (Z.land w PTE_P =? 0) then on_pages (pg_dec (PPN w)) else ret tt);;
  store64 pte 0.

Definition map_pages (pml4 vaddr paddr size perm : Z) : VM Z :=
  kassert (nonnull pml4);;
  let v := pg_round_down vaddr in
  let vend := pg_round_down (u64 (vaddr + size)) in
  loop (S (Z.to_nat (u64 (vend - v) / pg_size))) (fun '(v, paddr) =>
    if v =? vend then ret (inr ERR_OK)
    else
      pte <- find_pte pml4 v true;;
      if pte =? NULL then ret (inr ERR_VPMAP_MAP)
      else
        store64 pte (Z.lor (Z.lor (PPN paddr) PTE_P) perm);;
        ret (inl (u64 (v + pg_size), u64 (paddr + pg_size)))) (v, pg_round_down paddr).

(** The three nested loops of unmap_pages, unmap_pdpt and unmap_pd.  The index
    of the next level starts at the index of the start address in the first
    iteration and at 0 in the later ones. *)
Definition unmap_pd (pde start_addr end_addr pdx_start pdx_end : Z) (free_imm : bool) : VM unit :=
  for_ (Z.to_nat (pdx_end - pdx_start)) pdx_start (fun pdx =>
    let ptx := if pdx =? pdx_start then PTX start_addr else 0 in
    e <- load64 (pde + 8 * pdx);;
    if negb (Z.land e PTE_P =? 0) then
      let limit := if ptx <? PTX end_addr then N_PTE_PER_PG else PTX end_addr + 1 in
      let pgtable := KMAP_P2V (ENTRY_ADDR e) in
      for_ (Z.to_nat (limit - ptx)) ptx (fun ptx => clear_pte (pgtable + 8 * ptx));;
      if free_imm then on_pages (pg_free (ENTRY_ADDR e)) else ret tt
    else ret tt).

Definition unmap_pdpt (pdpt start_addr end_addr pdptx_start pdptx_end : Z) (free_imm : bool) : VM unit :=
  for_ (Z.to_nat (pdptx_end - pdptx_start)) pdptx_start (fun pdptx =>
    let pdx := if pdptx =? pdptx_start then PDX start_addr else 0 in
    e <- load64 (pdpt + 8 * pdptx);;
    if negb (Z.land e PTE_P =? 0) then
      let limit := if pdx <? PDX end_addr then N_PTE_PER_PG else PDX end_addr + 1 in
      unmap_pd (KMAP_P2V (ENTRY_ADDR e)) start_addr end_addr pdx limit free_imm;;
      if free_imm then on_pages (pg_free (ENTRY_ADDR e)) else ret tt
    else ret tt).

Definition unmap_pages (pml4 start end_ : Z) (free_imm : bool) : VM unit :=
  kassert (PML4X start <=? PML4X (u64 (end_ - 1)));;
  for_ (Z.to_nat (PML4X (u64 (end_ - 1)) + 1 - PML4X start)) (PML4X start) (fun pml4x =>
    let pdptx := if pml4x =? PML4X start then PDPTX start else 0 in
    e <- load64 (pml4 + 8 * pml4x);;
    if negb (Z.land e PTE_P =? 0) then
      let limit := if pdptx <? PDPTX end_ then N_PTE_PER_PG else PDPTX end_ + 1 in
      unmap_pdpt (KMAP_P2V (ENTRY_ADDR e)) start end_ pdptx limit free_imm;;
      if free_imm then on_pages (pg_free (ENTRY_ADDR e)) else ret tt
    else ret tt).

Definition vpmap_load (vpmap : Z) : VM Z :=
  kassert (nonnull vpmap);;
  pml4 <- get_pml4 vpmap;;
  kassert (nonnull pml4);;
  modify (set_cr3 (KMAP_V2P pml4));;
  ret ERR_OK.

(** kernel_mappings: [_data] is the linker's start of the data section. *)
Definition kernel_mappings (_data pmem_end : Z) : list (Z * Z * Z * Z) :=
  [(KMAP_BASE, 0, EXTMEM_BASE, PTE_W);
   (KMAP_BASE + EXTMEM_BASE, EXTMEM_BASE, KMAP_V2P _data, 0);
   (_data, KMAP_V2P _data, pmem_end, PTE_W);
   (DEVMEM_BASE, 0xFE000000, 0x100000000, PTE_W)].

Fixpoint map_all (pml4 : Z) (ms : list (Z * Z * Z * Z)) : VM unit :=
  match ms with
  | [] => ret tt
  | (vaddr, paddr_start, paddr_end, perm) :: ms =>
      err <- map_pages pml4 vaddr paddr_start (u64 (paddr_end - paddr_start)) perm;;
      if negb (err =? ERR_OK) then panic else map_all pml4 ms
  end.

Definition vpmap_init (_data pmem_end : Z) : VM unit :=
  kvpmap <- gets v_kvpmap;;
  kassert (nonnull kvpmap);;
  r <- on_pages pg_alloc;;
  match r with
  | inr _ => panic
  | inl paddr =>
      modify (fun s => set_vpmaps (<[kvpmap := KMAP_P2V paddr]> (v_vpmaps s)) s);;
      clear_page (KMAP_P2V paddr);;
      map_all (KMAP_P2V paddr) (kernel_mappings _data pmem_end);;
      err <- vpmap_load kvpmap;;
      if negb (err =? ERR_OK) then panic else ret tt
  end.

Definition vpmap_create : VM Z :=
  a <- gets v_allocator;;
  (if a =? NULL then
     c <- on_objs (oa_create SIZEOF_VPMAP);;
     modify (set_vallocator c);;
     if c =? NULL then panic else ret tt
   else ret tt);;
  a <- gets v_allocator;;
  vpmap <- on_objs (oa_alloc a);;
  if vpmap =? NULL then ret NULL
  else
    r <- on_pages pg_alloc;;
    match r with
    | inr _ => ret NULL
    | inl paddr =>
        modify (fun s => set_vpmaps (<[vpmap := KMAP_P2V paddr]> (v_vpmaps s)) s);;
        clear_page (KMAP_P2V paddr);;
        ret vpmap
    end.

Definition vpmap_map (vpmap vaddr paddr n : Z) (memperm : memperm) : VM Z :=
  kassert (nonnull vpmap);;
  if n =? 0 then ret ERR_OK
  else
    pml4 <- get_pml4 vpmap;;
    map_pages pml4 (pg_round_down vaddr) (pg_round_down paddr) (u64 (n * pg_size))
      (memperm_to_pteperm memperm).

Definition vpmap_unmap (vpmap vaddr n : Z) : VM unit :=
  if vpmap =? NULL then ret tt
  else
    pml4 <- get_pml4 vpmap;;
    if (pml4 =? NULL) || (n =? 0) then ret tt
    else
      let start := pg_round_down vaddr in
      let end_ := u64 (start + n * pg_size) in
      kassert (PML4X start <=? PML4X end_);;
      unmap_pages pml4 start end_ false.

Definition vpmap_destroy (vpmap : Z) : VM unit :=
  if vpmap =? NULL then ret tt
  else
    pml4 <- get_pml4 vpmap;;
    if pml4 =? NULL then ret tt
    else
      kvpmap <- gets v_kvpmap;;
      kassert (negb (vpmap =? kvpmap));;
      unmap_pages pml4 0 USTACK_UPPERBOUND true;;
      on_pages (pg_free (KMAP_V2P pml4));;
      a <- gets v_allocator;;
      on_objs (oa_free a vpmap).

(** The loop variables are [(i, srcaddr, dstaddr)]. *)
Definition vpmap_copy (srcvpmap dstvpmap srcaddr dstaddr n : Z) (memperm : memperm) : VM Z :=
  kassert (nonnull srcvpmap && nonnull dstvpmap);;
  let perm := memperm_to_pteperm memperm in
  r <- for_ret (Z.to_nat n) 0 (fun i =>
    let srcaddr := u64 (pg_round_down srcaddr + i * pg_size) in
    let dstaddr := u64 (pg_round_down dstaddr + i * pg_size) in
    src_pml4 <- get_pml4 srcvpmap;;
    src_pte <- find_pte src_pml4 srcaddr false;;
    skip <- (if src_pte =? NULL then ret true else w <- load64 src_pte;; ret (PPN w =? 0));;
    if (skip : bool) then ret None
    else
      dst_pml4 <- get_pml4 dstvpmap;;
      dst_pte <- find_pte dst_pml4 dstaddr true;;
      bad <- (if dst_pte =? NULL then ret true else w <- load64 dst_pte;; ret (negb (PPN w =? 0)));;
      if (bad : bool) then ret (Some ERR_VPMAP_MAP)
      else
        r <- on_pages pg_alloc;;
        match r with
        | inr _ => ret (Some ERR_NOMEM)
        | inl paddr =>
            w <- load64 src_pte;;
            copy_page (KMAP_P2V paddr) (KMAP_P2V (ENTRY_ADDR w));;
            store64 dst_pte (Z.lor (Z.lor (PPN paddr) PTE_P) perm);;
            ret None
        end);;
  ret (default ERR_OK r).

Definition vpmap_copy_kernel_mapping (dstvpmap : Z) : VM Z :=
  kassert (nonnull dstvpmap);;
  kvpmap <- gets v_kvpmap;;
  let pml4x := PML4X KMAP_BASE in
  for_ (Z.to_nat (N_PTE_PER_PG - pml4x)) pml4x (fun pml4x =>
    kpml4 <- get_pml4 kvpmap;;
    e <- load64 (kpml4 + 8 * pml4x);;
    if negb (Z.land e PTE_P =? 0) then
      pml4 <- get_pml4 dstvpmap;;
      store64 (pml4 + 8 * pml4x) e
    else ret tt);;
  ret ERR_OK.

(** The result is the error code with the values left in [*paddr], [*swapid]. *)
Definition vpmap_lookup_vaddr (vpmap vaddr : Z) : VM (Z * Z * Z) :=
  kassert (nonnull vpmap);;
  pml4 <- get_pml4 vpmap;;
  pte <- find_pte pml4 vaddr false;;
  if negb (pte =? NULL) then
    w <- load64 pte;;
    if negb (Z.land w PTE_P =? 0)
    then ret (ERR_OK, u64 (PPN w + (vaddr - VPN vaddr)), SWAPID_NONE)
    else ret (ERR_VPMAP_NOTPRESENT, PADDR_NONE, SWAPID_NONE)
  else ret (ERR_VPMAP_NOTPRESENT, PADDR_NONE, SWAPID_NONE).

Definition vpmap_set_perm (vpmap vaddr n : Z) (memperm : memperm) : VM unit :=
  kassert (nonnull vpmap);;
  let perm := memperm_to_pteperm memperm in
  let vaddr := pg_round_down vaddr in
  for_ (Z.to_nat n) 0 (fun i =>
    pml4 <- get_pml4 vpmap;;
    pte <- find_pte pml4 (u64 (vaddr + i * pg_size)) false;;
    if negb (pte =? NULL) then
      w <- load64 pte;;
      store64 pte (Z.lor (Z.lor (PPN w) (Z.land (ENTRY_FLAGS w) PTE_P)) perm)
    else ret tt).

Definition vpmap_set_dirty (vpmap vaddr : Z) : VM unit :=
  pml4 <- get_pml4 vpmap;;
  pte <- find_pte pml4 vaddr false;;
  if negb (pte =? NULL) then w <- load64 pte;; store64 pte (Z.lor w PTE_D) else ret tt.

(** Bit [bit] of the entry, [None] when there is no page table. *)
Definition vpmap_get_bit (bit vpmap vaddr : Z) : VM (Z * option Z) :=
  pml4 <- get_pml4 vpmap;;
  pte <- find_pte pml4 vaddr false;;
  if negb (pte =? NULL)
  then w <- load64 pte;; ret (ERR_OK, Some (Z.land w bit))
  else ret (ERR_VPMAP_NOTPRESENT, None).
Definition vpmap_get_dirty : Z -> Z -> VM (Z * option Z) := vpmap_get_bit PTE_D.
Definition vpmap_get_accessed : Z -> Z -> VM (Z * option Z) := vpmap_get_bit PTE_A.

(** [cur]: the vpmap of the current process, if there is one. *)
Definition vpmap_flush_tlb (cur : option Z) : VM unit :=
  kvpmap <- gets v_kvpmap;;
  kpml4 <- get_pml4 kvpmap;;
  pml4 <- match cur with Some vpmap => get_pml4 vpmap | None => ret kpml4 end;;
  modify (set_cr3 (KMAP_V2P pml4)).
End ops.
