(* ===== verification/VpmapInv.v ===== *)
(** * Page tables: representation

    [tables T r F]: the frames of [T] form a page-table tree with root [r].
    The ghost map [T] gives every table its level (3 for the pml4, 0 for the
    tables of page entries) and the prefix of the page numbers below it, so
    the shape of the tree is a set of local conditions, one per entry.
    [space A T F]: the nonzero page entries of the tree are [A], by virtual
    page number. *)

From stdpp Require Import prelude list gmap.
From Stdlib Require Import ZArith Lia.
From S2P Require Import Prelude Mmu DList ObjAlloc PageAlloc Vpmap.

(** ** Words *)

Definition present (w : Z) : bool := negb (Z.land w PTE_P =? 0).

Lemma present_odd w : present w = Z.odd w.
Proof.
  unfold present, PTE_P. change 1 with (2 ^ 1 - 1). rewrite land_low_mask by lia.
  change (2 ^ 1) with 2. rewrite Zmod_odd. by destruct (Z.odd w).
Qed.

Lemma lor_frame a fl : a mod 4096 = 0 -> 0 <= fl < 4096 -> Z.lor a fl = a + fl.
Proof.
  intros Ha Hf. rewrite Z.add_nocarry_lxor; [symmetry; apply Z.lxor_lor|];
    apply Z.bits_inj'; intros n Hn; rewrite Z.land_spec, Z.bits_0;
    (destruct (Z.lt_ge_cases n 12);
     [replace (Z.testbit a n) with false; [done|];
      rewrite <- (Z.mod_pow2_bits_low a 12 n) by lia; change (2 ^ 12) with 4096; rewrite Ha; by rewrite Z.bits_0
     |rewrite (Z.bits_above_log2 fl n), andb_false_r; [done|lia|];
      destruct (Z.eq_dec fl 0) as [->|]; [simpl; lia|];
      apply Z.log2_lt_pow2; [lia|]; pose proof (Z.pow_le_mono_r 2 12 n); lia]).
Qed.

Lemma ENTRY_ADDR_spec e : 0 <= e < 2 ^ 64 -> ENTRY_ADDR e = (e - e mod 4096) mod 2 ^ 51.
Proof.
  intros He. unfold ENTRY_ADDR, PHYS_ADDR_MASK. change 0xFFF with (2 ^ 12 - 1).
  rewrite land_high_mask by lia. change (2 ^ 12) with 4096.
  replace (u64 (Z.lnot 0xFFF8000000000000)) with (2 ^ 51 - 1) by reflexivity.
  by rewrite land_low_mask by lia.
Qed.

Lemma PPN_ENTRY_ADDR e : PPN e = ENTRY_ADDR e.
Proof. done. Qed.

(** A word made of a frame address and flags. *)
Lemma entry_addr_flags a fl : 0 <= a < 2 ^ 51 -> a mod 4096 = 0 -> 0 <= fl < 4096 ->
  ENTRY_ADDR (a + fl) = a.
Proof.
  intros Ha Hm Hf. assert (a + fl < 2 ^ 51).
  { pose proof (Z.div_mod a 4096). assert (a / 4096 < 2 ^ 39) by (apply Z.div_lt_upper_bound; lia). lia. }
  rewrite ENTRY_ADDR_spec by lia. rewrite <- Z.add_mod_idemp_l, Hm by lia.
  rewrite (Z.mod_small (0 + fl)) by lia. rewrite Z.mod_small by lia. lia.
Qed.

Lemma entry_present a fl : a mod 4096 = 0 -> present (a + fl) = Z.odd fl.
Proof.
  intros Ha. rewrite present_odd, Z.odd_add. replace (Z.odd a) with false; [by destruct (Z.odd fl)|].
  pose proof (Z.div_mod a 4096) as E. rewrite Ha in E.
  replace a with (2 * (2048 * (a / 4096))) by lia. by rewrite Z.odd_mul.
Qed.

(** ** Virtual page numbers *)

Definition vpn (v : Z) : Z := (v / 4096) mod 2 ^ 36.

Lemma vpn_bound v : 0 <= vpn v < 2 ^ 36.
Proof. apply Z.mod_pos_bound. lia. Qed.

Lemma idx_mod x k : 0 <= k -> k + 9 <= 36 -> (x mod 2 ^ 36 / 2 ^ k) mod 512 = (x / 2 ^ k) mod 512.
Proof.
  intros Hk Hle. replace (2 ^ 36) with (2 ^ k * (512 * 2 ^ (27 - k)))
    by (change 512 with (2 ^ 9); rewrite <- !Z.pow_add_r by lia; f_equal; lia).
  assert (0 < 2 ^ k) by (apply Z.pow_pos_nonneg; lia).
  assert (0 < 2 ^ (27 - k)) by (apply Z.pow_pos_nonneg; lia).
  rewrite Z.rem_mul_r, Z.add_comm by lia.
  rewrite (Z.mul_comm (2 ^ k)), Z.div_add_l by lia.
  rewrite (Z.div_small (x mod 2 ^ k)) by (apply Z.mod_pos_bound; lia). rewrite Z.add_0_r.
  rewrite Z.rem_mul_r by lia.
  rewrite (Z.mul_comm 512), Z.mod_add, Z.mod_mod by lia. done.
Qed.

Lemma PTX_vpn v : PTX v = vpn v mod 512.
Proof.
  unfold PTX, PTX_SHIFT. rewrite ENTRY_IDX_spec by lia. unfold vpn.
  pose proof (idx_mod (v / 4096) 0). rewrite !Z.div_1_r in *. by rewrite H by lia.
Qed.
Lemma PDX_vpn v : PDX v = (vpn v / 512) mod 512.
Proof.
  unfold PDX, PDX_SHIFT. rewrite ENTRY_IDX_spec by lia. unfold vpn.
  change 512 with (2 ^ 9) at 2. rewrite idx_mod, Z.div_div by lia. done.
Qed.
Lemma PDPTX_vpn v : PDPTX v = (vpn v / 512 / 512) mod 512.
Proof.
  unfold PDPTX, PDPTX_SHIFT. rewrite ENTRY_IDX_spec by lia. unfold vpn. rewrite (Z.div_div (_ mod _)) by lia.
  change (512 * 512) with (2 ^ 18). rewrite idx_mod, Z.div_div by lia. done.
Qed.
Lemma PML4X_vpn v : PML4X v = vpn v / 512 / 512 / 512.
Proof.
  unfold PML4X, PML4X_SHIFT. rewrite ENTRY_IDX_spec by lia. unfold vpn. rewrite !(Z.div_div (_ mod _)) by lia.
  rewrite <- (Z.mod_small (_ mod 2 ^ 36 / _) 512).
  - change (512 * 512 * 512) with (2 ^ 27). rewrite idx_mod, Z.div_div by lia. done.
  - pose proof (Z.mod_pos_bound (v / 4096) (2 ^ 36)). split; [apply Z.div_pos; lia|].
    apply Z.div_lt_upper_bound; lia.
Qed.

(** ** Entries in memory *)

Definition word (F : gmap Z (list Z)) (f i : Z) : option Z := F !! f ≫= fun l => l !! Z.to_nat i.
Definition set_word (f i w : Z) (F : gmap Z (list Z)) : gmap Z (list Z) :=
  alter (fun l => <[Z.to_nat i := w]> l) f F.

Lemma entry_addr f i : frame_addr f -> 0 <= i < 512 ->
  @eq (Z * nat) (frame_of (KMAP_P2V f + 8 * i), word_of (KMAP_P2V f + 8 * i)) (f, Z.to_nat i).
Proof.
  intros [Hf Hm] Hi. unfold frame_of, word_of, PG_SIZE in *.
  assert (E : KMAP_V2P (KMAP_P2V f + 8 * i) = f + 8 * i).
  { unfold KMAP_V2P, KMAP_P2V, KMAP_BASE. rewrite (wrapu_small 64 (f + _)) by lia.
    rewrite wrapu_small; [lia|]. pose proof (Z.div_mod f 4096). lia. }
  rewrite E. rewrite <- Z.add_mod_idemp_l, Hm, (Z.mod_small (0 + _)) by lia.
  f_equal; [lia|]. f_equal. rewrite Z.add_0_l, Z.mul_comm, Z.div_mul; lia.
Qed.

Lemma word_set_eq F f i w w0 : word F f i = Some w0 -> word (set_word f i w F) f i = Some w.
Proof.
  unfold word, set_word. rewrite lookup_alter. rewrite decide_True by done.
  destruct (F !! f) as [l|]; [|done]. simpl. intros Hl. rewrite list_lookup_insert_eq; [done|].
  by eapply lookup_lt_Some.
Qed.
Lemma word_set_ne F f i w g j : g <> f \/ (0 <= i /\ 0 <= j /\ j <> i) ->
  word (set_word f i w F) g j = word F g j.
Proof.
  intros H. unfold word, set_word. rewrite lookup_alter. case_decide as E; [|done].
  subst g. destruct (F !! f) as [l|]; [|done]. simpl. destruct H as [|(? & ? & ?)]; [congruence|].
  rewrite list_lookup_insert_ne; [done|]. lia.
Qed.

(** ** Trees *)

Record tables (T : gmap Z (Z * Z)) (r : Z) (F : gmap Z (list Z)) : Prop := {
  tb_root : T !! r = Some (3, 0);
  tb_ok : forall f k p, T !! f = Some (k, p) -> 0 <= k <= 3 /\ frame_addr f /\
            exists l, F !! f = Some l /\ length l = 512%nat;
  tb_inj : forall f g x, T !! f = Some x -> T !! g = Some x -> f = g;
  tb_child : forall f k p i w, T !! f = Some (k, p) -> 0 < k -> 0 <= i < 512 ->
     word F f i = Some w -> present w = true -> T !! ENTRY_ADDR w = Some (k - 1, p * 512 + i);
  tb_parent : forall f k p, T !! f = Some (k, p) -> k < 3 -> exists g w,
     T !! g = Some (k + 1, p / 512) /\ word F g (p mod 512) = Some w /\
     present w = true /\ ENTRY_ADDR w = f;
  tb_pos : forall f k p, T !! f = Some (k, p) -> 0 <= p < 512 ^ (3 - k)
}.

Definition leaf (T : gmap Z (Z * Z)) (F : gmap Z (list Z)) (q w : Z) : Prop :=
  exists f, T !! f = Some (0, q / 512) /\ word F f (q mod 512) = Some w.
Definition space (A : gmap Z Z) (T : gmap Z (Z * Z)) (F : gmap Z (list Z)) : Prop :=
  forall q w, A !! q = Some w <-> 0 <= q < 2 ^ 36 /\ leaf T F q w /\ w <> 0.

Lemma digits p i : 0 <= i < 512 -> (p * 512 + i) / 512 = p /\ (p * 512 + i) mod 512 = i.
Proof.
  intros. rewrite (Z.add_comm (p * 512)), Z.div_add, Z.mod_add, Z.div_small, Z.mod_small by lia. lia.
Qed.

Section tree.
Context (T : gmap Z (Z * Z)) (r : Z) (F : gmap Z (list Z)) (TB : tables T r F).

Lemma tb_word f x i : T !! f = Some x -> 0 <= i < 512 -> exists w, word F f i = Some w.
Proof using TB.
  intros Hf Hi. destruct x as [k p]. destruct (tb_ok _ _ _ TB _ _ _ Hf) as (_ & _ & l & Hl & Hn).
  unfold word. rewrite Hl. simpl. destruct (l !! Z.to_nat i) eqn:E; [eauto|].
  apply lookup_ge_None in E. lia.
Qed.

(** A table without an entry for it does not exist. *)
Lemma tb_absent f k p i w : T !! f = Some (k, p) -> 0 < k -> 0 <= i < 512 ->
  word F f i = Some w -> present w = false -> forall g, T !! g <> Some (k - 1, p * 512 + i).
Proof using TB.
  intros Hf Hk Hi Hw Hp g Hg. destruct (tb_ok _ _ _ TB _ _ _ Hf) as (? & _).
  destruct (tb_parent _ _ _ TB _ _ _ Hg) as (g' & w' & Hg' & Hw' & Hp' & _); [lia|].
  destruct (digits p i Hi) as [E1 E2]. rewrite E1, E2 in *. replace (k - 1 + 1) with k in Hg' by lia.
  pose proof (tb_inj _ _ _ TB _ _ _ Hf Hg'). congruence.
Qed.

(** The tables above a page table. *)
Lemma tb_up f k p : T !! f = Some (k, p) -> k < 3 -> exists g, T !! g = Some (k + 1, p / 512).
Proof using TB. intros H Hk. destruct (tb_parent _ _ _ TB _ _ _ H Hk) as (g & w & ? & _). by exists g. Qed.

(** A frame outside the tree may hold anything. *)
Lemma tables_frame F' : (forall f x, T !! f = Some x -> F' !! f = F !! f) -> tables T r F'.
Proof using TB.
  intros HF. assert (HW : forall f x i, T !! f = Some x -> word F' f i = word F f i)
    by (intros f x i H; unfold word; by rewrite (HF _ _ H)).
  split.
  - apply TB.
  - intros f k p H. rewrite (HF _ _ H). by eapply tb_ok.
  - apply TB.
  - intros f k p i w H. rewrite (HW _ _ _ H). by eapply tb_child.
  - intros f k p H Hk. destruct (tb_parent _ _ _ TB _ _ _ H Hk) as (g & w & Hg & ?). exists g, w.
    by rewrite (HW _ _ _ Hg).
  - apply TB.
Qed.

Lemma space_frame A F' : space A T F -> (forall f x, T !! f = Some x -> F' !! f = F !! f) -> space A T F'.
Proof using Type.
  intros HA HF q w. rewrite (HA q w). unfold leaf, word.
  split; intros (? & (f & Hf & ?) & ?); (split; [done|]); (split; [|done]); exists f;
    (split; [done|]); rewrite (HF _ _ Hf) in *; done.
Qed.

(** A page entry is changed. *)
Lemma tables_set_leaf f p i w : T !! f = Some (0, p) -> 0 <= i < 512 -> tables T r (set_word f i w F).
Proof using TB.
  intros Hf Hi. assert (HW : forall g k q j, T !! g = Some (k, q) -> 0 < k ->
      word (set_word f i w F) g j = word F g j).
  { intros g k q j Hg Hk. apply word_set_ne. left. intros ->. rewrite Hf in Hg. simplify_eq. lia. }
  split.
  - apply TB.
  - intros g k q Hg. destruct (tb_ok _ _ _ TB _ _ _ Hg) as (? & ? & l & Hl & Hn). do 2 (split; [done|]).
    unfold set_word. rewrite lookup_alter. case_decide; [subst g|by exists l].
    rewrite Hl. simpl. eexists. split; [done|]. by rewrite length_insert.
  - apply TB.
  - intros g k q j w' Hg Hk. rewrite (HW _ _ _ _ Hg) by lia. by eapply tb_child.
  - intros g k q Hg Hk. destruct (tb_ok _ _ _ TB _ _ _ Hg) as (? & _).
    destruct (tb_parent _ _ _ TB _ _ _ Hg Hk) as (g' & w' & Hg' & ?). exists g', w'.
    by rewrite (HW _ _ _ _ Hg') by lia.
  - apply TB.
Qed.

Definition put (q w : Z) (A : gmap Z Z) : gmap Z Z := if w =? 0 then delete q A else <[q := w]> A.

Lemma lookup_put q w A q' : put q w A !! q' = if decide (q' = q) then (if w =? 0 then None else Some w) else A !! q'.
Proof using Type.
  unfold put. destruct (w =? 0); [rewrite lookup_delete|rewrite lookup_insert];
    repeat case_decide; congruence.
Qed.

Lemma space_set_leaf A f q w w0 : space A T F -> 0 <= q < 2 ^ 36 -> T !! f = Some (0, q / 512) ->
  word F f (q mod 512) = Some w0 -> space (put q w A) T (set_word f (q mod 512) w F).
Proof using TB.
  intros HA Hq Hf Hw q' w'. rewrite lookup_put. case_decide as E; [subst q'|rewrite (HA q' w')].
  - unfold leaf. split.
    + destruct (Z.eqb_spec w 0); [done|]. intros [= <-]. split; [done|]. split; [|done].
      exists f. split; [done|]. by eapply word_set_eq.
    + intros (_ & (g & Hg & Hg') & Hne). rewrite <- (tb_inj _ _ _ TB _ _ _ Hf Hg) in Hg'.
      erewrite word_set_eq in Hg' by done. simplify_eq. by destruct (Z.eqb_spec w' 0).
  - assert (HL : leaf T (set_word f (q mod 512) w F) q' w' <-> leaf T F q' w'); [|by rewrite HL].
    unfold leaf. enough (HW : forall g, T !! g = Some (0, q' / 512) ->
      word (set_word f (q mod 512) w F) g (q' mod 512) = word F g (q' mod 512)).
    { split; intros (g & Hg & H); exists g; (split; [done|]); [rewrite <- HW by done|rewrite HW by done]; done. }
    intros g Hg. apply word_set_ne. destruct (Z.eq_dec g f) as [->|]; [|by left]. right.
    rewrite Hf in Hg. injection Hg as Hg.
    pose proof (Z.mod_pos_bound q 512). pose proof (Z.mod_pos_bound q' 512).
    pose proof (Z.div_mod q 512). pose proof (Z.div_mod q' 512). lia.
Qed.

(** A new table is linked into an empty entry. *)
Section link.
Context (f k p i w0 g fl : Z).
Hypothesis Hf : T !! f = Some (k, p).
Hypothesis Hk : 0 < k.
Hypothesis Hi : 0 <= i < 512.
Hypothesis Hw0 : word F f i = Some w0.
Hypothesis Habs : present w0 = false.
Hypothesis Hg : T !! g = None.
Hypothesis Hga : frame_addr g.
Hypothesis Hfl : 0 <= fl < 4096 /\ Z.odd fl = true.

Let T' := <[g := (k - 1, p * 512 + i)]> T.
Let F' := set_word f i (g + fl) (<[g := zero_page]> F).

Lemma link_word_new j w : word F' g j = Some w -> w = 0.
Proof using Hf Hg.
  unfold F'. rewrite word_set_ne by (left; congruence).
  unfold word. rewrite lookup_insert, decide_True by done. simpl. intros H.
  by apply lookup_replicate in H as [-> _].
Qed.
Lemma link_word_old h x j : T !! h = Some x -> ~ (h = f /\ j = i) -> 0 <= j -> word F' h j = word F h j.
Proof using Hi Hg.
  intros Hh Hne Hj. unfold F'. rewrite word_set_ne.
  - unfold word. by rewrite lookup_insert_ne by congruence.
  - destruct (Z.eq_dec h f); [right; lia|by left].
Qed.
Lemma link_word_slot : word F' f i = Some (g + fl).
Proof using Hf Hg Hw0.
  unfold F'. apply (word_set_eq _ _ _ _ w0). unfold word. by rewrite lookup_insert_ne by congruence.
Qed.
Lemma link_entry : present (g + fl) = true /\ ENTRY_ADDR (g + fl) = g.
Proof using Hga Hfl.
  destruct Hga as [? Hm]. unfold PG_SIZE in Hm. rewrite entry_present by done.
  rewrite entry_addr_flags; [|lia|done|apply Hfl]. by destruct Hfl.
Qed.

Lemma lookup_link h x : T' !! h = Some x -> (h = g /\ x = (k - 1, p * 512 + i)) \/ (h <> g /\ T !! h = Some x).
Proof using Type. unfold T'. rewrite lookup_insert. case_decide; [intros [= <-]|]; auto. Qed.

Lemma tables_link : tables T' r F'.
Proof using TB Hf Hk Hi Hw0 Habs Hg Hga Hfl.
  pose proof (tb_ok _ _ _ TB _ _ _ Hf) as (Hk3 & _).
  destruct link_entry as [Hp Ha]. pose proof (tb_absent f k p i w0 Hf Hk Hi Hw0 Habs) as Hno.
  assert (Hle : forall h x, T !! h = Some x -> T' !! h = Some x)
    by (intros h x Hh; unfold T'; by rewrite lookup_insert_ne by congruence).
  split.
  - apply Hle, TB.
  - intros h k' p' [(-> & [= -> ->])|[Hne Hh]]%lookup_link.
    + split; [lia|]. split; [done|]. exists zero_page. unfold F', set_word.
      rewrite lookup_alter. rewrite decide_False by congruence.
      by rewrite lookup_insert, decide_True by done.
    + destruct (tb_ok _ _ _ TB _ _ _ Hh) as (? & ? & l & Hl & Hn). do 2 (split; [done|]).
      unfold F', set_word. rewrite lookup_alter, !lookup_insert_ne by congruence.
      case_decide; [subst h; rewrite Hl|]; simpl; eexists; (split; [done|]); by rewrite ?length_insert.
  - intros h1 h2 x [(-> & ->)|[Hne1 H1]]%lookup_link [(-> & E)|[Hne2 H2]]%lookup_link; try done.
    + by destruct (Hno h2).
    + subst x. by destruct (Hno h1).
    + by eapply tb_inj.
  - intros h k' p' j w [(-> & [= -> ->])|[Hne Hh]]%lookup_link Hk' Hj Hw Hpw.
    + apply link_word_new in Hw as ->. done.
    + destruct (decide (h = f /\ j = i)) as [[-> ->]|Hd].
      * rewrite link_word_slot in Hw. injection Hw as <-. rewrite Ha. unfold T'.
        rewrite lookup_insert, decide_True by done. congruence.
      * rewrite (link_word_old _ _ _ Hh) in Hw by (done || lia). apply Hle. by eapply (tb_child _ _ _ TB h).
  - intros h k' p' [(-> & [= -> ->])|[Hne Hh]]%lookup_link Hk'.
    + exists f, (g + fl). destruct (digits p i Hi) as [-> ->]. replace (k - 1 + 1) with k by lia.
      split; [by apply Hle|]. split; [apply link_word_slot|]. done.
    + destruct (tb_parent _ _ _ TB _ _ _ Hh Hk') as (h' & w & Hh' & Hw & Hpw & Haw).
      exists h', w. split; [by apply Hle|]. split; [|done].
      pose proof (Z.mod_pos_bound p' 512). rewrite (link_word_old _ _ _ Hh'); [done| |lia].
      intros [-> Ei]. rewrite Ei in Hw. congruence.
  - intros h k' p' [(-> & [= -> ->])|[Hne Hh]]%lookup_link; [|by eapply (tb_pos _ _ _ TB)].
    pose proof (tb_pos _ _ _ TB _ _ _ Hf). replace (3 - (k - 1)) with (Z.succ (3 - k)) by lia.
    rewrite Z.pow_succ_r by lia. lia.
Qed.

Lemma space_link A : space A T F -> space A T' F'.
Proof using TB Hf Hk Hi Hw0 Hg.
  intros HA q w. rewrite (HA q w). pose proof (Z.mod_pos_bound q 512).
  split; intros (Hq & (h & Hh & Hw) & Hne); (split; [done|]); (split; [|done]); exists h.
  - split; [unfold T'; by rewrite lookup_insert_ne by congruence|].
    rewrite (link_word_old _ _ _ Hh); [done| |lia]. intros [-> _]. rewrite Hf in Hh. injection Hh as Hh _. lia.
  - apply lookup_link in Hh as [(-> & [= Ek Ep])|[Hhg Hh]]; [by apply link_word_new in Hw|].
    split; [done|]. rewrite (link_word_old _ _ _ Hh) in Hw; [done| |lia].
    intros [-> _]. rewrite Hf in Hh. injection Hh as Hh _. lia.
Qed.
End link.
End tree.
