(* ===== verification/VpmapSpec.v ===== *)
(** * Page tables: the operations

    [vspace r T A H s]: in state [s] the page-table tree with root frame [r]
    and tables [T] maps the pages of [A]; [H] are the frames held from the
    page allocator, the tables among them.  [grow U] is what a walk that may
    allocate does: it adds fresh tables to the tree and changes no frame but
    the tables at the positions of [U]. *)

From stdpp Require Import prelude list gmap.
From Stdlib Require Import ZArith Lia.
From S2P Require Import Prelude Mmu DList ObjAlloc PageAlloc Vpmap VpmapInv.

Section spec.
Context {P O : Type} `{!PageAlloc P, !ObjAlloc O}.
Implicit Types s : vst P O.

Record vspace (r : Z) (T : gmap Z (Z * Z)) (A H : gmap Z Z) s : Prop := {
  vs_tables : tables T r (v_frames s);
  vs_space : space A T (v_frames s);
  vs_held : pg_held (v_pages s) H;
  vs_own : forall f x, T !! f = Some x -> is_Some (H !! f)
}.

(** The part of the state the walks leave alone. *)
Definition rest s := (v_vpmaps s, v_allocator s, v_kvpmap s, v_cr3 s, v_objs s).

Record grow (U : Z * Z -> Prop) (T : gmap Z (Z * Z)) (H : gmap Z Z) s
    (T' : gmap Z (Z * Z)) (H' : gmap Z Z) s' : Prop := {
  gr_T : T ⊆ T';
  gr_H : H ⊆ H';
  gr_new : forall f x, T' !! f = Some x -> T !! f = None -> H !! f = None;
  gr_used : forall f c, H' !! f = Some c -> H !! f = None -> is_Some (T' !! f);
  gr_frames : forall f, (forall x, T !! f = Some x -> ~ U x) -> is_Some (H !! f) ->
     v_frames s' !! f = v_frames s !! f;
  gr_rest : rest s' = rest s
}.

Lemma grow_refl U T H s : grow U T H s T H s.
Proof. split; done || congruence. Qed.

Lemma grow_trans U T H s T1 H1 s1 T2 H2 s2 :
  grow U T H s T1 H1 s1 -> grow U T1 H1 s1 T2 H2 s2 -> grow U T H s T2 H2 s2.
Proof.
  intros G1 G2. split.
  - etrans; [apply G1|apply G2].
  - etrans; [apply G1|apply G2].
  - intros f x Hf Hn. destruct (T1 !! f) as [y|] eqn:E; [by eapply (gr_new _ _ _ _ _ _ _ G1)|].
    pose proof (gr_new _ _ _ _ _ _ _ G2 _ _ Hf E) as E1.
    destruct (H !! f) as [c|] eqn:E2; [|done]. eapply lookup_weaken in E2; [|apply G1]. congruence.
  - intros f c Hf Hn. destruct (H1 !! f) as [c1|] eqn:E; [|by eapply (gr_used _ _ _ _ _ _ _ G2)].
    destruct (gr_used _ _ _ _ _ _ _ G1 _ _ E Hn) as [x Hx]. exists x. eapply lookup_weaken; [done|apply G2].
  - intros f Hn [c Hc].
    rewrite (gr_frames _ _ _ _ _ _ _ G2), (gr_frames _ _ _ _ _ _ _ G1); [done|done|by exists c| |].
    + intros x Hx. destruct (T !! f) as [y|] eqn:E.
      * pose proof (lookup_weaken _ _ _ _ E (gr_T _ _ _ _ _ _ _ G1)). rewrite Hx in *. simplify_eq. by apply Hn.
      * pose proof (gr_new _ _ _ _ _ _ _ G1 _ _ Hx E). congruence.
    + exists c. eapply lookup_weaken; [done|apply G1].
  - rewrite (gr_rest _ _ _ _ _ _ _ G2). apply G1.
Qed.

(** ** Loads and stores *)

Lemma wp_load64 f i w s (Q : Z -> vst P O -> Prop) :
  frame_addr f -> 0 <= i < 512 -> word (v_frames s) f i = Some w -> Q w s ->
  wp (load64 (KMAP_P2V f + 8 * i)) Q s.
Proof.
  intros Hf Hi Hw HQ. unfold load64. injection (entry_addr f i Hf Hi) as E1 E2.
  rewrite E1, E2. unfold word in Hw. destruct (v_frames s !! f) as [l|] eqn:El; [|done].
  wp_step. wp_step. rewrite El. wp_step. eapply wp_deref; [done|]. by eapply wp_deref.
Qed.

Lemma wp_store64 f i w w0 s (Q : unit -> vst P O -> Prop) :
  frame_addr f -> 0 <= i < 512 -> word (v_frames s) f i = Some w0 ->
  Q tt (set_frames (set_word f i w (v_frames s)) s) ->
  wp (store64 (KMAP_P2V f + 8 * i) w) Q s.
Proof.
  intros Hf Hi Hw HQ. unfold store64. injection (entry_addr f i Hf Hi) as E1 E2.
  rewrite E1, E2. unfold word in Hw. destruct (v_frames s !! f) as [l|] eqn:El; [|done].
  wp_step. wp_step. rewrite El. wp_step. eapply wp_deref; [done|]. wp_step. eapply wp_deref; [done|].
  wp_step. replace (<[f := <[Z.to_nat i := w]> l]> (v_frames s)) with (set_word f i w (v_frames s)); [done|].
  apply map_eq. intros g. unfold set_word. rewrite lookup_alter, lookup_insert.
  case_decide; [subst g; by rewrite El|done].
Qed.

Lemma frame_of_P2V f : frame_addr f -> frame_of (KMAP_P2V f) = f.
Proof. intros Hf. injection (entry_addr f 0 Hf ltac:(lia)) as E _. by rewrite Z.add_0_r in E. Qed.

(** ** The walk *)

Lemma new_entry g : frame_addr g -> Z.lor (Z.lor (Z.lor g PTE_P) PTE_W) PTE_U = g + 7.
Proof.
  intros [_ Hm]. rewrite <- !Z.lor_assoc. change (Z.lor PTE_P (Z.lor PTE_W PTE_U)) with 7.
  by apply lor_frame.
Qed.

(** What a walk step returns: nothing, or the table at the position. *)
Definition at_pos (T : gmap Z (Z * Z)) (k p : Z) (o : option Z) : Prop :=
  match o with
  | None => True
  | Some a => exists g, a = KMAP_P2V g /\ T !! g = Some (k, p)
  end.

Lemma wp_walk_read r T A H s f k p i :
  vspace r T A H s -> T !! f = Some (k, p) -> 0 < k -> 0 <= i < 512 ->
  wp (walk_level (KMAP_P2V f + 8 * i) false) (fun o s' => s' = s /\ at_pos T (k - 1) (p * 512 + i) o /\
     (o = None -> forall g, T !! g <> Some (k - 1, p * 512 + i))) s.
Proof.
  intros V Hf Hk Hi. pose proof (vs_tables _ _ _ _ _ V) as TB.
  destruct (tb_word _ _ _ TB f _ i Hf Hi) as [w Hw].
  destruct (tb_ok _ _ _ TB _ _ _ Hf) as (_ & Hfa & _).
  unfold walk_level. wp_step. eapply wp_load64; [done..|].
  destruct (Z.land w PTE_P =? 0) eqn:Ep; simpl; wp_step; (split; [done|]); (split; [|try done]).
  - done.
  - intros _. eapply tb_absent; [done..|]. unfold present. by rewrite Ep.
  - simpl. eexists. split; [done|]. eapply tb_child; [done..|]. unfold present. by rewrite Ep.
Qed.

Lemma vspace_link (U : Z * Z -> Prop) r T A H s f k p i w0 g p' :
  U (k, p) ->
  vspace r T A H s -> T !! f = Some (k, p) -> 0 < k -> 0 <= i < 512 ->
  word (v_frames s) f i = Some w0 -> present w0 = false -> frame_addr g -> H !! g = None ->
  pg_held p' (<[g := 1]> H) ->
  let T' := <[g := (k - 1, p * 512 + i)]> T in
  let s' := set_frames (set_word f i (g + 7) (<[g := zero_page]> (v_frames s))) (set_pages p' s) in
  vspace r T' A (<[g := 1]> H) s' /\ grow U T H s T' (<[g := 1]> H) s'.
Proof.
  intros HU V Hf Hk Hi Hw Hp Hga HHg Hp' T' s'. destruct V as [TB SP HE OWN].
  assert (HTg : T !! g = None).
  { destruct (T !! g) as [x|] eqn:E; [|done]. destruct (OWN _ _ E). congruence. }
  split; [split|split].
  - by eapply (tables_link T r (v_frames s) TB f k p i w0 g 7).
  - by eapply (space_link T r (v_frames s) TB f k p i w0 g 7).
  - done.
  - intros h x [(-> & _)|[Hne Hh]]%lookup_link.
    + exists 1. by rewrite lookup_insert, decide_True.
    + rewrite lookup_insert_ne by done. by eapply OWN.
  - by apply insert_subseteq.
  - by apply insert_subseteq.
  - intros h x [(-> & _)|[Hne Hh]]%lookup_link; congruence.
  - intros h c. rewrite lookup_insert. case_decide as E; [|congruence]. subst h. intros _ _.
    unfold T'. rewrite lookup_insert, decide_True; done.
  - intros h Hn [c Hc]. simpl. unfold set_word. rewrite lookup_alter.
    rewrite decide_False by (intros <-; by eapply Hn). by rewrite lookup_insert_ne by congruence.
  - done.
Qed.

Lemma wp_walk_alloc (U : Z * Z -> Prop) r T A H s f k p i :
  U (k, p) -> vspace r T A H s -> T !! f = Some (k, p) -> 0 < k -> 0 <= i < 512 ->
  wp (walk_level (KMAP_P2V f + 8 * i) true) (fun o s' => exists T' H',
     vspace r T' A H' s' /\ grow U T H s T' H' s' /\ at_pos T' (k - 1) (p * 512 + i) o) s.
Proof.
  intros HU V Hf Hk Hi. pose proof (vs_tables _ _ _ _ _ V) as TB.
  destruct (tb_word _ _ _ TB f _ i Hf Hi) as [w Hw].
  destruct (tb_ok _ _ _ TB _ _ _ Hf) as (_ & Hfa & _).
  unfold walk_level. wp_step. eapply wp_load64; [done..|].
  destruct (Z.land w PTE_P =? 0) eqn:Ep; simpl negb; cbn match.
  - wp_step. unfold on_pages. wp_step. eapply wp_mono; [apply pg_alloc_spec, V|].
    intros [g|[]] p' Hr.
    + destruct Hr as (Hga & HHg & Hp'). assert (Hpr : present w = false) by (unfold present; by rewrite Ep).
      destruct (vspace_link U r T A H s f k p i w g p' HU V Hf Hk Hi Hw Hpr Hga HHg Hp') as [V' G'].
      assert (Hgf : f <> g) by (intros ->; destruct (vs_own _ _ _ _ _ V _ _ Hf); congruence).
      wp_step. unfold clear_page. wp_step. rewrite frame_of_P2V by done. wp_step. rewrite new_entry by done.
      assert (Hw' : word (<[g := zero_page]> (v_frames s)) f i = Some w).
      { unfold word. by rewrite lookup_insert_ne. }
      eapply (wp_store64 f i (g + 7)); [done..|]. wp_step.
      eapply (wp_load64 f i (g + 7)); [done..|by eapply word_set_eq|]. wp_step.
      eexists _, _. split; [exact V'|]. split; [exact G'|]. simpl.
      rewrite entry_addr_flags by (destruct Hga as [? Hm]; unfold PG_SIZE in Hm; done || lia).
      exists g. by rewrite lookup_insert, decide_True.
    + wp_step. exists T, H. split; [|split; [|done]]; [split; try apply V; done|].
      split; try done; congruence.
  - wp_step. exists T, H. split; [done|]. split; [apply grow_refl|]. eexists. split; [done|].
    eapply tb_child; [done..|]. unfold present. by rewrite Ep.
Qed.

(** The path of a virtual address. *)
Lemma path3 v : 0 * 512 + PML4X v = vpn v / 512 / 512 / 512.
Proof. rewrite PML4X_vpn. lia. Qed.
Lemma path2 v : vpn v / 512 / 512 / 512 * 512 + PDPTX v = vpn v / 512 / 512.
Proof. rewrite PDPTX_vpn. pose proof (Z.div_mod (vpn v / 512 / 512) 512). lia. Qed.
Lemma path1 v : vpn v / 512 / 512 * 512 + PDX v = vpn v / 512.
Proof. rewrite PDX_vpn. pose proof (Z.div_mod (vpn v / 512) 512). lia. Qed.

(** The position of the table of level [k] on the path of [v]. *)
Definition path (v k : Z) : Z := vpn v / 512 ^ (k + 1).

Lemma path_levels v : path v 0 = vpn v / 512 /\ path v 1 = vpn v / 512 / 512 /\
  path v 2 = vpn v / 512 / 512 / 512 /\ path v 3 = 0.
Proof.
  unfold path. rewrite !Z.div_div by lia. do 3 (split; [done|]). apply Z.div_small. apply vpn_bound.
Qed.
Lemma path_top v : path v 3 = 0.
Proof. apply path_levels. Qed.

Lemma PTX_bound v : 0 <= PTX v < 512.
Proof. rewrite PTX_vpn. apply Z.mod_pos_bound. lia. Qed.
Lemma PDX_bound v : 0 <= PDX v < 512.
Proof. rewrite PDX_vpn. apply Z.mod_pos_bound. lia. Qed.
Lemma PDPTX_bound v : 0 <= PDPTX v < 512.
Proof. rewrite PDPTX_vpn. apply Z.mod_pos_bound. lia. Qed.
Lemma PML4X_bound v : 0 <= PML4X v < 512.
Proof.
  unfold PML4X. rewrite ENTRY_IDX_spec by (unfold PML4X_SHIFT; lia). apply Z.mod_pos_bound. lia.
Qed.

Lemma P2V_ne f : frame_addr f -> KMAP_P2V f <> NULL.
Proof. intros [Hf _]. unfold KMAP_P2V, KMAP_BASE, NULL. rewrite wrapu_small; lia. Qed.
Lemma P2V_nonnull f : frame_addr f -> nonnull (KMAP_P2V f) = true.
Proof. intros Hf. by apply nonnull_true, P2V_ne. Qed.

(** [slot_of]: the page entry of [v] is at address [a]. *)
Definition slot_of (T : gmap Z (Z * Z)) (v a : Z) : Prop :=
  exists f, T !! f = Some (0, vpn v / 512) /\ a = KMAP_P2V f + 8 * (vpn v mod 512).

Lemma slot_nonnull r T F v a : tables T r F -> slot_of T v a -> a <> NULL.
Proof.
  intros TB (f & Hf & ->). destruct (tb_ok _ _ _ TB _ _ _ Hf) as (_ & [? _] & _).
  unfold KMAP_P2V, KMAP_BASE, NULL. rewrite wrapu_small by lia. pose proof (Z.mod_pos_bound (vpn v) 512). lia.
Qed.

(** No page table, no page. *)
Lemma space_no_table A T F q : space A T F -> (forall f, T !! f <> Some (0, q / 512)) -> A !! q = None.
Proof.
  intros HA Hn. destruct (A !! q) as [w|] eqn:E; [|done].
  apply HA in E as (_ & (f & Hf & _) & _). by destruct (Hn f).
Qed.

Lemma wp_find_pte_read r T A H s v :
  vspace r T A H s ->
  wp (find_pte (KMAP_P2V r) v false) (fun a s' => s' = s /\
     ((a = NULL /\ A !! vpn v = None) \/ (a <> NULL /\ slot_of T v a))) s.
Proof.
  intros V. pose proof (vs_tables _ _ _ _ _ V) as TB. pose proof (tb_root _ _ _ TB) as Hr.
  destruct (tb_ok _ _ _ TB _ _ _ Hr) as (_ & Hra & _).
  assert (Hup : forall k p, k < 2 -> (forall g, T !! g <> Some (k + 1, p / 512)) ->
    forall g, T !! g <> Some (k, p)).
  { intros k p Hk Hn g Hg. destruct (tb_up _ _ _ TB g k p Hg ltac:(lia)) as [g' ?]. by apply (Hn g'). }
  unfold find_pte. wp_step. wp_step; [by apply P2V_nonnull|]. wp_step.
  eapply wp_mono; [apply (wp_walk_read r T A H s r 3 0); [done..|lia|apply PML4X_bound]|].
  intros o s1 (-> & Ho & Hno). rewrite path3 in *. destruct o as [a1|].
  2:{ wp_step. split; [done|]. left. split; [done|]. eapply space_no_table; [apply V|].
      apply (Hup 0); [lia|]. apply (Hup 1); [lia|]. by apply Hno. }
  destruct Ho as (f1 & -> & Hf1). wp_step.
  eapply wp_mono; [apply (wp_walk_read r T A H s f1 2 _ _ V Hf1 ltac:(lia)), PDPTX_bound|].
  intros o s1 (-> & Ho & Hno'). rewrite path2 in *. destruct o as [a2|].
  2:{ wp_step. split; [done|]. left. split; [done|]. eapply space_no_table; [apply V|].
      apply (Hup 0); [lia|]. by apply Hno'. }
  destruct Ho as (f2 & -> & Hf2). wp_step.
  eapply wp_mono; [apply (wp_walk_read r T A H s f2 1 _ _ V Hf2 ltac:(lia)), PDX_bound|].
  intros o s1 (-> & Ho & Hno''). rewrite path1 in *. destruct o as [a3|]; wp_step; (split; [done|]).
  - destruct Ho as (f3 & -> & Hf3). right. rewrite PTX_vpn.
    assert (Hs : slot_of T v (KMAP_P2V f3 + 8 * (vpn v mod 512))) by (by exists f3).
    split; [by eapply slot_nonnull|done].
  - left. split; [done|]. eapply space_no_table; [apply V|by apply Hno''].
Qed.

Lemma wp_find_pte_alloc (U : Z * Z -> Prop) r T A H s v :
  (forall k, 0 <= k <= 3 -> U (k, path v k)) -> vspace r T A H s ->
  wp (find_pte (KMAP_P2V r) v true) (fun a s' => exists T' H',
     vspace r T' A H' s' /\ grow U T H s T' H' s' /\ (a = NULL \/ (a <> NULL /\ slot_of T' v a))) s.
Proof.
  intros HU V. pose proof (vs_tables _ _ _ _ _ V) as TB. pose proof (tb_root _ _ _ TB) as Hr.
  destruct (tb_ok _ _ _ TB _ _ _ Hr) as (_ & Hra & _).
  pose proof (HU 1 ltac:(lia)) as HU1. pose proof (HU 2 ltac:(lia)) as HU2.
  destruct (path_levels v) as (_ & E1 & E2 & _). rewrite E1 in HU1. rewrite E2 in HU2.
  unfold find_pte. wp_step. wp_step; [by apply P2V_nonnull|]. wp_step.
  eapply wp_mono; [apply (wp_walk_alloc U r T A H s r 3 0); [by rewrite <- (path_top v); apply HU|done..|lia|apply PML4X_bound]|].
  intros o s1 (T1 & H1 & V1 & G1 & Ho). rewrite path3 in *. destruct o as [a1|].
  2:{ wp_step. exists T1, H1. auto. }
  destruct Ho as (f1 & -> & Hf1). wp_step.
  eapply wp_mono; [apply (wp_walk_alloc U r T1 A H1 s1 f1 2 _ _ HU2 V1 Hf1 ltac:(lia)), PDPTX_bound|].
  intros o s2 (T2 & H2 & V2 & G2 & Ho). rewrite path2 in *.
  pose proof (grow_trans _ _ _ _ _ _ _ _ _ _ G1 G2) as G12. destruct o as [a2|].
  2:{ wp_step. exists T2, H2. auto. }
  destruct Ho as (f2 & -> & Hf2). wp_step.
  eapply wp_mono; [apply (wp_walk_alloc U r T2 A H2 s2 f2 1 _ _ HU1 V2 Hf2 ltac:(lia)), PDX_bound|].
  intros o s3 (T3 & H3 & V3 & G3 & Ho). rewrite path1 in *.
  pose proof (grow_trans _ _ _ _ _ _ _ _ _ _ G12 G3) as G123.
  destruct o as [a3|]; wp_step; exists T3, H3; (split; [done|]); (split; [done|]); [right|by left].
  destruct Ho as (f3 & -> & Hf3). rewrite PTX_vpn.
  assert (Hs : slot_of T3 v (KMAP_P2V f3 + 8 * (vpn v mod 512))) by (by exists f3).
  split; [|done]. eapply slot_nonnull; [apply V3|done].
Qed.
End spec.
