(* ===== verification/VpmapMap.v ===== *)
(** * Page tables: mapping, translation, permissions *)

From stdpp Require Import prelude list gmap.
From Stdlib Require Import ZArith Lia.
From S2P Require Import Prelude Mmu DList ObjAlloc PageAlloc Vpmap VpmapInv VpmapSpec.

(** ** The abstract view of an address space

    A page number translates to a frame and permission bits. *)
Definition xlate (A : gmap Z Z) (q : Z) : option (Z * Z) :=
  match A !! q with
  | Some w => if present w then Some (ENTRY_ADDR w, Z.land w 6) else None
  | None => None
  end.

(** The pages of a range of [n] pages that starts at page [q0], with the
    number of the page in the range. *)
Definition in_range (q0 n q : Z) : bool := (0 <=? q) && (q <? 2 ^ 36) && ((q - q0) mod 2 ^ 36 <? n).

(** The first [m] pages from [q0] are mapped to the frames from [pa] with the
    flags [fl]; the other entries are those of [A]. *)
Definition mapped_upto (A : gmap Z Z) (q0 pa fl m : Z) (A' : gmap Z Z) : Prop :=
  forall q, A' !! q = if in_range q0 m q then Some (pa + (q - q0) mod 2 ^ 36 * 4096 + fl) else A !! q.

(** The tables on the paths of the [n] pages from [v]. *)
Definition on_paths (v n : Z) (x : Z * Z) : Prop :=
  exists i, 0 <= i < n /\ x.2 = path (u64 (v + i * 4096)) x.1.

Lemma vpn_step v i : 0 <= v -> 0 <= i -> v + i * 4096 < 2 ^ 64 ->
  vpn (v + i * 4096) = (vpn v + i) mod 2 ^ 36.
Proof. intros. unfold vpn. rewrite Z.div_add by lia. by rewrite Z.add_mod_idemp_l. Qed.

Lemma range_pos q0 i : 0 <= q0 < 2 ^ 36 -> 0 <= i < 2 ^ 36 ->
  ((q0 + i) mod 2 ^ 36 - q0) mod 2 ^ 36 = i.
Proof.
  intros Hq Hi. rewrite Zminus_mod_idemp_l. replace (q0 + i - q0) with i by lia. by apply Z.mod_small.
Qed.

Lemma range_unique q0 q i : 0 <= q0 < 2 ^ 36 -> 0 <= q < 2 ^ 36 ->
  (q - q0) mod 2 ^ 36 = i -> q = (q0 + i) mod 2 ^ 36.
Proof.
  intros H0 Hq <-. rewrite Z.add_mod_idemp_r by lia. replace (q0 + (q - q0)) with q by lia.
  by rewrite Z.mod_small.
Qed.

Lemma in_range_succ q0 m q : 0 <= q0 < 2 ^ 36 -> 0 <= m < 2 ^ 36 ->
  in_range q0 (m + 1) q = in_range q0 m q || (q =? (q0 + m) mod 2 ^ 36).
Proof.
  intros H0 Hm. unfold in_range. pose proof (Z.mod_pos_bound (q0 + m) (2 ^ 36)).
  destruct (Z.eqb_spec q ((q0 + m) mod 2 ^ 36)) as [->|Hne].
  - rewrite range_pos by lia. rewrite orb_true_r. lia.
  - rewrite orb_false_r. destruct ((0 <=? q) && (q <? 2 ^ 36)) eqn:E; [|done].
    apply andb_true_iff in E as [?%Z.leb_le ?%Z.ltb_lt]. simpl.
    destruct (Z.eq_dec ((q - q0) mod 2 ^ 36) m) as [E2|]; [by apply range_unique in E2|lia].
Qed.

Lemma in_range_at q0 m : 0 <= q0 < 2 ^ 36 -> 0 <= m < 2 ^ 36 ->
  in_range q0 m ((q0 + m) mod 2 ^ 36) = false.
Proof.
  intros H0 Hm. unfold in_range. pose proof (Z.mod_pos_bound (q0 + m) (2 ^ 36)).
  rewrite range_pos by lia. lia.
Qed.

Lemma mapped_step A q0 pa fl m A' : 0 <= q0 < 2 ^ 36 -> 0 <= m < 2 ^ 36 ->
  pa + m * 4096 + fl <> 0 -> mapped_upto A q0 pa fl m A' ->
  mapped_upto A q0 pa fl (m + 1) (put ((q0 + m) mod 2 ^ 36) (pa + m * 4096 + fl) A').
Proof.
  intros H0 Hm Hnz HA q. rewrite lookup_put, in_range_succ by done.
  case_decide as E; [subst q|].
  - rewrite Z.eqb_refl, orb_true_r, range_pos by lia. by destruct (Z.eqb_spec (pa + m * 4096 + fl) 0).
  - rewrite HA. apply Z.eqb_neq in E. by rewrite E, orb_false_r.
Qed.

Lemma perm_bits perm : 0 <= memperm_to_pteperm perm < 8 /\ Z.even (memperm_to_pteperm perm) = true /\
  Z.land (memperm_to_pteperm perm) 6 = memperm_to_pteperm perm.
Proof. by destruct perm. Qed.

(** The word [map_pages] and [vpmap_copy] store. *)
Lemma pte_word pa perm : 0 <= pa < 2 ^ 51 -> pa mod 4096 = 0 ->
  Z.lor (Z.lor (PPN pa) PTE_P) (memperm_to_pteperm perm) = pa + (1 + memperm_to_pteperm perm).
Proof.
  intros Hp Hm. rewrite PPN_ENTRY_ADDR. replace pa with (pa + 0) at 1 by lia.
  rewrite entry_addr_flags by lia. rewrite <- Z.lor_assoc.
  replace (Z.lor PTE_P (memperm_to_pteperm perm)) with (1 + memperm_to_pteperm perm) by (by destruct perm).
  apply lor_frame; [done|]. pose proof (perm_bits perm). lia.
Qed.

Lemma xlate_word A q pa perm : 0 <= pa < 2 ^ 51 -> pa mod 4096 = 0 ->
  A !! q = Some (pa + (1 + memperm_to_pteperm perm)) ->
  xlate A q = Some (pa, memperm_to_pteperm perm).
Proof.
  intros Hp Hm HA. unfold xlate. rewrite HA, entry_present by done.
  pose proof (perm_bits perm) as (? & Hev & _).
  replace (Z.odd (1 + memperm_to_pteperm perm)) with true by (by destruct perm).
  rewrite entry_addr_flags by lia. f_equal. f_equal.
  rewrite <- (lor_frame pa) by lia. rewrite Z.land_lor_distr_l.
  replace (Z.land (1 + memperm_to_pteperm perm) 6) with (memperm_to_pteperm perm) by (by destruct perm).
  replace (Z.land pa 6) with 0; [done|].
  pose proof (Z.land_ones pa 12 ltac:(lia)) as E. change (2 ^ 12) with 4096 in E. rewrite Hm in E.
  change 6 with (Z.land (Z.ones 12) 6). by rewrite Z.land_assoc, E.
Qed.

Section spec.
Context {P O : Type} `{!PageAlloc P, !ObjAlloc O}.
Implicit Types s : vst P O.

(** ** Page entries *)

Lemma wp_load_leaf r T A H s v a (Q : Z -> vst P O -> Prop) :
  vspace r T A H s -> slot_of T v a -> Q (default 0 (A !! vpn v)) s -> wp (load64 a) Q s.
Proof.
  intros V (f & Hf & ->) HQ. pose proof (vs_tables _ _ _ _ _ V) as TB.
  pose proof (Z.mod_pos_bound (vpn v) 512). destruct (tb_word _ _ _ TB f _ (vpn v mod 512) Hf) as [w Hw]; [lia|].
  destruct (tb_ok _ _ _ TB _ _ _ Hf) as (_ & Hfa & _). eapply wp_load64; [done|lia|exact Hw|].
  assert (Hl : leaf T (v_frames s) (vpn v) w) by (by exists f).
  destruct (A !! vpn v) as [w'|] eqn:E; simpl in HQ.
  - apply (vs_space _ _ _ _ _ V) in E as (_ & (g & Hg & Hw') & _).
    rewrite (tb_inj _ _ _ TB _ _ _ Hf Hg) in Hw. congruence.
  - destruct (Z.eq_dec w 0) as [->|Hne]; [done|]. pose proof (vpn_bound v) as Hb.
    pose proof (proj2 (vs_space _ _ _ _ _ V (vpn v) w) (conj Hb (conj Hl Hne))). congruence.
Qed.

Lemma wp_store_leaf (U : Z * Z -> Prop) r T A H s v a w :
  U (0, path v 0) -> vspace r T A H s -> slot_of T v a ->
  wp (store64 a w) (fun _ s' => vspace r T (put (vpn v) w A) H s' /\ grow U T H s T H s' /\
    v_pages s' = v_pages s) s.
Proof.
  intros HU V (f & Hf & ->). pose proof (vs_tables _ _ _ _ _ V) as TB.
  destruct (path_levels v) as (E0 & _). rewrite E0 in HU.
  pose proof (Z.mod_pos_bound (vpn v) 512). destruct (tb_word _ _ _ TB f _ (vpn v mod 512) Hf) as [w0 Hw]; [lia|].
  destruct (tb_ok _ _ _ TB _ _ _ Hf) as (_ & Hfa & _). eapply wp_store64; [done|lia|exact Hw|].
  split; [split|split; [split|done]]; simpl; try done.
  - eapply tables_set_leaf; [done..|lia].
  - eapply space_set_leaf; [done|apply V|apply vpn_bound|done|done].
  - apply V.
  - by apply V.
  - congruence.
  - congruence.
  - intros g Hg _. unfold set_word. rewrite lookup_alter, decide_False; [done|].
    intros <-. by eapply Hg.
Qed.

Lemma grow_mono (U U' : Z * Z -> Prop) T H s T' H' s' :
  (forall x, U x -> U' x) -> grow U T H s T' H' s' -> grow U' T H s T' H' s'.
Proof.
  intros HU G. split; try apply G. intros f Hf. apply G. intros x Hx Ux. by apply (Hf x), HU.
Qed.

(** ** map_pages *)

(** One page of the loop of map_pages: page [m] of the range. *)
Lemma wp_map_page r T A H s v pa n perm m :
  vspace r T A H s -> 0 <= v -> 0 <= m < n -> n <= 2 ^ 36 -> v + n * 4096 <= 2 ^ 64 ->
  0 <= pa -> pa mod 4096 = 0 -> pa + n * 4096 <= 2 ^ 51 ->
  forall A1, mapped_upto A1 (vpn v) pa (1 + memperm_to_pteperm perm) m A ->
  wp (pte <- find_pte (KMAP_P2V r) (v + m * 4096) true;;
      if pte =? NULL then ret (inr ERR_VPMAP_MAP)
      else store64 pte (Z.lor (Z.lor (PPN (pa + m * 4096)) PTE_P) (memperm_to_pteperm perm));;
           ret (inl (u64 (v + m * 4096 + pg_size), u64 (pa + m * 4096 + pg_size))))
    (fun (x : (Z * Z) + Z) s' => exists T' H' A',
       vspace r T' A' H' s' /\ grow (on_paths v n) T H s T' H' s' /\
       match x with
       | inl y => y = (u64 (v + (m + 1) * 4096), pa + (m + 1) * 4096) /\
                  mapped_upto A1 (vpn v) pa (1 + memperm_to_pteperm perm) (m + 1) A'
       | inr e => e = ERR_VPMAP_MAP /\ A' = A
       end) s.
Proof.
  intros V Hv0 Hm Hn Hve Hp0 Hpm Hpe A1 HA.
  assert (HU : forall k, 0 <= k <= 3 -> on_paths v n (k, path (v + m * 4096) k)).
  { intros k _. exists m. split; [lia|]. simpl. by rewrite wrapu_small by lia. }
  wp_step. eapply wp_mono; [by apply (wp_find_pte_alloc (on_paths v n))|].
  intros a s2 (T2 & H2 & V2 & G2 & [->|[Hne Hsl]]); [simpl; wp_step; by exists T2, H2, A|].
  apply Z.eqb_neq in Hne. rewrite Hne. wp_step. rewrite pte_word; [|lia|rewrite Z.mod_add by lia; done].
  eapply wp_mono; [apply (wp_store_leaf (on_paths v n)); [apply HU; lia|done..]|].
  intros [] s3 (V3 & G3 & _). wp_step. eexists T2, H2, _. split; [exact V3|].
  split; [by eapply grow_trans|]. unfold pg_size, PG_SIZE. split.
  - f_equal; [f_equal; lia|]. rewrite wrapu_small; lia.
  - rewrite vpn_step by lia. pose proof (perm_bits perm) as (? & ? & _).
    apply mapped_step; [apply vpn_bound|lia|lia|done].
Qed.

Lemma mapped_none A q0 pa fl : mapped_upto A q0 pa fl 0 A.
Proof.
  intros q. unfold in_range. pose proof (Z.mod_pos_bound (q - q0) (2 ^ 36)).
  replace ((q - q0) mod 2 ^ 36 <? 0) with false by lia. by rewrite andb_false_r.
Qed.

Lemma round_aligned x : 0 <= x < 2 ^ 64 -> x mod 4096 = 0 -> pg_round_down x = x.
Proof. intros ? Hx. rewrite pg_round_down_spec by lia. unfold PG_SIZE. pose proof (Z.div_mod x 4096). lia. Qed.

Lemma wrap_aligned x : x mod 4096 = 0 -> u64 x mod 4096 = 0.
Proof. intros Hx. unfold wrapu. by rewrite Z.mod_mod_divide by (by exists (2 ^ 52)). Qed.

(** The loop ends at the end of the range, also when that is address 0. *)
Lemma loop_end v n m : 0 <= v -> 0 <= m <= n -> 0 < n <= 2 ^ 36 -> v + n * 4096 <= 2 ^ 64 ->
  (u64 (v + m * 4096) =? u64 (v + n * 4096)) = (m =? n).
Proof.
  intros Hv Hm Hn Hve. destruct (Z.eqb_spec m n) as [->|Hne]; [apply Z.eqb_refl|]. apply Z.eqb_neq.
  rewrite (wrapu_small 64 (v + m * 4096)) by lia. unfold wrapu. intros E.
  destruct (Z.eq_dec (v + n * 4096) (2 ^ 64)) as [E2|]; [rewrite E2, Z.mod_same in E by lia; lia|].
  rewrite Z.mod_small in E by lia. lia.
Qed.

Lemma wp_map_pages r T A H s v pa n perm :
  vspace r T A H s -> 0 <= v -> v mod 4096 = 0 -> 0 < n <= 2 ^ 36 -> v + n * 4096 <= 2 ^ 64 ->
  0 <= pa -> pa mod 4096 = 0 -> pa + n * 4096 <= 2 ^ 51 ->
  wp (map_pages (KMAP_P2V r) v pa (n * 4096) (memperm_to_pteperm perm)) (fun e s' => exists T' H' A' m,
     vspace r T' A' H' s' /\ grow (on_paths v n) T H s T' H' s' /\
     mapped_upto A (vpn v) pa (1 + memperm_to_pteperm perm) m A' /\
     ((e = ERR_OK /\ m = n) \/ (e = ERR_VPMAP_MAP /\ 0 <= m < n))) s.
Proof.
  intros V Hv0 Hvm Hn Hve Hp0 Hpm Hpe. pose proof (tb_root _ _ _ (vs_tables _ _ _ _ _ V)) as Hr.
  destruct (tb_ok _ _ _ (vs_tables _ _ _ _ _ V) _ _ _ Hr) as (_ & Hra & _).
  unfold map_pages. wp_step. wp_step; [by apply P2V_nonnull|]. cbv zeta.
  rewrite (round_aligned v), (round_aligned pa) by (done || lia).
  rewrite round_aligned; [|by apply wrapu_bound|by apply wrap_aligned; rewrite Z.mod_add by lia].
  apply (wp_loop_ghost _ _ (fun k '(x, y) s' => exists m T' H' A',
    k = Z.to_nat (n - m) /\ 0 <= m <= n /\ x = u64 (v + m * 4096) /\ y = pa + m * 4096 /\
    vspace r T' A' H' s' /\ grow (on_paths v n) T H s T' H' s' /\
    mapped_upto A (vpn v) pa (1 + memperm_to_pteperm perm) m A') _ (Z.to_nat n)).
  - intros k [x y] s1 (m & T1 & H1 & A1 & -> & Hm & -> & -> & V1 & G1 & HA1).
    rewrite loop_end by done. destruct (Z.eqb_spec m n) as [->|Hmn].
    { wp_step. exists T1, H1, A1, n. do 3 (split; [done|]). by left. }
    rewrite (wrapu_small 64 (v + m * 4096)) by lia.
    eapply wp_mono; [apply (wp_map_page r T1 A1 H1 s1 v pa n perm m) with (A1 := A); done || lia|].
    intros [x|e] s2 (T2 & H2 & A2 & V2 & G2 & Hx).
    + destruct Hx as [-> HA2]. exists (Z.to_nat (n - (m + 1))). split; [lia|].
      exists (m + 1), T2, H2, A2. do 2 (split; [done || lia|]). do 3 (split; [done|]).
      split; [by eapply grow_trans|done].
    + destruct Hx as [-> ->]. exists T2, H2, A1, m. split; [done|]. split; [by eapply grow_trans|].
      split; [done|]. right. split; [done|lia].
  - exists 0, T, H, A. split; [f_equal; lia|]. split; [lia|]. split; [by rewrite Z.add_0_r, wrapu_small by lia|].
    split; [lia|]. split; [done|]. split; [apply grow_refl|apply mapped_none].
  - unfold wrapu, pg_size, PG_SIZE. rewrite Zminus_mod_idemp_l, Z.mod_small by lia.
    replace (v + n * 4096 - v) with (n * 4096) by lia. rewrite Z.div_mul by lia. lia.
Qed.
End spec.
