(* ===== verification/VpmapCopy.v ===== *)
(** * Page tables: translation, permissions, copies *)

From stdpp Require Import prelude list gmap.
From Stdlib Require Import ZArith Lia.
From S2P Require Import Prelude Mmu DList ObjAlloc PageAlloc Vpmap VpmapInv VpmapSpec VpmapMap.

Lemma ENTRY_ADDR_frame w : 0 <= ENTRY_ADDR w < 2 ^ 51 /\ ENTRY_ADDR w mod 4096 = 0.
Proof.
  unfold ENTRY_ADDR. replace PHYS_ADDR_MASK with (2 ^ 51 - 1) by reflexivity. split.
  - rewrite land_low_mask by lia. apply Z.mod_pos_bound. lia.
  - change 4096 with (2 ^ 12). rewrite <- Z.land_ones by lia. rewrite <- !Z.land_assoc.
    change (Z.land (u64 (Z.lnot 0xFFF)) (Z.land (2 ^ 51 - 1) (Z.ones 12))) with 0. apply Z.land_0_r.
Qed.

(** The word vpmap_set_perm stores. *)
Lemma set_perm_word w perm :
  Z.lor (Z.lor (PPN w) (Z.land (ENTRY_FLAGS w) PTE_P)) (memperm_to_pteperm perm) =
  ENTRY_ADDR w + ((if present w then 1 else 0) + memperm_to_pteperm perm).
Proof.
  rewrite PPN_ENTRY_ADDR. unfold ENTRY_FLAGS. rewrite <- Z.land_assoc. change (Z.land 0xFFF PTE_P) with 1.
  replace (Z.land w 1) with (if present w then 1 else 0).
  - rewrite <- Z.lor_assoc. replace (Z.lor (if present w then 1 else 0) (memperm_to_pteperm perm))
      with ((if present w then 1 else 0) + memperm_to_pteperm perm) by (by destruct (present w), perm).
    pose proof (perm_bits perm). apply lor_frame; [apply ENTRY_ADDR_frame|destruct (present w); lia].
  - rewrite present_odd. change 1 with (2 ^ 1 - 1) at 2. rewrite land_low_mask by lia.
    change (2 ^ 1) with 2. by rewrite Zmod_odd.
Qed.

Lemma VPN_ofs v : 0 <= v < 2 ^ 64 -> v - VPN v = v mod 4096.
Proof.
  intros. unfold VPN. change 0xFFF with (2 ^ 12 - 1). rewrite land_high_mask by lia.
  change (2 ^ 12) with 4096. lia.
Qed.

(** The outcome of a translation: error code, physical address, swap id. *)
Definition lookup_result (A : gmap Z Z) (v : Z) : Z * Z * Z :=
  match xlate A (vpn v) with
  | Some (f, _) => (ERR_OK, f + v mod 4096, SWAPID_NONE)
  | None => (ERR_VPMAP_NOTPRESENT, PADDR_NONE, SWAPID_NONE)
  end.

(** The page [q] of a space whose entries were changed by [g] in a range. *)
Definition perm_upto (A : gmap Z Z) (q0 perm m : Z) (A' : gmap Z Z) : Prop :=
  forall q, xlate A' q = if in_range q0 m q then (fun x => (x.1, perm)) <$> xlate A q else xlate A q.

Section spec.
Context {P O : Type} `{!PageAlloc P, !ObjAlloc O}.
Implicit Types s : vst P O.

Lemma wp_get_pml4 vp a s (Q : Z -> vst P O -> Prop) :
  v_vpmaps s !! vp = Some a -> Q a s -> wp (get_pml4 vp) Q s.
Proof. intros Hv HQ. unfold get_pml4. wp_step. wp_step. rewrite Hv. by eapply wp_deref. Qed.

Lemma wp_present_lookup r T A H s vp v :
  vspace r T A H s -> v_vpmaps s !! vp = Some (KMAP_P2V r) -> vp <> NULL -> 0 <= v < 2 ^ 64 ->
  wp (vpmap_lookup_vaddr vp v) (fun x s' => s' = s /\ x = lookup_result A v) s.
Proof.
  intros V Hvp Hnn Hv. unfold vpmap_lookup_vaddr, lookup_result, xlate. wp_step.
  wp_step; [by apply nonnull_true|]. wp_step. eapply wp_get_pml4; [done|]. wp_step.
  eapply wp_mono; [by apply (wp_find_pte_read r T A H)|].
  intros a s' (-> & [[-> ->]|[Hne Hs]]); [simpl; by wp_step|].
  apply Z.eqb_neq in Hne. rewrite Hne. simpl negb. cbn match. wp_step.
  eapply wp_load_leaf; [done..|]. fold (present (default 0 (A !! vpn v))).
  destruct (A !! vpn v) as [w|]; simpl; [|by wp_step].
  destruct (present w); wp_step; (split; [done|]); [|done].
  rewrite VPN_ofs by done. pose proof (ENTRY_ADDR_frame w). rewrite PPN_ENTRY_ADDR, wrapu_small; [done|].
  pose proof (Z.mod_pos_bound v 4096). lia.
Qed.

(** ** vpmap_set_perm *)

Lemma xlate_put_perm A q perm q' : let w := default 0 (A !! q) in
  xlate (put q (ENTRY_ADDR w + ((if present w then 1 else 0) + memperm_to_pteperm perm)) A) q' =
  if decide (q' = q) then (fun x => (x.1, memperm_to_pteperm perm)) <$> xlate A q else xlate A q'.
Proof.
  intros w. unfold xlate at 1. rewrite lookup_put.
  destruct (decide (q' = q)) as [->|]; [|done].
  assert (Hx : xlate A q = if present w then Some (ENTRY_ADDR w, Z.land w 6) else None)
    by (unfold xlate, w; by destruct (A !! q)). rewrite Hx.
  pose proof (ENTRY_ADDR_frame w) as [Hb Hm]. pose proof (perm_bits perm) as (Hpb & Hev & Hl).
  destruct (present w) eqn:Ep.
  - destruct (Z.eqb_spec (ENTRY_ADDR w + (1 + memperm_to_pteperm perm)) 0); [lia|].
    pose proof (xlate_word {[q := ENTRY_ADDR w + (1 + memperm_to_pteperm perm)]} q (ENTRY_ADDR w) perm Hb Hm) as E.
    unfold xlate in E. rewrite lookup_singleton, decide_True in E by done. by apply E.
  - rewrite Z.add_0_l. destruct (ENTRY_ADDR w + memperm_to_pteperm perm =? 0); [done|]. simpl.
    rewrite entry_present by done. by rewrite <- Z.negb_even, Hev.
Qed.

Lemma vaddr_page v i n : 0 <= v < 2 ^ 64 -> v mod 4096 = 0 -> 0 <= i < n -> v + n * 4096 <= 2 ^ 64 ->
  u64 (v + i * pg_size) = v + i * 4096.
Proof. intros. unfold pg_size, PG_SIZE. apply wrapu_small. lia. Qed.

Lemma wp_set_perm r T A H s vp v n perm :
  vspace r T A H s -> v_vpmaps s !! vp = Some (KMAP_P2V r) -> vp <> NULL ->
  0 <= v < 2 ^ 64 -> v mod 4096 = 0 -> 0 <= n <= 2 ^ 36 -> v + n * 4096 <= 2 ^ 64 ->
  wp (vpmap_set_perm vp v n perm) (fun _ s' => exists A', vspace r T A' H s' /\
     grow (on_paths v n) T H s T H s' /\ perm_upto A (vpn v) (memperm_to_pteperm perm) n A') s.
Proof.
  intros V Hvp Hnn Hv Hvm Hn Hve. unfold vpmap_set_perm. wp_step. wp_step; [by apply nonnull_true|].
  cbv zeta. rewrite round_aligned by done.
  apply wp_for with (I := fun m s' => exists A', vspace r T A' H s' /\
    grow (on_paths v n) T H s T H s' /\ perm_upto A (vpn v) (memperm_to_pteperm perm) m A').
  - exists A. split; [done|]. split; [apply grow_refl|]. intros q. unfold in_range.
    pose proof (Z.mod_pos_bound (q - vpn v) (2 ^ 36)).
    replace ((q - vpn v) mod 2 ^ 36 <? 0) with false by lia. by rewrite andb_false_r.
  - intros m s1 Hm (A1 & V1 & G1 & HA1). rewrite (vaddr_page v m n) by (done || lia). wp_step.
    eapply wp_get_pml4; [pose proof (gr_rest _ _ _ _ _ _ _ G1) as [= ->]; exact Hvp|]. wp_step.
    eapply wp_mono; [by apply (wp_find_pte_read r T A1 H)|]. intros a s2 (-> & Ha).
    assert (Hq : vpn (v + m * 4096) = (vpn v + m) mod 2 ^ 36) by (apply vpn_step; lia). rewrite Hq in Ha.
    pose proof (vpn_bound v) as Hb. destruct Ha as [[-> HN]|[Hne Hs]].
    { simpl. wp_step. exists A1. do 2 (split; [done|]). intros q. rewrite in_range_succ, HA1 by lia.
      destruct (Z.eqb_spec q ((vpn v + m) mod 2 ^ 36)) as [->|]; [|by rewrite orb_false_r].
      pose proof (HA1 ((vpn v + m) mod 2 ^ 36)) as E. rewrite in_range_at in * by lia. simpl.
      unfold xlate in E at 1. rewrite HN in E. by rewrite <- E. }
    apply Z.eqb_neq in Hne. rewrite Hne. simpl negb. cbn match. wp_step.
    eapply wp_load_leaf; [done..|]. rewrite set_perm_word.
    eapply wp_mono; [apply (wp_store_leaf (on_paths v n)); [|done..]|].
    { exists m. simpl. rewrite wrapu_small by lia. split; [lia|done]. }
    intros [] s2 (V2 & G2 & _). eexists. split; [exact V2|]. split; [by eapply grow_trans|].
    intros q. rewrite xlate_put_perm, Hq, in_range_succ by lia.
    case_decide as E; [subst q|apply Z.eqb_neq in E; by rewrite E, orb_false_r].
    rewrite Z.eqb_refl, orb_true_r, HA1, in_range_at by lia. done.
  - intros s1. rewrite Z2Nat.id by lia. done.
Qed.

(** ** vpmap_copy *)

Lemma vspace_frame r T A H s H' s' :
  vspace r T A H s -> (forall f x, T !! f = Some x -> v_frames s' !! f = v_frames s !! f) ->
  pg_held (v_pages s') H' -> H ⊆ H' -> vspace r T A H' s'.
Proof.
  intros [TB SP HE OWN] HF Hp HH. split.
  - by eapply tables_frame.
  - by eapply space_frame.
  - done.
  - intros f x Hf. destruct (OWN _ _ Hf) as [c Hc]. exists c. by eapply lookup_weaken.
Qed.

Section copy.
(** The source and the destination space, and the range. *)
Context (r1 r2 : Z) (T1 T2 : gmap Z (Z * Z)) (A1 A2 H : gmap Z Z) (s : vst P O).
Context (vp1 vp2 src dst n : Z) (perm : memperm).
Hypothesis V1 : vspace r1 T1 A1 H s.
Hypothesis V2 : vspace r2 T2 A2 H s.
Hypothesis Hvp1 : v_vpmaps s !! vp1 = Some (KMAP_P2V r1).
Hypothesis Hvp2 : v_vpmaps s !! vp2 = Some (KMAP_P2V r2).
Hypothesis Hnn : vp1 <> NULL /\ vp2 <> NULL.
Hypothesis Hsrc : 0 <= src < 2 ^ 64 /\ src mod 4096 = 0 /\ src + n * 4096 <= 2 ^ 64.
Hypothesis Hdst : 0 <= dst < 2 ^ 64 /\ dst mod 4096 = 0 /\ dst + n * 4096 <= 2 ^ 64.
Hypothesis Hn : 0 <= n <= 2 ^ 36.
(** The tables the spaces share (those of the kernel) are not on the paths of
    the destination. *)
Hypothesis Hsep : forall f y x, T1 !! f = Some y -> T2 !! f = Some x -> ~ on_paths dst n x.
(** Word of page [i] of the source range, 0 when it has none. *)
Definition src_word (i : Z) : Z := default 0 (A1 !! vpn (src + i * 4096)).
(** The pages of the source are frames of memory, not tables. *)
Hypothesis Hdata : forall i, 0 <= i < n -> ENTRY_ADDR (src_word i) <> 0 ->
  is_Some (H !! ENTRY_ADDR (src_word i)) /\ T2 !! ENTRY_ADDR (src_word i) = None /\
  is_Some (v_frames s !! ENTRY_ADDR (src_word i)).

(** Page [i] of the range was copied into frame [g]. *)
Definition copied (A' H' : gmap Z Z) (s' : vst P O) (i g : Z) : Prop :=
  A' !! vpn (dst + i * 4096) = Some (g + (1 + memperm_to_pteperm perm)) /\
  frame_addr g /\ H !! g = None /\ H' !! g = Some 1 /\
  v_frames s' !! g = v_frames s !! ENTRY_ADDR (src_word i).

(** The pages before [m] are done. *)
Record copy_upto (m : Z) (T' : gmap Z (Z * Z)) (A' H' : gmap Z Z) (fr : gmap Z Z) (s' : vst P O) : Prop := {
  cu_src : vspace r1 T1 A1 H' s';
  cu_dst : vspace r2 T' A' H' s';
  cu_H : H ⊆ H';
  cu_T : T2 ⊆ T';
  cu_new : forall f x, T' !! f = Some x -> T2 !! f = None -> H !! f = None;
  cu_fresh : forall i g, fr !! i = Some g -> 0 <= i < m /\ T' !! g = None /\ copied A' H' s' i g;
  cu_all : forall i, 0 <= i < m -> ENTRY_ADDR (src_word i) <> 0 -> is_Some (fr !! i);
  cu_inj : forall i j g, fr !! i = Some g -> fr !! j = Some g -> i = j;
  cu_else : forall q, (forall i, is_Some (fr !! i) -> q <> vpn (dst + i * 4096)) -> A' !! q = A2 !! q;
  cu_frames : forall f, is_Some (H !! f) -> (forall x, T2 !! f = Some x -> ~ on_paths dst n x) ->
     v_frames s' !! f = v_frames s !! f;
  cu_rest : rest s' = rest s
}.

Lemma copy_start : copy_upto 0 T2 A2 H ∅ s.
Proof using V1 V2.
  split; try done; try (intros ?; lia).
  - congruence.
Qed.

(** A grown destination keeps what was copied. *)
Lemma copy_grow m T' A' H' fr s1 T'' H'' s2 :
  copy_upto m T' A' H' fr s1 -> grow (on_paths dst n) T' H' s1 T'' H'' s2 -> vspace r2 T'' A' H'' s2 ->
  copy_upto m T'' A' H'' fr s2.
Proof using V1 V2 Hsep.
  intros C G V. pose proof (gr_H _ _ _ _ _ _ _ G) as HH. pose proof (cu_H _ _ _ _ _ _ C) as HH'.
  assert (HF : forall f, is_Some (H !! f) -> (forall x, T2 !! f = Some x -> ~ on_paths dst n x) ->
     v_frames s2 !! f = v_frames s1 !! f).
  { intros f [c Hc] Hx. apply G; [|exists c; by eapply lookup_weaken].
    intros x Hf. destruct (T2 !! f) as [y|] eqn:E.
    - pose proof (lookup_weaken _ _ _ _ E (cu_T _ _ _ _ _ _ C)). apply Hx. congruence.
    - pose proof (cu_new _ _ _ _ _ _ C _ _ Hf E). congruence. }
  split.
  - eapply vspace_frame; [apply C| |apply V|done]. intros f x Hf. apply HF.
    + by eapply V1.
    + intros y Hy. by eapply Hsep.
  - done.
  - by etrans.
  - etrans; [apply C|apply G].
  - intros f x Hf Hn2. destruct (T' !! f) as [y|] eqn:E; [by eapply (cu_new _ _ _ _ _ _ C)|].
    pose proof (gr_new _ _ _ _ _ _ _ G _ _ Hf E) as E1.
    destruct (H !! f) as [c|] eqn:E2; [|done]. eapply lookup_weaken in E2; [|exact HH']. congruence.
  - intros i g Hi. destruct (cu_fresh _ _ _ _ _ _ C _ _ Hi) as (? & HT & Ha & Hg & Hng & Hh & Hc).
    assert (HT2 : T'' !! g = None).
    { destruct (T'' !! g) as [x|] eqn:E; [|done]. pose proof (gr_new _ _ _ _ _ _ _ G _ _ E HT). congruence. }
    do 2 (split; [done|]). split; [done|]. split; [done|]. split; [done|].
    split; [by eapply lookup_weaken|]. rewrite (gr_frames _ _ _ _ _ _ _ G); [done|congruence|by exists 1].
  - apply C.
  - apply C.
  - apply C.
  - intros f Hf Hx. rewrite HF by done. by apply C.
  - rewrite (gr_rest _ _ _ _ _ _ _ G). apply C.
Qed.

Lemma copy_skip m T' A' H' fr s1 : copy_upto m T' A' H' fr s1 -> ENTRY_ADDR (src_word m) = 0 ->
  copy_upto (m + 1) T' A' H' fr s1.
Proof using Type.
  intros C Hz. split; try apply C.
  - intros i g Hi. destruct (cu_fresh _ _ _ _ _ _ C _ _ Hi) as (? & ?). split; [lia|done].
  - intros i Hi Hw. destruct (Z.eq_dec i m) as [->|]; [done|]. apply C; [lia|done].
Qed.

(** A fresh data frame is taken and filled. *)
Lemma copy_take m T' A' H' fr s1 g l p' :
  copy_upto m T' A' H' fr s1 -> H' !! g = None -> pg_held p' (<[g := 1]> H') ->
  copy_upto m T' A' (<[g := 1]> H') fr (set_frames (<[g := l]> (v_frames s1)) (set_pages p' s1)).
Proof using Type.
  intros C Hg Hp. assert (HH : H' ⊆ <[g := 1]> H') by (by apply insert_subseteq).
  assert (HF : forall f c, H' !! f = Some c ->
    v_frames (set_frames (<[g := l]> (v_frames s1)) (set_pages p' s1)) !! f = v_frames s1 !! f).
  { intros f c Hf. simpl. rewrite lookup_insert_ne; [done|]. congruence. }
  split; try apply C.
  - eapply vspace_frame; [apply C| |done|done].
    intros f x Hf. destruct (vs_own _ _ _ _ _ (cu_src _ _ _ _ _ _ C) _ _ Hf) as [c Hc]. by eapply HF.
  - eapply vspace_frame; [apply C| |done|done].
    intros f x Hf. destruct (vs_own _ _ _ _ _ (cu_dst _ _ _ _ _ _ C) _ _ Hf) as [c Hc]. by eapply HF.
  - etrans; [apply C|done].
  - intros i h Hi. destruct (cu_fresh _ _ _ _ _ _ C _ _ Hi) as (? & ? & Ha & Hfa & Hnh & Hh & Hc).
    do 2 (split; [done|]). do 3 (split; [done|]). split; [by eapply lookup_weaken|].
    by rewrite (HF _ _ Hh).
  - intros f Hf Hx. pose proof Hf as [c Hc]. pose proof (lookup_weaken _ _ _ _ Hc (cu_H _ _ _ _ _ _ C)).
    erewrite HF by done. by apply C.
Qed.

Lemma dst_vpn_inj i j : 0 <= i < n -> 0 <= j < n -> vpn (dst + i * 4096) = vpn (dst + j * 4096) -> i = j.
Proof using Hdst Hn.
  intros Hi Hj E. destruct Hdst as (? & ? & ?). rewrite !vpn_step in E by lia. pose proof (vpn_bound dst).
  pose proof (range_pos (vpn dst) i ltac:(lia) ltac:(lia)) as E1.
  pose proof (range_pos (vpn dst) j ltac:(lia) ltac:(lia)) as E2. congruence.
Qed.

(** The entry of page [m] is stored. *)
Lemma copy_store m T' A' H' fr s1 g s2 :
  0 <= m < n -> copy_upto m T' A' H' fr s1 -> frame_addr g -> H !! g = None -> H' !! g = Some 1 ->
  T' !! g = None -> (forall i, fr !! i <> Some g) ->
  v_frames s1 !! g = v_frames s !! ENTRY_ADDR (src_word m) ->
  vspace r2 T' (put (vpn (dst + m * 4096)) (g + (1 + memperm_to_pteperm perm)) A') H' s2 ->
  grow (on_paths dst n) T' H' s1 T' H' s2 ->
  copy_upto (m + 1) T' (put (vpn (dst + m * 4096)) (g + (1 + memperm_to_pteperm perm)) A') H' (<[m := g]> fr) s2.
Proof using V1 V2 Hsep Hdst Hn.
  intros Hm C Hga HHg HHg' HTg Hnew Hcont V G.
  assert (Hw0 : (g + (1 + memperm_to_pteperm perm) =? 0) = false).
  { pose proof (perm_bits perm). destruct Hga. lia. }
  assert (HF : forall f, T' !! f = None -> is_Some (H' !! f) -> v_frames s2 !! f = v_frames s1 !! f).
  { intros f Hf Hh. apply G; [congruence|done]. }
  split.
  - eapply vspace_frame; [apply C| |apply V|done]. intros f x Hf.
    destruct (vs_own _ _ _ _ _ V1 _ _ Hf) as [c Hc]. apply G; [|exists c; by eapply lookup_weaken; [|apply C]].
    intros y Hy. destruct (T2 !! f) as [z|] eqn:E.
    + pose proof (lookup_weaken _ _ _ _ E (cu_T _ _ _ _ _ _ C)). rewrite Hy in *. simplify_eq. by eapply Hsep.
    + pose proof (cu_new _ _ _ _ _ _ C _ _ Hy E). congruence.
  - done.
  - apply C.
  - apply C.
  - apply C.
  - intros i h. rewrite lookup_insert. case_decide as E.
    + intros [= <-]. subst i. split; [lia|]. split; [done|]. split; [|split; [done|split; [done|split; [done|]]]].
      * by rewrite lookup_put, decide_True, Hw0.
      * by rewrite HF.
    + intros Hi. destruct (cu_fresh _ _ _ _ _ _ C _ _ Hi) as (? & HT & Ha & Hfa & Hnh & Hh & Hc).
      split; [lia|]. split; [done|]. split; [|split; [done|split; [done|split; [done|]]]].
      * rewrite lookup_put, decide_False; [done|]. intros E2. apply dst_vpn_inj in E2; lia.
      * by rewrite HF.
  - intros i Hi Hw. rewrite lookup_insert. case_decide; [done|]. apply C; [lia|done].
  - intros i j h. rewrite !lookup_insert. do 2 case_decide; [congruence|..].
    + intros [= <-] Hj. by destruct (Hnew j).
    + intros Hj [= <-]. by destruct (Hnew i).
    + apply C.
  - intros q Hq. rewrite lookup_put. case_decide as E.
    + exfalso. apply (Hq m); [rewrite lookup_insert, decide_True; done|done].
    + apply C. intros i [h Hi]. apply Hq. rewrite lookup_insert. case_decide; [done|by exists h].
  - intros f [c Hc] Hx. rewrite (gr_frames _ _ _ _ _ _ _ G); [by apply C; [exists c|]| |].
    + intros y Hy. destruct (T2 !! f) as [z|] eqn:E.
      * pose proof (lookup_weaken _ _ _ _ E (cu_T _ _ _ _ _ _ C)). rewrite Hy in *. simplify_eq. by apply Hx.
      * pose proof (cu_new _ _ _ _ _ _ C _ _ Hy E). congruence.
    + exists c. by eapply lookup_weaken; [|apply C].
  - rewrite (gr_rest _ _ _ _ _ _ _ G). apply C.
Qed.

(** The copy of one page whose entries were found. *)
Lemma wp_copy_page m T' A' H' fr s1 a b :
  0 <= m < n -> copy_upto m T' A' H' fr s1 -> slot_of T1 (src + m * 4096) a -> slot_of T' (dst + m * 4096) b ->
  ENTRY_ADDR (src_word m) <> 0 ->
  wp (r <- on_pages pg_alloc;;
      match r with
      | inr _ => ret (Some ERR_NOMEM)
      | inl paddr =>
          w <- load64 a;;
          copy_page (KMAP_P2V paddr) (KMAP_P2V (ENTRY_ADDR w));;
          store64 b (Z.lor (Z.lor (PPN paddr) PTE_P) (memperm_to_pteperm perm));;
          ret None
      end)
    (fun e s' => exists A'' H'' fr', match e with
       | None => copy_upto (m + 1) T' A'' H'' fr' s'
       | Some e => e = ERR_NOMEM /\ copy_upto m T' A'' H'' fr' s'
       end) s1.
Proof using V1 V2 Hsep Hdst Hn Hdata.
  intros Hm C Ha Hb Hw. destruct (Hdata m Hm Hw) as ([c Hc] & HT2 & [l Hl]).
  destruct (pg_held_addr _ _ _ _ (vs_held _ _ _ _ _ V1) Hc) as [Hfa _].
  pose proof (lookup_weaken _ _ _ _ Hc (cu_H _ _ _ _ _ _ C)) as Hc'.
  wp_step. unfold on_pages. wp_step. eapply wp_mono; [apply pg_alloc_spec, (cu_dst _ _ _ _ _ _ C)|].
  intros [g|[]] p' Hr.
  - destruct Hr as (Hga & HHg & Hp). wp_step.
    pose proof (copy_take _ _ _ _ _ _ g l p' C HHg Hp) as C2.
    assert (V1' : vspace r1 T1 A1 (<[g := 1]> H') (set_pages p' s1)).
    { eapply vspace_frame; [apply C|done|done|by apply insert_subseteq]. }
    eapply (wp_load_leaf r1 T1 A1); [exact V1'|exact Ha|]. fold (src_word m). wp_step. unfold copy_page.
    rewrite !frame_of_P2V by done. wp_step. wp_step.
    assert (Hl1 : v_frames s1 !! ENTRY_ADDR (src_word m) = Some l).
    { rewrite (cu_frames _ _ _ _ _ _ C); [done|by exists c|congruence]. }
    simpl v_frames. rewrite Hl1. wp_step. eapply wp_deref; [done|]. wp_step. wp_step.
    rewrite pte_word by (destruct Hga as [? Hgm]; unfold PG_SIZE in Hgm; done || lia).
    eapply wp_mono; [apply (wp_store_leaf (on_paths dst n)); [|apply (cu_dst _ _ _ _ _ _ C2)|exact Hb]|].
    { exists m. destruct Hdst as (? & ? & ?). simpl. rewrite wrapu_small by lia. split; [lia|done]. }
    intros [] s3 (V3 & G3 & _). wp_step. eexists _, _, _.
    eapply (copy_store m T' A' (<[g := 1]> H') fr _ g s3 Hm C2 Hga); [..|exact V3|exact G3].
    + destruct (H !! g) as [z|] eqn:E; [|done]. eapply lookup_weaken in E; [|apply C]. congruence.
    + by rewrite lookup_insert, decide_True.
    + destruct (T' !! g) as [x|] eqn:E; [|done]. destruct (vs_own _ _ _ _ _ (cu_dst _ _ _ _ _ _ C) _ _ E). congruence.
    + intros i Hi. destruct (cu_fresh _ _ _ _ _ _ C _ _ Hi) as (_ & _ & _ & _ & _ & Hh & _). congruence.
    + simpl. by rewrite lookup_insert, decide_True, Hl.
  - wp_step. exists A', H', fr. split; [done|]. split; try apply C.
    + eapply vspace_frame; [apply C|done|done|done].
    + eapply vspace_frame; [apply C|done|done|done].
Qed.

Definition copy_post (e : Z) (s' : vst P O) : Prop :=
  exists m T' A' H' fr, copy_upto m T' A' H' fr s' /\
    ((e = ERR_OK /\ m = n) \/ ((e = ERR_VPMAP_MAP \/ e = ERR_NOMEM) /\ 0 <= m < n)).

Lemma wp_copy : wp (vpmap_copy vp1 vp2 src dst n perm) copy_post s.
Proof using V1 V2 Hvp1 Hvp2 Hnn Hsrc Hdst Hn Hsep Hdata.
  destruct Hsrc as (Hs0 & Hsm & Hse). destruct Hdst as (Hd0 & Hdm & Hde).
  unfold vpmap_copy. wp_step. wp_step; [by rewrite !nonnull_true by apply Hnn|]. cbv zeta. wp_step.
  rewrite !round_aligned by done.
  apply wp_for_ret with (I := fun m s' => exists T' A' H' fr, copy_upto m T' A' H' fr s').
  - eexists _, _, _, _. apply copy_start.
  - intros m s1 Hm (T' & A' & H' & fr & C). rewrite (vaddr_page src m n), (vaddr_page dst m n) by (done || lia).
    pose proof (cu_rest _ _ _ _ _ _ C) as Hrest. assert (Ev : v_vpmaps s1 = v_vpmaps s) by (by injection Hrest).
    wp_step. eapply wp_get_pml4; [rewrite Ev; exact Hvp1|]. wp_step.
    eapply wp_mono; [apply (wp_find_pte_read r1 T1 A1 H'), C|]. intros a s2 (-> & Ha). wp_step.
    assert (Hskip : forall s2, s2 = s1 -> ENTRY_ADDR (src_word m) = 0 ->
      exists T' A' H' fr, copy_upto (m + 1) T' A' H' fr s2).
    { intros s2 -> Hz. eexists _, _, _, _. by apply copy_skip. }
    destruct Ha as [[-> HN]|[Hne Hsl]].
    { simpl. wp_step. wp_step. apply Hskip; [done|]. unfold src_word. by rewrite HN. }
    pose proof Hne as Hne'. apply Z.eqb_neq in Hne'. rewrite Hne'. wp_step.
    eapply (wp_load_leaf r1 T1 A1); [apply C|exact Hsl|]. fold (src_word m). wp_step.
    rewrite PPN_ENTRY_ADDR. destruct (Z.eqb_spec (ENTRY_ADDR (src_word m)) 0) as [Ez|Hw].
    { wp_step. by apply Hskip. }
    wp_step. eapply wp_get_pml4; [rewrite Ev; exact Hvp2|]. wp_step.
    eapply wp_mono; [apply (wp_find_pte_alloc (on_paths dst n) r2 T' A' H'); [|apply C]|].
    { intros k _. exists m. simpl. rewrite wrapu_small by lia. split; [lia|done]. }
    intros b s2 (T'' & H'' & V'' & G'' & Hb). pose proof (copy_grow _ _ _ _ _ _ _ _ _ C G'' V'') as C'.
    destruct Hb as [->|[Hbn Hbs]].
    { simpl. wp_step. wp_step. wp_step. wp_step. eexists m, _, _, _, _. split; [exact C'|]. right.
      split; [by left|lia]. }
    apply Z.eqb_neq in Hbn. rewrite Hbn. wp_step. wp_step.
    eapply (wp_load_leaf r2 T'' A'); [apply C'|exact Hbs|]. wp_step.
    destruct (PPN _ =? 0); simpl negb; cbn match.
    2:{ wp_step. wp_step. eexists m, _, _, _, _. split; [exact C'|]. right. split; [by left|lia]. }
    eapply wp_mono; [by apply (wp_copy_page m T'' A' H'' fr s2 a b ltac:(lia) C')|].
    intros [e|] s3 (A3 & H3 & fr3 & C3); [|by exists T'', A3, H3, fr3].
    wp_step. destruct C3 as [-> C3]. eexists m, _, _, _, _. split; [exact C3|]. right. split; [by right|lia].
  - intros s1 (T' & A' & H' & fr & C). wp_step. exists n, T', A', H', fr.
    rewrite Z2Nat.id in C by lia. split; [done|by left].
Qed.
End copy.
End spec.
