(* ===== verification/VpmapUnmap.v ===== *)
(** * Page tables: what unmapping clears

    [unmap_pages], [unmap_pdpt] and [unmap_pd] clear a set of page entries
    that depends on the indices of the start and end address at every level.
    [cleared] is that set, [freed] the set of tables they return when
    [free_imm] is set; the lemma at the end says that the three loops clear
    exactly [cleared], drop one page reference per present entry they clear
    and free exactly [freed]. *)

From stdpp Require Import prelude list gmap.
From Stdlib Require Import ZArith Lia.
From S2P Require Import Prelude Mmu DList ObjAlloc PageAlloc Vpmap VpmapInv VpmapSpec VpmapMap VpmapCopy.

Section sets.
Context (start end_ : Z).

(** First index and limit of the loops, by the prefix of the table. *)
Definition lo2 (x : Z) : Z := if x =? PML4X start then PDPTX start else 0.
Definition hi2 (x : Z) : Z := if lo2 x <? PDPTX end_ then N_PTE_PER_PG else PDPTX end_ + 1.
Definition lo1 (x : Z) : Z := if x mod 512 =? lo2 (x / 512) then PDX start else 0.
Definition hi1 (x : Z) : Z := if lo1 x <? PDX end_ then N_PTE_PER_PG else PDX end_ + 1.
Definition lo0 (x : Z) : Z := if x mod 512 =? lo1 (x / 512) then PTX start else 0.
Definition hi0 (x : Z) : Z := if lo0 x <? PTX end_ then N_PTE_PER_PG else PTX end_ + 1.

Definition between (lo x hi : Z) : bool := (lo <=? x) && (x <? hi).
(** The entry with prefix [q] is in the loop of its table. *)
Definition in0 (q : Z) : bool := between (lo0 (q / 512)) (q mod 512) (hi0 (q / 512)).
Definition in1 (q : Z) : bool := between (lo1 (q / 512)) (q mod 512) (hi1 (q / 512)).
Definition in2 (q : Z) : bool := between (lo2 (q / 512)) (q mod 512) (hi2 (q / 512)).
Definition in3 (x : Z) : bool := between (PML4X start) x (PML4X (u64 (end_ - 1)) + 1).

Definition cleared (q : Z) : bool :=
  in0 q && in1 (q / 512) && in2 (q / 512 / 512) && in3 (q / 512 / 512 / 512).
Definition freed (x : Z * Z) : bool :=
  match x.1 with
  | 0 => in1 x.2 && in2 (x.2 / 512) && in3 (x.2 / 512 / 512)
  | 1 => in2 x.2 && in3 (x.2 / 512)
  | 2 => in3 x.2
  | _ => false
  end.

Lemma s_bounds x : 0 <= lo0 x < 512 /\ 0 <= lo1 x < 512 /\ 0 <= lo2 x < 512.
Proof.
  pose proof (PTX_bound start). pose proof (PDX_bound start). pose proof (PDPTX_bound start).
  assert (B2 : forall y, 0 <= lo2 y < 512) by (intros y; unfold lo2; case_match; lia).
  assert (B1 : forall y, 0 <= lo1 y < 512) by (intros y; unfold lo1; case_match; lia).
  split; [unfold lo0; case_match; lia|done].
Qed.
Lemma h_bounds x : hi0 x <= 512 /\ hi1 x <= 512 /\ hi2 x <= 512.
Proof.
  pose proof (PTX_bound end_). pose proof (PDX_bound end_). pose proof (PDPTX_bound end_).
  assert (E : N_PTE_PER_PG = 512) by done. unfold hi0, hi1, hi2.
  repeat split; case_match; lia.
Qed.
End sets.

#[local] Arguments in0 : simpl never.
#[local] Arguments in1 : simpl never.
#[local] Arguments in2 : simpl never.
#[local] Arguments in3 : simpl never.
#[local] Arguments between : simpl never.
#[local] Arguments PML4X : simpl never.
#[local] Arguments PDPTX : simpl never.
#[local] Arguments PDX : simpl never.
#[local] Arguments PTX : simpl never.
#[local] Arguments wrapu : simpl never.

(** ** Counting references *)

Definition cnt (H : gmap Z Z) (p : Z) : Z := default 0 (H !! p).

(** Present entries of [A] in [C] that refer to frame [p]. *)
Definition refs (A : gmap Z Z) (C : Z -> bool) (p : Z) : Z :=
  Z.of_nat (size (filter (fun x => C x.1 = true /\ present x.2 = true /\ ENTRY_ADDR x.2 = p) A)).

Lemma refs_ext A C C' p : (forall q w, A !! q = Some w -> C q = C' q) -> refs A C p = refs A C' p.
Proof.
  intros HC. unfold refs. do 2 f_equal. apply map_filter_ext. intros q w Hq. simpl. by rewrite (HC _ _ Hq).
Qed.

Lemma refs_le A C C' p : (forall q w, A !! q = Some w -> C q = true -> C' q = true) -> refs A C p <= refs A C' p.
Proof.
  intros HC. unfold refs. apply inj_le, map_subseteq_size. apply map_subseteq_spec. intros q w.
  rewrite !map_lookup_filter_Some. intros (? & ? & ?). split; [done|]. split; [by eapply HC|done].
Qed.

Lemma refs_zero A C p : (forall q w, A !! q = Some w -> C q = true -> present w = true -> ENTRY_ADDR w <> p) ->
  refs A C p = 0.
Proof.
  intros HC. unfold refs. rewrite map_empty_filter_2; [done|]. intros q w Hq (? & ? & ?). by eapply HC.
Qed.

(** One more entry. *)
Lemma refs_add A C q w p : A !! q = Some w -> C q = false ->
  refs A (fun x => C x || (x =? q)) p =
  refs A C p + (if present w && (ENTRY_ADDR w =? p) then 1 else 0).
Proof.
  intros Hq HC. unfold refs. set (f := filter (fun x => C x.1 = true /\ present x.2 = true /\ ENTRY_ADDR x.2 = p) A).
  assert (Hnf : f !! q = None).
  { unfold f. apply map_lookup_filter_None. right. intros w' _ [? _]. simpl in *. congruence. }
  destruct (present w && (ENTRY_ADDR w =? p)) eqn:E.
  - apply andb_true_iff in E as [Hp Ha%Z.eqb_eq].
    replace (filter _ A) with (<[q := w]> f).
    + rewrite map_size_insert_None by done. lia.
    + apply map_eq. intros x. apply option_eq. intros y. unfold f. rewrite lookup_insert_Some, !map_lookup_filter_Some.
      simpl. rewrite orb_true_iff, Z.eqb_eq. destruct (decide (x = q)) as [->|]; naive_solver.
  - rewrite Z.add_0_r. do 2 f_equal. apply map_filter_ext. intros x y Hx. simpl.
    rewrite orb_true_iff, Z.eqb_eq. destruct (decide (x = q)) as [->|]; [|naive_solver].
    rewrite Hq in Hx. injection Hx as <-. rewrite HC.
    destruct (present w); [|naive_solver]. simpl in E. apply Z.eqb_neq in E. naive_solver.
Qed.

Lemma cnt_drop H p r x : H !! p = Some r -> cnt (drop_frame p r H) x = cnt H x - (if p =? x then 1 else 0).
Proof.
  intros Hp. unfold cnt, drop_frame. destruct (Z.eqb_spec r 1) as [->|];
    [rewrite lookup_delete|rewrite lookup_insert]; destruct (Z.eqb_spec p x) as [<-|];
    rewrite ?decide_True, ?decide_False, ?Hp by done; simpl; lia.
Qed.

(** ** The invariant of the loops *)

Section unmap.
Context {P O : Type} `{!PageAlloc P, !ObjAlloc O}.
Context (r : Z) (T : gmap Z (Z * Z)) (A H : gmap Z Z) (s : vst P O) (clearable : Z -> bool).
Hypothesis V : vspace r T A H s.
(** The frames of the entries to clear are not tables, and are held at least
    once per entry. *)
Hypothesis Hleaf : forall q w, A !! q = Some w -> clearable q = true -> present w = true ->
  T !! ENTRY_ADDR w = None.
Hypothesis Href : forall p, refs A clearable p <= cnt H p.

Definition clr (C : Z -> bool) : gmap Z Z := filter (fun x => C x.1 = false) A.
Definition freed_in (E : Z * Z -> bool) (p : Z) : bool :=
  match T !! p with Some x => E x | None => false end.

(** The entries of [C] are cleared and the tables of [E] freed. *)
Record um (C : Z -> bool) (E : Z * Z -> bool) (s' : vst P O) : Prop := {
  um_tables : tables T r (v_frames s');
  um_space : space (clr C) T (v_frames s');
  um_sub : forall q w, A !! q = Some w -> C q = true -> clearable q = true;
  um_held : exists H', pg_held (v_pages s') H' /\
     forall p, cnt H' p = if freed_in E p then 0 else cnt H p - refs A C p;
  um_frames : forall f, T !! f = None -> v_frames s' !! f = v_frames s !! f;
  um_rest : rest s' = rest s
}.

Lemma clr_ext C C' : (forall q w, A !! q = Some w -> C q = C' q) -> clr C = clr C'.
Proof using Type. intros HC. apply map_filter_ext. intros q w Hq. simpl. by rewrite (HC _ _ Hq). Qed.

Lemma um_ext C C' E E' s1 : um C E s1 ->
  (forall q w, A !! q = Some w -> C q = C' q) -> (forall f x, T !! f = Some x -> E x = E' x) -> um C' E' s1.
Proof using Type.
  intros U HC HE. split; try apply U.
  - rewrite <- (clr_ext C C'); [apply U|done].
  - intros q w Hq HC'. eapply U; [done|]. by rewrite (HC _ _ Hq).
  - destruct (um_held _ _ _ U) as (H' & Hp & Hc). exists H'. split; [done|]. intros p. rewrite Hc.
    replace (freed_in E' p) with (freed_in E p); [by rewrite (refs_ext _ _ _ _ HC)|].
    unfold freed_in. destruct (T !! p) eqn:Ep; [by eapply HE|done].
Qed.

Lemma lookup_clr C q : clr C !! q = if C q then None else A !! q.
Proof using Type.
  unfold clr. rewrite map_lookup_filter. destruct (A !! q) as [w|]; simpl; [|by destruct (C q)].
  destruct (C q); by case_guard.
Qed.

Lemma um_start : um (fun _ => false) (fun _ => false) s.
Proof using V.
  split; try apply V; try done.
  - replace (clr _) with A; [apply V|]. apply map_eq. intros q. by rewrite lookup_clr.
  - exists H. split; [apply V|]. intros p. unfold freed_in.
    rewrite refs_zero by (intros; congruence). destruct (T !! p); lia.
Qed.

Lemma leaf_word A' F f q : tables T r F -> space A' T F -> 0 <= q < 2 ^ 36 -> T !! f = Some (0, q / 512) ->
  word F f (q mod 512) = Some (default 0 (A' !! q)).
Proof using Type.
  intros TB SP Hq Hf. destruct (tb_word _ _ _ TB f _ (q mod 512) Hf) as [w Hw]; [by apply Z.mod_pos_bound|].
  rewrite Hw. f_equal. assert (Hl : leaf T F q w) by (by exists f).
  destruct (A' !! q) as [w'|] eqn:E; simpl.
  - apply SP in E as (_ & (g & Hg & Hw') & _). rewrite (tb_inj _ _ _ TB _ _ _ Hf Hg) in Hw. congruence.
  - destruct (Z.eq_dec w 0) as [->|Hne]; [done|]. pose proof (proj2 (SP q w) (conj Hq (conj Hl Hne))). congruence.
Qed.

Lemma clr_put C q : put q 0 (clr C) = clr (fun x => C x || (x =? q)).
Proof using Type.
  apply map_eq. intros x. rewrite lookup_put, !lookup_clr. simpl.
  case_decide as E; [subst; by rewrite Z.eqb_refl, orb_true_r|].
  apply Z.eqb_neq in E. by rewrite E, orb_false_r.
Qed.

(** ** clear_pte *)

Lemma um_cleared C E s1 q f p' : um C E s1 -> 0 <= q < 2 ^ 36 -> clearable q = true ->
  T !! f = Some (0, q / 512) ->
  (exists H', pg_held p' H' /\ forall p, cnt H' p =
     if freed_in E p then 0 else cnt H p - refs A (fun x => C x || (x =? q)) p) ->
  um (fun x => C x || (x =? q)) E (set_frames (set_word f (q mod 512) 0 (v_frames s1)) (set_pages p' s1)).
Proof using Type.
  intros U Hq Hcl Hf Hp. pose proof (Z.mod_pos_bound q 512) as Hm. split; simpl.
  - eapply tables_set_leaf; [apply U|done|lia].
  - rewrite <- clr_put. eapply space_set_leaf; [apply U|apply U|done|done|].
    apply leaf_word; [apply U|apply U|done|done].
  - intros x w Hx. rewrite orb_true_iff, Z.eqb_eq. intros [?| ->]; [by eapply U|done].
  - done.
  - intros g Hg. unfold set_word. rewrite lookup_alter, decide_False by congruence. by apply U.
  - apply U.
Qed.

Lemma refs_same C q p : (clr C !! q = None \/ exists w, clr C !! q = Some w /\ present w = false) ->
  refs A (fun x => C x || (x =? q)) p = refs A C p.
Proof using Type.
  rewrite lookup_clr. intros Hc. destruct (C q) eqn:EC.
  - apply refs_ext. intros x w Hx. destruct (Z.eqb_spec x q) as [->|]; [by rewrite EC|apply orb_false_r].
  - destruct (A !! q) as [w|] eqn:EA.
    + rewrite (refs_add A C q w) by done. destruct Hc as [|(w' & [= <-] & ->)]; [done|]. simpl. lia.
    + apply refs_ext. intros x w Hx. destruct (Z.eqb_spec x q) as [->|]; [congruence|apply orb_false_r].
Qed.

Lemma wp_clear_pte C E s1 q f : um C E s1 -> 0 <= q < 2 ^ 36 -> clearable q = true ->
  T !! f = Some (0, q / 512) ->
  wp (clear_pte (KMAP_P2V f + 8 * (q mod 512))) (fun _ => um (fun x => C x || (x =? q)) E) s1.
Proof using Hleaf Href.
  intros U Hq Hcl Hf. pose proof (um_tables _ _ _ U) as TB. destruct (tb_ok _ _ _ TB _ _ _ Hf) as (_ & Hfa & _).
  pose proof (Z.mod_pos_bound q 512) as Hm. destruct (um_held _ _ _ U) as (H' & Hp & Hc).
  pose proof (leaf_word _ _ _ _ TB (um_space _ _ _ U) Hq Hf) as Hw.
  unfold clear_pte. wp_step. wp_step.
  { apply nonnull_true. destruct Hfa as [? _]. unfold KMAP_P2V, KMAP_BASE, NULL. rewrite wrapu_small; lia. }
  wp_step. eapply wp_load64; [done|lia|exact Hw|]. wp_step.
  fold (present (default 0 (clr C !! q))). set (w := default 0 (clr C !! q)) in *.
  destruct (present w) eqn:Epr.
  - assert (HA : C q = false /\ A !! q = Some w).
    { pose proof (lookup_clr C q) as E1. unfold w in *. destruct (clr C !! q); [|done]. simpl.
      by destruct (C q). }
    destruct HA as [HC HA]. pose proof (Hleaf _ _ HA Hcl Epr) as HT.
    assert (Hadd : forall p, refs A (fun x => C x || (x =? q)) p = refs A C p + (if ENTRY_ADDR w =? p then 1 else 0)).
    { intros p. rewrite (refs_add A C q w) by done. by rewrite Epr. }
    assert (Hle : refs A C (ENTRY_ADDR w) + 1 <= cnt H (ENTRY_ADDR w)).
    { specialize (Hadd (ENTRY_ADDR w)). rewrite Z.eqb_refl in Hadd. rewrite <- Hadd.
      etrans; [|apply Href]. apply refs_le. intros x y Hx. rewrite orb_true_iff, Z.eqb_eq.
      intros [?| ->]; [by eapply U|done]. }
    assert (HH' : exists c, H' !! ENTRY_ADDR w = Some c).
    { specialize (Hc (ENTRY_ADDR w)). unfold freed_in in Hc. rewrite HT in Hc. unfold cnt in Hc at 1.
      destruct (H' !! ENTRY_ADDR w); [eauto|simpl in Hc; lia]. }
    destruct HH' as [c HH']. unfold on_pages. wp_step. rewrite PPN_ENTRY_ADDR.
    eapply wp_mono; [by eapply pg_dec_spec|]. intros [] p' Hp'.
    eapply wp_store64; [done|lia|exact Hw|]. apply (um_cleared C E s1 q f p'); [done..|].
    eexists. split; [exact Hp'|]. intros p. rewrite (cnt_drop _ _ _ _ HH'), Hc, Hadd.
    destruct (Z.eqb_spec (ENTRY_ADDR w) p) as [<-|]; [unfold freed_in; rewrite HT; lia|].
    destruct (freed_in E p); lia.
  - wp_step. eapply wp_store64; [done|lia|exact Hw|].
    eapply (um_cleared C E s1 q f (v_pages s1)) in U; [|done..|].
    + by destruct s1.
    + exists H'. split; [done|]. intros p. rewrite Hc, refs_same; [done|].
      unfold w in Epr. destruct (clr C !! q) as [w'|]; [right; by exists w'|by left].
Qed.

(** ** Freeing a table *)

Lemma wp_free_table C E s1 t x : um C E s1 -> T !! t = Some x -> E x = false ->
  wp (on_pages (pg_free t)) (fun _ => um C (fun z => E z || bool_decide (z = x))) s1.
Proof using V Hleaf.
  intros U Ht Hx. destruct (um_held _ _ _ U) as (H' & Hp & Hc).
  destruct (vs_own _ _ _ _ _ V _ _ Ht) as [c HH]. destruct (pg_held_addr _ _ _ _ (vs_held _ _ _ _ _ V) HH) as [_ Hpos].
  assert (Hr : refs A C t = 0).
  { apply refs_zero. intros q w Hq HC Hpr <-. rewrite (Hleaf q w) in Ht; [done|done| |done]. by eapply U. }
  assert (HH' : exists c, H' !! t = Some c).
  { pose proof (Hc t) as E1. unfold freed_in in E1. rewrite Ht, Hx, Hr in E1. unfold cnt in E1.
    rewrite HH in E1. destruct (H' !! t); [eauto|]. simpl in E1. lia. }
  destruct HH' as [c' HH']. unfold on_pages. wp_step. eapply wp_mono; [by eapply pg_free_spec|].
  intros [] p' Hp'. split; try apply U. eexists. split; [exact Hp'|]. intros p.
  assert (Hd : cnt (delete t H') p = if decide (p = t) then 0 else cnt H' p).
  { unfold cnt. rewrite lookup_delete. repeat case_decide; subst; done. }
  rewrite Hd. unfold freed_in. case_decide as E1.
  - subst p. rewrite Ht, bool_decide_true by done. by rewrite orb_true_r.
  - rewrite Hc. unfold freed_in. destruct (T !! p) as [y|] eqn:Ey; [|done].
    rewrite bool_decide_false; [by rewrite orb_false_r|]. intros ->.
    apply E1. by eapply (tb_inj _ _ _ (um_tables _ _ _ U)).
Qed.

(** ** One level of the loops *)

Lemma tb_ancestor F d : tables T r F -> 0 <= d -> forall t a x, T !! t = Some (a, x) -> a + d <= 3 ->
  exists g, T !! g = Some (a + d, x / 512 ^ d).
Proof using Type.
  intros TB Hd. revert d Hd. apply (natlike_ind (fun d => forall t a x, T !! t = Some (a, x) -> a + d <= 3 ->
    exists g, T !! g = Some (a + d, x / 512 ^ d))).
  - intros t a x Ht _. exists t. by rewrite Z.add_0_r, Z.pow_0_r, Z.div_1_r.
  - intros d Hd IH t a x Ht Hle. destruct (IH t a x Ht ltac:(lia)) as [g Hg].
    destruct (tb_up _ _ _ TB g _ _ Hg ltac:(lia)) as [g' Hg']. exists g'.
    replace (a + Z.succ d) with (a + d + 1) by lia.
    rewrite Z.pow_succ_r, Z.mul_comm, <- Z.div_div by (try apply Z.pow_pos_nonneg; lia). done.
Qed.

Lemma between_succ lo x j : lo <= j -> between lo x (j + 1) = between lo x j || (x =? j).
Proof using Type. intros. unfold between. lia. Qed.

Lemma between_empty lo x hi : hi <= lo -> between lo x hi = false.
Proof using Type. intros. unfold between. lia. Qed.

Lemma div_digit x y j : 0 <= j < 512 -> (x =? y * 512 + j) = (x / 512 =? y) && (x mod 512 =? j).
Proof using Type.
  intros Hj. destruct (digits y j Hj) as [E1 E2]. pose proof (Z.div_mod x 512).
  destruct (Z.eqb_spec x (y * 512 + j)) as [->|]; [by rewrite E1, E2, !Z.eqb_refl|].
  destruct (Z.eqb_spec (x / 512) y), (Z.eqb_spec (x mod 512) j); try done. lia.
Qed.

Lemma pow_up x d : 0 <= d -> x / 512 ^ (d + 1) = x / 512 ^ d / 512.
Proof using Type.
  intros. rewrite Z.add_1_r, Z.pow_succ_r, Z.mul_comm, <- Z.div_div by (try apply Z.pow_pos_nonneg; lia). done.
Qed.

Section level.
(** A table [f] of level [k] with prefix [y], whose entries [lo] to [hi] are
    visited; [cb] and [eb]: what the visit of an entry clears and frees. *)
Context (k y f lo hi : Z) (fi : bool) (cb : Z -> bool) (eb : Z * Z -> bool).
Context (body : Z -> Z -> M (vst P O) unit).
Hypothesis Hk : 0 < k <= 3.
Hypothesis Hf : T !! f = Some (k, y).
Hypothesis Hlo : 0 <= lo.
Hypothesis Hhi : hi <= 512.

Definition clv (j q : Z) : bool :=
  (q / 512 ^ (k + 1) =? y) && between lo ((q / 512 ^ k) mod 512) j && cb q.
Definition elv (j : Z) (z : Z * Z) : bool :=
  (0 <=? z.1) && (z.1 <? k) && (z.2 / 512 ^ (k - z.1) =? y) &&
  between lo ((z.2 / 512 ^ (k - 1 - z.1)) mod 512) j && (if z.1 =? k - 1 then fi else eb z).
Definition cbx (x q : Z) : bool := (q / 512 ^ k =? x) && cb q.
Definition ebx (x : Z) (z : Z * Z) : bool :=
  (0 <=? z.1) && (z.1 <? k - 1) && (z.2 / 512 ^ (k - 1 - z.1) =? x) && eb z.

Hypothesis Hbody : forall j t C E s', lo <= j < hi -> T !! t = Some (k - 1, y * 512 + j) -> um C E s' ->
  (forall z, ebx (y * 512 + j) z = true -> E z = false) ->
  wp (body j (KMAP_P2V t)) (fun _ => um (fun q => C q || cbx (y * 512 + j) q)
                                        (fun z => E z || ebx (y * 512 + j) z)) s'.

Lemma clv_succ j q : lo <= j -> 0 <= j < 512 -> clv (j + 1) q = clv j q || cbx (y * 512 + j) q.
Proof using Hk.
  intros Hj Hj'. unfold clv, cbx. rewrite div_digit, between_succ, (pow_up q k) by lia.
  destruct (_ =? y), (between _ _ _), (_ =? j), (cb q); done.
Qed.

Lemma elv_succ j z : lo <= j -> 0 <= j < 512 -> 0 <= z.1 ->
  elv (j + 1) z = elv j z || ebx (y * 512 + j) z || (fi && bool_decide (z = (k - 1, y * 512 + j))).
Proof using Hk.
  intros Hj Hj' Hz. unfold elv, ebx. destruct z as [a x]. simpl in *. rewrite div_digit, between_succ by lia.
  replace (0 <=? a) with true by lia.
  destruct (Z.lt_trichotomy a (k - 1)) as [Ha|[Ha|Ha]].
  - replace (a <? k) with true by lia. replace (a <? k - 1) with true by lia. replace (a =? k - 1) with false by lia.
    rewrite bool_decide_false by (intros [= ? ?]; lia). rewrite andb_false_r, orb_false_r.
    replace (k - a) with (k - 1 - a + 1) by lia. rewrite pow_up by lia.
    destruct (_ =? y), (between _ _ _), (_ =? j), (eb _); done.
  - subst a. replace (k - 1 <? k) with true by lia. replace (k - 1 <? k - 1) with false by lia. rewrite Z.eqb_refl.
    replace (k - (k - 1)) with 1 by lia. replace (k - 1 - (k - 1)) with 0 by lia. simpl.
    rewrite Z.pow_1_r, Z.pow_0_r, Z.div_1_r. rewrite orb_false_r.
    replace (bool_decide _) with (x =? y * 512 + j).
    + rewrite div_digit by done. destruct (_ =? y), (between _ _ _), (_ =? j), fi; done.
    + destruct (Z.eqb_spec x (y * 512 + j)) as [->|Hne]; [by rewrite bool_decide_true|].
      rewrite bool_decide_false; congruence.
  - replace (a <? k) with false by lia. replace (a <? k - 1) with false by lia. simpl.
    rewrite bool_decide_false by (intros [= ? ?]; lia). by rewrite andb_false_r.
Qed.

(** Nothing hangs below an absent entry. *)
Lemma absent_ext C E s' j : um C E s' -> 0 <= j < 512 -> lo <= j ->
  (forall g, T !! g <> Some (k - 1, y * 512 + j)) ->
  (forall q w, A !! q = Some w -> cbx (y * 512 + j) q = false) /\
  (forall t z, T !! t = Some z -> 0 <= z.1 /\ ebx (y * 512 + j) z = false /\
     bool_decide (z = (k - 1, y * 512 + j)) = false).
Proof using V Hk.
  intros U Hj Hl Hn. pose proof (um_tables _ _ _ U) as TB. split.
  - intros q w Hq. apply (vs_space _ _ _ _ _ V) in Hq as (_ & (g & Hg & _) & _).
    unfold cbx. destruct (Z.eqb_spec (q / 512 ^ k) (y * 512 + j)) as [E1|]; [|done]. exfalso.
    destruct (tb_ancestor _ (k - 1) TB ltac:(lia) _ _ _ Hg ltac:(lia)) as [g' Hg']. apply (Hn g').
    rewrite Hg'. do 2 f_equal. rewrite <- E1. rewrite Z.div_div by (try apply Z.pow_pos_nonneg; lia).
    f_equal. rewrite <- Z.pow_succ_r by lia. f_equal. lia.
  - intros t [a x] Ht. destruct (tb_ok _ _ _ TB _ _ _ Ht) as (Ha & _). simpl. split; [lia|]. split.
    + unfold ebx. simpl. destruct (Z.ltb_spec a (k - 1)); [|by rewrite andb_false_r].
      destruct (Z.eqb_spec (x / 512 ^ (k - 1 - a)) (y * 512 + j)) as [E1|]; [|by rewrite andb_false_r].
      destruct (tb_ancestor _ (k - 1 - a) TB ltac:(lia) _ _ _ Ht ltac:(lia)) as [g' Hg']. exfalso. apply (Hn g').
      rewrite Hg', E1. do 2 f_equal. lia.
    + apply bool_decide_false. intros [= -> ->]. by apply (Hn t).
Qed.

Lemma wp_level C E s1 : um C E s1 -> (forall z, elv hi z = true -> E z = false) ->
  wp (for_ (Z.to_nat (hi - lo)) lo (fun j =>
        e <- load64 (KMAP_P2V f + 8 * j);;
        if negb (Z.land e PTE_P =? 0) then
          body j (KMAP_P2V (ENTRY_ADDR e));;
          if fi then on_pages (pg_free (ENTRY_ADDR e)) else ret tt
        else ret tt))
     (fun _ => um (fun q => C q || clv hi q) (fun z => E z || elv hi z)) s1.
Proof using V Hleaf Hk Hf Hlo Hhi Hbody.
  intros U0 HE0.
  apply wp_for with (I := fun j s' => um (fun q => C q || clv j q) (fun z => E z || elv j z) s').
  - eapply um_ext; [done|..]; [intros q w _|intros t z _]; unfold clv, elv;
      by rewrite between_empty, andb_false_r, orb_false_r by lia.
  - intros j s' Hj U. pose proof (um_tables _ _ _ U) as TB.
    destruct (tb_word _ _ _ TB f _ j Hf ltac:(lia)) as [e He]. destruct (tb_ok _ _ _ TB _ _ _ Hf) as (_ & Hfa & _).
    wp_step. eapply wp_load64; [done|lia|exact He|]. fold (present e).
    assert (Hlt : forall z, ebx (y * 512 + j) z || (fi && bool_decide (z = (k - 1, y * 512 + j))) = true ->
      0 <= z.1 -> E z || elv j z = false).
    { intros z Hz Hz1. pose proof (elv_succ j z ltac:(lia) ltac:(lia) Hz1) as Es. rewrite <- orb_assoc, Hz, orb_true_r in Es.
      assert (Hd : between lo ((z.2 / 512 ^ (k - 1 - z.1)) mod 512) j = false /\ elv hi z = true).
      { unfold elv in *. apply andb_true_iff in Es as [Es ->]. apply andb_true_iff in Es as [Es Eb].
        rewrite Es. unfold between in *. split; [|lia].
        apply orb_true_iff in Hz as [Hz|Hz].
        - unfold ebx in Hz. apply andb_true_iff in Hz as [Hz _]. apply andb_true_iff in Hz as [Hz Hx].
          rewrite div_digit in Hx by lia. lia.
        - apply andb_true_iff in Hz as [_ Hz%bool_decide_eq_true]. subst z. simpl.
          replace (k - 1 - (k - 1)) with 0 by lia. rewrite Z.pow_0_r, Z.div_1_r.
          destruct (digits y j ltac:(lia)) as [_ ->]. lia. }
      destruct Hd as [Hd1 Hd2]. rewrite (HE0 _ Hd2). unfold elv. rewrite Hd1. by rewrite andb_false_r. }
    destruct (present e) eqn:Epr.
    + pose proof (tb_child _ _ _ TB f k y j e Hf ltac:(lia) ltac:(lia) He Epr) as Ht.
      wp_step. eapply wp_mono; [apply (Hbody j (ENTRY_ADDR e) _ _ s' ltac:(lia) Ht U)|].
      { intros z Hz. apply Hlt; [by rewrite Hz|]. unfold ebx in Hz. lia. }
      intros [] s2 U2. destruct fi eqn:Efi.
      * eapply wp_mono; [eapply (wp_free_table _ _ _ _ _ U2 Ht)|].
        { rewrite Hlt by (simpl; rewrite ?bool_decide_true, ?orb_true_r by done; done || lia).
          unfold ebx. simpl. replace (k - 1 <? k - 1) with false by lia. by rewrite andb_false_r. }
        intros [] s3 U3. eapply um_ext; [exact U3|..].
        -- intros q w _. rewrite clv_succ by lia. by rewrite orb_assoc.
        -- intros t z Htz. destruct z as [a x]. destruct (tb_ok _ _ _ TB _ _ _ Htz) as (? & _).
           rewrite elv_succ by (simpl; lia). simpl. rewrite Efi. by rewrite !orb_assoc.
      * wp_step. eapply um_ext; [exact U2|..].
        -- intros q w _. rewrite clv_succ by lia. by rewrite orb_assoc.
        -- intros t z Htz. destruct z as [a x]. destruct (tb_ok _ _ _ TB _ _ _ Htz) as (? & _).
           rewrite elv_succ by (simpl; lia). simpl. rewrite Efi. by rewrite orb_false_r, !orb_assoc.
    + wp_step. pose proof (tb_absent _ _ _ TB f k y j e Hf ltac:(lia) ltac:(lia) He Epr) as Hn.
      destruct (absent_ext _ _ _ j U ltac:(lia) ltac:(lia) Hn) as [Hq Hz].
      eapply um_ext; [exact U|..].
      * intros q w Hqw. rewrite clv_succ, (Hq _ _ Hqw), orb_false_r by lia. done.
      * intros t z Htz. destruct (Hz _ _ Htz) as (? & E1 & E2). rewrite elv_succ by lia.
        by rewrite E1, E2, andb_false_r, !orb_false_r.
  - intros s' U. eapply um_ext; [exact U|..]; [intros q w _|intros t z _]; unfold clv, elv;
      (destruct (Z.le_gt_cases lo hi); [by replace (lo + Z.of_nat (Z.to_nat (hi - lo))) with hi by lia|]);
      replace (Z.to_nat (hi - lo)) with 0%nat by lia; by rewrite !between_empty by lia.
Qed.
End level.
End unmap.

(** ** The three loops *)

Lemma pow_2 x : x / 512 ^ 2 = x / 512 / 512.
Proof. by rewrite Z.div_div by lia. Qed.
Lemma pow_3 x : x / 512 ^ 3 = x / 512 / 512 / 512.
Proof. by rewrite !Z.div_div by lia. Qed.

(** Compute the exponents of the levels, which are literals. *)
Ltac levels :=
  repeat match goal with
  | H : context [512 ^ ?e] |- _ => progress (let v := eval vm_compute in e in change e with v in H)
  | |- context [512 ^ ?e] => progress (let v := eval vm_compute in e in change e with v)
  end;
  rewrite ?pow_2, ?pow_3, ?Z.pow_1_r, ?Z.pow_0_r, ?Z.div_1_r in *; simpl in *.

Section loops.
Context {P O : Type} `{!PageAlloc P, !ObjAlloc O}.
Context (r : Z) (T : gmap Z (Z * Z)) (A H : gmap Z Z) (s : vst P O) (start end_ : Z) (fi : bool).
Hypothesis V : vspace r T A H s.
Hypothesis Hleaf : forall q w, A !! q = Some w -> cleared start end_ q = true -> present w = true ->
  T !! ENTRY_ADDR w = None.
Hypothesis Href : forall p, refs A (cleared start end_) p <= cnt H p.
Abbreviation UM := (um r T A H s (cleared start end_)).

Lemma wp_clear_table f y C E s1 : T !! f = Some (0, y) -> 0 <= y < 2 ^ 27 -> UM C E s1 ->
  in1 start end_ y && in2 start end_ (y / 512) && in3 start end_ (y / 512 / 512) = true ->
  wp (for_ (Z.to_nat (hi0 start end_ y - lo0 start y)) (lo0 start y) (fun ptx => clear_pte (KMAP_P2V f + 8 * ptx)))
     (fun _ => UM (fun q => C q || ((q / 512 =? y) && in0 start end_ q)) E) s1.
Proof using V Hleaf Href.
  intros Hf Hy U Hin. pose proof (s_bounds start y) as (Hs & _). pose proof (h_bounds start end_ y) as (Hh & _).
  apply wp_for with (I := fun j s' => UM (fun q => C q || ((q / 512 =? y) && between (lo0 start y) (q mod 512) j)) E s').
  - eapply um_ext; [done| |done]. intros q w _. by rewrite between_empty, andb_false_r, orb_false_r by lia.
  - intros j s' Hj U'. destruct (digits y j ltac:(lia)) as [E1 E2].
    rewrite <- E2. eapply wp_mono; [eapply (wp_clear_pte r T A H s (cleared start end_) Hleaf Href _ _ _ (y * 512 + j)); [exact U'|lia| |by rewrite E1]|].
    + unfold cleared. rewrite E1. rewrite <- !andb_assoc in *. rewrite Hin, andb_true_r. unfold in0, between.
      rewrite E1, E2. lia.
    + intros [] s2 U2. eapply um_ext; [exact U2| |done]. intros q w _. simpl. rewrite E2.
      rewrite div_digit, between_succ by lia.
      destruct (C q), (q / 512 =? y), (between _ _ _), (_ =? j); done.
  - intros s' U'. eapply um_ext; [exact U'| |done]. intros q w _. simpl. f_equal.
    destruct (Z.eqb_spec (q / 512) y) as [<-|]; [|done]. simpl. unfold in0.
    destruct (Z.le_gt_cases (lo0 start (q / 512)) (hi0 start end_ (q / 512))).
    + by replace (lo0 start (q / 512) + _) with (hi0 start end_ (q / 512)) by lia.
    + rewrite !between_empty by lia. done.
Qed.

Definition cb2 (q : Z) : bool := in0 start end_ q && in1 start end_ (q / 512).
Definition cb3 (q : Z) : bool := cb2 q && in2 start end_ (q / 512 / 512).
Definition eb2 (z : Z * Z) : bool := fi && in1 start end_ z.2.
Definition eb3 (z : Z * Z) : bool :=
  fi && (if z.1 =? 0 then in1 start end_ z.2 && in2 start end_ (z.2 / 512) else in2 start end_ z.2).

Lemma wp_unmap_pd f y C E s1 : T !! f = Some (1, y) -> 0 <= y < 2 ^ 18 -> UM C E s1 ->
  in2 start end_ y && in3 start end_ (y / 512) = true ->
  (forall z, z.1 = 0 -> z.2 / 512 = y -> eb2 z = true -> E z = false) ->
  wp (unmap_pd (KMAP_P2V f) start end_ (lo1 start y) (hi1 start end_ y) fi)
     (fun _ => UM (fun q => C q || ((q / 512 / 512 =? y) && cb2 q))
                  (fun z => E z || ((z.1 =? 0) && (z.2 / 512 =? y) && eb2 z))) s1.
Proof using V Hleaf Href.
  intros Hf Hy U Hin HE. pose proof (s_bounds start y) as (_ & Hs & _). pose proof (h_bounds start end_ y) as (_ & Hh & _).
  unfold unmap_pd. cbv zeta.
  eapply wp_mono; [eapply (wp_level r T A H s (cleared start end_) V Hleaf 1 y f (lo1 start y) (hi1 start end_ y) fi
    (in0 start end_) (fun _ => false) (fun pdx pgtable =>
      for_ (Z.to_nat ((if (if pdx =? lo1 start y then PTX start else 0) <? PTX end_ then N_PTE_PER_PG else PTX end_ + 1) -
                      (if pdx =? lo1 start y then PTX start else 0)))
        (if pdx =? lo1 start y then PTX start else 0) (fun ptx => clear_pte (pgtable + 8 * ptx))));
    [lia|done|lia|lia| |exact U|]|].
  - intros j t C' E' s' Hj Ht U' _. simpl in Ht. destruct (digits y j ltac:(lia)) as [E1 E2].
    assert (Hc : in1 start end_ (y * 512 + j) && in2 start end_ y && in3 start end_ (y / 512) = true).
    { rewrite <- andb_assoc, Hin, andb_true_r. unfold in1, between. rewrite E1, E2. lia. }
    pose proof (wp_clear_table t (y * 512 + j) C' E' s' Ht ltac:(lia) U') as W.
    unfold hi0, lo0 in W. rewrite E1, E2 in W.
    eapply wp_mono; [exact (W Hc)|]. intros [] s2 U2. eapply um_ext; [exact U2|..].
    + intros q w _. unfold cbx. by rewrite Z.pow_1_r.
    + intros g z _. unfold ebx. by rewrite andb_false_r, orb_false_r.
  - intros [a x]. unfold elv. cbn [fst snd]. intros Hz. destruct (Z.eq_dec a 0) as [->|]; [levels|lia].
    apply andb_true_iff in Hz as [Hz Hfi]. apply andb_true_iff in Hz as [Hx%Z.eqb_eq Hb].
    apply HE; [done|done|]. unfold eb2, in1. simpl. by rewrite Hx, Hfi, Hb.
  - intros [] s2 U2. eapply um_ext; [exact U2|..].
    + intros q w _. unfold clv, cb2. levels.
      destruct (Z.eqb_spec (q / 512 / 512) y) as [<-|]; [|done]. unfold in1. simpl. f_equal. apply andb_comm.
    + intros g [a x] Hg. destruct (tb_ok _ _ _ (um_tables _ _ _ _ _ _ _ _ _ U) _ _ _ Hg) as (Ha & _).
      unfold elv, eb2. cbn [fst snd]. destruct (Z.eqb_spec a 0) as [->|].
      * levels. destruct (Z.eqb_spec (x / 512) y) as [<-|]; [|done]. unfold in1. simpl. f_equal. apply andb_comm.
      * replace (a <? 1) with false by lia. by rewrite andb_false_r.
Qed.

Lemma wp_unmap_pdpt f y C E s1 : T !! f = Some (2, y) -> 0 <= y < 512 -> UM C E s1 ->
  in3 start end_ y = true ->
  (forall z, (z.1 = 0 /\ z.2 / 512 / 512 = y) \/ (z.1 = 1 /\ z.2 / 512 = y) -> eb3 z = true -> E z = false) ->
  wp (unmap_pdpt (KMAP_P2V f) start end_ (lo2 start y) (hi2 start end_ y) fi)
     (fun _ => UM (fun q => C q || ((q / 512 / 512 / 512 =? y) && cb3 q))
                  (fun z => E z || (((z.1 =? 0) && (z.2 / 512 / 512 =? y) || (z.1 =? 1) && (z.2 / 512 =? y)) && eb3 z))) s1.
Proof using V Hleaf Href.
  intros Hf Hy U Hin HE. pose proof (s_bounds start y) as (_ & _ & Hs). pose proof (h_bounds start end_ y) as (_ & _ & Hh).
  unfold unmap_pdpt. cbv zeta.
  eapply wp_mono; [eapply (wp_level r T A H s (cleared start end_) V Hleaf 2 y f (lo2 start y) (hi2 start end_ y) fi
    cb2 eb2 (fun pdptx a => unmap_pd a start end_ (if pdptx =? lo2 start y then PDX start else 0)
      (if (if pdptx =? lo2 start y then PDX start else 0) <? PDX end_ then N_PTE_PER_PG else PDX end_ + 1) fi));
    [lia|done|lia|lia| |exact U|]|].
  - intros j t C' E' s' Hj Ht U' HE'. simpl in Ht. destruct (digits y j ltac:(lia)) as [E1 E2].
    assert (Hc : in2 start end_ (y * 512 + j) && in3 start end_ y = true).
    { rewrite Hin, andb_true_r. unfold in2, between. rewrite E1, E2. lia. }
    pose proof (wp_unmap_pd t (y * 512 + j) C' E' s' Ht ltac:(lia) U') as W.
    unfold hi1, lo1 in W. rewrite E1, E2 in W.
    eapply wp_mono; [apply (W Hc)|intros [] s3 U3; eapply um_ext; [exact U3|..]].
    { intros [a x] Ha Hx Hz. simpl in *. subst a. apply HE'. unfold ebx. simpl. by rewrite Z.pow_1_r, Hx, Z.eqb_refl. }
    + intros q w _. unfold cbx. by levels.
    + intros g [a x] Hg. destruct (tb_ok _ _ _ (um_tables _ _ _ _ _ _ _ _ _ U) _ _ _ Hg) as (Ha & _).
      unfold ebx. cbn [fst snd]. destruct (Z.eqb_spec a 0) as [->|]; [by levels|].
      replace (a <? 2 - 1) with false by lia. by rewrite andb_false_r.
  - intros [a x]. unfold elv. cbn [fst snd]. intros Hz. apply HE.
    + simpl. destruct (Z.eq_dec a 0) as [->|]; [left|destruct (Z.eq_dec a 1) as [->|]; [right|lia]]; (split; [done|]).
      * levels. lia.
      * levels. lia.
    + unfold eb3. cbn [fst snd]. destruct (Z.eq_dec a 0) as [->|]; [|destruct (Z.eq_dec a 1) as [->|]; [|lia]].
      * levels. unfold eb2 in Hz. simpl in *. apply andb_true_iff in Hz as [Hz Hf1]. apply andb_true_iff in Hf1 as [Hf1 Hf2].
        apply andb_true_iff in Hz as [Hx%Z.eqb_eq Hb]. unfold in2. simpl. by rewrite Hx, Hf1, Hf2, Hb.
      * levels. apply andb_true_iff in Hz as [Hz Hf1]. apply andb_true_iff in Hz as [Hx%Z.eqb_eq Hb].
        unfold in2. simpl. by rewrite Hx, Hf1, Hb.
  - intros [] s3 U3. eapply um_ext; [exact U3|..].
    + intros q w _. unfold clv, cb3. levels.
      destruct (Z.eqb_spec (q / 512 / 512 / 512) y) as [<-|]; [|done]. unfold in2. simpl. f_equal. apply andb_comm.
    + intros g [a x] Hg. destruct (tb_ok _ _ _ (um_tables _ _ _ _ _ _ _ _ _ U) _ _ _ Hg) as (Ha & _).
      unfold elv, eb3, eb2. cbn [fst snd]. destruct (Z.eq_dec a 0) as [->|]; [|destruct (Z.eq_dec a 1) as [->|]].
      * levels. destruct (Z.eqb_spec (x / 512 / 512) y) as [<-|]; [|done]. unfold in2. simpl. f_equal.
        destruct fi, (in1 start end_ x), (between _ _ _); done.
      * levels. destruct (Z.eqb_spec (x / 512) y) as [<-|]; [|done]. unfold in2. simpl. f_equal. apply andb_comm.
      * replace (a <? 2) with false by lia. replace (a =? 0) with false by lia. replace (a =? 1) with false by lia.
        by rewrite andb_false_r.
Qed.

Lemma wp_unmap_pages : PML4X start <= PML4X (u64 (end_ - 1)) ->
  wp (unmap_pages (KMAP_P2V r) start end_ fi)
     (fun _ => UM (cleared start end_) (fun z => fi && freed start end_ z)) s.
Proof using V Hleaf Href.
  intros Hle. pose proof (PML4X_bound start). pose proof (PML4X_bound (u64 (end_ - 1))).
  pose proof (vs_tables _ _ _ _ _ V) as TB. unfold unmap_pages. wp_step. wp_step; [by apply Z.leb_le|]. cbv zeta.
  eapply wp_mono; [eapply (wp_level r T A H s (cleared start end_) V Hleaf 3 0 r (PML4X start) (PML4X (u64 (end_ - 1)) + 1) fi
    cb3 eb3 (fun pml4x a => unmap_pdpt a start end_ (if pml4x =? PML4X start then PDPTX start else 0)
      (if (if pml4x =? PML4X start then PDPTX start else 0) <? PDPTX end_ then N_PTE_PER_PG else PDPTX end_ + 1) fi));
    [lia|apply TB|lia|lia| |by apply um_start|done]|].
  - intros j t C' E' s' Hj Ht U' HE'. cbn [Z.sub Z.mul Z.add] in *.
    pose proof (wp_unmap_pdpt t j C' E' s' Ht ltac:(lia) U') as W. unfold hi2, lo2 in W.
    assert (Hc : in3 start end_ j = true) by (unfold in3, between; lia).
    eapply wp_mono; [apply (W Hc)|intros [] s3 U3; eapply um_ext; [exact U3|..]].
    + intros [a x] Hz Hz3. apply HE'. unfold ebx. simpl in Hz. destruct Hz as [[-> Hx]|[-> Hx]]; cbn [fst snd];
        levels; by rewrite Hx, Hz3, Z.eqb_refl.
    + intros q w _. unfold cbx. by levels.
    + intros g [a x] Hg. destruct (tb_ok _ _ _ TB _ _ _ Hg) as (Ha & _). unfold ebx. cbn [fst snd].
      destruct (Z.eq_dec a 0) as [->|]; [levels; by rewrite orb_false_r|].
      destruct (Z.eq_dec a 1) as [->|]; [by levels|]. replace (a <? 3 - 1) with false by lia.
      replace (a =? 0) with false by lia. replace (a =? 1) with false by lia. by rewrite andb_false_r.
  - intros [] s3 U3. eapply um_ext; [exact U3|..].
    + intros q w Hq. apply (vs_space _ _ _ _ _ V) in Hq as (Hq & _). unfold clv, cb3, cb2, cleared, in3.
      rewrite (Z.div_small q (512 ^ (3 + 1))) by lia. rewrite pow_3, Z.eqb_refl, andb_true_l.
      assert (q / 512 / 512 / 512 < 512) by (rewrite !Z.div_div by lia; apply Z.div_lt_upper_bound; lia).
      rewrite (Z.mod_small (q / 512 / 512 / 512)) by (split; [rewrite !Z.div_div by lia; apply Z.div_pos; lia|done]).
      apply andb_comm.
    + intros g [a x] Hg. destruct (tb_ok _ _ _ TB _ _ _ Hg) as (Ha & _).
      pose proof (tb_pos _ _ _ TB _ _ _ Hg) as Hx. unfold elv, freed, eb3, in3. cbn [fst snd].
      clear - Ha Hx. generalize (PML4X (u64 (end_ - 1)) + 1). intros top.
      assert (Hd : forall n, 0 < n -> 0 <= x < n * 512 -> x / n / 512 = 0 /\ (x / n) mod 512 = x / n).
      { intros n Hn Hxn. assert (0 <= x / n < 512) by (split; [apply Z.div_pos|apply Z.div_lt_upper_bound]; lia).
        by rewrite Z.div_small, Z.mod_small. }
      destruct (Z.eq_dec a 0) as [->|]; [|destruct (Z.eq_dec a 1) as [->|]; [|destruct (Z.eq_dec a 2) as [->|]]].
      * destruct (Hd (512 * 512)) as [E1 E2]; [lia..|]. rewrite <- !Z.div_div in E1, E2 by lia. levels.
        rewrite E1, E2. destruct fi, (between _ _ _), (in1 _ _ _), (in2 _ _ _); reflexivity.
      * destruct (Hd 512) as [E1 E2]; [lia..|]. levels. rewrite E1, E2.
        destruct fi, (between _ _ _), (in2 _ _ _); reflexivity.
      * destruct (Hd 1) as [E1 E2]; [lia..|]. rewrite Z.div_1_r in E1, E2. levels. rewrite E1, E2.
        destruct fi, (between _ _ _); reflexivity.
      * replace (a <? 3) with false by lia. rewrite andb_false_r. simpl. assert (a = 3) as -> by lia.
        by rewrite andb_false_r.
Qed.
End loops.
