(* ===== verification/RadixTree.v ===== *)
(** * Radix trees (kernel/radix_tree.c, include/kernel/radix_tree.h)

    A tree of 64-way nodes indexed by the 6-bit digits of an int.  The state
    is the root the operation is called on, the heap of nodes by address, the
    static [node_allocator], and the state of the object allocator, which is
    used through its interface (ObjAlloc.v).

    Representation ([tree]): a ghost map [pos] gives every node its level (0
    for the nodes that hold leaves) and the prefix of the indices below it.
    It makes the tree shape a set of local conditions, one per node. *)

From stdpp Require Import prelude list gmap.
From Stdlib Require Import ZArith Lia.
From S2P Require Import Prelude Mmu DList ObjAlloc.

Definition RADIX_TREE_WIDTH_POWER : Z := 6.
Definition RADIX_TREE_WIDTH : Z := 64.
Definition ERR_RADIX_TREE_ALLOC : Z := 1.
Definition ERR_RADIX_TREE_NODE_EXIST : Z := 2.
(** sizeof(struct radix_tree_node): count, parent, 64 slots. *)
Definition SIZEOF_RADIX_NODE : Z := 528.

Record radix_tree_node := mkNode {
  rn_count : Z;
  rn_parent : Z;
  rn_slots : list Z
}.

Record radix_tree_root := mkRoot { rt_height : Z; rt_root_node : Z }.

Record rstate (St : Type) := mkR {
  r_root : radix_tree_root;
  r_nodes : gmap Z radix_tree_node;
  r_allocator : Z;
  r_mem : St
}.
Arguments mkR {St}.
Arguments r_root {St}.
Arguments r_nodes {St}.
Arguments r_allocator {St}.
Arguments r_mem {St}.

Section ops.
Context {St : Type} `{!ObjAlloc St}.
Implicit Types s : rstate St.

Definition set_root (v : radix_tree_root) s : rstate St := mkR v (r_nodes s) (r_allocator s) (r_mem s).
Definition set_nodes (v : gmap Z radix_tree_node) s : rstate St :=
  mkR (r_root s) v (r_allocator s) (r_mem s).
Definition set_allocator (v : Z) s : rstate St := mkR (r_root s) (r_nodes s) v (r_mem s).
Definition set_mem (v : St) s : rstate St := mkR (r_root s) (r_nodes s) (r_allocator s) v.

Definition on_mem {A} (m : M St A) : M (rstate St) A := zoom r_mem set_mem m.
Definition get_node (a : Z) : M (rstate St) radix_tree_node :=
  o <- gets (fun s => r_nodes s !! a);; deref o.
Definition put_node (a : Z) (n : radix_tree_node) : M (rstate St) unit :=
  modify (fun s => set_nodes (<[a := n]> (r_nodes s)) s).

(** ** radix_tree.c *)

Definition radix_tree_node_create : M (rstate St) Z :=
  na <- gets r_allocator;;
  ok <- (if na =? NULL then
           c <- on_mem (oa_create SIZEOF_RADIX_NODE);;
           modify (set_allocator c);;
           ret (negb (c =? NULL))
         else ret true);;
  if (ok : bool) then
    na <- gets r_allocator;;
    node <- on_mem (oa_alloc na);;
    (if negb (node =? NULL)
     then put_node node (mkNode 0 NULL (replicate 64 NULL))
     else ret tt);;
    ret node
  else ret NULL.

(** [1 << k] is an int shift, whose count the processor takes modulo 32. *)
Definition radix_tree_max_index (root : radix_tree_root) : Z :=
  if rt_height root =? 0 then -1
  else i32 (Z.shiftl 1 ((RADIX_TREE_WIDTH_POWER * rt_height root) mod 32) - 1).

Definition radix_tree_level_index (index level : Z) : Z :=
  Z.land (Z.shiftr index (level * RADIX_TREE_WIDTH_POWER))
         (Z.shiftl 1 RADIX_TREE_WIDTH_POWER - 1).
Definition radix_tree_leaf_index (index : Z) : Z := radix_tree_level_index index 0.

Definition radix_tree_add_child (node index child : Z) (is_node : bool) : M (rstate St) Z :=
  kassert (nonnull node);;
  kassert (nonnull child);;
  n <- get_node node;;
  old <- deref (rn_slots n !! Z.to_nat index);;
  if negb (old =? NULL) then ret ERR_RADIX_TREE_NODE_EXIST
  else
    put_node node (mkNode (rn_count n + 1) (rn_parent n) (<[Z.to_nat index := child]> (rn_slots n)));;
    kassert (rn_count n + 1 <=? RADIX_TREE_WIDTH);;
    (if is_node then
       c <- get_node child;; put_node child (mkNode (rn_count c) node (rn_slots c))
     else ret tt);;
    ret ERR_OK.

(** The loop variables are [(level, node)]. *)
Definition radix_tree_find_parent (index : Z) (alloc : bool) : M (rstate St) Z :=
  root <- gets r_root;;
  loop (S (Z.to_nat (rt_height root))) (fun '(level, node) =>
    if (0 <? level) && nonnull node then
      let level_index := radix_tree_level_index index level in
      n <- get_node node;;
      child <- deref (rn_slots n !! Z.to_nat level_index);;
      if (child =? NULL) && alloc then
        child <- radix_tree_node_create;;
        if child =? NULL then ret (inr NULL)
        else radix_tree_add_child node level_index child true;;
             ret (inl (level - 1, child))
      else ret (inl (level - 1, child))
    else ret (inr node)) (rt_height root - 1, rt_root_node root).

Definition radix_tree_add_level : M (rstate St) Z :=
  node <- radix_tree_node_create;;
  if node =? NULL then ret ERR_RADIX_TREE_ALLOC
  else
    root <- gets r_root;;
    (if negb (rt_root_node root =? NULL)
     then radix_tree_add_child node 0 (rt_root_node root) true;; ret tt
     else ret tt);;
    modify (set_root (mkRoot (rt_height root + 1) node));;
    ret ERR_OK.

Definition radix_tree_construct : M (rstate St) unit := modify (set_root (mkRoot 0 NULL)).
Definition radix_tree_destroy : M (rstate St) unit := modify (set_root (mkRoot 0 NULL)).
Definition radix_tree_empty : M (rstate St) bool := gets (fun s => rt_height (r_root s) =? 0).

Definition radix_tree_lookup (index : Z) : M (rstate St) Z :=
  root <- gets r_root;;
  if radix_tree_max_index root <? index then ret NULL
  else
    node <- radix_tree_find_parent index false;;
    if node =? NULL then ret NULL
    else n <- get_node node;; deref (rn_slots n !! Z.to_nat (radix_tree_leaf_index index)).

(** [fuel] bounds the levels the first loop adds. *)
Definition radix_tree_insert (fuel : nat) (index leaf : Z) : M (rstate St) Z :=
  kassert (nonnull leaf);;
  ok <- loop fuel (fun _ =>
    root <- gets r_root;;
    if radix_tree_max_index root <? index then
      e <- radix_tree_add_level;;
      if negb (e =? ERR_OK) then ret (inr false) else ret (inl tt)
    else ret (inr true)) tt;;
  if (ok : bool) then
    node <- radix_tree_find_parent index true;;
    if node =? NULL then ret ERR_RADIX_TREE_ALLOC
    else
      e <- radix_tree_add_child node (radix_tree_leaf_index index) leaf false;;
      if negb (e =? ERR_OK) then ret ERR_RADIX_TREE_NODE_EXIST else ret ERR_OK
  else ret ERR_RADIX_TREE_ALLOC.

(** The loop variables are [(level, node)]; it returns early ([true]) at the
    first node that stays non-empty. *)
Definition radix_tree_remove (index : Z) : M (rstate St) Z :=
  node <- radix_tree_find_parent index false;;
  if node =? NULL then ret NULL
  else
    n <- get_node node;;
    leaf <- deref (rn_slots n !! Z.to_nat (radix_tree_leaf_index index));;
    if leaf =? NULL then ret NULL
    else
      root <- gets r_root;;
      r <- loop (S (Z.to_nat (rt_height root))) (fun '(level, node) =>
        if level <? rt_height root then
          let level_index := radix_tree_level_index index level in
          kassert (nonnull node);;
          n <- get_node node;;
          v <- deref (rn_slots n !! Z.to_nat level_index);;
          kassert (nonnull v);;
          kassert (0 <? rn_count n);;
          put_node node (mkNode (rn_count n - 1) (rn_parent n)
                                (<[Z.to_nat level_index := NULL]> (rn_slots n)));;
          if rn_count n - 1 =? 0 then
            na <- gets r_allocator;;
            on_mem (oa_free na node);;
            modify (fun s => set_nodes (delete node (r_nodes s)) s);;
            ret (inl (level + 1, rn_parent n))
          else ret (inr None)
        else ret (inr (Some node))) (0, node);;
      match r with
      | None => ret leaf
      | Some node =>
          kassert (node =? NULL);;
          modify (set_root (mkRoot 0 NULL));;
          ret leaf
      end.

(** ** Representation *)

(** The number of occupied slots. *)
Definition occupied (l : list Z) : Z := Z.of_nat (length (filter (fun v => v ≠ NULL) l)).

Record tree (pos : gmap Z (Z * Z)) (H : Z) (N : gmap Z radix_tree_node) (r : Z) : Prop := {
  tr_dom : forall a, is_Some (N !! a) <-> is_Some (pos !! a);
  tr_nonnull : forall a x, pos !! a = Some x -> a <> NULL;
  tr_node : forall a n, N !! a = Some n -> length (rn_slots n) = 64%nat /\ rn_count n = occupied (rn_slots n);
  tr_inj : forall a b x, pos !! a = Some x -> pos !! b = Some x -> a = b;
  tr_pos : forall a l p, pos !! a = Some (l, p) -> 0 <= l < H /\ 0 <= p < 64 ^ (H - 1 - l);
  tr_root : if H =? 0 then r = NULL else pos !! r = Some (H - 1, 0);
  tr_rootp : forall n, N !! r = Some n -> rn_parent n = NULL;
  tr_child : forall a l p n j c, pos !! a = Some (l, p) -> 0 < l -> N !! a = Some n ->
     rn_slots n !! Z.to_nat j = Some c -> 0 <= j < 64 -> c <> NULL ->
     pos !! c = Some (l - 1, p * 64 + j);
  tr_parent : forall c l p cn, pos !! c = Some (l, p) -> l < H - 1 -> N !! c = Some cn ->
     exists n, N !! rn_parent cn = Some n /\ pos !! rn_parent cn = Some (l + 1, p / 64) /\
       rn_slots n !! Z.to_nat (p mod 64) = Some c
}.

(** The leaf stored at [idx]. *)
Definition leaf_at (pos : gmap Z (Z * Z)) (N : gmap Z radix_tree_node) (idx v : Z) : Prop :=
  exists a n, pos !! a = Some (0, idx / 64) /\ N !! a = Some n /\
    rn_slots n !! Z.to_nat (idx mod 64) = Some v /\ v <> NULL.

Record rep (m : gmap Z Z) s : Prop := {
  rp_height : 0 <= rt_height (r_root s) <= 5;
  rp_tree : exists pos, tree pos (rt_height (r_root s)) (r_nodes s) (rt_root_node (r_root s)) /\
    forall idx v, 0 <= idx -> m !! idx = Some v <-> leaf_at pos (r_nodes s) idx v;
  rp_keys : forall idx v, m !! idx = Some v -> 0 <= idx;
  rp_mem : exists L, oa_live (r_mem s) L /\
    ((r_allocator s = NULL /\ r_nodes s = ∅) \/
     (r_allocator s <> NULL /\ exists X, L !! r_allocator s = Some X /\ forall a, is_Some (r_nodes s !! a) -> a ∈ X))
}.
End ops.
