(* ===== verification/RadixTreeFacts.v ===== *)
(** * Radix trees: the shape invariant under each elementary change

    Pure facts about [tree] and [leaf_at] (RadixTree.v): the digits of an
    index, ancestors, and the five changes the operations make (a new inner
    node, a new level, a leaf stored, a leaf cleared, an empty node removed). *)

From stdpp Require Import prelude list gmap.
From Stdlib Require Import ZArith Lia.
From S2P Require Import Prelude Mmu DList ObjAlloc RadixTree.

(** ** Digits *)

Lemma pow64 l : 0 <= l -> 64 ^ l = 2 ^ (l * 6).
Proof. intros. change 64 with (2 ^ 6). rewrite <- Z.pow_mul_r by lia. f_equal. lia. Qed.

Lemma pow64_pos l : 0 <= l -> 0 < 64 ^ l.
Proof. intros. apply Z.pow_pos_nonneg; lia. Qed.

Lemma level_index_spec idx l : 0 <= l -> radix_tree_level_index idx l = (idx / 64 ^ l) mod 64.
Proof.
  intros. unfold radix_tree_level_index, RADIX_TREE_WIDTH_POWER.
  change (Z.shiftl 1 6 - 1) with (2 ^ 6 - 1). rewrite land_low_mask by lia.
  rewrite Z.shiftr_div_pow2 by lia. by rewrite pow64.
Qed.

(** The prefix of [idx] at the nodes of level [l]. *)
Definition prefix (idx l : Z) : Z := idx / 64 ^ (l + 1).

Lemma prefix_digit idx l : 0 < l ->
  prefix idx (l - 1) = prefix idx l * 64 + (idx / 64 ^ l) mod 64.
Proof.
  intros. unfold prefix. replace (l - 1 + 1) with l by lia.
  rewrite Z.pow_add_r, Z.pow_1_r, <- Z.div_div by (pose proof (pow64_pos l); lia).
  pose proof (Z.div_mod (idx / 64 ^ l) 64). lia.
Qed.

Lemma prefix_up idx l : 0 <= l -> prefix idx l / 64 = prefix idx (l + 1).
Proof.
  intros. unfold prefix. rewrite Z.div_div by (pose proof (pow64_pos (l + 1)); lia).
  f_equal. rewrite (Z.pow_add_r 64 (l + 1) 1) by lia. lia.
Qed.

Lemma prefix_mod idx l : 0 <= l -> prefix idx l mod 64 = (idx / 64 ^ (l + 1)) mod 64.
Proof. done. Qed.

Lemma digit_div p j : 0 <= j < 64 -> (p * 64 + j) / 64 = p.
Proof. intros. rewrite Z.add_comm, Z.div_add, Z.div_small by lia. lia. Qed.
Lemma digit_mod p j : 0 <= j < 64 -> (p * 64 + j) mod 64 = j.
Proof. intros. rewrite Z.add_comm, Z.mod_add, Z.mod_small; lia. Qed.

(** ** Occupied slots *)

Definition occ (v : Z) : Z := if decide (v ≠ NULL) then 1 else 0.

Lemma occ_null : occ NULL = 0.
Proof. done. Qed.
Lemma occ_nonnull v : v <> NULL -> occ v = 1.
Proof. intros. unfold occ. by rewrite decide_True. Qed.

Lemma occupied_insert l j old v :
  l !! j = Some old -> occupied (<[j := v]> l) = occupied l + occ v - occ old.
Proof.
  intros Hj. unfold occupied, occ. rewrite <- (take_drop_middle l j old Hj) at 2.
  rewrite insert_take_drop by (by eapply lookup_lt_Some).
  rewrite !filter_app, !filter_cons, !length_app. repeat case_decide; simpl; lia.
Qed.

Lemma occupied_bounds l : 0 <= occupied l <= Z.of_nat (length l).
Proof. unfold occupied. pose proof (length_filter (fun v : Z => v ≠ NULL) l). lia. Qed.

Lemma occupied_zero l j v : occupied l = 0 -> l !! j = Some v -> v = NULL.
Proof.
  intros H Hj. unfold occupied in H. apply list_elem_of_lookup_2 in Hj. apply dec_stable. intros Hv.
  assert (Hin : v ∈ filter (fun v => v ≠ NULL) l) by (by apply list_elem_of_filter).
  destruct (filter (fun v => v ≠ NULL) l); [by apply elem_of_nil in Hin|simpl in H; lia].
Qed.

Lemma occupied_pos l j v : l !! j = Some v -> v <> NULL -> 0 < occupied l.
Proof.
  intros Hj Hv. pose proof (occupied_bounds l). destruct (decide (occupied l = 0)) as [E|]; [|lia].
  by pose proof (occupied_zero _ _ _ E Hj).
Qed.

Lemma occupied_empty : occupied (replicate 64 NULL) = 0.
Proof. done. Qed.

(** ** Ancestors *)

Section tree_facts.
Context {pos : gmap Z (Z * Z)} {H : Z} {N : gmap Z radix_tree_node} {r : Z} (T : tree pos H N r).

Lemma tr_lookup a x : pos !! a = Some x -> exists n, N !! a = Some n /\ length (rn_slots n) = 64%nat /\
  rn_count n = occupied (rn_slots n).
Proof using T.
  intros Ha. destruct (proj2 (tr_dom _ _ _ _ T a)) as [n Hn]; [by rewrite Ha|].
  exists n. split; [done|]. by apply (tr_node _ _ _ _ T a).
Qed.

Lemma tr_slot a n j : N !! a = Some n -> 0 <= j < 64 -> exists v, rn_slots n !! Z.to_nat j = Some v.
Proof using T.
  intros Hn Hj. destruct (tr_node _ _ _ _ T a n Hn) as [Hl _].
  apply lookup_lt_is_Some_2. rewrite Hl. lia.
Qed.

(** Below a level every node hangs in the slot of its parent. *)
Lemma ancestor k : forall a l p, pos !! a = Some (l, p) -> l + Z.of_nat k <= H - 1 ->
  exists b, pos !! b = Some (l + Z.of_nat k, p / 64 ^ Z.of_nat k).
Proof using T.
  induction k as [|k IH]; intros a l p Ha Hk.
  - exists a. rewrite Z.add_0_r, Z.pow_0_r, Z.div_1_r. done.
  - destruct (tr_lookup _ _ Ha) as (n & Hn & _).
    destruct (tr_parent _ _ _ _ T a l p n Ha ltac:(lia) Hn) as (n' & _ & Hp & _).
    destruct (IH _ _ _ Hp ltac:(lia)) as (b & Hb). exists b.
    rewrite Nat2Z.inj_succ, Z.pow_succ_r, <- Z.div_div by (pose proof (pow64_pos (Z.of_nat k)); lia).
    by replace (l + Z.succ (Z.of_nat k)) with (l + 1 + Z.of_nat k) by lia.
Qed.

(** An empty slot on the path of [idx]: there is nothing below it. *)
Lemma empty_slot a l n idx : pos !! a = Some (l, prefix idx l) -> 0 < l -> N !! a = Some n ->
  rn_slots n !! Z.to_nat ((idx / 64 ^ l) mod 64) = Some NULL ->
  forall k b, 0 <= k < l -> pos !! b <> Some (k, prefix idx k).
Proof using T.
  intros Ha Hl Hn Hs k b Hk Hb. destruct (tr_pos _ _ _ _ T _ _ _ Ha) as [HlH _].
  destruct (ancestor (Z.to_nat (l - 1 - k)) b k _ Hb ltac:(lia)) as (c & Hc).
  rewrite Z2Nat.id in Hc by lia. replace (k + (l - 1 - k)) with (l - 1) in Hc by lia.
  assert (Ep : prefix idx k / 64 ^ (l - 1 - k) = prefix idx (l - 1)).
  { unfold prefix. pose proof (pow64_pos (k + 1) ltac:(lia)). pose proof (pow64_pos (l - 1 - k) ltac:(lia)).
    rewrite Z.div_div by lia.
    rewrite <- Z.pow_add_r by lia. do 2 f_equal. lia. }
  rewrite Ep in Hc. destruct (tr_lookup _ _ Hc) as (cn & Hcn & _).
  destruct (tr_parent _ _ _ _ T _ _ _ _ Hc ltac:(lia) Hcn) as (pn & Hpn & Hpp & Hsl).
  assert (E : rn_parent cn = a).
  { eapply (tr_inj _ _ _ _ T); [exact Hpp|]. rewrite Ha. do 2 f_equal; [lia|].
    rewrite prefix_up by lia. f_equal. lia. }
  rewrite E, Hn in Hpn. injection Hpn as <-.
  assert (Em : prefix idx (l - 1) mod 64 = (idx / 64 ^ l) mod 64) by (unfold prefix; by replace (l - 1 + 1) with l by lia).
  rewrite Em, Hs in Hsl. injection Hsl as <-. exact (tr_nonnull _ _ _ _ T _ _ Hc eq_refl).
Qed.

Lemma leaf_at_unique idx v w : leaf_at pos N idx v -> leaf_at pos N idx w -> v = w.
Proof using T.
  intros (a & n & Ha & Hn & Hv & _) (b & n' & Hb & Hn' & Hw & _).
  assert (a = b) as <- by (by eapply (tr_inj _ _ _ _ T)). congruence.
Qed.

(** The child of a node on the path of [idx] continues the path. *)
Lemma path_child a l n idx c : pos !! a = Some (l, prefix idx l) -> 0 < l -> N !! a = Some n ->
  rn_slots n !! Z.to_nat ((idx / 64 ^ l) mod 64) = Some c -> c <> NULL ->
  pos !! c = Some (l - 1, prefix idx (l - 1)).
Proof using T.
  intros Ha Hl Hn Hs Hc. rewrite prefix_digit by done.
  eapply (tr_child _ _ _ _ T a l); try done. apply Z.mod_pos_bound. lia.
Qed.
End tree_facts.

(** ** The five changes *)

Definition fresh_node (parent : Z) : radix_tree_node := mkNode 0 parent (replicate 64 NULL).

Section changes.
Context {pos : gmap Z (Z * Z)} {H : Z} {N : gmap Z radix_tree_node} {r : Z} (T : tree pos H N r).

Lemma fresh_slot p j v : rn_slots (fresh_node p) !! j = Some v -> v = NULL.
Proof using Type. by intros [-> _]%lookup_replicate. Qed.

Lemma fresh_pos b : N !! b = None -> pos !! b = None.
Proof using T.
  intros Hb. apply eq_None_not_Some. rewrite <- (tr_dom _ _ _ _ T b), Hb. by intros [? ?].
Qed.

(** A node record with one slot changed. *)
Definition with_slot (n : radix_tree_node) (k : Z) (j v : Z) : radix_tree_node :=
  mkNode (rn_count n + k) (rn_parent n) (<[Z.to_nat j := v]> (rn_slots n)).

(** A new inner node [b] in the empty slot [j] of [a]. *)
Section inner.
Context (a b l p j : Z) (n : radix_tree_node).
Context (Ha : pos !! a = Some (l, p)) (Hl : 0 < l) (Hn : N !! a = Some n) (Hj : 0 <= j < 64).
Context (Hs : rn_slots n !! Z.to_nat j = Some NULL) (Hb : N !! b = None) (Hb0 : b <> NULL).

Let pos' := <[b := (l - 1, p * 64 + j)]> pos.
Let N' := <[b := fresh_node a]> (<[a := with_slot n 1 j b]> N).

Lemma inner_vacant c : pos !! c <> Some (l - 1, p * 64 + j).
Proof using All.
  intros Hc. destruct (tr_pos _ _ _ _ T _ _ _ Ha) as [? _].
  destruct (tr_lookup T _ _ Hc) as (cn & Hcn & _).
  destruct (tr_parent _ _ _ _ T _ _ _ _ Hc ltac:(lia) Hcn) as (pn & Hpn & Hpp & Hsl).
  assert (E : rn_parent cn = a).
  { eapply (tr_inj _ _ _ _ T); [exact Hpp|]. rewrite Ha. do 2 f_equal; [lia|].
    by rewrite digit_div. }
  rewrite E, Hn in Hpn. injection Hpn as <-.
  rewrite digit_mod, Hs in Hsl by lia. injection Hsl as <-.
  exact (tr_nonnull _ _ _ _ T _ _ Hc eq_refl).
Qed.

Lemma inner_ne : b <> a.
Proof using All. intros E. rewrite E, Hn in Hb. discriminate Hb. Qed.

Lemma inner_lookup c cn : N' !! c = Some cn ->
  (c = b /\ cn = fresh_node a) \/ (c = a /\ cn = with_slot n 1 j b) \/ (c <> b /\ c <> a /\ N !! c = Some cn).
Proof using All.
  unfold N'. rewrite !lookup_insert. repeat case_decide; intros; simplify_eq; auto.
Qed.

Lemma tree_add_inner : tree pos' H N' r.
Proof using All.
  pose proof inner_ne as Hne. pose proof (fresh_pos b Hb) as Hpb.
  destruct (tr_pos _ _ _ _ T _ _ _ Ha) as [HlH Hp].
  destruct (tr_node _ _ _ _ T _ _ Hn) as [Hlen Hcnt]. constructor.
  - intros c. unfold N', pos'. rewrite !lookup_insert. pose proof (tr_dom _ _ _ _ T c).
    repeat case_decide; subst; [by split; eexists| |done]. rewrite Ha. by split; eexists.
  - intros c x. unfold pos'. rewrite lookup_insert. case_decide; [by intros [= <-]; subst|apply T].
  - intros c cn [[-> ->]|[[-> ->]|(_ & _ & ?)]]%inner_lookup; [done| |by apply (tr_node _ _ _ _ T c)].
    simpl. rewrite length_insert. split; [done|]. rewrite (occupied_insert _ _ _ _ Hs), Hcnt.
    rewrite occ_nonnull, occ_null by done. lia.
  - intros c1 c2 x. unfold pos'. rewrite !lookup_insert. pose proof inner_vacant as Hv.
    repeat case_decide; subst; intros; simplify_eq; try done; [by exfalso; eapply Hv..|].
    by eapply (tr_inj _ _ _ _ T).
  - intros c k q. unfold pos'. rewrite lookup_insert. case_decide; [|apply T].
    intros [= <- <-]. split; [lia|]. replace (H - 1 - (l - 1)) with (H - 1 - l + 1) by lia.
    rewrite Z.pow_add_r, Z.pow_1_r by lia. nia.
  - pose proof (tr_root _ _ _ _ T) as Hr. destruct (Z.eqb_spec H 0); [done|].
    unfold pos'. rewrite lookup_insert_ne; [done|]. intros <-. congruence.
  - pose proof (tr_root _ _ _ _ T) as Hr. destruct (Z.eqb_spec H 0); [lia|].
    intros rn [[-> ->]|[[-> ->]|(_ & _ & ?)]]%inner_lookup; [congruence| |by apply T].
    simpl. by apply (tr_rootp _ _ _ _ T).
  - intros c k q cn i d Hc Hk Hcn Hd Hi Hd0.
    apply inner_lookup in Hcn as [[-> ->]|[[-> ->]|(Hcb & Hca & Hcn)]].
    + by apply fresh_slot in Hd.
    + unfold pos' in *. rewrite lookup_insert_ne in Hc by done. rewrite Ha in Hc. injection Hc as <- <-.
      simpl in Hd. destruct (decide (i = j)) as [->|].
      * rewrite list_lookup_insert_eq in Hd by lia. injection Hd as <-. by rewrite lookup_insert_eq.
      * rewrite list_lookup_insert_ne in Hd by lia.
        pose proof (tr_child _ _ _ _ T _ _ _ _ _ _ Ha Hk Hn Hd Hi Hd0) as E.
        rewrite lookup_insert_ne; [done|]. intros <-. congruence.
    + unfold pos' in *. rewrite lookup_insert_ne in Hc by done.
      pose proof (tr_child _ _ _ _ T _ _ _ _ _ _ Hc Hk Hcn Hd Hi Hd0) as E.
      rewrite lookup_insert_ne; [done|]. intros <-. congruence.
  - intros c k q cn Hc Hk Hcn. unfold pos' in Hc.
    apply inner_lookup in Hcn as [[-> ->]|[Hcn|(Hcb & Hca & Hcn)]].
    + rewrite lookup_insert_eq in Hc. injection Hc as <- <-. exists (with_slot n 1 j b). simpl.
      unfold N', pos'. rewrite (lookup_insert_ne _ b a) by done.
      rewrite lookup_insert_eq, (lookup_insert_ne pos b a) by done.
      rewrite digit_div, digit_mod by lia.
      split; [done|]. split; [rewrite Ha; do 2 f_equal; lia|]. by apply list_lookup_insert_eq; lia.
    + destruct Hcn as [-> ->]. rewrite lookup_insert_ne in Hc by done. simpl.
      destruct (tr_parent _ _ _ _ T _ _ _ _ Hc Hk Hn) as (pn & Hpn & Hpp & Hsl).
      assert (rn_parent n <> a) by (intros E; rewrite E, Ha in Hpp; injection Hpp; rewrite Ha in Hc; simplify_eq; lia).
      assert (rn_parent n <> b) by (intros E; rewrite E in Hpp; congruence).
      exists pn. unfold N', pos'. by rewrite !lookup_insert_ne by done.
    + rewrite lookup_insert_ne in Hc by done.
      destruct (tr_parent _ _ _ _ T _ _ _ _ Hc Hk Hcn) as (pn & Hpn & Hpp & Hsl).
      assert (rn_parent cn <> b) by (intros E; rewrite E in Hpp; congruence).
      unfold N', pos'. rewrite (lookup_insert_ne pos) by done. rewrite (lookup_insert_ne _ b) by done.
      destruct (decide (rn_parent cn = a)) as [E|].
      * rewrite E in *. rewrite lookup_insert_eq. exists (with_slot n 1 j b). split; [done|]. split; [done|].
        rewrite Hn in Hpn. injection Hpn as <-. simpl.
        rewrite list_lookup_insert_ne; [done|]. intros Ej.
        assert (q mod 64 = j) by (pose proof (Z.mod_pos_bound q 64); lia). subst j.
        rewrite Hs in Hsl. injection Hsl as <-. exact (tr_nonnull _ _ _ _ T _ _ Hc eq_refl).
      * rewrite lookup_insert_ne by done. by exists pn.
Qed.

Lemma leaf_add_inner idx v : leaf_at pos' N' idx v <-> leaf_at pos N idx v.
Proof using All.
  pose proof inner_ne as Hne. unfold leaf_at. split.
  - intros (c & cn & Hc & Hcn & Hsl & Hv). unfold pos' in Hc.
    apply inner_lookup in Hcn as [[-> ->]|[[-> ->]|(Hcb & Hca & Hcn)]].
    + by apply fresh_slot in Hsl.
    + rewrite lookup_insert_ne, Ha in Hc by done. injection Hc as ? ?. lia.
    + rewrite lookup_insert_ne in Hc by done. by exists c, cn.
  - intros (c & cn & Hc & Hcn & Hsl & Hv). exists c, cn. unfold pos', N'.
    assert (b <> c) by (intros <-; congruence). assert (a <> c) by (intros <-; rewrite Ha in Hc; simplify_eq; lia).
    by rewrite !lookup_insert_ne.
Qed.
End inner.

(** A slot of a node of level 0 gets another value (a leaf, or NULL). *)
Section leaf_slot.
Context (a p j v old k : Z) (n : radix_tree_node).
Context (Ha : pos !! a = Some (0, p)) (Hn : N !! a = Some n) (Hj : 0 <= j < 64).
Context (Hold : rn_slots n !! Z.to_nat j = Some old).
Context (Hk : k = occ v - occ old).

Let N' := <[a := with_slot n k j v]> N.

Lemma tree_set_leaf : tree pos H N' r.
Proof using All.
  destruct (tr_node _ _ _ _ T _ _ Hn) as [Hlen Hcnt]. constructor; try apply T.
  - intros c. unfold N'. rewrite lookup_insert. case_decide; [subst|apply T].
    rewrite Ha. by split; eexists.
  - intros c cn. unfold N'. rewrite lookup_insert. case_decide; [intros [= <-]|apply T].
    simpl. rewrite length_insert. split; [done|]. rewrite (occupied_insert _ _ _ _ Hold), Hcnt, Hk. lia.
  - intros rn. unfold N'. rewrite lookup_insert. case_decide; [intros [= <-]; subst|apply T].
    simpl. by apply (tr_rootp _ _ _ _ T).
  - intros c l q cn i d Hc Hl. unfold N'. rewrite lookup_insert.
    case_decide; [intros; subst; rewrite Ha in Hc; simplify_eq; lia|]. intros. by eapply (tr_child _ _ _ _ T).
  - intros c l q cn Hc Hl. unfold N'. rewrite lookup_insert. intros Hcn.
    assert (Hpar : exists pn, N !! rn_parent cn = Some pn /\ pos !! rn_parent cn = Some (l + 1, q / 64) /\
              rn_slots pn !! Z.to_nat (q mod 64) = Some c).
    { case_decide; [injection Hcn as <-; subst; by apply (tr_parent _ _ _ _ T _ _ _ _ Hc Hl Hn)|].
      by apply (tr_parent _ _ _ _ T _ _ _ _ Hc Hl Hcn). }
    destruct Hpar as (pn & Hpn & Hpp & Hsl). exists pn. split; [|done]. rewrite lookup_insert_ne; [done|].
    intros E. rewrite <- E, Ha in Hpp. destruct (tr_pos _ _ _ _ T _ _ _ Hc) as [? _]. simplify_eq. lia.
Qed.

Lemma leaf_set_leaf idx w : leaf_at pos N' idx w <->
  if decide (idx = p * 64 + j) then w = v /\ v <> NULL else leaf_at pos N idx w.
Proof using All.
  destruct (tr_node _ _ _ _ T _ _ Hn) as [Hlen _]. unfold leaf_at. case_decide as E.
  - subst idx. rewrite digit_div, digit_mod by done. split.
    + intros (c & cn & Hc & Hcn & Hsl & Hw).
      assert (c = a) as -> by (by eapply (tr_inj _ _ _ _ T)). unfold N' in Hcn.
      rewrite lookup_insert_eq in Hcn. injection Hcn as <-. simpl in Hsl.
      rewrite list_lookup_insert_eq in Hsl by lia. by injection Hsl as <-.
    + intros [-> Hv]. exists a, (with_slot n k j v). unfold N'. rewrite lookup_insert_eq. do 2 (split; [done|]).
      split; [|done]. simpl. apply list_lookup_insert_eq. lia.
  - assert (Hne : forall c, pos !! c = Some (0, idx / 64) -> c = a -> idx mod 64 <> j).
    { intros c Hc ->. rewrite Ha in Hc. injection Hc as ->. intros <-. apply E.
      pose proof (Z.div_mod idx 64). lia. }
    split; intros (c & cn & Hc & Hcn & Hsl & Hw); unfold N' in *.
    + rewrite lookup_insert in Hcn. case_decide as Ec; [|by exists c, cn]. injection Hcn as <-. subst c.
      exists a, n. do 2 (split; [done|]). split; [|done]. simpl in Hsl.
      rewrite list_lookup_insert_ne in Hsl; [done|]. specialize (Hne a Hc eq_refl).
      pose proof (Z.mod_pos_bound idx 64). lia.
    + destruct (decide (c = a)) as [->|].
      * rewrite Hn in Hcn. injection Hcn as <-. exists a, (with_slot n k j v). rewrite lookup_insert_eq.
        do 2 (split; [done|]). split; [|done]. simpl. rewrite list_lookup_insert_ne; [done|].
        specialize (Hne a Hc eq_refl). pose proof (Z.mod_pos_bound idx 64). lia.
      * exists c, cn. by rewrite lookup_insert_ne.
Qed.
End leaf_slot.

(** A new level on top. *)
Section level.
Context (b : Z) (Hb : N !! b = None) (Hb0 : b <> NULL) (HH : 0 <= H).

Definition top_node : radix_tree_node :=
  if H =? 0 then fresh_node NULL else with_slot (fresh_node NULL) 1 0 r.
(** The old root gets the new one as its parent. *)
Definition lowered : gmap Z radix_tree_node :=
  match N !! r with
  | Some n => if H =? 0 then N else <[r := mkNode (rn_count n) b (rn_slots n)]> N
  | None => N
  end.
Let pos' := <[b := (H, 0)]> pos.
Let N' := <[b := top_node]> lowered.

Lemma level_empty : H = 0 -> pos = ∅ /\ N = ∅.
Proof using All.
  intros E. assert (pos = ∅) as Ep.
  { apply map_eq. intros a. rewrite lookup_empty. apply eq_None_not_Some. intros [[l p] Ha].
    destruct (tr_pos _ _ _ _ T _ _ _ Ha). lia. }
  split; [done|]. apply map_eq. intros a. rewrite lookup_empty. apply eq_None_not_Some.
  rewrite (tr_dom _ _ _ _ T a), Ep, lookup_empty. by intros [? ?].
Qed.

Lemma lowered_lookup c cn : lowered !! c = Some cn ->
  exists n, N !! c = Some n /\ rn_count cn = rn_count n /\ rn_slots cn = rn_slots n /\
    ((c = r /\ H <> 0 /\ rn_parent cn = b) \/ ((c <> r \/ H = 0) /\ cn = n)).
Proof using All.
  unfold lowered. destruct (N !! r) as [rn|] eqn:E; [|intros ?; exists cn; do 3 (split; [done|]); right;
    split; [left; congruence|done]].
  destruct (Z.eqb_spec H 0); [intros ?; exists cn; auto 10|]. rewrite lookup_insert. case_decide.
  - intros [= <-]. subst c. exists rn. auto 10.
  - intros ?. exists cn. auto 10.
Qed.

Lemma lowered_back c n : N !! c = Some n -> exists cn, lowered !! c = Some cn /\ rn_slots cn = rn_slots n.
Proof using All.
  intros Hc. unfold lowered. destruct (N !! r) as [rn|] eqn:E; [|by exists n].
  destruct (Z.eqb_spec H 0); [by exists n|]. rewrite lookup_insert. case_decide; [subst c|by exists n].
  eexists. split; [done|]. simpl. congruence.
Qed.

Lemma lowered_dom c : is_Some (lowered !! c) <-> is_Some (N !! c).
Proof using All.
  split; [intros [cn (n & ? & _)%lowered_lookup]; by exists n|].
  intros [n (cn & ? & _)%lowered_back]. by exists cn.
Qed.

Lemma lookup_top c cn : N' !! c = Some cn -> (c = b /\ cn = top_node) \/ (c <> b /\ lowered !! c = Some cn).
Proof using All. unfold N'. rewrite lookup_insert. case_decide; [intros [= <-]; auto|auto]. Qed.

Lemma top_slots : length (rn_slots top_node) = 64%nat /\ rn_count top_node = occupied (rn_slots top_node) /\
  rn_parent top_node = NULL /\
  forall j d, 0 <= j < 64 -> rn_slots top_node !! Z.to_nat j = Some d -> d <> NULL -> H <> 0 /\ j = 0 /\ d = r.
Proof using All.
  unfold top_node. pose proof (tr_root _ _ _ _ T) as Hr. destruct (Z.eqb_spec H 0).
  - do 3 (split; [done|]). intros j d _ Hd. by apply fresh_slot in Hd.
  - split; [done|]. split; [|split; [done|]].
    + change (rn_slots (with_slot (fresh_node NULL) 1 0 r)) with (<[0%nat := r]> (replicate 64 NULL)).
      rewrite (occupied_insert _ _ NULL), occ_null by done.
      rewrite occ_nonnull by (by eapply (tr_nonnull _ _ _ _ T)). done.
    + intros j d Hj Hd Hd0. destruct (decide (j = 0)) as [->|]; [split; [done|]; split; [done|]; by injection Hd|].
      change (rn_slots (with_slot (fresh_node NULL) 1 0 r)) with (<[0%nat := r]> (replicate 64 NULL)) in Hd.
      rewrite list_lookup_insert_ne in Hd by lia. by apply (fresh_slot NULL) in Hd.
Qed.

Lemma tree_add_level : tree pos' (H + 1) N' b.
Proof using All.
  pose proof (fresh_pos b Hb) as Hpb. destruct top_slots as (Tlen & Tcnt & Tpar & Tsl).
  pose proof (tr_root _ _ _ _ T) as Hr.
  assert (Hrb : H <> 0 -> r <> b) by (destruct (Z.eqb_spec H 0); [done|]; intros _ ->; congruence).
  constructor.
  - intros c. unfold N', pos'. rewrite !lookup_insert. case_decide; [by split; eexists|].
    rewrite lowered_dom. apply T.
  - intros c x. unfold pos'. rewrite lookup_insert. case_decide; [by intros _; subst|apply T].
  - intros c cn [[-> ->]|[_ (n & Hn & -> & -> & _)%lowered_lookup]]%lookup_top; [done|].
    by apply (tr_node _ _ _ _ T c).
  - intros c1 c2 x. unfold pos'. rewrite !lookup_insert.
    repeat case_decide; subst; try done; intros; simplify_eq.
    + destruct (tr_pos _ _ _ _ T c2 H 0); [done|lia].
    + destruct (tr_pos _ _ _ _ T c1 H 0); [done|lia].
    + by eapply (tr_inj _ _ _ _ T).
  - intros c l p. unfold pos'. rewrite lookup_insert. case_decide.
    + intros [= <- <-]. split; [lia|]. replace (H + 1 - 1 - H) with 0 by lia. simpl. lia.
    + intros Hc. destruct (tr_pos _ _ _ _ T _ _ _ Hc) as [? Hp]. split; [lia|].
      replace (H + 1 - 1 - l) with (H - 1 - l + 1) by lia. rewrite Z.pow_add_r by lia. lia.
  - destruct (Z.eqb_spec (H + 1) 0); [lia|]. unfold pos'. rewrite lookup_insert_eq. do 2 f_equal. lia.
  - intros rn. unfold N'. rewrite lookup_insert_eq. by intros [= <-].
  - intros c l p n j d Hc Hl Hn Hd Hj Hd0. unfold pos' in *.
    apply lookup_top in Hn as [[-> ->]|[Hcb Hn]].
    + rewrite lookup_insert_eq in Hc. injection Hc as <- <-.
      destruct (Tsl j d Hj Hd Hd0) as (HH0 & -> & ->). destruct (Z.eqb_spec H 0); [done|].
      rewrite lookup_insert_ne by (intros E; by apply Hrb). rewrite Hr. done.
    + rewrite lookup_insert_ne in Hc by done.
      apply lowered_lookup in Hn as (n' & Hn & _ & Es & _). rewrite Es in Hd.
      pose proof (tr_child _ _ _ _ T _ _ _ _ _ _ Hc Hl Hn Hd Hj Hd0) as E.
      rewrite lookup_insert_ne; [done|]. intros <-. congruence.
  - intros c l p cn Hc Hl Hcn. unfold pos' in *.
    apply lookup_top in Hcn as [[-> ->]|[Hcb Hcn]].
    { rewrite lookup_insert_eq in Hc. injection Hc as <- <-. lia. }
    rewrite lookup_insert_ne in Hc by done.
    apply lowered_lookup in Hcn as (n & Hn & _ & _ & [(-> & HH0 & ->)|[Hnr ->]]).
    + exists top_node. unfold N'. rewrite !lookup_insert_eq. split; [done|].
      destruct (Z.eqb_spec H 0); [done|]. rewrite Hr in Hc. injection Hc as <- <-.
      split; [do 2 f_equal; lia|]. unfold top_node. destruct (Z.eqb_spec H 0); done.
    + assert (l < H - 1).
      { destruct Hnr as [Hnr|HH0];
          [|destruct (level_empty HH0) as [Ep _]; by rewrite Ep, lookup_empty in Hc].
        destruct (tr_pos _ _ _ _ T _ _ _ Hc) as [? Hp]. destruct (decide (l = H - 1)) as [->|]; [|lia].
        exfalso. apply Hnr. destruct (Z.eqb_spec H 0); [lia|].
        replace (H - 1 - (H - 1)) with 0 in Hp by lia. simpl in Hp.
        eapply (tr_inj _ _ _ _ T); [exact Hc|]. rewrite Hr. do 2 f_equal. lia. }
      destruct (tr_parent _ _ _ _ T _ _ _ _ Hc ltac:(done) Hn) as (pn & Hpn & Hpp & Hsl).
      destruct (lowered_back _ _ Hpn) as (pn' & Hpn' & Es). exists pn'. unfold N'.
      assert (b <> rn_parent n) by (intros E; rewrite <- E in Hpp; congruence).
      rewrite !lookup_insert_ne by done. by rewrite Es.
Qed.

Lemma leaf_add_level idx v : leaf_at pos' N' idx v <-> leaf_at pos N idx v.
Proof using All.
  pose proof (fresh_pos b Hb) as Hpb. destruct top_slots as (_ & _ & _ & Tsl). unfold leaf_at. split.
  - intros (c & cn & Hc & Hcn & Hsl & Hv). unfold pos' in Hc.
    apply lookup_top in Hcn as [[-> ->]|[Hcb Hcn]].
    + rewrite lookup_insert_eq in Hc. injection Hc as E _.
      by destruct (Tsl (idx mod 64) v ltac:(apply Z.mod_pos_bound; lia) Hsl Hv) as (? & _).
    + rewrite lookup_insert_ne in Hc by done. apply lowered_lookup in Hcn as (n & Hn & _ & Es & _).
      exists c, n. by rewrite <- Es.
  - intros (c & n & Hc & Hn & Hsl & Hv). destruct (lowered_back _ _ Hn) as (cn & Hcn & Es).
    exists c, cn. unfold pos', N'. assert (b <> c) by (intros <-; congruence).
    rewrite !lookup_insert_ne by done. by rewrite Es.
Qed.
End level.

(** An empty node [a] goes: it is freed and the slot of its parent cleared. *)
Section prune.
Context (a l p : Z) (n pn : radix_tree_node).
Context (Ha : pos !! a = Some (l, p)) (Hn : N !! a = Some n) (Hemp : occupied (rn_slots n) = 0).
Context (Hl : l < H - 1) (Hpn : N !! rn_parent n = Some pn).

Let b := rn_parent n.
Let pos' := delete a pos.
Let N' := <[b := with_slot pn (-1) (p mod 64) NULL]> (delete a N).

Lemma prune_parent : pos !! b = Some (l + 1, p / 64) /\ b <> a /\
  rn_slots pn !! Z.to_nat (p mod 64) = Some a.
Proof using All.
  destruct (tr_parent _ _ _ _ T _ _ _ _ Ha Hl Hn) as (pn' & Hpn' & Hpp & Hsl).
  rewrite Hpn in Hpn'. injection Hpn' as <-. split; [done|]. split; [|done].
  intros E. unfold b in E. rewrite E, Ha in Hpp. injection Hpp as ? _. lia.
Qed.

Lemma prune_lookup c cn : N' !! c = Some cn ->
  (c = b /\ cn = with_slot pn (-1) (p mod 64) NULL) \/ (c <> b /\ c <> a /\ N !! c = Some cn).
Proof using All.
  unfold N'. rewrite lookup_insert, lookup_delete. repeat case_decide; intros E; [|done|].
  - left. split; [done|]. congruence.
  - right. split; [congruence|]. split; [congruence|done].
Qed.

Lemma tree_prune : tree pos' H N' r.
Proof using All.
  destruct prune_parent as (Hb & Hba & Hsa). pose proof (Z.mod_pos_bound p 64 ltac:(lia)) as Hm.
  destruct (tr_pos _ _ _ _ T _ _ _ Ha) as [Hl0 Hp]. pose proof (tr_nonnull _ _ _ _ T _ _ Ha) as Ha0.
  destruct (tr_node _ _ _ _ T _ _ Hpn) as [Plen Pcnt].
  pose proof (tr_root _ _ _ _ T) as Hr. destruct (Z.eqb_spec H 0) as [|HH0]; [lia|].
  assert (Hra : r <> a) by (intros E; rewrite E, Ha in Hr; injection Hr; lia).
  constructor.
  - intros c. unfold N', pos'. rewrite lookup_insert, !lookup_delete. pose proof (tr_dom _ _ _ _ T c) as Hd.
    destruct (decide (b = c)) as [<-|].
    + destruct (decide (a = b)); [by subst|]. rewrite Hb. by split; eexists.
    + destruct (decide (a = c)); [|done]. by split; intros [? ?].
  - intros c x. unfold pos'. rewrite lookup_delete_Some. intros [_ ?]. by eapply (tr_nonnull _ _ _ _ T).
  - intros c cn [[-> ->]|(_ & _ & ?)]%prune_lookup; [|by apply (tr_node _ _ _ _ T c)].
    simpl. rewrite length_insert. split; [done|].
    rewrite (occupied_insert _ _ _ _ Hsa), Pcnt, occ_null, occ_nonnull by done. lia.
  - intros c1 c2 x. unfold pos'. rewrite !lookup_delete_Some. intros [_ ?] [_ ?]. by eapply (tr_inj _ _ _ _ T).
  - intros c k q. unfold pos'. rewrite lookup_delete_Some. intros [_ ?]. by apply (tr_pos _ _ _ _ T c).
  - destruct (Z.eqb_spec H 0); [lia|]. unfold pos'. by rewrite lookup_delete_ne by done.
  - intros rn [[E ->]|(_ & _ & ?)]%prune_lookup; [|by apply T]. simpl. apply (tr_rootp _ _ _ _ T). by rewrite E.
  - intros c k q cn j d Hc Hk Hcn Hd Hj Hd0. unfold pos' in *. apply lookup_delete_Some in Hc as [Hca Hc].
    assert (Hchild : pos !! d = Some (k - 1, q * 64 + j) /\ d <> a).
    { apply prune_lookup in Hcn as [[-> ->]|(Hcb & _ & Hcn)].
      - simpl in Hd. destruct (decide (j = p mod 64)) as [->|].
        { rewrite list_lookup_insert_eq in Hd by lia. by injection Hd as <-. }
        rewrite list_lookup_insert_ne in Hd by lia.
        pose proof (tr_child _ _ _ _ T _ _ _ _ _ _ Hc Hk Hpn Hd Hj Hd0) as Ed. split; [done|].
        intros E. rewrite E, Ha in Ed. injection Ed as _ Eq. rewrite Eq, digit_mod in n0 by done. done.
      - pose proof (tr_child _ _ _ _ T _ _ _ _ _ _ Hc Hk Hcn Hd Hj Hd0) as Ed. split; [done|].
        intros E. rewrite E, Ha in Ed. injection Ed as El Ep. apply Hcb.
        eapply (tr_inj _ _ _ _ T); [exact Hc|]. rewrite Hb, Ep, digit_div by done. do 2 f_equal. lia. }
    rewrite lookup_delete_ne; [apply Hchild|]. intros <-. by apply (proj2 Hchild).
  - intros c k q cn Hc Hk Hcn. unfold pos' in *. apply lookup_delete_Some in Hc as [Hca Hc].
    assert (Hold : exists cn0, N !! c = Some cn0 /\ rn_parent cn = rn_parent cn0).
    { apply prune_lookup in Hcn as [[-> ->]|(_ & _ & Hcn)]; [by exists pn|by exists cn]. }
    destruct Hold as (cn0 & Hcn0 & ->).
    destruct (tr_parent _ _ _ _ T _ _ _ _ Hc Hk Hcn0) as (qn & Hqn & Hqp & Hqs).
    assert (Hqa : rn_parent cn0 <> a).
    { intros E. rewrite E, Hn in Hqn. injection Hqn as <-. pose proof (occupied_zero _ _ _ Hemp Hqs) as ->.
      by apply (tr_nonnull _ _ _ _ T _ _ Hc). }
    rewrite lookup_delete_ne by congruence. unfold N'. rewrite lookup_insert, lookup_delete_ne by congruence.
    case_decide as Eb; [|by exists qn]. exists (with_slot pn (-1) (p mod 64) NULL). split; [done|]. split; [done|].
    rewrite <- Eb in Hqn, Hqp. unfold b in Hqn. rewrite Hpn in Hqn. injection Hqn as <-. simpl.
    rewrite list_lookup_insert_ne; [done|]. pose proof (Z.mod_pos_bound q 64 ltac:(lia)). intros E.
    assert (Em : p mod 64 = q mod 64) by lia. rewrite <- Em, Hsa in Hqs. by injection Hqs as ->.
Qed.

Lemma leaf_prune idx v : leaf_at pos' N' idx v <-> leaf_at pos N idx v.
Proof using All.
  destruct prune_parent as (Hb & Hba & Hsa). destruct (tr_pos _ _ _ _ T _ _ _ Ha) as [Hl0 _].
  unfold leaf_at. split; intros (c & cn & Hc & Hcn & Hsl & Hv).
  - unfold pos' in Hc. apply lookup_delete_Some in Hc as [Hca Hc].
    apply prune_lookup in Hcn as [[-> ->]|(_ & _ & Hcn)]; [|by exists c, cn].
    rewrite Hb in Hc. injection Hc as ? _. lia.
  - assert (c <> a).
    { intros ->. rewrite Hn in Hcn. injection Hcn as <-. by pose proof (occupied_zero _ _ _ Hemp Hsl). }
    assert (b <> c) by (intros <-; rewrite Hb in Hc; injection Hc as ? _; lia).
    exists c, cn. unfold pos', N'. by rewrite lookup_insert_ne, !lookup_delete_ne by done.
Qed.
End prune.

(** An empty root: it is the only node. *)
Lemma empty_root n : 0 < H -> N !! r = Some n -> occupied (rn_slots n) = 0 -> delete r N = ∅.
Proof using T.
  intros HH Hn Hemp. pose proof (tr_root _ _ _ _ T) as Hr. destruct (Z.eqb_spec H 0); [lia|].
  apply map_eq. intros c. rewrite lookup_delete, lookup_empty. case_decide; [done|].
  apply eq_None_not_Some. rewrite (tr_dom _ _ _ _ T c). intros [[l p] Hc].
  destruct (tr_pos _ _ _ _ T _ _ _ Hc) as [Hl Hp].
  destruct (decide (l = H - 1)) as [->|].
  { replace (H - 1 - (H - 1)) with 0 in Hp by lia. simpl in Hp. assert (p = 0) as -> by lia.
    by pose proof (tr_inj _ _ _ _ T _ _ _ Hr Hc). }
  destruct (ancestor T (Z.to_nat (H - 2 - l)) c l p Hc ltac:(lia)) as (d & Hd).
  rewrite Z2Nat.id in Hd by lia. replace (l + (H - 2 - l)) with (H - 2) in Hd by lia.
  destruct (tr_lookup T _ _ Hd) as (dn & Hdn & _).
  destruct (tr_parent _ _ _ _ T _ _ _ _ Hd ltac:(lia) Hdn) as (qn & Hqn & Hqp & Hqs).
  destruct (tr_pos _ _ _ _ T _ _ _ Hqp) as [_ Hq].
  assert (E : rn_parent dn = r).
  { eapply (tr_inj _ _ _ _ T); [exact Hqp|]. rewrite Hr. replace (H - 1 - (H - 2 + 1)) with 0 in Hq by lia.
    simpl in Hq. do 2 f_equal; lia. }
  rewrite E, Hn in Hqn. injection Hqn as <-. pose proof (occupied_zero _ _ _ Hemp Hqs) as ->.
  by apply (tr_nonnull _ _ _ _ T _ _ Hd).
Qed.
End changes.
