(* ===== verification/RadixTreeSpec.v ===== *)
(** * Radix trees: the operations refine a finite map

    [rep m s]: the tree of [s] stores the finite map [m] from indices to
    non-null leaves.  Each operation of radix_tree.c is shown to be the
    corresponding operation on [m], over any object allocator that satisfies
    the interface (in particular kmalloc.c). *)

From stdpp Require Import prelude list gmap.
From Stdlib Require Import ZArith Lia.
From S2P Require Import Prelude Mmu DList ObjAlloc RadixTree RadixTreeFacts.

Lemma max_index_spec root idx : 0 <= rt_height root <= 5 -> 0 <= idx ->
  (radix_tree_max_index root <? idx) = negb ((0 <? rt_height root) && (idx <? 64 ^ rt_height root)).
Proof.
  intros HH Hi. unfold radix_tree_max_index. destruct root as [h p]. simpl in *.
  assert (h = 0 \/ h = 1 \/ h = 2 \/ h = 3 \/ h = 4 \/ h = 5) as Hc by lia.
  destruct Hc as [->|[->|[->|[->|[->| ->]]]]]; simpl (_ =? 0); cbv iota;
    [change (0 <? 0) with false; simpl; apply Z.ltb_lt; lia|..].
  all: match goal with |- (?a <? ?i) = negb (?b && (?i <? ?c)) =>
         let a' := eval vm_compute in a in change a with a';
         let c' := eval vm_compute in c in change c with c';
         change b with true; simpl; destruct (Z.ltb_spec a' i), (Z.ltb_spec i c'); (done || lia) end.
Qed.

Section spec.
Context {St : Type} `{OA : !ObjAlloc St} (Hsz : oa_size_ok SIZEOF_RADIX_NODE).
Implicit Types s : rstate St.

(** What the operations keep of the allocator: the nodes are live objects,
    [rv] requests are in reserve. *)
Definition memok (rv : nat) s : Prop :=
  exists L, (oa_live (r_mem s) L /\ oa_spare rv (r_mem s)) /\
    ((r_allocator s = NULL /\ r_nodes s = ∅) \/
     (r_allocator s <> NULL /\ exists X, L !! r_allocator s = Some X /\ forall a, is_Some (r_nodes s !! a) -> a ∈ X)).

Definition good (rv : nat) (pos : gmap Z (Z * Z)) s : Prop :=
  tree pos (rt_height (r_root s)) (r_nodes s) (rt_root_node (r_root s)) /\
  0 <= rt_height (r_root s) <= 5 /\ memok rv s.

(** ** Nodes *)

Lemma wp_get_node a n s (Q : radix_tree_node -> rstate St -> Prop) :
  r_nodes s !! a = Some n -> Q n s -> wp (get_node a) Q s.
Proof using Type. intros. unfold get_node. wp_run; done. Qed.

Lemma memok_le rv rv' s : (rv' <= rv)%nat -> memok rv s -> memok rv' s.
Proof using Type. intros Hle (L & [HL Hs] & H). exists L. split; [|done]. split; [done|]. by eapply spare_le. Qed.

Lemma good_le rv rv' pos s : (rv' <= rv)%nat -> good rv pos s -> good rv' pos s.
Proof using Type. intros Hle (T & HH & Hm). split; [done|]. split; [done|]. by eapply memok_le. Qed.

Lemma memok_nodes rv s N : memok rv s -> (forall a, is_Some (N !! a) -> is_Some (r_nodes s !! a)) ->
  memok rv (set_nodes N s).
Proof using Type.
  intros (L & HL & Hor) Hsub. exists L. split; [done|]. simpl. destruct Hor as [[-> E]|(? & X & HX & Hin)].
  - left. split; [done|]. apply map_eq. intros a. rewrite lookup_empty. apply eq_None_not_Some.
    intros ?%Hsub. rewrite E, lookup_empty in H. by destruct H.
  - right. split; [done|]. exists X. split; [done|]. auto.
Qed.

Lemma wp_node_create rv s :
  memok rv s ->
  wp radix_tree_node_create (fun b s' => memok (rv - 2) s' /\ r_root s' = r_root s /\
    ((b = NULL /\ (rv < 2)%nat /\ r_nodes s' = r_nodes s) \/
     (b <> NULL /\ r_nodes s !! b = None /\ r_nodes s' = <[b := fresh_node NULL]> (r_nodes s)))) s.
Proof using Hsz.
  intros (L & [HL Hsp] & Hor). unfold radix_tree_node_create. wp_step. wp_step. wp_step.
  (* after the allocator exists *)
  assert (Halloc : forall s1 L1 X, r_root s1 = r_root s -> r_nodes s1 = r_nodes s -> oa_live (r_mem s1) L1 -> oa_spare (rv - 1) (r_mem s1) ->
    r_allocator s1 <> NULL -> L1 !! r_allocator s1 = Some X -> (forall a, is_Some (r_nodes s1 !! a) -> a ∈ X) ->
    wp (na <- gets r_allocator;; node <- on_mem (oa_alloc na);;
        (if negb (node =? NULL) then put_node node (mkNode 0 NULL (replicate 64 NULL)) else ret tt);;
        ret node)
      (fun b s' => memok (rv - 2) s' /\ r_root s' = r_root s /\
        ((b = NULL /\ (rv < 2)%nat /\ r_nodes s' = r_nodes s) \/
         (b <> NULL /\ r_nodes s !! b = None /\ r_nodes s' = <[b := fresh_node NULL]> (r_nodes s)))) s1).
  { intros s1 L1 X Er En HL1 Hs1 Hna HX Hin. wp_step. wp_step. wp_step. unfold on_mem. wp_step.
    eapply wp_mono; [by eapply oa_alloc_uses|].
    intros b t (Ht & Hu & Hn). apply Hu in Hs1 as Hs2. replace (rv - 1 - 1)%nat with (rv - 2)%nat in Hs2 by lia.
    destruct Ht as [[-> Ht]|(Hb & HbX & Ht)]; wp_step.
    - simpl. wp_run. split; [|split; [done|left; split; [done|]; split; [|done]]].
      + exists L1. split; [done|]. right. split; [done|]. by exists X.
      + pose proof (Hn eq_refl _ Hs1). lia.
    - destruct (Z.eqb_spec b NULL); [done|]. simpl. unfold put_node. wp_run.
      assert (Hbn : r_nodes s1 !! b = None) by (apply eq_None_not_Some; intros ?%Hin; done).
      split; [|split; [done|right; split; [done|]; split; [by rewrite <- En|]; simpl; by rewrite En]].
      exists (<[r_allocator s1 := {[b]} ∪ X]> L1). split; [done|]. simpl. right. split; [done|].
      exists ({[b]} ∪ X). rewrite lookup_insert_eq. split; [done|]. intros a. rewrite lookup_insert.
      case_decide; [set_solver|]. intros ?%Hin. set_solver. }
  destruct Hor as [[E En]|(Hna & X & HX & Hin)].
  - rewrite E, Z.eqb_refl. wp_step. unfold on_mem. wp_step.
    eapply wp_mono; [by eapply oa_create_uses|]. intros c t ((L' & HL' & Hc) & Hu & Hn). apply Hu in Hsp as Hs1. wp_step. wp_step. wp_step.
    destruct Hc as [[-> ->]|(Hc & HLc & ->)].
    + simpl. wp_step. pose proof (Hn eq_refl _ Hsp). split; [exists L; split; [split; [done|]; eapply spare_le; [|exact Hs1]; lia|]; left; done|].
      split; [done|]. left. split; [done|]. split; [lia|done].
    + destruct (Z.eqb_spec c NULL); [done|]. simpl. apply (Halloc _ (<[c := ∅]> L) ∅); try done.
      * simpl. apply lookup_insert_eq.
      * simpl. intros a. rewrite En, lookup_empty. by intros [? ?].
  - destruct (Z.eqb_spec (r_allocator s) NULL); [done|]. wp_step. apply (Halloc s L X); try done. eapply spare_le; [|exact Hsp]. lia.
Qed.

Definition link_child (a b : Z) (n bn : radix_tree_node) (j : Z) (N : gmap Z radix_tree_node) :=
  <[b := mkNode (rn_count bn) a (rn_slots bn)]> (<[a := with_slot n 1 j b]> N).

(** Both uses of [radix_tree_add_child] on an empty slot. *)
Lemma wp_add_child_node s a b n bn j (Q : Z -> rstate St -> Prop) :
  a <> NULL -> b <> NULL -> a <> b -> 0 <= j < 64 ->
  r_nodes s !! a = Some n -> r_nodes s !! b = Some bn ->
  rn_slots n !! Z.to_nat j = Some NULL -> rn_count n < 64 ->
  Q ERR_OK (set_nodes (link_child a b n bn j (r_nodes s)) s) ->
  wp (radix_tree_add_child a j b true) Q s.
Proof using Type.
  intros Ha Hb Hab Hj Hn Hbn Hs Hc HQ. unfold radix_tree_add_child.
  wp_step. wp_step; [by apply nonnull_true|]. wp_step. wp_step; [by apply nonnull_true|].
  wp_step. eapply wp_get_node; [done|]. wp_step. wp_step; [done|]. simpl.
  wp_step. unfold put_node. wp_step. wp_step. wp_step; [apply Z.leb_le; unfold RADIX_TREE_WIDTH; lia|].
  wp_step. wp_step. eapply wp_get_node; [simpl; rewrite lookup_insert_ne by done; done|].
  wp_step. wp_step. simpl. done.
Qed.

Lemma wp_add_child_leaf s a leaf n j old (Q : Z -> rstate St -> Prop) :
  a <> NULL -> leaf <> NULL -> r_nodes s !! a = Some n -> rn_slots n !! Z.to_nat j = Some old -> rn_count n <= 64 ->
  (old = NULL -> rn_count n < 64) ->
  (if old =? NULL then Q ERR_OK (set_nodes (<[a := with_slot n 1 j leaf]> (r_nodes s)) s)
   else Q ERR_RADIX_TREE_NODE_EXIST s) ->
  wp (radix_tree_add_child a j leaf false) Q s.
Proof using Type.
  intros Ha Hb Hn Hs Hc Hc' HQ. unfold radix_tree_add_child.
  wp_step. wp_step; [by apply nonnull_true|]. wp_step. wp_step; [by apply nonnull_true|].
  wp_step. eapply wp_get_node; [done|]. wp_step. wp_step; [done|].
  destruct (Z.eqb_spec old NULL) as [->|]; simpl; [|by wp_step].
  wp_step. unfold put_node. wp_step. wp_step. wp_step; [apply Z.leb_le; unfold RADIX_TREE_WIDTH; specialize (Hc' eq_refl); lia|].
  wp_step. wp_step. wp_step. done.
Qed.

(** ** Descending *)

Lemma count_room pos H N r a n j : tree pos H N r -> N !! a = Some n -> rn_slots n !! j = Some NULL ->
  rn_count n < 64.
Proof using Type.
  intros T Hn Hj. destruct (tr_node _ _ _ _ T _ _ Hn) as [Hl ->].
  pose proof (occupied_insert _ _ _ 1 Hj) as E. rewrite occ_null, occ_nonnull in E by done.
  pose proof (occupied_bounds (<[j := 1]> (rn_slots n))) as Hb. rewrite length_insert in Hb. lia.
Qed.

(** The answer of a descent that allocates nothing: the node of level 0 on
    the path, or NULL when there is none. *)
Definition found_parent (pos : gmap Z (Z * Z)) (idx a : Z) : Prop :=
  if a =? NULL then forall b, pos !! b <> Some (0, idx / 64) else pos !! a = Some (0, idx / 64).

Lemma prefix_0 idx : prefix idx 0 = idx / 64.
Proof using Type. unfold prefix. by rewrite Z.pow_1_r. Qed.

Lemma prefix_top idx h : 0 <= idx < 64 ^ h -> 0 < h -> prefix idx (h - 1) = 0.
Proof using Type. intros. unfold prefix. replace (h - 1 + 1) with h by lia. by apply Z.div_small. Qed.

Lemma digit_bound x : 0 <= x mod 64 < 64.
Proof using Type. apply Z.mod_pos_bound. lia. Qed.

Lemma wp_find_parent rv pos s idx (Q : Z -> rstate St -> Prop) :
  good rv pos s -> 0 < rt_height (r_root s) -> 0 <= idx < 64 ^ rt_height (r_root s) ->
  (forall a, found_parent pos idx a -> Q a s) ->
  wp (radix_tree_find_parent idx false) Q s.
Proof using Type.
  intros (T & HH & _) Hh Hi HQ. unfold radix_tree_find_parent. wp_step. wp_step.
  apply (wp_loop_ghost _ _ (fun k '(level, a) s' => s' = s /\ k = Z.to_nat (level + 1) /\ 0 <= level /\
    (if a =? NULL then forall b, pos !! b <> Some (0, idx / 64) else pos !! a = Some (level, prefix idx level))
    \/ (s' = s /\ k = 0%nat /\ level = -1 /\ a = NULL /\ forall b, pos !! b <> Some (0, idx / 64)))
    _ (Z.to_nat (rt_height (r_root s)))); [|left|lia].
  - intros k [level a] s' Hinv. assert (s' = s) as -> by tauto.
    destruct ((0 <? level) && nonnull a) eqn:Ec.
    + apply andb_true_iff in Ec as [Hl Ha0]. apply Z.ltb_lt in Hl. unfold nonnull in Ha0.
      destruct Hinv as [(_ & Hk & _ & Ha)|(_ & _ & ? & _)]; [|lia].
      destruct (Z.eqb_spec a NULL) as [|Hnn]; [done|].
      destruct (tr_lookup T _ _ Ha) as (n & Hn & Hlen & _). wp_step. eapply wp_get_node; [done|].
      rewrite level_index_spec by lia.
      destruct (tr_slot T a n ((idx / 64 ^ level) mod 64) Hn (digit_bound _)) as [c Hc].
      wp_step. wp_step; [done|]. rewrite andb_false_r. wp_step.
      exists (Z.to_nat level). split; [lia|]. left. split; [done|]. split; [lia|]. split; [lia|].
      destruct (Z.eqb_spec c NULL) as [->|].
      * intros b. rewrite <- prefix_0. eapply (empty_slot T); [exact Ha|done|done|done|lia].
      * by eapply (path_child T).
    + wp_step. apply HQ. unfold found_parent. unfold nonnull in Ec.
      destruct Hinv as [(_ & _ & ? & Ha)|(_ & _ & _ & -> & Ha)]; [|by simpl].
      destruct (Z.eqb_spec a NULL); [done|]. destruct (Z.ltb_spec 0 level); [done|].
      assert (level = 0) as -> by lia. by rewrite prefix_0 in Ha.
  - split; [done|]. split; [lia|]. split; [lia|]. pose proof (tr_root _ _ _ _ T) as Hr.
    destruct (Z.eqb_spec (rt_height (r_root s)) 0); [lia|].
    pose proof (tr_nonnull _ _ _ _ T _ _ Hr). destruct (Z.eqb_spec (rt_root_node (r_root s)) NULL); [done|].
    by rewrite prefix_top.
Qed.

(** The descent of an insertion: it creates the missing nodes, or gives up
    when memory runs out; the stored leaves do not change. *)
Lemma wp_find_parent_alloc rv pos s idx :
  good rv pos s -> 0 < rt_height (r_root s) -> 0 <= idx < 64 ^ rt_height (r_root s) ->
  wp (radix_tree_find_parent idx true) (fun a s' => r_root s' = r_root s /\ exists pos', good (rv - 10) pos' s' /\
    (forall i v, leaf_at pos' (r_nodes s') i v <-> leaf_at pos (r_nodes s) i v) /\
    ((a = NULL /\ (rv < 10)%nat) \/ pos' !! a = Some (0, idx / 64))) s.
Proof using Hsz.
  intros G0 Hh Hi. unfold radix_tree_find_parent. wp_step. wp_step.
  apply (wp_loop_ghost _ _ (fun k '(level, a) s' => r_root s' = r_root s /\ k = Z.to_nat level /\ 0 <= level /\
    level < rt_height (r_root s) /\ exists pos', good (rv - 2 * Z.to_nat (rt_height (r_root s) - 1 - level)) pos' s' /\ (forall i v, leaf_at pos' (r_nodes s') i v <-> leaf_at pos (r_nodes s) i v) /\
      pos' !! a = Some (level, prefix idx level)) _ (Z.to_nat (rt_height (r_root s) - 1))).
  - intros k [level a] s' (Er & -> & Hl & Hlh & pos' & G & HL & Ha). pose proof G as (T & HH & Hm).
    assert (H5 : rt_height (r_root s) <= 5) by (rewrite <- Er; lia). assert (Ha0 : a <> NULL) by (by eapply (tr_nonnull _ _ _ _ T)).
    rewrite nonnull_true, andb_true_r by done. destruct (Z.ltb_spec 0 level) as [Hl1|Hl1].
    + destruct (tr_lookup T _ _ Ha) as (n & Hn & Hlen & _). wp_step. eapply wp_get_node; [done|].
      rewrite level_index_spec by lia. set (j := (idx / 64 ^ level) mod 64).
      assert (Hj : 0 <= j < 64) by apply digit_bound.
      destruct (tr_slot T a n j Hn Hj) as [c Hc]. wp_step. wp_step; [done|]. rewrite andb_true_r.
      destruct (Z.eqb_spec c NULL) as [->|Hc0].
      * wp_step. eapply wp_mono; [by eapply wp_node_create|].
        intros b s1 (Hm1 & Er1 & [(-> & Hrel & En)|(Hb & Hbn & En)]).
        { simpl. wp_step. split; [congruence|]. exists pos'. rewrite En. split; [|split; [done|]; left; split; [done|lia]].
          split; [by rewrite Er1, En|]. rewrite Er1. split; [done|]. eapply memok_le; [|exact Hm1]. lia. }
        destruct (Z.eqb_spec b NULL); [done|]. wp_step.
        assert (Hab : a <> b) by (intros ->; congruence).
        assert (Hna : r_nodes s1 !! a = Some n) by (by rewrite En, lookup_insert_ne).
        apply (wp_add_child_node s1 a b n (fresh_node NULL) j); try done.
        { rewrite En. apply lookup_insert_eq. }
        { eapply count_room; [exact T|done|done]. }
        wp_step. assert (El : link_child a b n (fresh_node NULL) j (r_nodes s1) =
                           <[b := fresh_node a]> (<[a := with_slot n 1 j b]> (r_nodes s'))).
        { unfold link_child. rewrite En. rewrite (insert_insert_ne _ a b) by done. by rewrite insert_insert_eq. }
        exists (Z.to_nat (level - 1)). split; [lia|]. simpl. split; [congruence|]. split; [done|]. split; [lia|]. split; [lia|].
        exists (<[b := (level - 1, prefix idx level * 64 + j)]> pos'). rewrite El.
        split; [split; [|split]|split].
        -- simpl. rewrite Er1. by apply (tree_add_inner T a b level (prefix idx level) j n).
        -- simpl. by rewrite Er1.
        -- rewrite <- El. apply memok_nodes; [eapply memok_le; [|exact Hm1]; lia|]. intros d. unfold link_child. rewrite !lookup_insert.
           repeat case_decide; subst; try done; intros _;
             first [by rewrite En, lookup_insert_eq|by rewrite Hna].
        -- intros i v. simpl. rewrite (leaf_add_inner T a b level (prefix idx level) j n); done.
        -- rewrite lookup_insert_eq. by rewrite prefix_digit.
      * wp_step. exists (Z.to_nat (level - 1)). split; [lia|]. split; [done|]. split; [done|]. split; [lia|]. split; [lia|].
        exists pos'. split; [eapply good_le; [|done]; lia|]. split; [done|]. by eapply (path_child T).
    + wp_step. split; [done|]. exists pos'. split; [eapply good_le; [|done]; lia|]. split; [done|]. right.
      assert (level = 0) as -> by lia. by rewrite prefix_0 in Ha.
  - split; [done|]. split; [done|]. split; [lia|]. split; [lia|]. exists pos. split; [eapply good_le; [|done]; lia|]. split; [done|].
    destruct G0 as (T & _). pose proof (tr_root _ _ _ _ T) as Hr.
    destruct (Z.eqb_spec (rt_height (r_root s)) 0); [lia|]. by rewrite prefix_top.
  - lia.
Qed.

(** ** Adding levels *)

Lemma wp_add_level rv pos s :
  good rv pos s -> rt_height (r_root s) < 5 ->
  wp radix_tree_add_level (fun e s' => exists pos', good (rv - 2) pos' s' /\
    (forall i v, leaf_at pos' (r_nodes s') i v <-> leaf_at pos (r_nodes s) i v) /\
    ((e = ERR_OK /\ rt_height (r_root s') = rt_height (r_root s) + 1) \/
     (e = ERR_RADIX_TREE_ALLOC /\ (rv < 2)%nat /\ rt_height (r_root s') = rt_height (r_root s)))) s.
Proof using Hsz.
  intros (T & HH & Hm) Hh. unfold radix_tree_add_level. wp_step.
  eapply wp_mono; [by eapply wp_node_create|].
  intros b s1 (Hm1 & Er1 & [(-> & Hrel & En)|(Hb & Hbn & En)]).
  { simpl. wp_step. exists pos. rewrite En. split; [split; [by rewrite Er1, En|by rewrite Er1]|].
    split; [done|]. right. by rewrite Er1. }
  destruct (Z.eqb_spec b NULL); [done|]. wp_step. wp_step. rewrite Er1.
  set (h := rt_height (r_root s)) in *. set (r := rt_root_node (r_root s)) in *.
  pose proof (tr_root _ _ _ _ T) as Hr.
  assert (Hfin : forall N', (forall a, is_Some (N' !! a) -> is_Some (r_nodes s1 !! a)) ->
    N' = <[b := top_node (H := h) (r := r)]> (lowered (H := h) (N := r_nodes s) (r := r) b) ->
    wp (modify (set_root (mkRoot (h + 1) b));; ret ERR_OK) (fun e s' => exists pos', good (rv - 2) pos' s' /\
      (forall i v, leaf_at pos' (r_nodes s') i v <-> leaf_at pos (r_nodes s) i v) /\
      ((e = ERR_OK /\ rt_height (r_root s') = h + 1) \/
       (e = ERR_RADIX_TREE_ALLOC /\ (rv < 2)%nat /\ rt_height (r_root s') = h))) (set_nodes N' s1)).
  { intros N' Hsub ->. wp_run. exists (<[b := (h, 0)]> pos). split; [split; [|split]|split; [|auto]].
    - simpl. apply (tree_add_level T b Hbn Hb). lia.
    - simpl. lia.
    - by apply (memok_nodes _ s1).
    - intros i v. simpl. apply (leaf_add_level T b Hbn Hb). lia. }
  destruct (Z.eqb_spec r NULL) as [E|E].
  - simpl. wp_step. wp_step. replace s1 with (set_nodes (r_nodes s1) s1) by (by destruct s1).
    apply Hfin; [done|]. rewrite En. destruct (Z.eqb_spec h 0) as [Eh|].
    + destruct (level_empty T b Hbn Hb ltac:(lia) Eh) as [_ EN].
      unfold top_node, lowered. rewrite EN, lookup_empty, Eh. done.
    + by pose proof (tr_nonnull _ _ _ _ T _ _ Hr).
  - simpl. destruct (Z.eqb_spec h 0) as [Eh|]; [done|]. destruct (tr_lookup T _ _ Hr) as (rn & Hrn & _).
    assert (Hrb : b <> r) by (intros E'; rewrite E' in Hbn; congruence).
    wp_step. wp_step.
    apply (wp_add_child_node s1 b r (fresh_node NULL) rn 0); try done; [by rewrite En, lookup_insert_eq| |].
    { rewrite En, lookup_insert_ne by done. done. }
    wp_step. apply Hfin.
    + intros a. unfold link_child. rewrite !lookup_insert. repeat case_decide; subst; try done; intros _;
        first [by rewrite En, lookup_insert_eq|rewrite En, lookup_insert_ne by done; by rewrite Hrn].
    + unfold link_child, lowered, top_node. rewrite En, Hrn. destruct (Z.eqb_spec h 0); [done|].
      rewrite insert_insert_eq. by rewrite (insert_insert_ne _ r b) by done.
Qed.

(** ** lookup, insert, remove *)

Lemma rep_good rv m s : rep m s -> oa_spare rv (r_mem s) -> exists pos, good rv pos s /\
  forall idx v, 0 <= idx -> m !! idx = Some v <-> leaf_at pos (r_nodes s) idx v.
Proof using Type.
  intros [HH (pos & T & HL) _ (L & HLv & Hm)] Hs. exists pos. split; [|done]. split; [done|]. split; [done|]. by exists L.
Qed.

Lemma good_rep rv m pos s : good rv pos s -> (forall idx v, m !! idx = Some v -> 0 <= idx) ->
  (forall idx v, 0 <= idx -> m !! idx = Some v <-> leaf_at pos (r_nodes s) idx v) -> rep m s.
Proof using Type. intros (T & HH & Hm) Hk HL. constructor; [done| |done|]; [by exists pos|]. destruct Hm as (L & [? _] & ?). by exists L. Qed.

Lemma good_spare rv pos s : good rv pos s -> oa_spare rv (r_mem s).
Proof using Type. by intros (_ & _ & L & [_ ?] & _). Qed.

(** Indices beyond the height of the tree have no leaf. *)
Lemma leaf_in_range rv pos s idx v : good rv pos s -> 0 <= idx -> leaf_at pos (r_nodes s) idx v ->
  0 < rt_height (r_root s) /\ idx < 64 ^ rt_height (r_root s).
Proof using Type.
  intros (T & HH & _) Hi (a & n & Ha & _). destruct (tr_pos _ _ _ _ T _ _ _ Ha) as [Hl Hp].
  split; [lia|]. rewrite Z.sub_0_r in Hp. pose proof (Z.div_mod idx 64). pose proof (digit_bound idx).
  replace (rt_height (r_root s)) with (rt_height (r_root s) - 1 + 1) by lia.
  rewrite Z.pow_add_r, Z.pow_1_r by lia. lia.
Qed.

(** A stored index is within the height of the tree. *)
Lemma rep_in_range m s idx v : rep m s -> m !! idx = Some v -> idx < 64 ^ rt_height (r_root s).
Proof using Type.
  intros R Hv. destruct (rep_good 0 _ _ R (spare_0 _)) as (pos & G & HL). pose proof (rp_keys _ _ R _ _ Hv).
  eapply leaf_in_range; [exact G|done|]. by apply HL.
Qed.

Lemma leaf_index_spec idx : radix_tree_leaf_index idx = idx mod 64.
Proof using Type. unfold radix_tree_leaf_index. by rewrite level_index_spec, Z.pow_0_r, Z.div_1_r. Qed.

Lemma wp_lookup m s idx :
  rep m s -> 0 <= idx ->
  wp (radix_tree_lookup idx) (fun v s' => s' = s /\ v = default NULL (m !! idx)) s.
Proof using Type.
  intros R Hi. destruct (rep_good 0 _ _ R (spare_0 _)) as (pos & G & HL). pose proof G as (T & HH & _).
  unfold radix_tree_lookup. wp_step. wp_step. rewrite max_index_spec by done.
  assert (Hnone : (forall v, ~ leaf_at pos (r_nodes s) idx v) -> m !! idx = None).
  { intros Hno. apply eq_None_not_Some. intros [v Hv]. by eapply Hno, HL. }
  destruct ((0 <? _) && _) eqn:Ec; simpl.
  - apply andb_true_iff in Ec as [H1%Z.ltb_lt H2%Z.ltb_lt].
    wp_step. apply (wp_find_parent 0 pos); [done|done|lia|]. intros a Ha. unfold found_parent in Ha.
    destruct (Z.eqb_spec a NULL).
    + wp_step. split; [done|]. rewrite Hnone; [done|]. intros v (b & n' & Hb & _). by eapply Ha.
    + wp_step. destruct (tr_lookup T _ _ Ha) as (n' & Hn & _). eapply wp_get_node; [done|].
      rewrite leaf_index_spec. destruct (tr_slot T a n' (idx mod 64) Hn (digit_bound _)) as [v Hv].
      wp_step; [done|]. split; [done|]. destruct (decide (v = NULL)) as [->|Hv0].
      * rewrite Hnone; [done|]. intros w (b & n2 & Hb & Hn2 & Hw & Hw0).
        assert (b = a) as -> by (by eapply (tr_inj _ _ _ _ T)). congruence.
      * assert (m !! idx = Some v) as -> by (apply HL; [done|]; by exists a, n'). done.
  - wp_step. split; [done|]. rewrite Hnone; [done|]. intros v Hl.
    destruct (leaf_in_range _ _ _ _ _ G Hi Hl) as [H1 H2]. apply andb_false_iff in Ec as [E|E]; apply Z.ltb_ge in E; lia.
Qed.

(** The result of an insertion. *)
Definition insert_post (m : gmap Z Z) (idx leaf e : Z) (m' : gmap Z Z) : Prop :=
  (e = ERR_OK /\ m !! idx = None /\ m' = <[idx := leaf]> m) \/
  (e = ERR_RADIX_TREE_NODE_EXIST /\ is_Some (m !! idx) /\ m' = m) \/
  (e = ERR_RADIX_TREE_ALLOC /\ m' = m).

Lemma height_enough h idx : 0 <= h <= 5 -> 0 <= idx < 2 ^ 30 -> 64 ^ h <= idx -> h < 5.
Proof using Type.
  intros Hh Hi Hge. destruct (decide (h = 5)) as [->|]; [|lia]. change (64 ^ 5) with (2 ^ 30) in Hge. lia.
Qed.

(** The first loop of an insertion. *)
Lemma wp_grow rv pos s idx fuel :
  good rv pos s -> 0 <= idx < 2 ^ 30 -> (6 < fuel)%nat ->
  wp (loop fuel (fun _ =>
        root <- gets r_root;;
        if radix_tree_max_index root <? idx then
          e <- radix_tree_add_level;;
          if negb (e =? ERR_OK) then ret (inr false) else ret (inl tt)
        else ret (inr true)) tt)
    (fun ok s' => exists pos', good (rv - 10) pos' s' /\
      (forall i v, leaf_at pos' (r_nodes s') i v <-> leaf_at pos (r_nodes s) i v) /\
      (ok = true -> 0 < rt_height (r_root s') /\ idx < 64 ^ rt_height (r_root s')) /\ (ok = false -> (rv < 10)%nat)) s.
Proof using Hsz.
  intros G Hi Hf. pose proof G as (_ & HH0 & _).
  apply (wp_loop_ghost _ _ (fun k _ s' => k = Z.to_nat (5 - rt_height (r_root s')) /\ rt_height (r_root s) <= rt_height (r_root s') /\
     exists pos', good (rv - 2 * Z.to_nat (rt_height (r_root s') - rt_height (r_root s))) pos' s' /\
     (forall i v, leaf_at pos' (r_nodes s') i v <-> leaf_at pos (r_nodes s) i v))
     _ (Z.to_nat (5 - rt_height (r_root s)))).
  - intros k _ s1 (-> & Hge & pos1 & G1 & HL1). pose proof G1 as (T1 & HH1 & _). wp_step. wp_step.
    rewrite max_index_spec by lia. destruct ((0 <? _) && _) eqn:Ec; simpl.
    + wp_step. exists pos1. split; [eapply good_le; [|done]; lia|]. split; [done|]. split; [|done]. intros _.
      by apply andb_true_iff in Ec as [H1%Z.ltb_lt H2%Z.ltb_lt].
    + assert (Hlt : rt_height (r_root s1) < 5).
      { apply andb_false_iff in Ec as [E|E]; apply Z.ltb_ge in E; [lia|]. by eapply height_enough. }
      wp_step. eapply wp_mono; [by eapply (wp_add_level _ pos1)|].
      intros e s2 (pos2 & G2 & HL2 & [[-> E2]|(-> & Hrel & E2)]); simpl; wp_step.
      * exists (Z.to_nat (5 - rt_height (r_root s2))). split; [lia|]. split; [done|]. split; [lia|]. exists pos2. split; [eapply good_le; [|done]; lia|].
        intros. by rewrite HL2.
      * exists pos2. split; [eapply good_le; [|done]; lia|]. split; [intros; by rewrite HL2|]. split; [done|]. intros _. lia.
  - split; [done|]. split; [done|]. exists pos. split; [eapply good_le; [|done]; lia|done].
  - destruct G as (_ & ? & _). lia.
Qed.

Lemma wp_insert_spare rv m s idx leaf fuel :
  rep m s -> oa_spare rv (r_mem s) -> 0 <= idx < 2 ^ 30 -> leaf <> NULL -> (6 < fuel)%nat ->
  wp (radix_tree_insert fuel idx leaf) (fun e s' => exists m', insert_post m idx leaf e m' /\ rep m' s' /\
    oa_spare (rv - 20) (r_mem s') /\ (e = ERR_RADIX_TREE_ALLOC -> (rv < 20)%nat)) s.
Proof using Hsz.
  intros R Hsp Hi Hleaf Hf. destruct (rep_good _ _ _ R Hsp) as (pos & G & HL). pose proof (rp_keys _ _ R) as Hkeys.
  unfold radix_tree_insert. wp_step. wp_step; [by apply nonnull_true|]. wp_step.
  eapply wp_mono; [by eapply (wp_grow _ pos)|]. intros ok s1 (pos1 & G1 & HL1 & Hok & Hrel).
  assert (Hsame : forall rv2 pos2 s2, good rv2 pos2 s2 ->
    (forall i v, leaf_at pos2 (r_nodes s2) i v <-> leaf_at pos1 (r_nodes s1) i v) -> rep m s2 /\ oa_spare rv2 (r_mem s2)).
  { intros rv2 pos2 s2 G2 HL2. split; [|by eapply good_spare]. apply (good_rep rv2 m pos2); [done|done|]. intros. by rewrite HL2, HL1, HL. }
  destruct ok.
  2: { wp_step. exists m. split; [right; right; done|]. destruct (Hsame _ pos1 s1 G1 ltac:(done)) as [HR Hs1].
       split; [exact HR|]. split; [eapply spare_le; [|exact Hs1]; lia|]. intros _. pose proof (Hrel eq_refl). lia. }
  destruct (Hok eq_refl) as [Hh Hlt]. wp_step. eapply wp_mono; [eapply (wp_find_parent_alloc _ pos1); [done|done|lia]|].
  intros a s2 (Er2 & pos2 & G2 & HL2 & Ha). destruct (Z.eqb_spec a NULL) as [|Ha0].
  { wp_step. exists m. split; [right; right; done|]. destruct (Hsame _ pos2 s2 G2 HL2) as [HR Hs2]. split; [exact HR|].
    split; [eapply spare_le; [|exact Hs2]; lia|]. intros _. destruct Ha as [[_ ?]|Ha]; [lia|].
    destruct G2 as (T2 & _). by destruct (tr_nonnull _ _ _ _ T2 _ _ Ha). }
  destruct Ha as [[? _]|Ha]; [done|]. pose proof G2 as (T2 & HH2 & Hm2).
  destruct (tr_lookup T2 _ _ Ha) as (n & Hn & Hlen & Hcnt). rewrite leaf_index_spec.
  destruct (tr_slot T2 a n (idx mod 64) Hn (digit_bound _)) as [old Hold].
  assert (Hidx : idx = idx / 64 * 64 + idx mod 64) by (pose proof (Z.div_mod idx 64); lia).
  assert (Hleafat : forall v, m !! idx = Some v <-> old = v /\ v <> NULL).
  { intros v. rewrite HL, <- HL1, <- HL2 by lia. split.
    - intros (b & n' & Hb & Hn' & Hv & Hv0). assert (b = a) as -> by (by eapply (tr_inj _ _ _ _ T2)).
      split; [congruence|done].
    - intros [-> Hv0]. by exists a, n. }
  wp_step. apply (wp_add_child_leaf s2 a leaf n (idx mod 64) old); try done.
  { rewrite Hcnt. pose proof (occupied_bounds (rn_slots n)). lia. }
  { intros ->. by eapply count_room. }
  destruct (Z.eqb_spec old NULL) as [->|Hold0]; simpl; wp_step.
  - exists (<[idx := leaf]> m). split; [left; split; [done|]; split; [|done]|split; [|split; [|done]]].
    3: { simpl. eapply spare_le; [|by eapply good_spare]. lia. }
    { apply eq_None_not_Some. intros [v Hv]. apply Hleafat in Hv. naive_solver. }
    assert (Hk : 1 = occ leaf - occ NULL) by (by rewrite occ_null, occ_nonnull).
    apply (good_rep (rv - 10 - 10) _ pos2).
    + split; [|split; [done|]].
      * by apply (tree_set_leaf T2 a (idx / 64) (idx mod 64) leaf NULL 1 n Ha Hn (digit_bound _) Hold Hk).
      * apply memok_nodes; [done|]. intros c. rewrite lookup_insert. case_decide; [subst; by rewrite Hn|done].
    + intros i v. rewrite lookup_insert. case_decide; [intros _; lia|]. apply Hkeys.
    + intros i v Hi0. simpl.
      rewrite (leaf_set_leaf T2 a (idx / 64) (idx mod 64) leaf NULL 1 n Ha Hn (digit_bound _) Hold Hk).
      rewrite <- Hidx, lookup_insert. destruct (decide (idx = i)) as [<-|].
      * rewrite decide_True by done. split; [by intros [= <-]|by intros [-> _]].
      * rewrite decide_False by done. by rewrite HL2, HL1, HL.
  - exists m. destruct (Hsame _ pos2 s2 G2 HL2) as [HR Hs2]. split; [|split; [done|]; split; [eapply spare_le; [|exact Hs2]; lia|done]]. right. left. split; [done|]. split; [|done].
    exists old. by apply Hleafat.
Qed.

Lemma wp_insert m s idx leaf fuel :
  rep m s -> 0 <= idx < 2 ^ 30 -> leaf <> NULL -> (6 < fuel)%nat ->
  wp (radix_tree_insert fuel idx leaf) (fun e s' => exists m', insert_post m idx leaf e m' /\ rep m' s') s.
Proof using Hsz. intros. eapply wp_mono; [apply (wp_insert_spare 0); [done|apply spare_0|done..]|]. intros e s' (m' & ? & ? & _). by exists m'. Qed.

(** The state of the removal loop at [(level, a)]: once the slot of [a] on
    the path of [idx] is cleared, the nodes form a tree that stores what
    was stored without [idx]; past the root nothing is left. *)
Definition pruning (rv : nat) (root : radix_tree_root) (pos : gmap Z (Z * Z)) (N : gmap Z radix_tree_node) (idx : Z)
    (k : nat) (x : Z * Z) s : Prop :=
  let '(level, a) := x in
  let H := rt_height root in
  r_root s = root /\ memok rv s /\ k = Z.to_nat (H - level) /\ 0 <= level <= H /\
  (level < H -> exists pos' n v, r_nodes s !! a = Some n /\ pos' !! a = Some (level, prefix idx level) /\
     rn_slots n !! Z.to_nat ((idx / 64 ^ level) mod 64) = Some v /\ v <> NULL /\
     let N' := <[a := with_slot n (-1) ((idx / 64 ^ level) mod 64) NULL]> (r_nodes s) in
     tree pos' H N' (rt_root_node root) /\
     forall i w, leaf_at pos' N' i w <-> leaf_at pos N i w /\ i <> idx) /\
  (level = H -> a = NULL /\ r_nodes s = ∅ /\ forall i w, leaf_at pos N i w -> i = idx).

(** Freeing a node of the tree. *)
Lemma wp_free_node {B} rv s a (b : B) (Q : B -> rstate St -> Prop) :
  memok rv s -> is_Some (r_nodes s !! a) ->
  (forall s', memok rv s' -> r_root s' = r_root s -> r_nodes s' = delete a (r_nodes s) -> Q b s') ->
  wp (na <- gets r_allocator;;
      on_mem (oa_free na a);;
      modify (fun s => set_nodes (delete a (r_nodes s)) s);;
      ret b) Q s.
Proof using All.
  intros (L & [HL Hsp] & Hor) Ha HQ. destruct Hor as [[_ E]|(Hna & X & HX & Hin)].
  { rewrite E, lookup_empty in Ha. by destruct Ha. }
  wp_step. wp_step. wp_step. unfold on_mem. wp_step. eapply wp_mono; [eapply oa_free_uses; [done|done|by apply Hin]|].
  intros [] t [Ht Hu]. apply Hu in Hsp. rewrite Nat.sub_0_r in Hsp. wp_run. apply HQ; [|done|done]. exists (<[r_allocator s := X ∖ {[a]}]> L). split; [done|].
  right. split; [done|]. exists (X ∖ {[a]}). simpl. rewrite lookup_insert_eq. split; [done|].
  intros c. rewrite lookup_delete. case_decide; [by intros [? ?]|]. intros ?%Hin. set_solver.
Qed.

Lemma pruning_start rv pos s idx a n v :
  good rv pos s -> 0 <= idx -> pos !! a = Some (0, idx / 64) -> r_nodes s !! a = Some n ->
  rn_slots n !! Z.to_nat (idx mod 64) = Some v -> v <> NULL ->
  pruning rv (r_root s) pos (r_nodes s) idx (Z.to_nat (rt_height (r_root s))) (0, a) s.
Proof using Type.
  intros (T & HH & Hm) Hi Ha Hn Hv Hv0. destruct (tr_pos _ _ _ _ T _ _ _ Ha) as [Hl _].
  split; [done|]. split; [done|]. split; [lia|]. split; [lia|]. split; [|lia].
  intros _. exists pos, n, v. rewrite prefix_0, Z.pow_0_r, Z.div_1_r. do 4 (split; [done|]).
  assert (Hk : -1 = occ NULL - occ v) by (by rewrite occ_null, occ_nonnull). split.
  - by apply (tree_set_leaf T a (idx / 64) (idx mod 64) NULL v (-1) n Ha Hn (digit_bound _) Hv Hk).
  - intros i w. rewrite (leaf_set_leaf T a (idx / 64) (idx mod 64) NULL v (-1) n Ha Hn (digit_bound _) Hv Hk).
    assert (Hidx : idx / 64 * 64 + idx mod 64 = idx) by (pose proof (Z.div_mod idx 64); lia).
    rewrite Hidx. case_decide; [|tauto]. subst. split; [by intros [_ ?]|by intros [_ ?]].
Qed.

Lemma wp_pruning_step rv root pos N idx k level a s :
  pruning rv root pos N idx k (level, a) s -> level < rt_height root -> 0 <= idx < 64 ^ rt_height root ->
  rt_height root <= 5 ->
  wp (let level_index := radix_tree_level_index idx level in
      kassert (nonnull a);;
      n <- get_node a;;
      v <- deref (rn_slots n !! Z.to_nat level_index);;
      kassert (nonnull v);;
      kassert (0 <? rn_count n);;
      put_node a (mkNode (rn_count n - 1) (rn_parent n) (<[Z.to_nat level_index := NULL]> (rn_slots n)));;
      if rn_count n - 1 =? 0 then
        na <- gets r_allocator;;
        on_mem (oa_free na a);;
        modify (fun s => set_nodes (delete a (r_nodes s)) s);;
        ret (inl (level + 1, rn_parent n))
      else ret (inr None))
    (fun r s' => match r with
       | inl l' => exists k', (k' < k)%nat /\ pruning rv root pos N idx k' l' s'
       | inr r => r = @None Z /\ exists pos', good rv pos' s' /\
           forall i w, leaf_at pos' (r_nodes s') i w <-> leaf_at pos N i w /\ i <> idx
       end) s.
Proof using All.
  intros (Er & Hm & -> & Hlev & Hlt & _) Hl Hi HH. destruct (Hlt Hl) as (pos' & n & v & Hn & Ha & Hv & Hv0 & T & HL).
  clear Hlt. cbv zeta in *. rewrite level_index_spec by lia. set (j := (idx / 64 ^ level) mod 64) in *.
  set (n1 := with_slot n (-1) j NULL) in *. set (N1 := <[a := n1]> (r_nodes s)) in *.
  assert (Hn1 : N1 !! a = Some n1) by apply lookup_insert_eq.
  destruct (tr_node _ _ _ _ T _ _ Hn1) as [_ Hc1]. simpl in Hc1.
  rewrite (occupied_insert _ _ _ _ Hv), occ_null, occ_nonnull in Hc1 by done.
  pose proof (occupied_pos _ _ _ Hv Hv0) as Hpos.
  wp_step. wp_step; [apply nonnull_true; by eapply (tr_nonnull _ _ _ _ T)|]. wp_step. eapply wp_get_node; [done|].
  wp_step. wp_step; [done|]. wp_step. wp_step; [by apply nonnull_true|]. wp_step. wp_step; [apply Z.ltb_lt; lia|].
  wp_step. unfold put_node. wp_step.
  set (s1 := set_nodes (<[a := mkNode (rn_count n - 1) (rn_parent n) (<[Z.to_nat j := NULL]> (rn_slots n))]> (r_nodes s)) s).
  assert (En1 : r_nodes s1 = N1) by done.
  assert (Hm1 : memok rv s1).
  { apply memok_nodes; [done|]. intros c. rewrite lookup_insert. case_decide; [subst; by rewrite Hn|done]. }
  destruct (Z.eqb_spec (rn_count n - 1) 0) as [Hz|Hnz].
  2: { wp_step. split; [done|]. exists pos'. split; [|by rewrite En1].
       split; [|split; [|done]]; simpl; rewrite Er; [exact T|lia]. }
  assert (Hemp : occupied (rn_slots n1) = 0).
  { destruct (tr_node _ _ _ _ T _ _ Hn1) as [_ <-]. simpl. lia. }
  apply (wp_free_node rv); [done|by rewrite En1, Hn1|]. intros s2 Hm2 Er2 En2. rewrite En1 in En2.
  exists (Z.to_nat (rt_height root - (level + 1))). split; [lia|].
  split; [by rewrite Er2|]. split; [done|]. split; [done|]. split; [lia|].
  change (rn_parent n) with (rn_parent n1).
  pose proof (tr_root _ _ _ _ T) as Hr. destruct (Z.eqb_spec (rt_height root) 0) as [|Hh0]; [lia|]. split.
  - intros Hl2. destruct (tr_parent _ _ _ _ T _ _ _ _ Ha ltac:(lia) Hn1) as (pn & Hpn & Hpp & Hsl).
    assert (Hpa : rn_parent n1 <> a) by (intros E; rewrite E, Ha in Hpp; injection Hpp as ? _; lia).
    rewrite prefix_up in Hpp by lia.
    exists (delete a pos'), pn, a. rewrite En2, !lookup_delete_ne by done. do 2 (split; [done|]).
    rewrite prefix_mod in Hsl by lia. split; [done|]. split; [by eapply (tr_nonnull _ _ _ _ T)|].
    rewrite <- (prefix_mod idx level) by lia. split.
    + by apply (tree_prune T a level (prefix idx level) n1 pn Ha Hn1 Hemp ltac:(lia) Hpn).
    + intros i w. rewrite (leaf_prune T a level (prefix idx level) n1 pn Ha Hn1 Hemp ltac:(lia) Hpn). apply HL.
  - intros Hl2. assert (Hra : a = rt_root_node root).
    { eapply (tr_inj _ _ _ _ T); [exact Ha|]. rewrite Hr. replace level with (rt_height root - 1) by lia.
      by rewrite prefix_top by lia. }
    split; [apply (tr_rootp _ _ _ _ T); by rewrite <- Hra|].
    assert (HN : delete a N1 = ∅) by (rewrite Hra in *; apply (empty_root T n1); [lia|done|done]).
    split; [by rewrite En2|]. intros i w Hiw. apply dec_stable. intros Hne.
    destruct (proj2 (HL i w) (conj Hiw Hne)) as (c & cn & Hc & Hcn & Hs & Hw).
    destruct (decide (c = a)) as [->|Hca].
    + rewrite Hn1 in Hcn. injection Hcn as <-. by pose proof (occupied_zero _ _ _ Hemp Hs).
    + rewrite <- (lookup_delete_ne N1 a c), HN, lookup_empty in Hcn by done. done.
Qed.

Lemma tree_empty : tree ∅ 0 ∅ NULL.
Proof using Type.
  constructor; try done; intros;
    match goal with E : ∅ !! _ = Some _ |- _ => by rewrite lookup_empty in E | _ => idtac end.
  by rewrite !lookup_empty.
Qed.

Lemma wp_remove_spare rv m s idx :
  rep m s -> oa_spare rv (r_mem s) -> 0 <= idx ->
  rt_height (r_root s) = 0 \/ idx < 64 ^ rt_height (r_root s) ->
  wp (radix_tree_remove idx) (fun v s' => v = default NULL (m !! idx) /\ rep (delete idx m) s' /\ oa_spare rv (r_mem s')) s.
Proof using All.
  intros R Hsp Hi Hor. destruct (rep_good _ _ _ R Hsp) as (pos & G & HL). pose proof G as (T & HH & Hm).
  pose proof (rp_keys _ _ R) as Hkeys. unfold radix_tree_remove.
  assert (Hnone : (forall v, ~ leaf_at pos (r_nodes s) idx v) -> m !! idx = None).
  { intros Hno. apply eq_None_not_Some. intros [v Hv]. by eapply Hno, HL. }
  assert (Hstay : m !! idx = None -> rep (delete idx m) s /\ oa_spare rv (r_mem s)) by (intros E; by rewrite delete_id).
  destruct (decide (rt_height (r_root s) = 0)) as [Hh0|Hh0].
  { assert (E : m !! idx = None).
    { apply Hnone. intros v Hl. destruct (leaf_in_range _ _ _ _ _ G Hi Hl). lia. }
    wp_step. unfold radix_tree_find_parent. wp_step. wp_step. rewrite Hh0. change (Z.to_nat 0) with 0%nat.
    cbn [loop]. wp_step. simpl. wp_step. wp_step.
    pose proof (tr_root _ _ _ _ T) as Hr. rewrite Hh0 in Hr. simpl in Hr. rewrite Hr. simpl. wp_step.
    split; [by rewrite E|auto]. }
  assert (Hlt : 0 <= idx < 64 ^ rt_height (r_root s)) by (destruct Hor; lia).
  wp_step. apply (wp_find_parent rv pos); [done|lia|done|]. intros a Ha. unfold found_parent in Ha.
  destruct (Z.eqb_spec a NULL) as [|Ha0].
  { assert (E : m !! idx = None) by (apply Hnone; intros v (b & n' & Hb & _); by eapply Ha).
    wp_step. split; [by rewrite E|auto]. }
  destruct (tr_lookup T _ _ Ha) as (n & Hn & _). wp_step. eapply wp_get_node; [done|].
  rewrite leaf_index_spec. destruct (tr_slot T a n (idx mod 64) Hn (digit_bound _)) as [v Hv].
  wp_step. wp_step; [done|]. destruct (Z.eqb_spec v NULL) as [->|Hv0].
  { assert (E : m !! idx = None).
    { apply Hnone. intros w (b & n2 & Hb & Hn2 & Hw & Hw0).
      assert (b = a) as -> by (by eapply (tr_inj _ _ _ _ T)). congruence. }
    wp_step. split; [by rewrite E|auto]. }
  assert (E : m !! idx = Some v) by (apply HL; [done|]; by exists a, n).
  rewrite E. change (default NULL (Some v)) with v.
  assert (Hdel : forall pos' s', good rv pos' s' ->
    (forall i w, 0 <= i -> leaf_at pos' (r_nodes s') i w <-> leaf_at pos (r_nodes s) i w /\ i <> idx) ->
    rep (delete idx m) s' /\ oa_spare rv (r_mem s')).
  { intros pos' s' G' HL'. split; [|by eapply good_spare]. apply (good_rep rv _ pos'); [done| |].
    - intros i w [_ ?]%lookup_delete_Some. by eapply Hkeys.
    - intros i w Hi0. rewrite lookup_delete_Some, HL', HL by done. naive_solver. }
  wp_step. wp_step. wp_step.
  apply (wp_loop_ghost _ _ (pruning rv (r_root s) pos (r_nodes s) idx)
           _ (Z.to_nat (rt_height (r_root s)))); [|by apply (pruning_start rv pos s idx a n v)|lia].
  intros k [level b] s1 P. destruct (Z.ltb_spec level (rt_height (r_root s))) as [Hl|Hl].
  - eapply wp_mono; [apply (wp_pruning_step _ _ _ _ _ _ _ _ _ P); [done|done|lia]|].
    intros [l'|r] s2; [done|]. intros (-> & pos' & G' & HL'). wp_step. split; [done|]. apply (Hdel pos'); [done|].
    intros. apply HL'.
  - destruct P as (Er & Hm1 & _ & Hlev & _ & Hend). destruct (Hend ltac:(lia)) as (-> & EN & Honly).
    wp_step. wp_step. wp_step; [done|]. wp_run. split; [done|]. apply (Hdel ∅).
    + split; [simpl; rewrite EN; apply tree_empty|]. split; [simpl; lia|]. done.
    + intros i w _. simpl. rewrite EN. split.
      * intros (c & cn & Hc & _). by rewrite lookup_empty in Hc.
      * intros [Hiw Hne]. by apply Honly in Hiw.
Qed.

Lemma wp_remove m s idx :
  rep m s -> 0 <= idx ->
  rt_height (r_root s) = 0 \/ idx < 64 ^ rt_height (r_root s) ->
  wp (radix_tree_remove idx) (fun v s' => v = default NULL (m !! idx) /\ rep (delete idx m) s') s.
Proof using All. intros. eapply wp_mono; [apply (wp_remove_spare 0); [done|apply spare_0|done..]|]. intros v s' (? & ? & _). done. Qed.
End spec.
