(* ===== verification/RadixTreeClaims.v ===== *)
(** * Claims about radix trees

    The map operations for every allocator that implements the interface,
    the instance for kmalloc.c, and two behaviours the code does not intend.
    The witnesses run on a simple allocator that never reuses an address. *)

From stdpp Require Import prelude list gmap.
From Stdlib Require Import ZArith Lia.
From S2P Require Import Prelude Mmu DList Kmalloc KmallocInv ObjAlloc KmallocSpec KmallocClaims RadixTree RadixTreeFacts RadixTreeSpec.
From S2P Require Import Bits Tiling Pmem PmemBuddy PmemSpec.

(** ** A simple allocator *)

Record bump := mkBump { bp_next : Z; bp_live : gmap Z (gset Z) }.

Definition bump_ok (s : bump) (L : live_map) : Prop :=
  bp_live s = L /\ 0 < bp_next s /\
  (forall c, is_Some (L !! c) -> c < bp_next s) /\
  (forall c X x, L !! c = Some X -> x ∈ X -> x < bp_next s).

#[export] Program Instance bump_objalloc : ObjAlloc bump := {|
  oa_create _ := fun s => Done (bp_next s, mkBump (bp_next s + 1) (<[bp_next s := ∅]> (bp_live s)));
  oa_alloc c := fun s => Done (bp_next s,
    mkBump (bp_next s + 1) (alter (fun X => {[bp_next s]} ∪ X) c (bp_live s)));
  oa_free c p := fun s => Done (tt, mkBump (bp_next s) (alter (fun X => X ∖ {[p]}) c (bp_live s)));
  oa_size_ok _ := True;
  oa_live := bump_ok
|}.
Next Obligation.
  intros s L size (<- & Hn & Hc & Hx) _. eapply wp_intro; [done|]. exists (<[bp_next s := ∅]> (bp_live s)). split.
  - split; [done|]. simpl. split; [lia|]. split.
    + intros c. rewrite lookup_insert. case_decide; [lia|]. intros ?%Hc. lia.
    + intros c X x. rewrite lookup_insert. case_decide; [intros [= <-]; set_solver|]. intros E Hin.
      pose proof (Hx _ _ _ E Hin). lia.
  - right. split; [unfold NULL; lia|]. split; [|done]. apply eq_None_not_Some. intros ?%Hc. lia.
Qed.
Next Obligation.
  intros s L c X (<- & Hn & Hc & Hx) HX. eapply wp_intro; [done|]. right. split; [unfold NULL; lia|].
  split; [intros Hin; pose proof (Hx _ _ _ HX Hin); lia|]. simpl. split; [|split; [simpl; lia|]].
  - simpl. apply map_eq. intros d. rewrite lookup_alter, lookup_insert. case_decide; [subst; by rewrite HX|done].
  - simpl. split.
    + intros d. rewrite lookup_insert. case_decide; [subst; intros _; assert (d < bp_next s) by (apply Hc; by rewrite HX); lia|].
      intros ?%Hc. lia.
    + intros d Y x. rewrite lookup_insert. case_decide; [subst; intros [= <-] [->%elem_of_singleton|Hin]%elem_of_union; [lia|]|].
      * pose proof (Hx _ _ _ HX Hin). lia.
      * intros E Hin. pose proof (Hx _ _ _ E Hin). lia.
Qed.
Next Obligation.
  intros s L c X p (<- & Hn & Hc & Hx) HX Hp. eapply wp_intro; [done|]. simpl. split; [|split; [done|]].
  - simpl. apply map_eq. intros d. rewrite lookup_alter, lookup_insert. case_decide; [subst; by rewrite HX|done].
  - simpl. split.
    + intros d. rewrite lookup_insert. case_decide; [subst; intros _; apply Hc; by rewrite HX|apply Hc].
    + intros d Y x. rewrite lookup_insert. case_decide; [subst; intros [= <-] [Hin _]%elem_of_difference; by eapply Hx|].
      intros E Hin. by eapply Hx.
Qed.

(** It always serves. *)
Lemma bump_spare n (s : bump) : oa_spare n s.
Proof.
  exists (fun _ _ => True). split; [|by exists n]. split; intros ? o L; intros; [| |eapply wp_mono; [by eapply oa_free_spec|done]];
    (eapply wp_intro; [done|]); match goal with H : oa_live o L |- _ => destruct H as (_ & Hn & _) end; unfold NULL; (split; [lia|done]).
Qed.

Lemma bump_size : oa_size_ok (St := bump) SIZEOF_RADIX_NODE.
Proof. exact I. Qed.

(** The empty tree, before any node was allocated. *)
Definition new_tree : rstate bump := mkR (mkRoot 0 NULL) ∅ NULL (mkBump 1 ∅).

Lemma new_tree_rep : rep ∅ new_tree.
Proof.
  constructor; simpl.
  - lia.
  - exists ∅. split; [apply tree_empty|]. intros idx v _. rewrite lookup_empty. split; [done|].
    intros (a & n & Ha & _). by rewrite lookup_empty in Ha.
  - by intros idx v ?%lookup_empty_Some.
  - exists ∅. split; [|by left]. split; [done|]. split; [simpl; lia|]. split.
    + intros c [? ?]. done.
    + intros c X x E. by rewrite lookup_empty in E.
Qed.

(** ** Claims *)

(** ([radix_tree_lookup]): returns the leaf stored at the index, or NULL
    when there is none, also for an index beyond the height of the tree. *)
Theorem radix_tree_lookup_spec {St} `{!ObjAlloc St} m (s : rstate St) idx :
  rep m s -> 0 <= idx ->
  wp (radix_tree_lookup idx) (fun v s' => s' = s /\ v = default NULL (m !! idx)) s.
Proof. apply wp_lookup. Qed.

Lemma radix_tree_lookup_spec_witness :
  wp (radix_tree_lookup 5) (fun v s' => s' = new_tree /\ v = NULL) new_tree.
Proof. exact (radix_tree_lookup_spec ∅ new_tree 5 new_tree_rep ltac:(lia)). Defined.

(** C39 ([radix_tree_insert]): for an index below 2^30 the levels the tree
    needs are added, the loop ends within seven rounds, and the insertion
    stores the leaf in an empty slot, or answers NODE_EXIST for an occupied
    one and ALLOC when memory runs out, in both cases with the stored map
    unchanged. *)
Theorem radix_tree_insert_spec {St} `{!ObjAlloc St} m (s : rstate St) idx leaf :
  oa_size_ok SIZEOF_RADIX_NODE -> rep m s -> 0 <= idx < 2 ^ 30 -> leaf <> NULL ->
  wp (radix_tree_insert 7 idx leaf) (fun e s' => exists m', insert_post m idx leaf e m' /\ rep m' s') s.
Proof. intros. by apply wp_insert; [..|lia]. Qed.

Lemma radix_tree_insert_spec_witness :
  wp (radix_tree_insert 7 70 9) (fun e s' => exists m', insert_post ∅ 70 9 e m' /\ rep m' s') new_tree.
Proof. apply (radix_tree_insert_spec ∅ new_tree 70 9 bump_size new_tree_rep); [lia|discriminate]. Defined.

(** ([radix_tree_remove]): for an index within the height of the tree
    the removal returns the leaf stored there (or NULL), deletes exactly that
    entry, frees the nodes that became empty and never fails one of its
    kasserts. *)
Theorem radix_tree_remove_spec {St} `{!ObjAlloc St} m (s : rstate St) idx :
  oa_size_ok SIZEOF_RADIX_NODE -> rep m s -> 0 <= idx ->
  rt_height (r_root s) = 0 \/ idx < 64 ^ rt_height (r_root s) ->
  wp (radix_tree_remove idx) (fun v s' => v = default NULL (m !! idx) /\ rep (delete idx m) s') s.
Proof. intros. by apply wp_remove. Qed.

Lemma radix_tree_remove_spec_witness :
  exists s e, radix_tree_insert 7 5 9 new_tree = Done (e, s) /\
    wp (radix_tree_remove 5) (fun v s' => v = 9 /\ rep (delete 5 ({[5 := 9]} : gmap Z Z)) s') s.
Proof.
  destruct (wp_elim _ _ _ (radix_tree_insert_spec ∅ new_tree 5 9 bump_size new_tree_rep ltac:(lia) ltac:(discriminate)))
    as (e & s & Hrun & m' & Hpost & Hrep).
  exists s, e. split; [exact Hrun|]. vm_compute in Hrun. injection Hrun as <- <-.
  destruct Hpost as [(_ & _ & ->)|[(E & _)|(E & _)]]; [|discriminate E..].
  apply (radix_tree_remove_spec (<[5 := 9]> ∅) _ 5 bump_size Hrep ltac:(lia)). right. vm_compute. reflexivity.
Defined.

(** [radix_tree_remove] does not check the index against the height.  In
    a tree that stores only index 0, removing index 64 returns and deletes
    the leaf of index 0. *)
Theorem radix_tree_remove_wraps_index :
  value_of ((e <- radix_tree_insert 7 0 9;;
             before <- radix_tree_lookup 64;;
             removed <- radix_tree_remove 64;;
             after <- radix_tree_lookup 0;;
             ret (e, before, removed, after)) new_tree) = Some (ERR_OK, NULL, 9, NULL).
Proof. vm_compute. reflexivity. Qed.

(** a tree emptied again is not always [radix_tree_empty].  An index of
    64 or more as the first insertion adds a level below the one that is used,
    and the node of that level is never freed. *)
Theorem radix_tree_empty_leak :
  value_of ((e <- radix_tree_insert 7 64 9;;
             removed <- radix_tree_remove 64;;
             l <- radix_tree_lookup 64;;
             empty <- radix_tree_empty;;
             ret (e, removed, l, empty)) new_tree) = Some (ERR_OK, 9, NULL, false).
Proof. vm_compute. reflexivity. Qed.

(** ** On kmalloc.c *)

Inductive radix_op : Set := OpInsert (idx leaf : Z) | OpLookup (idx : Z).

Definition radix_run (op : radix_op) : M (rstate kstate) Z :=
  match op with
  | OpInsert idx leaf => radix_tree_insert 7 idx leaf
  | OpLookup idx => radix_tree_lookup idx
  end.
Fixpoint radix_runs (ops : list radix_op) : M (rstate kstate) (list Z) :=
  match ops with
  | [] => ret []
  | op :: ops' => r <- radix_run op;; rs <- radix_runs ops';; ret (r :: rs)
  end.

(** The answers of the finite map. *)
Inductive map_step (m : gmap Z Z) : radix_op -> Z -> gmap Z Z -> Prop :=
| MSInsert idx leaf e m' : insert_post m idx leaf e m' -> map_step m (OpInsert idx leaf) e m'
| MSLookup idx : map_step m (OpLookup idx) (default NULL (m !! idx)) m.
Inductive map_steps : gmap Z Z -> list radix_op -> list Z -> gmap Z Z -> Prop :=
| MSnil m : map_steps m [] [] m
| MScons m op r m1 ops rs m2 : map_step m op r m1 -> map_steps m1 ops rs m2 -> map_steps m (op :: ops) (r :: rs) m2.

Definition op_ok (op : radix_op) : Prop :=
  match op with
  | OpInsert idx leaf => 0 <= idx < 2 ^ 30 /\ leaf <> NULL
  | OpLookup idx => 0 <= idx
  end.

Lemma kmalloc_radix_size : oa_size_ok (St := kstate) SIZEOF_RADIX_NODE.
Proof. simpl. unfold good_size, SIZEOF_RADIX_NODE. lia. Qed.

(** The requests that a sequence can take of the allocator. *)
Definition radix_cost (ops : list radix_op) : nat := (20 * length ops)%nat.

(** C9: a radix tree whose nodes come from the slab allocator is a finite
    map on the indices below 2^30.  For every sequence of insertions at such
    indices and of lookups no operation faults, diverges or fails a kassert, in
    the tree or in the allocators below it, and the answers are those of the map,
    where an insertion can also be refused for want of memory; none is refused
    when the allocator has 20 requests in reserve for every operation. *)
Theorem radix_tree_on_kmalloc ops : forall m (s : rstate kstate),
  rep m s -> Forall op_ok ops ->
  wp (radix_runs ops) (fun rs s' => (exists m', map_steps m ops rs m' /\ rep m' s') /\
    (oa_spare (radix_cost ops) (r_mem s) -> forall i idx leaf, ops !! i = Some (OpInsert idx leaf) -> rs !! i <> Some ERR_RADIX_TREE_ALLOC)) s.
Proof.
  intros m s R Hok. set (n := radix_cost ops). assert (Hmain : forall n, oa_spare n (r_mem s) ->
    wp (radix_runs ops) (fun rs s' => (exists m', map_steps m ops rs m' /\ rep m' s') /\
      ((radix_cost ops <= n)%nat -> forall i idx leaf, ops !! i = Some (OpInsert idx leaf) -> rs !! i <> Some ERR_RADIX_TREE_ALLOC)) s).
  2: { eapply wp_mono; [apply (wp_all _ _ (fun n => oa_spare n (r_mem s)) (fun n rs _ => (radix_cost ops <= n)%nat ->
         forall i idx leaf, ops !! i = Some (OpInsert idx leaf) -> rs !! i <> Some ERR_RADIX_TREE_ALLOC) s (Hmain 0%nat (spare_0 _)))|].
       - intros k Hk. eapply wp_mono; [by apply Hmain|]. by intros rs s' [_ ?].
       - intros rs s' [[H _] H2]. split; [done|]. intros Hs. by apply (H2 _ Hs). }
  clear n. revert m s R Hok. induction ops as [|op ops IH]; intros m s R Hok n Hn; simpl radix_runs.
  - wp_step. split; [exists m; split; [constructor|done]|]. intros _ i idx leaf. by rewrite lookup_nil.
  - apply Forall_cons in Hok as [Hop Hok]. wp_step.
    apply (wp_mono _ (fun r s' => (exists m', map_step m op r m' /\ rep m' s') /\ oa_spare (n - 20) (r_mem s') /\
      ((20 <= n)%nat -> forall idx leaf, op = OpInsert idx leaf -> r <> ERR_RADIX_TREE_ALLOC))).
    + destruct op as [idx leaf|idx]; simpl in *.
      * eapply wp_mono; [apply (wp_insert_spare kmalloc_radix_size n m); [done|done|apply Hop|apply Hop|lia]|].
        intros e s' (m' & ? & ? & ? & Hno). split; [exists m'; split; [by constructor|done]|]. split; [done|]. intros Hle _ _ _ ->. specialize (Hno eq_refl). lia.
      * eapply wp_mono; [by apply (wp_lookup m)|]. intros v s' [-> ->]. split; [exists m; split; [constructor|done]|]. split; [eapply spare_le; [|exact Hn]; lia|done].
    + intros r s1 ((m1 & Hstep & R1) & Hn1 & Hr). wp_step. eapply wp_mono; [by apply (IH m1 s1 R1 Hok (n - 20)%nat Hn1)|].
      intros rs s2 [(m2 & Hsteps & R2) Hall]. wp_step. split; [exists m2; split; [by eapply MScons|done]|].
      unfold radix_cost in *. cbn [length]. intros Hle [|i] idx leaf; cbn [lookup list_lookup].
      * intros [= ->]. intros [= E]. by apply (Hr ltac:(lia) idx leaf).
      * intros Hi. apply (Hall ltac:(lia) i idx leaf Hi).
Qed.

(** The witness: kmalloc.c on a machine with a free block. *)
Definition demo_radix (m : Z) : rstate kstate := mkR (mkRoot 0 NULL) ∅ NULL (demo_static m).

Lemma demo_radix_rep m : 0 <= m <= 500 -> rep ∅ (demo_radix m).
Proof.
  intros Hm. constructor; simpl.
  - lia.
  - exists ∅. split; [apply tree_empty|]. intros idx v _. rewrite lookup_empty. split; [done|].
    intros (a & n & Ha & _). by rewrite lookup_empty in Ha.
  - by intros idx v ?%lookup_empty_Some.
  - exists ∅. split; [by apply demo_static_live|by left].
Qed.

Lemma radix_tree_on_kmalloc_witness : exists rs s', radix_runs [OpInsert 3 7; OpLookup 3; OpInsert 3 8; OpLookup 4; OpInsert 100 9; OpLookup 100] (demo_radix 1) = Done (rs, s') /\
  rs = [ERR_OK; 7; ERR_RADIX_TREE_NODE_EXIST; NULL; ERR_OK; 9] /\
  exists m', map_steps ∅ [OpInsert 3 7; OpLookup 3; OpInsert 3 8; OpLookup 4; OpInsert 100 9; OpLookup 100] rs m'.
Proof.
  destruct (wp_elim _ _ _ (radix_tree_on_kmalloc [OpInsert 3 7; OpLookup 3; OpInsert 3 8; OpLookup 4; OpInsert 100 9; OpLookup 100] ∅ (demo_radix 1)
    (demo_radix_rep 1 ltac:(lia)) ltac:(repeat (constructor; [simpl; (split; [lia|discriminate]) || lia|]); constructor))) as (rs & s' & E & (m' & H & _) & _).
  exists rs, s'. split; [exact E|]. split; [|by exists m'].
  assert (V : value_of (radix_runs [OpInsert 3 7; OpLookup 3; OpInsert 3 8; OpLookup 4; OpInsert 100 9; OpLookup 100] (demo_radix 1)) = Some rs) by (by rewrite E).
  vm_compute in V. injection V as <-. reflexivity.
Defined.

(** No height reaches an index from 2^30 on, for the shift of radix_tree_max_index
    wraps: the first loop of an insertion there adds levels without end. *)
Lemma radix_max_index_bound h a : radix_tree_max_index (mkRoot h a) < 2 ^ 30.
Proof.
  unfold radix_tree_max_index. cbn [rt_height]. destruct (h =? 0); [lia|]. change RADIX_TREE_WIDTH_POWER with 6.
  pose proof (Z.mod_pos_bound (6 * h) 32 ltac:(lia)). assert (Hle : (6 * h) mod 32 <= 30) by (pose proof (Z.div_mod (6 * h) 32 ltac:(lia)); lia).
  rewrite Z.shiftl_1_l. pose proof (Z.pow_le_mono_r 2 _ _ ltac:(lia) Hle). pose proof (pow2_pos ((6 * h) mod 32) ltac:(lia)).
  rewrite wraps_small by lia. lia.
Qed.
Example radix_index_too_big : radix_tree_insert 1000 (2 ^ 30) 7 (demo_radix 1) = Stop Diverge.
Proof. vm_compute. reflexivity. Qed.
