(* ===== verification/Trap.v ===== *)
(** * Trap handler table (kernel/trap.c)

    The registered handlers: a radix tree from interrupt numbers to entries
    with the device and the handler, both allocated by the slab allocator.  A
    handler is a function pointer; [trap_invoke_handler] returns the call it
    makes. *)

From stdpp Require Import prelude list gmap.
From Stdlib Require Import ZArith Lia.
From S2P Require Import Prelude DList ObjAlloc RadixTree RadixTreeSpec RadixTreeClaims.

Definition ERR_TRAP_REG_FAIL : Z := 1.
Definition ERR_TRAP_NOT_FOUND : Z := 2.

Record table_entry := mkTe { te_dev : Z; te_handler : Z }.

Record tst (R O : Type) := mkT {
  t_table : rstate R;
  t_lock : bool;
  t_entries : gmap Z table_entry;
  t_objs : O
}.
Arguments mkT {R O}.
Arguments t_table {R O}.
Arguments t_lock {R O}.
Arguments t_entries {R O}.
Arguments t_objs {R O}.

Section ops.
Context {R O : Type} `{!ObjAlloc R, !ObjAlloc O}.
Context (entry_allocator : Z).
Implicit Types s : tst R O.
Abbreviation TM := (M (tst R O)).

Definition on_table {A} (m : M (rstate R) A) : TM A :=
  zoom t_table (fun v s => mkT v (t_lock s) (t_entries s) (t_objs s)) m.
Definition on_tobjs {A} (m : M O A) : TM A :=
  zoom t_objs (fun v s => mkT (t_table s) (t_lock s) (t_entries s) v) m.
Definition set_entries (v : gmap Z table_entry) s : tst R O := mkT (t_table s) (t_lock s) v (t_objs s).
Definition set_tlock (v : bool) s : tst R O := mkT (t_table s) v (t_entries s) (t_objs s).

Definition lock_table : TM unit :=
  l <- gets t_lock;; if (l : bool) then stop Diverge else modify (set_tlock true).
Definition unlock_table : TM unit := modify (set_tlock false).
Definition get_entry (a : Z) : TM table_entry := o <- gets (fun s => t_entries s !! a);; deref o.

Definition trap_register_handler (irq dev handler : Z) : TM Z :=
  kassert (nonnull handler);;
  entry <- on_tobjs (oa_alloc entry_allocator);;
  if entry =? NULL then ret ERR_TRAP_REG_FAIL
  else
    modify (fun s => set_entries (<[entry := mkTe dev handler]> (t_entries s)) s);;
    lock_table;;
    err <- on_table (radix_tree_insert 7 irq entry);;
    unlock_table;;
    ret (if err =? ERR_OK then ERR_OK else ERR_TRAP_REG_FAIL).

Definition trap_unregister_handler (irq : Z) : TM Z :=
  lock_table;;
  entry <- on_table (radix_tree_lookup irq);;
  (if negb (entry =? NULL) then
     on_table (radix_tree_remove irq);;
     on_tobjs (oa_free entry_allocator entry);;
     modify (fun s => set_entries (delete entry (t_entries s)) s)
   else ret tt);;
  unlock_table;;
  ret (if negb (entry =? NULL) then ERR_OK else ERR_TRAP_NOT_FOUND).

(** The error code, and the handler called with its device. *)
Definition trap_invoke_handler (irq : Z) : TM (Z * option table_entry) :=
  lock_table;;
  entry <- on_table (radix_tree_lookup irq);;
  e <- (if negb (entry =? NULL) then e <- get_entry entry;; ret (Some e) else ret None);;
  unlock_table;;
  match e with
  | Some e => ret (ERR_OK, Some e)
  | None => ret (ERR_TRAP_NOT_FOUND, None)
  end.
End ops.

(** * Trap handler table: a finite map from interrupts to handlers *)

Section spec.
Context {R O : Type} `{!ObjAlloc R, !ObjAlloc O}.
Context (ec : Z).
Hypothesis Hsz : oa_size_ok (St := R) SIZEOF_RADIX_NODE.
Implicit Types s : tst R O.

(** The table holds the handlers of [T]: every entry of the tree is allocated,
    used once and live. *)
Record table (T : gmap Z table_entry) s : Prop := {
  tb_map : exists m, rep m (t_table s) /\
    (forall irq, T !! irq = m !! irq ≫= fun a => t_entries s !! a) /\
    (forall irq a, m !! irq = Some a -> a <> NULL /\ is_Some (t_entries s !! a)) /\
    (forall i j a, m !! i = Some a -> m !! j = Some a -> i = j);
  tb_lock : t_lock s = false;
  tb_objs : exists L X, oa_live (t_objs s) L /\ L !! ec = Some X /\ dom (t_entries s) ⊆ X
}.

Lemma wp_lock_table s (Q : unit -> tst R O -> Prop) : t_lock s = false -> Q tt (set_tlock true s) -> wp lock_table Q s.
Proof using Type. intros Hl HQ. unfold lock_table. wp_step. wp_step. rewrite Hl. by wp_step. Qed.

Lemma wp_register T s irq dev handler :
  table T s -> 0 <= irq < 2 ^ 30 -> handler <> NULL ->
  wp (trap_register_handler ec irq dev handler) (fun e s' => exists T', table T' s' /\
    ((e = ERR_OK /\ T !! irq = None /\ T' = <[irq := mkTe dev handler]> T) \/ (e = ERR_TRAP_REG_FAIL /\ T' = T))) s.
Proof using Hsz.
  intros [(m & Hrep & HT & Hnn & Hinj) Hl (L & X & HL & HX & Hsub)] Hi Hh. unfold trap_register_handler.
  wp_step. wp_step; [by apply nonnull_true|]. wp_step. unfold on_tobjs. wp_step.
  eapply wp_mono; [by eapply oa_alloc_spec|]. intros a o [[-> HL']|(Ha & HaX & HL')].
  { rewrite Z.eqb_refl. wp_step. exists T. split; [|by right]. split; [by exists m|done|]. by exists L, X. }
  rewrite (proj2 (Z.eqb_neq a NULL) Ha). wp_step. wp_step. wp_step. apply wp_lock_table; [done|]. wp_step.
  unfold on_table. wp_step. simpl.
  assert (Han : t_entries s !! a = None) by (apply not_elem_of_dom; intros Hd; by apply HaX, Hsub).
  assert (Hma : forall i b, m !! i = Some b -> b <> a).
  { intros i b Hb ->. destruct (Hnn _ _ Hb) as [_ [? ?]]. congruence. }
  eapply wp_mono; [apply (wp_insert Hsz m); [done|done|done|lia]|]. intros e t (m' & Hins & Hrep').
  wp_step. unfold unlock_table. wp_step. wp_step.
  assert (Hobjs : exists L0 X0, oa_live o L0 /\ L0 !! ec = Some X0 /\ dom (<[a := mkTe dev handler]> (t_entries s)) ⊆ X0).
  { exists (<[ec := {[a]} ∪ X]> L), ({[a]} ∪ X). split; [done|]. rewrite lookup_insert_eq, dom_insert_L. split; [done|]. set_solver. }
  assert (Hfail : rep m t -> table T (mkT t false (<[a := mkTe dev handler]> (t_entries s)) o)).
  { intros Hr. split; [exists m; split; [exact Hr|]|done|exact Hobjs]. split; [|split; [|done]].
    - intros i. rewrite HT. simpl. destruct (m !! i) as [b|] eqn:Eb; [|done]. simpl.
      rewrite lookup_insert_ne; [done|]. apply not_eq_sym. by eapply Hma.
    - intros i b Hb. destruct (Hnn _ _ Hb). split; [done|]. simpl. rewrite lookup_insert_ne; [done|].
      apply not_eq_sym. by eapply Hma. }
  destruct Hins as [(-> & Hno & ->)|[(-> & _ & ->)|(-> & ->)]].
  2:{ exists T. split; [by apply Hfail|by right]. }
  2:{ exists T. split; [by apply Hfail|by right]. }
  exists (<[irq := mkTe dev handler]> T). split; [|left; split; [done|]; split; [by rewrite HT, Hno|done]].
  split; [exists (<[irq := a]> m); split; [exact Hrep'|]|done|exact Hobjs]. split; [|split].
  - intros i. rewrite !lookup_insert. simpl. case_decide as E; [simpl; by rewrite lookup_insert_eq|].
    rewrite HT. destruct (m !! i) as [b|] eqn:Eb; [|done]. simpl. rewrite lookup_insert_ne; [done|].
    apply not_eq_sym. by eapply Hma.
  - intros i b. rewrite lookup_insert. simpl. case_decide as E.
    + intros [= <-]. split; [done|]. rewrite lookup_insert_eq. by eexists.
    + intros Hb. destruct (Hnn _ _ Hb). split; [done|]. rewrite lookup_insert_ne; [done|]. apply not_eq_sym. by eapply Hma.
  - intros i j b. rewrite !lookup_insert. do 2 case_decide; [congruence|..].
    + intros [= <-] Hb. by destruct (Hma _ _ Hb).
    + intros Hb [= <-]. by destruct (Hma _ _ Hb).
    + apply Hinj.
Qed.

Lemma wp_unregister T s irq :
  table T s -> 0 <= irq ->
  wp (trap_unregister_handler ec irq) (fun e s' => table (delete irq T) s' /\
    e = if decide (is_Some (T !! irq)) then ERR_OK else ERR_TRAP_NOT_FOUND) s.
Proof using Hsz.
  intros [(m & Hrep & HT & Hnn & Hinj) Hl (L & X & HL & HX & Hsub)] Hi. unfold trap_unregister_handler.
  wp_step. apply wp_lock_table; [done|]. wp_step. unfold on_table at 1. wp_step.
  eapply wp_mono; [apply (wp_lookup m); [done|done]|]. intros a t (-> & ->). wp_step.
  destruct (m !! irq) as [a|] eqn:Em; simpl default.
  - destruct (Hnn _ _ Em) as [Ha [te Hte]]. rewrite (proj2 (Z.eqb_neq a NULL) Ha). simpl negb. cbn match.
    assert (HTi : T !! irq = Some te) by (rewrite HT, Em; exact Hte).
    wp_step. unfold on_table. wp_step. simpl.
    eapply wp_mono; [apply (wp_remove Hsz m); [done|done|right; by eapply rep_in_range]|]. intros v t (_ & Hrep').
    wp_step. unfold on_tobjs. wp_step. simpl. eapply wp_mono; [eapply oa_free_spec; [done|done|]|].
    { apply elem_of_dom_2 in Hte. set_solver. }
    intros [] o HL'. wp_step. wp_step. unfold unlock_table. wp_step. wp_step. split.
    2:{ rewrite HTi, decide_True; [done|by eexists]. }
    split; [exists (delete irq m); split; [exact Hrep'|]|done|].
    + assert (Hma : forall i b, i <> irq -> m !! i = Some b -> b <> a).
      { intros i b Hne Hb ->. apply Hne. by eapply Hinj. }
      split; [|split].
      * intros i. rewrite !lookup_delete. case_decide as E; [done|]. rewrite HT. simpl.
        destruct (m !! i) as [b|] eqn:Eb; [|done]. simpl. rewrite lookup_delete_ne; [done|].
        apply not_eq_sym. by eapply Hma.
      * intros i b. rewrite lookup_delete. case_decide as E; [done|]. intros Hb. destruct (Hnn _ _ Hb). split; [done|].
        simpl. rewrite lookup_delete_ne; [done|]. apply not_eq_sym. by eapply (Hma i).
      * intros i j b. rewrite !lookup_delete. do 2 case_decide; [done..|]. apply Hinj.
    + simpl. exists (<[ec := X ∖ {[a]}]> L), (X ∖ {[a]}). split; [done|]. rewrite lookup_insert_eq, dom_delete_L.
      split; [done|]. set_solver.
  - rewrite Z.eqb_refl. simpl negb. cbn match. wp_step. wp_step. unfold unlock_table. wp_step. wp_step.
    assert (HTi : T !! irq = None) by (by rewrite HT, Em). rewrite HTi, decide_False by (by intros [? ?]).
    split; [|done]. rewrite delete_id by done. split; [by exists m|done|by exists L, X].
Qed.

Lemma wp_invoke T s irq :
  table T s -> 0 <= irq ->
  wp (trap_invoke_handler irq) (fun r s' => s' = s /\
    r = match T !! irq with Some e => (ERR_OK, Some e) | None => (ERR_TRAP_NOT_FOUND, None) end) s.
Proof using Type.
  intros [(m & Hrep & HT & Hnn & _) Hl _] Hi. unfold trap_invoke_handler.
  wp_step. apply wp_lock_table; [done|]. wp_step. unfold on_table. wp_step.
  eapply wp_mono; [apply (wp_lookup m); [done|done]|]. intros a t (-> & ->). wp_step. rewrite HT.
  destruct s as [tb lk en ob]. simpl in *. subst lk.
  destruct (m !! irq) as [a|] eqn:Em; simpl.
  - destruct (Hnn _ _ Em) as [Ha [te Hte]]. rewrite (proj2 (Z.eqb_neq a NULL) Ha). simpl. wp_step. unfold get_entry.
    wp_step. wp_step. eapply wp_deref; [exact Hte|]. wp_step. wp_step. unfold unlock_table. wp_step. wp_step. by rewrite Hte.
  - wp_step. wp_step. unfold unlock_table. wp_step. by wp_step.
Qed.
End spec.

(** C34 (kernel/trap.c): the handler table is a finite map from interrupt
    numbers below 2^30.  Registering adds the handler, or fails and changes
    nothing (always so when the interrupt has one); unregistering deletes
    exactly that entry and reports whether it was there; invoking calls exactly
    the registered handler with its device, or reports ERR_TRAP_NOT_FOUND. *)
Theorem trap_table_spec {R O} `{!ObjAlloc R, !ObjAlloc O} ec T (s : tst R O) irq :
  oa_size_ok (St := R) SIZEOF_RADIX_NODE -> table ec T s -> 0 <= irq < 2 ^ 30 ->
  (forall dev handler, handler <> NULL ->
     wp (trap_register_handler ec irq dev handler) (fun e s' => exists T', table ec T' s' /\
       ((e = ERR_OK /\ T !! irq = None /\ T' = <[irq := mkTe dev handler]> T) \/ (e = ERR_TRAP_REG_FAIL /\ T' = T))) s) /\
  wp (trap_unregister_handler ec irq) (fun e s' => table ec (delete irq T) s' /\
    e = if decide (is_Some (T !! irq)) then ERR_OK else ERR_TRAP_NOT_FOUND) s /\
  wp (trap_invoke_handler irq) (fun r s' => s' = s /\
    r = match T !! irq with Some e => (ERR_OK, Some e) | None => (ERR_TRAP_NOT_FOUND, None) end) s.
Proof.
  intros Hsz HT Hi. split; [intros; by apply wp_register|]. split; [apply wp_unregister; [done|done|lia]|].
  apply (wp_invoke ec); [done|lia].
Qed.

(** The empty table, as trap_sys_init leaves it before the first handler. *)
Definition demo_traps : tst bump bump := mkT new_tree false ∅ (mkBump 2 {[1 := ∅]}).
Lemma demo_table : table 1 ∅ demo_traps.
Proof.
  split; [exists ∅; split; [exact new_tree_rep|]|done|].
  - split; [intros irq; by rewrite lookup_empty|]. split; intros; by rewrite lookup_empty in *.
  - exists {[1 := ∅]}, ∅. split; [|split; [done|simpl; by rewrite dom_empty_L]].
    split; [done|]. split; [done|]. simpl. split.
    + intros c [Y E]. apply lookup_singleton_Some in E as [? _]. lia.
    + intros c Y x E Hx. apply lookup_singleton_Some in E as [_ <-]. set_solver.
Qed.

Lemma trap_table_spec_witness :
  wp (trap_register_handler 1 46 7 9) (fun e s' => exists T', table 1 T' s' /\
    ((e = ERR_OK /\ (∅ : gmap Z table_entry) !! 46 = None /\ T' = <[46 := mkTe 7 9]> ∅) \/ (e = ERR_TRAP_REG_FAIL /\ T' = ∅))) demo_traps.
Proof. apply (trap_table_spec 1 ∅ demo_traps 46 bump_size demo_table ltac:(lia)). discriminate. Defined.
