(* ===== verification/VpmapClaims.v ===== *)
(** * Page tables: the properties

    What the kernel relies on when it maps, translates, protects, copies and
    tears down address spaces, for any page allocator and object allocator
    that implement the interfaces (pmem.c and kmalloc.c do). *)

From stdpp Require Import prelude list gmap.
From Stdlib Require Import ZArith Lia.
From S2P Require Import Prelude Mmu DList ObjAlloc PageAlloc Vpmap VpmapInv VpmapSpec VpmapMap VpmapCopy VpmapUnmap RadixTreeClaims.

(** ** A page allocator for the witnesses: a list of free frames *)

Record pool := mkPool { pl_free : list Z; pl_held : gmap Z Z }.
Definition pool_ok (s : pool) (H : gmap Z Z) : Prop :=
  pl_held s = H /\ NoDup (pl_free s) /\
  (forall p, p ∈ pl_free s -> frame_addr p /\ H !! p = None) /\
  (forall p r, H !! p = Some r -> frame_addr p /\ 0 < r).

Lemma pool_give s H p r : pool_ok s H -> H !! p = Some r -> pool_ok (mkPool (p :: pl_free s) (delete p H)) (delete p H).
Proof.
  intros (Hh & Hn & Hf & Hr) Hp. split; [done|]. split; [|split]; simpl.
  - constructor; [|done]. intros Hin. destruct (Hf _ Hin). congruence.
  - intros x [->|Hx]%elem_of_cons.
    + split; [by eapply Hr|]. by rewrite lookup_delete, decide_True.
    + destruct (Hf _ Hx). split; [done|]. rewrite lookup_delete. by case_decide.
  - intros x c. rewrite lookup_delete. case_decide; [done|apply Hr].
Qed.

#[export] Program Instance pool_pagealloc : PageAlloc pool := {|
  pg_alloc := fun s => match pl_free s with
    | [] => Done (inr tt, s)
    | p :: l => Done (inl p, mkPool l (<[p := 1]> (pl_held s)))
    end;
  pg_free := fun p s => Done (tt, mkPool (p :: pl_free s) (delete p (pl_held s)));
  pg_dec := fun p s => match pl_held s !! p with
    | None => Stop KAssert
    | Some r => if r =? 1 then Done (tt, mkPool (p :: pl_free s) (delete p (pl_held s)))
                else Done (tt, mkPool (pl_free s) (<[p := r - 1]> (pl_held s)))
    end;
  pg_held := pool_ok
|}.
Next Obligation.
  intros s H (<- & Hn & Hf & Hr). destruct (pl_free s) as [|p l] eqn:E.
  - eapply wp_intro; [by rewrite E|]. split; [done|]. rewrite E. done.
  - eapply wp_intro; [by rewrite E|]. apply NoDup_cons in Hn as [Hnp Hn]. destruct (Hf p) as [Ha Hp]; [set_solver|].
    do 2 (split; [done|]). split; [done|]. split; [done|]. simpl. split.
    + intros x Hx. destruct (Hf x) as [??]; [set_solver|]. split; [done|].
      rewrite lookup_insert_ne; [done|]. by intros ->.
    + intros x c. rewrite lookup_insert. case_decide as E1; [subst; intros [= <-]; split; [done|lia]|apply Hr].
Qed.
Next Obligation.
  intros s H p r Hs Hp. eapply wp_intro; [done|]. pose proof Hs as (<- & _). by apply (pool_give _ _ _ r).
Qed.
Next Obligation.
  intros s H p r Hs Hp. pose proof Hs as (E & Hn & Hf & Hr). unfold drop_frame.
  assert (Hrun : pl_held s !! p = Some r) by congruence. destruct (Z.eqb_spec r 1) as [->|Hne].
  - eapply wp_intro; [rewrite Hrun; done|]. rewrite E. by apply (pool_give _ _ _ 1).
  - eapply wp_intro; [rewrite Hrun, (proj2 (Z.eqb_neq r 1) Hne); done|]. rewrite E.
    destruct (Hr _ _ Hp) as [? ?]. split; [done|]. split; [done|]. split; simpl.
    + intros x Hx. destruct (Hf x Hx) as [??]. split; [done|]. rewrite lookup_insert_ne; [done|]. congruence.
    + intros x c. rewrite lookup_insert. case_decide as E1; [subst; intros [= <-]; split; [done|lia]|apply Hr].
Qed.
Next Obligation. intros s H p r (_ & _ & _ & Hr). apply Hr. Qed.

(** ** The claims *)

Section claims.
Context {P O : Type} `{!PageAlloc P, !ObjAlloc O}.
Implicit Types s : vst P O.

Lemma grow_vpmaps U T H s T' H' s' : grow U T H s T' H' s' -> v_vpmaps s' = v_vpmaps s.
Proof. intros G. pose proof (gr_rest _ _ _ _ _ _ _ G) as E. by injection E. Qed.

Lemma wp_vpmap_map r T A H s vp v pa n perm :
  vspace r T A H s -> v_vpmaps s !! vp = Some (KMAP_P2V r) -> vp <> NULL ->
  0 <= v < 2 ^ 64 -> 0 <= pa < 2 ^ 64 -> 0 < n <= 2 ^ 36 ->
  pg_round_down v + n * 4096 <= 2 ^ 64 -> pg_round_down pa + n * 4096 <= 2 ^ 51 ->
  wp (vpmap_map vp v pa n perm) (fun e s' => exists T' H' A' m,
     vspace r T' A' H' s' /\ grow (on_paths (pg_round_down v) n) T H s T' H' s' /\
     mapped_upto A (vpn v) (pg_round_down pa) (1 + memperm_to_pteperm perm) m A' /\
     ((e = ERR_OK /\ m = n) \/ (e = ERR_VPMAP_MAP /\ 0 <= m < n))) s.
Proof.
  intros V Hvp Hnn Hv Hpa Hn Hve Hpe. rewrite !pg_round_down_spec in * by done. unfold PG_SIZE in *.
  assert (Hvm : v / 4096 * 4096 mod 4096 = 0) by (apply Z.mod_mul; lia).
  assert (Hpm : pa / 4096 * 4096 mod 4096 = 0) by (apply Z.mod_mul; lia).
  pose proof (Z.div_pos v 4096). pose proof (Z.div_pos pa 4096).
  unfold vpmap_map. wp_step. wp_step; [by apply nonnull_true|].
  replace (n =? 0) with false by lia. wp_step. eapply wp_get_pml4; [done|].
  rewrite !pg_round_down_spec by done. unfold pg_size, PG_SIZE. rewrite (wrapu_small 64 (n * 4096)) by lia.
  eapply wp_mono; [apply (wp_map_pages r T A H); done || lia|].
  intros e s' (T' & H' & A' & m & ? & ? & HA & ?). exists T', H', A', m. do 2 (split; [done|]). split; [|done].
  replace (vpn v) with (vpn (v / 4096 * 4096)); [done|]. unfold vpn. by rewrite Z.div_mul by lia.
Qed.

Lemma unmap_top v n : 0 <= v -> v mod 4096 = 0 -> 0 < n -> v + n * 4096 < 2 ^ 64 ->
  v / 2 ^ 48 = (v + n * 4096) / 2 ^ 48 ->
  PML4X v <= PML4X (v + n * 4096 - 1) <= PML4X (v + n * 4096).
Proof.
  intros Hv Hm Hn Hve Eh. unfold PML4X, PML4X_SHIFT. rewrite !ENTRY_IDX_spec by lia.
  assert (E : forall x, (x / 2 ^ 39) mod 512 = x / 2 ^ 39 - 512 * (x / 2 ^ 48)).
  { intros x. rewrite Z.mod_eq by lia. rewrite Z.div_div by lia. done. }
  assert (Hmid : (v + n * 4096 - 1) / 2 ^ 48 = v / 2 ^ 48).
  { pose proof (Z.div_le_mono v (v + n * 4096 - 1) (2 ^ 48)).
    pose proof (Z.div_le_mono (v + n * 4096 - 1) (v + n * 4096) (2 ^ 48)). lia. }
  rewrite !E, Hmid, <- Eh.
  pose proof (Z.div_le_mono v (v + n * 4096 - 1) (2 ^ 39)).
  pose proof (Z.div_le_mono (v + n * 4096 - 1) (v + n * 4096) (2 ^ 39)). lia.
Qed.

(** The user half of the address space: the top-level entries 0 to 510. *)
Definition user_page (q : Z) : bool := q / 2 ^ 27 <? 511.
Definition user_table (x : Z * Z) : bool := (x.1 =? 3) || (x.2 / 512 ^ (2 - x.1) <? 511).

Lemma all_in x : 0 <= x -> in0 0 USTACK_UPPERBOUND x = true /\ in1 0 USTACK_UPPERBOUND x = true /\
  in2 0 USTACK_UPPERBOUND x = true.
Proof.
  assert (L2 : forall y, lo2 0 y = 0) by (intros y; unfold lo2; destruct (_ =? _); reflexivity).
  assert (L1 : forall y, lo1 0 y = 0) by (intros y; unfold lo1; destruct (_ =? _); reflexivity).
  assert (L0 : forall y, lo0 0 y = 0) by (intros y; unfold lo0; destruct (_ =? _); reflexivity).
  assert (H2 : forall y, hi2 0 USTACK_UPPERBOUND y = 512) by (intros y; unfold hi2; rewrite L2; vm_compute; reflexivity).
  assert (H1 : forall y, hi1 0 USTACK_UPPERBOUND y = 512) by (intros y; unfold hi1; rewrite L1; vm_compute; reflexivity).
  assert (H0 : forall y, hi0 0 USTACK_UPPERBOUND y = 512) by (intros y; unfold hi0; rewrite L0; vm_compute; reflexivity).
  intros Hx. unfold in0, in1, in2, between. rewrite H0, H1, H2, L0, L1, L2.
  pose proof (Z.mod_pos_bound x 512). lia.
Qed.

Lemma in3_user x : 0 <= x -> in3 0 USTACK_UPPERBOUND x = (x <? 511).
Proof.
  intros. unfold in3, between. change (PML4X 0) with 0.
  change (PML4X (u64 (USTACK_UPPERBOUND - 1)) + 1) with 511. lia.
Qed.

Lemma cleared_user q : 0 <= q -> cleared 0 USTACK_UPPERBOUND q = user_page q.
Proof.
  intros Hq. assert (0 <= q / 512) by (apply Z.div_pos; lia). assert (0 <= q / 512 / 512) by (apply Z.div_pos; lia).
  assert (0 <= q / 512 / 512 / 512) by (apply Z.div_pos; lia). unfold cleared.
  destruct (all_in q Hq) as (-> & _). destruct (all_in (q / 512)) as (_ & -> & _); [lia|].
  destruct (all_in (q / 512 / 512)) as (_ & _ & ->); [lia|]. rewrite in3_user by lia. unfold user_page.
  by rewrite !Z.div_div by lia.
Qed.

Lemma freed_user k p : 0 <= k <= 3 -> 0 <= p -> freed 0 USTACK_UPPERBOUND (k, p) = negb (k =? 3) && user_table (k, p).
Proof.
  intros Hk Hp. unfold freed, user_table. cbn [fst snd].
  assert (0 <= p / 512) by (apply Z.div_pos; lia). assert (0 <= p / 512 / 512) by (apply Z.div_pos; lia).
  assert (k = 0 \/ k = 1 \/ k = 2 \/ k = 3) as [->|[->|[->| ->]]] by lia; cbn match.
  - destruct (all_in p Hp) as (_ & -> & _). destruct (all_in (p / 512)) as (_ & _ & ->); [lia|].
    rewrite in3_user by lia. change (2 - 0) with 2. by rewrite pow_2.
  - destruct (all_in p Hp) as (_ & _ & ->). rewrite in3_user by lia. change (2 - 1) with 1. by rewrite Z.pow_1_r.
  - rewrite in3_user by lia. change (2 - 2) with 0. by rewrite Z.pow_0_r, Z.div_1_r.
  - done.
Qed.
End claims.

(** ** Concrete spaces for the witnesses: empty trees *)

Definition demo_vst : vst pool bump :=
  mkV {[0x1000 := zero_page; 0x2000 := zero_page]} {[1 := KMAP_P2V 0x1000; 2 := KMAP_P2V 0x2000]}
    10 3 0 (mkPool [0x3000; 0x4000; 0x5000; 0x6000; 0x7000] {[0x1000 := 1; 0x2000 := 1]})
    (mkBump 11 {[10 := {[1; 2]}]}).
Definition demo_held : gmap Z Z := {[0x1000 := 1; 0x2000 := 1]}.

Lemma empty_space r : r = 0x1000 \/ r = 0x2000 -> vspace r {[r := (3, 0)]} ∅ demo_held demo_vst.
Proof.
  intros Hr. assert (Hfa : frame_addr r) by (unfold frame_addr; destruct Hr as [->| ->]; done).
  assert (Hz : v_frames demo_vst !! r = Some zero_page) by (destruct Hr as [->| ->]; done).
  assert (Hw : forall i w, word (v_frames demo_vst) r i = Some w -> w = 0).
  { intros i w. unfold word. rewrite Hz. simpl. intros [-> _]%(lookup_replicate 512). done. }
  split; [split|..].
  - by rewrite lookup_singleton, decide_True.
  - intros f k p [<- [= <- <-]]%lookup_singleton_Some. split; [lia|]. split; [done|]. by exists zero_page.
  - intros f g x [<- _]%lookup_singleton_Some [<- _]%lookup_singleton_Some. done.
  - intros f k p i w [<- _]%lookup_singleton_Some _ _ ->%Hw. done.
  - intros f k p [<- [= <- <-]]%lookup_singleton_Some. lia.
  - intros f k p [<- [= <- <-]]%lookup_singleton_Some. simpl. lia.
  - intros q w. split; [done|]. intros (_ & (f & [<- [= ? ?]]%lookup_singleton_Some & _) & _).
  - split; [done|]. split; [by apply (bool_decide_unpack _)|]. split.
    + intros p Hp. repeat (apply elem_of_cons in Hp as [->|Hp]; [done|]). by apply elem_of_nil in Hp.
    + intros p c. unfold demo_held. rewrite lookup_insert_Some, lookup_singleton_Some. naive_solver.
  - intros f x [<- _]%lookup_singleton_Some. destruct Hr as [->| ->]; by exists 1.
Qed.

(** C26 ([vpmap_map]): mapping [n] pages makes page [i] of the range translate
    to frame [i] of the physical range with the requested permission, and
    leaves every other translation as it was, also when the range ends at
    address 0.  When a page-table page cannot be allocated the call returns
    ERR_VPMAP_MAP with a prefix of the range mapped.  In both cases the tree
    stays well formed, only tables on the paths of the range are written, and
    every page taken from the allocator is a table of the tree. *)
Theorem vpmap_map_spec {P O} `{!PageAlloc P, !ObjAlloc O} r T A H (s : vst P O) vp v pa n perm :
  vspace r T A H s -> v_vpmaps s !! vp = Some (KMAP_P2V r) -> vp <> NULL ->
  0 <= v < 2 ^ 64 -> 0 <= pa < 2 ^ 64 -> 0 < n <= 2 ^ 36 ->
  pg_round_down v + n * 4096 <= 2 ^ 64 -> pg_round_down pa + n * 4096 <= 2 ^ 51 ->
  wp (vpmap_map vp v pa n perm) (fun e s' => exists T' H' A' m,
     vspace r T' A' H' s' /\ grow (on_paths (pg_round_down v) n) T H s T' H' s' /\
     (forall q, xlate A' q = if in_range (vpn v) m q
        then Some (pg_round_down pa + (q - vpn v) mod 2 ^ 36 * 4096, memperm_to_pteperm perm)
        else xlate A q) /\
     ((e = ERR_OK /\ m = n) \/ (e = ERR_VPMAP_MAP /\ 0 <= m < n))) s.
Proof.
  intros V Hvp Hnn Hv Hpa Hn Hve Hpe. eapply wp_mono; [by apply (wp_vpmap_map r T A H)|].
  intros e s' (T' & H' & A' & m & V' & G' & HA & He). exists T', H', A', m. do 2 (split; [done|]). split; [|done].
  intros q. pose proof (HA q) as Hq. destruct (in_range (vpn v) m q) eqn:Er; [|unfold xlate; by rewrite Hq].
  unfold in_range in Er. rewrite pg_round_down_spec in * by done. unfold PG_SIZE in *.
  pose proof (Z.mod_pos_bound (q - vpn v) (2 ^ 36)). pose proof (Z.div_pos pa 4096).
  apply xlate_word; [lia| |done]. rewrite <- Z.mul_add_distr_r. apply Z.mod_mul. lia.
Qed.

Lemma vpmap_map_spec_witness :
  wp (vpmap_map 1 0x400000 0x8000 2 MEMPERM_URW) (fun e s' => exists T' A' H', vspace 0x1000 T' A' H' s' /\
     (e = ERR_OK -> xlate A' 0x401 = Some (0x9000, 6) /\ xlate A' 0x402 = None)) demo_vst.
Proof.
  eapply wp_mono; [apply (vpmap_map_spec 0x1000 {[0x1000 := (3, 0)]} ∅ demo_held);
    [by apply empty_space; left|done|done|lia..| |]; vm_compute; congruence|].
  intros e s' (T' & H' & A' & m & V' & _ & HA & He). exists T', A', H'. split; [done|]. intros ->.
  destruct He as [[_ ->]|[? _]]; [|done]. rewrite !HA. done.
Defined.

(** ([vpmap_map], [vpmap_lookup_vaddr]): after a successful mapping every
    address of the range translates to the corresponding address of the
    physical range; translation reports a missing page otherwise and changes
    nothing. *)
Theorem vpmap_map_lookup {P O} `{!PageAlloc P, !ObjAlloc O} r T A H (s : vst P O) vp v pa n perm a :
  vspace r T A H s -> v_vpmaps s !! vp = Some (KMAP_P2V r) -> vp <> NULL ->
  0 <= v < 2 ^ 64 -> 0 <= pa < 2 ^ 64 -> 0 < n <= 2 ^ 36 -> v mod 4096 = 0 -> pa mod 4096 = 0 ->
  v + n * 4096 <= 2 ^ 64 -> pa + n * 4096 <= 2 ^ 51 -> v <= a < v + n * 4096 ->
  wp (e <- vpmap_map vp v pa n perm;; x <- vpmap_lookup_vaddr vp a;; ret (e, x))
     (fun '(e, x) _ => e = ERR_OK -> x = (ERR_OK, pa + (a - v), SWAPID_NONE)) s.
Proof.
  intros V Hvp Hnn Hv Hpa Hn Hvm Hpm Hve Hpe Ha. wp_step.
  eapply wp_mono; [apply (wp_vpmap_map r T A H); try done; rewrite round_aligned; done || lia|].
  intros e s' (T' & H' & A' & m & V' & G' & HA & He). wp_step.
  assert (Hvp' : v_vpmaps s' !! vp = Some (KMAP_P2V r)).
  { by rewrite (grow_vpmaps _ _ _ _ _ _ _ G'). }
  eapply wp_mono; [apply (wp_present_lookup r T' A' H'); done || lia|]. intros x s2 (-> & ->). wp_step. intros ->.
  destruct He as [[_ ->]|[? _]]; [|done]. rewrite round_aligned in HA by done. unfold lookup_result.
  set (i := (a - v) / 4096). assert (Hi : 0 <= i < n).
  { unfold i. split; [apply Z.div_pos; lia|apply Z.div_lt_upper_bound; lia]. }
  pose proof (Z.div_mod (a - v) 4096 ltac:(lia)) as Ed. fold i in Ed.
  assert (Em : (a - v) mod 4096 = a mod 4096).
  { rewrite Zminus_mod, Hvm, Z.sub_0_r, Z.mod_mod; lia. }
  assert (Eq : vpn a = (vpn v + i) mod 2 ^ 36).
  { rewrite <- vpn_step by lia. unfold vpn. f_equal. rewrite Z.div_add by lia.
    symmetry. apply Z.div_unique with (r := a mod 4096); [left; by apply Z.mod_pos_bound|].
    pose proof (Z.div_mod v 4096). lia. }
  pose proof (vpn_bound v) as Hb. pose proof (HA (vpn a)) as Hq.
  assert (Hr : in_range (vpn v) n (vpn a) = true).
  { unfold in_range. rewrite Eq, range_pos by lia. pose proof (Z.mod_pos_bound (vpn v + i) (2 ^ 36)). lia. }
  rewrite Hr in Hq. rewrite Eq in Hq at 2. rewrite range_pos in Hq by lia.
  erewrite xlate_word; [|..|exact Hq]; [|lia|by rewrite Z.mod_add by lia].
  f_equal. f_equal. lia.
Qed.

Lemma vpmap_map_lookup_witness :
  wp (e <- vpmap_map 1 0x400000 0x8000 2 MEMPERM_UR;; x <- vpmap_lookup_vaddr 1 0x401234;; ret (e, x))
     (fun '(e, x) _ => e = ERR_OK -> x = (ERR_OK, 0x8000 + (0x401234 - 0x400000), SWAPID_NONE)) demo_vst.
Proof.
  apply (vpmap_map_lookup 0x1000 {[0x1000 := (3, 0)]} ∅ demo_held);
    [by apply empty_space; left|first [lia | reflexivity | done]..].
Defined.

(** ([vpmap_set_perm]): the pages of the range keep their frames and get
    the new permission; pages that are not present stay so; no other page is
    touched. *)
Theorem vpmap_set_perm_spec {P O} `{!PageAlloc P, !ObjAlloc O} r T A H (s : vst P O) vp v n perm :
  vspace r T A H s -> v_vpmaps s !! vp = Some (KMAP_P2V r) -> vp <> NULL ->
  0 <= v < 2 ^ 64 -> v mod 4096 = 0 -> 0 <= n <= 2 ^ 36 -> v + n * 4096 <= 2 ^ 64 ->
  wp (vpmap_set_perm vp v n perm) (fun _ s' => exists A', vspace r T A' H s' /\
     grow (on_paths v n) T H s T H s' /\
     forall q, xlate A' q = if in_range (vpn v) n q
       then (fun x => (x.1, memperm_to_pteperm perm)) <$> xlate A q else xlate A q) s.
Proof. intros. by apply (wp_set_perm r T A H). Qed.

Lemma vpmap_set_perm_spec_witness :
  wp (vpmap_set_perm 1 0x400000 3 MEMPERM_UR) (fun _ s' => exists A', vspace 0x1000 {[0x1000 := (3, 0)]} A' demo_held s' /\
     xlate A' 0x401 = None) demo_vst.
Proof.
  eapply wp_mono; [apply (vpmap_set_perm_spec 0x1000 {[0x1000 := (3, 0)]} ∅ demo_held);
    [by apply empty_space; left|first [lia | reflexivity | done]..]|].
  intros [] s' (A' & V' & _ & HA). exists A'. split; [done|]. by rewrite HA.
Defined.

(** C27 ([vpmap_copy]): copying [n] pages between two address spaces that share
    at most kernel tables, with the permission the pages of the source have (as
    [memregion_copy_internal] calls it), gives the destination private copies.
    On success every source page whose frame is nonzero has a fresh frame of its
    own in the destination ([copy_upto]: no two pages share one, none was held
    before), with the contents of the source frame; the pages of the source and
    of the destination have the permission [memperm]; every other destination
    page and every frame held before are unchanged.  On failure that holds for a
    prefix of the range.  The source must have the permission already: the call
    does not change it ([vpmap_copy_keeps_source]). *)
Theorem vpmap_copy_spec {P O} `{!PageAlloc P, !ObjAlloc O} r1 r2 T1 T2 A1 A2 H (s : vst P O)
    vp1 vp2 src dst n perm :
  vspace r1 T1 A1 H s -> vspace r2 T2 A2 H s ->
  v_vpmaps s !! vp1 = Some (KMAP_P2V r1) -> v_vpmaps s !! vp2 = Some (KMAP_P2V r2) ->
  vp1 <> NULL /\ vp2 <> NULL ->
  0 <= src < 2 ^ 64 /\ src mod 4096 = 0 /\ src + n * 4096 <= 2 ^ 64 ->
  0 <= dst < 2 ^ 64 /\ dst mod 4096 = 0 /\ dst + n * 4096 <= 2 ^ 64 ->
  0 <= n <= 2 ^ 36 ->
  (forall f y x, T1 !! f = Some y -> T2 !! f = Some x -> ~ on_paths dst n x) ->
  (forall i, 0 <= i < n -> ENTRY_ADDR (src_word A1 src i) <> 0 ->
     is_Some (H !! ENTRY_ADDR (src_word A1 src i)) /\ T2 !! ENTRY_ADDR (src_word A1 src i) = None /\
     is_Some (v_frames s !! ENTRY_ADDR (src_word A1 src i))) ->
  (forall i x, 0 <= i < n -> xlate A1 (vpn (src + i * 4096)) = Some x -> x.2 = memperm_to_pteperm perm) ->
  wp (vpmap_copy vp1 vp2 src dst n perm) (fun e s' => exists m T' A' H' fr,
     copy_upto r1 r2 T1 T2 A1 A2 H s src dst n perm m T' A' H' fr s' /\
     (forall i f pt, 0 <= i < m -> xlate A1 (vpn (src + i * 4096)) = Some (f, pt) -> f <> 0 ->
        pt = memperm_to_pteperm perm /\
        exists g, xlate A' (vpn (dst + i * 4096)) = Some (g, memperm_to_pteperm perm) /\
          H !! g = None /\ v_frames s' !! g = v_frames s !! f) /\
     ((e = ERR_OK /\ m = n) \/ ((e = ERR_VPMAP_MAP \/ e = ERR_NOMEM) /\ 0 <= m < n))) s.
Proof.
  intros V1 V2 Hvp1 Hvp2 Hnn Hsrc Hdst Hn Hsep Hdata Hperm.
  eapply wp_mono; [by apply (wp_copy r1 r2 T1 T2 A1 A2 H)|]. intros e s' (m & T' & A' & H' & fr & C & He).
  exists m, T', A', H', fr. split; [done|]. split; [|done].
  intros i f pt Hi Hx Hf. split; [apply (Hperm i (f, pt)); [|done]; lia|].
  unfold xlate in Hx. destruct (A1 !! vpn (src + i * 4096)) as [w|] eqn:Ew; [|done]. destruct (present w); [|done]. injection Hx as <- _.
  assert (Es : src_word A1 src i = w) by (unfold src_word; by rewrite Ew).
  destruct (cu_all _ _ _ _ _ _ _ _ _ _ _ _ _ _ _ _ _ _ C i Hi) as [g Hg]; [by rewrite Es|].
  destruct (cu_fresh _ _ _ _ _ _ _ _ _ _ _ _ _ _ _ _ _ _ C i g Hg) as (_ & _ & HA & (Hgr & Hgm) & HH & _ & HF). rewrite Es in HF.
  exists g. split; [apply xlate_word; [lia|done|done]|done].
Qed.

(** Whatever [memperm], the pages of the source keep their permissions: the
    header says that it is the permission of source and destination after the
    copy. *)
Theorem vpmap_copy_keeps_source {P O} `{!PageAlloc P, !ObjAlloc O} r1 r2 T1 T2 A1 A2 H (s : vst P O)
    vp1 vp2 src dst n perm :
  vspace r1 T1 A1 H s -> vspace r2 T2 A2 H s ->
  v_vpmaps s !! vp1 = Some (KMAP_P2V r1) -> v_vpmaps s !! vp2 = Some (KMAP_P2V r2) ->
  vp1 <> NULL /\ vp2 <> NULL ->
  0 <= src < 2 ^ 64 /\ src mod 4096 = 0 /\ src + n * 4096 <= 2 ^ 64 ->
  0 <= dst < 2 ^ 64 /\ dst mod 4096 = 0 /\ dst + n * 4096 <= 2 ^ 64 ->
  0 <= n <= 2 ^ 36 ->
  (forall f y x, T1 !! f = Some y -> T2 !! f = Some x -> ~ on_paths dst n x) ->
  (forall i, 0 <= i < n -> ENTRY_ADDR (src_word A1 src i) <> 0 ->
     is_Some (H !! ENTRY_ADDR (src_word A1 src i)) /\ T2 !! ENTRY_ADDR (src_word A1 src i) = None /\
     is_Some (v_frames s !! ENTRY_ADDR (src_word A1 src i))) ->
  wp (vpmap_copy vp1 vp2 src dst n perm) (fun _ s' => exists H', vspace r1 T1 A1 H' s') s.
Proof.
  intros. eapply wp_mono; [by apply (wp_copy r1 r2 T1 T2 A1 A2 H)|]. intros e s' (m & T' & A' & H' & fr & C & _).
  exists H'. apply C.
Qed.

(** A space with one page, at 0x400000 in frame 0x8000, and an empty one. *)
Definition copy_data : list Z := replicate 512 7.
Definition copy_vst : vst pool bump :=
  mkV {[0x1000 := zero_page; 0x2000 := zero_page; 0x8000 := copy_data]} {[1 := KMAP_P2V 0x1000; 2 := KMAP_P2V 0x2000]}
    10 3 0 (mkPool [0x3000; 0x4000; 0x5000; 0x6000; 0x7000; 0x9000; 0xa000] {[0x1000 := 1; 0x2000 := 1; 0x8000 := 1]})
    (mkBump 11 {[10 := {[1; 2]}]}).
Definition copy_held : gmap Z Z := {[0x1000 := 1; 0x2000 := 1; 0x8000 := 1]}.

Lemma copy_space r : r = 0x1000 \/ r = 0x2000 -> vspace r {[r := (3, 0)]} ∅ copy_held copy_vst.
Proof.
  intros Hr. apply (vspace_frame r _ _ demo_held demo_vst); [by apply empty_space| | |].
  - intros f x [<- _]%lookup_singleton_Some. by destruct Hr as [->| ->].
  - split; [done|]. split; [by apply (bool_decide_unpack _)|]. split.
    + intros p Hp. repeat (apply elem_of_cons in Hp as [->|Hp]; [done|]). by apply elem_of_nil in Hp.
    + intros p c Hp. assert (Hin : (p, c) ∈ map_to_list copy_held) by (by apply elem_of_map_to_list). vm_compute in Hin.
      repeat (apply elem_of_cons in Hin as [[= -> ->]|Hin]; [done|]). by apply elem_of_nil in Hin.
  - apply (bool_decide_unpack _). vm_compute. exact I.
Qed.

Lemma vpmap_copy_spec_witness :
  let run := e1 <- vpmap_map 1 0x400000 0x8000 1 MEMPERM_URW;; e2 <- vpmap_copy 1 2 0x400000 0x600000 1 MEMPERM_URW;; ret (e1, e2) in
  value_of (run copy_vst) = Some (ERR_OK, ERR_OK) /\
  wp run (fun r s' => r = (ERR_OK, ERR_OK) -> exists T' A' H' g, vspace 0x2000 T' A' H' s' /\
    xlate A' 0x600 = Some (g, memperm_to_pteperm MEMPERM_URW) /\ g <> 0x8000 /\ v_frames s' !! g = Some copy_data) copy_vst.
Proof.
  split; [vm_compute; reflexivity|]. wp_step.
  eapply wp_mono; [apply (wp_vpmap_map 0x1000 {[0x1000 := (3, 0)]} ∅ copy_held);
    [by apply copy_space; left|first [lia | reflexivity | done]..]|].
  intros e s1 (T1 & H1 & A1 & m & V1 & G1 & HA & He). wp_step.
  assert (Hin : H1 !! 0x8000 = Some 1 /\ H1 !! 0x2000 = Some 1) by (split; eapply lookup_weaken; [|apply G1| |apply G1]; done).
  assert (V2 : vspace 0x2000 {[0x2000 := (3, 0)]} ∅ H1 s1).
  { apply (vspace_frame _ _ _ copy_held copy_vst); [by apply copy_space; right| |apply V1|apply G1].
    intros f x [<- _]%lookup_singleton_Some. apply (gr_frames _ _ _ _ _ _ _ G1); [|by exists 1].
    intros y [? _]%lookup_singleton_Some. done. }
  assert (HT : forall f x, T1 !! f = Some x -> f = 0x1000 \/ copy_held !! f = None).
  { intros f x Hf. destruct (decide (f = 0x1000)) as [->|Hne]; [by left|]. right. eapply (gr_new _ _ _ _ _ _ _ G1); [exact Hf|].
    by rewrite lookup_singleton_ne by done. }
  assert (HF : v_frames s1 !! 0x8000 = Some copy_data).
  { rewrite (gr_frames _ _ _ _ _ _ _ G1 0x8000); [done| |by exists 1]. intros y [? _]%lookup_singleton_Some. done. }
  assert (Hw : forall q w, A1 !! q = Some w -> w = 0x8000 + (1 + memperm_to_pteperm MEMPERM_URW)).
  { intros q w Hq. specialize (HA q). rewrite Hq in HA. destruct (in_range _ _ _) eqn:Er; [|done]. unfold in_range in Er.
    change (vpn 0x400000) with 0x400 in *. change (pg_round_down 0x8000) with 0x8000 in HA.
    assert (m <= 1) by lia. pose proof (Z.mod_pos_bound (q - 0x400) (2 ^ 36) eq_refl). assert ((q - 0x400) mod 2 ^ 36 = 0) as E by lia. rewrite E in HA. by injection HA as ->. }
  assert (Ev : v_vpmaps s1 = v_vpmaps copy_vst) by (by rewrite (grow_vpmaps _ _ _ _ _ _ _ G1)).
  eapply wp_mono; [apply (vpmap_copy_spec 0x1000 0x2000 T1 {[0x2000 := (3, 0)]} A1 ∅ H1); try (by rewrite Ev); try done|].
  - intros f y x Hf [<- _]%lookup_singleton_Some. destruct (HT _ _ Hf) as [?|Hn]; [done|by vm_compute in Hn].
  - intros i Hi. unfold src_word. destruct (A1 !! vpn (0x400000 + i * 4096)) as [w|] eqn:E; [|done]. rewrite (Hw _ _ E). cbn [default from_option id].
    change (ENTRY_ADDR (0x8000 + (1 + memperm_to_pteperm MEMPERM_URW))) with 0x8000. intros _.
    split; [by exists 1; apply Hin|]. split; [done|]. by rewrite HF.
  - intros i x Hi. unfold xlate. destruct (A1 !! vpn (0x400000 + i * 4096)) as [w|] eqn:E; [|done]. rewrite (Hw _ _ E). by intros [= <-].
  - intros e2 s2 (m2 & T' & A' & H' & fr & C & Hcp & He2). wp_step. intros [= -> ->].
    destruct He as [[_ ->]|[? _]]; [|done]. destruct He2 as [[_ ->]|[[?|?] _]]; [|done|done].
    destruct (Hcp 0 0x8000 (memperm_to_pteperm MEMPERM_URW)) as (_ & g & Hg & Hgh & Hgf); [lia| |done|].
    { change (vpn (0x400000 + 0 * 4096)) with 0x400. specialize (HA 0x400). change (in_range (vpn 0x400000) 1 0x400) with true in HA. cbn match in HA.
      by eapply xlate_word; [done|done|]. }
    exists T', A', H', g. split; [apply C|]. split; [exact Hg|]. split; [|by rewrite Hgf].
    intros ->. destruct Hin as [Hin _]. congruence.
Defined.

(** ([vpmap_unmap], [unmap_pages]): unmapping clears exactly the entries of
    [cleared start end] and drops one reference of the frame of every present
    entry among them, so a frame whose last reference goes is freed; tables,
    other entries and all other frames stay as they are. *)
Theorem vpmap_unmap_spec {P O} `{!PageAlloc P, !ObjAlloc O} r T A H (s : vst P O) vp v n :
  vspace r T A H s -> v_vpmaps s !! vp = Some (KMAP_P2V r) -> vp <> NULL ->
  0 <= v < 2 ^ 64 -> v mod 4096 = 0 -> 0 < n -> v + n * 4096 < 2 ^ 64 ->
  v / 2 ^ 48 = (v + n * 4096) / 2 ^ 48 ->
  (forall q w, A !! q = Some w -> cleared v (v + n * 4096) q = true -> present w = true ->
     T !! ENTRY_ADDR w = None) ->
  (forall p, refs A (cleared v (v + n * 4096)) p <= cnt H p) ->
  wp (vpmap_unmap vp v n) (fun _ s' => exists A' H', vspace r T A' H' s' /\
     (forall q, A' !! q = if cleared v (v + n * 4096) q then None else A !! q) /\
     (forall p, cnt H' p = cnt H p - refs A (cleared v (v + n * 4096)) p) /\
     (forall f, T !! f = None -> v_frames s' !! f = v_frames s !! f)) s.
Proof.
  intros V Hvp Hnn Hv Hvm Hn Hve Eh Hleaf Href.
  pose proof (tb_root _ _ _ (vs_tables _ _ _ _ _ V)) as Hr.
  destruct (tb_ok _ _ _ (vs_tables _ _ _ _ _ V) _ _ _ Hr) as (_ & Hra & _).
  pose proof (P2V_ne _ Hra) as Hrn.
  pose proof (unmap_top v n ltac:(lia) Hvm Hn Hve Eh) as [Ht1 Ht2].
  unfold vpmap_unmap. replace (vp =? NULL) with false by (symmetry; by apply Z.eqb_neq). wp_step.
  eapply wp_get_pml4; [done|]. replace (KMAP_P2V r =? NULL) with false by (symmetry; by apply Z.eqb_neq).
  replace (n =? 0) with false by lia. simpl orb. cbn match. cbv zeta. rewrite round_aligned by done.
  unfold pg_size, PG_SIZE. rewrite (wrapu_small 64 (v + n * 4096)) by lia. wp_step. wp_step; [apply Z.leb_le; lia|].
  eapply wp_mono; [apply (wp_unmap_pages r T A H s v (v + n * 4096) false V Hleaf Href); rewrite wrapu_small; lia|].
  intros [] s' [TB SP _ (H' & Hp & Hc) HF _]. eexists _, H'. split; [|split; [intros q; apply lookup_clr|]].
  - split; [done|exact SP|done|]. intros f x Hf. destruct (vs_own _ _ _ _ _ V _ _ Hf) as [c Hfc].
    destruct (pg_held_addr _ _ _ _ (vs_held _ _ _ _ _ V) Hfc) as [_ Hpos]. specialize (Hc f).
    unfold freed_in in Hc. rewrite Hf in Hc. simpl in Hc.
    rewrite refs_zero in Hc by (intros q w Hq HC Hpr <-; rewrite (Hleaf q w Hq HC Hpr) in Hf; done).
    unfold cnt in Hc. rewrite Hfc in Hc. destruct (H' !! f); [done|]. simpl in Hc. lia.
  - split; [|done]. intros p. rewrite Hc. unfold freed_in. by destruct (T !! p).
Qed.

Lemma vpmap_unmap_spec_witness :
  wp (vpmap_unmap 1 0x400000 2) (fun _ s' => exists A' H', vspace 0x1000 {[0x1000 := (3, 0)]} A' H' s' /\
     A' !! 0x400 = None) demo_vst.
Proof.
  eapply wp_mono; [apply (vpmap_unmap_spec 0x1000 {[0x1000 := (3, 0)]} ∅ demo_held);
    [by apply empty_space; left|done|done|done|done|done|done|done|done|]|].
  { intros p. unfold refs, cnt, demo_held. rewrite map_filter_empty, map_size_empty.
    rewrite lookup_insert, lookup_singleton. repeat case_decide; simpl; lia. }
  intros [] s' (A' & H' & V' & HA & _). exists A', H'. split; [done|]. rewrite HA. by destruct (cleared _ _ _).
Defined.

(** Unmapping two pages clears the pages behind them up to the end of the
    page table, and unmapping the last page of a table clears nothing. *)
Theorem vpmap_unmap_not_exact :
  cleared 0x400000 0x402000 0x402 = true /\ cleared 0x400000 0x402000 0x5ff = true /\
  cleared 0x5ff000 0x600000 0x5ff = false.
Proof. done. Qed.

(** C28 ([vpmap_destroy]): tearing an address space down returns every table of
    the user half and the pml4 itself, drops one reference per present user
    page, keeps the tables of the kernel half, which other spaces share, and
    frees the descriptor. *)
Theorem vpmap_destroy_spec {P O} `{!PageAlloc P, !ObjAlloc O} r T A H (s : vst P O) vp L X :
  vspace r T A H s -> v_vpmaps s !! vp = Some (KMAP_P2V r) -> vp <> NULL -> vp <> v_kvpmap s ->
  (forall q w, A !! q = Some w -> user_page q = true -> present w = true -> T !! ENTRY_ADDR w = None) ->
  (forall p, refs A user_page p <= cnt H p) ->
  oa_live (v_objs s) L -> L !! v_allocator s = Some X -> vp ∈ X ->
  wp (vpmap_destroy vp) (fun _ s' => oa_live (v_objs s') (<[v_allocator s := X ∖ {[vp]}]> L) /\
     exists H', pg_held (v_pages s') H' /\ forall p, cnt H' p =
       match T !! p with
       | Some x => if user_table x then 0 else cnt H p
       | None => cnt H p - refs A user_page p
       end) s.
Proof.
  intros V Hvp Hnn Hk Hleaf Href Ho HX HpX. pose proof (vs_tables _ _ _ _ _ V) as TB.
  pose proof (tb_root _ _ _ TB) as Hr. destruct (tb_ok _ _ _ TB _ _ _ Hr) as (_ & Hra & _).
  pose proof (P2V_ne _ Hra) as Hrn.
  assert (Ecl : forall q w, A !! q = Some w -> cleared 0 USTACK_UPPERBOUND q = user_page q).
  { intros q w Hq. apply (vs_space _ _ _ _ _ V) in Hq as (Hq & _). apply cleared_user. lia. }
  unfold vpmap_destroy. replace (vp =? NULL) with false by (symmetry; by apply Z.eqb_neq). wp_step.
  eapply wp_get_pml4; [done|]. replace (KMAP_P2V r =? NULL) with false by (symmetry; by apply Z.eqb_neq).
  wp_step. wp_step. wp_step. wp_step; [by apply negb_true_iff, Z.eqb_neq|]. wp_step.
  eapply wp_mono; [apply (wp_unmap_pages r T A H s 0 USTACK_UPPERBOUND true V)|].
  { intros q w Hq. rewrite (Ecl _ _ Hq). by apply Hleaf. }
  { intros p. rewrite (refs_ext _ _ _ _ Ecl). apply Href. }
  { vm_compute. congruence. }
  intros [] s1 U. wp_step.
  assert (HV2P : KMAP_V2P (KMAP_P2V r) = r) by (apply KMAP_V2P_P2V; destruct Hra; lia). rewrite HV2P.
  eapply wp_mono; [eapply (wp_free_table r T A H s (cleared 0 USTACK_UPPERBOUND) V); [|exact U|exact Hr|done]|].
  { intros q w Hq. rewrite (Ecl _ _ Hq). by apply Hleaf. }
  intros [] s2 [_ _ _ (H' & Hp & Hc) _ Hrest]. wp_step. wp_step.
  assert (Eo : v_objs s2 = v_objs s /\ v_allocator s2 = v_allocator s) by (injection Hrest; auto).
  destruct Eo as [Eo Ea]. rewrite Ea. unfold on_objs. wp_step.
  eapply wp_mono; [eapply oa_free_spec; [rewrite Eo|..]; done|]. intros [] o Hlive. split; [done|].
  exists H'. split; [done|]. intros p. rewrite Hc. unfold freed_in.
  destruct (T !! p) as [[k x]|] eqn:Hx; [|by rewrite (refs_ext _ _ _ _ Ecl)].
  destruct (tb_ok _ _ _ TB _ _ _ Hx) as (Hkb & _). pose proof (tb_pos _ _ _ TB _ _ _ Hx) as Hxb.
  simpl andb. rewrite freed_user by lia.
  assert (Hpos : bool_decide ((k, x) = (3, 0)) = (k =? 3)).
  { destruct (Z.eqb_spec k 3) as [->|]; [|by apply bool_decide_false; congruence].
    apply bool_decide_true. f_equal. simpl in Hxb. lia. }
  rewrite Hpos. rewrite (refs_zero A); [|intros q w Hq HC Hpr <-].
  - unfold user_table. simpl. destruct (k =? 3); simpl; [done|]. rewrite orb_false_r, Z.sub_0_r. done.
  - rewrite (Ecl _ _ Hq) in HC. by rewrite (Hleaf q w Hq HC Hpr) in Hx.
Qed.

Lemma vpmap_destroy_spec_witness :
  wp (vpmap_destroy 1) (fun _ s' => exists H', pg_held (v_pages s') H' /\ cnt H' 0x1000 = 0 /\ cnt H' 0x2000 = 1) demo_vst.
Proof.
  eapply wp_mono; [apply (vpmap_destroy_spec 0x1000 {[0x1000 := (3, 0)]} ∅ demo_held demo_vst 1 {[10 := {[1; 2]}]} {[1; 2]});
    [by apply empty_space; left|done|done|done|done| | |done|set_solver]|].
  { intros p. unfold refs, cnt, demo_held. rewrite map_filter_empty, map_size_empty.
    rewrite lookup_insert, lookup_singleton. repeat case_decide; simpl; lia. }
  { split; [done|]. split; [done|]. split.
    - intros c [X [<- _]%lookup_singleton_Some]. done.
    - intros c X x [<- <-]%lookup_singleton_Some. set_unfold. intros [->| ->]; done. }
  intros [] s' (_ & H' & Hp & Hc). exists H'. split; [done|]. by rewrite !Hc.
Defined.
