(* ===== verification/Vm.v ===== *)
(** * Address spaces (kernel/mm/vm.c)

    An address space is its list of memory regions (in list order, by the
    address of the region), its page tables (Vpmap.v) and its lock; regions
    come from the object allocator that also serves the page tables.  [kas] is
    the kernel's address space and [cur] the one of the current process (NULL
    when there is none).  Lists are the ones DList.v shows list.c to implement;
    [insert_ordered] is the insertion of list_append_ordered. *)

From stdpp Require Import prelude list gmap.
From Stdlib Require Import ZArith Lia.
From S2P Require Import Prelude Mmu DList ObjAlloc PageAlloc Vpmap.

Definition ADDR_ANYWHERE : Z := 0xfffffff.
Definition ERR_VM_BOUND : Z := 1.
Definition ERR_VM_INVALID : Z := 2.
Definition ERR_VM_RESOURCE_UNAVAIL : Z := 3.

Definition is_kern_memperm (perm : memperm) : bool :=
  match perm with MEMPERM_R | MEMPERM_RW => true | _ => false end.

Record memregion := mkMr {
  mr_as : Z;
  mr_start : Z;
  mr_end : Z;
  mr_perm : memperm;
  mr_shared : Z;
  mr_store : Z;
  mr_ofs : Z
}.

Record addrspace := mkAs {
  as_regions : list Z;
  as_vpmap : Z;
  as_lock : bool;
  as_heap : Z
}.

Record vmst (P O : Type) := mkVm {
  vm_v : vst P O;
  vm_mr : gmap Z memregion;
  vm_as : gmap Z addrspace;
  vm_allocator : Z
}.
Arguments mkVm {P O}.
Arguments vm_v {P O}.
Arguments vm_mr {P O}.
Arguments vm_as {P O}.
Arguments vm_allocator {P O}.

Definition set_mr_perm (v : memperm) (r : memregion) : memregion :=
  mkMr (mr_as r) (mr_start r) (mr_end r) v (mr_shared r) (mr_store r) (mr_ofs r).
Definition set_mr_end (v : Z) (r : memregion) : memregion :=
  mkMr (mr_as r) (mr_start r) v (mr_perm r) (mr_shared r) (mr_store r) (mr_ofs r).
Definition set_regions (v : list Z) (a : addrspace) : addrspace := mkAs v (as_vpmap a) (as_lock a) (as_heap a).
Definition set_vpmap (v : Z) (a : addrspace) : addrspace := mkAs (as_regions a) v (as_lock a) (as_heap a).
Definition set_as_lock (v : bool) (a : addrspace) : addrspace := mkAs (as_regions a) (as_vpmap a) v (as_heap a).
Definition set_heap (v : Z) (a : addrspace) : addrspace := mkAs (as_regions a) (as_vpmap a) (as_lock a) v.

(** The number of pages of a region. *)
Definition region_pages (r : memregion) : Z := pg_round_up (u64 (mr_end r - mr_start r)) / pg_size.

Definition memregion_comparator (a b : memregion) : Z := if mr_end b <=? mr_start a then 1 else 0.

Section ops.
Context {P O : Type} `{!PageAlloc P, !ObjAlloc O}.
Context (kas cur : Z).
Implicit Types s : vmst P O.
Abbreviation MM := (M (vmst P O)).

Definition set_vm_v (v : vst P O) s : vmst P O := mkVm v (vm_mr s) (vm_as s) (vm_allocator s).
Definition set_vm_mr (v : gmap Z memregion) s : vmst P O := mkVm (vm_v s) v (vm_as s) (vm_allocator s).
Definition set_vm_as (v : gmap Z addrspace) s : vmst P O := mkVm (vm_v s) (vm_mr s) v (vm_allocator s).

Definition on_v {A} (m : M (vst P O) A) : MM A := zoom vm_v set_vm_v m.
Definition get_mr (r : Z) : MM memregion := o <- gets (fun s => vm_mr s !! r);; deref o.
Definition put_mr (r : Z) (v : memregion) : MM unit := modify (fun s => set_vm_mr (<[r := v]> (vm_mr s)) s).
Definition get_as (a : Z) : MM addrspace := o <- gets (fun s => vm_as s !! a);; deref o.
Definition upd_as (a : Z) (f : addrspace -> addrspace) : MM unit :=
  v <- get_as a;; modify (fun s => set_vm_as (<[a := f v]> (vm_as s)) s).

(** The sleeplock of an address space. *)
Definition lock_as (a : Z) : MM unit :=
  v <- get_as a;; if as_lock v then stop Diverge else upd_as a (set_as_lock true).
Definition unlock_as (a : Z) : MM unit := upd_as a (set_as_lock false).

(** vpmap_flush_tlb reloads the page tables of the current process. *)
Definition flush_tlb : MM unit :=
  if cur =? NULL then on_v (vpmap_flush_tlb None)
  else a <- get_as cur;; on_v (vpmap_flush_tlb (Some (as_vpmap a))).

(** A loop over regions that returns early. *)
Fixpoint for_regions {A} (l : list Z) (body : Z -> memregion -> MM (option A)) : MM (option A) :=
  match l with
  | [] => ret None
  | r :: l =>
      v <- get_mr r;;
      o <- body r v;;
      match o with Some x => ret (Some x) | None => for_regions l body end
  end.

(** ** Internal operations *)

Definition memregion_find_internal (a addr size : Z) : MM Z :=
  v <- get_as a;;
  o <- for_regions (as_regions v) (fun r m =>
    if (mr_start m <=? addr) && (u64 (addr + size) <=? pg_round_up (mr_end m)) then ret (Some r) else ret None);;
  ret (default NULL o).

(** The loop carries the candidate address. *)
Fixpoint free_vaddr_loop (size addr : Z) (l : list Z) : MM (Z + Z) :=
  match l with
  | [] => ret (inr addr)
  | r :: l =>
      m <- get_mr r;;
      if pg_round_up (u64 (addr + size)) <? mr_start m then ret (inl addr)
      else free_vaddr_loop size (pg_round_up (mr_end m)) l
  end.

(** The result is [*ret_addr] when it is set. *)
Definition find_free_vaddr (a size : Z) : MM (option Z) :=
  kassert (negb (a =? kas));;
  v <- get_as a;;
  kassert (as_lock v);;
  addr <- match as_regions v with
          | [] => ret 0
          | r :: _ => m <- get_mr r;; ret (mr_end m)
          end;;
  o <- free_vaddr_loop size addr (as_regions v);;
  match o with
  | inl addr => ret (Some addr)
  | inr addr =>
      if pg_round_up (u64 (addr + size)) <? u64 (USTACK_LOWERBOUND - size) then ret (Some addr) else ret None
  end.

Definition memregion_unmap_internal (region : Z) : MM unit :=
  kassert (nonnull region);;
  r <- get_mr region;;
  a <- get_as (mr_as r);;
  kassert (as_lock a);;
  on_v (vpmap_unmap (as_vpmap a) (mr_start r) (region_pages r));;
  upd_as (mr_as r) (fun a => set_regions (filter (fun x => x <> region) (as_regions a)) a);;
  flush_tlb;;
  c <- gets vm_allocator;;
  on_v (on_objs (oa_free c region));;
  modify (fun s => set_vm_mr (delete region (vm_mr s)) s).

(** [junk] is what the memory of a new region holds before its fields are set:
    the ordered insertion compares against it. *)
Definition memregion_map_internal (junk : memregion) (a addr size : Z) (perm : memperm) (store ofs shared : Z) : MM Z :=
  kassert (nonnull a);;
  v <- get_as a;;
  kassert (as_lock v);;
  o <- (if addr =? ADDR_ANYWHERE then find_free_vaddr a size else ret (Some addr));;
  match o with
  | None => ret NULL
  | Some addr =>
      kassert (pg_aligned addr);;
      kassert (addr <=? u64 (addr + pg_round_up size));;
      if negb (a =? kas) && (is_kern_memperm perm ||
           negb (is_user_addr (Z.land (pg_round_up (u64 (addr + size))) (u64 (Z.lnot 0xFFF)))))
      then ret NULL
      else
        f <- memregion_find_internal a addr (u64 (addr + size));;
        if negb (f =? NULL) then ret NULL
        else
          c <- gets vm_allocator;;
          r <- on_v (on_objs (oa_alloc c));;
          if r =? NULL then ret NULL
          else
            put_mr r junk;;
            v <- get_as a;;
            mr <- gets vm_mr;;
            upd_as a (set_regions (insert_ordered (fun x y =>
              match mr !! x, mr !! y with
              | Some p, Some q => memregion_comparator p q
              | _, _ => 0
              end) r (as_regions v)));;
            put_mr r (mkMr a addr (u64 (addr + size)) perm shared store ofs);;
            ret r
  end.

Definition memregion_copy_internal (junk : memregion) (a src addr : Z) : MM Z :=
  m <- get_mr src;;
  dst <- memregion_map_internal junk a addr (u64 (mr_end m - mr_start m)) (mr_perm m) (mr_store m) (mr_ofs m) (mr_shared m);;
  if negb (dst =? NULL) then
    sa <- get_as (mr_as m);;
    da <- get_as a;;
    err <- on_v (vpmap_copy (as_vpmap sa) (as_vpmap da) (mr_start m) addr (region_pages m) (mr_perm m));;
    if negb (err =? ERR_OK) then memregion_unmap_internal dst;; ret NULL
    else ret dst
  else ret dst.

(** ** The interface *)

(** Of a new address space. *)
Definition as_init (a : Z) : MM Z :=
  kassert (nonnull a);;
  modify (fun s => set_vm_as (<[a := mkAs [] NULL false NULL]> (vm_as s)) s);;
  v <- on_v vpmap_create;;
  upd_as a (set_vpmap v);;
  if v =? NULL then ret ERR_VM_RESOURCE_UNAVAIL
  else
    upd_as a (set_heap NULL);;
    on_v (vpmap_copy_kernel_mapping v).

Fixpoint unmap_all (l : list Z) : MM unit :=
  match l with
  | [] => ret tt
  | r :: l => memregion_unmap_internal r;; unmap_all l
  end.

Definition as_destroy (a : Z) : MM unit :=
  kassert (nonnull a);;
  kassert (negb (a =? kas));;
  lock_as a;;
  v <- get_as a;;
  on_v (vpmap_destroy (as_vpmap v));;
  upd_as a (set_vpmap NULL);;
  unmap_all (as_regions v);;
  unlock_as a.

(** The second lock is taken with a loop of tries. *)
Definition lock_second (a : Z) : MM unit := lock_as a.

Definition as_copy_as (junk : memregion) (src_as dst_as : Z) : MM Z :=
  kassert (nonnull src_as && nonnull dst_as);;
  kassert (negb (src_as =? dst_as));;
  lock_as src_as;;
  lock_second dst_as;;
  v <- get_as src_as;;
  o <- for_regions (as_regions v) (fun r m =>
    dst_r <- memregion_copy_internal junk dst_as r (mr_start m);;
    if dst_r =? NULL then ret (Some ERR_NOMEM)
    else
      s <- get_as src_as;;
      (if r =? as_heap s then upd_as dst_as (set_heap dst_r) else ret tt);;
      ret None);;
  unlock_as src_as;;
  unlock_as dst_as;;
  ret (default ERR_OK o).

Definition as_map_memregion (junk : memregion) (a addr size : Z) (perm : memperm) (store ofs shared : Z) : MM Z :=
  kassert (nonnull a);;
  lock_as a;;
  r <- memregion_map_internal junk a addr size perm store ofs shared;;
  unlock_as a;;
  ret r.

Definition as_find_memregion (a addr size : Z) : MM Z :=
  kassert (nonnull a);;
  if u64 (addr + size) <? addr then ret NULL
  else
    lock_as a;;
    r <- memregion_find_internal a addr size;;
    unlock_as a;;
    ret r.

Definition as_copy_memregion (junk : memregion) (a src addr : Z) : MM Z :=
  kassert (nonnull a);;
  kassert (nonnull src);;
  kassert (pg_aligned addr);;
  lock_as a;;
  m <- get_mr src;;
  (if negb (a =? mr_as m) then lock_second (mr_as m) else ret tt);;
  dst <- memregion_copy_internal junk a src addr;;
  unlock_as a;;
  (if negb (a =? mr_as m) then unlock_as (mr_as m) else ret tt);;
  ret dst.

(** The result is the error code with [*old_bound] when it is set. *)
Definition memregion_extend (region size : Z) : MM (Z * option Z) :=
  r <- get_mr region;;
  if size =? 0 then ret (ERR_OK, Some (mr_end r))
  else
    let new_end := u64 (mr_end r + size) in
    if u64 (mr_end r + size) <? mr_start r then ret (ERR_VM_INVALID, None)
    else
      kassert (nonnull cur);;
      a <- get_as cur;;
      o <- for_regions (as_regions a) (fun x m =>
        if x =? region then ret None
        else if ((mr_start m <? new_end) && (mr_start r <=? mr_start m)) ||
                ((mr_start r <? mr_end m) && (mr_start m <=? mr_start r))
        then ret (Some ERR_VM_BOUND) else ret None);;
      match o with
      | Some err => ret (err, None)
      | None =>
          put_mr region (set_mr_end new_end r);;
          ret (ERR_OK, Some (mr_end r))
      end.

Definition memregion_set_perm (region : Z) (perm : memperm) : MM Z :=
  kassert (nonnull region);;
  r <- get_mr region;;
  if is_kern_memperm perm && negb (mr_as r =? kas) then ret ERR_VM_INVALID
  else
    lock_as (mr_as r);;
    a <- get_as (mr_as r);;
    on_v (vpmap_set_perm (as_vpmap a) (mr_start r) (region_pages r) perm);;
    put_mr region (set_mr_perm perm r);;
    flush_tlb;;
    unlock_as (mr_as r);;
    ret ERR_OK.

Definition memregion_unmap (region : Z) : MM unit :=
  r <- get_mr region;;
  lock_as (mr_as r);;
  memregion_unmap_internal region;;
  unlock_as (mr_as r).
End ops.
