(* ===== verification/VmSpec.v ===== *)
(** * Address spaces: specifications *)

From stdpp Require Import prelude list gmap.
From Stdlib Require Import ZArith Lia.
From S2P Require Import Prelude Mmu DList ObjAlloc PageAlloc Vpmap Vm.

(** Two regions without a common address. *)
Definition apart (s1 e1 s2 e2 : Z) : Prop := e1 <= s2 \/ e2 <= s1.
Definition mr_apart (m1 m2 : memregion) : Prop := apart (mr_start m1) (mr_end m1) (mr_start m2) (mr_end m2).

Section spec.
Context {P O : Type} `{!PageAlloc P, !ObjAlloc O}.
Context (kas cur : Z).
Implicit Types (s : vmst P O) (r x : Z) (l : list Z).

(** The regions of a list are allocated. *)
Definition present s l : Prop := Forall (fun r => r <> NULL /\ is_Some (vm_mr s !! r)) l.
(** They are pairwise apart. *)
Definition disjoint_regions s l : Prop :=
  forall r1 r2 m1 m2, r1 ∈ l -> r2 ∈ l -> r1 <> r2 -> vm_mr s !! r1 = Some m1 -> vm_mr s !! r2 = Some m2 -> mr_apart m1 m2.

Lemma wp_get_mr r m s (Q : memregion -> vmst P O -> Prop) : vm_mr s !! r = Some m -> Q m s -> wp (get_mr r) Q s.
Proof using Type. intros Hm HQ. unfold get_mr. wp_step. wp_step. rewrite Hm. by eapply wp_deref. Qed.
Lemma wp_get_as a v s (Q : addrspace -> vmst P O -> Prop) : vm_as s !! a = Some v -> Q v s -> wp (get_as a) Q s.
Proof using Type. intros Hv HQ. unfold get_as. wp_step. wp_step. rewrite Hv. by eapply wp_deref. Qed.
Lemma wp_upd_as a v f s (Q : unit -> vmst P O -> Prop) :
  vm_as s !! a = Some v -> Q tt (set_vm_as (<[a := f v]> (vm_as s)) s) -> wp (upd_as a f) Q s.
Proof using Type. intros Hv HQ. unfold upd_as. wp_step. eapply wp_get_as; [done|]. by wp_step. Qed.

(** A search loop that changes nothing stops at the first region that passes
    the test. *)
Lemma wp_for_regions {A} l s (body : Z -> memregion -> M (vmst P O) (option A)) (test : Z -> memregion -> bool) (f : Z -> A)
    (Q : option A -> vmst P O -> Prop) :
  present s l ->
  (forall r m, wp (body r m) (fun o s' => s' = s /\ o = if test r m then Some (f r) else None) s) ->
  (forall r m, r ∈ l -> vm_mr s !! r = Some m -> test r m = true -> Q (Some (f r)) s) ->
  ((forall r m, r ∈ l -> vm_mr s !! r = Some m -> test r m = false) -> Q None s) ->
  wp (for_regions l body) Q s.
Proof using Type.
  intros Hp Hb. induction Hp as [|r l (Hr & m & Hm) Hp IH]; intros HS HN; simpl.
  - wp_step. apply HN. by intros r m ?%elem_of_nil.
  - wp_step. eapply wp_get_mr; [done|]. wp_step. eapply wp_mono; [apply Hb|]. intros o s' (-> & ->).
    destruct (test r m) eqn:E; [wp_step; eapply HS; [apply list_elem_of_here|done|done]|].
    apply IH.
    + intros x m' Hx. apply HS. by apply list_elem_of_further.
    + intros Hno. apply HN. intros x m' [->|Hx]%elem_of_cons Hm'; [congruence|by eapply Hno].
Qed.

(** ** Locks *)

Lemma wp_locked {A} a v s (c : M (vmst P O) A) (Q : A -> vmst P O -> Prop) :
  vm_as s !! a = Some v -> as_lock v = false ->
  wp c (fun o s' => exists v', vm_as s' !! a = Some v' /\
     Q o (set_vm_as (<[a := set_as_lock false v']> (vm_as s')) s')) (set_vm_as (<[a := set_as_lock true v]> (vm_as s)) s) ->
  wp (lock_as a;; o <- c;; unlock_as a;; ret o) Q s.
Proof using Type.
  intros Hv Hl Hc. wp_step. unfold lock_as. wp_step. eapply wp_get_as; [done|]. rewrite Hl.
  eapply wp_upd_as; [done|]. wp_step. eapply wp_mono; [exact Hc|]. intros r s' (v' & Hv' & HQ).
  wp_step. unfold unlock_as. eapply wp_upd_as; [done|]. by wp_step.
Qed.

(** Locking and unlocking restores the state. *)
Lemma relock a v s : vm_as s !! a = Some v -> as_lock v = false ->
  set_vm_as (<[a := set_as_lock false (set_as_lock true v)]> (<[a := set_as_lock true v]> (vm_as s)))
    (set_vm_as (<[a := set_as_lock true v]> (vm_as s)) s) = s.
Proof using Type.
  intros Hv Hl. destruct v as [l vp lk h]. simpl in *. subst lk. destruct s. unfold set_vm_as. simpl in *.
  by rewrite insert_insert_eq, insert_id.
Qed.

(** ** Finding a region *)

(** The range [addr, addr + size) is inside the pages of the region. *)
Definition covers (m : memregion) (addr size : Z) : Prop :=
  mr_start m <= addr /\ addr + size <= pg_round_up (mr_end m).

Lemma wp_find a v s addr size (Q : Z -> vmst P O -> Prop) :
  vm_as s !! a = Some v -> present s (as_regions v) ->
  (forall r m, r ∈ as_regions v -> vm_mr s !! r = Some m ->
     mr_start m <= addr -> u64 (addr + size) <= pg_round_up (mr_end m) -> Q r s) ->
  ((forall r m, r ∈ as_regions v -> vm_mr s !! r = Some m ->
     ~ (mr_start m <= addr /\ u64 (addr + size) <= pg_round_up (mr_end m))) -> Q NULL s) ->
  wp (memregion_find_internal a addr size) Q s.
Proof using Type.
  intros Hv Hp HS HN. unfold memregion_find_internal. wp_step. eapply wp_get_as; [done|]. wp_step.
  eapply (wp_for_regions _ s _ (fun _ m => (mr_start m <=? addr) && (u64 (addr + size) <=? pg_round_up (mr_end m))) (fun r => r)); [done| | |].
  - intros r m. case_match; by wp_step.
  - intros r m Hr Hm [Ha Hb]%andb_prop. wp_step. simpl. apply Z.leb_le in Ha, Hb. by eapply HS.
  - intros Hno. wp_step. apply HN. intros r m Hr Hm [Ha Hb]. specialize (Hno _ _ Hr Hm).
    apply Z.leb_le in Ha, Hb. rewrite Ha, Hb in Hno. done.
Qed.

Lemma wp_as_find a v s addr size :
  a <> NULL -> vm_as s !! a = Some v -> as_lock v = false -> present s (as_regions v) ->
  0 <= addr < 2 ^ 64 -> 0 <= size < 2 ^ 64 ->
  wp (as_find_memregion a addr size) (fun r s' => s' = s /\
    ((r = NULL /\ (2 ^ 64 <= addr + size \/
        forall x m, x ∈ as_regions v -> vm_mr s !! x = Some m -> ~ covers m addr size)) \/
     (r ∈ as_regions v /\ exists m, vm_mr s !! r = Some m /\ covers m addr size))) s.
Proof using Type.
  intros Ha Hv Hl Hp Haddr Hsize. unfold as_find_memregion. wp_step. wp_step; [by apply nonnull_true|].
  destruct (Z.ltb_spec (u64 (addr + size)) addr) as [Hov|Hov].
  - wp_step. split; [done|]. left. split; [done|]. left. destruct (Z.le_gt_cases (2 ^ 64) (addr + size)); [done|].
    rewrite (wrapu_small 64) in Hov; lia.
  - assert (E : u64 (addr + size) = addr + size).
    { destruct (Z.le_gt_cases (2 ^ 64) (addr + size)); [|apply wrapu_small; lia].
      unfold wrapu in Hov. replace (addr + size) with (addr + size - 2 ^ 64 + 1 * 2 ^ 64) in Hov by lia.
      rewrite Z.mod_add, Z.mod_small in Hov; lia. }
    eapply wp_locked; [done|done|]. eapply wp_find; [simpl; by rewrite lookup_insert_eq|done|..].
    + intros r m Hr Hm H1 H2. exists (set_as_lock true v). simpl. rewrite lookup_insert_eq. split; [done|].
      split; [by apply relock|]. right. split; [done|]. exists m. split; [done|]. rewrite E in H2. by split.
    + intros Hno. exists (set_as_lock true v). simpl. rewrite lookup_insert_eq. split; [done|].
      split; [by apply relock|]. left. split; [done|]. right. intros x m Hx Hm [? ?].
      apply (Hno x m); [done|done|]. by rewrite E.
Qed.

(** ** Extending a region *)

(** The test of memregion_extend for an overlap with [start, end). *)
Definition overlap_test (start end_ : Z) (m : memregion) : bool :=
  ((mr_start m <? end_) && (start <=? mr_start m)) || ((start <? mr_end m) && (mr_start m <=? start)).

Lemma overlap_test_false start end_ m : overlap_test start end_ m = false -> apart start end_ (mr_start m) (mr_end m).
Proof using Type.
  unfold overlap_test, apart. intros H. apply orb_false_elim in H as [H1 H2].
  destruct (Z.ltb_spec (mr_start m) end_), (Z.leb_spec start (mr_start m)),
    (Z.ltb_spec start (mr_end m)), (Z.leb_spec (mr_start m) start); simpl in *; (done || lia).
Qed.
Lemma overlap_test_true start end_ m : start < end_ -> mr_start m < mr_end m ->
  overlap_test start end_ m = true -> ~ apart start end_ (mr_start m) (mr_end m).
Proof using Type.
  unfold overlap_test, apart. intros Hs Hm H. apply orb_prop in H as [H|H]; apply andb_prop in H as [H1 H2];
    apply Z.ltb_lt in H1; apply Z.leb_le in H2; lia.
Qed.

(** The outcome of [memregion_extend region size]. *)
Inductive extended (region : Z) (m : memregion) (v : addrspace) (size : Z) s : Z * option Z -> vmst P O -> Prop :=
| ext_none : size = 0 -> extended region m v size s (ERR_OK, Some (mr_end m)) s
| ext_invalid : size <> 0 -> u64 (mr_end m + size) < mr_start m -> extended region m v size s (ERR_VM_INVALID, None) s
| ext_bound x mx : size <> 0 -> mr_start m <= u64 (mr_end m + size) -> x ∈ as_regions v -> x <> region ->
    vm_mr s !! x = Some mx -> overlap_test (mr_start m) (u64 (mr_end m + size)) mx = true ->
    extended region m v size s (ERR_VM_BOUND, None) s
| ext_done : size <> 0 -> mr_start m <= u64 (mr_end m + size) ->
    (forall x mx, x ∈ as_regions v -> x <> region -> vm_mr s !! x = Some mx ->
       apart (mr_start m) (u64 (mr_end m + size)) (mr_start mx) (mr_end mx)) ->
    extended region m v size s (ERR_OK, Some (mr_end m))
      (set_vm_mr (<[region := set_mr_end (u64 (mr_end m + size)) m]> (vm_mr s)) s).

Lemma wp_extend region m v s size :
  cur <> NULL -> vm_as s !! cur = Some v -> vm_mr s !! region = Some m -> present s (as_regions v) ->
  wp (memregion_extend cur region size) (extended region m v size s) s.
Proof using Type.
  intros Hc Hv Hm Hp. unfold memregion_extend. wp_step. eapply wp_get_mr; [done|]. cbv zeta.
  destruct (Z.eqb_spec size 0) as [E|E]; [wp_step; by constructor|].
  destruct (Z.ltb_spec (u64 (mr_end m + size)) (mr_start m)) as [H|H]; [wp_step; by constructor|].
  wp_step. wp_step; [by apply nonnull_true|]. wp_step. eapply wp_get_as; [done|]. wp_step.
  eapply (wp_for_regions _ s _ (fun x mx => negb (x =? region) && overlap_test (mr_start m) (u64 (mr_end m + size)) mx) (fun _ => ERR_VM_BOUND)); [done| | |].
  - intros x mx. unfold overlap_test. destruct (x =? region); simpl; [by wp_step|]. case_match; by wp_step.
  - intros x mx Hx Hmx [Hne%negb_true_iff%Z.eqb_neq Ht]%andb_prop. wp_step. by eapply ext_bound.
  - intros Hno. unfold put_mr. wp_step. wp_step. wp_step. apply ext_done; [done|done|]. intros x mx Hx Hne Hmx.
    apply overlap_test_false. specialize (Hno _ _ Hx Hmx). rewrite (proj2 (Z.eqb_neq x region) Hne) in Hno. done.
Qed.

Lemma extended_disjoint region m v size s o s' :
  vm_mr s !! region = Some m -> disjoint_regions s (as_regions v) ->
  extended region m v size s o s' -> disjoint_regions s' (as_regions v).
Proof using Type.
  intros Hm Hd Hx. inversion Hx as [| | |? ? Hap]; subst; try done.
  intros r1 r2 m1 m2 H1 H2 Hne. simpl. rewrite !lookup_insert. do 2 case_decide; subst; [done|..].
  - intros [= <-] Hm2. simpl. unfold mr_apart. simpl. by apply (Hap r2).
  - intros Hm1 [= <-]. unfold mr_apart, apart. simpl. destruct (Hap r1 m1); [done|done|done|by right|by left].
  - by apply Hd.
Qed.

(** ** Finding free addresses *)

(** The regions in list order: ascending from [lo], with page-rounded ends below
    the next start, up to the end of the user stack. *)
Fixpoint ascending s (lo : Z) l : Prop :=
  match l with
  | [] => True
  | r :: l => exists m, vm_mr s !! r = Some m /\ lo <= mr_start m /\ mr_start m <= mr_end m /\
                mr_end m <= USTACK_UPPERBOUND /\ ascending s (pg_round_up (mr_end m)) l
  end.

Lemma round_up_ge x : 0 <= x -> x + 4095 < 2 ^ 64 -> x <= pg_round_up x /\ pg_round_up x mod PG_SIZE = 0 /\ pg_round_up x < x + 4096.
Proof using Type.
  intros H0 H1. rewrite pg_round_up_spec by (unfold PG_SIZE; lia). unfold PG_SIZE. rewrite Z.mod_mul by lia.
  pose proof (Z.div_mod (x + 4096 - 1) 4096). pose proof (Z.mod_pos_bound (x + 4096 - 1) 4096). lia.
Qed.

(** The end of a region below the stack bound rounds up without wrapping. *)
Lemma round_up_end x : 0 <= x <= USTACK_UPPERBOUND ->
  x <= pg_round_up x <= USTACK_UPPERBOUND /\ pg_round_up x mod PG_SIZE = 0.
Proof using Type.
  intros Hx. unfold USTACK_UPPERBOUND in *. destruct (round_up_ge x) as (H1 & H2 & H3); [lia|lia|].
  split; [|done]. split; [done|]. rewrite pg_round_up_spec in * by (unfold PG_SIZE; lia). unfold PG_SIZE in *.
  pose proof (Z.div_le_mono (x + 4096 - 1) (0xFFFFFF7FFFFFF000 + 4096 - 1) 4096).
  change ((0xFFFFFF7FFFFFF000 + 4096 - 1) / 4096) with (0xFFFFFF7FFFFFF) in *. lia.
Qed.

Lemma ascending_starts s lo l r m : 0 <= lo -> ascending s lo l -> r ∈ l -> vm_mr s !! r = Some m -> lo <= mr_start m.
Proof using Type.
  revert lo. induction l as [|x l IH]; intros lo H0 Ha Hr Hm; [by apply elem_of_nil in Hr|].
  destruct Ha as (mx & Hmx & H1 & H2 & H3 & Ha). apply elem_of_cons in Hr as [->|Hr]; [congruence|].
  destruct (round_up_end (mr_end mx)) as [? _]; [lia|].
  pose proof (IH (pg_round_up (mr_end mx)) ltac:(lia) Ha Hr Hm). lia.
Qed.

(** The candidate is apart from the regions of the list. *)
Definition free_at s (x size : Z) l : Prop :=
  forall r m, r ∈ l -> vm_mr s !! r = Some m -> apart x (x + size) (mr_start m) (mr_end m).

(** No gap in front of a region is large enough; [x] is the address behind
    the last one. *)
Fixpoint tight s (size lo : Z) l (x : Z) : Prop :=
  match l with
  | [] => x = lo
  | r :: l => exists m, vm_mr s !! r = Some m /\ mr_start m <= pg_round_up (lo + size) /\
                tight s size (pg_round_up (mr_end m)) l x
  end.

(** Nor is there room between the last region and the stack. *)
Definition no_gap s (size : Z) l : Prop := exists x,
  tight s size (match l with [] => 0 | r :: _ => default 0 (mr_end <$> vm_mr s !! r) end) l x /\
  USTACK_LOWERBOUND - size <= pg_round_up (x + size).

Lemma wp_free_loop size addr l s :
  0 <= size < 2 ^ 38 -> 0 <= addr <= USTACK_UPPERBOUND -> addr mod PG_SIZE = 0 -> ascending s addr l ->
  wp (free_vaddr_loop size addr l) (fun o s' => s' = s /\
    let x := match o with inl x | inr x => x end in
    addr <= x <= USTACK_UPPERBOUND /\ x mod PG_SIZE = 0 /\ free_at s x size l /\
    match o with inl x => x + size <= USTACK_UPPERBOUND | inr x => tight s size addr l x end) s.
Proof using Type.
  intros Hsz. revert addr. induction l as [|r l IH]; intros addr Haddr Hal Hasc; simpl.
  - wp_step. split; [done|]. split; [lia|]. split; [done|]. split; [by intros r m ?%elem_of_nil|done].
  - destruct Hasc as (m & Hm & H1 & H2 & H3 & Hasc). wp_step. eapply wp_get_mr; [done|].
    assert (Eu : u64 (addr + size) = addr + size) by (apply wrapu_small; unfold USTACK_UPPERBOUND in *; lia).
    rewrite Eu. destruct (round_up_ge (addr + size)) as (G1 & _ & _); [lia|unfold USTACK_UPPERBOUND in *; lia|].
    destruct (round_up_end (mr_end m)) as [R1 R2]; [lia|].
    destruct (Z.ltb_spec (pg_round_up (addr + size)) (mr_start m)) as [Hlt|Hge].
    + wp_step. split; [done|]. split; [lia|]. split; [done|]. split; [|lia].
      intros x mx [->|Hx]%elem_of_cons Hmx; left; [simplify_eq; lia|].
      assert (pg_round_up (mr_end m) <= mr_start mx) by (eapply ascending_starts; [|exact Hasc|done|done]; lia). lia.
    + eapply wp_mono; [apply IH; [lia|done|done]|]. intros o s' (-> & Hb & Hal' & Hfree & Hlast). split; [done|].
      split; [lia|]. split; [done|]. split; [intros x mx [->|Hx]%elem_of_cons Hmx; [right; simplify_eq; lia|by apply (Hfree x)]|].
      destruct o; [done|]. by exists m.
Qed.

Lemma wp_find_free a v s size :
  a <> kas -> vm_as s !! a = Some v -> as_lock v = true -> 0 <= size < 2 ^ 38 -> ascending s 0 (as_regions v) ->
  wp (find_free_vaddr kas a size) (fun o s' => s' = s /\ match o with
    | Some x => 0 <= x /\ x mod PG_SIZE = 0 /\ x + size <= USTACK_UPPERBOUND /\ free_at s x size (as_regions v)
    | None => no_gap s size (as_regions v)
    end) s.
Proof using Type.
  intros Hk Hv Hl Hsz Hasc. unfold find_free_vaddr. wp_step. wp_step; [by rewrite (proj2 (Z.eqb_neq a kas) Hk)|].
  wp_step. eapply wp_get_as; [done|]. wp_step. wp_step; [done|]. wp_step.
  assert (Hstart : forall addr, 0 <= addr <= USTACK_UPPERBOUND ->
    addr = (match as_regions v with [] => 0 | r :: _ => default 0 (mr_end <$> vm_mr s !! r) end) -> wp (free_vaddr_loop size addr (as_regions v)) (fun o s' => s' = s /\
    let x := match o with inl x | inr x => x end in
    0 <= x <= USTACK_UPPERBOUND /\ x mod PG_SIZE = 0 /\ free_at s x size (as_regions v) /\
    match o with inl x => x + size <= USTACK_UPPERBOUND | inr x => tight s size addr (as_regions v) x end) s ->
    wp (o <- free_vaddr_loop size addr (as_regions v);;
        match o with
        | inl addr => ret (Some addr)
        | inr addr => if pg_round_up (u64 (addr + size)) <? u64 (USTACK_LOWERBOUND - size) then ret (Some addr) else ret None
        end) (fun o s' => s' = s /\ match o with
          | Some x => 0 <= x /\ x mod PG_SIZE = 0 /\ x + size <= USTACK_UPPERBOUND /\ free_at s x size (as_regions v)
          | None => no_gap s size (as_regions v)
          end) s).
  { intros addr Haddr Ea Hw. wp_step. eapply wp_mono; [exact Hw|]. intros [x|x] s' (-> & Hb & Hal & Hfree & Hlast).
    - wp_step. split; [done|]. split; [lia|done].
    - rewrite (wrapu_small 64 (x + size)), (wrapu_small 64 (_ - size)) by (unfold USTACK_LOWERBOUND, USTACK_UPPERBOUND, USTACK_PAGES, PG_SIZE in *; lia).
      destruct (Z.ltb_spec (pg_round_up (x + size)) (USTACK_LOWERBOUND - size)) as [E|E].
      + wp_step. split; [done|]. unfold USTACK_LOWERBOUND, USTACK_UPPERBOUND, USTACK_PAGES, PG_SIZE in *.
        destruct (round_up_ge (x + size)) as (G1 & _ & _); [lia|lia|]. split; [lia|]. split; [done|]. split; [lia|done].
      + wp_step. split; [done|]. exists x. rewrite <- Ea. done. }
  destruct (as_regions v) as [|r l] eqn:El.
  - wp_step. apply Hstart; [done|done|]. by apply wp_free_loop.
  - destruct Hasc as (m & Hm & H1 & H2 & H3 & Hasc). wp_step. eapply wp_get_mr; [done|]. wp_step.
    apply Hstart; [lia|by rewrite Hm|]. simpl. wp_step. eapply wp_get_mr; [done|]. destruct (round_up_end (mr_end m)) as [R1 R2]; [lia|].
    assert (Eu : u64 (mr_end m + size) = mr_end m + size) by (apply wrapu_small; unfold USTACK_UPPERBOUND in *; lia).
    rewrite Eu. destruct (round_up_ge (mr_end m + size)) as (G1 & _ & _); [lia|unfold USTACK_UPPERBOUND in *; lia|].
    rewrite (proj2 (Z.ltb_ge _ _)) by lia.
    eapply wp_mono; [apply wp_free_loop; [done|lia|done|done]|]. intros o s' (-> & Hb & Hal & Hfree & Hlast).
    split; [done|]. split; [lia|]. split; [done|]. split; [intros x mx [->|Hx]%elem_of_cons Hmx; [right; simplify_eq; lia|by apply (Hfree x)]|].
    destruct o; [done|]. exists m. split; [done|]. split; [lia|done].
Qed.

(** ** Mapping a region *)

(** The memregion cache owns the allocated regions. *)
Definition regions_owned s : Prop :=
  exists L X, oa_live (v_objs (vm_v s)) L /\ L !! vm_allocator s = Some X /\ dom (vm_mr s) ⊆ X.

(** The request is one the kasserts accept. *)
Definition map_request (a addr size : Z) l s : Prop :=
  if decide (addr = ADDR_ANYWHERE) then a <> kas /\ 0 <= size < 2 ^ 38 /\ ascending s 0 l
  else pg_aligned addr = true /\ addr <= u64 (addr + pg_round_up size).

(** The start address: the one requested, or a free one. *)
Definition chosen (addr size x : Z) l s : Prop :=
  if decide (addr = ADDR_ANYWHERE)
  then free_at s x size l /\ x mod PG_SIZE = 0 /\ 0 <= x /\ x + size <= USTACK_UPPERBOUND else x = addr.

(** A user address space gets no kernel permission and no range that ends in
    the kernel half. *)
Definition barred (a : Z) (perm : memperm) (x size : Z) : bool :=
  negb (a =? kas) && (is_kern_memperm perm || (kvm_base <=? pg_round_up (u64 (x + size)))).

(** A region of the list contains the range the code looks for: it passes the
    end of the range as its size. *)
Definition taken s (x size : Z) l : Prop :=
  exists r m, r ∈ l /\ vm_mr s !! r = Some m /\ mr_start m <= x /\ u64 (x + u64 (x + size)) <= pg_round_up (mr_end m).

(** The outcomes: NULL with a reason and nothing changed but, when it had no
    object, the allocator; or one region more. *)
Inductive mapped (a addr size : Z) (perm : memperm) (store ofs shared : Z) (v : addrspace) s : Z -> vmst P O -> Prop :=
| map_nospace : addr = ADDR_ANYWHERE -> no_gap s size (as_regions v) -> mapped a addr size perm store ofs shared v s NULL s
| map_barred x : chosen addr size x (as_regions v) s -> barred a perm x size = true ->
    mapped a addr size perm store ofs shared v s NULL s
| map_taken x : chosen addr size x (as_regions v) s -> barred a perm x size = false -> taken s x size (as_regions v) ->
    mapped a addr size perm store ofs shared v s NULL s
| map_nomem x o : chosen addr size x (as_regions v) s -> barred a perm x size = false -> ~ taken s x size (as_regions v) ->
    short 1 (v_objs (vm_v s)) ->
    mapped a addr size perm store ofs shared v s NULL (set_vm_v (set_objs o (vm_v s)) s)
| map_done r x l o : r <> NULL -> vm_mr s !! r = None -> l ≡ₚ r :: as_regions v ->
    chosen addr size x (as_regions v) s -> barred a perm x size = false -> ~ taken s x size (as_regions v) ->
    mapped a addr size perm store ofs shared v s r
      (mkVm (set_objs o (vm_v s)) (<[r := mkMr a x (u64 (x + size)) perm shared store ofs]> (vm_mr s))
         (<[a := set_regions l v]> (vm_as s)) (vm_allocator s)).

Lemma barred_test a perm x size : barred a perm x size =
  negb (a =? kas) && (is_kern_memperm perm || negb (is_user_addr (Z.land (pg_round_up (u64 (x + size))) (u64 (Z.lnot 0xFFF))))).
Proof using Type.
  unfold barred, is_user_addr. do 2 f_equal. rewrite Z.ltb_antisym, negb_involutive. f_equal. unfold pg_round_up at 2.
  by rewrite <- Z.land_assoc, Z.land_diag.
Qed.

Lemma insert_ordered_perm compare r l : insert_ordered compare r l ≡ₚ r :: l.
Proof using Type.
  induction l as [|x l IH]; simpl; [done|]. case_match; [done|]. rewrite IH. apply Permutation_swap.
Qed.

Lemma wp_pick a v s addr size :
  vm_as s !! a = Some v -> as_lock v = true -> map_request a addr size (as_regions v) s ->
  wp (if addr =? ADDR_ANYWHERE then find_free_vaddr kas a size else ret (Some addr)) (fun o s' => s' = s /\ match o with
    | Some x => pg_aligned x = true /\ x <= u64 (x + pg_round_up size) /\ chosen addr size x (as_regions v) s
    | None => addr = ADDR_ANYWHERE /\ no_gap s size (as_regions v)
    end) s.
Proof using Type.
  intros Hv Hl Hreq. unfold map_request in Hreq. unfold chosen. case_decide as E.
  - subst addr. simpl. destruct Hreq as (Hk & Hsz & Hasc). eapply wp_mono; [by eapply wp_find_free|].
    intros [x|] s' (-> & Ho); (split; [done|]); [|done]. destruct Ho as (H0 & Hal & Hle & Hfree).
    split; [by apply pg_aligned_spec|]. split; [|by split]. destruct (round_up_ge size) as (? & _ & ?); [lia|lia|].
    rewrite (wrapu_small 64); unfold USTACK_UPPERBOUND in *; lia.
  - rewrite (proj2 (Z.eqb_neq addr ADDR_ANYWHERE) E). wp_step. split; [done|]. by destruct Hreq.
Qed.

Lemma wp_map_internal junk a v s addr size perm store ofs shared :
  a <> NULL -> vm_as s !! a = Some v -> as_lock v = true -> present s (as_regions v) -> regions_owned s ->
  map_request a addr size (as_regions v) s ->
  wp (memregion_map_internal kas junk a addr size perm store ofs shared)
     (mapped a addr size perm store ofs shared v s) s.
Proof using Type.
  intros Ha Hv Hl Hp (L & X & HL & HX & Hsub) Hreq.
  unfold memregion_map_internal. wp_step. wp_step; [by apply nonnull_true|]. wp_step. eapply wp_get_as; [done|].
  wp_step. wp_step; [done|]. wp_step. eapply wp_mono; [by eapply wp_pick|]. intros [x|] s' (-> & Ho).
  2:{ wp_step. destruct Ho. by apply map_nospace. }
  destruct Ho as (Hal & Hov & Hx). wp_step. wp_step; [done|].
  wp_step. wp_step; [by apply Z.leb_le|]. rewrite <- barred_test.
  destruct (barred a perm x size) eqn:Eb; [wp_step; by eapply map_barred|]. wp_step.
  eapply wp_find; [done|done| |].
  { intros r m Hr Hm H1 H2. pose proof Hp as Hp'. unfold present in Hp'. rewrite Forall_forall in Hp'. destruct (Hp' _ Hr) as [Hr0 _].
    rewrite (proj2 (Z.eqb_neq r NULL) Hr0). simpl negb. cbn match. wp_step. eapply map_taken; [done|done|]. by exists r, m. }
  intros Hno. rewrite Z.eqb_refl. simpl negb. cbn match. wp_step. wp_step. wp_step. unfold on_v. wp_step. unfold on_objs. wp_step.
  assert (Hnt : ~ taken s x size (as_regions v)) by (intros (r & m & ? & ? & ? & ?); by apply (Hno r m)).
  eapply wp_mono; [by eapply oa_alloc_uses|]. intros r ob ([[-> _]|(Hr & HrX & _)] & _ & Hsh).
  { rewrite Z.eqb_refl. wp_step. eapply map_nomem; eauto. }
  rewrite (proj2 (Z.eqb_neq r NULL) Hr).
  assert (Hrn : vm_mr s !! r = None).
  { apply not_elem_of_dom. intros Hd. by apply HrX, Hsub. }
  unfold put_mr. wp_step. wp_step. wp_step. eapply wp_get_as; [exact Hv|]. wp_step. wp_step. wp_step.
  eapply wp_upd_as; [exact Hv|]. wp_step. wp_step. wp_step.
  unfold set_vm_mr, set_vm_as, set_vm_v. cbn [vm_v vm_mr vm_as vm_allocator]. rewrite insert_insert_eq.
  by apply map_done; [..|apply insert_ordered_perm| | |].
Qed.

Lemma mapped_disjoint a addr size perm store ofs shared v s r s' v' :
  0 <= size < 2 ^ 38 -> vm_as s !! a = Some v -> disjoint_regions s (as_regions v) ->
  mapped a addr size perm store ofs shared v s r s' ->
  addr = ADDR_ANYWHERE \/ (free_at s addr size (as_regions v) /\ 0 <= addr /\ addr + size < 2 ^ 64) ->
  vm_as s' !! a = Some v' -> disjoint_regions s' (as_regions v').
Proof using Type.
  intros Hsz Hv Hd Hm Hfree Hv'. inversion Hm as [| | |x o|r0 x l o Hr Hrn Hl Hx Hb Ht]; subst; simpl in *; try (simplify_eq; done).
  rewrite lookup_insert_eq in Hv'. injection Hv' as <-. simpl.
  assert (Hf : free_at s x size (as_regions v) /\ u64 (x + size) = x + size).
  { unfold chosen in Hx. case_decide as E.
    - destruct Hx as (? & _ & ? & ?). split; [done|]. apply wrapu_small. unfold USTACK_UPPERBOUND in *. lia.
    - subst x. destruct Hfree as [|(? & ? & ?)]; [done|]. split; [done|]. apply wrapu_small. lia. }
  destruct Hf as [Hf Ef]. rewrite Ef.
  assert (Hin : forall y, y ∈ l -> y = r \/ y ∈ as_regions v) by (intros y Hy; rewrite Hl in Hy; by apply elem_of_cons in Hy).
  intros r1 r2 m1 m2 H1 H2 Hne. cbn [vm_mr]. rewrite !lookup_insert. do 2 case_decide; subst; [done|..].
  - intros [= <-] Hm2. unfold mr_apart. cbn [mr_start mr_end]. destruct (Hin _ H2); [done|]. by apply (Hf r2).
  - intros Hm1 [= <-]. unfold mr_apart. cbn [mr_start mr_end]. destruct (Hin _ H1); [done|].
    destruct (Hf r1 m1); [done|done|by right|by left].
  - intros Hm1 Hm2. destruct (Hin _ H1), (Hin _ H2); [congruence..|]. by apply (Hd r1 r2).
Qed.

Lemma wp_as_map junk a v s addr size perm store ofs shared :
  a <> NULL -> vm_as s !! a = Some v -> as_lock v = false -> present s (as_regions v) -> regions_owned s ->
  map_request a addr size (as_regions v) s ->
  wp (as_map_memregion kas junk a addr size perm store ofs shared)
     (mapped a addr size perm store ofs shared v s) s.
Proof using Type.
  intros Ha Hv Hl Hp Ho Hreq. unfold as_map_memregion. wp_step. wp_step; [by apply nonnull_true|].
  eapply wp_locked; [done|done|]. set (s1 := set_vm_as _ s).
  eapply wp_mono; [eapply (wp_map_internal junk a (set_as_lock true v) s1)|]; [done|simpl; by rewrite lookup_insert_eq|done|done|done| |].
  { unfold map_request in *. case_decide; [|done]. destruct Hreq as (? & ? & Hasc). do 2 (split; [done|]).
    clear -Hasc. simpl. revert Hasc. generalize 0. induction (as_regions v) as [|r l IH]; intros z; simpl; [done|].
    intros (m & ? & ? & ? & ? & ?). exists m. do 4 (split; [done|]). by apply IH. }
  assert (Et : forall x, taken s1 x size (as_regions v) <-> taken s x size (as_regions v)) by done.
  assert (Ec : forall x, chosen addr size x (as_regions v) s1 -> chosen addr size x (as_regions v) s) by done.
  assert (Eg : no_gap s1 size (as_regions v) -> no_gap s size (as_regions v)).
  { intros (x & Hx & ?). exists x. split; [|done]. clear -Hx. cbn [vm_mr set_vm_as s1] in *. revert Hx. generalize (match as_regions v with [] => 0 | r :: _ => default 0 (mr_end <$> vm_mr s !! r) end).
    induction (as_regions v) as [|r l IH]; intros z; simpl; [done|]. intros (m & ? & ? & ?). exists m. do 2 (split; [done|]). by apply IH. }
  assert (Hsame : forall r, mapped a addr size perm store ofs shared v s r s -> exists v', vm_as s1 !! a = Some v' /\
    mapped a addr size perm store ofs shared v s r (set_vm_as (<[a := set_as_lock false v']> (vm_as s1)) s1)).
  { intros r Hm. exists (set_as_lock true v). split; [simpl; by rewrite lookup_insert_eq|].
    replace (set_vm_as _ s1) with s; [done|]. symmetry. exact (relock a v s Hv Hl). }
  intros r s2 Hm. inversion Hm as [Hany Hg|x Hx Hb|x Hx Hb Ht|x o Hx Hb Ht Hsh|r0 x l o Hr Hrn Hpl Hx Hb Ht]; subst; cbn [as_regions set_as_lock] in *.
  - apply Hsame. by apply map_nospace; [|apply Eg].
  - apply Hsame. by eapply map_barred.
  - apply Hsame. by eapply map_taken.
  - exists (set_as_lock true v). simpl. rewrite lookup_insert_eq. split; [done|].
    pose proof (f_equal vm_as (relock a v s Hv Hl)) as E. simpl in E. unfold set_vm_as. simpl. rewrite E.
    by apply (map_nomem a addr size perm store ofs shared v s x o).
  - eexists. simpl. rewrite lookup_insert_eq. split; [done|]. unfold set_vm_as. simpl. rewrite !insert_insert_eq.
    destruct v as [lv vp lk h]. simpl in *. subst lk.
    by apply (map_done a addr size perm store ofs shared (mkAs lv vp false h) s r x l o).
Qed.
End spec.
