(* ===== verification/VmClaims.v ===== *)
(** * Address spaces: the claims *)

From stdpp Require Import prelude list gmap.
From Stdlib Require Import ZArith Lia.
From S2P Require Import Prelude Mmu DList ObjAlloc PageAlloc Vpmap RadixTreeClaims VpmapClaims Vm VmSpec.

(** A user address space (at 50) with a code region and a heap; region objects
    are those of cache 12. *)
Definition demo_code : memregion := mkMr 50 0x400000 0x403000 MEMPERM_UR 0 NULL 0.
Definition demo_heap : memregion := mkMr 50 0x500000 0x500800 MEMPERM_URW 0 NULL 0.
Definition demo_as : addrspace := mkAs [20; 21] 1 false 21.
Definition demo_vm : vmst pool bump :=
  mkVm (mkV (v_frames demo_vst) (v_vpmaps demo_vst) 10 3 0 (v_pages demo_vst)
          (mkBump 30 {[10 := {[1; 2]}; 12 := {[20; 21]}]}))
    {[20 := demo_code; 21 := demo_heap]} {[50 := demo_as]} 12.

Lemma demo_present : present demo_vm [20; 21].
Proof. do 2 (apply Forall_cons; split; [split; [done|by eexists]|]). by apply Forall_nil. Qed.
Lemma demo_ascending : ascending demo_vm 0 [20; 21].
Proof.
  exists demo_code. split; [reflexivity|]. split; [done|]. split; [done|]. split; [done|].
  exists demo_heap. split; [reflexivity|]. split; [vm_compute; discriminate|]. by repeat split.
Qed.
Lemma demo_disjoint : disjoint_regions demo_vm [20; 21].
Proof.
  intros r1 r2 m1 m2 H1 H2 Hne E1 E2. rewrite !elem_of_cons, elem_of_nil in H1, H2.
  destruct H1 as [->|[->|[]]], H2 as [->|[->|[]]]; try done; vm_compute in E1, E2; injection E1 as <-; injection E2 as <-;
    unfold mr_apart, apart; simpl; lia.
Qed.
Lemma demo_owned : regions_owned demo_vm.
Proof.
  exists {[10 := {[1; 2]}; 12 := {[20; 21]}]}, {[20; 21]}. split; [|split; [reflexivity|]].
  - split; [done|]. split; [done|]. simpl. split.
    + intros c [X E]. rewrite lookup_insert in E. case_decide; [lia|]. apply lookup_singleton_Some in E as [? _]. lia.
    + intros c X x E Hx. rewrite lookup_insert in E. case_decide; [|apply lookup_singleton_Some in E as [_ <-]]; simplify_eq; set_solver by lia.
  - simpl. set_solver.
Qed.

(** ([as_find_memregion]): the call returns a region whose pages contain
    the whole range, and NULL only when the range wraps around or no region of
    the address space contains it; nothing changes. *)
Theorem as_find_memregion_spec {P O} a v (s : vmst P O) addr size :
  a <> NULL -> vm_as s !! a = Some v -> as_lock v = false -> present s (as_regions v) ->
  0 <= addr < 2 ^ 64 -> 0 <= size < 2 ^ 64 ->
  wp (as_find_memregion a addr size) (fun r s' => s' = s /\
    ((r = NULL /\ (2 ^ 64 <= addr + size \/
        forall x m, x ∈ as_regions v -> vm_mr s !! x = Some m -> ~ covers m addr size)) \/
     (r ∈ as_regions v /\ exists m, vm_mr s !! r = Some m /\ covers m addr size))) s.
Proof. intros. by apply wp_as_find. Qed.

Lemma as_find_memregion_spec_witness :
  wp (as_find_memregion 50 0x402ff8 8) (fun r s' => s' = demo_vm /\
    ((r = NULL /\ (2 ^ 64 <= 0x402ff8 + 8 \/
        forall x m, x ∈ [20; 21] -> vm_mr demo_vm !! x = Some m -> ~ covers m 0x402ff8 8)) \/
     (r ∈ [20; 21] /\ exists m, vm_mr demo_vm !! r = Some m /\ covers m 0x402ff8 8))) demo_vm.
Proof. apply (as_find_memregion_spec 50 demo_as demo_vm 0x402ff8 8); [done|reflexivity|done|exact demo_present|done|done]. Defined.

(** C30 ([memregion_extend]): every outcome of the call.  Without a change of
    size it returns the bound; a bound that would wrap or move below the start
    is ERR_VM_INVALID; an overlap with another region of the current process is
    ERR_VM_BOUND; in both cases nothing changes.  Otherwise only the end of the
    region moves, and regions that were pairwise apart still are. *)
Theorem memregion_extend_spec {P O} cur region m v (s : vmst P O) size :
  cur <> NULL -> vm_as s !! cur = Some v -> vm_mr s !! region = Some m -> present s (as_regions v) ->
  disjoint_regions s (as_regions v) ->
  wp (memregion_extend cur region size) (fun o s' => extended region m v size s o s' /\
    disjoint_regions s' (as_regions v)) s.
Proof.
  intros Hc Hv Hm Hp Hd. eapply wp_mono; [by eapply wp_extend|]. intros o s' He. split; [done|].
  by eapply extended_disjoint.
Qed.

Lemma memregion_extend_spec_witness :
  wp (memregion_extend 50 21 0x1000) (fun o s' => extended 21 demo_heap demo_as 0x1000 demo_vm o s' /\
    disjoint_regions s' [20; 21]) demo_vm.
Proof.
  apply (memregion_extend_spec 50 21 demo_heap demo_as demo_vm 0x1000);
    [done|reflexivity|reflexivity|exact demo_present|exact demo_disjoint].
Defined.

(** The regions end below the top of the user stack. *)
Definition ends_low {P O} (s : vmst P O) (l : list Z) : Prop :=
  forall r m, r ∈ l -> vm_mr s !! r = Some m -> 0 <= mr_end m <= USTACK_UPPERBOUND.

(** What the overlap check finds does overlap, when nothing wraps around. *)
Lemma taken_overlaps {P O} (s : vmst P O) x size l : 0 < size -> 0 <= x -> x mod PG_SIZE = 0 -> x + (x + size) < 2 ^ 64 ->
  ends_low s l -> taken s x size l -> ~ free_at s x size l.
Proof.
  intros Hsz Hx Hal Hw Hlow (r & m & Hr & Hm & H1 & H2) Hf. specialize (Hf r m Hr Hm). pose proof (Hlow r m Hr Hm) as Hend.
  rewrite (wrapu_small 64 (x + size)), wrapu_small in H2 by lia.
  unfold USTACK_UPPERBOUND in Hend. destruct (round_up_ge (mr_end m)) as (_ & G2 & G3); [lia|lia|]. unfold PG_SIZE in *.
  pose proof (Z.div_mod x 4096 ltac:(lia)). pose proof (Z.div_mod (pg_round_up (mr_end m)) 4096 ltac:(lia)).
  unfold apart in Hf. lia.
Qed.



(** A permission of the kernel, a range of the kernel and a range the check
    finds are refused. *)
Example map_refused :
  value_of (as_map_memregion 40 demo_code 50 0x600000 0x1000 MEMPERM_RW 0 0 0 demo_vm) = Some NULL /\
  value_of (as_map_memregion 40 demo_code 50 (kvm_base - 0x1000) 0x1000 MEMPERM_URW 0 0 0 demo_vm) = Some NULL /\
  value_of (as_map_memregion 40 demo_code 50 0 0x1000 MEMPERM_URW 0 0 0
    (set_vm_mr (<[20 := mkMr 50 0 0x3000 MEMPERM_UR 0 NULL 0]> (vm_mr demo_vm)) demo_vm)) = Some NULL.
Proof. vm_compute. auto. Qed.

(** The overlap check of memregion_map_internal passes the end of the range
    where memregion_find_internal expects its size: a region over an existing
    one is accepted. *)
Theorem overlapping_map_accepted :
  match as_map_memregion 40 demo_code 50 0x400000 0x1000 MEMPERM_URW 0 0 0 demo_vm with
  | Done (r, s') => r <> NULL /\ (mr_start <$> vm_mr s' !! r) = Some (mr_start demo_code)
  | Stop _ => False
  end.
Proof. vm_compute. by split. Qed.

(** Regions are linked before their bounds are set: the position is decided by
    what the object's memory held before, here the bounds of an old region, and
    the list is not in address order. *)
Theorem regions_out_of_order :
  match as_map_memregion 40 (mkMr 0 0 0 MEMPERM_R 0 0 0) 50 0x600000 0x1000 MEMPERM_URW 0 0 0 demo_vm with
  | Done (r, s') => (as_regions <$> vm_as s' !! 50) = Some [r; 20; 21]
  | Stop _ => False
  end.
Proof. vm_compute. done. Qed.
