(* ===== verification/Pgfault.v ===== *)
(** * Page faults (kernel/pgfault.c)

    The handler runs on the address space of the current process, at [cur].
    It resumes the faulting instruction or ends the process; the outcome is a
    value, because proc_exit does not return. *)

From stdpp Require Import prelude list gmap.
From Stdlib Require Import ZArith Lia.
From S2P Require Import Prelude Mmu DList ObjAlloc PageAlloc Vpmap VpmapInv VpmapSpec VpmapMap VpmapCopy RadixTreeClaims VpmapClaims Vm VmClaims.

Record pfst (P O : Type) := mkPf { pf_vm : vmst P O; user_pgfault : Z }.
Arguments mkPf {P O}.
Arguments pf_vm {P O}.
Arguments user_pgfault {P O}.

Inductive pf_outcome : Set := PfResume | PfExit (status : Z).

Section ops.
Context {P O : Type} `{!PageAlloc P, !ObjAlloc O}.
Context (cur : Z).

Definition on_vm {A} (m : M (vmst P O) A) : M (pfst P O) A := zoom pf_vm (fun v s => mkPf v (user_pgfault s)) m.

(** The two branches that give the process a zeroed page. *)
Definition fault_in (fault_addr : Z) : M (vmst P O) pf_outcome :=
  r <- on_v (on_pages pg_alloc);;
  match r with
  | inr _ => ret (PfExit (-1))
  | inl paddr =>
      on_v (clear_page (KMAP_P2V paddr));;
      let aligned_fault_addr := Z.land fault_addr (u64 (Z.lnot (pg_size - 1))) in
      a <- get_as cur;;
      e <- on_v (vpmap_map (as_vpmap a) aligned_fault_addr paddr 1 MEMPERM_URW);;
      if negb (e =? ERR_OK) then on_v (on_pages (pg_free paddr));; ret (PfExit (-1))
      else ret PfResume
  end.

Definition handle_page_fault (fault_addr : Z) (present write user : bool) : M (pfst P O) pf_outcome :=
  (if user then modify (fun s => mkPf (pf_vm s) (u64 (user_pgfault s + 1))) else ret tt);;
  kassert (nonnull cur);;
  on_vm (
    let stack_lower_bound := u64 (USTACK_UPPERBOUND - pg_size * USTACK_PAGES) in
    if user && (stack_lower_bound <=? fault_addr) && (fault_addr <? USTACK_UPPERBOUND) then fault_in fault_addr
    else
      h <- (if user then a <- get_as cur;; h <- get_mr (as_heap a);; ret (Some h) else ret None);;
      if match h with Some h => (mr_start h <=? fault_addr) && (fault_addr <? mr_end h) | None => false end
      then fault_in fault_addr
      else if user then ret (PfExit (-1)) else panic).
End ops.

(** ** The specification *)

(** The addresses the handler gives pages to: the stack and the heap. *)
Definition grows (h : memregion) (a : Z) : bool :=
  (USTACK_LOWERBOUND <=? a) && (a <? USTACK_UPPERBOUND) || (mr_start h <=? a) && (a <? mr_end h).

Section spec.
Context {P O : Type} `{!PageAlloc P, !ObjAlloc O}.
Implicit Types s : vmst P O.

(** The page of [a] now is the fresh zeroed frame [p]. *)
Definition paged_in (r : Z) (A H : gmap Z Z) (a : Z) (s' : vmst P O) : Prop :=
  exists p T' A' H', vspace r T' A' H' (vm_v s') /\ H !! p = None /\ H' !! p = Some 1 /\
    v_frames (vm_v s') !! p = Some zero_page /\
    forall q, xlate A' q = if q =? vpn a then Some (p, memperm_to_pteperm MEMPERM_URW) else xlate A q.

(** No translation changed; only page tables were taken. *)
Definition not_paged (r : Z) (T : gmap Z (Z * Z)) (A H : gmap Z Z) (s' : vmst P O) : Prop :=
  exists T' A' H', vspace r T' A' H' (vm_v s') /\ (forall q, xlate A' q = xlate A q) /\
    forall f c, H' !! f = Some c -> H !! f = None -> is_Some (T' !! f).

Lemma in_range_0 q0 q : in_range q0 0 q = false.
Proof. unfold in_range. pose proof (Z.mod_pos_bound (q - q0) (2 ^ 36) ltac:(lia)). lia. Qed.
Lemma in_range_1 q0 q : 0 <= q0 < 2 ^ 36 -> in_range q0 1 q = (q =? q0).
Proof.
  intros Hq. change 1 with (0 + 1) at 1. rewrite in_range_succ, in_range_0 by lia. cbn [orb].
  by rewrite Z.add_0_r, Z.mod_small by lia.
Qed.

Lemma vspace_drop r T A H (s : vst P O) p c pg :
  vspace r T A H s -> T !! p = None -> H !! p = Some c -> pg_held pg (delete p H) ->
  vspace r T A (delete p H) (set_pages (P := P) (O := O) pg s).
Proof.
  intros [TB SP HE OWN] HT Hp Hpg. split; [done|done|done|]. intros f x Hf. rewrite lookup_delete_ne; [by eapply OWN|].
  intros ->. congruence.
Qed.

Lemma wp_fault_in cur a r T A H vp s v :
  vspace r T A H (vm_v s) -> vm_as s !! cur = Some a -> as_vpmap a = vp -> v_vpmaps (vm_v s) !! vp = Some (KMAP_P2V r) ->
  vp <> NULL -> 0 <= v < 2 ^ 64 ->
  wp (fault_in cur v) (fun o s' => vm_mr s' = vm_mr s /\ vm_as s' = vm_as s /\
    ((o = PfResume /\ paged_in r A H v s') \/ (o = PfExit (-1) /\ not_paged r T A H s'))) s.
Proof.
  intros V Ha Hvp Hpm Hnn Hv. unfold fault_in. wp_step. unfold on_v. wp_step. unfold on_pages. wp_step.
  eapply wp_mono; [apply pg_alloc_spec, (vs_held _ _ _ _ _ V)|]. intros [p|[]] pg Hr.
  2:{ wp_step. do 2 (split; [done|]). right. split; [done|]. exists T, A, H.
      split; [by eapply vspace_frame; [exact V|..]|]. split; [done|]. congruence. }
  destruct Hr as (Hfa & HpH & Hpg). wp_step. wp_step. unfold clear_page. wp_step. rewrite frame_of_P2V by done. cbv zeta.
  assert (HTp : T !! p = None).
  { destruct (T !! p) as [x|] eqn:E; [|done]. destruct (vs_own _ _ _ _ _ V _ _ E). congruence. }
  assert (V1 : vspace r T A (<[p := 1]> H) (set_frames (<[p := zero_page]> (v_frames (vm_v s))) (set_pages pg (vm_v s)))).
  { eapply vspace_frame; [exact V| |done|by apply insert_subseteq]. intros f x Hf. simpl. rewrite lookup_insert_ne; [done|].
    congruence. }
  unfold get_as. do 3 wp_step. simpl vm_as. eapply wp_deref; [exact Ha|]. rewrite Hvp.
  pose proof (pg_round_down_spec v Hv) as Hrd. unfold pg_round_down, PG_SIZE in Hrd.
  pose proof (Z.mul_div_le v 4096 ltac:(lia)) as Hle. pose proof (Z.div_pos v 4096 ltac:(lia) ltac:(lia)).
  pose proof (Z.div_lt_upper_bound v 4096 (2 ^ 52) ltac:(lia) ltac:(lia)) as Hlt. destruct Hfa as [Hpb Hpm4]. unfold PG_SIZE in Hpm4.
  assert (Hvd : vpn (v / 4096 * 4096) = vpn v) by (unfold vpn; by rewrite Z.div_mul).
  wp_step. wp_step. rewrite Hrd.
  assert (Hal : pg_round_down (v / 4096 * 4096) = v / 4096 * 4096) by (apply round_aligned; [lia|apply Z.mod_mul; lia]).
  assert (Halp : pg_round_down p = p) by (apply round_aligned; lia).
  eapply wp_mono; [apply (wp_vpmap_map r T A (<[p := 1]> H)); [exact V1|exact Hpm|exact Hnn|lia|lia|lia|lia|lia]|].
  rewrite Hal, Halp, Hvd. intros e s' (T' & H' & A' & m & V' & G & HA & He).
  pose proof (gr_T _ _ _ _ _ _ _ G) as HT. pose proof (gr_H _ _ _ _ _ _ _ G) as HH.
  assert (Hp1 : H' !! p = Some 1) by (eapply lookup_weaken; [|exact HH]; by rewrite lookup_insert_eq).
  assert (HTp' : T' !! p = None).
  { destruct (T' !! p) as [x|] eqn:E; [|done]. pose proof (gr_new _ _ _ _ _ _ _ G _ _ E HTp) as E1. by rewrite lookup_insert_eq in E1. }
  assert (Hpz : v_frames s' !! p = Some zero_page).
  { rewrite (gr_frames _ _ _ _ _ _ _ G); [simpl; by rewrite lookup_insert_eq|congruence|]. rewrite lookup_insert_eq. by eexists. }
  destruct He as [[-> ->]|[-> Hm]].
  - change (negb (ERR_OK =? ERR_OK)) with false. cbn match. wp_step. do 2 (split; [done|]). left. split; [done|].
    exists p, T', A', H'. do 4 (split; [done|]). intros q. specialize (HA q).
    rewrite in_range_1 in HA by (apply vpn_bound). destruct (Z.eqb_spec q (vpn v)) as [Eq|Eq]; [|unfold xlate; by rewrite HA].
    apply xlate_word; [lia|done|]. rewrite HA, Eq, Z.sub_diag. f_equal. change (0 mod 2 ^ 36) with 0. lia.
  - change (negb (ERR_VPMAP_MAP =? ERR_OK)) with true. cbn match. wp_step. wp_step. unfold on_pages. wp_step.
    eapply wp_mono; [by eapply pg_free_spec; [apply V'|]|]. intros [] pg' Hpg'. wp_step.
    do 2 (split; [done|]). right. split; [done|]. exists T', A', (delete p H').
    split; [by eapply vspace_drop|]. split.
    + intros q. unfold xlate. rewrite HA. assert (m = 0) as -> by lia. by rewrite in_range_0.
    + intros f c. rewrite lookup_delete_Some. intros [Hne Hf] Hn. eapply (gr_used _ _ _ _ _ _ _ G); [exact Hf|]. by rewrite lookup_insert_ne.
Qed.

Lemma wp_handle cur a h r T A H (x : pfst P O) v present write :
  vspace r T A H (vm_v (pf_vm x)) -> cur <> NULL -> vm_as (pf_vm x) !! cur = Some a ->
  v_vpmaps (vm_v (pf_vm x)) !! as_vpmap a = Some (KMAP_P2V r) -> as_vpmap a <> NULL ->
  vm_mr (pf_vm x) !! as_heap a = Some h -> 0 <= v < 2 ^ 64 ->
  wp (handle_page_fault cur v present write true) (fun o x' =>
    user_pgfault x' = u64 (user_pgfault x + 1) /\ vm_mr (pf_vm x') = vm_mr (pf_vm x) /\ vm_as (pf_vm x') = vm_as (pf_vm x) /\
    ((o = PfResume /\ grows h v = true /\ paged_in r A H v (pf_vm x')) \/
     (o = PfExit (-1) /\ not_paged r T A H (pf_vm x') /\ (grows h v = false -> pf_vm x' = pf_vm x)))) x.
Proof.
  intros V Hcur Ha Hpm Hnn Hh Hv. unfold handle_page_fault, grows. wp_step. wp_step. wp_step.
  wp_step; [by apply nonnull_true|]. unfold on_vm. wp_step. cbn [pf_vm andb].
  change (u64 (USTACK_UPPERBOUND - pg_size * USTACK_PAGES)) with USTACK_LOWERBOUND.
  assert (Hin : forall Q : pf_outcome -> vmst P O -> Prop, (forall o s', vm_mr s' = vm_mr (pf_vm x) -> vm_as s' = vm_as (pf_vm x) ->
      ((o = PfResume /\ paged_in r A H v s') \/ (o = PfExit (-1) /\ not_paged r T A H s')) -> Q o s') ->
    wp (fault_in cur v) Q (pf_vm x)).
  { intros Q HQ. eapply wp_mono; [by eapply (wp_fault_in cur a r T A H)|]. intros o s' (E1 & E2 & Ho). by apply HQ. }
  destruct ((USTACK_LOWERBOUND <=? v) && (v <? USTACK_UPPERBOUND)) eqn:Est; cbn [orb].
  { apply Hin. intros o s' E1 E2 Ho. simpl. do 3 (split; [done|]). destruct Ho as [[-> Ho]|[-> Ho]]; [by left|right]. done. }
  wp_step. unfold get_as, get_mr. wp_run. 1: exact Ha. wp_run. 1: exact Hh.
  destruct ((mr_start h <=? v) && (v <? mr_end h)) eqn:Ehp.
  { apply Hin. intros o s' E1 E2 Ho. simpl. do 3 (split; [done|]). destruct Ho as [[-> Ho]|[-> Ho]]; [by left|right]. done. }
  wp_step. simpl. do 3 (split; [done|]). right. split; [done|]. split; [|done]. exists T, A, H. split; [done|]. split; [done|]. congruence.
Qed.
End spec.

(** C17 ([handle_page_fault]): a user fault on the stack or in the heap gives
    the process a fresh frame of zeros, mapped writable at the page of the
    address, with every other translation as it was and no region changed, and
    the instruction is resumed; without memory, or for any other address, the
    process is ended with status -1, no translation changes and the frame is
    returned.  A fault of the kernel itself always panics. *)
Theorem handle_page_fault_spec {P O} `{!PageAlloc P, !ObjAlloc O} cur a h r T A H (x : pfst P O) v present write :
  vspace r T A H (vm_v (pf_vm x)) -> cur <> NULL -> vm_as (pf_vm x) !! cur = Some a ->
  v_vpmaps (vm_v (pf_vm x)) !! as_vpmap a = Some (KMAP_P2V r) -> as_vpmap a <> NULL ->
  vm_mr (pf_vm x) !! as_heap a = Some h -> 0 <= v < 2 ^ 64 ->
  wp (handle_page_fault cur v present write true) (fun o x' =>
    user_pgfault x' = u64 (user_pgfault x + 1) /\ vm_mr (pf_vm x') = vm_mr (pf_vm x) /\ vm_as (pf_vm x') = vm_as (pf_vm x) /\
    ((o = PfResume /\ grows h v = true /\ paged_in r A H v (pf_vm x')) \/
     (o = PfExit (-1) /\ not_paged r T A H (pf_vm x') /\ (grows h v = false -> pf_vm x' = pf_vm x)))) x /\
  handle_page_fault cur v present write false x = Stop KPanic.
Proof.
  intros V Hcur Ha Hpm Hnn Hh Hv. split; [by apply wp_handle with (a := a)|].
  unfold handle_page_fault, bind, ret. by rewrite (nonnull_true cur).
Qed.

(** The heap page at 0x500000 of the space of VmClaims.v. *)
Lemma handle_page_fault_spec_witness :
  wp (handle_page_fault 50 0x500010 false true true) (fun o x' =>
    user_pgfault x' = 1 /\ vm_mr (pf_vm x') = vm_mr demo_vm /\ vm_as (pf_vm x') = vm_as demo_vm /\
    ((o = PfResume /\ grows demo_heap 0x500010 = true /\ paged_in 0x1000 ∅ demo_held 0x500010 (pf_vm x')) \/
     (o = PfExit (-1) /\ not_paged 0x1000 {[0x1000 := (3, 0)]} ∅ demo_held (pf_vm x') /\
       (grows demo_heap 0x500010 = false -> pf_vm x' = demo_vm)))) (mkPf demo_vm 0) /\
  handle_page_fault 50 0x500010 false true false (mkPf demo_vm 0) = Stop KPanic.
Proof.
  apply (handle_page_fault_spec 50 demo_as demo_heap 0x1000 {[0x1000 := (3, 0)]} ∅ demo_held (mkPf demo_vm 0) 0x500010 false true).
  - destruct (empty_space 0x1000 (or_introl eq_refl)) as [TB SP HE OWN]. split; [exact TB|exact SP|exact HE|exact OWN].
  - done.
  - reflexivity.
  - reflexivity.
  - done.
  - reflexivity.
  - lia.
Defined.

