(* ===== verification/Bdev.v ===== *)
(** * Block cache (kernel/bdev.c, kernel/bdevms.c, kernel/mm/pgcache.c)

    One block device with its page cache.  The state is the radix tree of
    cached pages, the [struct page]s of the cache and their contents (eight
    blocks of 512 bytes), the block headers by address, the locks, the disk,
    and the states of the allocators, used through their interfaces; a page is
    named by its physical address.  [b_writes] records the writes the device
    performed, in order: [bdev_make_request] returns only when the device has
    completed the request (Ide.v), so the disk goes through exactly the states
    of its prefixes.

    The functions run in one kernel thread: a [sleeplock_acquire] of a lock
    that is held blocks forever, which the model reports as [Diverge]. *)

From stdpp Require Import prelude list gmap.
From Stdlib Require Import ZArith Lia.
From S2P Require Import Prelude Mmu Bits DList ObjAlloc PageAlloc RadixTree.

Definition BDEV_BLK_SIZE : Z := 512.
Definition BLK_HEADER_VALID : Z := 0.
Definition BLK_HEADER_DIRTY : Z := 1.
Definition PAGE_DIRTY_BIT : Z := 0.
Definition N_BLKS_PER_PAGE : Z := pg_size / BDEV_BLK_SIZE.
Definition FIRST_BLK_IN_PAGE (blk : Z) : Z := blk / N_BLKS_PER_PAGE * N_BLKS_PER_PAGE.
Definition ERR_MEMSTORE_NOMEM : Z := 1.

Abbreviation block := (list Z).
Definition zero_block : block := replicate 512 0.

Record blk_header := mkBh {
  bh_lock : bool;
  bh_blk : Z;
  bh_page : Z;
  bh_data : Z;       (* index of the block in the page *)
  bh_state : Z;
  bh_ref : Z
}.

(** The fields of struct page the block cache uses. *)
Record cpage := mkPg {
  pg_lock : bool;
  pg_state : Z;
  pg_headers : list Z
}.

Record bst (P R O : Type) := mkB {
  b_tree : rstate R;
  b_pclock : bool;
  b_pg : gmap Z cpage;
  b_data : gmap Z (list block);
  b_bh : gmap Z blk_header;
  b_disk : gmap Z block;
  b_writes : list (Z * block);
  b_pages : P;
  b_objs : O
}.
Arguments mkB {P R O}.
Arguments b_tree {P R O}.
Arguments b_pclock {P R O}.
Arguments b_pg {P R O}.
Arguments b_data {P R O}.
Arguments b_bh {P R O}.
Arguments b_disk {P R O}.
Arguments b_writes {P R O}.
Arguments b_pages {P R O}.
Arguments b_objs {P R O}.

(** The contents of a block of the disk. *)
Definition disk_blk (d : gmap Z block) (blk : Z) : block := default zero_block (d !! blk).

Definition set_bh_lock (v : bool) (b : blk_header) : blk_header :=
  mkBh v (bh_blk b) (bh_page b) (bh_data b) (bh_state b) (bh_ref b).
Definition set_bh_state (v : Z) (b : blk_header) : blk_header :=
  mkBh (bh_lock b) (bh_blk b) (bh_page b) (bh_data b) v (bh_ref b).
Definition set_bh_ref (v : Z) (b : blk_header) : blk_header :=
  mkBh (bh_lock b) (bh_blk b) (bh_page b) (bh_data b) (bh_state b) v.

Section ops.
Context {P R O : Type} `{!PageAlloc P, !ObjAlloc R, !ObjAlloc O}.
(** The caches of bdev.c: [bio_allocator] and [blk_header_allocator]. *)
Context (bio_allocator blk_header_allocator : Z).
Implicit Types s : bst P R O.
Abbreviation BM := (M (bst P R O)).

Definition set_tree (v : rstate R) s : bst P R O :=
  mkB v (b_pclock s) (b_pg s) (b_data s) (b_bh s) (b_disk s) (b_writes s) (b_pages s) (b_objs s).
Definition set_pclock (v : bool) s : bst P R O :=
  mkB (b_tree s) v (b_pg s) (b_data s) (b_bh s) (b_disk s) (b_writes s) (b_pages s) (b_objs s).
Definition set_pg (v : gmap Z cpage) s : bst P R O :=
  mkB (b_tree s) (b_pclock s) v (b_data s) (b_bh s) (b_disk s) (b_writes s) (b_pages s) (b_objs s).
Definition set_data (v : gmap Z (list block)) s : bst P R O :=
  mkB (b_tree s) (b_pclock s) (b_pg s) v (b_bh s) (b_disk s) (b_writes s) (b_pages s) (b_objs s).
Definition set_bh (v : gmap Z blk_header) s : bst P R O :=
  mkB (b_tree s) (b_pclock s) (b_pg s) (b_data s) v (b_disk s) (b_writes s) (b_pages s) (b_objs s).
Definition set_bpages (v : P) s : bst P R O :=
  mkB (b_tree s) (b_pclock s) (b_pg s) (b_data s) (b_bh s) (b_disk s) (b_writes s) v (b_objs s).
Definition set_bobjs (v : O) s : bst P R O :=
  mkB (b_tree s) (b_pclock s) (b_pg s) (b_data s) (b_bh s) (b_disk s) (b_writes s) (b_pages s) v.
(** The device writes one block. *)
Definition disk_write (blk : Z) (v : block) s : bst P R O :=
  mkB (b_tree s) (b_pclock s) (b_pg s) (b_data s) (b_bh s) (<[blk := v]> (b_disk s))
      (b_writes s ++ [(blk, v)]) (b_pages s) (b_objs s).

Definition on_tree {A} (m : M (rstate R) A) : BM A := zoom b_tree set_tree m.
Definition on_bpages {A} (m : M P A) : BM A := zoom b_pages set_bpages m.
Definition on_bobjs {A} (m : M O A) : BM A := zoom b_objs set_bobjs m.

Definition get_bh (a : Z) : BM blk_header := o <- gets (fun s => b_bh s !! a);; deref o.
Definition upd_bh (a : Z) (f : blk_header -> blk_header) : BM unit :=
  b <- get_bh a;; modify (fun s => set_bh (<[a := f b]> (b_bh s)) s).
Definition get_pg (p : Z) : BM cpage := o <- gets (fun s => b_pg s !! p);; deref o.
Definition put_pg (p : Z) (v : cpage) : BM unit := modify (fun s => set_pg (<[p := v]> (b_pg s)) s).

Definition get_data (p i : Z) : BM block :=
  o <- gets (fun s => b_data s !! p);; l <- deref o;; deref (l !! Z.to_nat i).
Definition put_data (p i : Z) (v : block) : BM unit :=
  o <- gets (fun s => b_data s !! p);; l <- deref o;;
  deref (l !! Z.to_nat i);;
  modify (fun s => set_data (<[p := <[Z.to_nat i := v]> l]> (b_data s)) s).

(** Sleeplocks of a page, a block header and the page cache: with one thread
    the holder of a locked one is that thread. *)
Definition lock_page (p : Z) : BM unit :=
  v <- get_pg p;;
  if pg_lock v then stop Diverge else put_pg p (mkPg true (pg_state v) (pg_headers v)).
Definition unlock_page (p : Z) : BM unit :=
  v <- get_pg p;; kassert (pg_lock v);; put_pg p (mkPg false (pg_state v) (pg_headers v)).
Definition lock_bh (a : Z) : BM unit :=
  b <- get_bh a;; if bh_lock b then stop Diverge else upd_bh a (set_bh_lock true).
Definition unlock_bh (a : Z) : BM unit :=
  b <- get_bh a;; kassert (bh_lock b);; upd_bh a (set_bh_lock false).
Definition lock_pgcache : BM unit :=
  b <- gets b_pclock;; if (b : bool) then stop Diverge else modify (set_pclock true).
Definition unlock_pgcache : BM unit :=
  b <- gets b_pclock;; kassert b;; modify (set_pclock false).

(** ** bdev.c: requests *)

Definition bio_alloc : BM Z := on_bobjs (oa_alloc bio_allocator).
Definition bio_free (bio : Z) : BM unit := on_bobjs (oa_free bio_allocator bio).

(** A completed request: read [size] blocks from [blk] into the page, or write
    the block [i] of page [p]. *)
Definition submit_read (blk size p : Z) : BM unit :=
  modify (fun s => set_data (<[p := map (disk_blk (b_disk s)) (seqZ blk size)]> (b_data s)) s).
Definition submit_write (blk p i : Z) : BM unit :=
  v <- get_data p i;; modify (disk_write blk v).

(** ** bdevms.c *)

Definition fillpage (ofs page : Z) : BM Z :=
  kassert (nonnull page);;
  bio <- bio_alloc;;
  if bio =? NULL then ret ERR_MEMSTORE_NOMEM
  else
    submit_read (pg_round_down ofs / BDEV_BLK_SIZE) (pg_size / BDEV_BLK_SIZE) page;;
    bio_free bio;;
    ret ERR_OK.

(** ** pgcache.c *)

(** A page from pmem_alloc comes with its record reset. *)
Definition pgcache_get_page (ofs : Z) : BM Z :=
  page <- on_tree (radix_tree_lookup (ofs / pg_size));;
  if page =? NULL then
    r <- on_bpages pg_alloc;;
    match r with
    | inr _ => ret NULL
    | inl paddr =>
        put_pg paddr (mkPg false 0 []);;
        err <- fillpage ofs paddr;;
        if negb (err =? ERR_OK) then on_bpages (pg_free paddr);; ret NULL
        else
          err <- on_tree (radix_tree_insert 7 (ofs / pg_size) paddr);;
          if err =? ERR_RADIX_TREE_ALLOC then on_bpages (pg_free paddr);; ret NULL
          else if err =? ERR_RADIX_TREE_NODE_EXIST then panic
          else ret paddr
    end
  else ret page.

Definition pgcache_remove_page (ofs : Z) : BM unit :=
  on_tree (radix_tree_remove (ofs / pg_size));; ret tt.

(** ** bdev.c: block headers *)

Definition bdev_is_blk_valid (bh : Z) : BM bool :=
  b <- get_bh bh;; ret (get_state_bit (bh_state b) BLK_HEADER_VALID).
Definition bdev_set_blk_valid (bh : Z) (valid : bool) : BM unit :=
  upd_bh bh (fun b => set_bh_state (set_state_bit (bh_state b) BLK_HEADER_VALID valid) b).
Definition bdev_is_blk_dirty (bh : Z) : BM bool :=
  b <- get_bh bh;; ret (get_state_bit (bh_state b) BLK_HEADER_DIRTY).
Definition pmem_set_page_dirty_of (p : Z) (dirty : bool) : BM unit :=
  v <- get_pg p;;
  put_pg p (mkPg (pg_lock v) (set_state_bit (pg_state v) PAGE_DIRTY_BIT dirty) (pg_headers v)).
Definition bdev_set_blk_dirty (bh : Z) (dirty : bool) : BM unit :=
  upd_bh bh (fun b => set_bh_state (set_state_bit (bh_state b) BLK_HEADER_DIRTY dirty) b);;
  if dirty then
    b <- get_bh bh;;
    lock_page (bh_page b);;
    pmem_set_page_dirty_of (bh_page b) true;;
    unlock_page (bh_page b)
  else ret tt.

(** The state word of a header before its bits are set is whatever the
    allocator returned; [junk] stands for it. *)
Definition init_blk_headers (junk : Z) (page first_blk : Z) : BM Z :=
  v <- get_pg page;;
  match pg_headers v with
  | [] =>
      r <- for_ret (Z.to_nat N_BLKS_PER_PAGE) 0 (fun index =>
        bh <- on_bobjs (oa_alloc blk_header_allocator);;
        if bh =? NULL then ret (Some ERR_NOMEM)
        else
          v <- get_pg page;;
          put_pg page (mkPg (pg_lock v) (pg_state v) (pg_headers v ++ [bh]));;
          modify (fun s => set_bh (<[bh := mkBh false (u32 (first_blk + index)) page index junk 0]> (b_bh s)) s);;
          bdev_set_blk_valid bh true;;
          bdev_set_blk_dirty bh false;;
          ret None);;
      ret (default ERR_OK r)
  | _ => ret ERR_OK
  end.

Fixpoint zero_refs (l : list Z) : BM bool :=
  match l with
  | [] => ret true
  | a :: l => b <- get_bh a;; if 0 <? bh_ref b then ret false else zero_refs l
  end.
Definition blocks_zero_ref (page : Z) : BM bool := v <- get_pg page;; zero_refs (pg_headers v).

Fixpoint free_headers (page : Z) (l : list Z) : BM unit :=
  match l with
  | [] => ret tt
  | a :: l' =>
      d <- bdev_is_blk_dirty a;;
      kassert (negb d);;
      v <- get_pg page;;
      put_pg page (mkPg (pg_lock v) (pg_state v) l');;
      on_bobjs (oa_free blk_header_allocator a);;
      modify (fun s => set_bh (delete a (b_bh s)) s);;
      free_headers page l'
  end.
Definition free_blk_headers (page : Z) : BM unit :=
  v <- get_pg page;;
  if get_state_bit (pg_state v) PAGE_DIRTY_BIT then ret tt
  else free_headers page (pg_headers v).

(** The header of [blk] in a list. *)
Fixpoint find_blk (blk : Z) (l : list Z) : BM (option Z) :=
  match l with
  | [] => ret None
  | a :: l =>
      kassert (nonnull a);;
      b <- get_bh a;; if bh_blk b =? blk then ret (Some a) else find_blk blk l
  end.

Definition bdev_get_blk_unlocked (junk : Z) (blk : Z) : BM Z :=
  lock_pgcache;;
  page <- pgcache_get_page (u32 (blk * BDEV_BLK_SIZE));;
  if page =? NULL then unlock_pgcache;; ret NULL
  else
    unlock_pgcache;;
    lock_page page;;
    err <- init_blk_headers junk page (FIRST_BLK_IN_PAGE blk);;
    if negb (err =? ERR_OK) then unlock_page page;; ret NULL
    else
      v <- get_pg page;;
      o <- find_blk blk (pg_headers v);;
      match o with
      | Some bh =>
          upd_bh bh (fun b => set_bh_ref (u32 (bh_ref b + 1)) b);;
          unlock_page page;;
          ret bh
      | None => panic
      end.

Definition bdev_get_blk (junk : Z) (blk : Z) : BM Z :=
  bh <- bdev_get_blk_unlocked junk blk;;
  (if negb (bh =? NULL) then lock_bh bh else ret tt);;
  ret bh.

Definition bdev_release_blk_unlocked (bh : Z) : BM unit :=
  b <- get_bh bh;;
  let page := bh_page b in
  lock_page page;;
  b <- get_bh bh;;
  kassert (0 <? bh_ref b);;
  upd_bh bh (fun b => set_bh_ref (u32 (bh_ref b - 1)) b);;
  b <- get_bh bh;;
  z <- (if bh_ref b =? 0 then blocks_zero_ref page else ret false);;
  (if (z : bool) then free_blk_headers page else ret tt);;
  unlock_page page.

Definition bdev_release_blk (bh : Z) : BM unit :=
  unlock_bh bh;; bdev_release_blk_unlocked bh.

Definition bdev_write_blk (bh : Z) : BM Z :=
  v <- bdev_is_blk_valid bh;;
  kassert v;;
  bio <- bio_alloc;;
  if bio =? NULL then ret ERR_NOMEM
  else
    b <- get_bh bh;;
    submit_write (bh_blk b) (bh_page b) (bh_data b);;
    bio_free bio;;
    bdev_set_blk_dirty bh false;;
    ret ERR_OK.
End ops.
