(* ===== verification/BdevSpec.v ===== *)
(** * Block cache: invariant

    [binv pl m H s]: the radix tree maps page index [i] (blocks 8i to 8i+7) to
    the cached page [m !! i]; the frames of the cache are held in [H]; each
    cached page has no block headers or one per block, and every header
    belongs to its page.  [pl] is the page whose lock is taken (NULL for none);
    its header list may be incomplete. *)

From stdpp Require Import prelude list gmap.
From Stdlib Require Import ZArith Lia.
From S2P Require Import Prelude Mmu Bits PageAlloc DList ObjAlloc RadixTree RadixTreeSpec Bdev.

Definition hd_ok (i p : Z) (k : nat) (b : blk_header) : Prop :=
  bh_blk b = 8 * i + Z.of_nat k /\ bh_page b = p /\ bh_data b = Z.of_nat k /\
  get_state_bit (bh_state b) BLK_HEADER_VALID = true /\ 0 <= bh_ref b < 2 ^ 32.
Definition dirty_ok (pg : cpage) (b : blk_header) : Prop :=
  get_state_bit (pg_state pg) PAGE_DIRTY_BIT = false -> get_state_bit (bh_state b) BLK_HEADER_DIRTY = false.

Section inv.
Context {P R O : Type} `{!PageAlloc P, !ObjAlloc R, !ObjAlloc O}.
Context (bioc bhc : Z).
Implicit Types s : bst P R O.

Record page_ok (pl i p : Z) s : Prop := {
  po_page : exists pg, b_pg s !! p = Some pg /\ pg_lock pg = (p =? pl) /\
     (p <> pl -> length (pg_headers pg) = 0%nat \/ length (pg_headers pg) = 8%nat) /\
     (length (pg_headers pg) <= 8)%nat /\
     forall k h, pg_headers pg !! k = Some h -> exists b, b_bh s !! h = Some b /\ hd_ok i p k b /\ dirty_ok pg b;
  po_data : exists l, b_data s !! p = Some l /\ length l = 8%nat
}.

(** The caches of the object allocator are live and own the headers. *)
Definition objs_ok (o : O) (D : gset Z) : Prop :=
  exists L X Y, oa_live o L /\ L !! bhc = Some X /\ L !! bioc = Some Y /\ D ⊆ X.

Record binv (pl : Z) (m H : gmap Z Z) s : Prop := {
  bi_rep : rep m (b_tree s);
  bi_held : pg_held (b_pages s) H;
  bi_inj : forall i j p, m !! i = Some p -> m !! j = Some p -> i = j;
  bi_page : forall i p, m !! i = Some p -> 0 <= i < 2 ^ 20 /\ is_Some (H !! p) /\ page_ok pl i p s;
  bi_bh : forall h b, b_bh s !! h = Some b -> h <> NULL /\ exists i k pg,
     m !! i = Some (bh_page b) /\ b_pg s !! bh_page b = Some pg /\ pg_headers pg !! k = Some h;
  bi_objs : objs_ok (b_objs s) (dom (b_bh s))
}.

(** Device, trace and page-cache lock. *)
Definition io s := (b_disk s, b_writes s, b_pclock s).

Lemma wp_get_bh a b s (Q : blk_header -> bst P R O -> Prop) :
  b_bh s !! a = Some b -> Q b s -> wp (get_bh a) Q s.
Proof. intros Hb HQ. unfold get_bh. wp_step. wp_step. rewrite Hb. by eapply wp_deref. Qed.
Lemma wp_upd_bh a b f s (Q : unit -> bst P R O -> Prop) :
  b_bh s !! a = Some b -> Q tt (set_bh (<[a := f b]> (b_bh s)) s) -> wp (upd_bh a f) Q s.
Proof. intros Hb HQ. unfold upd_bh. wp_step. eapply wp_get_bh; [done|]. by wp_step. Qed.
Lemma wp_get_pg p v s (Q : cpage -> bst P R O -> Prop) :
  b_pg s !! p = Some v -> Q v s -> wp (get_pg p) Q s.
Proof. intros Hv HQ. unfold get_pg. wp_step. wp_step. rewrite Hv. by eapply wp_deref. Qed.

(** ** Headers *)

(** What a header keeps while locks, counts and flags change. *)
Definition same_blk (b b' : blk_header) : Prop :=
  bh_blk b' = bh_blk b /\ bh_page b' = bh_page b /\ bh_data b' = bh_data b.

Lemma binv_upd_bh pl m H s h b b' :
  binv pl m H s -> b_bh s !! h = Some b -> same_blk b b' ->
  get_state_bit (bh_state b') BLK_HEADER_VALID = true -> 0 <= bh_ref b' < 2 ^ 32 ->
  (get_state_bit (bh_state b) BLK_HEADER_DIRTY = false -> get_state_bit (bh_state b') BLK_HEADER_DIRTY = false) ->
  binv pl m H (set_bh (<[h := b']> (b_bh s)) s).
Proof.
  intros B Hb (Ebl & Epg & Eda) Hv Hr Hd. split; try apply B.
  - intros i p Hm. destruct (bi_page _ _ _ _ B _ _ Hm) as (? & ? & [(pg & Hpg & Hl & Hlen & Hle & Hh) ?]).
    do 2 (split; [done|]). split; [|done]. exists pg. do 4 (split; [done|]). intros k g Hg.
    destruct (Hh _ _ Hg) as (c & Hc & (Hc1 & Hc2 & Hc3 & Hc4 & Hc5) & Hcd).
    simpl. rewrite lookup_insert. case_decide as E; [|by exists c]. subst g. rewrite Hb in Hc. injection Hc as <-.
    exists b'. split; [done|]. split; [repeat split; congruence || apply Hr|]. intros Hp. by apply Hd, Hcd.
  - intros g c. simpl. rewrite lookup_insert. case_decide as E; [|apply B].
    subst g. intros [= <-]. rewrite Epg. by apply B.
  - simpl. rewrite dom_insert_L. destruct (bi_objs _ _ _ _ B) as (L & X & Y & ? & ? & ? & Hsub).
    exists L, X, Y. do 3 (split; [done|]). apply elem_of_dom_2 in Hb. set_solver.
Qed.

(** A header is the one of its block. *)
Lemma header_unique pl m H s h1 b1 h2 b2 : binv pl m H s ->
  b_bh s !! h1 = Some b1 -> b_bh s !! h2 = Some b2 -> bh_blk b1 = bh_blk b2 -> h1 = h2.
Proof.
  intros B H1 H2 E. destruct (bi_bh _ _ _ _ B _ _ H1) as (_ & i1 & k1 & pg1 & Hm1 & Hp1 & Hk1).
  destruct (bi_bh _ _ _ _ B _ _ H2) as (_ & i2 & k2 & pg2 & Hm2 & Hp2 & Hk2).
  destruct (bi_page _ _ _ _ B _ _ Hm1) as (_ & _ & [(q1 & Hq1 & _ & _ & Hle1 & Hh1) _]).
  destruct (bi_page _ _ _ _ B _ _ Hm2) as (_ & _ & [(q2 & Hq2 & _ & _ & Hle2 & Hh2) _]).
  rewrite Hp1 in Hq1. injection Hq1 as <-. rewrite Hp2 in Hq2. injection Hq2 as <-.
  destruct (Hh1 _ _ Hk1) as (c1 & Hc1 & (Eb1 & _) & _). destruct (Hh2 _ _ Hk2) as (c2 & Hc2 & (Eb2 & _) & _).
  rewrite H1 in Hc1. rewrite H2 in Hc2. simplify_eq.
  apply lookup_lt_Some in Hk1 as Hl1. apply lookup_lt_Some in Hk2 as Hl2.
  assert (i1 = i2 /\ k1 = k2) as [-> ->] by lia. rewrite Hm1 in Hm2. injection Hm2 as E2. rewrite E2 in Hp1.
  rewrite Hp1 in Hp2. injection Hp2 as <-. congruence.
Qed.

(** ** Changes to one page

    The general step: the record of page [p] and the headers on it change,
    everything else stays. *)
Lemma binv_change pl pl' m H s s' i p pg' :
  binv pl m H s -> m !! i = Some p -> (pl = NULL \/ pl = p) -> (pl' = NULL \/ pl' = p) ->
  b_tree s' = b_tree s -> b_pages s' = b_pages s -> b_data s' = b_data s ->
  b_pg s' = <[p := pg']> (b_pg s) ->
  pg_lock pg' = (p =? pl') ->
  (p <> pl' -> length (pg_headers pg') = 0%nat \/ length (pg_headers pg') = 8%nat) ->
  (length (pg_headers pg') <= 8)%nat ->
  (forall k h, pg_headers pg' !! k = Some h -> exists b, b_bh s' !! h = Some b /\ hd_ok i p k b /\ dirty_ok pg' b) ->
  (forall h b, b_bh s !! h = Some b -> bh_page b <> p -> b_bh s' !! h = Some b) ->
  (forall h b, b_bh s' !! h = Some b -> (bh_page b <> p /\ b_bh s !! h = Some b) \/
     (bh_page b = p /\ h <> NULL /\ exists k, pg_headers pg' !! k = Some h)) ->
  objs_ok (b_objs s') (dom (b_bh s')) -> binv pl' m H s'.
Proof.
  intros B Hm Hpl Hpl' Et Ep Ed Epg Hlk Hlen Hle Hh Hkeep Hback Ho.
  assert (Hnn : forall j q, m !! j = Some q -> q <> NULL).
  { intros j q Hj. destruct (bi_page _ _ _ _ B _ _ Hj) as (_ & [r Hr] & _).
    destruct (pg_held_addr _ _ _ _ (bi_held _ _ _ _ B) Hr) as [[? _] _]. unfold NULL. lia. }
  split.
  - rewrite Et. apply B.
  - rewrite Ep. apply B.
  - apply B.
  - intros j q Hj. destruct (bi_page _ _ _ _ B _ _ Hj) as (? & ? & [(pg & Hpg & Hl & Hln & Hln8 & Hk) Hda]).
    do 2 (split; [done|]). split; [|by rewrite Ed]. rewrite Epg, lookup_insert.
    case_decide as E.
    + subst q. rewrite (bi_inj _ _ _ _ B _ _ _ Hj Hm). by exists pg'.
    + exists pg. split; [done|]. pose proof (Hnn _ _ Hj) as Hq0.
      assert (Hqpl : q <> pl) by (destruct Hpl as [->| ->]; congruence).
      assert (Hqpl' : q <> pl') by (destruct Hpl' as [->| ->]; congruence).
      split; [rewrite Hl; destruct (Z.eqb_spec q pl), (Z.eqb_spec q pl'); done|].
      split; [intros _; by apply Hln|]. split; [done|].
      intros k h Hkh. destruct (Hk _ _ Hkh) as (b & Hb & Hok & Hd). exists b. split; [|done].
      apply Hkeep; [done|]. destruct Hok as (_ & -> & _). congruence.
  - intros h b Hb. destruct (Hback _ _ Hb) as [[Hne Hb0]|(Hpb & Hh0 & k & Hk)].
    + destruct (bi_bh _ _ _ _ B _ _ Hb0) as (? & j & k & pg & ? & Hpg & ?). split; [done|].
      exists j, k, pg. split; [done|]. split; [|done]. by rewrite Epg, lookup_insert_ne.
    + split; [done|]. exists i, k, pg'. rewrite Hpb. split; [done|]. by rewrite Epg, lookup_insert, decide_True.
  - done.
Qed.

(** The record and the headers of a cached page. *)
Lemma page_data pl m H s i p : binv pl m H s -> m !! i = Some p ->
  p <> NULL /\ exists pg, b_pg s !! p = Some pg /\ pg_lock pg = (p =? pl) /\
   (p <> pl -> length (pg_headers pg) = 0%nat \/ length (pg_headers pg) = 8%nat) /\
   (length (pg_headers pg) <= 8)%nat /\
   (forall k h, pg_headers pg !! k = Some h -> exists b, b_bh s !! h = Some b /\ hd_ok i p k b /\ dirty_ok pg b) /\
   (forall h b, b_bh s !! h = Some b -> bh_page b = p -> h <> NULL /\ exists k, pg_headers pg !! k = Some h).
Proof.
  intros B Hm. destruct (bi_page _ _ _ _ B _ _ Hm) as (_ & [r Hr] & [(pg & Hpg & ? & ? & ? & ?) _]).
  destruct (pg_held_addr _ _ _ _ (bi_held _ _ _ _ B) Hr) as [[? _] _]. split; [unfold NULL; lia|].
  exists pg. do 5 (split; [done|]). intros h b Hb Hp.
  destruct (bi_bh _ _ _ _ B _ _ Hb) as (? & j & k & pg1 & _ & Hpg1 & Hk). split; [done|].
  rewrite Hp, Hpg in Hpg1. injection Hpg1 as <-. by exists k.
Qed.

(** ** Page locks *)

Lemma wp_lock_page m H s i p (Q : unit -> bst P R O -> Prop) :
  binv NULL m H s -> m !! i = Some p ->
  (forall pg, b_pg s !! p = Some pg -> 
     let s' := Bdev.set_pg (<[p := mkPg true (pg_state pg) (pg_headers pg)]> (b_pg s)) s in
     binv p m H s' -> (length (pg_headers pg) = 0%nat \/ length (pg_headers pg) = 8%nat) -> Q tt s') ->
  wp (lock_page p) Q s.
Proof.
  intros B Hm HQ. destruct (page_data _ _ _ _ _ _ B Hm) as (Hp0 & pg & Hpg & Hl & Hlen & Hle & Hh & Hb).
  unfold lock_page. wp_step. eapply wp_get_pg; [done|]. rewrite Hl, (proj2 (Z.eqb_neq p NULL) Hp0).
  unfold put_pg. wp_step. apply HQ; [done| |by apply Hlen].
  eapply (binv_change NULL p m H s _ i p (mkPg true (pg_state pg) (pg_headers pg)));
    try done; [by left|by right|by rewrite Z.eqb_refl|..].
  - intros h b Hbh. destruct (Z.eq_dec (bh_page b) p) as [E|]; [right|by left].
    split; [done|]. by eapply Hb.
  - apply B.
Qed.

Lemma wp_unlock_page m H s i p (Q : unit -> bst P R O -> Prop) :
  binv p m H s -> m !! i = Some p ->
  (forall pg, b_pg s !! p = Some pg -> length (pg_headers pg) = 0%nat \/ length (pg_headers pg) = 8%nat) ->
  (forall pg, b_pg s !! p = Some pg -> 
     let s' := Bdev.set_pg (<[p := mkPg false (pg_state pg) (pg_headers pg)]> (b_pg s)) s in
     binv NULL m H s' -> Q tt s') ->
  wp (unlock_page p) Q s.
Proof.
  intros B Hm Hfull HQ. destruct (page_data _ _ _ _ _ _ B Hm) as (Hp0 & pg & Hpg & Hl & Hlen & Hle & Hh & Hb).
  unfold unlock_page. wp_step. eapply wp_get_pg; [done|]. wp_step. wp_step; [by rewrite Hl, Z.eqb_refl|].
  unfold put_pg. wp_step. apply HQ; [done|].
  eapply (binv_change p NULL m H s _ i p (mkPg false (pg_state pg) (pg_headers pg)));
    [done|done|by right|by left|done|done|done|done| |intros _; by apply (Hfull pg)|done|done|done| |].
  - simpl. by rewrite (proj2 (Z.eqb_neq p NULL) Hp0).
  - intros h b Hbh. destruct (Z.eq_dec (bh_page b) p) as [E|]; [right|by left].
    split; [done|]. by eapply Hb.
  - apply B.
Qed.
End inv.

(** * Block cache: the operations

    Fetching a block returns its header, locked and referenced, without
    touching the device or any other block in use; writing a block changes
    exactly that block of the disk; releasing it keeps every block that is
    still referenced. *)

Section spec.
Context {P R O : Type} `{!PageAlloc P, !ObjAlloc R, !ObjAlloc O}.
Context (bioc bhc junk : Z).
Hypothesis Hsz : oa_size_ok (St := R) SIZEOF_RADIX_NODE.
Hypothesis Hcc : bioc <> bhc.
Implicit Types s : bst P R O.
Abbreviation BI := (binv bioc bhc).

(** ** Requests *)

(** The bio [b] is allocated. *)
Definition with_bio (b : Z) (o : O) (D : gset Z) : Prop :=
  exists L X Y, oa_live o L /\ L !! bhc = Some X /\ L !! bioc = Some Y /\ D ⊆ X /\ b ∈ Y.

Lemma wp_bio_alloc D (Q : Z -> bst P R O -> Prop) s :
  objs_ok bioc bhc (b_objs s) D ->
  (forall o, Q NULL (set_bobjs o s)) ->
  (forall b o, b <> NULL -> with_bio b o D -> Q b (set_bobjs o s)) ->
  wp (bio_alloc bioc) Q s.
Proof using Hsz Hcc.
  intros (L & X & Y & HL & HX & HY & HD) HN HS. unfold bio_alloc, on_bobjs. wp_step.
  eapply wp_mono; [by eapply oa_alloc_spec|]. intros b o [[-> _]|(Hb & _ & HL')]; [apply HN|].
  apply HS; [done|]. exists (<[bioc := {[b]} ∪ Y]> L), X, ({[b]} ∪ Y). split; [done|].
  rewrite lookup_insert_ne, lookup_insert_eq by done. do 3 (split; [done|]). set_solver.
Qed.

Lemma wp_bio_free D b (Q : unit -> bst P R O -> Prop) s :
  with_bio b (b_objs s) D -> (forall o, objs_ok bioc bhc o D -> Q tt (set_bobjs o s)) ->
  wp (bio_free bioc b) Q s.
Proof using Hsz Hcc.
  intros (L & X & Y & HL & HX & HY & HD & Hb) HQ. unfold bio_free, on_bobjs. wp_step.
  eapply wp_mono; [by eapply oa_free_spec|]. intros [] o HL'. apply HQ.
  exists (<[bioc := Y ∖ {[b]}]> L), X, (Y ∖ {[b]}). split; [done|].
  by rewrite lookup_insert_ne, lookup_insert_eq.
Qed.

(** ** The page cache *)

(** What fetching a page or a header keeps: the device, and the records,
    contents and headers of the pages cached before. *)
Definition kept_pages (m : gmap Z Z) s s' : Prop :=
  forall i p, m !! i = Some p -> b_pg s' !! p = b_pg s !! p /\ b_data s' !! p = b_data s !! p.

Lemma wp_fillpage ofs p s (Q : Z -> bst P R O -> Prop) :
  p <> NULL -> objs_ok bioc bhc (b_objs s) (dom (b_bh s)) ->
  (forall o, Q ERR_MEMSTORE_NOMEM (set_bobjs o s)) ->
  (forall o l, objs_ok bioc bhc o (dom (b_bh s)) -> length l = 8%nat ->
     Q ERR_OK (set_bobjs o (set_data (<[p := l]> (b_data s)) s))) ->
  wp (fillpage bioc ofs p) Q s.
Proof using Hsz Hcc.
  intros Hp Ho HN HS. unfold fillpage. wp_step. wp_step; [by apply nonnull_true|]. wp_step.
  eapply wp_bio_alloc; [exact Ho|intros o; simpl; wp_step; apply HN|].
  intros b o Hb Hw. rewrite (proj2 (Z.eqb_neq b NULL) Hb). wp_step. unfold submit_read. wp_step. wp_step.
  eapply (wp_bio_free (dom (b_bh s))); [exact Hw|]. intros o' Ho'. wp_step.
  apply (HS o'); [done|]. rewrite length_map, length_seqZ. done.
Qed.

Lemma wp_pgcache m H s ofs i :
  BI NULL m H s -> ofs / pg_size = i -> 0 <= i < 2 ^ 20 ->
  wp (pgcache_get_page bioc ofs) (fun p s' => io s' = io s /\ (p = NULL \/ (p <> NULL /\ exists m' H',
     BI NULL m' H' s' /\ m' !! i = Some p /\ m ⊆ m' /\ b_bh s' = b_bh s /\ kept_pages m s s'))) s.
Proof using Hsz Hcc.
  intros B Ei Hi. unfold pgcache_get_page. rewrite Ei. wp_step. unfold on_tree at 1. wp_step.
  eapply wp_mono; [apply (wp_lookup m); [apply B|lia]|]. intros v t (-> & ->).
  replace (set_tree (b_tree s) s) with s by (by destruct s).
  destruct (m !! i) as [p|] eqn:Em; simpl.
  { destruct (page_data _ _ _ _ _ _ _ _ B Em) as (Hp & _). rewrite (proj2 (Z.eqb_neq p NULL) Hp). wp_step.
    split; [done|]. right. split; [done|]. exists m, H. do 4 (split; [done|]). done. }
  wp_step. unfold on_bpages at 1. wp_step. eapply wp_mono; [apply pg_alloc_spec, B|].
  intros [p|[]] P1 Hr; [|wp_step; split; [done|by left]].
  destruct Hr as ([Hpr Hpa] & HHp & Hheld). assert (Hp0 : p <> NULL) by (unfold NULL; lia).
  wp_step. unfold put_pg. wp_step. wp_step. apply wp_fillpage; [done|apply B| |].
  { intros o. simpl. wp_step. unfold on_bpages. wp_step. eapply wp_mono; [eapply pg_free_spec; [exact Hheld|by rewrite lookup_insert_eq]|].
    intros [] P2 _. wp_step. split; [done|by left]. }
  intros o l Ho Hl. simpl. wp_step. unfold on_tree. wp_step.
  eapply wp_mono; [apply (wp_insert Hsz m); [apply B|lia|done|lia]|]. intros e t (m' & Hins & Hrep).
  destruct Hins as [(-> & _ & ->)|[(-> & [? ?] & _)|(-> & ->)]]; [|congruence|].
  2:{ simpl. wp_step. unfold on_bpages. wp_step.
      eapply wp_mono; [eapply pg_free_spec; [exact Hheld|by rewrite lookup_insert_eq]|].
      intros [] P2 _. wp_step. split; [done|by left]. }
  simpl. wp_step. split; [done|]. right. split; [done|]. exists (<[i := p]> m), (<[p := 1]> H).
  assert (Hnp : forall j q, m !! j = Some q -> q <> p).
  { intros j q Hj ->. destruct (bi_page _ _ _ _ _ _ B _ _ Hj) as (_ & [? ?] & _). congruence. }
  split; [|split; [by rewrite lookup_insert_eq|split; [by apply insert_subseteq|split; [done|]]]].
  2:{ intros j q Hj. simpl. rewrite !lookup_insert_ne; [done|by apply not_eq_sym, (Hnp j)..]. }
  split; simpl.
  - done.
  - done.
  - intros j1 j2 q. rewrite !lookup_insert. do 2 case_decide; [congruence|..].
    + intros [= <-] Hq. by destruct (Hnp _ _ Hq).
    + intros Hq [= <-]. by destruct (Hnp _ _ Hq).
    + apply B.
  - intros j q. rewrite lookup_insert. case_decide as E.
    + subst j. intros [= <-]. split; [done|]. rewrite lookup_insert_eq. split; [done|]. split.
      * exists (mkPg false 0 []). simpl. rewrite lookup_insert_eq. split; [done|].
        split; [by rewrite (proj2 (Z.eqb_neq p NULL) Hp0)|]. split; [by left|]. split; [lia|]. by intros k h.
      * exists l. simpl. by rewrite lookup_insert_eq.
    + intros Hj. destruct (bi_page _ _ _ _ _ _ B _ _ Hj) as (? & ? & [Hpg Hda]). split; [done|].
      pose proof (Hnp _ _ Hj) as Hne. rewrite lookup_insert_ne by done. split; [done|].
      split; simpl; rewrite lookup_insert_ne by done; done.
  - intros h b Hb. destruct (bi_bh _ _ _ _ _ _ B _ _ Hb) as (? & j & k & pg & Hj & Hpg & Hk). split; [done|].
    exists j, k, pg. rewrite !lookup_insert_ne; [done|by apply not_eq_sym, (Hnp j)|by intros ->; congruence].
  - done.
Qed.

(** ** Block headers *)

Definition fresh_header (i p : Z) (k : nat) : blk_header :=
  mkBh false (8 * i + Z.of_nat k) p (Z.of_nat k)
    (set_state_bit (set_state_bit junk BLK_HEADER_VALID true) BLK_HEADER_DIRTY false) 0.

Lemma fresh_header_ok i p k pg : hd_ok i p k (fresh_header i p k) /\ dirty_ok pg (fresh_header i p k).
Proof using Type.
  unfold hd_ok, dirty_ok, fresh_header, BLK_HEADER_VALID, BLK_HEADER_DIRTY.
  cbn [bh_blk bh_page bh_data bh_state bh_ref]. split.
  - do 3 (split; [done|]). split; [|lia]. rewrite get_set_other, get_set_state_bit by lia. done.
  - intros _. apply get_set_state_bit. lia.
Qed.

(** The headers of the locked page [p] from [s] to [s']: those of [s] stay, the
    new ones are unlocked and unreferenced. *)
Record grown (p : Z) s s' : Prop := {
  gw_io : io s' = io s;
  gw_bh : b_bh s ⊆ b_bh s';
  gw_data : b_data s' = b_data s;
  gw_pg : forall q, q <> p -> b_pg s' !! q = b_pg s !! q;
  gw_new : forall h b, b_bh s' !! h = Some b -> b_bh s !! h = None -> bh_lock b = false /\ bh_ref b = 0
}.

Lemma grown_refl p s : grown p s s.
Proof using Type. split; try done. congruence. Qed.

Lemma grown_trans p s s1 s2 : grown p s s1 -> grown p s1 s2 -> grown p s s2.
Proof using Type.
  intros G1 G2. split.
  - rewrite (gw_io _ _ _ G2). apply G1.
  - etrans; [apply G1|apply G2].
  - rewrite (gw_data _ _ _ G2). apply G1.
  - intros q Hq. rewrite (gw_pg _ _ _ G2) by done. by apply G1.
  - intros h b Hb Hn. destruct (b_bh s1 !! h) as [c|] eqn:E; [|by eapply G2].
    pose proof (lookup_weaken _ _ _ _ E (gw_bh _ _ _ G2)). eapply (gw_new _ _ _ G1); [|done]. congruence.
Qed.

(** One header is added to the locked page. *)
Lemma binv_add_header m H s i p pg h o :
  BI p m H s -> m !! i = Some p -> b_pg s !! p = Some pg -> (length (pg_headers pg) < 8)%nat ->
  h <> NULL -> b_bh s !! h = None -> objs_ok bioc bhc o ({[h]} ∪ dom (b_bh s)) ->
  let pg' := mkPg (pg_lock pg) (pg_state pg) (pg_headers pg ++ [h]) in
  let s' := set_bobjs o (set_bh (<[h := fresh_header i p (length (pg_headers pg))]> (b_bh s))
              (Bdev.set_pg (<[p := pg']> (b_pg s)) s)) in
  BI p m H s' /\ grown p s s'.
Proof using Type.
  intros B Hm Hpg Hlen Hh0 Hhn Ho pg' s'. destruct (page_data _ _ _ _ _ _ _ _ B Hm) as (Hp0 & pg0 & Hpg0 & Hl & _ & _ & Hh & Hb).
  rewrite Hpg in Hpg0. injection Hpg0 as <-. split.
  - eapply (binv_change _ _ p p m H s s' i p pg'); try done; [by right|by right|..].
    + simpl. rewrite length_app. simpl. lia.
    + intros k g. unfold pg'. simpl. intros Hk. apply lookup_app_Some in Hk as [Hk|[Hk Hg]].
      * destruct (Hh _ _ Hk) as (b & Hgb & ?). exists b. split; [|done].
        rewrite lookup_insert_ne; [done|]. congruence.
      * apply list_lookup_singleton_Some in Hg as [E <-]. rewrite lookup_insert_eq.
        eexists. split; [done|]. replace k with (length (pg_headers pg)) by lia. apply fresh_header_ok.
    + intros g b Hg _. simpl. rewrite lookup_insert_ne; [done|]. congruence.
    + intros g b. simpl. rewrite lookup_insert. case_decide as E.
      * subst g. intros [= <-]. right. split; [done|]. split; [done|]. exists (length (pg_headers pg)).
        by rewrite lookup_app_r, Nat.sub_diag.
      * intros Hg. destruct (Z.eq_dec (bh_page b) p) as [Ep|]; [right|by left]. split; [done|].
        destruct (Hb _ _ Hg Ep) as (? & k & Hk). split; [done|]. exists k. by apply lookup_app_l_Some.
    + simpl. by rewrite dom_insert_L.
  - split; simpl; try done.
    + by apply insert_subseteq.
    + intros q Hq. by rewrite lookup_insert_ne.
    + intros g b. rewrite lookup_insert. case_decide; [by intros [= <-]|congruence].
Qed.

Lemma wp_set_valid h b v s (Q : unit -> bst P R O -> Prop) : b_bh s !! h = Some b ->
  Q tt (set_bh (<[h := set_bh_state (set_state_bit (bh_state b) BLK_HEADER_VALID v) b]> (b_bh s)) s) ->
  wp (bdev_set_blk_valid h v) Q s.
Proof using Type. intros Hb HQ. unfold bdev_set_blk_valid. by eapply wp_upd_bh. Qed.

Lemma wp_set_clean h b s (Q : unit -> bst P R O -> Prop) : b_bh s !! h = Some b ->
  Q tt (set_bh (<[h := set_bh_state (set_state_bit (bh_state b) BLK_HEADER_DIRTY false) b]> (b_bh s)) s) ->
  wp (bdev_set_blk_dirty h false) Q s.
Proof using Type.
  intros Hb HQ. unfold bdev_set_blk_dirty. wp_step. eapply wp_upd_bh; [done|]. by wp_step.
Qed.

(** One round of the loop of init_blk_headers. *)
Lemma wp_add_header m H s i p pg (Q : option Z -> bst P R O -> Prop) :
  BI p m H s -> m !! i = Some p -> 0 <= i < 2 ^ 20 -> b_pg s !! p = Some pg -> (length (pg_headers pg) < 8)%nat ->
  (forall o, Q (Some ERR_NOMEM) (set_bobjs o s)) ->
  (forall s' pg' h, BI p m H s' -> grown p s s' -> b_pg s' !! p = Some pg' -> pg_headers pg' = pg_headers pg ++ [h] ->
     Q None s') ->
  wp (bh <- on_bobjs (oa_alloc bhc);;
      if bh =? NULL then ret (Some ERR_NOMEM)
      else
        v <- get_pg p;;
        put_pg p (mkPg (pg_lock v) (pg_state v) (pg_headers v ++ [bh]));;
        modify (fun s => set_bh (<[bh := mkBh false (u32 (8 * i + Z.of_nat (length (pg_headers pg)))) p
                                   (Z.of_nat (length (pg_headers pg))) junk 0]> (b_bh s)) s);;
        bdev_set_blk_valid bh true;;
        bdev_set_blk_dirty bh false;;
        ret None) Q s.
Proof using Hsz Hcc.
  intros B Hm Hi Hpg Hlen HN HS. destruct (bi_objs _ _ _ _ _ _ B) as (L & X & Y & HL & HX & HY & HD).
  wp_step. unfold on_bobjs. wp_step. eapply wp_mono; [by eapply oa_alloc_spec|].
  intros h o [[-> _]|(Hh & HhX & HL')]; [simpl; wp_step; apply HN|].
  rewrite (proj2 (Z.eqb_neq h NULL) Hh). wp_step. eapply wp_get_pg; [exact Hpg|]. wp_step. unfold put_pg. wp_step.
  wp_step. wp_step. wp_step. eapply wp_set_valid; [simpl; by rewrite lookup_insert_eq|]. wp_step.
  eapply wp_set_clean; [simpl; by rewrite lookup_insert_eq|]. wp_step. simpl. rewrite !insert_insert_eq.
  rewrite (wrapu_small 32 (8 * i + Z.of_nat (length (pg_headers pg)))) by lia.
  assert (Hhn : b_bh s !! h = None).
  { apply eq_None_not_Some. intros Hs. apply elem_of_dom in Hs. set_solver. }
  assert (Ho : objs_ok bioc bhc o ({[h]} ∪ dom (b_bh s))).
  { exists (<[bhc := {[h]} ∪ X]> L), ({[h]} ∪ X), Y. split; [done|].
    rewrite lookup_insert_eq, lookup_insert_ne by done. do 2 (split; [done|]). set_solver. }
  destruct (binv_add_header m H s i p pg h o B Hm Hpg Hlen Hh Hhn Ho) as [B' G'].
  eapply (HS _ _ h B' G'); [simpl; by rewrite lookup_insert_eq|done].
Qed.

Lemma wp_init_headers m H s i p :
  BI p m H s -> m !! i = Some p -> 0 <= i < 2 ^ 20 ->
  (forall pg, b_pg s !! p = Some pg -> length (pg_headers pg) = 0%nat \/ length (pg_headers pg) = 8%nat) ->
  wp (init_blk_headers bhc junk p (8 * i)) (fun e s' => io s' = io s /\
    ((e = ERR_NOMEM /\ exists pg', b_pg s' !! p = Some pg' /\ pg_lock pg' = true) \/ (e = ERR_OK /\ BI p m H s' /\ grown p s s' /\
       exists pg', b_pg s' !! p = Some pg' /\ length (pg_headers pg') = 8%nat))) s.
Proof using Hsz Hcc.
  intros B Hm Hi Hfull. destruct (page_data _ _ _ _ _ _ _ _ B Hm) as (Hp0 & pg & Hpg & _).
  unfold init_blk_headers. wp_step. eapply wp_get_pg; [done|]. specialize (Hfull _ Hpg).
  destruct (pg_headers pg) as [|h0 hs] eqn:Eh.
  2:{ wp_step. split; [done|]. right. do 2 (split; [done|]). split; [apply grown_refl|].
      exists pg. split; [done|]. rewrite Eh. simpl in *. lia. }
  wp_step. apply wp_for_ret with (I := fun k s' => exists pg', BI p m H s' /\ grown p s s' /\
    b_pg s' !! p = Some pg' /\ Z.of_nat (length (pg_headers pg')) = k).
  - exists pg. do 2 (split; [done || apply grown_refl|]). by rewrite Eh.
  - intros k s1 Hk (pg1 & B1 & G1 & Hpg1 & Hlen). subst k. change (Z.to_nat N_BLKS_PER_PAGE) with 8%nat in Hk.
    eapply wp_add_header; [exact B1|exact Hm|exact Hi|exact Hpg1|lia| |].
    + intros o. wp_step. split; [simpl; apply G1|]. left. split; [done|]. exists pg1. split; [done|].
      destruct (page_data _ _ _ _ _ _ _ _ B1 Hm) as (_ & pg2 & Hpg2 & Hl2 & _). rewrite Hpg1 in Hpg2. injection Hpg2 as <-. by rewrite Hl2, Z.eqb_refl.
    + intros s2 pg2 h B2 G2 Hpg2 Eh2. exists pg2. split; [done|]. split; [by eapply grown_trans|].
      split; [done|]. rewrite Eh2, length_app. simpl. lia.
  - intros s1 (pg1 & B1 & G1 & Hpg1 & Hlen). wp_step. split; [apply G1|]. right. split; [done|].
    do 2 (split; [done|]). exists pg1. split; [done|]. change (Z.to_nat N_BLKS_PER_PAGE) with 8%nat in Hlen. lia.
Qed.

Lemma wp_find_blk blk s l k h b (Q : option Z -> bst P R O -> Prop) :
  l !! k = Some h -> b_bh s !! h = Some b -> bh_blk b = blk ->
  (forall j g, l !! j = Some g -> g <> NULL /\ exists c, b_bh s !! g = Some c) ->
  (forall j g c, l !! j = Some g -> b_bh s !! g = Some c -> bh_blk c = blk -> g = h) ->
  Q (Some h) s -> wp (find_blk blk l) Q s.
Proof using Type.
  revert k. induction l as [|a l IH]; intros k Hk Hb Eb Hall Huniq HQ; [done|].
  destruct (Hall 0%nat a eq_refl) as (Ha & c & Hc). simpl. wp_step. wp_step; [by apply nonnull_true|].
  wp_step. eapply wp_get_bh; [done|]. destruct (Z.eqb_spec (bh_blk c) blk) as [E|E].
  - wp_step. by rewrite (Huniq 0%nat a c eq_refl Hc E).
  - destruct k as [|k]; [simpl in Hk; simplify_eq; congruence|].
    apply (IH k); [done|done|done| | |done].
    + intros j g Hj. by apply (Hall (S j)).
    + intros j g d Hj. by apply (Huniq (S j)).
Qed.

(** ** bdev_get_blk *)

(** [h] is the header of [blk], locked and referenced; the other headers and
    the contents of the blocks that had one are as before. *)
Record fetched (blk : Z) s (h : Z) s' : Prop := {
  ft_hd : exists b, b_bh s' !! h = Some b /\ bh_blk b = blk /\ bh_lock b = true /\ 0 < bh_ref b;
  ft_same : forall b, b_bh s !! h = Some b -> bh_blk b = blk;
  ft_other : forall g b, b_bh s !! g = Some b -> g <> h -> b_bh s' !! g = Some b;
  ft_new : forall g b, b_bh s' !! g = Some b -> g <> h -> b_bh s !! g = Some b \/ (bh_lock b = false /\ bh_ref b = 0);
  ft_data : forall g b, b_bh s !! g = Some b -> b_data s' !! bh_page b = b_data s !! bh_page b
}.

Lemma binv_pclock v pl m H s : BI pl m H s -> BI pl m H (set_pclock v s).
Proof using Type.
  intros B. split; try apply B. intros i p Hm. destruct (bi_page _ _ _ _ _ _ B _ _ Hm) as (? & ? & [? ?]).
  do 2 (split; [done|]). by split.
Qed.

Lemma io_pclock s s' : io s' = io (set_pclock true s) -> b_pclock s = false -> io (set_pclock false s') = io s.
Proof using Type. unfold io. simpl. intros [= -> ->] ->. done. Qed.

(** After the page and its headers are there: find, reference and lock. *)
Lemma wp_take_blk m H s s1 i p k pg h b blk :
  BI p m H s1 -> m !! i = Some p -> blk = 8 * i + Z.of_nat k -> b_pg s1 !! p = Some pg ->
  length (pg_headers pg) = 8%nat -> pg_headers pg !! k = Some h -> b_bh s1 !! h = Some b ->
  bh_lock b = false -> bh_ref b < 2 ^ 32 - 1 ->
  io s1 = io s -> (forall g c, b_bh s !! g = Some c -> b_bh s1 !! g = Some c) ->
  (forall g c, b_bh s1 !! g = Some c -> b_bh s !! g = Some c \/ (bh_lock c = false /\ bh_ref c = 0)) ->
  (forall g c, b_bh s !! g = Some c -> b_data s1 !! bh_page c = b_data s !! bh_page c) ->
  wp (h <- (v <- get_pg p;;
            o <- find_blk blk (pg_headers v);;
            match o with
            | Some bh => upd_bh bh (fun b => set_bh_ref (u32 (bh_ref b + 1)) b);; unlock_page p;; ret bh
            | None => panic
            end);;
      (if negb (h =? NULL) then lock_bh h else ret tt);; ret h)
     (fun h s' => io s' = io s /\ (h = NULL \/ (h <> NULL /\ exists m H, BI NULL m H s' /\ fetched blk s h s'))) s1.
Proof using Hsz Hcc.
  intros B Hm Eb Hpg Hlen Hk Hb Hlk Href Hio Hsub Hnew Hda.
  destruct (page_data _ _ _ _ _ _ _ _ B Hm) as (Hp0 & pg0 & Hpg0 & _ & _ & _ & Hh & _).
  rewrite Hpg in Hpg0. injection Hpg0 as <-. destruct (Hh _ _ Hk) as (b' & Hb' & Hok & _).
  rewrite Hb in Hb'. injection Hb' as <-. destruct Hok as (Ebl & Epg & Eda & Hval & Hr).
  assert (Hh0 : h <> NULL) by (by eapply (bi_bh _ _ _ _ _ _ B)).
  wp_step. wp_step. eapply wp_get_pg; [done|]. wp_step.
  eapply (wp_find_blk blk s1 (pg_headers pg) k h b); [done|done|lia| | |].
  { intros j g Hg. destruct (Hh _ _ Hg) as (c & Hc & _). split; [|by exists c]. by eapply (bi_bh _ _ _ _ _ _ B). }
  { intros j g c _ Hc Ec. eapply (header_unique _ _ p m H s1); [exact B|done|done|congruence]. }
  wp_step. eapply wp_upd_bh; [done|]. rewrite (wrapu_small 32) by lia.
  set (b1 := set_bh_ref (bh_ref b + 1) b).
  assert (B1 : BI p m H (set_bh (<[h := b1]> (b_bh s1)) s1)).
  { eapply binv_upd_bh; [exact B|done|done|done|simpl; lia|done]. }
  wp_step. eapply (wp_unlock_page _ _ m H _ i p); [exact B1|done|simpl; intros pg1; rewrite Hpg; intros [= <-]; by right|].
  simpl. rewrite Hpg. intros pg1 [= <-]. intros B2. wp_step.
  rewrite (proj2 (Z.eqb_neq h NULL) Hh0). simpl negb. cbn match. wp_step. unfold lock_bh. wp_step.
  eapply wp_get_bh; [simpl; by rewrite lookup_insert_eq|]. unfold b1 at 1. simpl bh_lock. rewrite Hlk.
  eapply wp_upd_bh; [simpl; by rewrite lookup_insert_eq|]. wp_step. split; [exact Hio|]. right. split; [done|].
  exists m, H. split.
  - eapply binv_upd_bh; [exact B2|simpl; by rewrite lookup_insert_eq|done|done|simpl; lia|done].
  - split; simpl.
    + exists (set_bh_lock true b1). rewrite lookup_insert_eq. split; [done|]. simpl. split; [lia|]. split; [done|lia].
    + intros c Hc. apply Hsub in Hc. rewrite Hb in Hc. injection Hc as <-. lia.
    + intros g c Hg Hne. rewrite !lookup_insert_ne by done. by apply Hsub.
    + intros g c Hg Hne. rewrite !lookup_insert_ne in Hg by done. by apply Hnew.
    + done.
Qed.

Lemma wp_get_blk m H s blk :
  BI NULL m H s -> b_pclock s = false -> 0 <= blk < 2 ^ 23 ->
  (forall g b, b_bh s !! g = Some b -> bh_blk b = blk -> bh_lock b = false /\ bh_ref b < 2 ^ 32 - 1) ->
  wp (bdev_get_blk bioc bhc junk blk) (fun h s' => io s' = io s /\
     (h = NULL \/ (h <> NULL /\ exists m' H', BI NULL m' H' s' /\ fetched blk s h s'))) s.
Proof using Hsz Hcc.
  intros B Hpc Hblk Hfree. set (i := blk / 8). set (k := Z.to_nat (blk mod 8)).
  assert (Hbi : blk = 8 * i + Z.of_nat k) by (unfold i, k; pose proof (Z.div_mod blk 8); pose proof (Z.mod_pos_bound blk 8); lia).
  assert (Hi : 0 <= i < 2 ^ 20) by (unfold i; split; [apply Z.div_pos|apply Z.div_lt_upper_bound]; lia).
  assert (Hk : (k < 8)%nat) by (unfold k; pose proof (Z.mod_pos_bound blk 8); lia).
  unfold bdev_get_blk, bdev_get_blk_unlocked. wp_step. wp_step. unfold lock_pgcache. wp_step. wp_step. rewrite Hpc.
  wp_step. wp_step. unfold BDEV_BLK_SIZE. rewrite (wrapu_small 32) by lia.
  eapply wp_mono; [apply (wp_pgcache m H _ _ i); [by apply binv_pclock| |done]|].
  { unfold i. change pg_size with (8 * 512). apply Z.div_mul_cancel_r; lia. }
  intros p s2 (Hio & Hp). pose proof (io_pclock _ _ Hio Hpc) as Hio'.
  assert (Hpc2 : b_pclock s2 = true) by (unfold io in Hio; simpl in Hio; congruence).
  assert (Hun : forall Q : unit -> bst P R O -> Prop, Q tt (set_pclock false s2) -> wp unlock_pgcache Q s2).
  { intros Q HQ. unfold unlock_pgcache. wp_step. wp_step. wp_step. wp_step; [done|]. by wp_step. }
  destruct (Z.eqb_spec p NULL) as [->|Hp0].
  { wp_step. apply Hun. wp_step. simpl. wp_step. wp_step. wp_step. split; [done|by left]. }
  destruct Hp as [|(_ & m' & H' & B2 & Hm' & Hmm & Ebh & Hkept)]; [done|]. wp_step. apply Hun.
  apply (binv_pclock false) in B2. set (s3 := set_pclock false s2) in *. wp_step.
  eapply (wp_lock_page _ _ m' H' s3 i p); [exact B2|done|]. intros pg Hpg s4 B4 Hlen. wp_step.
  replace (FIRST_BLK_IN_PAGE blk) with (8 * i) by (unfold FIRST_BLK_IN_PAGE, i; change N_BLKS_PER_PAGE with 8; lia).
  eapply wp_mono; [apply (wp_init_headers m' H' s4 i p); [exact B4|done|done|]|].
  { intros pg1. unfold s4. simpl. rewrite lookup_insert_eq. intros [= <-]. done. }
  intros e s5 (Hio5 & He). assert (Hio6 : io s5 = io s) by (rewrite Hio5; exact Hio').
  destruct He as [(-> & pg5 & E5 & El5)|(-> & B5 & G5 & pg5 & Hpg5 & Hlen5)].
  { simpl. wp_step. unfold unlock_page. wp_step. eapply wp_get_pg; [done|]. wp_step. wp_step; [done|]. unfold put_pg. wp_step. wp_step. simpl.
    wp_step. wp_step. wp_step. split; [exact Hio6|by left]. }
  simpl negb. cbn match. destruct (lookup_lt_is_Some_2 (pg_headers pg5) k) as [h Hh]; [lia|].
  destruct (page_data _ _ _ _ _ _ _ _ B5 Hm') as (_ & pg6 & Hpg6 & _ & _ & _ & Hok & _).
  rewrite Hpg5 in Hpg6. injection Hpg6 as <-. destruct (Hok _ _ Hh) as (b & Hb & (Ebk & _) & _).
  assert (E4 : b_bh s4 = b_bh s) by exact Ebh.
  assert (Hnew : forall g c, b_bh s5 !! g = Some c -> b_bh s !! g = Some c \/ (bh_lock c = false /\ bh_ref c = 0)).
  { intros g c Hg. destruct (b_bh s !! g) as [c'|] eqn:E.
    - left. rewrite <- E4 in E. rewrite (lookup_weaken _ _ _ _ E (gw_bh _ _ _ G5)) in Hg. congruence.
    - right. eapply (gw_new _ _ _ G5); [done|]. by rewrite E4. }
  assert (Hbl : bh_lock b = false /\ bh_ref b < 2 ^ 32 - 1).
  { destruct (Hnew _ _ Hb) as [Hb0|[? ->]]; [|done]. apply (Hfree _ _ Hb0). lia. }
  apply wp_unbind. eapply (wp_take_blk m' H' s s5 i p k pg5 h b blk); try done; [by destruct Hbl..| |].
  - intros g c Hg. eapply lookup_weaken; [|apply (gw_bh _ _ _ G5)]. by rewrite E4.
  - intros g c Hg. rewrite (gw_data _ _ _ G5).
    destruct (bi_bh _ _ _ _ _ _ B _ _ Hg) as (_ & j & k' & pg' & Hj & _). exact (proj2 (Hkept _ _ Hj)).
Qed.

(** ** bdev_write_blk *)

(** The cached contents of the block of a header. *)
Definition content s (b : blk_header) : option block :=
  b_data s !! bh_page b ≫= fun l => l !! Z.to_nat (bh_data b).

Definition clean (b : blk_header) : blk_header :=
  set_bh_state (set_state_bit (bh_state b) BLK_HEADER_DIRTY false) b.

Lemma clean_ok b : get_state_bit (bh_state b) BLK_HEADER_VALID = true ->
  get_state_bit (bh_state (clean b)) BLK_HEADER_VALID = true /\
  get_state_bit (bh_state (clean b)) BLK_HEADER_DIRTY = false.
Proof using Type.
  intros Hv. unfold clean, BLK_HEADER_VALID, BLK_HEADER_DIRTY in *. cbn [bh_state set_bh_state].
  split; [rewrite get_set_other by lia; done|]. apply get_set_state_bit. lia.
Qed.

(** A header of the cache, and its block in the page. *)
Lemma header_data pl m H s h b : BI pl m H s -> b_bh s !! h = Some b ->
  h <> NULL /\ (exists i k, m !! i = Some (bh_page b) /\ hd_ok i (bh_page b) k b) /\ is_Some (content s b).
Proof using Type.
  intros B Hb. destruct (bi_bh _ _ _ _ _ _ B _ _ Hb) as (Hh & i & k & pg & Hm & Hpg & Hk).
  destruct (bi_page _ _ _ _ _ _ B _ _ Hm) as (_ & _ & [(pg' & Hpg' & _ & _ & Hle & Hok) (l & Hl & Hlen)]).
  rewrite Hpg in Hpg'. injection Hpg' as <-. destruct (Hok _ _ Hk) as (b' & Hb' & Hhd & _).
  rewrite Hb in Hb'. injection Hb' as <-. split; [done|]. split; [by exists i, k|].
  unfold content. rewrite Hl. simpl. apply lookup_lt_is_Some_2. destruct Hhd as (_ & _ & -> & _).
  apply lookup_lt_Some in Hk. lia.
Qed.

Lemma wp_get_data s b v (Q : block -> bst P R O -> Prop) :
  content s b = Some v -> Q v s -> wp (get_data (bh_page b) (bh_data b)) Q s.
Proof using Type.
  unfold content. intros (l & Hl & Hv)%bind_Some HQ. unfold get_data. wp_step. wp_step. wp_step.
  eapply wp_deref; [done|]. by eapply wp_deref.
Qed.

Lemma binv_objs pl m H s o : BI pl m H s -> objs_ok bioc bhc o (dom (b_bh s)) -> BI pl m H (set_bobjs o s).
Proof using Type.
  intros B Ho. split; try apply B; [|done].
  intros i p Hm. destruct (bi_page _ _ _ _ _ _ B _ _ Hm) as (? & ? & [? ?]). do 2 (split; [done|]). by split.
Qed.

Lemma binv_disk pl m H s blk v : BI pl m H s -> BI pl m H (disk_write blk v s).
Proof using Type.
  intros B. split; try apply B.
  intros i p Hm. destruct (bi_page _ _ _ _ _ _ B _ _ Hm) as (? & ? & [? ?]). do 2 (split; [done|]). by split.
Qed.

Lemma wp_write_blk m H s h b v :
  BI NULL m H s -> b_bh s !! h = Some b -> content s b = Some v ->
  wp (bdev_write_blk bioc h) (fun e s' =>
     (e = ERR_NOMEM /\ io s' = io s) \/
     (e = ERR_OK /\ BI NULL m H s' /\ io s' = io (disk_write (bh_blk b) v s) /\
      b_bh s' = <[h := clean b]> (b_bh s) /\ b_data s' = b_data s)) s.
Proof using Hsz Hcc.
  intros B Hb Hv. destruct (header_data _ _ _ _ _ _ B Hb) as (_ & (i & k & _ & _ & _ & _ & Hval & Href) & _).
  unfold bdev_write_blk, bdev_is_blk_valid. wp_step. wp_step. eapply wp_get_bh; [done|]. wp_step.
  wp_step. wp_step; [done|]. wp_step. eapply wp_bio_alloc; [apply B| |].
  { intros o. simpl. wp_step. by left. }
  intros bio o Hbio Hw. rewrite (proj2 (Z.eqb_neq bio NULL) Hbio). wp_step. eapply wp_get_bh; [done|].
  wp_step. unfold submit_write. wp_step. apply (wp_get_data _ b v); [done|]. wp_step. wp_step.
  apply (wp_bio_free (dom (b_bh s))); [done|]. intros o' Ho'. wp_step.
  eapply wp_set_clean; [done|]. wp_step. right. split; [done|]. split; [|done].
  destruct (clean_ok _ Hval). eapply binv_upd_bh; [|done|done|done|done|done].
  apply binv_objs; [|done]. apply binv_disk.
  destruct Hw as (L & X & Y & ? & ? & ? & ? & _). apply (binv_objs NULL m H s o B). by exists L, X, Y.
Qed.

(** ** bdev_release_blk *)

(** The headers [l] are freed, the page keeps none. *)
Record freed (p : Z) (pg : cpage) (l : list Z) s s' : Prop := {
  fr_io : io s' = io s;
  fr_tree : b_tree s' = b_tree s;
  fr_pages : b_pages s' = b_pages s;
  fr_data : b_data s' = b_data s;
  fr_pg : b_pg s' = <[p := mkPg (pg_lock pg) (pg_state pg) []]> (b_pg s);
  fr_in : forall g, g ∈ l -> b_bh s' !! g = None;
  fr_out : forall g, g ∉ l -> b_bh s' !! g = b_bh s !! g;
  fr_objs : objs_ok bioc bhc (b_objs s') (dom (b_bh s'))
}.

Lemma wp_free_headers p l pg s :
  b_pg s !! p = Some pg -> pg_headers pg = l -> NoDup l ->
  (forall g, g ∈ l -> exists b, b_bh s !! g = Some b /\ get_state_bit (bh_state b) BLK_HEADER_DIRTY = false) ->
  objs_ok bioc bhc (b_objs s) (dom (b_bh s)) ->
  wp (free_headers bhc p l) (fun _ s' => freed p pg l s s') s.
Proof using Hsz Hcc.
  revert pg s. induction l as [|a l IH]; intros pg s Hpg Eh Hnd Hall Ho; simpl.
  - wp_step. split; try done; [|set_solver]. rewrite insert_id; [done|]. destruct pg. simpl in *. by subst.
  - apply NoDup_cons in Hnd as [Hal Hnd]. destruct (Hall a) as (b & Hb & Hd); [set_solver|].
    unfold bdev_is_blk_dirty. wp_step. wp_step. eapply wp_get_bh; [done|]. wp_step. rewrite Hd. wp_step. wp_step; [done|].
    wp_step. eapply wp_get_pg; [done|]. wp_step. unfold put_pg. wp_step. wp_step. unfold on_bobjs. wp_step.
    destruct Ho as (L & X & Y & HL & HX & HY & HD). simpl.
    eapply wp_mono; [eapply oa_free_spec; [done|exact HX|]|].
    { apply elem_of_dom_2 in Hb. set_solver. }
    intros [] o HL'. wp_step. wp_step.
    eapply wp_mono; [apply (IH (mkPg (pg_lock pg) (pg_state pg) l))|].
    + simpl. by rewrite lookup_insert_eq.
    + done.
    + done.
    + intros g Hg. simpl. rewrite lookup_delete_ne by (intros ->; done). apply Hall. set_solver.
    + simpl. exists (<[bhc := X ∖ {[a]}]> L), (X ∖ {[a]}), Y. split; [done|].
      rewrite lookup_insert_eq, lookup_insert_ne by done. do 2 (split; [done|]).
      rewrite dom_delete_L. set_solver.
    + intros [] s' F. destruct F as [? ? ? ? F1 F2 F3 ?]. simpl in *. rewrite insert_insert_eq in F1. split; try done.
      * intros g Hg. destruct (decide (g = a)) as [->|]; [|apply F2; set_solver].
        rewrite F3 by done. by rewrite lookup_delete_eq.
      * intros g Hg. rewrite F3 by set_solver. rewrite lookup_delete_ne; [done|set_solver].
Qed.

Lemma wp_zero_refs l s (Q : bool -> bst P R O -> Prop) :
  (forall g, g ∈ l -> is_Some (b_bh s !! g)) ->
  ((forall g b, g ∈ l -> b_bh s !! g = Some b -> bh_ref b <= 0) -> Q true s) -> Q false s ->
  wp (zero_refs l) Q s.
Proof using Hsz Hcc.
  induction l as [|a l IH]; intros Hall HT HF; simpl; [wp_step; apply HT; set_solver|].
  destruct (Hall a) as [b Hb]; [set_solver|]. wp_step. eapply wp_get_bh; [done|].
  destruct (Z.ltb_spec 0 (bh_ref b)); [by wp_step|]. apply IH; [set_solver| |done].
  intros Hz. apply HT. intros g c [->|Hg]%elem_of_cons Hc; [by simplify_eq|by eapply Hz].
Qed.

Lemma headers_NoDup pl m H s i p pg : BI pl m H s -> m !! i = Some p -> b_pg s !! p = Some pg -> NoDup (pg_headers pg).
Proof using Type.
  intros B Hm Hpg. destruct (page_data _ _ _ _ _ _ _ _ B Hm) as (_ & pg' & Hpg' & _ & _ & _ & Hok & _).
  rewrite Hpg in Hpg'. injection Hpg' as <-. apply NoDup_alt. intros j k h Hj Hk.
  destruct (Hok _ _ Hj) as (b1 & Hb1 & (E1 & _) & _). destruct (Hok _ _ Hk) as (b2 & Hb2 & (E2 & _) & _).
  simplify_eq. lia.
Qed.

(** The header [h] gives back one reference; the other headers in use, and the
    contents of every block, stay. *)
Record released (h : Z) (b : blk_header) s s' : Prop := {
  rl_io : io s' = io s;
  rl_data : b_data s' = b_data s;
  rl_keep : forall g c, b_bh s !! g = Some c -> g <> h -> 0 < bh_ref c -> b_bh s' !! g = Some c;
  rl_self : 1 < bh_ref b -> b_bh s' !! h = Some (set_bh_ref (bh_ref b - 1) (set_bh_lock false b));
  rl_back : forall g c, b_bh s' !! g = Some c ->
    if decide (g = h) then c = set_bh_ref (bh_ref b - 1) (set_bh_lock false b) else b_bh s !! g = Some c
}.

Lemma wp_free_blk_headers m H s i p pg :
  BI p m H s -> m !! i = Some p -> b_pg s !! p = Some pg ->
  (length (pg_headers pg) = 0%nat \/ length (pg_headers pg) = 8%nat) ->
  (forall g b, g ∈ pg_headers pg -> b_bh s !! g = Some b -> bh_ref b <= 0) ->
  wp (free_blk_headers bhc p) (fun _ s' => BI p m H s' /\ io s' = io s /\ b_data s' = b_data s /\
     (forall g b, b_bh s !! g = Some b -> 0 < bh_ref b -> b_bh s' !! g = Some b) /\ b_bh s' ⊆ b_bh s /\
     (forall pg', b_pg s' !! p = Some pg' -> length (pg_headers pg') = 0%nat \/ length (pg_headers pg') = 8%nat)) s.
Proof using Hsz Hcc.
  intros B Hm Hpg Hlen Hz. destruct (page_data _ _ _ _ _ _ _ _ B Hm) as (_ & pg' & Hpg' & Hl & _ & _ & Hok & Hpb).
  rewrite Hpg in Hpg'. injection Hpg' as <-. unfold free_blk_headers. wp_step. eapply wp_get_pg; [done|].
  destruct (get_state_bit (pg_state pg) PAGE_DIRTY_BIT) eqn:Ed.
  { wp_step. do 5 (split; [done|]). intros pg'. rewrite Hpg. by intros [= <-]. }
  eapply wp_mono; [apply (wp_free_headers p (pg_headers pg) pg s Hpg eq_refl)|].
  - by eapply headers_NoDup.
  - intros g [k Hk]%list_elem_of_lookup_1. destruct (Hok _ _ Hk) as (b & Hb & _ & Hd). exists b. split; [done|]. by apply Hd.
  - apply B.
  - intros [] s' F. assert (Hsub : b_bh s' ⊆ b_bh s).
    { apply map_subseteq_spec. intros g b Hg. destruct (decide (g ∈ pg_headers pg)) as [Hin|Hout].
      - by rewrite (fr_in _ _ _ _ _ F) in Hg.
      - by rewrite (fr_out _ _ _ _ _ F) in Hg. }
    split; [|split; [apply F|split; [apply F|split; [|split; [done|]]]]].
    + eapply (binv_change _ _ p p m H s s' i p (mkPg (pg_lock pg) (pg_state pg) []));
        [done|done|by right|by right|apply F|apply F|apply F|apply F|done|by left|simpl; lia|done| | |apply F].
      * intros g b Hg Hne. rewrite (fr_out _ _ _ _ _ F); [done|]. intros [k Hk]%list_elem_of_lookup_1.
        destruct (Hok _ _ Hk) as (c & Hc & (_ & Ec & _) & _). congruence.
      * intros g b Hg. left. split; [|by eapply lookup_weaken]. intros E.
        destruct (Hpb g b) as (_ & k & Hk); [by eapply lookup_weaken|done|].
        rewrite (fr_in _ _ _ _ _ F) in Hg; [done|by eapply list_elem_of_lookup_2].
    + intros g b Hg Hr. rewrite (fr_out _ _ _ _ _ F); [done|]. intros Hin. pose proof (Hz _ _ Hin Hg). lia.
    + intros pg'. rewrite (fr_pg _ _ _ _ _ F), lookup_insert_eq. intros [= <-]. by left.
Qed.

Lemma wp_release_blk m H s h b :
  BI NULL m H s -> b_bh s !! h = Some b -> 0 < bh_ref b -> bh_lock b = true ->
  wp (bdev_release_blk bhc h) (fun _ s' => BI NULL m H s' /\ released h b s s') s.
Proof using Hsz Hcc.
  intros B Hb Hr Hlk. destruct (header_data _ _ _ _ _ _ B Hb) as (Hh0 & (i & k & Hm & _ & _ & _ & Hval & Href) & _).
  set (p := bh_page b) in *. set (b1 := set_bh_lock false b). set (b2 := set_bh_ref (bh_ref b - 1) b1).
  unfold bdev_release_blk, unlock_bh. wp_step. wp_step. eapply wp_get_bh; [done|]. wp_step. wp_step; [done|]. eapply wp_upd_bh; [done|]. fold b1.
  assert (B1 : BI NULL m H (set_bh (<[h := b1]> (b_bh s)) s)) by (eapply binv_upd_bh; done).
  unfold bdev_release_blk_unlocked. wp_step. eapply wp_get_bh; [simpl; by rewrite lookup_insert_eq|]. cbv zeta.
  change (bh_page b1) with p. wp_step. eapply (wp_lock_page _ _ m H _ i p); [exact B1|done|].
  simpl. intros pg Hpg. set (pg1 := mkPg true (pg_state pg) (pg_headers pg)). intros B2 Hlen.
  wp_step. eapply wp_get_bh; [simpl; by rewrite lookup_insert_eq|]. wp_step.
  wp_step; [by apply Z.ltb_lt|]. wp_step. eapply wp_upd_bh; [simpl; by rewrite lookup_insert_eq|].
  simpl. rewrite (wrapu_small 32) by lia. rewrite insert_insert_eq. fold b2.
  wp_step. eapply wp_get_bh; [simpl; by rewrite lookup_insert_eq|].
  set (s3 := set_bh (<[h := b2]> (b_bh s)) _).
  assert (B3 : BI p m H s3).
  { replace s3 with (set_bh (<[h := b2]> (<[h := b1]> (b_bh s))) (Bdev.set_pg (<[p := pg1]> (b_pg s)) (set_bh (<[h := b1]> (b_bh s)) s)))
      by (unfold s3; by rewrite insert_insert_eq).
    eapply binv_upd_bh; [exact B2|simpl; by rewrite lookup_insert_eq|done|done|simpl; lia|done]. }
  assert (Hpg3 : b_pg s3 !! p = Some pg1) by (simpl; by rewrite lookup_insert_eq).
  destruct (page_data _ _ _ _ _ _ _ _ B3 Hm) as (_ & pg3 & E3 & _ & _ & _ & Hok & _).
  rewrite Hpg3 in E3. injection E3 as <-.
  assert (Hend : forall s4, BI p m H s4 -> io s4 = io s3 -> b_data s4 = b_data s3 ->
    (forall g c, b_bh s3 !! g = Some c -> 0 < bh_ref c -> b_bh s4 !! g = Some c) -> b_bh s4 ⊆ b_bh s3 ->
    (forall pg', b_pg s4 !! p = Some pg' -> length (pg_headers pg') = 0%nat \/ length (pg_headers pg') = 8%nat) ->
    wp (unlock_page p) (fun _ s' => BI NULL m H s' /\ released h b s s') s4).
  { intros s4 B4 Hio Hda Hkeep Hsub Hfull. eapply wp_unlock_page; [exact B4|done|done|].
    intros pg4 Hpg4 s5 B5. split; [done|]. split.
    - exact Hio.
    - exact Hda.
    - intros g c Hg Hne Hrc. apply Hkeep; [|done]. simpl. by rewrite lookup_insert_ne.
    - intros H1. apply Hkeep; [simpl; by rewrite lookup_insert_eq|]. simpl. lia.
    - intros g c Hg. assert (H3 : b_bh s3 !! g = Some c) by (by eapply lookup_weaken). simpl in H3.
      rewrite lookup_insert in H3. case_decide as E; [rewrite decide_True by done|rewrite decide_False by congruence; done].
      by injection H3 as <-. }
  wp_step. change (bh_ref b2) with (bh_ref b - 1). destruct (Z.eqb_spec (bh_ref b - 1) 0) as [E|E].
  - unfold blocks_zero_ref. wp_step. eapply wp_get_pg; [done|]. apply wp_zero_refs.
    + intros g [j Hj]%list_elem_of_lookup_1. destruct (Hok _ _ Hj) as (c & -> & _). by eexists.
    + intros Hz. wp_step. eapply wp_mono; [eapply wp_free_blk_headers; [exact B3|exact Hm|exact Hpg3|done|done]|].
      intros [] s4 (B4 & ? & ? & ? & ? & ?). by apply Hend.
    + wp_step. wp_step. apply Hend; try done. intros pg'. rewrite Hpg3. by intros [= <-].
  - wp_step. wp_step. wp_step. apply Hend; try done. intros pg'. rewrite Hpg3. by intros [= <-].
Qed.
End spec.
