(* ===== verification/BdevClaims.v ===== *)
(** * Block cache: the claims

    The specifications of the block cache, with a concrete cache that shows
    that their hypotheses hold. *)

From stdpp Require Import prelude list gmap.
From Stdlib Require Import ZArith Lia.
From S2P Require Import Prelude Mmu Bits DList ObjAlloc PageAlloc RadixTree RadixTreeSpec RadixTreeClaims VpmapClaims Bdev BdevSpec.
From S2P Require Import BdevSpec.

(** An empty cache over five free frames; the object caches are 1 (bio) and 2
    (block headers). *)
Definition demo_frames : list Z := [0x1000; 0x2000; 0x3000; 0x4000; 0x5000].
Definition demo_cache : bst pool bump bump :=
  mkB new_tree false ∅ ∅ ∅ ∅ [] (mkPool demo_frames ∅) (mkBump 3 {[1 := ∅; 2 := ∅]}).

Lemma demo_pool_ok : pool_ok (mkPool demo_frames ∅) ∅.
Proof.
  split; [done|]. split; [apply (bool_decide_unpack _); vm_compute; exact I|]. split.
  - intros p Hp. split; [|done]. change (p ∈ demo_frames) in Hp. unfold demo_frames in Hp. rewrite !elem_of_cons in Hp.
    unfold frame_addr. by destruct Hp as [->|[->|[->|[->|[->|[]%elem_of_nil]]]]].
  - intros p r E. by rewrite lookup_empty in E.
Qed.

Lemma demo_binv : binv 1 2 NULL ∅ ∅ demo_cache.
Proof.
  split.
  - exact new_tree_rep.
  - exact demo_pool_ok.
  - intros i j p E. by rewrite lookup_empty in E.
  - intros i p E. by rewrite lookup_empty in E.
  - intros h b E. simpl in E. by rewrite lookup_empty in E.
  - exists {[1 := ∅; 2 := ∅]}, ∅, ∅. split; [|do 2 (split; [done|]); simpl; by rewrite dom_empty_L].
    split; [done|]. split; [done|]. simpl. split.
    + intros c [X E]. rewrite lookup_insert in E. case_decide; [lia|]. apply lookup_singleton_Some in E as [? _]. lia.
    + intros c X x E Hx. rewrite lookup_insert in E. case_decide; [simplify_eq; set_solver|].
      apply lookup_singleton_Some in E as [_ <-]. set_solver.
Qed.

(** C31 ([bdev_get_blk]): for a block number below 2^23 whose header, if it
    is cached, is unlocked, the call returns NULL (no memory) or the header of
    that block, locked and referenced; the cache invariant is kept (one header
    per block, each on its page), the device is not written, and every other
    header and all cached contents are as before. *)
Theorem bdev_get_blk_spec {P R O} `{!PageAlloc P, !ObjAlloc R, !ObjAlloc O} bioc bhc junk m H (s : bst P R O) blk :
  oa_size_ok (St := R) SIZEOF_RADIX_NODE -> bioc <> bhc ->
  binv bioc bhc NULL m H s -> b_pclock s = false -> 0 <= blk < 2 ^ 23 ->
  (forall g b, b_bh s !! g = Some b -> bh_blk b = blk -> bh_lock b = false /\ bh_ref b < 2 ^ 32 - 1) ->
  wp (bdev_get_blk bioc bhc junk blk) (fun h s' => io s' = io s /\
     (h = NULL \/ (h <> NULL /\ exists m' H', binv bioc bhc NULL m' H' s' /\ fetched blk s h s'))) s.
Proof. intros. by eapply wp_get_blk. Qed.

Lemma bdev_get_blk_spec_witness :
  wp (bdev_get_blk 1 2 0 19) (fun h s' => io s' = io demo_cache /\
     (h = NULL \/ (h <> NULL /\ exists m' H', binv 1 2 NULL m' H' s' /\ fetched 19 demo_cache h s'))) demo_cache.
Proof.
  apply (bdev_get_blk_spec 1 2 0 ∅ ∅); [exact bump_size|done|exact demo_binv|done|done|].
  intros g b E. simpl in E. by rewrite lookup_empty in E.
Defined.

(** The cache after block 19 was fetched. *)
Definition demo_fetch : M (bst pool bump bump) Z := bdev_get_blk 1 2 0 19.
Lemma demo_header : value_of (demo_fetch demo_cache) = Some 7.
Proof. vm_compute. reflexivity. Qed.
Lemma demo_fetched : exists h s m H, demo_fetch demo_cache = Done (h, s) /\ h <> NULL /\
  binv 1 2 NULL m H s /\ fetched 19 demo_cache h s.
Proof.
  destruct (wp_elim _ _ _ (wp_get_blk 1 2 0 bump_size ltac:(done) ∅ ∅ demo_cache 19 demo_binv eq_refl ltac:(done)
    ltac:(intros g b E; simpl in E; by rewrite lookup_empty in E))) as (h & s & Hrun & _ & [->|(Hh & m & H & B & F)]).
  - pose proof demo_header as E. unfold demo_fetch in E. rewrite Hrun in E. discriminate E.
  - exists h, s, m, H. exact (conj Hrun (conj Hh (conj B F))).
Qed.

Lemma demo_content : (match demo_fetch demo_cache with
  | Done (h, s) => b_bh s !! h ≫= content s
  | Stop _ => None
  end) = Some zero_block.
Proof. vm_compute. reflexivity. Qed.

(** C32 ([bdev_write_blk]): on a cached block the call either fails with
    ERR_NOMEM and the device is untouched, or returns ERR_OK after exactly one
    write of the cached contents to the block of the header; the header
    is clean afterwards and nothing else of the cache changes. *)
Theorem bdev_write_blk_spec {P R O} `{!PageAlloc P, !ObjAlloc R, !ObjAlloc O} bioc bhc m H (s : bst P R O) h b v :
  oa_size_ok (St := R) SIZEOF_RADIX_NODE -> bioc <> bhc ->
  binv bioc bhc NULL m H s -> b_bh s !! h = Some b -> content s b = Some v ->
  wp (bdev_write_blk bioc h) (fun e s' =>
     (e = ERR_NOMEM /\ io s' = io s) \/
     (e = ERR_OK /\ binv bioc bhc NULL m H s' /\ io s' = io (disk_write (bh_blk b) v s) /\
      b_bh s' = <[h := clean b]> (b_bh s) /\ b_data s' = b_data s)) s.
Proof. intros. by eapply wp_write_blk. Qed.

Lemma bdev_write_blk_spec_witness : exists h s b, demo_fetch demo_cache = Done (h, s) /\
  wp (bdev_write_blk 1 h) (fun e s' => (e = ERR_NOMEM /\ io s' = io s) \/
     (e = ERR_OK /\ io s' = io (disk_write (bh_blk b) zero_block s))) s.
Proof.
  destruct demo_fetched as (h & s & m & H & Hrun & Hh & B & F). destruct (ft_hd _ _ _ _ F) as (b & Hb & _).
  exists h, s, b. split; [exact Hrun|].
  assert (Hc : content s b = Some zero_block).
  { pose proof demo_content as E. rewrite Hrun in E. cbv beta iota in E. rewrite Hb in E. exact E. }
  eapply wp_mono; [apply (bdev_write_blk_spec 1 2 m H s h b zero_block bump_size ltac:(done) B Hb Hc)|].
  intros e s' [?|(? & _ & ? & _)]; [by left|right; by split].
Defined.

(** ([bdev_release_blk]): releasing a locked header unlocks it and
    drops one reference; with the last reference of the page the headers of a
    clean page are freed; every header that is still referenced, the contents
    and the device are as before and the invariant is kept. *)
Theorem bdev_release_blk_spec {P R O} `{!PageAlloc P, !ObjAlloc R, !ObjAlloc O} bioc bhc m H (s : bst P R O) h b :
  oa_size_ok (St := R) SIZEOF_RADIX_NODE -> bioc <> bhc ->
  binv bioc bhc NULL m H s -> b_bh s !! h = Some b -> 0 < bh_ref b -> bh_lock b = true ->
  wp (bdev_release_blk bhc h) (fun _ s' => binv bioc bhc NULL m H s' /\ released h b s s') s.
Proof. intros. by eapply wp_release_blk. Qed.

Lemma bdev_release_blk_spec_witness : exists h s b m H, demo_fetch demo_cache = Done (h, s) /\
  wp (bdev_release_blk 2 h) (fun _ s' => binv 1 2 NULL m H s' /\ released h b s s') s.
Proof.
  destruct demo_fetched as (h & s & m & H & Hrun & Hh & B & F). destruct (ft_hd _ _ _ _ F) as (b & Hb & _ & Hlk & Hr).
  exists h, s, b, m, H. split; [exact Hrun|].
  apply (bdev_release_blk_spec 1 2 m H s h b bump_size ltac:(done) B Hb Hr Hlk).
Defined.
