(* ===== verification/Ide.v ===== *)
(** * IDE disk driver (kernel/drivers/ide.c) and requests (kernel/bdev.c)

    The request queue of a block device and the driver that works it off one
    command at a time.  Port accesses are recorded in order ([i_ports]); what
    the drive answers is the parameter [hw]: the status bytes that successive
    reads of the status register return after a given history of accesses, and
    the bytes of the data register.  [decode] is the reading of the registers
    of the ATA specification (28-bit LBA): the commands a history of port
    accesses gives the drive.

    [bdev_make_request] appends the request under the queue lock, calls the
    request handler and waits for completion; the drive's interrupt runs
    [ide_trap_handler].  The critical sections of the two locks are the steps
    of the transition system of IdeSpec.v. *)

From stdpp Require Import prelude list gmap.
From Stdlib Require Import ZArith Lia.
From S2P Require Import Prelude DList Bdev.

Definition IDE_SECTOR_SIZE : Z := 512.
Definition IDE_REG_DATA : Z := 0x01F0.
Definition IDE_REG_COUNT : Z := 0x01F2.
Definition IDE_REG_SECTOR : Z := 0x01F3.
Definition IDE_REG_CYL_L : Z := 0x01F4.
Definition IDE_REG_CYL_H : Z := 0x01F5.
Definition IDE_REG_DRIVE : Z := 0x01F6.
Definition IDE_REG_STATUS_CMD : Z := 0x01F7.
Definition IDE_REG_CTRL : Z := 0x03F6.
Definition IDE_STATUS_BSY : Z := 0x80.
Definition IDE_STATUS_DRDY : Z := 0x40.
Definition IDE_STATUS_DF : Z := 0x20.
Definition IDE_STATUS_ERR : Z := 0x01.
Definition IDE_CMD_READ : Z := 0x20.
Definition IDE_CMD_WRITE : Z := 0x30.
Definition IDE_CMD_RDMUL : Z := 0xC4.
Definition IDE_CMD_WRMUL : Z := 0xC5.
Definition ERR_IDE_DISK_ERR : Z := 1.

Inductive bio_op_t : Set := BIO_READ | BIO_WRITE.
Inductive bio_status_t : Set := BIO_PENDING | BIO_COMPLETE.
Inductive ide_status_t : Set := IDE_IDLE | IDE_BUSY.

Record bio := mkBio {
  bio_blk : Z;
  bio_size : Z;
  bio_buffer : list Z;
  bio_op : bio_op_t;
  bio_status : bio_status_t
}.

Inductive portop : Set :=
| Writeb (port v : Z)
| Writen (port : Z) (data : list Z)
| Readn (port n : Z).

(** The device descriptor with its request queue (requests by the address of
    their bio) and the bios. *)
Record idev := mkIde {
  i_lock : bool;
  i_status : ide_status_t;
  i_index : Z;
  i_queue : list Z;
  i_bios : gmap Z bio;
  i_ports : list portop
}.

(** What the drive answers. *)
Record ide_hw := {
  hw_poll : list portop -> list Z;
  hw_data : list portop -> Z -> list Z
}.

Definition set_i_lock (v : bool) (s : idev) : idev :=
  mkIde v (i_status s) (i_index s) (i_queue s) (i_bios s) (i_ports s).
Definition set_i_status (v : ide_status_t) (s : idev) : idev :=
  mkIde (i_lock s) v (i_index s) (i_queue s) (i_bios s) (i_ports s).
Definition set_i_queue (v : list Z) (s : idev) : idev :=
  mkIde (i_lock s) (i_status s) (i_index s) v (i_bios s) (i_ports s).
Definition set_i_bios (v : gmap Z bio) (s : idev) : idev :=
  mkIde (i_lock s) (i_status s) (i_index s) (i_queue s) v (i_ports s).
Definition set_i_ports (v : list portop) (s : idev) : idev :=
  mkIde (i_lock s) (i_status s) (i_index s) (i_queue s) (i_bios s) v.
Definition set_status (v : bio_status_t) (b : bio) : bio :=
  mkBio (bio_blk b) (bio_size b) (bio_buffer b) (bio_op b) v.
Definition set_buffer (v : list Z) (b : bio) : bio :=
  mkBio (bio_blk b) (bio_size b) v (bio_op b) (bio_status b).

Abbreviation IM := (M idev).

Definition port (p : portop) : IM unit := modify (fun s => set_i_ports (i_ports s ++ [p]) s).
Definition writeb (reg v : Z) : IM unit := port (Writeb reg (u8 v)).
Definition get_bio (a : Z) : IM bio := o <- gets (fun s => i_bios s !! a);; deref o.
Definition put_bio (a : Z) (b : bio) : IM unit := modify (fun s => set_i_bios (<[a := b]> (i_bios s)) s).
Definition is_pending (b : bio) : bool := match bio_status b with BIO_PENDING => true | BIO_COMPLETE => false end.

(** The ide descriptor's spinlock. *)
Definition lock_ide : IM unit :=
  l <- gets i_lock;; if (l : bool) then stop Diverge else modify (set_i_lock true).
Definition unlock_ide : IM unit := modify (set_i_lock false).

Section driver.
Context (hw : ide_hw).

Definition bdev_front_bio (pop : bool) : IM Z :=
  q <- gets i_queue;;
  match q with
  | [] => ret NULL
  | a :: q' => (if pop then modify (set_i_queue q') else ret tt);; ret a
  end.

(** [reads]: the bytes the status register delivers. *)
Fixpoint ide_wait (reads : list Z) : IM Z :=
  match reads with
  | [] => stop Diverge
  | status :: reads =>
      if negb (Z.land status (Z.lor IDE_STATUS_BSY IDE_STATUS_DRDY) =? IDE_STATUS_DRDY) then ide_wait reads
      else if negb (Z.land status (Z.lor IDE_STATUS_DF IDE_STATUS_ERR) =? 0) then ret ERR_IDE_DISK_ERR
      else ret ERR_OK
  end.

Definition ide_issue_cmd (a : Z) : IM unit :=
  kassert (nonnull a);;
  b <- get_bio a;;
  index <- gets i_index;;
  let sector := i32 (bio_blk b * (BDEV_BLK_SIZE / IDE_SECTOR_SIZE)) in
  let num_sectors := i32 (bio_size b * (BDEV_BLK_SIZE / IDE_SECTOR_SIZE)) in
  kassert ((0 <? num_sectors) && (num_sectors <=? 8));;
  let cmd := match bio_op b with
             | BIO_READ => if 1 <? num_sectors then IDE_CMD_RDMUL else IDE_CMD_READ
             | BIO_WRITE => if 1 <? num_sectors then IDE_CMD_WRMUL else IDE_CMD_WRITE
             end in
  h <- gets i_ports;;
  ide_wait (hw_poll hw h);;
  writeb IDE_REG_CTRL 0;;
  writeb IDE_REG_COUNT num_sectors;;
  writeb IDE_REG_SECTOR (Z.land sector 0xFF);;
  writeb IDE_REG_CYL_L (Z.land (Z.shiftr sector 8) 0xFF);;
  writeb IDE_REG_CYL_H (Z.land (Z.shiftr sector 16) 0xFF);;
  writeb IDE_REG_DRIVE (Z.lor (Z.lor 0xE0 (Z.shiftl index 4)) (Z.land (Z.shiftr sector 24) 0x0F));;
  writeb IDE_REG_STATUS_CMD cmd;;
  (match bio_op b with
   | BIO_WRITE => port (Writen IDE_REG_DATA (take (Z.to_nat (bio_size b * BDEV_BLK_SIZE)) (bio_buffer b)))
   | BIO_READ => ret tt
   end);;
  modify (set_i_status IDE_BUSY).

Definition ide_request_handler : IM unit :=
  lock_ide;;
  st <- gets i_status;;
  (match st with
   | IDE_IDLE =>
       a <- bdev_front_bio false;;
       if negb (a =? NULL) then
         b <- get_bio a;;
         kassert (is_pending b);;
         ide_issue_cmd a
       else ret tt
   | IDE_BUSY => ret tt
   end);;
  unlock_ide.

(** The interrupt handler up to the completion of the active request; returns
    whether there was one. *)
Definition trap_complete : IM bool :=
  lock_ide;;
  st <- gets i_status;;
  match st with
  | IDE_BUSY =>
      a <- bdev_front_bio true;;
      kassert (nonnull a);;
      b <- get_bio a;;
      kassert (is_pending b);;
      (match bio_op b with
       | BIO_READ =>
           h <- gets i_ports;;
           port (Readn IDE_REG_DATA (bio_size b * BDEV_BLK_SIZE));;
           put_bio a (set_buffer (hw_data hw h (bio_size b * BDEV_BLK_SIZE)) b)
       | BIO_WRITE => ret tt
       end);;
      b <- get_bio a;;
      put_bio a (set_status BIO_COMPLETE b);;
      ret true
  | IDE_IDLE => ret false
  end.

(** ... and the rest: the next command. *)
Definition trap_next (active : bool) : IM unit :=
  (if active then
     a <- bdev_front_bio false;;
     if negb (a =? NULL) then
       b <- get_bio a;;
       kassert (is_pending b);;
       ide_issue_cmd a
     else modify (set_i_status IDE_IDLE)
   else ret tt);;
  unlock_ide.

Definition ide_trap_handler : IM unit :=
  active <- trap_complete;; trap_next active.

(** bdev_make_request: the request is queued ... *)
Definition request_enqueue (a : Z) : IM unit :=
  b <- get_bio a;;
  put_bio a (set_status BIO_PENDING b);;
  modify (fun s => set_i_queue (i_queue s ++ [a]) s).
(** ... the driver is called, and the caller waits for its completion. *)
Definition bdev_make_request (a : Z) (others : IM unit) : IM unit :=
  request_enqueue a;;
  ide_request_handler;;
  others;;
  b <- get_bio a;;
  match bio_status b with BIO_COMPLETE => ret tt | BIO_PENDING => stop Diverge end.
End driver.

(** ** The commands in a history of port accesses *)

Record ide_cmd := mkCmd {
  c_op : bio_op_t;
  c_unit : Z;
  c_lba : Z;
  c_count : Z;
  c_data : list Z
}.
Record ide_regs := mkRegs { r_count : Z; r_sector : Z; r_cyl_l : Z; r_cyl_h : Z; r_drive : Z; r_write : bool }.

Definition reg_cmd (op : bio_op_t) (r : ide_regs) (data : list Z) : ide_cmd :=
  mkCmd op (Z.land (Z.shiftr (r_drive r) 4) 1)
    (r_sector r + 2 ^ 8 * r_cyl_l r + 2 ^ 16 * r_cyl_h r + 2 ^ 24 * Z.land (r_drive r) 0x0F)
    (r_count r) data.

Definition decode_step (p : portop) (r : ide_regs) : ide_regs * list ide_cmd :=
  match p with
  | Writeb reg v =>
      if reg =? IDE_REG_COUNT then (mkRegs v (r_sector r) (r_cyl_l r) (r_cyl_h r) (r_drive r) (r_write r), [])
      else if reg =? IDE_REG_SECTOR then (mkRegs (r_count r) v (r_cyl_l r) (r_cyl_h r) (r_drive r) (r_write r), [])
      else if reg =? IDE_REG_CYL_L then (mkRegs (r_count r) (r_sector r) v (r_cyl_h r) (r_drive r) (r_write r), [])
      else if reg =? IDE_REG_CYL_H then (mkRegs (r_count r) (r_sector r) (r_cyl_l r) v (r_drive r) (r_write r), [])
      else if reg =? IDE_REG_DRIVE then (mkRegs (r_count r) (r_sector r) (r_cyl_l r) (r_cyl_h r) v (r_write r), [])
      else if reg =? IDE_REG_STATUS_CMD then
        if (v =? IDE_CMD_READ) || (v =? IDE_CMD_RDMUL) then (r, [reg_cmd BIO_READ r []])
        else if (v =? IDE_CMD_WRITE) || (v =? IDE_CMD_WRMUL)
             then (mkRegs (r_count r) (r_sector r) (r_cyl_l r) (r_cyl_h r) (r_drive r) true, [])
        else (r, [])
      else (r, [])
  | Writen reg data =>
      if (reg =? IDE_REG_DATA) && r_write r
      then (mkRegs (r_count r) (r_sector r) (r_cyl_l r) (r_cyl_h r) (r_drive r) false, [reg_cmd BIO_WRITE r data])
      else (r, [])
  | Readn _ _ => (r, [])
  end.

Fixpoint decode_from (ps : list portop) (r : ide_regs) : list ide_cmd :=
  match ps with
  | [] => []
  | p :: ps => let '(r', cs) := decode_step p r in cs ++ decode_from ps r'
  end.
Definition decode (ps : list portop) : list ide_cmd := decode_from ps (mkRegs 0 0 0 0 0 false).
