(* ===== verification/IdeClaims.v ===== *)
(** * IDE driver: requests are served in order, each once

    The critical sections as a transition system, its invariant by induction on
    the steps, and what it gives: no kassert fails, the drive receives the
    submitted requests in order, and no request is left behind without a
    command in flight or a handler call to come. *)

From stdpp Require Import prelude list gmap.
From Stdlib Require Import ZArith Lia.
From S2P Require Import Prelude DList Bdev Ide.

(** ** One command *)

Record bio_ok (b : bio) : Prop := {
  bok_blk : 0 <= bio_blk b < 2 ^ 28;
  bok_size : 1 <= bio_size b <= 8;
  bok_buf : length (bio_buffer b) = Z.to_nat (bio_size b * 512)
}.

(** The command that carries out a request. *)
Definition cmd_of (index : Z) (b : bio) : ide_cmd :=
  mkCmd (bio_op b) index (bio_blk b) (bio_size b) (match bio_op b with BIO_READ => [] | BIO_WRITE => bio_buffer b end).

Definition cmd_code (b : bio) : Z :=
  match bio_op b with
  | BIO_READ => if 1 <? bio_size b then IDE_CMD_RDMUL else IDE_CMD_READ
  | BIO_WRITE => if 1 <? bio_size b then IDE_CMD_WRMUL else IDE_CMD_WRITE
  end.
(** The port accesses of ide_issue_cmd. *)
Definition cmd_ports (index : Z) (b : bio) : list portop :=
  let sector := bio_blk b in
  [Writeb IDE_REG_CTRL 0; Writeb IDE_REG_COUNT (u8 (bio_size b)); Writeb IDE_REG_SECTOR (u8 (Z.land sector 0xFF));
   Writeb IDE_REG_CYL_L (u8 (Z.land (Z.shiftr sector 8) 0xFF)); Writeb IDE_REG_CYL_H (u8 (Z.land (Z.shiftr sector 16) 0xFF));
   Writeb IDE_REG_DRIVE (u8 (Z.lor (Z.lor 0xE0 (Z.shiftl index 4)) (Z.land (Z.shiftr sector 24) 0x0F)));
   Writeb IDE_REG_STATUS_CMD (u8 (cmd_code b))] ++
  match bio_op b with BIO_READ => [] | BIO_WRITE => [Writen IDE_REG_DATA (bio_buffer b)] end.

Lemma land_ff x : Z.land x 0xFF = x mod 2 ^ 8.
Proof. change 0xFF with (Z.ones 8). by apply Z.land_ones. Qed.
Lemma land_f x : Z.land x 0x0F = x mod 2 ^ 4.
Proof. change 0x0F with (Z.ones 4). by apply Z.land_ones. Qed.

(** The four bytes of a 28-bit sector number. *)
Lemma lba_bytes x : 0 <= x < 2 ^ 28 ->
  x mod 2 ^ 8 + 2 ^ 8 * (x / 2 ^ 8 mod 2 ^ 8) + 2 ^ 16 * (x / 2 ^ 16 mod 2 ^ 8) + 2 ^ 24 * (x / 2 ^ 24) = x.
Proof.
  intros Hx. pose proof (Z.div_mod x (2 ^ 8) ltac:(lia)). pose proof (Z.div_mod (x / 2 ^ 8) (2 ^ 8) ltac:(lia)).
  pose proof (Z.div_mod (x / 2 ^ 16) (2 ^ 8) ltac:(lia)).
  assert (x / 2 ^ 16 = x / 2 ^ 8 / 2 ^ 8) by (rewrite Z.div_div by lia; done).
  assert (x / 2 ^ 24 = x / 2 ^ 16 / 2 ^ 8) by (rewrite Z.div_div by lia; done). lia.
Qed.

(** The drive register: mode bits, unit and the top bits of the sector. *)
Lemma drive_bits index q : index = 0 \/ index = 1 -> 0 <= q < 16 ->
  let d := u8 (Z.lor (Z.lor 0xE0 (Z.shiftl index 4)) q) in
  Z.land (Z.shiftr d 4) 1 = index /\ Z.land d 0x0F = q.
Proof.
  intros Hi Hq. assert (Hc : Forall (fun q => let d := u8 (Z.lor (Z.lor 0xE0 (Z.shiftl index 4)) q) in
    Z.land (Z.shiftr d 4) 1 = index /\ Z.land d 0x0F = q) (seqZ 0 16)).
  { destruct Hi as [->| ->]; vm_compute; repeat constructor. }
  rewrite Forall_forall in Hc. apply Hc. apply elem_of_seqZ. lia.
Qed.

Lemma decode_cmd index b r : bio_ok b -> index = 0 \/ index = 1 ->
  decode_from (cmd_ports index b) r = [cmd_of index b].
Proof.
  intros [Hb Hs Hl] Hi. pose proof (Z.div_pos (bio_blk b) (2 ^ 24) ltac:(lia) ltac:(lia)).
  assert (Hq : bio_blk b / 2 ^ 24 < 16) by (apply Z.div_lt_upper_bound; lia).
  unfold cmd_ports. rewrite !land_ff, land_f, !Z.shiftr_div_pow2 by lia.
  rewrite (Z.mod_small (bio_blk b / 2 ^ 24) (2 ^ 4)) by lia.
  destruct (drive_bits index (bio_blk b / 2 ^ 24) Hi ltac:(lia)) as [E1 E2].
  rewrite !(wrapu_small 8 (_ mod 2 ^ 8)) by (apply Z.mod_pos_bound; lia). rewrite (wrapu_small 8 (bio_size b)) by lia.
  set (d := u8 (Z.lor _ _)) in *. pose proof (lba_bytes (bio_blk b) Hb) as Elba.
  destruct b as [blk size buf op st]. unfold cmd_code, cmd_of. cbn [bio_blk bio_size bio_buffer bio_op] in *.
  destruct op, (1 <? size); change (u8 IDE_CMD_RDMUL) with IDE_CMD_RDMUL; change (u8 IDE_CMD_READ) with IDE_CMD_READ;
    change (u8 IDE_CMD_WRMUL) with IDE_CMD_WRMUL; change (u8 IDE_CMD_WRITE) with IDE_CMD_WRITE; cbn -[Z.land Z.shiftr Z.pow Z.add Z.mul Z.modulo Z.div];
    unfold reg_cmd; cbn [r_drive r_sector r_cyl_l r_cyl_h r_count]; by rewrite E1, E2, Elba.
Qed.

Fixpoint regs_from (ps : list portop) (r : ide_regs) : ide_regs :=
  match ps with
  | [] => r
  | p :: ps => regs_from ps (decode_step p r).1
  end.

Lemma decode_app ps qs r : decode_from (ps ++ qs) r = decode_from ps r ++ decode_from qs (regs_from ps r).
Proof.
  revert r. induction ps as [|p ps IH]; intros r; simpl; [done|].
  destruct (decode_step p r) as [r' cs]. simpl. by rewrite IH, app_assoc.
Qed.

Lemma decode_snoc_cmd ps index b : bio_ok b -> index = 0 \/ index = 1 ->
  decode (ps ++ cmd_ports index b) = decode ps ++ [cmd_of index b].
Proof. intros. unfold decode. by rewrite decode_app, decode_cmd. Qed.

Lemma decode_snoc_read ps p n : decode (ps ++ [Readn p n]) = decode ps.
Proof. unfold decode. rewrite decode_app. simpl. apply app_nil_r. Qed.

(** ** The driver's operations *)

Section spec.
Context (hw : ide_hw).
(** A status byte that says the drive is ready. *)
Definition ready (st : Z) : Prop := Z.land st (Z.lor IDE_STATUS_BSY IDE_STATUS_DRDY) = IDE_STATUS_DRDY.
(** The drive becomes ready after every command. *)
Hypothesis hw_ready : forall h, Exists ready (hw_poll hw h).

Lemma wp_ide_wait l s (Q : Z -> idev -> Prop) : Exists ready l -> (forall e, Q e s) -> wp (ide_wait l) Q s.
Proof using Type.
  intros Hl HQ. induction Hl as [st l Hst|st l Hl IH]; simpl.
  - rewrite Hst, Z.eqb_refl. simpl. case_match; wp_step; apply HQ.
  - case_match; [done|]. case_match; wp_step; apply HQ.
Qed.

Lemma wp_get_bio a b s (Q : bio -> idev -> Prop) : i_bios s !! a = Some b -> Q b s -> wp (get_bio a) Q s.
Proof using Type. intros Hb HQ. unfold get_bio. wp_step. wp_step. rewrite Hb. by eapply wp_deref. Qed.

Lemma wp_issue a b s (Q : unit -> idev -> Prop) :
  a <> NULL -> i_bios s !! a = Some b -> bio_ok b ->
  Q tt (set_i_status IDE_BUSY (set_i_ports (i_ports s ++ cmd_ports (i_index s) b) s)) ->
  wp (ide_issue_cmd hw a) Q s.
Proof using hw_ready.
  intros Ha Hb [Hblk Hsz Hlen] HQ. unfold ide_issue_cmd. wp_step. wp_step; [by apply nonnull_true|]. wp_step.
  eapply wp_get_bio; [done|]. wp_step. wp_step. cbv zeta.
  change (BDEV_BLK_SIZE / IDE_SECTOR_SIZE) with 1. rewrite !Z.mul_1_r, !(wraps_small 32) by lia.
  wp_step. wp_step; [apply andb_true_intro; split; [apply Z.ltb_lt|apply Z.leb_le]; lia|].
  wp_step. wp_step. wp_step. apply wp_ide_wait; [done|]. intros e. unfold writeb, port.
  do 14 wp_step. wp_step. 
  assert (E : take (Z.to_nat (bio_size b * BDEV_BLK_SIZE)) (bio_buffer b) = bio_buffer b)
    by (apply take_ge; rewrite Hlen; unfold BDEV_BLK_SIZE; lia).
  unfold cmd_ports, cmd_code in HQ. destruct (bio_op b) eqn:Eop.
  - wp_step. wp_step. cbn [i_ports set_i_ports] in *. rewrite <- !app_assoc in *. exact HQ.
  - wp_step. wp_step. rewrite E. cbn [i_ports set_i_ports] in *. rewrite <- !app_assoc in *. exact HQ.
Qed.

(** ** The transition system *)

(** The device with the interrupt handler between its two parts ([y_trap]), the
    threads that have queued a request and not yet called the handler, and the
    requests submitted and completed so far. *)
Record sys := mkSys {
  y_dev : idev;
  y_trap : option bool;
  y_calls : nat;
  y_sub : list (Z * ide_cmd);
  y_done : list (Z * ide_cmd)
}.

Definition entry (d : idev) (a : Z) : Z * ide_cmd :=
  (a, cmd_of (i_index d) (default (mkBio 0 0 [] BIO_READ BIO_PENDING) (i_bios d !! a))).
Definition with_bio (a : Z) (b : bio) (d : idev) : idev := set_i_bios (<[a := b]> (i_bios d)) d.

Inductive step : sys -> sys -> Prop :=
| step_submit d tr n sub don a b d' :
    a <> NULL -> a ∉ i_queue d -> bio_ok b ->
    request_enqueue a (with_bio a b d) = Done (tt, d') ->
    step (mkSys d tr n sub don) (mkSys d' tr (S n) (sub ++ [(a, cmd_of (i_index d) b)]) don)
| step_handle d tr n sub don d' :
    i_lock d = false -> ide_request_handler hw d = Done (tt, d') ->
    step (mkSys d tr (S n) sub don) (mkSys d' tr n sub don)
| step_trap d n sub don act d' :
    i_lock d = false -> trap_complete hw d = Done (act, d') ->
    step (mkSys d None n sub don)
      (mkSys d' (Some act) n sub (don ++ if act then map (entry d) (take 1 (i_queue d)) else []))
| step_next d act n sub don d' :
    trap_next hw act d = Done (tt, d') -> step (mkSys d (Some act) n sub don) (mkSys d' None n sub don).

Definition initial (index : Z) : sys := mkSys (mkIde false IDE_IDLE index [] ∅ []) None 0 [] [].
Definition reachable (index : Z) (y : sys) : Prop := rtc step (initial index) y.

Definition qbio_ok (d : idev) (a : Z) : Prop :=
  a <> NULL /\ exists b, i_bios d !! a = Some b /\ bio_ok b /\ bio_status b = BIO_PENDING.

(** The commands the drive has received: those of the completed requests, and
    the one of the front request while it is worked on. *)
Definition in_flight (y : sys) : Prop :=
  let d := y_dev y in
  match i_status d, y_trap y with
  | IDE_BUSY, Some true => decode (i_ports d) = (y_done y).*2
  | IDE_BUSY, _ => exists a q, i_queue d = a :: q /\ decode (i_ports d) = (y_done y ++ [entry d a]).*2
  | IDE_IDLE, Some true => False
  | IDE_IDLE, _ => decode (i_ports d) = (y_done y).*2 /\ (i_queue d = [] \/ (0 < y_calls y)%nat)
  end.

Record inv (y : sys) : Prop := {
  iv_index : i_index (y_dev y) = 0 \/ i_index (y_dev y) = 1;
  iv_nodup : NoDup (i_queue (y_dev y));
  iv_queue : Forall (qbio_ok (y_dev y)) (i_queue (y_dev y));
  iv_sub : y_sub y = y_done y ++ map (entry (y_dev y)) (i_queue (y_dev y));
  iv_lock : i_lock (y_dev y) = match y_trap y with Some _ => true | None => false end;
  iv_done : forall x, x ∈ y_done y -> x.1 ∉ i_queue (y_dev y) ->
    exists b, i_bios (y_dev y) !! x.1 = Some b /\ bio_status b = BIO_COMPLETE;
  iv_flight : in_flight y
}.

Lemma inv_initial index : index = 0 \/ index = 1 -> inv (initial index).
Proof using Type.
  intros Hi. split; simpl; try done; [constructor|by intros x ?%elem_of_nil|]. split; [done|by left].
Qed.

(** A queued bio keeps its command when other bios change. *)
Lemma entry_eq d d' a : i_index d' = i_index d -> i_bios d' !! a = i_bios d !! a -> entry d' a = entry d a.
Proof using Type. intros Ei Ea. unfold entry. by rewrite Ei, Ea. Qed.
Lemma entries_eq d d' l : i_index d' = i_index d -> (forall a, a ∈ l -> i_bios d' !! a = i_bios d !! a) ->
  map (entry d') l = map (entry d) l.
Proof using Type.
  intros Ei Hl. apply list_fmap_ext. intros i a Ha. apply entry_eq; [done|]. apply Hl.
  by eapply list_elem_of_lookup_2.
Qed.
Lemma queue_ok_eq d d' l : (forall a, a ∈ l -> i_bios d' !! a = i_bios d !! a) ->
  Forall (qbio_ok d) l -> Forall (qbio_ok d') l.
Proof using Type.
  intros Hl. rewrite !Forall_forall. intros H a Ha. destruct (H a Ha) as (? & b & Hb & ?). split; [done|].
  exists b. by rewrite Hl.
Qed.

Lemma wp_enqueue d tr n sub don a b : inv (mkSys d tr n sub don) ->
  a <> NULL -> a ∉ i_queue d -> bio_ok b ->
  wp (request_enqueue a) (fun _ d' => inv (mkSys d' tr (S n) (sub ++ [(a, cmd_of (i_index d) b)]) don)) (with_bio a b d).
Proof using hw_ready.
  intros I Ha Hq Hb. unfold request_enqueue. wp_step. eapply wp_get_bio; [simpl; by rewrite lookup_insert_eq|].
  wp_step. unfold put_bio. wp_step. wp_step. unfold with_bio, set_i_queue, set_i_bios. cbn [i_lock i_status i_index i_queue i_bios i_ports].
  rewrite insert_insert_eq. set (d' := mkIde (i_lock d) _ _ _ _ _).
  assert (Hold : forall x, x ∈ i_queue d -> i_bios d' !! x = i_bios d !! x).
  { intros x Hx. simpl. rewrite lookup_insert_ne; [done|]. by intros ->. }
  destruct I as [I1 I2 I3 I4 I5 I6 I7]. simpl in *. split; simpl.
  - done.
  - apply NoDup_app. split; [done|]. split; [set_solver|apply NoDup_singleton].
  - apply Forall_app. split; [by eapply queue_ok_eq|]. constructor; [|done]. split; [done|].
    exists (set_status BIO_PENDING b). simpl. rewrite lookup_insert_eq. split; [done|]. split; [|done]. by destruct Hb.
  - rewrite I4, map_app, <- app_assoc. f_equal. rewrite (entries_eq d d') by done. f_equal. simpl. unfold entry. simpl.
    by rewrite lookup_insert_eq.
  - done.
  - intros x Hx Hxq. destruct (I6 x Hx) as (c & Hc & ?); [set_solver|]. exists c. rewrite lookup_insert_ne; [done|set_solver].
  - unfold in_flight in *. simpl in *. destruct (i_status d).
    + destruct tr as [[]|]; [done|..]; (split; [apply I7|right; lia]).
    + destruct tr as [[]|]; [done|..]; destruct I7 as (x & q & Eq & Ed); exists x, (q ++ [a]); rewrite Eq;
        (split; [done|]); rewrite (entry_eq d d'); (done || apply Hold; rewrite Eq; set_solver).
Qed.

(** Sending the front request to the drive. *)
Lemma wp_issue_front a q d (Q : unit -> idev -> Prop) :
  i_queue d = a :: q -> Forall (qbio_ok d) (i_queue d) ->
  Q tt (set_i_status IDE_BUSY (set_i_ports (i_ports d ++ cmd_ports (i_index d) (default (mkBio 0 0 [] BIO_READ BIO_PENDING) (i_bios d !! a))) d)) ->
  wp (a <- bdev_front_bio false;;
      if negb (a =? NULL) then b <- get_bio a;; kassert (is_pending b);; ide_issue_cmd hw a
      else modify (set_i_status IDE_IDLE)) Q d /\
  wp (a <- bdev_front_bio false;;
      if negb (a =? NULL) then b <- get_bio a;; kassert (is_pending b);; ide_issue_cmd hw a else ret tt) Q d.
Proof using hw_ready.
  intros Eq HF HQ. rewrite Eq in HF. apply Forall_cons in HF as [(Ha & b & Hb & Hok & Hp) _]. rewrite Hb in HQ. simpl in HQ.
  unfold bdev_front_bio. split; (wp_step; wp_step; wp_step; rewrite Eq; wp_step; wp_step; wp_step;
    rewrite (proj2 (Z.eqb_neq a NULL) Ha); simpl; wp_step; eapply wp_get_bio; [done|]; wp_step;
    wp_step; [unfold is_pending; by rewrite Hp|]; by eapply wp_issue).
Qed.

Lemma inv_issue d tr n k sub don a q :
  inv (mkSys d tr n sub don) -> i_queue d = a :: q -> decode (i_ports d) = don.*2 ->
  let d' := set_i_lock false (set_i_status IDE_BUSY (set_i_ports (i_ports d ++
     cmd_ports (i_index d) (default (mkBio 0 0 [] BIO_READ BIO_PENDING) (i_bios d !! a))) d)) in
  inv (mkSys d' None k sub don).
Proof using hw_ready.
  intros [I1 I2 I3 I4 I5 I6 I7] Eq Ed d'. simpl in *. rewrite Eq in I3. pose proof I3 as I3'.
  apply Forall_cons in I3' as [(Ha & b & Hb & Hok & Hp) _].
  split; simpl; try done; [by rewrite Eq|]. exists a, q. split; [done|].
  unfold d', entry. cbn [y_dev y_done i_ports set_i_lock set_i_status set_i_ports i_index i_bios]. rewrite Hb.
  simpl default. rewrite decode_snoc_cmd, Ed, fmap_app by done. done.
Qed.

Lemma wp_handler d tr n sub don : inv (mkSys d tr (S n) sub don) -> i_lock d = false ->
  wp (ide_request_handler hw) (fun _ d' => inv (mkSys d' tr n sub don)) d.
Proof using hw_ready.
  intros I Hl. pose proof (iv_lock _ I) as Htr. simpl in Htr. rewrite Hl in Htr. destruct tr; [done|].
  unfold ide_request_handler. wp_step. unfold lock_ide. wp_step. wp_step. rewrite Hl. wp_step. wp_step. wp_step.
  pose proof I as [I1 I2 I3 I4 I5 I6 I7]. unfold in_flight in I7. simpl in *. destruct (i_status d) eqn:Es; wp_step.
  - destruct I7 as [Ed _]. destruct (i_queue d) as [|a q] eqn:Eq.
    + unfold bdev_front_bio. wp_step. wp_step. wp_step. simpl. rewrite Eq. wp_step. simpl. wp_step. unfold unlock_ide. wp_step.
      split; simpl; try done; [by rewrite Eq..|]. unfold in_flight. simpl. rewrite Es. split; [done|by left].
    + eapply (wp_issue_front a q); [done|simpl; by rewrite Eq|]. unfold unlock_ide. wp_step.
      eapply (inv_issue d None (S n) n sub don a q); [done|done|done].
  - wp_step. unfold unlock_ide. wp_step. split; simpl; try done. unfold in_flight. simpl. by rewrite Es.
Qed.

Lemma wp_trap_next d act n sub don : inv (mkSys d (Some act) n sub don) ->
  wp (trap_next hw act) (fun _ d' => inv (mkSys d' None n sub don)) d.
Proof using hw_ready.
  intros I. pose proof I as [I1 I2 I3 I4 I5 I6 I7]. unfold in_flight in I7. simpl in *.
  unfold trap_next. wp_step. destruct act.
  - destruct (i_status d) eqn:Es; [done|]. destruct (i_queue d) as [|a q] eqn:Eq.
    + unfold bdev_front_bio. wp_step. wp_step. wp_step. rewrite Eq. wp_step. simpl. wp_step. unfold unlock_ide. wp_step.
      split; simpl; try done; [by rewrite Eq..|]. split; [done|by left].
    + eapply (wp_issue_front a q); [done|by rewrite Eq|]. unfold unlock_ide. wp_step.
      eapply (inv_issue d (Some true) n n sub don a q); [done|done|done].
  - wp_step. unfold unlock_ide. wp_step. by split.
Qed.

(** The front request completes. *)
Definition completed (d : idev) (b : bio) : bio :=
  set_status BIO_COMPLETE (match bio_op b with
    | BIO_READ => set_buffer (hw_data hw (i_ports d) (bio_size b * BDEV_BLK_SIZE)) b
    | BIO_WRITE => b
    end).

Lemma wp_complete_front a q b d (Q : bool -> idev -> Prop) :
  i_lock d = false -> i_status d = IDE_BUSY -> i_queue d = a :: q -> a <> NULL -> i_bios d !! a = Some b ->
  bio_status b = BIO_PENDING ->
  (forall ps, decode ps = decode (i_ports d) ->
     Q true (mkIde true IDE_BUSY (i_index d) q (<[a := completed d b]> (i_bios d)) ps)) ->
  wp (trap_complete hw) Q d.
Proof using Type.
  intros Hl Es Eq Ha Hb Hp HQ. unfold trap_complete. wp_step. unfold lock_ide. wp_step. wp_step. rewrite Hl. wp_step.
  wp_step. wp_step. simpl. rewrite Es. wp_step. unfold bdev_front_bio. wp_step. wp_step. simpl. rewrite Eq.
  wp_step. wp_step. wp_step. wp_step. wp_step; [by apply nonnull_true|]. wp_step. eapply wp_get_bio; [exact Hb|]. wp_step.
  wp_step; [unfold is_pending; by rewrite Hp|]. unfold completed in HQ. wp_step. destruct (bio_op b).
  - wp_step. wp_step. wp_step. unfold port. wp_step. unfold put_bio. wp_step. wp_step.
    eapply wp_get_bio; [simpl; by rewrite lookup_insert_eq|]. wp_step. wp_step. wp_step. simpl. rewrite insert_insert_eq.
    unfold set_i_bios, set_i_ports. simpl. rewrite Es. apply HQ, decode_snoc_read.
  - wp_step. wp_step. eapply wp_get_bio; [exact Hb|]. wp_step. unfold put_bio. wp_step. wp_step.
    unfold set_i_bios. simpl. rewrite Es. by apply HQ.
Qed.

Lemma wp_trap_complete d n sub don : inv (mkSys d None n sub don) ->
  wp (trap_complete hw) (fun act d' => (i_status d = IDE_BUSY -> act = true) /\ inv (mkSys d' (Some act) n sub
     (don ++ if act then map (entry d) (take 1 (i_queue d)) else []))) d.
Proof using hw_ready.
  intros I. pose proof I as [I1 I2 I3 I4 I5 I6 I7]. unfold in_flight in I7. simpl in *. destruct (i_status d) eqn:Es.
  - unfold trap_complete. wp_step. unfold lock_ide. wp_step. wp_step. rewrite I5. wp_step. wp_step. wp_step. simpl. rewrite Es.
    wp_step. rewrite app_nil_r. split; [congruence|]. split; simpl; try done. unfold in_flight. simpl. by rewrite Es.
  - destruct I7 as (a & q & Eq & Ed). rewrite Eq in *. apply NoDup_cons in I2 as [Haq Hnd].
    apply Forall_cons in I3 as [(Ha & b & Hb & Hok & Hp) I3].
    eapply (wp_complete_front a q b); [done|done|done|done|done|done|]. intros ps Eps. set (d' := mkIde _ _ _ _ _ _).
    assert (Hold : forall x, x ∈ q -> i_bios d' !! x = i_bios d !! x).
    { intros x Hx. simpl. rewrite lookup_insert_ne; [done|]. by intros ->. }
    split; [done|]. split; simpl; try done.
    + by eapply queue_ok_eq.
    + rewrite I4, <- app_assoc. f_equal. simpl. f_equal. symmetry. by apply entries_eq.
    + intros x Hx Hxq. rewrite lookup_insert. case_decide as E; [by eexists|].
      apply elem_of_app in Hx as [Hx|Hx]; [apply I6; [done|set_solver]|].
      apply list_elem_of_singleton in Hx. subst x. simpl in E. congruence.
    + unfold in_flight. simpl. by rewrite Eps, Ed.
Qed.

Lemma inv_step y y' : inv y -> step y y' -> inv y'.
Proof using hw_ready.
  intros I St. destruct St as [d tr n sub don a b d' Ha Hq Hb Hrun|d tr n sub don d' Hl Hrun|d n sub don act d' Hl Hrun|d act n sub don d' Hrun].
  - destruct (wp_elim _ _ _ (wp_enqueue _ _ _ _ _ _ _ I Ha Hq Hb)) as ([] & d1 & E & ?). congruence.
  - destruct (wp_elim _ _ _ (wp_handler _ _ _ _ _ I Hl)) as ([] & d1 & E & ?). congruence.
  - destruct (wp_elim _ _ _ (wp_trap_complete _ _ _ _ I)) as (act' & d1 & E & _ & ?). rewrite Hrun in E. by injection E as <- <-.
  - destruct (wp_elim _ _ _ (wp_trap_next _ _ _ _ _ I)) as ([] & d1 & E & ?). congruence.
Qed.

Lemma inv_reachable index y : index = 0 \/ index = 1 -> reachable index y -> inv y.
Proof using hw_ready.
  intros Hi. apply (rtc_ind_r (fun y => inv y)); [by apply inv_initial|].
  intros y1 y2 _ St I. by eapply inv_step.
Qed.

(** ** Draining the queue *)

Lemma wp_trap_handler d sub don : inv (mkSys d None 0 sub don) -> i_queue d <> [] ->
  wp (ide_trap_handler hw) (fun _ d' => exists don', inv (mkSys d' None 0 sub don') /\
     length (i_queue d) = S (length (i_queue d'))) d.
Proof using hw_ready.
  intros I Hq. assert (Es : i_status d = IDE_BUSY).
  { pose proof (iv_flight _ I) as F. unfold in_flight in F. simpl in F. destruct (i_status d); [|done].
    destruct F as [_ [?|?]]; [done|lia]. }
  unfold ide_trap_handler. wp_step. eapply wp_mono; [by apply wp_trap_complete|]. intros act d1 (Hact & I1).
  rewrite (Hact Es) in *. eapply wp_mono; [by apply wp_trap_next|]. intros [] d2 I2. eexists. split; [exact I2|].
  pose proof (iv_sub _ I) as E0. pose proof (iv_sub _ I2) as E2. simpl in E0, E2.
  rewrite E0 in E2. apply (f_equal length) in E2. rewrite !length_app, !length_map, length_take in E2.
  destruct (i_queue d); [done|]. simpl in *. lia.
Qed.

(** [n] interrupts. *)
Definition interrupts (n : nat) : IM unit := for_ n 0 (fun _ => ide_trap_handler hw).

Lemma wp_drain n d i sub don : inv (mkSys d None 0 sub don) -> length (i_queue d) = n ->
  wp (for_ n i (fun _ => ide_trap_handler hw)) (fun _ d' => exists don', inv (mkSys d' None 0 sub don') /\ i_queue d' = []) d.
Proof using hw_ready.
  revert d i don. induction n as [|n IH]; intros d i don I Hn; simpl.
  - wp_step. exists don. split; [done|]. by apply nil_length_inv.
  - wp_step. eapply wp_mono; [apply (wp_trap_handler d sub don I); by intros E; rewrite E in Hn|].
    intros [] d1 (don1 & I1 & Hl). apply (IH d1 _ don1); [done|lia].
Qed.
End spec.

(** * IDE driver: the claims *)

(** A drive that is ready at the second poll and returns zeros. *)
Definition demo_hw : ide_hw := {| hw_poll _ := [0x80; 0x50]; hw_data _ n := replicate (Z.to_nat n) 0 |}.
Lemma demo_hw_ready h : Exists ready (hw_poll demo_hw h).
Proof. apply Exists_cons_tl, Exists_cons_hd. reflexivity. Qed.

Definition demo_bio : bio := mkBio 0x1234567 8 (replicate 4096 0) BIO_READ BIO_COMPLETE.
Lemma demo_bio_ok : bio_ok demo_bio.
Proof. split; [done|done|reflexivity]. Qed.

(** C33 ([ide_issue_cmd]): when the drive gets ready, issuing a request for
    at most 8 blocks below 2^28 returns with the device busy, and the register
    writes are read by the drive as exactly one command: the operation, unit,
    sector number and count of the request, with the whole buffer of a write. *)
Theorem ide_issue_cmd_spec hw a b s :
  (forall h, Exists ready (hw_poll hw h)) -> a <> NULL -> i_bios s !! a = Some b -> bio_ok b ->
  i_index s = 0 \/ i_index s = 1 ->
  wp (ide_issue_cmd hw a) (fun _ s' => i_status s' = IDE_BUSY /\ i_queue s' = i_queue s /\ i_bios s' = i_bios s /\
    decode (i_ports s') = decode (i_ports s) ++
      [mkCmd (bio_op b) (i_index s) (bio_blk b) (bio_size b)
             (match bio_op b with BIO_READ => [] | BIO_WRITE => bio_buffer b end)]) s.
Proof.
  intros Hr Ha Hb Hok Hi. eapply wp_issue; [done|done|done|done|]. do 3 (split; [done|]). by apply decode_snoc_cmd.
Qed.

Definition demo_dev : idev := mkIde true IDE_IDLE 1 [] {[7 := demo_bio]} [].
Lemma ide_issue_cmd_spec_witness :
  wp (ide_issue_cmd demo_hw 7) (fun _ s' => i_status s' = IDE_BUSY /\ i_queue s' = [] /\ i_bios s' = i_bios demo_dev /\
    decode (i_ports s') = [mkCmd BIO_READ 1 0x1234567 8 []]) demo_dev.
Proof. apply (ide_issue_cmd_spec demo_hw 7 demo_bio demo_dev demo_hw_ready); [done|done|exact demo_bio_ok|by right]. Defined.

(** C24 (ide.c): however requests, handler calls and interrupts interleave, the
    drive receives the submitted requests in order and each once: the commands
    sent are a prefix of the requests submitted, at most one beyond those
    completed.  A request that is no longer queued is complete, and while
    requests are queued the drive is busy, or an interrupt is being served, or
    a thread that queued one has yet to call the handler. *)
Theorem ide_fifo hw index y :
  (forall h, Exists ready (hw_poll hw h)) -> index = 0 \/ index = 1 -> reachable hw index y ->
  let d := y_dev y in
  (exists k, decode (i_ports d) = take k (y_sub y).*2 /\ (length (y_done y) <= k <= S (length (y_done y)))%nat) /\
  y_done y `prefix_of` y_sub y /\
  (forall x, x ∈ y_sub y -> x.1 ∉ i_queue d -> exists b, i_bios d !! x.1 = Some b /\ bio_status b = BIO_COMPLETE) /\
  (i_queue d <> [] -> i_status d = IDE_BUSY \/ y_trap y <> None \/ (0 < y_calls y)%nat).
Proof.
  intros Hr Hi HR. apply (inv_reachable hw Hr index) in HR as [I1 I2 I3 I4 I5 I6 I7]; [|done]. simpl.
  assert (Hdone : (y_done y).*2 = take (length (y_done y)) (y_sub y).*2).
  { rewrite I4, fmap_app, take_app_le by (rewrite length_fmap; lia). by rewrite take_ge by (rewrite length_fmap; lia). }
  split; [|split; [rewrite I4; by apply prefix_app_r|split]].
  - unfold in_flight in I7. destruct (i_status (y_dev y)).
    + exists (length (y_done y)). split; [|lia]. rewrite <- Hdone. destruct (y_trap y) as [[]|]; [done|apply I7..].
    + assert (Hbusy : (exists a q, i_queue (y_dev y) = a :: q /\
        decode (i_ports (y_dev y)) = (y_done y ++ [entry (y_dev y) a]).*2) -> exists k,
        decode (i_ports (y_dev y)) = take k (y_sub y).*2 /\ (length (y_done y) <= k <= S (length (y_done y)))%nat).
      { intros (a & q & Eq & ->). exists (S (length (y_done y))). split; [|lia]. rewrite I4, Eq, !fmap_app. simpl.
        replace (S (length (y_done y))) with (length ((y_done y).*2) + 1)%nat by (rewrite length_fmap; lia).
        by rewrite take_app_add. }
      destruct (y_trap y) as [[]|]; [|by apply Hbusy..]. exists (length (y_done y)). split; [by rewrite <- Hdone|lia].
  - intros x Hx Hq. apply I6; [|done]. rewrite I4 in Hx. apply elem_of_app in Hx as [?|Hx]; [done|].
    apply list_elem_of_fmap in Hx as (a & -> & Ha). done.
  - intros Hq. unfold in_flight in I7. destruct (i_status (y_dev y)); [right|by left].
    destruct (y_trap y); [by left|]. right. destruct I7 as [_ [?|?]]; done.
Qed.

(** One request submitted, not yet handed to the drive. *)
Definition demo_submit : sys :=
  mkSys (mkIde false IDE_IDLE 1 [7] {[7 := set_status BIO_PENDING demo_bio]} []) None 1 [(7, cmd_of 1 demo_bio)] [].
Lemma demo_reachable : reachable demo_hw 1 demo_submit.
Proof.
  apply rtc_once. apply (step_submit demo_hw (mkIde false IDE_IDLE 1 [] ∅ []) None 0 [] [] 7 demo_bio);
    [done|by intros ?%elem_of_nil|exact demo_bio_ok|reflexivity].
Qed.

Lemma ide_fifo_witness :
  y_done demo_submit `prefix_of` y_sub demo_submit /\
  (i_status (y_dev demo_submit) = IDE_BUSY \/ y_trap demo_submit <> None \/ (0 < y_calls demo_submit)%nat).
Proof.
  destruct (ide_fifo demo_hw 1 demo_submit demo_hw_ready (or_intror eq_refl) demo_reachable) as (_ & Hp & _ & Hq).
  split; [exact Hp|]. apply Hq. discriminate.
Defined.

(** (ide.c): no kassert of the driver fails and no operation hangs: in
    every reachable state with the lock free the request handler and the
    interrupt handler return, and an interrupt handler that has completed a
    request can finish. *)
Theorem ide_no_fault hw index y :
  (forall h, Exists ready (hw_poll hw h)) -> index = 0 \/ index = 1 -> reachable hw index y ->
  match y_trap y with
  | None => (exists s, ide_trap_handler hw (y_dev y) = Done (tt, s)) /\
            ((0 < y_calls y)%nat -> exists s, ide_request_handler hw (y_dev y) = Done (tt, s))
  | Some act => exists s, trap_next hw act (y_dev y) = Done (tt, s)
  end.
Proof.
  intros Hr Hi HR. apply (inv_reachable hw Hr index) in HR as I; [|done]. clear HR. destruct y as [d tr n sub don]. simpl.
  destruct tr as [act|].
  - destruct (wp_elim _ _ _ (wp_trap_next hw Hr _ _ _ _ _ I)) as ([] & s & E & _). by exists s.
  - split.
    + destruct (wp_elim _ _ _ (wp_trap_complete hw Hr _ _ _ _ I)) as (act & s & E & _ & I1).
      destruct (wp_elim _ _ _ (wp_trap_next hw Hr _ _ _ _ _ I1)) as ([] & s2 & E2 & _).
      exists s2. unfold ide_trap_handler. by rewrite (bind_done _ _ _ _ _ E).
    + intros Hn. destruct n as [|n]; [lia|]. pose proof (iv_lock _ I) as Hl.
      destruct (wp_elim _ _ _ (wp_handler hw Hr _ _ _ _ _ I Hl)) as ([] & s & E & _). by exists s.
Qed.

Lemma ide_no_fault_witness : exists s, ide_request_handler demo_hw (y_dev demo_submit) = Done (tt, s).
Proof.
  apply (ide_no_fault demo_hw 1 demo_submit demo_hw_ready (or_intror eq_refl) demo_reachable). simpl. lia.
Defined.

(** C25 (ide.c): the queue drains.  Once no thread is about to call the
    handler, as many interrupts as there are queued requests complete every
    submitted request and leave the device idle with an empty queue. *)
Theorem ide_drains hw index y :
  (forall h, Exists ready (hw_poll hw h)) -> index = 0 \/ index = 1 -> reachable hw index y ->
  y_trap y = None -> y_calls y = 0%nat ->
  wp (interrupts hw (length (i_queue (y_dev y)))) (fun _ d' => i_queue d' = [] /\ i_status d' = IDE_IDLE /\
    forall x, x ∈ y_sub y -> exists b, i_bios d' !! x.1 = Some b /\ bio_status b = BIO_COMPLETE) (y_dev y).
Proof.
  intros Hr Hi HR Htr Hc. apply (inv_reachable hw Hr index) in HR as I; [|done]. clear HR.
  destruct y as [d tr n sub don]. simpl in *. subst tr n.
  eapply wp_mono; [by eapply wp_drain|]. intros [] d' (don' & [I1 I2 I3 I4 I5 I6 I7] & Eq).
  unfold in_flight in I7. simpl in *. rewrite Eq in *. split; [done|]. split.
  - destruct (i_status d'); [done|]. by destruct I7 as (a & q & ? & _).
  - intros x Hx. rewrite I4, app_nil_r in Hx. by apply I6; [|intros ?%elem_of_nil].
Qed.

(** The same request, handed to the drive. *)
Definition demo_busy : sys :=
  match ide_request_handler demo_hw (y_dev demo_submit) with
  | Done (_, d) => mkSys d None 0 (y_sub demo_submit) []
  | Stop _ => demo_submit
  end.

Lemma ide_drains_witness :
  wp (interrupts demo_hw 1) (fun _ d' => i_queue d' = [] /\ i_status d' = IDE_IDLE /\
    forall x, x ∈ y_sub demo_busy -> exists b, i_bios d' !! x.1 = Some b /\ bio_status b = BIO_COMPLETE) (y_dev demo_busy).
Proof.
  apply (ide_drains demo_hw 1 demo_busy demo_hw_ready (or_intror eq_refl)); [|reflexivity|reflexivity].
  eapply rtc_r; [exact demo_reachable|].
  apply (step_handle demo_hw (y_dev demo_submit) None 0 _ []); reflexivity.
Defined.
