(* ===== verification/Jbd.v ===== *)
(** * Journaling (kernel/fs/jbd.c, include/kernel/jbd.h)

    A journal on the block cache of Bdev.v.  On disk it is one header block,
    one block with the block map and the data blocks; [jmap] is the file
    system's [journal_bmap] operation, which places journal block [i] on the
    device ([sfs_journal_bmap] of sfs.c adds the start of the journal).  Words
    are stored in little-endian byte order. *)

From stdpp Require Import prelude list gmap.
From Stdlib Require Import ZArith Lia.
From S2P Require Import Prelude Mmu Bits DList ObjAlloc PageAlloc RadixTree Bdev.

Definition JOURNAL_SIZE : Z := 128.
Definition HEADER_BLK : Z := 0.
Definition BMAP_START_BLK : Z := HEADER_BLK + 1.
Definition BMAP_BLKS : Z :=
  JOURNAL_SIZE * 4 / BDEV_BLK_SIZE + (if (JOURNAL_SIZE * 4) mod BDEV_BLK_SIZE =? 0 then 0 else 1).
Definition JDATA_START_BLK : Z := BMAP_START_BLK + BMAP_BLKS.

(** kernel/fs/sfs/sfs.c *)
Definition sfs_journal_bmap (s_journal_start lb : Z) : Z := u32 (s_journal_start + lb).

Inductive journal_state : Set := IDLE | BUSY.

Record journal := mkJ {
  j_lock : bool;
  j_enabled : bool;
  j_state : journal_state;
  j_next_index : Z;
  j_datablks : list Z
}.

Record jst (P R O : Type) := mkJS { js_b : bst P R O; js_j : journal }.
Arguments mkJS {P R O}.
Arguments js_b {P R O}.
Arguments js_j {P R O}.

(** The bytes of a 32-bit word, and the word of four bytes. *)
Definition le32 (x : Z) : list Z := [x mod 256; x / 256 mod 256; x / 65536 mod 256; x / 16777216 mod 256].
Definition of_le32 (l : list Z) : Z :=
  match l with
  | a :: b :: c :: d :: _ => a + 256 * b + 65536 * c + 16777216 * d
  | _ => 0
  end.
(** [memmove(dst, src, n)] at the start of a block. *)
Definition overwrite (src dst : list Z) : list Z := src ++ drop (length src) dst.

Section ops.
Context {P R O : Type} `{!PageAlloc P, !ObjAlloc R, !ObjAlloc O}.
Context (bio_allocator blk_header_allocator junk : Z) (jmap : Z -> Z).
Implicit Types s : jst P R O.
Abbreviation JM := (M (jst P R O)).

Definition on_b {A} (m : M (bst P R O) A) : JM A := zoom js_b (fun b s => mkJS b (js_j s)) m.
Definition get_j : JM journal := gets js_j.
Definition put_j (j : journal) : JM unit := modify (fun s => mkJS (js_b s) j).

Abbreviation get_blk := (fun b => on_b (bdev_get_blk bio_allocator blk_header_allocator junk b)).
Abbreviation write_blk := (fun h => on_b (bdev_write_blk bio_allocator h)).
Abbreviation release_blk := (fun h => on_b (bdev_release_blk blk_header_allocator h)).

Definition blk_of (bh : Z) : JM Z := b <- on_b (get_bh bh);; ret (bh_blk b).
Definition data_of (bh : Z) : JM block := b <- on_b (get_bh bh);; on_b (get_data (bh_page b) (bh_data b)).
Definition set_data_of (bh : Z) (v : block) : JM unit :=
  b <- on_b (get_bh bh);; on_b (put_data (bh_page b) (bh_data b) v).

(** The first loop of write_journal_blks; the local array [bmap] is carried
    along. *)
Fixpoint write_data_blks (n : nat) (i : Z) (bmap : list Z) : JM (Z * list Z) :=
  match n with
  | 0%nat => ret (ERR_OK, bmap)
  | S n' =>
      let pb := jmap (JDATA_START_BLK + i) in
      j <- get_j;;
      datablk <- deref (j_datablks j !! Z.to_nat i);;
      blk <- blk_of datablk;;
      let bmap := bmap ++ [blk] in
      jbh <- get_blk pb;;
      if jbh =? NULL then ret (ERR_NOMEM, bmap)
      else
        on_b (lock_bh datablk);;
        v <- data_of datablk;;
        set_data_of jbh v;;
        on_b (unlock_bh datablk);;
        err <- write_blk jbh;;
        if negb (err =? ERR_OK) then ret (err, bmap)
        else
          release_blk jbh;;
          write_data_blks n' (i + 1) bmap
  end.

(** The second loop, with the variables [(i, bi)]. *)
Definition write_bmap_blks (next_index : Z) (bmap : list Z) : JM Z :=
  loop (S (Z.to_nat BMAP_BLKS)) (fun '(i, bi) =>
    if (i <? next_index) && (bi <? BMAP_BLKS) then
      let pb := jmap (BMAP_START_BLK + bi) in
      jbh <- get_blk pb;;
      if jbh =? NULL then ret (inr ERR_NOMEM)
      else
        let n := Z.min (BDEV_BLK_SIZE / 4) (next_index - i) in
        v <- data_of jbh;;
        set_data_of jbh (overwrite (concat (map le32 (take (Z.to_nat n) (drop (Z.to_nat i) bmap)))) v);;
        err <- write_blk jbh;;
        if negb (err =? ERR_OK) then ret (inr err)
        else
          release_blk jbh;;
          ret (inl (i + n, bi + 1))
    else ret (inr ERR_OK)) (0, 0).

Definition write_journal_blks : JM Z :=
  j <- get_j;;
  kassert (j_next_index j <? JOURNAL_SIZE);;
  r <- write_data_blks (Z.to_nat (j_next_index j)) 0 [];;
  let '(err, bmap) := r in
  if negb (err =? ERR_OK) then ret err
  else write_bmap_blks (j_next_index j) bmap.

Definition write_journal_header : JM Z :=
  j <- get_j;;
  let pb := jmap HEADER_BLK in
  bh <- get_blk pb;;
  if bh =? NULL then ret ERR_NOMEM
  else
    v <- data_of bh;;
    set_data_of bh (overwrite (le32 (j_next_index j)) v);;
    err <- write_blk bh;;
    if negb (err =? ERR_OK) then ret err
    else release_blk bh;; ret ERR_OK.

Definition apply_journal : JM Z :=
  j <- get_j;;
  r <- for_ret (Z.to_nat (j_next_index j)) 0 (fun i =>
    j <- get_j;;
    datablk <- deref (j_datablks j !! Z.to_nat i);;
    on_b (lock_bh datablk);;
    err <- write_blk datablk;;
    if negb (err =? ERR_OK) then ret (Some err)
    else
      on_b (bdev_set_blk_dirty datablk false);;
      release_blk datablk;;
      ret None);;
  ret (default ERR_OK r).

Definition erase_journal : JM Z :=
  j <- get_j;;
  put_j (mkJ (j_lock j) (j_enabled j) (j_state j) 0 (j_datablks j));;
  write_journal_header.

Definition commit_journal : JM Z :=
  err <- write_journal_blks;;
  if negb (err =? ERR_OK) then ret err
  else
    err <- write_journal_header;;
    if negb (err =? ERR_OK) then ret err
    else
      err <- apply_journal;;
      if negb (err =? ERR_OK) then ret err
      else
        err <- erase_journal;;
        if negb (err =? ERR_OK) then ret err
        else ret ERR_OK.

(** The journal's spinlock. *)
Definition lock_j : JM unit :=
  j <- get_j;;
  if j_lock j then stop Diverge
  else put_j (mkJ true (j_enabled j) (j_state j) (j_next_index j) (j_datablks j)).
Definition unlock_j : JM unit :=
  j <- get_j;; put_j (mkJ false (j_enabled j) (j_state j) (j_next_index j) (j_datablks j)).
Definition set_j_state (st : journal_state) : JM unit :=
  j <- get_j;; put_j (mkJ (j_lock j) (j_enabled j) st (j_next_index j) (j_datablks j)).

(** The fields jbd_alloc_journal sets in a new journal (zeroed before). *)
Definition jbd_alloc_journal : journal := mkJ false true IDLE 0 (replicate 128 NULL).

(** A transaction that finds the journal busy waits for the other one. *)
Definition jbd_begin_txn : JM unit :=
  j <- get_j;;
  if negb (j_enabled j) then ret tt
  else
    lock_j;;
    j <- get_j;;
    (match j_state j with IDLE => ret tt | BUSY => stop Diverge end);;
    set_j_state BUSY;;
    unlock_j.

(** [tries] bounds the number of attempts of the commit loop. *)
Definition jbd_end_txn (tries : nat) : JM unit :=
  j <- get_j;;
  if negb (j_enabled j) then ret tt
  else
    kassert (match j_state j with BUSY => true | IDLE => false end);;
    (if 0 <? j_next_index j then
       loop tries (fun _ : unit =>
         err <- commit_journal;;
         if negb (err =? ERR_OK) then ret (inl tt) else ret (inr tt)) tt
     else ret tt);;
    lock_j;;
    set_j_state IDLE;;
    unlock_j.

Definition jbd_write_blk (bh : Z) : JM unit :=
  j <- get_j;;
  if negb (j_enabled j) then ret tt
  else
    kassert (match j_state j with BUSY => true | IDLE => false end);;
    found <- for_ret (Z.to_nat (j_next_index j)) 0 (fun i =>
      d <- deref (j_datablks j !! Z.to_nat i);;
      x <- blk_of d;;
      y <- blk_of bh;;
      if x =? y then ret (Some tt) else ret None);;
    match found with
    | Some _ => ret tt
    | None =>
        if JOURNAL_SIZE <=? j_next_index j then panic
        else
          b <- on_b (get_bh bh);;
          on_b (lock_page (bh_page b));;
          on_b (upd_bh bh (fun b => set_bh_ref (u32 (bh_ref b + 1)) b));;
          on_b (unlock_page (bh_page b));;
          put_j (mkJ (j_lock j) (j_enabled j) (j_state j) (j_next_index j + 1)
                     (<[Z.to_nat (j_next_index j) := bh]> (j_datablks j)))
    end.
End ops.
