(* ===== verification/JbdCrash.v ===== *)
(** * Crash atomicity of the write sequence of a commit

    What a commit of jbd.c puts on the disk is a fixed sequence of block
    writes ([plan]).  [recover] replays a journal the way the on-disk layout
    of include/kernel/jbd.h prescribes: header with the number of blocks,
    block map, data blocks.  Whatever prefix of the sequence reached the disk,
    the recovered file system has the old contents or the new ones, on all
    blocks outside the journal at once. *)

From stdpp Require Import prelude list gmap.
From Stdlib Require Import ZArith Lia.
From S2P Require Import Prelude Bdev Jbd.

Abbreviation disk := (gmap Z block).
Abbreviation writes := (list (Z * block)).

Fixpoint apply_writes (ws : writes) (d : disk) : disk :=
  match ws with
  | [] => d
  | (b, v) :: ws => apply_writes ws (<[b := v]> d)
  end.

Lemma apply_writes_app ws1 ws2 d : apply_writes (ws1 ++ ws2) d = apply_writes ws2 (apply_writes ws1 d).
Proof. revert d. induction ws1 as [|[b v] ws IH]; intros d; simpl; auto. Qed.

Lemma apply_writes_other ws d b : b ∉ ws.*1 -> disk_blk (apply_writes ws d) b = disk_blk d b.
Proof.
  revert d. induction ws as [|[c v] ws IH]; intros d Hb; simpl in *; [done|].
  rewrite IH by set_solver. unfold disk_blk. rewrite lookup_insert_ne; [done|set_solver].
Qed.

Lemma apply_writes_lookup ws d b v : NoDup ws.*1 -> (b, v) ∈ ws -> disk_blk (apply_writes ws d) b = v.
Proof.
  revert d. induction ws as [|[c w] ws IH]; intros d Hnd Hin; [set_solver|]. simpl in *.
  apply NoDup_cons in Hnd as [Hc Hnd]. apply elem_of_cons in Hin as [[= -> ->]|Hin]; [|by apply IH].
  rewrite apply_writes_other by done. unfold disk_blk. by rewrite lookup_insert_eq.
Qed.

(** ** Words in blocks *)

Lemma of_le32_le32 x l : 0 <= x < 2 ^ 32 -> of_le32 (le32 x ++ l) = x.
Proof.
  intros Hx. unfold le32, of_le32. simpl app.
  pose proof (Z.div_mod x 256 ltac:(lia)). pose proof (Z.div_mod (x / 256) 256 ltac:(lia)).
  pose proof (Z.div_mod (x / 65536) 256 ltac:(lia)).
  assert (x / 65536 = x / 256 / 256) by (rewrite Z.div_div by lia; done).
  assert (x / 16777216 = x / 65536 / 256) by (rewrite Z.div_div by lia; done).
  rewrite (Z.mod_small (x / 16777216) 256); [lia|].
  split; [apply Z.div_pos; lia|apply Z.div_lt_upper_bound; lia].
Qed.

(** The [i]-th word of a block. *)
Definition word_at (v : block) (i : nat) : Z := of_le32 (drop (4 * i) v).

Lemma word_at_overwrite xs v i x : Forall (fun x => 0 <= x < 2 ^ 32) xs -> xs !! i = Some x ->
  word_at (overwrite (concat (map le32 xs)) v) i = x.
Proof.
  intros HF. unfold word_at, overwrite. generalize (drop (length (concat (map le32 xs))) v). clear v.
  intros l. revert i HF. induction xs as [|y xs IH]; intros i HF Hi; [done|]. apply Forall_cons in HF as [Hy HF].
  destruct i as [|i]; simpl in Hi.
  - injection Hi as ->. rewrite Nat.mul_0_r, drop_0. simpl map. rewrite concat_cons, <- app_assoc. by apply of_le32_le32.
  - rewrite <- (IH i HF Hi). replace (4 * S i)%nat with (4 + 4 * i)%nat by lia. done.
Qed.

Lemma prefix_cases {A} (l k1 k2 : list A) : l `prefix_of` k1 ++ k2 ->
  l `prefix_of` k1 \/ exists l', l = k1 ++ l' /\ l' `prefix_of` k2.
Proof.
  intros Hp. destruct (prefix_weak_total l k1 (k1 ++ k2) Hp) as [?|[l' ->]]; [by apply prefix_app_r|by left|].
  right. exists l'. split; [done|]. by eapply prefix_app_inv.
Qed.

Lemma prefix_keys (ws C : writes) b : C `prefix_of` ws -> b ∈ C.*1 -> b ∈ ws.*1.
Proof. intros [k ->] Hb. rewrite fmap_app. set_solver. Qed.

(** ** The journal on disk *)

Section crash.
Context (jmap : Z -> Z).
(** The journal blocks are distinct. *)
Hypothesis jmap_inj : forall i j, 0 <= i < 130 -> 0 <= j < 130 -> jmap i = jmap j -> i = j.

Definition in_journal (b : Z) : Prop := exists i, 0 <= i < 130 /\ jmap i = b.

Definition recover (d : disk) : disk :=
  let n := of_le32 (disk_blk d (jmap HEADER_BLK)) in
  let bm := disk_blk d (jmap BMAP_START_BLK) in
  apply_writes (map (fun i => (word_at bm i, disk_blk d (jmap (JDATA_START_BLK + Z.of_nat i)))) (seq 0 (Z.to_nat n))) d.

(** The blocks a transaction changes, with their new contents. *)
Implicit Types tx : writes.

Definition log_writes tx : writes := imap (fun i '(_, v) => (jmap (JDATA_START_BLK + Z.of_nat i), v)) tx.
Definition log_part tx (o1 : block) : writes :=
  log_writes tx ++ [(jmap BMAP_START_BLK, overwrite (concat (map le32 tx.*1)) o1)].
Definition header_write (n : Z) (o0 : block) : Z * block := (jmap HEADER_BLK, overwrite (le32 n) o0).
Definition plan tx (o1 o0 o0' : block) : writes :=
  log_part tx o1 ++ header_write (Z.of_nat (length tx)) o0 :: tx ++ [header_write 0 o0'].

(** A transaction that fits: distinct block numbers outside the journal. *)
Record tx_ok tx : Prop := {
  tx_len : (0 < length tx < 128)%nat;
  tx_nodup : NoDup tx.*1;
  tx_range : Forall (fun b => 0 <= b < 2 ^ 23) tx.*1;
  tx_out : forall b, b ∈ tx.*1 -> ~ in_journal b
}.

Lemma log_fst tx i c : (i, c) ∈ log_writes tx -> exists k, (k < length tx)%nat /\ i = jmap (JDATA_START_BLK + Z.of_nat k).
Proof using Type.
  unfold log_writes. rewrite elem_of_lookup_imap. intros (k & [b v] & [= -> ->] & Hk). exists k.
  split; [by eapply lookup_lt_Some|done].
Qed.

Lemma log_keys tx b : b ∈ (log_writes tx).*1 -> exists k, (k < length tx)%nat /\ b = jmap (JDATA_START_BLK + Z.of_nat k).
Proof using Type. intros ([i c] & -> & Hin)%list_elem_of_fmap. by eapply log_fst. Qed.

Lemma log_nodup tx : (length tx < 128)%nat -> NoDup (log_writes tx).*1.
Proof using jmap_inj.
  intros Hlen. apply NoDup_alt. intros i j b. unfold log_writes. rewrite !list_lookup_fmap, !list_lookup_imap.
  intros Hi Hj. destruct (tx !! i) as [[b1 v1]|] eqn:E1; [|done]. destruct (tx !! j) as [[b2 v2]|] eqn:E2; [|done].
  simpl in *. apply lookup_lt_Some in E1, E2. injection Hi as <-. injection Hj as E.
  apply jmap_inj in E; change JDATA_START_BLK with 2 in *; lia.
Qed.

(** The disk has an empty journal. *)
Definition idle (d : disk) : Prop := of_le32 (disk_blk d (jmap HEADER_BLK)) = 0.

Lemma recover_idle d : idle d -> recover d = d.
Proof using Type. intros E. unfold recover. by rewrite E. Qed.

(** Once the header is there, recovery writes the transaction. *)
Lemma recover_committed tx d o1 o0 C :
  tx_ok tx -> (forall b, b ∈ C.*1 -> b ∈ tx.*1) ->
  let d' := apply_writes (log_part tx o1 ++ header_write (Z.of_nat (length tx)) o0 :: C) d in
  recover d' = apply_writes tx d'.
Proof using jmap_inj.
  intros T HC d'. pose proof (tx_len _ T) as Hlen.
  assert (HCj : forall i, 0 <= i < 130 -> jmap i ∉ C.*1).
  { intros i Hi Hin. apply (tx_out _ T _ (HC _ Hin)). by exists i. }
  assert (E0 : disk_blk d' (jmap HEADER_BLK) = overwrite (le32 (Z.of_nat (length tx))) o0).
  { unfold d', log_part. rewrite !apply_writes_app. simpl. rewrite apply_writes_other by (apply HCj; done).
    unfold disk_blk. by rewrite lookup_insert_eq. }
  assert (E1 : disk_blk d' (jmap BMAP_START_BLK) = overwrite (concat (map le32 tx.*1)) o1).
  { unfold d', log_part. rewrite !apply_writes_app. simpl. rewrite apply_writes_other by (apply HCj; done).
    unfold disk_blk. rewrite lookup_insert_ne, lookup_insert_eq; [done|]. intros E. by apply jmap_inj in E. }
  assert (E2 : forall i b v, tx !! i = Some (b, v) -> disk_blk d' (jmap (JDATA_START_BLK + Z.of_nat i)) = v).
  { intros i b v Hi. pose proof (lookup_lt_Some _ _ _ Hi). change JDATA_START_BLK with 2.
    unfold d', log_part. rewrite !apply_writes_app. simpl. rewrite apply_writes_other by (apply HCj; lia).
    unfold disk_blk at 1. rewrite !lookup_insert_ne by (intros E; apply jmap_inj in E; change BMAP_START_BLK with 1 in *; unfold HEADER_BLK in *; lia).
    apply (apply_writes_lookup (log_writes tx) d); [apply log_nodup; lia|].
    apply elem_of_lookup_imap. exists i, (b, v). done. }
  unfold recover. rewrite E0, E1. f_equal. unfold overwrite at 2. rewrite of_le32_le32, Nat2Z.id by lia.
  apply list_eq. intros i. destruct (decide (i < length tx)%nat) as [Hi|Hi].
  - destruct (lookup_lt_is_Some_2 _ _ Hi) as [[b v] Hbv]. rewrite Hbv, list_lookup_fmap.
    rewrite lookup_seq_lt by done. simpl. f_equal. f_equal; [|by eapply E2].
    apply word_at_overwrite; [|by rewrite list_lookup_fmap, Hbv].
    eapply Forall_impl; [apply (tx_range _ T)|]. simpl. lia.
  - rewrite (lookup_ge_None_2 tx) by lia. apply lookup_ge_None_2. rewrite length_map, length_seq. lia.
Qed.

(** The contents after the transaction. *)
Definition new_blk tx (d : disk) (b : Z) : block := disk_blk (apply_writes tx d) b.

Lemma committed_new tx d ws b : tx_ok tx -> ~ in_journal b ->
  (forall c, c ∈ ws.*1 -> c ∈ tx.*1 \/ in_journal c) ->
  disk_blk (apply_writes tx (apply_writes ws d)) b = new_blk tx d b.
Proof using Type.
  intros T Hb Hws. unfold new_blk. destruct (decide (b ∈ tx.*1)) as [Hin|Hout].
  - apply list_elem_of_fmap in Hin as ([c v] & -> & Hin). simpl.
    rewrite !(apply_writes_lookup tx _ c v) by (done || apply T). done.
  - rewrite !apply_writes_other; [done|done| |done]. intros Hc. by destruct (Hws _ Hc).
Qed.

(** The keys of the part before the header. *)
Lemma log_part_keys tx o1 b : tx_ok tx -> b ∈ (log_part tx o1).*1 -> exists i, 1 <= i < 130 /\ jmap i = b.
Proof using Type.
  intros T. pose proof (tx_len _ T). unfold log_part. rewrite fmap_app, elem_of_app. intros [(k & Hk & ->)%log_keys|Hb].
  - exists (JDATA_START_BLK + Z.of_nat k). change JDATA_START_BLK with 2. split; [lia|done].
  - exists 1. apply list_elem_of_singleton in Hb. by split.
Qed.

Lemma crash_before tx o1 d l b : tx_ok tx -> idle d -> l `prefix_of` log_part tx o1 -> ~ in_journal b ->
  disk_blk (recover (apply_writes l d)) b = disk_blk d b.
Proof using jmap_inj.
  intros T Hid Hl Hb. rewrite recover_idle.
  - apply apply_writes_other. intros (i & ? & Ei)%(prefix_keys _ _ _ Hl)%log_part_keys; [|done].
    apply Hb. exists i. split; [lia|done].
  - unfold idle. rewrite apply_writes_other; [done|].
    intros (i & ? & Ei)%(prefix_keys _ _ _ Hl)%log_part_keys; [|done].
    apply jmap_inj in Ei; unfold HEADER_BLK in *; lia.
Qed.

Lemma committed_keys tx o1 o0 C c : tx_ok tx -> C `prefix_of` tx ->
  c ∈ (log_part tx o1 ++ header_write (Z.of_nat (length tx)) o0 :: C).*1 -> c ∈ tx.*1 \/ in_journal c.
Proof using Type.
  intros T HC. rewrite fmap_app, elem_of_app. intros [(i & ? & <-)%log_part_keys|Hc]; [|done|].
  - right. exists i. split; [lia|done].
  - simpl in Hc. apply elem_of_cons in Hc as [->|Hc]; [right; by exists 0|left; by eapply prefix_keys].
Qed.

Lemma crash_committed tx o1 o0 d C b : tx_ok tx -> C `prefix_of` tx -> ~ in_journal b ->
  disk_blk (recover (apply_writes (log_part tx o1 ++ header_write (Z.of_nat (length tx)) o0 :: C) d)) b = new_blk tx d b.
Proof using jmap_inj.
  intros T HC Hb. rewrite recover_committed by (done || (intros c; by apply prefix_keys)).
  apply committed_new; [done|done|]. intros c. by apply committed_keys.
Qed.

(** After the whole sequence the journal is empty and the contents are new. *)
Lemma plan_done tx o1 o0 o0' d : tx_ok tx ->
  let d' := apply_writes (plan tx o1 o0 o0') d in
  idle d' /\ forall b, ~ in_journal b -> disk_blk d' b = new_blk tx d b.
Proof using jmap_inj.
  intros T d'. unfold d', plan. change (header_write (Z.of_nat (length tx)) o0 :: tx ++ [header_write 0 o0'])
    with ((header_write (Z.of_nat (length tx)) o0 :: tx) ++ [header_write 0 o0']). rewrite app_assoc, apply_writes_app.
  split.
  - unfold idle, disk_blk. simpl. rewrite lookup_insert_eq. simpl. done.
  - intros b Hb. rewrite apply_writes_other.
    + change (header_write (Z.of_nat (length tx)) o0 :: tx) with ([header_write (Z.of_nat (length tx)) o0] ++ tx).
      rewrite app_assoc, apply_writes_app. apply committed_new; [done|done|].
      intros c Hc. apply (committed_keys tx o1 o0 [] c T); [apply prefix_nil|done].
    + intros Hc. apply list_elem_of_singleton in Hc. apply Hb. by exists 0.
Qed.

(** No crash point of a commit mixes old and new blocks. *)
Lemma crash_atomic tx o1 o0 o0' ws d :
  tx_ok tx -> idle d -> ws `prefix_of` plan tx o1 o0 o0' ->
  let d' := recover (apply_writes ws d) in
  (forall b, ~ in_journal b -> disk_blk d' b = disk_blk d b) \/
  (forall b, ~ in_journal b -> disk_blk d' b = new_blk tx d b).
Proof using jmap_inj.
  intros T Hid Hp. simpl. apply prefix_cases in Hp as [Hp|(l & -> & Hp)]; [left; intros; by eapply crash_before|].
  destruct l as [|w C]; [left; intros; rewrite app_nil_r; by eapply crash_before|].
  apply prefix_cons_inv_1 in Hp as E. subst w. apply prefix_cons_inv_2 in Hp. right. intros b Hb.
  apply prefix_cases in Hp as [Hp|(l & -> & Hp)]; [by apply crash_committed|].
  destruct l as [|w l]; [rewrite app_nil_r; by apply crash_committed|].
  apply prefix_cons_inv_1 in Hp as E. subst w. apply prefix_cons_inv_2, prefix_nil_inv in Hp as ->.
  destruct (plan_done tx o1 o0 o0' d T) as [Hi Hn]. unfold plan in Hi, Hn. rewrite recover_idle by done. by apply Hn.
Qed.
End crash.
