(* ===== verification/JbdSpec.v ===== *)
(** * Journaling: the commit

    [commit_journal] writes exactly the sequence [plan] of JbdCrash.v, or a
    prefix of it when an allocation fails. *)

From stdpp Require Import prelude list gmap.
From Stdlib Require Import ZArith Lia.
From S2P Require Import Prelude Mmu Bits DList ObjAlloc PageAlloc RadixTree RadixTreeSpec Bdev BdevSpec Jbd.
From S2P Require Import JbdCrash.

Section spec.
Context {P R O : Type} `{!PageAlloc P, !ObjAlloc R, !ObjAlloc O}.
Context (bioc bhc junk : Z) (jmap : Z -> Z).
Hypothesis Hsz : oa_size_ok (St := R) SIZEOF_RADIX_NODE.
Hypothesis Hcc : bioc <> bhc.
(** The journal area. *)
Hypothesis jmap_range : forall i, 0 <= i < 130 -> 0 <= jmap i < 2 ^ 23.
Hypothesis jmap_inj : forall i j, 0 <= i < 130 -> 0 <= j < 130 -> jmap i = jmap j -> i = j.
Implicit Types (b : blk_header) (s : bst P R O) (D : list (Z * (Z * block))).
Abbreviation BI := (binv bioc bhc).
Abbreviation bstate := (bst P R O).

(** ** The cache between two blocks *)

(** The blocks a run of the device wrote. *)
Definition wrote (ws : writes) (s s' : bstate) : Prop :=
  b_writes s' = b_writes s ++ ws /\ b_disk s' = apply_writes ws (b_disk s).

Lemma wrote_refl (s s' : bstate) : io s' = io s -> wrote [] s s'.
Proof using Type. unfold io, wrote. intros [= -> -> _]. by rewrite app_nil_r. Qed.
Lemma wrote_trans ws1 ws2 s1 s2 s3 : wrote ws1 s1 s2 -> wrote ws2 s2 s3 -> wrote (ws1 ++ ws2) s1 s3.
Proof using Type. intros [E1 E2] [E3 E4]. split; [by rewrite E3, E1, app_assoc|by rewrite E4, E2, apply_writes_app]. Qed.
Lemma wrote_one pb v (s s' : bstate) : io s' = io (disk_write pb v s) -> wrote [(pb, v)] s s'.
Proof using Type. unfold io, wrote. by intros [= -> -> _]. Qed.

(** The header of a journaled block, with its number and contents. *)
Definition holds (s : bstate) (x : Z * (Z * block)) : Prop :=
  exists b, b_bh s !! x.1 = Some b /\ bh_blk b = x.2.1 /\ 1 <= bh_ref b /\ content s b = Some x.2.2.

Definition free_hd (b : blk_header) : Prop := bh_lock b = false /\ bh_ref b < 2 ^ 32 - 1.

Record JG D (s : bstate) : Prop := {
  jg_binv : exists m H, BI NULL m H s;
  jg_pc : b_pclock s = false;
  jg_free : forall g b, b_bh s !! g = Some b -> free_hd b;
  jg_hold : Forall (holds s) D
}.

(** One more block is in use: its header [h] is locked, with contents [o]. *)
Record opened (pb h : Z) (o : block) D (s : bstate) : Prop := {
  op_binv : exists m H, BI NULL m H s;
  op_pc : b_pclock s = false;
  op_hd : exists b, b_bh s !! h = Some b /\ bh_blk b = pb /\ 0 < bh_ref b /\ bh_lock b = true /\ content s b = Some o;
  op_free : forall g b, b_bh s !! g = Some b -> g <> h -> free_hd b;
  op_hold : Forall (holds s) D;
  op_ne : h ∉ D.*1
}.

(** A header of the list has the number of its block. *)
Lemma holds_blk s D h b : Forall (holds s) D -> b_bh s !! h = Some b -> bh_blk b ∉ D.*2.*1 -> h ∉ D.*1.
Proof using Type.
  intros HD Hb Hnb (x & -> & Hx)%list_elem_of_fmap. rewrite Forall_forall in HD.
  destruct (HD _ Hx) as (b' & Hb' & E & _). simplify_eq. apply Hnb. rewrite E. by do 2 apply list_elem_of_fmap_2.
Qed.

Lemma holds_mono (s s' : bstate) D :
  (forall g b, g ∈ D.*1 -> b_bh s !! g = Some b -> 1 <= bh_ref b ->
     b_bh s' !! g = Some b /\ content s' b = content s b) ->
  Forall (holds s) D -> Forall (holds s') D.
Proof using Type.
  intros Hk HD. apply Forall_forall. intros x Hx. rewrite Forall_forall in HD.
  destruct (HD _ Hx) as (b & Hb & ? & ? & ?). destruct (Hk x.1 b) as [? E]; [by apply list_elem_of_fmap_2|done|done|].
  exists b. do 3 (split; [done|]). by rewrite E.
Qed.

Lemma wp_open pb D s : JG D s -> 0 <= pb < 2 ^ 23 -> pb ∉ D.*2.*1 ->
  wp (bdev_get_blk bioc bhc junk pb) (fun h s' => wrote [] s s' /\
    (h = NULL \/ (h <> NULL /\ exists o, opened pb h o D s'))) s.
Proof using Hsz Hcc.
  intros [(m & H & B) Hpc Hfr HD] Hpb Hnew. eapply wp_mono; [apply (wp_get_blk bioc bhc junk Hsz Hcc m H s pb B Hpc Hpb)|].
  { intros g b Hg _. by apply (Hfr g). }
  intros h s' (Hio & Hh). split; [by apply wrote_refl|]. destruct Hh as [->|(Hh & m' & H' & B' & F)]; [by left|].
  right. split; [done|]. destruct (ft_hd _ _ _ _ F) as (b & Hb & Eb & Hl & Hr).
  destruct (header_data _ _ _ _ _ _ _ _ B' Hb) as (_ & _ & [o Ho]). exists o.
  assert (Hne : h ∉ D.*1).
  { intros Hin. apply list_elem_of_fmap in Hin as (x & -> & Hx). rewrite Forall_forall in HD.
    destruct (HD _ Hx) as (c & Hc & Ec & _). pose proof (ft_same _ _ _ _ F _ Hc) as E. apply Hnew.
    rewrite <- E, Ec. by do 2 apply list_elem_of_fmap_2. }
  split; [by exists m', H'| |by exists b| | |done].
  - injection Hio as _ _ E. by rewrite E.
  - intros g c Hg Hgh. destruct (ft_new _ _ _ _ F _ _ Hg Hgh) as [Hg0|[? E]]; [by apply (Hfr g)|]. split; [done|]. by rewrite E.
  - eapply holds_mono; [|exact HD]. intros g c Hg Hc _. split.
    + apply F; [done|]. by intros ->.
    + unfold content. by rewrite (ft_data _ _ _ _ F _ _ Hc).
Qed.

(** ** Writing into a fetched block *)

Lemma binv_put pl m H (s : bstate) p l k v : BI pl m H s -> b_data s !! p = Some l ->
  BI pl m H (set_data (<[p := <[k := v]> l]> (b_data s)) s).
Proof using Type.
  intros B Hl. split; try apply B. intros i q Hm. destruct (bi_page _ _ _ _ _ _ B _ _ Hm) as (? & ? & [? (l' & Hl' & Hlen)]).
  do 2 (split; [done|]). split; [done|]. simpl. rewrite lookup_insert. case_decide as E; [|by exists l'].
  subst q. exists (<[k := v]> l). split; [done|]. rewrite length_insert. by simplify_eq.
Qed.

(** The other blocks keep their contents. *)
Lemma content_put pl m H (s : bstate) h b g c l v : BI pl m H s -> b_bh s !! h = Some b -> b_bh s !! g = Some c ->
  b_data s !! bh_page b = Some l -> (Z.to_nat (bh_data b) < length l)%nat ->
  content (set_data (<[bh_page b := <[Z.to_nat (bh_data b) := v]> l]> (b_data s)) s) c =
    if decide (g = h) then Some v else content s c.
Proof using Type.
  intros B Hb Hc Hl Hk. unfold content. simpl. rewrite lookup_insert. case_decide as E.
  - case_decide as Egh.
    + subst g. simplify_eq. simpl. apply list_lookup_insert_eq. lia.
    + rewrite <- E, Hl. simpl. apply list_lookup_insert_ne. intros Ek. apply Egh.
      destruct (header_data _ _ _ _ _ _ _ _ B Hb) as (_ & (i & k & Hm & E1 & _ & E3 & _) & _).
      destruct (header_data _ _ _ _ _ _ _ _ B Hc) as (_ & (j & k' & Hm' & E1' & _ & E3' & _) & _).
      rewrite <- E in Hm'. pose proof (bi_inj _ _ _ _ _ _ B _ _ _ Hm Hm') as ->.
      eapply (header_unique _ _ pl m H s g c h b); [done|done|done|]. lia.
  - case_decide as Egh; [|done]. subst g. simplify_eq.
Qed.

Lemma opened_put pb h o v D s b l : opened pb h o D s -> b_bh s !! h = Some b -> b_data s !! bh_page b = Some l ->
  opened pb h v D (set_data (<[bh_page b := <[Z.to_nat (bh_data b) := v]> l]> (b_data s)) s).
Proof using Type.
  intros [(m & H & B) Hpc (b' & Hb' & Eb & Hr & Hlo & Ho) Hfr HD Hne] Hb Hl. rewrite Hb in Hb'. injection Hb' as <-.
  assert (Hk : (Z.to_nat (bh_data b) < length l)%nat).
  { unfold content in Ho. rewrite Hl in Ho. simpl in Ho. apply lookup_lt_Some in Ho. lia. }
  split; [exists m, H; by apply binv_put|done| |done| |done].
  - exists b. do 4 (split; [done|]). rewrite (content_put _ _ _ s h b h b l v B Hb Hb Hl Hk). by rewrite decide_True.
  - eapply holds_mono; [|exact HD]. intros g c Hg Hc _. split; [done|].
    rewrite (content_put _ _ _ s h b g c l v B Hb Hc Hl Hk). rewrite decide_False; [done|]. by intros ->.
Qed.

(** ** Writing a fetched block out and releasing it *)

Lemma wp_write_opened pb h v D s : opened pb h v D s ->
  wp (bdev_write_blk bioc h) (fun e s' => (e = ERR_NOMEM /\ wrote [] s s') \/
    (e = ERR_OK /\ wrote [(pb, v)] s s' /\ opened pb h v D s')) s.
Proof using Hsz Hcc.
  intros [(m & H & B) Hpc (b & Hb & Eb & Hr & Hlo & Ho) Hfr HD Hne].
  eapply wp_mono; [by eapply wp_write_blk|]. intros e s' [(-> & Hio)|(-> & B' & Hio & Ebh & Ed)].
  - left. split; [done|]. by apply wrote_refl.
  - right. split; [done|]. rewrite Eb in Hio. split; [by apply wrote_one|]. split; [by exists m, H| | | | |done].
    + injection Hio as _ _ E. by rewrite E.
    + exists (clean b). rewrite Ebh, lookup_insert_eq. do 4 (split; [done|]). unfold content in *. by rewrite Ed.
    + intros g c Hg Hgh. rewrite Ebh, lookup_insert_ne in Hg by done. by apply (Hfr g).
    + eapply holds_mono; [|exact HD]. intros g c Hg Hc _. split; [|unfold content; by rewrite Ed].
      rewrite Ebh, lookup_insert_ne; [done|]. by intros ->.
Qed.

Lemma wp_clean_opened pb h v D s : opened pb h v D s ->
  wp (bdev_set_blk_dirty h false) (fun _ s' => wrote [] s s' /\ opened pb h v D s') s.
Proof using Type.
  intros [(m & H & B) Hpc (b & Hb & Eb & Hr & Hlo & Ho) Hfr HD Hne]. eapply wp_set_clean; [done|].
  split; [by apply wrote_refl|]. split; [|done| | | |done].
  - exists m, H. destruct (header_data _ _ _ _ _ _ _ _ B Hb) as (_ & (i & k & _ & _ & _ & _ & Hval & Href) & _).
    destruct (clean_ok _ Hval). by eapply binv_upd_bh.
  - exists (clean b). simpl. by rewrite lookup_insert_eq.
  - intros g c. simpl. intros Hg Hgh. rewrite lookup_insert_ne in Hg by done. by apply (Hfr g).
  - eapply holds_mono; [|exact HD]. intros g c Hg Hc _. split; [|done].
    simpl. rewrite lookup_insert_ne; [done|]. by intros ->.
Qed.

Lemma wp_release_opened pb h v D s : opened pb h v D s ->
  wp (bdev_release_blk bhc h) (fun _ s' => wrote [] s s' /\ JG D s') s.
Proof using Hsz Hcc.
  intros [(m & H & B) Hpc (b & Hb & Eb & Hr & Hlo & Ho) Hfr HD Hne].
  destruct (header_data _ _ _ _ _ _ _ _ B Hb) as (_ & (i & k & _ & _ & _ & _ & _ & Href) & _).
  eapply wp_mono; [by eapply (wp_release_blk bioc bhc Hsz Hcc m H s h b)|]. intros [] s' (B' & L).
  split; [apply wrote_refl, L|]. split; [by exists m, H| | |].
  - pose proof (rl_io _ _ _ _ L) as E. injection E as _ _ E. by rewrite E.
  - intros g c Hg. pose proof (rl_back _ _ _ _ L _ _ Hg) as Hc. case_decide as E; [|by apply (Hfr g)].
    subst c. split; [done|]. simpl. lia.
  - eapply holds_mono; [|exact HD]. intros g c Hg Hc Hrc. split; [|unfold content; by rewrite (rl_data _ _ _ _ L)].
    apply (rl_keep _ _ _ _ L); [done|by intros ->|lia].
Qed.

(** ** Operations of jbd.c on the cache *)

Abbreviation jstate := (jst P R O).

Lemma wp_on_b {A} (c : M bstate A) (Q : A -> jstate -> Prop) (t : jstate) :
  wp c (fun a s' => Q a (mkJS s' (js_j t))) (js_b t) -> wp (on_b c) Q t.
Proof using Type. intros Hc. unfold on_b. by wp_step. Qed.

Lemma wp_data_of (t : jstate) h b o (Q : block -> jstate -> Prop) :
  b_bh (js_b t) !! h = Some b -> content (js_b t) b = Some o -> Q o t -> wp (data_of h) Q t.
Proof using Type.
  intros Hb Ho HQ. unfold data_of. wp_step. apply wp_on_b. eapply wp_get_bh; [done|].
  apply wp_on_b. eapply wp_get_data; [done|]. by destruct t.
Qed.

Lemma wp_set_data_of (t : jstate) h b l o v (Q : unit -> jstate -> Prop) :
  b_bh (js_b t) !! h = Some b -> content (js_b t) b = Some o -> b_data (js_b t) !! bh_page b = Some l ->
  Q tt (mkJS (set_data (<[bh_page b := <[Z.to_nat (bh_data b) := v]> l]> (b_data (js_b t))) (js_b t)) (js_j t)) ->
  wp (set_data_of h v) Q t.
Proof using Type.
  intros Hb Ho Hl HQ. unfold content in Ho. rewrite Hl in Ho. simpl in Ho.
  unfold set_data_of. wp_step. apply wp_on_b. eapply wp_get_bh; [done|].
  apply wp_on_b. unfold put_data. wp_step. wp_step. wp_step. eapply wp_deref; [done|]. wp_step.
  eapply wp_deref; [done|]. wp_step. exact HQ.
Qed.

Lemma opened_page pb h o D s : opened pb h o D s ->
  exists b l, b_bh s !! h = Some b /\ content s b = Some o /\ b_data s !! bh_page b = Some l.
Proof using Type.
  intros Op. destruct (op_hd _ _ _ _ _ Op) as (b & Hb & _ & _ & _ & Ho). exists b.
  unfold content in Ho. destruct (b_data s !! bh_page b) as [l|] eqn:El; [|done]. exists l.
  unfold content. by rewrite El.
Qed.

(** Change the contents of the fetched block as a function of the old. *)
Lemma wp_modify_data {A} (t : jstate) pb h o D f (k : M jstate A) (Q : A -> jstate -> Prop) :
  opened pb h o D (js_b t) ->
  (forall s', wrote [] (js_b t) s' -> opened pb h (f o) D s' -> wp k Q (mkJS s' (js_j t))) ->
  wp (v <- data_of h;; set_data_of h (f v);; k) Q t.
Proof using Type.
  intros Op HQ. destruct (opened_page _ _ _ _ _ Op) as (b & l & Hb & Ho & Hl).
  wp_step. eapply wp_data_of; [done|done|]. wp_step. eapply wp_set_data_of; [done|done|done|].
  apply HQ; [by apply wrote_refl|]. by eapply opened_put.
Qed.

(** Copy a journaled block into the fetched block, under its lock. *)
Lemma wp_copy_data {A} (t : jstate) pb h o D d blk v (k : M jstate A) (Q : A -> jstate -> Prop) :
  opened pb h o D (js_b t) -> (d, (blk, v)) ∈ D ->
  (forall s', wrote [] (js_b t) s' -> opened pb h v D s' -> wp k Q (mkJS s' (js_j t))) ->
  wp (on_b (lock_bh d);; v <- data_of d;; set_data_of h v;; on_b (unlock_bh d);; k) Q t.
Proof using Type.
  intros Op Hin HQ. destruct (opened_page _ _ _ _ _ Op) as (b & l & Hb & Ho & Hl).
  pose proof (op_hold _ _ _ _ _ Op) as HD. rewrite Forall_forall in HD. destruct (HD _ Hin) as (c & Hc & _ & _ & Hv).
  simpl in *. assert (Hdh : d <> h).
  { intros ->. apply (op_ne _ _ _ _ _ Op). apply list_elem_of_fmap. by exists (h, (blk, v)). }
  destruct (op_free _ _ _ _ _ Op _ _ Hc Hdh) as [Hlk _].
  wp_step. apply wp_on_b. unfold lock_bh. wp_step. eapply wp_get_bh; [done|]. rewrite Hlk. eapply wp_upd_bh; [done|].
  wp_step. eapply wp_data_of; [simpl; by rewrite lookup_insert_eq|exact Hv|].
  wp_step. eapply wp_set_data_of; [simpl; by rewrite lookup_insert_ne|exact Ho|exact Hl|].
  wp_step. apply wp_on_b. unfold unlock_bh. wp_step. eapply wp_get_bh; [simpl; by rewrite lookup_insert_eq|]. wp_step. wp_step; [done|]. eapply wp_upd_bh; [simpl; by rewrite lookup_insert_eq|]. simpl.
  rewrite insert_insert_eq. replace (set_bh_lock false (set_bh_lock true c)) with c by (destruct c; simpl in *; by subst).
  rewrite insert_id by done. apply HQ; [by apply wrote_refl|]. by apply (opened_put pb h o v D (js_b t) b l).
Qed.

(** Write the fetched block out and give it back. *)
Lemma wp_finish {A} (t : jstate) pb h v D (F : Z -> A) (k : M jstate A) (Q : A -> jstate -> Prop) :
  opened pb h v D (js_b t) ->
  (forall s', wrote [] (js_b t) s' -> Q (F ERR_NOMEM) (mkJS s' (js_j t))) ->
  (forall s', wrote [(pb, v)] (js_b t) s' -> JG D s' -> wp k Q (mkJS s' (js_j t))) ->
  wp (err <- on_b (bdev_write_blk bioc h);;
      if negb (err =? ERR_OK) then ret (F err) else on_b (bdev_release_blk bhc h);; k) Q t.
Proof using Hsz Hcc.
  intros Op HN HS. wp_step. apply wp_on_b. eapply wp_mono; [by eapply wp_write_opened|].
  intros e s1 [(-> & W)|(-> & W & Op1)]; [simpl; wp_step; by apply HN|]. simpl. wp_step. apply wp_on_b.
  eapply wp_mono; [by eapply wp_release_opened|]. intros [] s2 (W2 & G). apply (HS s2); [|done].
  apply (wrote_trans [(pb, v)] [] _ s1 _ W W2).
Qed.

(** Fetch a journal block. *)
Lemma wp_fetch {A} (t : jstate) i D (F : A) (k : Z -> M jstate A) (Q : A -> jstate -> Prop) :
  JG D (js_b t) -> 0 <= i < 130 -> (forall c, c ∈ D.*2.*1 -> ~ in_journal jmap c) ->
  (forall s', wrote [] (js_b t) s' -> Q F (mkJS s' (js_j t))) ->
  (forall h o s', wrote [] (js_b t) s' -> opened (jmap i) h o D s' -> wp (k h) Q (mkJS s' (js_j t))) ->
  wp (h <- on_b (bdev_get_blk bioc bhc junk (jmap i));; if h =? NULL then ret F else k h) Q t.
Proof using Hsz Hcc jmap_range.
  intros G Hi Hout HN HS. wp_step. apply wp_on_b. eapply wp_mono; [apply (wp_open (jmap i) D); [done|by apply jmap_range|]|].
  { intros Hin. apply (Hout _ Hin). by exists i. }
  intros h s' (W & [->|(Hh & o & Op)]); [simpl; wp_step; by apply HN|].
  rewrite (proj2 (Z.eqb_neq h NULL) Hh). by eapply HS.
Qed.

(** ** The stages of a commit *)

(** The journal holds the blocks of [D]. *)
Definition jblks (j : journal) D : Prop :=
  j_next_index j = Z.of_nat (length D) /\ forall k x, D !! k = Some x -> j_datablks j !! k = Some x.1.

(** [ws] was written, all of [L] when the result is ERR_OK. *)
Definition staged (e : Z) (L : writes) (s s' : bstate) : Prop :=
  (e = ERR_OK /\ wrote L s s') \/ (e = ERR_NOMEM /\ exists ws, ws `prefix_of` L /\ wrote ws s s').

Section commit.
Context (D : list (Z * (Z * block))) (T : tx_ok jmap D.*2).

Lemma wp_write_data n i bmap (t : jstate) :
  JG D (js_b t) -> jblks (js_j t) D -> (n + i = length D)%nat -> bmap = take i D.*2.*1 ->
  wp (write_data_blks bioc bhc junk jmap n (Z.of_nat i) bmap) (fun r t' => js_j t' = js_j t /\
    staged r.1 (drop i (log_writes jmap D.*2)) (js_b t) (js_b t') /\
    (r.1 = ERR_OK -> JG D (js_b t') /\ r.2 = D.*2.*1)) t.
Proof using Hsz Hcc jmap_range T.
  revert i bmap t. induction n as [|n IH]; intros i bmap t G J Hni ->.
  - simpl. wp_step. split; [done|]. rewrite drop_ge by (unfold log_writes; rewrite length_imap, length_fmap; lia).
    split; [left; split; [done|by apply wrote_refl]|]. intros _. split; [done|].
    apply take_ge. rewrite !length_fmap. lia.
  - destruct (lookup_lt_is_Some_2 D i) as [[d [blk v]] Hd]; [lia|].
    pose proof (jg_hold _ _ G) as HD. rewrite Forall_forall in HD.
    destruct (HD _ (list_elem_of_lookup_2 _ _ _ Hd)) as (b & Hb & Eb & _). simpl in Hb, Eb.
    assert (EL : drop i (log_writes jmap D.*2) = (jmap (JDATA_START_BLK + Z.of_nat i), v) :: drop (S i) (log_writes jmap D.*2)).
    { apply drop_S. unfold log_writes. by rewrite list_lookup_imap, list_lookup_fmap, Hd. }
    pose proof (tx_len _ _ T) as Hlen. rewrite length_fmap in Hlen.
    cbn [write_data_blks]. cbv zeta. wp_step. unfold get_j. wp_step. wp_step. rewrite Nat2Z.id.
    eapply wp_deref; [apply J, Hd|]. simpl fst. wp_step. unfold blk_of. wp_step. apply wp_on_b.
    eapply wp_get_bh; [exact Hb|]. wp_step. replace (mkJS (js_b t) (js_j t)) with t by (by destruct t).
    eapply (wp_fetch t (JDATA_START_BLK + Z.of_nat i) D); [done|change JDATA_START_BLK with 2; lia|apply T| |].
    { intros s1 W. split; [done|]. split; [right|done]. split; [done|]. exists []. split; [apply prefix_nil|done]. }
    intros h o s1 W Op. eapply (wp_copy_data (mkJS s1 (js_j t))); [exact Op|by eapply list_elem_of_lookup_2|].
    intros s2 W2 Op2. apply (wrote_trans [] [] _ _ _ W) in W2. simpl in W2.
    eapply (wp_finish (mkJS s2 (js_j t)) _ h v D (fun e => (e, _))); [exact Op2| |].
    { intros s3 W3. apply (wrote_trans [] [] _ _ _ W2) in W3. split; [done|]. split; [right|done]. split; [done|].
      exists []. split; [apply prefix_nil|done]. }
    intros s3 W3 G3. apply (wrote_trans [] _ _ _ _ W2) in W3. simpl in W3.
    replace (Z.of_nat i + 1) with (Z.of_nat (S i)) by lia.
    eapply wp_mono; [apply (IH (S i)); [exact G3|done|lia|]|].
    { symmetry. rewrite Eb. apply take_S_r. by rewrite !list_lookup_fmap, Hd. }
    intros [e bm] t' (Ej & St & Hok). split; [done|]. split; [|done]. rewrite EL.
    destruct St as [[He Hw]|(He & ws & Hp & Hw)]; [left|right]; (split; [done|]).
    + by apply (wrote_trans _ _ _ _ _ W3 Hw).
    + eexists. split; [|apply (wrote_trans _ _ _ _ _ W3 Hw)]. by apply prefix_cons.
Qed.

Lemma wp_write_bmap (t : jstate) :
  JG D (js_b t) ->
  wp (write_bmap_blks bioc bhc junk jmap (Z.of_nat (length D)) D.*2.*1) (fun e t' => js_j t' = js_j t /\ exists o1,
    staged e [(jmap BMAP_START_BLK, overwrite (concat (map le32 D.*2.*1)) o1)] (js_b t) (js_b t') /\
    (e = ERR_OK -> JG D (js_b t'))) t.
Proof using Hsz Hcc jmap_range T.
  intros G. pose proof (tx_len _ _ T) as Hlen. rewrite length_fmap in Hlen.
  unfold write_bmap_blks. change (S (Z.to_nat BMAP_BLKS)) with 2%nat. cbn [loop]. wp_step.
  rewrite (proj2 (Z.ltb_lt 0 (Z.of_nat (length D)))) by lia. change (0 <? BMAP_BLKS) with true. cbn [andb]. cbv zeta.
  change (BMAP_START_BLK + 0) with 1.
  eapply (wp_fetch t 1 D); [done|lia|apply T| |].
  { intros s1 W. wp_step. split; [done|]. exists []. split; [right|done]. split; [done|]. exists []. split; [apply prefix_nil|done]. }
  intros h o s1 W Op. replace (Z.min (BDEV_BLK_SIZE / 4) (Z.of_nat (length D) - 0)) with (Z.of_nat (length D))
    by (change (BDEV_BLK_SIZE / 4) with 128; lia).
  rewrite Nat2Z.id. change (Z.to_nat 0) with 0%nat. rewrite drop_0, take_ge by (rewrite !length_fmap; lia).
  eapply (wp_modify_data (mkJS s1 (js_j t)) _ _ o D (overwrite (concat (map le32 D.*2.*1)))); [exact Op|].
  intros s2 W2 Op2. apply (wrote_trans [] [] _ _ _ W) in W2.
  eapply (wp_finish (mkJS s2 (js_j t)) _ h _ D inr); [exact Op2| |].
  { intros s3 W3. apply (wrote_trans [] [] _ _ _ W2) in W3. wp_step. split; [done|]. exists []. split; [right|done].
    split; [done|]. exists []. split; [apply prefix_nil|done]. }
  intros s3 W3 G3. apply (wrote_trans [] _ _ _ _ W2) in W3. wp_step. wp_step.
  rewrite (proj2 (Z.ltb_ge (0 + Z.of_nat (length D)) (Z.of_nat (length D)))) by lia. cbn [andb]. wp_step. wp_step.
  split; [done|]. exists o. split; [left; by split|done].
Qed.

Lemma wp_write_header D' (t : jstate) :
  JG D' (js_b t) -> (forall c, c ∈ D'.*2.*1 -> ~ in_journal jmap c) ->
  wp (write_journal_header bioc bhc junk jmap) (fun e t' => js_j t' = js_j t /\ exists o0,
    staged e [header_write jmap (j_next_index (js_j t)) o0] (js_b t) (js_b t') /\
    (e = ERR_OK -> JG D' (js_b t'))) t.
Proof using Hsz Hcc jmap_range.
  intros G Hout. unfold write_journal_header. wp_step. unfold get_j. wp_step. cbv zeta.
  eapply (wp_fetch t HEADER_BLK D'); [done|done|done| |].
  { intros s1 W. split; [done|]. exists []. split; [right|done]. split; [done|]. exists []. split; [apply prefix_nil|done]. }
  intros h o s1 W Op. eapply (wp_modify_data (mkJS s1 (js_j t)) _ _ o D'); [exact Op|].
  intros s2 W2 Op2. apply (wrote_trans [] [] _ _ _ W) in W2.
  eapply (wp_finish (mkJS s2 (js_j t)) _ h _ D' (fun e => e)); [exact Op2| |].
  { intros s3 W3. apply (wrote_trans [] [] _ _ _ W2) in W3. split; [done|]. exists []. split; [right|done].
    split; [done|]. exists []. split; [apply prefix_nil|done]. }
  intros s3 W3 G3. apply (wrote_trans [] _ _ _ _ W2) in W3. wp_step.
  split; [done|]. exists o. split; [left; by split|done].
Qed.

(** One block of apply_journal. *)
Lemma wp_apply_one (t : jstate) x D' (Q : option Z -> jstate -> Prop) :
  JG (x :: D') (js_b t) -> x.2.1 ∉ D'.*2.*1 ->
  (forall s', wrote [] (js_b t) s' -> Q (Some ERR_NOMEM) (mkJS s' (js_j t))) ->
  (forall s', wrote [x.2] (js_b t) s' -> JG D' s' -> Q None (mkJS s' (js_j t))) ->
  wp (on_b (lock_bh x.1);;
      err <- on_b (bdev_write_blk bioc x.1);;
      if negb (err =? ERR_OK) then ret (Some err)
      else on_b (bdev_set_blk_dirty x.1 false);; on_b (bdev_release_blk bhc x.1);; ret None) Q t.
Proof using Hsz Hcc.
  destruct x as [d [blk v]]. cbn [fst snd]. intros [(m & H & B) Hpc Hfr [(b & Hb & Eb & Hr & Hv) HD]%Forall_cons] Hnb HN HS.
  cbn [fst snd] in *. destruct (Hfr _ _ Hb) as [Hlk _].
  assert (Hne : d ∉ D'.*1) by (eapply holds_blk; [done|done|by rewrite Eb]).
  assert (Op : opened blk d v D' (set_bh (<[d := set_bh_lock true b]> (b_bh (js_b t))) (js_b t))).
  { destruct (header_data _ _ _ _ _ _ _ _ B Hb) as (_ & (i & k & _ & _ & _ & _ & Hval & Href) & _).
    split; [exists m, H; by eapply binv_upd_bh|done| | | |done].
    - exists (set_bh_lock true b). simpl. rewrite lookup_insert_eq. do 2 (split; [done|]). split; [simpl; lia|done].
    - intros g c. simpl. intros Hg Hgd. rewrite lookup_insert_ne in Hg by done. by apply (Hfr g).
    - eapply holds_mono; [|exact HD]. intros g c Hg Hc _. split; [|done].
      simpl. rewrite lookup_insert_ne; [done|]. by intros ->. }
  wp_step. apply wp_on_b. unfold lock_bh. wp_step. eapply wp_get_bh; [done|]. rewrite Hlk. eapply wp_upd_bh; [done|].
  wp_step. apply wp_on_b. eapply wp_mono; [by eapply wp_write_opened|].
  intros e s1 [(-> & W)|(-> & W & Op1)]; [simpl; wp_step; by apply HN|]. simpl. wp_step. apply wp_on_b.
  eapply wp_mono; [by eapply wp_clean_opened|]. intros [] s2 (W2 & Op2). wp_step. apply wp_on_b.
  eapply wp_mono; [by eapply wp_release_opened|]. intros [] s3 (W3 & G3). wp_step. apply (HS s3); [|done].
  apply (wrote_trans [] [] _ _ _ W2) in W3. exact (wrote_trans [(blk, v)] [] _ _ _ W W3).
Qed.

Lemma wp_apply (t : jstate) :
  JG D (js_b t) -> jblks (js_j t) D ->
  wp (apply_journal bioc bhc) (fun e t' => js_j t' = js_j t /\ staged e D.*2 (js_b t) (js_b t') /\
    (e = ERR_OK -> JG [] (js_b t'))) t.
Proof using Hsz Hcc T.
  intros G [Hn J]. unfold apply_journal. wp_step. unfold get_j. wp_step. rewrite Hn, Nat2Z.id. wp_step.
  apply wp_for_ret with (I := fun k t' => js_j t' = js_j t /\
    JG (drop (Z.to_nat k) D) (js_b t') /\ wrote (take (Z.to_nat k) D.*2) (js_b t) (js_b t')).
  - split; [done|]. split; [done|]. by apply wrote_refl.
  - intros k t1 Hk (Ej & G1 & W1). set (n := Z.to_nat k) in *.
    destruct (lookup_lt_is_Some_2 D n) as [x Hx]; [unfold n; lia|]. rewrite (drop_S _ _ _ Hx) in G1.
    assert (ES : Z.to_nat (k + 1) = S n) by (unfold n; lia).
    assert (ET : take (S n) D.*2 = take n D.*2 ++ [x.2]) by (apply take_S_r; by rewrite list_lookup_fmap, Hx).
    wp_step. wp_step. wp_step. rewrite Ej. eapply wp_deref; [apply J, Hx|].
    eapply (wp_apply_one t1 x (drop (S n) D)); [exact G1| | |].
    + pose proof (tx_nodup _ _ T) as Hnd. rewrite <- (take_drop n D), (drop_S _ _ _ Hx), !fmap_app in Hnd.
      apply NoDup_app in Hnd as (_ & _ & Hnd). simpl in Hnd. by apply NoDup_cons in Hnd as [? _].
    + intros s2 W2. wp_step. split; [done|]. split; [right|done]. split; [done|].
      exists (take n D.*2). split; [apply prefix_take|]. rewrite <- (app_nil_r (take n _)). by eapply wrote_trans.
    + intros s2 W2 G2. rewrite ES, ET. split; [done|]. split; [done|]. by eapply wrote_trans.
  - intros t1 (Ej & G1 & W1). wp_step. split; [done|]. replace (Z.to_nat (0 + Z.of_nat (length D))) with (length D) in * by lia.
    rewrite drop_all in G1. rewrite take_ge in W1 by (rewrite length_fmap; lia). split; [left; by split|done].
Qed.

Lemma wp_write_journal (t : jstate) :
  JG D (js_b t) -> jblks (js_j t) D ->
  wp (write_journal_blks bioc bhc junk jmap) (fun e t' => js_j t' = js_j t /\ exists o1,
    staged e (log_part jmap D.*2 o1) (js_b t) (js_b t') /\ (e = ERR_OK -> JG D (js_b t'))) t.
Proof using Hsz Hcc jmap_range T.
  intros G J. pose proof (tx_len _ _ T) as Hlen. rewrite length_fmap in Hlen. pose proof J as [Hn _].
  unfold write_journal_blks. wp_step. unfold get_j. wp_step. rewrite Hn, Nat2Z.id. wp_step.
  wp_step; [apply Z.ltb_lt; change JOURNAL_SIZE with 128; lia|]. wp_step.
  eapply wp_mono; [apply (wp_write_data (length D) 0 []); [done|done|lia|done]|].
  intros [e bm] t1 (Ej & St & Hok). cbn [fst snd] in *. rewrite drop_0 in St.
  destruct St as [[-> W]|(-> & ws & Hp & W)].
  - destruct (Hok eq_refl) as [G1 ->]. simpl. eapply wp_mono; [by apply wp_write_bmap|].
    intros e t2 (Ej2 & o1 & St & Hok2). split; [congruence|]. exists o1. split; [|done].
    destruct St as [[-> W2]|(-> & ws & Hp & W2)]; [left|right]; (split; [done|]).
    + by eapply wrote_trans.
    + eexists. split; [|by eapply wrote_trans]. by apply prefix_app.
  - simpl. wp_step. split; [done|]. exists []. split; [right|done]. split; [done|]. exists ws. split; [|done].
    by apply prefix_app_r.
Qed.

(** The result of a commit. *)
Definition committed (e : Z) (t t' : jstate) : Prop :=
  exists o1 o0 o0', staged e (plan jmap D.*2 o1 o0 o0') (js_b t) (js_b t') /\
    (e = ERR_OK -> JG [] (js_b t') /\
       js_j t' = mkJ (j_lock (js_j t)) (j_enabled (js_j t)) (j_state (js_j t)) 0 (j_datablks (js_j t))).

Lemma staged_nomem L K s s' : (exists ws, ws `prefix_of` L /\ wrote ws s s') -> staged ERR_NOMEM (L ++ K) s s'.
Proof using Type.
  intros (ws & Hp & W). right. split; [done|]. exists ws. split; [|done]. by apply prefix_app_r.
Qed.

Lemma staged_app L K e s s1 s2 : wrote L s s1 -> staged e K s1 s2 -> staged e (L ++ K) s s2.
Proof using Type.
  intros W [[-> W2]|(-> & ws & Hp & W2)]; [left|right]; (split; [done|]); [by eapply wrote_trans|].
  exists (L ++ ws). split; [by apply prefix_app|by eapply wrote_trans].
Qed.

Lemma wp_commit (t : jstate) :
  JG D (js_b t) -> jblks (js_j t) D ->
  wp (commit_journal bioc bhc junk jmap) (fun e t' => committed e t t') t.
Proof using Hsz Hcc jmap_range T.
  intros G J. unfold commit_journal. wp_step. eapply wp_mono; [by apply wp_write_journal|].
  intros e t1 (Ej & o1 & St & Hok). destruct St as [[-> W]|[-> St]].
  2:{ simpl. wp_step. exists o1, [], []. split; [|done]. by apply staged_nomem. }
  specialize (Hok eq_refl). simpl. wp_step. eapply wp_mono; [eapply wp_write_header; [exact Hok|apply T]|].
  intros e t2 (Ej2 & o0 & St & Hok2). rewrite Ej, (proj1 J), <- (length_fmap snd D) in St.
  destruct St as [[-> W2]|[-> St]].
  2:{ simpl. wp_step. exists o1, o0, []. split; [|done]. eapply staged_app; [done|]. by apply (staged_nomem [_]). }
  specialize (Hok2 eq_refl). simpl. wp_step. eapply wp_mono; [eapply wp_apply; [exact Hok2|by rewrite Ej2, Ej]|].
  intros e t3 (Ej3 & St & Hok3). destruct St as [[-> W3]|[-> St]].
  2:{ simpl. wp_step. exists o1, o0, []. split; [|done]. eapply staged_app; [done|]. eapply (staged_app [_]); [done|].
      by apply staged_nomem. }
  specialize (Hok3 eq_refl). simpl. wp_step. unfold erase_journal. wp_step. unfold get_j. wp_step. wp_step.
  unfold put_j. wp_step. eapply wp_mono; [eapply (wp_write_header []); [exact Hok3|by intros c ?%elem_of_nil]|].
  intros e t4 (Ej4 & o0' & St & Hok4). simpl in Ej4, St.
  assert (Hst : staged e (plan jmap D.*2 o1 o0 o0') (js_b t) (js_b t4)).
  { eapply staged_app; [done|]. eapply (staged_app [_]); [done|]. by eapply staged_app. }
  assert (e = ERR_OK \/ e = ERR_NOMEM) as [->| ->] by (destruct St as [[-> _]|[-> _]]; auto).
  - simpl. wp_step. exists o1, o0, o0'. split; [done|]. intros _. split; [by apply Hok4|]. rewrite Ej4. simpl.
    by rewrite Ej3, Ej2, Ej.
  - simpl. wp_step. exists o1, o0, o0'. by split.
Qed.
End commit.

(** ** Logging a block *)

(** The search of jbd_write_blk. *)
Lemma wp_log_search D (t : jstate) h b (Q : option unit -> jstate -> Prop) :
  b_bh (js_b t) !! h = Some b -> Forall (holds (js_b t)) D -> bh_blk b ∉ D.*2.*1 -> jblks (js_j t) D -> Q None t ->
  wp (for_ret (Z.to_nat (j_next_index (js_j t))) 0 (fun i =>
        d <- deref (j_datablks (js_j t) !! Z.to_nat i);; x <- blk_of d;; y <- blk_of h;;
        if x =? y then ret (Some tt) else ret None)) Q t.
Proof using Type.
  intros Hb HD Hnew [Hn J] HQ. apply wp_for_ret with (I := fun _ t' => t' = t); [done| |by intros ? ->].
  intros k t' Hk ->. rewrite Hn, Nat2Z.id in Hk.
  destruct (lookup_lt_is_Some_2 D (Z.to_nat k)) as [x Hx]; [lia|].
  wp_step. eapply wp_deref; [apply J, Hx|]. rewrite Forall_forall in HD.
  pose proof (list_elem_of_lookup_2 _ _ _ Hx) as Hin. destruct (HD _ Hin) as (c & Hc & Ec & _).
  unfold blk_of. wp_step. wp_step. apply wp_on_b. eapply wp_get_bh; [done|]. wp_step. wp_step. wp_step.
  apply wp_on_b. eapply wp_get_bh; [done|]. wp_step. destruct (Z.eqb_spec (bh_blk c) (bh_blk b)) as [E|E].
  - destruct Hnew. rewrite <- E, Ec. by do 2 apply list_elem_of_fmap_2.
  - wp_step. by destruct t.
Qed.

Lemma wp_log_blk D (t : jstate) blk h v b :
  opened blk h v D (js_b t) -> b_bh (js_b t) !! h = Some b -> bh_ref b < 2 ^ 32 - 1 ->
  jblks (js_j t) D -> j_enabled (js_j t) = true -> j_state (js_j t) = BUSY ->
  (length D < 128)%nat -> length (j_datablks (js_j t)) = 128%nat ->
  wp (jbd_write_blk h;; on_b (bdev_release_blk bhc h)) (fun _ t' => wrote [] (js_b t) (js_b t') /\
    JG (D ++ [(h, (blk, v))]) (js_b t') /\ jblks (js_j t') (D ++ [(h, (blk, v))]) /\
    j_enabled (js_j t') = true /\ j_state (js_j t') = BUSY /\ length (j_datablks (js_j t')) = 128%nat) t.
Proof using Hsz Hcc.
  intros [(m & H & B) Hpc (b' & Hb' & Eb & Hr & Hlo & Ho) Hfr HD Hne] Hb Href J He Hs Hlen H128.
  rewrite Hb in Hb'. injection Hb' as <-. pose proof J as [Hn HJ].
  assert (Hnew : bh_blk b ∉ D.*2.*1).
  { intros (y & E & (x & -> & Hx)%list_elem_of_fmap)%list_elem_of_fmap. apply Hne. rewrite Forall_forall in HD.
    destruct (HD _ Hx) as (c & Hc & Ec & _).
    rewrite (header_unique _ _ NULL m H (js_b t) h b x.1 c B Hb Hc) by congruence. by apply list_elem_of_fmap_2. }
  wp_step. unfold jbd_write_blk. wp_step. unfold get_j. wp_step. rewrite He. simpl negb. cbn match. wp_step.
  wp_step; [by rewrite Hs|]. wp_step. eapply wp_log_search; [done|done|done|done|].
  rewrite (proj2 (Z.leb_gt JOURNAL_SIZE (j_next_index (js_j t)))) by (rewrite Hn; change JOURNAL_SIZE with 128; lia).
  destruct (header_data _ _ _ _ _ _ _ _ B Hb) as (_ & (i & k & Hm & _ & _ & _ & Hval & _) & _).
  wp_step. apply wp_on_b. eapply wp_get_bh; [done|]. wp_step. apply wp_on_b. eapply wp_lock_page; [exact B|exact Hm|].
  intros pg Hpg s1 B1 Hpl. wp_step. apply wp_on_b. eapply wp_upd_bh; [exact Hb|]. rewrite (wrapu_small 32) by lia.
  wp_step. apply wp_on_b. set (b1 := set_bh_ref (bh_ref b + 1) b). set (s2 := set_bh _ _).
  assert (B2 : BI (bh_page b) m H s2) by (eapply binv_upd_bh; [exact B1|exact Hb|done|done|simpl; lia|done]).
  eapply wp_unlock_page; [exact B2|exact Hm| |].
  { simpl. rewrite lookup_insert_eq. by intros pg' [= <-]. }
  intros pg' _ s3 B3. unfold put_j. wp_step. apply wp_on_b.
  assert (Hb3 : b_bh s3 !! h = Some b1) by (simpl; by rewrite lookup_insert_eq).
  eapply wp_mono; [apply (wp_release_blk bioc bhc Hsz Hcc m H s3 h b1 B3 Hb3); [simpl; lia|done]|]. intros [] s4 (B4 & L).
  split; [apply wrote_refl, L|]. split; [split|split; [split|]].
  - by exists m, H.
  - pose proof (rl_io _ _ _ _ L) as E. injection E as _ _ E. cbn [js_b]. by rewrite E.
  - intros g c Hg. pose proof (rl_back _ _ _ _ L _ _ Hg) as Hc. case_decide as E.
    + subst c. split; [done|]. simpl. lia.
    + simpl in Hc. rewrite lookup_insert_ne in Hc by done. by apply (Hfr g).
  - apply Forall_app. split.
    + eapply holds_mono; [|exact HD]. intros g c Hg Hc Hrc. assert (g <> h) by (by intros ->). split.
      * apply (rl_keep _ _ _ _ L); [simpl; by rewrite lookup_insert_ne|done|lia].
      * unfold content. cbn [js_b]. by rewrite (rl_data _ _ _ _ L).
    + constructor; [|done]. eexists. split; [apply (rl_self _ _ _ _ L); simpl; lia|]. split; [exact Eb|].
      split; [simpl; lia|]. unfold content in *. cbn [js_b]. by rewrite (rl_data _ _ _ _ L).
  - simpl. rewrite Hn, length_app. simpl. lia.
  - intros q x. simpl. rewrite Hn, Nat2Z.id. intros [Hq|[Hq Hx]]%lookup_app_Some.
    + rewrite list_lookup_insert_ne; [by apply HJ|]. apply lookup_lt_Some in Hq. lia.
    + apply list_lookup_singleton_Some in Hx as [E <-]. replace q with (length D) by lia.
      apply list_lookup_insert_eq. lia.
  - simpl. rewrite length_insert. done.
Qed.
End spec.
