(* ===== verification/JbdClaims.v ===== *)
(** * Journaling: the claims

    The specifications of jbd.c, with a concrete journal that shows that their
    hypotheses hold, and two runs that show what the code does when memory
    runs out or the journal is full. *)

From stdpp Require Import prelude list gmap.
From Stdlib Require Import ZArith Lia.
From S2P Require Import Prelude Mmu Bits DList ObjAlloc PageAlloc RadixTree RadixTreeSpec RadixTreeClaims VpmapClaims Bdev BdevSpec.
From S2P Require Import BdevSpec BdevClaims Jbd JbdCrash JbdSpec.

(** ** Placement of the journal *)

(** sfs_journal_bmap places the journal blocks one after the other. *)
Lemma sfs_bmap_range j : 0 <= j -> j + 130 <= 2 ^ 23 -> forall i, 0 <= i < 130 -> 0 <= sfs_journal_bmap j i < 2 ^ 23.
Proof. intros. unfold sfs_journal_bmap. rewrite (wrapu_small 32) by lia. lia. Qed.
Lemma sfs_bmap_inj j : 0 <= j -> j + 130 <= 2 ^ 23 ->
  forall i k, 0 <= i < 130 -> 0 <= k < 130 -> sfs_journal_bmap j i = sfs_journal_bmap j k -> i = k.
Proof. intros ?? i k ??. unfold sfs_journal_bmap. rewrite !(wrapu_small 32) by lia. lia. Qed.

(** ** A journal for the witnesses *)

Abbreviation demo_jst := (jst pool bump bump).
Abbreviation demo_map := (sfs_journal_bmap 100).

(** A transaction that fetches block 19 to log it. *)
Definition demo_open : M demo_jst Z := jbd_begin_txn;; on_b demo_fetch.
Definition demo_start : demo_jst := mkJS demo_cache jbd_alloc_journal.

Lemma demo_opened : exists h s v, demo_open demo_start = Done (h, mkJS s (mkJ false true BUSY 0 (replicate 128 NULL))) /\
  wrote [] demo_cache s /\ opened 1 2 19 h v [] s /\ exists b, b_bh s !! h = Some b /\ bh_ref b = 1.
Proof.
  assert (G : JG 1 2 [] demo_cache).
  { split; [exists ∅, ∅; exact demo_binv|done| |done]. intros g b E. simpl in E. by rewrite lookup_empty in E. }
  destruct (wp_elim _ _ _ (wp_open 1 2 0 bump_size ltac:(done) 19 [] demo_cache G ltac:(done) ltac:(by intros ?%elem_of_nil)))
    as (h & s & Hrun & W & [->|(Hh & v & Op)]).
  - pose proof demo_header as E. unfold demo_fetch in E. rewrite Hrun in E. discriminate E.
  - exists h, s, v. split; [unfold demo_open, on_b, zoom, bind; simpl; unfold demo_fetch; rewrite Hrun; reflexivity|].
    split; [exact W|]. split; [exact Op|]. destruct (op_hd _ _ _ _ _ _ _ Op) as (b & Hb & _). exists b. split; [exact Hb|].
    assert (E : (match demo_fetch demo_cache with Done (h, s) => bh_ref <$> b_bh s !! h | Stop _ => None end) = Some 1)
      by (vm_compute; reflexivity).
    unfold demo_fetch in E. rewrite Hrun in E. cbv beta iota in E. rewrite Hb in E. injection E as E. exact E.
Qed.

(** ([jbd_write_blk]): in an open transaction that holds the blocks [D]
    (fewer than 128), logging a fetched block that is not among them and
    releasing it adds exactly that block with its contents to the
    transaction; the block stays referenced in the cache and the device is not
    written. *)
Theorem jbd_write_blk_spec {P R O} `{!PageAlloc P, !ObjAlloc R, !ObjAlloc O} bioc bhc D (t : jst P R O) blk h v b :
  oa_size_ok (St := R) SIZEOF_RADIX_NODE -> bioc <> bhc ->
  opened bioc bhc blk h v D (js_b t) -> b_bh (js_b t) !! h = Some b -> bh_ref b < 2 ^ 32 - 1 ->
  jblks (js_j t) D -> j_enabled (js_j t) = true -> j_state (js_j t) = BUSY ->
  (length D < 128)%nat -> length (j_datablks (js_j t)) = 128%nat ->
  wp (jbd_write_blk h;; on_b (bdev_release_blk bhc h)) (fun _ t' => wrote [] (js_b t) (js_b t') /\
    JG bioc bhc (D ++ [(h, (blk, v))]) (js_b t') /\ jblks (js_j t') (D ++ [(h, (blk, v))]) /\
    j_enabled (js_j t') = true /\ j_state (js_j t') = BUSY /\ length (j_datablks (js_j t')) = 128%nat) t.
Proof. intros. by eapply wp_log_blk. Qed.

Lemma jbd_write_blk_spec_witness : exists h t v, demo_open demo_start = Done (h, t) /\
  wp (jbd_write_blk h;; on_b (bdev_release_blk 2 h)) (fun _ t' => JG 1 2 [(h, (19, v))] (js_b t') /\
    jblks (js_j t') [(h, (19, v))]) t.
Proof.
  destruct demo_opened as (h & s & v & Hrun & W0 & Op & b & Hb & Hr).
  set (t := mkJS s (mkJ false true BUSY 0 (replicate 128 NULL))) in *. exists h, t, v. split; [exact Hrun|].
  eapply wp_mono; [apply (jbd_write_blk_spec 1 2 [] t 19 h v b bump_size ltac:(done) Op Hb)|].
  - rewrite Hr. done.
  - split; [done|]. by intros k x.
  - done.
  - done.
  - simpl. lia.
  - done.
  - intros [] t' (_ & G & J & _). by split.
Defined.

(** ** The commit *)

(** C4 ([commit_journal]): a commit of between 1 and 127 logged blocks onto a
    disk with an empty journal returns ERR_OK or ERR_NOMEM.  It is atomic:
    whatever prefix of its writes reached the disk, replaying the journal
    gives, on all blocks outside the journal at once, the contents before the
    transaction or those after it.  With ERR_OK the disk holds the new
    contents and an empty journal, and the transaction is empty. *)
Theorem commit_journal_atomic {P R O} `{!PageAlloc P, !ObjAlloc R, !ObjAlloc O} bioc bhc junk jmap D (t : jst P R O) :
  oa_size_ok (St := R) SIZEOF_RADIX_NODE -> bioc <> bhc ->
  (forall i, 0 <= i < 130 -> 0 <= jmap i < 2 ^ 23) ->
  (forall i j, 0 <= i < 130 -> 0 <= j < 130 -> jmap i = jmap j -> i = j) ->
  tx_ok jmap D.*2 -> JG bioc bhc D (js_b t) -> jblks (js_j t) D -> idle jmap (b_disk (js_b t)) ->
  let d := b_disk (js_b t) in
  wp (commit_journal bioc bhc junk jmap) (fun e t' => exists ws, wrote ws (js_b t) (js_b t') /\
    (forall ws', ws' `prefix_of` ws ->
       let d' := recover jmap (apply_writes ws' d) in
       (forall b, ~ in_journal jmap b -> disk_blk d' b = disk_blk d b) \/
       (forall b, ~ in_journal jmap b -> disk_blk d' b = new_blk D.*2 d b)) /\
    ((e = ERR_NOMEM) \/
     (e = ERR_OK /\ JG bioc bhc [] (js_b t') /\ jblks (js_j t') [] /\ idle jmap (b_disk (js_b t')) /\
      forall b, ~ in_journal jmap b -> disk_blk (b_disk (js_b t')) b = new_blk D.*2 d b))) t.
Proof.
  intros Hsz Hcc Hr Hi T G J Hid d. eapply wp_mono; [by apply (wp_commit bioc bhc junk jmap Hsz Hcc Hr D T)|].
  intros e t' (o1 & o0 & o0' & St & Hok). destruct St as [[-> W]|(-> & ws & Hp & W)].
  - exists (plan jmap D.*2 o1 o0 o0'). split; [done|]. split.
    + intros ws' Hp. by eapply crash_atomic.
    + right. destruct (Hok eq_refl) as [G' Ej]. do 2 (split; [done|]). split; [rewrite Ej; by split|].
      rewrite (proj2 W). by apply plan_done.
  - exists ws. split; [done|]. split; [|by left]. intros ws' Hp'. eapply crash_atomic; [done|done|done|].
    by transitivity ws.
Qed.

Lemma demo_tx v : tx_ok demo_map [(19, v)].
Proof.
  split; simpl.
  - lia.
  - apply NoDup_singleton.
  - by repeat constructor.
  - intros b ->%list_elem_of_singleton (i & Hi & E). unfold sfs_journal_bmap in E. rewrite (wrapu_small 32) in E by lia. lia.
Qed.

Lemma commit_journal_atomic_witness : exists h t v, demo_open demo_start = Done (h, t) /\
  wp (jbd_write_blk h;; on_b (bdev_release_blk 2 h);; commit_journal 1 2 0 demo_map)
     (fun e t' => e = ERR_NOMEM \/
        (e = ERR_OK /\ forall b, ~ in_journal demo_map b -> disk_blk (b_disk (js_b t')) b = new_blk [(19, v)] (b_disk (js_b t)) b)) t.
Proof.
  destruct demo_opened as (h & s & v & Hrun & W0 & Op & b & Hb & Hr).
  set (t := mkJS s (mkJ false true BUSY 0 (replicate 128 NULL))) in *. exists h, t, v. split; [exact Hrun|].
  assert (J0 : jblks (js_j t) []) by (split; [done|by intros k x]).
  destruct (wp_elim _ _ _ (wp_log_blk 1 2 bump_size ltac:(done) [] t 19 h v b Op Hb ltac:(rewrite Hr; done)
    J0 eq_refl eq_refl ltac:(simpl; lia) eq_refl))
    as (x & t1 & Hlog & W & G & J & _). apply bind_inv in Hlog as (y & t0 & H1 & H2).
  apply wp_bind. eapply wp_intro; [exact H1|]. apply wp_bind. eapply wp_intro; [exact H2|].
  assert (Hid : idle demo_map (b_disk (js_b t1))).
  { rewrite (proj2 W). simpl. rewrite (proj2 W0). vm_compute. reflexivity. }
  eapply wp_mono; [apply (commit_journal_atomic 1 2 0 demo_map [(h, (19, v))] t1 bump_size ltac:(done)
    (sfs_bmap_range 100 ltac:(done) ltac:(done)) (sfs_bmap_inj 100 ltac:(done) ltac:(done)) (demo_tx v) G J Hid)|].
  intros e t' (ws & _ & _ & [->|(-> & _ & _ & _ & Hd)]); [by left|right]. split; [done|].
  intros c Hc. rewrite (Hd c Hc), (proj2 W). reflexivity.
Defined.

(** ** When memory runs out, and when the journal is full *)

(** An object allocator whose [n]-th allocation fails when the [n]-th element
    of [fk_plan] is false. *)
Record flaky := mkFlaky { fk_bump : bump; fk_plan : list bool }.
Definition flaky_next (b : bump) (s : flaky) : flaky := mkFlaky b (tail (fk_plan s)).

#[export] Program Instance flaky_objalloc : ObjAlloc flaky := {|
  oa_create size := zoom fk_bump (fun b s => mkFlaky b (fk_plan s)) (oa_create size);
  oa_alloc c := fun s => if default true (head (fk_plan s)) then zoom fk_bump flaky_next (oa_alloc c) s
                         else Done (NULL, flaky_next (fk_bump s) s);
  oa_free c p := zoom fk_bump (fun b s => mkFlaky b (fk_plan s)) (oa_free c p);
  oa_size_ok := oa_size_ok (St := bump);
  oa_live s := oa_live (fk_bump s)
|}.
Next Obligation. intros s L size HL Hs. apply wp_zoom. by apply oa_create_spec. Qed.
Next Obligation.
  intros s L c X HL HX. destruct (default true (head (fk_plan s))) eqn:E.
  - destruct (wp_elim _ _ _ (oa_alloc_spec _ _ _ _ HL HX)) as (p & b & Hrun & HQ).
    eapply wp_intro; [rewrite E; by apply zoom_done|]. exact HQ.
  - eapply wp_intro; [by rewrite E|]. by left.
Qed.
Next Obligation. intros s L c X p HL HX Hp. apply wp_zoom. by eapply oa_free_spec. Qed.

Definition flaky_start (plan : list bool) : jst pool bump flaky :=
  mkJS (mkB new_tree false ∅ ∅ ∅ ∅ [] (mkPool demo_frames ∅) (mkFlaky (mkBump 3 {[1 := ∅; 2 := ∅]}) plan))
       jbd_alloc_journal.

(** A transaction that logs block 19 and commits. *)
Definition demo_txn : M (jst pool bump flaky) Z :=
  jbd_begin_txn;;
  bh <- on_b (bdev_get_blk 1 2 0 19);;
  jbd_write_blk bh;;
  on_b (bdev_release_blk 2 bh);;
  commit_journal 1 2 0 demo_map.

(** The commit of a transaction returns ERR_NOMEM when the bio for the first
    journal block cannot be allocated (the 19th allocation: two bios and the
    headers of two pages come before), and then keeps the lock of that block:
    the retry of jbd_end_txn waits for a lock its own thread holds, although
    memory is available again. *)
Theorem commit_retry_deadlocks :
  value_of (demo_txn (flaky_start (replicate 18 true ++ [false]))) = Some ERR_NOMEM /\
  (demo_txn;; commit_journal 1 2 0 demo_map) (flaky_start (replicate 18 true ++ [false])) = Stop Diverge /\
  value_of (demo_txn (flaky_start [])) = Some ERR_OK.
Proof. vm_compute. done. Qed.

(** The headers of a page are allocated one by one and kept when one of them
    fails: the next fetch of a block of that page takes the incomplete list for
    a complete one and panics. *)
Theorem partial_headers_panic :
  value_of (bdev_get_blk 1 2 0 19 (js_b (flaky_start [true; true; false]))) = Some NULL /\
  (bdev_get_blk 1 2 0 19;; bdev_get_blk 1 2 0 19) (js_b (flaky_start [true; true; false])) = Stop KPanic.
Proof. vm_compute. done. Qed.

(** A transaction may log 128 blocks, but committing them fails the kassert of
    write_journal_blks. *)
Theorem full_journal_kassert {P R O} `{!PageAlloc P, !ObjAlloc R, !ObjAlloc O} bioc bhc junk jmap (t : jst P R O) :
  j_next_index (js_j t) = JOURNAL_SIZE -> commit_journal bioc bhc junk jmap t = Stop KAssert.
Proof. intros E. unfold commit_journal, write_journal_blks, bind, get_j, gets. rewrite E. reflexivity. Qed.
