(* ===== verification/Blocks.v ===== *)
(** * The block interface of the file system

    What kernel/fs/sfs/sfs.c relies on when it uses the block cache (bdev.c)
    and the journal (jbd.c).  [blk_rep s D L U J]: in state [s] the cached
    contents of block [b] are [D b]; the headers of [L] are locked by the
    caller, each with its block; the headers of [U] are pinned (referenced
    without the lock), the last one first; the blocks of [J] are logged in the
    open transaction; [m] says that memory for fetches does not run out.  A block
    that is pinned can be fetched without memory,
    which the comments of sfs.c rely on; a transaction takes at most
    [blk_capacity] blocks, beyond which jbd_write_blk panics.  A transaction
    starts empty and its end commits what was logged, with no block locked by
    the caller.

    The laws state what sfs.c relies on and are not proved of the models of
    bdev.c and jbd.c (Bdev.v and Jbd.v have theorems of their own); the instance
    below keeps the blocks in memory.  The interface does not say when a
    transaction is open: jbd_write_blk asserts that one is, jbd_begin_txn waits
    for the end of another, and neither is checked here.  A fetch that fails
    leaves everything as it was, where bdev.c can leave headers of the page
    behind. *)

From stdpp Require Import prelude list gmap.
From Stdlib Require Import ZArith Lia.
From S2P Require Import Prelude DList.

Definition BLK_SIZE : Z := 512.
Definition blk_capacity : nat := 127.

(** Replace the contents of one block. *)
Definition upd_blk (D : Z -> list Z) (b : Z) (v : list Z) : Z -> list Z := fun x => if x =? b then v else D x.

Class Blocks (B : Type) := {
  bdev_get : Z -> M B Z;
  bdev_get_unlocked : Z -> M B Z;
  bdev_release : Z -> M B unit;
  bdev_release_unlocked : Z -> M B unit;
  blk_load : Z -> M B (list Z);
  blk_store : Z -> list Z -> M B unit;
  blk_set_dirty : Z -> bool -> M B unit;
  blk_log : Z -> M B unit;
  txn_begin : M B unit;
  txn_end : M B unit;
  blk_rep : bool -> B -> (Z -> list Z) -> gmap Z Z -> list (Z * Z) -> gset Z -> Prop;
  blk_rep_bytes m s D L U J b : blk_rep m s D L U J -> length (D b) = 512%nat /\ Forall (fun x => 0 <= x < 256) (D b);
  bdev_get_spec m s D L U J b : blk_rep m s D L U J -> 0 <= b < 2 ^ 23 -> (forall h, L !! h <> Some b) ->
    wp (bdev_get b) (fun h s' =>
      (h = NULL /\ m = false /\ (b ∉ U.*2) /\ blk_rep m s' D L U J) \/
      (h <> NULL /\ L !! h = None /\ blk_rep m s' D (<[h := b]> L) U J)) s;
  bdev_get_unlocked_spec m s D L U J b : blk_rep m s D L U J -> 0 <= b < 2 ^ 23 ->
    wp (bdev_get_unlocked b) (fun h s' =>
      (h = NULL /\ m = false /\ (b ∉ U.*2) /\ blk_rep m s' D L U J) \/
      (h <> NULL /\ blk_rep m s' D L ((h, b) :: U) J)) s;
  bdev_release_spec m s D L U J h b : blk_rep m s D L U J -> L !! h = Some b ->
    wp (bdev_release h) (fun _ s' => blk_rep m s' D (delete h L) U J) s;
  bdev_release_unlocked_spec m s D L U J h b : blk_rep m s D L ((h, b) :: U) J ->
    wp (bdev_release_unlocked h) (fun _ s' => blk_rep m s' D L U J) s;
  blk_load_spec m s D L U J h b : blk_rep m s D L U J -> L !! h = Some b ->
    wp (blk_load h) (fun v s' => v = D b /\ s' = s) s;
  blk_store_spec m s D L U J h b v : blk_rep m s D L U J -> L !! h = Some b ->
    length v = 512%nat -> Forall (fun x => 0 <= x < 256) v ->
    wp (blk_store h v) (fun _ s' => blk_rep m s' (upd_blk D b v) L U J) s;
  blk_set_dirty_spec m s D L U J h b d : blk_rep m s D L U J -> L !! h = Some b ->
    wp (blk_set_dirty h d) (fun _ s' => blk_rep m s' D L U J) s;
  blk_log_spec m s D L U J h b : blk_rep m s D L U J -> L !! h = Some b -> (size ({[b]} ∪ J) <= blk_capacity)%nat ->
    wp (blk_log h) (fun _ s' => blk_rep m s' D L U ({[b]} ∪ J)) s;
  txn_begin_spec m s D L U : blk_rep m s D L U ∅ -> wp txn_begin (fun _ s' => blk_rep m s' D L U ∅) s;
  txn_end_spec s D U J : blk_rep true s D ∅ U J -> wp txn_end (fun _ s' => blk_rep true s' D ∅ U ∅) s
}.

(** ** Blocks in memory: an implementation of the interface

    The header of block [b] is [b + 1]; [ms_oracle] says which fetches of
    blocks that are not pinned find memory. *)

Record mstore := mkMs {
  ms_data : gmap Z (list Z);
  ms_locked : gset Z;
  ms_pins : list (Z * Z);
  ms_log : gset Z;
  ms_oracle : list bool
}.

Definition ms_blk (s : mstore) (b : Z) : list Z := default (replicate 512 0) (ms_data s !! b).

(** Whether the fetch of [b] finds memory, and the rest of the oracle. *)
Definition ms_ask (b : Z) (s : mstore) : bool * list bool :=
  if bool_decide (b ∈ (ms_pins s).*2) then (true, ms_oracle s)
  else match ms_oracle s with [] => (true, []) | x :: l => (x, l) end.

Definition ms_get (b : Z) : M mstore Z :=
  s <- gets (fun s => s);;
  let '(x, l) := ms_ask b s in
  if negb x then modify (fun s => mkMs (ms_data s) (ms_locked s) (ms_pins s) (ms_log s) l);; ret NULL
  else if bool_decide (b ∈ ms_locked s) then stop Diverge
  else modify (fun s => mkMs (ms_data s) ({[b]} ∪ ms_locked s) (ms_pins s) (ms_log s) l);; ret (b + 1).

Definition ms_get_unlocked (b : Z) : M mstore Z :=
  s <- gets (fun s => s);;
  let '(x, l) := ms_ask b s in
  if negb x then modify (fun s => mkMs (ms_data s) (ms_locked s) (ms_pins s) (ms_log s) l);; ret NULL
  else modify (fun s => mkMs (ms_data s) (ms_locked s) ((b + 1, b) :: ms_pins s) (ms_log s) l);; ret (b + 1).

Definition ms_check (h : Z) : M mstore unit :=
  s <- gets (fun s => s);; if bool_decide (h - 1 ∈ ms_locked s) then ret tt else stop BadAccess.

Definition ms_release (h : Z) : M mstore unit :=
  ms_check h;;
  modify (fun s => mkMs (ms_data s) (ms_locked s ∖ {[h - 1]}) (ms_pins s) (ms_log s) (ms_oracle s)).
Definition ms_release_unlocked (h : Z) : M mstore unit :=
  s <- gets (fun s => s);;
  match ms_pins s with
  | (h', _) :: pins => if h =? h' then modify (fun s => mkMs (ms_data s) (ms_locked s) pins (ms_log s) (ms_oracle s)) else stop BadAccess
  | [] => stop BadAccess
  end.
Definition ms_load (h : Z) : M mstore (list Z) := ms_check h;; gets (fun s => ms_blk s (h - 1)).
Definition ms_store (h : Z) (v : list Z) : M mstore unit :=
  ms_check h;;
  modify (fun s => mkMs (<[h - 1 := v]> (ms_data s)) (ms_locked s) (ms_pins s) (ms_log s) (ms_oracle s)).
Definition ms_log_blk (h : Z) : M mstore unit :=
  ms_check h;;
  s <- gets (fun s => s);;
  if Nat.leb (size ({[h - 1]} ∪ ms_log s)) blk_capacity
  then modify (fun s => mkMs (ms_data s) (ms_locked s) (ms_pins s) ({[h - 1]} ∪ ms_log s) (ms_oracle s))
  else panic.

Definition ms_begin : M mstore unit := ret tt.
Definition ms_end : M mstore unit :=
  s <- gets (fun s => s);;
  if bool_decide (ms_locked s = ∅) then modify (fun s => mkMs (ms_data s) (ms_locked s) (ms_pins s) ∅ (ms_oracle s)) else stop Diverge.

Definition is_block (v : list Z) : Prop := length v = 512%nat /\ Forall (fun x => 0 <= x < 256) v.

Record ms_rep (m : bool) (s : mstore) (D : Z -> list Z) (L : gmap Z Z) (U : list (Z * Z)) (J : gset Z) : Prop := {
  mr_data : forall b, D b = ms_blk s b;
  mr_bytes : forall b v, ms_data s !! b = Some v -> is_block v;
  mr_locks : forall h b, L !! h = Some b <-> h = b + 1 /\ b ∈ ms_locked s;
  mr_pins : U = ms_pins s;
  mr_hdrs : forall h b, (h, b) ∈ U -> h = b + 1;
  mr_log : J = ms_log s;
  mr_mem : m = true -> ms_oracle s = []
}.

Lemma ms_ask_spec m s D L U J b : ms_rep m s D L U J ->
  (ms_ask b s).1 = true \/ (m = false /\ b ∉ U.*2).
Proof.
  intros [_ _ _ -> _ _ Hm]. unfold ms_ask. case_bool_decide as E; [by left|].
  destruct (ms_oracle s) as [|x l] eqn:Eo; [by left|]. destruct m; [by specialize (Hm eq_refl)|]. by right.
Qed.

Lemma ms_ask_rest m s D L U J b : ms_rep m s D L U J -> m = true -> (ms_ask b s).2 = [].
Proof. intros R Hm. pose proof (mr_mem _ _ _ _ _ _ R Hm) as E. unfold ms_ask. rewrite E. by case_bool_decide. Qed.

Lemma ms_blk_is s b : (forall b v, ms_data s !! b = Some v -> is_block v) -> is_block (ms_blk s b).
Proof.
  intros H. unfold ms_blk. destruct (ms_data s !! b) as [v|] eqn:E; cbn [default]; [by eapply H|].
  split; [done|]. apply (Forall_replicate (fun x => 0 <= x < 256) 512 0). lia.
Qed.

Lemma wp_ms_check m s D L U J h b (Q : unit -> mstore -> Prop) : ms_rep m s D L U J -> L !! h = Some b -> Q tt s -> wp (ms_check h) Q s.
Proof.
  intros R Hh HQ. apply (mr_locks _ _ _ _ _ _ R) in Hh as [-> Hb]. unfold ms_check. wp_step. wp_step.
  replace (b + 1 - 1) with b by lia. rewrite bool_decide_true by done. by wp_step.
Qed.

#[export] Program Instance mstore_blocks : Blocks mstore := {|
  bdev_get := ms_get; bdev_get_unlocked := ms_get_unlocked; bdev_release := ms_release;
  bdev_release_unlocked := ms_release_unlocked; blk_load := ms_load; blk_store := ms_store;
  blk_set_dirty := fun h _ => ms_check h; blk_log := ms_log_blk; txn_begin := ms_begin; txn_end := ms_end; blk_rep := ms_rep
|}.
Next Obligation. intros m s D L U J b R. rewrite (mr_data _ _ _ _ _ _ R). apply ms_blk_is. by apply R. Qed.
Next Obligation.
  intros m s D L U J b R Hb HL. pose proof (ms_ask_spec _ _ _ _ _ _ b R) as Ha. pose proof (ms_ask_rest _ _ _ _ _ _ b R) as Hr.
  unfold ms_get. wp_step. wp_step. destruct (ms_ask b s) as [x l]. simpl in *. destruct x; cbn [negb].
  - rewrite bool_decide_false.
    + wp_step. wp_step. wp_step. right. assert (HLn : L !! (b + 1) = None).
      { destruct (L !! (b + 1)) as [c|] eqn:E; [|done]. pose proof E as [Ec _]%(mr_locks _ _ _ _ _ _ R).
        assert (c = b) as -> by lia. by destruct (HL (b + 1)). }
      unfold NULL. split; [lia|]. split; [done|]. destruct R. split; try done. intros h c. rewrite lookup_insert.
      case_decide as E; simpl; rewrite ?elem_of_union, ?elem_of_singleton, ?mr_locks0; naive_solver lia.
    + intros Hin. apply (HL (b + 1)). by apply (mr_locks _ _ _ _ _ _ R).
  - wp_step. wp_step. wp_step. left. destruct Ha as [|[-> Hu]]; [done|]. do 3 (split; [done|]). by destruct R.
Qed.
Next Obligation.
  intros m s D L U J b R Hb. pose proof (ms_ask_spec _ _ _ _ _ _ b R) as Ha. pose proof (ms_ask_rest _ _ _ _ _ _ b R) as Hr.
  unfold ms_get_unlocked. wp_step. wp_step. destruct (ms_ask b s) as [x l]. simpl in *. destruct x; cbn [negb].
  - wp_step. wp_step. wp_step. right. unfold NULL. split; [lia|]. destruct R. subst U. split; try done.
    intros h c. rewrite elem_of_cons. intros [[= -> ->]|Hin]; [done|by apply mr_hdrs0].
  - wp_step. wp_step. wp_step. left. destruct Ha as [|[-> Hu]]; [done|]. do 3 (split; [done|]). by destruct R.
Qed.
Next Obligation.
  intros m s D L U J h b R Hh. unfold ms_release. wp_step. eapply wp_ms_check; [done..|]. wp_step.
  pose proof Hh as [-> Hb]%(mr_locks _ _ _ _ _ _ R). replace (b + 1 - 1) with b by lia. destruct R. split; try done.
  intros h c. rewrite lookup_delete. case_decide as E; simpl; rewrite ?elem_of_difference, ?elem_of_singleton, ?mr_locks0; naive_solver lia.
Qed.
Next Obligation.
  intros m s D L U J h b R. unfold ms_release_unlocked. wp_step. wp_step. pose proof (mr_pins _ _ _ _ _ _ R) as Hp. rewrite <- Hp.
  rewrite Z.eqb_refl. wp_step. destruct R. split; try done. intros g c Hg. apply mr_hdrs0. set_solver.
Qed.
Next Obligation.
  intros m s D L U J h b R Hh. unfold ms_load. wp_step. eapply wp_ms_check; [done..|]. wp_step.
  pose proof Hh as [-> Hb]%(mr_locks _ _ _ _ _ _ R). replace (b + 1 - 1) with b by lia. by rewrite (mr_data _ _ _ _ _ _ R).
Qed.
Next Obligation.
  intros m s D L U J h b v R Hh Hl Hv. unfold ms_store. wp_step. eapply wp_ms_check; [done..|]. wp_step.
  pose proof Hh as [-> Hb]%(mr_locks _ _ _ _ _ _ R). replace (b + 1 - 1) with b by lia. destruct R. split; try done.
  - intros c. unfold upd_blk, ms_blk. simpl. rewrite lookup_insert. destruct (Z.eqb_spec c b) as [->|Hne].
    + by rewrite decide_True.
    + rewrite decide_False by done. apply mr_data0.
  - intros c w. simpl. rewrite lookup_insert. case_decide; [intros [= <-]; by split|apply mr_bytes0].
Qed.
Next Obligation. intros m s D L U J h b d R Hh. by eapply wp_ms_check. Qed.
Next Obligation.
  intros m s D L U J h b R Hh Hsz. unfold ms_log_blk. wp_step. eapply wp_ms_check; [done..|]. wp_step. wp_step.
  pose proof Hh as [-> Hb]%(mr_locks _ _ _ _ _ _ R). replace (b + 1 - 1) with b by lia. rewrite <- (mr_log _ _ _ _ _ _ R).
  rewrite (proj2 (Nat.leb_le _ _) Hsz). wp_step. destruct R. split; try done. simpl. by rewrite mr_log0.
Qed.
Next Obligation. intros m s D L U R. by apply wp_ret. Qed.
Next Obligation.
  intros s D U J R. unfold ms_end. wp_step. wp_step. rewrite bool_decide_true.
  - wp_step. destruct R. by split.
  - apply set_eq. intros b. split; [|by intros ?%not_elem_of_empty]. intros Hb. exfalso.
    assert (H : (∅ : gmap Z Z) !! (b + 1) = Some b) by (by apply (mr_locks _ _ _ _ _ _ R)). by rewrite lookup_empty in H.
Qed.
