(* ===== verification/Sfs.v ===== *)
(** * The simple file system: disk structures, allocation and file data
      (kernel/fs/sfs/sfs.c)

    The state is the table of in-memory inodes, by address, and the block
    cache with its journal, used through the interface of Blocks.v.  An
    in-memory inode carries the block addresses of its sfs_inode_info.  The
    super block is constant after it is mounted. *)

From stdpp Require Import prelude list gmap.
From Stdlib Require Import ZArith Lia.
From S2P Require Import Prelude DList Blocks.

Definition BDEV_BLK_SIZE : Z := BLK_SIZE.
Definition SFS_INODE_BMAP_BLK : Z := 3.
Definition SFS_INODE_TABLE_BLK : Z := 4.
Definition SFS_ROOT_INUM : Z := 1.
Definition SFS_NDIRECT : Z := 12.
Definition SFS_NINDIRECT : Z := 2.
Definition SIZEOF_SFS_INODE : Z := 64.
Definition SIZEOF_SFS_DIRENT : Z := 32.
Definition SFS_DIRENT_NAMELEN : Z := 28.
Definition SFS_MAX_FILE_SIZE : Z := (SFS_NDIRECT + SFS_NINDIRECT * (BDEV_BLK_SIZE / 4)) * BDEV_BLK_SIZE.
Definition FTYPE_DIR : Z := 1.
Definition FTYPE_FILE : Z := 2.

Record sfs_sb_info := mkSb {
  s_size : Z;
  s_num_inodes : Z;
  s_data_bmap_start : Z;
  s_journal_start : Z;
  s_data_start : Z
}.

(** [i_valid] and [i_dirty] are the bits INODE_VALID and INODE_DIRTY of
    i_state. *)
Record inode := mkI {
  i_inum : Z;
  i_ref : Z;
  i_nlink : Z;
  i_ftype : Z;
  i_mode : Z;
  i_size : Z;
  i_addrs : list Z;
  i_valid : bool;
  i_dirty : bool;
  i_lock : bool
}.

Record sst (B : Type) := mkS { sf_inodes : gmap Z inode; sf_blk : B }.
Arguments mkS {B}.
Arguments sf_inodes {B}.
Arguments sf_blk {B}.

Definition set_inum (v : Z) (i : inode) : inode :=
  mkI v (i_ref i) (i_nlink i) (i_ftype i) (i_mode i) (i_size i) (i_addrs i) (i_valid i) (i_dirty i) (i_lock i).
Definition set_ref (v : Z) (i : inode) : inode :=
  mkI (i_inum i) v (i_nlink i) (i_ftype i) (i_mode i) (i_size i) (i_addrs i) (i_valid i) (i_dirty i) (i_lock i).
Definition set_nlink (v : Z) (i : inode) : inode :=
  mkI (i_inum i) (i_ref i) v (i_ftype i) (i_mode i) (i_size i) (i_addrs i) (i_valid i) (i_dirty i) (i_lock i).
Definition set_size (v : Z) (i : inode) : inode :=
  mkI (i_inum i) (i_ref i) (i_nlink i) (i_ftype i) (i_mode i) v (i_addrs i) (i_valid i) (i_dirty i) (i_lock i).
Definition set_addrs (v : list Z) (i : inode) : inode :=
  mkI (i_inum i) (i_ref i) (i_nlink i) (i_ftype i) (i_mode i) (i_size i) v (i_valid i) (i_dirty i) (i_lock i).
Definition set_valid (v : bool) (i : inode) : inode :=
  mkI (i_inum i) (i_ref i) (i_nlink i) (i_ftype i) (i_mode i) (i_size i) (i_addrs i) v (i_dirty i) (i_lock i).
Definition set_dirty (v : bool) (i : inode) : inode :=
  mkI (i_inum i) (i_ref i) (i_nlink i) (i_ftype i) (i_mode i) (i_size i) (i_addrs i) (i_valid i) v (i_lock i).
Definition set_ilock (v : bool) (i : inode) : inode :=
  mkI (i_inum i) (i_ref i) (i_nlink i) (i_ftype i) (i_mode i) (i_size i) (i_addrs i) (i_valid i) (i_dirty i) v.

(** ** Disk formats *)

Definition le16 (x : Z) : list Z := [x mod 256; x / 256 mod 256].
Definition le32 (x : Z) : list Z := [x mod 256; x / 256 mod 256; x / 65536 mod 256; x / 16777216 mod 256].
Definition of_le16 (l : list Z) : Z := match l with a :: b :: _ => a + 256 * b | _ => 0 end.
Definition of_le32 (l : list Z) : Z :=
  match l with a :: b :: c :: d :: _ => a + 256 * b + 65536 * c + 16777216 * d | _ => 0 end.

(** The bytes [v] stored at offset [ofs]. *)
Definition patch (l : list Z) (ofs : Z) (v : list Z) : list Z :=
  take (Z.to_nat ofs) l ++ v ++ drop (Z.to_nat ofs + length v) l.

(** The [i]-th 32-bit word. *)
Definition word (l : list Z) (i : Z) : Z := of_le32 (drop (Z.to_nat (4 * i)) l).

(** struct sfs_inode: the fields at their widths. *)
Definition enc_inode (ftype mode nlink size : Z) (addrs : list Z) : list Z :=
  [u8 ftype; u8 mode] ++ le16 (u16 nlink) ++ le32 (u32 size) ++ concat (map le32 (map (wrapu 32) addrs)).

Definition inum_to_blk (inum : Z) : Z := SFS_INODE_TABLE_BLK + u32 (inum - 1) / (BDEV_BLK_SIZE / SIZEOF_SFS_INODE).
Definition inum_to_ofs (inum : Z) : Z := (u32 (inum - 1) * SIZEOF_SFS_INODE) mod BDEV_BLK_SIZE.

(** strncmp(s1, s2, n) == 0 on strings whose missing bytes are the
    terminator. *)
Fixpoint strncmp0 (n : nat) (s1 s2 : list Z) : bool :=
  match n with
  | O => true
  | S n =>
      let a := default 0 (head s1) in
      let b := default 0 (head s2) in
      if negb (a =? 0) && (a =? b) then strncmp0 n (tail s1) (tail s2) else a =? b
  end.

(** The bytes strncpy(dest, src, n) stores: when the source is shorter than
    [n], one byte more than [n] (CString.v). *)
Definition strncpy_bytes (l : list Z) (n : Z) : list Z :=
  if Z.of_nat (length l) <? n then l ++ replicate (S (Z.to_nat n - length l)) 0 else take (Z.to_nat n) l.

Section ops.
Context {B : Type} `{!Blocks B}.
Context (sb : sfs_sb_info).
Abbreviation SM := (M (sst B)).

Definition on_blk {A} (m : M B A) : SM A := zoom sf_blk (fun b s => mkS (sf_inodes s) b) m.
Definition get_inode (p : Z) : SM inode := o <- gets (fun s => sf_inodes s !! p);; deref o.
Definition upd_inode (p : Z) (f : inode -> inode) : SM unit :=
  i <- get_inode p;; modify (fun s => mkS (<[p := f i]> (sf_inodes s)) (sf_blk s)).

(** Store bytes into the data of a locked block: only inside it. *)
Definition store_bytes (bh ofs : Z) (v : list Z) : SM unit :=
  d <- on_blk (blk_load bh);;
  if (0 <=? ofs) && (ofs + Z.of_nat (length v) <=? Z.of_nat (length d)) then on_blk (blk_store bh (patch d ofs v))
  else stop BadAccess.

Definition mark (bh : Z) : SM unit := on_blk (blk_set_dirty bh true);; on_blk (blk_log bh).

(** ** Bitmaps *)

Definition bmap_alloc_element (bh size : Z) : SM Z :=
  r <- for_ret (Z.to_nat size) 0 (fun byte =>
    for_ret 8 0 (fun bit =>
      d <- on_blk (blk_load bh);;
      x <- deref (d !! Z.to_nat byte);;
      let mask := u8 (Z.shiftl 1 bit) in
      if Z.land x mask =? 0 then
        store_bytes bh byte [Z.lor x mask];;
        mark bh;;
        ret (Some (byte * 8 + bit))
      else ret None));;
  ret (default (-1) r).

Definition bmap_free_element (bh index : Z) : SM unit :=
  let mask := u8 (Z.shiftl 1 (Z.rem index 8)) in
  d <- on_blk (blk_load bh);;
  x <- deref (if 0 <=? index then d !! Z.to_nat (Z.quot index 8) else None);;
  store_bytes bh (Z.quot index 8) [Z.land x (u8 (Z.lnot mask))];;
  mark bh.

(** ** Inodes on disk *)

Definition sfs_read_inode (p : Z) : SM Z :=
  i <- get_inode p;;
  kassert (negb (i_inum i =? 0));;
  kassert (negb (i_dirty i));;
  bh <- on_blk (bdev_get (inum_to_blk (i_inum i)));;
  if bh =? NULL then ret ERR_NOMEM
  else
    d <- on_blk (blk_load bh);;
    let q := drop (Z.to_nat (inum_to_ofs (i_inum i))) d in
    if Z.of_nat (length q) <? SIZEOF_SFS_INODE then stop BadAccess
    else
      upd_inode p (fun i =>
        mkI (i_inum i) (i_ref i) (of_le16 (drop 2 q)) (nth 0 q 0) (nth 1 q 0) (of_le32 (drop 4 q))
          (map (word (drop 8 q)) (seqZ 0 (SFS_NDIRECT + SFS_NINDIRECT))) true (i_dirty i) (i_lock i));;
      on_blk (bdev_release bh);;
      ret ERR_OK.

Definition sfs_write_inode (p : Z) : SM Z :=
  i <- get_inode p;;
  kassert (negb (i_inum i =? 0));;
  bh <- on_blk (bdev_get (inum_to_blk (i_inum i)));;
  if bh =? NULL then ret ERR_NOMEM
  else
    store_bytes bh (inum_to_ofs (i_inum i)) (enc_inode (i_ftype i) (i_mode i) (i_nlink i) (i_size i) (i_addrs i));;
    mark bh;;
    upd_inode p (set_dirty false);;
    on_blk (bdev_release bh);;
    ret ERR_OK.

(** The error and the inode number. *)
Definition alloc_disk_inode (ftype mode : Z) : SM (Z * Z) :=
  bmap_bh <- on_blk (bdev_get SFS_INODE_BMAP_BLK);;
  if bmap_bh =? NULL then ret (ERR_NOMEM, 0)
  else
    index <- bmap_alloc_element bmap_bh (s_num_inodes sb / 8);;
    if index =? -1 then on_blk (bdev_release bmap_bh);; ret (ERR_NORES, 0)
    else
      let inum := u32 (index + 1) in
      inode_bh <- on_blk (bdev_get (inum_to_blk inum));;
      if inode_bh =? NULL then
        bmap_free_element bmap_bh index;;
        on_blk (bdev_release bmap_bh);;
        ret (ERR_NOMEM, inum)
      else
        on_blk (bdev_release bmap_bh);;
        store_bytes inode_bh (inum_to_ofs inum) (enc_inode ftype mode 1 0 (replicate 14 0));;
        mark inode_bh;;
        on_blk (bdev_release inode_bh);;
        ret (ERR_OK, inum).

Definition free_disk_inode (inum : Z) : SM Z :=
  kassert (negb (inum =? 0));;
  bh <- on_blk (bdev_get SFS_INODE_BMAP_BLK);;
  if bh =? NULL then ret ERR_NOMEM
  else
    bmap_free_element bh (inum - 1);;
    on_blk (bdev_release bh);;
    ret ERR_OK.

(** ** Data blocks *)

(** The loop over the bitmap blocks: [bmap_blk] and [num_blks]. *)
Definition alloc_data_step (l : Z * Z) : SM ((Z * Z) + (Z * Z)) :=
  let '(bmap_blk, num_blks) := l in
  if bmap_blk <? s_journal_start sb then
    bmap_bh <- on_blk (bdev_get bmap_blk);;
    if bmap_bh =? NULL then ret (inr (ERR_NOMEM, 0))
    else
      index <- bmap_alloc_element bmap_bh (Z.min BDEV_BLK_SIZE (num_blks / 8));;
      if 0 <=? index then
        let blk := u32 (s_data_start sb + BDEV_BLK_SIZE * 8 * (bmap_blk - s_data_bmap_start sb) + index) in
        data_bh <- on_blk (bdev_get blk);;
        if data_bh =? NULL then
          bmap_free_element bmap_bh index;;
          on_blk (bdev_release bmap_bh);;
          ret (inr (ERR_NOMEM, blk))
        else
          on_blk (bdev_release bmap_bh);;
          store_bytes data_bh 0 (replicate 512 0);;
          mark data_bh;;
          on_blk (bdev_release data_bh);;
          ret (inr (ERR_OK, blk))
      else
        on_blk (bdev_release bmap_bh);;
        ret (inl (u32 (bmap_blk + 1), u64 (num_blks - BDEV_BLK_SIZE * 8)))
  else ret (inr (ERR_NORES, 0)).

Definition alloc_data_block : SM (Z * Z) :=
  loop (S (Z.to_nat (s_journal_start sb - s_data_bmap_start sb))) alloc_data_step (s_data_bmap_start sb, s_size sb).

Definition free_data_block (blk : Z) : SM Z :=
  kassert (s_data_start sb <=? blk);;
  let bmap_blk := u32 (s_data_bmap_start sb + (blk - s_data_start sb) / (BDEV_BLK_SIZE * 8)) in
  bh <- on_blk (bdev_get bmap_blk);;
  if bh =? NULL then ret ERR_NOMEM
  else
    bmap_free_element bh ((blk - s_data_start sb) mod (BDEV_BLK_SIZE * 8));;
    on_blk (bdev_release bh);;
    ret ERR_OK.

(** ACQUIRE_INODE_BH *)
Definition acquire_inode_bh (p : Z) : SM Z := i <- get_inode p;; on_blk (bdev_get_unlocked (inum_to_blk (i_inum i))).

(** The part of get_data_block for a direct block: the error and the block. *)
Definition get_direct (p blk_index : Z) (alloc : bool) : SM (Z * Z) :=
  i <- get_inode p;;
  blk <- deref (i_addrs i !! Z.to_nat blk_index);;
  if blk =? 0 then
    if negb alloc then ret (ERR_NOTEXIST, 0)
    else
      r <- alloc_data_block;;
      if negb (fst r =? ERR_OK) then ret r
      else
        upd_inode p (fun i => set_addrs (<[Z.to_nat blk_index := snd r]> (i_addrs i)) i);;
        upd_inode p (set_dirty true);;
        sfs_write_inode p;;
        ret (ERR_OK, snd r)
  else ret (ERR_OK, blk).

(** The part for an indirect block: the error, the block and [indir_bh]. *)
Definition get_indirect (p blk_index : Z) (alloc : bool) : SM (Z * Z * Z) :=
  let indir_blk_index := SFS_NDIRECT + (blk_index - SFS_NDIRECT) / (BDEV_BLK_SIZE / 4) in
  kassert (indir_blk_index <? SFS_NDIRECT + SFS_NINDIRECT);;
  r <- get_direct p indir_blk_index alloc;;
  if negb (fst r =? ERR_OK) then ret (fst r, 0, NULL)
  else
    kassert (0 <? snd r);;
    indir_bh <- on_blk (bdev_get (snd r));;
    if indir_bh =? NULL then ret (ERR_NOMEM, 0, NULL)
    else
      let indir_blk_ofs := (blk_index - SFS_NDIRECT) mod (BDEV_BLK_SIZE / 4) in
      d <- on_blk (blk_load indir_bh);;
      let blk := word d indir_blk_ofs in
      if blk =? 0 then
        if negb alloc then ret (ERR_NOTEXIST, 0, indir_bh)
        else
          r <- alloc_data_block;;
          if negb (fst r =? ERR_OK) then ret (fst r, 0, indir_bh)
          else
            store_bytes indir_bh (4 * indir_blk_ofs) (le32 (snd r));;
            mark indir_bh;;
            on_blk (bdev_release indir_bh);;
            ret (ERR_OK, snd r, indir_bh)
      else
        on_blk (bdev_release indir_bh);;
        ret (ERR_OK, blk, indir_bh).

(** The error and the locked block header. *)
Definition get_data_block (p ofs : Z) (alloc : bool) : SM (Z * Z) :=
  kassert (ofs <? SFS_MAX_FILE_SIZE);;
  inode_bh <- acquire_inode_bh p;;
  if inode_bh =? NULL then ret (ERR_NOMEM, NULL)
  else
    let blk_index := ofs / BDEV_BLK_SIZE in
    r <- (if blk_index <? SFS_NDIRECT then
            r <- get_direct p blk_index alloc;; ret (fst r, snd r, NULL)
          else get_indirect p blk_index alloc);;
    let '(err, blk, indir_bh) := r in
    let fail (err : Z) : SM (Z * Z) :=
      (if negb (indir_bh =? NULL) then on_blk (bdev_release indir_bh) else ret tt);;
      on_blk (bdev_release_unlocked inode_bh);;
      ret (err, NULL) in
    if negb (err =? ERR_OK) then fail err
    else
      kassert (0 <? blk);;
      bh <- on_blk (bdev_get blk);;
      if bh =? NULL then fail ERR_NOMEM
      else
        on_blk (bdev_release_unlocked inode_bh);;
        ret (ERR_OK, bh).

(** ** File data *)

(** The loop variables: the bytes read so far and the offset. *)
Definition read_step (p count : Z) (l : list Z * Z) : SM ((list Z * Z) + list Z) :=
  let '(out, ofs) := l in
  i <- get_inode p;;
  let total := Z.of_nat (length out) in
  if (total <? count) && (ofs <? i_size i) then
    r <- get_data_block p ofs false;;
    if negb (fst r =? ERR_OK) then ret (inr out)
    else
      d <- on_blk (blk_load (snd r));;
      let s := Z.min (Z.min (BDEV_BLK_SIZE - ofs mod BDEV_BLK_SIZE) (count - total)) (i_size i - ofs) in
      on_blk (bdev_release (snd r));;
      ret (inl (out ++ take (Z.to_nat s) (drop (Z.to_nat (ofs mod BDEV_BLK_SIZE)) d), ofs + s))
  else ret (inr out).

Definition read_data (p count ofs : Z) : SM (list Z) := loop (S (Z.to_nat count)) (read_step p count) ([], ofs).

(** The loop variables: [total] and the offset. *)
Definition write_step (p : Z) (buf : list Z) (count : Z) (l : Z * Z) : SM ((Z * Z) + (Z * Z)) :=
  let '(total, ofs) := l in
  if total <? count then
    r <- get_data_block p ofs true;;
    if negb (fst r =? ERR_OK) then ret (inr (total, ofs))
    else
      let s := Z.min (BDEV_BLK_SIZE - ofs mod BDEV_BLK_SIZE) (count - total) in
      store_bytes (snd r) (ofs mod BDEV_BLK_SIZE) (take (Z.to_nat s) (drop (Z.to_nat total) buf));;
      mark (snd r);;
      on_blk (bdev_release (snd r));;
      ret (inl (total + s, ofs + s))
  else ret (inr (total, ofs)).

Definition write_data (p : Z) (buf : list Z) (count ofs : Z) : SM Z :=
  kassert (nonnull p);;
  r <- loop (S (Z.to_nat count)) (write_step p buf count) (0, ofs);;
  let '(total, ofs) := r in
  i <- get_inode p;;
  (if (0 <? count) && (i_size i <? ofs) then
     upd_inode p (set_size ofs);;
     upd_inode p (set_dirty true);;
     sfs_write_inode p;;
     ret tt
   else ret tt);;
  ret total.
End ops.
