(* ===== verification/SfsDir.v ===== *)
(** * The simple file system: directories (kernel/fs/sfs/sfs.c)

    The loops of alloc_dirent, free_dirent, is_dir_empty and search_dir have
    the same head: they walk over the entries, 32 bytes each, and exchange the
    locked block at every multiple of the block size.  [scan_dir] is that head
    with the end of the loop, what is done when a block cannot be had, the body
    and what follows the loop.  A name is the list of its bytes without the
    terminator. *)

From stdpp Require Import prelude list gmap.
From Stdlib Require Import ZArith Lia.
From S2P Require Import Prelude DList Blocks Sfs.

(** struct sfs_dirent in a block: its inode number and name. *)
Definition dirent_inum (e : list Z) : Z := of_le32 e.
Definition dirent_name (e : list Z) : list Z := take (Z.to_nat SFS_DIRENT_NAMELEN) (drop 4 e).

Section ops.
Context {B : Type} `{!Blocks B}.
Context (sb : sfs_sb_info).
Abbreviation SM := (M (sst B)).

Definition release_if (bh : Z) : SM unit := if negb (bh =? NULL) then on_blk (bdev_release bh) else ret tt.

(** The loop variables: the offset and the locked block. *)
Definition scan_step {R} (dir : Z) (limit : inode -> Z) (alloc : bool) (bad : Z -> SM R) (visit : Z -> Z -> SM (option R)) (fin : SM R)
    (l : Z * Z) : SM ((Z * Z) + R) :=
  let '(ofs, bh) := l in
  i <- get_inode dir;;
  if ofs <? limit i then
    r <- (if ofs mod BDEV_BLK_SIZE =? 0 then release_if bh;; get_data_block sb dir ofs alloc else ret (ERR_OK, bh));;
    if negb (fst r =? ERR_OK) then v <- bad (fst r);; ret (inr v)
    else
      o <- visit (snd r) ofs;;
      match o with
      | Some v => ret (inr v)
      | None => ret (inl (ofs + SIZEOF_SFS_DIRENT, snd r))
      end
  else
    release_if bh;;
    v <- fin;;
    ret (inr v).

Definition scan_dir {R} (dir : Z) (limit : inode -> Z) (alloc : bool) (bad : Z -> SM R) (visit : Z -> Z -> SM (option R)) (fin : SM R) : SM R :=
  loop (S (S (Z.to_nat (SFS_MAX_FILE_SIZE / SIZEOF_SFS_DIRENT)))) (scan_step dir limit alloc bad visit fin) (0, NULL).

(** The entry at [ofs] in the locked block. *)
Definition load_dirent (bh ofs : Z) : SM (list Z) :=
  d <- on_blk (blk_load bh);; ret (drop (Z.to_nat (ofs mod BDEV_BLK_SIZE)) d).

Definition dirent_match (e name : list Z) : bool :=
  (0 <? dirent_inum e) && strncmp0 (Z.to_nat SFS_DIRENT_NAMELEN) (dirent_name e) name.

(** The inode number is read before the release here, after it in the code;
    the cached bytes are the same. *)
Definition search_dir (dir : Z) (name : list Z) : SM Z :=
  scan_dir dir i_size false (fun _ => ret 0)
    (fun bh ofs =>
      e <- load_dirent bh ofs;;
      if dirent_match e name then on_blk (bdev_release bh);; ret (Some (dirent_inum e)) else ret None)
    (ret 0).

(** The error and [*empty]. *)
Definition is_dir_empty (dir : Z) : SM (Z * bool) :=
  scan_dir dir i_size false (fun err => ret (err, false))
    (fun bh ofs =>
      e <- load_dirent bh ofs;;
      if 0 <? dirent_inum e then on_blk (bdev_release bh);; ret (Some (ERR_OK, false)) else ret None)
    (ret (ERR_OK, true)).

Definition free_dirent (dir : Z) (name : list Z) : SM Z :=
  scan_dir dir i_size false (fun err => ret err)
    (fun bh ofs =>
      e <- load_dirent bh ofs;;
      if dirent_match e name then
        store_bytes bh (ofs mod BDEV_BLK_SIZE) (le32 0);;
        mark bh;;
        on_blk (bdev_release bh);;
        ret (Some ERR_OK)
      else ret None)
    (ret ERR_NOTEXIST).

(** The fields of a new entry. *)
Definition store_dirent (bh o : Z) (name : list Z) (inum : Z) : SM unit :=
  store_bytes bh o (le32 inum);;
  store_bytes bh (o + 4) (strncpy_bytes name SFS_DIRENT_NAMELEN);;
  store_bytes bh (o + 4 + (SFS_DIRENT_NAMELEN - 1)) [0].

Definition alloc_dirent (dir : Z) (name : list Z) (inum : Z) : SM Z :=
  inode_bh <- acquire_inode_bh dir;;
  if inode_bh =? NULL then ret ERR_NOMEM
  else
    scan_dir dir (fun _ => SFS_MAX_FILE_SIZE) true
      (fun err => on_blk (bdev_release_unlocked inode_bh);; ret err)
      (fun bh ofs =>
        i <- get_inode dir;;
        e <- load_dirent bh ofs;;
        if (i_size i <=? ofs) || (dirent_inum e =? 0) then
          (if i_size i <=? ofs then
             upd_inode dir (set_size (ofs + SIZEOF_SFS_DIRENT));;
             upd_inode dir (set_dirty true);;
             sfs_write_inode dir;;
             ret tt
           else ret tt);;
          store_dirent bh (ofs mod BDEV_BLK_SIZE) name inum;;
          mark bh;;
          on_blk (bdev_release bh);;
          on_blk (bdev_release_unlocked inode_bh);;
          ret (Some ERR_OK)
        else ret None)
      (on_blk (bdev_release_unlocked inode_bh);; ret ERR_NORES).

Definition create_inode_in_dir (dir ftype : Z) (name : list Z) (mode : Z) : SM Z :=
  inum <- search_dir dir name;;
  if negb (inum =? 0) then ret ERR_EXIST
  else
    bmap_bh <- on_blk (bdev_get_unlocked SFS_INODE_BMAP_BLK);;
    if bmap_bh =? NULL then ret ERR_NOMEM
    else
      r <- alloc_disk_inode sb ftype mode;;
      if negb (fst r =? ERR_OK) then on_blk (bdev_release_unlocked bmap_bh);; ret (fst r)
      else
        err <- alloc_dirent dir name (snd r);;
        if negb (err =? ERR_OK) then
          free_disk_inode (snd r);;
          on_blk (bdev_release_unlocked bmap_bh);;
          ret err
        else
          on_blk (bdev_release_unlocked bmap_bh);;
          ret ERR_OK.

Definition sfs_create (dir : Z) (name : list Z) (mode : Z) : SM Z := create_inode_in_dir dir FTYPE_FILE name mode.
Definition sfs_mkdir (dir : Z) (name : list Z) (mode : Z) : SM Z := create_inode_in_dir dir FTYPE_DIR name mode.

Definition sfs_link (dir src : Z) (name : list Z) : SM Z :=
  i <- get_inode src;;
  kassert (i_ftype i =? FTYPE_FILE);;
  inum <- search_dir dir name;;
  if negb (inum =? 0) then ret ERR_EXIST
  else
    inode_bh <- acquire_inode_bh src;;
    if inode_bh =? NULL then ret ERR_NOMEM
    else
      err <- alloc_dirent dir name (i_inum i);;
      if negb (err =? ERR_OK) then on_blk (bdev_release_unlocked inode_bh);; ret err
      else
        upd_inode src (fun i => set_nlink (u32 (i_nlink i + 1)) i);;
        upd_inode src (set_dirty true);;
        sfs_write_inode src;;
        on_blk (bdev_release_unlocked inode_bh);;
        ret ERR_OK.
End ops.
