(* ===== verification/SfsBits.v ===== *)
(** * Simple file system: block access, bitmaps *)

From stdpp Require Import prelude list gmap.
From Stdlib Require Import ZArith Lia.
From S2P Require Import Prelude DList Blocks Sfs.

(** ** Bytes of a block *)

Lemma is_block_lookup v (i : nat) : is_block v -> (i < 512)%nat -> exists x, v !! i = Some x /\ 0 <= x < 256.
Proof.
  intros [Hl Hv] Hi. destruct (lookup_lt_is_Some_2 v i) as [x Hx]; [lia|]. exists x. split; [done|].
  rewrite Forall_lookup in Hv. by eapply Hv.
Qed.

Lemma patch_length l ofs v : 0 <= ofs -> ofs + Z.of_nat (length v) <= Z.of_nat (length l) -> length (patch l ofs v) = length l.
Proof. intros. unfold patch. rewrite !length_app, length_take, length_drop. lia. Qed.

Lemma patch_block l ofs v : is_block l -> 0 <= ofs -> ofs + Z.of_nat (length v) <= 512 -> Forall (fun x => 0 <= x < 256) v ->
  is_block (patch l ofs v).
Proof.
  intros [Hl HF] Ho Hv Hb. split; [rewrite patch_length; lia|]. unfold patch.
  apply Forall_app. split; [by apply Forall_take|]. apply Forall_app. split; [done|by apply Forall_drop].
Qed.

Lemma patch_lookup l ofs v (i : nat) : 0 <= ofs -> ofs + Z.of_nat (length v) <= Z.of_nat (length l) ->
  patch l ofs v !! i = if decide (ofs <= Z.of_nat i < ofs + Z.of_nat (length v)) then v !! (i - Z.to_nat ofs)%nat else l !! i.
Proof.
  intros Ho Hv. unfold patch. case_decide as E.
  - rewrite lookup_app_r by (rewrite length_take; lia). rewrite length_take, Nat.min_l by lia.
    by rewrite lookup_app_l by lia.
  - destruct (decide (Z.of_nat i < ofs)) as [Hlt|Hge].
    + rewrite lookup_app_l by (rewrite length_take; lia). by rewrite lookup_take_lt by lia.
    + rewrite lookup_app_r by (rewrite length_take; lia). rewrite length_take, Nat.min_l by lia.
      rewrite lookup_app_r by lia. rewrite lookup_drop. f_equal. lia.
Qed.

Lemma patch_one l (i : nat) x : (i < length l)%nat -> patch l (Z.of_nat i) [x] = <[i := x]> l.
Proof.
  intros Hi. apply list_eq. intros j. rewrite patch_lookup by (simpl; lia). simpl. rewrite list_lookup_insert.
  repeat case_decide; try lia; [|done]. by replace (j - Z.to_nat (Z.of_nat i))%nat with 0%nat by lia.
Qed.

(** ** Bits of a bitmap *)

Definition bit_of (v : list Z) (k : Z) : bool := Z.testbit (nth (Z.to_nat (k / 8)) v 0) (k mod 8).
Definition set_bit (v : list Z) (k : Z) (x : bool) : list Z :=
  let a := nth (Z.to_nat (k / 8)) v 0 in
  <[Z.to_nat (k / 8) := if x then Z.lor a (2 ^ (k mod 8)) else Z.land a (u8 (Z.lnot (2 ^ (k mod 8))))]> v.

Lemma mask_shift bit : 0 <= bit < 8 -> u8 (Z.shiftl 1 bit) = 2 ^ bit.
Proof.
  intros H. rewrite Z.shiftl_1_l. apply wrapu_small. split; [lia|]. apply Z.pow_lt_mono_r; lia.
Qed.

Lemma land_mask_zero x bit : 0 <= bit -> (Z.land x (2 ^ bit) =? 0) = negb (Z.testbit x bit).
Proof.
  intros H. destruct (Z.testbit x bit) eqn:E; simpl.
  - apply Z.eqb_neq. intros E0. assert (Ht : Z.testbit (Z.land x (2 ^ bit)) bit = false) by (rewrite E0; apply Z.bits_0).
    rewrite Z.land_spec, Z.pow2_bits_true, E in Ht by lia. done.
  - apply Z.eqb_eq. apply Z.bits_inj'. intros n Hn. rewrite Z.land_spec, Z.bits_0, Z.pow2_bits_eqb by lia.
    destruct (Z.eqb_spec bit n) as [<-|]; [by rewrite E|apply andb_false_r].
Qed.

Lemma byte_testbit x n : 0 <= x < 256 -> 8 <= n -> Z.testbit x n = false.
Proof.
  intros Hx Hn. destruct (Z.eq_dec x 0) as [->|Hne]; [apply Z.bits_0|]. apply Z.bits_above_log2; [lia|].
  assert (Z.log2 x < 8) by (apply Z.log2_lt_pow2; lia). lia.
Qed.

Lemma testbit_byte_bound x : 0 <= x -> (forall n, 8 <= n -> Z.testbit x n = false) -> 0 <= x < 256.
Proof.
  intros H0 Hb. split; [done|]. destruct (Z.lt_ge_cases x 256) as [|Hge]; [done|]. exfalso.
  assert (8 <= Z.log2 x) by (apply Z.log2_le_pow2; lia). pose proof (Z.bit_log2 x ltac:(lia)). rewrite Hb in *; [done|lia].
Qed.

Lemma set_byte_bits a bit (x : bool) n : 0 <= a < 256 -> 0 <= bit < 8 -> 0 <= n ->
  Z.testbit (if x then Z.lor a (2 ^ bit) else Z.land a (u8 (Z.lnot (2 ^ bit)))) n = if n =? bit then x else Z.testbit a n.
Proof.
  intros Ha Hb Hn. destruct x.
  - rewrite Z.lor_spec, Z.pow2_bits_eqb by lia. rewrite (Z.eqb_sym n). destruct (Z.eqb_spec bit n); [by rewrite orb_true_r|by rewrite orb_false_r].
  - rewrite Z.land_spec. unfold wrapu. rewrite <- Z.land_ones, Z.land_spec, Z.lnot_spec, Z.pow2_bits_eqb by lia.
    rewrite (Z.eqb_sym n). destruct (Z.eqb_spec bit n); simpl; [apply andb_false_r|].
    destruct (Z.lt_ge_cases n 8) as [H8|H8]; [by rewrite Z.ones_spec_low, andb_true_r by lia|].
    by rewrite (byte_testbit a n) by lia.
Qed.

Lemma set_byte_bound a bit (x : bool) : 0 <= a < 256 -> 0 <= bit < 8 ->
  0 <= (if x then Z.lor a (2 ^ bit) else Z.land a (u8 (Z.lnot (2 ^ bit)))) < 256.
Proof.
  intros Ha Hb. apply testbit_byte_bound.
  - destruct x; [apply Z.lor_nonneg; split; [lia|apply Z.pow_nonneg; lia]|apply Z.land_nonneg; lia].
  - intros n Hn. rewrite set_byte_bits by lia. rewrite (proj2 (Z.eqb_neq n bit)) by lia. by apply byte_testbit.
Qed.

Section bits.
Context (v : list Z) (Hv : is_block v).

Lemma nth_block (i : nat) : (i < 512)%nat -> v !! i = Some (nth i v 0) /\ 0 <= nth i v 0 < 256.
Proof using Hv.
  intros Hi. destruct (is_block_lookup v i Hv Hi) as (x & Hx & Hb). rewrite (nth_lookup_Some v i 0 x Hx). done.
Qed.

Lemma byte_index k : 0 <= k < 4096 -> (Z.to_nat (k / 8) < 512)%nat /\ 0 <= k mod 8 < 8.
Proof using Type.
  intros Hk. split; [|apply Z.mod_pos_bound; lia]. pose proof (Z.div_pos k 8). pose proof (Z.div_lt_upper_bound k 8 512). lia.
Qed.

Lemma set_bit_block k x : 0 <= k < 4096 -> is_block (set_bit v k x).
Proof using Hv.
  intros Hk. destruct (byte_index k Hk) as [Hi Hm]. destruct (nth_block _ Hi) as [_ Hb]. unfold set_bit. destruct Hv as [Hl HF].
  split; [by rewrite length_insert|]. apply Forall_insert; [done|]. by apply set_byte_bound.
Qed.

Lemma bit_set_bit k x j : 0 <= k < 4096 -> 0 <= j < 4096 -> bit_of (set_bit v k x) j = if j =? k then x else bit_of v j.
Proof using Hv.
  intros Hk Hj. destruct (byte_index k Hk) as [Hi Hm]. destruct (byte_index j Hj) as [Hi' Hm']. destruct (nth_block _ Hi) as [_ Hb].
  unfold bit_of, set_bit. cbv zeta. set (a := if x then _ else _). pose proof (Z.div_mod k 8 ltac:(lia)). pose proof (Z.div_mod j 8 ltac:(lia)).
  destruct (decide (Z.to_nat (j / 8) = Z.to_nat (k / 8))) as [E|E].
  - rewrite E at 1. erewrite nth_lookup_Some; [|apply list_lookup_insert_eq; destruct Hv as [-> _]; exact Hi].
    unfold a. rewrite set_byte_bits by lia. pose proof (Z.div_pos k 8). pose proof (Z.div_pos j 8). rewrite E.
    destruct (Z.eqb_spec (j mod 8) (k mod 8)), (Z.eqb_spec j k); try done; lia.
  - rewrite (proj2 (Z.eqb_neq j k)) by congruence. f_equal. rewrite !nth_lookup. by rewrite list_lookup_insert_ne by done.
Qed.
End bits.

(** ** The rules of the block interface on the state of the file system *)

Section rules.
Context {B : Type} `{!Blocks B}.
Implicit Types (I : gmap Z inode) (D : Z -> list Z) (L : gmap Z Z) (U : list (Z * Z)) (J : gset Z).

Lemma wp_bget {A} m I (be : B) D L U J b (k : Z -> M (sst B) A) (Q : A -> sst B -> Prop) :
  blk_rep m be D L U J -> 0 <= b < 2 ^ 23 -> (forall h, L !! h <> Some b) ->
  (forall be', m = false -> b ∉ U.*2 -> blk_rep m be' D L U J -> wp (k NULL) Q (mkS I be')) ->
  (forall h be', h <> NULL -> L !! h = None -> blk_rep m be' D (<[h := b]> L) U J -> wp (k h) Q (mkS I be')) ->
  wp (h <- on_blk (bdev_get b);; k h) Q (mkS I be).
Proof.
  intros R Hb HL H1 H2. wp_step. unfold on_blk. wp_step. eapply wp_mono; [by apply (bdev_get_spec m be D L U J)|].
  intros h be' [(-> & Hm & Hu & R')|(Hh & Hn & R')]; [by apply H1|by apply H2].
Qed.

Lemma wp_bpin {A} m I (be : B) D L U J b (k : Z -> M (sst B) A) (Q : A -> sst B -> Prop) :
  blk_rep m be D L U J -> 0 <= b < 2 ^ 23 ->
  (forall be', m = false -> b ∉ U.*2 -> blk_rep m be' D L U J -> wp (k NULL) Q (mkS I be')) ->
  (forall h be', h <> NULL -> blk_rep m be' D L ((h, b) :: U) J -> wp (k h) Q (mkS I be')) ->
  wp (h <- on_blk (bdev_get_unlocked b);; k h) Q (mkS I be).
Proof.
  intros R Hb H1 H2. wp_step. unfold on_blk. wp_step. eapply wp_mono; [by apply (bdev_get_unlocked_spec m be D L U J)|].
  intros h be' [(-> & Hm & Hu & R')|(Hh & R')]; [by apply H1|by apply H2].
Qed.

Lemma wp_brelease m I (be : B) D L U J h b (Q : unit -> sst B -> Prop) :
  blk_rep m be D L U J -> L !! h = Some b ->
  (forall be', blk_rep m be' D (delete h L) U J -> Q tt (mkS I be')) -> wp (on_blk (bdev_release h)) Q (mkS I be).
Proof.
  intros R Hh HQ. unfold on_blk. wp_step. eapply wp_mono; [by eapply bdev_release_spec|]. intros [] be' R'. by apply HQ.
Qed.

Lemma wp_bunpin m I (be : B) D L U J h b (Q : unit -> sst B -> Prop) :
  blk_rep m be D L ((h, b) :: U) J ->
  (forall be', blk_rep m be' D L U J -> Q tt (mkS I be')) -> wp (on_blk (bdev_release_unlocked h)) Q (mkS I be).
Proof.
  intros R HQ. unfold on_blk. wp_step. eapply wp_mono; [by eapply bdev_release_unlocked_spec|]. intros [] be' R'. by apply HQ.
Qed.

Lemma wp_bload m I (be : B) D L U J h b (Q : list Z -> sst B -> Prop) :
  blk_rep m be D L U J -> L !! h = Some b -> Q (D b) (mkS I be) -> wp (on_blk (blk_load h)) Q (mkS I be).
Proof.
  intros R Hh HQ. unfold on_blk. wp_step. eapply wp_mono; [by eapply blk_load_spec|]. by intros v be' [-> ->].
Qed.

Lemma wp_store_bytes m I (be : B) D L U J h b ofs v (Q : unit -> sst B -> Prop) :
  blk_rep m be D L U J -> L !! h = Some b -> 0 <= ofs -> ofs + Z.of_nat (length v) <= 512 -> Forall (fun x => 0 <= x < 256) v ->
  (forall be', blk_rep m be' (upd_blk D b (patch (D b) ofs v)) L U J -> Q tt (mkS I be')) ->
  wp (store_bytes h ofs v) Q (mkS I be).
Proof.
  intros R Hh Ho Hv Hb HQ. unfold store_bytes. wp_step. eapply wp_bload; [done..|].
  destruct (blk_rep_bytes _ _ _ _ _ _ b R) as [Hl HF]. rewrite Hl.
  rewrite (proj2 (Z.leb_le 0 ofs)), (proj2 (Z.leb_le (ofs + Z.of_nat (length v)) (Z.of_nat 512))) by lia. cbn [andb].
  destruct (patch_block (D b) ofs v (conj Hl HF) Ho Hv Hb) as [Hl' HF'].
  unfold on_blk. wp_step. eapply wp_mono; [by eapply blk_store_spec|]. intros [] be' R'. by apply HQ.
Qed.

Lemma wp_mark m I (be : B) D L U J h b (Q : unit -> sst B -> Prop) :
  blk_rep m be D L U J -> L !! h = Some b -> (size ({[b]} ∪ J) <= blk_capacity)%nat ->
  (forall be', blk_rep m be' D L U ({[b]} ∪ J) -> Q tt (mkS I be')) -> wp (mark h) Q (mkS I be).
Proof.
  intros R Hh HJ HQ. unfold mark, on_blk. wp_step. wp_step. eapply wp_mono; [by eapply blk_set_dirty_spec|]. intros [] be1 R1.
  wp_step. eapply wp_mono; [by eapply blk_log_spec|]. intros [] be2 R2. by apply HQ.
Qed.

Lemma wp_get_inode I (be : B) p i (Q : inode -> sst B -> Prop) : I !! p = Some i -> Q i (mkS I be) -> wp (get_inode p) Q (mkS I be).
Proof. intros Hp HQ. unfold get_inode. wp_step. wp_step. by eapply wp_deref. Qed.
Lemma wp_upd_inode I (be : B) p i f (Q : unit -> sst B -> Prop) :
  I !! p = Some i -> Q tt (mkS (<[p := f i]> I) be) -> wp (upd_inode p f) Q (mkS I be).
Proof. intros Hp HQ. unfold upd_inode. wp_step. eapply wp_get_inode; [done|]. by wp_step. Qed.
End rules.
