(* ===== verification/SfsAlloc.v ===== *)
(** * Simple file system: allocation of inodes and data blocks *)

From stdpp Require Import prelude list gmap.
From Stdlib Require Import ZArith Lia.
From S2P Require Import Prelude DList Blocks Sfs SfsBits.

Lemma upd_blk_same D b v w : forall x, upd_blk (upd_blk D b v) b w x = upd_blk D b w x.
Proof. intros x. unfold upd_blk. by destruct (x =? b). Qed.
Lemma upd_blk_eq D b v : upd_blk D b v b = v.
Proof. unfold upd_blk. by rewrite Z.eqb_refl. Qed.
Lemma upd_blk_ne D b v x : x <> b -> upd_blk D b v x = D x.
Proof. intros H. unfold upd_blk. by rewrite (proj2 (Z.eqb_neq x b) H). Qed.

Lemma patch_set_bit v byte bit (x : bool) : is_block v -> 0 <= byte < 512 -> 0 <= bit < 8 ->
  patch v byte [if x then Z.lor (nth (Z.to_nat byte) v 0) (2 ^ bit) else Z.land (nth (Z.to_nat byte) v 0) (u8 (Z.lnot (2 ^ bit)))] =
  set_bit v (byte * 8 + bit) x.
Proof.
  intros [Hl _] Hb Hi. unfold set_bit. assert (E1 : (byte * 8 + bit) / 8 = byte) by (rewrite Z.div_add_l by lia; rewrite Z.div_small; lia).
  assert (E2 : (byte * 8 + bit) mod 8 = bit) by (rewrite Z.add_comm, Z.mod_add by lia; apply Z.mod_small; lia).
  rewrite E1, E2. rewrite <- (Z2Nat.id byte) at 1 by lia. rewrite patch_one by lia. done.
Qed.

Lemma patch_all l v : length l = length v -> patch l 0 v = v.
Proof. intros H. unfold patch. change (Z.to_nat 0) with 0%nat. rewrite take_0, drop_ge by lia. apply app_nil_r. Qed.

Section spec.
Context {B : Type} `{!Blocks B}.
Implicit Types (I : gmap Z inode) (D : Z -> list Z) (L : gmap Z Z) (U : list (Z * Z)) (J : gset Z).

(** bmap_alloc_element takes the first free bit. *)
Lemma wp_bmap_alloc m I (be : B) D L U J h b size (Q : Z -> sst B -> Prop) :
  blk_rep m be D L U J -> L !! h = Some b -> 0 <= size <= 512 -> (base.size ({[b]} ∪ J) <= blk_capacity)%nat ->
  ((forall k, 0 <= k < 8 * size -> bit_of (D b) k = true) -> Q (-1) (mkS I be)) ->
  (forall r be', 0 <= r < 8 * size -> bit_of (D b) r = false -> (forall k, 0 <= k < r -> bit_of (D b) k = true) ->
    blk_rep m be' (upd_blk D b (set_bit (D b) r true)) L U ({[b]} ∪ J) -> Q r (mkS I be')) ->
  wp (bmap_alloc_element h size) Q (mkS I be).
Proof.
  intros R Hh Hsz HJ Hfull Hfound. pose proof (blk_rep_bytes _ _ _ _ _ _ b R) as Hblk.
  unfold bmap_alloc_element. wp_step.
  apply wp_for_ret with (I := fun byte s => s = mkS I be /\ forall k, 0 <= k < 8 * byte -> bit_of (D b) k = true).
  - split; [done|]. lia.
  - rewrite Z2Nat.id by lia. intros byte s Hbyte [-> Hbits].
    destruct (nth_block (D b) Hblk (Z.to_nat byte) ltac:(lia)) as [Hx Hxb].
    apply wp_for_ret with (I := fun bit s => s = mkS I be /\ forall k, 0 <= k < 8 * byte + bit -> bit_of (D b) k = true).
    + split; [done|]. intros k Hk. apply Hbits. lia.
    + intros bit s Hbit [-> Hbits']. wp_step. eapply wp_bload; [done..|]. wp_step. eapply wp_deref; [exact Hx|].
      cbv zeta. rewrite mask_shift, land_mask_zero by lia.
      assert (Hbo : Z.testbit (nth (Z.to_nat byte) (D b) 0) bit = bit_of (D b) (byte * 8 + bit)).
      { unfold bit_of. replace ((byte * 8 + bit) / 8) with byte by (rewrite Z.div_add_l by lia; rewrite Z.div_small; lia).
        by replace ((byte * 8 + bit) mod 8) with bit by (rewrite Z.add_comm, Z.mod_add by lia; rewrite Z.mod_small; lia). }
      rewrite Hbo. destruct (bit_of (D b) (byte * 8 + bit)) eqn:Eb; cbn [negb].
      * wp_step. split; [done|]. intros k Hk. destruct (decide (k = byte * 8 + bit)) as [->|]; [done|]. apply Hbits'. lia.
      * wp_step. eapply wp_store_bytes; [done..|lia|simpl; lia| |].
        { constructor; [|done]. apply (set_byte_bound _ bit true); [done|lia]. }
        intros be1 R1. rewrite (patch_set_bit _ byte bit true) in R1 by (done || lia). wp_step.
        eapply wp_mark; [exact R1|done|done|]. intros be2 R2. wp_step. wp_step. simpl.
        apply Hfound; [lia|done| |exact R2]. intros k Hk. apply Hbits'. lia.
    + intros s [-> Hb8]. split; [done|]. intros k Hk. apply Hb8. lia.
  - intros s [-> Hb]. wp_step. apply Hfull. rewrite Z2Nat.id in Hb by lia. intros k Hk. apply Hb. lia.
Qed.

Lemma wp_bmap_free m I (be : B) D L U J h b k (Q : unit -> sst B -> Prop) :
  blk_rep m be D L U J -> L !! h = Some b -> 0 <= k < 4096 -> (size ({[b]} ∪ J) <= blk_capacity)%nat ->
  (forall be', blk_rep m be' (upd_blk D b (set_bit (D b) k false)) L U ({[b]} ∪ J) -> Q tt (mkS I be')) ->
  wp (bmap_free_element h k) Q (mkS I be).
Proof.
  intros R Hh Hk HJ HQ. pose proof (blk_rep_bytes _ _ _ _ _ _ b R) as Hblk. destruct (byte_index k Hk) as [Hi Hm].
  unfold bmap_free_element. rewrite Z.rem_mod_nonneg, Z.quot_div_nonneg by lia. wp_step. eapply wp_bload; [done..|]. wp_step.
  rewrite (proj2 (Z.leb_le 0 k)) by lia. destruct (nth_block (D b) Hblk _ Hi) as [Hx Hxb]. eapply wp_deref; [exact Hx|].
  pose proof (Z.div_pos k 8 ltac:(lia) ltac:(lia)). pose proof (Z.div_lt_upper_bound k 8 512 ltac:(lia) ltac:(lia)).
  rewrite mask_shift by lia. wp_step. eapply wp_store_bytes; [done..|lia|simpl; lia| |].
  { constructor; [|done]. by apply (set_byte_bound _ (k mod 8) false). }
  intros be1 R1. rewrite (patch_set_bit _ (k / 8) (k mod 8) false) in R1 by (done || lia).
  replace (k / 8 * 8 + k mod 8) with k in R1 by (pose proof (Z.div_mod k 8 ltac:(lia)); lia).
  eapply wp_mark; [exact R1|done|done|]. exact HQ.
Qed.

(** ** Data blocks *)

(** The layout mkfs writes: inode bitmap, inode table, data bitmap, journal and
    data blocks follow each other, and the bitmap has exactly the blocks the
    data blocks need. *)
Record layout (sb : sfs_sb_info) : Prop := {
  ly_inodes : 0 <= s_num_inodes sb <= 4096;
  ly_table : SFS_INODE_TABLE_BLK + (s_num_inodes sb + 7) / 8 <= s_data_bmap_start sb;
  ly_bmap : s_data_bmap_start sb <= s_journal_start sb <= s_data_start sb;
  ly_size : 0 <= s_size sb /\ s_size sb mod 8 = 0;
  ly_full : 4096 * (s_journal_start sb - s_data_bmap_start sb - 1) <= s_size sb <= 4096 * (s_journal_start sb - s_data_bmap_start sb);
  ly_end : s_data_start sb + s_size sb <= 2 ^ 23
}.

Section data.
Context (sb : sfs_sb_info) (Hly : layout sb).

Definition n_bmap : Z := s_journal_start sb - s_data_bmap_start sb.
Definition bmaps : gset Z := list_to_set (seqZ (s_data_bmap_start sb) n_bmap).

(** The bitmap block and the bit of data block number [k], counted from the
    first data block. *)
Definition bmap_of (k : Z) : Z := s_data_bmap_start sb + k / 4096.
Definition dbit D (k : Z) : bool := bit_of (D (bmap_of k)) (k mod 4096).
(** An allocated data block. *)
Definition used D (blk : Z) : Prop :=
  s_data_start sb <= blk < s_data_start sb + s_size sb /\ dbit D (blk - s_data_start sb) = true.

Lemma bmap_of_range k : 0 <= k < s_size sb -> s_data_bmap_start sb <= bmap_of k < s_journal_start sb.
Proof using Hly.
  intros Hk. unfold bmap_of. destruct Hly. pose proof (Z.div_pos k 4096).
  pose proof (Z.div_lt_upper_bound k 4096 (s_journal_start sb - s_data_bmap_start sb)). lia.
Qed.

Lemma bmaps_in b : b ∈ bmaps <-> s_data_bmap_start sb <= b < s_journal_start sb.
Proof using Type. clear Hly. unfold bmaps, n_bmap. rewrite elem_of_list_to_set, elem_of_seqZ. lia. Qed.

(** The blocks after data block [k] was taken. *)
Definition took D (k : Z) (D' : Z -> list Z) : Prop := forall x,
  D' x = if x =? s_data_start sb + k then replicate 512 0
         else if x =? bmap_of k then set_bit (D x) (k mod 4096) true else D x.

Definition log_room J (n : nat) : Prop := (size (J ∪ bmaps) + n <= blk_capacity)%nat.

Lemma size_add (b : Z) (X : gset Z) : (size ({[b]} ∪ X) <= S (size X))%nat.
Proof using Type.
  clear Hly. rewrite size_union_alt, size_singleton. assert (size (X ∖ {[b]}) <= size X)%nat by (apply subseteq_size; set_solver). lia.
Qed.

(** [J'] has at most the blocks of [X] more than [J] and the bitmaps. *)
Lemma log_room_set J J' (X : gset Z) n k : J' ⊆ X ∪ (J ∪ bmaps) -> (size X + k <= n)%nat -> log_room J n -> log_room J' k.
Proof using Type.
  clear Hly. unfold log_room. intros HJ HX H.
  assert (size (J' ∪ bmaps) <= size (X ∪ (J ∪ bmaps)))%nat by (apply subseteq_size; set_solver).
  pose proof (size_union_alt X (J ∪ bmaps)). assert (size ((J ∪ bmaps) ∖ X) <= size (J ∪ bmaps))%nat by (apply subseteq_size; set_solver). lia.
Qed.
Lemma log_room_fits J : log_room J 0 -> (size J <= blk_capacity)%nat.
Proof using Type.
  clear Hly. unfold log_room. intros H. assert (size J <= size (J ∪ bmaps))%nat by (apply subseteq_size; set_solver). lia.
Qed.

Lemma log_room_one J b n : log_room J (S n) -> (size ({[b]} ∪ J) <= blk_capacity)%nat.
Proof using Type.
  clear Hly. intros H. apply log_room_fits. apply (log_room_set J _ {[b]} (S n)); [set_solver|rewrite size_singleton; lia|done].
Qed.
Lemma log_room_bmap J b n : b ∈ bmaps -> log_room J n -> (size ({[b]} ∪ J) <= blk_capacity)%nat.
Proof using Type.
  clear Hly. intros Hb H. apply log_room_fits. apply (log_room_set J _ ∅ n); [set_solver|rewrite size_empty; lia|done].
Qed.
Lemma log_room_mono J J' n : J' ⊆ J ∪ bmaps -> log_room J n -> log_room J' n.
Proof using Type. clear Hly. intros HJ H. apply (log_room_set J _ ∅ n); [set_solver|rewrite size_empty; lia|done]. Qed.
Lemma log_room_add J J' b n : J' ⊆ {[b]} ∪ J ∪ bmaps -> log_room J (S n) -> log_room J' n.
Proof using Type. clear Hly. intros HJ H. apply (log_room_set J _ {[b]} (S n)); [set_solver|rewrite size_singleton; lia|done]. Qed.

Lemma set_bit_undo v k : is_block v -> 0 <= k < 4096 -> bit_of v k = false -> set_bit (set_bit v k true) k false = v.
Proof using Type.
  intros Hv Hk Hb. destruct (byte_index k Hk) as [Hi Hm]. destruct (nth_block v Hv _ Hi) as [Hx Hxb].
  unfold set_bit. cbv zeta. rewrite list_insert_insert. erewrite (nth_lookup_Some (<[_ := _]> v));
    [|apply list_lookup_insert_eq; destruct Hv as [-> _]; exact Hi]. rewrite decide_True by done.
  rewrite <- (list_insert_id v _ _ Hx) at 3. f_equal. apply Z.bits_inj'. intros n Hn.
  rewrite (set_byte_bits _ (k mod 8) false) by (done || lia || by apply (set_byte_bound _ (k mod 8) true)).
  rewrite (set_byte_bits _ (k mod 8) true) by (done || lia). destruct (Z.eqb_spec n (k mod 8)) as [->|]; [|done].
  by rewrite <- Hb.
Qed.

Lemma used_range D b : used D b -> s_data_start sb <= b < s_data_start sb + s_size sb.
Proof using Type. by intros [? _]. Qed.

Lemma wp_alloc_data m I (be : B) D L U J (Q : Z * Z -> sst B -> Prop) :
  blk_rep m be D L U J -> (forall h b, L !! h = Some b -> used D b) -> log_room J 1 ->
  (forall err blk be' D' J', (err = ERR_NOMEM /\ m = false \/ err = ERR_NORES /\ forall k, 0 <= k < s_size sb -> dbit D k = true) ->
     (forall x, D' x = D x) -> J' ⊆ J ∪ bmaps -> blk_rep m be' D' L U J' -> Q (err, blk) (mkS I be')) ->
  (forall k be' D' J', 0 <= k < s_size sb -> dbit D k = false -> took D k D' -> J' ⊆ {[s_data_start sb + k]} ∪ J ∪ bmaps ->
     blk_rep m be' D' L U J' -> Q (ERR_OK, s_data_start sb + k) (mkS I be')) ->
  wp (alloc_data_block sb) Q (mkS I be).
Proof using Hly.
  intros R HL HJ Hfail Hok. unfold alloc_data_block. fold n_bmap. destruct Hly as [_ Htab Hbm [Hs0 Hs8] Hfull Hend].
  assert (Htb : 0 <= s_data_bmap_start sb).
  { pose proof (ly_inodes _ Hly). pose proof (Z.div_pos (s_num_inodes sb + 7) 8). unfold SFS_INODE_TABLE_BLK in Htab. lia. }
  apply wp_loop with
    (I := fun l s => exists j be', l = (s_data_bmap_start sb + j, u64 (s_size sb - 4096 * j)) /\ 0 <= j <= n_bmap /\ s = mkS I be' /\
       blk_rep m be' D L U J /\ forall k, 0 <= k < 4096 * j -> k < s_size sb -> dbit D k = true)
    (mes := fun l _ => Z.to_nat (s_journal_start sb - fst l)).
  2:{ exists 0, be. split; [rewrite wrapu_small by lia; f_equal; lia|]. split; [unfold n_bmap; lia|]. do 2 (split; [done|]). lia. }
  2:{ simpl. unfold n_bmap. lia. }
  clear be R. intros l s (j & be & -> & Hj & -> & R & Hbits). unfold alloc_data_step, n_bmap in *.
  destruct (Z.ltb_spec (s_data_bmap_start sb + j) (s_journal_start sb)) as [Hlt|Hge].
  2:{ wp_step. eapply Hfail; cycle 3; [exact R| |done|set_solver]. right. split; [done|]. intros k Hk. apply Hbits; lia. }
  rewrite (wrapu_small 64 (s_size sb - 4096 * j)) by lia.
  eapply wp_bget; [exact R|lia| | |].
  { intros h Hh. apply HL, used_range in Hh. lia. }
  { intros be1 Hm _ R1. simpl. wp_step. eapply Hfail; cycle 3; [exact R1|by left|done|set_solver]. }
  intros h be1 Hh Hhn R1. rewrite (proj2 (Z.eqb_neq h NULL) Hh). wp_step.
  assert (Hb : s_data_bmap_start sb + j ∈ bmaps) by (apply bmaps_in; lia).
  assert (Hsz : 0 <= Z.min BDEV_BLK_SIZE ((s_size sb - 4096 * j) / 8) <= 512).
  { pose proof (Z.div_pos (s_size sb - 4096 * j) 8). change BDEV_BLK_SIZE with 512. lia. }
  assert (Hbj : forall k, 0 <= k < 4096 -> 4096 * j + k < s_size sb -> dbit D (4096 * j + k) = bit_of (D (s_data_bmap_start sb + j)) k).
  { intros k Hk _. unfold dbit, bmap_of. replace ((4096 * j + k) / 4096) with j.
    - f_equal. rewrite Z.add_comm, (Z.mul_comm 4096), Z.mod_add by lia. by apply Z.mod_small.
    - rewrite Z.mul_comm, Z.div_add_l by lia. rewrite Z.div_small; lia. }
  pose proof (Z.div_mod (s_size sb) 8 ltac:(lia)) as Hdm.
  assert (Hd8 : (s_size sb - 4096 * j) / 8 = s_size sb / 8 - 512 * j).
  { replace (s_size sb - 4096 * j) with (s_size sb + (- 512 * j) * 8) by lia. rewrite Z.div_add by lia. lia. }
  eapply (wp_bmap_alloc m I be1 D (<[h := s_data_bmap_start sb + j]> L)); [exact R1|by rewrite lookup_insert_eq|exact Hsz|by eapply log_room_bmap| |].
  - intros Hall. change (0 <=? -1) with false. cbn match. wp_step. eapply wp_brelease; [exact R1|by rewrite lookup_insert_eq|].
    intros be2 R2. rewrite delete_insert_id in R2 by done. wp_step. rewrite (wrapu_small 32) by lia.
    split; [|simpl; lia]. exists (j + 1), be2. split; [f_equal; [lia|change BDEV_BLK_SIZE with 512; f_equal; lia]|].
    split; [lia|]. do 2 (split; [done|]).
    intros k Hk Hks. destruct (Z.lt_ge_cases k (4096 * j)) as [|Hk2]; [apply Hbits; lia|].
    replace k with (4096 * j + (k - 4096 * j)) by lia. rewrite Hbj by lia. apply Hall. change BDEV_BLK_SIZE with 512. lia.
  - intros r be2 Hr Hrf _ R2. rewrite (proj2 (Z.leb_le 0 r)) by lia. change BDEV_BLK_SIZE with 512 in *.
    set (k := 4096 * j + r). assert (Hk : 0 <= k < s_size sb) by (unfold k; lia).
    assert (Hbk : bmap_of k = s_data_bmap_start sb + j).
    { unfold bmap_of, k. f_equal. rewrite Z.mul_comm, Z.div_add_l by lia. rewrite Z.div_small; lia. }
    assert (Hmk : k mod 4096 = r) by (unfold k; rewrite Z.add_comm, (Z.mul_comm 4096), Z.mod_add by lia; apply Z.mod_small; lia).
    assert (Hdk : dbit D k = false) by (unfold k; rewrite Hbj by lia; done).
    replace (s_data_start sb + 512 * 8 * (s_data_bmap_start sb + j - s_data_bmap_start sb) + r) with (s_data_start sb + k) by (unfold k; lia).
    rewrite (wrapu_small 32) by lia.
    assert (HkL : forall g c, L !! g = Some c -> c <> s_data_start sb + k).
    { intros g c Hg ->. apply HL in Hg as [_ Hu]. replace (s_data_start sb + k - s_data_start sb) with k in Hu by lia. congruence. }
    set (D1 := upd_blk D (s_data_bmap_start sb + j) (set_bit (D (s_data_bmap_start sb + j)) r true)) in *.
    eapply wp_bget; [exact R2|lia| | |].
    { intros g. rewrite lookup_insert. case_decide; [intros [= E]; lia|]. intros Hg. by destruct (HkL _ _ Hg). }
    + intros be3 Hm _ R3. simpl (NULL =? NULL). cbn match. wp_step.
      eapply (wp_bmap_free m I be3 D1 _ _ _ h _ r); [exact R3|by rewrite lookup_insert_eq|lia|by eapply (log_room_bmap _ _ 1); [|eapply log_room_mono; [|exact HJ]; set_solver]|].
      intros be4 R4. wp_step. eapply wp_brelease; [exact R4|by rewrite lookup_insert_eq|]. intros be5 R5. wp_step.
      rewrite delete_insert_id in R5 by done. eapply Hfail; [by left| | |exact R5]; [|set_solver].
      intros x. unfold D1. rewrite upd_blk_same, upd_blk_eq. unfold upd_blk. destruct (Z.eqb_spec x (s_data_bmap_start sb + j)) as [->|]; [|done].
      apply set_bit_undo; [exact (blk_rep_bytes _ _ _ _ _ _ _ R)|lia|done].
    + intros g be3 Hg Hgn R3. rewrite (proj2 (Z.eqb_neq g NULL) Hg). wp_step.
      assert (Hne : h <> g) by (intros ->; by rewrite lookup_insert_eq in Hgn).
      eapply wp_brelease; [exact R3|by rewrite lookup_insert_ne, lookup_insert_eq|]. intros be4 R4.
      rewrite delete_insert_ne, delete_insert_id in R4 by done. wp_step.
      eapply wp_store_bytes; [exact R4|by rewrite lookup_insert_eq|lia|by rewrite length_replicate|apply Forall_replicate; lia|].
      intros be5 R5. wp_step. eapply wp_mark; [exact R5|by rewrite lookup_insert_eq|eapply (log_room_one _ _ 0), log_room_mono; [|exact HJ]; set_solver|].
      intros be6 R6. wp_step. eapply wp_brelease; [exact R6|by rewrite lookup_insert_eq|]. intros be7 R7. wp_step.
      rewrite lookup_insert_ne in Hgn by done. rewrite delete_insert_id in R7 by done.
      eapply (Hok k); [exact Hk|exact Hdk| | |exact R7]; [|set_solver].
      intros x. unfold upd_blk at 1. destruct (Z.eqb_spec x (s_data_start sb + k)) as [->|Hx].
      * apply patch_all. rewrite length_replicate. apply (blk_rep_bytes _ _ _ _ _ _ (s_data_start sb + k) R2).
      * rewrite Hbk, Hmk. unfold D1, upd_blk. by destruct (Z.eqb_spec x (s_data_bmap_start sb + j)) as [->|].
Qed.
End data.
End spec.
