(* ===== verification/SfsInode.v ===== *)
(** * Simple file system: the blocks of files

    [fblk D addrs i] is the block that holds block [i] of the file with the
    addresses [addrs], through the indirect blocks; 0 when there is none.
    [own] gives every block in use its one owner: the inode number and the
    block index in the file, or -1 and -2 for the two indirect blocks. *)

From stdpp Require Import prelude list gmap.
From Stdlib Require Import ZArith Lia.
From S2P Require Import Prelude DList Blocks Sfs SfsBits SfsAlloc.

(** ** Words *)

Lemma word_bytes v o : 0 <= o -> 4 * o + 4 <= Z.of_nat (length v) ->
  word v o = nth (Z.to_nat (4 * o)) v 0 + 256 * nth (Z.to_nat (4 * o) + 1) v 0 +
             65536 * nth (Z.to_nat (4 * o) + 2) v 0 + 16777216 * nth (Z.to_nat (4 * o) + 3) v 0.
Proof.
  intros Ho Hl. unfold word. set (n := Z.to_nat (4 * o)).
  assert (Hd : forall k, (k < 4)%nat -> nth (n + k) v 0 = nth k (drop n v) 0).
  { intros k Hk. rewrite !nth_lookup, lookup_drop. done. }
  rewrite <- (Nat.add_0_r n) at 2. rewrite !Hd by lia.
  assert (Hlen : (4 <= length (drop n v))%nat) by (rewrite length_drop; unfold n; lia).
  destruct (drop n v) as [|a [|b [|c [|d l]]]]; simpl in *; try lia.
Qed.

Lemma le32_roundtrip x : 0 <= x < 2 ^ 32 -> of_le32 (le32 x) = x.
Proof.
  intros Hx. unfold le32, of_le32.
  pose proof (Z.div_mod x 256 ltac:(lia)). pose proof (Z.div_mod (x / 256) 256 ltac:(lia)).
  pose proof (Z.div_mod (x / 65536) 256 ltac:(lia)).
  assert (x / 65536 = x / 256 / 256) by (rewrite Z.div_div by lia; done).
  assert (x / 16777216 = x / 65536 / 256) by (rewrite Z.div_div by lia; done).
  rewrite (Z.mod_small (x / 16777216) 256); [lia|].
  split; [apply Z.div_pos; lia|apply Z.div_lt_upper_bound; lia].
Qed.

Lemma le32_bytes x : Forall (fun b => 0 <= b < 256) (le32 x).
Proof. unfold le32. repeat constructor; apply Z.mod_pos_bound; lia. Qed.

Lemma nth_patch l ofs v (i : nat) : 0 <= ofs -> ofs + Z.of_nat (length v) <= Z.of_nat (length l) ->
  nth i (patch l ofs v) 0 = if decide (ofs <= Z.of_nat i < ofs + Z.of_nat (length v)) then nth (i - Z.to_nat ofs) v 0 else nth i l 0.
Proof. intros. rewrite !nth_lookup, patch_lookup by done. by case_decide. Qed.

Lemma word_patch v o x o' : length v = 512%nat -> 0 <= o < 128 -> 0 <= o' < 128 -> 0 <= x < 2 ^ 32 ->
  word (patch v (4 * o) (le32 x)) o' = if o' =? o then x else word v o'.
Proof.
  intros Hl Ho Ho' Hx. rewrite !word_bytes by (try rewrite patch_length; simpl; lia).
  rewrite !nth_patch by (simpl; lia). change (Z.of_nat (length (le32 x))) with 4.
  destruct (Z.eqb_spec o' o) as [->|Hne]; repeat first [rewrite decide_True by lia|rewrite decide_False by lia]; [|done].
  rewrite <- (le32_roundtrip x Hx) at 5. set (n := Z.to_nat (4 * o)).
  replace (n - n)%nat with 0%nat by lia. replace (n + 1 - n)%nat with 1%nat by lia.
  replace (n + 2 - n)%nat with 2%nat by lia. replace (n + 3 - n)%nat with 3%nat by lia. done.
Qed.

Lemma word_zero o : 0 <= o < 128 -> word (replicate 512 0) o = 0.
Proof. intros Ho. rewrite word_bytes by (rewrite ?length_replicate; lia). rewrite !nth_lookup, !lookup_replicate_2 by lia. done. Qed.

Lemma word_bound v o : is_block v -> 0 <= o < 128 -> 0 <= word v o < 2 ^ 32.
Proof.
  intros Hv Ho. rewrite word_bytes by (destruct Hv; lia).
  pose proof (nth_block v Hv (Z.to_nat (4 * o)) ltac:(lia)) as [_ ?]. pose proof (nth_block v Hv (Z.to_nat (4 * o) + 1)%nat ltac:(lia)) as [_ ?].
  pose proof (nth_block v Hv (Z.to_nat (4 * o) + 2)%nat ltac:(lia)) as [_ ?]. pose proof (nth_block v Hv (Z.to_nat (4 * o) + 3)%nat ltac:(lia)) as [_ ?].
  lia.
Qed.

(** ** The blocks of a file *)

Definition NBLKS : Z := SFS_NDIRECT + SFS_NINDIRECT * 128.

Definition addr (addrs : list Z) (k : Z) : Z := nth (Z.to_nat k) addrs 0.
Definition fblk (D : Z -> list Z) (addrs : list Z) (i : Z) : Z :=
  if i <? SFS_NDIRECT then addr addrs i
  else
    let a := addr addrs (SFS_NDIRECT + (i - SFS_NDIRECT) / 128) in
    if a =? 0 then 0 else word (D a) ((i - SFS_NDIRECT) mod 128).

Lemma addr_insert addrs k b j : 0 <= k < Z.of_nat (length addrs) -> 0 <= j ->
  addr (<[Z.to_nat k := b]> addrs) j = if j =? k then b else addr addrs j.
Proof.
  intros Hk Hj. unfold addr. rewrite !nth_lookup. destruct (Z.eqb_spec j k) as [->|Hne].
  - by rewrite list_lookup_insert_eq by lia.
  - by rewrite list_lookup_insert_ne by lia.
Qed.

Lemma ind_index i : SFS_NDIRECT <= i < NBLKS ->
  0 <= (i - SFS_NDIRECT) / 128 < 2 /\ 0 <= (i - SFS_NDIRECT) mod 128 < 128 /\
  i = SFS_NDIRECT + 128 * ((i - SFS_NDIRECT) / 128) + (i - SFS_NDIRECT) mod 128.
Proof.
  unfold NBLKS, SFS_NDIRECT, SFS_NINDIRECT. intros Hi. pose proof (Z.mod_pos_bound (i - 12) 128 ltac:(lia)).
  pose proof (Z.div_mod (i - 12) 128 ltac:(lia)). pose proof (Z.div_pos (i - 12) 128). pose proof (Z.div_lt_upper_bound (i - 12) 128 2). lia.
Qed.

Section files.
Context (sb : sfs_sb_info) (Hly : layout sb).
Implicit Types (D : Z -> list Z) (A : gmap Z (list Z)) (own : gmap Z (Z * Z)).
Abbreviation used := (used sb).
Abbreviation took := (took sb).

Record fsok D A own : Prop := {
  fo_block : forall b, is_block (D b);
  fo_used : forall b x, own !! b = Some x -> used D b;
  fo_len : forall n a, A !! n = Some a -> length a = 14%nat;
  fo_data : forall n a i, A !! n = Some a -> 0 <= i < NBLKS -> fblk D a i <> 0 -> own !! fblk D a i = Some (n, i);
  fo_ind : forall n a k, A !! n = Some a -> 0 <= k < 2 -> addr a (12 + k) <> 0 -> own !! addr a (12 + k) = Some (n, -1 - k)
}.

(** The blocks of a file depend on its indirect blocks only. *)
Lemma fblk_frame D D' a i : (forall k, 0 <= k < 2 -> addr a (12 + k) <> 0 -> D' (addr a (12 + k)) = D (addr a (12 + k))) ->
  0 <= i < NBLKS -> fblk D' a i = fblk D a i.
Proof using Type.
  intros H Hi. unfold fblk. destruct (Z.ltb_spec i SFS_NDIRECT); [done|]. destruct (ind_index i) as (Hk & _); [lia|].
  change SFS_NDIRECT with 12 in *. destruct (Z.eqb_spec (addr a (12 + (i - 12) / 128)) 0); [done|]. by rewrite H.
Qed.

(** A change that touches neither owned blocks nor bitmaps. *)
Lemma used_frame D D' b : (forall x, x ∈ bmaps sb -> D' x = D x) -> used D b -> used D' b.
Proof using Hly.
  intros H [Hb Hd]. split; [done|]. unfold dbit in *. rewrite H; [done|]. apply bmaps_in, bmap_of_range; [done|lia].
Qed.

Lemma fsok_frame D D' A own : fsok D A own -> (forall b, is_block (D' b)) ->
  (forall b x, own !! b = Some x -> D' b = D b) -> (forall x, x ∈ bmaps sb -> D' x = D x) -> fsok D' A own.
Proof using Hly.
  intros [Hblk Hused Hlen Hdata Hind] Hblk' Ho Hb.
  assert (Hf : forall n a i, A !! n = Some a -> 0 <= i < NBLKS -> fblk D' a i = fblk D a i).
  { intros n a i Ha Hi. apply fblk_frame; [|done]. intros k Hk Hne. by eapply Ho, Hind. }
  split; [done| |done| |done].
  - intros b x Hx. eapply used_frame; [done|by eapply Hused].
  - intros n a i Ha Hi. rewrite (Hf n) by done. by apply Hdata.
Qed.

(** An owned block is a data block. *)
Lemma owned_range D A own b x : fsok D A own -> own !! b = Some x -> s_data_start sb <= b < s_data_start sb + s_size sb.
Proof using Type. intros F Hx. by destruct (fo_used _ _ _ F _ _ Hx). Qed.

(** Taking a fresh block leaves the owned ones alone. *)
Lemma took_owned D A own k D' b x : fsok D A own -> 0 <= k < s_size sb -> dbit sb D k = false -> took D k D' ->
  own !! b = Some x -> b <> s_data_start sb + k /\ D' b = D b.
Proof using Hly.
  intros F Hk Hd Ht Hx. destruct (fo_used _ _ _ F _ _ Hx) as [Hb Hu].
  assert (Hne : b <> s_data_start sb + k).
  { intros ->. replace (s_data_start sb + k - s_data_start sb) with k in Hu by lia. congruence. }
  split; [done|]. rewrite Ht, (proj2 (Z.eqb_neq b (s_data_start sb + k)) Hne).
  pose proof (bmap_of_range sb Hly k Hk). pose proof (ly_bmap _ Hly). by rewrite (proj2 (Z.eqb_neq b (bmap_of sb k))) by lia.
Qed.

Lemma took_dbit D k D' j : (forall b, is_block (D b)) -> 0 <= k < s_size sb -> took D k D' -> 0 <= j < s_size sb ->
  dbit sb D' j = if j =? k then true else dbit sb D j.
Proof using Hly.
  intros Hblk Hk Ht Hj. pose proof (bmap_of_range sb Hly k Hk) as Hbk. pose proof (ly_bmap _ Hly) as Hbm.
  pose proof (bmap_of_range sb Hly j Hj). unfold dbit. rewrite Ht.
  rewrite (proj2 (Z.eqb_neq (bmap_of sb j) (s_data_start sb + k))) by lia.
  pose proof (Z.mod_pos_bound j 4096 ltac:(lia)). pose proof (Z.mod_pos_bound k 4096 ltac:(lia)).
  pose proof (Z.div_mod j 4096 ltac:(lia)). pose proof (Z.div_mod k 4096 ltac:(lia)).
  destruct (Z.eqb_spec (bmap_of sb j) (bmap_of sb k)) as [E|E].
  - rewrite bit_set_bit by (apply Hblk || lia). unfold bmap_of in E. destruct (Z.eqb_spec (j mod 4096) (k mod 4096)), (Z.eqb_spec j k); lia || done.
  - destruct (Z.eqb_spec j k); [congruence|done].
Qed.

Lemma took_used D k D' : (forall b, is_block (D b)) -> 0 <= k < s_size sb -> took D k D' ->
  used D' (s_data_start sb + k) /\ (forall b, used D b -> used D' b) /\ (forall b, is_block (D' b)).
Proof using Hly.
  intros Hblk Hk Ht.
  assert (Hdb : forall j, 0 <= j < s_size sb -> dbit sb D' j = if j =? k then true else dbit sb D j) by (intros j Hj; by apply took_dbit).
  split; [|split].
  - split; [lia|]. replace (s_data_start sb + k - s_data_start sb) with k by lia. rewrite Hdb by lia. by rewrite Z.eqb_refl.
  - intros b [Hb Hu]. split; [done|]. rewrite Hdb by lia. by destruct (b - s_data_start sb =? k).
  - intros b. rewrite Ht. destruct (b =? s_data_start sb + k).
    + split; [apply length_replicate|apply Forall_replicate; lia].
    + destruct (b =? bmap_of sb k); [|done]. apply set_bit_block; [done|]. apply Z.mod_pos_bound. lia.
Qed.

Lemma took_ok D A own k D' : fsok D A own -> 0 <= k < s_size sb -> dbit sb D k = false -> took D k D' ->
  fsok D' A own /\ own !! (s_data_start sb + k) = None /\ used D' (s_data_start sb + k) /\
  D' (s_data_start sb + k) = replicate 512 0.
Proof using Hly.
  intros F Hk Hd Ht. destruct (took_used D k D' (fo_block _ _ _ F) Hk Ht) as (Hu & Hmono & Hblk).
  split; [|split; [|split; [done|]]].
  - destruct F as [Hb Hused Hlen Hdata Hind]. assert (F : fsok D A own) by (by split).
    assert (Hf : forall n a i, A !! n = Some a -> 0 <= i < NBLKS -> fblk D' a i = fblk D a i).
    { intros n a i Ha Hi. apply fblk_frame; [|done]. intros j Hj Hne. eapply took_owned; [exact F|done..|by eapply Hind]. }
    split; [done| |done| |done].
    + intros b x Hx. by eapply Hmono, Hused.
    + intros n a i Ha Hi. rewrite (Hf n) by done. by apply Hdata.
  - destruct (own !! _) as [x|] eqn:E; [|done]. by destruct (took_owned _ _ _ _ _ _ _ F Hk Hd Ht E).
  - rewrite Ht. by rewrite Z.eqb_refl.
Qed.

(** ** A fresh block is attached *)

Definition slot (idx : Z) : Z := if idx <? 12 then idx else 11 - idx.

Lemma fblk_attach D a idx b j : length a = 14%nat -> 0 <= idx < 14 -> addr a idx = 0 -> D b = replicate 512 0 -> b <> 0 -> 0 <= j < NBLKS ->
  fblk D (<[Z.to_nat idx := b]> a) j = if j =? idx then (if idx <? 12 then b else fblk D a j) else fblk D a j.
Proof using Type.
  intros Hl Hi Hz Hb Hb0 Hj. unfold fblk. change SFS_NDIRECT with 12. destruct (Z.ltb_spec j 12).
  - rewrite addr_insert by lia. destruct (Z.eqb_spec j idx) as [->|]; [|done]. by rewrite (proj2 (Z.ltb_lt idx 12)) by lia.
  - destruct (ind_index j) as (Hk & Ho & _); [change SFS_NDIRECT with 12; lia|]. change SFS_NDIRECT with 12 in *.
    rewrite addr_insert by lia. destruct (Z.eqb_spec (12 + (j - 12) / 128) idx) as [E|E].
    + rewrite (proj2 (Z.eqb_neq b 0) Hb0), Hb, word_zero by done. rewrite E, Hz, Z.eqb_refl.
      destruct (j =? idx); [|done]. by rewrite (proj2 (Z.ltb_ge idx 12)) by lia.
    + destruct (Z.eqb_spec j idx) as [->|]; [|done]. by rewrite (proj2 (Z.ltb_ge idx 12)) by lia.
Qed.

Lemma attach_addr D A own n a idx b :
  fsok D A own -> A !! n = Some a -> 0 <= idx < 14 -> addr a idx = 0 -> used D b -> own !! b = None ->
  D b = replicate 512 0 -> b <> 0 ->
  fsok D (<[n := <[Z.to_nat idx := b]> a]> A) (<[b := (n, slot idx)]> own).
Proof using Type.
  intros F Ha Hi Hz Hu Ho Hb Hb0. pose proof F as [Hblk Hused Hlen Hdata Hind]. pose proof (Hlen _ _ Ha) as Hla.
  assert (Hold : forall c x, own !! c = Some x -> <[b := (n, slot idx)]> own !! c = Some x).
  { intros c x Hc. rewrite lookup_insert_ne; [done|]. congruence. }
  split; [done| | | |].
  - intros c x. rewrite lookup_insert. case_decide as E; [by subst|]. apply Hused.
  - intros n' a'. rewrite lookup_insert. case_decide; [intros [= <-]; by rewrite length_insert|apply Hlen].
  - intros n' a' i. rewrite lookup_insert. case_decide as E; [intros [= <-] Hi'; subst n'|intros Ha' Hi' Hf; by apply Hold, Hdata].
    rewrite fblk_attach by done. destruct (Z.eqb_spec i idx) as [->|]; [|intros Hf; by apply Hold, Hdata].
    destruct (idx <? 12) eqn:E12; [intros _; rewrite lookup_insert_eq; unfold slot; by rewrite E12|]. intros Hf. by apply Hold, Hdata.
  - intros n' a' k. rewrite lookup_insert. case_decide as E; [intros [= <-] Hk; subst n'|intros Ha' Hk Hf; by apply Hold, Hind].
    rewrite addr_insert by lia. destruct (Z.eqb_spec (12 + k) idx) as [<-|]; [|intros Hf; by apply Hold, Hind].
    intros _. rewrite lookup_insert_eq. unfold slot. rewrite (proj2 (Z.ltb_ge (12 + k) 12)) by lia. do 2 f_equal. lia.
Qed.

Section attach_word.
Context (D : Z -> list Z) (A : gmap Z (list Z)) (own : gmap Z (Z * Z)) (n : Z) (a : list Z) (k o b : Z).
Hypothesis F : fsok D A own.
Hypothesis Ha : A !! n = Some a.
Hypothesis Hk : 0 <= k < 2.
Hypothesis Ho : 0 <= o < 128.
Hypothesis Hb : 0 <= b < 2 ^ 32 /\ own !! b = None /\ used D b.
Let ib := addr a (12 + k).
Hypothesis Hib : ib <> 0.
Let D' := upd_blk D ib (patch (D ib) (4 * o) (le32 b)).

Lemma word_owner : own !! ib = Some (n, -1 - k).
Proof using F Ha Hk Hib. by apply (fo_ind _ _ _ F n a k). Qed.

Lemma fblk_word n' a' j : A !! n' = Some a' -> 0 <= j < NBLKS ->
  fblk D' a' j = if bool_decide (n' = n /\ j = 12 + 128 * k + o) then b else fblk D a' j.
Proof using F Ha Hk Ho Hb Hib.
  intros Ha' Hj. unfold fblk. change SFS_NDIRECT with 12. destruct (Z.ltb_spec j 12).
  { rewrite bool_decide_false by lia. done. }
  destruct (ind_index j) as (Hkj & Hoj & Ej); [change SFS_NDIRECT with 12; lia|]. change SFS_NDIRECT with 12 in *.
  set (kj := (j - 12) / 128) in *. set (oj := (j - 12) mod 128) in *.
  destruct (Z.eqb_spec (addr a' (12 + kj)) 0) as [E0|E0].
  { rewrite bool_decide_false; [done|]. intros [-> Ej2]. assert (a' = a) as -> by congruence. apply Hib. unfold ib.
    replace k with kj by lia. done. }
  pose proof (fo_ind _ _ _ F n' a' kj Ha' Hkj E0) as Hown. unfold D'.
  destruct (Z.eqb_spec (addr a' (12 + kj)) ib) as [Eb|Eb].
  - rewrite Eb in *. rewrite word_owner in Hown. injection Hown as <- Hkk. assert (kj = k) as Ekj by lia.
    unfold upd_blk. rewrite Z.eqb_refl, word_patch; [|apply (fo_block _ _ _ F)|done..|lia].
    destruct (Z.eqb_spec oj o) as [E|E]; [by rewrite bool_decide_true by (split; [done|lia])|].
    by rewrite bool_decide_false by lia.
  - rewrite upd_blk_ne by done. rewrite bool_decide_false; [done|]. intros [-> Ej2]. apply Eb. unfold ib.
    assert (a' = a) as -> by congruence. f_equal. lia.
Qed.

Lemma attach_word : fblk D a (12 + 128 * k + o) = 0 ->
  fsok D' A (<[b := (n, 12 + 128 * k + o)]> own).
Proof using F Ha Hk Ho Hb Hib Hly.
  intros Hz. pose proof F as [Hblk Hused Hlen Hdata Hind]. destruct Hb as (Hbr & Hbo & Hbu).
  assert (Hblk' : forall c, is_block (D' c)).
  { intros c. unfold D', upd_blk. destruct (c =? ib); [|done]. apply patch_block; [done|lia|simpl; lia|apply le32_bytes]. }
  assert (Hbm : forall x, x ∈ bmaps sb -> D' x = D x).
  { intros x Hx. apply upd_blk_ne. intros ->. apply bmaps_in in Hx. pose proof (owned_range _ _ _ _ _ F word_owner).
    pose proof (ly_bmap _ Hly). lia. }
  assert (Hold : forall c x, own !! c = Some x -> <[b := (n, 12 + 128 * k + o)]> own !! c = Some x).
  { intros c x Hc. rewrite lookup_insert_ne; [done|]. congruence. }
  split; [done| |done| |].
  - intros c x. rewrite lookup_insert. case_decide as E; [intros _; subst c; by eapply used_frame|].
    intros Hc. eapply used_frame; [done|by eapply Hused].
  - intros n' a' i Ha' Hi. rewrite (fblk_word n') by done. case_bool_decide as E.
    + destruct E as [-> ->]. intros _. by rewrite lookup_insert_eq.
    + intros Hf. by apply Hold, Hdata.
  - intros n' a' j Ha' Hj Hf. by apply Hold, Hind.
Qed.
End attach_word.
End files.

(** * Simple file system: inodes on disk *)

(** ** The disk format *)

Lemma le16_bytes x : Forall (fun b => 0 <= b < 256) (le16 x).
Proof. unfold le16. repeat constructor; apply Z.mod_pos_bound; lia. Qed.

Lemma concat_le32_length l : length (concat (map le32 l)) = (4 * length l)%nat.
Proof. induction l as [|x l IH]; simpl; [done|]. rewrite IH. lia. Qed.

Lemma enc_inode_length ftype mode nlink size addrs : length addrs = 14%nat ->
  length (enc_inode ftype mode nlink size addrs) = 64%nat.
Proof. intros H. unfold enc_inode. rewrite !length_app, concat_le32_length, length_map, H. done. Qed.

Lemma enc_inode_bytes ftype mode nlink size addrs : Forall (fun b => 0 <= b < 256) (enc_inode ftype mode nlink size addrs).
Proof.
  unfold enc_inode. repeat (apply Forall_app; split).
  - repeat constructor; apply (wrapu_bound 8); lia.
  - apply le16_bytes.
  - apply le32_bytes.
  - apply Forall_concat. apply Forall_map. apply Forall_map. apply Forall_forall. intros x _. apply le32_bytes.
Qed.

Lemma of_le16_le16 x l : 0 <= x < 2 ^ 16 -> of_le16 (le16 x ++ l) = x.
Proof.
  intros Hx. unfold le16, of_le16. simpl app. pose proof (Z.div_mod x 256 ltac:(lia)).
  rewrite (Z.mod_small (x / 256) 256); [lia|]. split; [apply Z.div_pos; lia|apply Z.div_lt_upper_bound; lia].
Qed.
Lemma of_le32_app x l : 0 <= x < 2 ^ 32 -> of_le32 (le32 x ++ l) = x.
Proof. intros Hx. rewrite <- (le32_roundtrip x Hx) at 2. done. Qed.

Lemma words_concat l rest : Forall (fun x => 0 <= x < 2 ^ 32) l ->
  map (word (concat (map le32 l) ++ rest)) (seqZ 0 (Z.of_nat (length l))) = l.
Proof.
  intros Hl. apply list_eq. intros i. rewrite list_lookup_fmap. destruct (decide (i < length l)%nat) as [Hi|Hi].
  - rewrite lookup_seqZ_lt by lia. simpl. rewrite Z.add_0_l. destruct (lookup_lt_is_Some_2 l i Hi) as [x Hx]. rewrite Hx. f_equal.
    rewrite Forall_lookup in Hl. specialize (Hl _ _ Hx). unfold word. replace (Z.to_nat (4 * Z.of_nat i)) with (4 * i)%nat by lia.
    rewrite <- (take_drop_middle l i x Hx) at 1. rewrite map_app, concat_app. cbn [map concat]. rewrite <- !app_assoc.
    rewrite drop_app_length'; [by apply of_le32_app|]. rewrite concat_le32_length, length_take. lia.
  - rewrite lookup_seqZ_ge by lia. simpl. symmetry. apply lookup_ge_None. lia.
Qed.

(** Decoding what was encoded. *)
Lemma enc_decode ftype mode nlink size addrs rest : length addrs = 14%nat ->
  let q := enc_inode ftype mode nlink size addrs ++ rest in
  nth 0 q 0 = u8 ftype /\ nth 1 q 0 = u8 mode /\ of_le16 (drop 2 q) = u16 nlink /\ of_le32 (drop 4 q) = u32 size /\
  map (word (drop 8 q)) (seqZ 0 (SFS_NDIRECT + SFS_NINDIRECT)) = map (wrapu 32) addrs.
Proof.
  intros Hl q. unfold q, enc_inode. do 2 (split; [done|]). rewrite <- !app_assoc.
  change (drop 2 ([u8 ftype; u8 mode] ++ ?l)) with l.
  split; [|split].
  - change (drop 2 (?x :: ?y :: ?l)) with l. simpl app at 1.
    apply of_le16_le16. apply (wrapu_bound 16). lia.
  - apply of_le32_app. apply (wrapu_bound 32). lia.
  - replace (SFS_NDIRECT + SFS_NINDIRECT) with (Z.of_nat (length (map (wrapu 32) addrs))) by (rewrite length_map, Hl; done).
    apply words_concat. apply Forall_map, Forall_forall. intros x _. apply (wrapu_bound 32). lia.
Qed.

(** ** Where inodes are *)

Section inodes.
Context (sb : sfs_sb_info) (Hly : layout sb).

Definition is_inum (n : Z) : Prop := 1 <= n <= s_num_inodes sb.

Lemma inum_place n : is_inum n ->
  inum_to_blk n = 4 + (n - 1) / 8 /\ inum_to_ofs n = 64 * ((n - 1) mod 8) /\ 4 <= inum_to_blk n < s_data_bmap_start sb.
Proof using Hly.
  intros Hn. unfold is_inum in Hn. destruct Hly as [Hi Ht _ _ _ _]. unfold inum_to_blk, inum_to_ofs, SFS_INODE_TABLE_BLK, SIZEOF_SFS_INODE in *.
  rewrite (wrapu_small 32) by lia. change (BDEV_BLK_SIZE / 64) with 8. change BDEV_BLK_SIZE with (8 * 64).
  rewrite Zmult_mod_distr_r. pose proof (Z.div_mod (n - 1) 8 ltac:(lia)). pose proof (Z.div_mod (s_num_inodes sb + 7) 8 ltac:(lia)).
  pose proof (Z.mod_pos_bound (n - 1) 8 ltac:(lia)). pose proof (Z.mod_pos_bound (s_num_inodes sb + 7) 8 ltac:(lia)).
  pose proof (Z.div_pos (n - 1) 8). lia.
Qed.

(** The bytes of inode [n] on disk. *)
Definition disk_inode (D : Z -> list Z) (n : Z) : list Z := take 64 (drop (Z.to_nat (inum_to_ofs n)) (D (inum_to_blk n))).

Definition put_inode (D : Z -> list Z) (n : Z) (v : list Z) : Z -> list Z :=
  upd_blk D (inum_to_blk n) (patch (D (inum_to_blk n)) (inum_to_ofs n) v).

Lemma disk_put D n v n' : (forall b, is_block (D b)) -> is_inum n -> is_inum n' -> length v = 64%nat ->
  disk_inode (put_inode D n v) n' = if n' =? n then v else disk_inode D n'.
Proof using Hly.
  intros Hblk Hn Hn' Hv. destruct (inum_place n Hn) as (Eb & Eo & _). destruct (inum_place n' Hn') as (Eb' & Eo' & _).
  pose proof (Z.mod_pos_bound (n - 1) 8 ltac:(lia)). pose proof (Z.mod_pos_bound (n' - 1) 8 ltac:(lia)).
  pose proof (Z.div_mod (n - 1) 8 ltac:(lia)). pose proof (Z.div_mod (n' - 1) 8 ltac:(lia)). pose proof (Hblk (inum_to_blk n)) as [Hl _].
  unfold disk_inode, put_inode. destruct (Z.eqb_spec n' n) as [->|Hne].
  - rewrite upd_blk_eq. unfold patch. rewrite drop_app_length' by (rewrite length_take; lia). rewrite take_app_length' by lia. done.
  - destruct (Z.eq_dec (inum_to_blk n') (inum_to_blk n)) as [E|E]; [|by rewrite upd_blk_ne by done].
    rewrite E, upd_blk_eq. apply list_eq. intros i. destruct (decide (i < 64)%nat) as [Hi|Hi].
    + rewrite !lookup_take_lt, !lookup_drop by lia. rewrite patch_lookup by lia. rewrite decide_False; [done|]. lia.
    + by rewrite !lookup_take_ge by lia.
Qed.

Lemma put_inode_ne D n v b : is_inum n -> s_data_bmap_start sb <= b -> put_inode D n v b = D b.
Proof using Hly. intros Hn Hb. destruct (inum_place n Hn) as (_ & _ & ?). apply upd_blk_ne. lia. Qed.

Lemma put_inode_block D n v : (forall b, is_block (D b)) -> is_inum n -> length v = 64%nat -> Forall (fun x => 0 <= x < 256) v ->
  forall b, is_block (put_inode D n v b).
Proof using Hly.
  intros Hblk Hn Hl Hv b. unfold put_inode, upd_blk. destruct (b =? inum_to_blk n); [|done].
  destruct (inum_place n Hn) as (_ & Eo & _). pose proof (Z.mod_pos_bound (n - 1) 8 ltac:(lia)). apply patch_block; [done|lia|lia|done].
Qed.

Section wp.
Context {B : Type} `{!Blocks B}.
Implicit Types (I : gmap Z inode) (D : Z -> list Z) (L : gmap Z Z) (U : list (Z * Z)) (J : gset Z).

Definition enc (i : inode) : list Z := enc_inode (i_ftype i) (i_mode i) (i_nlink i) (i_size i) (i_addrs i).

(** sfs_write_inode replaces the 64 bytes of the inode; it fails only when the
    block is not pinned and memory runs out. *)
Lemma wp_write_inode m I (be : B) D L U J p i (Q : Z -> sst B -> Prop) :
  blk_rep m be D L U J -> I !! p = Some i -> is_inum (i_inum i) -> length (i_addrs i) = 14%nat ->
  (forall h, L !! h <> Some (inum_to_blk (i_inum i))) -> (size ({[inum_to_blk (i_inum i)]} ∪ J) <= blk_capacity)%nat ->
  (forall be', m = false -> inum_to_blk (i_inum i) ∉ U.*2 -> blk_rep m be' D L U J -> Q ERR_NOMEM (mkS I be')) ->
  (forall be', blk_rep m be' (put_inode D (i_inum i) (enc i)) L U ({[inum_to_blk (i_inum i)]} ∪ J) ->
     Q ERR_OK (mkS (<[p := set_dirty false i]> I) be')) ->
  wp (sfs_write_inode p) Q (mkS I be).
Proof using Hly.
  intros R Hp Hn Hl HL HJ Hfail Hok. destruct (inum_place _ Hn) as (Eb & Eo & Hrange).
  pose proof (Z.mod_pos_bound (i_inum i - 1) 8 ltac:(lia)). destruct Hly as [_ _ Hb _ _ He]. pose proof (ly_size _ Hly) as [Hs _].
  unfold sfs_write_inode. wp_step. eapply wp_get_inode; [exact Hp|]. wp_step.
  wp_step; [rewrite (proj2 (Z.eqb_neq (i_inum i) 0)) by (unfold is_inum in Hn; lia); done|].
  eapply wp_bget; [exact R|lia|exact HL| |].
  { intros be1 Hm Hu R1. simpl. wp_step. by apply Hfail. }
  intros h be1 Hh Hhn R1. rewrite (proj2 (Z.eqb_neq h NULL) Hh). wp_step.
  eapply wp_store_bytes; [exact R1|by rewrite lookup_insert_eq|lia|rewrite enc_inode_length by done; lia|apply enc_inode_bytes|].
  intros be2 R2. wp_step. eapply wp_mark; [exact R2|by rewrite lookup_insert_eq|exact HJ|]. intros be3 R3. wp_step.
  eapply wp_upd_inode; [exact Hp|]. wp_step. eapply wp_brelease; [exact R3|by rewrite lookup_insert_eq|]. intros be4 R4. wp_step.
  apply Hok. rewrite delete_insert_id in R4 by done. exact R4.
Qed.

(** sfs_read_inode fills the in-memory inode from the disk. *)
Lemma wp_read_inode m I (be : B) D L U J p i (Q : Z -> sst B -> Prop) :
  blk_rep m be D L U J -> I !! p = Some i -> is_inum (i_inum i) -> i_dirty i = false ->
  (forall h, L !! h <> Some (inum_to_blk (i_inum i))) ->
  (forall be', m = false -> inum_to_blk (i_inum i) ∉ U.*2 -> blk_rep m be' D L U J -> Q ERR_NOMEM (mkS I be')) ->
  (forall be', blk_rep m be' D L U J -> let q := drop (Z.to_nat (inum_to_ofs (i_inum i))) (D (inum_to_blk (i_inum i))) in
     Q ERR_OK (mkS (<[p := mkI (i_inum i) (i_ref i) (of_le16 (drop 2 q)) (nth 0 q 0) (nth 1 q 0) (of_le32 (drop 4 q))
        (map (word (drop 8 q)) (seqZ 0 (SFS_NDIRECT + SFS_NINDIRECT))) true (i_dirty i) (i_lock i)]> I) be')) ->
  wp (sfs_read_inode p) Q (mkS I be).
Proof using Hly.
  intros R Hp Hn Hd HL Hfail Hok. destruct (inum_place _ Hn) as (Eb & Eo & Hrange).
  pose proof (Z.mod_pos_bound (i_inum i - 1) 8 ltac:(lia)). destruct Hly as [_ _ Hb _ _ He]. pose proof (ly_size _ Hly) as [Hs _].
  unfold sfs_read_inode. wp_step. eapply wp_get_inode; [exact Hp|]. wp_step.
  wp_step; [rewrite (proj2 (Z.eqb_neq (i_inum i) 0)) by (unfold is_inum in Hn; lia); done|]. wp_step. wp_step; [by rewrite Hd|].
  eapply wp_bget; [exact R|lia|exact HL| |].
  { intros be1 Hm Hu R1. simpl. wp_step. by apply Hfail. }
  intros h be1 Hh Hhn R1. rewrite (proj2 (Z.eqb_neq h NULL) Hh). wp_step.
  eapply wp_bload; [exact R1|by rewrite lookup_insert_eq|]. cbv zeta.
  destruct (blk_rep_bytes _ _ _ _ _ _ (inum_to_blk (i_inum i)) R) as [Hlen _].
  rewrite length_drop, Hlen. rewrite (proj2 (Z.ltb_ge _ _)) by (unfold SIZEOF_SFS_INODE; lia). wp_step.
  eapply wp_upd_inode; [exact Hp|]. wp_step. eapply wp_brelease; [exact R1|by rewrite lookup_insert_eq|]. intros be2 R2. wp_step.
  apply Hok. rewrite delete_insert_id in R2 by done. exact R2.
Qed.
End wp.
End inodes.
