(* ===== verification/SfsData.v ===== *)
(** * Simple file system: finding and allocating the blocks of a file *)

From stdpp Require Import prelude list gmap.
From Stdlib Require Import ZArith Lia.
From S2P Require Import Prelude DList Blocks Sfs SfsBits SfsAlloc SfsInode.

Section data.
Context (sb : sfs_sb_info) (Hly : layout sb).
Context {B : Type} `{!Blocks B}.
(** The other files, and the file the operation works on. *)
Context (A : gmap Z (list Z)) (n : Z) (Hn : is_inum sb n).
Implicit Types (I : gmap Z inode) (D : Z -> list Z) (L : gmap Z Z) (U : list (Z * Z)) (J : gset Z) (own : gmap Z (Z * Z)).

(** The blocks [D] with the owners [own] and the addresses [a] of the file
    became [D'], [own'] and [a']: at most block [i] of the file is new, and
    then it is zero. *)
Record grown (i : Z) D own (a : list Z) D' own' (a' : list Z) : Prop := {
  gw_ok : fsok sb D' (<[n := a']> A) own';
  gw_own : own ⊆ own';
  gw_keep : forall b x j, own !! b = Some (x, j) -> 0 <= j \/ x <> n -> D' b = D b;
  gw_disk : forall n', is_inum sb n' -> n' <> n -> disk_inode D' n' = disk_inode D n';
  gw_map : forall j, 0 <= j < NBLKS -> fblk D a j <> 0 \/ j <> i -> fblk D' a' j = fblk D a j;
  gw_new : 0 <= i < NBLKS -> fblk D a i = 0 -> fblk D' a' i <> 0 -> D' (fblk D' a' i) = replicate 512 0
}.

Lemma file_grown_refl i D own a D' : fsok sb D (<[n := a]> A) own -> (forall x, D' x = D x) -> grown i D own a D' own a.
Proof using Hly.
  intros F E. assert (Hf : forall j, 0 <= j < NBLKS -> fblk D' a j = fblk D a j).
  { intros j Hj. by apply fblk_frame. }
  split.
  - eapply fsok_frame; [done|exact F|intros b; rewrite E; apply F|done..].
  - done.
  - done.
  - intros n' _ _. unfold disk_inode. by rewrite E.
  - intros j Hj _. by apply Hf.
  - intros Hi Hz. by rewrite Hf, Hz.
Qed.

Lemma file_grown_trans i D own a D1 own1 a1 D2 own2 a2 : grown i D own a D1 own1 a1 -> grown i D1 own1 a1 D2 own2 a2 ->
  grown i D own a D2 own2 a2.
Proof using Type.
  intros [F1 O1 K1 S1 M1 N1] [F2 O2 K2 S2 M2 N2]. split.
  - done.
  - by etrans.
  - intros b x j Hb Hj. rewrite (K2 b x j), (K1 b x j); [done..| |done]. by eapply lookup_weaken.
  - intros n' Hn' Hne. by rewrite S2, S1.
  - intros j Hj Hc. destruct (decide (fblk D a j = 0)) as [E|E].
    + destruct Hc as [?|Hc]; [done|]. rewrite M2, M1; [done|done|by right|done|by right].
    + assert (E1 : fblk D1 a1 j = fblk D a j) by (apply M1; [done|by left]). rewrite M2; [done|done|left; by rewrite E1].
  - intros Hi Hz Hnz. destruct (decide (fblk D1 a1 i = 0)) as [E|E]; [by apply N2|].
    rewrite M2 by (done || by left). rewrite (K2 (fblk D1 a1 i) n i); [by apply N1| |left; lia].
    apply (fo_data _ _ _ _ F1 n a1); [by rewrite lookup_insert_eq|done|done].
Qed.

(** Only the addresses and the dirty flag of the inode changed. *)
Definition same_inode (i i' : inode) : Prop :=
  set_dirty false i' = set_dirty false (set_addrs (i_addrs i') i).

Lemma same_inode_refl i : same_inode i i.
Proof using Type. by destruct i. Qed.
Lemma same_inode_trans i j k : same_inode i j -> same_inode j k -> same_inode i k.
Proof using Type. unfold same_inode, set_dirty, set_addrs. destruct i, j, k; simpl. intros. congruence. Qed.
Lemma same_inode_fields i i' : same_inode i i' -> i_inum i' = i_inum i /\ i_size i' = i_size i /\ i_lock i' = i_lock i /\
  i_ftype i' = i_ftype i /\ i_mode i' = i_mode i /\ i_nlink i' = i_nlink i /\ i_ref i' = i_ref i /\ i_valid i' = i_valid i.
Proof using Type. unfold same_inode, set_dirty, set_addrs. destruct i, i'; simpl. intros [=]. by repeat split. Qed.

(** The disk holds the inode. *)
Definition on_disk D (i : inode) : Prop := disk_inode D n = enc i.

(** The state after an operation that may have allocated block [i]. *)
Definition gstate (m : bool) (idx p : Z) (i0 : inode) I D L U J own (X : gset Z) D' own' (i' : inode) J' (s' : sst B) : Prop :=
  exists be', s' = mkS (<[p := i']> I) be' /\ blk_rep m be' D' L U J' /\ same_inode i0 i' /\
    grown idx D own (i_addrs i0) D' own' (i_addrs i') /\ (on_disk D i0 -> on_disk D' i') /\
    J' ⊆ J ∪ bmaps sb ∪ {[inum_to_blk n]} ∪ X.

(** The fresh block [b] was written into address [idx] of the inode and the
    inode stored on disk. *)
Lemma grown_attach D own a idx k D1 v : fsok sb D (<[n := a]> A) own -> 0 <= idx < 14 -> addr a idx = 0 ->
  0 <= k < s_size sb -> dbit sb D k = false -> took sb D k D1 -> length v = 64%nat -> Forall (fun x => 0 <= x < 256) v ->
  let b := s_data_start sb + k in
  forall i, i = idx \/ 12 <= idx ->
  grown i D own a (put_inode D1 n v) (<[b := (n, slot idx)]> own) (<[Z.to_nat idx := b]> a).
Proof using Hly Hn.
  intros F Hidx Hz Hk Hd Ht Hl Hv b i Hi. destruct (took_ok sb Hly _ _ _ _ _ F Hk Hd Ht) as (F1 & Ho & Hu & Hzero).
  pose proof (ly_bmap _ Hly). pose proof (ly_table _ Hly). pose proof (ly_inodes _ Hly). pose proof (Z.div_pos (s_num_inodes sb + 7) 8).
  unfold SFS_INODE_TABLE_BLK in *. assert (Hb0 : b <> 0) by (unfold b; lia).
  assert (Hla : length a = 14%nat) by (apply (fo_len _ _ _ _ F n); by rewrite lookup_insert_eq).
  assert (F2 : fsok sb D1 (<[n := <[Z.to_nat idx := b]> a]> A) (<[b := (n, slot idx)]> own)).
  { pose proof (attach_addr sb D1 (<[n := a]> A) own n a idx b F1 ltac:(by rewrite lookup_insert_eq) Hidx Hz Hu Ho Hzero Hb0) as F2.
    by rewrite insert_insert_eq in F2. }
  assert (Hput : forall x, s_data_bmap_start sb <= x -> put_inode D1 n v x = D1 x) by (intros x Hx; by eapply put_inode_ne).
  assert (F3 : fsok sb (put_inode D1 n v) (<[n := <[Z.to_nat idx := b]> a]> A) (<[b := (n, slot idx)]> own)).
  { eapply fsok_frame; [done|exact F2|eapply put_inode_block; [exact Hly|apply F1|done..]| |].
    - intros c x Hc. apply Hput. pose proof (owned_range _ _ _ _ _ _ F2 Hc). lia.
    - intros x Hx%bmaps_in. apply Hput; lia. }
  assert (Hfb : forall j, 0 <= j < NBLKS -> fblk (put_inode D1 n v) (<[Z.to_nat idx := b]> a) j =
    if j =? idx then (if idx <? 12 then b else fblk D a j) else fblk D a j).
  { intros j Hj. rewrite (fblk_frame D1).
    - rewrite fblk_attach by done.
      assert (E : fblk D1 a j = fblk D a j).
      { apply fblk_frame; [|done]. intros c Hc Hne. eapply (took_owned sb Hly); [exact F|done..|].
        apply (fo_ind _ _ _ _ F n a c); [by rewrite lookup_insert_eq|done|done]. }
      by rewrite E.
    - intros c Hc Hne. apply Hput. assert (Hoc := fo_ind _ _ _ _ F2 n _ c ltac:(by rewrite lookup_insert_eq) Hc Hne).
      pose proof (owned_range _ _ _ _ _ _ F2 Hoc). lia.
    - done. }
  split.
  - exact F3.
  - by apply insert_subseteq.
  - intros c x j Hc _. destruct (took_owned sb Hly _ _ _ _ _ _ _ F Hk Hd Ht Hc) as [_ <-]. apply Hput.
    pose proof (owned_range _ _ _ _ _ _ F Hc). lia.
  - intros n' Hn' Hne. rewrite (disk_put sb Hly); [|apply F1|done..]. rewrite (proj2 (Z.eqb_neq n' n) Hne).
    unfold disk_inode. f_equal. f_equal. rewrite Ht. destruct (inum_place sb Hly n' Hn') as (_ & _ & Hr).
    pose proof (bmap_of_range sb Hly k Hk).
    rewrite (proj2 (Z.eqb_neq _ (s_data_start sb + k))), (proj2 (Z.eqb_neq _ (bmap_of sb k))) by lia. done.
  - intros j Hj Hc. rewrite Hfb by done. destruct (Z.eqb_spec j idx) as [->|]; [|done].
    destruct (Z.ltb_spec idx 12) as [H12|]; [|done]. exfalso.
    assert (E : fblk D a idx = 0) by (unfold fblk; change SFS_NDIRECT with 12; rewrite (proj2 (Z.ltb_lt idx 12)) by lia; done).
    destruct Hc as [?|Hc]; [done|]. destruct Hi; [done|lia].
  - intros Hir Hz0. rewrite Hfb by done. destruct (Z.eqb_spec i idx) as [->|]; [|by rewrite Hz0].
    destruct (idx <? 12); [|by rewrite Hz0]. intros _. rewrite Hput by (unfold b; lia). exact Hzero.
Qed.

(** Every data block is in use. *)
Definition disk_full D : Prop := forall k, 0 <= k < s_size sb -> dbit sb D k = true.

Lemma disk_full_same D D' : (forall x, D' x = D x) -> disk_full D -> disk_full D'.
Proof using Type. intros E H k Hk. unfold dbit. rewrite E. by apply H. Qed.

(** Why an operation failed, with the blocks [D] after it. *)
Definition failed (m alloc : bool) (err : Z) (missing : Prop) D : Prop :=
  (err = ERR_NOTEXIST /\ alloc = false /\ missing) \/ (err = ERR_NOMEM /\ m = false) \/ (err = ERR_NORES /\ alloc = true /\ missing /\ disk_full D).

Lemma failed_not_ok m alloc err P D : failed m alloc err P D -> (err =? ERR_OK) = false.
Proof using Type. intros [[-> _]|[[-> _]|[-> _]]]; done. Qed.

Lemma gstate_refl m idx p i I D L U J own X J' be : I !! p = Some i -> fsok sb D (<[n := i_addrs i]> A) own ->
  blk_rep m be D L U J' -> J' ⊆ J ∪ bmaps sb -> gstate m idx p i I D L U J own X D own i J' (mkS I be).
Proof using Hly Hn.
  intros Hp F R HJ. exists be. split; [by rewrite insert_id|]. split; [done|]. split; [apply same_inode_refl|].
  split; [by apply file_grown_refl|]. split; [done|]. set_solver.
Qed.

Lemma gstate_same m idx p i I D L U J own X D' J' be : I !! p = Some i -> fsok sb D (<[n := i_addrs i]> A) own ->
  blk_rep m be D' L U J' -> (forall x, D' x = D x) -> J' ⊆ J ∪ bmaps sb -> gstate m idx p i I D L U J own X D' own i J' (mkS I be).
Proof using Hly Hn.
  intros Hp F R HD HJ. exists be. split; [by rewrite insert_id|]. split; [done|]. split; [apply same_inode_refl|].
  split; [by apply file_grown_refl|]. split; [|set_solver]. unfold on_disk, disk_inode. by rewrite HD.
Qed.

Lemma wp_get_direct m I (be : B) D U J own p i idx alloc t :
  blk_rep m be D ∅ U J -> I !! p = Some i -> i_inum i = n -> fsok sb D (<[n := i_addrs i]> A) own ->
  0 <= idx < 14 -> inum_to_blk n ∈ U.*2 -> (alloc = true -> log_room sb J 2) -> t = idx \/ 12 <= idx ->
  wp (get_direct sb p idx alloc) (fun r s' => exists D' own' i' J',
    gstate m t p i I D ∅ U J own {[r.2]} D' own' i' J' s' /\ (alloc = false \/ addr (i_addrs i) idx <> 0 -> i' = i /\ own' = own /\ J' = J /\ forall x, D' x = D x) /\
    ((r.1 = ERR_OK /\ r.2 = addr (i_addrs i') idx /\ r.2 <> 0) \/
     (failed m alloc r.1 (addr (i_addrs i) idx = 0) D'))) (mkS I be).
Proof using Hly Hn.
  intros R Hp Hin F Hidx Hpin HJ Ht. assert (Hla : length (i_addrs i) = 14%nat) by (apply (fo_len _ _ _ _ F n); by rewrite lookup_insert_eq).
  unfold get_direct. wp_step. eapply wp_get_inode; [exact Hp|]. wp_step.
  destruct (lookup_lt_is_Some_2 (i_addrs i) (Z.to_nat idx)) as [blk Hblk]; [lia|]. eapply wp_deref; [exact Hblk|].
  assert (Ea : addr (i_addrs i) idx = blk) by (unfold addr; by apply nth_lookup_Some). rewrite Ea.
  destruct (Z.eqb_spec blk 0) as [->|Hb0].
  2:{ wp_step. exists D, own, i, J. split; [apply gstate_refl; [done..|set_solver]|]. split; [done|]. left. by rewrite Ea. }
  destruct alloc; cbn [negb].
  2:{ wp_step. exists D, own, i, J. split; [apply gstate_refl; [done..|set_solver]|]. split; [done|]. right. by left. }
  specialize (HJ eq_refl). wp_step. eapply (wp_alloc_data sb Hly m I be D ∅ U J); [exact R|intros h b; by rewrite lookup_empty|unfold log_room in *; lia| |].
  - intros err b be' D' J' He HD HJ' R'. assert (Hf : failed m true err (0 = 0) D') by (destruct He as [[-> ?]|[-> Hfull]]; [right; by left|right; right; do 3 (split; [done|]); by eapply disk_full_same]).
    cbn [fst snd]. rewrite (failed_not_ok _ _ _ _ _ Hf). cbn [negb]. wp_step. exists D', own, i, J'.
    split; [by apply gstate_same|]. split; [by intros [?|?]|]. by right.
  - intros k be1 D1 J1 Hk Hd Htk HJ1 R1. cbn [fst snd]. change (negb (ERR_OK =? ERR_OK)) with false. cbn match.
    set (b := s_data_start sb + k) in *. wp_step. eapply wp_upd_inode; [exact Hp|]. wp_step.
    eapply wp_upd_inode; [by rewrite lookup_insert_eq|]. rewrite insert_insert_eq.
    set (i2 := set_dirty true _). wp_step. assert (Hi2 : i_inum i2 = n) by done.
    assert (Hl2 : length (i_addrs i2) = 14%nat) by (simpl; by rewrite length_insert).
    eapply (wp_write_inode sb Hly m _ be1 D1 ∅ U J1 p i2); [exact R1|by rewrite lookup_insert_eq|by rewrite Hi2|done|intros h; by rewrite lookup_empty| | |].
    + rewrite Hi2. eapply (log_room_one sb _ _ 0), (log_room_add sb J J1 b 1); [set_solver|exact HJ].
    + rewrite Hi2. intros be2 _ Hu. done.
    + rewrite Hi2, insert_insert_eq. intros be2 R2. wp_step. cbn [fst snd].
      eexists _, (<[b := (n, slot idx)]> own), (set_dirty false i2), _. split; [|split; [by intros [?|?]|]].
      * exists be2. split; [done|]. split; [exact R2|]. split; [by destruct i|]. split; [|split].
        -- apply (grown_attach D own (i_addrs i) idx k D1 (enc i2)); try done; [by apply enc_inode_length|apply enc_inode_bytes].
        -- intros _. unfold on_disk. rewrite (disk_put sb Hly); [|intros c; exact (blk_rep_bytes _ _ _ _ _ _ c R1)|done|done|by apply enc_inode_length].
           rewrite Z.eqb_refl. done.
        -- set_solver.
      * left. split; [done|]. simpl. rewrite addr_insert by lia. rewrite Z.eqb_refl. split; [done|].
        pose proof (ly_bmap _ Hly). pose proof (ly_table _ Hly). pose proof (ly_inodes _ Hly). pose proof (Z.div_pos (s_num_inodes sb + 7) 8).
        unfold SFS_INODE_TABLE_BLK in *. unfold b. lia.
Qed.

(** The fresh block was written into word [o] of indirect block [k]. *)
Lemma grown_word D own a k o j D1 : fsok sb D (<[n := a]> A) own -> 0 <= k < 2 -> 0 <= o < 128 -> addr a (12 + k) <> 0 ->
  fblk D a (12 + 128 * k + o) = 0 -> 0 <= j < s_size sb -> dbit sb D j = false -> took sb D j D1 ->
  let b := s_data_start sb + j in let ib := addr a (12 + k) in
  let D2 := upd_blk D1 ib (patch (D1 ib) (4 * o) (le32 b)) in
  grown (12 + 128 * k + o) D own a D2 (<[b := (n, 12 + 128 * k + o)]> own) a /\ fblk D2 a (12 + 128 * k + o) = b /\
  (forall n', is_inum sb n' -> disk_inode D2 n' = disk_inode D n').
Proof using Hly Hn.
  intros F Hk Ho Hib Hz Hj Hd Ht b ib D2. destruct (took_ok sb Hly _ _ _ _ _ F Hj Hd Ht) as (F1 & Hbo & Hbu & Hzero). fold b in Hbo, Hbu, Hzero.
  pose proof (ly_bmap _ Hly). pose proof (ly_end _ Hly). pose proof (ly_table _ Hly). pose proof (ly_inodes _ Hly).
  pose proof (Z.div_pos (s_num_inodes sb + 7) 8). unfold SFS_INODE_TABLE_BLK in *.
  assert (Ha : <[n := a]> A !! n = Some a) by (by rewrite lookup_insert_eq).
  assert (Hown : own !! ib = Some (n, -1 - k)) by (by apply (fo_ind _ _ _ _ F n a k)).
  pose proof (owned_range _ _ _ _ _ _ F Hown) as Hibr.
  assert (Hf1 : forall i, 0 <= i < NBLKS -> fblk D1 a i = fblk D a i).
  { intros i Hi. apply fblk_frame; [|done]. intros c Hc Hne. eapply (took_owned sb Hly); [exact F|done..|].
    by apply (fo_ind _ _ _ _ F n a c). }
  assert (HN : 0 <= 12 + 128 * k + o < NBLKS) by (unfold NBLKS, SFS_NDIRECT, SFS_NINDIRECT; lia).
  assert (Hbr : 0 <= b < 2 ^ 32 /\ own !! b = None /\ used sb D1 b) by (split; [unfold b; lia|done]).
  assert (Hw : forall i, 0 <= i < NBLKS -> fblk D2 a i = if bool_decide (i = 12 + 128 * k + o) then b else fblk D a i).
  { intros i Hi. unfold D2, ib. rewrite (fblk_word sb D1 _ own n a k o b F1 Ha Hk Ho Hbr Hib n a i Ha Hi). rewrite Hf1 by done.
    repeat case_bool_decide; try done; naive_solver. }
  assert (Hdk : forall n', is_inum sb n' -> disk_inode D2 n' = disk_inode D n').
  { intros n' Hn'. unfold disk_inode. destruct (inum_place sb Hly n' Hn') as (_ & _ & Hr). pose proof (bmap_of_range sb Hly j Hj).
    unfold D2. rewrite upd_blk_ne by lia. rewrite Ht.
    rewrite (proj2 (Z.eqb_neq _ (s_data_start sb + j))), (proj2 (Z.eqb_neq _ (bmap_of sb j))) by lia. done. }
  split; [|split; [rewrite Hw by done; by rewrite bool_decide_true|done]]. split.
  - apply (attach_word sb Hly D1 _ own n a k o b F1 Ha Hk Ho Hbr Hib). by rewrite Hf1.
  - by apply insert_subseteq.
  - intros c x i Hc Hx. unfold D2. rewrite upd_blk_ne.
    + by eapply (took_owned sb Hly).
    + intros ->. rewrite Hown in Hc. injection Hc as <- <-. destruct Hx; [lia|done].
  - intros n' Hn' _. by apply Hdk.
  - intros i Hi Hc. rewrite Hw by done. case_bool_decide as E; [|done]. subst i. destruct Hc; done.
  - intros _ _ _. rewrite Hw, bool_decide_true by done. unfold D2. rewrite upd_blk_ne; [done|]. intros Eb. by rewrite Eb, Hown in Hbo.
Qed.

Lemma used_of_owned D A' own b x : fsok sb D A' own -> own !! b = Some x -> used sb D b.
Proof using Type. intros F. apply F. Qed.

Lemma wp_get_indirect m I (be : B) D U J own p i bi alloc :
  blk_rep m be D ∅ U J -> I !! p = Some i -> i_inum i = n -> fsok sb D (<[n := i_addrs i]> A) own ->
  12 <= bi < NBLKS -> inum_to_blk n ∈ U.*2 -> (alloc = true -> log_room sb J 3) ->
  wp (get_indirect sb p bi alloc) (fun '(err, blk, ibh) s' => exists D' own' i' J' L' X,
    gstate m bi p i I D L' U J own ({[blk; X]}) D' own' i' J' s' /\ (alloc = false \/ fblk D (i_addrs i) bi <> 0 -> i' = i /\ own' = own /\ J' = J /\ forall x, D' x = D x) /\
    ((err = ERR_OK /\ L' = ∅ /\ blk = fblk D' (i_addrs i') bi /\ blk <> 0) \/
     (failed m alloc err (fblk D (i_addrs i) bi = 0) D' /\ ((ibh = NULL /\ L' = ∅) \/ (ibh <> NULL /\ exists b, L' = {[ibh := b]}))))) (mkS I be).
Proof using Hly Hn.
  intros R Hp Hin F Hbi Hpin HJ. destruct (ind_index bi) as (Hk & Ho & Ebi); [change SFS_NDIRECT with 12; lia|].
  change SFS_NDIRECT with 12 in *. set (k := (bi - 12) / 128) in *. set (o := (bi - 12) mod 128) in *.
  unfold get_indirect. change SFS_NDIRECT with 12. change SFS_NINDIRECT with 2. change (BDEV_BLK_SIZE / 4) with 128. fold k o. cbv zeta.
  wp_step. wp_step; [apply Z.ltb_lt; lia|]. wp_step.
  eapply wp_mono; [apply (wp_get_direct m I be D U J own p i (12 + k) alloc bi); try done; [lia|intros E; specialize (HJ E); unfold log_room in *; lia|right; lia]|].
  intros [err blk] s1 (D1 & own1 & i1 & J1 & (be1 & -> & R1 & Hsame & G1 & Hod1 & HJ1) & Hna0 & Hr). cbn [fst snd] in *.
  assert (Hna : alloc = false \/ fblk D (i_addrs i) bi <> 0 -> i1 = i /\ own1 = own /\ J1 = J /\ forall x, D1 x = D x).
  { intros Ha. apply Hna0. destruct Ha as [|Hne]; [by left|right]. intros Ez. apply Hne. unfold fblk. change SFS_NDIRECT with 12.
    rewrite (proj2 (Z.ltb_ge bi 12)) by lia. fold k. by rewrite Ez, Z.eqb_refl. }
  destruct Hr as [(-> & Eblk & Hb0)|Hfail].
  2:{ rewrite (failed_not_ok _ _ _ _ _ Hfail). cbn [negb]. wp_step. exists D1, own1, i1, J1, ∅, blk. split; [|split; [done|]].
      - exists be1. do 5 (split; [done|]). clear -HJ1. set_solver.
      - right. split; [|by left]. assert (Hfz : addr (i_addrs i) (12 + k) = 0 -> fblk D (i_addrs i) bi = 0).
        { intros Hz. unfold fblk. change SFS_NDIRECT with 12. rewrite (proj2 (Z.ltb_ge bi 12)) by lia. fold k. by rewrite Hz, Z.eqb_refl. }
        destruct Hfail as [(-> & -> & Hz)|[Hf|(-> & -> & Hz & Hf)]]; [left|right; by left|right; right]; do 2 (split; [done|]); auto. }
  change (negb (ERR_OK =? ERR_OK)) with false. cbn match. rewrite Eblk in *.
  pose proof (gw_ok _ _ _ _ _ _ _ G1) as F1. set (a1 := i_addrs i1) in *.
  assert (Ha1 : <[n := a1]> A !! n = Some a1) by (by rewrite lookup_insert_eq).
  assert (Hown : own1 !! addr a1 (12 + k) = Some (n, -1 - k)) by (by apply (fo_ind _ _ _ _ F1 n a1 k)).
  pose proof (owned_range _ _ _ _ _ _ F1 Hown) as Hir. pose proof (ly_end _ Hly). pose proof (ly_bmap _ Hly). pose proof (ly_table _ Hly).
  pose proof (ly_inodes _ Hly). pose proof (Z.div_pos (s_num_inodes sb + 7) 8). unfold SFS_INODE_TABLE_BLK in *.
  wp_step. wp_step; [apply Z.ltb_lt; lia|].
  assert (Hfb : fblk D1 a1 bi = word (D1 (addr a1 (12 + k))) o).
  { unfold fblk. change SFS_NDIRECT with 12. rewrite (proj2 (Z.ltb_ge bi 12)) by lia. fold k o. by rewrite (proj2 (Z.eqb_neq _ 0) Hb0). }
  assert (Hmap : fblk D (i_addrs i) bi <> 0 -> fblk D1 a1 bi <> 0).
  { intros Hne. rewrite (gw_map _ _ _ _ _ _ _ G1); [done|lia|by left]. }
  assert (Hmiss : fblk D1 a1 bi = 0 -> fblk D (i_addrs i) bi = 0) by (intros E; destruct (decide (fblk D (i_addrs i) bi = 0)); [done|by destruct (Hmap n0)]).
  assert (Hst : forall be' L' J2, blk_rep m be' D1 L' U J2 -> J2 = J1 -> forall blk', 
    gstate m bi p i I D L' U J own {[blk'; addr a1 (12 + k)]} D1 own1 i1 J2 (mkS (<[p := i1]> I) be')).
  { intros be' L' J2 R' -> blk'. exists be'. do 5 (split; [done|]). clear -HJ1. set_solver. }
  eapply wp_bget; [exact R1|lia|intros h; by rewrite lookup_empty| |].
  { intros be2 Hm _ R2. simpl (NULL =? NULL). cbn match. wp_step. exists D1, own1, i1, J1, ∅, (addr a1 (12 + k)). split; [by apply Hst|].
    split; [done|]. right. split; [right; by left|by left]. }
  intros h be2 Hh _ R2. rewrite (proj2 (Z.eqb_neq h NULL) Hh). wp_step.
  eapply wp_bload; [exact R2|by rewrite lookup_insert_eq|]. rewrite <- Hfb.
  destruct (Z.eqb_spec (fblk D1 a1 bi) 0) as [Ez|Enz].
  2:{ wp_step. eapply wp_brelease; [exact R2|by rewrite lookup_insert_eq|]. intros be3 R3. rewrite delete_insert_id in R3 by done. wp_step.
      exists D1, own1, i1, J1, ∅, (addr a1 (12 + k)). split; [by apply Hst|]. split; [done|]. by left. }
  destruct alloc; cbn [negb].
  2:{ wp_step. exists D1, own1, i1, J1, (<[h := addr a1 (12 + k)]> ∅), (addr a1 (12 + k)). split; [by apply Hst|]. split; [done|].
      right. split; [left; split; [done|]; split; [done|by apply Hmiss]|]. right. split; [done|]. by exists (addr a1 (12 + k)). }
  specialize (HJ eq_refl). wp_step. eapply (wp_alloc_data sb Hly m _ be2 D1 (<[h := addr a1 (12 + k)]> ∅) U J1); [exact R2| | | |].
  { intros g c. rewrite lookup_insert. case_decide; [intros [= <-]; by eapply used_of_owned|by rewrite lookup_empty]. }
  { eapply (log_room_add sb (({[inum_to_blk n]} ∪ J)) J1 (addr a1 (12 + k)) 1); [clear -HJ1; set_solver|].
    eapply (log_room_add sb J _ (inum_to_blk n) 2); [clear; set_solver|exact HJ]. }
  - intros err b be' D2 J2 He HD HJ2 R3. assert (Hf : failed m true err (fblk D (i_addrs i) bi = 0) D2) by (destruct He as [[-> ?]|[-> Hfull]]; [right; by left|right; right; do 2 (split; [done|]); split; [by apply Hmiss|by eapply disk_full_same]]).
    cbn [fst snd]. rewrite (failed_not_ok _ _ _ _ _ Hf). cbn [negb]. wp_step. exists D2, own1, i1, J2, (<[h := addr a1 (12 + k)]> ∅), (addr a1 (12 + k)).
    split; [|split; [intros [?|?]; [done|by destruct (Hmiss Ez)]|]].
    + exists be'. split; [done|]. split; [exact R3|]. split; [done|]. split; [|split].
      * eapply file_grown_trans; [exact G1|]. by apply file_grown_refl.
      * intros Hod. specialize (Hod1 Hod). unfold on_disk, disk_inode in *. by rewrite HD.
      * clear -HJ1 HJ2. set_solver.
    + right. split; [done|]. right. split; [done|]. by exists (addr a1 (12 + k)).
  - intros j be3 D2 J2 Hj Hd Ht HJ2 R3. cbn [fst snd]. change (negb (ERR_OK =? ERR_OK)) with false. cbn match.
    set (b := s_data_start sb + j) in *. wp_step.
    destruct (grown_word D1 own1 a1 k o j D2 F1 Hk Ho Hb0 ltac:(by rewrite <- Ebi) Hj Hd Ht) as (G2 & Hfb2 & Hdk). fold b in G2, Hfb2, Hdk.
    eapply wp_store_bytes; [exact R3|by rewrite lookup_insert_eq|lia|simpl; lia|apply le32_bytes|]. intros be4 R4. wp_step.
    eapply wp_mark; [exact R4|by rewrite lookup_insert_eq| |].
    { apply (log_room_fits sb), (log_room_set sb J _ {[addr a1 (12 + k); inum_to_blk n; b]} 3); [clear -HJ1 HJ2; set_solver| |done].
      pose proof (size_add (addr a1 (12 + k)) {[inum_to_blk n; b]}). pose proof (size_add (inum_to_blk n) {[b]}).
      rewrite size_singleton in *. rewrite <- union_assoc_L. lia. }
    intros be5 R5. wp_step. eapply wp_brelease; [exact R5|by rewrite lookup_insert_eq|]. intros be6 R6. rewrite delete_insert_id in R6 by done. wp_step.
    rewrite <- Ebi in *. eexists _, (<[b := (n, bi)]> own1), i1, _, ∅, (addr a1 (12 + k)). split; [|split; [intros [?|?]; [done|by destruct (Hmiss Ez)]|]].
    + exists be6. split; [done|]. split; [exact R6|]. split; [done|]. split; [by eapply file_grown_trans|]. split.
      * intros Hod. specialize (Hod1 Hod). unfold on_disk in *. by rewrite Hdk.
      * clear -HJ1 HJ2. set_solver.
    + left. split; [done|]. split; [done|]. split; [symmetry; exact Hfb2|]. unfold b. lia.
Qed.
End data.
