(* ===== verification/SfsBytes.v ===== *)
(** * Simple file system: the block of a file that holds an offset *)

From stdpp Require Import prelude list gmap.
From Stdlib Require Import ZArith Lia.
From S2P Require Import Prelude DList Blocks Sfs SfsBits SfsAlloc SfsInode SfsData.

Lemma ofs_index ofs : 0 <= ofs < SFS_MAX_FILE_SIZE -> 0 <= ofs / 512 < NBLKS /\ 0 <= ofs mod 512 < 512 /\ ofs = 512 * (ofs / 512) + ofs mod 512.
Proof.
  change SFS_MAX_FILE_SIZE with (268 * 512). change NBLKS with 268. intros H. pose proof (Z.div_mod ofs 512 ltac:(lia)).
  pose proof (Z.mod_pos_bound ofs 512 ltac:(lia)). pose proof (Z.div_pos ofs 512). pose proof (Z.div_lt_upper_bound ofs 512 268). lia.
Qed.

Section data.
Context (sb : sfs_sb_info) (Hly : layout sb).
Context {B : Type} `{!Blocks B}.
Context (A : gmap Z (list Z)) (n : Z) (Hn : is_inum sb n).
Implicit Types (I : gmap Z inode) (D : Z -> list Z) (L : gmap Z Z) (U : list (Z * Z)) (J X : gset Z) (own : gmap Z (Z * Z)).
Abbreviation gst := (gstate sb A n).

(** The frame of an operation that does not allocate: it must not, or block
    [bi] is there. *)
Definition quiet (alloc : bool) (bi : Z) D own (i : inode) J D' own' (i' : inode) J' : Prop :=
  alloc = false \/ fblk D (i_addrs i) bi <> 0 -> i' = i /\ own' = own /\ J' = J /\ forall x, D' x = D x.

(** The number of the block, through get_direct or get_indirect. *)
Definition locate (p bi : Z) (alloc : bool) : M (sst B) (Z * Z * Z) :=
  if bi <? SFS_NDIRECT then r <- get_direct sb p bi alloc;; ret (fst r, snd r, NULL)
  else get_indirect sb p bi alloc.

Lemma wp_locate m I (be : B) D U J own p i bi alloc :
  blk_rep m be D ∅ U J -> I !! p = Some i -> i_inum i = n -> fsok sb D (<[n := i_addrs i]> A) own ->
  0 <= bi < NBLKS -> inum_to_blk n ∈ U.*2 -> (alloc = true -> log_room sb J 3) ->
  wp (locate p bi alloc) (fun '(err, blk, ibh) s' => exists D' own' i' J' L' X,
    gst m bi p i I D L' U J own X D' own' i' J' s' /\ (size X <= 2)%nat /\ quiet alloc bi D own i J D' own' i' J' /\
    ((err = ERR_OK /\ L' = ∅ /\ blk = fblk D' (i_addrs i') bi /\ blk <> 0 /\ (bi < 12 -> ibh = NULL)) \/
     (failed sb m alloc err (fblk D (i_addrs i) bi = 0) D' /\ ((ibh = NULL /\ L' = ∅) \/ (ibh <> NULL /\ exists b, L' = {[ibh := b]}))))) (mkS I be).
Proof using Hly Hn.
  intros R Hp Hin F Hbi Hpin HJ. unfold locate. destruct (Z.ltb_spec bi SFS_NDIRECT) as [Hd|Hi]; change SFS_NDIRECT with 12 in *.
  - wp_step. eapply wp_mono; [apply (wp_get_direct sb Hly A n Hn m I be D U J own p i bi alloc bi); try done; [lia|intros E; specialize (HJ E); unfold log_room in *; lia|by left]|].
    intros [err blk] s1 (D1 & own1 & i1 & J1 & G & Hq & Hr). wp_step. cbn [fst snd] in *.
    assert (Hfb : forall D0 a, fblk D0 a bi = addr a bi) by (intros D0 a; unfold fblk; by rewrite (proj2 (Z.ltb_lt bi SFS_NDIRECT)) by (change SFS_NDIRECT with 12; lia)).
    rewrite Hfb. exists D1, own1, i1, J1, ∅, {[blk]}. rewrite Hfb, size_singleton. split; [done|]. split; [lia|]. split; [unfold quiet; by rewrite Hfb|].
    destruct Hr as [(? & ? & ?)|Hf]; [by left|right; split; [done|by left]].
  - eapply wp_mono; [apply (wp_get_indirect sb Hly A n Hn m I be D U J own p i bi alloc); done || lia|].
    intros [[err blk] ibh] s1 (D1 & own1 & i1 & J1 & L1 & X & G & Hq & Hr). exists D1, own1, i1, J1, L1, {[blk; X]}.
    split; [done|]. split; [pose proof (size_add blk {[X]}); rewrite size_singleton in *; lia|]. split; [done|].
    destruct Hr as [(? & ? & ? & ?)|Hf]; [left|by right]. do 4 (split; [done|]). lia.
Qed.

(** What get_data_block returns: the locked block of the file, or why there
    is none.  When memory can run out, only for direct blocks (an indirect
    block would be released twice). *)
Lemma wp_get_data_block m I (be : B) D U J own p i ofs alloc :
  blk_rep m be D ∅ U J -> I !! p = Some i -> i_inum i = n -> fsok sb D (<[n := i_addrs i]> A) own ->
  0 <= ofs < SFS_MAX_FILE_SIZE -> m = true \/ ofs < 12 * 512 -> (alloc = true -> log_room sb J 3) ->
  wp (get_data_block sb p ofs alloc) (fun r s' => exists D' own' i' J' L' X,
    gst m (ofs / 512) p i I D L' U J own X D' own' i' J' s' /\ (size X <= 2)%nat /\ quiet alloc (ofs / 512) D own i J D' own' i' J' /\
    let blk := fblk D' (i_addrs i') (ofs / 512) in
    ((r.1 = ERR_OK /\ r.2 <> NULL /\ L' = {[r.2 := blk]} /\ blk <> 0) \/
     (failed sb m alloc r.1 (fblk D (i_addrs i) (ofs / 512) = 0) D' /\ L' = ∅))) (mkS I be).
Proof using Hly Hn.
  intros R Hp Hin F Hofs Hm HJ. destruct (ofs_index ofs Hofs) as (Hbi & _ & _). set (bi := ofs / 512) in *.
  destruct (inum_place sb Hly n Hn) as (_ & _ & Hpl). pose proof (ly_end _ Hly). pose proof (ly_bmap _ Hly). pose proof (ly_size _ Hly) as [].
  unfold get_data_block. wp_step. wp_step; [apply Z.ltb_lt; lia|]. unfold acquire_inode_bh. wp_step. wp_step.
  eapply wp_get_inode; [exact Hp|]. rewrite Hin. apply wp_unbind.
  assert (HX0 : (size (∅ : gset Z) <= 2)%nat) by (rewrite size_empty; lia).
  eapply wp_bpin; [exact R|lia| |].
  { intros be' Hm' _ R'. simpl (NULL =? NULL). cbn match. wp_step. exists D, own, i, J, ∅, ∅. split; [apply gstate_refl; try done; clear; set_solver|].
    split; [done|]. split; [done|]. right. split; [right; by left|done]. }
  intros ibh0 be1 Hib0 R1. rewrite (proj2 (Z.eqb_neq ibh0 NULL) Hib0). change BDEV_BLK_SIZE with 512. fold bi. fold (locate p bi alloc). wp_step.
  eapply wp_mono; [apply (wp_locate m I be1 D ((ibh0, inum_to_blk n) :: U) J own p i bi alloc); try done; rewrite fmap_cons; by apply list_elem_of_here|].
  intros [[err blk] ibh] s1 (D1 & own1 & i1 & J1 & L1 & X & (be2 & -> & R2 & Hsame & G1 & Hod1 & HJ1) & HX & Hq & Hr).
  assert (Hout : forall be' L', blk_rep m be' D1 L' U J1 -> gst m bi p i I D L' U J own X D1 own1 i1 J1 (mkS (<[p := i1]> I) be')).
  { intros be' L' R'. by exists be'. }
  assert (Hfin : forall e be', blk_rep m be' D1 ∅ ((ibh0, inum_to_blk n) :: U) J1 -> failed sb m alloc e (fblk D (i_addrs i) bi = 0) D1 ->
    wp (on_blk (bdev_release_unlocked ibh0);; ret (e, NULL)) (fun r s' => exists D' own' i' J' L' X, 
      gst m bi p i I D L' U J own X D' own' i' J' s' /\ (size X <= 2)%nat /\ quiet alloc bi D own i J D' own' i' J' /\
      let blk := fblk D' (i_addrs i') bi in
      ((r.1 = ERR_OK /\ r.2 <> NULL /\ L' = {[r.2 := blk]} /\ blk <> 0) \/
       (failed sb m alloc r.1 (fblk D (i_addrs i) bi = 0) D' /\ L' = ∅))) (mkS (<[p := i1]> I) be')).
  { intros e be' R' Hf. wp_step. eapply wp_bunpin; [exact R'|]. intros be3 R3. wp_step. exists D1, own1, i1, J1, ∅, X.
    split; [by apply Hout|]. split; [done|]. split; [done|]. by right. }
  destruct Hr as [(-> & -> & Eb & Hb0 & Hib)|(Hf & Hibh)].
  - change (negb (ERR_OK =? ERR_OK)) with false. cbn match. pose proof (gw_ok _ _ _ _ _ _ _ _ _ _ G1) as F1.
    assert (Hown : own1 !! blk = Some (n, bi)).
    { rewrite Eb. apply (fo_data _ _ _ _ F1 n (i_addrs i1)); [by rewrite lookup_insert_eq|done|by rewrite <- Eb]. }
    pose proof (owned_range _ _ _ _ _ _ F1 Hown) as Hr. wp_step. wp_step; [apply Z.ltb_lt; lia|].
    eapply wp_bget; [exact R2|lia|intros h; by rewrite lookup_empty| |].
    + intros be3 Hm' _ R3. simpl (NULL =? NULL). cbn match. destruct Hm as [->|Hm]; [done|].
      rewrite Hib by (unfold bi; pose proof (Z.div_lt_upper_bound ofs 512 12); lia). simpl (negb _). cbn match. wp_step. wp_step.
      apply Hfin; [done|]. right. by left.
    + intros h be3 Hh _ R3. rewrite (proj2 (Z.eqb_neq h NULL) Hh). wp_step. eapply wp_bunpin; [exact R3|]. intros be4 R4. wp_step.
      exists D1, own1, i1, J1, {[h := blk]}, X. split; [by apply Hout|]. split; [done|]. split; [done|]. left. rewrite <- Eb. done.
  - rewrite (failed_not_ok _ _ _ _ _ _ Hf). cbn [negb]. destruct Hibh as [(-> & ->)|(Hne & b & ->)].
    + simpl (negb _). cbn match. wp_step. wp_step. by apply Hfin.
    + rewrite (proj2 (Z.eqb_neq ibh NULL) Hne). cbn [negb]. wp_step. eapply wp_brelease; [exact R2|by rewrite lookup_singleton_eq|].
      intros be3 R3. rewrite delete_singleton_eq in R3. by apply Hfin.
Qed.
End data.

(** * Simple file system: reading and writing the bytes of a file *)

(** The byte at position [pos] of a file: zero in a hole. *)
Definition fbyte (D : Z -> list Z) (a : list Z) (pos : Z) : Z :=
  if fblk D a (pos / 512) =? 0 then 0 else nth (Z.to_nat (pos mod 512)) (D (fblk D a (pos / 512))) 0.

(** Positions inside one block. *)
Lemma pos_block ofs j : 0 <= ofs -> 0 <= j -> ofs mod 512 + j < 512 ->
  (ofs + j) / 512 = ofs / 512 /\ (ofs + j) mod 512 = ofs mod 512 + j.
Proof.
  intros Ho Hj H. pose proof (Z.mod_pos_bound ofs 512 ltac:(lia)). pose proof (Z.div_mod ofs 512 ltac:(lia)) as E.
  assert (E' : ofs + j = (ofs mod 512 + j) + ofs / 512 * 512) by lia. rewrite E'. rewrite Z.div_add, Z.mod_add by lia.
  rewrite Z.div_small, Z.mod_small by lia. lia.
Qed.

Lemma pos_same_block p q : p / 512 = q / 512 -> p = q + (p mod 512 - q mod 512).
Proof. intros E. pose proof (Z.div_mod p 512 ltac:(lia)). pose proof (Z.div_mod q 512 ltac:(lia)). lia. Qed.

Section data.
Context (sb : sfs_sb_info) (Hly : layout sb).
Context {B : Type} `{!Blocks B}.
Context (A : gmap Z (list Z)) (n : Z) (Hn : is_inum sb n).
Implicit Types (I : gmap Z inode) (D : Z -> list Z) (L : gmap Z Z) (U : list (Z * Z)) (J X : gset Z) (own : gmap Z (Z * Z)).

Lemma fsok_same D D' A' own : fsok sb D A' own -> (forall x, D' x = D x) -> fsok sb D' A' own.
Proof using Hly. intros F E. eapply fsok_frame; [done|exact F|intros b; rewrite E; apply F|done..]. Qed.

Lemma fblk_same D D' a i : (forall x, D' x = D x) -> 0 <= i < NBLKS -> fblk D' a i = fblk D a i.
Proof using Type. intros E Hi. by apply fblk_frame. Qed.

(** ** Reading *)

(** read_data returns the bytes of the file from [ofs] on: all that were asked
    for, up to the end of the file, the first hole, or a fetch that found no
    memory. *)
Definition did_read (m : bool) D (i : inode) (count ofs : Z) (out : list Z) : Prop :=
  let len := Z.of_nat (length out) in
  len <= count /\ (out = [] \/ ofs + len <= i_size i) /\
  (forall j : nat, (j < length out)%nat -> out !! j = Some (fbyte D (i_addrs i) (ofs + Z.of_nat j))) /\
  (len = count \/ i_size i <= ofs + len \/ fblk D (i_addrs i) ((ofs + len) / 512) = 0 \/ m = false).

Lemma wp_read_data m I (be : B) D U J own p i count ofs :
  blk_rep m be D ∅ U J -> I !! p = Some i -> i_inum i = n -> fsok sb D (<[n := i_addrs i]> A) own ->
  0 <= ofs -> 0 <= count -> i_size i <= SFS_MAX_FILE_SIZE -> m = true \/ ofs + count <= 12 * 512 ->
  wp (read_data sb p count ofs) (fun out s' => exists be' D', s' = mkS I be' /\ blk_rep m be' D' ∅ U J /\
    (forall x, D' x = D x) /\ did_read m D i count ofs out) (mkS I be).
Proof using Hly Hn.
  intros R Hp Hin F Ho Hc Hsz Hm. unfold read_data.
  apply wp_loop with (mes := fun l _ => Z.to_nat (count - Z.of_nat (length l.1))) (I := fun l s =>
    let '(out, cur) := l in let len := Z.of_nat (length out) in
    exists be' D', s = mkS I be' /\ blk_rep m be' D' ∅ U J /\ (forall x, D' x = D x) /\ cur = ofs + len /\ len <= count /\
      (out = [] \/ cur <= i_size i) /\ forall j : nat, (j < length out)%nat -> out !! j = Some (fbyte D (i_addrs i) (ofs + Z.of_nat j))).
  2:{ exists be, D. split; [done|]. split; [done|]. split; [done|]. split; [simpl; lia|]. split; [simpl; lia|]. split; [by left|]. simpl. lia. }
  2:{ simpl. lia. }
  intros [out cur] s (be1 & D1 & -> & R1 & HD1 & -> & Hlen & Hend & Hby). unfold read_step. wp_step. eapply wp_get_inode; [exact Hp|].
  set (len := Z.of_nat (length out)) in *. cbv zeta.
  assert (Hdone : forall be' D', blk_rep m be' D' ∅ U J -> (forall x, D' x = D x) ->
    (len = count \/ i_size i <= ofs + len \/ fblk D (i_addrs i) ((ofs + len) / 512) = 0 \/ m = false) ->
    exists be'' D'', mkS I be' = mkS I be'' /\ blk_rep m be'' D'' ∅ U J /\ (forall x, D'' x = D x) /\ did_read m D i count ofs out).
  { intros be' D' R' E Hw. exists be', D'. do 3 (split; [done|]). by split. }
  destruct (Z.ltb_spec len count) as [Hlc|]; [|cbn [andb]; wp_step; apply (Hdone be1 D1); [done..|left; lia]].
  destruct (Z.ltb_spec (ofs + len) (i_size i)) as [Hls|]; cbn [andb]; [|wp_step; apply (Hdone be1 D1); [done..|right; by left]].
  assert (Hor : 0 <= ofs + len < SFS_MAX_FILE_SIZE) by lia. destruct (ofs_index _ Hor) as (Hbi & Hbo & _).
  wp_step. eapply wp_mono; [apply (wp_get_data_block sb Hly A n Hn m I be1 D1 U J own p i (ofs + len) false); try done|].
  { by eapply fsok_same. }
  { destruct Hm; [by left|right; lia]. }
  intros [err bh] s1 (D2 & own2 & i2 & J2 & L2 & X & (be2 & -> & R2 & _) & _ & Hq & Hr).
  destruct (Hq (or_introl eq_refl)) as (-> & _ & -> & HD2). rewrite insert_id by done.
  assert (HD : forall x, D2 x = D x) by (intros x; by rewrite HD2, HD1).
  cbn [fst snd] in *. destruct Hr as [(-> & Hbh & -> & Hb0)|(Hf & ->)].
  2:{ rewrite (failed_not_ok _ _ _ _ _ _ Hf). cbn [negb]. wp_step. apply (Hdone be2 D2); [done..|].
      destruct Hf as [(_ & _ & Hz)|[(_ & ->)|(_ & ? & _)]]; [|by do 3 right|done]. do 2 right. left. by rewrite <- (fblk_same D D1). }
  change (negb (ERR_OK =? ERR_OK)) with false. cbn match. wp_step. eapply wp_bload; [exact R2|by rewrite lookup_singleton_eq|].
  rewrite (fblk_same D D2) in * by done. rewrite HD.
  set (b := fblk D (i_addrs i) ((ofs + len) / 512)) in *. change BDEV_BLK_SIZE with 512.
  set (c := Z.min (Z.min (512 - (ofs + len) mod 512) (count - len)) (i_size i - (ofs + len))).
  assert (Hc1 : 1 <= c /\ c <= 512 - (ofs + len) mod 512 /\ c <= count - len /\ c <= i_size i - (ofs + len)) by (unfold c; lia).
  destruct (blk_rep_bytes _ _ _ _ _ _ b R2) as [Hlb _]. rewrite HD in Hlb.
  set (chunk := take (Z.to_nat c) _). assert (Hck : length chunk = Z.to_nat c) by (unfold chunk; rewrite length_take, length_drop; lia).
  wp_step. eapply wp_brelease; [exact R2|by rewrite lookup_singleton_eq|]. intros be3 R3. rewrite delete_singleton_eq in R3. wp_step.
  rewrite length_app, Hck. split; [|simpl; rewrite length_app; lia]. exists be3, D2. do 3 (split; [done|]). split; [lia|]. split; [lia|]. split; [right; lia|].
  intros j Hj. destruct (decide (j < length out)%nat) as [Hjl|Hjl]; [rewrite lookup_app_l by done; by apply Hby|].
  rewrite lookup_app_r by lia. unfold chunk. rewrite lookup_take_lt, lookup_drop by lia.
  destruct (pos_block (ofs + len) (Z.of_nat j - len)) as [E1 E2]; [lia..|].
  replace (ofs + len + (Z.of_nat j - len)) with (ofs + Z.of_nat j) in E1, E2 by lia.
  unfold fbyte. rewrite E1, E2. fold b. rewrite (proj2 (Z.eqb_neq b 0) Hb0), nth_lookup.
  replace (Z.to_nat ((ofs + len) mod 512 + (Z.of_nat j - len))) with (Z.to_nat ((ofs + len) mod 512) + (j - length out))%nat by lia.
  destruct (lookup_lt_is_Some_2 (D b) (Z.to_nat ((ofs + len) mod 512) + (j - length out))) as [x Hx]; [lia|]. by rewrite Hx.
Qed.

(** ** Writing *)

Lemma grown_bytes i D own a D' own' a' pos : fsok sb D (<[n := a]> A) own -> grown sb A n i D own a D' own' a' -> 0 <= pos < SFS_MAX_FILE_SIZE ->
  fbyte D' a' pos = fbyte D a pos.
Proof using Type.
  intros F G Hpos. destruct (ofs_index pos Hpos) as (Hj & Hm & _). unfold fbyte. set (j := pos / 512) in *.
  destruct (Z.eqb_spec (fblk D a j) 0) as [E|E].
  - destruct (Z.eqb_spec (fblk D' a' j) 0) as [|E']; [done|]. assert (j = i) as ->.
    { destruct (decide (j = i)); [done|]. rewrite (gw_map _ _ _ _ _ _ _ _ _ _ G) in E' by (done || by right). done. }
    rewrite (gw_new _ _ _ _ _ _ _ _ _ _ G) by done. rewrite nth_lookup, lookup_replicate_2 by lia. done.
  - rewrite (gw_map _ _ _ _ _ _ _ _ _ _ G) by (done || by left). rewrite (proj2 (Z.eqb_neq _ 0) E).
    rewrite (gw_keep _ _ _ _ _ _ _ _ _ _ G (fblk D a j) n j); [done| |left; lia].
    apply (fo_data _ _ _ _ F n a); [by rewrite lookup_insert_eq|done|done].
Qed.

(** The contents of a data block change. *)
Section store.
Context (D : Z -> list Z) (A' : gmap Z (list Z)) (own : gmap Z (Z * Z)) (b x j : Z) (v : list Z).
Hypothesis F : fsok sb D A' own.
Hypothesis Hb : own !! b = Some (x, j).
Hypothesis Hj : 0 <= j.
Let D' := upd_blk D b v.

Lemma store_fblk n' a' i : A' !! n' = Some a' -> 0 <= i < NBLKS -> fblk D' a' i = fblk D a' i.
Proof using F Hb Hj.
  intros Ha Hi. apply fblk_frame; [|done]. intros k Hk Hne. unfold D'. rewrite upd_blk_ne; [done|].
  pose proof (fo_ind _ _ _ _ F n' a' k Ha Hk Hne) as Ho. intros E. rewrite E, Hb in Ho. injection Ho as _ Ho. lia.
Qed.

Lemma store_ok : is_block v -> fsok sb D' A' own.
Proof using F Hb Hj Hly.
  intros Hv. pose proof (owned_range _ _ _ _ _ _ F Hb) as Hr. pose proof (ly_bmap _ Hly). split.
  - intros c. unfold D', upd_blk. destruct (c =? b); [done|apply F].
  - intros c y Hc. eapply (used_frame sb Hly D); [|by apply (fo_used _ _ _ _ F c y)]. intros z Hz%bmaps_in.
    unfold D'. rewrite upd_blk_ne by lia. done.
  - apply F.
  - intros n' a' i Ha Hi. rewrite (store_fblk n') by done. by apply F.
  - apply F.
Qed.

Lemma store_disk n' : is_inum sb n' -> disk_inode D' n' = disk_inode D n'.
Proof using F Hb Hly.
  intros Hn'. destruct (inum_place sb Hly n' Hn') as (_ & _ & Hr'). pose proof (owned_range _ _ _ _ _ _ F Hb) as Hr. pose proof (ly_bmap _ Hly).
  unfold disk_inode, D'. rewrite upd_blk_ne by lia. done.
Qed.
End store.

(** What a write did: the bytes [v] are at [lo .. hi) of the file, which has
    blocks there, and nothing else changed, in this file or in another. *)
Record wrote (lo hi : Z) (v : list Z) D own a D' own' a' : Prop := {
  wr_ok : fsok sb D' (<[n := a']> A) own';
  wr_own : own ⊆ own';
  wr_other : forall b x j, own !! b = Some (x, j) -> x <> n -> D' b = D b;
  wr_disk : forall n', is_inum sb n' -> n' <> n -> disk_inode D' n' = disk_inode D n';
  wr_byte : forall pos, 0 <= pos < SFS_MAX_FILE_SIZE ->
    fbyte D' a' pos = if decide (lo <= pos < hi) then nth (Z.to_nat (pos - lo)) v 0 else fbyte D a pos;
  wr_map : forall pos, 0 <= pos < SFS_MAX_FILE_SIZE -> fblk D a (pos / 512) <> 0 \/ lo <= pos < hi -> fblk D' a' (pos / 512) <> 0
}.

Lemma wrote_nothing lo v D own a : fsok sb D (<[n := a]> A) own -> wrote lo lo v D own a D own a.
Proof using Type.
  intros F. split; try done.
  - intros pos Hpos. by rewrite decide_False by lia.
  - intros pos Hpos [?|?]; [done|lia].
Qed.

Lemma wrote_grown lo hi v i D own a D1 own1 a1 D2 own2 a2 : wrote lo hi v D own a D1 own1 a1 -> grown sb A n i D1 own1 a1 D2 own2 a2 ->
  wrote lo hi v D own a D2 own2 a2.
Proof using Type.
  intros [F O T K Y M] G. split.
  - apply G.
  - etrans; [exact O|apply G].
  - intros b x j Hb Hx. rewrite (gw_keep _ _ _ _ _ _ _ _ _ _ G b x j); [by eapply T|by eapply lookup_weaken|by right].
  - intros n' Hn' Hne. rewrite (gw_disk _ _ _ _ _ _ _ _ _ _ G) by done. by apply K.
  - intros pos Hpos. rewrite (grown_bytes i D1 own1 a1 D2 own2 a2) by done. by apply Y.
  - intros pos Hpos Hc. specialize (M pos Hpos Hc). destruct (ofs_index pos Hpos) as (Hj & _).
    rewrite (gw_map _ _ _ _ _ _ _ _ _ _ G) by (done || by left). done.
Qed.

Lemma wrote_store lo hi v c D own a D1 own1 a1 : wrote lo hi v D own a D1 own1 a1 -> 0 <= lo <= hi -> hi < SFS_MAX_FILE_SIZE ->
  let b := fblk D1 a1 (hi / 512) in b <> 0 -> 0 < c -> hi mod 512 + c <= 512 ->
  hi - lo + c <= Z.of_nat (length v) -> Forall (fun x => 0 <= x < 256) v ->
  wrote lo (hi + c) v D own a (upd_blk D1 b (patch (D1 b) (hi mod 512) (take (Z.to_nat c) (drop (Z.to_nat (hi - lo)) v)))) own1 a1.
Proof using Hly.
  intros W Hlo Hhi b Hb0 Hc Hfit Hv HF. pose proof W as [F O T K Y M]. destruct (ofs_index hi ltac:(lia)) as (Hbi & Hbo & _).
  assert (Ha : <[n := a1]> A !! n = Some a1) by (by rewrite lookup_insert_eq).
  assert (Hown : own1 !! b = Some (n, hi / 512)) by (by apply (fo_data _ _ _ _ F n a1)).
  set (w := take (Z.to_nat c) (drop (Z.to_nat (hi - lo)) v)). assert (Hlw : length w = Z.to_nat c) by (unfold w; rewrite length_take, length_drop; lia).
  pose proof (fo_block _ _ _ _ F b) as Hblk. assert (Hp : is_block (patch (D1 b) (hi mod 512) w)).
  { apply patch_block; [done|lia|lia|]. unfold w. by apply Forall_take, Forall_drop. }
  assert (Hf : forall i, 0 <= i < NBLKS -> fblk (upd_blk D1 b (patch (D1 b) (hi mod 512) w)) a1 i = fblk D1 a1 i).
  { intros i Hi. apply (store_fblk D1 (<[n := a1]> A) own1 b n (hi / 512) _ F Hown ltac:(lia) n); done. }
  split.
  - eapply store_ok; [exact F|exact Hown|lia|done].
  - done.
  - intros b' x j Hb' Hx. rewrite upd_blk_ne; [by eapply T|]. intros ->. pose proof (lookup_weaken _ _ _ _ Hb' O). congruence.
  - intros n' Hn' Hne. erewrite store_disk; [by apply K|exact F|exact Hown|done].
  - intros pos Hpos. destruct (ofs_index pos Hpos) as (Hj & Hm & Epos). unfold fbyte at 1. rewrite Hf by done.
    destruct (decide (hi <= pos < hi + c)) as [Hin|Hout].
    + destruct (pos_block hi (pos - hi)) as [E1 E2]; [lia..|]. replace (hi + (pos - hi)) with pos in E1, E2 by lia.
      rewrite E1, E2. fold b. rewrite (proj2 (Z.eqb_neq b 0) Hb0), upd_blk_eq. rewrite decide_True by lia.
      destruct Hblk as [Hlb _]. rewrite nth_patch by lia. rewrite decide_True by lia. unfold w. rewrite !nth_lookup, lookup_take_lt, lookup_drop by lia.
      f_equal. f_equal. lia.
    + assert (Hsame : (if fblk D1 a1 (pos / 512) =? 0 then 0 else
        nth (Z.to_nat (pos mod 512)) (upd_blk D1 b (patch (D1 b) (hi mod 512) w) (fblk D1 a1 (pos / 512))) 0) = fbyte D1 a1 pos).
      { unfold fbyte. destruct (Z.eqb_spec (fblk D1 a1 (pos / 512)) 0) as [|Hne]; [done|]. unfold upd_blk.
        destruct (Z.eqb_spec (fblk D1 a1 (pos / 512)) b) as [Eb|]; [|done].
        assert (Hop : own1 !! fblk D1 a1 (pos / 512) = Some (n, pos / 512)) by (by apply (fo_data _ _ _ _ F n a1)).
        rewrite Eb, Hown in Hop. injection Hop as Hop. symmetry in Hop. pose proof (pos_same_block _ _ Hop).
        rewrite Eb. destruct Hblk as [Hlb _]. rewrite nth_patch by lia. by rewrite decide_False by lia. }
      rewrite Hsame, Y by done. repeat case_decide; done || lia.
  - intros pos Hpos Hc'. destruct (ofs_index pos Hpos) as (Hj & Hm & Epos). rewrite Hf by done.
    destruct (decide (hi <= pos < hi + c)) as [Hin|Hout]; [|apply M; [done|destruct Hc'; [by left|right; lia]]].
    destruct (pos_block hi (pos - hi)) as [E1 E2]; [lia..|]. replace (hi + (pos - hi)) with pos in E1 by lia. by rewrite E1.
Qed.

(** The inode of the file is stored in its table block. *)
Lemma wrote_put lo hi v D own a D1 own1 a1 e : wrote lo hi v D own a D1 own1 a1 -> length e = 64%nat -> Forall (fun x => 0 <= x < 256) e ->
  wrote lo hi v D own a (put_inode D1 n e) own1 a1.
Proof using Hly Hn.
  intros [F O T K Y M] Hl He. pose proof (ly_bmap _ Hly).
  assert (Hput : forall x, s_data_bmap_start sb <= x -> put_inode D1 n e x = D1 x) by (intros x Hx; by eapply put_inode_ne).
  assert (Ho : forall b y, own1 !! b = Some y -> put_inode D1 n e b = D1 b).
  { intros b y Hb. apply Hput. pose proof (owned_range _ _ _ _ _ _ F Hb). lia. }
  assert (Ha : <[n := a1]> A !! n = Some a1) by (by rewrite lookup_insert_eq).
  assert (Hf : forall i, 0 <= i < NBLKS -> fblk (put_inode D1 n e) a1 i = fblk D1 a1 i).
  { intros i Hi. apply fblk_frame; [|done]. intros k Hk Hne. eapply Ho. by apply (fo_ind _ _ _ _ F n a1). }
  split.
  - eapply fsok_frame; [done|exact F|eapply put_inode_block; [exact Hly|apply F|done..]|exact Ho|]. intros x Hx%bmaps_in. apply Hput. lia.
  - done.
  - intros b x j Hb Hx. erewrite Ho by (by eapply lookup_weaken). by eapply T.
  - intros n' Hn' Hne. rewrite (disk_put sb Hly); [|apply F|done..]. rewrite (proj2 (Z.eqb_neq n' n) Hne). by apply K.
  - intros pos Hpos. rewrite <- Y by done. destruct (ofs_index pos Hpos) as (Hj & _). unfold fbyte. rewrite Hf by done.
    destruct (Z.eqb_spec (fblk D1 a1 (pos / 512)) 0) as [|Hne]; [done|]. erewrite Ho; [done|]. by apply (fo_data _ _ _ _ F n a1).
  - intros pos Hpos Hc. destruct (ofs_index pos Hpos) as (Hj & _). rewrite Hf by done. by apply M.
Qed.

Lemma disk_full_put D e : disk_full sb D -> disk_full sb (put_inode D n e).
Proof using Hly Hn.
  intros H k Hk. unfold dbit. pose proof (bmap_of_range sb Hly k Hk). rewrite (put_inode_ne sb Hly) by (done || lia). by apply H.
Qed.

(** Blocks of the file that are still to be written from [cur] to [fin]. *)
Definition blocks_left (cur fin : Z) : Z := if cur <? fin then (fin + 511) / 512 - cur / 512 else 0.

Lemma blocks_left_step cur fin c : 0 <= cur < fin -> c = Z.min (512 - cur mod 512) (fin - cur) ->
  1 <= blocks_left cur fin /\ blocks_left (cur + c) fin <= blocks_left cur fin - 1.
Proof using Type.
  clear Hly Hn. intros Hc ->. unfold blocks_left. rewrite (proj2 (Z.ltb_lt cur fin)) by lia.
  pose proof (Z.div_mod cur 512 ltac:(lia)). pose proof (Z.mod_pos_bound cur 512 ltac:(lia)).
  pose proof (Z.div_mod (fin + 511) 512 ltac:(lia)). pose proof (Z.mod_pos_bound (fin + 511) 512 ltac:(lia)).
  destruct (Z.ltb_spec (cur + Z.min (512 - cur mod 512) (fin - cur)) fin) as [Hlt|Hge]; [|lia].
  rewrite Z.min_l by lia. replace (cur + (512 - cur mod 512)) with (0 + (cur / 512 + 1) * 512) by lia.
  rewrite Z.div_add by lia. change (0 / 512) with 0. lia.
Qed.

Lemma same_inode_size i i' z : same_inode i i' -> same_inode (set_size z i) (set_dirty false (set_dirty true (set_size z i'))).
Proof using Type. unfold same_inode, set_dirty, set_addrs, set_size. destruct i, i'; simpl. intros [=]. by subst. Qed.
Lemma same_inode_size_id i i' : same_inode i i' -> same_inode (set_size (i_size i) i) i'.
Proof using Type. by destruct i. Qed.

Section write.
Context (I : gmap Z inode) (D : Z -> list Z) (U : list (Z * Z)) (J : gset Z) (own : gmap Z (Z * Z)) (p : Z) (i : inode) (buf : list Z) (count ofs : Z).
Hypothesis Hp : I !! p = Some i.
Hypothesis Hin : i_inum i = n.
Hypothesis F : fsok sb D (<[n := i_addrs i]> A) own.
Hypothesis Ho : 0 <= ofs.
Hypothesis Hc : 0 <= count <= Z.of_nat (length buf).
Hypothesis Hmax : ofs + count <= SFS_MAX_FILE_SIZE.
Hypothesis Hbuf : Forall (fun x => 0 <= x < 256) buf.
Hypothesis HJ : log_room sb ({[inum_to_blk n]} ∪ J) (3 * Z.to_nat (blocks_left ofs (ofs + count))).

(** The state of the loop of write_data with [total] bytes written. *)
Definition writing (total : Z) (D' : Z -> list Z) (J' : gset Z) (i' : inode) (Y : gset Z) (s : sst B) : Prop := exists be' own',
  s = mkS (<[p := i']> I) be' /\ blk_rep true be' D' ∅ U J' /\ same_inode i i' /\ (on_disk n D i -> on_disk n D' i') /\
  wrote ofs (ofs + total) buf D own (i_addrs i) D' own' (i_addrs i') /\ J' ⊆ Y ∪ ({[inum_to_blk n]} ∪ J ∪ bmaps sb).

Lemma wp_write_step total D1 J1 i1 Y s : writing total D1 J1 i1 Y s -> 0 <= total < count ->
  (size Y + 3 * Z.to_nat (blocks_left (ofs + total) (ofs + count)) <= 3 * Z.to_nat (blocks_left ofs (ofs + count)))%nat ->
  wp (write_step sb p buf count (total, ofs + total)) (fun r s' => exists D2 J2 i2 Y2, 
    match r with
    | inl (total', ofs') => total < total' <= count /\ ofs' = ofs + total' /\ writing total' D2 J2 i2 Y2 s' /\
        (size Y2 + 3 * Z.to_nat (blocks_left (ofs + total') (ofs + count)) <= 3 * Z.to_nat (blocks_left ofs (ofs + count)))%nat
    | inr (total', ofs') => total' = total /\ ofs' = ofs + total /\ writing total D2 J2 i2 Y2 s' /\ disk_full sb D2 /\
        (size Y2 <= 3 * Z.to_nat (blocks_left ofs (ofs + count)))%nat
    end) s.
Proof using Hly Hn Hp Hin F Ho Hc Hmax Hbuf HJ.
  intros (be1 & own1 & -> & R1 & Hsame & Hod & W & HJ1) Ht HY. pose proof (wr_ok _ _ _ _ _ _ _ _ _ W) as F1.
  destruct (same_inode_fields _ _ Hsame) as (Hin1 & _). unfold write_step. rewrite (proj2 (Z.ltb_lt total count)) by lia.
  assert (Hor : 0 <= ofs + total < SFS_MAX_FILE_SIZE) by lia. destruct (ofs_index _ Hor) as (Hbi & Hbo & _).
  change BDEV_BLK_SIZE with 512. set (c := Z.min (512 - (ofs + total) mod 512) (count - total)).
  destruct (blocks_left_step (ofs + total) (ofs + count) c) as [Hl1 Hl2]; [lia|unfold c; lia|].
  wp_step. eapply wp_mono; [apply (wp_get_data_block sb Hly A n Hn true _ be1 D1 U J1 own1 p i1 (ofs + total) true); try done|].
  { by rewrite lookup_insert_eq. } { by rewrite Hin1. } { by left. }
  { intros _. eapply (log_room_set sb _ J1 Y); [exact HJ1| |exact HJ]. lia. }
  intros [err bh] s1 (D2 & own2 & i2 & J2 & L2 & X & (be2 & -> & R2 & Hsame2 & G2 & Hod2 & HJ2) & HX & _ & Hr). rewrite insert_insert_eq.
  pose proof (wrote_grown _ _ _ _ _ _ _ _ _ _ _ _ _ W G2) as W2. pose proof (same_inode_trans _ _ _ Hsame Hsame2) as Hsame3.
  assert (HXY : (size (X ∪ Y) <= size X + size Y)%nat).
  { pose proof (size_union_alt X Y). assert (size (Y ∖ X) <= size Y)%nat by (apply subseteq_size; clear; set_solver). lia. }
  cbn [fst snd] in *. destruct Hr as [(-> & Hbh & -> & Hb0)|(Hf & ->)].
  - change (negb (ERR_OK =? ERR_OK)) with false. cbn match.
    set (b := fblk D2 (i_addrs i2) ((ofs + total) / 512)) in *. pose proof (wr_ok _ _ _ _ _ _ _ _ _ W2) as F2.
    assert (Hlv : length (take (Z.to_nat c) (drop (Z.to_nat total) buf)) = Z.to_nat c) by (rewrite length_take, length_drop; lia).
    wp_step. eapply wp_store_bytes; [exact R2|by rewrite lookup_singleton_eq|lia|rewrite Hlv; lia|by apply Forall_take, Forall_drop|].
    intros be3 R3. wp_step. eapply wp_mark; [exact R3|by rewrite lookup_singleton_eq| |].
    { apply (log_room_fits sb), (log_room_set sb ({[inum_to_blk n]} ∪ J) _ ({[b]} ∪ (X ∪ Y)) _ 0) with (3 := HJ); [clear -HJ1 HJ2; set_solver|].
      pose proof (size_add b (X ∪ Y)). lia. }
    intros be4 R4. wp_step. eapply wp_brelease; [exact R4|by rewrite lookup_singleton_eq|]. intros be5 R5. rewrite delete_singleton_eq in R5. wp_step.
    eexists _, _, i2, ({[b]} ∪ (X ∪ Y)). split; [lia|]. split; [lia|]. split.
    + exists be5, own2. split; [done|]. split; [exact R5|]. split; [done|]. split; [|split].
      * intros Hd. unfold on_disk in *. rewrite <- (Hod2 (Hod Hd)). eapply (store_disk D2 _ own2 b n); [exact F2| |done].
        apply (fo_data _ _ _ _ F2 n (i_addrs i2)); [by rewrite lookup_insert_eq|done|done].
      * replace (ofs + (total + c)) with (ofs + total + c) by lia. 
        pose proof (wrote_store ofs (ofs + total) buf c D own (i_addrs i) D2 own2 (i_addrs i2) W2) as Hst.
        replace (ofs + total - ofs) with total in Hst by lia. apply Hst; [lia|lia|exact Hb0|lia..|done].
      * clear -HJ1 HJ2. set_solver.
    + replace (ofs + (total + c)) with (ofs + total + c) by lia. pose proof (size_add b (X ∪ Y)). lia.
  - rewrite (failed_not_ok _ _ _ _ _ _ Hf). cbn [negb]. wp_step. exists D2, J2, i2, (X ∪ Y). split; [done|]. split; [done|]. split; [|split].
    + exists be2, own2. split; [done|]. split; [done|]. split; [done|]. split; [intros Hd; by apply Hod2, Hod|]. split; [done|]. clear -HJ1 HJ2. set_solver.
    + destruct Hf as [(_ & ? & _)|[(_ & ?)|(_ & _ & _ & ?)]]; done.
    + lia.
Qed.

(** write_data stores the bytes and grows the file; it is short only when the
    disk is full. *)
Lemma wp_write_bytes be : blk_rep true be D ∅ U J -> p <> NULL ->
  wp (write_data sb p buf count ofs) (fun total s' => exists be' D' own' i' J', s' = mkS (<[p := i']> I) be' /\ blk_rep true be' D' ∅ U J' /\
    0 <= total <= count /\ wrote ofs (ofs + total) buf D own (i_addrs i) D' own' (i_addrs i') /\
    same_inode (set_size (if 0 <? count then Z.max (i_size i) (ofs + total) else i_size i) i) i' /\
    (on_disk n D i -> on_disk n D' i') /\ (total < count -> disk_full sb D')) (mkS I be).
Proof using Hly Hn Hp Hin F Ho Hc Hmax Hbuf HJ.
  intros R Hp0. unfold write_data. wp_step. wp_step; [unfold nonnull; by rewrite (proj2 (Z.eqb_neq p NULL) Hp0)|]. wp_step.
  apply wp_loop with (mes := fun l _ => Z.to_nat (count - l.1)) (I := fun l s => let '(total, cur) := l in 
    0 <= total <= count /\ cur = ofs + total /\ exists D1 J1 i1 Y, writing total D1 J1 i1 Y s /\
    (size Y + 3 * Z.to_nat (blocks_left (ofs + total) (ofs + count)) <= 3 * Z.to_nat (blocks_left ofs (ofs + count)))%nat).
  2:{ split; [lia|]. split; [lia|]. exists D, J, i, ∅. rewrite Z.add_0_r, size_empty. split; [|lia]. exists be, own. rewrite insert_id by done.
      split; [done|]. split; [done|]. split; [apply same_inode_refl|]. split; [done|]. rewrite Z.add_0_r. split; [by apply wrote_nothing|]. clear; set_solver. }
  2:{ simpl. lia. }
  clear R. intros [total cur] s (Ht & -> & D1 & J1 & i1 & Y & Hw & HY).
  assert (Hout : forall D2 J2 i2 Y2 s2, writing total D2 J2 i2 Y2 s2 -> (size Y2 <= 3 * Z.to_nat (blocks_left ofs (ofs + count)))%nat ->
    (total < count -> disk_full sb D2) ->
    wp (i0 <- get_inode p;;
        (if (0 <? count) && (i_size i0 <? ofs + total) then
           upd_inode p (set_size (ofs + total));; upd_inode p (set_dirty true);; sfs_write_inode p;; ret tt
         else ret tt);; ret total)
      (fun total s' => exists be' D' own' i' J', s' = mkS (<[p := i']> I) be' /\ blk_rep true be' D' ∅ U J' /\
        0 <= total <= count /\ wrote ofs (ofs + total) buf D own (i_addrs i) D' own' (i_addrs i') /\
        same_inode (set_size (if 0 <? count then Z.max (i_size i) (ofs + total) else i_size i) i) i' /\
        (on_disk n D i -> on_disk n D' i') /\ (total < count -> disk_full sb D')) s2).
  { clear D1 J1 i1 Y Hw HY. intros D1 J1 i1 Y s1 (be1 & own1 & -> & R1 & Hsame & Hod & W & HJ1) HY Hfull.
    destruct (same_inode_fields _ _ Hsame) as (Hin1 & Hsz & _). wp_step. eapply wp_get_inode; [by rewrite lookup_insert_eq|]. rewrite Hsz. wp_step.
    pose proof (wr_ok _ _ _ _ _ _ _ _ _ W) as F1.
    assert (Hla : length (i_addrs i1) = 14%nat) by (apply (fo_len _ _ _ _ F1 n); by rewrite lookup_insert_eq).
    destruct (Z.ltb_spec 0 count) as [H0|H0]; [destruct (Z.ltb_spec (i_size i) (ofs + total)) as [Hlt|Hge]|]; cbn [andb].
    - wp_step. eapply wp_upd_inode; [by rewrite lookup_insert_eq|]. rewrite insert_insert_eq. wp_step.
      eapply wp_upd_inode; [by rewrite lookup_insert_eq|]. rewrite insert_insert_eq. set (i2 := set_dirty true _). wp_step.
      assert (Hi2 : i_inum i2 = n) by (unfold i2; simpl; congruence).
      eapply (wp_write_inode sb Hly true _ be1 D1 ∅ U J1 p i2); [exact R1|by rewrite lookup_insert_eq|by rewrite Hi2|done|intros h; by rewrite lookup_empty| |done|].
      + rewrite Hi2. apply (log_room_fits sb), (log_room_set sb ({[inum_to_blk n]} ∪ J) _ Y _ 0) with (3 := HJ); [clear -HJ1; set_solver|]. lia.
      + rewrite Hi2, insert_insert_eq. intros be2 R2. wp_step. wp_step. eexists be2, _, own1, _, _. split; [done|]. split; [exact R2|]. split; [done|].
        split; [apply wrote_put; [exact W|by apply enc_inode_length|apply enc_inode_bytes]|]. rewrite Z.max_r by lia. split; [by apply same_inode_size|].
        split; [|intros Hlc; by apply disk_full_put, Hfull].
        intros _. unfold on_disk. rewrite (disk_put sb Hly); [|apply F1|done|done|by apply enc_inode_length]. by rewrite Z.eqb_refl.
    - wp_step. wp_step. exists be1, D1, own1, i1, J1. rewrite Z.max_l by lia. do 3 (split; [done|]). split; [done|]. split; [by apply same_inode_size_id|]. done.
    - wp_step. wp_step. exists be1, D1, own1, i1, J1. do 3 (split; [done|]). split; [done|]. split; [by apply same_inode_size_id|]. done. }
  destruct (Z.ltb_spec total count) as [Hlt|Hge].
  - eapply wp_mono; [eapply wp_write_step; [exact Hw|lia|exact HY]|].
    intros [[total' cur']|[total' cur']] s2 (D2 & J2 & i2 & Y2 & H2).
    + destruct H2 as (Ht' & -> & Hw2 & HY2). split; [|simpl; lia]. split; [lia|]. split; [done|]. by exists D2, J2, i2, Y2.
    + destruct H2 as (-> & -> & Hw2 & Hfull & HY2). by eapply Hout.
  - unfold write_step. rewrite (proj2 (Z.ltb_ge total count)) by lia. wp_step. eapply Hout; [exact Hw|lia|lia].
Qed.
End write.
End data.
