(* ===== verification/SfsDirSpec.v ===== *)
(** * Simple file system: directories as lists of entries *)

From stdpp Require Import prelude list gmap.
From Stdlib Require Import ZArith Lia.
From S2P Require Import Prelude DList Blocks Sfs SfsDir SfsBits SfsAlloc SfsInode SfsData SfsBytes.

(** The bytes from entry [k] of the directory to the end of its block. *)
Definition entry (D : Z -> list Z) (a : list Z) (k : Z) : list Z :=
  drop (Z.to_nat ((32 * k) mod 512)) (D (fblk D a (32 * k / 512))).

(** The 32 bytes of entry [k]. *)
Definition dslot (D : Z -> list Z) (a : list Z) (k : Z) : list Z := map (fun j => fbyte D a (32 * k + j)) (seqZ 0 32).

(** Entry [o] is the first one with the name; none has it. *)
Definition found (D : Z -> list Z) (i : inode) (name : list Z) (o : option Z) : Prop :=
  let here k := dirent_match (dslot D (i_addrs i) k) name in
  match o with
  | Some k => 0 <= k /\ 32 * k < i_size i /\ here k = true /\ forall j, 0 <= j < k -> here j = false
  | None => forall k, 0 <= k -> 32 * k < i_size i -> here k = false
  end.

Lemma entry_index k : (32 * k) mod 512 = 32 * (k mod 16) /\ 32 * k / 512 = k / 16.
Proof.
  split.
  - change 512 with (32 * 16). by rewrite Zmult_mod_distr_l.
  - change 512 with (32 * 16). by rewrite Z.div_mul_cancel_l.
Qed.

Lemma entry_room k : 0 <= (32 * k) mod 512 <= 480.
Proof. destruct (entry_index k) as [-> _]. pose proof (Z.mod_pos_bound k 16 ltac:(lia)). lia. Qed.

Lemma dslot_lookup D a k (j : nat) : (j < 32)%nat -> dslot D a k !! j = Some (fbyte D a (32 * k + Z.of_nat j)).
Proof. intros Hj. unfold dslot. rewrite list_lookup_fmap, lookup_seqZ_lt by lia. done. Qed.
Lemma dslot_length D a k : length (dslot D a k) = 32%nat.
Proof. done. Qed.

Lemma entry_slot D a k : 0 <= k -> is_block (D (fblk D a (32 * k / 512))) -> fblk D a (32 * k / 512) <> 0 -> take 32 (entry D a k) = dslot D a k.
Proof.
  intros Hk [Hl _] Hne. pose proof (entry_room k). apply list_eq. intros j. destruct (decide (j < 32)%nat) as [Hj|Hj].
  - rewrite dslot_lookup, lookup_take_lt by done. unfold entry. rewrite lookup_drop.
    destruct (pos_block (32 * k) (Z.of_nat j)) as [E1 E2]; [lia..|]. unfold fbyte. rewrite E1, E2, (proj2 (Z.eqb_neq _ 0) Hne), nth_lookup.
    replace (Z.to_nat ((32 * k) mod 512 + Z.of_nat j)) with (Z.to_nat ((32 * k) mod 512) + j)%nat by lia.
    destruct (lookup_lt_is_Some_2 (D (fblk D a (32 * k / 512))) (Z.to_nat ((32 * k) mod 512) + j)) as [x Hx]; [lia|]. by rewrite Hx.
  - rewrite !lookup_ge_None_2; [done|rewrite dslot_length; lia|rewrite length_take; lia].
Qed.

Lemma dirent_inum_take e : dirent_inum (take 32 e) = dirent_inum e.
Proof. unfold dirent_inum. by destruct e as [|? [|? [|? [|? ?]]]]. Qed.
Lemma dirent_name_take e : dirent_name (take 32 e) = dirent_name e.
Proof. unfold dirent_name. rewrite skipn_firstn_comm, take_take. done. Qed.
Lemma dirent_match_take e name : dirent_match (take 32 e) name = dirent_match e name.
Proof. unfold dirent_match. by rewrite dirent_inum_take, ?dirent_name_take. Qed.

Section dir.
Context (sb : sfs_sb_info) (Hly : layout sb).
Context {B : Type} `{!Blocks B}.
Context (A : gmap Z (list Z)) (n : Z) (Hn : is_inum sb n).
Implicit Types (U : list (Z * Z)) (J X : gset Z).
(** [m]: every block can be fetched; without it memory may run out. *)
Context (m : bool) (I : gmap Z inode) (D : Z -> list Z) (U : list (Z * Z)) (J : gset Z) (own : gmap Z (Z * Z)) (p : Z) (i : inode).
Hypothesis Hp : I !! p = Some i.
Hypothesis Hin : i_inum i = n.
Hypothesis F : fsok sb D (<[n := i_addrs i]> A) own.
Hypothesis Hsz : i_size i <= SFS_MAX_FILE_SIZE.
(** The directory has no holes. *)
Hypothesis Hdense : forall k, 0 <= k < i_size i -> fblk D (i_addrs i) (k / 512) <> 0.

Lemma entry_facts k : 0 <= k -> 32 * k < i_size i ->
  dirent_inum (entry D (i_addrs i) k) = dirent_inum (dslot D (i_addrs i) k) /\
  forall name, dirent_match (entry D (i_addrs i) k) name = dirent_match (dslot D (i_addrs i) k) name.
Proof using F Hdense.
  intros Hk Hlt. rewrite <- (entry_slot D (i_addrs i) k Hk); [|apply F|apply Hdense; lia].
  split; [by rewrite dirent_inum_take|]. intros name. by rewrite dirent_match_take.
Qed.

(** The block of entry [k] is locked. *)
Definition at_entry (be : B) (bh k : Z) : Prop := exists D',
  bh <> NULL /\ (forall x, D' x = D x) /\ blk_rep m be D' {[bh := fblk D (i_addrs i) (32 * k / 512)]} U J.
Definition at_rest (be : B) : Prop := exists D', (forall x, D' x = D x) /\ blk_rep m be D' ∅ U J.

Lemma wp_release_entry be bh k (Q : unit -> sst B -> Prop) : at_entry be bh k -> (forall be', at_rest be' -> Q tt (mkS I be')) ->
  wp (on_blk (bdev_release bh)) Q (mkS I be).
Proof using Type.
  intros (D' & Hb & E & R) HQ. eapply wp_brelease; [exact R|by rewrite lookup_singleton_eq|]. intros be' R'. rewrite delete_singleton_eq in R'.
  apply HQ. by exists D'.
Qed.

Lemma wp_load_dirent be bh k (Q : list Z -> sst B -> Prop) : at_entry be bh k -> Q (entry D (i_addrs i) k) (mkS I be) ->
  wp (load_dirent bh (32 * k)) Q (mkS I be).
Proof using Type.
  intros (D' & Hb & E & R) HQ. unfold load_dirent. wp_step. eapply wp_bload; [exact R|by rewrite lookup_singleton_eq|]. wp_step.
  change BDEV_BLK_SIZE with 512. rewrite E. exact HQ.
Qed.

(** Before entry [k]: the block of the entry before it is locked. *)
Definition before_entry (be : B) (bh k : Z) : Prop :=
  (k = 0 /\ bh = NULL /\ at_rest be) \/ (0 < k /\ 32 * (k - 1) < i_size i /\ at_entry be bh (k - 1)).

Lemma wp_release_before be bh k (Q : unit -> sst B -> Prop) : before_entry be bh k -> (forall be', at_rest be' -> Q tt (mkS I be')) ->
  wp (release_if bh) Q (mkS I be).
Proof using Type.
  intros [(-> & -> & R)|(_ & _ & R)] HQ; unfold release_if.
  - simpl (negb _). cbn match. wp_step. by apply HQ.
  - pose proof R as (_ & Hb & _). rewrite (proj2 (Z.eqb_neq bh NULL) Hb). cbn [negb]. by eapply wp_release_entry.
Qed.

(** The head of the loop for an entry inside the directory. *)
Lemma wp_next_block be bh k alloc : 0 <= k -> 32 * k < i_size i -> before_entry be bh k -> (alloc = true -> log_room sb J 3) ->
  m = true \/ i_size i <= 12 * 512 ->
  wp (if (32 * k) mod BDEV_BLK_SIZE =? 0 then release_if bh;; get_data_block sb p (32 * k) alloc else ret (ERR_OK, bh))
    (fun r s' => exists be', s' = mkS I be' /\
      (r.1 = ERR_OK /\ at_entry be' r.2 k \/ r.1 <> ERR_OK /\ m = false /\ at_rest be')) (mkS I be).
Proof using Hly Hn Hp Hin F Hsz Hdense.
  intros Hk Hlt Hb HJ Hm. change BDEV_BLK_SIZE with 512. destruct (entry_index k) as [E1 E2]. destruct (Z.eqb_spec ((32 * k) mod 512) 0) as [Ez|Enz].
  - wp_step. eapply wp_release_before; [exact Hb|]. clear be Hb. intros be (D1 & HD1 & R1).
    assert (Hr : 0 <= 32 * k < SFS_MAX_FILE_SIZE) by lia. destruct (ofs_index _ Hr) as (Hbi & _).
    assert (Hne : fblk D (i_addrs i) (32 * k / 512) <> 0) by (apply Hdense; lia).
    eapply wp_mono; [apply (wp_get_data_block sb Hly A n Hn m I be D1 U J own p i (32 * k) alloc); try done; [by eapply fsok_same|destruct Hm; [by left|right; lia]]|].
    intros [err bh'] s1 (D2 & own2 & i2 & J2 & L2 & X & (be2 & -> & R2 & _) & _ & Hq & Hr2).
    destruct Hq as (-> & _ & -> & HD2); [right; by rewrite (fblk_same D D1)|]. rewrite insert_id by done. cbn [fst snd] in *.
    assert (HD : forall x, D2 x = D x) by (intros x; by rewrite HD2, HD1).
    destruct Hr2 as [(-> & Hbh & -> & Hb0)|(Hf & ->)].
    + exists be2. split; [done|]. left. split; [done|]. exists D2. rewrite (fblk_same D D2) in R2 by done. done.
    + exists be2. split; [done|]. right. destruct Hf as [(_ & _ & Hz)|[(-> & ?)|(_ & _ & Hz & _)]]; [by rewrite (fblk_same D D1) in Hz| |by rewrite (fblk_same D D1) in Hz].
      split; [done|]. split; [done|]. by exists D2.
  - wp_step. exists be. split; [done|]. left. split; [done|]. destruct Hb as [(-> & _)|(Hk0 & _ & Hat)]; [done|]. destruct Hat as (D' & Hbh & HD & R).
    exists D'. do 2 (split; [done|]). destruct (entry_index (k - 1)) as [E3 E4]. rewrite E2. rewrite E4 in R.
    replace (k / 16) with ((k - 1) / 16); [done|]. pose proof (Z.div_mod k 16 ltac:(lia)). pose proof (Z.mod_pos_bound k 16 ltac:(lia)).
    symmetry. apply Z.div_unique with (k mod 16 - 1); lia.
Qed.

(** The walk over the entries of the directory. *)
Lemma wp_scan {R} (bad : Z -> M (sst B) R) visit fin (P : Z -> Prop) (Q : R -> sst B -> Prop) be :
  at_rest be -> P 0 ->
  (forall k bh be', 0 <= k -> 32 * k < i_size i -> P k -> at_entry be' bh k ->
    wp (visit bh (32 * k)) (fun o s' => match o with Some v => Q v s' | None => s' = mkS I be' /\ P (k + 1) end) (mkS I be')) ->
  (forall k be', 0 <= k -> i_size i <= 32 * k -> P k -> at_rest be' -> wp fin Q (mkS I be')) ->
  m = true \/ i_size i <= 12 * 512 -> (forall err be', m = false -> at_rest be' -> wp (bad err) Q (mkS I be')) ->
  wp (scan_dir sb p i_size false bad visit fin) Q (mkS I be).
Proof using Hly Hn Hp Hin F Hsz Hdense.
  intros R0 HP0 Hvisit Hfin Hm Hbad. unfold scan_dir.
  apply wp_loop with (mes := fun l _ => Z.to_nat (SFS_MAX_FILE_SIZE / SIZEOF_SFS_DIRENT + 1 - l.1 / 32))
    (I := fun l s => let '(ofs, bh) := l in exists k be', ofs = 32 * k /\ 0 <= k /\ s = mkS I be' /\ before_entry be' bh k /\ P k).
  2:{ exists 0, be. do 3 (split; [done|]). split; [by left|done]. }
  2:{ simpl fst. change (0 / 32) with 0. rewrite Z.sub_0_r. rewrite Z2Nat.inj_add by done. change (Z.to_nat 1) with 1%nat. lia. }
  intros [ofs bh] s (k & be1 & -> & Hk & -> & Hb & HP). unfold scan_step. wp_step. eapply wp_get_inode; [exact Hp|].
  destruct (Z.ltb_spec (32 * k) (i_size i)) as [Hlt|Hge].
  - wp_step. eapply wp_mono; [by apply wp_next_block|]. intros [err bh'] s1 (be2 & -> & [[Herr Hat]|(Herr & Hmf & Hr)]); cbn [fst snd] in *.
    2:{ rewrite (proj2 (Z.eqb_neq err ERR_OK) Herr). cbn [negb]. wp_step. eapply wp_mono; [by apply Hbad|]. intros v s2 HQ. by wp_step. }
    subst err. change (negb (ERR_OK =? ERR_OK)) with false. cbn match. wp_step. eapply wp_mono; [by apply Hvisit|].
    intros [v|] s1; [intros HQ; by wp_step|]. intros [-> HP']. wp_step. split.
    + exists (k + 1), be2. split; [unfold SIZEOF_SFS_DIRENT; lia|]. split; [lia|]. split; [done|]. split; [|done].
      right. replace (k + 1 - 1) with k by lia. split; [lia|done].
    + simpl fst. unfold SIZEOF_SFS_DIRENT. replace (32 * k + 32) with ((k + 1) * 32) by lia. rewrite (Z.mul_comm 32 k), !Z.div_mul by lia.
      assert (k <= SFS_MAX_FILE_SIZE / 32) by (apply Z.div_le_lower_bound; lia). lia.
  - wp_step. eapply wp_release_before; [exact Hb|]. intros be2 Hr. wp_step. eapply wp_mono; [by eapply Hfin|]. intros v s2 HQ. by wp_step.
Qed.

(** search_dir returns the number of the first entry with the name, or 0;
    also 0 when a block could not be fetched. *)
Lemma wp_search_dir be name (Q : Z -> sst B -> Prop) : at_rest be -> m = true \/ i_size i <= 12 * 512 -> (forall be', m = false -> at_rest be' -> Q 0 (mkS I be')) ->
  (forall o be', found D i name o -> at_rest be' -> Q (match o with Some k => dirent_inum (dslot D (i_addrs i) k) | None => 0 end) (mkS I be')) ->
  wp (search_dir sb p name) Q (mkS I be).
Proof using Hly Hn Hp Hin F Hsz Hdense.
  intros R0 Hm Hnomem HQ. unfold search_dir.
  apply wp_scan with (P := fun k => forall j, 0 <= j < k -> dirent_match (dslot D (i_addrs i) j) name = false); [done|lia| | |done|intros err be' E Hr; wp_step; by apply Hnomem].
  - intros k bh be' Hk Hlt HP Hat. wp_step. eapply wp_load_dirent; [exact Hat|]. destruct (entry_facts k Hk Hlt) as [Hei Hem]. rewrite ?Hem, ?Hei.
    destruct (dirent_match (dslot D (i_addrs i) k) name) eqn:Em.
    + wp_step. eapply wp_release_entry; [exact Hat|]. intros be2 Hr. wp_step. by apply (HQ (Some k)).
    + wp_step. split; [done|]. intros j Hj. destruct (decide (j = k)) as [->|]; [done|]. apply HP. lia.
  - intros k be' Hk Hge HP Hr. wp_step. apply (HQ None); [|done]. intros j Hj Hlt. apply HP. lia.
Qed.

(** is_dir_empty says whether every entry is free. *)
Hypothesis Hfetch : m = true.

Lemma wp_is_dir_empty be (Q : Z * bool -> sst B -> Prop) : at_rest be ->
  (forall (e : bool) be', (e = true <-> forall k, 0 <= k -> 32 * k < i_size i -> dirent_inum (dslot D (i_addrs i) k) <= 0) -> at_rest be' -> Q (ERR_OK, e) (mkS I be')) ->
  wp (is_dir_empty sb p) Q (mkS I be).
Proof using Hly Hn Hp Hin F Hsz Hdense Hfetch.
  intros R0 HQ. unfold is_dir_empty. apply wp_scan with (P := fun k => forall j, 0 <= j < k -> dirent_inum (dslot D (i_addrs i) j) <= 0); [done|lia| | |by left|congruence].
  - intros k bh be' Hk Hlt HP Hat. wp_step. eapply wp_load_dirent; [exact Hat|]. destruct (entry_facts k Hk Hlt) as [Hei Hem]. rewrite ?Hem, ?Hei.
    destruct (Z.ltb_spec 0 (dirent_inum (dslot D (i_addrs i) k))) as [Hpos|Hneg].
    + wp_step. eapply wp_release_entry; [exact Hat|]. intros be2 Hr. wp_step. apply HQ; [|done]. split; [done|]. intros H. specialize (H k Hk Hlt). lia.
    + wp_step. split; [done|]. intros j Hj. destruct (decide (j = k)) as [->|]; [done|]. apply HP. lia.
  - intros k be' Hk Hge HP Hr. wp_step. apply HQ; [|done]. split; [|done]. intros _ j Hj Hlt. apply HP. lia.
Qed.

Lemma wrote_rest lo v D1 : (forall x, D1 x = D x) -> wrote sb A n lo lo v D own (i_addrs i) D1 own (i_addrs i).
Proof using Hly F.
  intros E. eapply (wrote_grown sb A n); [by apply (wrote_nothing sb A n)|]. eapply file_grown_refl; [done|done|exact E].
  Unshelve. exact 0.
Qed.

(** free_dirent clears the number of the first entry with the name. *)
Lemma wp_free_dirent be name (Q : Z -> sst B -> Prop) : at_rest be -> log_room sb J 1 ->
  (forall be', found D i name None -> at_rest be' -> Q ERR_NOTEXIST (mkS I be')) ->
  (forall k be' D' J', found D i name (Some k) -> wrote sb A n (32 * k) (32 * k + 4) (le32 0) D own (i_addrs i) D' own (i_addrs i) ->
    blk_rep m be' D' ∅ U J' -> J' = {[fblk D (i_addrs i) (32 * k / 512)]} ∪ J -> Q ERR_OK (mkS I be')) ->
  wp (free_dirent sb p name) Q (mkS I be).
Proof using Hly Hn Hp Hin F Hsz Hdense Hfetch.
  intros R0 HJ Hno Hyes. unfold free_dirent. apply wp_scan with (P := fun k => forall j, 0 <= j < k -> dirent_match (dslot D (i_addrs i) j) name = false); [done|lia| | |by left|congruence].
  - intros k bh be' Hk Hlt HP Hat. wp_step. eapply wp_load_dirent; [exact Hat|]. destruct (entry_facts k Hk Hlt) as [Hei Hem]. rewrite Hem.
    destruct (dirent_match (dslot D (i_addrs i) k) name) eqn:Em.
    + destruct Hat as (D1 & Hbh & HD & R1). set (b := fblk D (i_addrs i) (32 * k / 512)) in *. pose proof (entry_room k).
      wp_step. eapply wp_store_bytes; [exact R1|by rewrite lookup_singleton_eq|change BDEV_BLK_SIZE with 512; lia|change BDEV_BLK_SIZE with 512; simpl; lia|apply le32_bytes|].
      intros be2 R2. wp_step. eapply wp_mark; [exact R2|by rewrite lookup_singleton_eq|by eapply log_room_one|]. intros be3 R3. wp_step.
      eapply wp_brelease; [exact R3|by rewrite lookup_singleton_eq|]. intros be4 R4. rewrite delete_singleton_eq in R4. wp_step.
      eapply Hyes; [by split; [|split; [|split]]| |exact R4|done].
      destruct (ofs_index (32 * k) ltac:(lia)) as (Hbi & _).
      assert (Eb : b = fblk D1 (i_addrs i) (32 * k / 512)) by (unfold b; by rewrite (fblk_same D D1)).
      pose proof (wrote_store sb Hly A n (32 * k) (32 * k) (le32 0) 4 D own (i_addrs i) D1 own (i_addrs i) (wrote_rest _ _ _ HD)) as Hst.
      replace (32 * k - 32 * k) with 0 in Hst by lia. rewrite <- Eb in Hst.
      apply Hst; [lia|lia|unfold b; apply Hdense; lia|lia|lia|simpl; lia|apply le32_bytes].
    + wp_step. split; [done|]. intros j Hj. destruct (decide (j = k)) as [->|]; [done|]. apply HP. lia.
  - intros k be' Hk Hge HP Hr. wp_step. apply Hno; [|done]. intros j Hj Hlt. apply HP. lia.
Qed.
End dir.

(** ** Entries after a write *)

Lemma dslot_same D a D' a' k : (forall j, 0 <= j < 32 -> fbyte D' a' (32 * k + j) = fbyte D a (32 * k + j)) -> dslot D' a' k = dslot D a k.
Proof. intros H. unfold dslot. apply map_ext_in. intros j Hj. apply list_elem_of_In, elem_of_seqZ in Hj. apply H. lia. Qed.

Section after.
Context (sb : sfs_sb_info) (A : gmap Z (list Z)) (n : Z).
Context (D D' : Z -> list Z) (own own' : gmap Z (Z * Z)) (a a' : list Z) (lo hi : Z) (v : list Z).
Hypothesis W : wrote sb A n lo hi v D own a D' own' a'.

Lemma wrote_slot_other k : 0 <= k -> 32 * k + 32 <= SFS_MAX_FILE_SIZE -> hi <= 32 * k \/ 32 * k + 32 <= lo -> dslot D' a' k = dslot D a k.
Proof using W.
  intros Hk Hmax Hd. apply dslot_same. intros j Hj. rewrite (wr_byte _ _ _ _ _ _ _ _ _ _ _ _ W) by lia. by rewrite decide_False by lia.
Qed.

Lemma wrote_slot k : 0 <= k -> 32 * k + 32 <= SFS_MAX_FILE_SIZE -> 32 * k <= lo -> hi = lo + Z.of_nat (length v) -> hi <= 32 * k + 32 ->
  dslot D' a' k = patch (dslot D a k) (lo - 32 * k) v.
Proof using W.
  intros Hk Hmax Hlo Hhi Hfit. apply list_eq. intros j. destruct (decide (j < 32)%nat) as [Hj|Hj].
  - rewrite patch_lookup by (rewrite ?dslot_length; lia). rewrite !dslot_lookup by done. rewrite (wr_byte _ _ _ _ _ _ _ _ _ _ _ _ W) by lia.
    repeat case_decide; try lia; [|done]. rewrite nth_lookup. replace (Z.to_nat (32 * k + Z.of_nat j - lo)) with (j - Z.to_nat (lo - 32 * k))%nat by lia.
    destruct (lookup_lt_is_Some_2 v (j - Z.to_nat (lo - 32 * k))) as [x Hx]; [lia|]. by rewrite Hx.
  - rewrite !lookup_ge_None_2; [done|rewrite patch_length; rewrite ?dslot_length; lia|rewrite dslot_length; lia].
Qed.
End after.

(** * Simple file system: adding a directory entry *)

(** The bytes of a new entry: names are cut at 27 bytes. *)
Definition new_dirent (name : list Z) (inum : Z) : list Z := le32 inum ++ take 27 (name ++ replicate 27 0) ++ [0].

Lemma new_dirent_length name inum : length (new_dirent name inum) = 32%nat.
Proof. unfold new_dirent. rewrite !length_app, length_take, length_app, length_replicate. change (length (le32 inum)) with 4%nat. change (length [0]) with 1%nat. lia. Qed.

Lemma new_dirent_bytes name inum : Forall (fun x => 0 <= x < 256) name -> Forall (fun x => 0 <= x < 256) (new_dirent name inum).
Proof.
  intros H. unfold new_dirent. apply Forall_app. split; [apply le32_bytes|]. apply Forall_app. split.
  - apply Forall_take, Forall_app. split; [done|]. apply Forall_replicate. lia.
  - repeat constructor; lia.
Qed.

Lemma strncpy_bytes_length name : length (strncpy_bytes name SFS_DIRENT_NAMELEN) = if decide (length name < 28)%nat then 29%nat else 28%nat.
Proof.
  unfold strncpy_bytes. change SFS_DIRENT_NAMELEN with 28. destruct (Z.ltb_spec (Z.of_nat (length name)) 28).
  - rewrite decide_True by lia. rewrite length_app, length_replicate. lia.
  - rewrite decide_False by lia. rewrite length_take. lia.
Qed.

Lemma strncpy_bytes_byte name : Forall (fun x => 0 <= x < 256) name -> Forall (fun x => 0 <= x < 256) (strncpy_bytes name SFS_DIRENT_NAMELEN).
Proof.
  intros H. unfold strncpy_bytes. destruct (_ <? _).
  - apply Forall_app. split; [done|]. apply Forall_replicate. lia.
  - by apply Forall_take.
Qed.

Lemma strncpy_bytes_lookup name (q : nat) : (q < 27)%nat -> strncpy_bytes name SFS_DIRENT_NAMELEN !! q = take 27 (name ++ replicate 27 0) !! q.
Proof.
  intros Hq. rewrite lookup_take_lt by done. unfold strncpy_bytes. change SFS_DIRENT_NAMELEN with 28. change (Z.to_nat 28) with 28%nat.
  destruct (Z.ltb_spec (Z.of_nat (length name)) 28).
  - destruct (decide (q < length name)%nat); [by rewrite !lookup_app_l by done|]. rewrite !lookup_app_r by lia. by rewrite !lookup_replicate_2 by lia.
  - rewrite lookup_take_lt by lia. by rewrite lookup_app_l by lia.
Qed.

Lemma strncpy_bytes_last name : (length name < 28)%nat -> strncpy_bytes name SFS_DIRENT_NAMELEN !! 28%nat = Some 0.
Proof.
  intros H. unfold strncpy_bytes. change SFS_DIRENT_NAMELEN with 28. rewrite (proj2 (Z.ltb_lt _ _)) by lia.
  rewrite lookup_app_r by lia. rewrite lookup_replicate_2 by lia. done.
Qed.

(** The byte strncpy writes past the entry is harmless: the name is long, or
    the byte is in the block and is zero already. *)
Definition overflow_ok (l : list Z) (o : Z) (name : list Z) : Prop :=
  (28 <= length name)%nat \/ (o + 32 < 512 /\ l !! Z.to_nat (o + 32) = Some 0).

Lemma patch_dirent l o name inum : length l = 512%nat -> 0 <= o <= 480 -> overflow_ok l o name ->
  patch (patch (patch l o (le32 inum)) (o + 4) (strncpy_bytes name SFS_DIRENT_NAMELEN)) (o + 4 + (SFS_DIRENT_NAMELEN - 1)) [0] =
  patch l o (new_dirent name inum).
Proof.
  intros Hl Ho Hov. pose proof (strncpy_bytes_length name) as Hs.
  assert (Hsl : o + 4 + Z.of_nat (length (strncpy_bytes name SFS_DIRENT_NAMELEN)) <= 512).
  { rewrite Hs. destruct Hov as [?|[? _]]; case_decide; lia. }
  assert (Hp1 : length (patch l o (le32 inum)) = 512%nat) by (rewrite patch_length; simpl; lia).
  assert (Hp2 : length (patch (patch l o (le32 inum)) (o + 4) (strncpy_bytes name SFS_DIRENT_NAMELEN)) = 512%nat) by (rewrite patch_length; lia).
  change (SFS_DIRENT_NAMELEN - 1) with 27. pose proof (new_dirent_length name inum) as Hnl. apply list_eq. intros j.
  rewrite (patch_lookup _ (o + 4 + 27)) by (simpl; lia). change (Z.of_nat (length [0])) with 1.
  rewrite (patch_lookup _ (o + 4)) by lia. rewrite (patch_lookup l o (le32 inum)) by (simpl; lia). rewrite (patch_lookup l o (new_dirent name inum)) by lia.
  rewrite Hnl. change (Z.of_nat (length (le32 inum))) with 4. change (Z.of_nat 32) with 32. unfold new_dirent.
  destruct (decide (o + 4 + 27 <= Z.of_nat j < o + 4 + 27 + 1)) as [H1|H1].
  { destruct (decide (o <= Z.of_nat j < o + 32)) as [H0|H0]; [|lia]. replace (j - Z.to_nat (o + 4 + 27))%nat with 0%nat by lia. rewrite lookup_app_r by (simpl; lia).
    change (length (le32 inum)) with 4%nat. rewrite lookup_app_r by (rewrite length_take, length_app, length_replicate; lia).
    rewrite length_take, length_app, length_replicate.
    replace (j - Z.to_nat o - 4 - (27 `min` (length name + 27)))%nat with 0%nat by lia. done. }
  destruct (decide (o + 4 <= Z.of_nat j < o + 4 + Z.of_nat (length (strncpy_bytes name SFS_DIRENT_NAMELEN)))) as [H2|H2].
  - destruct (decide (o <= Z.of_nat j < o + 32)) as [H3|H3].
    + rewrite lookup_app_r by (simpl; lia). change (length (le32 inum)) with 4%nat. rewrite lookup_app_l by (rewrite length_take, length_app, length_replicate; lia).
      rewrite strncpy_bytes_lookup by lia. f_equal. lia.
    + destruct (decide (length name < 28)%nat) as [Hn|Hn]; [|lia]. destruct Hov as [?|[_ Hz]]; [lia|].
      replace (j - Z.to_nat (o + 4))%nat with 28%nat by lia. rewrite strncpy_bytes_last by done. by replace j with (Z.to_nat (o + 32)) by lia.
  - destruct (decide (o <= Z.of_nat j < o + 4)) as [H4|H4].
    + rewrite decide_True by lia. rewrite lookup_app_l by (simpl; lia). done.
    + destruct (decide (length name < 28)%nat); by rewrite decide_False by lia.
Qed.

Section store.
Context {B : Type} `{!Blocks B}.

Lemma wp_store_dirent m I (be : B) D L U J h b o name inum (Q : unit -> sst B -> Prop) :
  blk_rep m be D L U J -> L !! h = Some b -> 0 <= o <= 480 -> Forall (fun x => 0 <= x < 256) name -> overflow_ok (D b) o name ->
  (forall be' D', (forall x, D' x = upd_blk D b (patch (D b) o (new_dirent name inum)) x) -> blk_rep m be' D' L U J -> Q tt (mkS I be')) ->
  wp (store_dirent h o name inum) Q (mkS I be).
Proof.
  intros R Hh Ho Hnb Hov HQ. pose proof (strncpy_bytes_length name) as Hs. destruct (blk_rep_bytes _ _ _ _ _ _ b R) as [Hl _].
  assert (Hsl : o + 4 + Z.of_nat (length (strncpy_bytes name SFS_DIRENT_NAMELEN)) <= 512).
  { rewrite Hs. destruct Hov as [?|[? _]]; case_decide; lia. }
  unfold store_dirent. wp_step. eapply wp_store_bytes; [exact R|done|lia|simpl; lia|apply le32_bytes|]. intros be1 R1.
  wp_step. eapply wp_store_bytes; [exact R1|done|lia|done|by apply strncpy_bytes_byte|]. intros be2 R2.
  eapply wp_store_bytes; [exact R2|done|change SFS_DIRENT_NAMELEN with 28; lia|change SFS_DIRENT_NAMELEN with 28; simpl; lia|repeat constructor; lia|].
  intros be3 R3. eapply HQ; [|exact R3]. intros x. rewrite !upd_blk_eq, patch_dirent by done. unfold upd_blk. by destruct (x =? b).
Qed.
End store.

(** ** alloc_dirent *)

(** The first free entry: past the end, or without an inode. *)
Definition free_at (D : Z -> list Z) (i : inode) (k : Z) : Prop := i_size i <= 32 * k \/ dirent_inum (dslot D (i_addrs i) k) = 0.
Definition free_slot (D : Z -> list Z) (i : inode) (k : Z) : Prop := 0 <= k /\ free_at D i k /\ forall j, 0 <= j < k -> ~ free_at D i j.

(** A fitting entry ends below the largest size. *)
Lemma entry_fits k : 32 * k < SFS_MAX_FILE_SIZE -> 32 * k + 32 <= SFS_MAX_FILE_SIZE.
Proof. change SFS_MAX_FILE_SIZE with (32 * 4288). lia. Qed.

Section alloc.
Context (sb : sfs_sb_info) (Hly : layout sb).
Context {B : Type} `{!Blocks B}.
Context (A : gmap Z (list Z)) (n : Z) (Hn : is_inum sb n).
Context (I : gmap Z inode) (D : Z -> list Z) (U : list (Z * Z)) (J : gset Z) (own : gmap Z (Z * Z)) (p : Z) (i : inode).
Hypothesis Hp : I !! p = Some i.
Hypothesis Hin : i_inum i = n.
Hypothesis F : fsok sb D (<[n := i_addrs i]> A) own.
Hypothesis Hsz : 0 <= i_size i <= SFS_MAX_FILE_SIZE /\ i_size i mod 32 = 0.
Hypothesis Hdense : forall k, 0 <= k < i_size i -> fblk D (i_addrs i) (k / 512) <> 0.
Context (name : list Z) (inum : Z).
Hypothesis Hname : Forall (fun x => 0 <= x < 256) name.
Hypothesis Hover : (28 <= length name)%nat \/ forall k, free_slot D i k -> k mod 16 <> 15 /\ fbyte D (i_addrs i) (32 * k + 32) = 0.
Hypothesis HJ : log_room sb J 4.

(** The state after an entry was written at [k]. *)
Definition added (k : Z) (U' : list (Z * Z)) (s : sst B) : Prop := exists be' D' own' i' J' Y, s = mkS (<[p := i']> I) be' /\ blk_rep true be' D' ∅ U' J' /\
  wrote sb A n (32 * k) (32 * k + 32) (new_dirent name inum) D own (i_addrs i) D' own' (i_addrs i') /\
  same_inode (set_size (Z.max (i_size i) (32 * k + 32)) i) i' /\ (on_disk n D i -> on_disk n D' i') /\
  J' ⊆ J ∪ bmaps sb ∪ {[inum_to_blk n]} ∪ Y /\ (size Y <= 3)%nat.

(** The rest of the body once the entry is found. *)
Lemma wp_add_entry k bh h0 U' be2 D2 own2 i2 J2 X (Q : option Z -> sst B -> Prop) :
  free_slot D i k -> 32 * k < SFS_MAX_FILE_SIZE -> bh <> NULL ->
  blk_rep true be2 D2 {[bh := fblk D2 (i_addrs i2) (32 * k / 512)]} ((h0, inum_to_blk n) :: U') J2 ->
  fblk D2 (i_addrs i2) (32 * k / 512) <> 0 ->
  wrote sb A n (32 * k) (32 * k) (new_dirent name inum) D own (i_addrs i) D2 own2 (i_addrs i2) ->
  same_inode i i2 -> (on_disk n D i -> on_disk n D2 i2) -> J2 ⊆ J ∪ bmaps sb ∪ {[inum_to_blk n]} ∪ X -> (size X <= 2)%nat ->
  (forall s', added k U' s' -> Q (Some ERR_OK) s') ->
  wp ((if i_size i2 <=? 32 * k then
         upd_inode p (set_size (32 * k + SIZEOF_SFS_DIRENT));; upd_inode p (set_dirty true);; sfs_write_inode p;; ret tt
       else ret tt);;
      store_dirent bh ((32 * k) mod BDEV_BLK_SIZE) name inum;; mark bh;;
      on_blk (bdev_release bh);; on_blk (bdev_release_unlocked h0);; ret (Some ERR_OK)) Q (mkS (<[p := i2]> I) be2).
Proof using Hly Hn Hin Hsz Hname Hover HJ.
  intros Hfree Hk Hbh R2 Hb0 W Hsame Hod HJ2 HX HQ. pose proof (entry_fits k Hk) as Hfit. pose proof (entry_room k) as Hrm. destruct Hfree as (Hk0 & Hat & Hfirst).
  destruct (same_inode_fields _ _ Hsame) as (Hin2 & Hsz2 & _). set (b := fblk D2 (i_addrs i2) (32 * k / 512)) in *.
  pose proof (wr_ok _ _ _ _ _ _ _ _ _ _ _ _ W) as F2. destruct (ofs_index (32 * k) ltac:(lia)) as (Hbi & _).
  assert (Ha2 : <[n := i_addrs i2]> A !! n = Some (i_addrs i2)) by (by rewrite lookup_insert_eq).
  assert (Hl2 : length (i_addrs i2) = 14%nat) by (by apply (fo_len _ _ _ _ F2 n)).
  assert (Hown : own2 !! b = Some (n, 32 * k / 512)) by (by apply (fo_data _ _ _ _ F2 n (i_addrs i2))).
  pose proof (owned_range _ _ _ _ _ _ F2 Hown) as Hbr. destruct (inum_place sb Hly n Hn) as (_ & _ & Hpl). pose proof (ly_bmap _ Hly).
  assert (Hsize : i_size i2 <= 32 * k -> Z.max (i_size i) (32 * k + 32) = 32 * k + 32) by lia.
  assert (Hsize' : 32 * k < i_size i2 -> Z.max (i_size i) (32 * k + 32) = i_size i).
  { intros Hlt. destruct Hsz as [_ Hm]. pose proof (Z.div_mod (i_size i) 32 ltac:(lia)). lia. }
  (* the inode, with the new size if the entry is past the end *)
  wp_step. apply wp_mono with (P := fun _ s' => exists be3 D3 i3 J3, s' = mkS (<[p := i3]> I) be3 /\
    blk_rep true be3 D3 {[bh := b]} ((h0, inum_to_blk n) :: U') J3 /\ wrote sb A n (32 * k) (32 * k) (new_dirent name inum) D own (i_addrs i) D3 own2 (i_addrs i3) /\
    i_addrs i3 = i_addrs i2 /\ D3 b = D2 b /\ fblk D3 (i_addrs i2) (32 * k / 512) = b /\
    same_inode (set_size (Z.max (i_size i) (32 * k + 32)) i) i3 /\ (on_disk n D i -> on_disk n D3 i3) /\ J3 ⊆ J ∪ bmaps sb ∪ {[inum_to_blk n]} ∪ X).
  { destruct (Z.leb_spec (i_size i2) (32 * k)) as [Hle|Hgt].
    - wp_step. eapply wp_upd_inode; [by rewrite lookup_insert_eq|]. rewrite insert_insert_eq. wp_step.
      eapply wp_upd_inode; [by rewrite lookup_insert_eq|]. rewrite insert_insert_eq. set (i3 := set_dirty true _). wp_step.
      assert (Hi3 : i_inum i3 = n) by (unfold i3; simpl; congruence).
      eapply (wp_write_inode sb Hly true _ be2 D2 _ _ J2 p i3); [exact R2|by rewrite lookup_insert_eq|by rewrite Hi3|done| | |done|].
      + intros h. rewrite Hi3, lookup_singleton. case_decide; [intros [= E]; lia|done].
      + rewrite Hi3. apply (log_room_fits sb), (log_room_set sb J _ ({[inum_to_blk n]} ∪ X) 4 0); [clear -HJ2; set_solver| |done].
        pose proof (size_add (inum_to_blk n) X). lia.
      + rewrite Hi3, insert_insert_eq. intros be3 R3. wp_step. eexists be3, _, _, _. split; [done|]. split; [exact R3|].
        assert (Hput : put_inode D2 n (enc i3) b = D2 b) by (apply (put_inode_ne sb Hly); [done|lia]).
        assert (W3 : wrote sb A n (32 * k) (32 * k) (new_dirent name inum) D own (i_addrs i) (put_inode D2 n (enc i3)) own2 (i_addrs i2)).
        { apply (wrote_put sb Hly A n Hn); [exact W|by apply enc_inode_length|apply enc_inode_bytes]. }
        split; [exact W3|]. split; [done|]. split; [done|]. split; [|split; [|split]].
        * apply fblk_frame; [|done]. intros c Hc Hne. apply (put_inode_ne sb Hly); [done|].
          pose proof (owned_range _ _ _ _ _ _ F2 (fo_ind _ _ _ _ F2 n _ c Ha2 Hc Hne)). lia.
        * rewrite Hsize by done. by apply same_inode_size.
        * intros _. unfold on_disk. rewrite (disk_put sb Hly); [|apply F2|done|done|by apply enc_inode_length]. by rewrite Z.eqb_refl.
        * clear -HJ2. set_solver.
    - wp_step. exists be2, D2, i2, J2. do 3 (split; [done|]). do 2 (split; [done|]). split; [done|]. rewrite Hsize' by done.
      split; [by apply same_inode_size_id|]. done. }
  intros [] s3 (be3 & D3 & i3 & J3 & -> & R3 & W3 & Ea & EDb & Efb & Hsame3 & Hod3 & HJ3).
  (* the bytes of the entry *)
  assert (Hov : overflow_ok (D3 b) ((32 * k) mod 512) name).
  { destruct Hover as [Hlong|Hz]; [by left|right]. destruct (Hz k) as [Hk16 Hz0]; [by split|]. destruct (entry_index k) as [Em _].
    pose proof (Z.mod_pos_bound k 16 ltac:(lia)). split; [lia|]. rewrite EDb.
    assert (Hmax : 32 * k + 32 < SFS_MAX_FILE_SIZE).
    { change SFS_MAX_FILE_SIZE with (32 * 4288) in *. assert (k <> 4287) by (intros ->; by apply Hk16). lia. }
    pose proof (wr_byte _ _ _ _ _ _ _ _ _ _ _ _ W (32 * k + 32) ltac:(lia)) as Hb. rewrite decide_False in Hb by lia. rewrite Hz0 in Hb.
    destruct (pos_block (32 * k) 32) as [E1 E2]; [lia..|]. unfold fbyte in Hb. rewrite E1, E2 in Hb. fold b in Hb. rewrite (proj2 (Z.eqb_neq b 0) Hb0) in Hb.
    destruct (nth_block (D2 b) (fo_block _ _ _ _ F2 b) (Z.to_nat ((32 * k) mod 512 + 32)) ltac:(lia)) as [-> _]. by rewrite Hb. }
  change BDEV_BLK_SIZE with 512. wp_step. eapply wp_store_dirent; [exact R3|by rewrite lookup_singleton_eq|exact Hrm|exact Hname|exact Hov|].
  intros be4 D4 HD4 R4. wp_step. eapply wp_mark; [exact R4|by rewrite lookup_singleton_eq| |].
  { apply (log_room_fits sb), (log_room_set sb J _ ({[b]} ∪ ({[inum_to_blk n]} ∪ X)) 4 0); [clear -HJ3; set_solver| |done].
    pose proof (size_add b ({[inum_to_blk n]} ∪ X)). pose proof (size_add (inum_to_blk n) X). lia. }
  intros be5 R5. wp_step. eapply wp_brelease; [exact R5|by rewrite lookup_singleton_eq|]. intros be6 R6. rewrite delete_singleton_eq in R6. wp_step.
  eapply wp_bunpin; [exact R6|]. intros be7 R7. wp_step. apply HQ.
  pose proof (wrote_store sb Hly A n (32 * k) (32 * k) (new_dirent name inum) 32 _ _ _ _ _ _ W3) as Hst.
  replace (32 * k - 32 * k) with 0 in Hst by lia. rewrite Ea, Efb in Hst. change (drop (Z.to_nat 0) (new_dirent name inum)) with (new_dirent name inum) in Hst.
  rewrite take_ge in Hst by (rewrite new_dirent_length; lia).
  assert (W4 : wrote sb A n (32 * k) (32 * k + 32) (new_dirent name inum) D own (i_addrs i) D4 own2 (i_addrs i2)).
  { eapply (wrote_grown sb A n _ _ _ 0); [apply Hst; [lia|lia|done|lia|lia|rewrite new_dirent_length; lia|by apply new_dirent_bytes]|].
    eapply file_grown_refl; [done| |exact HD4]. eapply (store_ok sb Hly D3 _ own2 b n (32 * k / 512)); [|exact Hown|lia|].
    - rewrite <- Ea. apply W3.
    - apply patch_block; [|lia|rewrite new_dirent_length; lia|by apply new_dirent_bytes]. rewrite EDb. apply F2. }
  exists be7, D4, own2, i3, ({[b]} ∪ J3), ({[b]} ∪ X). rewrite Ea. split; [done|]. split; [exact R7|]. split; [exact W4|]. split; [done|]. split; [|split].
  - intros Hd. specialize (Hod3 Hd). unfold on_disk in *. rewrite <- Hod3. unfold disk_inode. rewrite HD4. rewrite upd_blk_ne by lia. done.
  - clear -HJ3. set_solver.
  - pose proof (size_add b X). lia.
Qed.

(** The body of the loop for a free entry. *)
Definition visit (h0 bh ofs : Z) : M (sst B) (option Z) :=
  i <- get_inode p;;
  e <- load_dirent bh ofs;;
  if (i_size i <=? ofs) || (dirent_inum e =? 0) then
    (if i_size i <=? ofs then
       upd_inode p (set_size (ofs + SIZEOF_SFS_DIRENT));; upd_inode p (set_dirty true);; sfs_write_inode p;; ret tt
     else ret tt);;
    store_dirent bh (ofs mod BDEV_BLK_SIZE) name inum;; mark bh;;
    on_blk (bdev_release bh);; on_blk (bdev_release_unlocked h0);; ret (Some ERR_OK)
  else ret None.

Lemma wp_visit_free k bh h0 U' be2 D2 own2 i2 J2 X (Q : option Z -> sst B -> Prop) :
  free_slot D i k -> 32 * k < SFS_MAX_FILE_SIZE -> bh <> NULL ->
  blk_rep true be2 D2 {[bh := fblk D2 (i_addrs i2) (32 * k / 512)]} ((h0, inum_to_blk n) :: U') J2 ->
  fblk D2 (i_addrs i2) (32 * k / 512) <> 0 ->
  wrote sb A n (32 * k) (32 * k) (new_dirent name inum) D own (i_addrs i) D2 own2 (i_addrs i2) ->
  same_inode i i2 -> (on_disk n D i -> on_disk n D2 i2) -> J2 ⊆ J ∪ bmaps sb ∪ {[inum_to_blk n]} ∪ X -> (size X <= 2)%nat ->
  (forall s', added k U' s' -> Q (Some ERR_OK) s') ->
  wp (visit h0 bh (32 * k)) Q (mkS (<[p := i2]> I) be2).
Proof using Hly Hn Hin Hsz Hname Hover HJ.
  intros Hfree Hk Hbh R2 Hb0 W Hsame Hod HJ2 HX HQ. unfold visit. wp_step. eapply wp_get_inode; [by rewrite lookup_insert_eq|]. wp_step.
  unfold load_dirent. wp_step. eapply wp_bload; [exact R2|by rewrite lookup_singleton_eq|]. wp_step. change BDEV_BLK_SIZE with 512 at 1.
  fold (entry D2 (i_addrs i2) k). destruct (same_inode_fields _ _ Hsame) as (_ & Hsz2 & _). pose proof (entry_fits k Hk) as Hfit.
  replace ((i_size i2 <=? 32 * k) || (dirent_inum (entry D2 (i_addrs i2) k) =? 0)) with true.
  { by eapply wp_add_entry. }
  destruct Hfree as (Hk0 & [Hpast|Hz] & _); [by rewrite (proj2 (Z.leb_le _ _)) by lia|]. symmetry. apply orb_true_iff. right. apply Z.eqb_eq.
  rewrite <- Hz, <- dirent_inum_take, entry_slot; [|done|apply (wr_ok _ _ _ _ _ _ _ _ _ _ _ _ W)|done].
  f_equal. eapply wrote_slot_other; [exact W|done|lia|left; lia].
Qed.

Lemma wp_alloc_dirent be (Q : Z -> sst B -> Prop) : blk_rep true be D ∅ U J ->
  (forall k s', free_slot D i k -> 32 * k < SFS_MAX_FILE_SIZE -> added k U s' -> Q ERR_OK s') ->
  (forall be' D' own' i' J', (forall k, 0 <= k -> 32 * k < SFS_MAX_FILE_SIZE -> ~ free_at D i k) \/ disk_full sb D' ->
    blk_rep true be' D' ∅ U J' -> wrote sb A n 0 0 [] D own (i_addrs i) D' own' (i_addrs i') -> same_inode i i' ->
    (on_disk n D i -> on_disk n D' i') -> Q ERR_NORES (mkS (<[p := i']> I) be')) ->
  wp (alloc_dirent sb p name inum) Q (mkS I be).
Proof using Hly Hn Hp Hin F Hsz Hdense Hname Hover HJ.
  intros R Hok Hbad. destruct (inum_place sb Hly n Hn) as (_ & _ & Hpl). pose proof (ly_end _ Hly). pose proof (ly_bmap _ Hly). pose proof (ly_size _ Hly) as [].
  unfold alloc_dirent, acquire_inode_bh. wp_step. wp_step. eapply wp_get_inode; [exact Hp|]. rewrite Hin. apply wp_unbind.
  eapply wp_bpin; [exact R|lia|done|]. clear R. intros h0 be0 Hh0 R0. rewrite (proj2 (Z.eqb_neq h0 NULL) Hh0). fold (visit h0).
  set (U1 := (h0, inum_to_blk n) :: U) in *. destruct Hsz as [Hs Hm].
  assert (HJ3 : log_room sb J 3) by (unfold log_room in *; lia).
  unfold scan_dir.
  apply wp_loop with (mes := fun l _ => Z.to_nat (SFS_MAX_FILE_SIZE / SIZEOF_SFS_DIRENT + 1 - l.1 / 32))
    (I := fun l s => let '(ofs, bh) := l in exists k be', ofs = 32 * k /\ 0 <= k /\ s = mkS I be' /\
       before_entry true D U1 J i be' bh k /\ forall j, 0 <= j < k -> ~ free_at D i j).
  2:{ exists 0, be0. do 3 (split; [done|]). split; [|lia]. left. do 2 (split; [done|]). by exists D. }
  2:{ simpl fst. change (0 / 32) with 0. rewrite Z.sub_0_r. rewrite Z2Nat.inj_add by done. change (Z.to_nat 1) with 1%nat. lia. }
  intros [ofs bh] s (k & be1 & -> & Hk & -> & Hb & HP). unfold scan_step. wp_step. eapply wp_get_inode; [exact Hp|].
  destruct (Z.ltb_spec (32 * k) SFS_MAX_FILE_SIZE) as [Hlt|Hge].
  2:{ wp_step. eapply wp_release_before; [exact Hb|]. intros be2 (D2 & HD2 & R2). wp_step. wp_step. eapply wp_bunpin; [exact R2|]. intros be3 R3. wp_step. wp_step.
      rewrite <- (insert_id I p i) by done. eapply Hbad; [|exact R3| |apply same_inode_refl|].
      - left. intros j Hj Hjm. apply HP. lia.
      - by apply (wrote_rest sb Hly A n D own i F).
      - unfold on_disk, disk_inode. by rewrite HD2. }
  destruct (Z.lt_ge_cases (32 * k) (i_size i)) as [Hin_|Hpast].
  - (* an entry of the directory *)
    wp_step. eapply wp_mono; [apply (wp_next_block sb Hly A n Hn true I D U1 J own p i Hp Hin F ltac:(lia) Hdense); done || by left|].
    intros [err bh'] s1 (be2 & -> & [[Herr Hat]|(_ & ? & _)]); [|done]. cbn [fst snd] in *. subst err. change (negb (ERR_OK =? ERR_OK)) with false. cbn match. wp_step.
    assert (Hne : fblk D (i_addrs i) (32 * k / 512) <> 0) by (apply Hdense; lia).
    assert (Hbi : 0 <= 32 * k / 512 < NBLKS) by (apply ofs_index; lia).
    destruct (decide (dirent_inum (dslot D (i_addrs i) k) = 0)) as [Hz|Hnz].
    + destruct Hat as (D2 & Hbh & HD2 & R2). rewrite <- (insert_id I p i) by done.
      eapply (wp_visit_free k bh' h0 U be2 D2 own i J ∅); [split; [done|]; split; [by right|done]|done|done| | |by apply (wrote_rest sb Hly A n D own i F)|apply same_inode_refl| |clear; set_solver|rewrite size_empty; lia|].
      * by rewrite (fblk_same D D2).
      * by rewrite (fblk_same D D2).
      * unfold on_disk, disk_inode. by rewrite HD2.
      * intros s2 Hadd. wp_step. apply (Hok k); [split; [done|]; split; [by right|done]|done|done].
    + unfold visit. wp_step. eapply wp_get_inode; [exact Hp|]. wp_step. eapply wp_load_dirent; [exact Hat|].
      destruct (entry_facts sb A n D own i F Hdense k Hk Hin_) as [-> _]. rewrite (proj2 (Z.leb_gt _ _)), (proj2 (Z.eqb_neq _ 0) Hnz) by lia. cbn [orb].
      wp_step. wp_step. split.
      * exists (k + 1), be2. split; [unfold SIZEOF_SFS_DIRENT; lia|]. split; [lia|]. split; [done|]. split.
        -- right. replace (k + 1 - 1) with k by lia. split; [lia|done].
        -- intros j Hj. destruct (decide (j = k)) as [->|]; [intros [?|?]; [lia|done]|]. apply HP. lia.
      * simpl fst. unfold SIZEOF_SFS_DIRENT. replace (32 * k + 32) with ((k + 1) * 32) by lia. rewrite (Z.mul_comm 32 k), !Z.div_mul by lia.
        assert (k <= SFS_MAX_FILE_SIZE / 32) by (apply Z.div_le_lower_bound; lia). lia.
  - (* the entry past the end *)
    assert (Hfree : free_slot D i k) by (split; [done|]; split; [by left|done]).
    assert (Hbi : 0 <= 32 * k / 512 < NBLKS) by (apply ofs_index; lia).
    wp_step. change BDEV_BLK_SIZE with 512. destruct (Z.eqb_spec ((32 * k) mod 512) 0) as [Ez|Enz].
    + wp_step. eapply wp_release_before; [exact Hb|]. intros be2 (D2 & HD2 & R2).
      eapply wp_mono; [apply (wp_get_data_block sb Hly A n Hn true I be2 D2 U1 J own p i (32 * k) true); try done; [by eapply fsok_same|lia|by left]|].
      intros [err bh'] s1 (D3 & own3 & i3 & J3 & L3 & X & (be3 & -> & R3 & Hsame & G & Hod & HJ') & HX & _ & Hr). cbn [fst snd] in *.
      assert (W3 : forall lo v, wrote sb A n lo lo v D own (i_addrs i) D3 own3 (i_addrs i3)).
      { intros lo v. eapply (wrote_grown sb A n); [|exact G]. by apply (wrote_rest sb Hly A n D own i F). }
      assert (Hod' : on_disk n D i -> on_disk n D3 i3) by (intros Hd; apply Hod; unfold on_disk, disk_inode in *; by rewrite HD2).
      destruct Hr as [(-> & Hbh & -> & Hb0)|(Hf & ->)].
      * change (negb (ERR_OK =? ERR_OK)) with false. cbn match. wp_step.
        eapply (wp_visit_free k bh' h0 U be3 D3 own3 i3 J3 X); try done. intros s2 Hadd. wp_step. by apply (Hok k).
      * rewrite (failed_not_ok _ _ _ _ _ _ Hf). cbn [negb]. wp_step. wp_step. eapply wp_bunpin; [exact R3|]. intros be4 R4. wp_step. wp_step.
        destruct Hf as [(_ & ? & _)|[(_ & ?)|(-> & _ & _ & Hfull)]]; [done|done|].
        eapply Hbad; [right; exact Hfull|exact R4|apply W3|done|done].
    + destruct Hb as [(-> & _)|(Hk0 & Hkm & D2 & Hbh & HD2 & R2)]; [done|].
      assert (E : 32 * k / 512 = 32 * (k - 1) / 512).
      { destruct (entry_index k) as [E1 E2]. destruct (entry_index (k - 1)) as [_ E3]. rewrite E2, E3. rewrite E1 in Enz.
        pose proof (Z.div_mod k 16 ltac:(lia)). pose proof (Z.mod_pos_bound k 16 ltac:(lia)). apply Z.div_unique with (k mod 16 - 1); lia. }
      rewrite <- E in R2. wp_step. cbn [fst snd]. change (negb (ERR_OK =? ERR_OK)) with false. cbn match. wp_step.
      assert (Hne : fblk D (i_addrs i) (32 * k / 512) <> 0) by (rewrite E; apply Hdense; lia).
      rewrite <- (insert_id I p i) by done.
      eapply (wp_visit_free k bh h0 U be1 D2 own i J ∅); [done|done|done| | |by apply (wrote_rest sb Hly A n D own i F)|apply same_inode_refl| |clear; set_solver|rewrite size_empty; lia|].
      * by rewrite (fblk_same D D2).
      * by rewrite (fblk_same D D2).
      * unfold on_disk, disk_inode. by rewrite HD2.
      * intros s2 Hadd. wp_step. by apply (Hok k).
Qed.
End alloc.
