(* ===== verification/SfsClaims.v ===== *)
(** * Simple file system: claims about files

    A file is a list of bytes; write_data and read_data refine the obvious
    operations on it. *)

From stdpp Require Import prelude list gmap.
From Stdlib Require Import ZArith Lia.
From S2P Require Import Prelude DList Blocks Sfs SfsBits SfsAlloc SfsInode SfsData SfsBytes.

(** ** Files as lists of bytes *)

Definition contents (D : Z -> list Z) (i : inode) : list Z := map (fbyte D (i_addrs i)) (seqZ 0 (i_size i)).

(** Bytes written at a position; a gap is filled with zeros. *)
Definition pwrite (c : list Z) (ofs : nat) (v : list Z) : list Z :=
  take ofs (c ++ replicate (ofs - length c) 0) ++ v ++ drop (ofs + length v) c.

Lemma contents_length D i : length (contents D i) = Z.to_nat (i_size i).
Proof. unfold contents. by rewrite length_map, length_seqZ. Qed.

Lemma contents_lookup D i (k : nat) : contents D i !! k = if decide (Z.of_nat k < i_size i) then Some (fbyte D (i_addrs i) (Z.of_nat k)) else None.
Proof.
  unfold contents. rewrite list_lookup_fmap. case_decide as H.
  - rewrite lookup_seqZ_lt by lia. done.
  - rewrite lookup_seqZ_ge by lia. done.
Qed.

Lemma pwrite_lookup c ofs v k : pwrite c ofs v !! k =
  if decide (k < ofs)%nat then (if decide (k < length c)%nat then c !! k else Some 0)
  else if decide (k < ofs + length v)%nat then v !! (k - ofs)%nat else c !! k.
Proof.
  unfold pwrite. assert (Hl : length (take ofs (c ++ replicate (ofs - length c) 0)) = ofs) by (rewrite length_take, length_app, length_replicate; lia).
  repeat case_decide.
  - rewrite lookup_app_l, lookup_take_lt, lookup_app_l by lia. done.
  - rewrite lookup_app_l, lookup_take_lt, lookup_app_r by lia. rewrite lookup_replicate_2 by lia. done.
  - rewrite lookup_app_r, lookup_app_l by lia. by rewrite Hl.
  - rewrite lookup_app_r, lookup_app_r by lia. rewrite lookup_drop, Hl. f_equal. lia.
Qed.

Section claims.
Context (sb : sfs_sb_info) (Hly : layout sb).
Context {B : Type} `{!Blocks B}.
Implicit Types (I : gmap Z inode) (D : Z -> list Z) (U : list (Z * Z)) (J : gset Z) (own : gmap Z (Z * Z)) (A : gmap Z (list Z)).

(** The in-memory inode at [p] is that of a file whose bytes past the end are
    zero; [A] has the addresses of the other files, [own] the owners of the
    blocks in use, the blocks of [J] are logged.  [m] says that every fetch of a
    block succeeds; when it is false memory may run out. *)
Record file_state (m : bool) (p : Z) (i : inode) A D own (s : sst B) U J : Prop := {
  fs_mem : blk_rep m (sf_blk s) D ∅ U J;
  fs_inode : sf_inodes s !! p = Some i;
  fs_inum : is_inum sb (i_inum i);
  fs_ok : fsok sb D (<[i_inum i := i_addrs i]> A) own;
  fs_size : 0 <= i_size i <= SFS_MAX_FILE_SIZE;
  fs_tail : forall pos, i_size i <= pos < SFS_MAX_FILE_SIZE -> fbyte D (i_addrs i) pos = 0
}.

(** The blocks a write logs at most. *)
Definition write_room (i : inode) J (count ofs : Z) : Prop :=
  log_room sb ({[inum_to_blk (i_inum i)]} ∪ J) (3 * Z.to_nat (blocks_left ofs (ofs + count))).

Lemma other_bytes D D' A own n a n' a' pos : fsok sb D (<[n := a]> A) own -> (forall b x j, own !! b = Some (x, j) -> x <> n -> D' b = D b) ->
  n' <> n -> A !! n' = Some a' -> 0 <= pos < SFS_MAX_FILE_SIZE -> fbyte D' a' pos = fbyte D a' pos.
Proof using Type.
  intros F H Hne Ha Hpos. destruct (ofs_index pos Hpos) as (Hj & _).
  assert (Ha' : <[n := a]> A !! n' = Some a') by (by rewrite lookup_insert_ne).
  assert (Hf : fblk D' a' (pos / 512) = fblk D a' (pos / 512)).
  { apply fblk_frame; [|done]. intros k Hk Hk0. eapply H; [by apply (fo_ind _ _ _ _ F n' a')|done]. }
  unfold fbyte. rewrite Hf. destruct (Z.eqb_spec (fblk D a' (pos / 512)) 0) as [|Hne0]; [done|].
  erewrite H; [done|by apply (fo_data _ _ _ _ F n' a')|done].
Qed.

(** The list of bytes after a write. *)
Lemma wrote_contents A D own i D' own' i' buf count ofs total :
  let n := i_inum i in
  wrote sb A n ofs (ofs + total) buf D own (i_addrs i) D' own' (i_addrs i') -> 0 <= ofs -> 0 <= total <= count -> 0 < count ->
  ofs + count <= SFS_MAX_FILE_SIZE -> count <= Z.of_nat (length buf) -> i_size i' = Z.max (i_size i) (ofs + total) -> 0 <= i_size i <= SFS_MAX_FILE_SIZE ->
  (forall pos, i_size i <= pos < SFS_MAX_FILE_SIZE -> fbyte D (i_addrs i) pos = 0) ->
  contents D' i' = pwrite (contents D i) (Z.to_nat ofs) (take (Z.to_nat total) buf).
Proof using Type.
  intros n W Ho Ht Hc Hmax Hl Hsz Hs0 Htail. apply list_eq. intros k. rewrite contents_lookup, Hsz, pwrite_lookup.
  rewrite length_take, Nat.min_l by lia. rewrite !contents_lookup, contents_length.
  destruct (decide (Z.of_nat k < Z.max (i_size i) (ofs + total))) as [Hk|Hk].
  - rewrite (wr_byte _ _ _ _ _ _ _ _ _ _ _ _ W) by lia. repeat (case_decide; try lia); try done.
    all: first [rewrite Htail by lia; done|rewrite lookup_take_lt by lia].
    rewrite nth_lookup. replace (Z.to_nat (Z.of_nat k - ofs)) with (k - Z.to_nat ofs)%nat by lia.
      destruct (lookup_lt_is_Some_2 buf (k - Z.to_nat ofs)) as [x Hx]; [lia|]. by rewrite Hx.
  - repeat (case_decide; try lia); done.
Qed.

(** C10 write_data on a file, while every fetch of a block succeeds (the [true]
    of [file_state]: the block cache finds memory) and the journal has room for
    the blocks the write logs ([write_room]): the bytes of the file become those
    of the list with the written part replaced (a gap before it reads as zeros),
    at most [count] bytes and fewer only when no data block is free; the inode
    on disk keeps describing the file, and no byte of any other file changes.
    When a fetch fails write_data stops short too, with free blocks left
    ([write_short_nomem]). *)
Theorem sfs_write_data_spec p i A D own s U J buf count ofs :
  file_state true p i A D own s U J -> p <> NULL -> 0 <= ofs -> 0 < count <= Z.of_nat (length buf) -> ofs + count <= SFS_MAX_FILE_SIZE ->
  Forall (fun x => 0 <= x < 256) buf -> write_room i J count ofs ->
  wp (write_data sb p buf count ofs) (fun total s' => exists i' D' own' J',
    file_state true p i' A D' own' s' U J' /\ 0 <= total <= count /\ (total < count -> disk_full sb D') /\
    contents D' i' = pwrite (contents D i) (Z.to_nat ofs) (take (Z.to_nat total) buf) /\
    (on_disk (i_inum i) D i -> on_disk (i_inum i) D' i') /\
    (forall q, q <> p -> sf_inodes s' !! q = sf_inodes s !! q) /\
    (forall n' a' pos, n' <> i_inum i -> A !! n' = Some a' -> 0 <= pos < SFS_MAX_FILE_SIZE -> fbyte D' a' pos = fbyte D a' pos)) s.
Proof using Hly.
  intros [R Hi Hn F Hs Ht] Hp Ho Hc Hmax Hb HJ. destruct s as [I be]. simpl in *.
  eapply wp_mono; [apply (wp_write_bytes sb Hly A (i_inum i) Hn I D U J own p i buf count ofs); try done; lia|].
  intros total s' (be' & D' & own' & i' & J' & -> & R' & Htot & W & Hsame & Hod & Hfull). rewrite (proj2 (Z.ltb_lt 0 count)) in Hsame by lia.
  destruct (same_inode_fields _ _ Hsame) as (Hin & Hsz & _). simpl in Hin, Hsz. exists i', D', own', J'. split; [|split; [done|]].
  - split; simpl; rewrite ?Hin, ?Hsz; [done|by rewrite lookup_insert_eq|done|apply W|lia|].
    intros pos Hpos. rewrite (wr_byte _ _ _ _ _ _ _ _ _ _ _ _ W) by lia. rewrite decide_False by lia. apply Ht. lia.
  - split; [done|]. split; [by eapply wrote_contents; try done; lia|]. split; [done|]. split.
    + intros q Hq. simpl. by rewrite lookup_insert_ne.
    + intros n' a' pos Hne Ha Hpos. eapply other_bytes; [exact F|apply W|done..].
Qed.

(** The bytes read are those of the file. *)
Lemma did_read_contents D i count ofs out : 0 <= ofs -> 0 <= count -> 0 <= i_size i -> did_read true D i count ofs out ->
  out = take (length out) (take (Z.to_nat count) (drop (Z.to_nat ofs) (contents D i))) /\
  ((forall k, 0 <= k < i_size i -> fblk D (i_addrs i) (k / 512) <> 0) -> out = take (Z.to_nat count) (drop (Z.to_nat ofs) (contents D i))).
Proof using Type.
  intros Ho Hc Hs (Hlen & Hend & Hby & Hwhy).
  assert (Hout : out = take (length out) (take (Z.to_nat count) (drop (Z.to_nat ofs) (contents D i)))).
  { apply list_eq. intros k. destruct (decide (k < length out)%nat) as [Hk|Hk]; [|by rewrite !lookup_ge_None_2 by (rewrite ?length_take; lia)].
    destruct Hend as [->|Hend]; [simpl in Hk; lia|]. rewrite Hby, !lookup_take_lt, lookup_drop, contents_lookup by lia.
    rewrite decide_True by lia. do 2 f_equal. lia. }
  split; [done|].
  intros Hd. rewrite Hout. apply take_ge. rewrite length_take, length_drop, contents_length.
  destruct Hwhy as [?|[?|[Hz|?]]]; [lia|lia| |done].
  destruct (decide (ofs + Z.of_nat (length out) < i_size i)) as [Hlt|]; [|lia]. destruct (Hd (ofs + Z.of_nat (length out))); [lia|done].
Qed.

(** Read_data returns the bytes of the file at the offset, up to the end of
    the file; without a hole in the file it returns all of them, and it changes
    no byte, no inode and logs no block. *)
Theorem sfs_read_data_spec p i A D own s U J count ofs :
  file_state true p i A D own s U J -> 0 <= ofs -> 0 <= count ->
  wp (read_data sb p count ofs) (fun out s' => exists D',
    file_state true p i A D' own s' U J /\ sf_inodes s' = sf_inodes s /\ (forall b, D' b = D b) /\
    out = take (length out) (take (Z.to_nat count) (drop (Z.to_nat ofs) (contents D i))) /\
    ((forall k, 0 <= k < i_size i -> fblk D (i_addrs i) (k / 512) <> 0) ->
      out = take (Z.to_nat count) (drop (Z.to_nat ofs) (contents D i)))) s.
Proof using Hly.
  intros [R Hi Hn F Hs Ht] Ho Hc. destruct s as [I be]. simpl in *.
  eapply wp_mono; [apply (wp_read_data sb Hly A (i_inum i) Hn true I be D U J own p i count ofs); try done; [lia|by left]|].
  intros out s' (be' & D' & -> & R' & HD & Hr). destruct (did_read_contents D i count ofs out Ho Hc ltac:(lia) Hr) as [Hout Hall].
  exists D'. split; [|split; [done|split; [done|split; [done|]]]].
  - split; simpl; try done; [by eapply fsok_same|]. intros pos Hpos. rewrite <- (Ht pos Hpos). unfold fbyte.
    destruct (ofs_index pos ltac:(lia)) as (Hj & _). by rewrite (fblk_same D D'), HD by done.
  - exact Hall.
Qed.

(** C13 Bytes written to a file are the bytes read back at the same offset,
    through any holes and whatever the file held before, while every fetch of a
    block succeeds. *)
Theorem sfs_write_read_roundtrip p i A D own s U J buf count ofs :
  file_state true p i A D own s U J -> p <> NULL -> 0 <= ofs -> 0 < count <= Z.of_nat (length buf) -> ofs + count <= SFS_MAX_FILE_SIZE ->
  Forall (fun x => 0 <= x < 256) buf -> write_room i J count ofs ->
  wp (total <- write_data sb p buf count ofs;; out <- read_data sb p total ofs;; ret (total, out))
    (fun '(total, out) _ => out = take (Z.to_nat total) buf /\ 0 <= total <= count) s.
Proof using Hly.
  intros [R Hi Hn F Hs Ht] Hp Ho Hc Hmax Hb HJ. destruct s as [I be]. simpl in *. wp_step.
  eapply wp_mono; [apply (wp_write_bytes sb Hly A (i_inum i) Hn I D U J own p i buf count ofs); try done; lia|].
  intros total s' (be' & D' & own' & i' & J' & -> & R' & Htot & W & Hsame & Hod & Hfull). rewrite (proj2 (Z.ltb_lt 0 count)) in Hsame by lia.
  destruct (same_inode_fields _ _ Hsame) as (Hin & Hsz & _). simpl in Hin, Hsz. wp_step.
  eapply wp_mono; [apply (wp_read_data sb Hly A (i_inum i) Hn true _ be' D' U J' own' p i' total ofs); try done|].
  { by rewrite lookup_insert_eq. } { apply W. } { lia. } { lia. } { by left. }
  intros out s' (be2 & D2 & -> & R2 & HD & Hlen & Hend & Hby & Hwhy). wp_step. split; [|done].
  assert (Hl : Z.of_nat (length out) = total).
  { destruct Hwhy as [?|[?|[Hz|?]]]; [lia|lia| |done]. destruct (decide (Z.of_nat (length out) < total)) as [Hlt|]; [|lia].
    destruct (wr_map _ _ _ _ _ _ _ _ _ _ _ _ W (ofs + Z.of_nat (length out))); [lia|right; lia|done]. }
  apply list_eq. intros k. destruct (decide (k < length out)%nat) as [Hk|Hk]; [|by rewrite !lookup_ge_None_2 by (rewrite ?length_take; lia)].
  rewrite Hby, lookup_take_lt by lia. rewrite (wr_byte _ _ _ _ _ _ _ _ _ _ _ _ W) by lia. rewrite decide_True by lia.
  rewrite nth_lookup. replace (Z.to_nat (ofs + Z.of_nat k - ofs)) with k by lia.
  destruct (lookup_lt_is_Some_2 buf k) as [x Hx]; [lia|]. by rewrite Hx.
Qed.

(** C15 While every fetch of a block succeeds, an inode stored by
    sfs_write_inode is the one sfs_read_inode loads, the
    fields at their widths on disk; the other inodes of the disk keep their
    bytes. *)
Theorem sfs_inode_roundtrip p q i j (s : sst B) D L U J :
  blk_rep true (sf_blk s) D L U J -> sf_inodes s !! p = Some i -> sf_inodes s !! q = Some j -> p <> q ->
  is_inum sb (i_inum i) -> i_inum j = i_inum i -> i_dirty j = false -> length (i_addrs i) = 14%nat ->
  (forall h, L !! h <> Some (inum_to_blk (i_inum i))) -> (size ({[inum_to_blk (i_inum i)]} ∪ J) <= blk_capacity)%nat ->
  wp (e <- sfs_write_inode p;; e' <- sfs_read_inode q;; ret (e, e')) (fun r s' => r = (ERR_OK, ERR_OK) /\
    sf_inodes s' !! q = Some (mkI (i_inum i) (i_ref j) (u16 (i_nlink i)) (u8 (i_ftype i)) (u8 (i_mode i)) (u32 (i_size i))
      (map (wrapu 32) (i_addrs i)) true false (i_lock j)) /\
    exists D', blk_rep true (sf_blk s') D' L U ({[inum_to_blk (i_inum i)]} ∪ J) /\
      forall n', is_inum sb n' -> n' <> i_inum i -> disk_inode D' n' = disk_inode D n') s.
Proof using Hly.
  intros R Hp Hq Hpq Hn Hj Hjd Hl HL HJ. destruct s as [I be]. simpl in *. wp_step.
  pose proof (fun b => blk_rep_bytes _ _ _ _ _ _ b R) as Hblk. pose proof (enc_inode_length (i_ftype i) (i_mode i) (i_nlink i) (i_size i) _ Hl) as Hle.
  eapply (wp_write_inode sb Hly); [exact R|exact Hp|done..| |]; [done|]. intros be1 R1. wp_step.
  eapply (wp_read_inode sb Hly); [exact R1|by rewrite lookup_insert_ne|by rewrite Hj|done|by rewrite Hj|done|].
  intros be2 R2 d. wp_step. split; [done|]. cbn [sf_inodes sf_blk]. rewrite lookup_insert_eq. split.
  - assert (Ed : d = enc i ++ drop (Z.to_nat (inum_to_ofs (i_inum i)) + 64) (D (inum_to_blk (i_inum i)))).
    { unfold d. rewrite Hj. unfold put_inode. rewrite upd_blk_eq. unfold patch. destruct (inum_place sb Hly _ Hn) as (_ & Eo & _).
      pose proof (Z.mod_pos_bound (i_inum i - 1) 8 ltac:(lia)). destruct (Hblk (inum_to_blk (i_inum i))) as [Hlb _].
      rewrite drop_app_length' by (rewrite length_take; lia). unfold enc. by rewrite Hle. }
    destruct (enc_decode (i_ftype i) (i_mode i) (i_nlink i) (i_size i) (i_addrs i) (drop (Z.to_nat (inum_to_ofs (i_inum i)) + 64) (D (inum_to_blk (i_inum i)))) Hl)
      as (E0 & E1 & E2 & E4 & E8). fold (enc i) in E0, E1, E2, E4, E8. rewrite <- Ed in E0, E1, E2, E4, E8. rewrite E0, E1, E2, E4, E8, Hj, Hjd. done.
  - exists (put_inode D (i_inum i) (enc i)). split; [done|]. intros n' Hn' Hne. rewrite (disk_put sb Hly) by done. by rewrite (proj2 (Z.eqb_neq n' _) Hne).
Qed.

(** C14 alloc_data_block returns a data block that was free: its bit is set, its
    512 bytes are zero, every other bit and block is as before.  It fails only
    when every block is in use or memory ran out, and then no block changed. *)
Theorem alloc_data_block_spec m (s : sst B) D L U J :
  blk_rep m (sf_blk s) D L U J -> (forall h b, L !! h = Some b -> used sb D b) -> log_room sb J 1 ->
  wp (alloc_data_block sb) (fun '(err, blk) s' => exists D' J', blk_rep m (sf_blk s') D' L U J' /\ sf_inodes s' = sf_inodes s /\
    ((err = ERR_OK /\ ~ used sb D blk /\ used sb D' blk /\ D' blk = replicate 512 0 /\
      (forall b, b <> blk -> used sb D' b <-> used sb D b) /\ (forall b, b <> blk -> b ∉ bmaps sb -> D' b = D b)) \/
     ((err = ERR_NORES /\ disk_full sb D \/ err = ERR_NOMEM /\ m = false) /\ forall b, D' b = D b))) s.
Proof using Hly.
  intros R HL HJ. destruct s as [I be]. simpl in *. pose proof (fun b => blk_rep_bytes _ _ _ _ _ _ b R) as Hblk.
  eapply (wp_alloc_data sb Hly); [exact R|exact HL|exact HJ| |].
  - intros err blk be' D' J' He HD _ R'. exists D', J'. split; [done|]. split; [done|]. right. split; [|done].
    destruct He as [He|[-> Hf]]; [by right|by left].
  - intros k be' D' J' Hk Hd Ht _ R'. exists D', J'. split; [done|]. split; [done|]. left.
    destruct (took_used sb Hly D k D' Hblk Hk Ht) as (Hu & Hmono & _).
    assert (Hdb : forall j, 0 <= j < s_size sb -> j <> k -> dbit sb D' j = dbit sb D j) by (intros j Hj Hne; rewrite (took_dbit sb Hly D k D') by done; by rewrite (proj2 (Z.eqb_neq j k) Hne)).
    split; [done|]. split; [|split; [done|split; [|split]]].
    + intros [_ Hu']. replace (s_data_start sb + k - s_data_start sb) with k in Hu' by lia. congruence.
    + rewrite Ht. by rewrite Z.eqb_refl.
    + intros b Hb. split; [|apply Hmono]. intros [Hr Hb']. split; [done|]. rewrite Hdb in Hb' by lia. done.
    + intros b Hb Hbm. rewrite Ht, (proj2 (Z.eqb_neq b _) Hb). destruct (Z.eqb_spec b (bmap_of sb k)) as [->|]; [|done].
      destruct Hbm. apply bmaps_in. by apply (bmap_of_range sb Hly).
Qed.
End claims.

(** ** An empty disk with one file *)

Definition demo_sb : sfs_sb_info := mkSb 16 8 6 7 10.
Definition demo_inode : inode := mkI 1 1 1 FTYPE_FILE 0 0 (replicate 14 0) true false true.
Definition demo_store : mstore := mkMs ∅ ∅ [] ∅ [].
Definition demo_fs : sst mstore := mkS {[4096 := demo_inode; 8192 := set_ref 2 demo_inode]} demo_store.

Lemma demo_layout : layout demo_sb.
Proof. by split; vm_compute. Qed.

Lemma demo_fs_rep : blk_rep true demo_store (ms_blk demo_store) ∅ [] ∅.
Proof.
  split; try done.
  - intros h b. rewrite lookup_empty. split; [done|]. intros [_ H]. by apply not_elem_of_empty in H.
  - intros h b H. by apply elem_of_nil in H.
Qed.

Lemma demo_fblk D k : fblk D (replicate 14 0) k = 0.
Proof.
  assert (Ha : forall j, addr (replicate 14 0) j = 0).
  { intros j. unfold addr. rewrite nth_lookup. destruct (replicate 14 0 !! Z.to_nat j) eqn:E; [|done]. by apply lookup_replicate_1 in E as [-> _]. }
  unfold fblk. rewrite !Ha. by destruct (k <? SFS_NDIRECT).
Qed.

Lemma demo_file : file_state demo_sb true 4096 demo_inode ∅ (ms_blk demo_store) ∅ demo_fs [] ∅.
Proof.
  split; [exact demo_fs_rep|done|by vm_compute| |by vm_compute|].
  - assert (Hl : forall n a, <[i_inum demo_inode := i_addrs demo_inode]> (∅ : gmap Z (list Z)) !! n = Some a -> a = replicate 14 0).
    { intros n a. rewrite lookup_insert. case_decide; [by intros [= <-]|by rewrite lookup_empty]. }
    split.
    + intros b. apply (blk_rep_bytes _ _ _ _ _ _ b demo_fs_rep).
    + intros b x. by rewrite lookup_empty.
    + intros n a Ha%Hl. by subst a.
    + intros n a i Ha%Hl _ Hne. subst a. by rewrite demo_fblk in Hne.
    + intros n a k Ha%Hl Hk Hne. subst a. assert (E := demo_fblk (fun _ => []) (12 + k)). destruct Hne. unfold addr. rewrite nth_lookup.
      destruct (replicate 14 0 !! Z.to_nat (12 + k)) eqn:E1; [|done]. by apply lookup_replicate_1 in E1 as [-> _].
  - intros pos _. unfold fbyte. by rewrite demo_fblk.
Qed.

Lemma sfs_write_data_spec_witness :
  exists total s', write_data demo_sb 4096 [7; 8; 9] 3 510 demo_fs = Done (total, s') /\ total = 3.
Proof.
  destruct (wp_elim _ _ _ (sfs_write_data_spec demo_sb demo_layout 4096 demo_inode ∅ (ms_blk demo_store) ∅ demo_fs [] ∅ [7; 8; 9] 3 510
    demo_file ltac:(done) ltac:(lia) ltac:(simpl; lia) ltac:(by vm_compute) ltac:(repeat constructor; lia) ltac:(vm_compute; lia)))
    as (total & s' & E & _). exists total, s'. apply (run_value _ _ _ _ _ E). vm_compute. reflexivity.
Defined.

Lemma sfs_read_data_spec_witness : exists s', read_data demo_sb 4096 8 0 demo_fs = Done ([], s').
Proof.
  destruct (wp_elim _ _ _ (sfs_read_data_spec demo_sb demo_layout 4096 demo_inode ∅ (ms_blk demo_store) ∅ demo_fs [] ∅ 8 0
    demo_file ltac:(lia) ltac:(lia))) as (out & s' & E & D' & _ & _ & _ & Ho & _). exists s'. assert (Hout : out = []) by (rewrite Ho; by destruct (length out)). rewrite <- Hout. exact E.
Defined.

Lemma sfs_write_read_roundtrip_witness :
  exists total out s', (total <- write_data demo_sb 4096 [7; 8; 9] 3 510;; out <- read_data demo_sb 4096 total 510;; ret (total, out)) demo_fs =
    Done ((total, out), s') /\ out = take (Z.to_nat total) [7; 8; 9].
Proof.
  destruct (wp_elim _ _ _ (sfs_write_read_roundtrip demo_sb demo_layout 4096 demo_inode ∅ (ms_blk demo_store) ∅ demo_fs [] ∅ [7; 8; 9] 3 510
    demo_file ltac:(done) ltac:(lia) ltac:(simpl; lia) ltac:(by vm_compute) ltac:(repeat constructor; lia) ltac:(vm_compute; lia)))
    as ([total out] & s' & E & Ho & _). exists total, out, s'. exact (conj E Ho).
Defined.

Lemma sfs_inode_roundtrip_witness :
  exists r s', (e <- sfs_write_inode 4096;; e' <- sfs_read_inode 8192;; ret (e, e')) demo_fs = Done (r, s') /\ r = (ERR_OK, ERR_OK).
Proof.
  destruct (wp_elim _ _ _ (sfs_inode_roundtrip demo_sb demo_layout 4096 8192 demo_inode (set_ref 2 demo_inode) demo_fs _ _ _ _
    demo_fs_rep ltac:(done) ltac:(done) ltac:(done) ltac:(by vm_compute) ltac:(done) ltac:(done) ltac:(done) ltac:(done) ltac:(vm_compute; lia)))
    as (r & s' & E & Hr & _). exists r, s'. exact (conj E Hr).
Defined.

Lemma alloc_data_block_spec_witness : exists r s', alloc_data_block demo_sb demo_fs = Done (r, s').
Proof.
  destruct (wp_elim _ _ _ (alloc_data_block_spec demo_sb demo_layout true demo_fs _ _ _ _ demo_fs_rep ltac:(done) ltac:(vm_compute; lia)))
    as (r & s' & E & _). exists r, s'. exact E.
Defined.

(** The bytes really come back: the run itself. *)
Example write_read_run :
  value_of ((total <- write_data demo_sb 4096 [7; 8; 9] 3 510;; out <- read_data demo_sb 4096 10 508;; ret (total, out)) demo_fs) =
  Some (3, [0; 0; 7; 8; 9]).
Proof. vm_compute. reflexivity. Qed.

(** The second block cannot be fetched: two bytes are written although the disk
    has free blocks. *)
Example write_short_nomem :
  value_of (write_data demo_sb 4096 [7; 8; 9] 3 510 (mkS (sf_inodes demo_fs) (mkMs ∅ ∅ [] ∅ [true; true; true; true; true; true; true; false]))) = Some 2.
Proof. vm_compute. reflexivity. Qed.

(** ** The indirect block is released twice

    The file's block 12 is data block 11 through indirect block 10; the fetch
    of block 11 finds no memory.  get_data_block has released the indirect
    block already and releases it again on the way out, where the lock is not
    held. *)
Definition indirect_fs : sst mstore :=
  mkS {[4096 := set_size 8192 (set_addrs (<[12%nat := 10]> (replicate 14 0)) demo_inode)]}
    (mkMs {[10 := le32 11 ++ replicate 508 0; 6 := 3 :: replicate 511 0]} ∅ [] ∅ [true; true; false]).

Example get_data_block_releases_twice : get_data_block demo_sb 4096 (12 * 512) false indirect_fs = Stop BadAccess.
Proof. vm_compute. reflexivity. Qed.

(** With memory the same call returns the locked block. *)
Example get_data_block_indirect_run :
  value_of (get_data_block demo_sb 4096 (12 * 512) false (mkS (sf_inodes indirect_fs) (mkMs (ms_data (sf_blk indirect_fs)) ∅ [] ∅ []))) =
  Some (ERR_OK, 12).
Proof. vm_compute. reflexivity. Qed.

(** write_data past the largest file stops the kernel. *)
Example write_beyond_max : write_data demo_sb 4096 [1] 1 SFS_MAX_FILE_SIZE demo_fs = Stop KAssert.
Proof. vm_compute. reflexivity. Qed.
