(* ===== verification/SfsDirClaims.v ===== *)
(** * Simple file system: claims about directories

    A directory is a finite map from names to inode numbers. *)

From stdpp Require Import prelude list gmap.
From Stdlib Require Import ZArith Lia.
From S2P Require Import Prelude DList Blocks Sfs SfsDir SfsBits SfsAlloc SfsInode SfsData SfsBytes SfsDirSpec SfsClaims.

(** ** Names *)

(** A name that fits into an entry with its terminator. *)
Definition is_name (s : list Z) : Prop := (length s < 28)%nat /\ Forall (fun c => 0 < c < 256) s.

(** The text of a C string field: its bytes up to a NUL, at most 28. *)
Fixpoint upto_nul (s : list Z) : list Z :=
  match s with [] => [] | c :: s' => if c =? 0 then [] else c :: upto_nul s' end.
Definition text (s : list Z) : list Z := upto_nul (take 28 s).

(** An entry in use whose name, the bytes from the fifth on, is [name]. *)
Definition named (e name : list Z) : bool := bool_decide (dirent_inum e > 0 /\ text (drop 4 e) = text name).

Lemma strncmp0_text m : forall s1 s2, strncmp0 m s1 s2 = bool_decide (upto_nul (take m s1) = upto_nul (take m s2)).
Proof.
  induction m as [|m IH]; intros s1 s2; [done|].
  destruct s1 as [|a s1], s2 as [|b s2]; cbn [strncmp0 head tail default from_option id take upto_nul]; try done.
  - destruct b; by case_bool_decide.
  - destruct a; by case_bool_decide.
  - rewrite IH. destruct (Z.eqb_spec a 0) as [->|Ha], (Z.eqb_spec b 0) as [->|Hb]; cbn [negb andb]; try done.
    + rewrite bool_decide_false by done. apply Z.eqb_neq. congruence.
    + rewrite (proj2 (Z.eqb_neq a 0)) by done. by rewrite bool_decide_false by done.
    + destruct (Z.eqb_spec a b) as [->|Hab]; [|by rewrite bool_decide_false by congruence]. apply bool_decide_ext. split; congruence.
Qed.

(** The comparison of the code is equality of the names. *)
Lemma dirent_match_named e name : dirent_match e name = named e name.
Proof.
  unfold dirent_match, named. rewrite strncmp0_text. change (Z.to_nat SFS_DIRENT_NAMELEN) with 28%nat. unfold dirent_name, text.
  change (Z.to_nat SFS_DIRENT_NAMELEN) with 28%nat. rewrite take_take, Nat.min_id.
  destruct (Z.ltb_spec 0 (dirent_inum e)); cbn [andb]; [apply bool_decide_ext; intuition lia|]. symmetry. apply bool_decide_false. lia.
Qed.

Lemma text_name name : is_name name -> text name = name.
Proof.
  intros [Hl Hc]. unfold text. rewrite take_ge by lia. clear Hl. induction Hc as [|c s Hc _ IH]; [done|]. cbn [upto_nul].
  rewrite (proj2 (Z.eqb_neq c 0)) by lia. by rewrite IH.
Qed.

Lemma strncmp0_eq m s1 s2 r : (length s1 < m)%nat -> (length s2 < m)%nat -> Forall (fun c => 0 < c < 256) s1 -> Forall (fun c => 0 < c < 256) s2 ->
  default 0 (head r) = 0 -> strncmp0 m (s1 ++ r) s2 = bool_decide (s1 = s2).
Proof.
  revert m s2. induction s1 as [|a s1 IH]; intros [|m] [|b s2] H1 H2 F1 F2 Hr; cbn [length] in *; try lia; cbn [strncmp0 app head default tail].
  - rewrite Hr. done.
  - rewrite Hr. inversion F2; subst. cbn. destruct b; done || lia.
  - inversion F1; subst. cbn. rewrite (proj2 (Z.eqb_neq a 0)) by lia. by rewrite ?andb_false_r.
  - inversion F1; inversion F2; subst. cbn [from_option id]. rewrite (proj2 (Z.eqb_neq a 0)) by lia. cbn [negb andb]. destruct (Z.eqb_spec a b) as [->|Hne].
    + rewrite IH by (done || lia). repeat case_bool_decide; congruence.
    + rewrite bool_decide_false by congruence. done.
Qed.

Lemma take_name name : (length name < 28)%nat -> take 27 (name ++ replicate 27 0) ++ [0] = name ++ replicate (28 - length name) 0.
Proof.
  intros H. rewrite take_app_ge by lia. rewrite take_replicate, <- app_assoc. f_equal. change [0] with (replicate 1 0).
  rewrite <- replicate_add. f_equal. lia.
Qed.

Lemma new_dirent_inum name inum : 0 <= inum < 2 ^ 32 -> dirent_inum (new_dirent name inum) = inum.
Proof. intros H. unfold dirent_inum, new_dirent. by apply of_le32_app. Qed.

Lemma new_dirent_match name inum s : is_name name -> is_name s -> 0 < inum < 2 ^ 32 ->
  dirent_match (new_dirent name inum) s = bool_decide (name = s).
Proof.
  intros [Hl Hc] [Hl' Hc'] Hi. unfold dirent_match. rewrite new_dirent_inum, (proj2 (Z.ltb_lt 0 inum)) by lia. cbn [andb].
  unfold dirent_name, new_dirent. change (drop 4 (le32 inum ++ ?l)) with l. rewrite take_name by done.
  rewrite take_ge by (rewrite length_app, length_replicate; change (Z.to_nat SFS_DIRENT_NAMELEN) with 28%nat; lia).
  apply strncmp0_eq; [done|done|done|done|]. destruct (28 - length name)%nat eqn:E; [lia|done].
Qed.

(** ** A directory as a map *)

Section dir.
Context (D : Z -> list Z) (i : inode).

(** The number of the first entry with the name, 0 when there is none; the
    names are compared as texts, not by the code of the program. *)
Fixpoint lookup_from (m : nat) (k : Z) (name : list Z) : Z :=
  match m with
  | O => 0
  | S m => if named (dslot D (i_addrs i) k) name then dirent_inum (dslot D (i_addrs i) k) else lookup_from m (k + 1) name
  end.
Definition dir_lookup (name : list Z) : Z := lookup_from (Z.to_nat (i_size i / 32)) 0 name.

Lemma match_inum e name : dirent_match e name = true -> dirent_inum e > 0.
Proof using Type. unfold dirent_match. intros [H _]%andb_true_iff. apply Z.ltb_lt in H. lia. Qed.

Lemma lookup_from_spec m k name :
  (lookup_from m k name = 0 /\ forall j, k <= j < k + Z.of_nat m -> dirent_match (dslot D (i_addrs i) j) name = false) \/
  (exists j, k <= j < k + Z.of_nat m /\ dirent_match (dslot D (i_addrs i) j) name = true /\ lookup_from m k name = dirent_inum (dslot D (i_addrs i) j) /\
     forall j', k <= j' < j -> dirent_match (dslot D (i_addrs i) j') name = false).
Proof using Type.
  revert k. induction m as [|m IH]; intros k; cbn [lookup_from]; rewrite <- ?dirent_match_named; simpl.
  - left. split; [done|]. lia.
  - destruct (dirent_match (dslot D (i_addrs i) k) name) eqn:E.
    + right. exists k. split; [lia|]. split; [done|]. split; [done|]. lia.
    + destruct (IH (k + 1)) as [[E0 Hn]|(j & Hj & Hm & E0 & Hn)].
      * left. split; [done|]. intros j Hj. destruct (decide (j = k)) as [->|]; [done|]. apply Hn. lia.
      * right. exists j. split; [lia|]. split; [done|]. split; [done|]. intros j' Hj'. destruct (decide (j' = k)) as [->|]; [done|]. apply Hn. lia.
Qed.

Hypothesis Hsz : 0 <= i_size i /\ i_size i mod 32 = 0.

Lemma slot_range k : 0 <= k < Z.of_nat (Z.to_nat (i_size i / 32)) <-> 0 <= k /\ 32 * k < i_size i.
Proof using Hsz. destruct Hsz as [H0 H1]. pose proof (Z.div_mod (i_size i) 32 ltac:(lia)). lia. Qed.

Lemma found_lookup name o : found D i name o -> dir_lookup name = match o with Some k => dirent_inum (dslot D (i_addrs i) k) | None => 0 end.
Proof using Hsz.
  intros Hf. unfold dir_lookup. destruct (lookup_from_spec (Z.to_nat (i_size i / 32)) 0 name) as [[E Hno]|(j & Hj & Hm & E & Hno)].
  - destruct o as [k|]; [|done]. destruct Hf as (Hk & Hlt & Hk' & _). rewrite Hno in Hk'; [done|]. rewrite Z.add_0_l. by apply slot_range.
  - rewrite Z.add_0_l in Hj. apply slot_range in Hj as [Hj Hlt]. destruct o as [k|]; [|by rewrite Hf in Hm].
    destruct Hf as (Hk & Hklt & Hk' & Hkn). assert (k = j) as ->; [|done].
    destruct (Z.lt_trichotomy k j) as [Hc|[Hc|Hc]]; [by rewrite Hno in Hk' by lia|done|by rewrite Hkn in Hm by lia].
Qed.

Lemma lookup_found name : exists o, found D i name o.
Proof using Hsz.
  destruct (lookup_from_spec (Z.to_nat (i_size i / 32)) 0 name) as [[E Hno]|(j & Hj & Hm & E & Hno)]; rewrite ?Z.add_0_l in *.
  - exists None. intros k Hk Hlt. apply Hno. by apply slot_range.
  - apply slot_range in Hj as [Hj Hlt]. exists (Some j). by repeat split.
Qed.

(** At most one entry has the name. *)
Definition unique : Prop := forall name j k, is_name name -> 0 <= j -> 32 * j < i_size i -> 0 <= k -> 32 * k < i_size i ->
  named (dslot D (i_addrs i) j) name = true -> named (dslot D (i_addrs i) k) name = true -> j = k.

Lemma unique_match : unique <-> forall name j k, is_name name -> 0 <= j -> 32 * j < i_size i -> 0 <= k -> 32 * k < i_size i ->
  dirent_match (dslot D (i_addrs i) j) name = true -> dirent_match (dslot D (i_addrs i) k) name = true -> j = k.
Proof using Type.
  unfold unique. split; intros H name j k; specialize (H name j k); rewrite ?dirent_match_named in *; done.
Qed.

Lemma lookup_unique name k : unique -> is_name name -> 0 <= k -> 32 * k < i_size i -> dirent_match (dslot D (i_addrs i) k) name = true ->
  dir_lookup name = dirent_inum (dslot D (i_addrs i) k).
Proof using Hsz.
  intros Hu Hn Hk Hlt Hm. destruct (lookup_found name) as [o Hf]. rewrite (found_lookup name o Hf).
  destruct o as [j|]; [|by rewrite Hf in Hm]. destruct Hf as (Hj & Hjlt & Hjm & _). rewrite dirent_match_named in Hm, Hjm. by rewrite (Hu name j k).
Qed.

Lemma lookup_none name : (forall k, 0 <= k -> 32 * k < i_size i -> dirent_match (dslot D (i_addrs i) k) name = false) <-> dir_lookup name = 0.
Proof using Hsz.
  destruct (lookup_found name) as [o Hf]. rewrite (found_lookup name o Hf). split.
  - intros H. destruct o as [j|]; [|done]. destruct Hf as (Hj & Hjlt & Hjm & _). by rewrite H in Hjm.
  - destruct o as [j|]; [|by intros _]. destruct Hf as (_ & _ & Hjm & _). apply match_inum in Hjm. lia.
Qed.
End dir.

Lemma strncmp0_inj m e s1 s2 : (length s1 < m)%nat -> (length s2 < m)%nat -> Forall (fun c => 0 < c < 256) s1 -> Forall (fun c => 0 < c < 256) s2 ->
  strncmp0 m e s1 = true -> strncmp0 m e s2 = true -> s1 = s2.
Proof.
  revert e s1 s2. induction m as [|m IH]; intros e s1 s2 H1 H2 F1 F2; [lia|]. cbn [strncmp0].
  destruct s1 as [|a s1], s2 as [|b s2]; cbn [head tail default from_option id length] in *; [done|..];
    repeat match goal with H : Forall _ (_ :: _) |- _ => inversion H; clear H; subst end;
    set (c := default 0 (head e)); destruct (Z.eqb_spec c 0) as [->|Hc]; cbn [negb andb];
    repeat (match goal with |- context [?x =? ?y] => destruct (Z.eqb_spec x y) end; try lia; try done).
  subst. intros E1 E2. f_equal. eapply IH; [lia|lia|done|done|exact E1|exact E2].
Qed.

Lemma match_inj e s1 s2 : is_name s1 -> is_name s2 -> dirent_match e s1 = true -> dirent_match e s2 = true -> s1 = s2.
Proof.
  intros [H1 F1] [H2 F2] [_ E1]%andb_true_iff [_ E2]%andb_true_iff. by eapply strncmp0_inj.
Qed.

Section claims.
Context (sb : sfs_sb_info) (Hly : layout sb).
Context {B : Type} `{!Blocks B}.
Implicit Types (D : Z -> list Z) (U : list (Z * Z)) (J : gset Z) (own : gmap Z (Z * Z)) (A : gmap Z (list Z)).

(** The in-memory inode at [p] is that of a directory without holes, in which
    no name occurs twice. *)
Record dir_state (m : bool) (p : Z) (i : inode) A D own (s : sst B) U J : Prop := {
  ds_file : file_state sb m p i A D own s U J;
  ds_aligned : i_size i mod 32 = 0;
  ds_dense : forall k, 0 <= k < i_size i -> fblk D (i_addrs i) (k / 512) <> 0;
  ds_unique : unique D i
}.

Lemma dir_state_same m p i A D own s U J D' be' : dir_state m p i A D own s U J -> (forall x, D' x = D x) -> blk_rep m be' D' ∅ U J ->
  dir_state m p i A D' own (mkS (sf_inodes s) be') U J.
Proof using Hly.
  intros [[R Hi Hn F Hs Ht] Ha Hd Hu] E R'.
  assert (Hb : forall pos, 0 <= pos < SFS_MAX_FILE_SIZE -> fbyte D' (i_addrs i) pos = fbyte D (i_addrs i) pos).
  { intros pos Hpos. destruct (ofs_index pos Hpos) as (Hj & _). unfold fbyte. by rewrite (fblk_same D D'), E by done. }
  split; [split; try done; [by eapply fsok_same|intros pos Hpos; rewrite Hb by lia; by apply Ht]|done| |].
  - intros k Hk. destruct (ofs_index k ltac:(lia)) as (Hj & _). rewrite (fblk_same D D') by done. by apply Hd.
  - pose proof (Z.div_mod (i_size i) 32 ltac:(lia)).
    assert (Hsl : forall k, 0 <= k -> 32 * k < i_size i -> dslot D' (i_addrs i) k = dslot D (i_addrs i) k) by (intros k Hk Hlt; apply dslot_same; intros j Hj; apply Hb; lia).
    intros name j k Hname Hj Hjl Hk Hkl. rewrite !Hsl by done. by apply Hu.
Qed.

(** C16 search_dir returns the inode number the directory maps the name to (the
    entry in use whose name, up to 28 bytes and a NUL, is equal), 0 when there
    is none, and changes nothing.  When fetches may fail ([m] false) it may also
    return 0 for a name that is there; this is shown for directories within the
    12 direct blocks. *)
Theorem search_dir_spec m p i A D own s U J name : dir_state m p i A D own s U J -> m = true \/ i_size i <= 12 * 512 ->
  wp (search_dir sb p name) (fun r s' => (r = dir_lookup D i name \/ m = false /\ r = 0) /\ sf_inodes s' = sf_inodes s /\
    exists D', (forall b, D' b = D b) /\ dir_state m p i A D' own s' U J) s.
Proof using Hly.
  intros S Hm. pose proof S as [[R Hi Hn F Hs Ht] Ha Hd Hu]. destruct s as [I be]. simpl in *.
  eapply (wp_search_dir sb Hly A (i_inum i) Hn m I D U J own p i); try done; [lia|by exists D| |].
  - intros be' Hf (D' & E & R'). split; [by right|]. split; [done|]. exists D'. split; [done|].
    by eapply (dir_state_same _ _ _ _ _ _ _ _ _ _ _ S).
  - intros o be' Hf (D' & E & R'). split; [left; by rewrite (found_lookup D i ltac:(lia) name o Hf)|]. split; [done|]. exists D'. split; [done|].
    by eapply (dir_state_same _ _ _ _ _ _ _ _ _ _ _ S).
Qed.

(** A write inside the directory, seen on entries. *)
Lemma dir_state_wrote p i i' A D D' own own' s U J J' lo hi v be' : dir_state true p i A D own s U J ->
  wrote sb A (i_inum i) lo hi v D own (i_addrs i) D' own' (i_addrs i') -> i_inum i' = i_inum i -> blk_rep true be' D' ∅ U J' ->
  i_size i <= i_size i' <= SFS_MAX_FILE_SIZE -> i_size i' mod 32 = 0 -> 0 <= lo <= hi -> hi <= i_size i' -> i_size i = i_size i' \/ lo = i_size i /\ hi = i_size i' ->
  unique D' i' -> dir_state true p i' A D' own' (mkS (<[p := i']> (sf_inodes s)) be') U J'.
Proof using Hly.
  intros [[R Hi Hn F Hs Ht] Ha Hd Hu] W Hin R' Hsz Hal Hlo Hhi Happ Hu'. split; [split|done| |done]; simpl; rewrite ?Hin; try done.
  - by rewrite lookup_insert_eq.
  - apply W.
  - lia.
  - intros pos Hpos. rewrite (wr_byte _ _ _ _ _ _ _ _ _ _ _ _ W) by lia. rewrite decide_False by lia. apply Ht. lia.
  - intros k Hk. apply (wr_map _ _ _ _ _ _ _ _ _ _ _ _ W); [lia|]. destruct (decide (k < i_size i)); [left; apply Hd; lia|right; lia].
Qed.

(** The finite map after one entry changed: [old] and [new] are its bytes
    before and after. *)
Definition same_elsewhere D i D' i' (k : Z) : Prop :=
  forall j, 0 <= j -> 32 * j < i_size i' -> j <> k -> dslot D' (i_addrs i') j = dslot D (i_addrs i) j.

Lemma lookup_elsewhere D i D' i' k name : same_elsewhere D i D' i' k -> 0 <= k -> 0 <= i_size i /\ i_size i mod 32 = 0 -> 0 <= i_size i' /\ i_size i' mod 32 = 0 ->
  (forall j, 0 <= j -> j <> k -> 32 * j < i_size i <-> 32 * j < i_size i') ->
  (32 * k < i_size i -> dirent_match (dslot D (i_addrs i) k) name = false) -> (32 * k < i_size i' -> dirent_match (dslot D' (i_addrs i') k) name = false) ->
  dir_lookup D' i' name = dir_lookup D i name.
Proof using Type.
  intros Hs Hk Hsz Hsz' Hr Ho Hn. destruct (lookup_found D i Hsz name) as [o Hf]. rewrite (found_lookup D i Hsz name o Hf).
  assert (Hf' : found D' i' name o).
  { destruct o as [j|].
    - destruct Hf as (Hj & Hlt & Hm & Hmin). assert (j <> k) by (intros ->; by rewrite Ho in Hm).
      split; [done|]. split; [by apply Hr|]. split; [by rewrite Hs by (done || by apply Hr)|].
      intros j' Hj'. destruct (decide (j' = k)) as [->|Hne]; [apply Hn; apply Hr in Hlt; [lia|done|done]|].
      rewrite Hs; [by apply Hmin|lia| |done]. apply Hr in Hlt; [lia|done|done].
    - intros j Hj Hlt. destruct (decide (j = k)) as [->|Hne]; [by apply Hn|]. rewrite Hs by done. apply Hf; [done|by apply Hr]. }
  rewrite (found_lookup D' i' Hsz' name o Hf'). destruct o as [j|]; [|done]. destruct Hf as (Hj & Hlt & Hm & _).
  assert (j <> k) by (intros ->; by rewrite Ho in Hm). by rewrite Hs by (done || by apply Hr).
Qed.

Lemma match_free e name : dirent_inum e = 0 -> dirent_match e name = false.
Proof using Type. intros E. unfold dirent_match. by rewrite E. Qed.

(** C12 While every fetch of a block succeeds, free_dirent removes the name
    from the map and no other: it reports ERR_NOTEXIST exactly when the name was
    not there. *)
Theorem free_dirent_spec p i A D own s U J name : dir_state true p i A D own s U J -> is_name name -> log_room sb J 1 ->
  wp (free_dirent sb p name) (fun r s' => r = (if dir_lookup D i name =? 0 then ERR_NOTEXIST else ERR_OK) /\ sf_inodes s' = sf_inodes s /\
    exists D' J', dir_state true p i A D' own s' U J' /\ dir_lookup D' i name = 0 /\
      forall name', is_name name' -> name' <> name -> dir_lookup D' i name' = dir_lookup D i name') s.
Proof using Hly.
  intros S Hname HJ. pose proof S as [[R Hi Hn F Hs Ht] Ha Hd Hu0]. pose proof (proj1 (unique_match D i) Hu0) as Hu. destruct s as [I be]. simpl in *. assert (Hsz : 0 <= i_size i /\ i_size i mod 32 = 0) by lia.
  pose proof (Z.div_mod (i_size i) 32 ltac:(lia)) as Hdm.
  eapply (wp_free_dirent sb Hly A (i_inum i) Hn true I D U J own p i); try done; [lia|by exists D| |].
  - intros be' Hf (D' & E & R'). pose proof (found_lookup D i Hsz name None Hf) as Hl. rewrite Hl. split; [done|]. split; [done|].
    pose proof (dir_state_same _ _ _ _ _ _ _ _ _ _ _ S E R') as S'. simpl in S'.
    assert (Hall : forall nm, dir_lookup D' i nm = dir_lookup D i nm).
    { intros nm. apply (lookup_elsewhere D i D' i (i_size i)); try done; try (intros; lia). intros j Hj Hlt _. apply dslot_same. intros q Hq.
      destruct (ofs_index (32 * j + q) ltac:(lia)) as (Hb & _). unfold fbyte. by rewrite (fblk_same D D'), E by done. }
    exists D', J. split; [done|]. rewrite Hall, Hl. done.
  - intros k be' D' J' Hf W R' _. pose proof Hf as (Hk & Hlt & Hm & Hmin). pose proof (found_lookup D i Hsz name _ Hf) as Hl.
    rewrite Hl. pose proof (match_inum _ _ Hm). rewrite (proj2 (Z.eqb_neq _ 0)) by lia. split; [done|]. split; [done|].
    assert (Hsk : dslot D' (i_addrs i) k = patch (dslot D (i_addrs i) k) 0 (le32 0)).
    { replace 0 with (32 * k - 32 * k) at 1 by lia. eapply wrote_slot; [exact W|done|lia|lia|simpl; lia|lia]. }
    assert (Hz : dirent_inum (dslot D' (i_addrs i) k) = 0) by (rewrite Hsk; done).
    assert (He : same_elsewhere D i D' i k).
    { intros j Hj Hjl Hne. eapply wrote_slot_other; [exact W|done|lia|lia]. }
    assert (Hu' : unique D' i).
    { apply unique_match. intros nm j j' Hnm Hj Hjl Hj' Hjl' Hmj Hmj'. destruct (decide (j = k)) as [->|Hne]; [by rewrite match_free in Hmj|].
      destruct (decide (j' = k)) as [->|Hne']; [by rewrite match_free in Hmj'|]. rewrite He in Hmj, Hmj' by done. by eapply Hu. }
    exists D', J'. split; [|split].
    + rewrite <- (insert_id I p i Hi). eapply (dir_state_wrote p i i A D D' own own (mkS I be)); [exact S|exact W|done|exact R'|lia|done|lia|lia|by left|done].
    + apply lookup_none; [done|]. intros j Hj Hjl. destruct (decide (j = k)) as [->|Hne]; [by apply match_free|]. rewrite He by done.
      destruct (dirent_match (dslot D (i_addrs i) j) name) eqn:E; [|done]. destruct Hne. by eapply Hu.
    + intros name' Hname' Hne. apply (lookup_elsewhere D i D' i k); try done; try lia.
      * intros _. destruct (dirent_match (dslot D (i_addrs i) k) name') eqn:E; [|done]. destruct Hne. by eapply match_inj.
      * intros _. by apply match_free.
Qed.

(** C11 alloc_dirent adds a new name to the map and changes no other name, or
    reports ERR_NORES with the map unchanged, when the directory has its largest
    size or no data block is free.  This is so while every fetch of a block
    succeeds, for a name of at most 27 bytes that is not in the directory, when
    the slot it takes, the first free one, is not the last of its block and the
    byte behind it is 0: strncpy writes one byte past the entry, which otherwise
    falls outside the block ([add_past_block]) or clears the inode number of the
    next entry ([add_loses_next]). *)
Theorem alloc_dirent_spec p i A D own s U J name inum : dir_state true p i A D own s U J -> is_name name -> dir_lookup D i name = 0 -> 0 < inum < 2 ^ 32 ->
  (forall k, free_slot D i k -> k mod 16 <> 15 /\ fbyte D (i_addrs i) (32 * k + 32) = 0) -> log_room sb J 4 ->
  wp (alloc_dirent sb p name inum) (fun r s' => exists i' D' own' J', dir_state true p i' A D' own' s' U J' /\
    (on_disk (i_inum i) D i -> on_disk (i_inum i) D' i') /\
    ((r = ERR_OK /\ dir_lookup D' i' name = inum /\ forall name', is_name name' -> name' <> name -> dir_lookup D' i' name' = dir_lookup D i name') \/
     (r = ERR_NORES /\ (forall name', dir_lookup D' i' name' = dir_lookup D i name') /\
       ((forall k, 0 <= k -> 32 * k < SFS_MAX_FILE_SIZE -> ~ free_at D i k) \/ disk_full sb D')))) s.
Proof using Hly.
  intros S Hname Hnew Hinum Hover HJ. pose proof S as [[R Hi Hn F Hs Ht] Ha Hd Hu0]. pose proof (proj1 (unique_match D i) Hu0) as Hu. destruct s as [I be]. simpl in *.
  assert (Hsz : 0 <= i_size i /\ i_size i mod 32 = 0) by lia. pose proof (Z.div_mod (i_size i) 32 ltac:(lia)) as Hdm.
  assert (Hnb : Forall (fun x => 0 <= x < 256) name) by (destruct Hname as [_ Hf]; eapply Forall_impl; [exact Hf|]; simpl; lia).
  apply (wp_alloc_dirent sb Hly A (i_inum i) Hn I D U J own p i Hi eq_refl F ltac:(lia) Hd name inum Hnb ltac:(by right) HJ be); [done| |].
  - intros k s' (Hk & Hat & Hfirst) Hmax (be' & D' & own' & i' & J' & Y & -> & R' & W & Hsame & Hod & _).
    destruct (same_inode_fields _ _ Hsame) as (Hin & Hsz' & _). simpl in Hin, Hsz'. pose proof (entry_fits k Hmax) as Hfit.
    assert (Hks : 32 * k <= i_size i).
    { destruct (decide (32 * k <= i_size i)); [done|]. destruct (Hfirst (i_size i / 32)); [lia|]. left. lia. }
    assert (Hsz2 : 0 <= i_size i' /\ i_size i' mod 32 = 0).
    { split; [lia|]. rewrite Hsz'. destruct (Z.max_spec (i_size i) (32 * k + 32)) as [[_ ->]|[_ ->]]; [|lia].
      replace (32 * k + 32) with ((k + 1) * 32) by lia. by rewrite Z.mod_mul. }
    assert (Hsk : dslot D' (i_addrs i') k = new_dirent name inum).
    { erewrite wrote_slot; [|exact W|done|lia|lia|rewrite new_dirent_length; lia|lia]. replace (32 * k - 32 * k) with 0 by lia.
      apply patch_all. by rewrite new_dirent_length, dslot_length. }
    pose proof (Z.div_mod (i_size i') 32 ltac:(lia)) as Hdm'.
    assert (He : same_elsewhere D i D' i' k) by (intros j Hj Hjl Hne; eapply wrote_slot_other; [exact W|done|lia|lia]).
    assert (Hrange : forall j, 0 <= j -> j <> k -> 32 * j < i_size i <-> 32 * j < i_size i') by (intros j Hj Hne; lia).
    assert (Hmatch : forall nm, is_name nm -> dirent_match (dslot D' (i_addrs i') k) nm = bool_decide (name = nm)) by (intros nm Hnm; rewrite Hsk; by apply new_dirent_match).
    assert (Hno : forall j, 0 <= j -> 32 * j < i_size i -> dirent_match (dslot D (i_addrs i) j) name = false) by (by apply lookup_none).
    assert (Hfree : 32 * k < i_size i -> forall nm, dirent_match (dslot D (i_addrs i) k) nm = false).
    { intros Hlt nm. destruct Hat as [?|Hz]; [lia|]. by apply match_free. }
    assert (Hu' : unique D' i').
    { apply unique_match. intros nm j j' Hnm Hj Hjl Hj' Hjl' Hmj Hmj'.
      destruct (decide (j = k)) as [->|Hne], (decide (j' = k)) as [->|Hne']; [done|..].
      - rewrite Hmatch in Hmj by done. apply bool_decide_eq_true in Hmj as <-. rewrite He, Hno in Hmj'; [done|done|by apply Hrange|done|done|done].
      - rewrite Hmatch in Hmj' by done. apply bool_decide_eq_true in Hmj' as <-. rewrite He, Hno in Hmj; [done|done|by apply Hrange|done|done|done].
      - rewrite He in Hmj, Hmj' by done. eapply Hu; [exact Hnm|done|by apply Hrange|done|by apply Hrange|done|done]. }
    exists i', D', own', J'. split; [|split; [done|]].
    + eapply (dir_state_wrote p i i' A D D' own own' (mkS I be)); [exact S|exact W|done|exact R'|lia|lia|lia|lia|lia|done].
    + left. split; [done|]. split.
      * rewrite (lookup_unique D' i' Hsz2 name k Hu' Hname Hk); [|lia|rewrite Hmatch by done; by apply bool_decide_eq_true].
        rewrite Hsk. apply new_dirent_inum. lia.
      * intros nm Hnm Hne. apply (lookup_elsewhere D i D' i' k); try done; [by intros; apply Hfree|]. intros _. rewrite Hmatch by done.
        by rewrite bool_decide_false by congruence.
  - intros be' D' own' i' J' Hwhy R' W Hsame Hod. destruct (same_inode_fields _ _ Hsame) as (Hin & Hsz' & _).
    assert (Hall : forall j, 0 <= j -> 32 * j < i_size i' -> dslot D' (i_addrs i') j = dslot D (i_addrs i) j).
    { intros j Hj Hjl. eapply wrote_slot_other; [exact W|done|lia|lia]. }
    exists i', D', own', J'. split; [|split; [done|]].
    + eapply (dir_state_wrote p i i' A D D' own own' (mkS I be)); [exact S|exact W|done|exact R'|lia|by rewrite Hsz'|lia|lia|left; lia|].
      intros nm j j' Hnm Hj Hjl Hj' Hjl'. rewrite !Hall by done. rewrite Hsz' in *. by apply Hu0.
    + right. split; [done|]. split; [|done]. intros nm. apply (lookup_elsewhere D i D' i' (i_size i)); rewrite ?Hsz'; try done; try (intros; lia).
      intros j Hj Hjl _. by apply Hall.
Qed.
End claims.

(** ** A directory with two names

    The directory is inode 1 with data block 10, which holds "ab" (inode 2) and
    "c" (inode 3). *)

(** A file with one block. *)
Lemma one_addr x j : 0 <= j -> addr (x :: replicate 13 0) j = if j =? 0 then x else 0.
Proof.
  intros Hj. unfold addr. rewrite nth_lookup. destruct (Z.eqb_spec j 0) as [->|Hne]; [done|].
  replace (Z.to_nat j) with (S (Z.to_nat (j - 1))) by lia. cbn [lookup list_lookup]. change (list_lookup ?k ?l) with (l !! k).
  destruct (replicate 13 0 !! Z.to_nat (j - 1)) eqn:E; [|done]. by apply lookup_replicate_1 in E as [-> _].
Qed.
Lemma one_fblk D x i : 0 <= i < NBLKS -> fblk D (x :: replicate 13 0) i = if i =? 0 then x else 0.
Proof.
  intros Hi. unfold NBLKS in Hi. unfold fblk. destruct (Z.ltb_spec i SFS_NDIRECT) as [Hd|Hd]; [apply one_addr; lia|]. destruct (ind_index i) as (Hk & _); [unfold NBLKS; lia|].
  change SFS_NDIRECT with 12 in *. rewrite one_addr by lia. rewrite (proj2 (Z.eqb_neq (12 + _) 0)), (proj2 (Z.eqb_neq i 0)) by lia. done.
Qed.

Definition two_block : list Z := new_dirent [97; 98] 2 ++ new_dirent [99] 3 ++ replicate 448 0.
Definition two_store (oracle : list bool) : mstore := mkMs {[6 := 1 :: replicate 511 0; 10 := two_block]} ∅ [] ∅ oracle.
Definition two_inode : inode := mkI 1 1 1 FTYPE_DIR 0 64 (10 :: replicate 13 0) true false true.
Definition two_fs (oracle : list bool) : sst mstore := mkS {[4096 := two_inode]} (two_store oracle).
Definition two_D : Z -> list Z := ms_blk (two_store []).

Lemma two_rep m oracle : (m = true -> oracle = []) -> blk_rep m (two_store oracle) two_D ∅ [] ∅.
Proof.
  intros Hm.
  assert (Hb : map_Forall (fun _ v => length v = 512%nat /\ Forall (fun x => 0 <= x < 256) v) (ms_data (two_store [])))
    by (apply (bool_decide_unpack _); vm_compute; exact I).
  split; try done.
  - intros h b. rewrite lookup_empty. split; [done|]. intros [_ H]. by apply not_elem_of_empty in H.
  - intros h b H. by apply elem_of_nil in H.
Qed.

Lemma two_fsok : fsok demo_sb two_D (<[1 := 10 :: replicate 13 0]> ∅) {[10 := (1, 0)]}.
Proof.
  assert (Hl : forall n a, <[1 := 10 :: replicate 13 0]> (∅ : gmap Z (list Z)) !! n = Some a -> n = 1 /\ a = 10 :: replicate 13 0).
  { intros n a. rewrite lookup_insert. case_decide; [by intros [= <-]|by rewrite lookup_empty]. }
  split.
  - intros b. apply (blk_rep_bytes _ _ _ _ _ _ b (two_rep true [] (fun _ => eq_refl))).
  - intros b x [<- <-]%lookup_singleton_Some. by split; vm_compute.
  - intros n a [-> ->]%Hl. done.
  - intros n a i [-> ->]%Hl Hi. rewrite one_fblk by done. destruct (Z.eqb_spec i 0) as [->|]; [done|done].
  - intros n a k [-> ->]%Hl Hk. rewrite one_addr by lia. by rewrite (proj2 (Z.eqb_neq _ 0)) by lia.
Qed.

Lemma two_tail pos : 64 <= pos < SFS_MAX_FILE_SIZE -> fbyte two_D (i_addrs two_inode) pos = 0.
Proof.
  intros Hp. unfold fbyte. cbn [i_addrs two_inode]. destruct (ofs_index pos ltac:(lia)) as (Hj & _). rewrite one_fblk by done.
  destruct (Z.eqb_spec (pos / 512) 0) as [E|]; [|done]. cbn match. change (two_D 10) with two_block.
  pose proof (Z.div_mod pos 512 ltac:(lia)). pose proof (Z.mod_pos_bound pos 512 ltac:(lia)). rewrite nth_lookup. unfold two_block.
  rewrite !lookup_app_r by (rewrite ?new_dirent_length; lia). rewrite !new_dirent_length by (simpl; lia).
  destruct (replicate 448 0 !! _) eqn:E1; [|done]. by apply lookup_replicate_1 in E1 as [-> _].
Qed.

Lemma two_slots : dslot two_D (i_addrs two_inode) 0 = new_dirent [97; 98] 2 /\ dslot two_D (i_addrs two_inode) 1 = new_dirent [99] 3.
Proof. by vm_compute. Qed.

Lemma two_dir m oracle : (m = true -> oracle = []) ->
  dir_state demo_sb m 4096 two_inode ∅ two_D {[10 := (1, 0)]} (two_fs oracle) [] ∅.
Proof.
  intros Hm. split; [split|done| |].
  - by apply two_rep.
  - done.
  - by vm_compute.
  - exact two_fsok.
  - by vm_compute.
  - exact two_tail.
  - intros k Hk. cbn [i_size two_inode i_addrs] in *. rewrite (Z.div_small k 512) by lia. by rewrite one_fblk.
  - intros name j k _ Hj Hjl Hk Hkl. cbn [i_size two_inode] in *. destruct two_slots as [E0 E1].
    assert (Hj' : j = 0 \/ j = 1) by lia. assert (Hk' : k = 0 \/ k = 1) by lia.
    destruct Hj' as [->| ->], Hk' as [->| ->]; rewrite ?E0, ?E1; try done;
      intros [_ H1]%bool_decide_eq_true [_ H2]%bool_decide_eq_true; rewrite <- H1 in H2; by vm_compute in H2.
Qed.

Lemma two_is_name : is_name [97; 98] /\ is_name [99] /\ is_name [100].
Proof. split_and!; (split; [simpl; lia|]); repeat constructor; lia. Qed.

Lemma search_dir_spec_witness : exists r s', search_dir demo_sb 4096 [99] (two_fs []) = Done (r, s') /\ r = 3.
Proof.
  destruct (wp_elim _ _ _ (search_dir_spec demo_sb demo_layout true 4096 two_inode ∅ two_D _ (two_fs []) [] ∅ [99] (two_dir true [] (fun _ => eq_refl)) (or_introl eq_refl)))
    as (r & s' & E & _). exists r, s'. apply (run_value _ _ _ _ _ E). vm_compute. reflexivity.
Defined.

Lemma free_dirent_spec_witness : exists r s', free_dirent demo_sb 4096 [97; 98] (two_fs []) = Done (r, s') /\ r = ERR_OK.
Proof.
  destruct (wp_elim _ _ _ (free_dirent_spec demo_sb demo_layout 4096 two_inode ∅ two_D _ (two_fs []) [] ∅ [97; 98] (two_dir true [] (fun _ => eq_refl)) (proj1 two_is_name) ltac:(vm_compute; lia)))
    as (r & s' & E & _). exists r, s'. apply (run_value _ _ _ _ _ E). vm_compute. reflexivity.
Defined.

Lemma two_free_slot k : free_slot two_D two_inode k -> k = 2.
Proof.
  intros (Hk & Hat & Hmin). destruct (Z.lt_trichotomy k 2) as [Hlt|[|Hgt]]; [|done|].
  - exfalso. destruct Hat as [Hs|Hz]; [cbn [i_size two_inode] in Hs; lia|]. assert (Hk' : k = 0 \/ k = 1) by lia. destruct Hk' as [->| ->]; by vm_compute in Hz.
  - destruct (Hmin 2); [lia|]. left. simpl. lia.
Qed.

Lemma alloc_dirent_spec_witness : exists r s', alloc_dirent demo_sb 4096 [100] 4 (two_fs []) = Done (r, s') /\ r = ERR_OK.
Proof.
  destruct (wp_elim _ _ _ (alloc_dirent_spec demo_sb demo_layout 4096 two_inode ∅ two_D _ (two_fs []) [] ∅ [100] 4 (two_dir true [] (fun _ => eq_refl)) (proj2 (proj2 two_is_name))
    ltac:(vm_compute; reflexivity) ltac:(lia) ltac:(intros k ->%two_free_slot; split; [done|apply two_tail; by vm_compute]) ltac:(vm_compute; lia)))
    as (r & s' & E & _). exists r, s'. apply (run_value _ _ _ _ _ E). vm_compute. reflexivity.
Defined.

(** A block that cannot be fetched hides the name. *)
Example search_nomem : value_of (search_dir demo_sb 4096 [99] (two_fs [false])) = Some 0.
Proof. vm_compute. reflexivity. Qed.

(** ** Runs *)

Definition names_run (m : M (sst mstore) Z) : option (list Z) :=
  value_of ((r <- m;; a <- search_dir demo_sb 4096 [97];; b <- search_dir demo_sb 4096 [98];; c <- search_dir demo_sb 4096 [99];; ret [r; a; b; c]) demo_fs).

(** Names are found after they were added and not after they were removed. *)
Example add_find_run : names_run (alloc_dirent demo_sb 4096 [97] 2;; alloc_dirent demo_sb 4096 [98] 3) = Some [ERR_OK; 2; 3; 0].
Proof. vm_compute. reflexivity. Qed.
Example remove_run : names_run (alloc_dirent demo_sb 4096 [97] 2;; alloc_dirent demo_sb 4096 [98] 3;; free_dirent demo_sb 4096 [97]) = Some [ERR_OK; 0; 3; 0].
Proof. vm_compute. reflexivity. Qed.

(** When a free entry is used again, the byte strncpy writes past the name
    clears the low byte of the inode number of the next entry: the second name
    is lost. *)
Example add_loses_next : names_run (alloc_dirent demo_sb 4096 [97] 2;; alloc_dirent demo_sb 4096 [98] 3;; free_dirent demo_sb 4096 [97];; alloc_dirent demo_sb 4096 [99] 4) =
  Some [ERR_OK; 0; 0; 4].
Proof. vm_compute. reflexivity. Qed.

(** In the last entry of a block the byte lies outside the block. *)
Example add_past_block :
  (for_ 15 0 (fun k => alloc_dirent demo_sb 4096 [97 + k] (2 + k);; ret tt);; alloc_dirent demo_sb 4096 [65] 40) demo_fs = Stop BadAccess.
Proof. vm_compute. reflexivity. Qed.

(** A name of 28 bytes is accepted but never found, and so can be added again. *)
Example long_name_not_found :
  value_of ((r <- alloc_dirent demo_sb 4096 (replicate 28 97) 2;; a <- search_dir demo_sb 4096 (replicate 28 97);; ret (r, a)) demo_fs) = Some (ERR_OK, 0).
Proof. vm_compute. reflexivity. Qed.

(** create_inode_in_dir: a new file gets the first free inode, a second one
    with the same name is refused. *)
Example create_run :
  value_of ((r <- sfs_create demo_sb 4096 [97] 6;; a <- search_dir demo_sb 4096 [97];; r' <- sfs_mkdir demo_sb 4096 [97] 6;; ret (r, a, r')) demo_fs) =
  Some (ERR_OK, 1, ERR_EXIST).
Proof. vm_compute. reflexivity. Qed.
