(* ===== verification/Fs.v ===== *)
(** * The file layer (kernel/fs/fs.c, filems.c, memstore.c and the operations
      of kernel/fs/sfs/sfs.c that use it)

    One mounted file system.  The state is that of the file system (in-memory
    inodes by address, blocks), the inode cache of the super block (a radix tree
    from inode numbers to inodes) and its lock, the objects of the slab
    allocator with the parts of every inode (its memory store and its
    sfs_inode_info), the open files and the list of inodes for the cleanup
    thread.  A path is the list of its bytes without the terminator. *)

From stdpp Require Import prelude list gmap.
From Stdlib Require Import ZArith Lia.
From S2P Require Import Prelude DList ObjAlloc RadixTree Blocks Sfs SfsDir.

Definition MAX_FILENAME_LEN : Z := 64.
Definition FS_RDONLY : Z := 0.
Definition FS_WRONLY : Z := 1.
Definition FS_RDWR : Z := 2.
Definition FS_CREAT : Z := 256.
Definition FMODE_R : Z := 4.
Definition FMODE_X : Z := 1.

(** The tables of file operations. *)
Inductive file_operations := SfsOps | PipeOps | StdinOps | StdoutOps.

Record file := mkFile {
  f_ref : Z;
  oflag : Z;
  f_inode : Z;
  f_pos : Z;
  f_lock : bool;
  f_ops : option file_operations
}.

Record vfs (B R O : Type) := mkV {
  vf_sfs : sst B;
  vf_icache : rstate R;
  vf_slock : bool;
  vf_objs : O;
  vf_memstore_allocator : Z;
  vf_filems_allocator : Z;
  vf_stores : gmap Z Z;
  vf_parts : gmap Z (Z * Z);
  vf_files : gmap Z file;
  vf_cleanup : list Z
}.
Arguments mkV {B R O}.
Arguments vf_sfs {B R O}.
Arguments vf_icache {B R O}.
Arguments vf_slock {B R O}.
Arguments vf_objs {B R O}.
Arguments vf_memstore_allocator {B R O}.
Arguments vf_filems_allocator {B R O}.
Arguments vf_stores {B R O}.
Arguments vf_parts {B R O}.
Arguments vf_files {B R O}.
Arguments vf_cleanup {B R O}.

(** ** Paths *)

Definition validate_flag (flags : Z) : bool :=
  let flags := Z.land flags (Z.lnot FS_CREAT) in
  (flags =? FS_RDONLY) || (flags =? FS_WRONLY) || (flags =? FS_RDWR).

Definition SLASH : Z := 47.
Fixpoint skip_slashes (path : list Z) : list Z :=
  match path with
  | c :: p => if c =? SLASH then skip_slashes p else path
  | [] => []
  end.
(** The bytes before the next slash, and the rest. *)
Fixpoint element (path : list Z) : list Z * list Z :=
  match path with
  | c :: p => if c =? SLASH then ([], path) else let '(e, r) := element p in (c :: e, r)
  | [] => ([], [])
  end.
(** The rest of the path and the name. *)
Definition path_next_element (path : list Z) : list Z * list Z :=
  match skip_slashes path with
  | [] => ([], [])
  | p => let '(e, r) := element p in (skip_slashes r, take (Z.to_nat (MAX_FILENAME_LEN - 1)) e)
  end.

Section ops.
Context {B R O : Type} `{!Blocks B, !ObjAlloc R, !ObjAlloc O}.
Context (sb : sfs_sb_info).
(** The caches of fs_init and sfs_init, and the sizes of the objects of the
    caches that are created on first use. *)
Context (fs_inode_allocator sfs_inode_allocator fs_file_allocator sizeof_memstore sizeof_filems_info : Z).
(** The files of the console. *)
Context (stdin stdout : Z).
Implicit Types s : vfs B R O.
Abbreviation VM := (M (vfs B R O)).

Definition on_sfs {A} (m : M (sst B) A) : VM A :=
  zoom vf_sfs (fun v s => mkV v (vf_icache s) (vf_slock s) (vf_objs s) (vf_memstore_allocator s) (vf_filems_allocator s) (vf_stores s) (vf_parts s) (vf_files s) (vf_cleanup s)) m.
Definition on_icache {A} (m : M (rstate R) A) : VM A :=
  zoom vf_icache (fun v s => mkV (vf_sfs s) v (vf_slock s) (vf_objs s) (vf_memstore_allocator s) (vf_filems_allocator s) (vf_stores s) (vf_parts s) (vf_files s) (vf_cleanup s)) m.
Definition on_vobjs {A} (m : M O A) : VM A :=
  zoom vf_objs (fun v s => mkV (vf_sfs s) (vf_icache s) (vf_slock s) v (vf_memstore_allocator s) (vf_filems_allocator s) (vf_stores s) (vf_parts s) (vf_files s) (vf_cleanup s)) m.
Definition set_inodes (v : gmap Z inode) s : vfs B R O :=
  mkV (mkS v (sf_blk (vf_sfs s))) (vf_icache s) (vf_slock s) (vf_objs s) (vf_memstore_allocator s) (vf_filems_allocator s) (vf_stores s) (vf_parts s) (vf_files s) (vf_cleanup s).
Definition set_slock (v : bool) s : vfs B R O :=
  mkV (vf_sfs s) (vf_icache s) v (vf_objs s) (vf_memstore_allocator s) (vf_filems_allocator s) (vf_stores s) (vf_parts s) (vf_files s) (vf_cleanup s).
Definition set_msc (v : Z) s : vfs B R O :=
  mkV (vf_sfs s) (vf_icache s) (vf_slock s) (vf_objs s) v (vf_filems_allocator s) (vf_stores s) (vf_parts s) (vf_files s) (vf_cleanup s).
Definition set_fmc (v : Z) s : vfs B R O :=
  mkV (vf_sfs s) (vf_icache s) (vf_slock s) (vf_objs s) (vf_memstore_allocator s) v (vf_stores s) (vf_parts s) (vf_files s) (vf_cleanup s).
Definition set_stores (v : gmap Z Z) s : vfs B R O :=
  mkV (vf_sfs s) (vf_icache s) (vf_slock s) (vf_objs s) (vf_memstore_allocator s) (vf_filems_allocator s) v (vf_parts s) (vf_files s) (vf_cleanup s).
Definition set_parts (v : gmap Z (Z * Z)) s : vfs B R O :=
  mkV (vf_sfs s) (vf_icache s) (vf_slock s) (vf_objs s) (vf_memstore_allocator s) (vf_filems_allocator s) (vf_stores s) v (vf_files s) (vf_cleanup s).
Definition set_files (v : gmap Z file) s : vfs B R O :=
  mkV (vf_sfs s) (vf_icache s) (vf_slock s) (vf_objs s) (vf_memstore_allocator s) (vf_filems_allocator s) (vf_stores s) (vf_parts s) v (vf_cleanup s).
Definition set_cleanup (v : list Z) s : vfs B R O :=
  mkV (vf_sfs s) (vf_icache s) (vf_slock s) (vf_objs s) (vf_memstore_allocator s) (vf_filems_allocator s) (vf_stores s) (vf_parts s) (vf_files s) v.

(** ** Locks *)

Definition lock_sb : VM unit := l <- gets vf_slock;; if (l : bool) then stop Diverge else modify (set_slock true).
Definition unlock_sb : VM unit := modify (set_slock false).
Definition lock_inode (p : Z) : VM unit :=
  i <- on_sfs (get_inode p);; if i_lock i then stop Diverge else on_sfs (upd_inode p (set_ilock true)).
Definition unlock_inode (p : Z) : VM unit := on_sfs (upd_inode p (set_ilock false)).

(** ** Memory stores of inodes (memstore.c, filems.c) *)

Definition memstore_alloc : VM Z :=
  c <- gets vf_memstore_allocator;;
  ok <- (if c =? NULL then
           c <- on_vobjs (oa_create sizeof_memstore);;
           modify (set_msc c);;
           ret (negb (c =? NULL))
         else ret true);;
  if negb ok then ret NULL
  else
    c <- gets vf_memstore_allocator;;
    store <- on_vobjs (oa_alloc c);;
    (if negb (store =? NULL) then modify (fun s => set_stores (<[store := NULL]> (vf_stores s)) s) else ret tt);;
    ret store.

Definition memstore_free (store : Z) : VM unit :=
  kassert (nonnull store);;
  c <- gets vf_memstore_allocator;;
  modify (fun s => set_stores (delete store (vf_stores s)) s);;
  on_vobjs (oa_free c store).

Definition filems_alloc (inode : Z) : VM Z :=
  kassert (nonnull inode);;
  c <- gets vf_filems_allocator;;
  ok <- (if c =? NULL then
           c <- on_vobjs (oa_create sizeof_filems_info);;
           modify (set_fmc c);;
           ret (negb (c =? NULL))
         else ret true);;
  if negb ok then ret NULL
  else
    store <- memstore_alloc;;
    if negb (store =? NULL) then
      c <- gets vf_filems_allocator;;
      info <- on_vobjs (oa_alloc c);;
      modify (fun s => set_stores (<[store := info]> (vf_stores s)) s);;
      if negb (info =? NULL) then ret store
      else memstore_free store;; ret NULL
    else ret NULL.

Definition filems_free (store : Z) : VM unit :=
  kassert (nonnull store);;
  o <- gets (fun s => vf_stores s !! store);;
  info <- deref o;;
  kassert (nonnull info);;
  c <- gets vf_filems_allocator;;
  on_vobjs (oa_free c info);;
  memstore_free store.

(** ** In-memory inodes *)

Definition fs_alloc_inode : VM Z :=
  p <- on_vobjs (oa_alloc fs_inode_allocator);;
  if negb (p =? NULL) then
    modify (fun s => set_inodes (<[p := mkI 0 1 0 0 0 0 [] false false false]> (sf_inodes (vf_sfs s))) s);;
    store <- filems_alloc p;;
    if store =? NULL then
      modify (fun s => set_inodes (delete p (sf_inodes (vf_sfs s))) s);;
      on_vobjs (oa_free fs_inode_allocator p);;
      ret NULL
    else
      modify (fun s => set_parts (<[p := (store, NULL)]> (vf_parts s)) s);;
      ret p
  else ret NULL.

Definition fs_free_inode (p : Z) : VM unit :=
  i <- on_sfs (get_inode p);;
  kassert (i_ref i =? 0);;
  o <- gets (fun s => vf_parts s !! p);;
  pt <- deref o;;
  filems_free (fst pt);;
  modify (fun s => set_parts (delete p (vf_parts s)) (set_inodes (delete p (sf_inodes (vf_sfs s))) s));;
  on_vobjs (oa_free fs_inode_allocator p).

(** sfs.c: the block addresses of the sfs_inode_info start as zeros. *)
Definition sfs_alloc_inode : VM Z :=
  p <- fs_alloc_inode;;
  if p =? NULL then ret NULL
  else
    info <- on_vobjs (oa_alloc sfs_inode_allocator);;
    if info =? NULL then fs_free_inode p;; ret NULL
    else
      on_sfs (upd_inode p (set_addrs (replicate 14 0)));;
      o <- gets (fun s => vf_parts s !! p);;
      pt <- deref o;;
      modify (fun s => set_parts (<[p := (fst pt, info)]> (vf_parts s)) s);;
      ret p.

Definition sfs_free_inode (p : Z) : VM unit :=
  o <- gets (fun s => vf_parts s !! p);;
  pt <- deref o;;
  on_vobjs (oa_free sfs_inode_allocator (snd pt));;
  fs_free_inode p.

Definition fs_push_inode_cleanup (p : Z) : VM unit := modify (fun s => set_cleanup (vf_cleanup s ++ [p]) s).

Definition fs_release_inode (p : Z) : VM unit :=
  lock_inode p;;
  lock_sb;;
  i <- on_sfs (get_inode p);;
  kassert (0 <? i_inum i);;
  kassert (0 <? i_ref i);;
  on_sfs (upd_inode p (fun i => set_ref (u32 (i_ref i - 1)) i));;
  i <- on_sfs (get_inode p);;
  if i_ref i =? 0 then
    if i_valid i && ((i_nlink i =? 0) || i_dirty i) then
      on_sfs (upd_inode p (fun i => set_ref (u32 (i_ref i + 1)) i));;
      fs_push_inode_cleanup p;;
      unlock_sb;;
      unlock_inode p
    else
      r <- on_icache (radix_tree_remove (i_inum i));;
      kassert (r =? p);;
      unlock_sb;;
      sfs_free_inode p
  else
    unlock_sb;;
    unlock_inode p.

(** The error and the inode. *)
Definition fs_get_inode (inum : Z) : VM (Z * Z) :=
  lock_sb;;
  res <- on_icache (radix_tree_lookup inum);;
  r <- (if res =? NULL then
          res <- sfs_alloc_inode;;
          if res =? NULL then unlock_sb;; ret (ERR_NOMEM, NULL)
          else
            on_sfs (upd_inode res (set_inum inum));;
            err <- on_icache (radix_tree_insert 7 inum res);;
            if negb (err =? ERR_OK) then
              if err =? ERR_RADIX_TREE_ALLOC then
                sfs_free_inode res;;
                unlock_sb;;
                ret (ERR_NOMEM, NULL)
              else panic
            else ret (ERR_OK, res)
        else
          on_sfs (upd_inode res (fun i => set_ref (u32 (i_ref i + 1)) i));;
          ret (ERR_OK, res));;
  if negb (fst r =? ERR_OK) then ret (fst r, NULL)
  else
    let res := snd r in
    unlock_sb;;
    lock_inode res;;
    i <- on_sfs (get_inode res);;
    err <- (if negb (i_valid i) then on_sfs (sfs_read_inode res) else ret ERR_OK);;
    if negb (err =? ERR_OK) then
      unlock_inode res;;
      fs_release_inode res;;
      ret (err, NULL)
    else
      unlock_inode res;;
      ret (ERR_OK, res).

(** sfs.c *)
Definition sfs_lookup (dir : Z) (name : list Z) : VM (Z * Z) :=
  inum <- on_sfs (search_dir sb dir name);;
  if inum =? 0 then ret (ERR_NOTEXIST, NULL) else fs_get_inode inum.

(** ** Path lookup *)

(** The loop variables: the inode and the rest of the path; the result is the
    error, the parent and the name. *)
Definition walk_step (l : Z * list Z) : VM ((Z * list Z) + (Z * Z * list Z)) :=
  let '(curr, path) := l in
  lock_inode curr;;
  i <- on_sfs (get_inode curr);;
  let fail (err : Z) : VM ((Z * list Z) + (Z * Z * list Z)) :=
    unlock_inode curr;;
    fs_release_inode curr;;
    ret (inr (err, NULL, [])) in
  if negb (i_ftype i =? FTYPE_DIR) then fail ERR_FTYPE
  else
    let '(path, name) := path_next_element path in
    match path with
    | [] =>
        unlock_inode curr;;
        ret (inr (ERR_OK, curr, name))
    | _ =>
        r <- sfs_lookup curr name;;
        if negb (fst r =? ERR_OK) then fail (fst r)
        else
          unlock_inode curr;;
          fs_release_inode curr;;
          ret (inl (snd r, path))
    end.

(** [cwd] is the working directory of the current process, NULL when there is
    none. *)
Definition fs_find_parent_inode (cwd : Z) (path : list Z) : VM (Z * Z * list Z) :=
  inum <- (if negb (match path with c :: _ => c =? SLASH | [] => false end) && negb (cwd =? NULL)
           then i <- on_sfs (get_inode cwd);; ret (i_inum i)
           else ret SFS_ROOT_INUM);;
  kassert (0 <? inum);;
  r <- fs_get_inode inum;;
  if negb (fst r =? ERR_OK) then ret (fst r, NULL, [])
  else loop (S (length path)) walk_step (snd r, path).

Definition fs_find_inode (cwd : Z) (path : list Z) : VM (Z * Z) :=
  r <- fs_find_parent_inode cwd path;;
  let '(err, parent, name) := r in
  if negb (err =? ERR_OK) then ret (err, NULL)
  else
    match name with
    | [] => ret (ERR_OK, parent)
    | _ =>
        r <- sfs_lookup parent name;;
        fs_release_inode parent;;
        ret r
    end.
End ops.
