(* ===== verification/FsOps.v ===== *)
(** * The file layer: links, directories and open files (kernel/fs/fs.c and the
      operations of kernel/fs/sfs/sfs.c they call) *)

From stdpp Require Import prelude list gmap.
From Stdlib Require Import ZArith Lia.
From S2P Require Import Prelude DList ObjAlloc RadixTree Blocks Sfs SfsDir Fs.

Section sfs.
Context {B : Type} `{!Blocks B}.
Context (sb : sfs_sb_info).
Abbreviation SM := (M (sst B)).

(** ** Deleting an inode (sfs.c) *)

(** The loop over an indirect block: [size], [indir_index] and
    [is_journaled]. *)
Definition delete_indirect_step (p bh : Z) (l : Z * Z * bool) : SM ((Z * Z * bool) + (Z * Z)) :=
  let '(size, indir_index, is_journaled) := l in
  i <- get_inode p;;
  if size <? i_size i then
    d <- on_blk (blk_load bh);;
    if negb (indir_index <? BDEV_BLK_SIZE / 4) then stop BadAccess
    else
      let b := word d indir_index in
      if b =? 0 then ret (inl (size + BDEV_BLK_SIZE, indir_index + 1, is_journaled))
      else
        kassert (s_data_start sb <=? b);;
        err <- free_data_block sb b;;
        if negb (err =? ERR_OK) then ret (inr (err, size))
        else
          store_bytes bh (4 * indir_index) (le32 0);;
          (if negb is_journaled then mark bh else ret tt);;
          ret (inl (size + BDEV_BLK_SIZE, indir_index + 1, true))
  else ret (inr (ERR_OK, size)).

(** The loop over the addresses: [size] and [index]. *)
Definition delete_step (p : Z) (l : Z * Z) : SM ((Z * Z) + Z) :=
  let '(size, index) := l in
  i <- get_inode p;;
  if size <? i_size i then
    blk <- deref (i_addrs i !! Z.to_nat index);;
    if blk =? 0 then ret (inl (size, index + 1))
    else
      kassert (s_data_start sb <=? blk);;
      r <- (if index <? SFS_NDIRECT then ret (ERR_OK, size + BDEV_BLK_SIZE)
            else
              bh <- on_blk (bdev_get blk);;
              if bh =? NULL then ret (ERR_NOMEM, size)
              else
                r <- loop 130 (delete_indirect_step p bh) (size, 0, false);;
                if negb (fst r =? ERR_OK) then ret r
                else
                  on_blk (bdev_release bh);;
                  ret r);;
      if negb (fst r =? ERR_OK) then ret (inr (fst r))
      else
        err <- free_data_block sb blk;;
        if negb (err =? ERR_OK) then ret (inr err)
        else
          upd_inode p (fun i => set_addrs (<[Z.to_nat index := 0]> (i_addrs i)) i);;
          ret (inl (snd r, index + 1))
  else ret (inr ERR_OK).

Definition sfs_delete_inode (p : Z) : SM Z :=
  i <- get_inode p;;
  kassert (0 <? i_inum i);;
  kassert (i_nlink i =? 0);;
  err <- loop 16 (delete_step p) (0, 0);;
  if negb (err =? ERR_OK) then ret err
  else
    err <- free_disk_inode (i_inum i);;
    if negb (err =? ERR_OK) then ret err
    else
      upd_inode p (set_inum 0);;
      upd_inode p (set_valid false);;
      upd_inode p (set_dirty false);;
      ret ERR_OK.
End sfs.

Section ops.
Context {B R O : Type} `{!Blocks B, !ObjAlloc R, !ObjAlloc O}.
Context (sb : sfs_sb_info).
Context (ic sc fc sizeof_memstore sizeof_filems_info stdin stdout : Z).
(** The operations of pipes and of the console (pipe.c, console.c). *)
Context (other_read : file_operations -> Z -> Z -> M (vfs B R O) (Z * list Z)).
Context (other_write : file_operations -> Z -> list Z -> M (vfs B R O) Z).
Context (other_close : Z -> M (vfs B R O) unit).
Implicit Types s : vfs B R O.
Abbreviation VM := (M (vfs B R O)).
Abbreviation lookup := (sfs_lookup sb ic sc sizeof_memstore sizeof_filems_info).
Abbreviation release := (fs_release_inode ic sc).
Abbreviation find_parent := (fs_find_parent_inode sb ic sc sizeof_memstore sizeof_filems_info).
Abbreviation find := (fs_find_inode sb ic sc sizeof_memstore sizeof_filems_info).

Definition journal_begin_txn : VM unit := on_sfs (on_blk txn_begin).
Definition journal_end_txn : VM unit := on_sfs (on_blk txn_end).

(** ** Unlinking (sfs.c) *)

Definition unlink_inode_in_dir (dir ftype : Z) (name : list Z) : VM Z :=
  r <- lookup dir name;;
  if negb (fst r =? ERR_OK) then ret (fst r)
  else
    let p := snd r in
    inode_bh <- on_sfs (acquire_inode_bh p);;
    if inode_bh =? NULL then ret ERR_NOMEM
    else
      lock_inode p;;
      i <- on_sfs (get_inode p);;
      kassert (0 <? i_inum i);;
      kassert (0 <? i_nlink i);;
      kassert (i_valid i);;
      let fail (err : Z) : VM Z :=
        unlock_inode p;;
        on_sfs (on_blk (bdev_release_unlocked inode_bh));;
        release p;;
        ret err in
      if negb (i_ftype i =? ftype) then fail ERR_FTYPE
      else
        e <- (if ftype =? FTYPE_DIR then on_sfs (is_dir_empty sb p) else ret (ERR_OK, true));;
        if negb (fst e =? ERR_OK) then fail (fst e)
        else if negb (snd e) then fail ERR_NOTEMPTY
        else
          err <- on_sfs (free_dirent sb dir name);;
          if negb (err =? ERR_OK) then
            kassert (negb (err =? ERR_NOTEXIST));;
            fail err
          else
            on_sfs (upd_inode p (fun i => set_nlink (u32 (i_nlink i - 1)) i));;
            on_sfs (upd_inode p (set_dirty true));;
            on_sfs (sfs_write_inode p);;
            unlock_inode p;;
            on_sfs (on_blk (bdev_release_unlocked inode_bh));;
            release p;;
            ret ERR_OK.

Definition sfs_unlink (dir : Z) (name : list Z) : VM Z := unlink_inode_in_dir dir FTYPE_FILE name.
Definition sfs_rmdir (dir : Z) (name : list Z) : VM Z := unlink_inode_in_dir dir FTYPE_DIR name.

(** ** The operations on paths (fs.c) *)

(** fs_unlink, fs_mkdir and fs_rmdir differ in the error for the root and in
    the operation on the directory. *)
Definition in_parent (cwd : Z) (path : list Z) (root_err : Z) (op : Z -> list Z -> VM Z) : VM Z :=
  r <- find_parent cwd path;;
  let '(err, dir, name) := r in
  if negb (err =? ERR_OK) then ret err
  else
    match name with
    | [] => release dir;; ret root_err
    | _ =>
        journal_begin_txn;;
        lock_inode dir;;
        err <- op dir name;;
        unlock_inode dir;;
        release dir;;
        journal_end_txn;;
        ret err
    end.

Definition fs_unlink (cwd : Z) (path : list Z) : VM Z := in_parent cwd path ERR_FTYPE sfs_unlink.
Definition fs_mkdir (cwd : Z) (path : list Z) : VM Z :=
  in_parent cwd path ERR_EXIST (fun dir name => on_sfs (sfs_mkdir sb dir name (Z.lor FMODE_R FMODE_X))).
Definition fs_rmdir (cwd : Z) (path : list Z) : VM Z := in_parent cwd path ERR_NOTEMPTY sfs_rmdir.

Definition fs_link (cwd : Z) (oldpath newpath : list Z) : VM Z :=
  r <- find cwd oldpath;;
  if negb (fst r =? ERR_OK) then ret (fst r)
  else
    let src := snd r in
    i <- on_sfs (get_inode src);;
    if negb (i_ftype i =? FTYPE_FILE) then release src;; ret ERR_FTYPE
    else
      r <- find_parent cwd newpath;;
      let '(err, dir, name) := r in
      if negb (err =? ERR_OK) then release src;; ret err
      else
        match name with
        | [] => release dir;; release src;; ret ERR_EXIST
        | _ =>
            journal_begin_txn;;
            lock_inode src;;
            lock_inode dir;;
            err <- on_sfs (sfs_link sb dir src name);;
            unlock_inode dir;;
            unlock_inode src;;
            release dir;;
            release src;;
            journal_end_txn;;
            ret err
        end.

(** ** Open files *)

Definition get_file (f : Z) : VM file := o <- gets (fun s => vf_files s !! f);; deref o.
Definition upd_file (f : Z) (g : file -> file) : VM unit :=
  x <- get_file f;; modify (fun s => set_files (<[f := g x]> (vf_files s)) s).
Definition set_fref (v : Z) (x : file) : file := mkFile v (oflag x) (f_inode x) (f_pos x) (f_lock x) (f_ops x).
Definition set_fpos (v : Z) (x : file) : file := mkFile (f_ref x) (oflag x) (f_inode x) v (f_lock x) (f_ops x).
Definition set_flock (v : bool) (x : file) : file := mkFile (f_ref x) (oflag x) (f_inode x) (f_pos x) v (f_ops x).
Definition lock_file (f : Z) : VM unit := x <- get_file f;; if f_lock x then stop Diverge else upd_file f (set_flock true).
Definition unlock_file (f : Z) : VM unit := upd_file f (set_flock false).

Definition fs_alloc_file : VM Z :=
  f <- on_vobjs (oa_alloc fc);;
  (if negb (f =? NULL) then modify (fun s => set_files (<[f := mkFile 1 0 NULL 0 false None]> (vf_files s)) s) else ret tt);;
  ret f.
Definition fs_free_file (f : Z) : VM unit :=
  modify (fun s => set_files (delete f (vf_files s)) s);;
  on_vobjs (oa_free fc f).

(** The part of fs_open_file that finds or creates the leaf; [parent] is locked
    on a failure. *)
Definition open_leaf (parent flags mode : Z) (name : list Z) : VM (Z * Z) :=
  lock_inode parent;;
  r <- lookup parent name;;
  if negb (fst r =? ERR_OK) then
    if negb (fst r =? ERR_NOTEXIST) then ret r
    else if Z.land flags FS_CREAT =? 0 then ret r
    else
      err <- on_sfs (sfs_create sb parent name mode);;
      if negb (err =? ERR_OK) then
        kassert (negb (err =? ERR_EXIST));;
        ret (err, NULL)
      else
        r <- lookup parent name;;
        if negb (fst r =? ERR_OK) then
          kassert (negb (fst r =? ERR_NOTEXIST));;
          ret r
        else
          kassert (nonnull (snd r));;
          unlock_inode parent;;
          ret r
  else
    kassert (nonnull (snd r));;
    unlock_inode parent;;
    ret r.

(** The error and the file. *)
Definition fs_open_file (cwd : Z) (path : list Z) (flags mode : Z) : VM (Z * Z) :=
  if negb (validate_flag flags) then ret (ERR_INVAL, NULL)
  else
    r <- find_parent cwd path;;
    let '(err, parent, name) := r in
    if negb (err =? ERR_OK) then ret (err, NULL)
    else
      journal_begin_txn;;
      r <- (match name with
            | [] => ret (ERR_OK, parent)
            | _ => open_leaf parent flags mode name
            end);;
      if negb (fst r =? ERR_OK) then
        unlock_inode parent;;
        journal_end_txn;;
        release parent;;
        ret (fst r, NULL)
      else
        let fi := snd r in
        f <- fs_alloc_file;;
        if f =? NULL then
          journal_end_txn;;
          release fi;;
          release parent;;
          ret (ERR_NOMEM, NULL)
        else
          upd_file f (fun x => mkFile (f_ref x) (Z.land flags (Z.lnot FS_CREAT)) fi (f_pos x) (f_lock x) (Some SfsOps));;
          journal_end_txn;;
          release parent;;
          ret (ERR_OK, f).

Definition fs_reopen_file (f : Z) : VM unit :=
  lock_file f;;
  upd_file f (fun x => set_fref (i32 (f_ref x + 1)) x);;
  unlock_file f.

Definition fs_close_file (f : Z) : VM unit :=
  lock_file f;;
  upd_file f (fun x => set_fref (i32 (f_ref x - 1)) x);;
  x <- get_file f;;
  if (0 <? f_ref x) || (f =? stdin) || (f =? stdout) then unlock_file f
  else
    unlock_file f;;
    (if nonnull (f_inode x) then release (f_inode x) else ret tt);;
    ops <- deref (f_ops x);;
    (match ops with PipeOps => other_close f | _ => ret tt end);;
    fs_free_file f.

(** sfs.c: the bytes read or written count from [ofs]; the new offset is
    returned with them. *)
Definition sfs_read (f count ofs : Z) : VM (list Z * Z) :=
  x <- get_file f;;
  lock_inode (f_inode x);;
  out <- on_sfs (read_data sb (f_inode x) count ofs);;
  unlock_inode (f_inode x);;
  ret (out, ofs + Z.of_nat (length out)).

Definition sfs_write (f : Z) (buf : list Z) (count ofs : Z) : VM (Z * Z) :=
  x <- get_file f;;
  lock_inode (f_inode x);;
  ws <- on_sfs (write_data sb (f_inode x) buf count ofs);;
  unlock_inode (f_inode x);;
  ret (ws, if 0 <? ws then ofs + ws else ofs).

(** The count, the bytes and the new offset. *)
Definition fs_read_file (f count ofs : Z) : VM (Z * list Z * Z) :=
  x <- get_file f;;
  if negb (oflag x =? FS_WRONLY) then
    ops <- deref (f_ops x);;
    match ops with
    | SfsOps => r <- sfs_read f count ofs;; ret (Z.of_nat (length (fst r)), fst r, snd r)
    | k => r <- other_read k f count;; ret (fst r, snd r, ofs)
    end
  else ret (0, [], ofs).

Definition fs_write_file (f : Z) (buf : list Z) (count ofs : Z) : VM (Z * Z) :=
  x <- get_file f;;
  (if nonnull (f_inode x) then journal_begin_txn else ret tt);;
  r <- (if negb (oflag x =? FS_RDONLY) then
          ops <- deref (f_ops x);;
          match ops with
          | SfsOps => sfs_write f buf count ofs
          | k => ws <- other_write k f (take (Z.to_nat count) buf);; ret (ws, ofs)
          end
        else ret (0, ofs));;
  (if nonnull (f_inode x) then journal_end_txn else ret tt);;
  ret r.

(** sfs.c: the error, the inode number and the name. *)
Definition sfs_readdir (f : Z) : VM (Z * Z * list Z) :=
  x <- get_file f;;
  lock_inode (f_inode x);;
  i <- on_sfs (get_inode (f_inode x));;
  if i_size i <? u64 (f_pos x + SIZEOF_SFS_DIRENT) then
    unlock_inode (f_inode x);;
    ret (ERR_END, 0, [])
  else
    out <- on_sfs (read_data sb (f_inode x) SIZEOF_SFS_DIRENT (f_pos x));;
    if Z.of_nat (length out) <? SIZEOF_SFS_DIRENT then
      unlock_inode (f_inode x);;
      ret (ERR_NOMEM, 0, [])
    else
      upd_file f (fun x => set_fpos (f_pos x + SIZEOF_SFS_DIRENT) x);;
      unlock_inode (f_inode x);;
      ret (ERR_OK, dirent_inum out, dirent_name out).

Definition fs_readdir (f : Z) : VM (Z * Z * list Z) :=
  x <- get_file f;;
  i <- on_sfs (get_inode (f_inode x));;
  if negb (i_ftype i =? FTYPE_DIR) then ret (ERR_FTYPE, 0, []) else sfs_readdir f.

(** One round of fs_inode_cleanup_thread; [false] when the list is empty and
    the thread would wait. *)
Definition cleanup_round (retries : nat) : VM bool :=
  l <- gets vf_cleanup;;
  match l with
  | [] => ret false
  | p :: l' =>
      modify (set_cleanup l');;
      journal_begin_txn;;
      lock_inode p;;
      i <- on_sfs (get_inode p);;
      (if i_nlink i =? 0 then
         loop retries (fun _ => e <- on_sfs (sfs_delete_inode sb p);; if e =? ERR_OK then ret (inr tt) else ret (inl tt)) tt
       else
         kassert (i_dirty i);;
         loop retries (fun _ => e <- on_sfs (sfs_write_inode p);; if e =? ERR_OK then ret (inr tt) else ret (inl tt)) tt);;
      unlock_inode p;;
      journal_end_txn;;
      release p;;
      ret true
  end.
End ops.
