(* ===== verification/FsObjs.v ===== *)
(** * The file layer: the objects of in-memory inodes

    Every in-memory inode has a memory store with its info, and a
    sfs_inode_info, each used by that inode only: [ow] gives every object in
    use, by its cache and address, its inode and role.  The allocator has [b]
    requests in reserve (oa_spare): on an allocator without one the failure
    paths of sfs_alloc_inode and fs_get_inode free an inode whose reference count
    is one, which fails a kassert (FsClaims.v). *)

From stdpp Require Import prelude list gmap.
From Stdlib Require Import ZArith Lia.
From S2P Require Import Prelude DList ObjAlloc RadixTree Blocks Sfs SfsDir SfsBits Fs.

(** What is known of a run besides. *)
Lemma wp_also {St A} (m : M St A) (P Q : A -> St -> Prop) s : wp m P s -> wp m (fun a s' => P a s' -> Q a s') s -> wp m Q s.
Proof.
  intros (a & s' & E & HP)%wp_elim (a2 & s2 & E2 & HQ)%wp_elim. rewrite E in E2. injection E2 as <- <-. eapply wp_intro; [exact E|]. by apply HQ.
Qed.

Section objs.
Context {B R O : Type} `{!Blocks B, !ObjAlloc R, !ObjAlloc O}.
Context (ic sc fc szm szf : Z).
(** Files that are not objects of the allocator: those of the console. *)
Context (statics : gset Z).
Implicit Types (s : vfs B R O) (ow : gmap (Z * Z) (Z * Z)) (C : gset Z) (b : nat).

(** The caches of [C] exist, the objects of [ow] are live and [b] requests are
    in reserve. *)
Definition holds b C ow (o : O) : Prop := exists L, (oa_live o L /\ oa_spare b o) /\ C ⊆ dom L /\
  forall c a, is_Some (ow !! (c, a)) -> exists X, L !! c = Some X /\ a ∈ X.

Lemma holds_le b b' C ow o : (b' <= b)%nat -> holds b C ow o -> holds b' C ow o.
Proof using Type. intros Hle (L & [HL Hs] & H). exists L. split; [|done]. split; [done|]. by eapply spare_le. Qed.

Definition set_objs (o : O) s : vfs B R O :=
  mkV (vf_sfs s) (vf_icache s) (vf_slock s) o (vf_memstore_allocator s) (vf_filems_allocator s) (vf_stores s) (vf_parts s) (vf_files s) (vf_cleanup s).

Lemma wp_give {b} C ow s c a t (Q : unit -> vfs B R O -> Prop) : holds b C ow (vf_objs s) -> ow !! (c, a) = Some t ->
  (forall o, holds b C (delete (c, a) ow) o -> Q tt (set_objs o s)) -> wp (on_vobjs (oa_free c a)) Q s.
Proof using Type.
  intros (L & [HL Hsp] & HC & How) Ha HQ. destruct (How c a) as (X & HX & HaX); [by eexists|]. unfold on_vobjs. wp_step.
  eapply wp_mono; [by eapply oa_free_uses|]. intros [] o [HL' Hu]. apply Hu in Hsp. rewrite Nat.sub_0_r in Hsp. apply (HQ o). exists (<[c := X ∖ {[a]}]> L). split; [done|].
  split; [rewrite dom_insert_L; set_solver|]. intros d e. rewrite lookup_delete. case_decide as E; [by intros [? ?]|].
  intros Hs. destruct (How _ _ Hs) as (Y & HY & HbY). destruct (decide (d = c)) as [->|Hne].
  - exists (X ∖ {[a]}). rewrite lookup_insert_eq. split; [done|]. assert (e <> a) by congruence. assert (Y = X) as -> by congruence. set_solver.
  - exists Y. by rewrite lookup_insert_ne.
Qed.

Lemma wp_take {b} C ow s c t (Q : Z -> vfs B R O -> Prop) : holds (S b) C ow (vf_objs s) -> c ∈ C ->
  (forall p o, p <> NULL -> ow !! (c, p) = None -> holds b C (<[(c, p) := t p]> ow) o -> Q p (set_objs o s)) ->
  wp (on_vobjs (oa_alloc c)) Q s.
Proof using Type.
  intros (L & [HL Hsp] & HC & How) Hc HQ. apply HC, elem_of_dom in Hc as [X HX]. unfold on_vobjs. wp_step.
  eapply wp_mono; [by eapply oa_alloc_uses|]. intros p o ([[-> _]|(Hp & HpX & HL')] & Hu & Hn); [by pose proof (Hn eq_refl _ Hsp); lia|].
  apply Hu in Hsp. rewrite Nat.sub_1_r in Hsp.
  apply (HQ p o); [done| |].
  - apply eq_None_not_Some. intros Hs. destruct (How _ _ Hs) as (Y & HY & HpY). congruence.
  - exists (<[c := {[p]} ∪ X]> L). split; [done|]. split; [rewrite dom_insert_L; set_solver|]. intros d a. rewrite lookup_insert. case_decide as E.
    + injection E as <- <-. intros _. exists ({[p]} ∪ X). rewrite lookup_insert_eq. set_solver.
    + intros Hs. destruct (How _ _ Hs) as (Y & HY & HaY). destruct (decide (d = c)) as [->|Hne].
      * exists ({[p]} ∪ X). rewrite lookup_insert_eq. split; [done|]. set_solver.
      * exists Y. by rewrite lookup_insert_ne.
Qed.

Lemma wp_make {b} C ow s size (Q : Z -> vfs B R O -> Prop) : holds (S b) C ow (vf_objs s) -> oa_size_ok (St := O) size ->
  (forall c o, c <> NULL -> holds b ({[c]} ∪ C) ow o -> Q c (set_objs o s)) -> wp (on_vobjs (oa_create size)) Q s.
Proof using Type.
  intros (L & [HL Hsp] & HC & How) Hsz HQ. unfold on_vobjs. wp_step. eapply wp_mono; [by eapply oa_create_uses|].
  intros c o ((L' & HL' & [[-> _]|(Hc & Hn & ->)]) & Hu & Hno); [by pose proof (Hno eq_refl _ Hsp); lia|]. apply Hu in Hsp. rewrite Nat.sub_1_r in Hsp. apply (HQ c o); [done|].
  exists (<[c := ∅]> L). split; [done|]. split; [rewrite dom_insert_L; set_solver|]. intros d e Hs. destruct (How _ _ Hs) as (Y & HY & HbY).
  exists Y. rewrite lookup_insert_ne; [done|]. congruence.
Qed.

(** ** Memory stores *)

(** memstore_alloc and filems_alloc take a store and an info for inode [p]. *)
Hypothesis Hszm : oa_size_ok (St := O) szm.
Hypothesis Hszf : oa_size_ok (St := O) szf.
Lemma wp_filems_alloc {b} C ow s p (Q : Z -> vfs B R O -> Prop) : p <> NULL -> holds (4 + b) C ow (vf_objs s) ->
  (vf_memstore_allocator s <> NULL -> vf_memstore_allocator s ∈ C) -> (vf_filems_allocator s <> NULL -> vf_filems_allocator s ∈ C) ->
  (forall st y mc fmc o C' ow', st <> NULL -> y <> NULL -> mc <> NULL -> fmc <> NULL -> C ⊆ C' -> mc ∈ C' -> fmc ∈ C' ->
     (vf_memstore_allocator s <> NULL -> mc = vf_memstore_allocator s) -> (vf_filems_allocator s <> NULL -> fmc = vf_filems_allocator s) ->
     ow !! (mc, st) = None -> <[(mc, st) := (p, 1)]> ow !! (fmc, y) = None ->
     ow' = <[(fmc, y) := (p, 2)]> (<[(mc, st) := (p, 1)]> ow) -> holds b C' ow' o ->
     Q st (set_stores (<[st := y]> (vf_stores s)) (set_objs o (set_msc mc (set_fmc fmc s))))) ->
  wp (filems_alloc szm szf p) Q s.
Proof using Hszm Hszf.
  intros Hp HH Hmc Hfmc HQ. unfold filems_alloc. wp_step. wp_step; [by apply nonnull_true|]. wp_step. wp_step. wp_step.
  apply wp_mono with (P := fun ok s' => ok = true /\ exists fmc o C', fmc <> NULL /\ (vf_filems_allocator s <> NULL -> fmc = vf_filems_allocator s) /\
    holds (3 + b) C' ow o /\ C ⊆ C' /\ fmc ∈ C' /\ s' = set_objs o (set_fmc fmc s)).
  { destruct (Z.eqb_spec (vf_filems_allocator s) NULL) as [E|E].
    - wp_step. eapply wp_make; [exact HH|exact Hszf|]. intros c o Hc Ho. wp_step. wp_step. wp_step. split; [by rewrite (proj2 (Z.eqb_neq c NULL) Hc)|].
      exists c, o, ({[c]} ∪ C). split; [done|]. split; [done|]. split; [done|]. split; [set_solver|]. split; [set_solver|]. by destruct s.
    - wp_step. split; [done|]. exists (vf_filems_allocator s), (vf_objs s), C. repeat (split; [done|]). split; [eapply holds_le; [|exact HH]; lia|]. repeat (split; [done|]). split; [by apply Hfmc|]. by destruct s. }
  intros ok s1 (-> & fmc & o1 & C1 & Hf0 & Hf1 & H1 & HC1 & HfC & ->). cbn [negb]. wp_step. unfold memstore_alloc. wp_step. wp_step.
  cbn [vf_memstore_allocator set_objs set_fmc]. wp_step.
  apply wp_mono with (P := fun ok s' => ok = true /\ exists mc o C', mc <> NULL /\ (vf_memstore_allocator s <> NULL -> mc = vf_memstore_allocator s) /\
    holds (2 + b) C' ow o /\ C1 ⊆ C' /\ mc ∈ C' /\ s' = set_objs o (set_msc mc (set_fmc fmc s))).
  { destruct (Z.eqb_spec (vf_memstore_allocator s) NULL) as [E|E].
    - wp_step. eapply wp_make; [exact H1|exact Hszm|]. intros c o Hc Ho. wp_step. wp_step. wp_step. split; [by rewrite (proj2 (Z.eqb_neq c NULL) Hc)|].
      exists c, o, ({[c]} ∪ C1). split; [done|]. split; [done|]. split; [done|]. split; [set_solver|]. split; [set_solver|]. done.
    - wp_step. split; [done|]. exists (vf_memstore_allocator s), o1, C1. repeat (split; [done|]). split; [eapply holds_le; [|exact H1]; lia|]. repeat (split; [done|]). split; [by apply HC1, Hmc|]. done. }
  intros ok s2 (-> & mc & o2 & C2 & Hm0 & Hm1 & H2 & HC2 & HmC & ->). cbn [negb]. wp_step. wp_step. wp_step.
  eapply (wp_take C2 ow _ _ (fun _ => (p, 1))); [exact H2|exact HmC|]. cbn [vf_memstore_allocator set_objs set_msc]. intros st o3 Hst Hn3 H3.
  rewrite (proj2 (Z.eqb_neq st NULL) Hst). cbn [negb]. wp_step. wp_step. wp_step. rewrite (proj2 (Z.eqb_neq st NULL) Hst). cbn [negb]. wp_step. wp_step. wp_step.
  cbn [vf_filems_allocator set_stores set_objs set_msc set_fmc].
  eapply (wp_take C2 _ _ _ (fun _ => (p, 2))); [exact H3|by apply HC2|]. intros y o4 Hy Hn4 H4. wp_step. wp_step. rewrite (proj2 (Z.eqb_neq y NULL) Hy). cbn [negb]. wp_step.
  unshelve epose proof (HQ st y mc fmc o4 C2 _ Hst Hy Hm0 Hf0 _ HmC (HC2 _ HfC) Hm1 Hf1 Hn3 Hn4 eq_refl H4) as HQ'; [by etrans|].
  cbn [vf_stores set_stores set_objs set_msc set_fmc]. rewrite insert_insert_eq. exact HQ'.
Qed.

(** ** The objects of the in-memory inodes and the open files *)

Abbreviation inodes s := (sf_inodes (vf_sfs s)).

Definition parts_ok ow s (p : Z) : Prop := exists st x y,
  vf_parts s !! p = Some (st, x) /\ vf_stores s !! st = Some y /\ st <> NULL /\ y <> NULL /\
  ow !! (ic, p) = Some (p, 0) /\ ow !! (vf_memstore_allocator s, st) = Some (p, 1) /\
  ow !! (vf_filems_allocator s, y) = Some (p, 2) /\ ow !! (sc, x) = Some (p, 3).

Record objs_ok b C ow s : Prop := {
  ob_holds : holds b C ow (vf_objs s);
  ob_caches : {[ic; sc; fc]} ⊆ C;
  ob_msc : vf_memstore_allocator s <> NULL -> vf_memstore_allocator s ∈ C;
  ob_fmc : vf_filems_allocator s <> NULL -> vf_filems_allocator s ∈ C;
  ob_init : vf_memstore_allocator s = NULL \/ vf_filems_allocator s = NULL -> inodes s = ∅;
  ob_inodes : forall p, is_Some (inodes s !! p) -> p <> NULL /\ parts_ok ow s p;
  ob_files : forall f, is_Some (vf_files s !! f) -> f ∈ statics \/ ow !! (fc, f) = Some (f, 4)
}.

Lemma objs_le b b' C ow s : (b' <= b)%nat -> objs_ok b C ow s -> objs_ok b' C ow s.
Proof using Type. intros Hle [H1 H2 H3 H4 H5 H6 H7]. split; try done. by eapply holds_le. Qed.

Lemma parts_more ow ow' s s' p : ow ⊆ ow' -> vf_memstore_allocator s' = vf_memstore_allocator s -> vf_filems_allocator s' = vf_filems_allocator s ->
  vf_parts s' !! p = vf_parts s !! p -> (forall st, is_Some (ow !! (vf_memstore_allocator s, st)) -> vf_stores s' !! st = vf_stores s !! st) ->
  parts_ok ow s p -> parts_ok ow' s' p.
Proof using Type.
  intros Ho Em Ef Ep Es (st & x & y & H1 & H2 & H3 & H4 & H5 & H6 & H7 & H8). exists st, x, y. rewrite Em, Ef, Ep, Es by (by eexists).
  split_and!; try done; by eapply lookup_weaken.
Qed.

(** Only the in-memory inodes and their objects change. *)
Record only_inodes (I : gmap Z inode) s s' : Prop := {
  oi_sfs : vf_sfs s' = mkS I (sf_blk (vf_sfs s));
  oi_icache : vf_icache s' = vf_icache s;
  oi_slock : vf_slock s' = vf_slock s;
  oi_files : vf_files s' = vf_files s;
  oi_cleanup : vf_cleanup s' = vf_cleanup s
}.

Definition fresh_inode : inode := mkI 0 1 0 0 0 0 (replicate 14 0) false false false.

Lemma wp_vget p i s (Q : inode -> vfs B R O -> Prop) : inodes s !! p = Some i -> Q i s -> wp (on_sfs (get_inode p)) Q s.
Proof using Type. intros Hp HQ. destruct s as [[I be] ? ? ? ? ? ? ? ? ?]. unfold on_sfs. wp_step. by eapply wp_get_inode. Qed.

Lemma wp_vupd p i f s (Q : unit -> vfs B R O -> Prop) : inodes s !! p = Some i -> Q tt (set_inodes (<[p := f i]> (inodes s)) s) ->
  wp (on_sfs (upd_inode p f)) Q s.
Proof using Type. intros Hp HQ. destruct s as [[I be] ? ? ? ? ? ? ? ? ?]. unfold on_sfs. wp_step. by eapply wp_upd_inode. Qed.

(** sfs_alloc_inode makes an inode with one reference and all its parts. *)
Lemma wp_sfs_alloc_inode {b} C ow s (Q : Z -> vfs B R O -> Prop) : objs_ok (6 + b) C ow s ->
  (forall p s' C' ow', p <> NULL -> inodes s !! p = None -> objs_ok b C' ow' s' -> only_inodes (<[p := fresh_inode]> (inodes s)) s s' -> Q p s') ->
  wp (sfs_alloc_inode ic sc szm szf) Q s.
Proof using Hszm Hszf.
  intros [HH Hcs Hmc Hfc Hini Hin Hfi] HQ. unfold sfs_alloc_inode, fs_alloc_inode. wp_step. wp_step.
  eapply (wp_take C ow _ _ (fun p => (p, 0))); [exact HH|clear -Hcs; set_solver|]. intros p o1 Hp Hn1 H1.
  assert (HIp : inodes s !! p = None).
  { destruct (inodes s !! p) eqn:E; [|done]. destruct (Hin p) as (_ & st & x & y & _ & _ & _ & _ & E2 & _); [by rewrite E|]. congruence. }
  rewrite (proj2 (Z.eqb_neq p NULL) Hp). cbn [negb]. wp_step. wp_step. wp_step.
  eapply wp_filems_alloc; [exact Hp|exact H1|exact Hmc|exact Hfc|].
  intros st y mc fmc o2 C2 ow2 Hst Hy Hm0 Hf0 HC2 HmC HfC Hm1 Hf1 Hn2 Hn3 -> H2. rewrite (proj2 (Z.eqb_neq st NULL) Hst). wp_step. wp_step. wp_step.
  rewrite (proj2 (Z.eqb_neq p NULL) Hp). wp_step.
  eapply (wp_take C2 _ _ _ (fun _ => (p, 3))); [exact H2|apply HC2; clear -Hcs; set_solver|]. intros x o3 Hx Hn4 H3.
  rewrite (proj2 (Z.eqb_neq x NULL) Hx). wp_step. eapply wp_vupd; [cbn; by rewrite lookup_insert_eq|]. wp_step. wp_step. wp_step.
  cbn [vf_parts set_inodes set_objs set_parts set_stores set_msc set_fmc]. rewrite lookup_insert_eq. wp_step; [done|]. wp_step. wp_step. wp_step.
  cbn [vf_memstore_allocator vf_filems_allocator set_inodes set_objs] in Hm1, Hf1.
  pose proof (insert_subseteq _ _ (p, 0) Hn1) as S1. pose proof (insert_subseteq _ _ (p, 1) Hn2) as S2.
  pose proof (insert_subseteq _ _ (p, 2) Hn3) as S3. pose proof (insert_subseteq _ _ (p, 3) Hn4) as S4.
  set (ow1 := <[(ic, p) := _]> ow) in *. set (ow2 := <[_ := _]> ow1) in *. set (ow3 := <[_ := _]> ow2) in *. set (ow4 := <[_ := _]> ow3) in *.
  assert (Hsub : ow ⊆ ow4) by (by repeat (etrans; [eassumption|])).
  eapply (HQ p _ C2 ow4); [done|done| |].
  - split; cbn [vf_objs vf_memstore_allocator vf_filems_allocator vf_sfs sf_inodes vf_files set_inodes set_objs set_parts set_stores set_msc set_fmc]; try done.
    + clear -Hcs HC2; set_solver.
    + by intros [?|?].
    + intros q Hq. destruct (decide (q = p)) as [->|Hqp].
      * split; [done|]. exists st, x, y. cbn. rewrite !lookup_insert_eq. split_and!; try done.
        -- apply (lookup_weaken ow1); [by apply lookup_insert_eq|by do 2 (etrans; [eassumption|])].
        -- apply (lookup_weaken ow2); [by apply lookup_insert_eq|by etrans].
        -- apply (lookup_weaken ow3); [by apply lookup_insert_eq|done].
        -- by apply lookup_insert_eq.
      * rewrite !lookup_insert_ne in Hq by done. destruct (Hin q Hq) as [? Hpt]. split; [done|].
        assert (Hnn : vf_memstore_allocator s <> NULL /\ vf_filems_allocator s <> NULL).
        { split; intros E; [rewrite Hini in Hq by (by left)|rewrite Hini in Hq by (by right)]; by destruct Hq. }
        eapply (parts_more ow ow4 s); [exact Hsub|exact (Hm1 (proj1 Hnn))|exact (Hf1 (proj2 Hnn))| | |exact Hpt].
        -- cbn. by rewrite !lookup_insert_ne.
        -- intros st' Hst'. cbn. apply lookup_insert_ne. intros ->. rewrite <- Hm1 in Hst' by apply Hnn. 
           assert (ow1 !! (mc, st') <> None) as []; [|done]. destruct Hst' as [? E]. by rewrite (lookup_weaken _ _ _ _ E S1).
    + intros f Hf. destruct (Hfi f Hf); [by left|right]. by eapply lookup_weaken.
  - split; try done. cbn. by rewrite insert_insert_eq.
Qed.

Lemma parts_less ow ow' s s' p : (forall k r, ow !! k = Some (p, r) -> ow' !! k = Some (p, r)) -> vf_memstore_allocator s' = vf_memstore_allocator s ->
  vf_filems_allocator s' = vf_filems_allocator s -> vf_parts s' !! p = vf_parts s !! p ->
  (forall st, ow !! (vf_memstore_allocator s, st) = Some (p, 1) -> vf_stores s' !! st = vf_stores s !! st) -> parts_ok ow s p -> parts_ok ow' s' p.
Proof using Type.
  intros Ho Em Ef Ep Es (st & x & y & H1 & H2 & H3 & H4 & H5 & H6 & H7 & H8). exists st, x, y. rewrite Em, Ef, Ep, Es by done. split_and!; auto.
Qed.

(** sfs_free_inode gives the inode and its parts back. *)
Lemma wp_sfs_free_inode {b} C ow s p i (Q : unit -> vfs B R O -> Prop) : objs_ok b C ow s -> inodes s !! p = Some i -> i_ref i = 0 ->
  (forall s' ow', objs_ok b C ow' s' -> only_inodes (delete p (inodes s)) s s' -> Q tt s') -> wp (sfs_free_inode ic sc p) Q s.
Proof using Type.
  clear Hszm Hszf. intros [HH Hcs Hmc Hfc Hini Hin Hfi] Hp Hr HQ. destruct (Hin p) as [Hpn (st & x & y & P1 & P2 & P3 & P4 & P5 & P6 & P7 & P8)]; [by eexists|].
  assert (K : forall k k' t t', ow !! k = Some t -> ow !! k' = Some t' -> t <> t' -> k <> k') by (intros k k' t t' E1 E2 Hne ->; congruence).
  unfold sfs_free_inode. wp_step. wp_step. wp_step. rewrite P1. wp_step; [done|]. cbn [fst snd]. wp_step.
  eapply (wp_give C); [exact HH|exact P8|]. intros o1 H1. unfold fs_free_inode. wp_step. eapply (wp_vget p i); [exact Hp|].
  wp_step. wp_step; [by rewrite Hr|]. wp_step. wp_step. cbn [vf_parts set_objs]. rewrite P1. wp_step. wp_step; [done|]. cbn [fst snd]. wp_step.
  unfold filems_free. wp_step. wp_step; [by apply nonnull_true|]. wp_step. wp_step. cbn [vf_stores set_objs]. rewrite P2. wp_step. wp_step; [done|].
  wp_step. wp_step; [by apply nonnull_true|]. wp_step. wp_step. wp_step. cbn [vf_filems_allocator set_objs].
  eapply (wp_give C); [exact H1|rewrite lookup_delete_ne by (by eapply K); exact P7|]. intros o2 H2.
  unfold memstore_free. wp_step. wp_step; [by apply nonnull_true|]. wp_step. wp_step. wp_step. wp_step. cbn [vf_memstore_allocator set_objs].
  eapply (wp_give C); [exact H2|rewrite !lookup_delete_ne by (by eapply K); exact P6|]. intros o3 H3. wp_step. wp_step.
  eapply (wp_give C); [exact H3|rewrite !lookup_delete_ne by (by eapply K); exact P5|]. intros o4 H4.
  set (ow4 := delete (ic, p) _) in H4.
  assert (Hkeep : forall k q r, q <> p -> ow !! k = Some (q, r) -> ow4 !! k = Some (q, r)).
  { intros k q r Hne Hk. unfold ow4. rewrite !lookup_delete_ne; [done|eapply K; [done|exact Hk|congruence]..]. }
  eapply (HQ _ ow4).
  - split; cbn [vf_objs vf_memstore_allocator vf_filems_allocator vf_sfs sf_inodes vf_files set_inodes set_objs set_parts set_stores set_msc set_fmc]; try done.
    + intros E. rewrite (Hini E). apply delete_empty.
    + intros q Hq. rewrite lookup_delete_is_Some in Hq. destruct Hq as [Hne Hq]. destruct (Hin q Hq) as [? Hpt]. split; [done|].
      eapply (parts_less ow ow4 s); [intros; by apply Hkeep|done|done| | |exact Hpt].
      * cbn. by rewrite lookup_delete_ne.
      * intros st' Hst'. cbn. rewrite lookup_delete_ne; [done|]. intros ->. congruence.
    + intros f Hf. destruct (Hfi f Hf) as [|Hfo]; [by left|right]. unfold ow4. rewrite !lookup_delete_ne; [done|eapply K; [done|exact Hfo|congruence]..].
  - by split.
Qed.
End objs.
