(* ===== verification/FsSpec.v ===== *)
(** * The file layer: the inode cache

    [vrep rv lk m I K s]: the inode cache of [s] is the map [m] from inode
    numbers to in-memory inodes, [I] has the in-memory inodes, each of them in
    the cache under its number, referenced and loaded; [D] is the disk as the
    block cache shows it, [F] the open files, [K] the inodes that wait for the
    cleanup thread.  The allocators of the tree nodes and of the other objects
    have [fst rv] and [snd rv] requests in reserve. *)

From stdpp Require Import prelude list gmap.
From Stdlib Require Import ZArith Lia.
From S2P Require Import Prelude DList ObjAlloc RadixTree RadixTreeSpec Blocks Sfs SfsDir SfsBits SfsAlloc SfsInode Fs FsObjs.

(** The in-memory inode made from the bytes on disk. *)
Definition load_inode (D : Z -> list Z) (n r : Z) : inode :=
  let q := drop (Z.to_nat (inum_to_ofs n)) (D (inum_to_blk n)) in
  mkI n r (of_le16 (drop 2 q)) (nth 0 q 0) (nth 1 q 0) (of_le32 (drop 4 q))
    (map (word (drop 8 q)) (seqZ 0 (SFS_NDIRECT + SFS_NINDIRECT))) true false false.

Section spec.
Context (sb : sfs_sb_info) (Hly : layout sb).
Context {B R O : Type} `{!Blocks B, !ObjAlloc R, !ObjAlloc O}.
Context (ic sc fc szm szf : Z) (statics : gset Z).
Context (D : Z -> list Z) (U : list (Z * Z)) (J : gset Z) (F : gmap Z file).
Implicit Types (s : vfs B R O) (m : gmap Z Z) (I : gmap Z inode) (K : list Z) (lk : bool) (rv : nat * nat).

Record cache_ok m I : Prop := {
  co_cached : forall n p, m !! n = Some p -> exists i, I !! p = Some i /\ i_inum i = n;
  co_inode : forall p i, I !! p = Some i -> m !! i_inum i = Some p /\ is_inum sb (i_inum i) /\ 0 < i_ref i < 2 ^ 32 /\ i_valid i = true
}.

Record vrep rv lk m I K s : Prop := {
  vr_icache : rep m (vf_icache s) /\ oa_spare (fst rv) (r_mem (vf_icache s));
  vr_slock : vf_slock s = lk;
  vr_inodes : sf_inodes (vf_sfs s) = I;
  vr_blk : exists D', (forall b, D' b = D b) /\ blk_rep true (sf_blk (vf_sfs s)) D' ∅ U J;
  vr_files : vf_files s = F;
  vr_cleanup : vf_cleanup s = K;
  vr_objs : exists C ow, objs_ok ic sc fc statics (snd rv) C ow s
}.

(** In reserve for [k] inodes: a new inode takes at most 20 requests for nodes
    of the cache and 6 for the inode and its parts. *)
Definition enough (k : nat) : nat * nat := ((20 * k)%nat, (6 * k)%nat).
Definition reserve (k : nat) s : Prop := oa_spare (20 * k) (r_mem (vf_icache s)) /\ oa_spare (6 * k) (vf_objs s).

Lemma vrep_le rv rv' lk m I K s : (fst rv' <= fst rv)%nat -> (snd rv' <= snd rv)%nat -> vrep rv lk m I K s -> vrep rv' lk m I K s.
Proof using Type.
  intros H1 H2 [[R1 Rs] R2 R3 R4 R5 R6 (C & ow & H)]. split; try done; [split; [done|by eapply spare_le]|]. exists C, ow. by eapply objs_le.
Qed.
Lemma vrep_less k k' lk m I K s : (k' <= k)%nat -> vrep (enough k) lk m I K s -> vrep (enough k') lk m I K s.
Proof using Type. intros Hle. apply vrep_le; cbn; lia. Qed.
Lemma vrep_reserve rv k lk m I K s : vrep rv lk m I K s -> reserve k s -> vrep (enough k) lk m I K s.
Proof using Type.
  intros [[R1 _] R2 R3 R4 R5 R6 (C & ow & [(L & [HL _] & Hh) H2 H3 H4 H5 H6 H7])] [S1 S2]. split; try done. exists C, ow. split; try done. by exists L.
Qed.

(** The inode with number [n] as the system sees it; its reference count is
    zero when it is not in memory. *)
Definition cur m I (n : Z) : inode :=
  match m !! n with Some p => default (load_inode D n 0) (I !! p) | None => load_inode D n 0 end.

Lemma cur_cached m I n p i : m !! n = Some p -> I !! p = Some i -> cur m I n = i.
Proof using Type. unfold cur. by intros -> ->. Qed.
Lemma cur_disk m I n : m !! n = None -> cur m I n = load_inode D n 0.
Proof using Type. unfold cur. by intros ->. Qed.

Lemma load_same D' n r : (forall b, D' b = D b) -> load_inode D' n r = load_inode D n r.
Proof using Type. intros E. unfold load_inode. by rewrite E. Qed.

(** ** Steps on the state *)

Lemma cache_upd m I p i i' : cache_ok m I -> I !! p = Some i -> i_inum i' = i_inum i -> 0 < i_ref i' < 2 ^ 32 -> i_valid i' = true ->
  cache_ok m (<[p := i']> I).
Proof using Type.
  intros [H1 H2] Hp En Hr Hv. pose proof (H2 _ _ Hp) as (Hm & Hin & _). split.
  - intros n q Hn. destruct (H1 n q Hn) as (j & Hj & En'). rewrite lookup_insert. case_decide; [subst q|by exists j].
    exists i'. split; [done|]. rewrite En. congruence.
  - intros q j. rewrite lookup_insert. case_decide; [subst q; intros [= <-]; by rewrite En|apply H2].
Qed.

Lemma cache_new m I p i : cache_ok m I -> I !! p = None -> m !! i_inum i = None -> is_inum sb (i_inum i) -> 0 < i_ref i < 2 ^ 32 -> i_valid i = true ->
  cache_ok (<[i_inum i := p]> m) (<[p := i]> I).
Proof using Type.
  intros [H1 H2] Hp Hm Hin Hr Hv. split.
  - intros n q. rewrite lookup_insert. case_decide; [subst n; intros [= <-]; exists i; by rewrite lookup_insert_eq|].
    intros Hn. destruct (H1 n q Hn) as (j & Hj & En'). exists j. by rewrite lookup_insert_ne by congruence.
  - intros q j. rewrite lookup_insert. case_decide; [subst q; intros [= <-]; by rewrite lookup_insert_eq|].
    intros Hj. destruct (H2 q j Hj) as (Hq & ? & ? & ?). rewrite lookup_insert_ne; [done|congruence].
Qed.

Lemma cache_drop m I p i : cache_ok m I -> I !! p = Some i -> cache_ok (delete (i_inum i) m) (delete p I).
Proof using Type.
  intros [H1 H2] Hp. destruct (H2 p i Hp) as (Hm & _). split.
  - intros n q [Hne Hn]%lookup_delete_Some. destruct (H1 n q Hn) as (j & Hj & En). exists j. rewrite lookup_delete_ne by congruence. done.
  - intros q j [Hne Hj]%lookup_delete_Some. destruct (H2 q j Hj) as (Hq & ? & ? & ?). rewrite lookup_delete_ne by congruence. done.
Qed.

(** ** Steps on the state *)

(** A field of one inode changes. *)
Lemma vrep_upd {rv} lk m I K s p i i' : vrep rv lk m I K s -> I !! p = Some i ->
  vrep rv lk m (<[p := i']> I) K (set_inodes (<[p := i']> (sf_inodes (vf_sfs s))) s).
Proof using Type.
  intros [R1 R2 R3 R4 R5 R6 (C & ow & [H1 H2 H3 H4 H5 H6 H7])] Hp. rewrite R3. split; try done. exists C, ow. split; try done; cbn.
  - intros E. rewrite <- R3, (H5 E) in Hp. done.
  - intros q Hq. apply (H6 q). rewrite R3. destruct (decide (q = p)) as [->|]; [by eexists|]. by rewrite lookup_insert_ne in Hq.
Qed.

Lemma wp_vr_get {rv} lk m I K s p i (Q : inode -> vfs B R O -> Prop) : vrep rv lk m I K s -> I !! p = Some i -> Q i s -> wp (on_sfs (get_inode p)) Q s.
Proof using Type. intros V Hp. rewrite <- (vr_inodes _ _ _ _ _ _ V) in Hp. by apply wp_vget. Qed.

Lemma wp_vr_upd {rv} lk m I K s p i f (Q : unit -> vfs B R O -> Prop) : vrep rv lk m I K s -> I !! p = Some i ->
  (forall s', vrep rv lk m (<[p := f i]> I) K s' -> Q tt s') -> wp (on_sfs (upd_inode p f)) Q s.
Proof using Type.
  intros V Hp HQ. pose proof Hp as Hp'. rewrite <- (vr_inodes _ _ _ _ _ _ V) in Hp'. eapply wp_vupd; [exact Hp'|]. apply HQ. by eapply vrep_upd.
Qed.

Lemma wp_lock_inode {rv} lk m I K s p i (Q : unit -> vfs B R O -> Prop) : vrep rv lk m I K s -> I !! p = Some i -> i_lock i = false ->
  (forall s', vrep rv lk m (<[p := set_ilock true i]> I) K s' -> Q tt s') -> wp (lock_inode p) Q s.
Proof using Type.
  intros V Hp Hl HQ. unfold lock_inode. wp_step. eapply wp_vr_get; [exact V|exact Hp|]. rewrite Hl. by eapply wp_vr_upd.
Qed.

Lemma wp_unlock_inode {rv} lk m I K s p i (Q : unit -> vfs B R O -> Prop) : vrep rv lk m I K s -> I !! p = Some i ->
  (forall s', vrep rv lk m (<[p := set_ilock false i]> I) K s' -> Q tt s') -> wp (unlock_inode p) Q s.
Proof using Type. intros V Hp HQ. by eapply wp_vr_upd. Qed.

Lemma vrep_slock {rv} lk m I K s lk' : vrep rv lk m I K s -> vrep rv lk' m I K (set_slock lk' s).
Proof using Type. intros [R1 R2 R3 R4 R5 R6 (C & ow & [H1 H2 H3 H4 H5 H6 H7])]. split; try done. exists C, ow. by split. Qed.

Lemma wp_lock_sb {rv} m I K s (Q : unit -> vfs B R O -> Prop) : vrep rv false m I K s -> (forall s', vrep rv true m I K s' -> Q tt s') -> wp lock_sb Q s.
Proof using Type. intros V HQ. unfold lock_sb. wp_step. wp_step. rewrite (vr_slock _ _ _ _ _ _ V). wp_step. by eapply HQ, vrep_slock. Qed.
Lemma wp_unlock_sb {rv} lk m I K s (Q : unit -> vfs B R O -> Prop) : vrep rv lk m I K s -> (forall s', vrep rv false m I K s' -> Q tt s') -> wp unlock_sb Q s.
Proof using Type. intros V HQ. unfold unlock_sb. wp_step. by eapply HQ, vrep_slock. Qed.

Lemma wp_push {rv} lk m I K s p (Q : unit -> vfs B R O -> Prop) : vrep rv lk m I K s -> (forall s', vrep rv lk m I (K ++ [p]) s' -> Q tt s') ->
  wp (fs_push_inode_cleanup p) Q s.
Proof using Type.
  intros [R1 R2 R3 R4 R5 R6 (C & ow & [H1 H2 H3 H4 H5 H6 H7])] HQ. unfold fs_push_inode_cleanup. wp_step. apply HQ. split; try done; [cbn; by rewrite R6|].
  exists C, ow. by split.
Qed.

(** ** The operations of the cache *)

Lemma wp_vr_free {rv} lk m I K s p i (Q : unit -> vfs B R O -> Prop) : vrep rv lk m I K s -> I !! p = Some i -> i_ref i = 0 ->
  (forall s', vrep rv lk m (delete p I) K s' -> Q tt s') -> wp (sfs_free_inode ic sc p) Q s.
Proof using Type.
  intros [R1 R2 R3 R4 R5 R6 (C & ow & H)] Hp Hr HQ. eapply wp_sfs_free_inode; [exact H|by rewrite R3|done|].
  intros s' ow' H' [E1 E2 E3 E4 E5]. apply HQ. split; rewrite ?E1, ?E2, ?E3, ?E4, ?E5, ?R3; try done. by exists C, ow'.
Qed.

Hypothesis Hszr : oa_size_ok (St := R) SIZEOF_RADIX_NODE.

Lemma wp_vr_lookup {rv} lk m I K s n (Q : Z -> vfs B R O -> Prop) : vrep rv lk m I K s -> 0 <= n -> Q (default NULL (m !! n)) s ->
  wp (on_icache (radix_tree_lookup n)) Q s.
Proof using Type.
  clear Hszr. intros V Hn HQ. unfold on_icache. wp_step. destruct V as [[R1 _] _ _ _ _ _ _]. eapply wp_mono; [eapply wp_lookup; [exact R1|done]|]. intros v r [-> ->]. by destruct s.
Qed.

Lemma wp_vr_remove {rv} lk m I K s n p (Q : Z -> vfs B R O -> Prop) : vrep rv lk m I K s -> 0 <= n -> m !! n = Some p ->
  (forall s', vrep rv lk (delete n m) I K s' -> Q p s') -> wp (on_icache (radix_tree_remove n)) Q s.
Proof using Hszr.
  intros [[R1 Rs] R2 R3 R4 R5 R6 (C & ow & [H1 H2 H3 H4 H5 H6 H7])] Hn Hm HQ. unfold on_icache. wp_step.
  eapply wp_mono; [eapply wp_remove_spare; [exact Hszr|exact R1|exact Rs|done|right; by eapply rep_in_range]|]. intros v r (-> & Hr & Hsp). rewrite Hm. apply HQ.
  split; try done. exists C, ow. by split.
Qed.

(** fs_release_inode drops a reference; the last one drops the inode from the
    cache, unless the inode has to be written or deleted first. *)
Definition released m I K (p : Z) (i : inode) : gmap Z Z * gmap Z inode * list Z :=
  if i_ref i =? 1 then
    if (i_nlink i =? 0) || i_dirty i then (m, I, K ++ [p])
    else (delete (i_inum i) m, delete p I, K)
  else (m, <[p := set_ref (i_ref i - 1) i]> I, K).

Lemma wp_vr_release {rv} m I K s p i (Q : unit -> vfs B R O -> Prop) : vrep rv false m I K s -> cache_ok m I -> I !! p = Some i -> i_lock i = false ->
  (forall s' m' I' K', released m I K p i = (m', I', K') -> vrep rv false m' I' K' s' -> Q tt s') -> wp (fs_release_inode ic sc p) Q s.
Proof using Hszr Hly.
  intros V Hc Hp Hl HQ. pose proof (co_inode _ _ Hc _ _ Hp) as (Hm & Hin & Hr & Hv). pose proof (ly_inodes _ Hly). unfold is_inum in Hin.
  assert (E1 : u32 (i_ref i - 1) = i_ref i - 1) by (apply wrapu_small; lia). unfold fs_release_inode. wp_step.
  eapply wp_lock_inode; [exact V|exact Hp|exact Hl|]. intros s1 V1. wp_step. eapply wp_lock_sb; [exact V1|]. intros s2 V2. wp_step.
  eapply wp_vr_get; [exact V2|apply lookup_insert_eq|]. cbn [i_inum i_ref set_ilock]. wp_step. wp_step; [apply Z.ltb_lt; lia|]. wp_step.
  wp_step; [apply Z.ltb_lt; lia|]. wp_step. eapply wp_vr_upd; [exact V2|apply lookup_insert_eq|]. intros s3 V3. rewrite insert_insert_eq in V3. wp_step.
  eapply wp_vr_get; [exact V3|apply lookup_insert_eq|]. cbn [i_inum i_ref i_valid i_nlink i_dirty set_ref set_ilock]. rewrite E1, Hv. cbn [andb].
  unfold released in HQ. destruct (Z.eqb_spec (i_ref i) 1) as [E|E].
  - rewrite (proj2 (Z.eqb_eq (i_ref i - 1) 0)) by lia. destruct ((i_nlink i =? 0) || i_dirty i) eqn:Hd.
    + wp_step. eapply wp_vr_upd; [exact V3|apply lookup_insert_eq|]. intros s4 V4. rewrite insert_insert_eq in V4. wp_step.
      eapply wp_push; [exact V4|]. intros s5 V5. wp_step. eapply wp_unlock_sb; [exact V5|]. intros s6 V6.
      eapply wp_unlock_inode; [exact V6|apply lookup_insert_eq|]. intros s7 V7. eapply HQ; [done|].
      rewrite insert_insert_eq, insert_id in V7; [done|]. rewrite Hp. f_equal. destruct i. unfold set_ilock, set_ref. cbn in *. f_equal; try done.
      rewrite E1, (wrapu_small 32) by lia. lia.
    + wp_step. eapply wp_vr_remove; [exact V3|lia|exact Hm|]. intros s4 V4. wp_step. wp_step; [apply Z.eqb_refl|]. wp_step.
      eapply wp_unlock_sb; [exact V4|]. intros s5 V5. eapply wp_vr_free; [exact V5|apply lookup_insert_eq|cbn; lia|]. intros s6 V6.
      rewrite delete_insert_eq in V6. by eapply HQ.
  - rewrite (proj2 (Z.eqb_neq (i_ref i - 1) 0)) by lia. wp_step. eapply wp_unlock_sb; [exact V3|]. intros s4 V4.
    eapply wp_unlock_inode; [exact V4|apply lookup_insert_eq|]. intros s5 V5. rewrite insert_insert_eq in V5. eapply HQ; [done|].
    replace (set_ref (i_ref i - 1) i) with (set_ilock false (set_ref (u32 (i_ref (set_ilock true i) - 1)) (set_ilock true i))); [done|].
    destruct i. unfold set_ilock, set_ref. cbn in *. by rewrite E1, Hl.
Qed.

(** Releasing keeps the cache consistent. *)
Lemma released_cache m I K p i m' I' K' : cache_ok m I -> I !! p = Some i -> released m I K p i = (m', I', K') -> cache_ok m' I'.
Proof using Type.
  intros Hc Hp. pose proof (co_inode _ _ Hc _ _ Hp) as (_ & _ & Hr & Hv). unfold released. repeat case_match; intros [= <- <- <-]; [done|by apply cache_drop|].
  eapply cache_upd; [done|exact Hp|done| |done]. cbn. destruct (Z.eqb_spec (i_ref i) 1); [done|lia].
Qed.

(** sfs_read_inode loads the inode from the disk. *)
Lemma wp_vr_read {rv} lk m I K s p i (Q : Z -> vfs B R O -> Prop) : vrep rv lk m I K s -> I !! p = Some i -> is_inum sb (i_inum i) -> i_dirty i = false ->
  (forall s', vrep rv lk m (<[p := set_ilock (i_lock i) (load_inode D (i_inum i) (i_ref i))]> I) K s' -> Q ERR_OK s') ->
  wp (on_sfs (sfs_read_inode p)) Q s.
Proof using Hly.
  intros V Hp Hn Hd HQ. pose proof V as [R1 R2 R3 (D' & ED & R4) R5 R6 (C & ow & H)]. destruct s as [[I0 be] r lk0 o mc fmc st pa fi kk]. cbn in R3. subst I0.
  unfold on_sfs. wp_step. eapply (wp_read_inode sb Hly true I be D' ∅ U J p i); [exact R4|exact Hp|done|done|by intros h; rewrite lookup_empty|done|].
  intros be' Rb q. rewrite Hd. rewrite <- (load_same D' (i_inum i) (i_ref i) ED) in HQ. apply HQ.
  pose proof (vrep_upd lk m I K _ p i (set_ilock (i_lock i) (load_inode D' (i_inum i) (i_ref i))) V Hp) as [T1 T2 T3 T4 T5 T6 (C2 & ow2 & [H1 H2 H3 H4 H5 H6 H7])].
  split; try done; [by exists D'|]. exists C2, ow2. by split.
Qed.

Hypothesis Hszm : oa_size_ok (St := O) szm.
Hypothesis Hszf : oa_size_ok (St := O) szf.

Lemma wp_vr_alloc {rv} lk m I K s (Q : Z -> vfs B R O -> Prop) : vrep (rv.1, 6 + rv.2)%nat lk m I K s ->
  (forall p s', p <> NULL -> I !! p = None -> vrep rv lk m (<[p := fresh_inode]> I) K s' -> Q p s') -> wp (sfs_alloc_inode ic sc szm szf) Q s.
Proof using Hszm Hszf.
  intros [R1 R2 R3 R4 R5 R6 (C & ow & H)] HQ. eapply wp_sfs_alloc_inode; [done|done|exact H|].
  intros p s' C' ow' Hpn Hp H' [E1 E2 E3 E4 E5]. rewrite R3 in *. apply HQ; [done|done|]. split; rewrite ?E1, ?E2, ?E3, ?E4, ?E5; try done. by exists C', ow'.
Qed.

Lemma wp_vr_insert {rv} lk m I K s n p (Q : Z -> vfs B R O -> Prop) : vrep (20 + rv.1, rv.2)%nat lk m I K s -> 0 <= n < 2 ^ 30 -> p <> NULL -> m !! n = None ->
  (forall s', vrep rv lk (<[n := p]> m) I K s' -> Q ERR_OK s') -> wp (on_icache (radix_tree_insert 7 n p)) Q s.
Proof using Hszr.
  intros [[R1 Rs] R2 R3 R4 R5 R6 (C & ow & [H1 H2 H3 H4 H5 H6 H7])] Hn Hp Hm HQ. unfold on_icache. wp_step.
  eapply wp_mono; [eapply (wp_insert_spare Hszr); [exact R1|exact Rs|done|done|lia]|].
  intros e r (m' & [(-> & _ & ->)|[(_ & [? Hs] & _)|[-> _]]] & Hr & Hsp & Hrel); [|congruence|by pose proof (Hrel eq_refl); cbn in *; lia].
  apply HQ. split; try done; [split; [done|]; eapply spare_le; [|exact Hsp]; cbn; lia|]. exists C, ow. by split.
Qed.

(** fs_get_inode adds a reference to the one in-memory inode with the number,
    which is loaded from the disk when there is none. *)
Definition got m I (n p : Z) : gmap Z Z * gmap Z inode :=
  (<[n := p]> m, <[p := set_ref (i_ref (cur m I n) + 1) (cur m I n)]> I).

Lemma wp_vr_fs_get {k} m I K s n (Q : Z * Z -> vfs B R O -> Prop) : vrep (enough (S k)) false m I K s -> cache_ok m I -> is_inum sb n ->
  i_lock (cur m I n) = false -> i_ref (cur m I n) + 1 < 2 ^ 32 ->
  (forall p s', p <> NULL -> m !! n = Some p \/ m !! n = None /\ I !! p = None -> vrep (enough k) false (got m I n p).1 (got m I n p).2 K s' -> Q (ERR_OK, p) s') ->
  wp (fs_get_inode ic sc szm szf n) Q s.
Proof using Hly Hszr Hszm Hszf.
  intros V Hc Hn Hl Hb HQ. pose proof (ly_inodes _ Hly). assert (Hn' : 1 <= n <= 4096) by (unfold is_inum in Hn; lia). unfold fs_get_inode. wp_step.
  eapply wp_lock_sb; [exact V|]. intros s1 V1. wp_step. eapply wp_vr_lookup; [exact V1|lia|].
  destruct (m !! n) as [p|] eqn:Em; cbn [default from_option id].
  - destruct (co_cached _ _ Hc _ _ Em) as (i & Hp & En). pose proof (co_inode _ _ Hc _ _ Hp) as (_ & _ & Hr & Hv).
    assert (Hpn : p <> NULL).
    { destruct (vr_objs _ _ _ _ _ _ V) as (C & ow & Ho). apply (ob_inodes _ _ _ _ _ _ _ _ Ho). rewrite (vr_inodes _ _ _ _ _ _ V). by eexists. }
    rewrite (cur_cached m I n p i) in Hl, Hb by done. rewrite (proj2 (Z.eqb_neq p NULL) Hpn). wp_step. wp_step. eapply wp_vr_upd; [exact V1|exact Hp|].
    intros s2 V2. wp_step. cbn [fst snd negb]. rewrite Z.eqb_refl. cbn [negb]. wp_step. eapply wp_unlock_sb; [exact V2|]. intros s3 V3. wp_step.
    eapply wp_lock_inode; [exact V3|apply lookup_insert_eq|exact Hl|]. intros s4 V4. rewrite insert_insert_eq in V4. wp_step.
    eapply wp_vr_get; [exact V4|apply lookup_insert_eq|]. cbn [i_valid set_ilock set_ref]. rewrite Hv. cbn [negb]. wp_step. wp_step. rewrite Z.eqb_refl. cbn [negb].
    wp_step. eapply wp_unlock_inode; [exact V4|apply lookup_insert_eq|]. intros s5 V5. rewrite insert_insert_eq in V5. wp_step. apply HQ; [done|by left|]. apply (vrep_less (S k)); [lia|].
    unfold got. rewrite (cur_cached m I n p i), insert_id by done. cbn [fst snd].
    replace (set_ref (i_ref i + 1) i) with (set_ilock false (set_ilock true (set_ref (u32 (i_ref i + 1)) i))); [done|].
    destruct i. unfold set_ilock, set_ref. cbn in *. rewrite (wrapu_small 32) by lia. by rewrite Hl.
  - rewrite Z.eqb_refl. wp_step. wp_step. eapply (vrep_le _ ((20 + 20 * k)%nat, (6 + 6 * k)%nat)) in V1; [|cbn; lia..].
    eapply (wp_vr_alloc (rv := ((20 + 20 * k)%nat, (6 * k)%nat))); [exact V1|]. intros p s2 Hpn Hp V2. rewrite (proj2 (Z.eqb_neq p NULL) Hpn). wp_step.
    eapply wp_vr_upd; [exact V2|apply lookup_insert_eq|]. intros s3 V3. rewrite insert_insert_eq in V3. wp_step.
    eapply (wp_vr_insert (rv := enough k)); [exact V3|lia|done|done|]. intros s4 V4. rewrite Z.eqb_refl. cbn [negb]. wp_step. cbn [fst snd]. rewrite Z.eqb_refl. cbn [negb]. wp_step.
    eapply wp_unlock_sb; [exact V4|]. intros s5 V5. wp_step. eapply wp_lock_inode; [exact V5|apply lookup_insert_eq|done|].
    intros s6 V6. rewrite insert_insert_eq in V6. wp_step. eapply wp_vr_get; [exact V6|apply lookup_insert_eq|]. cbn [i_valid set_ilock set_inum fresh_inode negb]. wp_step.
    eapply wp_vr_read; [exact V6|apply lookup_insert_eq|done|done|]. intros s7 V7. rewrite insert_insert_eq in V7. rewrite Z.eqb_refl. cbn [negb]. wp_step.
    eapply wp_unlock_inode; [exact V7|apply lookup_insert_eq|]. intros s8 V8. rewrite insert_insert_eq in V8. wp_step. apply HQ; [done|by right|].
    unfold got. rewrite cur_disk by done. exact V8.
Qed.

Lemma got_cache m I n p : cache_ok m I -> is_inum sb n -> i_ref (cur m I n) + 1 < 2 ^ 32 -> m !! n = Some p \/ m !! n = None /\ I !! p = None ->
  cache_ok (got m I n p).1 (got m I n p).2.
Proof using Type.
  intros Hc Hn Hb [Hm|[Hm Hp]]; unfold got; cbn [fst snd].
  - destruct (co_cached _ _ Hc _ _ Hm) as (i & Hi & En). pose proof (co_inode _ _ Hc _ _ Hi) as (_ & _ & Hr & Hv).
    rewrite (cur_cached m I n p i) in * by done. rewrite insert_id by done. eapply cache_upd; [done|exact Hi|done|cbn; lia|done].
  - rewrite (cur_disk m I n Hm). apply (cache_new m I p (set_ref (i_ref (load_inode D n 0) + 1) (load_inode D n 0))); try done.
Qed.
End spec.
