(* ===== verification/FsPath.v ===== *)
(** * The file layer: path names

    Path lookup refines a walk in the tree of directories: a directory is the
    function from names to inode numbers that its entries give, and a path is
    the list of its elements. *)

From stdpp Require Import prelude list gmap.
From Stdlib Require Import ZArith Lia.
From S2P Require Import Prelude DList ObjAlloc RadixTree RadixTreeSpec Blocks Sfs SfsDir SfsBits SfsAlloc SfsInode SfsData SfsBytes SfsDirSpec SfsClaims SfsDirClaims Fs FsObjs FsSpec.

(** ** The elements of a path *)

Fixpoint split_slash (path : list Z) : list (list Z) :=
  match path with
  | [] => [[]]
  | c :: p =>
      if c =? SLASH then [] :: split_slash p
      else match split_slash p with e :: r => (c :: e) :: r | [] => [[c]] end
  end.

(** The nonempty parts between slashes, cut to 63 bytes. *)
Definition elements (path : list Z) : list (list Z) := map (take 63) (filter (fun e => e <> []) (split_slash path)).

Lemma elements_slash path : elements (SLASH :: path) = elements path.
Proof. done. Qed.
Lemma elements_skip path : elements (skip_slashes path) = elements path.
Proof. induction path as [|c p IH]; [done|]. cbn [skip_slashes]. destruct (Z.eqb_spec c SLASH) as [->|]; [|done]. by rewrite elements_slash. Qed.

Lemma skip_head path : match skip_slashes path with c :: _ => c <> SLASH | [] => True end.
Proof. induction path as [|c p IH]; [done|]. cbn [skip_slashes]. by destruct (Z.eqb_spec c SLASH). Qed.
Lemma skip_length path : (length (skip_slashes path) <= length path)%nat.
Proof. induction path as [|c p IH]; [done|]. cbn [skip_slashes]. destruct (c =? SLASH); cbn [length]; lia. Qed.

Lemma split_element path e r : element path = (e, r) ->
  (length r <= length path)%nat /\ (r = [] /\ split_slash path = [e] \/ exists r', r = SLASH :: r' /\ split_slash path = e :: split_slash r').
Proof.
  revert e r. induction path as [|c p IH]; intros e r; cbn [element split_slash]; [intros [= <- <-]; split; [done|by left]|].
  destruct (Z.eqb_spec c SLASH) as [->|Hc]; [intros [= <- <-]; split; [done|]; right; by exists p|].
  destruct (element p) as [e' r'] eqn:E. intros [= <- <-]. destruct (IH _ _ eq_refl) as [Hl Hor]. cbn [length]. split; [lia|].
  destruct Hor as [[-> ->]|(r'' & -> & ->)]; [by left|]. right. by exists r''.
Qed.

Lemma elements_element path e r : element path = (e, r) -> e <> [] -> elements path = take 63 e :: elements r.
Proof.
  intros E He. unfold elements. destruct (split_element _ _ _ E) as [_ [[-> ->]|(r' & -> & ->)]]; rewrite filter_cons_True by done; done.
Qed.

(** path_next_element takes one element off the path. *)
Lemma next_element path rest name : path_next_element path = (rest, name) ->
  (elements path = [] /\ rest = [] /\ name = []) \/
  (elements path = name :: elements rest /\ (rest = [] <-> elements rest = []) /\ name <> [] /\ (length rest < length path)%nat).
Proof.
  unfold path_next_element. pose proof (skip_head path) as Hh. pose proof (skip_length path) as Hl. rewrite <- (elements_skip path).
  destruct (skip_slashes path) as [|c p] eqn:E; [intros [= <- <-]; by left|]. cbn [element]. rewrite (proj2 (Z.eqb_neq c SLASH) Hh).
  destruct (element p) as [e r] eqn:Ee. intros [= <- <-]. right. pose proof (split_element _ _ _ Ee) as [Hr _]. cbn [length] in Hl.
  assert (He : element (c :: p) = (c :: e, r)) by (cbn [element]; by rewrite (proj2 (Z.eqb_neq c SLASH) Hh), Ee).
  rewrite elements_skip. split; [exact (elements_element _ _ _ He ltac:(done))|]. split; [|split; [done|pose proof (skip_length r); lia]].
  rewrite <- (elements_skip r). pose proof (skip_head r) as Hh'. destruct (skip_slashes r) as [|c' r'] eqn:Er; [done|]. split; [done|].
  destruct (element (c' :: r')) as [e' r''] eqn:E2. rewrite (elements_element _ _ _ E2); [done|]. cbn [element] in E2.
  rewrite (proj2 (Z.eqb_neq c' SLASH) Hh') in E2. destruct (element r'). congruence.
Qed.

(** ** The walk *)

(** Whether a number is a directory and what it maps names to. *)
Definition dirs := Z -> option (list Z -> Z).

(** The directory of the last element and that element: errors first. *)
Fixpoint namei (t : dirs) (n : Z) (es : list (list Z)) : Z * Z * list Z :=
  match t n with
  | None => (ERR_FTYPE, 0, [])
  | Some f =>
      match es with
      | [] => (ERR_OK, n, [])
      | [e] => (ERR_OK, n, e)
      | e :: es => if f e =? 0 then (ERR_NOTEXIST, 0, []) else namei t (f e) es
      end
  end.

(** The inode of the path. *)
Definition resolve (t : dirs) (n : Z) (es : list (list Z)) : Z * Z :=
  match namei t n es with
  | (err, d, e) =>
      if negb (err =? ERR_OK) then (err, 0)
      else match e with
           | [] => (ERR_OK, d)
           | _ => match t d with Some f => if f e =? 0 then (ERR_NOTEXIST, 0) else (ERR_OK, f e) | None => (ERR_FTYPE, 0) end
           end
  end.

Section walk.
Context (sb : sfs_sb_info) (Hly : layout sb).
Context {B R O : Type} `{!Blocks B, !ObjAlloc R, !ObjAlloc O}.
Context (ic sc fc szm szf : Z) (statics : gset Z).
Context (D : Z -> list Z) (U : list (Z * Z)) (J : gset Z) (F : gmap Z file).
Implicit Types (s : vfs B R O) (m : gmap Z Z) (I : gmap Z inode) (K : list Z) (own : gmap Z (Z * Z)) (A : gmap Z (list Z)) (G : gset Z) (rv : nat * nat).
Abbreviation vrep := (vrep ic sc fc statics D U J F).
Abbreviation vrep_less := (vrep_less ic sc fc statics D U J F).
Abbreviation cur := (cur D).
Abbreviation got := (got D).

(** ** Taking and dropping a reference *)

(** Where the inode of [n] is: in the cache, or not in memory. *)
Definition place m I (n p : Z) : Prop := m !! n = Some p \/ m !! n = None /\ I !! p = None.

Lemma place_ne m I n p n' q i : cache_ok sb m I -> place m I n p -> n <> n' -> m !! n' = Some q -> I !! q = Some i -> q <> p.
Proof using Type.
  intros Hc [Hm|[_ Hp]] Hne Hq Hi ->; [|congruence]. destruct (co_cached _ _ _ Hc _ _ Hm) as (j & Hj & En). destruct (co_cached _ _ _ Hc _ _ Hq) as (j' & Hj' & En'). congruence.
Qed.

Lemma place_sep m I n p n' p' : cache_ok sb m I -> place m I n p -> place (<[n := p]> m) (<[p := cur m I n]> I) n' p' -> n' <> n -> p' <> p /\ place m I n' p'.
Proof using Type.
  intros Hc Hp [Hm|[Hm Hi]] Hne; rewrite lookup_insert_ne in Hm by done.
  - destruct (co_cached _ _ _ Hc _ _ Hm) as (i & Hi & _). split; [by eapply place_ne|by left].
  - rewrite lookup_insert in Hi. case_decide; [done|]. split; [congruence|by right].
Qed.

(** Other inodes keep their state. *)
Lemma cur_other m I n p x n' : cache_ok sb m I -> place m I n p -> n' <> n -> cur (<[n := p]> m) (<[p := x]> I) n' = cur m I n'.
Proof using Type.
  intros Hc Hp Hne. unfold cur. rewrite lookup_insert_ne by done. destruct (m !! n') as [q|] eqn:Hq; [|done].
  destruct (co_cached _ _ _ Hc _ _ Hq) as (i & Hi & _). rewrite lookup_insert_ne; [done|]. apply not_eq_sym. by eapply place_ne.
Qed.

Lemma cur_here m I n p x : cur (<[n := p]> m) (<[p := x]> I) n = x.
Proof using Type. unfold cur. by rewrite !lookup_insert_eq. Qed.

Lemma cur_inum m I n : cache_ok sb m I -> i_inum (cur m I n) = n.
Proof using Type.
  intros Hc. unfold cur. destruct (m !! n) as [p|] eqn:Hm; [|done]. destruct (co_cached _ _ _ Hc _ _ Hm) as (i & Hi & En). by rewrite Hi.
Qed.

(** Dropping the reference just taken restores the cache. *)
Lemma got_released m I K n p : cache_ok sb m I -> place m I n p -> (m !! n = None -> i_nlink (cur m I n) <> 0) ->
  released (got m I n p).1 (got m I n p).2 K p (set_ref (i_ref (cur m I n) + 1) (cur m I n)) = (m, I, K).
Proof using Type.
  intros Hc Hp Hl. unfold released, got. cbn [fst snd i_ref i_nlink i_dirty i_inum set_ref]. rewrite (cur_inum m I n Hc). destruct Hp as [Hm|[Hm Hi]].
  - destruct (co_cached _ _ _ Hc _ _ Hm) as (i & Hi & _). destruct (co_inode _ _ _ Hc _ _ Hi) as (_ & _ & Hr & _). rewrite (cur_cached D m I n p i Hm Hi).
    rewrite (proj2 (Z.eqb_neq _ 1)) by lia. rewrite insert_insert_eq, (insert_id m) by done. f_equal. f_equal. apply insert_id. rewrite Hi.
    destruct i. unfold set_ref. cbn. do 2 f_equal. lia.
  - rewrite (cur_disk D m I n Hm) in *. cbn [i_ref i_dirty i_nlink load_inode] in *. rewrite Z.eqb_refl, orb_false_r, (proj2 (Z.eqb_neq _ 0)) by (by apply Hl).
    by rewrite !delete_insert_id.
Qed.

Lemma got_swap m I n p n' p' : cache_ok sb m I -> place m I n p -> place m I n' p' -> n <> n' -> p <> p' ->
  got (got m I n p).1 (got m I n p).2 n' p' = got (got m I n' p').1 (got m I n' p').2 n p.
Proof using Type.
  intros Hc Hp Hp' Hne Hpe. unfold got. cbn [fst snd]. rewrite !cur_other by done. f_equal; by apply insert_insert_ne.
Qed.

(** ** The file system *)

(** The inode is that of a directory without holes. *)
Definition dir_ok (i : inode) : Prop :=
  0 <= i_size i <= SFS_MAX_FILE_SIZE /\ i_size i mod 32 = 0 /\ forall k, 0 <= k < i_size i -> fblk D (i_addrs i) (k / 512) <> 0.

(** The files with the numbers [G]: their blocks are their own, no lock is held,
    the directories are well formed and name numbers of [G] other than their
    own. *)
Record tree_ok G A own m I : Prop := {
  to_cache : cache_ok sb m I;
  to_blocks : fsok sb D A own;
  to_file : forall n, n ∈ G -> is_inum sb n /\ A !! n = Some (i_addrs (cur m I n)) /\ i_lock (cur m I n) = false /\ i_ref (cur m I n) + 1 < 2 ^ 32 /\
    (m !! n = None -> i_nlink (cur m I n) <> 0);
  to_dir : forall n, n ∈ G -> i_ftype (cur m I n) = FTYPE_DIR -> dir_ok (cur m I n) /\
    forall name, dir_lookup D (cur m I n) name <> 0 -> dir_lookup D (cur m I n) name ∈ G /\ dir_lookup D (cur m I n) name <> n
}.

Definition tree m I : dirs := fun n => if i_ftype (cur m I n) =? FTYPE_DIR then Some (dir_lookup D (cur m I n)) else None.

Context (Hszr : oa_size_ok (St := R) SIZEOF_RADIX_NODE).
Context (Hszm : oa_size_ok (St := O) szm) (Hszf : oa_size_ok (St := O) szf).

(** search_dir in a directory in memory. *)
Lemma wp_vr_search {rv} m I K s c i A own name (Q : Z -> vfs B R O -> Prop) : vrep rv false m I K s -> I !! c = Some i -> is_inum sb (i_inum i) ->
  fsok sb D A own -> A !! i_inum i = Some (i_addrs i) -> dir_ok i ->
  (forall s', vrep rv false m I K s' -> Q (dir_lookup D i name) s') -> wp (on_sfs (search_dir sb c name)) Q s.
Proof using Hly.
  clear Hszr Hszm Hszf. intros V Hc Hn HF HA (Hsz & Hal & Hde) HQ. pose proof V as [R1 R2 R3 R4 R5 R6 (C & ow & [H1 H2 H3 H4 H5 H6 H7])].
  destruct s as [[I0 be] r lk0 o mc fmc st pa fi kk]. cbn in R3. subst I0. unfold on_sfs. wp_step. rewrite <- (insert_id A _ _ HA) in HF.
  eapply (wp_search_dir sb Hly A (i_inum i) Hn true I D U J own c i); [exact Hc|done|exact HF|lia|exact Hde|exact R4|by left|done|].
  intros o' be' Hf Hrest. rewrite <- (found_lookup D i ltac:(lia) name o' Hf). apply HQ. split; try done. exists C, ow. by split.
Qed.

Lemma wp_vr_sfs_lookup {k} m I K s c i A own name (Q : Z * Z -> vfs B R O -> Prop) : vrep (enough (S k)) false m I K s -> cache_ok sb m I -> I !! c = Some i ->
  fsok sb D A own -> A !! i_inum i = Some (i_addrs i) -> dir_ok i ->
  (dir_lookup D i name = 0 -> forall s', vrep (enough k) false m I K s' -> Q (ERR_NOTEXIST, NULL) s') ->
  (forall n, dir_lookup D i name = n -> n <> 0 -> is_inum sb n /\ i_lock (cur m I n) = false /\ i_ref (cur m I n) + 1 < 2 ^ 32 /\
     forall p s', p <> NULL -> place m I n p -> vrep (enough k) false (got m I n p).1 (got m I n p).2 K s' -> Q (ERR_OK, p) s') ->
  wp (sfs_lookup sb ic sc szm szf c name) Q s.
Proof using Hly Hszr Hszm Hszf.
  intros V Hc Hi HF HA Hd HQ0 HQ. unfold sfs_lookup. wp_step. eapply wp_vr_search; [exact V|exact Hi|by eapply co_inode|exact HF|exact HA|exact Hd|].
  intros s1 V1. destruct (Z.eqb_spec (dir_lookup D i name) 0) as [E|E]; [wp_step; apply HQ0; [done|]; by apply (vrep_less (S k) k); [lia|]|].
  destruct (HQ _ eq_refl E) as (Hn & Hl & Hr & HQ'). by eapply (wp_vr_fs_get sb Hly ic sc fc szm szf statics D U J F).
Qed.

(** The inode of [n] with a reference more. *)
Definition held m I (n : Z) : inode := set_ref (i_ref (cur m I n) + 1) (cur m I n).

Lemma unlock_held m I n : i_lock (cur m I n) = false -> set_ilock false (set_ilock true (held m I n)) = held m I n.
Proof using Type. intros Hl. unfold held, set_ilock, set_ref. cbn. by rewrite Hl. Qed.

(** An inode just taken is released. *)
Lemma wp_drop {rv} m I K s n c (Q : unit -> vfs B R O -> Prop) : vrep rv false (got m I n c).1 (got m I n c).2 K s ->
  cache_ok sb m I -> place m I n c -> is_inum sb n -> i_lock (cur m I n) = false -> i_ref (cur m I n) + 1 < 2 ^ 32 -> (m !! n = None -> i_nlink (cur m I n) <> 0) ->
  (forall s', vrep rv false m I K s' -> Q tt s') -> wp (fs_release_inode ic sc c) Q s.
Proof using Hly Hszr.
  intros V Hc Hp Hn Hl Hr Hk HQ. eapply (wp_vr_release sb Hly); [exact Hszr|exact V|by apply (got_cache sb D m I n c)|apply lookup_insert_eq|exact Hl|].
  intros s2 m' I' K' Er V2. pose proof (got_released m I K n c Hc Hp Hk) as E2. rewrite E2 in Er. injection Er as <- <- <-. by apply HQ.
Qed.

(** An inode taken and locked is unlocked and put back. *)
Lemma wp_put_back {rv} {T} m I K s n c (k : M (vfs B R O) T) (Q : T -> vfs B R O -> Prop) : vrep rv false (<[n := c]> m) (<[c := set_ilock true (held m I n)]> I) K s ->
  cache_ok sb m I -> place m I n c -> is_inum sb n -> i_lock (cur m I n) = false -> i_ref (cur m I n) + 1 < 2 ^ 32 -> (m !! n = None -> i_nlink (cur m I n) <> 0) ->
  (forall s', vrep rv false m I K s' -> wp k Q s') -> wp (unlock_inode c;; fs_release_inode ic sc c;; k) Q s.
Proof using Hly Hszr.
  intros V Hc Hp Hn Hl Hr Hk HQ. wp_step. eapply wp_unlock_inode; [exact V|apply lookup_insert_eq|]. intros s1 V1. rewrite insert_insert_eq, unlock_held in V1 by done. wp_step.
  by eapply (wp_drop m I K s1 n c).
Qed.

(** Two inodes taken one after the other. *)
Lemma place_got m I n c n' c' : n' <> n -> c' <> c -> place m I n c -> place (got m I n' c').1 (got m I n' c').2 n c.
Proof using Type. intros Hne Hce [Hm|[Hm Hi]]; [left|right]; unfold got; cbn [fst snd]; rewrite !lookup_insert_ne by congruence; done. Qed.

Section run.
Context (G : gset Z) (A : gmap Z (list Z)) (own : gmap Z (Z * Z)) (m : gmap Z Z) (I : gmap Z inode) (K : list Z).
Hypothesis HT : tree_ok G A own m I.
Abbreviation t := (tree m I).

(** What path lookup leaves: the inode it returns taken once, nothing on an
    error. *)
Definition walked rv (r : Z * Z * list Z) (v : Z * Z * list Z) s : Prop :=
  let '(err, n, e) := r in let '(err', dir, name) := v in
  err' = err /\ (err = ERR_OK -> name = e /\ n ∈ G /\ dir <> NULL /\ place m I n dir /\ vrep rv false (got m I n dir).1 (got m I n dir).2 K s) /\
  (err <> ERR_OK -> vrep rv false m I K s).

Lemma namei_next n path rest name : path_next_element path = (rest, name) -> rest <> [] -> t n <> None ->
  namei t n (elements path) = match t n with Some f => if f name =? 0 then (ERR_NOTEXIST, 0, []) else namei t (f name) (elements rest) | None => (ERR_FTYPE, 0, []) end.
Proof using Type.
  intros E Hr Ht. destruct (next_element _ _ _ E) as [(_ & -> & _)|(-> & Hiff & _)]; [done|]. cbn [namei]. destruct (t n); [|done].
  destruct (elements rest) eqn:Er; [by destruct Hr; apply Hiff|done].
Qed.

Lemma namei_last n path name : path_next_element path = ([], name) -> t n <> None -> namei t n (elements path) = (ERR_OK, n, name).
Proof using Type.
  intros E Ht. destruct (next_element _ _ _ E) as [(-> & _ & ->)|(-> & Hiff & _)]; cbn [namei]; (destruct (t n); [|done]); [done|].
  by rewrite (proj1 Hiff eq_refl).
Qed.

(** The next directory is taken while the current one is locked. *)
Lemma next_place n c n' c' x : n' <> n -> place m I n c -> place (<[n := c]> m) (<[c := x]> I) n' c' -> c' <> c /\ place m I n' c'.
Proof using HT.
  intros Hne Hp [Hm|[Hm Hi]]; rewrite lookup_insert_ne in Hm by done.
  - destruct (co_cached _ _ _ (to_cache _ _ _ _ _ HT) _ _ Hm) as (i & Hi & _). split; [by eapply place_ne; [apply HT| | | |]|by left].
  - rewrite lookup_insert in Hi. case_decide; [done|]. split; [congruence|by right].
Qed.

Lemma locked_cache n c : n ∈ G -> place m I n c -> cache_ok sb (<[n := c]> m) (<[c := set_ilock true (held m I n)]> I).
Proof using HT.
  intros Hn Hp. destruct (to_file _ _ _ _ _ HT n Hn) as (Hin & _ & _ & Hr & _). pose proof (got_cache sb D m I n c (to_cache _ _ _ _ _ HT) Hin Hr Hp) as Hc.
  destruct (co_inode _ _ _ Hc c (held m I n)) as (_ & _ & Hr' & Hv); [apply lookup_insert_eq|].
  rewrite <- (insert_insert_eq I c (set_ilock true (held m I n)) (held m I n)). eapply cache_upd; [exact Hc|apply lookup_insert_eq|done..].
Qed.

(** The current directory is unlocked while the next one is taken. *)
Lemma wp_unlock_first {rv} n c n' c' s (Q : unit -> vfs B R O -> Prop) : n ∈ G -> n' <> n -> place m I n c ->
  place (<[n := c]> m) (<[c := set_ilock true (held m I n)]> I) n' c' ->
  vrep rv false (got (<[n := c]> m) (<[c := set_ilock true (held m I n)]> I) n' c').1 (got (<[n := c]> m) (<[c := set_ilock true (held m I n)]> I) n' c').2 K s ->
  (forall s', vrep rv false (got (got m I n' c').1 (got m I n' c').2 n c).1 (got (got m I n' c').1 (got m I n' c').2 n c).2 K s' -> Q tt s') -> wp (unlock_inode c) Q s.
Proof using HT.
  intros Hn Hne Hp Hp' V HQ. pose proof (to_cache _ _ _ _ _ HT) as Hc. destruct (next_place n c n' c' _ Hne Hp Hp') as [Hce Hpm].
  destruct (to_file _ _ _ _ _ HT n Hn) as (_ & _ & Hl & _). unfold got in V, HQ. cbn [fst snd] in V, HQ. rewrite cur_other in V by done.
  rewrite !(cur_other m I n' c' _ n) in HQ by (done || congruence). rewrite (insert_insert_ne m), (insert_insert_ne I) in V by congruence.
  eapply wp_unlock_inode; [exact V|apply lookup_insert_eq|]. intros s1 V1. rewrite insert_insert_eq in V1.
  rewrite unlock_held in V1 by done. apply HQ. exact V1.
Qed.

(** The current directory is released while the next one is taken. *)
Lemma wp_drop_first {rv} n c n' c' s (Q : unit -> vfs B R O -> Prop) : n ∈ G -> n' ∈ G -> n' <> n -> c' <> c -> place m I n c -> place m I n' c' ->
  vrep rv false (got (got m I n' c').1 (got m I n' c').2 n c).1 (got (got m I n' c').1 (got m I n' c').2 n c).2 K s ->
  (forall s', vrep rv false (got m I n' c').1 (got m I n' c').2 K s' -> Q tt s') -> wp (fs_release_inode ic sc c) Q s.
Proof using Hly Hszr HT.
  intros Hn Hn' Hne Hce Hp Hpm V HQ. pose proof (to_cache _ _ _ _ _ HT) as Hc.
  destruct (to_file _ _ _ _ _ HT n Hn) as (Hin & _ & Hl & Hr & Hk). destruct (to_file _ _ _ _ _ HT n' Hn') as (Hin' & _ & _ & Hr' & _).
  assert (Ec : cur (got m I n' c').1 (got m I n' c').2 n = cur m I n) by (apply cur_other; [done|done|congruence]).
  eapply (wp_drop (got m I n' c').1 (got m I n' c').2 K s n c); rewrite ?Ec; try done; [by apply got_cache|by apply place_got|].
  unfold got. cbn [fst snd]. rewrite lookup_insert_ne by congruence. done.
Qed.

Definition taken rv (n c : Z) s : Prop := n ∈ G /\ c <> NULL /\ place m I n c /\ vrep rv false (got m I n c).1 (got m I n c).2 K s.

Lemma wp_walk_step k n c path s : taken (enough (pred (length (elements path)) + k)) n c s ->
  wp (walk_step sb ic sc szm szf (c, path)) (fun r s' => match r with
    | inl (c', path') => exists n', taken (enough (pred (length (elements path')) + k)) n' c' s' /\ namei t n' (elements path') = namei t n (elements path) /\ (length path' < length path)%nat
    | inr v => walked (enough k) (namei t n (elements path)) v s'
    end) s.
Proof using Hly Hszr Hszm Hszf HT.
  intros (Hn & Hcn & Hp & V). destruct (to_file _ _ _ _ _ HT n Hn) as (Hin & HA & Hl & Hr & Hk). pose proof (to_cache _ _ _ _ _ HT) as Hc.
  unfold walk_step. wp_step. eapply wp_lock_inode; [exact V|apply lookup_insert_eq|exact Hl|]. intros s1 V1. unfold got in V1. cbn [fst snd] in V1.
  rewrite insert_insert_eq in V1. fold (held m I n) in V1. wp_step. eapply wp_vr_get; [exact V1|apply lookup_insert_eq|]. cbn [i_ftype set_ilock held set_ref].
  assert (Ht : t n = if i_ftype (cur m I n) =? FTYPE_DIR then Some (dir_lookup D (cur m I n)) else None) by done.
  destruct (Z.eqb_spec (i_ftype (cur m I n)) FTYPE_DIR) as [Ed|Ed]; cbn [negb].
  2: { eapply wp_put_back; [exact V1|done..|]. intros s2 V2. wp_step. apply (vrep_less _ k) in V2; [|lia]. destruct (elements path); cbn [namei]; rewrite Ht; cbn; done. }
  destruct (path_next_element path) as [rest name] eqn:Ep. destruct rest as [|c0 rest].
  { wp_step. eapply wp_unlock_inode; [exact V1|apply lookup_insert_eq|]. intros s2 V2. rewrite insert_insert_eq in V2. wp_step. apply (vrep_less _ k) in V2; [|lia].
    rewrite (namei_last n path name Ep) by congruence. split; [done|]. split; [intros _|done]. split_and!; try done.
    unfold got. cbn [fst snd]. fold (held m I n). by rewrite unlock_held in V2. }
  rewrite (namei_next n path (c0 :: rest) name Ep) by congruence. rewrite Ht. destruct (to_dir _ _ _ _ _ HT n Hn Ed) as [Hdir Hch]. wp_step.
  assert (Hlen : pred (length (elements path)) = S (pred (length (elements (c0 :: rest))))).
  { destruct (next_element _ _ _ Ep) as [(_ & ? & _)|(E & Hiff & _)]; [done|]. rewrite E. cbn [length]. destruct (elements (c0 :: rest)); [by pose proof (proj2 Hiff eq_refl)|done]. }
  rewrite Hlen in V1. eapply (wp_vr_sfs_lookup (k := pred (length (elements (c0 :: rest))) + k) _ _ _ _ c (set_ilock true (held m I n))); [exact V1|by apply locked_cache|apply lookup_insert_eq|apply HT| |exact Hdir| |].
  - change (i_inum (set_ilock true (held m I n))) with (i_inum (cur m I n)). rewrite (cur_inum m I n Hc). exact HA.
  - intros E0 s2 V2. cbn [fst]. cbn match. eapply wp_put_back; [exact V2|done..|]. intros s3 V3. wp_step. apply (vrep_less _ k) in V3; [|lia].
    change (dir_lookup D (set_ilock true (held m I n)) name) with (dir_lookup D (cur m I n) name) in E0. rewrite E0. cbn. done.
  - intros n' E Hn0. change (dir_lookup D (set_ilock true (held m I n)) name) with (dir_lookup D (cur m I n) name) in E. subst n'.
    destruct (Hch name Hn0) as [Hn' Hne]. set (n' := dir_lookup D (cur m I n) name) in *. destruct (to_file _ _ _ _ _ HT n' Hn') as (Hin' & _ & Hl' & Hr' & _).
    rewrite cur_other by done. split; [done|]. split; [done|]. split; [done|]. intros c' s2 Hcn' Hp' V2. cbn [fst snd]. rewrite Z.eqb_refl. cbn [negb].
    destruct (next_place n c n' c' _ Hne Hp Hp') as [Hce Hpm].
    wp_step. eapply (wp_unlock_first n c n' c'); [done..|exact V2|]. intros s3 V3. wp_step. eapply (wp_drop_first n c n' c'); [done..|exact V3|]. intros s4 V4. wp_step. exists n'. rewrite (proj2 (Z.eqb_neq n' 0) Hn0). split; [|split; [done|]].
    + by split_and!.
    + destruct (next_element _ _ _ Ep) as [(_ & ? & _)|(_ & _ & _ & ?)]; done.
Qed.

(** The number lookup starts from. *)
Definition start (cwd : Z) (path : list Z) : Z :=
  if negb (match path with c :: _ => c =? SLASH | [] => false end) && negb (cwd =? NULL) then i_inum (default (load_inode D 0 0) (I !! cwd)) else SFS_ROOT_INUM.

Lemma wp_vr_get_G k n s (Q : Z * Z -> vfs B R O -> Prop) : n ∈ G -> vrep (enough (S k)) false m I K s -> (forall c s', taken (enough k) n c s' -> Q (ERR_OK, c) s') -> wp (fs_get_inode ic sc szm szf n) Q s.
Proof using Hly Hszr Hszm Hszf HT.
  intros Hn V HQ. destruct (to_file _ _ _ _ _ HT n Hn) as (Hin & _ & Hl & Hr & _).
  eapply (wp_vr_fs_get sb Hly ic sc fc szm szf statics D U J F); try done; [apply HT|]. intros p s' Hpn Hp V'. by apply HQ.
Qed.

(** What a path takes of the reserve: an inode for every element but the last,
    and the one the walk starts from. *)
Definition walk_cost (path : list Z) : nat := S (pred (length (elements path))).

Lemma wp_fs_find_parent k cwd path s : vrep (enough (walk_cost path + k)) false m I K s -> (cwd = NULL \/ is_Some (I !! cwd)) -> start cwd path ∈ G ->
  wp (fs_find_parent_inode sb ic sc szm szf cwd path) (fun v s' => walked (enough k) (namei t (start cwd path) (elements path)) v s') s.
Proof using Hly Hszr Hszm Hszf HT.
  intros V Hcwd Hs. destruct (to_file _ _ _ _ _ HT _ Hs) as (Hin & _). unfold fs_find_parent_inode. wp_step.
  apply wp_mono with (P := fun n s' => n = start cwd path /\ s' = s).
  { unfold start. destruct (negb _ && negb (cwd =? NULL)) eqn:E; [|by wp_step].
    apply andb_true_iff in E as [_ E]. destruct (Z.eqb_spec cwd NULL); [done|]. destruct Hcwd as [|[i Hi]]; [done|]. wp_step. eapply wp_vr_get; [exact V|exact Hi|]. wp_step.
    by rewrite Hi. }
  intros n s1 [-> ->]. wp_step. wp_step; [apply Z.ltb_lt; unfold is_inum in Hin; lia|]. wp_step. eapply (wp_vr_get_G (pred (length (elements path)) + k)); [done|exact V|].
  intros c s2 Hk. cbn [fst snd]. rewrite Z.eqb_refl. cbn [negb]. set (r := namei t (start cwd path) (elements path)).
  eapply wp_loop with (I := fun l s' => exists n, taken (enough (pred (length (elements l.2)) + k)) n l.1 s' /\ namei t n (elements l.2) = r) (mes := fun l _ => length l.2); [| |cbn; lia].
  - intros [c' path'] s3 (n & Hk' & <-). eapply wp_mono; [by apply (wp_walk_step k n)|]. intros [[c2 p2]|v] s4; [|done].
    intros (n2 & H2 & E2 & Hlt). split; [by exists n2|done].
  - by exists (start cwd path).
Qed.

(** What fs_find_inode leaves. *)
Definition found_inode rv (r : Z * Z) (v : Z * Z) s : Prop :=
  v.1 = r.1 /\ (r.1 = ERR_OK -> taken rv r.2 v.2 s) /\ (r.1 <> ERR_OK -> vrep rv false m I K s).

Lemma namei_dir n es : (namei t n es).1.1 = ERR_OK -> t ((namei t n es).1.2) <> None.
Proof using Type.
  revert n. induction es as [|e es IH]; intros n; cbn [namei]; destruct (t n) as [f|] eqn:E; cbn [fst snd]; try done; [congruence|].
  destruct es; [cbn [fst snd]; congruence|]. destruct (f e =? 0); [done|]. apply IH.
Qed.

Lemma wp_fs_find_inode k cwd path s : vrep (enough (walk_cost path + S k)) false m I K s -> (cwd = NULL \/ is_Some (I !! cwd)) -> start cwd path ∈ G ->
  wp (fs_find_inode sb ic sc szm szf cwd path) (fun v s' => found_inode (enough k) (resolve t (start cwd path) (elements path)) v s') s.
Proof using Hly Hszr Hszm Hszf HT.
  intros V Hcwd Hs. unfold fs_find_inode. wp_step. eapply wp_mono; [by apply (wp_fs_find_parent (S k))|]. unfold resolve. pose proof (namei_dir (start cwd path) (elements path)) as Hd.
  destruct (namei t (start cwd path) (elements path)) as [[err n] e]. cbn [fst snd] in Hd. intros [[err' dir] name] s1 (-> & Hok & Hno).
  destruct (Z.eqb_spec err ERR_OK) as [->|He]; cbn [negb]; [|wp_step; split; [done|]; split; [done|]; intros _; apply (vrep_less (S k)); [lia|]; by apply Hno].
  destruct (Hok eq_refl) as (-> & Hn & Hdn & Hp & V1). destruct e as [|x e]; [apply (vrep_less _ k) in V1; [|lia]; wp_step; split; [done|]; by split|]. specialize (Hd eq_refl).
  set (name := x :: e) in *. clearbody name. destruct (to_file _ _ _ _ _ HT n Hn) as (Hin & HA & Hl & Hr & Hk). pose proof (to_cache _ _ _ _ _ HT) as Hc.
  unfold tree in Hd |- *. destruct (Z.eqb_spec (i_ftype (cur m I n)) FTYPE_DIR) as [Ed|]; [|done]. destruct (to_dir _ _ _ _ _ HT n Hn Ed) as [Hdir Hch].
  pose proof (got_cache sb D m I n dir Hc Hin Hr Hp) as Hc1. wp_step.
  eapply (wp_vr_sfs_lookup _ _ _ _ dir (held m I n)); [exact V1|exact Hc1|apply lookup_insert_eq|apply HT| |exact Hdir| |].
  - change (i_inum (held m I n)) with (i_inum (cur m I n)). rewrite (cur_inum m I n Hc). exact HA.
  - change (dir_lookup D (held m I n) name) with (dir_lookup D (cur m I n) name). intros E0 s2 V2. wp_step. eapply wp_drop; [exact V2|done..|].
    intros s3 V3. wp_step. by rewrite E0.
  - change (dir_lookup D (held m I n) name) with (dir_lookup D (cur m I n) name). intros n' E Hn0. destruct (Hch name) as [Hn' Hne]; [by rewrite E|]. rewrite E in *.
    destruct (to_file _ _ _ _ _ HT n' Hn') as (Hin' & _ & Hl' & Hr' & _). unfold got. cbn [fst snd]. rewrite cur_other by done.
    split; [done|]. split; [done|]. split; [done|]. intros c' s2 Hcn' Hp' V2. assert (Hpp : c' <> dir /\ place m I n' c') by (by eapply (next_place n dir)).
    destruct Hpp as [Hce Hpm]. wp_step. eapply (wp_drop_first n dir n' c'); [done..| |].
    + unfold got in V2 |- *. cbn [fst snd] in V2 |- *. rewrite !(cur_other m I n' c' _ n), (insert_insert_ne m), (insert_insert_ne I) by (done || congruence).
      rewrite ?(cur_other m I n dir _ n') in V2 by done. exact V2.
    + intros s3 V3. wp_step. rewrite (proj2 (Z.eqb_neq n' 0) Hn0). done.
Qed.
End run.
End walk.

(** * The file layer: reference counts of in-memory inodes *)

Section refs.
Context (sb : sfs_sb_info).
Implicit Types (m : gmap Z Z) (I : gmap Z inode) (K H : list Z) (D : Z -> list Z).

Definition count (p : Z) (l : list Z) : Z := Z.of_nat (length (filter (fun q => q = p) l)).

Lemma count_perm p l l' : l ≡ₚ l' -> count p l = count p l'.
Proof using Type. intros Hp. unfold count. by rewrite Hp. Qed.

(** Every inode in memory is referenced by the holders and the cleanup list,
    and by nothing else. *)
Definition refs_exact I H K : Prop :=
  (forall p, count p H + count p K = match I !! p with Some i => i_ref i | None => 0 end) /\ forall p i, I !! p = Some i -> i_lock i = false.

Lemma holders_nonneg p l : 0 <= count p l <= Z.of_nat (length l).
Proof using Type. unfold count. pose proof (length_filter (fun q => q = p) l). lia. Qed.
Lemma count_cons p q l : count p (q :: l) = (if decide (q = p) then 1 else 0) + count p l.
Proof using Type. unfold count. rewrite filter_cons. case_decide; cbn [length]; lia. Qed.
Lemma count_app p l l' : count p (l ++ l') = count p l + count p l'.
Proof using Type. unfold count. rewrite filter_app, length_app. lia. Qed.
Lemma count_delete p k l q : l !! k = Some q -> count p (delete k l) = count p l - (if decide (q = p) then 1 else 0).
Proof using Type.
  intros Hk. rewrite delete_take_drop. rewrite <- (take_drop_middle l k q Hk) at 3. rewrite !count_app, count_cons. lia.
Qed.

Lemma refs_got D m I H K n p : cache_ok sb m I -> refs_exact I H K -> place m I n p -> refs_exact (got D m I n p).2 (p :: H) K.
Proof using Type.
  intros Hc [Hr Hl] Hp. assert (Hcur : i_ref (cur D m I n) = (match I !! p with Some i => i_ref i | None => 0 end) /\ i_lock (cur D m I n) = false).
  { destruct Hp as [Hm|[Hm Hi]]; [|rewrite (cur_disk D m I n Hm), Hi; done]. destruct (co_cached _ _ _ Hc _ _ Hm) as (i & Hi & _).
    rewrite (cur_cached D m I n p i Hm Hi), Hi. split; [done|by eapply Hl]. }
  destruct Hcur as [Hcr Hcl]. split; intros q; unfold got; cbn [snd].
  - rewrite count_cons, lookup_insert. specialize (Hr q). case_decide; [subst q|]; cbn [i_ref set_ref]; lia.
  - intros i. rewrite lookup_insert. case_decide; [by intros [= <-]|by apply Hl].
Qed.

Lemma refs_released m I H K k p i m' I' K' : cache_ok sb m I -> refs_exact I H K -> H !! k = Some p -> I !! p = Some i -> released m I K p i = (m', I', K') ->
  refs_exact I' (delete k H) K'.
Proof using Type.
  intros Hc [Hr Hl] Hk Hi. unfold released. pose proof (Hr p) as Hp. rewrite Hi in Hp.
  destruct (Z.eqb_spec (i_ref i) 1) as [E1|E1]; [destruct ((i_nlink i =? 0) || i_dirty i)|]; intros [= <- <- <-]; split; try done; intros q; rewrite ?(count_delete _ _ _ _ Hk); specialize (Hr q).
  - rewrite count_app, count_cons. change (count q []) with 0. lia.
  - rewrite lookup_delete. case_decide; [subst q|]; lia.
  - intros j [_ Hj]%lookup_delete_Some. by eapply Hl.
  - rewrite lookup_insert. case_decide; [subst q|]; cbn [i_ref set_ref]; lia.
  - intros j. rewrite lookup_insert. case_decide; [intros [= <-]; by apply (Hl p i)|apply Hl].
Qed.

End refs.
