(* ===== verification/FsFiles.v ===== *)
(** * The file layer: open files

    Opening a path that names a file gives a file on the inode the path
    resolves to, with one reference more on it; closing gives both back. *)

From stdpp Require Import prelude list gmap.
From Stdlib Require Import ZArith Lia.
From S2P Require Import Prelude DList ObjAlloc RadixTree RadixTreeSpec Blocks Sfs SfsDir SfsBits SfsAlloc SfsInode SfsData SfsBytes SfsDirSpec SfsClaims SfsDirClaims Fs FsOps FsObjs FsSpec FsPath.

Section files.
Context (sb : sfs_sb_info) (Hly : layout sb).
Context {B R O : Type} `{!Blocks B, !ObjAlloc R, !ObjAlloc O}.
Context (ic sc fc szm szf stdin stdout : Z) (statics : gset Z).
Context (other_read : file_operations -> Z -> Z -> M (vfs B R O) (Z * list Z)) (other_close : Z -> M (vfs B R O) unit).
Context (D : Z -> list Z) (U : list (Z * Z)).
Implicit Types (s : vfs B R O) (m : gmap Z Z) (I : gmap Z inode) (K : list Z) (own : gmap Z (Z * Z)) (A : gmap Z (list Z)) (G : gset Z) (F : gmap Z file) (J : gset Z) (rv : nat * nat).
Abbreviation vrep := (vrep ic sc fc statics D U).
Abbreviation cur := (cur D).
Abbreviation got := (got D).

(** ** Steps *)

Lemma wp_txn_begin {rv} F lk m I K s (Q : unit -> vfs B R O -> Prop) : vrep ∅ F rv lk m I K s -> (forall s', vrep ∅ F rv lk m I K s' -> Q tt s') -> wp journal_begin_txn Q s.
Proof using Type.
  intros [R1 R2 R3 (D' & ED & R4) R5 R6 (C & ow & [H1 H2 H3 H4 H5 H6 H7])] HQ. unfold journal_begin_txn, on_sfs, on_blk. wp_step. wp_step.
  eapply wp_mono; [by eapply txn_begin_spec|]. intros [] be' Rb. apply HQ. split; try done; [by exists D'|]. exists C, ow. by split.
Qed.

Lemma wp_txn_end {rv} J F lk m I K s (Q : unit -> vfs B R O -> Prop) : vrep J F rv lk m I K s -> (forall s', vrep ∅ F rv lk m I K s' -> Q tt s') -> wp journal_end_txn Q s.
Proof using Type.
  intros [R1 R2 R3 (D' & ED & R4) R5 R6 (C & ow & [H1 H2 H3 H4 H5 H6 H7])] HQ. unfold journal_end_txn, on_sfs, on_blk. wp_step. wp_step.
  eapply wp_mono; [by eapply txn_end_spec|]. intros [] be' Rb. apply HQ. split; try done; [by exists D'|]. exists C, ow. by split.
Qed.

Lemma wp_vr_file {rv} J F lk m I K s f x (Q : file -> vfs B R O -> Prop) : vrep J F rv lk m I K s -> F !! f = Some x -> Q x s -> wp (get_file f) Q s.
Proof using Type. intros V Hf HQ. unfold get_file. wp_step. wp_step. rewrite (vr_files _ _ _ _ _ _ _ _ _ _ _ _ _ _ V), Hf. wp_step; done. Qed.

Lemma wp_vr_upd_file {rv} J F lk m I K s f x g (Q : unit -> vfs B R O -> Prop) : vrep J F rv lk m I K s -> F !! f = Some x ->
  (forall s', vrep J (<[f := g x]> F) rv lk m I K s' -> Q tt s') -> wp (upd_file f g) Q s.
Proof using Type.
  intros V Hf HQ. unfold upd_file. wp_step. eapply wp_vr_file; [exact V|exact Hf|]. wp_step. destruct V as [R1 R2 R3 R4 R5 R6 (C & ow & [H1 H2 H3 H4 H5 H6 H7])].
  apply HQ. split; try done; [cbn; by rewrite R5|]. exists C, ow. split; try done. cbn. rewrite R5. intros q Hq. apply H7. rewrite R5.
  destruct (decide (q = f)) as [->|]; [by eexists|]. by rewrite lookup_insert_ne in Hq.
Qed.

Lemma wp_vr_free_file {rv} J F lk m I K s f (Q : unit -> vfs B R O -> Prop) : vrep J F rv lk m I K s -> is_Some (F !! f) -> f ∉ statics ->
  (forall s', vrep J (delete f F) rv lk m I K s' -> Q tt s') -> wp (fs_free_file fc f) Q s.
Proof using Type.
  intros [R1 R2 R3 R4 R5 R6 (C & ow & [H1 H2 H3 H4 H5 H6 H7])] Hf Hns HQ. unfold fs_free_file. wp_step. wp_step. rewrite <- R5 in Hf. destruct (H7 f Hf) as [|Ho]; [done|].
  eapply (wp_give C ow); [exact H1|exact Ho|]. intros o Ho'. apply HQ. split; try done; [cbn; by rewrite R5|].
  assert (Hkeep : forall k q r, r <> 4 -> ow !! k = Some (q, r) -> delete (fc, f) ow !! k = Some (q, r)).
  { intros k q r Hr Hk. rewrite lookup_delete_ne; [done|]. intros <-. congruence. }
  exists C, (delete (fc, f) ow). split; try done.
  - intros p Hp. destruct (H6 p Hp) as (Hpn & st & x & y & P1 & P2 & P3 & P4 & P5 & P6 & P7 & P8). split; [done|]. exists st, x, y. split_and!; try done; by apply Hkeep.
  - cbn. intros q [Hne Hq]%lookup_delete_is_Some. rewrite lookup_delete_ne by congruence. by apply H7.
Qed.

(** Objects of the allocator are not the static files. *)
Definition oa_avoids : Prop := forall (o : O) L c X, oa_live o L -> L !! c = Some X -> wp (oa_alloc c) (fun p _ => p ∉ statics) o.

Context (Hszr : oa_size_ok (St := R) SIZEOF_RADIX_NODE) (Hav : oa_avoids).
Context (Hszm : oa_size_ok (St := O) szm) (Hszf : oa_size_ok (St := O) szf).

Lemma wp_vr_alloc_file {rv} J F lk m I K s (Q : Z -> vfs B R O -> Prop) : vrep J F (rv.1, S rv.2) lk m I K s ->
  (forall f s', f <> NULL -> f ∉ statics -> F !! f = None -> vrep J (<[f := mkFile 1 0 NULL 0 false None]> F) rv lk m I K s' -> Q f s') -> wp (fs_alloc_file fc) Q s.
Proof using Hav.
  clear Hszr Hszm Hszf. intros [R1 R2 R3 R4 R5 R6 (C & ow & [H1 H2 H3 H4 H5 H6 H7])] HQ. unfold fs_alloc_file. wp_step.
  assert (Hns : wp (on_vobjs (oa_alloc fc)) (fun p _ => p ∉ statics) s).
  { destruct H1 as (L & [HL _] & HC & _). assert (fc ∈ dom L) as [X HX]%elem_of_dom by (clear -H2 HC; set_solver). unfold on_vobjs. wp_step. by eapply Hav. }
  eapply (wp_also _ _ _ _ Hns). eapply (wp_take C ow _ _ (fun f => (f, 4))); [exact H1|clear -H2; set_solver|]. intros f o Hf Hn Ho Hfs. rewrite (proj2 (Z.eqb_neq f NULL) Hf). cbn [negb]. wp_step. wp_step.
  wp_step. pose proof (insert_subseteq _ _ (f, 4) Hn) as Hsub.
  assert (HF : F !! f = None). { destruct (F !! f) eqn:E; [|done]. destruct (H7 f) as [|H7f]; [rewrite R5; by eexists|done|congruence]. }
  apply HQ; [done|done|done|]. split; try done; [cbn; by rewrite R5|]. exists C, (<[(fc, f) := (f, 4)]> ow). split; try done.
  - intros p Hp. destruct (H6 p Hp) as (Hpn & Hpt). split; [done|]. by eapply (parts_more ic sc ow _ s).
  - cbn. intros q Hq. destruct (decide (q = f)) as [->|Hne]; [right; by apply lookup_insert_eq|]. rewrite (lookup_insert_ne ow) by congruence. apply H7. by rewrite lookup_insert_ne in Hq.
Qed.

(** ** Opening *)

Lemma elements_nonempty path : Forall (fun e => e <> []) (elements path).
Proof using Type.
  clear. unfold elements. apply Forall_map, Forall_forall. intros e [He _]%list_elem_of_filter. by destruct e.
Qed.

Lemma namei_name (t : dirs) n es : Forall (fun e => e <> []) es -> es <> [] -> (namei t n es).1.1 = ERR_OK -> (namei t n es).2 <> [].
Proof using Type.
  clear. revert n. induction es as [|e es IH]; intros n H Hne; [done|]. inversion_clear H as [|? ? He Hes]. cbn [namei]. destruct (t n) as [f|]; [|done].
  destruct es as [|e2 es]; [done|]. destruct (f e =? 0); [done|]. by apply IH.
Qed.

Section open.
Context (G : gset Z) (A : gmap Z (list Z)) (own : gmap Z (Z * Z)) (m : gmap Z Z) (I : gmap Z inode) (K : list Z) (F : gmap Z file).
Hypothesis HT : tree_ok sb D G A own m I.
Abbreviation t := (tree D m I).

(** What fs_open_file leaves: a new file on the inode, taken once. *)
Definition opened rv (flags : Z) (r v : Z * Z) s : Prop :=
  v.1 = r.1 /\ (r.1 = ERR_OK -> v.2 <> NULL /\ (v.2 ∉ statics) /\ F !! v.2 = None /\ exists c, r.2 ∈ G /\ c <> NULL /\ place m I r.2 c /\
    vrep ∅ (<[v.2 := mkFile 1 (Z.land flags (Z.lnot FS_CREAT)) c 0 false (Some SfsOps)]> F) rv false (got m I r.2 c).1 (got m I r.2 c).2 K s) /\
  (r.1 <> ERR_OK -> v.2 = NULL /\ vrep ∅ F rv false m I K s).

(** The leaf is found with the parent locked. *)
Lemma wp_open_leaf k n c name flags mode s (Q : Z * Z -> vfs B R O -> Prop) : n ∈ G -> c <> NULL -> place m I n c -> i_ftype (cur m I n) = FTYPE_DIR ->
  vrep ∅ F (enough (S k)) false (got m I n c).1 (got m I n c).2 K s -> Z.land flags FS_CREAT = 0 \/ dir_lookup D (cur m I n) name <> 0 ->
  (dir_lookup D (cur m I n) name = 0 -> forall s', vrep ∅ F (enough k) false (<[n := c]> m) (<[c := set_ilock true (held D m I n)]> I) K s' -> Q (ERR_NOTEXIST, NULL) s') ->
  (forall n' c' s', dir_lookup D (cur m I n) name = n' -> n' <> 0 -> n' ∈ G -> n' <> n -> c' <> NULL -> c' <> c -> place m I n' c' ->
     vrep ∅ F (enough k) false (got (got m I n' c').1 (got m I n' c').2 n c).1 (got (got m I n' c').1 (got m I n' c').2 n c).2 K s' -> Q (ERR_OK, c') s') ->
  wp (open_leaf sb ic sc szm szf c flags mode name) Q s.
Proof using Hly Hszr Hszm Hszf HT.
  intros Hn Hcn Hp Ed V Hfl HQ0 HQ. destruct (to_file _ _ _ _ _ _ _ HT n Hn) as (Hin & HA & Hl & Hr & Hk). pose proof (to_cache _ _ _ _ _ _ _ HT) as Hc.
  destruct (to_dir _ _ _ _ _ _ _ HT n Hn Ed) as [Hdir Hch].
  unfold open_leaf. wp_step. eapply wp_lock_inode; [exact V|apply lookup_insert_eq|exact Hl|]. intros s1 V1. unfold got in V1. cbn [fst snd] in V1.
  rewrite insert_insert_eq in V1. fold (held D m I n) in V1. wp_step.
  eapply (wp_vr_sfs_lookup sb Hly ic sc fc szm szf statics D U ∅ F Hszr Hszm Hszf _ _ _ _ c (set_ilock true (held D m I n)));
    [exact V1|by eapply locked_cache|apply lookup_insert_eq|apply HT| |exact Hdir| |].
  - change (i_inum (set_ilock true (held D m I n))) with (i_inum (cur m I n)). rewrite (cur_inum sb D m I n Hc). exact HA.
  - intros E0 s2 V2. cbn [fst]. cbn [negb Z.eqb ERR_NOTEXIST ERR_OK]. change (dir_lookup D (set_ilock true (held D m I n)) name) with (dir_lookup D (cur m I n) name) in E0.
    destruct Hfl as [->|]; [|done]. cbn. wp_step. by apply HQ0.
  - intros n' E Hn0. change (dir_lookup D (set_ilock true (held D m I n)) name) with (dir_lookup D (cur m I n) name) in E. subst n'.
    destruct (Hch name Hn0) as [Hn' Hne]. set (n' := dir_lookup D (cur m I n) name) in *. destruct (to_file _ _ _ _ _ _ _ HT n' Hn') as (Hin' & _ & Hl' & Hr' & _).
    rewrite (cur_other sb) by done. split; [done|]. split; [done|]. split; [done|]. intros c' s2 Hcn' Hp' V2. cbn [fst snd]. rewrite Z.eqb_refl. cbn [negb].
    wp_step. wp_step; [by apply nonnull_true|]. wp_step. destruct (next_place sb D G A own m I HT n c n' c' _ Hne Hp Hp') as [Hce Hpm].
    eapply (wp_unlock_first sb ic sc fc statics D U ∅ F G A own m I K HT n c n' c'); [done..|exact V2|]. intros s3 V3. wp_step. by eapply (HQ n').
Qed.

Lemma wp_fs_open k cwd path flags mode s : vrep ∅ F (enough (walk_cost path + 2 + k)) false m I K s -> (cwd = NULL \/ is_Some (I !! cwd)) -> start D I cwd path ∈ G -> elements path <> [] ->
  validate_flag flags = true -> Z.land flags FS_CREAT = 0 \/ (resolve t (start D I cwd path) (elements path)).1 <> ERR_NOTEXIST ->
  wp (fs_open_file sb ic sc fc szm szf cwd path flags mode) (fun v s' => opened (enough k) flags (resolve t (start D I cwd path) (elements path)) v s') s.
Proof using Hly Hszr Hav Hszm Hszf HT.
  intros V Hcwd Hs Hel Hval Hfl. unfold fs_open_file. rewrite Hval. cbn [negb]. wp_step.
  eapply wp_mono; [by apply (wp_fs_find_parent sb Hly ic sc fc szm szf statics D U ∅ F Hszr Hszm Hszf G A own m I K HT (2 + k)); [rewrite Nat.add_assoc|..]|].
  pose proof (namei_dir D m I (start D I cwd path) (elements path)) as Hd. pose proof (namei_name t (start D I cwd path) (elements path) (elements_nonempty path) Hel) as Hnm.
  unfold resolve in Hfl |- *. destruct (namei t (start D I cwd path) (elements path)) as [[err n] e]. cbn [fst snd] in Hd, Hnm.
  intros [[err' dir] name] s1 (-> & Hok & Hno). destruct (Z.eqb_spec err ERR_OK) as [->|He]; cbn [negb] in Hfl |- *; [|wp_step; split; [done|]; split; [done|]; split; [done|]; apply (vrep_less _ _ _ _ _ _ _ _ (2 + k)); [lia|]; by apply Hno].
  destruct (Hok eq_refl) as (-> & Hn & Hdn & Hp & V1). specialize (Hd eq_refl). specialize (Hnm eq_refl). destruct e as [|x e]; [done|].
  set (nm := x :: e) in *. clearbody nm. wp_step. eapply wp_txn_begin; [exact V1|]. intros s2 V2. wp_step.
  unfold tree in Hd, Hfl |- *. destruct (Z.eqb_spec (i_ftype (cur m I n)) FTYPE_DIR) as [Ed|]; [|done].
  destruct (to_file _ _ _ _ _ _ _ HT n Hn) as (Hin & HA & Hl & Hr & Hk). pose proof (to_cache _ _ _ _ _ _ _ HT) as Hc.
  eapply (wp_open_leaf (S k) n dir nm); [done|done|done|exact Ed|exact V2| | |].
  - destruct Hfl as [?|Hfl]; [by left|right]. intros E0. by rewrite E0 in Hfl.
  - intros E0 s3 V3. rewrite E0. cbn [fst snd]. change (negb (ERR_NOTEXIST =? ERR_OK)) with true. cbn match. wp_step.
    eapply wp_unlock_inode; [exact V3|apply lookup_insert_eq|]. intros s4 V4. rewrite insert_insert_eq in V4.
    rewrite unlock_held in V4 by done.
    wp_step. eapply wp_txn_end; [exact V4|]. intros s5 V5. wp_step.
    eapply (wp_drop sb Hly ic sc fc statics D U ∅ F Hszr m I K s5 n dir); [exact V5|done..|]. intros s6 V6. wp_step. split; [done|]. split; [done|]. intros _. split; [done|]. by apply (vrep_less _ _ _ _ _ _ _ _ (S k)); [lia|].
  - intros n' c' s3 E Hn0 Hn' Hne Hcn Hce Hpm V3. rewrite E, (proj2 (Z.eqb_neq n' 0) Hn0). cbn [fst snd]. rewrite Z.eqb_refl. cbn [negb]. wp_step.
    eapply (vrep_le _ _ _ _ _ _ _ _ _ ((20 * k)%nat, S (6 * k))) in V3; [|cbn; lia..]. eapply (wp_vr_alloc_file (rv := enough k)); [exact V3|]. intros f s4 Hf Hfs HF V4. rewrite (proj2 (Z.eqb_neq f NULL) Hf). wp_step.
    eapply wp_vr_upd_file; [exact V4|apply lookup_insert_eq|]. intros s5 V5. rewrite insert_insert_eq in V5. wp_step. eapply wp_txn_end; [exact V5|]. intros s6 V6. wp_step.
    eapply (wp_drop_first sb Hly ic sc fc statics D U ∅ _ Hszr G A own m I K HT n dir n' c'); [done..|exact V6|]. intros s7 V7. wp_step.
    split; [done|]. split; [|done]. intros _. split; [done|]. split; [done|]. split; [done|]. exists c'. by split_and!.
Qed.

(** ** Closing *)

(** The last close of a file on an inode just taken. *)
Lemma wp_close {rv} f x n c s J F' (Q : unit -> vfs B R O -> Prop) : vrep J F' rv false (got m I n c).1 (got m I n c).2 K s -> F' !! f = Some x ->
  f_ref x = 1 -> f_lock x = false -> f_inode x = c -> f_ops x = Some SfsOps -> f <> stdin -> f <> stdout -> f ∉ statics -> n ∈ G -> c <> NULL -> place m I n c ->
  (forall s', vrep J (delete f F') rv false m I K s' -> Q tt s') -> wp (fs_close_file ic sc fc stdin stdout other_close f) Q s.
Proof using Hly Hszr HT.
  intros V Hf Hr1 Hl1 Hi1 Ho1 Hne1 Hne2 Hns Hn Hcn Hp HQ. destruct (to_file _ _ _ _ _ _ _ HT n Hn) as (Hin & HA & Hl & Hr & Hk). pose proof (to_cache _ _ _ _ _ _ _ HT) as Hc.
  unfold fs_close_file, lock_file, unlock_file. wp_step. wp_step. eapply wp_vr_file; [exact V|exact Hf|]. rewrite Hl1. eapply wp_vr_upd_file; [exact V|exact Hf|].
  intros s1 V1. wp_step. eapply wp_vr_upd_file; [exact V1|apply lookup_insert_eq|]. intros s2 V2. rewrite insert_insert_eq in V2. wp_step.
  eapply wp_vr_file; [exact V2|apply lookup_insert_eq|]. cbn [f_ref set_fref set_flock]. rewrite Hr1, (proj2 (Z.eqb_neq f stdin)), (proj2 (Z.eqb_neq f stdout)) by done.
  change (0 <? i32 (1 - 1)) with false. cbn [orb]. wp_step. eapply wp_vr_upd_file; [exact V2|apply lookup_insert_eq|]. intros s3 V3. rewrite insert_insert_eq in V3.
  cbn [f_inode f_ops set_fref set_flock]. rewrite Hi1, Ho1, (nonnull_true c Hcn). wp_step.
  eapply (wp_drop sb Hly ic sc fc statics D U J _ Hszr m I K s3 n c); [exact V3|done..|]. intros s4 V4. wp_step. wp_step; [done|]. cbn match. wp_step. wp_step.
  eapply wp_vr_free_file; [exact V4|rewrite lookup_insert_eq; by eexists|done|]. intros s5 V5. rewrite delete_insert_eq in V5. by apply HQ.
Qed.

(** ** Reading *)

Definition file_ok (i : inode) : Prop := 0 <= i_size i <= SFS_MAX_FILE_SIZE /\ forall k, 0 <= k < i_size i -> fblk D (i_addrs i) (k / 512) <> 0.

Lemma wp_vr_read_data {rv} J F' m1 I1 s p i count ofs (Q : list Z -> vfs B R O -> Prop) : vrep J F' rv false m1 I1 K s -> I1 !! p = Some i -> is_inum sb (i_inum i) ->
  A !! i_inum i = Some (i_addrs i) -> file_ok i -> 0 <= ofs -> 0 <= count ->
  (forall s', vrep J F' rv false m1 I1 K s' -> Q (take (Z.to_nat count) (drop (Z.to_nat ofs) (contents D i))) s') -> wp (on_sfs (read_data sb p count ofs)) Q s.
Proof using Hly HT.
  clear Hszr Hav Hszm Hszf. intros [R1 R2 R3 (D1 & ED & R4) R5 R6 (C & ow & [H1 H2 H3 H4 H5 H6 H7])] Hp Hn HA [Hs Hde] Ho Hcnt HQ.
  destruct s as [[I0 be] r lk0 o mc fmc st pa fi kk]. cbn in R3. subst I0. unfold on_sfs. wp_step. pose proof (to_blocks _ _ _ _ _ _ _ HT) as HF.
  rewrite <- (insert_id A _ _ HA) in HF. cbn [sf_blk vf_sfs] in R4.
  assert (HF1 : fsok sb D1 (<[i_inum i := i_addrs i]> A) own) by (by eapply fsok_same).
  assert (Hbl : forall j, 0 <= j < NBLKS -> fblk D1 (i_addrs i) j = fblk D (i_addrs i) j) by (intros j Hj; by apply fblk_same).
  eapply wp_mono; [apply (wp_read_data sb Hly A (i_inum i) Hn true I1 be D1 U J own p i count ofs); try done; [lia|by left]|].
  intros out s' (be' & D' & -> & R' & HD & Hr). destruct (did_read_contents D1 i count ofs out Ho Hcnt ltac:(lia) Hr) as [_ Hall].
  assert (Ec : contents D1 i = contents D i).
  { unfold contents. apply map_ext_in. intros k Hk%list_elem_of_In%elem_of_seqZ. unfold fbyte. destruct (ofs_index k ltac:(lia)) as (Hj & _). by rewrite Hbl, ED by done. }
  rewrite Ec in Hall. rewrite Hall.
  2:{ intros k Hk. destruct (ofs_index k ltac:(lia)) as (Hj & _). rewrite Hbl by done. by apply Hde. }
  apply HQ. split; try done; [exists D'; split; [intros b; by rewrite HD, ED|done]|]. exists C, ow. by split.
Qed.
End open.
End files.
