(* ===== verification/FsClaims.v ===== *)
(** * Claims about the file layer

    Reference counts of in-memory inodes, path names, open files; runs on a small
    disk, and paths through the code that stop the kernel. *)

From stdpp Require Import prelude list gmap.
From Stdlib Require Import ZArith Lia.
From S2P Require Import Prelude DList ObjAlloc Pmem PmemBuddy Kmalloc KmallocInv KmallocSpec KmallocClaims RadixTree RadixTreeSpec RadixTreeClaims Blocks Sfs SfsDir SfsBits SfsAlloc SfsInode SfsData SfsBytes.
From S2P Require Import SfsDirSpec SfsClaims SfsDirClaims Fs FsOps FsObjs FsSpec FsPath FsFiles.

(** ** Sequences of gets and releases *)

(** A caller takes inodes by number and releases those it holds; the list has
    the inodes it holds. *)
Inductive ireq := IGet (n : Z) | IPut (k : nat).

(** How many inodes a sequence takes. *)
Fixpoint igets (rs : list ireq) : nat :=
  match rs with [] => 0%nat | IGet _ :: rs => S (igets rs) | IPut _ :: rs => igets rs end.

Section claims.
Context (sb : sfs_sb_info) (Hly : layout sb).
Context {B R O : Type} `{!Blocks B, !ObjAlloc R, !ObjAlloc O}.
Context (ic sc fc szm szf stdin stdout : Z) (statics : gset Z).
Context (other_read : file_operations -> Z -> Z -> M (vfs B R O) (Z * list Z)) (other_close : Z -> M (vfs B R O) unit).
Context (Hszr : oa_size_ok (St := R) SIZEOF_RADIX_NODE).
Context (Hszm : oa_size_ok (St := O) szm) (Hszf : oa_size_ok (St := O) szf).
Implicit Types (s : vfs B R O) (m : gmap Z Z) (I : gmap Z inode) (K H : list Z) (own : gmap Z (Z * Z)) (A : gmap Z (list Z)) (G : gset Z) (F : gmap Z file) (J : gset Z)
  (D : Z -> list Z) (U : list (Z * Z)) (rv : nat * nat).

Fixpoint irun (rs : list ireq) H : M (vfs B R O) (list Z) :=
  match rs with
  | [] => ret H
  | IGet n :: rs =>
      r <- fs_get_inode ic sc szm szf n;;
      irun rs (if fst r =? ERR_OK then snd r :: H else H)
  | IPut k :: rs =>
      match H !! k with
      | Some p => fs_release_inode ic sc p;; irun rs (delete k H)
      | None => irun rs H
      end
  end.

(** C8 For every sequence of fs_get_inode and fs_release_inode in which a
    caller releases what it holds, while the allocators have in reserve what
    the inodes got take ([enough (igets rs + r)]: 20 requests for the tree
    and 6 for objects each) and the blocks of the disk can be fetched (both
    in [vrep]): no assertion fails, the inode cache stays well formed (one
    loaded inode per number, each under its number) and the reference count
    of every inode is the number of its holders, the cleanup list counted:
    an inode is in memory exactly while it is referenced. Without memory
    fs_get_inode fails a kassert ([get_nomem_kassert]). *)
Theorem fs_refcounts_exact D U J F r rs m I K H s : vrep ic sc fc statics D U J F (enough (igets rs + r)) false m I K s -> cache_ok sb m I -> refs_exact I H K ->
  Forall (fun r => match r with IGet n => is_inum sb n | IPut _ => True end) rs -> Z.of_nat (length H + length K + length rs) < 2 ^ 32 ->
  wp (irun rs H) (fun H' s' => exists m' I' K', vrep ic sc fc statics D U J F (enough r) false m' I' K' s' /\ cache_ok sb m' I' /\ refs_exact I' H' K') s.
Proof using Hly Hszr Hszm Hszf.
  intros V Hc Hx Hrs Hlen. revert m I K H s V Hc Hx Hlen. induction Hrs as [|[n|k] rs Hn _ IH]; intros m I K H s V Hc Hx Hlen; cbn [irun length] in *.
  - wp_step. by exists m, I, K.
  - assert (Hcur : i_lock (cur D m I n) = false /\ i_ref (cur D m I n) + 1 < 2 ^ 32).
    { destruct (m !! n) as [p|] eqn:Hm; [|by rewrite (cur_disk D m I n Hm)]. destruct (co_cached _ _ _ Hc _ _ Hm) as (i & Hi & _).
      rewrite (cur_cached D m I n p i Hm Hi). destruct Hx as [Hx Hl]. specialize (Hx p). rewrite Hi in Hx.
      pose proof (holders_nonneg p H). pose proof (holders_nonneg p K). split; [by eapply Hl|lia]. }
    destruct Hcur as [Hl Hb]. wp_step. eapply (wp_vr_fs_get sb Hly ic sc fc szm szf statics D U J F); [done..|exact V|done|done|done|done|]. intros p s1 Hpn Hp V1.
    cbn [fst snd]. rewrite Z.eqb_refl. eapply IH; [exact V1|by apply got_cache|by apply (refs_got sb)|cbn [length]; lia].
  - destruct (H !! k) as [p|] eqn:Hk; [|eapply IH; [exact V|done|done|lia]].
    assert (Hin : is_Some (I !! p)).
    { destruct Hx as [Hx _]. specialize (Hx p). destruct (I !! p); [done|]. pose proof (holders_nonneg p K). pose proof (holders_nonneg p (delete k H)).
      pose proof (count_delete p k H p Hk). rewrite decide_True in * by done. lia. }
    destruct Hin as [i Hi]. wp_step. eapply (wp_vr_release sb Hly); [exact Hszr|exact V|done|exact Hi|by eapply (proj2 Hx)|].
    intros s1 m' I' K' Er V1. eapply IH; [exact V1|by eapply released_cache|by eapply (refs_released sb)|].
    assert (length (delete k H) = (length H - 1)%nat) by (apply length_delete; by eexists). apply lookup_lt_Some in Hk.
    assert (length K' <= S (length K))%nat by (unfold released in Er; repeat case_match; injection Er as _ _ <-; rewrite ?length_app; cbn [length]; lia). lia.
Qed.

(** Fs_get_inode returns the one in-memory inode with the number, with one
    reference more: the cached one as it is, otherwise a new one with the fields
    of the inode on disk.  No other inode changes. *)
Theorem fs_get_inode_spec D U J F k m I K s n : vrep ic sc fc statics D U J F (enough (S k)) false m I K s -> cache_ok sb m I -> is_inum sb n ->
  i_lock (cur D m I n) = false -> i_ref (cur D m I n) + 1 < 2 ^ 32 ->
  wp (fs_get_inode ic sc szm szf n) (fun '(err, p) s' => err = ERR_OK /\ p <> NULL /\ (m !! n = Some p \/ m !! n = None /\ I !! p = None) /\
    vrep ic sc fc statics D U J F (enough k) false (<[n := p]> m) (<[p := set_ref (i_ref (cur D m I n) + 1) (cur D m I n)]> I) K s' /\
    cache_ok sb (<[n := p]> m) (<[p := set_ref (i_ref (cur D m I n) + 1) (cur D m I n)]> I)) s.
Proof using Hly Hszr Hszm Hszf.
  intros V Hc Hn Hl Hb. eapply (wp_vr_fs_get sb Hly ic sc fc szm szf statics D U J F); [done..|exact V|done|done|done|done|].
  intros p s' Hp Hpl V'. split; [done|]. split; [done|]. split; [done|]. split; [done|]. by apply (got_cache sb D m I n p).
Qed.

(** Fs_release_inode drops one reference.  The last one removes the inode
    from the cache and frees it with its parts; an inode that is dirty or has no
    links stays, referenced, on the cleanup list. *)
Theorem fs_release_inode_spec D U J F rv m I K s p i : vrep ic sc fc statics D U J F rv false m I K s -> cache_ok sb m I -> I !! p = Some i -> i_lock i = false ->
  wp (fs_release_inode ic sc p) (fun _ s' =>
    if i_ref i =? 1 then
      if (i_nlink i =? 0) || i_dirty i then vrep ic sc fc statics D U J F rv false m I (K ++ [p]) s'
      else vrep ic sc fc statics D U J F rv false (delete (i_inum i) m) (delete p I) K s' /\ cache_ok sb (delete (i_inum i) m) (delete p I)
    else vrep ic sc fc statics D U J F rv false m (<[p := set_ref (i_ref i - 1) i]> I) K s' /\ cache_ok sb m (<[p := set_ref (i_ref i - 1) i]> I)) s.
Proof using Hly Hszr.
  intros V Hc Hp Hl. eapply (wp_vr_release sb Hly); [exact Hszr|exact V|done|exact Hp|done|]. intros s' m' I' K' Er V'.
  pose proof (released_cache sb _ _ K _ _ _ _ _ Hc Hp Er) as Hc'. unfold released in Er. repeat case_match; by injection Er as <- <- <-.
Qed.

Section paths.
Context (D : Z -> list Z) (U : list (Z * Z)) (G : gset Z) (A : gmap Z (list Z)) (own : gmap Z (Z * Z)) (m : gmap Z Z) (I : gmap Z inode) (K : list Z) (F : gmap Z file).

(** C6 Path lookup refines a walk in the tree of directories, while the
    allocators have in reserve what the inodes on the path take ([enough
    (walk_cost path + k)]) and the blocks of the disk can be fetched (both
    in [vrep]), in a tree of directories without holes ([tree_ok]):
    fs_find_parent_inode returns the directory of the last element and that
    element, ERR_NOTEXIST or ERR_FTYPE exactly where the walk does. The
    directory has one reference more, every inode met on the way is as
    before: no reference leaks, on errors either. ERR_NOMEM, for when memory
    is short, does not occur then. *)
Theorem fs_find_parent_inode_spec J k s cwd path : vrep ic sc fc statics D U J F (enough (walk_cost path + k)) false m I K s -> tree_ok sb D G A own m I ->
  (cwd = NULL \/ is_Some (I !! cwd)) -> start D I cwd path ∈ G ->
  wp (fs_find_parent_inode sb ic sc szm szf cwd path) (fun '(err, dir, name) s' =>
    let '(err0, n, name0) := namei (tree D m I) (start D I cwd path) (elements path) in
    err = err0 /\ (err = ERR_OK -> name = name0 /\ dir <> NULL /\ place m I n dir /\ vrep ic sc fc statics D U J F (enough k) false (got D m I n dir).1 (got D m I n dir).2 K s') /\
    (err <> ERR_OK -> vrep ic sc fc statics D U J F (enough k) false m I K s')) s.
Proof using Hly Hszr Hszm Hszf.
  intros V HT Hcwd Hs. eapply wp_mono; [by apply (wp_fs_find_parent sb Hly ic sc fc szm szf statics D U J F Hszr Hszm Hszf G A own m I K HT k)|].
  intros [[err dir] name] s'. unfold walked. destruct (namei _ _ _) as [[err0 n] e]. intros (-> & Hok & Hno). split; [done|]. split; [|done].
  intros E. destruct (Hok E) as (? & ? & ? & ? & ?). by split_and!.
Qed.

(** C20 While the allocators have in reserve what the inodes on the path
    take and the blocks of the disk can be fetched, fs_find_inode returns
    the inode the path resolves to in the tree of directories, with one
    reference more, or the walk's error. The reserve is a condition on the
    state, which kmalloc.c meets with enough free pages: the witness runs on
    it. *)
Theorem fs_find_inode_spec J k s cwd path : vrep ic sc fc statics D U J F (enough (walk_cost path + S k)) false m I K s -> tree_ok sb D G A own m I ->
  (cwd = NULL \/ is_Some (I !! cwd)) -> start D I cwd path ∈ G ->
  wp (fs_find_inode sb ic sc szm szf cwd path) (fun '(err, p) s' =>
    let '(err0, n) := resolve (tree D m I) (start D I cwd path) (elements path) in
    err = err0 /\ (err = ERR_OK -> p <> NULL /\ place m I n p /\ vrep ic sc fc statics D U J F (enough k) false (got D m I n p).1 (got D m I n p).2 K s') /\
    (err <> ERR_OK -> vrep ic sc fc statics D U J F (enough k) false m I K s')) s.
Proof using Hly Hszr Hszm Hszf.
  intros V HT Hcwd Hs. eapply wp_mono; [by apply (wp_fs_find_inode sb Hly ic sc fc szm szf statics D U J F Hszr Hszm Hszf G A own m I K HT k)|].
  intros [err p] s'. destruct (resolve _ _ _) as [err0 n]. intros (E & Hok & Hno). cbn [fst snd] in *. subst err0. split; [done|]. split; [|done].
  intros Ee. destruct (Hok Ee) as (? & ? & ? & ?). by split_and!.
Qed.

(** C7 Opening a path below the root without FS_CREAT for reading, reading
    and closing, in a tree whose files have no holes, while the allocators
    have memory in reserve for the path, an inode and a file and the blocks
    of the disk can be fetched: the bytes are those of the file the path
    resolves to, and afterwards inodes, open files and the cleanup list are
    as before; when the path does not resolve, fs_open_file reports the
    walk's error and leaves no reference. Opening the root leaves a dangling
    file ([open_root_dangling]). *)
Theorem fs_open_read_close k s cwd path flags mode cnt ofs : vrep ic sc fc statics D U ∅ F (enough (walk_cost path + 2 + k)) false m I K s -> tree_ok sb D G A own m I ->
  (cwd = NULL \/ is_Some (I !! cwd)) -> start D I cwd path ∈ G -> elements path <> [] ->
  validate_flag flags = true -> Z.land flags FS_CREAT = 0 -> Z.land flags (Z.lnot FS_CREAT) <> FS_WRONLY -> 0 <= ofs -> 0 <= cnt ->
  (forall n, n ∈ G -> file_ok D (cur D m I n)) -> oa_avoids (O := O) statics -> stdin = NULL \/ is_Some (F !! stdin) -> stdout = NULL \/ is_Some (F !! stdout) ->
  wp (r <- fs_open_file sb ic sc fc szm szf cwd path flags mode;;
      if fst r =? ERR_OK then
        v <- fs_read_file sb other_read (snd r) cnt ofs;;
        fs_close_file ic sc fc stdin stdout other_close (snd r);;
        ret (fst r, snd (fst v))
      else ret (fst r, []))
    (fun '(err, bytes) s' => let '(err0, n) := resolve (tree D m I) (start D I cwd path) (elements path) in
      err = err0 /\ bytes = (if err =? ERR_OK then take (Z.to_nat cnt) (drop (Z.to_nat ofs) (contents D (cur D m I n))) else []) /\
      vrep ic sc fc statics D U ∅ F (enough k) false m I K s') s.
Proof using Hly Hszr Hszm Hszf.
  intros V HT Hcwd Hs Hel Hval Hcr Hwr Ho Hcnt Hfiles Hav Hin Hout. wp_step.
  eapply wp_mono; [by apply (wp_fs_open sb Hly ic sc fc szm szf statics D U Hszr Hav Hszm Hszf G A own m I K F HT k); [..|left]|].
  intros [err f] s1 (E & Hok & Hno). destruct (resolve _ _ _) as [err0 n]. cbn [fst snd] in *. subst err0.
  destruct (Z.eqb_spec err ERR_OK) as [->|He].
  - destruct (Hok eq_refl) as (Hf & Hfs & HF & c & Hn & Hcn & Hp & V1). wp_step.
    destruct (to_file _ _ _ _ _ _ _ HT n Hn) as (Hi & HA & Hl & _). pose proof (to_cache _ _ _ _ _ _ _ HT) as Hc.
    unfold fs_read_file, sfs_read. wp_step. eapply wp_vr_file; [exact V1|apply lookup_insert_eq|]. cbn [oflag f_ops f_inode].
    rewrite (proj2 (Z.eqb_neq _ FS_WRONLY) Hwr). cbn [negb]. wp_step. wp_step; [done|]. cbn match. wp_step. wp_step.
    eapply wp_vr_file; [exact V1|apply lookup_insert_eq|]. cbn [f_inode]. wp_step.
    eapply wp_lock_inode; [exact V1|apply lookup_insert_eq|exact Hl|]. intros s2 V2. unfold got in V2. cbn [fst snd] in V2. rewrite insert_insert_eq in V2. fold (held D m I n) in V2. wp_step.
    eapply (wp_vr_read_data sb Hly ic sc fc statics D U G A own m I K HT ∅ _ _ _ s2 c); [exact V2|apply lookup_insert_eq| | |exact (Hfiles n Hn)|done|done|].
    { change (i_inum (set_ilock true (held D m I n))) with (i_inum (cur D m I n)). by rewrite (cur_inum sb D m I n Hc). }
    { change (i_inum (set_ilock true (held D m I n))) with (i_inum (cur D m I n)). by rewrite (cur_inum sb D m I n Hc). }
    intros s3 V3. wp_step. eapply wp_unlock_inode; [exact V3|apply lookup_insert_eq|]. intros s4 V4. rewrite insert_insert_eq in V4.
    rewrite unlock_held in V4 by done.
    wp_step. wp_step. wp_step. cbn [fst snd].
    eapply (wp_close sb Hly ic sc fc stdin stdout statics other_close D U Hszr G A own m I K HT f _ n c); [exact V4|apply lookup_insert_eq|done..| | |done|done|done|done|].
    { intros ->. destruct Hin as [?|[? ?]]; congruence. } { intros ->. destruct Hout as [?|[? ?]]; congruence. }
    intros s5 V5. rewrite delete_insert_id in V5 by done. wp_step. done.
  - destruct (Hno He) as [_ V1]. wp_step. split; [done|]. rewrite (proj2 (Z.eqb_neq err ERR_OK) He). by split.
Qed.
End paths.
End claims.

(** ** A small disk

    The root has a file a (inode 2, two bytes) and a directory d (inode 3), which
    has an empty file b (inode 4). *)

Definition tree_store : mstore := mkMs
  {[4 := enc_inode FTYPE_DIR 0 1 64 (10 :: replicate 13 0) ++ enc_inode FTYPE_FILE 0 1 2 (11 :: replicate 13 0) ++
         enc_inode FTYPE_DIR 0 1 32 (12 :: replicate 13 0) ++ enc_inode FTYPE_FILE 0 1 0 (replicate 14 0) ++ replicate 256 0;
    3 := 15 :: replicate 511 0;
    6 := 7 :: replicate 511 0;
    10 := new_dirent [97] 2 ++ new_dirent [100] 3 ++ replicate 448 0;
    11 := [72; 105] ++ replicate 510 0;
    12 := new_dirent [98] 4 ++ replicate 480 0]} ∅ [] ∅ [].
Definition tree_vfs : vfs mstore bump bump :=
  mkV (mkS ∅ tree_store) new_tree false (mkBump 4096 {[1 := ∅; 2 := ∅; 3 := ∅]}) NULL NULL ∅ ∅ ∅ [].
Definition no_read (k : file_operations) (f n : Z) : M (vfs mstore bump bump) (Z * list Z) := stop BadAccess.
Definition no_close (f : Z) : M (vfs mstore bump bump) unit := stop BadAccess.
Abbreviation tree_find := (fs_find_inode demo_sb 1 2 64 64 NULL).
Abbreviation tree_open := (fs_open_file demo_sb 1 2 3 64 64 NULL).


Definition tree_D : Z -> list Z := ms_blk tree_store.
Definition tree_A : gmap Z (list Z) := {[1 := 10 :: replicate 13 0; 2 := 11 :: replicate 13 0; 3 := 12 :: replicate 13 0; 4 := 0 :: replicate 13 0]}.
Definition tree_own : gmap Z (Z * Z) := {[10 := (1, 0); 11 := (2, 0); 12 := (3, 0)]}.
Definition tree_G : gset Z := {[1; 2; 3; 4]}.

Lemma tree_blk : blk_rep true tree_store tree_D ∅ [] ∅.
Proof.
  assert (Hb : map_Forall (fun _ v => length v = 512%nat /\ Forall (fun x => 0 <= x < 256) v) (ms_data tree_store))
    by (apply (bool_decide_unpack _); vm_compute; exact I).
  split; try done.
  - intros h b. rewrite lookup_empty. split; [done|]. intros [_ H]. by apply not_elem_of_empty in H.
  - intros h b H. by apply elem_of_nil in H.
Qed.

Lemma tree_A_own n a : tree_A !! n = Some a -> exists x, a = x :: replicate 13 0 /\ (x <> 0 -> tree_own !! x = Some (n, 0)).
Proof.
  intros Ha. assert (Hin : (n, a) ∈ map_to_list tree_A) by (by apply elem_of_map_to_list). vm_compute in Hin.
  repeat (apply elem_of_cons in Hin as [[= -> ->]|Hin]; [eexists; split; [reflexivity|by vm_compute]|]). by apply elem_of_nil in Hin.
Qed.

Lemma tree_fsok : fsok demo_sb tree_D tree_A tree_own.
Proof.
  split.
  - intros b. apply (blk_rep_bytes _ _ _ _ _ _ b tree_blk).
  - intros b x Hx. assert (Hin : (b, x) ∈ map_to_list tree_own) by (by apply elem_of_map_to_list). vm_compute in Hin.
    repeat (apply elem_of_cons in Hin as [[= -> ->]|Hin]; [by split; vm_compute|]). by apply elem_of_nil in Hin.
  - intros n a (x & -> & _)%tree_A_own. done.
  - intros n a i (x & -> & Hx)%tree_A_own Hi. rewrite one_fblk by done. destruct (Z.eqb_spec i 0) as [->|]; [done|done].
  - intros n a k (x & -> & Hx)%tree_A_own Hk. rewrite one_addr by lia. by rewrite (proj2 (Z.eqb_neq _ 0)) by lia.
Qed.

Lemma tree_node n : n ∈ tree_G -> n = 1 \/ n = 2 \/ n = 3 \/ n = 4.
Proof. unfold tree_G. set_solver. Qed.

Lemma tree_sizes : i_size (load_inode tree_D 1 0) = 64 /\ i_size (load_inode tree_D 2 0) = 2 /\ i_size (load_inode tree_D 3 0) = 32 /\ i_size (load_inode tree_D 4 0) = 0.
Proof. by vm_compute. Qed.

Lemma tree_file_ok n : n ∈ tree_G -> file_ok tree_D (load_inode tree_D n 0).
Proof.
  intros Hn%tree_node. destruct tree_sizes as (E1 & E2 & E3 & E4).
  assert (Ha : forall n x, i_addrs (load_inode tree_D n 0) = x :: replicate 13 0 -> forall k, 0 <= k < 512 -> fblk tree_D (i_addrs (load_inode tree_D n 0)) (k / 512) = x).
  { intros n' x -> k Hk. rewrite (Z.div_small k 512) by done. by rewrite one_fblk. }
  destruct Hn as [En|[En|[En|En]]]; subst n; (split; [vm_compute; split; discriminate|]); intros k Hk.
  - rewrite E1 in Hk. rewrite (Ha 1 10); [done|by vm_compute|lia].
  - rewrite E2 in Hk. rewrite (Ha 2 11); [done|by vm_compute|lia].
  - rewrite E3 in Hk. rewrite (Ha 3 12); [done|by vm_compute|lia].
  - rewrite E4 in Hk. lia.
Qed.

Lemma tree_dirs :
  (forall name, dir_lookup tree_D (load_inode tree_D 1 0) name ∈ ({[0; 2; 3]} : gset Z)) /\ (forall name, dir_lookup tree_D (load_inode tree_D 3 0) name ∈ ({[0; 4]} : gset Z)).
Proof.
  destruct tree_sizes as (E1 & E2 & E3 & E4). unfold dir_lookup. rewrite E1, E3. change (Z.to_nat (64 / 32)) with 2%nat. change (Z.to_nat (32 / 32)) with 1%nat. cbn [lookup_from].
  assert (I0 : dirent_inum (dslot tree_D (i_addrs (load_inode tree_D 1 0)) 0) = 2) by (vm_compute; reflexivity).
  assert (I1 : dirent_inum (dslot tree_D (i_addrs (load_inode tree_D 1 0)) (0 + 1)) = 3) by (vm_compute; reflexivity).
  assert (I2 : dirent_inum (dslot tree_D (i_addrs (load_inode tree_D 3 0)) 0) = 4) by (vm_compute; reflexivity).
  rewrite I0, I1, I2. split; intros name; repeat case_match; set_solver.
Qed.

Lemma tree_vfs_tree : tree_ok demo_sb tree_D tree_G tree_A tree_own ∅ ∅.
Proof.
  split; [by split|exact tree_fsok| |]; change (cur tree_D ∅ ∅) with (fun n => load_inode tree_D n 0); cbn beta.
  - intros n Hn%tree_node. destruct Hn as [En|[En|[En|En]]]; subst n; (split; [split; vm_compute; discriminate|]; split; [vm_compute; reflexivity|]; split; [reflexivity|]; split; [reflexivity|]; intros _; vm_compute; discriminate).
  - intros n Hn Hd. destruct (tree_file_ok n Hn) as [Hs Hb]. apply tree_node in Hn. destruct tree_dirs as [H1 H3].
    destruct Hn as [En|[En|[En|En]]]; subst n; [|by vm_compute in Hd| |by vm_compute in Hd].
    + split; [by split|]. intros name. generalize (H1 name). generalize (dir_lookup tree_D (load_inode tree_D 1 0) name). clear. intros x Hx Hne. unfold tree_G. set_solver.
    + split; [by split|]. intros name. generalize (H3 name). generalize (dir_lookup tree_D (load_inode tree_D 3 0) name). clear. intros x Hx Hne. unfold tree_G. set_solver.
Qed.

Lemma tree_rep rv : vrep 1 2 3 ∅ tree_D [] ∅ ∅ rv false ∅ ∅ [] tree_vfs.
Proof.
  split; try done; [split; [exact new_tree_rep|apply bump_spare]|exists tree_D; split; [done|exact tree_blk]|].
  exists {[1; 2; 3]}, ∅. split; try done; try (intros p [? Hp]; cbn in Hp; by rewrite lookup_empty in Hp).
  exists {[1 := ∅; 2 := ∅; 3 := ∅]}. split; [split; [|apply bump_spare]|split; [apply (bool_decide_unpack _); vm_compute; exact I|intros c a [? H]; by rewrite lookup_empty in H]].
  split; [done|]. split; [done|]. cbn [bp_next vf_objs tree_vfs]. split.
  - intros c Hc. apply elem_of_dom in Hc. assert (dom ({[1 := ∅; 2 := ∅; 3 := ∅]} : live_map) = {[1; 2; 3]}) as E by (by vm_compute). rewrite E in Hc. set_solver by lia.
  - intros c X x HX Hx. assert (Hin : (c, X) ∈ map_to_list ({[1 := ∅; 2 := ∅; 3 := ∅]} : live_map)) by (by apply elem_of_map_to_list).
    assert (X = ∅) as -> by (vm_compute in Hin; repeat (apply elem_of_cons in Hin as [[= -> ->]|Hin]; [done|]); by apply elem_of_nil in Hin). by apply not_elem_of_empty in Hx.
Qed.

(** ** The claims on the small disk *)

Lemma tree_root path : match path with c :: _ => c =? SLASH | [] => true end = true -> start tree_D ∅ NULL path ∈ tree_G.
Proof. intros _. unfold start. rewrite andb_false_r. unfold tree_G. set_solver. Qed.

Lemma fs_refcounts_exact_witness : exists H' s', irun 1 2 64 64 [IGet 1; IGet 3; IGet 1; IPut 1; IPut 0] [] tree_vfs = Done (H', s') /\ H' = [4096].
Proof.
  destruct (wp_elim _ _ _ (fs_refcounts_exact (B := mstore) (R := bump) (O := bump) demo_sb demo_layout 1 2 3 64 64 ∅ bump_size ltac:(exact Logic.I) ltac:(exact Logic.I)
    tree_D [] ∅ ∅ 0 [IGet 1; IGet 3; IGet 1; IPut 1; IPut 0] ∅ ∅ [] [] tree_vfs (tree_rep _) ltac:(by split) ltac:(by split) ltac:(repeat constructor; vm_compute; discriminate) ltac:(done)))
    as (H' & s' & E & _). exists H', s'. apply (run_value _ _ _ _ _ E). vm_compute. reflexivity.
Defined.

Lemma fs_get_inode_spec_witness : exists r s', fs_get_inode 1 2 64 64 1 tree_vfs = Done (r, s') /\ r = (ERR_OK, 4096).
Proof.
  destruct (wp_elim _ _ _ (fs_get_inode_spec (B := mstore) (R := bump) (O := bump) demo_sb demo_layout 1 2 3 64 64 ∅ bump_size ltac:(exact Logic.I) ltac:(exact Logic.I)
    tree_D [] ∅ ∅ 0 ∅ ∅ [] tree_vfs 1 (tree_rep _) ltac:(by split) ltac:(split; vm_compute; discriminate) ltac:(reflexivity) ltac:(reflexivity)))
    as (r & s' & E & _). exists r, s'. apply (run_value _ _ _ _ _ E). vm_compute. reflexivity.
Defined.

Lemma fs_find_parent_inode_spec_witness : exists r s', fs_find_parent_inode demo_sb 1 2 64 64 NULL [47; 100; 47; 98] tree_vfs = Done (r, s') /\ r = (ERR_OK, 4102, [98]).
Proof.
  destruct (wp_elim _ _ _ (fs_find_parent_inode_spec (B := mstore) (R := bump) (O := bump) demo_sb demo_layout 1 2 3 64 64 ∅ bump_size ltac:(exact Logic.I) ltac:(exact Logic.I)
    tree_D [] tree_G tree_A tree_own ∅ ∅ [] ∅ ∅ 0 tree_vfs NULL [47; 100; 47; 98] (tree_rep _) tree_vfs_tree ltac:(by left) (tree_root [47] eq_refl)))
    as (r & s' & E & _). exists r, s'. apply (run_value _ _ _ _ _ E). vm_compute. reflexivity.
Defined.

(** The same disk with the slab allocator of kmalloc.c on a machine with 400
    blocks of 1024 free pages. *)
Definition kernel_vfs (o : kstate) : vfs mstore kstate kstate := mkV (mkS ∅ tree_store) (demo_radix 400) false o NULL NULL ∅ ∅ ∅ [].

Lemma kernel_objs : exists ic sc fc o, holds 300 {[ic; sc; fc]} ∅ o /\ (ic <- kmem_cache_create 64;; sc <- kmem_cache_create 16;; fc <- kmem_cache_create 64;; ret (ic, sc, fc)) (demo_static 400) = Done (ic, sc, fc, o).
Proof.
  assert (H0 : exists L, (oa_live (demo_static 400) L /\ oa_spare 400 (demo_static 400)) /\ (∅ : gset Z) ⊆ dom L).
  { exists ∅. split; [|done]. split; [apply (demo_static_live 400); lia|apply (demo_static_spare 400); lia]. }
  assert (Hmake : forall n C size s, (exists L, (oa_live s L /\ oa_spare (S n) s) /\ C ⊆ dom L) -> good_size size ->
    wp (kmem_cache_create size) (fun c s' => exists L, (oa_live s' L /\ oa_spare n s') /\ {[c]} ∪ C ⊆ dom L) s).
  { intros n C size s (L & [HL Hn] & HC) Hg. change (kmem_cache_create size) with (oa_create (St := kstate) size). eapply wp_mono; [exact (oa_create_uses s L size HL Hg)|].
    intros c s' ((L' & HL' & [[-> _]|(_ & _ & ->)]) & Hu & Hno); [by pose proof (Hno eq_refl _ Hn); lia|]. exists (<[c := ∅]> L). split; [split; [done|]|].
    - apply Hu in Hn. by rewrite Nat.sub_1_r in Hn.
    - rewrite dom_insert_L. set_solver. }
  assert (H : wp (ic <- kmem_cache_create 64;; sc <- kmem_cache_create 16;; fc <- kmem_cache_create 64;; ret (ic, sc, fc))
    (fun r s => exists L, (oa_live s L /\ oa_spare 397 s) /\ {[r.2]} ∪ ({[r.1.2]} ∪ ({[r.1.1]} ∪ ∅)) ⊆ dom L) (demo_static 400)).
  { wp_step. eapply wp_mono; [apply (Hmake 399%nat ∅ 64 _ H0); unfold good_size; lia|]. intros ic s1 H1. wp_step.
    eapply wp_mono; [apply (Hmake 398%nat _ 16 _ H1); unfold good_size; lia|]. intros sc s2 H2. wp_step.
    eapply wp_mono; [apply (Hmake 397%nat _ 64 _ H2); unfold good_size; lia|]. intros fc s3 H3. wp_step. exact H3. }
  apply wp_elim in H as ([[ic sc] fc] & o & E & L & [HL Hn] & HC). exists ic, sc, fc, o. split; [|exact E]. clear E H0 Hmake. exists L. split; [split; [done|]|].
  - eapply spare_le; [|exact Hn]. lia.
  - split; [clear -HC; set_solver|]. intros c a [? Hc]. by rewrite lookup_empty in Hc.
Qed.

Lemma kernel_size : oa_size_ok (St := kstate) 64.
Proof. change (good_size 64). unfold good_size. lia. Qed.

Lemma kernel_rep ic sc fc o : holds 300 {[ic; sc; fc]} ∅ o -> vrep ic sc fc ∅ tree_D [] ∅ ∅ (enough 10) false ∅ ∅ [] (kernel_vfs o).
Proof.
  intros Ho. split; try done; [|exists tree_D; split; [done|exact tree_blk]|].
  - split; [apply demo_radix_rep; lia|]. eapply spare_le; [|apply (demo_static_spare 400); lia]. cbn. lia.
  - exists {[ic; sc; fc]}, ∅. split; try done; try (intros p [? Hp]; cbn in Hp; by rewrite lookup_empty in Hp). eapply holds_le; [|exact Ho]. cbn. lia.
Qed.

Lemma fs_find_inode_spec_witness : exists ic sc s r s', fs_find_inode (B := mstore) (R := kstate) (O := kstate) demo_sb ic sc 64 64 NULL [47; 100; 47; 98] s = Done (r, s') /\
  fst r = ERR_OK /\ snd r <> NULL.
Proof.
  destruct kernel_objs as (ic & sc & fc & o & Ho & _). exists ic, sc, (kernel_vfs o).
  destruct (wp_elim _ _ _ (fs_find_inode_spec (B := mstore) (R := kstate) (O := kstate) demo_sb demo_layout ic sc fc 64 64 ∅ kmalloc_radix_size ltac:(exact kernel_size) ltac:(exact kernel_size)
    tree_D [] tree_G tree_A tree_own ∅ ∅ [] ∅ ∅ 7 (kernel_vfs o) NULL [47; 100; 47; 98] (kernel_rep ic sc fc o Ho) tree_vfs_tree ltac:(by left) (tree_root [47] eq_refl)))
    as ([err p] & s' & E & Hr). exists (err, p), s'. split; [exact E|].
  assert (Hres : resolve (tree tree_D ∅ ∅) (start tree_D ∅ NULL [47; 100; 47; 98]) (elements [47; 100; 47; 98]) = (ERR_OK, 4)) by (vm_compute; reflexivity).
  rewrite Hres in Hr. destruct Hr as (-> & Hok & _). split; [done|]. by apply Hok.
Defined.

Lemma load_held D n : set_ref (i_ref (load_inode D n 0) + 1) (load_inode D n 0) = load_inode D n 1.
Proof. reflexivity. Qed.

Lemma tree_get_root : exists p s1, fs_get_inode 1 2 64 64 1 tree_vfs = Done ((ERR_OK, p), s1) /\
  vrep 1 2 3 ∅ tree_D [] ∅ ∅ (enough 0) false {[1 := p]} {[p := load_inode tree_D 1 1]} [] s1.
Proof.
  assert (Hg : wp (fs_get_inode 1 2 64 64 1) (fun r s => fst r = ERR_OK /\ vrep 1 2 3 ∅ tree_D [] ∅ ∅ (enough 0) false {[1 := snd r]} {[snd r := load_inode tree_D 1 1]} [] s) tree_vfs).
  { eapply (wp_vr_fs_get (B := mstore) (R := bump) (O := bump) demo_sb demo_layout 1 2 3 64 64 ∅ tree_D [] ∅ ∅ bump_size); [exact Logic.I|exact Logic.I|exact (tree_rep (enough 1))|by split|split; vm_compute; discriminate|reflexivity|reflexivity|].
    intros p s' _ _ V. unfold got in V. rewrite (cur_disk tree_D ∅ ∅ 1 (lookup_empty 1)), load_held in V. cbn [fst snd] in V. split; [reflexivity|]. cbn [snd].
    by rewrite <- (insert_empty 1 p), <- (insert_empty p). }
  apply wp_elim in Hg as ([err p] & s1 & E1 & He & V). cbn [fst snd] in He, V. subst err. exists p, s1. exact (conj E1 V).
Qed.

Lemma tree_root_cache p : cache_ok demo_sb {[1 := p]} {[p := load_inode tree_D 1 1]}.
Proof.
  split; intros ? ? [<- <-]%lookup_singleton_Some; [exists (load_inode tree_D 1 1)|]; rewrite lookup_singleton_eq; [by split|].
  split; [reflexivity|]. split; [split; vm_compute; discriminate|]. split; [split; reflexivity|reflexivity].
Qed.
Lemma tree_root_last : (i_ref (load_inode tree_D 1 1) =? 1) = true /\ (i_nlink (load_inode tree_D 1 1) =? 0) || i_dirty (load_inode tree_D 1 1) = false.
Proof. by vm_compute. Qed.

Lemma fs_release_inode_spec_witness : exists p s1 s2, fs_get_inode 1 2 64 64 1 tree_vfs = Done ((ERR_OK, p), s1) /\ fs_release_inode 1 2 p s1 = Done (tt, s2) /\
  sf_inodes (vf_sfs s2) = ∅.
Proof.
  destruct tree_get_root as (p & s1 & E1 & V).
  pose proof (tree_root_cache p) as Hc.
  destruct (wp_elim _ _ _ (fs_release_inode_spec demo_sb demo_layout 1 2 3 ∅ bump_size tree_D [] ∅ ∅ _ _ _ [] s1 p (load_inode tree_D 1 1) V Hc
    (lookup_singleton_eq p _) eq_refl)) as ([] & s2 & E2 & H2). exists p, s1, s2. split; [exact E1|]. split; [exact E2|].
  destruct tree_root_last as [Hn1 Hn2]. rewrite Hn1, Hn2 in H2. destruct H2 as [V2 _]. rewrite (vr_inodes _ _ _ _ _ _ _ _ _ _ _ _ _ _ V2). apply delete_singleton_eq.
Defined.

Lemma fs_open_read_close_witness : exists r s', (r <- fs_open_file demo_sb 1 2 3 64 64 NULL [47; 97] FS_RDONLY 0;;
    if fst r =? ERR_OK then
      v <- fs_read_file demo_sb no_read (snd r) 10 0;;
      fs_close_file 1 2 3 NULL NULL no_close (snd r);;
      ret (fst r, snd (fst v))
    else ret (fst r, [])) tree_vfs = Done (r, s') /\ r = (ERR_OK, [72; 105]).
Proof.
  destruct (wp_elim _ _ _ (fs_open_read_close (B := mstore) (R := bump) (O := bump) demo_sb demo_layout 1 2 3 64 64 NULL NULL ∅ no_read no_close bump_size ltac:(exact Logic.I) ltac:(exact Logic.I)
    tree_D [] tree_G tree_A tree_own ∅ ∅ [] ∅ 0 tree_vfs NULL [47; 97] FS_RDONLY 0 10 0 (tree_rep _) tree_vfs_tree ltac:(by left) (tree_root [47] eq_refl)
    ltac:(discriminate) eq_refl eq_refl ltac:(discriminate) ltac:(lia) ltac:(lia) tree_file_ok (fun o L c X HL HX => wp_mono _ _ _ _ (oa_alloc_spec o L c X HL HX) (fun p o' _ => not_elem_of_empty p)) ltac:(by left) ltac:(by left)))
    as (r & s' & E & _). exists r, s'. apply (run_value _ _ _ _ _ E). vm_compute. reflexivity.
Defined.

(** ** Runs *)

Definition inodes_left (s : vfs mstore bump bump) : list (Z * Z) := map (fun x => (i_inum (snd x), i_ref (snd x))) (map_to_list (sf_inodes (vf_sfs s))).

(** A directory and a file in it are made, the file is found again; no inode
    stays in memory but the one looked up. *)
Example create_find_run :
  value_of ((r <- fs_mkdir demo_sb 1 2 64 64 NULL [101];; f <- tree_open [101; 47; 102] FS_CREAT 0;; fs_close_file 1 2 3 NULL NULL no_close (snd f);;
    v <- tree_find [101; 47; 102];; l <- gets inodes_left;; ret (r, fst f, fst v, l)) tree_vfs) = Some (ERR_OK, ERR_OK, ERR_OK, [(6, 1)]).
Proof. vm_compute. reflexivity. Qed.

(** A second link shows the same bytes; a directory with entries is not
    removed. *)
Example link_run :
  value_of ((r <- fs_link demo_sb 1 2 64 64 NULL [97] [100; 47; 120];; v <- tree_open [100; 47; 120] FS_RDONLY 0;; x <- fs_read_file demo_sb no_read (snd v) 10 0;;
    e <- fs_rmdir demo_sb 1 2 64 64 NULL [100];; ret (r, x, e)) tree_vfs) = Some (ERR_OK, (2, [72; 105], 2), ERR_NOTEMPTY).
Proof. vm_compute. reflexivity. Qed.

(** An unlinked file is not found and its inode waits for the cleanup
    thread. *)
Example unlink_run :
  value_of ((r <- fs_unlink demo_sb 1 2 64 64 NULL [97];; v <- tree_find [97];; l <- gets inodes_left;; ret (r, fst v, l)) tree_vfs) = Some (ERR_OK, ERR_NOTEXIST, [(2, 1)]).
Proof. vm_compute. reflexivity. Qed.

(** ** Paths through the code that go wrong *)

(** An inode that cannot be put into the tree, here because no page is free for
    its nodes, is freed while its reference count is 1, where fs_free_inode
    asserts that it is 0. *)
Definition full_vfs : vfs mstore kstate bump :=
  mkV (mkS ∅ tree_store) (demo_radix 0) false (mkBump 4096 {[1 := ∅; 2 := ∅; 3 := ∅]}) NULL NULL ∅ ∅ ∅ [].
Example get_nomem_kassert : fs_get_inode 1 2 64 64 2 full_vfs = Stop KAssert.
Proof. vm_compute. reflexivity. Qed.

(** Opening the root: the file keeps the inode, whose only reference is dropped
    with the parent's. *)
Example open_root_dangling :
  value_of ((f <- tree_open [47] FS_RDONLY 0;; l <- gets inodes_left;; ret (fst f, l)) tree_vfs) = Some (ERR_OK, []).
Proof. vm_compute. reflexivity. Qed.
Example read_root_freed : (f <- tree_open [47] FS_RDONLY 0;; fs_readdir demo_sb (snd f)) tree_vfs = Stop BadAccess.
Proof. vm_compute. reflexivity. Qed.

(** The cleanup thread deletes the inode, which sets its number to zero, and
    then releases it, which asserts a positive number. *)
Example cleanup_stops : (fs_unlink demo_sb 1 2 64 64 NULL [97];; cleanup_round demo_sb 1 2 3) tree_vfs = Stop KAssert.
Proof. vm_compute. reflexivity. Qed.

(** A file with a hole cannot be deleted: the hole is not counted in the size,
    so the loop runs past the addresses. *)
Definition hole_inode : inode := mkI 2 1 0 FTYPE_FILE 0 600 (0 :: 11 :: replicate 12 0) true false true.
Example delete_hole : sfs_delete_inode demo_sb 4096 (mkS {[4096 := hole_inode]} tree_store) = Stop BadAccess.
Proof. vm_compute. reflexivity. Qed.
