(* ===== verification/Proc.v ===== *)
(** * Processes (kernel/proc.c)

    The state joins the file layer (Fs.v, FsOps.v), the address spaces (Vm.v) and
    the process structures by address, with the process table in the order of
    its list.  The address space of the process at [p] has the key [p].
    [ps_umem] has the bytes of the user memory of the current process that are
    present; [ps_cur] is the current process, NULL in a kernel thread.  Threads
    and trap frames are machine dependent: thread_create is a parameter.  The
    field curFd, which is only copied, and the list children are left out. *)

From stdpp Require Import prelude list gmap.
From Stdlib Require Import ZArith Lia.
From S2P Require Import Prelude DList PageAlloc ObjAlloc RadixTree Vpmap Vm Blocks Sfs SfsDir Fs FsOps.

Definition PROC_MAX_FILE : Z := 128.
Definition PROC_NAME_LEN : Z := 32.
Definition ANY_CHILD : Z := -1.
Definition STATUS_ALIVE : Z := 0xbeefeeb.

Record proc := mkProc {
  pid : Z;
  p_name : list Z;
  p_cwd : Z;
  file_descriptors : list Z;
  p_parent : Z;
  has_exited : bool;
  exit_status : Z
}.

Definition set_cwd (v : Z) (p : proc) : proc := mkProc (pid p) (p_name p) v (file_descriptors p) (p_parent p) (has_exited p) (exit_status p).
Definition set_fds (v : list Z) (p : proc) : proc := mkProc (pid p) (p_name p) (p_cwd p) v (p_parent p) (has_exited p) (exit_status p).
Definition set_parent (v : Z) (p : proc) : proc := mkProc (pid p) (p_name p) (p_cwd p) (file_descriptors p) v (has_exited p) (exit_status p).
Definition set_exited (st : Z) (p : proc) : proc := mkProc (pid p) (p_name p) (p_cwd p) (file_descriptors p) (p_parent p) true st.

(** Pipes (pipe.c): the buffer (NULL or a BBQ of Bbq.v) and the two files of a
    pipe, the field info of files, and the cache of buffers. *)
Record pipe := mkPipe { p_buffer : Z; p_read_file : Z; p_write_file : Z }.
Record pipes := mkPipes { bbq_allocator : Z; pipe_tbl : gmap Z pipe; f_info : gmap Z Z }.
Definition no_pipes : pipes := mkPipes NULL ∅ ∅.

Record pst (B R O Pg Ob Pa : Type) := mkP {
  ps_vfs : vfs B R O;
  ps_vm : vmst Pg Ob;
  ps_objs : Pa;
  ps_procs : gmap Z proc;
  ptable : list Z;
  pid_allocator : Z;
  ps_cur : Z;
  ps_umem : gmap Z Z;
  ps_pipes : pipes
}.
Arguments mkP {B R O Pg Ob Pa}.
Arguments ps_vfs {B R O Pg Ob Pa}.
Arguments ps_vm {B R O Pg Ob Pa}.
Arguments ps_objs {B R O Pg Ob Pa}.
Arguments ps_procs {B R O Pg Ob Pa}.
Arguments ptable {B R O Pg Ob Pa}.
Arguments pid_allocator {B R O Pg Ob Pa}.
Arguments ps_cur {B R O Pg Ob Pa}.
Arguments ps_umem {B R O Pg Ob Pa}.
Arguments ps_pipes {B R O Pg Ob Pa}.

Section state.
Context {B R O Pg Ob Pa : Type}.
Implicit Types s : pst B R O Pg Ob Pa.
Abbreviation PM := (M (pst B R O Pg Ob Pa)).

Definition set_vfs (v : vfs B R O) s : pst B R O Pg Ob Pa := mkP v (ps_vm s) (ps_objs s) (ps_procs s) (ptable s) (pid_allocator s) (ps_cur s) (ps_umem s) (ps_pipes s).
Definition set_pvm (v : vmst Pg Ob) s : pst B R O Pg Ob Pa := mkP (ps_vfs s) v (ps_objs s) (ps_procs s) (ptable s) (pid_allocator s) (ps_cur s) (ps_umem s) (ps_pipes s).
Definition set_pobjs (v : Pa) s : pst B R O Pg Ob Pa := mkP (ps_vfs s) (ps_vm s) v (ps_procs s) (ptable s) (pid_allocator s) (ps_cur s) (ps_umem s) (ps_pipes s).
Definition set_procs (v : gmap Z proc) s : pst B R O Pg Ob Pa := mkP (ps_vfs s) (ps_vm s) (ps_objs s) v (ptable s) (pid_allocator s) (ps_cur s) (ps_umem s) (ps_pipes s).
Definition set_ptable (v : list Z) s : pst B R O Pg Ob Pa := mkP (ps_vfs s) (ps_vm s) (ps_objs s) (ps_procs s) v (pid_allocator s) (ps_cur s) (ps_umem s) (ps_pipes s).
Definition set_next_pid (v : Z) s : pst B R O Pg Ob Pa := mkP (ps_vfs s) (ps_vm s) (ps_objs s) (ps_procs s) (ptable s) v (ps_cur s) (ps_umem s) (ps_pipes s).
Definition set_pcur (v : Z) s : pst B R O Pg Ob Pa := mkP (ps_vfs s) (ps_vm s) (ps_objs s) (ps_procs s) (ptable s) (pid_allocator s) v (ps_umem s) (ps_pipes s).
Definition set_umem (v : gmap Z Z) s : pst B R O Pg Ob Pa := mkP (ps_vfs s) (ps_vm s) (ps_objs s) (ps_procs s) (ptable s) (pid_allocator s) (ps_cur s) v (ps_pipes s).

Definition set_pipes (v : pipes) s : pst B R O Pg Ob Pa := mkP (ps_vfs s) (ps_vm s) (ps_objs s) (ps_procs s) (ptable s) (pid_allocator s) (ps_cur s) (ps_umem s) v.

Definition on_vfs {A} (m : M (vfs B R O) A) : PM A := zoom ps_vfs set_vfs m.
Definition on_vm {A} (m : M (vmst Pg Ob) A) : PM A := zoom ps_vm set_pvm m.
Definition get_proc (p : Z) : PM proc := o <- gets (fun s => ps_procs s !! p);; deref o.
Definition upd_proc (p : Z) (f : proc -> proc) : PM unit :=
  x <- get_proc p;; modify (fun s => set_procs (<[p := f x]> (ps_procs s)) s).
Definition proc_current : PM Z := gets ps_cur.

(** A byte of user memory; an absent page faults in kernel mode, which stops
    the kernel (Pgfault.v). *)
Definition load_user (a : Z) : PM Z :=
  o <- gets (fun s => ps_umem s !! a);; match o with Some b => ret b | None => panic end.
Fixpoint store_user (a : Z) (l : list Z) : PM unit :=
  match l with
  | [] => ret tt
  | b :: l => load_user a;; modify (fun s => set_umem (<[a := b]> (ps_umem s)) s);; store_user (a + 1) l
  end.

(** An element of the descriptor table. *)
Definition get_fd (p fd : Z) : PM Z :=
  x <- get_proc p;; deref (if 0 <=? fd then file_descriptors x !! Z.to_nat fd else None).
Definition put_fd (p fd f : Z) : PM unit :=
  get_fd p fd;; upd_proc p (fun x => set_fds (<[Z.to_nat fd := f]> (file_descriptors x)) x).
End state.

Section ops.
Context {B R O Pg Ob Pa : Type} `{!Blocks B, !ObjAlloc R, !ObjAlloc O, !PageAlloc Pg, !ObjAlloc Ob, !ObjAlloc Pa}.
Context (sb : sfs_sb_info) (ic sc fc szm szf stdin stdout : Z).
Context (other_close : Z -> M (vfs B R O) unit).
Context (proc_allocator kas : Z) (junk : memregion).
Context (thread_create : Z -> M (pst B R O Pg Ob Pa) Z).
Implicit Types s : pst B R O Pg Ob Pa.
Abbreviation PM := (M (pst B R O Pg Ob Pa)).

(** Of an address space; page tables are reloaded for the current process. *)
Definition destroy_as (p : Z) : PM unit := cur <- proc_current;; on_vm (as_destroy kas cur p).

Definition on_pobjs {A} (m : M Pa A) : PM A := zoom ps_objs set_pobjs m.

Definition proc_alloc : PM Z :=
  p <- on_pobjs (oa_alloc proc_allocator);;
  (if negb (p =? NULL) then
     n <- gets pid_allocator;;
     modify (set_next_pid (i32 (n + 1)));;
     modify (fun s => set_procs (<[p := mkProc n [] NULL [] NULL false 0]> (ps_procs s)) s)
   else ret tt);;
  ret p.

Definition proc_free (p : Z) : PM unit :=
  modify (fun s => set_procs (delete p (ps_procs s)) s);;
  on_pobjs (oa_free proc_allocator p).

Definition proc_init (name : list Z) : PM Z :=
  p <- proc_alloc;;
  if p =? NULL then ret NULL
  else
    e <- on_vm (as_init p);;
    if negb (e =? ERR_OK) then proc_free p;; ret NULL
    else
      upd_proc p (fun x => mkProc (pid x) (take (Z.to_nat (PROC_NAME_LEN - 1)) name) (p_cwd x)
        (stdin :: stdout :: replicate (Z.to_nat (PROC_MAX_FILE - 2)) NULL) NULL false STATUS_ALIVE);;
      r <- on_vfs (fs_get_inode ic sc szm szf SFS_ROOT_INUM);;
      if negb (fst r =? ERR_OK) then
        destroy_as p;;
        proc_free p;;
        ret NULL
      else
        upd_proc p (set_cwd (snd r));;
        ret p.

(** The loop over the descriptors of duplicate_process_state. *)
Definition copy_fds (parent child : Z) : PM unit :=
  for_ (Z.to_nat PROC_MAX_FILE) 0 (fun i =>
    f <- get_fd parent i;;
    if negb (f =? NULL) then
      put_fd child i f;;
      on_vfs (fs_reopen_file f)
    else put_fd child i NULL).

Definition duplicate_process_state (parent : Z) : PM Z :=
  kassert (nonnull parent);;
  x <- get_proc parent;;
  child <- proc_init (p_name x);;
  if child =? NULL then ret NULL
  else
    cur <- proc_current;;
    e <- on_vm (as_copy_as kas cur junk parent child);;
    if negb (e =? ERR_OK) then proc_free child;; ret NULL
    else
      x <- get_proc parent;;
      upd_proc child (set_cwd (p_cwd x));;
      copy_fds parent child;;
      ret child.

Definition proc_fork : PM Z :=
  parent <- proc_current;;
  kassert (nonnull parent);;
  child <- duplicate_process_state parent;;
  if child =? NULL then ret NULL
  else
    upd_proc child (set_parent parent);;
    t <- thread_create child;;
    if t =? NULL then
      destroy_as child;;
      proc_free child;;
      ret NULL
    else
      modify (fun s => set_ptable (ptable s ++ [child]) s);;
      ret child.

Definition close_all_fds (p : Z) : PM unit :=
  if p =? NULL then ret tt
  else
    for_ (Z.to_nat PROC_MAX_FILE) 0 (fun i =>
      f <- get_fd p i;;
      if negb (f =? NULL) then
        on_vfs (fs_close_file ic sc fc stdin stdout other_close f);;
        put_fd p i NULL
      else ret tt).

(** One pass over the process table: the child that was reaped, or whether a
    child matched. *)
Fixpoint wait_scan (cur pid0 status : Z) (l : list Z) (found : bool) : PM (Z + bool) :=
  match l with
  | [] => ret (inr found)
  | child :: l =>
      c <- get_proc child;;
      if (p_parent c =? cur) && ((pid0 =? ANY_CHILD) || (pid c =? pid0)) then
        if has_exited c then
          (if nonnull status then store_user status (le32 (u32 (exit_status c))) else ret tt);;
          modify (fun s => set_ptable (filter (fun q => q <> child) (ptable s)) s);;
          proc_free child;;
          ret (inl (pid c))
        else wait_scan cur pid0 status l true
      else wait_scan cur pid0 status l found
  end.

(** One round of the loop of proc_wait, which spins until a child exits. *)
Definition proc_wait_round (pid0 status : Z) : PM (unit + Z) :=
  cur <- proc_current;;
  kassert (nonnull cur);;
  l <- gets ptable;;
  r <- wait_scan cur pid0 status l false;;
  match r with
  | inl n => ret (inr n)
  | inr found => if found then ret (inl tt) else ret (inr ERR_CHILD)
  end.
Definition proc_wait (rounds : nat) (pid0 status : Z) : PM Z := loop rounds (fun _ => proc_wait_round pid0 status) tt.

(** Up to thread_exit, which does not return. *)
Definition proc_exit (status : Z) : PM unit :=
  p <- proc_current;;
  modify (set_pcur NULL);;
  k <- on_vm (get_as kas);;
  on_vm (on_v (vpmap_load (as_vpmap k)));;
  destroy_as p;;
  close_all_fds p;;
  x <- get_proc p;;
  on_vfs (fs_release_inode ic sc (p_cwd x));;
  x <- get_proc p;;
  if negb (p_parent x =? NULL) then upd_proc p (set_exited status) else ret tt.
End ops.
