(* ===== verification/Syscall.v ===== *)
(** * System calls (kernel/syscall.c)

    A handler takes the argument registers; its result is the value before the
    conversion to sysret_t, which [syscall] makes.  Arguments are 64-bit
    unsigned; a descriptor that the code converts to int is [i32] of it. *)

From stdpp Require Import prelude list gmap.
From Stdlib Require Import ZArith Lia.
From S2P Require Import Prelude DList PageAlloc ObjAlloc RadixTree Vpmap Vm Blocks Sfs SfsDir Fs FsOps Proc.

(** The registers of the trap frame that carry arguments (fetch_arg). *)
Record regs := mkRegs { rdi : Z; rsi : Z; rdx : Z }.

Definition SIZEOF_STAT : Z := 16.
Definition SIZEOF_DIRENT : Z := 32.
Definition FNAME_LEN : Z := 28.
Definition SIZEOF_SYS_INFO : Z := 8.

(** The bytes strcpy copies: up to the terminator, which has to be there. *)
Fixpoint c_string (l : list Z) : option (list Z) :=
  match l with
  | [] => None
  | b :: l => if b =? 0 then Some [0] else cons b <$> c_string l
  end.

Section ops.
Context {B R O Pg Ob Pa : Type} `{!Blocks B, !ObjAlloc R, !ObjAlloc O, !PageAlloc Pg, !ObjAlloc Ob, !ObjAlloc Pa}.
Context (sb : sfs_sb_info) (ic sc fc szm szf stdin stdout : Z).
(** pipe.c and console.c *)
Context (other_read : file_operations -> Z -> Z -> M (vfs B R O) (Z * list Z)).
Context (other_write : file_operations -> Z -> list Z -> M (vfs B R O) Z).
Context (other_close : Z -> M (vfs B R O) unit).
Context (console_read : Z -> M (vfs B R O) (list Z)) (console_write : list Z -> M (vfs B R O) Z).
(** The cache kmalloc uses for a pipe_t, what its field buffer holds before it
    is set, and the size of a BBQ. *)
Context (pipe_cache pipe_junk szq : Z).
Context (proc_allocator kas : Z) (junk : memregion).
Context (thread_create : Z -> M (pst B R O Pg Ob Pa) Z).
Implicit Types s : pst B R O Pg Ob Pa.
Abbreviation PM := (M (pst B R O Pg Ob Pa)).

(** ** Validation of arguments *)

Definition validate_str (a : Z) : PM bool :=
  p <- proc_current;;
  mr <- on_vm (as_find_memregion p a 1);;
  if mr =? NULL then ret false
  else
    m <- on_vm (get_mr mr);;
    r <- for_ret (Z.to_nat (mr_end m - a)) a (fun x =>
      b <- load_user x;; if b =? 0 then ret (Some tt) else ret None);;
    ret (match r with Some _ => true | None => false end).

Definition validate_ptr (a size : Z) : PM bool :=
  if u64 (a + size) <? a then ret false
  else
    p <- proc_current;;
    mr <- on_vm (as_find_memregion p a size);;
    ret (negb (mr =? NULL)).

(** The string at [a], which has at most [n] bytes. *)
Fixpoint user_str (n : nat) (a : Z) : PM (list Z) :=
  match n with
  | 0%nat => stop Diverge
  | S n => b <- load_user a;; if b =? 0 then ret [] else l <- user_str n (a + 1);; ret (b :: l)
  end.
(** The bytes the string functions read: up to the present bytes. *)
Definition fetch_str (a : Z) : PM (list Z) := n <- gets (fun s => size (ps_umem s));; user_str (S n) a.
Fixpoint load_bytes (n : nat) (a : Z) : PM (list Z) :=
  match n with 0%nat => ret [] | S n => b <- load_user a;; l <- load_bytes n (a + 1);; ret (b :: l) end.

(** ** Descriptors *)

Definition find_fd (from p : Z) : PM Z :=
  if p =? NULL then ret (-1)
  else
    r <- for_ret (Z.to_nat (PROC_MAX_FILE - from)) from (fun fd => f <- get_fd p fd;; if f =? NULL then ret (Some fd) else ret None);;
    ret (default (-1) r).
Definition find_lowest_null_fd (p : Z) : PM Z := find_fd 2 p.
Definition find_lowest_null_fd_from_0 (p : Z) : PM Z := find_fd 0 p.

Definition cwd_of (p : Z) : PM Z := if p =? NULL then ret NULL else x <- get_proc p;; ret (p_cwd x).

Definition sys_open (r : regs) : PM Z :=
  ok <- validate_str (rdi r);;
  if negb ok then ret ERR_FAULT
  else
    p <- proc_current;;
    kassert (nonnull p);;
    fd <- find_lowest_null_fd p;;
    if fd =? -1 then ret ERR_NOMEM
    else
      path <- fetch_str (rdi r);;
      cwd <- cwd_of p;;
      v <- on_vfs (fs_open_file sb ic sc fc szm szf cwd path (i32 (rsi r)) (u32 (rdx r)));;
      (if negb (snd v =? NULL) then put_fd p fd (snd v) else ret tt);;
      if negb (fst v =? ERR_OK) then ret (fst v) else ret fd.

Definition sys_close (r : regs) : PM Z :=
  let fd := i32 (rdi r) in
  if (fd <? 0) || (PROC_MAX_FILE <=? fd) then ret ERR_INVAL
  else
    p <- proc_current;;
    kassert (nonnull p);;
    f <- get_fd p fd;;
    if f =? NULL then ret ERR_INVAL
    else
      on_vfs (fs_close_file ic sc fc stdin stdout other_close f);;
      put_fd p fd NULL;;
      ret ERR_OK.

Definition sys_read (r : regs) : PM Z :=
  let '(fd, buf, count) := (rdi r, rsi r, rdx r) in
  ok <- validate_ptr buf count;;
  if negb ok then ret ERR_FAULT
  else if PROC_MAX_FILE <=? fd then ret ERR_INVAL
  else if fd =? 0 then
    l <- on_vfs (console_read count);;
    store_user buf l;;
    ret (Z.of_nat (length l))
  else
    p <- proc_current;;
    kassert (nonnull p);;
    f <- get_fd p (i32 fd);;
    if f =? NULL then ret ERR_INVAL
    else
      x <- on_vfs (get_file f);;
      v <- on_vfs (fs_read_file sb other_read f count (f_pos x));;
      let '(rs, l, pos) := v in
      store_user buf l;;
      on_vfs (upd_file f (set_fpos pos));;
      ret rs.

Definition sys_write (r : regs) : PM Z :=
  let '(fd, buf, count) := (rdi r, rsi r, rdx r) in
  ok <- validate_ptr buf count;;
  if negb ok then ret ERR_FAULT
  else if PROC_MAX_FILE <=? fd then ret ERR_INVAL
  else
    p <- proc_current;;
    kassert (nonnull p);;
    f <- get_fd p fd;;
    if f =? stdout then
      l <- load_bytes (Z.to_nat count) buf;;
      on_vfs (console_write l)
    else if f =? NULL then ret ERR_INVAL
    else
      x <- on_vfs (get_file f);;
      l <- load_bytes (Z.to_nat count) buf;;
      v <- on_vfs (fs_write_file sb other_write f l count (f_pos x));;
      on_vfs (upd_file f (set_fpos (snd v)));;
      ret (fst v).

Definition sys_dup (r : regs) : PM Z :=
  let fd := i32 (rdi r) in
  if (fd <? 0) || (PROC_MAX_FILE <=? fd) then ret ERR_INVAL
  else
    p <- proc_current;;
    kassert (nonnull p);;
    f <- get_fd p fd;;
    if f =? NULL then ret ERR_INVAL
    else
      new_fd <- find_lowest_null_fd_from_0 p;;
      if new_fd <? 0 then ret ERR_NOMEM
      else
        put_fd p new_fd f;;
        on_vfs (fs_reopen_file f);;
        ret new_fd.

(** *** Pipes (pipe.c, bbq.c) *)

Definition on_vfs_objs {A} (m : M O A) : PM A := on_vfs (on_vobjs m).
Definition upd_pipes (f : pipes -> pipes) : PM unit := modify (fun s => set_pipes (f (ps_pipes s)) s).

Definition bbq_init : PM Z :=
  a <- gets (fun s => bbq_allocator (ps_pipes s));;
  ok <- (if a =? NULL then
           c <- on_vfs_objs (oa_create szq);;
           upd_pipes (fun x => mkPipes c (pipe_tbl x) (f_info x));;
           ret (nonnull c)
         else ret true);;
  if ok : bool then
    a <- gets (fun s => bbq_allocator (ps_pipes s));;
    on_vfs_objs (oa_alloc a)
  else ret NULL.
Definition bbq_free (q : Z) : PM unit := a <- gets (fun s => bbq_allocator (ps_pipes s));; on_vfs_objs (oa_free a q).

Definition pipe_free (pipe : Z) : PM unit :=
  if pipe =? NULL then ret tt
  else
    o <- gets (fun s => pipe_tbl (ps_pipes s) !! pipe);;
    x <- deref o;;
    (if nonnull (p_buffer x) then bbq_free (p_buffer x) else ret tt);;
    upd_pipes (fun x => mkPipes (bbq_allocator x) (delete pipe (pipe_tbl x)) (f_info x));;
    on_vfs_objs (oa_free pipe_cache pipe).

(** The pipe and its two files.  The test of the field buffer comes before it
    is set. *)
Definition pipe_alloc : PM (Z * Z * Z) :=
  pipe <- on_vfs_objs (oa_alloc pipe_cache);;
  if pipe =? NULL then ret (NULL, NULL, NULL)
  else if pipe_junk =? NULL then on_vfs_objs (oa_free pipe_cache pipe);; ret (NULL, NULL, NULL)
  else
    q <- bbq_init;;
    rf <- on_vfs (fs_alloc_file fc);;
    wf <- on_vfs (fs_alloc_file fc);;
    upd_pipes (fun x => mkPipes (bbq_allocator x) (<[pipe := mkPipe q rf wf]> (pipe_tbl x)) (f_info x));;
    if (rf =? NULL) || (wf =? NULL) then
      (if negb (rf =? NULL) then on_vfs (fs_free_file fc rf) else ret tt);;
      (if negb (wf =? NULL) then on_vfs (fs_free_file fc wf) else ret tt);;
      pipe_free pipe;;
      ret (NULL, NULL, NULL)
    else
      on_vfs (upd_file rf (fun x => mkFile (f_ref x) FS_RDONLY (f_inode x) (f_pos x) (f_lock x) (Some PipeOps)));;
      on_vfs (upd_file wf (fun x => mkFile (f_ref x) FS_WRONLY (f_inode x) (f_pos x) (f_lock x) (Some PipeOps)));;
      upd_pipes (fun x => mkPipes (bbq_allocator x) (pipe_tbl x) (<[rf := pipe]> (<[wf := pipe]> (f_info x))));;
      ret (pipe, rf, wf).

Definition sys_pipe (r : regs) : PM Z :=
  ok <- validate_ptr (rdi r) 8;;
  if negb ok then ret ERR_FAULT
  else
    v <- pipe_alloc;;
    let '(pipe, rf, wf) := v in
    if pipe =? NULL then ret ERR_NOMEM
    else
      p <- proc_current;;
      kassert (nonnull p);;
      read_fd <- find_lowest_null_fd_from_0 p;;
      if read_fd <? 0 then pipe_free pipe;; ret ERR_NOMEM
      else
        put_fd p read_fd rf;;
        write_fd <- find_lowest_null_fd_from_0 p;;
        if write_fd <? 0 then
          pipe_free pipe;;
          put_fd p read_fd NULL;;
          ret ERR_NOMEM
        else
          put_fd p write_fd wf;;
          store_user (rdi r) (le32 (u32 read_fd) ++ le32 (u32 write_fd));;
          ret ERR_OK.

(** ** Paths *)

(** sys_unlink, sys_mkdir and sys_rmdir. *)
Definition path_call (r : regs) (op : Z -> list Z -> M (vfs B R O) Z) : PM Z :=
  ok <- validate_str (rdi r);;
  if negb ok then ret ERR_FAULT
  else
    path <- fetch_str (rdi r);;
    p <- proc_current;;
    cwd <- cwd_of p;;
    on_vfs (op cwd path).
Definition sys_unlink (r : regs) : PM Z := path_call r (fs_unlink sb ic sc szm szf).
Definition sys_mkdir (r : regs) : PM Z := path_call r (fs_mkdir sb ic sc szm szf).
Definition sys_rmdir (r : regs) : PM Z := path_call r (fs_rmdir sb ic sc szm szf).

Definition sys_link (r : regs) : PM Z :=
  ok <- validate_str (rdi r);;
  ok <- (if ok : bool then validate_str (rsi r) else ret false);;
  if negb ok then ret ERR_FAULT
  else
    old <- fetch_str (rdi r);;
    new <- fetch_str (rsi r);;
    p <- proc_current;;
    cwd <- cwd_of p;;
    on_vfs (fs_link sb ic sc szm szf cwd old new).

Definition sys_chdir (r : regs) : PM Z :=
  ok <- validate_str (rdi r);;
  if negb ok then ret ERR_FAULT
  else
    path <- fetch_str (rdi r);;
    p <- proc_current;;
    cwd <- cwd_of p;;
    v <- on_vfs (fs_find_inode sb ic sc szm szf cwd path);;
    if negb (fst v =? ERR_OK) then ret (fst v)
    else
      p <- proc_current;;
      kassert (nonnull p);;
      x <- get_proc p;;
      kassert (nonnull (p_cwd x));;
      on_vfs (fs_release_inode ic sc (p_cwd x));;
      upd_proc p (set_cwd (snd v));;
      ret ERR_OK.

(** [struct dirent]: the name, then the number. *)
Definition sys_readdir (r : regs) : PM Z :=
  let '(fd, dirent) := (rdi r, rsi r) in
  ok <- validate_ptr dirent SIZEOF_DIRENT;;
  if negb ok then ret ERR_FAULT
  else if PROC_MAX_FILE <=? fd then ret ERR_INVAL
  else
    p <- proc_current;;
    kassert (nonnull p);;
    f <- get_fd p fd;;
    if f =? NULL then ret ERR_INVAL
    else
      v <- on_vfs (fs_readdir sb f);;
      let '(err, inum, name) := v in
      (if err =? ERR_OK then
         store_user (dirent + FNAME_LEN) (le32 (u32 inum));;
         l <- deref (c_string name);;
         store_user dirent l
       else ret tt);;
      ret err.

(** [struct stat]: ftype, inode_num (not set), size. *)
Definition sys_fstat (r : regs) : PM Z :=
  let '(fd, stat) := (rdi r, rsi r) in
  if PROC_MAX_FILE <=? fd then ret ERR_INVAL
  else
    ok <- validate_ptr stat SIZEOF_STAT;;
    if negb ok then ret ERR_FAULT
    else if (fd =? 1) || (fd =? 0) then ret ERR_INVAL
    else
      p <- proc_current;;
      kassert (nonnull p);;
      f <- get_fd p fd;;
      if f =? NULL then ret ERR_INVAL
      else
        x <- on_vfs (get_file f);;
        i <- on_vfs (on_sfs (get_inode (f_inode x)));;
        if negb (i_ftype i =? FTYPE_FILE) then ret ERR_INVAL
        else
          store_user (stat + 8) (le32 (u32 (i_size i)) ++ le32 (i_size i / 2 ^ 32));;
          store_user stat (le32 (u32 (i_ftype i)));;
          ret ERR_OK.

(** ** Memory, processes *)

(** The result of memregion_extend is not used. *)
Definition sys_sbrk (r : regs) : PM Z :=
  p <- proc_current;;
  kassert (nonnull p);;
  a <- on_vm (get_as p);;
  m <- on_vm (get_mr (as_heap a));;
  v <- on_vm (memregion_extend p (as_heap a) (rdi r));;
  ret (default (mr_end m) (snd v)).

Definition sys_fork (r : regs) : PM Z :=
  p <- proc_fork ic sc szm szf stdin stdout proc_allocator kas junk thread_create;;
  if p =? NULL then ret ERR_NOMEM else x <- get_proc p;; ret (pid x).

Definition sys_wait (rounds : nat) (r : regs) : PM Z :=
  ok <- (if nonnull (rsi r) then validate_ptr (rsi r) 4 else ret true);;
  if negb ok then ret ERR_FAULT else proc_wait proc_allocator rounds (i32 (rdi r)) (rsi r).

Definition sys_exit (r : regs) : PM Z :=
  proc_exit ic sc fc stdin stdout other_close kas (i32 (rdi r));;
  stop Diverge.

Definition sys_getpid (r : regs) : PM Z := p <- proc_current;; x <- get_proc p;; ret (pid x).
Definition sys_sleep (r : regs) : PM Z := panic.

Definition sys_info (user_pgfault : Z) (r : regs) : PM Z :=
  ok <- validate_ptr (rdi r) SIZEOF_SYS_INFO;;
  if negb ok then ret ERR_FAULT
  else store_user (rdi r) (le32 (u32 user_pgfault) ++ le32 (user_pgfault / 2 ^ 32));; ret ERR_OK.

(** ** The dispatcher: sys_spawn, sys_meminfo and sys_halt are parameters. *)

Context (sys_spawn sys_meminfo sys_halt : regs -> M (pst B R O Pg Ob Pa) Z).

Definition syscalls (rounds : nat) (user_pgfault num : Z) : option (regs -> PM Z) :=
  nth_error [sys_fork; sys_spawn; sys_wait rounds; sys_exit; sys_getpid; sys_sleep; sys_open; sys_close; sys_read; sys_write; sys_link; sys_unlink;
    sys_mkdir; sys_chdir; sys_readdir; sys_rmdir; sys_fstat; sys_sbrk; sys_meminfo; sys_dup; sys_pipe; sys_info user_pgfault; sys_halt] (Z.to_nat (num - 1)).

Definition syscall (rounds : nat) (user_pgfault num : Z) (r : regs) : PM Z :=
  p <- proc_current;;
  kassert (nonnull p);;
  match (if 0 <? num then syscalls rounds user_pgfault num else None) with
  | Some f => v <- f r;; ret (u64 v)
  | None => panic
  end.
End ops.
