(* ===== verification/FdsSpec.v ===== *)
(** * Descriptor tables and open files

    [fd_ok m I F P]: every slot of the descriptor tables of the processes [P]
    is NULL or an open file of [F]; the reference count of a file is the number
    of slots that hold it, and the reference count of an in-memory inode the
    number of open files and working directories on it.  The files on disk do not
    change here: the inodes in memory are the ones on disk. *)

From stdpp Require Import prelude list gmap.
From Stdlib Require Import ZArith Lia.
From S2P Require Import Prelude PageAlloc DList ObjAlloc Vpmap RadixTree RadixTreeSpec Vm VmSpec Blocks Sfs SfsDir SfsBits SfsAlloc SfsInode SfsData SfsBytes SfsDirSpec SfsClaims SfsDirClaims Fs.
From S2P Require Import FsOps FsObjs FsPath FsFiles FsSpec Proc Syscall.

(** ** Counting slots *)

Definition all_fds (P : gmap Z proc) : list Z := concat ((fun x => file_descriptors (snd x)) <$> map_to_list P).
Definition cwds (P : gmap Z proc) : list Z := (fun x => p_cwd (snd x)) <$> map_to_list P.
Definition file_inodes (F : gmap Z file) : list Z := filter (fun c => c <> NULL) ((fun x => f_inode (snd x)) <$> map_to_list F).

Section counting.
Implicit Types (P : gmap Z proc) (F : gmap Z file).

Lemma all_fds_at P p x : P !! p = Some x -> all_fds P ≡ₚ file_descriptors x ++ all_fds (delete p P).
Proof. intros H. unfold all_fds. rewrite <- (map_to_list_delete P p x H). done. Qed.
Lemma all_fds_upd P p x : all_fds (<[p := x]> P) ≡ₚ file_descriptors x ++ all_fds (delete p P).
Proof. rewrite (all_fds_at (<[p := x]> P) p x) by apply lookup_insert_eq. by rewrite delete_insert_eq. Qed.

Lemma count_fds_upd f P p x x' : P !! p = Some x ->
  count f (all_fds (<[p := x']> P)) = count f (all_fds P) - count f (file_descriptors x) + count f (file_descriptors x').
Proof.
  intros H. rewrite (count_perm _ _ _ (all_fds_upd P p x')), (count_perm _ _ _ (all_fds_at P p x H)), !count_app. lia.
Qed.

Lemma count_insert f l (i : nat) g h : l !! i = Some g -> count f (<[i := h]> l) = count f l - (if decide (g = f) then 1 else 0) + (if decide (h = f) then 1 else 0).
Proof.
  intros Hi. rewrite (insert_take_drop l i h) by (by eapply lookup_lt_Some). rewrite <- (take_drop_middle l i g Hi) at 3.
  rewrite !count_app, !count_cons. lia.
Qed.

Lemma count_elem f l : f ∈ l <-> 0 < count f l.
Proof.
  unfold count. split.
  - intros Hf. assert (Hin : f ∈ filter (fun q => q = f) l) by (by apply list_elem_of_filter). destruct (filter _ l); [by apply elem_of_nil in Hin|cbn [length]; lia].
  - intros Hc. destruct (filter (fun q => q = f) l) as [|g r] eqn:E; [cbn in Hc; lia|]. assert (g ∈ filter (fun q => q = f) l) as [-> ?]%list_elem_of_filter by (rewrite E; left). done.
Qed.

Lemma cwds_upd P p x x' : P !! p = Some x -> p_cwd x' = p_cwd x -> cwds (<[p := x']> P) ≡ₚ cwds P.
Proof.
  intros H E. unfold cwds. rewrite <- (map_to_list_delete P p x H), <- (map_to_list_delete (<[p := x']> P) p x') by apply lookup_insert_eq.
  rewrite delete_insert_eq. cbn [fmap list_fmap snd]. by rewrite E.
Qed.
Lemma cwds_at P p x : P !! p = Some x -> p_cwd x ∈ cwds P.
Proof. intros H. unfold cwds. apply list_elem_of_fmap. exists (p, x). split; [done|]. by apply elem_of_map_to_list. Qed.
Lemma cwds_length P : length (cwds P) = size P.
Proof. unfold cwds. by rewrite length_fmap, length_map_to_list. Qed.

Lemma file_inodes_at F f x : F !! f = Some x -> f_inode x <> NULL -> file_inodes F ≡ₚ f_inode x :: file_inodes (delete f F).
Proof. intros H Hn. unfold file_inodes. rewrite <- (map_to_list_delete F f x H). cbn [fmap list_fmap snd]. by rewrite filter_cons_True. Qed.
Lemma file_inodes_null F f x : F !! f = Some x -> f_inode x = NULL -> file_inodes F ≡ₚ file_inodes (delete f F).
Proof. intros H Hn. unfold file_inodes. rewrite <- (map_to_list_delete F f x H). cbn [fmap list_fmap snd]. by rewrite filter_cons_False by (intros []; done). Qed.
Lemma file_inodes_upd F f x x' : F !! f = Some x -> f_inode x' = f_inode x -> file_inodes (<[f := x']> F) ≡ₚ file_inodes F.
Proof.
  intros H E. destruct (decide (f_inode x = NULL)) as [En|En].
  - rewrite (file_inodes_null F f x H En), (file_inodes_null (<[f := x']> F) f x') by (rewrite ?lookup_insert_eq; congruence). by rewrite delete_insert_eq.
  - rewrite (file_inodes_at F f x H En), (file_inodes_at (<[f := x']> F) f x') by (rewrite ?lookup_insert_eq; congruence). by rewrite delete_insert_eq, E.
Qed.
Lemma file_inodes_new F f x : F !! f = None -> f_inode x <> NULL -> file_inodes (<[f := x]> F) ≡ₚ f_inode x :: file_inodes F.
Proof. intros H Hn. rewrite (file_inodes_at _ f x) by (rewrite ?lookup_insert_eq; done). by rewrite delete_insert_id. Qed.
Lemma file_inodes_length F : (length (file_inodes F) <= size F)%nat.
Proof. unfold file_inodes. etrans; [apply length_filter|]. by rewrite length_fmap, length_map_to_list. Qed.
End counting.

Lemma size_union_bound (X Y : gset Z) : (size (X ∪ Y) <= size X + size Y)%nat.
Proof. rewrite size_union_alt. pose proof (subseteq_size (Y ∖ X) Y). set_solver by lia. Qed.
Lemma size_list_bound (l : list Z) : (size (list_to_set l : gset Z) <= length l)%nat.
Proof. induction l as [|x l IH]; [done|]. cbn [list_to_set length]. pose proof (size_union_bound {[x]} (list_to_set l)) as H. rewrite size_singleton in H. lia. Qed.

Lemma in_insert (l : list Z) (i : nat) f h : h ∈ <[i := f]> l -> h = f \/ h ∈ l.
Proof.
  intros [j Hj]%list_elem_of_lookup. destruct (decide (i = j)) as [->|Hne].
  - destruct (decide (j < length l)%nat); [rewrite list_lookup_insert_eq in Hj by done; left; congruence|]. rewrite list_insert_ge in Hj by lia. right. by eapply list_elem_of_lookup_2.
  - rewrite list_lookup_insert_ne in Hj by done. right. by eapply list_elem_of_lookup_2.
Qed.

Section fds.
Context (sb : sfs_sb_info).
Context (stdin stdout : Z).
Context (D : Z -> list Z) (G : gset Z) (A : gmap Z (list Z)) (own : gmap Z (Z * Z)).
Abbreviation statics := ({[stdin; stdout]} : gset Z).
Implicit Types (m : gmap Z Z) (I : gmap Z inode) (F : gmap Z file) (P : gmap Z proc).

Record fd_ok m I F P : Prop := {
  fd_cache : cache_ok sb m I;
  fd_clean : forall c i, I !! c = Some i -> c <> NULL /\ i_inum i ∈ G /\ i = load_inode D (i_inum i) (i_ref i);
  fd_refs : refs_exact I (file_inodes F ++ cwds P) [];
  fd_file : forall f x, F !! f = Some x -> f <> NULL /\ f_lock x = false /\
    (f ∈ statics /\ f_inode x = NULL \/ (f ∉ statics) /\ f_ops x = Some SfsOps /\ f_inode x <> NULL /\ f_ref x = count f (all_fds P) /\ 0 < f_ref x);
  fd_slot : forall f, f ∈ all_fds P -> f = NULL \/ is_Some (F !! f);
  fd_len : forall p x, P !! p = Some x -> length (file_descriptors x) = 128%nat;
  fd_bound : Z.of_nat (size P) < 2 ^ 23
}.

(** ** Bounds *)

Lemma all_fds_length P : (forall p x, P !! p = Some x -> length (file_descriptors x) = 128%nat) -> Z.of_nat (length (all_fds P)) = 128 * Z.of_nat (size P).
Proof using Type.
  clear. induction P as [|p x P Hp IH] using map_ind; intros H; [done|].
  rewrite (Permutation_length (all_fds_upd P p x)), delete_id, length_app, map_size_insert_None by done. rewrite (H p x) by apply lookup_insert_eq.
  rewrite Nat2Z.inj_add, IH; [lia|]. intros q y Hq. apply (H q). rewrite lookup_insert_ne; [done|congruence].
Qed.

Lemma fd_files_bound m I F P : fd_ok m I F P -> Z.of_nat (size F) <= 128 * Z.of_nat (size P) + 2.
Proof using Type.
  intros HI. assert (Hsub : dom F ⊆ statics ∪ list_to_set (all_fds P)).
  { intros f [x Hx]%elem_of_dom. destruct (fd_file _ _ _ _ HI f x Hx) as (_ & _ & [[? _]|(_ & _ & _ & Hr & Hp)]); [set_solver|].
    apply elem_of_union_r, elem_of_list_to_set, count_elem. lia. }
  pose proof (subseteq_size _ _ Hsub) as Hs. rewrite size_dom in Hs. pose proof (all_fds_length P (fd_len _ _ _ _ HI)) as Hl.
  assert (Hss : (size statics <= 2)%nat).
  { destruct (decide (stdin = stdout)) as [->|Hne]; [rewrite union_idemp_L, size_singleton; lia|]. rewrite size_union, !size_singleton by set_solver. lia. }
  pose proof (size_list_bound (all_fds P)) as Hll. pose proof (size_union_bound statics (list_to_set (all_fds P))). lia.
Qed.

(** ** The tree as it is in memory *)

Lemma cur_clean m I F P n : fd_ok m I F P -> n ∈ G -> cur D m I n = load_inode D n (i_ref (cur D m I n)).
Proof using Type.
  intros HI Hn. destruct (m !! n) as [c|] eqn:Hm; [|by rewrite (cur_disk D m I n Hm)].
  destruct (co_cached _ _ _ (fd_cache _ _ _ _ HI) _ _ Hm) as (i & Hi & En). rewrite (cur_cached D m I n c i Hm Hi).
  destruct (fd_clean _ _ _ _ HI c i Hi) as (_ & _ & E). by rewrite En in E.
Qed.

Lemma cur_bound m I F P n : fd_ok m I F P -> 0 <= i_ref (cur D m I n) /\ i_ref (cur D m I n) + 1 < 2 ^ 32.
Proof using Type.
  intros HI. destruct (m !! n) as [c|] eqn:Hm; [|by rewrite (cur_disk D m I n Hm)].
  destruct (co_cached _ _ _ (fd_cache _ _ _ _ HI) _ _ Hm) as (i & Hi & _). rewrite (cur_cached D m I n c i Hm Hi).
  destruct (fd_refs _ _ _ _ HI) as [Hr _]. specialize (Hr c). rewrite Hi in Hr. change (count c []) with 0 in Hr. pose proof (holders_nonneg c (file_inodes F ++ cwds P)) as Hb.
  rewrite length_app, cwds_length in Hb. pose proof (file_inodes_length F). pose proof (fd_files_bound m I F P HI). pose proof (fd_bound _ _ _ _ HI). lia.
Qed.

Lemma tree_now m I F P : tree_ok sb D G A own ∅ ∅ -> fd_ok m I F P -> tree_ok sb D G A own m I.
Proof using Type.
  intros Hdisk HI. split; [apply HI|apply Hdisk| |]; intros n Hn; rewrite (cur_clean m I F P n HI Hn).
  - destruct (to_file _ _ _ _ _ _ _ Hdisk n Hn) as (H1 & H2 & H3 & _ & H5). destruct (cur_bound m I F P n HI) as [_ Hb].
    rewrite !(cur_disk D ∅ ∅ n (lookup_empty n)) in *. split; [done|]. split; [done|]. split; [done|]. split; [exact Hb|]. intros _. apply H5. apply lookup_empty.
  - intros Hd. destruct (to_dir _ _ _ _ _ _ _ Hdisk n Hn) as [H1 H2]; rewrite !(cur_disk D ∅ ∅ n (lookup_empty n)) in *; [exact Hd|]. by split.
Qed.

Lemma tree_same m I F P : fd_ok m I F P -> forall n, n ∈ G -> tree D m I n = tree D ∅ ∅ n.
Proof using Type. intros HI n Hn. unfold tree. rewrite (cur_clean m I F P n HI Hn), (cur_disk D ∅ ∅ n (lookup_empty n)). done. Qed.

(** ** The operations on tables *)

Lemma refs_perm I H H' K : H ≡ₚ H' -> refs_exact I H K -> refs_exact I H' K.
Proof using Type. intros Hp [H1 H2]. split; [|done]. intros p. by rewrite <- (count_perm p H H' Hp). Qed.

(** A slot that holds NULL or a file of the console gets the file [f]. *)
Lemma fd_ok_put m I F P p x (i : nat) g f y r : fd_ok m I F P -> P !! p = Some x -> file_descriptors x !! i = Some g -> g = NULL \/ g ∈ statics ->
  F !! f = Some y -> ((f ∉ statics) -> r = f_ref y + 1) ->
  fd_ok m I (<[f := set_fref r y]> F) (<[p := set_fds (<[i := f]> (file_descriptors x)) x]> P).
Proof using Type.
  intros HI Hp Hi Hg Hf Hr. destruct (fd_file _ _ _ _ HI f y Hf) as (Hfn & Hfl & Hfs).
  assert (Hc : forall h, h <> NULL -> (h ∉ statics) -> count h (all_fds (<[p := set_fds (<[i := f]> (file_descriptors x)) x]> P)) = count h (all_fds P) + (if decide (f = h) then 1 else 0)).
  { intros h Hh Hhs. rewrite (count_fds_upd _ _ _ _ _ Hp). cbn [file_descriptors set_fds]. rewrite (count_insert h _ i g f Hi).
    rewrite (decide_False (P := g = h)); [lia|]. destruct Hg; congruence. }
  destruct HI as [H1 H2 H3 H4 H5 H6 H7]. split; try done.
  - eapply refs_perm; [|exact H3]. rewrite (file_inodes_upd F f y) by done. by rewrite (cwds_upd P p x).
  - intros h z. rewrite lookup_insert. case_decide as E.
    + subst h. intros [= <-]. split; [done|]. split; [done|]. destruct Hfs as [Hfs|(Hns & Ho & Hin & Hrf & Hpos)]; [by left|right].
      cbn [f_ops f_ref f_inode set_fref]. rewrite Hc, decide_True by done. rewrite Hr by done. split_and!; try done; lia.
    + intros Hz. destruct (H4 h z Hz) as (Hn & Hl & Hs). split; [done|]. split; [done|]. destruct Hs as [Hs|(Hns & Ho & Hin & Hrf & Hpos)]; [by left|right].
      rewrite Hc, decide_False by done. split_and!; try done. lia.
  - intros h. rewrite (all_fds_upd P p), elem_of_app. cbn [file_descriptors set_fds]. intros Hh. destruct (decide (h = f)) as [->|Hne]; [right; rewrite lookup_insert_eq; by eexists|].
    rewrite lookup_insert_ne by congruence. apply H5. rewrite (all_fds_at P p x Hp), elem_of_app. destruct Hh as [Hh|]; [left|by right].
    by apply in_insert in Hh as [?|?].
  - intros q z. rewrite lookup_insert. case_decide; [intros [= <-]; cbn; rewrite length_insert; by eapply H6|apply H6].
  - rewrite map_size_insert_Some by (by eexists). done.
Qed.

(** A slot that holds [f] is cleared. *)
Lemma cleared_count P p x (i : nat) f h : P !! p = Some x -> file_descriptors x !! i = Some f -> h <> NULL ->
  count h (all_fds (<[p := set_fds (<[i := NULL]> (file_descriptors x)) x]> P)) = count h (all_fds P) - (if decide (f = h) then 1 else 0).
Proof using Type.
  intros Hp Hi Hh. rewrite (count_fds_upd _ _ _ _ _ Hp). cbn [file_descriptors set_fds]. rewrite (count_insert h _ i f NULL Hi).
  rewrite (decide_False (P := NULL = h)) by congruence. lia.
Qed.

Lemma cleared_slots P p x (i : nat) h : P !! p = Some x -> h ∈ all_fds (<[p := set_fds (<[i := NULL]> (file_descriptors x)) x]> P) -> h = NULL \/ h ∈ all_fds P.
Proof using Type.
  intros Hp. rewrite (all_fds_upd P p), elem_of_app. cbn [file_descriptors set_fds]. rewrite (all_fds_at P p x Hp), elem_of_app. intros [[?|?]%in_insert|?]; [by left|by right; left|by right; right].
Qed.

Lemma cleared_len P p x (i : nat) : (forall q z, P !! q = Some z -> length (file_descriptors z) = 128%nat) -> P !! p = Some x ->
  forall q z, <[p := set_fds (<[i := NULL]> (file_descriptors x)) x]> P !! q = Some z -> length (file_descriptors z) = 128%nat.
Proof using Type. intros H Hp q z. rewrite lookup_insert. case_decide; [intros [= <-]; cbn; rewrite length_insert; by eapply H|apply H]. Qed.

Lemma fd_ok_drop m I F P p x (i : nat) f y r : fd_ok m I F P -> P !! p = Some x -> file_descriptors x !! i = Some f -> F !! f = Some y ->
  f ∈ statics \/ r = f_ref y - 1 /\ 1 < f_ref y ->
  fd_ok m I (<[f := set_fref r y]> F) (<[p := set_fds (<[i := NULL]> (file_descriptors x)) x]> P).
Proof using Type.
  intros HI Hp Hi Hf Hr. destruct (fd_file _ _ _ _ HI f y Hf) as (Hfn & Hfl & Hfs). destruct HI as [H1 H2 H3 H4 H5 H6 H7]. split; try done.
  - eapply refs_perm; [|exact H3]. rewrite (file_inodes_upd F f y) by done. by rewrite (cwds_upd P p x).
  - intros h z. rewrite lookup_insert. case_decide as E.
    + subst h. intros [= <-]. split; [done|]. split; [done|]. destruct Hfs as [Hfs|(Hns & Ho & Hin & Hrf & Hpos)]; [by left|right].
      cbn [f_ops f_ref f_inode set_fref]. rewrite (cleared_count P p x i f f), decide_True by done. destruct Hr as [|[-> Hgt]]; [done|]. split_and!; try done; lia.
    + intros Hz. destruct (H4 h z Hz) as (Hn & Hl & Hs). split; [done|]. split; [done|]. destruct Hs as [Hs|(Hns & Ho & Hin & Hrf & Hpos)]; [by left|right].
      rewrite (cleared_count P p x i f h), decide_False by done. split_and!; try done. lia.
  - intros h Hh%cleared_slots; [|done]. destruct Hh as [?|Hh]; [by left|]. destruct (decide (h = f)) as [->|Hne]; [right; rewrite lookup_insert_eq; by eexists|].
    rewrite lookup_insert_ne by congruence. by apply H5.
  - by apply cleared_len.
  - rewrite map_size_insert_Some by (by eexists). done.
Qed.

(** The last slot of a file is cleared: the file goes, its inode is released. *)
Lemma fd_ok_free m I F P p x (i : nat) f y j m' I' K' : fd_ok m I F P -> P !! p = Some x -> file_descriptors x !! i = Some f -> F !! f = Some y ->
  (f ∉ statics) -> f_ref y = 1 -> I !! f_inode y = Some j -> (forall n, n ∈ G -> i_nlink (load_inode D n 0) <> 0) -> released m I [] (f_inode y) j = (m', I', K') ->
  K' = [] /\ fd_ok m' I' (delete f F) (<[p := set_fds (<[i := NULL]> (file_descriptors x)) x]> P).
Proof using Type.
  intros HI Hp Hi Hf Hns Hr Hj Hnl Er. destruct (fd_file _ _ _ _ HI f y Hf) as (Hfn & Hfl & [[? _]|(_ & Ho & Hin & Hrf & Hpos)]); [done|].
  destruct (fd_clean _ _ _ _ HI _ _ Hj) as (_ & HjG & Ej). pose proof (Hnl _ HjG) as Hn0. destruct HI as [H1 H2 H3 H4 H5 H6 H7].
  assert (HK : K' = []).
  { unfold released in Er. rewrite Ej in Er. cbn [i_ref i_nlink i_dirty load_inode orb] in Er. cbn [i_nlink load_inode] in Hn0. rewrite (proj2 (Z.eqb_neq _ 0) Hn0) in Er.
    cbn [orb] in Er. case_match; by injection Er as _ _ <-. }
  split; [done|]. subst K'. pose proof (released_cache sb _ _ _ _ _ _ _ _ H1 Hj Er) as Hc'. split; try done.
  - intros c k Hk. assert (Hor : exists k0, I !! c = Some k0 /\ (k = k0 \/ c = f_inode y /\ k = set_ref (i_ref j - 1) j)).
    { unfold released in Er. repeat case_match; injection Er as _ <- ; [by exists k; auto|apply lookup_delete_Some in Hk as [_ Hk]; by exists k; auto|].
      rewrite lookup_insert in Hk. case_decide; [subst c; injection Hk as <-; exists j; auto|by exists k; auto]. }
    destruct Hor as (k0 & Hk0 & [->|[-> ->]]); [by apply (H2 c)|]. split; [by eapply H2|]. cbn [i_inum i_ref set_ref]. split; [done|]. rewrite Ej at 2. by rewrite Ej at 1.
  - assert (Hp1 : file_inodes F ++ cwds P ≡ₚ f_inode y :: file_inodes (delete f F) ++ cwds (<[p := set_fds (<[i := NULL]> (file_descriptors x)) x]> P)).
    { rewrite (file_inodes_at F f y) by done. by rewrite (cwds_upd P p x). }
    apply (refs_perm _ _ _ _ Hp1) in H3. exact (refs_released sb m I _ [] 0 (f_inode y) j m' I' [] H1 H3 eq_refl Hj Er).
  - intros h z [Hne Hz]%lookup_delete_Some. destruct (H4 h z Hz) as (Hn & Hl & Hs). split; [done|]. split; [done|].
    destruct Hs as [Hs|(Hns' & Ho' & Hin' & Hrf' & Hpos')]; [by left|right]. rewrite (cleared_count P p x i f h), decide_False by done. split_and!; try done. lia.
  - intros h Hh. destruct (decide (h = f)) as [->|Hne].
    + exfalso. apply count_elem in Hh. rewrite (cleared_count P p x i f f), decide_True in Hh by done. lia.
    + apply cleared_slots in Hh; [|done]. destruct Hh as [?|Hh]; [by left|]. rewrite lookup_delete_ne by congruence. by apply H5.
  - by apply cleared_len.
  - rewrite map_size_insert_Some by (by eexists). done.
Qed.

(** A new file on the inode [n] in an empty slot. *)
Lemma fd_ok_open m I F P p x (i : nat) f n c o : fd_ok m I F P -> is_inum sb n -> P !! p = Some x -> file_descriptors x !! i = Some NULL -> F !! f = None -> f <> NULL -> (f ∉ statics) ->
  n ∈ G -> c <> NULL -> place m I n c ->
  fd_ok (got D m I n c).1 (got D m I n c).2 (<[f := mkFile 1 o c 0 false (Some SfsOps)]> F) (<[p := set_fds (<[i := f]> (file_descriptors x)) x]> P).
Proof using Type.
  intros HI Hin Hp Hi Hf Hfn Hns Hn Hcn Hpl. pose proof (cur_clean m I F P n HI Hn) as Ec. pose proof (cur_bound m I F P n HI) as [Hb0 Hb]. destruct HI as [H1 H2 H3 H4 H5 H6 H7].
  assert (Hf0 : count f (all_fds P) = 0).
  { destruct (decide (f ∈ all_fds P)) as [Hin'|Hni]; [destruct (H5 f Hin') as [|[? ?]]; congruence|]. pose proof (holders_nonneg f (all_fds P)) as Hh. rewrite count_elem in Hni. lia. }
  assert (Hc : forall h, h <> NULL -> count h (all_fds (<[p := set_fds (<[i := f]> (file_descriptors x)) x]> P)) = count h (all_fds P) + (if decide (f = h) then 1 else 0)).
  { intros h Hh. rewrite (count_fds_upd _ _ _ _ _ Hp). cbn [file_descriptors set_fds]. rewrite (count_insert h _ i NULL f Hi). rewrite (decide_False (P := NULL = h)) by congruence. lia. }
  split.
  - by apply got_cache.
  - intros d k. unfold got. cbn [snd]. rewrite lookup_insert. case_decide; [subst d; intros [= <-]|apply H2]. rewrite Ec. cbn [i_inum set_ref load_inode]. done.
  - eapply refs_perm; [|by apply (refs_got sb D m I (file_inodes F ++ cwds P) [] n c)].
    rewrite (file_inodes_new F f) by done. cbn [f_inode]. rewrite (cwds_upd P p x) by done. done.
  - intros h z. rewrite lookup_insert. case_decide as E.
    + subst h. intros [= <-]. split; [done|]. split; [done|]. right. cbn [f_ops f_ref f_inode]. rewrite Hc, decide_True, Hf0 by done. split_and!; try done; lia.
    + intros Hz. destruct (H4 h z Hz) as (Hnn & Hl & Hs). split; [done|]. split; [done|]. destruct Hs as [Hs|(Hns' & Ho & Hin' & Hrf & Hpos)]; [by left|right].
      rewrite Hc, decide_False by done. split_and!; try done. lia.
  - intros h. rewrite (all_fds_upd P p), elem_of_app. cbn [file_descriptors set_fds]. intros Hh. destruct (decide (h = f)) as [->|Hne]; [right; rewrite lookup_insert_eq; by eexists|].
    rewrite lookup_insert_ne by congruence. apply H5. rewrite (all_fds_at P p x Hp), elem_of_app. destruct Hh as [Hh|]; [left|by right]. by apply in_insert in Hh as [?|?].
  - intros q z. rewrite lookup_insert. case_decide; [intros [= <-]; cbn; rewrite length_insert; by eapply H6|apply H6].
  - rewrite map_size_insert_Some by (by eexists). done.
Qed.
End fds.

(** * System calls on descriptors keep the tables consistent *)

Section fds.
Context (sb : sfs_sb_info) (Hly : layout sb).
Context {B R O Pg Ob Pa : Type} `{!Blocks B, !ObjAlloc R, !ObjAlloc O, !PageAlloc Pg, !ObjAlloc Ob, !ObjAlloc Pa}.
Context (ic sc fc szm szf stdin stdout : Z).
Context (other_close : Z -> M (vfs B R O) unit).
Context (D : Z -> list Z) (U : list (Z * Z)) (G : gset Z) (A : gmap Z (list Z)) (own : gmap Z (Z * Z)).
(** The address spaces and the user memory. *)
Context (w : vmst Pg Ob) (um : gmap Z Z).
Abbreviation statics := ({[stdin; stdout]} : gset Z).
Abbreviation vrep := (vrep ic sc fc statics D U ∅).
Implicit Types (s : pst B R O Pg Ob Pa) (v : vfs B R O) (m : gmap Z Z) (I : gmap Z inode) (F : gmap Z file) (P : gmap Z proc) (rv : nat * nat).

Record prep m I F P (cur : Z) s : Prop := {
  pr_vfs : vrep F (enough 0) false m I [] (ps_vfs s);
  pr_procs : ps_procs s = P;
  pr_cur : ps_cur s = cur;
  pr_vm : ps_vm s = w;
  pr_umem : ps_umem s = um
}.

(** ** Steps *)

Lemma prep_vfs m I F P cur s m' I' F' v : prep m I F P cur s -> vrep F' (enough 0) false m' I' [] v -> prep m' I' F' P cur (set_vfs v s).
Proof using Type. intros [V1 V2 V3 V4 V5] V. by split. Qed.

Lemma wp_cur m I F P cur s (Q : Z -> pst B R O Pg Ob Pa -> Prop) : prep m I F P cur s -> Q cur s -> wp proc_current Q s.
Proof using Type. intros V HQ. unfold proc_current. wp_step. by rewrite (pr_cur _ _ _ _ _ _ V). Qed.

Lemma wp_get_proc m I F P cur s p x (Q : proc -> pst B R O Pg Ob Pa -> Prop) : prep m I F P cur s -> P !! p = Some x -> Q x s -> wp (get_proc p) Q s.
Proof using Type. intros V Hp HQ. unfold get_proc. wp_step. wp_step. rewrite (pr_procs _ _ _ _ _ _ V), Hp. by wp_step. Qed.

Lemma wp_get_fd m I F P cur s p x fd f (Q : Z -> pst B R O Pg Ob Pa -> Prop) : prep m I F P cur s -> P !! p = Some x -> 0 <= fd ->
  file_descriptors x !! Z.to_nat fd = Some f -> Q f s -> wp (get_fd p fd) Q s.
Proof using Type.
  intros V Hp H0 Hf HQ. unfold get_fd. wp_step. eapply wp_get_proc; [exact V|exact Hp|]. rewrite (proj2 (Z.leb_le 0 fd) H0), Hf. by wp_step.
Qed.

Lemma wp_put_fd m I F P cur s p x fd f g (Q : unit -> pst B R O Pg Ob Pa -> Prop) : prep m I F P cur s -> P !! p = Some x -> 0 <= fd ->
  file_descriptors x !! Z.to_nat fd = Some g ->
  (forall s', prep m I F (<[p := set_fds (<[Z.to_nat fd := f]> (file_descriptors x)) x]> P) cur s' -> Q tt s') -> wp (put_fd p fd f) Q s.
Proof using Type.
  intros V Hp H0 Hg HQ. unfold put_fd, upd_proc. wp_step. eapply wp_get_fd; [exact V|exact Hp|done|exact Hg|]. wp_step. eapply wp_get_proc; [exact V|exact Hp|].
  wp_step. apply HQ. destruct V as [V1 V2 V3 V4 V5]. split; try done. cbn. by rewrite V2.
Qed.

(** find_lowest_null_fd: the lowest empty slot from [from] on. *)
Lemma wp_find_fd m I F P cur s p x from (Q : Z -> pst B R O Pg Ob Pa -> Prop) : prep m I F P cur s -> P !! p = Some x -> p <> NULL -> 0 <= from <= 128 ->
  length (file_descriptors x) = 128%nat ->
  ((forall k, from <= k < 128 -> file_descriptors x !! Z.to_nat k <> Some NULL) -> Q (-1) s) ->
  (forall fd, from <= fd < 128 -> file_descriptors x !! Z.to_nat fd = Some NULL -> (forall k, from <= k < fd -> file_descriptors x !! Z.to_nat k <> Some NULL) -> Q fd s) ->
  wp (find_fd from p) Q s.
Proof using Type.
  intros V Hp Hpn Hfr Hl HQ0 HQ. unfold find_fd. rewrite (proj2 (Z.eqb_neq p NULL) Hpn). wp_step. change PROC_MAX_FILE with 128.
  eapply wp_for_ret with (I := fun j s' => s' = s /\ forall k, from <= k < j -> file_descriptors x !! Z.to_nat k <> Some NULL).
  - split; [done|]. intros k Hk. lia.
  - intros j s' Hj [-> Hno]. destruct (lookup_lt_is_Some_2 (file_descriptors x) (Z.to_nat j)) as [f Hf]; [lia|]. wp_step.
    eapply wp_get_fd; [exact V|exact Hp|lia|exact Hf|]. destruct (Z.eqb_spec f NULL) as [->|Hne]; wp_step; [wp_step; apply (HQ j); [lia|done|done]|].
    split; [done|]. intros k Hk. destruct (decide (k = j)) as [->|]; [congruence|]. apply Hno. lia.
  - intros s' [-> Hno]. wp_step. apply HQ0. intros k Hk. apply Hno. lia.
Qed.

(** ** File operations *)

Lemma wp_reopen {rv} F lk m I K v f x (Q : unit -> vfs B R O -> Prop) : vrep F rv lk m I K v -> F !! f = Some x -> f_lock x = false ->
  (forall v', vrep (<[f := set_fref (i32 (f_ref x + 1)) x]> F) rv lk m I K v' -> Q tt v') -> wp (fs_reopen_file f) Q v.
Proof using Type.
  intros V Hf Hl HQ. unfold fs_reopen_file, lock_file, unlock_file. wp_step. wp_step. eapply wp_vr_file; [exact V|exact Hf|]. rewrite Hl.
  eapply wp_vr_upd_file; [exact V|exact Hf|]. intros v1 V1. wp_step. eapply wp_vr_upd_file; [exact V1|apply lookup_insert_eq|]. intros v2 V2.
  rewrite insert_insert_eq in V2. eapply wp_vr_upd_file; [exact V2|apply lookup_insert_eq|]. intros v3 V3. rewrite insert_insert_eq in V3. apply HQ.
  destruct x. unfold set_fref, set_flock in V3. cbn in *. by subst.
Qed.

Lemma wp_close_keep {rv} F lk m I K v f x (Q : unit -> vfs B R O -> Prop) : vrep F rv lk m I K v -> F !! f = Some x -> f_lock x = false ->
  (0 <? i32 (f_ref x - 1)) || (f =? stdin) || (f =? stdout) = true ->
  (forall v', vrep (<[f := set_fref (i32 (f_ref x - 1)) x]> F) rv lk m I K v' -> Q tt v') -> wp (fs_close_file ic sc fc stdin stdout other_close f) Q v.
Proof using Type.
  intros V Hf Hl Hk HQ. unfold fs_close_file, lock_file, unlock_file. wp_step. wp_step. eapply wp_vr_file; [exact V|exact Hf|]. rewrite Hl.
  eapply wp_vr_upd_file; [exact V|exact Hf|]. intros v1 V1. wp_step. eapply wp_vr_upd_file; [exact V1|apply lookup_insert_eq|]. intros v2 V2.
  rewrite insert_insert_eq in V2. wp_step. eapply wp_vr_file; [exact V2|apply lookup_insert_eq|]. cbn [f_ref set_fref set_flock]. rewrite Hk.
  eapply wp_vr_upd_file; [exact V2|apply lookup_insert_eq|]. intros v3 V3. rewrite insert_insert_eq in V3. apply HQ. destruct x. unfold set_fref, set_flock in V3. cbn in *. by subst.
Qed.

Context (Hszr : oa_size_ok (St := R) SIZEOF_RADIX_NODE).

Lemma wp_close_last {rv} F m I K v f x j (Q : unit -> vfs B R O -> Prop) : vrep F rv false m I K v -> cache_ok sb m I -> F !! f = Some x -> f_lock x = false ->
  (0 <? i32 (f_ref x - 1)) || (f =? stdin) || (f =? stdout) = false -> (f ∉ statics) -> f_ops x = Some SfsOps -> f_inode x <> NULL -> I !! f_inode x = Some j -> i_lock j = false ->
  (forall v' m' I' K', released m I K (f_inode x) j = (m', I', K') -> vrep (delete f F) rv false m' I' K' v' -> Q tt v') ->
  wp (fs_close_file ic sc fc stdin stdout other_close f) Q v.
Proof using Hly Hszr.
  intros V Hc Hf Hl Hk Hns Ho Hin Hj Hjl HQ. unfold fs_close_file, lock_file, unlock_file. wp_step. wp_step. eapply wp_vr_file; [exact V|exact Hf|]. rewrite Hl.
  eapply wp_vr_upd_file; [exact V|exact Hf|]. intros v1 V1. wp_step. eapply wp_vr_upd_file; [exact V1|apply lookup_insert_eq|]. intros v2 V2.
  rewrite insert_insert_eq in V2. wp_step. eapply wp_vr_file; [exact V2|apply lookup_insert_eq|]. cbn [f_ref f_inode f_ops set_fref set_flock]. rewrite Hk, Ho, (nonnull_true _ Hin).
  wp_step. eapply wp_vr_upd_file; [exact V2|apply lookup_insert_eq|]. intros v3 V3. rewrite insert_insert_eq in V3. wp_step.
  eapply (wp_vr_release sb Hly); [exact Hszr|exact V3|exact Hc|exact Hj|exact Hjl|]. intros v4 m' I' K' Er V4. wp_step. wp_step; [done|]. cbn match. wp_step. wp_step.
  eapply wp_vr_free_file; [exact V4|rewrite lookup_insert_eq; by eexists|done|]. intros v5 V5. rewrite delete_insert_eq in V5. by eapply HQ.
Qed.

(** ** The system calls *)

Abbreviation fd_ok := (fd_ok sb stdin stdout D G).
Hypothesis Hdisk : tree_ok sb D G A own ∅ ∅.

Lemma disk_nlink n : n ∈ G -> i_nlink (load_inode D n 0) <> 0.
Proof using Hdisk. intros Hn. destruct (to_file _ _ _ _ _ _ _ Hdisk n Hn) as (_ & _ & _ & _ & H). apply H. apply lookup_empty. Qed.

Lemma file_ref_bound m I F P f x : fd_ok m I F P -> F !! f = Some x -> (f ∉ statics) -> 0 < f_ref x < 2 ^ 31 - 1.
Proof using Type.
  intros HI Hf Hns. destruct (fd_file _ _ _ _ _ _ _ _ _ HI f x Hf) as (_ & _ & [[? _]|(_ & _ & _ & Hr & Hp)]); [done|].
  pose proof (holders_nonneg f (all_fds P)) as Hb. pose proof (all_fds_length P (fd_len _ _ _ _ _ _ _ _ _ HI)). pose proof (fd_bound _ _ _ _ _ _ _ _ _ HI). clear Hdisk. lia.
Qed.

Lemma static_test f : (f =? stdin) || (f =? stdout) = bool_decide (f ∈ statics).
Proof using Type.
  destruct (Z.eqb_spec f stdin) as [->|H1]; [rewrite bool_decide_true by (clear; set_solver); done|].
  destruct (Z.eqb_spec f stdout) as [->|H2]; [rewrite bool_decide_true by (clear; set_solver); done|]. rewrite bool_decide_false; [done|]. clear -H1 H2. set_solver.
Qed.

(** A descriptor is closed and its slot cleared. *)
Lemma wp_close_slot m I F P cur s p x fd f (Q : unit -> pst B R O Pg Ob Pa -> Prop) : prep m I F P cur s -> fd_ok m I F P -> P !! p = Some x -> 0 <= fd ->
  file_descriptors x !! Z.to_nat fd = Some f -> f <> NULL ->
  (forall m' I' F' s', let P' := <[p := set_fds (<[Z.to_nat fd := NULL]> (file_descriptors x)) x]> P in prep m' I' F' P' cur s' -> fd_ok m' I' F' P' -> Q tt s') ->
  wp (on_vfs (fs_close_file ic sc fc stdin stdout other_close f)) (fun _ s1 => wp (put_fd p fd NULL) Q s1) s.
Proof using Hly Hszr Hdisk.
  intros V HI Hp H0 Hf Hfn HQ. destruct (fd_slot _ _ _ _ _ _ _ _ _ HI f) as [|[y Hy]]; [rewrite (all_fds_at P p x Hp); apply elem_of_app; left; by eapply list_elem_of_lookup_2|done|].
  destruct (fd_file _ _ _ _ _ _ _ _ _ HI f y Hy) as (_ & Hl & Hs). unfold on_vfs. wp_step.
  destruct ((0 <? i32 (f_ref y - 1)) || (f =? stdin) || (f =? stdout)) eqn:Ek.
  - eapply wp_close_keep; [apply V|exact Hy|exact Hl|exact Ek|]. intros v' V'. eapply wp_put_fd; [by eapply prep_vfs|exact Hp|done|exact Hf|]. intros s' Vs. eapply HQ; [exact Vs|].
    apply fd_ok_drop; try done. rewrite <- orb_assoc, static_test in Ek. destruct (decide (f ∈ statics)) as [|Hns]; [by left|right]. rewrite bool_decide_false, orb_false_r in Ek by done.
    pose proof (file_ref_bound _ _ _ _ _ _ HI Hy Hns). rewrite (wraps_small 32) in * by lia. apply Z.ltb_lt in Ek. lia.
  - pose proof Ek as Ek'. rewrite <- orb_assoc, static_test, orb_false_iff in Ek'. destruct Ek' as [Hr Hns%bool_decide_eq_false]. destruct Hs as [[? _]|(_ & Ho & Hin & Hrf & Hpos)]; [done|].
    assert (Hj : is_Some (I !! f_inode y)).
    { destruct (fd_refs _ _ _ _ _ _ _ _ _ HI) as [Hx _]. specialize (Hx (f_inode y)). destruct (I !! f_inode y); [done|].
      assert (f_inode y ∈ file_inodes F ++ cwds P) as Hc%count_elem by (rewrite (file_inodes_at F f y Hy Hin); left). change (count (f_inode y) []) with 0 in Hx. clear Hdisk. lia. }
    destruct Hj as [j Hj]. eapply wp_close_last; [apply V|apply HI|exact Hy|exact Hl|exact Ek|exact Hns|exact Ho|exact Hin|exact Hj|by eapply (proj2 (fd_refs _ _ _ _ _ _ _ _ _ HI))|].
    intros v' m' I' K' Er V'. pose proof (file_ref_bound _ _ _ _ _ _ HI Hy Hns). rewrite (wraps_small 32) in Hr by lia. apply Z.ltb_ge in Hr.
    destruct (fd_ok_free sb stdin stdout D G m I F P p x (Z.to_nat fd) f y j m' I' K' HI Hp Hf Hy Hns ltac:(lia) Hj disk_nlink Er) as [-> HI'].
    eapply wp_put_fd; [by eapply prep_vfs|exact Hp|done|exact Hf|]. intros s' Vs. by eapply HQ.
Qed.

(** A slot without a file of its own gets the file [f], with a reference. *)
Lemma wp_share_slot m I F P cur s p x fd g f (Q : unit -> pst B R O Pg Ob Pa -> Prop) : prep m I F P cur s -> fd_ok m I F P -> P !! p = Some x -> 0 <= fd ->
  file_descriptors x !! Z.to_nat fd = Some g -> g = NULL \/ g ∈ statics -> f <> NULL -> f ∈ all_fds P ->
  (forall m' I' F' s', let P' := <[p := set_fds (<[Z.to_nat fd := f]> (file_descriptors x)) x]> P in prep m' I' F' P' cur s' -> fd_ok m' I' F' P' -> Q tt s') ->
  wp (put_fd p fd f) (fun _ s1 => wp (on_vfs (fs_reopen_file f)) Q s1) s.
Proof using Type.
  clear Hdisk Hszr. intros V HI Hp H0 Hg Hgs Hfn Hin HQ. destruct (fd_slot _ _ _ _ _ _ _ _ _ HI f Hin) as [|[y Hy]]; [done|].
  destruct (fd_file _ _ _ _ _ _ _ _ _ HI f y Hy) as (_ & Hl & Hs). eapply wp_put_fd; [exact V|exact Hp|done|exact Hg|]. intros s1 V1. unfold on_vfs. wp_step.
  eapply wp_reopen; [apply V1|exact Hy|exact Hl|]. intros v2 V2. eapply HQ; [by eapply prep_vfs|]. eapply fd_ok_put; try done.
  intros Hns. pose proof (file_ref_bound _ _ _ _ _ _ HI Hy Hns). apply (wraps_small 32); lia.
Qed.

Lemma table_slot P p x fd f : P !! p = Some x -> file_descriptors x !! fd = Some f -> f ∈ all_fds P.
Proof using Type. clear. intros Hp Hf. rewrite (all_fds_at P p x Hp). apply elem_of_app. left. by eapply list_elem_of_lookup_2. Qed.

(** *** The calls on the table of a process *)

(** The lowest empty slot from [from] on. *)
Definition lowest_fd (from : nat) (l : list Z) : option nat := fst <$> list_find (fun kf => (from <= kf.1)%nat /\ kf.2 = NULL) (imap pair l).

Lemma lowest_some from l k : l !! k = Some NULL -> (from <= k)%nat -> (forall j, (from <= j < k)%nat -> l !! j <> Some NULL) -> lowest_fd from l = Some k.
Proof using Type.
  clear. intros Hk Hf Hno. unfold lowest_fd. rewrite (proj2 (list_find_Some _ _ k (k, NULL))); [done|]. rewrite list_lookup_imap, Hk. split; [done|]. split; [done|].
  intros j y Hj Hlt [H1 H2]. rewrite list_lookup_imap in Hj. destruct (l !! j) as [g|] eqn:E; [|done]. injection Hj as <-. cbn in H1, H2. subst g. apply (Hno j); [lia|done].
Qed.
Lemma lowest_none from l : (forall j, (from <= j < length l)%nat -> l !! j <> Some NULL) -> lowest_fd from l = None.
Proof using Type.
  clear. intros Hno. unfold lowest_fd. rewrite (proj2 (list_find_None _ _)); [done|]. apply Forall_forall. intros y [j Hj]%list_elem_of_lookup [H1 H2].
  rewrite list_lookup_imap in Hj. destruct (l !! j) as [g|] eqn:E; [|done]. injection Hj as <-. cbn in H1, H2. subst g. apply (Hno j); [apply lookup_lt_Some in E; lia|done].
Qed.

Lemma lowest_inv from l : match lowest_fd from l with
  | Some k => l !! k = Some NULL /\ (from <= k)%nat /\ forall j, (from <= j < k)%nat -> l !! j <> Some NULL
  | None => forall j, (from <= j < length l)%nat -> l !! j <> Some NULL
  end.
Proof using Type.
  clear. unfold lowest_fd. destruct (list_find _ _) as [[k y]|] eqn:E; cbn [fmap option_fmap option_map fst].
  - apply list_find_Some in E as (Hk & [H1 H2] & Hno). rewrite list_lookup_imap in Hk. destruct (l !! k) as [g|] eqn:Eg; [|done]. injection Hk as <-. cbn in H1, H2. subst g.
    split; [done|]. split; [done|]. intros j Hj Ej. apply (Hno j (j, NULL)); [by rewrite list_lookup_imap, Ej|lia|split; [cbn; lia|done]].
  - apply list_find_None in E. rewrite Forall_forall in E. intros j Hj Ej. apply (E (j, NULL)); [|split; [cbn; lia|done]].
    apply (list_elem_of_lookup_2 _ j). by rewrite list_lookup_imap, Ej.
Qed.

(** While the slots 0 and 1 are in use, the lowest empty slot is the lowest from
    2 on. *)
Lemma lowest_std l : l !! 0%nat <> Some NULL -> l !! 1%nat <> Some NULL -> lowest_fd 0 l = lowest_fd 2 l.
Proof using Type.
  clear. intros H0 H1. pose proof (lowest_inv 2 l) as H. destruct (lowest_fd 2 l) as [k|].
  - destruct H as (Hk & H2 & Hno). apply lowest_some; [done|lia|]. intros [|[|j]] Hj; [done|done|]. apply Hno. lia.
  - apply lowest_none. intros [|[|j]] Hj; [done|done|]. apply H. lia.
Qed.

Definition table_close (fd : Z) (l : list Z) : Z * list Z :=
  if (fd <? 0) || (PROC_MAX_FILE <=? fd) then (ERR_INVAL, l)
  else if default NULL (l !! Z.to_nat fd) =? NULL then (ERR_INVAL, l)
  else (ERR_OK, <[Z.to_nat fd := NULL]> l).

Definition table_dup (fd : Z) (l : list Z) : Z * list Z :=
  if (fd <? 0) || (PROC_MAX_FILE <=? fd) then (ERR_INVAL, l)
  else
    let f := default NULL (l !! Z.to_nat fd) in
    if f =? NULL then (ERR_INVAL, l)
    else match lowest_fd 0 l with Some k => (Z.of_nat k, <[k := f]> l) | None => (ERR_NOMEM, l) end.

(** The call returns what [op] says of the current table and changes only it. *)
Definition table_run P cur s (call : M (pst B R O Pg Ob Pa) Z) (op : list Z -> Z * list Z) : Prop := forall x, P !! cur = Some x ->
  wp call (fun z s' => z = (op (file_descriptors x)).1 /\ exists m' I' F', let P' := <[cur := set_fds (op (file_descriptors x)).2 x]> P in prep m' I' F' P' cur s' /\ fd_ok m' I' F' P') s.

Lemma same_table P p x : P !! p = Some x -> <[p := set_fds (file_descriptors x) x]> P = P.
Proof using Type. clear. intros Hp. rewrite <- (insert_id P p x Hp) at 2. by destruct x. Qed.

Lemma fd_in_range x fd : length (file_descriptors x) = 128%nat -> (fd <? 0) || (PROC_MAX_FILE <=? fd) = false -> 0 <= fd /\ exists f, file_descriptors x !! Z.to_nat fd = Some f.
Proof using Type.
  clear. intros Hl [H1%Z.ltb_ge H2%Z.leb_gt]%orb_false_iff. change PROC_MAX_FILE with 128 in H2. split; [done|]. apply lookup_lt_is_Some_2. lia.
Qed.

Lemma run_sys_close m I F P cur s r : prep m I F P cur s -> fd_ok m I F P -> cur <> NULL ->
  table_run P cur s (sys_close ic sc fc stdin stdout other_close r) (table_close (i32 (rdi r))).
Proof using Hly Hszr Hdisk.
  intros V HI Hc x Hx. unfold sys_close, table_close. destruct ((i32 (rdi r) <? 0) || (PROC_MAX_FILE <=? i32 (rdi r))) eqn:Er; cbn [fst snd].
  { wp_step. split; [done|]. exists m, I, F. by rewrite same_table. }
  destruct (fd_in_range x _ (fd_len _ _ _ _ _ _ _ _ _ HI _ _ Hx) Er) as (H0 & f & Hf). rewrite Hf. cbn [default from_option]. wp_step. eapply wp_cur; [exact V|]. wp_step. wp_step; [by apply nonnull_true|]. wp_step.
  eapply wp_get_fd; [exact V|exact Hx|exact H0|exact Hf|]. cbn [id]. destruct (Z.eqb_spec f NULL) as [->|Hfn]; wp_step; cbn [fst snd]; [split; [done|]; exists m, I, F; by rewrite same_table|].
  eapply wp_mono; [eapply (wp_close_slot m I F P cur s cur x _ f (fun _ s' => exists m' I' F', prep m' I' F' _ cur s' /\ fd_ok m' I' F' _)); [exact V|exact HI|exact Hx|exact H0|exact Hf|exact Hfn|]|].
  - intros m' I' F' s' P' V' HI'. by exists m', I', F'.
  - intros [] s1 H1. wp_step. eapply wp_mono; [exact H1|]. intros [] s2 H2. by wp_step.
Qed.

Lemma run_sys_dup m I F P cur s r : prep m I F P cur s -> fd_ok m I F P -> cur <> NULL -> table_run P cur s (sys_dup r) (table_dup (i32 (rdi r))).
Proof using Type.
  intros V HI Hc x Hx. unfold sys_dup, table_dup. destruct ((i32 (rdi r) <? 0) || (PROC_MAX_FILE <=? i32 (rdi r))) eqn:Er; cbn [fst snd].
  { wp_step. split; [done|]. exists m, I, F. by rewrite same_table. }
  pose proof (fd_len _ _ _ _ _ _ _ _ _ HI _ _ Hx) as Hl. destruct (fd_in_range x _ Hl Er) as (H0 & f & Hf). rewrite Hf. cbn [default from_option id].
  wp_step. eapply wp_cur; [exact V|]. wp_step. wp_step; [by apply nonnull_true|]. wp_step.
  eapply wp_get_fd; [exact V|exact Hx|exact H0|exact Hf|]. destruct (Z.eqb_spec f NULL) as [->|Hfn]; wp_step; cbn [fst snd]; [split; [done|]; exists m, I, F; by rewrite same_table|].
  eapply wp_find_fd; [exact V|exact Hx|exact Hc|lia|exact Hl| |].
  - intros Hno. rewrite lowest_none. { cbn beta. change (-1 <? 0) with true. cbn match. cbn [fst snd]. wp_step. split; [done|]. exists m, I, F. by rewrite same_table. }
    intros j Hj. rewrite <- (Nat2Z.id j). apply Hno. lia.
  - intros k Hk Hkn Hno. rewrite (lowest_some 0 _ (Z.to_nat k) Hkn); [|lia|intros j Hj; rewrite <- (Nat2Z.id j); apply Hno; lia].
    cbn beta. rewrite (proj2 (Z.ltb_ge k 0)) by lia. cbn match. cbn [fst snd]. rewrite Z2Nat.id by lia. wp_step.
    eapply wp_mono; [eapply (wp_share_slot m I F P cur s cur x k NULL f (fun _ s' => exists m' I' F', prep m' I' F' _ cur s' /\ fd_ok m' I' F' _)); [exact V|exact HI|exact Hx|lia|exact Hkn|by left|exact Hfn|by eapply table_slot|]|].
    + intros m' I' F' s' P' V' HI'. by exists m', I', F'.
    + intros [] s1 H1. wp_step. eapply wp_mono; [exact H1|]. intros [] s2 H2. by wp_step.
Qed.

(** *** Strings of user memory *)

(** The bytes from [a] on are [l] and a terminator. *)
Definition str_at (a : Z) (l : list Z) : Prop := (forall (i : nat) b, (l ++ [0]) !! i = Some b -> um !! (a + Z.of_nat i) = Some b) /\ (0 ∉ l).

(** Every byte of the regions of the process is present. *)
Definition umem_ok (cur : Z) : Prop := exists y, vm_as w !! cur = Some y /\ as_lock y = false /\ present w (as_regions y) /\
  forall q k a, q ∈ as_regions y -> vm_mr w !! q = Some k -> mr_start k <= a < mr_end k -> is_Some (um !! a).

Lemma wp_load m I F P cur s a b (Q : Z -> pst B R O Pg Ob Pa -> Prop) : prep m I F P cur s -> um !! a = Some b -> Q b s -> wp (load_user a) Q s.
Proof using Type. intros V Hb HQ. unfold load_user. wp_step. wp_step. rewrite (pr_umem _ _ _ _ _ _ V), Hb. by wp_step. Qed.

Lemma wp_validate_str m I F P cur s a (Q : bool -> pst B R O Pg Ob Pa -> Prop) : prep m I F P cur s -> cur <> NULL -> umem_ok cur -> 0 <= a < 2 ^ 64 ->
  Q false s -> (forall l, str_at a l -> Q true s) -> wp (validate_str a) Q s.
Proof using Type.
  clear Hdisk Hszr. intros V Hc (y & Hy & Hl & Hp & Hum) Ha Q0 Q1. unfold validate_str. wp_step. eapply wp_cur; [exact V|]. wp_step. unfold on_vm. wp_step. rewrite (pr_vm _ _ _ _ _ _ V).
  eapply wp_mono; [by apply (wp_as_find cur y); [..|lia]|]. intros q w' [-> Hq]. replace (set_pvm w s) with s by (rewrite <- (pr_vm _ _ _ _ _ _ V); by destruct s).
  destruct Hq as [[-> _]|(Hq & k & Hk & Hcov & _)]; [change (NULL =? NULL) with true; cbn match; by wp_step|].
  assert (Hqn : q <> NULL) by (unfold present in Hp; rewrite Forall_forall in Hp; by apply Hp). rewrite (proj2 (Z.eqb_neq q NULL) Hqn). wp_step. wp_step. rewrite (pr_vm _ _ _ _ _ _ V).
  eapply wp_get_mr; [exact Hk|]. replace (set_pvm w s) with s by (rewrite <- (pr_vm _ _ _ _ _ _ V); by destruct s). wp_step.
  eapply wp_for_ret with (I := fun j s' => s' = s /\ exists l, Z.of_nat (length l) = j - a /\ (forall (i : nat) b, l !! i = Some b -> um !! (a + Z.of_nat i) = Some b) /\ (0 ∉ l)).
  - split; [done|]. exists []. split; [cbn; lia|]. split; [done|]. apply not_elem_of_nil.
  - intros j s' Hj [-> (l & Hln & Hls & Hl0)]. destruct (Hum q k j Hq Hk) as [b Hb]; [lia|]. wp_step. eapply wp_load; [exact V|exact Hb|]. destruct (Z.eqb_spec b 0) as [->|Hb0]; wp_step.
    + wp_step. apply (Q1 l). split; [|done]. intros i b [Hi|[Hi Hib]]%lookup_app_Some; [by apply Hls|]. apply list_lookup_singleton_Some in Hib as [Hi0 <-].
      replace (a + Z.of_nat i) with j by lia. done.
    + split; [done|]. exists (l ++ [b]). rewrite length_app. cbn [length]. split; [lia|]. split; [|rewrite elem_of_app, list_elem_of_singleton; intros [?|?]; [done|congruence]].
      intros i c [Hi|[Hi Hib]]%lookup_app_Some; [by apply Hls|]. apply list_lookup_singleton_Some in Hib as [Hi0 <-]. replace (a + Z.of_nat i) with j by lia. done.
  - intros s' [-> _]. by wp_step.
Qed.

Lemma str_size a l : str_at a l -> (length l < size um)%nat.
Proof using Type.
  clear. intros [H _]. assert (Hsub : (list_to_set ((fun i : nat => a + Z.of_nat i) <$> seq 0 (S (length l))) : gset Z) ⊆ dom um).
  { intros z Hz. apply elem_of_list_to_set, list_elem_of_fmap in Hz as (i & -> & Hi%elem_of_seq). apply elem_of_dom. destruct (lookup_lt_is_Some_2 (l ++ [0]) i) as [b Hb]; [rewrite length_app; cbn; lia|]. exists b. by apply H. }
  apply subseteq_size in Hsub. rewrite size_dom, size_list_to_set, length_fmap, length_seq in Hsub; [lia|]. apply NoDup_fmap; [intros i j; lia|apply NoDup_seq].
Qed.

Lemma wp_user_str m I F P cur s n a l (Q : list Z -> pst B R O Pg Ob Pa -> Prop) : prep m I F P cur s -> str_at a l -> (length l < n)%nat -> Q l s -> wp (user_str n a) Q s.
Proof using Type.
  clear Hdisk Hszr. intros V. revert a l Q. induction n as [|n IH]; intros a l Q [Hb H0] Hn HQ; [lia|]. cbn [user_str]. wp_step. destruct l as [|c l].
  - eapply wp_load; [exact V|rewrite <- (Z.add_0_r a); by apply (Hb 0%nat)|]. change (0 =? 0) with true. cbn match. by wp_step.
  - eapply wp_load; [exact V|rewrite <- (Z.add_0_r a); by apply (Hb 0%nat)|]. rewrite not_elem_of_cons in H0. destruct H0 as [Hc H0].
    rewrite (proj2 (Z.eqb_neq c 0)) by congruence. cbn match. wp_step. eapply (IH (a + 1) l); [|cbn [length] in Hn; lia|by wp_step]. split; [|done]. intros i b Hi.
    replace (a + 1 + Z.of_nat i) with (a + Z.of_nat (S i)) by lia. by apply (Hb (S i)).
Qed.

Lemma wp_fetch_str m I F P cur s a l (Q : list Z -> pst B R O Pg Ob Pa -> Prop) : prep m I F P cur s -> str_at a l -> Q l s -> wp (fetch_str a) Q s.
Proof using Type.
  clear Hdisk Hszr. intros V Hl HQ. unfold fetch_str. wp_step. wp_step. rewrite (pr_umem _ _ _ _ _ _ V). eapply wp_user_str; [exact V|exact Hl|pose proof (str_size a l Hl); lia|done].
Qed.

(** *** Opening *)

Context (Hav : oa_avoids (O := O) statics) (Hszm : oa_size_ok (St := O) szm) (Hszf : oa_size_ok (St := O) szf).
Hypothesis Hroot : SFS_ROOT_INUM ∈ G.

Lemma cwd_cached m I F P p x : fd_ok m I F P -> P !! p = Some x -> is_Some (I !! p_cwd x) /\ forall path, start D I (p_cwd x) path ∈ G.
Proof using Hroot.
  clear Hdisk Hszr Hav Hszm Hszf. intros HI Hx. destruct (fd_refs _ _ _ _ _ _ _ _ _ HI) as [Hr _]. specialize (Hr (p_cwd x)).
  assert (p_cwd x ∈ file_inodes F ++ cwds P) as Hc%count_elem by (apply elem_of_app; right; by eapply cwds_at). change (count (p_cwd x) []) with 0 in Hr.
  destruct (I !! p_cwd x) as [i|] eqn:Hi; [|lia]. split; [by eexists|]. intros path. unfold start. rewrite Hi. cbn [default from_option id]. case_match; [|exact Hroot].
  by destruct (fd_clean _ _ _ _ _ _ _ _ _ HI _ _ Hi) as (_ & ? & _).
Qed.

(** What fs_open_file is asked to open. *)
Definition open_target m I (cwd flags : Z) (path : list Z) : Z * Z :=
  if validate_flag flags then resolve (tree D m I) (start D I cwd path) (elements path) else (ERR_INVAL, 0).

Definition open_post m I F P cur x (slot : option nat) r (z : Z) s' : Prop :=
  let same := prep m I F P cur s' in
  z = ERR_FAULT /\ same \/ exists path, str_at (rdi r) path /\
    let '(err, n) := open_target m I (p_cwd x) (i32 (rsi r)) path in
    match slot with
    | None => z = ERR_NOMEM /\ same
    | Some k =>
        if err =? ERR_OK then z = Z.of_nat k /\ exists f c i m' I' F', let P' := <[cur := set_fds (<[k := f]> (file_descriptors x)) x]> P in
          (f ∉ all_fds P) /\ I' !! c = Some i /\ i_inum i = n /\ F' !! f = Some (mkFile 1 (Z.land (i32 (rsi r)) (Z.lnot FS_CREAT)) c 0 false (Some SfsOps)) /\ prep m' I' F' P' cur s' /\ fd_ok m' I' F' P'
        else z = err /\ same
    end.

Lemma wp_sys_open m I F P cur s x r : prep m I F P cur s -> fd_ok m I F P -> cur <> NULL -> P !! cur = Some x -> umem_ok cur -> 0 <= rdi r < 2 ^ 64 ->
  Z.land (i32 (rsi r)) FS_CREAT = 0 -> (forall path, str_at (rdi r) path -> elements path <> [] /\ reserve (walk_cost path + 2) (ps_vfs s)) ->
  wp (sys_open sb ic sc fc szm szf r) (open_post m I F P cur x (lowest_fd 2 (file_descriptors x)) r) s.
Proof using Hly Hszr Hdisk Hav Hszm Hszf Hroot.
  intros V HI Hc Hx Hu Ha Hfl Hel. unfold sys_open. wp_step. eapply wp_validate_str; [exact V|exact Hc|exact Hu|exact Ha|cbn [negb]; wp_step; by left|]. intros path Hpath. cbn [negb]. wp_step.
  eapply wp_cur; [exact V|]. wp_step. wp_step; [by apply nonnull_true|]. wp_step. pose proof (fd_len _ _ _ _ _ _ _ _ _ HI _ _ Hx) as Hl.
  eapply wp_find_fd; [exact V|exact Hx|exact Hc|lia|exact Hl| |].
  { intros Hno. cbn beta. change (-1 =? -1) with true. cbn match. wp_step. right. exists path. split; [done|]. destruct (open_target _ _ _ _ _) as [err n].
    rewrite lowest_none; [by split|]. intros j Hj. rewrite <- (Nat2Z.id j). apply Hno. lia. }
  intros k Hk Hkn Hno. cbn beta. rewrite (proj2 (Z.eqb_neq k (-1))) by lia. cbn match.
  assert (Hlow : lowest_fd 2 (file_descriptors x) = Some (Z.to_nat k)) by (apply lowest_some; [exact Hkn|lia|intros j Hj; rewrite <- (Nat2Z.id j); apply Hno; lia]).
  wp_step. eapply wp_fetch_str; [exact V|exact Hpath|]. wp_step. unfold cwd_of. rewrite (proj2 (Z.eqb_neq cur NULL) Hc). cbn match. wp_step. eapply wp_get_proc; [exact V|exact Hx|]. wp_step. wp_step.
  unfold on_vfs. wp_step. destruct (cwd_cached _ _ _ _ _ _ HI Hx) as [Hcw Hst]. destruct (validate_flag (i32 (rsi r))) eqn:Hval.
  - eapply wp_mono; [by apply (wp_fs_open sb Hly ic sc fc szm szf statics D U Hszr Hav Hszm Hszf G A own m I [] F (tree_now _ _ _ _ _ _ _ _ _ _ _ Hdisk HI) 0); [rewrite Nat.add_0_r; eapply vrep_reserve; [apply V|apply (Hel path Hpath)]|right|apply Hst|apply (Hel path Hpath)| |left]|].
    intros [err f] v' (E & Hok & Hbad). cbn [fst snd] in *.
    assert (Et : open_target m I (p_cwd x) (i32 (rsi r)) path = resolve (tree D m I) (start D I (p_cwd x) path) (elements path)) by (unfold open_target; by rewrite Hval).
    destruct (resolve _ _ _) as [err0 n]. cbn [fst snd] in *. subst err0. destruct (Z.eqb_spec err ERR_OK) as [->|He].
    + destruct (Hok eq_refl) as (Hfn & Hfs & HF & c & Hn & Hcn & Hpl & V1). rewrite (proj2 (Z.eqb_neq f NULL) Hfn). cbn [negb]. wp_step.
      eapply wp_put_fd; [by eapply prep_vfs|exact Hx|lia|exact Hkn|]. intros s2 V2. cbn [negb]. wp_step. right. exists path. split; [done|]. rewrite Et, Hlow. rewrite Z.eqb_refl, Z2Nat.id by lia. split; [done|].
      destruct (to_file _ _ _ _ _ _ _ Hdisk n Hn) as (Hin & _). pose proof (cur_inum sb D m I n (fd_cache _ _ _ _ _ _ _ _ _ HI)) as Einum.
      eexists f, c, _, _, _, _. split; [|split; [|split; [|split; [|split; [exact V2|]]]]]; [|apply lookup_insert_eq|exact Einum|apply lookup_insert_eq|by apply fd_ok_open].
      intros Hin'. destruct (fd_slot _ _ _ _ _ _ _ _ _ HI f Hin') as [?|[? ?]]; congruence.
    + destruct (Hbad He) as [-> V1]. change (negb (NULL =? NULL)) with false. cbn match. wp_step. wp_step. cbn [negb]. wp_step. right. exists path. split; [done|]. rewrite Et, Hlow, (proj2 (Z.eqb_neq err ERR_OK) He). split; [done|]. by eapply prep_vfs.
  - unfold fs_open_file. rewrite Hval. cbn [negb]. wp_step. cbn [fst snd]. change (negb (NULL =? NULL)) with false. change (negb (ERR_INVAL =? ERR_OK)) with true. cbn match. wp_step. wp_step. wp_step.
    right. exists path. split; [done|]. unfold open_target. rewrite Hval, Hlow. change (ERR_INVAL =? ERR_OK) with false. cbn match. split; [done|]. eapply prep_vfs; [exact V|apply V].
Qed.

(** *** Whole tables *)

Lemma split_next {X} (l r : list X) (j : nat) a b : length l = j -> (<[j := b]> (l ++ a :: r)) = (l ++ [b]) ++ r.
Proof using Type. clear. intros <-. rewrite insert_app_r_alt by lia. rewrite Nat.sub_diag. cbn. by rewrite <- app_assoc. Qed.

(** close_all_fds clears the table. *)
Lemma wp_close_all m I F P cur s p x (Q : unit -> pst B R O Pg Ob Pa -> Prop) : prep m I F P cur s -> fd_ok m I F P -> P !! p = Some x -> p <> NULL ->
  (forall m' I' F' s', let P' := <[p := set_fds (replicate 128 NULL) x]> P in prep m' I' F' P' cur s' -> fd_ok m' I' F' P' -> Q tt s') ->
  wp (close_all_fds ic sc fc stdin stdout other_close p) Q s.
Proof using Hly Hszr Hdisk.
  intros V HI Hx Hp HQ. unfold close_all_fds. rewrite (proj2 (Z.eqb_neq p NULL) Hp). cbn match. pose proof (fd_len _ _ _ _ _ _ _ _ _ HI _ _ Hx) as Hl.
  set (P1 := fun j : Z => <[p := set_fds (replicate (Z.to_nat j) NULL ++ drop (Z.to_nat j) (file_descriptors x)) x]> P).
  eapply wp_for with (I := fun j s' => exists m' I' F', prep m' I' F' (P1 j) cur s' /\ fd_ok m' I' F' (P1 j)).
  - exists m, I, F. subst P1. cbn beta. change (Z.to_nat 0) with 0%nat. cbn [replicate app]. by rewrite drop_0, same_table.
  - change (0 + Z.of_nat (Z.to_nat PROC_MAX_FILE)) with 128. intros j s1 Hj (m1 & I1 & F1 & V1 & HI1).
    destruct (lookup_lt_is_Some_2 (file_descriptors x) (Z.to_nat j)) as [f Hf]; [lia|].
    set (x1 := set_fds (replicate (Z.to_nat j) NULL ++ drop (Z.to_nat j) (file_descriptors x)) x) in *.
    assert (Hx1 : P1 j !! p = Some x1) by apply lookup_insert_eq.
    assert (Hf1 : file_descriptors x1 !! Z.to_nat j = Some f).
    { cbn [x1 set_fds file_descriptors]. rewrite lookup_app_r, length_replicate, Nat.sub_diag, lookup_drop, Nat.add_0_r by (rewrite length_replicate; lia). done. }
    assert (Enext : P1 (j + 1) = <[p := set_fds (<[Z.to_nat j := NULL]> (file_descriptors x1)) x1]> (P1 j)).
    { subst P1 x1. cbn beta. rewrite insert_insert_eq. f_equal. unfold set_fds. cbn [file_descriptors]. f_equal. replace (Z.to_nat (j + 1)) with (S (Z.to_nat j)) by lia.
      rewrite (drop_S _ f (Z.to_nat j) Hf), split_next by apply length_replicate. by rewrite <- replicate_S_end. }
    wp_step. eapply wp_get_fd; [exact V1|exact Hx1|lia|exact Hf1|]. destruct (Z.eqb_spec f NULL) as [->|Hfn]; cbn [negb].
    + wp_step. exists m1, I1, F1. rewrite Enext, list_insert_id, same_table by done. by split.
    + wp_step. eapply (wp_close_slot m1 I1 F1 (P1 j)); [exact V1|exact HI1|exact Hx1|lia|exact Hf1|exact Hfn|]. intros m2 I2 F2 s2 P2 V2 HI2. exists m2, I2, F2. rewrite Enext. by split.
  - change (0 + Z.of_nat (Z.to_nat PROC_MAX_FILE)) with 128. intros s1 (m1 & I1 & F1 & V1 & HI1). subst P1. cbn beta in *.
    change (Z.to_nat 128) with 128%nat in *. rewrite drop_ge, app_nil_r in * by lia. by eapply HQ.
Qed.

(** copy_fds into a table that has only files of the console: the child has the
    table of the parent. *)
Lemma wp_copy_fds m I F P cur s p x c y (Q : unit -> pst B R O Pg Ob Pa -> Prop) : prep m I F P cur s -> fd_ok m I F P -> P !! p = Some x -> P !! c = Some y -> c <> p ->
  Forall (fun f => f = NULL \/ f ∈ statics) (file_descriptors y) ->
  (forall m' I' F' s', let P' := <[c := set_fds (file_descriptors x) y]> P in prep m' I' F' P' cur s' -> fd_ok m' I' F' P' -> Q tt s') ->
  wp (copy_fds p c) Q s.
Proof using Hly Hszr Hdisk.
  intros V HI Hx Hy Hne Hst HQ. unfold copy_fds. pose proof (fd_len _ _ _ _ _ _ _ _ _ HI _ _ Hx) as Hl. pose proof (fd_len _ _ _ _ _ _ _ _ _ HI _ _ Hy) as Hly'.
  set (P1 := fun j : Z => <[c := set_fds (take (Z.to_nat j) (file_descriptors x) ++ drop (Z.to_nat j) (file_descriptors y)) y]> P).
  eapply wp_for with (I := fun j s' => exists m' I' F', prep m' I' F' (P1 j) cur s' /\ fd_ok m' I' F' (P1 j)).
  - exists m, I, F. subst P1. cbn beta. change (Z.to_nat 0) with 0%nat. rewrite take_0, drop_0. cbn [app]. by rewrite same_table.
  - change (0 + Z.of_nat (Z.to_nat PROC_MAX_FILE)) with 128. intros j s1 Hj (m1 & I1 & F1 & V1 & HI1).
    destruct (lookup_lt_is_Some_2 (file_descriptors x) (Z.to_nat j)) as [f Hf]; [lia|]. destruct (lookup_lt_is_Some_2 (file_descriptors y) (Z.to_nat j)) as [g Hg]; [lia|].
    set (y1 := set_fds (take (Z.to_nat j) (file_descriptors x) ++ drop (Z.to_nat j) (file_descriptors y)) y) in *.
    assert (Hlt : length (take (Z.to_nat j) (file_descriptors x)) = Z.to_nat j) by (rewrite length_take; lia).
    assert (Hx1 : P1 j !! p = Some x) by (subst P1; cbn beta; by rewrite lookup_insert_ne). assert (Hy1 : P1 j !! c = Some y1) by apply lookup_insert_eq.
    assert (Hg1 : file_descriptors y1 !! Z.to_nat j = Some g).
    { cbn [y1 set_fds file_descriptors]. rewrite lookup_app_r, Hlt, Nat.sub_diag, lookup_drop, Nat.add_0_r by lia. done. }
    assert (Hgs : g = NULL \/ g ∈ statics) by (rewrite Forall_forall in Hst; apply Hst; by eapply list_elem_of_lookup_2).
    assert (Enext : P1 (j + 1) = <[c := set_fds (<[Z.to_nat j := f]> (file_descriptors y1)) y1]> (P1 j)).
    { subst P1 y1. cbn beta. rewrite insert_insert_eq. f_equal. unfold set_fds. cbn [file_descriptors]. f_equal. replace (Z.to_nat (j + 1)) with (S (Z.to_nat j)) by lia.
      rewrite (drop_S _ g (Z.to_nat j) Hg), split_next by done. by rewrite (take_S_r _ _ f Hf). }
    wp_step. eapply wp_get_fd; [exact V1|exact Hx1|lia|exact Hf|]. destruct (Z.eqb_spec f NULL) as [->|Hfn]; cbn [negb].
    + eapply wp_put_fd; [exact V1|exact Hy1|lia|exact Hg1|]. intros s2 V2. exists m1, I1, F1. rewrite Enext. split; [exact V2|].
      destruct (decide (g = NULL)) as [->|Hgn]; [by rewrite list_insert_id, same_table|]. destruct Hgs as [|Hgs]; [done|].
      destruct (fd_slot _ _ _ _ _ _ _ _ _ HI1 g) as [|[z Hz]]; [by eapply table_slot|done|]. rewrite <- (insert_id F1 g z Hz). replace z with (set_fref (f_ref z) z) by (by destruct z).
      by apply fd_ok_drop; [..|left].
    + wp_step. eapply (wp_share_slot m1 I1 F1 (P1 j)); [exact V1|exact HI1|exact Hy1|lia|exact Hg1|exact Hgs|exact Hfn|by eapply (table_slot _ p x)|]. intros m2 I2 F2 s2 P2 V2 HI2. exists m2, I2, F2. rewrite Enext. by split.
  - change (0 + Z.of_nat (Z.to_nat PROC_MAX_FILE)) with 128. intros s1 (m1 & I1 & F1 & V1 & HI1). subst P1. cbn beta in *.
    change (Z.to_nat 128) with 128%nat in *. rewrite drop_ge, app_nil_r, take_ge in * by lia. by eapply HQ.
Qed.
End fds.
