(* ===== verification/FdsClaims.v ===== *)
(** * Claims about descriptors and processes *)

From stdpp Require Import prelude list gmap.
From Stdlib Require Import ZArith Lia.
From S2P Require Import Prelude DList PageAlloc ObjAlloc RadixTree RadixTreeSpec RadixTreeClaims Vpmap VpmapClaims Vm VmSpec VmClaims Blocks Sfs SfsDir SfsBits SfsAlloc SfsInode SfsData SfsBytes.
From S2P Require Import SfsDirSpec SfsClaims SfsDirClaims Fs FsOps FsObjs FsSpec FsPath FsFiles FsClaims Proc Syscall FdsSpec.

(** Steps of a system of processes that share files: a process [p] runs, with
    its user memory; the process that runs makes a call; copy_fds for a fork into
    a child; close_all_fds for an exit. *)
Inductive dreq := DRun (p : Z) (um : gmap Z Z) | DOpen (r : regs) | DClose (r : regs) | DDup (r : regs) | DCopy (child : Z) | DCloseAll.

Section claims.
Context (sb : sfs_sb_info) (Hly : layout sb).
Context {B R O Pg Ob Pa : Type} `{!Blocks B, !ObjAlloc R, !ObjAlloc O, !ObjAlloc Pa}.
Context (ic sc fc szm szf stdin stdout : Z).
Context (other_close : Z -> M (vfs B R O) unit).
Context (D : Z -> list Z) (U : list (Z * Z)) (G : gset Z) (A : gmap Z (list Z)) (own : gmap Z (Z * Z)) (w : vmst Pg Ob).
Abbreviation statics := ({[stdin; stdout]} : gset Z).
Abbreviation prep := (prep ic sc fc stdin stdout D U w).
Abbreviation fd_ok := (fd_ok sb stdin stdout D G).
Implicit Types (s : pst B R O Pg Ob Pa).
Context (Hszr : oa_size_ok (St := R) SIZEOF_RADIX_NODE) (Hav : oa_avoids (O := O) statics).
Context (Hszm : oa_size_ok (St := O) szm) (Hszf : oa_size_ok (St := O) szf).
Context (Hdisk : tree_ok sb D G A own ∅ ∅) (Hroot : SFS_ROOT_INUM ∈ G).

Definition dop (d : dreq) : M (pst B R O Pg Ob Pa) Z :=
  match d with
  | DRun p um => modify (set_pcur p);; modify (set_umem um);; ret 0
  | DOpen r => sys_open sb ic sc fc szm szf r
  | DClose r => sys_close ic sc fc stdin stdout other_close r
  | DDup r => sys_dup r
  | DCopy c => p <- proc_current;; copy_fds p c;; ret 0
  | DCloseAll => p <- proc_current;; close_all_fds ic sc fc stdin stdout other_close p;; ret 0
  end.

(** The steps that are taken: a process of the table runs, with all the pages of
    its regions present; files are opened below the root and not created, while
    the allocators have the inodes of the path and the file in reserve; the table
    of a child is the one proc_init makes. *)
Definition dguard (d : dreq) s : Prop :=
  match d with
  | DRun p um => p <> NULL /\ is_Some (ps_procs s !! p) /\ umem_ok w um p
  | DOpen r => 0 <= rdi r < 2 ^ 64 /\ Z.land (i32 (rsi r)) FS_CREAT = 0 /\ forall path, str_at (ps_umem s) (rdi r) path -> elements path <> [] /\ reserve (walk_cost path + 2) (ps_vfs s)
  | DCopy c => c <> ps_cur s /\ exists y, ps_procs s !! c = Some y /\ Forall (fun f => f = NULL \/ f ∈ statics) (file_descriptors y)
  | _ => True
  end.

Inductive dreach s : pst B R O Pg Ob Pa -> Prop :=
| dreach_here : dreach s s
| dreach_step s1 d v s2 : dreach s s1 -> dguard d s1 -> dop d s1 = Done (v, s2) -> dreach s s2.

Definition dstate s : Prop := exists m I F, prep (ps_umem s) m I F (ps_procs s) (ps_cur s) s /\ fd_ok m I F (ps_procs s) /\
  ps_cur s <> NULL /\ is_Some (ps_procs s !! ps_cur s) /\ umem_ok w (ps_umem s) (ps_cur s).

Lemma dstate_intro um m I F P cur s : prep um m I F P cur s -> fd_ok m I F P -> cur <> NULL -> is_Some (P !! cur) -> umem_ok w um cur -> dstate s.
Proof using Type.
  intros V HI Hc Hp Hu. destruct V as [V1 V2 V3 V4 V5]. subst P cur um. exists m, I, F. split; [by split|]. by split_and!.
Qed.

Lemma in_upd (P : gmap Z proc) cur p x : is_Some (P !! cur) -> is_Some (<[p := x]> P !! cur).
Proof using Type. clear. intros H. rewrite lookup_insert. by case_decide. Qed.

Lemma dstep d s : dstate s -> dguard d s -> wp (dop d) (fun _ s' => dstate s') s.
Proof using Hly Hszr Hav Hszm Hszf Hdisk Hroot.
  intros (m & I & F & V & HI & Hc & [x Hx] & Hu) Hg.
  destruct d as [p um|r|r|r|c|]; cbn [dop].
  - destruct Hg as (Hp & Hpp & Hum). wp_step. wp_step. wp_step. wp_step. wp_step. eapply (dstate_intro um m I F (ps_procs s) p); [|exact HI|exact Hp|exact Hpp|exact Hum]. destruct V as [V1 V2 V3 V4 V5]. by split.
  - destruct Hg as (Ha & Hfl & Hel). eapply wp_mono; [by eapply (wp_sys_open sb Hly ic sc fc szm szf stdin stdout D U G A own w _ Hszr Hdisk Hav Hszm Hszf Hroot)|].
    intros z s' Hpost. assert (Hsame : prep (ps_umem s) m I F (ps_procs s) (ps_cur s) s' -> dstate s') by (intros V'; by eapply dstate_intro; [exact V'|exact HI|..]).
    destruct Hpost as [[_ V']|(path & _ & Hpost)]; [by apply Hsame|]. destruct (open_target _ _ _ _ _ _) as [err n]. destruct (lowest_fd _ _) as [k|]; [|by apply Hsame; apply Hpost].
    destruct (err =? ERR_OK); [|by apply Hsame; apply Hpost]. destruct Hpost as (_ & f & c & i & m' & I' & F' & _ & _ & _ & _ & V' & HI').
    eapply dstate_intro; [exact V'|exact HI'|exact Hc|by apply in_upd|exact Hu].
  - eapply wp_mono; [by eapply (run_sys_close sb Hly ic sc fc stdin stdout other_close D U G A own w _ Hszr Hdisk)|]. intros z s' (_ & m' & I' & F' & V' & HI').
    eapply dstate_intro; [exact V'|exact HI'|exact Hc|by apply in_upd|exact Hu].
  - eapply wp_mono; [by eapply (run_sys_dup sb ic sc fc stdin stdout D U G w)|]. intros z s' (_ & m' & I' & F' & V' & HI').
    eapply dstate_intro; [exact V'|exact HI'|exact Hc|by apply in_upd|exact Hu].
  - destruct Hg as (Hne & y & Hy & Hst). wp_step. eapply wp_cur; [exact V|]. wp_step.
    eapply (wp_copy_fds sb Hly ic sc fc stdin stdout D U G A own w _ Hszr Hdisk); [exact V|exact HI|exact Hx|exact Hy|exact Hne|exact Hst|]. intros m' I' F' s' P' V' HI'. wp_step.
    eapply dstate_intro; [exact V'|exact HI'|exact Hc|by apply in_upd|exact Hu].
  - wp_step. eapply wp_cur; [exact V|]. wp_step.
    eapply (wp_close_all sb Hly ic sc fc stdin stdout other_close D U G A own w _ Hszr Hdisk); [exact V|exact HI|exact Hx|exact Hc|]. intros m' I' F' s' P' V' HI'. wp_step.
    eapply dstate_intro; [exact V'|exact HI'|exact Hc|by apply in_upd|exact Hu].
Qed.


(** C18 sys_dup and sys_close on the table of the process: a bad or empty
    descriptor is ERR_INVAL; sys_dup puts the file in the lowest empty slot, which
    it returns, or reports ERR_NOMEM when the table is full; sys_close empties the
    slot.  No other slot of any process changes. *)
Theorem fd_calls_refine s x r : dstate s -> ps_procs s !! ps_cur s = Some x ->
  wp (sys_dup r) (fun z s' => let '(z0, l) := table_dup (i32 (rdi r)) (file_descriptors x) in z = z0 /\ ps_procs s' = <[ps_cur s := set_fds l x]> (ps_procs s)) s /\
  wp (sys_close ic sc fc stdin stdout other_close r) (fun z s' => let '(z0, l) := table_close (i32 (rdi r)) (file_descriptors x) in
    z = z0 /\ ps_procs s' = <[ps_cur s := set_fds l x]> (ps_procs s)) s.
Proof using Hly Hszr Hdisk.
  intros (m & I & F & V & HI & Hc & _) Hx. split; (eapply wp_mono; [by eapply (run_sys_dup sb ic sc fc stdin stdout D U G w) + by eapply (run_sys_close sb Hly ic sc fc stdin stdout other_close D U G A own w _ Hszr Hdisk)|]);
    intros z s' (E & m' & I' & F' & V' & _); [destruct (table_dup _ _)|destruct (table_close _ _)]; (split; [exact E|]); exact (pr_procs _ _ _ _ _ _ _ _ _ _ _ _ _ _ _ V').
Qed.

(** C19 For a process whose descriptors 0 and 1 are in use, a path below the
    root, flags without FS_CREAT, with memory in reserve for the path, an
    inode and a file and the user pages and disk blocks present: sys_open
    gives a new file, on the inode the path resolves to, the lowest empty
    slot and returns it; on ERR_FAULT, ERR_NOMEM (no empty slot), ERR_INVAL
    or an error of the path no slot, file or inode changes. With descriptor
    0 or 1 closed the code does not give the lowest one ([open_from_two]).
    *)
Theorem sys_open_spec um m I F P cur s x r : prep um m I F P cur s -> fd_ok m I F P -> cur <> NULL -> P !! cur = Some x -> umem_ok w um cur -> 0 <= rdi r < 2 ^ 64 ->
  Z.land (i32 (rsi r)) FS_CREAT = 0 -> (forall path, str_at um (rdi r) path -> elements path <> [] /\ reserve (walk_cost path + 2) (ps_vfs s)) ->
  file_descriptors x !! 0%nat <> Some NULL -> file_descriptors x !! 1%nat <> Some NULL ->
  wp (sys_open sb ic sc fc szm szf r) (open_post sb ic sc fc stdin stdout D U G w um m I F P cur x (lowest_fd 0 (file_descriptors x)) r) s.
Proof using Hly Hszr Hav Hszm Hszf Hdisk Hroot.
  intros. rewrite lowest_std by done. by apply (wp_sys_open sb Hly ic sc fc szm szf stdin stdout D U G A own w um Hszr Hdisk Hav Hszm Hszf Hroot).
Qed.
End claims.

(** ** A system with one process

    The process at 50 on the disk of FsClaims; standard input and output are
    static files. *)

Definition one_stdin : Z := -16.
Definition one_stdout : Z := -8.
Definition one_files : gmap Z file := {[one_stdin := mkFile 0 FS_RDONLY NULL 0 false (Some StdinOps); one_stdout := mkFile 0 FS_WRONLY NULL 0 false (Some StdoutOps)]}.
Definition one_vfs : vfs mstore bump bump :=
  mkV (mkS ∅ tree_store) new_tree false (mkBump 4096 {[1 := ∅; 2 := ∅; 3 := ∅]}) NULL NULL ∅ ∅ one_files [].
Definition one_vm : vmst pool bump := mkVm (vm_v demo_vm) {[20 := mkMr 50 0x1000 0x1004 MEMPERM_URW 0 NULL 0]} {[50 := mkAs [20] 1 false 20]} 12.
(** The string /a. *)
Definition one_mem : gmap Z Z := {[0x1000 := 47; 0x1001 := 97; 0x1002 := 0; 0x1003 := 0]}.
Definition one_table : list Z := one_stdin :: one_stdout :: replicate 126 NULL.
Definition one_state (v : vfs mstore bump bump) (c : Z) : pst mstore bump bump pool bump bump :=
  mkP v one_vm (mkBump 60 {[50 := ∅]}) {[50 := mkProc 1 [] c one_table NULL false STATUS_ALIVE]} [50] 2 50 one_mem no_pipes.

Abbreviation one_statics := ({[one_stdin; one_stdout]} : gset Z).

Lemma one_avoids : oa_avoids (O := bump) one_statics.
Proof.
  intros o L c X (_ & Hn & _) _. eapply wp_intro; [done|]. unfold one_stdin, one_stdout. rewrite elem_of_union, !elem_of_singleton. lia.
Qed.

Lemma one_rep rv : vrep 1 2 3 one_statics tree_D [] ∅ one_files rv false ∅ ∅ [] one_vfs.
Proof.
  destruct (tree_rep rv) as [R1 R2 R3 R4 R5 R6 (C & ow & [H1 H2 H3 H4 H5 H6 H7])]. split; try done. exists C, ow. split; try done.
  intros f Hf. left. cbn [vf_files one_vfs] in Hf. assert (Hd : f ∈ dom one_files) by (by apply elem_of_dom). unfold one_files in Hd. rewrite dom_insert_L, dom_singleton_L in Hd. exact Hd.
Qed.

Lemma one_umem : umem_ok one_vm one_mem 50.
Proof.
  exists (mkAs [20] 1 false 20). split; [reflexivity|]. split; [done|]. split; [by repeat constructor|]. intros q k a Hq Hk Ha. apply list_elem_of_singleton in Hq as ->.
  vm_compute in Hk. injection Hk as <-. cbn [mr_start mr_end] in Ha. assert (Hc : a = 0x1000 \/ a = 0x1001 \/ a = 0x1002 \/ a = 0x1003) by lia.
  destruct Hc as [E|[E|[E|E]]]; subst a; by eexists.
Qed.

Lemma one_start : exists c v, fs_get_inode 1 2 64 64 1 one_vfs = Done ((ERR_OK, c), v) /\ c <> NULL /\
  vrep 1 2 3 one_statics tree_D [] ∅ one_files (enough 0) false {[1 := c]} {[c := load_inode tree_D 1 1]} [] v.
Proof.
  assert (Hg : wp (fs_get_inode 1 2 64 64 1) (fun r s => fst r = ERR_OK /\ snd r <> NULL /\ vrep 1 2 3 one_statics tree_D [] ∅ one_files (enough 0) false {[1 := snd r]} {[snd r := load_inode tree_D 1 1]} [] s) one_vfs).
  { eapply (wp_vr_fs_get (B := mstore) (R := bump) (O := bump) demo_sb demo_layout 1 2 3 64 64 one_statics tree_D [] ∅ one_files bump_size); [exact Logic.I|exact Logic.I|exact (one_rep (enough 1))|by split|split; vm_compute; discriminate|reflexivity|reflexivity|].
    intros p s' Hp _ V. unfold got in V. rewrite (cur_disk tree_D ∅ ∅ 1 (lookup_empty 1)), load_held in V. cbn [fst snd] in V. split; [reflexivity|]. cbn [snd].
    split; [exact Hp|]. by rewrite <- (insert_empty 1 p), <- (insert_empty p). }
  apply wp_elim in Hg as ([err p] & s1 & E1 & He & Hn & V). cbn [fst snd] in He, Hn, V. subst err. exists p, s1. exact (conj E1 (conj Hn V)).
Qed.

Definition one_proc (c : Z) : proc := mkProc 1 [] c one_table NULL false STATUS_ALIVE.
Lemma one_fds c : all_fds {[50 := one_proc c]} = one_table /\ cwds {[50 := one_proc c]} = [c].
Proof. unfold all_fds, cwds. rewrite map_to_list_singleton. cbn [fmap list_fmap concat snd file_descriptors p_cwd one_proc]. by rewrite app_nil_r. Qed.
Lemma one_inodes : file_inodes one_files = [].
Proof. by vm_compute. Qed.
Lemma one_slot f : f ∈ one_table -> f = NULL \/ is_Some (one_files !! f).
Proof. unfold one_table. rewrite !elem_of_cons. intros [->|[->|Hf]]; [right; by eexists|right; by eexists|]. apply elem_of_replicate in Hf as [-> _]. by left. Qed.

Lemma one_fd_ok c : c <> NULL -> fd_ok demo_sb one_stdin one_stdout tree_D tree_G {[1 := c]} {[c := load_inode tree_D 1 1]} one_files {[50 := one_proc c]}.
Proof.
  intros Hc. destruct (one_fds c) as [E1 E2]. split; rewrite ?E1, ?E2, ?one_inodes; cbn [app].
  - apply tree_root_cache.
  - intros d i [<- <-]%lookup_singleton_Some. split; [done|]. split; [|reflexivity]. unfold tree_G. cbn [load_inode i_inum]. set_solver.
  - split; [|by intros p i [<- <-]%lookup_singleton_Some]. intros p. change (count p []) with 0. rewrite count_cons. change (count p []) with 0. rewrite lookup_singleton. by case_decide.
  - intros f x Hf. unfold one_files in Hf. rewrite lookup_insert in Hf. case_decide as Ef; [|apply lookup_singleton_Some in Hf as [Ef' <-]]; [injection Hf as <-|]; subst f; (split; [done|]; split; [done|]; left; split; [set_solver|done]).
  - apply one_slot.
  - intros p x [<- <-]%lookup_singleton_Some. reflexivity.
  - rewrite map_size_singleton. done.
Qed.

Lemma one_prep c v : vrep 1 2 3 one_statics tree_D [] ∅ one_files (enough 0) false {[1 := c]} {[c := load_inode tree_D 1 1]} [] v ->
  prep 1 2 3 one_stdin one_stdout tree_D [] one_vm one_mem {[1 := c]} {[c := load_inode tree_D 1 1]} one_files {[50 := one_proc c]} 50 (one_state v c).
Proof. intros V. by split. Qed.

Lemma one_dstate c v : c <> NULL -> vrep 1 2 3 one_statics tree_D [] ∅ one_files (enough 0) false {[1 := c]} {[c := load_inode tree_D 1 1]} [] v ->
  dstate demo_sb 1 2 3 one_stdin one_stdout tree_D [] tree_G one_vm (one_state v c).
Proof.
  intros Hc V. exists {[1 := c]}, {[c := load_inode tree_D 1 1]}, one_files. split; [by apply one_prep|]. split; [by apply one_fd_ok|]. split; [done|]. split; [by eexists|exact one_umem].
Qed.

Lemma one_path v c path : str_at one_mem 0x1000 path -> elements path <> [] /\ reserve (walk_cost path + 2) (ps_vfs (one_state v c)).
Proof.
  intros [Hb H0]. split; [|split; apply bump_spare]. assert (E : path = [47; 97]); [|by subst path].
  destruct path as [|b0 path]; [by specialize (Hb 0%nat 0 eq_refl)|]. pose proof (Hb 0%nat b0 eq_refl) as E0. vm_compute in E0. injection E0 as <-.
  destruct path as [|b1 path]; [by specialize (Hb 1%nat 0 eq_refl)|]. pose proof (Hb 1%nat b1 eq_refl) as E1. vm_compute in E1. injection E1 as <-.
  destruct path as [|b2 path]; [done|]. pose proof (Hb 2%nat b2 eq_refl) as E2. vm_compute in E2. injection E2 as <-. exfalso. apply H0. set_solver.
Qed.

(** The process gets the root as its working directory, then [m] runs. *)
Definition boot_one {X} (m : M (pst mstore bump bump pool bump bump) X) : M (pst mstore bump bump pool bump bump) X :=
  r <- on_vfs (fs_get_inode 1 2 64 64 1);; modify (set_procs {[50 := one_proc (snd r)]});; m.
Lemma boot_run {X} (m : M _ X) c v : fs_get_inode 1 2 64 64 1 one_vfs = Done ((ERR_OK, c), v) -> boot_one m (one_state one_vfs 0) = m (one_state v c).
Proof. intros E. unfold boot_one, on_vfs, zoom, bind, modify. cbn [ps_vfs one_state]. rewrite E. reflexivity. Qed.

Abbreviation one_dop := (dop demo_sb 1 2 3 64 64 one_stdin one_stdout no_close).

Lemma one_guard v c : dguard one_stdin one_stdout one_vm (DOpen (mkRegs 0x1000 FS_RDONLY 0)) (one_state v c).
Proof. split; [by split; vm_compute|]. split; [reflexivity|exact (one_path v c)]. Qed.


Lemma fd_calls_refine_witness : exists c v, fs_get_inode 1 2 64 64 1 one_vfs = Done ((ERR_OK, c), v) /\ exists s', sys_dup (mkRegs 1 0 0) (one_state v c) = Done (2, s').
Proof.
  destruct one_start as (c & v & E & Hc & V). exists c, v. split; [exact E|].
  destruct (fd_calls_refine demo_sb demo_layout 1 2 3 one_stdin one_stdout no_close tree_D [] tree_G tree_A tree_own one_vm bump_size tree_vfs_tree (one_state v c) (one_proc c) (mkRegs 1 0 0)
    (one_dstate c v Hc V) eq_refl) as [Hd _].
  destruct (wp_elim _ _ _ Hd) as (z & s' & Ed & Hz). exists s'. destruct (table_dup _ _) as [z0 l] eqn:Et. vm_compute in Et. injection Et as <- _. destruct Hz as [-> _]. exact Ed.
Defined.

Lemma sys_open_spec_witness : exists c v, fs_get_inode 1 2 64 64 1 one_vfs = Done ((ERR_OK, c), v) /\
  exists fd s', sys_open demo_sb 1 2 3 64 64 (mkRegs 0x1000 FS_RDONLY 0) (one_state v c) = Done (fd, s') /\ fd = 2.
Proof.
  destruct one_start as (c & v & E & Hc & V). exists c, v. split; [exact E|].
  destruct (wp_elim _ _ _ (sys_open_spec (B := mstore) (R := bump) (O := bump) demo_sb demo_layout 1 2 3 64 64 one_stdin one_stdout tree_D [] tree_G tree_A tree_own one_vm bump_size one_avoids ltac:(exact Logic.I) ltac:(exact Logic.I)
    tree_vfs_tree (tree_root [47] eq_refl) one_mem _ _ one_files _ 50 (one_state v c) (one_proc c) (mkRegs 0x1000 FS_RDONLY 0) (one_prep c v V) (one_fd_ok c Hc) ltac:(discriminate) (lookup_singleton_eq 50 (one_proc c)) one_umem (proj1 (one_guard v c)) eq_refl (one_path v c) ltac:(discriminate) ltac:(discriminate)))
    as (fd & s' & Eo & _). exists fd, s'. apply (run_value _ _ _ _ _ Eo). rewrite <- (boot_run _ c v E). vm_compute. reflexivity.
Defined.

(** Opening, duplicating and closing: the lowest slots, the file goes with its
    last descriptor. *)
Definition refs_of (s : pst mstore bump bump pool bump bump) : list Z := (fun x => f_ref (snd x)) <$> filter (fun x => ~ (fst x < 0)) (map_to_list (vf_files (ps_vfs s))).
Example dup_run : value_of (boot_one (a <- one_dop (DOpen (mkRegs 0x1000 0 0));; b <- one_dop (DDup (mkRegs a 0 0));; one_dop (DClose (mkRegs 0 0 0));;
    c <- one_dop (DDup (mkRegs b 0 0));; l1 <- gets refs_of;; one_dop (DClose (mkRegs a 0 0));; l2 <- gets refs_of;; one_dop DCloseAll;; l3 <- gets refs_of;;
    ret (a, b, c, (l1, l2, l3))) (one_state one_vfs 0)) = Some (2, 3, 0, ([3], [2], [])).
Proof. vm_compute. reflexivity. Qed.

(** With standard input closed, open passes over descriptor 0. *)
Example open_from_two : value_of (boot_one (one_dop (DClose (mkRegs 0 0 0));; one_dop (DOpen (mkRegs 0x1000 0 0))) (one_state one_vfs 0)) = Some 2.
Proof. vm_compute. reflexivity. Qed.
