(* ===== verification/ProcClaims.v ===== *)
(** * Claims about processes: waiting, and paths that go wrong *)

From stdpp Require Import prelude list gmap.
From Stdlib Require Import ZArith Lia.
From S2P Require Import Prelude DList PageAlloc ObjAlloc RadixTree RadixTreeSpec RadixTreeClaims Vpmap VpmapClaims Vm VmSpec VmClaims Blocks Sfs SfsDir SfsBits SfsAlloc SfsInode SfsData SfsBytes.
From S2P Require Import SfsDirSpec SfsClaims SfsDirClaims Fs FsOps FsObjs FsSpec FsPath FsFiles FsClaims Proc Syscall FdsSpec FdsClaims.

(** ** User memory *)

Fixpoint put_bytes (a : Z) (l : list Z) (um : gmap Z Z) : gmap Z Z :=
  match l with [] => um | b :: l => put_bytes (a + 1) l (<[a := b]> um) end.

Section wait.
Context {B R O Pg Ob Pa : Type} `{!ObjAlloc Pa}.
Context (proc_allocator : Z).
Implicit Types s : pst B R O Pg Ob Pa.

Lemma wp_store_user a l s (Q : unit -> pst B R O Pg Ob Pa -> Prop) : (forall i, 0 <= i < Z.of_nat (length l) -> is_Some (ps_umem s !! (a + i))) ->
  Q tt (set_umem (put_bytes a l (ps_umem s)) s) -> wp (store_user a l) Q s.
Proof using Type.
  revert a s Q. induction l as [|b l IH]; intros a s Q Hp HQ; cbn [store_user put_bytes] in *; [wp_step; by destruct s|].
  unfold load_user. cbn [length] in Hp. destruct (Hp 0) as [c Hc]; [lia|]. rewrite Z.add_0_r in Hc. wp_step. wp_step. wp_step. rewrite Hc. wp_step. wp_step. wp_step.
  apply IH; [|exact HQ]. intros i Hi. cbn [ps_umem set_umem]. rewrite lookup_insert. case_decide; [by eexists|]. replace (a + 1 + i) with (a + (i + 1)) by lia. apply Hp. lia.
Qed.

(** ** Waiting *)

Definition awaited (cur pid0 : Z) (c : proc) : bool := (p_parent c =? cur) && ((pid0 =? ANY_CHILD) || (pid c =? pid0)).
Definition is_child (P : gmap Z proc) (cur pid0 p : Z) : bool := match P !! p with Some c => awaited cur pid0 c | None => false end.
(** The first child in the process table that has exited. *)
Definition exited_child (P : gmap Z proc) (cur pid0 : Z) (l : list Z) : option Z :=
  List.find (fun p => match P !! p with Some c => awaited cur pid0 c && has_exited c | None => false end) l.

(** The child [p] is reaped: it leaves the table, its structure is freed, its
    status is stored. *)
Definition reaped (p : Z) (c : proc) (status : Z) s s' : Prop :=
  ps_procs s' = delete p (ps_procs s) /\ ptable s' = filter (fun q => q <> p) (ptable s) /\
  ps_umem s' = (if nonnull status then put_bytes status (le32 (u32 (exit_status c))) (ps_umem s) else ps_umem s) /\
  ps_vfs s' = ps_vfs s /\ ps_vm s' = ps_vm s /\ ps_cur s' = ps_cur s /\ pid_allocator s' = pid_allocator s.

Record wait_pre (status : Z) s L X : Prop := {
  wt_live : oa_live (ps_objs s) L;
  wt_cache : L !! proc_allocator = Some X;
  wt_table : Forall (fun p => is_Some (ps_procs s !! p) /\ p ∈ X) (ptable s);
  wt_status : status <> NULL -> forall i, 0 <= i < 4 -> is_Some (ps_umem s !! (status + i))
}.

Lemma wp_wait_scan cur pid0 status s L X l found : wait_pre status s L X -> Forall (fun p => is_Some (ps_procs s !! p) /\ p ∈ X) l ->
  wp (wait_scan proc_allocator cur pid0 status l found) (fun r s' => match exited_child (ps_procs s) cur pid0 l with
    | Some p => exists c, ps_procs s !! p = Some c /\ awaited cur pid0 c = true /\ has_exited c = true /\ r = inl (pid c) /\ reaped p c status s s' /\ oa_live (ps_objs s') (<[proc_allocator := X ∖ {[p]}]> L)
    | None => r = inr (found || existsb (is_child (ps_procs s) cur pid0) l) /\ s' = s
    end) s.
Proof using Type.
  intros Hpre Hl. revert found. induction Hl as [|p l [[c Hc] Hp] Hl IH]; intros found; cbn [wait_scan existsb].
  { wp_step. by rewrite orb_false_r. }
  wp_step. unfold get_proc. wp_step. wp_step. rewrite Hc. wp_step; [done|]. fold (awaited cur pid0 c). unfold is_child at 1. rewrite Hc.
  assert (Hno : awaited cur pid0 c && has_exited c = false -> exited_child (ps_procs s) cur pid0 (p :: l) = exited_child (ps_procs s) cur pid0 l).
  { intros E. unfold exited_child. cbn [List.find]. by rewrite Hc, E. }
  destruct (awaited cur pid0 c) eqn:Ea; cbn [andb orb] in *; [|rewrite Hno by done; apply IH].
  destruct (has_exited c) eqn:Ex; [|rewrite Hno, orb_true_r by done; apply (IH true)]. clear IH Hno.
  assert (Hex : exited_child (ps_procs s) cur pid0 (p :: l) = Some p) by (unfold exited_child; cbn [List.find]; by rewrite Hc, Ea, Ex). rewrite Hex.
  destruct Hpre as [W1 W2 W3 W4].
  assert (Hrest : forall s1, s1 = set_umem (if nonnull status then put_bytes status (le32 (u32 (exit_status c))) (ps_umem s) else ps_umem s) s ->
    wp (modify (fun s => set_ptable (filter (fun q => q <> p) (ptable s)) s);; proc_free proc_allocator p;; ret (inl (pid c))) (fun r s' => exists c', ps_procs s !! p = Some c' /\ awaited cur pid0 c' = true /\ has_exited c' = true /\
      r = @inl Z bool (pid c') /\ reaped p c' status s s' /\ oa_live (ps_objs s') (<[proc_allocator := X ∖ {[p]}]> L)) s1).
  { intros s1 ->. wp_step. wp_step. wp_step. unfold proc_free. wp_step. wp_step. unfold on_pobjs. wp_step. eapply wp_mono; [by eapply (oa_free_spec (ps_objs s) L proc_allocator X p)|].
    intros [] o Ho. wp_step. exists c. split_and!; try done. }
  wp_step. destruct (nonnull status) eqn:En.
  - eapply wp_store_user; [|by apply Hrest]. change (length (le32 (u32 (exit_status c)))) with 4%nat. apply W4. intros ->. done.
  - wp_step. apply Hrest. by destruct s.
Qed.

(** C21 A round of proc_wait: when a child that matches the pid has exited, the
    first one in the table is reaped and its pid returned with its exit status
    stored; without a matching child the result is ERR_CHILD; otherwise the round
    changes nothing and proc_wait goes on. *)
Theorem proc_wait_round_spec pid0 status s L X : ps_cur s <> NULL -> wait_pre status s L X ->
  wp (proc_wait_round proc_allocator pid0 status) (fun r s' => match exited_child (ps_procs s) (ps_cur s) pid0 (ptable s) with
    | Some p => exists c, ps_procs s !! p = Some c /\ awaited (ps_cur s) pid0 c = true /\ has_exited c = true /\ r = inr (pid c) /\ reaped p c status s s' /\ oa_live (ps_objs s') (<[proc_allocator := X ∖ {[p]}]> L)
    | None => r = (if existsb (is_child (ps_procs s) (ps_cur s) pid0) (ptable s) then inl tt else inr ERR_CHILD) /\ s' = s
    end) s.
Proof using Type.
  intros Hc Hpre. unfold proc_wait_round, proc_current. wp_step. wp_step. wp_step. wp_step; [by apply nonnull_true|]. wp_step. wp_step. wp_step.
  eapply wp_mono; [apply (wp_wait_scan _ _ _ _ L X _ _ Hpre), Hpre|]. intros r s'. destruct (exited_child _ _ _ _) as [p|].
  - intros (c & H1 & H2 & H3 & -> & H5 & H6). wp_step. exists c. by split_and!.
  - intros [-> ->]. cbn [orb]. destruct (existsb _ _); wp_step; done.
Qed.
End wait.

(** ** Arguments *)

Section args.
Context {B R O Pg Ob Pa : Type}.
Implicit Types s : pst B R O Pg Ob Pa.

(** C22 validate_ptr accepts a range exactly when it does not wrap around and lies
    in the pages of one region of the current process; nothing changes. *)
Theorem validate_ptr_spec a n s y : ps_cur s <> NULL -> vm_as (ps_vm s) !! ps_cur s = Some y -> as_lock y = false -> present (ps_vm s) (as_regions y) ->
  0 <= a < 2 ^ 64 -> 0 <= n < 2 ^ 64 ->
  wp (validate_ptr a n) (fun b s' => s' = s /\ (b = true <-> a + n < 2 ^ 64 /\ exists q k, q ∈ as_regions y /\ vm_mr (ps_vm s) !! q = Some k /\ covers k a n)) s.
Proof using Type.
  intros Hc Hy Hl Hp Ha Hn. unfold validate_ptr. destruct (Z.ltb_spec (u64 (a + n)) a) as [Hw|Hw].
  - wp_step. split; [done|]. split; [done|]. intros [Hlt _]. rewrite (wrapu_small 64) in Hw by lia. lia.
  - assert (Hlt : a + n < 2 ^ 64).
    { destruct (Z.lt_ge_cases (a + n) (2 ^ 64)) as [|Hge]; [done|]. exfalso. unfold wrapu in Hw. rewrite <- (Z_mod_plus_full (a + n) (-1)), Z.mod_small in Hw; lia. }
    wp_step. unfold proc_current. wp_step. wp_step. unfold on_vm. wp_step. eapply wp_mono; [by apply (wp_as_find (ps_cur s) y)|]. intros q w [-> Hq]. wp_step.
    split; [by destruct s|]. destruct Hq as [[-> [?|Hno]]|(Hq & k & Hk & Hcov)]; [lia| |].
    + split; [done|]. intros (_ & q & k & H1 & H2 & H3). by destruct (Hno q k H1 H2).
    + assert (Hqn : q <> NULL) by (unfold present in Hp; rewrite Forall_forall in Hp; by apply Hp). rewrite (proj2 (Z.eqb_neq q NULL) Hqn). split; [|done]. intros _. split; [done|]. by exists q, k.
Qed.
End args.

(** ** Runs

    The process of FdsClaims, alone or with a child that has exited. *)

Abbreviation one_pst := (pst mstore bump bump pool bump bump).
Definition wait_state : one_pst :=
  mkP one_vfs one_vm (mkBump 70 {[51 := {[60]}]}) {[50 := one_proc NULL; 60 := mkProc 2 [] NULL [] 50 true 3]} [60] 3 50 one_mem no_pipes.

Lemma wait_state_pre : wait_pre 51 0x1000 wait_state {[51 := {[60]}]} {[60]}.
Proof.
  split.
  - split; [done|]. split; [done|]. cbn [bp_next ps_objs wait_state]. split.
    + intros c [X HX]. apply lookup_singleton_Some in HX as [<- _]. lia.
    + intros c X x [_ <-]%lookup_singleton_Some ->%elem_of_singleton. lia.
  - apply lookup_singleton_eq.
  - apply Forall_singleton. split; [by eexists|set_solver].
  - intros _ i Hi. assert (Hc : i = 0 \/ i = 1 \/ i = 2 \/ i = 3) by lia. destruct Hc as [E|[E|[E|E]]]; subst i; by eexists.
Qed.

Lemma proc_wait_round_spec_witness : exists r s', proc_wait_round 51 ANY_CHILD 0x1000 wait_state = Done (r, s') /\ r = inr 2.
Proof.
  destruct (wp_elim _ _ _ (proc_wait_round_spec 51 ANY_CHILD 0x1000 wait_state _ _ ltac:(discriminate) wait_state_pre)) as (r & s' & E & _).
  exists r, s'. apply (run_value _ _ _ _ _ E). vm_compute. reflexivity.
Defined.

Lemma one_present : present one_vm [20].
Proof. apply Forall_singleton. split; [done|by eexists]. Qed.
Lemma validate_ptr_spec_witness : exists b s', validate_ptr 0x1ffc 8 wait_state = Done (b, s') /\ b = false.
Proof.
  destruct (wp_elim _ _ _ (validate_ptr_spec 0x1ffc 8 wait_state (mkAs [20] 1 false 20) ltac:(discriminate) eq_refl eq_refl one_present ltac:(split; vm_compute; congruence) ltac:(split; vm_compute; congruence))) as (b & s' & E & _).
  exists b, s'. apply (run_value _ _ _ _ _ E). vm_compute. reflexivity.
Defined.

Definition junk_region : memregion := mkMr 0 0 0 MEMPERM_R 0 NULL 0.
Definition one_thread (p : Z) : M one_pst Z := ret 77.
Abbreviation one_fork := (proc_fork 1 2 64 64 one_stdin one_stdout 50 40 junk_region one_thread).
Abbreviation one_exit := (proc_exit 1 2 3 one_stdin one_stdout no_close 40).
Definition fork_vm : vmst pool bump :=
  mkVm (Vpmap.mkV (v_frames demo_vst) (v_vpmaps demo_vst) 10 2 0 (v_pages demo_vst) (v_objs (vm_v demo_vm)))
    {[20 := mkMr 50 0x1000 0x1004 MEMPERM_URW 0 NULL 0]} {[50 := mkAs [20] 1 false 20; 40 := mkAs [] 2 false NULL]} 12.
Definition boot_fork {X} (m : M one_pst X) : M one_pst X := boot_one (modify (set_pvm fork_vm);; m).
Definition run_as {X} (p : Z) (um : gmap Z Z) (m : M one_pst X) : M one_pst X := modify (set_pcur p);; modify (set_umem um);; m.
Definition on_page (l : list Z) : gmap Z Z := put_bytes 0x1000 l ∅.

(** A fork, the exit of the child and a wait: the wait spins before the exit,
    then returns the pid of the child and its status, and ERR_CHILD when there is
    no child left. *)
Example fork_wait_run :
  value_of (boot_fork (c <- one_fork;; r0 <- proc_wait_round 50 ANY_CHILD 0x1000;; run_as c one_mem (one_exit 3);;
    r1 <- run_as 50 one_mem (proc_wait 50 1 2 0x1000);; um <- gets ps_umem;; r2 <- proc_wait 50 1 ANY_CHILD 0;; l <- gets (fun s => (ptable s, inodes_left (ps_vfs s)));;
    ret (r0, r1, um !! 0x1000, r2, l)) (one_state one_vfs NULL)) = Some (inl tt, 2, Some 3, ERR_CHILD, ([50], [(1, 1)])).
Proof. vm_compute. reflexivity. Qed.

(** sys_pipe stores the two lowest descriptors; a pipe whose memory happened to
    hold a zero is refused. *)
Example pipe_run :
  value_of (boot_one (e <- run_as 50 (put_bytes 0x1000 (replicate 8 9) ∅) (sys_pipe 3 4 1 600 (mkRegs 0x1000 0 0));; um <- gets ps_umem;; x <- get_proc 50;; ps <- gets (fun s => pipe_tbl (ps_pipes s));;
    ret (e, (um !! 0x1000, um !! 0x1004), firstn 5 (file_descriptors x), snd <$> map_to_list ps)) (one_state one_vfs NULL))
  = Some (ERR_OK, (Some 2, Some 3), [one_stdin; one_stdout; 4105; 4106; NULL], [mkPipe 4104 4105 4106]).
Proof. vm_compute. reflexivity. Qed.
Example pipe_refused : value_of (boot_one (sys_pipe 3 4 NULL 600 (mkRegs 0x1000 0 0)) (one_state one_vfs NULL)) = Some ERR_NOMEM.
Proof. vm_compute. reflexivity. Qed.

(** ** Paths through the code that go wrong *)

(** fork copies the pointer to the working directory without a reference: when
    the child exits, the directory of the parent is freed, and the parent's next
    relative path is looked up in a freed inode. *)
Example fork_cwd_dangling :
  boot_fork (run_as 50 (on_page [47; 100; 0; 0]) (sys_chdir demo_sb 1 2 64 64 (mkRegs 0x1000 0 0));; c <- one_fork;; run_as c ∅ (one_exit 0);;
    run_as 50 (on_page [98; 0; 0; 0]) (sys_open demo_sb 1 2 3 64 64 (mkRegs 0x1000 0 0))) (one_state one_vfs NULL) = Stop BadAccess.
Proof. vm_compute. reflexivity. Qed.

(** sbrk to below the start of the heap: the heap does not change, the call
    returns the old end as if it had. *)
Example sbrk_failure_hidden :
  value_of (boot_fork (a <- sys_sbrk (mkRegs (u64 (- 0x1000)) 0 0);; m <- on_vm (get_mr 20);; ret (a, mr_end m)) (one_state one_vfs NULL)) = Some (0x1004, 0x1004).
Proof. vm_compute. reflexivity. Qed.

(** fstat of a duplicate of standard output: the file has no inode. *)
Example fstat_console : boot_one (fd <- sys_dup (mkRegs 1 0 0);; sys_fstat (mkRegs fd 0x1000 0)) (one_state one_vfs NULL) = Stop BadAccess.
Proof. vm_compute. reflexivity. Qed.
