(* ===== verification/Exec.v ===== *)
(** * Loading of programs (kernel/proc.c: proc_load, stack_setup, proc_spawn)

    The headers of an executable are read from the bytes of the file
    (arch/elf.h); the pages of its segments are frames of 512 words (Vpmap.v).
    argv is not used by stack_setup; the trap frame (tf_proc) is machine
    dependent and left out. *)

From stdpp Require Import prelude list gmap.
From Stdlib Require Import ZArith Lia.
From S2P Require Import Prelude Mmu DList PageAlloc ObjAlloc RadixTree RadixTreeClaims Vpmap VpmapClaims Vm VmClaims Blocks Sfs SfsDir SfsDirSpec SfsClaims SfsDirClaims Fs FsOps FsClaims Proc Syscall FdsClaims ProcClaims.

Definition ELF_MAGIC : Z := 0x464C457F.
Definition PT_LOAD : Z := 1.
Definition PF_W : Z := 2.
Definition SIZEOF_ELFHDR : Z := 64.
Definition SIZEOF_PROGHDR : Z := 56.

(** The little-endian number in [n] bytes at [ofs]. *)
Definition le_bytes (l : list Z) : Z := foldr (fun b v => b + 256 * v) 0 l.
Definition field (l : list Z) (ofs n : nat) : Z := le_bytes (take n (drop ofs l)).

Record elfhdr := mkElf { magic : Z; entry : Z; phoff : Z; phnum : Z }.
Definition read_elfhdr (l : list Z) : elfhdr := mkElf (field l 0 4) (field l 24 8) (field l 32 8) (field l 56 2).
Record proghdr := mkPh { ph_type : Z; ph_flags : Z; ph_off : Z; ph_vaddr : Z; ph_filesz : Z; ph_memsz : Z }.
Definition read_proghdr (l : list Z) : proghdr := mkPh (field l 0 4) (field l 4 4) (field l 8 8) (field l 16 8) (field l 32 8) (field l 40 8).

(** A page with [l] at the offset, zero elsewhere. *)
Definition page_with (ofs : Z) (l : list Z) : list Z :=
  let bytes := replicate (Z.to_nat ofs) 0 ++ l in (fun i => field bytes (8 * i) 8) <$> seq 0 512.

Section ops.
Context {B R O Pg Ob Pa : Type} `{!Blocks B, !ObjAlloc R, !ObjAlloc O, !PageAlloc Pg, !ObjAlloc Ob, !ObjAlloc Pa}.
Context (sb : sfs_sb_info) (ic sc fc szm szf stdin stdout : Z).
Context (other_read : file_operations -> Z -> Z -> M (vfs B R O) (Z * list Z)).
Context (proc_allocator kas : Z) (junk : memregion).
Context (thread_create : Z -> M (pst B R O Pg Ob Pa) Z).
Abbreviation PM := (M (pst B R O Pg Ob Pa)).

Definition on_pt {A} (m : M (vst Pg Ob) A) : PM A := on_vm (on_v m).
Definition read_file (f n ofs : Z) : PM (Z * list Z * Z) := on_vfs (fs_read_file sb other_read f n ofs).
(** The bytes of a file arrive in the frame at the kernel address [a]. *)
Definition fill_page (a ofs : Z) (l : list Z) : PM unit := on_pt (modify (fun s => set_frames (<[frame_of a := page_with ofs l]> (v_frames s)) s)).

(** The pages of a segment from number [count] on: [vofs] is where the bytes
    start in the next page, [off] where they are in the file, [left] how many are
    left. *)
Fixpoint load_pages (n : nat) (p f vaddr : Z) (perm : memperm) (count vofs off left : Z) : PM Z :=
  match n with
  | 0%nat => ret ERR_OK
  | S n =>
      r <- on_pt (on_pages pg_alloc);;
      match r with
      | inr _ => ret ERR_NOMEM
      | inl paddr =>
          on_pt (clear_page (KMAP_P2V paddr));;
          let avail := Z.min left (pg_size - vofs) in
          v <- (if avail =? 0 then ret (0, [], off) else read_file f avail off);;
          let '(cnt, bytes, off) := v in
          (if avail =? 0 then ret tt else fill_page (KMAP_P2V paddr) vofs bytes);;
          if negb (avail =? 0) && negb (cnt =? avail) then ret ERR_INVAL
          else
            a <- on_vm (get_as p);;
            e <- on_pt (vpmap_map (as_vpmap a) (u64 (vaddr + count * pg_size)) paddr 1 perm);;
            if negb (e =? ERR_OK) then ret e
            else load_pages n p f vaddr perm (count + 1) 0 off (left - avail)
      end
  end.

(** The program headers: [ofs] is the offset in the file, [last] the end of the
    last segment. *)
Fixpoint load_segments (n : nat) (p f ofs last : Z) : PM (Z * Z) :=
  match n with
  | 0%nat => ret (ERR_OK, last)
  | S n =>
      v <- read_file f SIZEOF_PROGHDR ofs;;
      let '(cnt, bytes, ofs) := v in
      if negb (cnt =? SIZEOF_PROGHDR) then ret (ERR_INVAL, last)
      else
        let ph := read_proghdr bytes in
        if negb (ph_type ph =? PT_LOAD) then load_segments n p f ofs last
        else if (ph_memsz ph <? ph_filesz ph) || (u64 (ph_vaddr ph + ph_memsz ph) <? ph_vaddr ph) then ret (ERR_INVAL, last)
        else
          let perm := if Z.land (ph_flags ph) PF_W =? 0 then MEMPERM_UR else MEMPERM_URW in
          let size := pg_round_up (u64 (ph_memsz ph + pg_ofs (ph_vaddr ph))) in
          r <- on_vm (as_map_memregion kas junk p (pg_round_down (ph_vaddr ph)) size perm NULL (ph_off ph) 0);;
          if r =? NULL then ret (ERR_NOMEM, last)
          else
            m <- on_vm (get_mr r);;
            e <- load_pages (Z.to_nat (size / pg_size)) p f (ph_vaddr ph) perm 0 (pg_ofs (ph_vaddr ph)) (ph_off ph) (ph_filesz ph);;
            if negb (e =? ERR_OK) then ret (e, last) else load_segments n p f ofs (mr_end m)
  end.

(** The error and the entry point; the file is not closed. *)
Definition proc_load (p : Z) (path : list Z) : PM (Z * Z) :=
  cur <- proc_current;;
  cwd <- cwd_of cur;;
  o <- on_vfs (fs_open_file sb ic sc fc szm szf cwd path FS_RDONLY 0);;
  if negb (fst o =? ERR_OK) then ret (fst o, 0)
  else
    let f := snd o in
    v <- read_file f SIZEOF_ELFHDR 0;;
    let '(cnt, bytes, _) := v in
    let elf := read_elfhdr bytes in
    if negb (cnt =? SIZEOF_ELFHDR) || negb (magic elf =? ELF_MAGIC) then ret (ERR_INVAL, 0)
    else
      r <- load_segments (Z.to_nat (phnum elf)) p f (phoff elf) 0;;
      if negb (fst r =? ERR_OK) then ret (fst r, 0)
      else
        h <- on_vm (as_map_memregion kas junk p (snd r) 0 MEMPERM_URW NULL 0 0);;
        on_vm (upd_as p (set_heap h));;
        if h =? NULL then ret (ERR_NOMEM, entry elf) else ret (ERR_OK, entry elf).

(** The error and the stack pointer. *)
Definition stack_setup (p : Z) : PM (Z * Z) :=
  let stacktop := USTACK_UPPERBOUND - pg_size in
  r <- on_pt (on_pages pg_alloc);;
  match r with
  | inr _ => ret (ERR_NOMEM, 0)
  | inl paddr =>
      on_pt (clear_page (KMAP_P2V paddr));;
      m <- on_vm (as_map_memregion kas junk p (stacktop - 9 * pg_size) (pg_size * 10) MEMPERM_URW NULL 0 0);;
      if m =? NULL then on_pt (on_pages (pg_free paddr));; ret (ERR_NOMEM, 0)
      else
        a <- on_vm (get_as p);;
        e <- on_pt (vpmap_map (as_vpmap a) stacktop paddr 1 MEMPERM_URW);;
        if negb (e =? ERR_OK) then on_pt (on_pages (pg_free paddr));; ret (e, 0)
        else ret (e, u64 (pg_ofs (u64 (KMAP_P2V paddr + pg_size - 3 * 8)) + USTACK_UPPERBOUND - pg_size))
  end.

(** The error, the process, the entry point and the stack pointer; [first] when
    the caller asks for the process init_proc. *)
Definition proc_spawn (first : bool) (name : list Z) : PM (Z * Z * Z * Z) :=
  p <- proc_init ic sc szm szf stdin stdout proc_allocator kas name;;
  if p =? NULL then ret (ERR_NOMEM, NULL, 0, 0)
  else
    let fail (err : Z) : PM (Z * Z * Z * Z) := destroy_as kas p;; proc_free proc_allocator p;; ret (err, NULL, 0, 0) in
    l <- proc_load p name;;
    if negb (fst l =? ERR_OK) then fail (fst l)
    else
      k <- stack_setup p;;
      if negb (fst k =? ERR_OK) then fail (fst k)
      else
        t <- thread_create p;;
        if t =? NULL then fail ERR_NOMEM
        else
          modify (fun s => set_ptable (ptable s ++ [p]) s);;
          (if first then ret tt
           else
             parent <- proc_current;;
             kassert (nonnull parent);;
             upd_proc p (set_parent parent));;
          ret (ERR_OK, p, snd l, snd k).
End ops.

(** ** A run

    The file a of the disk is an executable with one segment of four bytes at
    0x400010. *)

Definition le64 (x : Z) : list Z := le32 (u32 x) ++ le32 (x / 2 ^ 32).
Definition small_elf : list Z :=
  le32 ELF_MAGIC ++ replicate 20 0 ++ le64 0x400010 ++ le64 64 ++ replicate 16 0 ++ [1; 0] ++ replicate 6 0 ++
  le32 PT_LOAD ++ le32 PF_W ++ le64 120 ++ le64 0x400010 ++ le64 0 ++ le64 4 ++ le64 8 ++ le64 0 ++ [1; 2; 3; 4].
Definition exec_store : mstore := mkMs
  {[4 := enc_inode FTYPE_DIR 0 1 64 (10 :: replicate 13 0) ++ enc_inode FTYPE_FILE 0 1 124 (11 :: replicate 13 0) ++
         enc_inode FTYPE_DIR 0 1 32 (12 :: replicate 13 0) ++ enc_inode FTYPE_FILE 0 1 0 (replicate 14 0) ++ replicate 256 0;
    3 := 15 :: replicate 511 0;
    6 := 7 :: replicate 511 0;
    10 := new_dirent [97] 2 ++ new_dirent [100] 3 ++ replicate 448 0;
    11 := small_elf ++ replicate 388 0;
    12 := new_dirent [98] 4 ++ replicate 480 0]} ∅ [] ∅ [].
Definition exec_vfs : vfs mstore bump bump := Fs.mkV (mkS ∅ exec_store) new_tree false (mkBump 4096 {[1 := ∅; 2 := ∅; 3 := ∅]}) NULL NULL ∅ ∅ one_files [].
Definition exec_vm : vmst pool bump :=
  mkVm (Vpmap.mkV (v_frames demo_vst) (v_vpmaps demo_vst) 10 2 0 (mkPool ((fun i => 0x1000 * (Z.of_nat i + 3)) <$> seq 0 20) {[0x1000 := 1; 0x2000 := 1]}) (v_objs (vm_v demo_vm)))
    ∅ {[50 := mkAs [] 1 false NULL; 40 := mkAs [] 2 false NULL]} 12.
Abbreviation one_spawn := (proc_spawn demo_sb 1 2 3 64 64 one_stdin one_stdout no_read 50 40 junk_region one_thread false).
Definition boot_exec {X} (m : M one_pst X) : M one_pst X := boot_one (modify (set_pvm exec_vm);; m).

(** The word of the process [p] at the user address [a]. *)
Definition user_word (p a : Z) : M one_pst Z :=
  x <- on_vm (get_as p);;
  r <- on_pt (vpmap_lookup_vaddr (as_vpmap x) a);;
  on_pt (load64 (KMAP_P2V (snd (fst r)))).

(** The bytes of the segment are at their address, followed by zeros; the stack
    is below the upper bound; the heap starts behind the segment. *)
Example spawn_run :
  value_of (boot_exec (v <- one_spawn [47; 97];; let '(err, p, pc, sp) := v in x <- user_word p 0x400010;; y <- user_word p 0x400018;; z <- user_word p sp;;
    a <- on_vm (get_as p);; h <- on_vm (get_mr (as_heap a));; q <- get_proc p;; ret (err, pc, USTACK_UPPERBOUND - sp, [x; y; z], mr_start h, p_parent q)) (one_state exec_vfs NULL))
  = Some (ERR_OK, 0x400010, 24, [0x04030201; 0; 0], 0x401000, 50).
Proof. vm_compute. reflexivity. Qed.

(** A file that is not executable: the process is given back. *)
Example spawn_not_elf :
  value_of (boot_exec (v <- one_spawn [47; 100; 47; 98];; l <- gets ptable;; P <- gets (fun s => map_to_list (ps_procs s));; ret (v, l, map fst P)) (one_state exec_vfs NULL)) = Some ((ERR_INVAL, NULL, 0, 0), [50], [50]).
Proof. vm_compute. reflexivity. Qed.

(** proc_load does not close the file: after a spawn the executable is open and
    its inode referenced, though no descriptor names it. *)
Example spawn_leaks_file :
  value_of (boot_exec (one_spawn [47; 97];; l <- gets refs_of;; i <- gets (fun s => inodes_left (ps_vfs s));; ret (l, i)) (one_state exec_vfs NULL)) = Some ([1], [(2, 1); (1, 2)]).
Proof. vm_compute. reflexivity. Qed.
