(* ===== verification/Malloc.v ===== *)
(** * The allocator of user programs (lib/malloc.c)

    Kernighan and Ritchie's allocator: free blocks are in a circular list in the
    order of their addresses, starting at the static header [base], with a roving
    pointer [freep].  The memory of the program is a map of 64-bit words; a header
    at [p] has its fields ptr at [p] and size at [p + 8].  Valid addresses are
    those of [base] and of the heap, from [hstart] to the break.  [sbrk] is what
    sys_sbrk does (Syscall.v): it returns the old end whether or not the heap was
    extended.  Fresh memory is zero. *)

From stdpp Require Import prelude list gmap.
From Stdlib Require Import ZArith Lia.
From S2P Require Import Prelude.

Record heap := mkHeap { h_mem : gmap Z Z; h_freep : Z; h_brk : Z }.
Definition set_mem (v : gmap Z Z) (s : heap) : heap := mkHeap v (h_freep s) (h_brk s).
Definition set_freep (v : Z) (s : heap) : heap := mkHeap (h_mem s) v (h_brk s).
Definition set_brk (v : Z) (s : heap) : heap := mkHeap (h_mem s) (h_freep s) v.

Definition SIZEOF_HEADER : Z := 16.

Section model.
Context (base hstart brk_max : Z).
Abbreviation HM := (M heap).

Definition valid (a : Z) (s : heap) : bool := ((base <=? a) && (a <? base + 16)) || ((hstart <=? a) && (a <? h_brk s)).
Definition load (a : Z) : HM Z :=
  ok <- gets (valid a);;
  if ok : bool then gets (fun s => default 0 (h_mem s !! a)) else stop BadAccess.
Definition store (a v : Z) : HM unit :=
  ok <- gets (valid a);;
  if ok : bool then modify (fun s => set_mem (<[a := v]> (h_mem s)) s) else stop BadAccess.

(** Bound of the loops: more rounds than two passes over the list take. *)
Definition rounds (s : heap) : nat := 2 * Z.to_nat ((h_brk s - hstart) / 16) + 8.

Definition sbrk (n : Z) : HM Z :=
  old <- gets h_brk;;
  let new := u64 (old + n) in
  (if (new <? hstart) || (brk_max <? new) then ret tt else modify (set_brk new));;
  ret old.

(** The place of [bp] in the list. *)
Definition free_step (bp p : Z) : HM (Z + Z) :=
  nxt <- load p;;
  if (p <? bp) && (bp <? nxt) then ret (inr p)
  else if (nxt <=? p) && ((p <? bp) || (bp <? nxt)) then ret (inr p)
  else ret (inl nxt).

Definition free (ap : Z) : HM unit :=
  let bp := u64 (ap - SIZEOF_HEADER) in
  f <- gets h_freep;;
  n <- gets rounds;;
  p <- loop n (free_step bp) f;;
  sz <- load (bp + 8);;
  nxt <- load p;;
  (if u64 (bp + SIZEOF_HEADER * sz) =? nxt then
     sn <- load (nxt + 8);;
     store (bp + 8) (u64 (sz + sn));;
     nxt <- load p;;
     nn <- load nxt;;
     store bp nn
   else store bp nxt);;
  ps <- load (p + 8);;
  (if u64 (p + SIZEOF_HEADER * ps) =? bp then
     bs <- load (bp + 8);;
     store (p + 8) (u64 (ps + bs));;
     nn <- load bp;;
     store p nn
   else store p bp);;
  modify (set_freep p).

Definition morecore (nu : Z) : HM Z :=
  let nu := if nu <? 4096 then 4096 else nu in
  p <- sbrk (u64 (nu * SIZEOF_HEADER));;
  if p =? u64 ERR_NOMEM then ret NULL
  else
    store (p + 8) nu;;
    free (u64 (p + SIZEOF_HEADER));;
    gets h_freep.

(** A round of the search; the loop variables are [(prevp, p)]. *)
Definition malloc_step (nunits : Z) (l : Z * Z) : HM ((Z * Z) + Z) :=
  let '(prevp, p) := l in
  sz <- load (p + 8);;
  if nunits <=? sz then
    q <- (if sz =? nunits then
            nx <- load p;;
            store prevp nx;;
            ret p
          else
            store (p + 8) (u64 (sz - nunits));;
            let q := u64 (p + SIZEOF_HEADER * (sz - nunits)) in
            store (q + 8) nunits;;
            ret q);;
    modify (set_freep prevp);;
    ret (inr (u64 (q + SIZEOF_HEADER)))
  else
    f <- gets h_freep;;
    if p =? f then
      p <- morecore nunits;;
      if p =? NULL then ret (inr NULL)
      else
        nx <- load p;;
        ret (inl (p, nx))
    else
      nx <- load p;;
      ret (inl (p, nx)).

Definition units (nbytes : Z) : Z := u64 (u64 (nbytes + SIZEOF_HEADER - 1) / SIZEOF_HEADER + 1).

Definition malloc (nbytes : Z) : HM Z :=
  let nunits := units nbytes in
  if u64 (nunits * SIZEOF_HEADER) <? nbytes then ret NULL
  else
    prevp <- gets h_freep;;
    (if prevp =? NULL then
       store base base;;
       modify (set_freep base);;
       store (base + 8) 0
     else ret tt);;
    prevp <- gets h_freep;;
    n <- gets rounds;;
    p <- load prevp;;
    loop n (malloc_step nunits) (prevp, p).
End model.


(** * The free list *)

Definition wd (s : heap) (a : Z) : Z := default 0 (h_mem s !! a).
(** Two blocks, in units of headers, do not overlap. *)
Definition separate (a n b k : Z) : Prop := a + 16 * n <= b \/ b + 16 * k <= a.

(** The headers from [q] on are those of [l], the last one points to [z]. *)
Fixpoint seg (f : Z -> Z) (l : list (Z * Z)) (z q : Z) : Prop :=
  match l with
  | [] => q = z
  | (p, n) :: l => q = p /\ f (p + 8) = n /\ seg f l z (f p)
  end.

(** Blocks in ascending order from [b] on below [e], no two of them adjacent. *)
Fixpoint spaced (b : Z) (l : list (Z * Z)) (e : Z) : Prop :=
  match l with
  | [] => True
  | (p, n) :: l => b <= p /\ 0 < n /\ p + 16 * n <= e /\ spaced (p + 16 * n + 1) l e
  end.

Definition total (l : list (Z * Z)) : Z := foldr (fun b n => snd b + n) 0 l.

Lemma seg_app f l1 l2 z q : seg f (l1 ++ l2) z q <-> exists y, seg f l1 y q /\ seg f l2 z y.
Proof.
  revert q. induction l1 as [|[p n] l1 IH]; intros q; cbn [app seg]; [split; [intros H; by exists q|by intros (y & -> & H)]|].
  rewrite IH. naive_solver.
Qed.
Lemma seg_frame f f' l z q : (forall p n, (p, n) ∈ l -> f' p = f p /\ f' (p + 8) = f (p + 8)) -> seg f l z q -> seg f' l z q.
Proof.
  revert q. induction l as [|[p n] l IH]; intros q H; cbn [seg]; [done|]. intros (-> & Hn & Hs). destruct (H p n) as [E1 E2]; [by left|].
  split; [done|]. split; [by rewrite E2|]. rewrite E1. apply IH; [|done]. intros p' n' Hin. apply (H p' n'). by right.
Qed.

Lemma spaced_app b l1 l2 e : spaced b (l1 ++ l2) e <-> spaced b l1 e /\ (forall p n l, l2 = (p, n) :: l -> b <= p /\ Forall (fun x => x.1 + 16 * x.2 < p) l1) /\ spaced b l2 e.
Proof.
  revert b. induction l1 as [|[p n] l1 IH]; intros b; cbn [app spaced].
  - split; [|naive_solver]. intros H. split; [done|]. split; [|done]. intros p n l ->. cbn in H. split; [lia|done].
  - rewrite IH. split.
    + intros (H1 & H2 & H3 & H4 & H5 & H6). split_and!; try done.
      * intros q k l E. destruct (H5 q k l E) as [H7 H8]. split; [lia|]. constructor; [cbn; lia|done].
      * destruct l2 as [|[q k] l2]; [done|]. cbn [spaced] in *. destruct (H5 q k l2 eq_refl). split_and!; try tauto. lia.
    + intros ((H1 & H2 & H3 & H4) & H5 & H6). split_and!; try done.
      * intros q k l E. destruct (H5 q k l E) as [H7 H8]. apply Forall_cons in H8 as [H8 H9]. cbn in H8. split; [lia|done].
      * destruct l2 as [|[q k] l2]; [done|]. destruct (H5 q k l2 eq_refl) as [_ [H8 _]%Forall_cons]. cbn [spaced fst snd] in *. split_and!; try tauto. lia.
Qed.

Lemma spaced_in b l e p n : spaced b l e -> (p, n) ∈ l -> b <= p /\ 0 < n /\ p + 16 * n <= e.
Proof.
  revert b. induction l as [|[q k] l IH]; intros b H; [intros H'; by apply elem_of_nil in H'|]. cbn in H. destruct H as (H1 & H2 & H3 & H4).
  rewrite elem_of_cons. intros [[= -> ->]|Hin]; [lia|]. destruct (IH _ H4 Hin). lia.
Qed.
Lemma spaced_more b l e e' : e <= e' -> spaced b l e -> spaced b l e'.
Proof. intros He. revert b. induction l as [|[p n] l IH]; intros b; cbn; [done|]. intros (?&?&?&?). split_and!; try lia. by apply IH. Qed.
Lemma spaced_from b b' l e : b' <= b -> spaced b l e -> spaced b' l e.
Proof. destruct l as [|[p n] l]; cbn; [done|]. intros ? (?&?&?&?). split_and!; try done. lia. Qed.

Lemma spaced_before b l1 p n l2 e q k : spaced b (l1 ++ (p, n) :: l2) e -> (q, k) ∈ l1 -> q + 16 * k < p.
Proof. intros (_ & H & _)%spaced_app Hin. destruct (H p n l2 eq_refl) as [_ H']. rewrite Forall_forall in H'. by apply (H' (q, k)). Qed.
Lemma spaced_after b l1 p n l2 e q k : spaced b (l1 ++ (p, n) :: l2) e -> (q, k) ∈ l2 -> p + 16 * n < q.
Proof. intros (_ & _ & H)%spaced_app Hin. cbn in H. destruct H as (_ & _ & _ & H). pose proof (spaced_in _ _ _ _ _ H Hin). lia. Qed.

Lemma spaced_length b l e : b <= e -> spaced b l e -> 16 * Z.of_nat (length l) <= e - b.
Proof.
  revert b. induction l as [|[p n] l IH]; intros b Hb; cbn [spaced length]; [lia|]. intros (H1 & H2 & H3 & H4).
  destruct l as [|[q k] l]; [cbn [length]; lia|]. assert (p + 16 * n + 1 <= e) by (cbn in H4; lia). specialize (IH _ H H4). lia.
Qed.

(** The address of the first block, or [z]. *)
Definition hd (z : Z) (l : list (Z * Z)) : Z := match l with [] => z | (p, _) :: _ => p end.
Lemma seg_hd f l z q : seg f l z q -> q = hd z l.
Proof. destruct l as [|[p n] l]; cbn; [done|]. by intros [-> _]. Qed.
Lemma seg_mid f l1 p n l2 z q : seg f (l1 ++ (p, n) :: l2) z q -> f (p + 8) = n /\ f p = hd z l2.
Proof. intros (y & _ & H)%seg_app. cbn in H. destruct H as (-> & H1 & H2). split; [done|]. by apply seg_hd in H2. Qed.

Lemma total_app l1 l2 : total (l1 ++ l2) = total l1 + total l2.
Proof. induction l1 as [|x l1 IH]; [done|]. change (x.2 + total (l1 ++ l2) = x.2 + total l1 + total l2). rewrite IH. lia. Qed.

(** Block [(bp, n)] with the block that follows it, when they are adjacent. *)
Definition join_next (bp n : Z) (l2 : list (Z * Z)) : Z * list (Z * Z) :=
  match l2 with
  | (q, k) :: l => if bp + 16 * n =? q then (n + k, l) else (n, l2)
  | [] => (n, [])
  end.

(** The blocks [l'] cover no more than [l]. *)
Definition within (l l' : list (Z * Z)) : Prop := forall a k, 0 < k -> Forall (fun x => separate a k x.1 x.2) l -> Forall (fun x => separate a k x.1 x.2) l'.

Lemma join_ok b bp n l2 e n' l2' : spaced b l2 e -> 0 < n -> bp + 16 * n <= e -> Forall (fun x => bp + 16 * n <= x.1) l2 -> join_next bp n l2 = (n', l2') ->
  n <= n' /\ bp + 16 * n' <= e /\ spaced (bp + 16 * n' + 1) l2' e /\ n' + total l2' = n + total l2 /\ within ((bp, n) :: l2) ((bp, n') :: l2') /\ exists l0, l2 = l0 ++ l2'.
Proof.
  intros Hs Hn He Hl E. destruct l2 as [|[q k] l2]; cbn [join_next] in E; [injection E as <- <-; split_and!; try done; try lia; [by intros ? ? ?|by exists []]|].
  apply Forall_cons in Hl as [Hq _]. cbn in Hq. cbn [spaced] in Hs. destruct Hs as (H1 & H2 & H3 & H4). destruct (Z.eqb_spec (bp + 16 * n) q) as [Eq|Eq]; injection E as <- <-.
  - split; [lia|]. split; [lia|]. split; [eapply spaced_from; [|exact H4]; lia|]. split; [cbn [total foldr snd]; fold (total l2); lia|]. split; [|by exists [(q, k)]].
    intros a j Hj. rewrite !Forall_cons. cbn [fst snd]. unfold separate. intros (? & ? & ?). split; [lia|done].
  - split; [lia|]. split; [lia|]. split; [cbn [spaced]; split_and!; try done; lia|]. split; [done|]. split; [by intros ? ? ?|by exists []].
Qed.

Section proofs.
Context (base hstart brk_max : Z).
Hypothesis Hbase : 0 < base /\ base + 16 <= hstart /\ brk_max < 2 ^ 63.
Abbreviation full l := ((base, 0) :: l).
Implicit Types (s : heap) (l : list (Z * Z)) (A : gmap Z Z).

Lemma wp_hload a s (Q : Z -> heap -> Prop) : base <= a < base + 16 \/ hstart <= a < h_brk s -> Q (wd s a) s -> wp (load base hstart a) Q s.
Proof using Type.
  intros Ha HQ. unfold load. wp_step. wp_step. assert (E : valid base hstart a s = true).
  { unfold valid. destruct Ha as [[H1 H2]|[H1 H2]]; [rewrite (proj2 (Z.leb_le _ _) H1), (proj2 (Z.ltb_lt _ _) H2); done|rewrite (proj2 (Z.leb_le _ _) H1), (proj2 (Z.ltb_lt _ _) H2); apply orb_true_r]. }
  rewrite E. wp_step. exact HQ.
Qed.
Lemma wp_store a v s (Q : unit -> heap -> Prop) : base <= a < base + 16 \/ hstart <= a < h_brk s -> Q tt (set_mem (<[a := v]> (h_mem s)) s) -> wp (store base hstart a v) Q s.
Proof using Type.
  intros Ha HQ. unfold store. wp_step. wp_step. assert (E : valid base hstart a s = true).
  { unfold valid. destruct Ha as [[H1 H2]|[H1 H2]]; [rewrite (proj2 (Z.leb_le _ _) H1), (proj2 (Z.ltb_lt _ _) H2); done|rewrite (proj2 (Z.leb_le _ _) H1), (proj2 (Z.ltb_lt _ _) H2); apply orb_true_r]. }
  rewrite E. by wp_step.
Qed.
Lemma wd_store s a v b : wd (set_mem (<[a := v]> (h_mem s)) s) b = if decide (a = b) then v else wd s b.
Proof using Type. unfold wd. cbn [h_mem set_mem]. rewrite lookup_insert. by case_decide. Qed.

Lemma full_order l e l1 c n d k l2 : spaced hstart l e -> full l = l1 ++ (c, n) :: (d, k) :: l2 -> c + 16 * n < d.
Proof using Hbase.
  intros Hs E. destruct l1 as [|x l1]; cbn in E; [injection E as <- <- ->; cbn in Hs; lia|]. injection E as _ ->.
  eapply spaced_after; [exact Hs|by left].
Qed.
Lemma full_range l e l1 c n l2 : spaced hstart l e -> full l = l1 ++ (c, n) :: l2 -> c = base /\ n = 0 /\ l1 = [] \/ hstart <= c /\ 0 < n /\ c + 16 * n <= e /\ (c, n) ∈ l.
Proof using Hbase.
  intros Hs E. destruct l1 as [|x l1]; cbn in E; [injection E as <- <- ->; by left|right]. injection E as _ ->. assert (Hin : (c, n) ∈ l1 ++ (c, n) :: l2) by (apply elem_of_app; right; left).
  pose proof (spaced_in _ _ _ _ _ Hs Hin). tauto.
Qed.
Lemma full_valid l s l1 c n l2 : spaced hstart l (h_brk s) -> full l = l1 ++ (c, n) :: l2 -> (base <= c < base + 16 \/ hstart <= c < h_brk s) /\ (base <= c + 8 < base + 16 \/ hstart <= c + 8 < h_brk s).
Proof using Hbase. intros Hs E. destruct (full_range _ _ _ _ _ _ Hs E) as [(-> & _)|(? & ? & ? & _)]; lia. Qed.

(** ** The search of free *)

Section search.
Context (l : list (Z * Z)) (s : heap) (bp : Z).
Hypothesis Hseg : seg (wd s) (full l) base base.
Hypothesis Hsp : spaced hstart l (h_brk s).
Hypothesis Hbp : hstart <= bp /\ forall p n, (p, n) ∈ l -> p <> bp.

(** The place of [bp]. *)
Definition before_bp (p : Z) : Prop := exists l1 n l2, full l = l1 ++ (p, n) :: l2 /\ p < bp /\ (l2 = [] \/ bp < hd base l2).

Lemma wp_walk_up l2 l1 c n fuel (Q : Z -> heap -> Prop) : full l = l1 ++ (c, n) :: l2 -> c < bp -> (length l2 < fuel)%nat -> (forall p, before_bp p -> Q p s) ->
  wp (loop fuel (free_step base hstart bp) c) Q s.
Proof using Hbase Hseg Hsp Hbp.
  revert l1 c n fuel. induction l2 as [|[d k] l2 IH]; intros l1 c n fuel E Hc Hfuel HQ; (destruct fuel as [|fuel]; [cbn in Hfuel; lia|]); cbn [loop]; unfold free_step at 1; wp_step; wp_step;
    (apply wp_hload; [by eapply full_valid|]); pose proof Hseg as Hs; rewrite E in Hs; apply seg_mid in Hs as [_ Hs]; cbn [hd] in Hs; rewrite Hs.
  - assert (base <= c) by (destruct (full_range _ _ _ _ _ _ Hsp E) as [(-> & _)|(? & _)]; lia).
    rewrite (proj2 (Z.ltb_ge bp base)) by lia. rewrite andb_false_r, (proj2 (Z.leb_le base c)), (proj2 (Z.ltb_lt c bp)) by lia. cbn [andb orb]. wp_step. wp_step. apply HQ. exists l1, n, []. auto.
  - pose proof (full_order _ _ _ _ _ _ _ _ Hsp E) as Hcd. assert (0 <= n) by (destruct (full_range _ _ _ _ _ _ Hsp E) as [(_ & -> & _)|(_ & ? & _)]; lia).
    rewrite (proj2 (Z.leb_gt d c)), (proj2 (Z.ltb_lt c bp)) by lia. cbn [andb]. destruct (Z.ltb_spec bp d) as [Hd|Hd].
    + wp_step. wp_step. apply HQ. exists l1, n, ((d, k) :: l2). auto.
    + wp_step. assert (E' : full l = (l1 ++ [(c, n)]) ++ (d, k) :: l2) by (by rewrite <- app_assoc). destruct (full_range _ _ _ _ _ _ Hsp E') as [(_ & _ & Hn)|(_ & _ & _ & Hin)]; [by destruct l1|].
      eapply IH; [exact E'| |cbn in Hfuel; lia|exact HQ]. pose proof (proj2 Hbp _ _ Hin). lia.
Qed.

Lemma wp_search l2 l1 c n fuel (Q : Z -> heap -> Prop) : full l = l1 ++ (c, n) :: l2 -> (length l2 + 2 + length l < fuel)%nat -> (forall p, before_bp p -> Q p s) ->
  wp (loop fuel (free_step base hstart bp) c) Q s.
Proof using Hbase Hseg Hsp Hbp.
  revert l1 c n fuel. induction l2 as [|[d k] l2 IH]; intros l1 c n fuel E Hfuel HQ;
    (destruct (decide (c < bp)) as [Hlt|Hge]; [eapply wp_walk_up; [exact E|exact Hlt|cbn [length] in *; lia|exact HQ]|]);
    (destruct fuel as [|fuel]; [lia|]); cbn [loop]; unfold free_step at 1; wp_step; wp_step; (apply wp_hload; [by eapply full_valid|]); pose proof Hseg as Hs; rewrite E in Hs; apply seg_mid in Hs as [_ Hs]; cbn [hd] in Hs; rewrite Hs.
  - rewrite (proj2 (Z.ltb_ge c bp)), (proj2 (Z.ltb_ge bp base)) by lia. cbn [andb orb]. rewrite andb_false_r. wp_step. eapply (wp_walk_up l []); [done|lia|cbn [length] in Hfuel; lia|exact HQ].
  - pose proof (full_order _ _ _ _ _ _ _ _ Hsp E) as Hcd. assert (0 <= n) by (destruct (full_range _ _ _ _ _ _ Hsp E) as [(_ & -> & _)|(_ & ? & _)]; lia).
    rewrite (proj2 (Z.ltb_ge c bp)), (proj2 (Z.leb_gt d c)) by lia. cbn [andb orb]. wp_step. eapply (IH (l1 ++ [(c, n)]) d k); [by rewrite <- app_assoc|cbn [length] in Hfuel; lia|exact HQ].
Qed.
End search.

(** ** The splice of free *)

Record freed (l : list (Z * Z)) (bp n : Z) (s : heap) (l' : list (Z * Z)) (s' : heap) : Prop := {
  fr_seg : seg (wd s') (full l') base base;
  fr_spaced : spaced hstart l' (h_brk s);
  fr_brk : h_brk s' = h_brk s;
  fr_freep : h_freep s' ∈ base :: l'.*1;
  fr_total : total l' = total l + n;
  fr_frame : forall a, (forall p k, (p, k) ∈ full l -> a <> p /\ a <> p + 8) -> a <> bp -> a <> bp + 8 -> wd s' a = wd s a;
  fr_within : within ((bp, n) :: l) l';
  fr_fits : exists p k, (p, k) ∈ l' /\ n <= k;
  fr_length : (length l' <= S (length l))%nat
}.

(** The list with the block put behind [(p, sp)]. *)
Definition join_prev (p sp bp n : Z) (l2 : list (Z * Z)) : list (Z * Z) := if p + 16 * sp =? bp then (p, sp + n) :: l2 else (p, sp) :: (bp, n) :: l2.

Lemma place_facts l e bp n l1 p sp l2 : spaced hstart l e -> hstart <= bp -> 0 < n -> Forall (fun x => separate bp n x.1 x.2) l -> full l = l1 ++ (p, sp) :: l2 -> p < bp -> l2 = [] \/ bp < hd base l2 ->
  Forall (fun x => x.1 + 16 <= p) l1 /\ p + 16 <= bp /\ p + 16 * sp <= bp /\ Forall (fun x => bp + 16 * n <= x.1) l2.
Proof using Hbase.
  intros Hs Hbp Hn Hsep E Hp Hl2. rewrite Forall_forall in Hsep. destruct l1 as [|x l1]; cbn in E.
  - injection E as <- <- ->. split; [done|]. split; [lia|]. split; [lia|]. apply Forall_forall. intros [x k] Hx. destruct l2 as [|[q j] l2]; [by apply elem_of_nil in Hx|].
    destruct Hl2 as [|Hl2]; [done|]. cbn in Hl2. pose proof (Hsep (x, k) Hx) as Hsx. unfold separate in Hsx. cbn in *. rewrite elem_of_cons in Hx. destruct Hx as [[= -> ->]|Hx]; [lia|].
    destruct Hs as (_ & Hj & _ & Hs). pose proof (spaced_in _ _ _ _ _ Hs Hx). lia.
  - injection E as <- ->. assert (Hin : (p, sp) ∈ l1 ++ (p, sp) :: l2) by (apply elem_of_app; right; left). pose proof (spaced_in _ _ _ _ _ Hs Hin) as (Hp1 & Hp2 & Hp3).
    pose proof (Hsep _ Hin) as Hsp. unfold separate in Hsp. cbn in Hsp. split_and!; [|lia|lia|].
    + constructor; [cbn; lia|]. apply Forall_forall. intros [x k] Hx. pose proof (spaced_before _ _ _ _ _ _ _ _ Hs Hx). destruct (spaced_in _ _ _ x k Hs) as (_ & ? & _); [apply elem_of_app; by left|]. cbn. lia.
    + apply Forall_forall. intros [x k] Hx. pose proof (spaced_after _ _ _ _ _ _ _ _ Hs Hx) as Hx1. destruct l2 as [|[q j] l2]; [by apply elem_of_nil in Hx|].
      destruct Hl2 as [|Hl2]; [done|]. cbn in Hl2. assert (Hx2 : (x, k) ∈ l1 ++ (p, sp) :: (q, j) :: l2) by (apply elem_of_app; right; by right).
      pose proof (Hsep _ Hx2) as Hsx. pose proof (spaced_in _ _ _ _ _ Hs Hx2). unfold separate in Hsx. cbn in *. rewrite elem_of_cons in Hx. destruct Hx as [[= -> ->]|Hx]; [lia|].
      assert (q + 16 * j < x); [|destruct (spaced_in _ _ _ q j Hs) as (_ & ? & _); [apply elem_of_app; right; right; left|lia]].
      assert (Hs2 : spaced hstart ((l1 ++ [(p, sp)]) ++ (q, j) :: l2) e) by (by rewrite <- app_assoc). eapply spaced_after; [exact Hs2|exact Hx].
Qed.

(** A list with the block in its place. *)
Lemma spliced l e bp n l1 p sp l2 n' l2' : spaced hstart l e -> hstart <= bp -> 0 < n -> bp + 16 * n <= e -> Forall (fun x => separate bp n x.1 x.2) l -> full l = l1 ++ (p, sp) :: l2 -> p < bp ->
  l2 = [] \/ bp < hd base l2 -> join_next bp n l2 = (n', l2') ->
  exists l', full l' = l1 ++ join_prev p sp bp n' l2' /\ spaced hstart l' e /\ total l' = total l + n /\ within ((bp, n) :: l) l' /\ (exists q k, (q, k) ∈ l' /\ n <= k) /\ p ∈ base :: l'.*1 /\ (length l' <= S (length l))%nat.
Proof using Hbase.
  intros Hs Hbp Hn He Hsep E Hp Hl2 Ej. destruct (place_facts l e bp n l1 p sp l2) as (F1 & F2 & F3 & F4); [done..|].
  destruct l1 as [|x l1]; cbn in E.
  - injection E as <- <- ->. destruct (join_ok hstart bp n l2 e n' l2') as (J1 & J2 & J3 & J4 & J5 & J6); [done..|]. exists ((bp, n') :: l2'). unfold join_prev. rewrite (proj2 (Z.eqb_neq _ _)) by lia.
    split; [done|]. split; [cbn; split_and!; try done; lia|]. split; [cbn [total foldr snd]; fold (total l2'); lia|]. split; [done|]. split; [exists bp, n'; split; [left|lia]|]. split; [left|]. destruct J6 as [l0 ->]. cbn [length]. rewrite length_app. lia.
  - injection E as <- ->. apply spaced_app in Hs as (S1 & S2 & S3). destruct (S2 p sp l2 eq_refl) as [S4 S5]. cbn [spaced] in S3. destruct S3 as (_ & S6 & S7 & S8).
    destruct (join_ok (p + 16 * sp + 1) bp n l2 e n' l2') as (J1 & J2 & J3 & J4 & J5 & l0 & J6); [done..|].
    exists (l1 ++ join_prev p sp bp n' l2'). split; [done|]. unfold join_prev.
    assert (Hw : forall mid, within ((bp, n') :: (p, sp) :: l2') mid -> within ((bp, n) :: l1 ++ (p, sp) :: l2) (l1 ++ mid)).
    { intros mid Hm a k Hk. specialize (Hm a k Hk). specialize (J5 a k Hk). rewrite !Forall_cons, !Forall_app, !Forall_cons in *. tauto. }
    destruct (Z.eqb_spec (p + 16 * sp) bp) as [Ep|Ep]; rewrite !total_app; cbn [total foldr snd]; fold (total l2) (total l2').
    + split_and!; [|lia| | | |].
      * apply spaced_app. split; [done|]. split; [intros ? ? ? [= <- <- <-]; by split|]. cbn [spaced]. split_and!; try lia. eapply spaced_from; [|exact J3]. lia.
      * apply Hw. intros a k Hk. rewrite !Forall_cons. cbn [fst snd]. unfold separate. intros (? & ? & ?). split; [lia|done].
      * exists p, (sp + n'). split; [apply elem_of_app; right; left|lia].
      * right. rewrite fmap_app. apply elem_of_app. right. left.
      * rewrite J6, !length_app. cbn [length]. rewrite length_app. lia.
    + split_and!; [|lia| | | |].
      * apply spaced_app. split; [done|]. split; [intros ? ? ? [= <- <- <-]; by split|]. cbn [spaced]. split_and!; try done; lia.
      * apply Hw. intros a k Hk. rewrite !Forall_cons. tauto.
      * exists bp, n'. split; [apply elem_of_app; right; right; left|lia].
      * right. rewrite fmap_app. apply elem_of_app. right. left.
      * rewrite J6, !length_app. cbn [length]. rewrite length_app. lia.
Qed.

(** *** The two links *)

(** What the stores of a link leave. *)
Definition linked_at (a ptr size : Z) (s s' : heap) : Prop :=
  (forall x, wd s' x = if decide (x = a) then ptr else if decide (x = a + 8) then size else wd s x) /\ h_brk s' = h_brk s /\ h_freep s' = h_freep s.

Lemma linked_both a ptr size s : linked_at a ptr size s (set_mem (<[a := ptr]> (<[a + 8 := size]> (h_mem s))) s).
Proof using Type. split; [|done]. intros x. unfold wd. cbn [h_mem set_mem]. rewrite !lookup_insert. repeat case_decide; subst; try done; lia. Qed.
Lemma linked_ptr a ptr size s : wd s (a + 8) = size -> linked_at a ptr size s (set_mem (<[a := ptr]> (h_mem s)) s).
Proof using Type. intros E. split; [|done]. intros x. unfold wd. cbn [h_mem set_mem]. rewrite !lookup_insert. repeat case_decide; subst; try done; lia. Qed.

Section splice.
Context (l : list (Z * Z)) (s : heap) (bp n : Z) (l1 : list (Z * Z)) (p sp : Z) (l2 : list (Z * Z)).
Hypothesis Hseg : seg (wd s) (full l) base base.
Hypothesis Hsp : spaced hstart l (h_brk s).
Hypothesis Hblk : hstart <= bp /\ 0 < n /\ bp + 16 * n <= h_brk s /\ h_brk s <= brk_max /\ wd s (bp + 8) = n /\ Forall (fun x => separate bp n x.1 x.2) l.
Hypothesis Hpl : full l = l1 ++ (p, sp) :: l2 /\ p < bp /\ (l2 = [] \/ bp < hd base l2).

Lemma wp_link_next (rest : M heap unit) (Q : unit -> heap -> Prop) : (forall n' l2' s', join_next bp n l2 = (n', l2') -> linked_at bp (hd base l2') n' s s' -> wp rest Q s') ->
  wp (sz <- load base hstart (bp + 8);;
      nxt <- load base hstart p;;
      (if u64 (bp + SIZEOF_HEADER * sz) =? nxt then
         sn <- load base hstart (nxt + 8);;
         store base hstart (bp + 8) (u64 (sz + sn));;
         nxt <- load base hstart p;;
         nn <- load base hstart nxt;;
         store base hstart bp nn
       else store base hstart bp nxt);;
      rest) Q s.
Proof using Hbase Hseg Hsp Hblk Hpl.
  destruct Hblk as (B1 & B2 & B3 & B4 & B5 & B6), Hpl as (E & Hp & Hl2). intros HQ. destruct (place_facts l (h_brk s) bp n l1 p sp l2) as (F1 & F2 & F3 & F4); [done..|].
  destruct (full_valid l s l1 p sp l2 Hsp E) as [V1 V2]. pose proof Hseg as Hs. rewrite E in Hs. pose proof (seg_mid _ _ _ _ _ _ _ Hs) as [Hp8 Hpn]. unfold SIZEOF_HEADER.
  wp_step. apply wp_hload; [lia|]. rewrite B5. wp_step. apply wp_hload; [exact V1|]. rewrite Hpn, (wrapu_small 64) by lia. wp_step. destruct l2 as [|[q k] l3]; cbn [hd join_next] in *.
  - rewrite (proj2 (Z.eqb_neq _ _)) by lia. apply wp_store; [lia|]. apply (HQ n []); [done|]. by apply linked_ptr.
  - assert (E' : full l = (l1 ++ [(p, sp)]) ++ (q, k) :: l3) by (by rewrite <- app_assoc). destruct (full_range _ _ _ _ _ _ Hsp E') as [(_ & _ & Hn)|(Hq & Hk & Hqe & _)]; [by apply app_nil in Hn as [_ ?]|].
    pose proof Hseg as Hs'. rewrite E' in Hs'. apply seg_mid in Hs' as [Hq8 Hqn].
    apply Forall_cons in F4 as [F4 _]. cbn [fst] in F4. destruct (Z.eqb_spec (bp + 16 * n) q) as [Eq|Eq].
    + wp_step. apply wp_hload; [lia|]. rewrite Hq8, (wrapu_small 64) by lia. wp_step. apply wp_store; [lia|]. wp_step. apply wp_hload; [exact V1|]. rewrite wd_store, decide_False, Hpn by lia.
      wp_step. apply wp_hload; [cbn [h_brk set_mem]; lia|]. rewrite wd_store, decide_False, Hqn by lia. apply wp_store; [cbn [h_brk set_mem]; lia|]. cbn [h_mem set_mem]. apply (HQ (n + k) l3); [done|]. exact (linked_both bp (hd base l3) (n + k) s).
    + apply wp_store; [lia|]. apply (HQ n ((q, k) :: l3)); [done|]. by apply linked_ptr.
Qed.

Lemma wp_link_prev n' l2' s1 (rest : M heap unit) (Q : unit -> heap -> Prop) : join_next bp n l2 = (n', l2') -> linked_at bp (hd base l2') n' s s1 ->
  (forall s', linked_at p (if p + 16 * sp =? bp then hd base l2' else bp) (if p + 16 * sp =? bp then sp + n' else sp) s1 s' -> wp rest Q s') ->
  wp (ps <- load base hstart (p + 8);;
      (if u64 (p + SIZEOF_HEADER * ps) =? bp then
         bs <- load base hstart (bp + 8);;
         store base hstart (p + 8) (u64 (ps + bs));;
         nn <- load base hstart bp;;
         store base hstart p nn
       else store base hstart p bp);;
      rest) Q s1.
Proof using Hbase Hseg Hsp Hblk Hpl.
  destruct Hblk as (B1 & B2 & B3 & B4 & B5 & B6), Hpl as (E & Hp & Hl2). intros Ej (L1 & L2 & L3) HQ. destruct (place_facts l (h_brk s) bp n l1 p sp l2) as (F1 & F2 & F3 & F4); [done..|].
  destruct (full_valid l s l1 p sp l2 Hsp E) as [V1 V2]. rewrite <- L2 in V1, V2. pose proof Hseg as Hs. rewrite E in Hs. apply seg_mid in Hs as [Hp8 Hpn].
  assert (Hn' : n <= n' /\ bp + 16 * n' <= h_brk s).
  { destruct l2 as [|[q k] l3]; cbn [join_next] in Ej; [injection Ej as <- _; lia|]. assert (E' : full l = (l1 ++ [(p, sp)]) ++ (q, k) :: l3) by (by rewrite <- app_assoc).
    destruct (full_range _ _ _ _ _ _ Hsp E') as [(_ & _ & Hn)|(Hq & Hk & Hqe & _)]; [by apply app_nil in Hn as [_ ?]|].
    destruct (Z.eqb_spec (bp + 16 * n) q); injection Ej as <- _; lia. }
  assert (Hsp0 : 0 <= sp) by (destruct (full_range _ _ _ _ _ _ Hsp E) as [(_ & -> & _)|(_ & ? & _)]; lia). unfold SIZEOF_HEADER.
  assert (W : wd s1 (p + 8) = sp /\ wd s1 bp = hd base l2' /\ wd s1 (bp + 8) = n').
  { rewrite !L1. rewrite !(decide_False (P := p + 8 = _)), (decide_True (P := bp = bp)), (decide_False (P := bp + 8 = bp)), (decide_True (P := bp + 8 = bp + 8)) by lia. done. }
  destruct W as (W1 & W2 & W3). wp_step. apply wp_hload; [exact V2|]. rewrite W1, (wrapu_small 64) by (destruct V1; lia). wp_step. destruct (Z.eqb_spec (p + 16 * sp) bp) as [Em|Em].
  - wp_step. apply wp_hload; [lia|]. rewrite W3, (wrapu_small 64) by lia. wp_step. apply wp_store; [exact V2|]. wp_step. apply wp_hload; [cbn [h_brk set_mem]; lia|]. rewrite wd_store, decide_False, W2 by lia.
    apply wp_store; [exact V1|]. cbn [h_mem set_mem]. apply HQ. exact (linked_both p _ (sp + n') s1).
  - apply wp_store; [exact V1|]. apply HQ. by apply linked_ptr.
Qed.

Lemma splice_freed n' l2' s1 s2 : join_next bp n l2 = (n', l2') -> linked_at bp (hd base l2') n' s s1 ->
  linked_at p (if p + 16 * sp =? bp then hd base l2' else bp) (if p + 16 * sp =? bp then sp + n' else sp) s1 s2 -> exists l', freed l bp n s l' (set_freep p s2).
Proof using Hbase Hseg Hsp Hblk Hpl.
  destruct Hblk as (B1 & B2 & B3 & B4 & B5 & B6), Hpl as (E & Hp & Hl2). intros Ej (L1 & L2 & L3) (K1 & K2 & K3).
  destruct (place_facts l (h_brk s) bp n l1 p sp l2) as (F1 & F2 & F3 & F4); [done..|].
  destruct (spliced l (h_brk s) bp n l1 p sp l2 n' l2') as (l' & E' & S1 & S2 & S3 & S4 & S5 & S6); [done..|]. exists l'. split; try done.
  - change (wd (set_freep p s2)) with (wd s2). rewrite E'. pose proof Hseg as Hs. rewrite E in Hs. apply seg_app in Hs as (y & Hs1 & Hs2). cbn [seg] in Hs2. destruct Hs2 as (-> & _ & Hs2).
    assert (Hsub : exists l0, l2 = l0 ++ l2').
    { destruct l2 as [|[q k] l3]; cbn [join_next] in Ej; [injection Ej as _ <-; by exists []|]. destruct (bp + 16 * n =? q); injection Ej as _ <-; [by exists [(q, k)]|by exists []]. }
    destruct Hsub as [l0 El]. rewrite El in Hs2, F4. apply seg_app in Hs2 as (z & _ & Hs3). pose proof (seg_hd _ _ _ _ Hs3) as ->. apply Forall_app in F4 as [_ F4]. rewrite Forall_forall in F1, F4.
    assert (G1 : seg (wd s2) l1 p base).
    { eapply seg_frame; [|exact Hs1]. intros x k Hx. pose proof (F1 (x, k) Hx) as Hx1. cbn in Hx1. rewrite !K1, !L1. rewrite !decide_False by lia. done. }
    assert (G2 : seg (wd s2) l2' base (hd base l2')).
    { eapply seg_frame; [|exact Hs3]. intros x k Hx. pose proof (F4 (x, k) Hx) as Hx1. cbn in Hx1. rewrite !K1, !L1. rewrite !decide_False by lia. done. }
    apply seg_app. exists p. split; [done|]. unfold join_prev. destruct (Z.eqb_spec (p + 16 * sp) bp) as [Em|Em]; cbn [seg].
    + rewrite !K1. rewrite (decide_True (P := p = p)), (decide_False (P := p + 8 = p)), (decide_True (P := p + 8 = p + 8)) by lia. done.
    + rewrite !K1, !L1. rewrite (decide_True (P := p = p)), (decide_False (P := p + 8 = p)), (decide_True (P := p + 8 = p + 8)), !(decide_False (P := bp = p)), !(decide_False (P := bp = p + 8)), (decide_True (P := bp = bp)),
        !(decide_False (P := bp + 8 = p)), !(decide_False (P := bp + 8 = p + 8)), (decide_False (P := bp + 8 = bp)), (decide_True (P := bp + 8 = bp + 8)) by lia. done.
  - cbn. congruence.
  - intros a Ha Hab Hab8. change (wd (set_freep p s2)) with (wd s2). rewrite K1, L1. destruct (Ha p sp) as [? ?]; [rewrite E; apply elem_of_app; right; left|]. rewrite !decide_False by done. done.
Qed.
End splice.

Lemma wp_free l s bp n (Q : unit -> heap -> Prop) : seg (wd s) (full l) base base -> spaced hstart l (h_brk s) -> h_freep s ∈ base :: l.*1 ->
  hstart <= bp /\ 0 < n /\ bp + 16 * n <= h_brk s /\ h_brk s <= brk_max /\ wd s (bp + 8) = n /\ Forall (fun x => separate bp n x.1 x.2) l ->
  (forall l' s', freed l bp n s l' s' -> Q tt s') -> wp (free base hstart (bp + 16)) Q s.
Proof using Hbase.
  intros Hseg Hsp Hf Hblk HQ. pose proof Hblk as (B1 & B2 & B3 & B4 & B5 & B6). unfold free. replace (u64 (bp + 16 - SIZEOF_HEADER)) with bp by (unfold SIZEOF_HEADER; rewrite (wrapu_small 64); lia).
  wp_step. wp_step. wp_step. wp_step. wp_step.
  assert (Hin : exists l1 k l2, full l = l1 ++ (h_freep s, k) :: l2).
  { change (base :: l.*1) with ((full l).*1) in Hf. apply list_elem_of_fmap in Hf as ([f k] & -> & Hin). apply list_elem_of_split in Hin as (l1 & l2 & ->). by exists l1, k, l2. }
  destruct Hin as (l1 & k & l2 & E). eapply (wp_search l s bp Hseg Hsp); [|exact E| |].
  - split; [done|]. intros p j Hp ->. rewrite Forall_forall in B6. pose proof (B6 _ Hp) as Hs. pose proof (spaced_in _ _ _ _ _ Hsp Hp). unfold separate in Hs. cbn in Hs. lia.
  - apply spaced_length in Hsp; [|lia]. assert (length (full l) = S (length l)) as El by done. rewrite E, length_app in El. cbn [length] in El. unfold rounds. assert (Z.of_nat (length l) <= (h_brk s - hstart) / 16) by (apply Z.div_le_lower_bound; lia). lia.
  - intros p (l3 & sp & l4 & E' & Hp & Hl4). apply (wp_link_next l s bp n l3 p sp l4 Hseg Hsp Hblk (conj E' (conj Hp Hl4))). intros n' l4' s1 Ej L1.
    apply (wp_link_prev l s bp n l3 p sp l4 Hseg Hsp Hblk (conj E' (conj Hp Hl4)) n' l4' s1 _ _ Ej L1). intros s2 L2. wp_step.
    destruct (splice_freed l s bp n l3 p sp l4 Hseg Hsp Hblk (conj E' (conj Hp Hl4)) n' l4' s1 s2 Ej L1 L2) as [l' Hl']. by eapply HQ.
Qed.

(** * The heap *)

(** [l] has the free blocks, [A] the allocated ones with their sizes: the list
    is linked in order and coalesced, all blocks are in the heap and apart, and
    together they are the whole heap. *)
Record heap_ok l A s : Prop := {
  hk_seg : seg (wd s) (full l) base base;
  hk_spaced : spaced hstart l (h_brk s);
  hk_freep : h_freep s ∈ base :: l.*1;
  hk_alloc : forall a n, A !! a = Some n -> 0 < n /\ hstart <= a /\ a + 16 * n <= h_brk s /\ wd s (a + 8) = n /\ Forall (fun x => separate a n x.1 x.2) l;
  hk_apart : forall a n b k, A !! a = Some n -> A !! b = Some k -> a <> b -> separate a n b k;
  hk_total : 16 * (total l + total (map_to_list A)) = h_brk s - hstart;
  hk_brk : hstart <= h_brk s <= brk_max
}.

Lemma total_perm l l' : l ≡ₚ l' -> total l = total l'.
Proof using Type. induction 1; cbn; fold total in *; unfold total in *; lia. Qed.
Lemma total_insert A a n : A !! a = None -> total (map_to_list (<[a := n]> A)) = n + total (map_to_list A).
Proof using Type. intros H. by rewrite (total_perm _ _ (map_to_list_insert A a n H)). Qed.
Lemma total_delete A a n : A !! a = Some n -> total (map_to_list A) = n + total (map_to_list (delete a A)).
Proof using Type. intros H. by rewrite <- (total_perm _ _ (map_to_list_delete A a n H)). Qed.

(** A word of an allocated block is not one of a header of a free block. *)
Lemma header_frame l e q n a : spaced hstart l e -> hstart <= q -> q <= a < q + 16 * n -> Forall (fun x => separate q n x.1 x.2) l -> forall p k, (p, k) ∈ full l -> a <> p /\ a <> p + 8.
Proof using Hbase.
  intros Hs Hq Ha Hsep p k. rewrite elem_of_cons. intros [[= -> ->]|Hin]; [lia|]. rewrite Forall_forall in Hsep. pose proof (Hsep _ Hin) as H. pose proof (spaced_in _ _ _ _ _ Hs Hin). unfold separate in H. cbn in H. lia.
Qed.

(** A new free block [(bp, n)] joins the list, the allocated blocks are [A]. *)
Lemma freed_ok l A s bp n l' s' : freed l bp n s l' s' -> spaced hstart l (h_brk s) -> hstart <= h_brk s <= brk_max ->
  (forall a k, A !! a = Some k -> 0 < k /\ hstart <= a /\ a + 16 * k <= h_brk s /\ wd s (a + 8) = k /\ Forall (fun x => separate a k x.1 x.2) ((bp, n) :: l)) ->
  (forall a k b j, A !! a = Some k -> A !! b = Some j -> a <> b -> separate a k b j) -> 0 < n ->
  16 * (n + total l + total (map_to_list A)) = h_brk s - hstart -> heap_ok l' A s'.
Proof using Hbase.
  intros [F1 F2 F3 F4 F5 F6 F7 F8 F9] Hsp Hbrk HA Hap Hn Ht. split; rewrite ?F3; try done.
  - intros a k Ha. destruct (HA a k Ha) as (H1 & H2 & H3 & H4 & H5). pose proof H5 as [H6 H7]%Forall_cons. split_and!; try done; [|by apply F7]. rewrite F6; [done| | |].
    + eapply (header_frame l _ a k); [exact Hsp|done|lia|done].
    + unfold separate in H6. cbn in H6. lia.
    + unfold separate in H6. cbn in H6. lia.
  - lia.
Qed.

(** The words of the allocated blocks are as before. *)
Definition frame A s s' : Prop := forall q n a, A !! q = Some n -> q + 8 <= a < q + 16 * n -> wd s' a = wd s a.

Lemma freed_frame l A s bp n l' s' : freed l bp n s l' s' -> spaced hstart l (h_brk s) -> 0 < n ->
  (forall a k, A !! a = Some k -> hstart <= a /\ Forall (fun x => separate a k x.1 x.2) ((bp, n) :: l)) -> frame A s s'.
Proof using Hbase.
  intros F Hsp Hn HA q k a Hq Ha. destruct (HA q k Hq) as (H1 & [H2 H3]%Forall_cons). unfold separate in H2. cbn in H2. apply (fr_frame _ _ _ _ _ _ F); [|lia|lia].
  eapply (header_frame l _ q k); [exact Hsp|done|lia|done].
Qed.

Lemma wp_free_ok l A s bp n (Q : unit -> heap -> Prop) : heap_ok l A s -> A !! bp = Some n ->
  (forall l' s', heap_ok l' (delete bp A) s' -> h_brk s' = h_brk s -> frame (delete bp A) s s' -> Q tt s') -> wp (free base hstart (bp + 16)) Q s.
Proof using Hbase.
  intros [H1 H2 H3 H4 H5 H6 H7] Hbp HQ. destruct (H4 bp n Hbp) as (B1 & B2 & B3 & B4 & B5). eapply wp_free; [exact H1|exact H2|exact H3|split_and!; try done; lia|].
  intros l' s' F. eapply HQ; [|exact (fr_brk _ _ _ _ _ _ F)|].
  2: { eapply freed_frame; [exact F|exact H2|exact B1|]. intros a k [Hne Ha]%lookup_delete_Some. destruct (H4 a k Ha) as (? & ? & ? & ? & ?). split; [done|]. constructor; [by apply (H5 a k bp n)|done]. }
  eapply freed_ok; [exact F|exact H2|exact H7| | |exact B1|rewrite (total_delete A bp n Hbp) in H6; lia].
  - intros a k [Hne Ha]%lookup_delete_Some. destruct (H4 a k Ha) as (? & ? & ? & ? & ?). split_and!; try done. constructor; [by apply (H5 a k bp n)|done].
  - intros a k b j [_ Ha]%lookup_delete_Some [_ Hb]%lookup_delete_Some. by apply H5.
Qed.

(** ** More memory *)

Lemma wp_morecore l A s nu (Q : Z -> heap -> Prop) : heap_ok l A s -> 0 < nu -> h_brk s + 16 * Z.max nu 4096 <= brk_max ->
  (forall l' s', heap_ok l' A s' -> (exists q k, (q, k) ∈ l' /\ nu <= k) -> (length l' <= S (length l))%nat -> h_brk s' = h_brk s + 16 * Z.max nu 4096 -> frame A s s' -> Q (h_freep s') s') ->
  wp (morecore base hstart brk_max nu) Q s.
Proof using Hbase.
  intros [H1 H2 H3 H4 H5 H6 H7] Hnu Hroom HQ. unfold morecore, sbrk. replace (if nu <? 4096 then 4096 else nu) with (Z.max nu 4096) by (destruct (Z.ltb_spec nu 4096); lia).
  set (m := Z.max nu 4096) in *. unfold SIZEOF_HEADER. wp_step. wp_step. wp_step. rewrite (wrapu_small 64 (m * 16)), (wrapu_small 64) by lia.
  rewrite (proj2 (Z.ltb_ge _ hstart)), (proj2 (Z.ltb_ge brk_max _)) by lia. cbn [orb]. wp_step. wp_step. wp_step.
  assert (En : (h_brk s =? u64 ERR_NOMEM) = false) by (apply Z.eqb_neq; change (u64 ERR_NOMEM) with (2 ^ 64 - 1); lia). rewrite En. wp_step. apply wp_store; [cbn [h_brk set_brk]; lia|].
  rewrite (wrapu_small 64) by lia. wp_step. set (s1 := set_mem _ _).
  assert (Hw : forall a, a <> h_brk s + 8 -> wd s1 a = wd s a) by (intros a Ha; subst s1; rewrite wd_store, decide_False by lia; done).
  assert (Hlow : Forall (fun x => separate (h_brk s) m x.1 x.2) l).
  { apply Forall_forall. intros [p k] Hp. pose proof (spaced_in _ _ _ _ _ H2 Hp). unfold separate. cbn. lia. }
  eapply (wp_free l s1 (h_brk s) m); [|by eapply spaced_more; [|exact H2]; cbn; lia|exact H3| |].
  - eapply seg_frame; [|exact H1]. intros p k. rewrite elem_of_cons. intros Hp. rewrite !Hw; [done| |]; (destruct Hp as [[= -> ->]|Hp]; [lia|pose proof (spaced_in _ _ _ _ _ H2 Hp); lia]).
  - cbn [h_brk s1 set_mem set_brk]. split_and!; try lia; [|exact Hlow]. subst s1. by rewrite wd_store, decide_True.
  - intros l' s' F. wp_step. pose proof (fr_brk _ _ _ _ _ _ F) as Eb. eapply HQ; [|destruct (fr_fits _ _ _ _ _ _ F) as (q & k & ? & ?); exists q, k; split; [done|lia]|exact (fr_length _ _ _ _ _ _ F)|rewrite Eb; cbn [h_brk s1 set_mem set_brk]; lia|].
    2: { intros q k a Hq Ha. destruct (H4 q k Hq) as (? & ? & ? & ? & ?). rewrite <- (Hw a) by lia. assert (HF : frame A s1 s'); [|by apply (HF q k)].
      eapply freed_frame; [exact F|by eapply spaced_more; [|exact H2]; cbn; lia|lia|]. intros a' k' Ha'. destruct (H4 a' k' Ha') as (? & ? & ? & ? & ?). split; [done|]. constructor; [unfold separate; cbn; lia|done]. }
    eapply freed_ok; [exact F|by eapply spaced_more; [|exact H2]; cbn; lia|cbn [h_brk s1 set_mem set_brk]; lia| |exact H5|lia|cbn [h_brk s1 set_mem set_brk]; lia].
    intros a k Ha. destruct (H4 a k Ha) as (? & ? & ? & ? & ?). rewrite Hw by lia. cbn [h_brk s1 set_mem set_brk]. split_and!; try done; [lia|]. constructor; [unfold separate; cbn; lia|done].
Qed.

(** ** Taking a block *)

Lemma taken_ok l A s s' l0 p k0 l2 nu q : heap_ok l A s -> l = l0 ++ (p, k0) :: l2 -> 0 < nu <= k0 -> q = p + 16 * (k0 - nu) ->
  let l' := l0 ++ (if k0 =? nu then [] else [(p, k0 - nu)]) ++ l2 in
  seg (wd s') (full l') base base -> h_freep s' ∈ base :: l'.*1 -> h_brk s' = h_brk s -> wd s' (q + 8) = nu ->
  (forall a k, A !! a = Some k -> wd s' (a + 8) = wd s (a + 8)) -> A !! q = None /\ heap_ok l' (<[q := nu]> A) s'.
Proof using Hbase.
  intros [H1 H2 H3 H4 H5 H6 H7] El Hnu Eq l' Hseg Hf Eb Hw Hfr. subst l. assert (Hin : (p, k0) ∈ l0 ++ (p, k0) :: l2) by (apply elem_of_app; right; left).
  pose proof (spaced_in _ _ _ _ _ H2 Hin) as (P1 & P2 & P3).
  assert (HA : forall a k, A !! a = Some k -> separate a k p k0) by (intros a k Ha; destruct (H4 a k Ha) as (_ & _ & _ & _ & Hs); rewrite Forall_forall in Hs; by apply (Hs (p, k0))).
  assert (Hq : A !! q = None).
  { destruct (A !! q) as [k|] eqn:E; [|done]. pose proof (HA q k E) as Hs. destruct (H4 q k E) as (? & _). unfold separate in Hs. lia. }
  assert (Hsub : forall a k, 0 < k -> Forall (fun x => separate a k x.1 x.2) (l0 ++ (p, k0) :: l2) -> Forall (fun x => separate a k x.1 x.2) l').
  { intros a k Hk. subst l'. rewrite !Forall_app, Forall_cons. intros (? & Hp & ?). split_and!; try done. destruct (Z.eqb_spec k0 nu); [done|]. constructor; [|done]. unfold separate in *. cbn in *. lia. }
  split; [done|]. split; rewrite ?Eb; try done.
  - subst l'. apply spaced_app in H2 as (S1 & S2 & S3). cbn [spaced] in S3. destruct S3 as (S4 & S5 & S6 & S7). destruct (S2 _ _ _ eq_refl) as [_ S8]. destruct (Z.eqb_spec k0 nu) as [E|E]; cbn [app].
    + apply spaced_app. split; [done|]. split; [|eapply spaced_from; [|exact S7]; lia]. intros x k l3 ->. cbn in S7. split; [lia|]. eapply Forall_impl; [exact S8|]. cbn. intros [y j]. cbn. lia.
    + apply spaced_app. split; [done|]. split; [intros ? ? ? [= <- <- <-]; by split|]. cbn [spaced]. split_and!; try lia. eapply spaced_from; [|exact S7]. lia.
  - intros a n. rewrite lookup_insert. case_decide as E.
    + subst a. intros [= <-]. split_and!; try done; try lia. apply Forall_forall. intros [x k] Hx. subst l'. rewrite !elem_of_app in Hx. unfold separate. cbn [fst snd].
      destruct Hx as [Hx|[Hx|Hx]]; [pose proof (spaced_before _ _ _ _ _ _ _ _ H2 Hx); lia| |pose proof (spaced_after _ _ _ _ _ _ _ _ H2 Hx); lia].
      destruct (Z.eqb_spec k0 nu); [by apply elem_of_nil in Hx|]. apply list_elem_of_singleton in Hx as [= -> ->]. lia.
    + intros Ha. destruct (H4 a n Ha) as (A1 & A2 & A3 & A4 & A5). split_and!; try done; [by rewrite (Hfr a n)|by apply Hsub].
  - intros a n b k. rewrite !lookup_insert. repeat case_decide; intros Ha Hb Hne; try congruence; [injection Ha as <-; subst a; pose proof (HA b k Hb); destruct (H4 b k Hb) as (? & _)|injection Hb as <-; subst b; pose proof (HA a n Ha); destruct (H4 a n Ha) as (? & _)|by apply H5];
      unfold separate in *; lia.
  - rewrite total_insert by done. subst l'. rewrite !total_app in *. cbn [total foldr snd] in H6. fold (total l2) in H6. destruct (Z.eqb_spec k0 nu); cbn [total foldr snd]; lia.
Qed.

Lemma wp_htake l A s nu L1 pp sp p k0 L2 (Q : Z * Z + Z -> heap -> Prop) : heap_ok l A s -> full l = L1 ++ (pp, sp) :: (p, k0) :: L2 -> 0 < nu <= k0 ->
  (forall q l' s', A !! q = None -> heap_ok l' (<[q := nu]> A) s' -> hstart <= q -> h_brk s' = h_brk s -> frame A s s' -> Q (inr (q + 16)) s') -> wp (malloc_step base hstart brk_max nu (pp, p)) Q s.
Proof using Hbase.
  intros HK E Hnu HQ. pose proof HK as [H1 H2 H3 H4 H5 H6 H7]. unfold malloc_step, SIZEOF_HEADER.
  assert (E' : full l = (L1 ++ [(pp, sp)]) ++ (p, k0) :: L2) by (by rewrite <- app_assoc).
  destruct (full_range _ _ _ _ _ _ H2 E') as [(_ & _ & Hn)|(P1 & P2 & P3 & Pin)]; [by apply app_nil in Hn as [_ ?]|].
  assert (El : exists l0, L1 ++ [(pp, sp)] = full l0 /\ l = l0 ++ (p, k0) :: L2).
  { destruct L1 as [|x L1]; cbn [app] in *; [injection E' as <- <- E''; by exists []|]. injection E' as <- E''. exists (L1 ++ [(pp, sp)]). by split. }
  destruct El as (l0 & El0 & El). destruct (full_valid l s _ _ _ _ H2 E) as [V1 V2]. pose proof H1 as Hs. rewrite E' in Hs. pose proof (seg_mid _ _ _ _ _ _ _ Hs) as [Hp8 Hpn]. apply seg_app in Hs as (y & Hs1 & Hs2).
  cbn [seg] in Hs2. destruct Hs2 as (-> & _ & Hs2). rewrite Hpn in Hs2. pose proof (full_order _ _ _ _ _ _ _ _ H2 E) as Hord.
  assert (Hsp : 0 <= sp /\ pp + 16 <= p) by (destruct (full_range _ _ _ _ _ _ H2 E) as [(-> & -> & _)|(? & ? & _)]; lia).
  assert (Hppf : pp ∈ (full l0).*1) by (rewrite <- El0, fmap_app; apply elem_of_app; right; left).
  assert (Hal : forall q k a, A !! q = Some k -> q <= a < q + 16 * k -> a <> pp /\ a <> p + 8 /\ a <> p + 16 * (k0 - nu) + 8).
  { intros q k a Hq Ha. destruct (H4 q k Hq) as (A1 & A2 & A3 & A4 & A5). destruct (header_frame _ _ q k a H2 A2 Ha A5 pp sp) as [? _]; [rewrite E; apply elem_of_app; right; left|].
    rewrite Forall_forall in A5. pose proof (A5 _ Pin) as Hd. unfold separate in Hd. cbn in Hd. lia. }
  assert (Hafter : forall x k, (x, k) ∈ L2 -> p + 16 * k0 < x) by (intros x k Hx; rewrite El in H2; by eapply spaced_after).
  assert (Hbefore : forall x k, (x, k) ∈ full l0 -> x + 16 <= p).
  { intros x k. rewrite elem_of_cons. intros [[= -> ->]|Hx]; [lia|]. rewrite El in H2. pose proof (spaced_before _ _ _ _ _ _ _ _ H2 Hx). destruct (spaced_in _ _ _ x k H2) as (_ & ? & _); [apply elem_of_app; by left|]. lia. }
  wp_step. apply wp_hload; [lia|]. rewrite Hp8, (proj2 (Z.leb_le _ _)) by lia. wp_step. destruct (Z.eqb_spec k0 nu) as [Ee|Ee].
  - wp_step. apply wp_hload; [lia|]. rewrite Hpn. wp_step. apply wp_store; [exact V1|]. wp_step. wp_step. wp_step. wp_step. rewrite (wrapu_small 64) by lia. set (s' := set_freep _ _).
    assert (Hw : forall a, wd s' a = if decide (pp = a) then hd base L2 else wd s a) by (intros a; subst s'; change (wd (set_freep pp ?x)) with (wd x); apply wd_store).
    edestruct (taken_ok l A s s' l0 p k0 L2 nu p HK El) as [Hq Hk]; [lia|lia| | |done| | |].
    + rewrite (proj2 (Z.eqb_eq k0 nu) Ee). cbn [app]. change (full (l0 ++ L2)) with (full l0 ++ L2). rewrite <- El0 in *. apply seg_app in Hs1 as (z & Z1 & Z2). cbn [seg] in Z2. destruct Z2 as (-> & Z3 & Z4).
      rewrite <- app_assoc. apply seg_app. exists pp. split; [|cbn [app seg]; split; [done|]; rewrite !Hw, (decide_True (P := pp = pp)), (decide_False (P := pp = pp + 8)) by lia; split; [done|]].
      * eapply seg_frame; [|exact Z1]. intros x k Hx. assert (x + 16 <= pp); [|by rewrite !Hw, !decide_False by lia].
        rewrite E in *. destruct L1 as [|x1 L1]; [by apply elem_of_nil in Hx|]. cbn [app] in E. injection E as <- E. rewrite E in H2. rewrite elem_of_cons in Hx. destruct Hx as [[= -> ->]|Hx].
        -- destruct (spaced_in _ _ _ pp sp H2) as (? & _); [apply elem_of_app; right; left|]. lia.
        -- pose proof (spaced_before _ _ _ _ _ _ _ _ H2 Hx). destruct (spaced_in _ _ _ x k H2) as (_ & ? & _); [apply elem_of_app; by left|]. lia.
      * eapply seg_frame; [|exact Hs2]. intros x k Hx. pose proof (Hafter x k Hx). by rewrite !Hw, !decide_False by lia.
    + rewrite (proj2 (Z.eqb_eq k0 nu) Ee). cbn [app h_freep s' set_freep]. change (base :: (l0 ++ L2).*1) with ((full l0 ++ L2).*1). rewrite fmap_app. apply elem_of_app. by left.
    + rewrite Hw, decide_False by lia. by rewrite Hp8.
    + intros a k Ha. destruct (H4 a k Ha) as (? & _). destruct (Hal a k (a + 8) Ha) as (? & _); [lia|]. by rewrite Hw, decide_False by congruence.
    + eapply HQ; [exact Hq|exact Hk|lia|done|]. intros b k a Hb Ha. destruct (Hal b k a Hb) as (? & _); [lia|]. by rewrite Hw, decide_False by congruence.
  - rewrite (wrapu_small 64 (k0 - nu)), (wrapu_small 64 (p + _)) by lia. set (q := p + 16 * (k0 - nu)) in *. wp_step. apply wp_store; [lia|]. wp_step. apply wp_store; [cbn [h_brk set_mem]; lia|]. wp_step. wp_step. wp_step. wp_step.
    rewrite (wrapu_small 64) by lia. set (s' := set_freep _ _).
    assert (Hw : forall a, wd s' a = if decide (q + 8 = a) then nu else if decide (p + 8 = a) then k0 - nu else wd s a).
    { intros a. subst s'. change (wd (set_freep pp ?x)) with (wd x). rewrite wd_store. case_decide; [done|]. apply wd_store. }
    edestruct (taken_ok l A s s' l0 p k0 L2 nu q HK El) as [Hq Hk]; [lia|done| | |done| | |].
    + rewrite (proj2 (Z.eqb_neq k0 nu) Ee). change (full (l0 ++ [(p, k0 - nu)] ++ L2)) with (full l0 ++ (p, k0 - nu) :: L2). apply seg_app. exists p. split.
      * rewrite <- El0. eapply seg_frame; [|exact Hs1]. intros x k Hx. rewrite El0 in Hx. pose proof (Hbefore x k Hx). by rewrite !Hw, !decide_False by lia.
      * cbn [seg]. split; [done|]. rewrite !Hw, (decide_False (P := q + 8 = p + 8)), (decide_True (P := p + 8 = p + 8)), !(decide_False (P := _ = p)) by lia. split; [done|]. rewrite Hpn. eapply seg_frame; [|exact Hs2].
        intros x k Hx. pose proof (Hafter x k Hx). by rewrite !Hw, !decide_False by lia.
    + rewrite (proj2 (Z.eqb_neq k0 nu) Ee). cbn [app h_freep s' set_freep]. change (base :: (l0 ++ (p, k0 - nu) :: L2).*1) with ((full l0 ++ (p, k0 - nu) :: L2).*1). rewrite fmap_app. apply elem_of_app. by left.
    + by rewrite Hw, decide_True.
    + intros a k Ha. destruct (H4 a k Ha) as (? & _). destruct (Hal a k (a + 8) Ha) as (_ & ? & ?); [lia|]. by rewrite Hw, !decide_False by lia.
    + eapply HQ; [exact Hq|exact Hk|lia|done|]. intros b k a Hb Ha. destruct (Hal b k a Hb) as (_ & ? & ?); [lia|]. by rewrite Hw, !decide_False by lia.
Qed.

(** ** The search of malloc *)

Lemma full_distinct l e l1 c n l2 d k : spaced hstart l e -> full l = l1 ++ (c, n) :: l2 -> (d, k) ∈ l2 -> c < d.
Proof using Hbase.
  intros Hs E Hin. destruct l1 as [|x l1]; cbn in E; [injection E as <- <- ->; pose proof (spaced_in _ _ _ _ _ Hs Hin); lia|]. injection E as _ ->.
  pose proof (spaced_after _ _ _ _ _ _ _ _ Hs Hin). destruct (spaced_in _ _ _ c n Hs) as (_ & ? & _); [apply elem_of_app; right; left|]. lia.
Qed.

Section walk.
Context (l : list (Z * Z)) (s : heap) (nu : Z) (U V : list (Z * Z)) (sf : Z) (left : nat) (Q : Z -> heap -> Prop).
Abbreviation f := (h_freep s).
Abbreviation run fuel st := (wp (loop fuel (malloc_step base hstart brk_max nu) st) Q s).
Hypothesis Hseg : seg (wd s) (full l) base base.
Hypothesis Hsp : spaced hstart l (h_brk s).
Hypothesis Hnu : 0 < nu.
Hypothesis Efull : full l = U ++ (f, sf) :: V.
Abbreviation nofit := (Forall (fun x : Z * Z => x.2 < nu)).
(** A block that is large enough is met, or the search is back at freep. *)
Hypothesis Hfound : forall l1 pp sp p k l2 fuel, full l = l1 ++ (pp, sp) :: (p, k) :: l2 -> nu <= k -> run (S fuel) (pp, p).
Hypothesis Hnone : forall pp fuel, nofit (full l) -> (left <= fuel)%nat -> run (S fuel) (pp, f).

(** A block too small, not freep: the search goes on. *)
Lemma wp_next l1 pp p k l2 fuel : full l = l1 ++ (p, k) :: l2 -> k < nu -> p <> f -> run fuel (p, hd base l2) -> run (S fuel) (pp, p).
Proof using Hbase Hseg Hsp.
  intros E Hk Hp Hrun. cbn [loop]. unfold malloc_step at 1. destruct (full_valid l s _ _ _ _ Hsp E) as [V1 V2]. pose proof Hseg as Hs. rewrite E in Hs. apply seg_mid in Hs as [Hp8 Hpn].
  wp_step. wp_step. apply wp_hload; [exact V2|]. rewrite Hp8, (proj2 (Z.leb_gt _ _)) by lia. wp_step. wp_step. rewrite (proj2 (Z.eqb_neq p f)) by done. wp_step. apply wp_hload; [exact V1|]. rewrite Hpn. wp_step. exact Hrun.
Qed.

(** From the start of the list to freep. *)
Lemma wp_lower B2 B1 pp p k fuel : U ++ [(f, sf)] = B1 ++ (p, k) :: B2 -> nofit V -> nofit B1 -> B1 = [] \/ (exists B0 sp, B1 = B0 ++ [(pp, sp)]) -> (length B2 + left < fuel)%nat -> run fuel (pp, p).
Proof using Hbase Hseg Hsp Hnu Efull Hfound Hnone.
  revert B1 pp p k fuel. induction B2 as [|[d j] B2 IH]; intros B1 pp p k fuel E HV HB Hpp Hfuel; (destruct fuel as [|fuel]; [lia|]); pose proof Efull as E';
    replace (U ++ (f, sf) :: V) with ((U ++ [(f, sf)]) ++ V) in E' by (by rewrite <- app_assoc); rewrite E, <- app_assoc in E'; cbn [app] in E';
    (destruct (decide (nu <= k)) as [Hk|Hk]; [destruct Hpp as [->|(B0 & sp & ->)];
      [cbn [app] in E'; injection E' as _ <- _; lia|rewrite <- app_assoc in E'; eapply Hfound; [exact E'|exact Hk]]|]).
  - apply app_inj_tail in E as [<- [= <- <-]]. apply Hnone; [|cbn [length] in Hfuel; lia]. rewrite E'. apply Forall_app. split; [done|]. constructor; [cbn; lia|done].
  - destruct (exists_last (l := (d, j) :: B2)) as (B3 & x & EB); [done|]. assert (Ex : x = (f, sf)).
    { change (B1 ++ (p, k) :: (d, j) :: B2) with (B1 ++ [(p, k)] ++ ((d, j) :: B2)) in E. rewrite EB, !app_assoc in E. by apply app_inj_tail in E as [_ <-]. }
    assert (Hpf : p < f). { eapply (full_distinct _ _ _ p k); [exact Hsp|exact E'|]. change ((d, j) :: B2 ++ V) with (((d, j) :: B2) ++ V). apply elem_of_app. left. rewrite EB, Ex. apply elem_of_app. right. left. }
    eapply wp_next; [exact E'|lia|lia|]. cbn [hd]. eapply (IH (B1 ++ [(p, k)]) p d j); [by rewrite <- app_assoc|done| |right; by exists B1, k|cbn [length] in Hfuel; lia].
    apply Forall_app. split; [done|]. constructor; [cbn; lia|done].
Qed.

Lemma from_base : exists B2, U ++ [(f, sf)] = (base, 0) :: B2 /\ length B2 = length U.
Proof using Efull.
  pose proof Efull as E. destruct U as [|x U']; cbn [app] in *; [injection E as E1 E2 _; rewrite <- E1, <- E2; by exists []|]. injection E as <- _. exists (U' ++ [(f, sf)]). split; [done|]. rewrite length_app. cbn. lia.
Qed.

(** From freep to the end of the list. *)
Lemma wp_upper V2 V1 pp p k fuel : V = V1 ++ (p, k) :: V2 -> nofit V1 -> (exists B0 sp, (f, sf) :: V1 = B0 ++ [(pp, sp)]) -> (length V2 + 1 + length U + left < fuel)%nat -> run fuel (pp, p).
Proof using Hbase Hseg Hsp Hnu Efull Hfound Hnone.
  revert V1 pp p k fuel. induction V2 as [|[d j] V2 IH]; intros V1 pp p k fuel E HV (B0 & sp & Hpp) Hfuel; (destruct fuel as [|fuel]; [lia|]);
    (assert (E' : forall W, V = V1 ++ (p, k) :: W -> full l = (U ++ (f, sf) :: V1) ++ (p, k) :: W) by (intros W ->; by rewrite Efull, <- app_assoc)); specialize (E' _ E);
    (destruct (decide (nu <= k)) as [Hk|Hk]; [rewrite Hpp, app_assoc in E'; rewrite <- (app_assoc (U ++ B0)) in E'; eapply Hfound; [exact E'|exact Hk]|]);
    (assert (Hpf : f < p) by (eapply (full_distinct _ _ U f sf V p k); [exact Hsp|exact Efull|rewrite E; apply elem_of_app; right; left]));
    (eapply wp_next; [exact E'|lia|lia|]); cbn [hd].
  - destruct from_base as (B2 & EB & Hlen). eapply (wp_lower B2 []); [exact EB| |done|by left|cbn [length] in Hfuel; lia]. rewrite E. apply Forall_app. split; [done|]. constructor; [cbn; lia|done].
  - eapply (IH (V1 ++ [(p, k)]) p d j); [by rewrite <- app_assoc| |exists ((f, sf) :: V1), k; done|cbn [length] in Hfuel; lia]. apply Forall_app. split; [done|]. constructor; [cbn; lia|done].
Qed.

Lemma wp_walk fuel : (length V + 1 + length U + left < fuel)%nat -> run fuel (f, hd base V).
Proof using Hbase Hseg Hsp Hnu Efull Hfound Hnone.
  intros Hfuel. assert (HV : V = [] \/ exists p k V2, V = (p, k) :: V2) by (destruct V as [|[p k] V2]; [by left|right; eauto]). destruct HV as [EV|(p & k & V2 & EV)].
  - replace (hd base V) with base by (by rewrite EV). destruct from_base as (B2 & EB & Hlen). eapply (wp_lower B2 []); [exact EB|by rewrite EV|done|by left|lia].
  - replace (hd base V) with p by (by rewrite EV). eapply (wp_upper V2 []); [exact EV|done|by exists [], sf|rewrite EV in Hfuel; cbn [length] in Hfuel; lia].
Qed.
End walk.

(** ** malloc *)

Lemma freep_split l s : h_freep s ∈ base :: l.*1 -> exists U k V, full l = U ++ (h_freep s, k) :: V.
Proof using Type.
  change (base :: l.*1) with ((full l).*1). intros Hf. apply list_elem_of_fmap in Hf as ([f k] & E & Hin). cbn in E. rewrite E. apply list_elem_of_split in Hin as (U & V & ->). by exists U, k, V.
Qed.

(** What malloc gives. *)
Definition given A s nu (r : Z) (s' : heap) : Prop := exists q l', r = q + 16 /\ A !! q = None /\ hstart <= q /\ heap_ok l' (<[q := nu]> A) s' /\ h_brk s <= h_brk s' <= h_brk s + 16 * Z.max nu 4096 /\ frame A s s'.

Lemma wp_take_loop l A s sb nu l1 pp sp p k l2 fuel : heap_ok l A s -> full l = l1 ++ (pp, sp) :: (p, k) :: l2 -> 0 < nu <= k -> h_brk sb <= h_brk s <= h_brk sb + 16 * Z.max nu 4096 -> frame A sb s ->
  wp (loop (S fuel) (malloc_step base hstart brk_max nu) (pp, p)) (given A sb nu) s.
Proof using Hbase.
  intros HK E Hnu Hb HF. cbn [loop]. wp_step. eapply wp_htake; [exact HK|exact E|done|]. intros q l' s' Hq HK' Hq0 Eb HF'. wp_step. exists q, l'. rewrite Eb. split_and!; try done; try lia.
  intros b j a Hb' Ha. by rewrite (HF' b j a Hb' Ha), (HF b j a Hb' Ha).
Qed.

Lemma wp_malloc_loop l A s nu : heap_ok l A s -> 0 < nu -> h_brk s + 16 * Z.max nu 4096 <= brk_max -> wp (loop (rounds hstart s) (malloc_step base hstart brk_max nu) (h_freep s, wd s (h_freep s))) (given A s nu) s.
Proof using Hbase.
  intros HK Hnu Hroom. pose proof HK as [H1 H2 H3 H4 H5 H6 H7]. destruct (freep_split l s H3) as (U & k & V & E). pose proof H1 as Hs. rewrite E in Hs. apply seg_mid in Hs as [Hf8 Hfn]. rewrite Hfn.
  assert (El : length (full l) = S (length l)) by done. rewrite E, length_app in El. cbn [length] in El. pose proof (spaced_length _ _ _ (proj1 H7) H2) as Hlen.
  assert (Hx : Z.of_nat (length l) <= (h_brk s - hstart) / 16) by (apply Z.div_le_lower_bound; lia).
  eapply (wp_walk l s nu U V k (length l + 3)); [exact H1|exact H2|exact Hnu|exact E| | |unfold rounds; lia].
  - intros l1 pp sp p j l2 fuel E' Hj. eapply wp_take_loop; [exact HK|exact E'|lia|lia|by intros ? ? ?].
  - intros pp fuel Hno Hfuel. cbn [loop]. unfold malloc_step at 1. destruct (full_valid l s _ _ _ _ H2 E) as [V1 V2]. wp_step. wp_step. apply wp_hload; [exact V2|]. rewrite Hf8.
    assert (Hk : k < nu) by (rewrite E in Hno; apply Forall_app in Hno as [_ [? _]%Forall_cons]; done). rewrite (proj2 (Z.leb_gt _ _)) by lia. wp_step. wp_step. rewrite Z.eqb_refl. wp_step.
    eapply wp_morecore; [exact HK|exact Hnu|exact Hroom|]. intros l' s' HK' Hfit Hlen' Eb HF. pose proof HK' as [K1 K2 K3 K4 K5 K6 K7]. destruct (freep_split l' s' K3) as (U' & k' & V' & E').
    destruct (full_valid l' s' _ _ _ _ K2 E') as [V3 V4]. rewrite (proj2 (Z.eqb_neq (h_freep s') NULL)) by (unfold NULL; lia). wp_step. apply wp_hload; [exact V3|]. pose proof K1 as Hs'. rewrite E' in Hs'. apply seg_mid in Hs' as [_ Hfn']. rewrite Hfn'. wp_step.
    assert (El' : length (full l') = S (length l')) by done. rewrite E', length_app in El'. cbn [length] in El'.
    eapply (wp_walk l' s' nu U' V' k' 0); [exact K1|exact K2|exact Hnu|exact E'| | |lia].
    + intros l1 pp' sp p j l2 fuel' E'' Hj. eapply wp_take_loop; [exact HK'|exact E''|lia|lia|exact HF].
    + intros pp' fuel' Hno' _. exfalso. destruct Hfit as (q & j & Hin & Hj). rewrite Forall_forall in Hno'. specialize (Hno' (q, j)). cbn in Hno'. assert (j < nu); [|lia]. apply Hno'. by right.
Qed.

(** The heap before the first call and after it. *)
Definition heap_inv A s : Prop := (exists l, heap_ok l A s) \/ A = ∅ /\ h_freep s = NULL /\ h_brk s = hstart /\ hstart <= brk_max.

Lemma units_eq nbytes : 0 <= nbytes -> nbytes < 2 ^ 63 -> units nbytes = (nbytes + 15) / 16 + 1.
Proof using Type.
  clear. intros H0 H1. unfold units, SIZEOF_HEADER. replace (nbytes + 16 - 1) with (nbytes + 15) by lia. rewrite (wrapu_small 64 (nbytes + 15)) by lia. apply (wrapu_small 64).
  pose proof (Z.div_le_mono (nbytes + 15) (2 ^ 63 + 15) 16). change ((2 ^ 63 + 15) / 16) with (2 ^ 59) in H. pose proof (Z.div_pos (nbytes + 15) 16). lia.
Qed.

Lemma wp_malloc A s nbytes : heap_inv A s -> 0 <= nbytes -> h_brk s + 16 * Z.max ((nbytes + 15) / 16 + 1) 4096 <= brk_max ->
  wp (malloc base hstart brk_max nbytes) (given A s ((nbytes + 15) / 16 + 1)) s.
Proof using Hbase.
  intros Hinv H0 Hroom. assert (Hb0 : 0 <= h_brk s) by (destruct Hinv as [[l HK]|(_ & _ & -> & _)]; [pose proof (hk_brk _ _ _ HK)|]; lia).
  pose proof (Z.div_mod (nbytes + 15) 16 ltac:(lia)) as Hdm. pose proof (Z.mod_pos_bound (nbytes + 15) 16 ltac:(lia)) as Hmod.
  unfold malloc. rewrite units_eq by lia. set (nu := (nbytes + 15) / 16 + 1) in *. unfold SIZEOF_HEADER. rewrite (wrapu_small 64), (proj2 (Z.ltb_ge _ nbytes)) by lia. wp_step. wp_step.
  destruct Hinv as [[l HK]|(-> & Ef & Eb & Hm)].
  - pose proof (hk_freep _ _ _ HK) as Hf. destruct (freep_split l s Hf) as (U & k & V & E). destruct (full_valid l s _ _ _ _ (hk_spaced _ _ _ HK) E) as [V1 _].
    rewrite (proj2 (Z.eqb_neq (h_freep s) NULL)) by (pose proof (hk_brk _ _ _ HK); unfold NULL; lia). wp_step. wp_step. wp_step. wp_step. wp_step. wp_step. wp_step. apply wp_hload; [exact V1|]. by eapply wp_malloc_loop; [exact HK|lia|].
  - rewrite Ef. change (NULL =? NULL) with true. cbn match. wp_step. wp_step. apply wp_store; [lia|]. wp_step. wp_step. apply wp_store; [lia|]. cbn [h_mem set_freep set_mem]. set (s1 := set_mem _ _).
    wp_step. wp_step. wp_step. wp_step. wp_step. apply wp_hload; [cbn; lia|].
    assert (HK : heap_ok [] ∅ s1).
    { split; cbn [h_brk h_freep s1 set_mem set_freep].
      - cbn [seg]. unfold wd. cbn [h_mem s1 set_mem]. rewrite lookup_insert_eq, lookup_insert_ne, lookup_insert_eq by lia. done.
      - done.
      - left.
      - intros a n Ha. by rewrite lookup_empty in Ha.
      - intros a n b j Ha. by rewrite lookup_empty in Ha.
      - rewrite map_to_list_empty. cbn. lia.
      - lia. }
    eapply wp_mono; [eapply (wp_malloc_loop [] ∅ s1 nu HK); [lia|exact Hroom]|]. intros r s' (q & l' & G1 & G2 & G3 & G4 & G5 & _). change (h_brk s1) with (h_brk s) in G5. exists q, l'. split; [exact G1|]. split; [exact G2|]. split; [exact G3|]. split; [exact G4|]. split; [exact G5|]. intros b k a Hb. by rewrite lookup_empty in Hb.
Qed.
End proofs.
