(* ===== verification/MallocClaims.v ===== *)
(** * Claims about the allocator of user programs *)

From stdpp Require Import prelude list gmap.
From Stdlib Require Import ZArith Lia.
From S2P Require Import Prelude Malloc.

(** A program allocates, frees one of its blocks and writes words into its
    blocks; the list has the blocks it holds, with their lengths in bytes. *)
Inductive mreq := MAlloc (n : Z) | MFree (k : nat) | MWrite (k : nat) (i v : Z).

Definition nunits (n : Z) : Z := (n + 15) / 16 + 1.
(** The header and the size of a block. *)
Definition header_of (b : Z * Z) : Z * Z := (b.1 - 16, nunits b.2).
Definition owned (H : list (Z * Z)) : gmap Z Z := list_to_map (header_of <$> H).
(** How far the requests can move the break. *)
Definition demand (rs : list mreq) : Z := foldr (fun r d => (match r with MAlloc n => 16 * Z.max (nunits n) 4096 | _ => 0 end) + d) 0 rs.

Section claims.
Context (base hstart brk_max : Z).
Hypothesis Hbase : 0 < base /\ base + 16 <= hstart /\ brk_max < 2 ^ 63.
Implicit Types (s : heap) (H : list (Z * Z)) (A : gmap Z Z).
Abbreviation heap_inv := (heap_inv base hstart brk_max).

Fixpoint mrun (rs : list mreq) H : M heap (list (Z * Z)) :=
  match rs with
  | [] => ret H
  | MAlloc n :: rs => p <- malloc base hstart brk_max n;; mrun rs ((p, n) :: H)
  | MFree k :: rs =>
      match H !! k with
      | Some (p, _) => free base hstart p;; mrun rs (delete k H)
      | None => mrun rs H
      end
  | MWrite k i v :: rs =>
      match H !! k with
      | Some (p, n) => if (0 <=? i) && (i + 8 <=? n) && (i mod 8 =? 0) then store base hstart (p + i) v;; mrun rs H else mrun rs H
      | None => mrun rs H
      end
  end.

(** The blocks are the allocated ones. *)
Definition held_ok H s : Prop := NoDup H.*1 /\ Forall (fun b => 0 <= b.2) H /\ heap_inv (owned H) s.

Lemma nunits_bytes n : 0 <= n -> n <= 16 * (nunits n - 1) /\ 0 < nunits n.
Proof using Type. clear. intros Hn. unfold nunits. pose proof (Z.div_mod (n + 15) 16 ltac:(lia)). pose proof (Z.mod_pos_bound (n + 15) 16 ltac:(lia)). lia. Qed.

Lemma headers_nodup H : NoDup H.*1 -> NoDup (header_of <$> H).*1.
Proof using Type.
  clear. intros HN. rewrite <- list_fmap_compose. replace ((fst ∘ header_of) <$> H) with ((fun p => p - 16) <$> H.*1) by (by rewrite <- list_fmap_compose). apply NoDup_fmap_2; [|done]. intros x y. lia.
Qed.
Lemma owned_at H p n : NoDup H.*1 -> (p, n) ∈ H -> owned H !! (p - 16) = Some (nunits n).
Proof using Type.
  clear. intros HN Hin. unfold owned. apply elem_of_list_to_map; [by apply headers_nodup|]. apply list_elem_of_fmap. by exists (p, n).
Qed.
Lemma owned_inv H a n : owned H !! a = Some n -> exists b, b ∈ H /\ header_of b = (a, n).
Proof using Type. clear. intros E. apply elem_of_list_to_map_2, list_elem_of_fmap in E as (b & Eb & Hin). by exists b. Qed.
Lemma owned_delete H k p n : NoDup H.*1 -> H !! k = Some (p, n) -> owned (delete k H) = delete (p - 16) (owned H) /\ NoDup (delete k H).*1.
Proof using Type.
  clear. intros HN Hk. assert (Hp : H ≡ₚ (p, n) :: delete k H) by (by apply delete_Permutation). assert (HN' : NoDup ((p, n) :: delete k H).*1) by (by rewrite <- Hp).
  split; [|cbn in HN'; by apply NoDup_cons in HN' as [_ ?]]. unfold owned. rewrite (list_to_map_proper (header_of <$> H) (header_of <$> ((p, n) :: delete k H))); [|by apply headers_nodup|by rewrite <- Hp].
  cbn. rewrite delete_insert_id; [done|]. apply not_elem_of_list_to_map_1. pose proof (headers_nodup _ HN') as HN2. cbn in HN2. by apply NoDup_cons in HN2 as [? _].
Qed.

Lemma inv_brk A s : heap_inv A s -> hstart <= h_brk s <= brk_max.
Proof using Type. intros [[l HK]|(_ & _ & -> & ?)]; [apply HK|lia]. Qed.

Lemma inv_block A s a n : heap_inv A s -> A !! a = Some n -> exists l, heap_ok base hstart brk_max l A s /\ 0 < n /\ hstart <= a /\ a + 16 * n <= h_brk s.
Proof using Type.
  intros [[l HK]|(-> & _)] Ha; [|by rewrite lookup_empty in Ha]. exists l. destruct (hk_alloc _ _ _ _ _ _ HK a n Ha) as (? & ? & ? & _). done.
Qed.

(** A word of a block is written. *)
Lemma write_inv A s q n a v : heap_inv A s -> A !! q = Some n -> q + 16 <= a -> a < q + 16 * n -> heap_inv A (set_mem (<[a := v]> (h_mem s)) s).
Proof using Hbase.
  intros Hinv Hq Ha1 Ha2. destruct (inv_block A s q n Hinv Hq) as (l & HK & Hn & Hq0 & Hqe). destruct HK as [H1 H2 H3 H4 H5 H6 H7]. left. exists l. destruct (H4 q n Hq) as (_ & _ & _ & _ & Hs).
  assert (Hw : forall x, x <> a -> wd (set_mem (<[a := v]> (h_mem s)) s) x = wd s x) by (intros x Hx; rewrite wd_store, decide_False by congruence; done).
  split; try done.
  - eapply seg_frame; [|exact H1]. intros p k Hp. destruct (header_frame base hstart brk_max Hbase l _ q n a H2 Hq0 ltac:(lia) Hs p k Hp). rewrite !Hw by congruence. done.
  - intros b k Hb. destruct (H4 b k Hb) as (? & ? & ? & ? & ?). split_and!; try done. rewrite Hw; [done|]. destruct (decide (b = q)) as [->|Hne]; [lia|]. pose proof (H5 b k q n Hb Hq Hne) as Hd. unfold separate in Hd. lia.
Qed.

(** C23 Whatever a program allocates, frees and writes into its blocks, as long
    as the heap can grow by what all its requests together may ask for (the
    break plus [demand] stays below the limit of sbrk), malloc and free return,
    and the blocks it holds are in the heap, as long as asked for, and do not
    overlap; the free list stays sorted and coalesced, and free and allocated
    blocks are the whole heap.  When the heap cannot grow malloc faults
    ([exhausted_faults]). *)
Theorem malloc_blocks_disjoint rs H s : held_ok H s -> Forall (fun r => match r with MAlloc n => 0 <= n | _ => True end) rs -> h_brk s + demand rs <= brk_max ->
  wp (mrun rs H) (fun H' s' => held_ok H' s' /\ (forall p n, (p, n) ∈ H' -> hstart <= p - 16 /\ p + n <= h_brk s') /\
    (forall i j p n q k, H' !! i = Some (p, n) -> H' !! j = Some (q, k) -> i <> j -> p + n <= q \/ q + k <= p)) s.
Proof using Hbase.
  intros HH Hrs. revert H s HH. induction Hrs as [|[n|k|k i v] rs Hn _ IH]; intros H s (HN & HP & Hinv) Hd; cbn [mrun].
  - wp_step. split; [done|]. rewrite Forall_forall in HP.
    assert (Hat : forall p n, (p, n) ∈ H -> exists l, heap_ok base hstart brk_max l (owned H) s /\ 0 <= n /\ owned H !! (p - 16) = Some (nunits n) /\ hstart <= p - 16 /\ p + n <= h_brk s).
    { intros p n Hin. pose proof (owned_at H p n HN Hin) as Ho. destruct (inv_block _ _ _ _ Hinv Ho) as (l & HK & ? & ? & ?). exists l. pose proof (HP _ Hin). destruct (nunits_bytes n); [done|]. cbn in *. split_and!; try done; lia. }
    split; [intros p n Hin; destruct (Hat p n Hin) as (_ & _ & _ & _ & ?); done|]. intros i j p n q k Hi Hj Hne.
    destruct (Hat p n) as (l & HK & Hn & Ho & _); [by eapply list_elem_of_lookup_2|]. destruct (Hat q k) as (_ & _ & Hk & Ho' & _); [by eapply list_elem_of_lookup_2|].
    assert (p <> q). { intros ->. apply Hne. eapply (NoDup_lookup H.*1); [exact HN|by rewrite list_lookup_fmap, Hi|by rewrite list_lookup_fmap, Hj]. }
    pose proof (hk_apart _ _ _ _ _ _ HK _ _ _ _ Ho Ho' ltac:(lia)) as Hs. unfold separate in Hs. destruct (nunits_bytes n Hn), (nunits_bytes k Hk). lia.
  - cbn [demand foldr] in Hd. fold (demand rs) in Hd. assert (0 <= demand rs) by (clear; induction rs as [|[] rs IH]; cbn; [lia|fold (demand rs); lia..]).
    wp_step. eapply wp_mono; [apply (wp_malloc base hstart brk_max Hbase (owned H) s n Hinv Hn); unfold nunits in Hd; lia|]. intros p s' (q & l' & -> & Hq & Hq0 & HK & Hb & _).
    fold (nunits n) in *. apply IH; [|lia]. split; [|split; [by constructor|left; exists l'; unfold owned; cbn; replace (q + 16 - 16) with q by lia; exact HK]].
    cbn. constructor; [|done]. intros Hin. apply list_elem_of_fmap in Hin as ([p k] & Ep & Hin). cbn in Ep. subst p. pose proof (owned_at H _ k HN Hin) as Ho. replace (q + 16 - 16) with q in Ho by lia. congruence.
  - change (demand (MFree k :: rs)) with (demand rs) in Hd. destruct (H !! k) as [[p n]|] eqn:Hk; [|by apply IH]. destruct (owned_delete H k p n HN Hk) as [Eo HN']. assert (Hin : (p, n) ∈ H) by (by eapply list_elem_of_lookup_2).
    pose proof (owned_at H p n HN Hin) as Ho. destruct (inv_block _ _ _ _ Hinv Ho) as (l & HK & _). wp_step. replace p with (p - 16 + 16) by lia. eapply (wp_free_ok base hstart brk_max Hbase l (owned H)); [exact HK|exact Ho|].
    intros l' s' HK' Eb _. apply IH; [|rewrite Eb; exact Hd]. split; [done|]. split; [|left; exists l'; by rewrite Eo]. by apply Forall_delete.
  - change (demand (MWrite k i v :: rs)) with (demand rs) in Hd. destruct (H !! k) as [[p n]|] eqn:Hk; [|by apply IH]. destruct ((0 <=? i) && (i + 8 <=? n) && (i mod 8 =? 0)) eqn:Ei; [|by apply IH].
    apply andb_true_iff in Ei as [[Hi0%Z.leb_le Hin%Z.leb_le]%andb_true_iff _]. assert (Hel : (p, n) ∈ H) by (by eapply list_elem_of_lookup_2). pose proof (owned_at H p n HN Hel) as Ho.
    destruct (inv_block _ _ _ _ Hinv Ho) as (l & HK & ? & ? & ?). destruct (nunits_bytes n); [lia|]. wp_step. apply (wp_store base hstart); [lia|]. apply IH; [|exact Hd]. split; [done|]. split; [done|].
    eapply write_inv; [exact Hinv|exact Ho|lia|lia].
Qed.

(** Malloc returns a block of at least the size asked for, from memory that
    was free or new, and changes no word of the allocated blocks; free gives
    exactly its block back and changes no word of the others. *)
Theorem malloc_free_frame A s : heap_inv A s ->
  (forall n, 0 <= n -> h_brk s + 16 * Z.max (nunits n) 4096 <= brk_max -> wp (malloc base hstart brk_max n) (fun p s' =>
    A !! (p - 16) = None /\ heap_inv (<[p - 16 := nunits n]> A) s' /\ n <= 16 * (nunits n - 1) /\ frame A s s') s) /\
  (forall p n, A !! (p - 16) = Some n -> wp (free base hstart p) (fun _ s' => heap_inv (delete (p - 16) A) s' /\ h_brk s' = h_brk s /\ frame (delete (p - 16) A) s s') s).
Proof using Hbase.
  intros Hinv. split.
  - intros n Hn Hroom. eapply wp_mono; [by apply (wp_malloc base hstart brk_max Hbase A s n Hinv Hn)|]. intros p s' (q & l' & -> & Hq & _ & HK & _ & HF). replace (q + 16 - 16) with q by lia.
    split; [done|]. split; [left; by exists l'|]. split; [by apply nunits_bytes|done].
  - intros p n Hp. destruct (inv_block _ _ _ _ Hinv Hp) as (l & HK & _). replace p with (p - 16 + 16) at 1 by lia. eapply (wp_free_ok base hstart brk_max Hbase l A); [exact HK|exact Hp|]. intros l' s' HK' Eb HF. split; [left; by exists l'|]. by split.
Qed.
End claims.

(** ** Runs *)

Definition fresh_heap : heap := mkHeap ∅ NULL 0x1000.
Lemma fresh_params : 0 < 0x100 /\ 0x100 + 16 <= 0x1000 /\ 0x100000 < 2 ^ 63.
Proof. lia. Qed.
Lemma fresh_inv : heap_inv 0x100 0x1000 0x100000 ∅ fresh_heap.
Proof. right. split_and!; try done; cbn; lia. Qed.

Definition some_requests : list mreq := [MAlloc 100; MAlloc 24; MWrite 0 8 7; MAlloc 1; MFree 1; MFree 1; MAlloc 8].
Lemma malloc_blocks_disjoint_witness : exists H s, mrun 0x100 0x1000 0x100000 some_requests [] fresh_heap = Done (H, s) /\ H = [(0x10f20, 8); (0x10f40, 1)] /\
  forall p n, (p, n) ∈ H -> 0x1000 <= p - 16 /\ p + n <= h_brk s.
Proof.
  destruct (wp_elim _ _ _ (malloc_blocks_disjoint 0x100 0x1000 0x100000 fresh_params some_requests [] fresh_heap
    ltac:(split; [apply NoDup_nil_2|split; [constructor|exact fresh_inv]]) ltac:(repeat constructor; lia) ltac:(vm_compute; discriminate))) as (H & s & E & _ & Hin & _).
  exists H, s. split; [exact E|]. split; [|exact Hin].
  assert (Ev : value_of (mrun 0x100 0x1000 0x100000 some_requests [] fresh_heap) = Some [(0x10f20, 8); (0x10f40, 1)]) by (vm_compute; reflexivity). rewrite E in Ev. by injection Ev.
Defined.

Lemma malloc_free_frame_witness : exists p s, malloc 0x100 0x1000 0x100000 100 fresh_heap = Done (p, s) /\ heap_inv 0x100 0x1000 0x100000 (<[p - 16 := nunits 100]> ∅) s.
Proof.
  pose proof (proj1 (malloc_free_frame 0x100 0x1000 0x100000 fresh_params ∅ fresh_heap fresh_inv) 100 ltac:(lia) ltac:(vm_compute; discriminate)) as Hw.
  apply wp_elim in Hw as (p & s & E & _ & Hk & _). exists p, s. split; [exact E|exact Hk].
Defined.

(** The freed blocks are one block again. *)
Example coalesced_run : value_of ((H <- mrun 0x100 0x1000 0x100000 [MAlloc 100; MAlloc 24; MAlloc 1; MFree 1; MFree 0; MFree 0] [];; s <- gets (fun s => (wd s 0x100, wd s 0x1000, wd s 0x1008));; ret (H, s)) fresh_heap)
  = Some ([], (0x1000, 0x100, 4096)).
Proof. vm_compute. reflexivity. Qed.

(** A size that wraps around is refused. *)
Example huge_refused : value_of (malloc 0x100 0x1000 0x100000 (2 ^ 64 - 1) fresh_heap) = Some NULL.
Proof. vm_compute. reflexivity. Qed.

(** When the heap cannot grow, sbrk reports the old end and morecore writes a
    header behind the heap. *)
Example exhausted_faults : malloc 0x100 0x1000 0x8000 100 fresh_heap = Stop BadAccess.
Proof. vm_compute. reflexivity. Qed.
