(* ===== verification/Synch.v ===== *)
(** * Locks, condition variables and the scheduler (kernel/synch.c,
      kernel/sched.c, kernel/thread.c, kernel/timer.c)

    These functions run on several CPUs at once, so they are not modelled as
    computations on a private state but as code of a small machine.  The code
    of a kernel function is the list of its atomic instructions, built with
    the same calls as the C function; a thread is its state and the code it
    has still to run.  A step of the machine is either the next instruction of
    the thread some CPU runs, or a timer interrupt on a CPU that has
    interrupts enabled.  Every interleaving of the CPUs is a run.

    An instruction is one access to memory other CPUs may touch at the same
    time (a lock word, a holder field), or a group of accesses to memory that
    a lock protects; memory is sequentially consistent, as the fences in
    synch.c ask.  The intrusive lists (the ready queue, the waiters of a
    condition variable) are Rocq lists of threads; since a thread has a single
    [node], appending a thread that is already linked stops the machine.

    What the threads do with the locks is a parameter, an instance of
    [Client]: its actions run on the client's own state. *)

From stdpp Require Import prelude list gmap.
From S2P Require Import Prelude.

(** States a thread can be in (include/kernel/thread.h). *)
Inductive threadstate : Set := RUNNING | READY | SLEEPING | ZOMBIE.
#[export] Instance threadstate_eq_dec : EqDecision threadstate.
Proof. solve_decision. Defined.

(** A lock object; the constructor is its [type] field. *)
Inductive lockobj : Set :=
| Spin (lock_status : Z) (holder : Z)
| Sleep (holder : Z).

(** The spinlock and the condition variable inside a sleeplock. *)
Definition sl_lk (a : Z) : Z := a + 8.
Definition sl_waiters (a : Z) : Z := a + 24.

(** The per-CPU record; [c_if] is the interrupt flag of the processor and
    [c_prev] the thread [swtch] returns. *)
Record cpu : Set := mk_cpu {
  idle_thread : Z;
  cur : Z;
  num_disabled : Z;
  intr_enabled : bool;
  c_if : bool;
  c_prev : Z;
}.

Definition set_cur (t p : Z) (c : cpu) : cpu :=
  mk_cpu (idle_thread c) t (num_disabled c) true (c_if c) p.
Definition set_prev (p : Z) (c : cpu) : cpu :=
  mk_cpu (idle_thread c) (cur c) (num_disabled c) (intr_enabled c) (c_if c) p.
Definition set_if (b : bool) (c : cpu) : cpu :=
  mk_cpu (idle_thread c) (cur c) (num_disabled c) (intr_enabled c) b (c_prev c).

(** [intr_set_level(INTR_ON)] ([lvl] true) and [intr_set_level(INTR_OFF)]. *)
Definition intr_set_level (lvl : bool) (c : cpu) : res cpu :=
  if lvl then
    if c_if c then Stop KAssert
    else if num_disabled c =? 0 then Done (set_if true c)
    else
      let n := if num_disabled c >? 0 then num_disabled c - 1 else num_disabled c in
      Done (mk_cpu (idle_thread c) (cur c) n (intr_enabled c)
              ((n =? 0) && intr_enabled c) (c_prev c))
  else
    Done (mk_cpu (idle_thread c) (cur c) (i32 (num_disabled c + 1))
            (if num_disabled c =? 0 then c_if c else intr_enabled c) false (c_prev c)).

(** The global locks of sched.c and timer.c. *)
Definition sched_lock : Z := 1.
Definition timer_lock : Z := 2.

Section machine.
Context {act : Type} {C : Type}.

Inductive instr : Type :=
| IIntr (lvl : bool)      (* intr_set_level *)
| IAcqCheck (l : Z)       (* the test for a lock acquired twice *)
| ITas (l : Z)            (* one turn of the test-and-set loop *)
| ITryTas (l : Z)         (* the single attempt of spinlock_try_acquire *)
| ISetHolder (l : Z)
| IClearHolder (l : Z)
| IUnlock (l : Z)
| ISlTry (a : Z)          (* the test of sleeplock_try_acquire *)
| ISlLoop (a : Z)         (* one turn of the loop of sleeplock_acquire *)
| ISlCheck (a : Z)        (* the kassert of sleeplock_release *)
| ISlClear (a : Z)
| ILockAcquire (l : Z)
| ILockRelease (l : Z)
| IWaitCheck (cv l : Z)   (* the kasserts of condvar_wait *)
| IEnq (cv : Z)
| IPop (cv : Z)           (* condvar_signal: take the first waiter *)
| IBroadcast (cv : Z)     (* one turn of the loop of condvar_broadcast *)
| IReadyMark (t : Z)      (* the body of sched_ready *)
| ISchedMark (st : threadstate)
| ISwitch                 (* sched() up to the return of swtch *)
| ISchedRet               (* sched() from there on *)
| ICleanup (t : Z)        (* thread_cleanup *)
| IStartCheck             (* the kassert of thread_start *)
| ITicks                  (* ticks++ *)
| IIret                   (* return from the interrupt *)
| IPanic
| IAct (a : act).

Abbreviation code := (list instr).

(** synch_init sets [synch_enabled] at boot, before any thread runs. *)
Context (synch_enabled : bool).

Definition when_enabled (k : code) : code := if synch_enabled then k else [].

Definition spinlock_acquire (l : Z) : code :=
  when_enabled [IIntr false; IAcqCheck l; ITas l; ISetHolder l].

Definition spinlock_try_acquire (l : Z) : code :=
  when_enabled [IIntr false; IAcqCheck l; ITryTas l].

Definition spinlock_release (l : Z) : code :=
  when_enabled [IClearHolder l; IUnlock l; IIntr true].

Definition sched_ready (t : Z) : code :=
  spinlock_acquire sched_lock ++ [IReadyMark t] ++ spinlock_release sched_lock.

Definition condvar_signal (cv : Z) : code := when_enabled [IPop cv].

Definition condvar_broadcast (cv : Z) : code := when_enabled [IBroadcast cv].

Definition sched_sched (next_state : threadstate) (lock : Z) : code :=
  spinlock_acquire sched_lock ++ [ISchedMark next_state]
  ++ (if lock =? NULL then [] else [ILockRelease lock])
  ++ [ISwitch; ISchedRet].

Definition condvar_wait (cv lock : Z) : code :=
  when_enabled
    ([IWaitCheck cv lock; IEnq cv] ++ sched_sched SLEEPING lock ++ [ILockAcquire lock]).

Definition sleeplock_acquire (a : Z) : code :=
  when_enabled (spinlock_acquire (sl_lk a) ++ [ISlLoop a] ++ spinlock_release (sl_lk a)).

Definition sleeplock_try_acquire (a : Z) : code :=
  when_enabled (spinlock_acquire (sl_lk a) ++ [ISlTry a] ++ spinlock_release (sl_lk a)).

Definition sleeplock_release (a : Z) : code :=
  when_enabled
    ([ISlCheck a] ++ spinlock_acquire (sl_lk a) ++ [ISlClear a]
     ++ condvar_signal (sl_waiters a) ++ spinlock_release (sl_lk a)).

Definition thread_start : code := [IStartCheck] ++ spinlock_release sched_lock.

Definition thread_exit : code := sched_sched ZOMBIE NULL.

Definition thread_kstart (func : code) : code :=
  thread_start ++ func ++ thread_exit ++ [IPanic].

(** From the handler on: the lock of the handler table that
    trap_invoke_handler takes around the lookup (Trap.v) is left out. *)
Definition timer_trap_handler : code :=
  spinlock_acquire timer_lock ++ [ITicks] ++ spinlock_release timer_lock
  ++ sched_sched READY NULL.

(** ** The machine *)

Record thread : Type := mk_thread {
  state : threadstate;
  rax : Z;                  (* the value the last call returned *)
  k : code;
}.

Record machine : Type := mk_machine {
  locks : gmap Z lockobj;
  cvs : gmap Z (list Z);
  threads : gmap Z thread;
  ready_queue : list Z;
  cpus : gmap Z cpu;
  ticks : Z;
  client : C;
}.

Definition with_locks f (m : machine) : machine :=
  mk_machine (f (locks m)) (cvs m) (threads m) (ready_queue m) (cpus m) (ticks m) (client m).
Definition with_cvs f (m : machine) : machine :=
  mk_machine (locks m) (f (cvs m)) (threads m) (ready_queue m) (cpus m) (ticks m) (client m).
Definition with_threads f (m : machine) : machine :=
  mk_machine (locks m) (cvs m) (f (threads m)) (ready_queue m) (cpus m) (ticks m) (client m).
Definition with_ready f (m : machine) : machine :=
  mk_machine (locks m) (cvs m) (threads m) (f (ready_queue m)) (cpus m) (ticks m) (client m).
Definition with_cpus f (m : machine) : machine :=
  mk_machine (locks m) (cvs m) (threads m) (ready_queue m) (f (cpus m)) (ticks m) (client m).
Definition with_ticks n (m : machine) : machine :=
  mk_machine (locks m) (cvs m) (threads m) (ready_queue m) (cpus m) n (client m).
Definition with_client x (m : machine) : machine :=
  mk_machine (locks m) (cvs m) (threads m) (ready_queue m) (cpus m) (ticks m) x.

Definition set_state (st : threadstate) (t : thread) : thread := mk_thread st (rax t) (k t).
Definition set_rax (v : Z) (t : thread) : thread := mk_thread (state t) v (k t).
Definition set_k (c : code) (t : thread) : thread := mk_thread (state t) (rax t) c.
Definition upd_thread (t : Z) (f : thread -> thread) : machine -> machine :=
  with_threads (alter f t).

(** A thread already linked in the ready queue or in a waiter list. *)
Definition linked (m : machine) (t : Z) : bool :=
  bool_decide (t ∈ ready_queue m) ||
  bool_decide (map_Exists (fun _ ws => t ∈ ws) (cvs m)).

(** [lock_acquire] and [lock_release] look at the type of the lock. *)
Definition lock_acquire (l : Z) (m : machine) : res (code * machine) :=
  match locks m !! l with
  | Some (Spin _ _) => Done (when_enabled (spinlock_acquire l), m)
  | Some (Sleep _) => Done (when_enabled (sleeplock_acquire l), m)
  | None => Stop BadAccess
  end.

Definition lock_release (l : Z) (m : machine) : res (code * machine) :=
  match locks m !! l with
  | Some (Spin _ _) => Done (when_enabled (spinlock_release l), m)
  | Some (Sleep _) => Done (when_enabled (sleeplock_release l), m)
  | None => Stop BadAccess
  end.

(** [sched] up to the context switch: the first ready thread, or the idle
    thread of the CPU, becomes the thread of the CPU ([cpu_switch_thread]). *)
Definition sched (c t : Z) (m : machine) : res (code * machine) :=
  match cpus m !! c with
  | None => Stop BadAccess
  | Some cp =>
      let go next m1 :=
        let m2 := upd_thread next (set_state RUNNING) m1 in
        if t =? next then Done ([], with_cpus (insert c (set_prev NULL cp)) m2)
        else if c_if cp then Stop KAssert
        else Done ([], with_cpus (insert c (set_cur next t cp)) m2) in
      match ready_queue m with
      | n :: q =>
          match threads m !! n with
          | Some th =>
              if bool_decide (state th = READY)
              then go n (with_ready (fun _ => q) m) else Stop KAssert
          | None => Stop BadAccess
          end
      | [] =>
          match threads m !! idle_thread cp with
          | Some _ => go (idle_thread cp) m
          | None => Stop BadAccess
          end
      end
  end.

(** The end of [sched] and of [sched_sched], in the thread that runs now: the
    previous thread is cleaned up when it has exited. *)
Definition sched_return (c : Z) (m : machine) : res (code * machine) :=
  match cpus m !! c with
  | None => Stop BadAccess
  | Some cp =>
      if c_prev cp =? NULL then Done (spinlock_release sched_lock, m)
      else match threads m !! c_prev cp with
           | Some p =>
               Done (spinlock_release sched_lock
                       ++ (if bool_decide (state p = ZOMBIE)
                           then [ICleanup (c_prev cp)] else []), m)
           | None => Stop BadAccess
           end
  end.

(** The kernel stack and the structure of the thread are freed.  The locks that
    pmem_free and kmem_cache_free take meanwhile are not threads' locks of this
    machine and are left out. *)
Definition thread_cleanup (t w : Z) (m : machine) : res (code * machine) :=
  if w =? t then Stop KAssert
  else match threads m !! w with
       | Some _ => Done ([], with_threads (delete w) m)
       | None => Stop BadAccess
       end.

(** What the client's actions do: the code they call and the client's new
    state.  [self] is the thread that runs the action. *)
Context (run_act : Z -> act -> C -> res (code * C)).

(** One instruction of thread [t] on CPU [c]: the code it calls and the new
    machine. *)
Definition exec (c t : Z) (i : instr) (m : machine) : res (code * machine) :=
  match i with
  | IIntr lvl =>
      match cpus m !! c with
      | None => Stop BadAccess
      | Some cp =>
          match intr_set_level lvl cp with
          | Done cp' => Done ([], with_cpus (insert c cp') m)
          | Stop f => Stop f
          end
      end
  | IAcqCheck l =>
      if l =? NULL then Stop KAssert
      else match locks m !! l with
           | Some (Spin _ h) =>
               if negb (h =? NULL) && (h =? t) then Stop KPanic else Done ([], m)
           | _ => Stop BadAccess
           end
  | ITas l =>
      match locks m !! l with
      | Some (Spin s h) =>
          if s =? 0 then Done ([], with_locks (insert l (Spin 1 h)) m)
          else Done ([ITas l], m)
      | _ => Stop BadAccess
      end
  | ITryTas l =>
      match locks m !! l with
      | Some (Spin s h) =>
          if s =? 0 then
            Done ([ISetHolder l],
                  upd_thread t (set_rax ERR_OK) (with_locks (insert l (Spin 1 h)) m))
          else Done ([IIntr true], upd_thread t (set_rax ERR_LOCK_BUSY) m)
      | _ => Stop BadAccess
      end
  | ISetHolder l =>
      match locks m !! l with
      | Some (Spin s _) => Done ([], with_locks (insert l (Spin s t)) m)
      | _ => Stop BadAccess
      end
  | IClearHolder l =>
      if l =? NULL then Stop KAssert
      else match locks m !! l with
           | Some (Spin s _) => Done ([], with_locks (insert l (Spin s NULL)) m)
           | _ => Stop BadAccess
           end
  | IUnlock l =>
      match locks m !! l with
      | Some (Spin _ h) => Done ([], with_locks (insert l (Spin 0 h)) m)
      | _ => Stop BadAccess
      end
  | ISlTry a =>
      match locks m !! a with
      | Some (Sleep h) =>
          if h =? NULL then
            Done ([], upd_thread t (set_rax ERR_OK) (with_locks (insert a (Sleep t)) m))
          else Done ([], upd_thread t (set_rax ERR_LOCK_BUSY) m)
      | _ => Stop BadAccess
      end
  | ISlLoop a =>
      match locks m !! a with
      | Some (Sleep h) =>
          if h =? NULL then Done ([], with_locks (insert a (Sleep t)) m)
          else Done (condvar_wait (sl_waiters a) (sl_lk a) ++ [ISlLoop a], m)
      | _ => Stop BadAccess
      end
  | ISlCheck a =>
      match locks m !! a with
      | Some (Sleep h) => if h =? t then Done ([], m) else Stop KAssert
      | _ => Stop BadAccess
      end
  | ISlClear a =>
      match locks m !! a with
      | Some (Sleep _) => Done ([], with_locks (insert a (Sleep NULL)) m)
      | _ => Stop BadAccess
      end
  | ILockAcquire l => lock_acquire l m
  | ILockRelease l => lock_release l m
  | IWaitCheck cv l =>
      if (cv =? NULL) || (l =? NULL) then Stop KAssert
      else match locks m !! l with
           | Some (Spin _ h) | Some (Sleep h) =>
               if h =? t then Done ([], m) else Stop KAssert
           | None => Stop BadAccess
           end
  | IEnq cv =>
      match cvs m !! cv with
      | Some ws =>
          if linked m t then Stop BadAccess
          else Done ([], with_cvs (insert cv (ws ++ [t])) m)
      | None => Stop BadAccess
      end
  | IPop cv =>
      match cvs m !! cv with
      | Some [] => Done ([], m)
      | Some (w :: ws) => Done (sched_ready w, with_cvs (insert cv ws) m)
      | None => Stop BadAccess
      end
  | IBroadcast cv =>
      match cvs m !! cv with
      | Some [] => Done ([], m)
      | Some (w :: ws) => Done (sched_ready w ++ [IBroadcast cv], with_cvs (insert cv ws) m)
      | None => Stop BadAccess
      end
  | IReadyMark w =>
      match threads m !! w with
      | Some _ =>
          if linked m w then Stop BadAccess
          else Done ([], with_ready (fun q => q ++ [w]) (upd_thread w (set_state READY) m))
      | None => Stop BadAccess
      end
  | ISchedMark st =>
      match cpus m !! c with
      | None => Stop BadAccess
      | Some cp =>
          if bool_decide (st = READY) && negb (t =? idle_thread cp) then
            if linked m t then Stop BadAccess
            else Done ([], with_ready (fun q => q ++ [t]) (upd_thread t (set_state st) m))
          else Done ([], upd_thread t (set_state st) m)
      end
  | ISwitch => sched c t m
  | ISchedRet => sched_return c m
  | ICleanup w => thread_cleanup t w m
  | IStartCheck =>
      match cpus m !! c with
      | Some cp => if c_if cp then Stop KAssert else Done ([], m)
      | None => Stop BadAccess
      end
  | ITicks => Done ([], with_ticks (u32 (ticks m + 1)) m)
  | IIret =>
      match cpus m !! c with
      | Some cp => Done ([], with_cpus (insert c (set_if true cp)) m)
      | None => Stop BadAccess
      end
  | IPanic => Stop KPanic
  | IAct a =>
      match run_act t a (client m) with
      | Done (code', x) => Done (code', with_client x m)
      | Stop f => Stop f
      end
  end.

(** CPU [c] runs the next instruction of its thread.  A thread with no code
    left (an idle thread, or one in user mode) does nothing. *)
Definition cpu_step (c : Z) (m : machine) : res machine :=
  match cpus m !! c with
  | None => Done m
  | Some cp =>
      match threads m !! cur cp with
      | None => Stop BadAccess
      | Some th =>
          match k th with
          | [] => Done m
          | i :: rest =>
              match exec c (cur cp) i m with
              | Done (called, m') => Done (upd_thread (cur cp) (set_k (called ++ rest)) m')
              | Stop f => Stop f
              end
          end
      end
  end.

(** A timer interrupt on CPU [c]: taken when interrupts are enabled; the
    interrupt gate disables them, and the handler runs on the stack of the
    interrupted thread. *)
Definition timer_step (c : Z) (m : machine) : res machine :=
  match cpus m !! c with
  | None => Done m
  | Some cp =>
      if c_if cp then
        Done (upd_thread (cur cp) (fun th => set_k (timer_trap_handler ++ [IIret] ++ k th) th)
                (with_cpus (insert c (set_if false cp)) m))
      else Done m
  end.

(** A schedule is a list of events; a run follows one. *)
Inductive event : Set := Exec (c : Z) | Timer (c : Z).

Definition step (e : event) (m : machine) : res machine :=
  match e with Exec c => cpu_step c m | Timer c => timer_step c m end.

Fixpoint run (es : list event) (m : machine) : res machine :=
  match es with
  | [] => Done m
  | e :: es' => match step e m with Done m' => run es' m' | Stop f => Stop f end
  end.
End machine.

Arguments instr act : clear implicits.
Arguments thread act : clear implicits.
Arguments machine act C : clear implicits.
