(* ===== verification/SynchType.v ===== *)
(** * A checker for lock discipline

    An abstract interpreter of the code of Synch.v.  It tracks, for one thread,
    how deep interrupts are disabled, which spinlocks it has taken, which of
    them carry a holder, which sleeplocks it owns, and how far it is on its way
    off the CPU.  Code the checker accepts takes and releases locks in the
    documented way; the synchronisation functions of the kernel themselves are
    accepted.  SynchInv.v shows that no run of accepted threads goes wrong. *)

From stdpp Require Import prelude list gmap.
From Stdlib Require Import ZArith Lia.
From S2P Require Import Prelude Synch.

(** How far a thread is on its way off the CPU. *)
Inductive park : Set :=
| PNot                (* running *)
| PBack               (* just returned from a context switch *)
| POnCv (cv : Z)      (* on a waiter list, still running *)
| PSlept              (* marked SLEEPING *)
| PMarked             (* marked READY *)
| PDead.              (* marked ZOMBIE *)
#[export] Instance park_eq_dec : EqDecision park.
Proof. solve_decision. Defined.

Record ctx : Set := mk_ctx {
  c_d : Z;              (* num_disabled *)
  c_own : list Z;       (* spinlocks whose word it has set *)
  c_hold : list Z;      (* those with a holder *)
  c_sl : list Z;        (* sleeplocks *)
  c_park : park;
  c_idle : bool;        (* an idle thread *)
  c_gone : bool;        (* it has left the CPU for ever *)
}.
#[export] Instance ctx_eq_dec : EqDecision ctx.
Proof. solve_decision. Defined.

Definition with_d d x := mk_ctx d (c_own x) (c_hold x) (c_sl x) (c_park x) (c_idle x) (c_gone x).
Definition with_own o x := mk_ctx (c_d x) o (c_hold x) (c_sl x) (c_park x) (c_idle x) (c_gone x).
Definition with_hold h x := mk_ctx (c_d x) (c_own x) h (c_sl x) (c_park x) (c_idle x) (c_gone x).
Definition with_sl s x := mk_ctx (c_d x) (c_own x) (c_hold x) s (c_park x) (c_idle x) (c_gone x).
Definition with_park p x := mk_ctx (c_d x) (c_own x) (c_hold x) (c_sl x) p (c_idle x) (c_gone x).
Definition with_gone x := mk_ctx (c_d x) (c_own x) (c_hold x) (c_sl x) (c_park x) (c_idle x) true.

(** The locks and condition variables of the system: the spinlocks, the
    sleeplocks, and the spinlock that protects each condition variable. *)
Record env : Set := mk_env {
  e_spin : gset Z;
  e_sleep : gset Z;
  e_cv : gmap Z Z;
}.

Record env_ok (G : env) : Prop := mk_env_ok {
  eo_sched : sched_lock ∈ e_spin G;
  eo_timer : timer_lock ∈ e_spin G;
  eo_null : NULL ∉ e_spin G;
  eo_disj : e_spin G ## e_sleep G;
  eo_cv : map_Forall (fun cv l => l ∈ e_spin G /\ l <> sched_lock /\ cv <> NULL) (e_cv G);
  eo_sleep : set_Forall (fun a => e_cv G !! sl_waiters a = Some (sl_lk a)) (e_sleep G);
}.
#[export] Instance env_ok_dec G : Decision (env_ok G).
Proof.
  refine (cast_if (decide (sched_lock ∈ e_spin G /\ timer_lock ∈ e_spin G /\ (NULL ∉ e_spin G) /\
    e_spin G ## e_sleep G /\
    map_Forall (fun cv l => l ∈ e_spin G /\ l <> sched_lock /\ cv <> NULL) (e_cv G) /\
    set_Forall (fun a => e_cv G !! sl_waiters a = Some (sl_lk a)) (e_sleep G))));
    [abstract (destruct_and!; by constructor)|abstract (intros []; tauto)].
Defined.

Section checker.
Context {act : Type} (G : env).
(** The spinlocks a thread holds, and it holds no other, when it runs an
    action; [None]: the action may not be run. *)
Context (act_lock : act -> option (list Z)).
Abbreviation chk_instr := (instr act).

Definition guard (b : bool) (r : option ctx) : option ctx := if b then r else None.

Definition only (ls : list Z) (x : ctx) : bool :=
  bool_decide (c_own x = ls) && bool_decide (c_hold x = ls)
  && (c_d x =? Z.of_nat (length ls)).
Definition level (n : Z) (x : ctx) : bool :=
  c_d x =? Z.of_nat (length (c_own x)) + n.
Definition parked (p : park) (x : ctx) : bool := bool_decide (c_park x = p).
Definition has (l : Z) (ls : list Z) : bool := bool_decide (l ∈ ls).
Definition rm (l : Z) (ls : list Z) : list Z := filter (fun l' => l' <> l) ls.

(** May the thread give up spinlock [l] in its present phase? *)
Definition may_drop (l : Z) (x : ctx) : bool :=
  match c_park x with
  | PNot => true
  | PSlept | PMarked | PDead => negb (l =? sched_lock)
  | PBack | POnCv _ => false
  end.

Definition chk_acquire (l : Z) (x : ctx) : option ctx :=
  guard (bool_decide (l ∈ e_spin G) && negb (has l (c_own x)) && level 0 x
           && (c_d x <? 2 ^ 30))
    (Some (mk_ctx (c_d x + 1) (l :: c_own x) (l :: c_hold x) (c_sl x) (c_park x) (c_idle x) (c_gone x))).

Definition chk_release (l : Z) (x : ctx) : option ctx :=
  guard (has l (c_own x) && has l (c_hold x) && level 0 x && may_drop l x)
    (Some (mk_ctx (c_d x - 1) (rm l (c_own x)) (rm l (c_hold x)) (c_sl x) (c_park x) (c_idle x) (c_gone x))).

Definition chk1 (i : chk_instr) (x : ctx) : option ctx :=
  match i with
  | IIntr false => guard (level 0 x && (c_d x <? 2 ^ 30)) (Some (with_d (c_d x + 1) x))
  | IIntr true => guard (level 1 x) (Some (with_d (c_d x - 1) x))
  | IAcqCheck l => guard (bool_decide (l ∈ e_spin G) && negb (has l (c_own x))) (Some x)
  | ITas l =>
      guard (bool_decide (l ∈ e_spin G) && negb (has l (c_own x)) && level 1 x)
        (Some (with_own (l :: c_own x) x))
  | ISetHolder l =>
      guard (has l (c_own x) && negb (has l (c_hold x))) (Some (with_hold (l :: c_hold x) x))
  | IClearHolder l =>
      guard (has l (c_hold x) && may_drop l x) (Some (with_hold (rm l (c_hold x)) x))
  | IUnlock l =>
      guard (has l (c_own x) && negb (has l (c_hold x)) && level 0 x && may_drop l x)
        (Some (with_own (rm l (c_own x)) x))
  | ILockAcquire l => chk_acquire l x
  | ILockRelease l => chk_release l x
  | ISlLoop a =>
      guard (bool_decide (a ∈ e_sleep G) && only [sl_lk a] x && parked PNot x
               && negb (c_idle x) && negb (has a (c_sl x)))
        (Some (with_sl (a :: c_sl x) x))
  | ISlCheck a => guard (bool_decide (a ∈ e_sleep G) && has a (c_sl x)) (Some x)
  | ISlClear a =>
      guard (bool_decide (a ∈ e_sleep G) && has a (c_sl x) && has (sl_lk a) (c_hold x) && parked PNot x)
        (Some (with_sl (rm a (c_sl x)) x))
  | IWaitCheck cv l =>
      guard (has l (c_hold x) && negb (l =? sched_lock) && bool_decide (is_Some (e_cv G !! cv))) (Some x)
  | IEnq cv =>
      match e_cv G !! cv with
      | Some l =>
          guard (only [l] x && parked PNot x && negb (c_idle x)) (Some (with_park (POnCv cv) x))
      | None => None
      end
  | IPop cv | IBroadcast cv =>
      match e_cv G !! cv with
      | Some l =>
          guard (has l (c_hold x) && negb (has sched_lock (c_own x)) && level 0 x
                   && (c_d x <? 2 ^ 30) && parked PNot x) (Some x)
      | None => None
      end
  | IReadyMark _ => guard (has sched_lock (c_hold x) && parked PNot x) (Some x)
  | ISchedMark st =>
      match st, c_park x with
      | SLEEPING, POnCv _ => guard (has sched_lock (c_hold x)) (Some (with_park PSlept x))
      | READY, PNot => guard (has sched_lock (c_hold x)) (Some (with_park PMarked x))
      | ZOMBIE, PNot =>
          guard (has sched_lock (c_hold x) && negb (c_idle x) && bool_decide (c_sl x = []))
            (Some (with_park PDead x))
      | _, _ => None
      end
  | ISwitch =>
      guard (only [sched_lock] x)
        match c_park x with
        | PSlept | PMarked => Some (with_park PBack x)
        | PDead => Some (with_gone x)
        | _ => None
        end
  | ISchedRet =>
      guard (only [sched_lock] x && parked PBack x)
        (Some (mk_ctx 0 [] [] (c_sl x) PNot (c_idle x) (c_gone x)))
  | ICleanup _ => guard (parked PNot x) (Some x)
  | IStartCheck => guard (only [sched_lock] x && parked PBack x) (Some (with_park PNot x))
  | ITicks => Some x
  | IIret => guard (only [] x) (Some x)
  | IAct a =>
      match act_lock a with
      | Some ls => guard (only ls x && parked PNot x && negb (c_idle x)) (Some x)
      | None => None
      end
  | ITryTas _ | ISlTry _ | IPanic => None
  end.

(** The instructions that may follow a context switch. *)
Definition back_instr (i : chk_instr) : bool :=
  match i with ISchedRet | IStartCheck => true | _ => false end.

(** After a thread has left for ever its remaining code does not matter. *)
Definition chk (i : chk_instr) (x : ctx) : option ctx :=
  if c_gone x then Some x else guard (negb (parked PBack x) || back_instr i) (chk1 i x).

Fixpoint chks (ks : list chk_instr) (x : ctx) : option ctx :=
  match ks with
  | [] => Some x
  | i :: ks' => match chk i x with Some x' => chks ks' x' | None => None end
  end.

Definition fin (x : ctx) : bool :=
  c_gone x || (only [] x && parked PNot x).

Definition accepts (ks : list chk_instr) (x : ctx) : bool :=
  match chks ks x with Some y => fin y | None => false end.

(** The state in which [swtch] leaves the thread it switches to. *)
Definition resume_ctx (sl : list Z) (idle : bool) : ctx :=
  mk_ctx 1 [sched_lock] [sched_lock] sl PBack idle false.
(** A running thread that holds nothing. *)
Definition free_ctx (sl : list Z) (idle : bool) : ctx := mk_ctx 0 [] [] sl PNot idle false.

Lemma chks_app ks1 ks2 x :
  chks (ks1 ++ ks2) x = match chks ks1 x with Some y => chks ks2 y | None => None end.
Proof. revert x. induction ks1 as [|i ks1 IH]; intros x; simpl; [done|]. destruct (chk i x); auto. Qed.

Lemma accepts_app ks1 ks2 x y :
  chks ks1 x = Some y -> accepts (ks1 ++ ks2) x = accepts ks2 y.
Proof. intros H. unfold accepts. by rewrite chks_app, H. Qed.

Lemma accepts_cons i ks x : 
  accepts (i :: ks) x = true -> exists y, chk i x = Some y /\ accepts ks y = true.
Proof. unfold accepts. simpl. destruct (chk i x) as [y|]; [eauto|done]. Qed.

Lemma guard_some b r y : guard b r = Some y -> b = true /\ r = Some y.
Proof. unfold guard. by destruct b. Qed.

Lemma only_fields ls x :
  only ls x = true -> c_own x = ls /\ c_hold x = ls /\ c_d x = Z.of_nat (length ls).
Proof.
  unfold only. intros [[?%bool_decide_eq_true ?%bool_decide_eq_true]%andb_true_iff ?%Z.eqb_eq]%andb_true_iff.
  auto.
Qed.

Lemma guard_true b r : b = true -> guard b r = r.
Proof. by intros ->. Qed.

Lemma has_true l ls : has l ls = true <-> l ∈ ls.
Proof. apply bool_decide_eq_true. Qed.
Lemma has_false l ls : has l ls = false <-> l ∉ ls.
Proof. apply bool_decide_eq_false. Qed.
Lemma elem_of_rm l l' ls : l' ∈ rm l ls <-> l' ∈ ls /\ l' <> l.
Proof. unfold rm. rewrite list_elem_of_filter. tauto. Qed.
Lemma rm_head l ls : l ∉ ls -> rm l (l :: ls) = ls.
Proof.
  intros H. unfold rm. rewrite filter_cons, decide_False by tauto.
  induction ls as [|a ls IH]; [done|]. rewrite filter_cons, decide_True by set_solver.
  f_equal. apply IH. set_solver.
Qed.

Lemma length_rm l ls : NoDup ls -> l ∈ ls -> Z.of_nat (length (rm l ls)) = Z.of_nat (length ls) - 1.
Proof.
  intros Hn Hl. apply elem_of_Permutation in Hl as [ls' HP].
  assert (l ∉ ls') as Hl' by (rewrite HP in Hn; by apply NoDup_cons in Hn as [? _]).
  assert (rm l ls ≡ₚ ls') as ->; [|rewrite HP; simpl; lia].
  unfold rm. rewrite HP, filter_cons, decide_False by tauto. clear -Hl'.
  induction ls' as [|a ls' IH]; [done|]. rewrite filter_cons, decide_True by set_solver.
  f_equiv. apply IH. set_solver.
Qed.

(** ** The kernel's own functions are accepted *)

Lemma chk_run i x y :
  c_gone x = false -> c_park x <> PBack -> chk1 i x = Some y -> chk i x = Some y.
Proof.
  intros Hg Hb H. unfold chk. rewrite Hg. unfold parked. by rewrite bool_decide_false.
Qed.

Lemma chks_run i ks x y :
  c_gone x = false -> c_park x <> PBack -> chk1 i x = Some y -> chks (i :: ks) x = chks ks y.
Proof. intros Hg Hb H. simpl. by rewrite (chk_run i x y). Qed.

Lemma chks_acquire l x y ks :
  c_gone x = false -> c_park x <> PBack -> (l ∈ c_hold x -> l ∈ c_own x) ->
  chk_acquire l x = Some y -> chks (spinlock_acquire true l ++ ks) x = chks ks y.
Proof.
  intros Hg Hb Hsub H. unfold chk_acquire in H. apply guard_some in H as [H [= <-]].
  repeat apply andb_true_iff in H as [H ?].
  unfold spinlock_acquire, when_enabled. cbn [app].
  rewrite (chks_run _ _ _ (with_d (c_d x + 1) x)); [|done|done|].
  2: { simpl. apply guard_true. by rewrite H0, H1. }
  rewrite (chks_run _ _ _ (with_d (c_d x + 1) x)); [|done|done|].
  2: { simpl. apply guard_true. by rewrite H, H2. }
  rewrite (chks_run _ _ _ (with_own (l :: c_own x) (with_d (c_d x + 1) x))); [|done|done|].
  2: { simpl. apply guard_true. rewrite H, H2. simpl. unfold level in *. apply Z.eqb_eq in H1. 
       apply Z.eqb_eq. simpl. lia. }
  rewrite (chks_run _ _ _ (with_hold (l :: c_hold x) (with_own (l :: c_own x) (with_d (c_d x + 1) x))));
    [done|done|done|].
  simpl. apply guard_true. apply negb_true_iff, has_false in H2.
  apply andb_true_iff. split; [apply has_true; by left|]. apply negb_true_iff, has_false. auto.
Qed.

Lemma chks_release l x y ks :
  c_gone x = false -> c_park x <> PBack ->
  NoDup (c_own x) ->
  chk_release l x = Some y -> chks (spinlock_release true l ++ ks) x = chks ks y.
Proof.
  intros Hg Hb Hnd H. unfold chk_release in H. apply guard_some in H as [H [= <-]].
  repeat apply andb_true_iff in H as [H ?].
  unfold spinlock_release, when_enabled. cbn [app].
  rewrite (chks_run _ _ _ (with_hold (rm l (c_hold x)) x)); [|done|done|].
  2: { simpl. apply guard_true. by rewrite H2, H0. }
  rewrite (chks_run _ _ _ (with_own (rm l (c_own x)) (with_hold (rm l (c_hold x)) x))); [|done|done|].
  2: { simpl. apply guard_true. rewrite H. unfold level, may_drop in *. simpl. rewrite H1, H0.
       rewrite (proj2 (has_false _ _)); [done|]. rewrite elem_of_rm. tauto. }
  rewrite (chks_run _ _ _ (with_d (c_d x - 1) (with_own (rm l (c_own x)) (with_hold (rm l (c_hold x)) x))));
    [done|done|done|].
  simpl. apply guard_true. unfold level in *. apply Z.eqb_eq in H1. apply Z.eqb_eq. simpl.
  apply has_true in H. pose proof (length_rm l (c_own x) Hnd H). lia.
Qed.

Lemma chks_sched_ready w x ks :
  sched_lock ∈ e_spin G -> c_gone x = false -> c_park x = PNot -> NoDup (c_own x) ->
  (forall l, l ∈ c_hold x -> l ∈ c_own x) -> sched_lock ∉ c_own x -> level 0 x = true ->
  c_d x < 2 ^ 30 -> chks (sched_ready true w ++ ks) x = chks ks x.
Proof.
  intros Hs Hg Hp Hnd Hsub Hno Hl Hd. unfold sched_ready. rewrite <- !app_assoc.
  set (x1 := mk_ctx (c_d x + 1) (sched_lock :: c_own x) (sched_lock :: c_hold x)
               (c_sl x) (c_park x) (c_idle x) (c_gone x)).
  assert (c_park x <> PBack) by congruence.
  rewrite (chks_acquire _ _ x1); [|done|done|auto|].
  2: { unfold chk_acquire. rewrite guard_true; [done|]. rewrite bool_decide_true by done.
       rewrite (proj2 (has_false _ _)), Hl by done. apply Z.ltb_lt in Hd. by rewrite Hd. }
  cbn [app]. rewrite (chks_run _ _ _ x1); [|done|done|].
  2: { cbn [chk1]. apply guard_true. unfold x1, parked; cbn [c_hold c_park].
       rewrite (proj2 (has_true _ _)) by (by left). by rewrite bool_decide_true. }
  assert (sched_lock ∉ c_hold x) by auto.
  rewrite (chks_release _ _ x); [done|done|done|by constructor|].
  unfold chk_release, may_drop. cbn [c_park c_own c_hold x1]. rewrite guard_true.
  - unfold x1. simpl. rewrite !rm_head by done. replace (c_d x + 1 - 1) with (c_d x) by lia. by destruct x.
  - rewrite Hp, !(proj2 (has_true _ _)) by (by left). unfold level in *. simpl.
    apply Z.eqb_eq in Hl. rewrite andb_true_r. apply Z.eqb_eq. lia.
Qed.

Lemma chks_wait cv l sl ks :
  env_ok G -> e_cv G !! cv = Some l ->
  let x := mk_ctx 1 [l] [l] sl PNot false false in
  chks (condvar_wait true cv l ++ ks) x = chks ks x.
Proof.
  intros HG Hcv x. destruct (eo_cv _ HG _ _ Hcv) as (Hl & Hls & _).
  assert (l <> NULL) as Hnn by (intros ->; by apply (eo_null _ HG)).
  unfold condvar_wait, sched_sched, when_enabled. rewrite (proj2 (Z.eqb_neq l NULL)) by done.
  rewrite <- !app_assoc. cbn [app].
  rewrite (chks_run _ _ _ x); [|done|done|].
  2: { cbn [chk1]. apply guard_true. rewrite (proj2 (has_true _ _)) by (by left).
       rewrite (proj2 (Z.eqb_neq _ _)) by done. by rewrite bool_decide_true. }
  set (x1 := with_park (POnCv cv) x).
  rewrite (chks_run _ _ _ x1); [|done|done|].
  2: { cbn [chk1]. rewrite Hcv. apply guard_true. unfold only, parked. simpl.
       by rewrite !bool_decide_true. }
  set (x2 := mk_ctx 2 [sched_lock; l] [sched_lock; l] sl (POnCv cv) false false).
  rewrite (chks_acquire _ _ x2); [|done|done|auto|].
  2: { unfold chk_acquire. rewrite guard_true; [done|]. rewrite bool_decide_true by apply HG.
       rewrite (proj2 (has_false _ _)) by (unfold x1; simpl; set_solver). done. }
  rewrite (chks_run _ _ _ (with_park PSlept x2)); [|done|done|done].
  set (x3 := mk_ctx 1 [sched_lock] [sched_lock] sl PSlept false false).
  rewrite (chks_run _ _ _ x3); [|done|done|].
  2: { cbn [chk1]. unfold chk_release, may_drop. simpl. rewrite guard_true.
       - unfold x3, rm. by rewrite !filter_cons, !decide_True, !decide_False by auto.
       - rewrite !(proj2 (has_true _ _)) by (right; by left). simpl. 
         by rewrite (proj2 (Z.eqb_neq _ _)). }
  rewrite (chks_run _ _ _ (with_park PBack x3)); [|done|done|done].
  set (x4 := mk_ctx 0 [] [] sl PNot false false).
  change (chks (ISchedRet :: ILockAcquire l :: ks) (with_park PBack x3)) with (chks (ILockAcquire l :: ks) x4).
  rewrite (chks_run _ _ _ x); [done|done|done|]. cbn [chk1]. unfold chk_acquire.
  by rewrite bool_decide_true.
Qed.

Lemma chks_timer sl idle :
  env_ok G -> chks (timer_trap_handler true) (free_ctx sl idle) = Some (free_ctx sl idle).
Proof.
  intros HG. pose proof (eo_sched _ HG). pose proof (eo_timer _ HG).
  unfold timer_trap_handler, sched_sched. simpl (NULL =? NULL). cbn [app].
  rewrite (chks_acquire _ _ (mk_ctx 1 [timer_lock] [timer_lock] sl PNot idle false)); [|done|done|done|].
  2: { unfold chk_acquire. by rewrite bool_decide_true. }
  rewrite (chks_run _ _ _ (mk_ctx 1 [timer_lock] [timer_lock] sl PNot idle false)); [|done|done|done].
  rewrite (chks_release _ _ (free_ctx sl idle)); [|done|done|apply NoDup_singleton|done].
  rewrite (chks_acquire _ _ (mk_ctx 1 [sched_lock] [sched_lock] sl PNot idle false)); [done|done|done|done|].
  unfold chk_acquire. by rewrite bool_decide_true.
Qed.
End checker.

Arguments accepts {act} G act_lock ks x.

(** Unfold a successful check into its conditions. *)
Ltac chk_inv :=
  repeat match goal with
  | H : guard _ _ = Some _ |- _ => apply guard_some in H as [??]
  | H : _ && _ = true |- _ => apply andb_true_iff in H as [??]
  | H : negb _ = true |- _ => apply negb_true_iff in H
  | H : bool_decide _ = true |- _ => apply bool_decide_eq_true in H
  | H : bool_decide _ = false |- _ => apply bool_decide_eq_false in H
  | H : has _ _ = true |- _ => apply has_true in H
  | H : has _ _ = false |- _ => apply has_false in H
  | H : only _ _ = true |- _ => unfold only in H
  | H : level _ _ = true |- _ => unfold level in H; apply Z.eqb_eq in H
  | H : (_ =? _) = true |- _ => apply Z.eqb_eq in H
  | H : (_ =? _) = false |- _ => apply Z.eqb_neq in H
  | H : (_ <? _) = true |- _ => apply Z.ltb_lt in H
  | H : parked _ _ = true |- _ => unfold parked in H
  | H : Some _ = Some _ |- _ => injection H as <-
  | H : None = Some _ |- _ => discriminate H
  end.
