(* ===== verification/SynchInv.v ===== *)
(** * The invariant of the concurrent machine

    [inv] relates a machine to three ghost maps: the checker's context of each
    thread, the place where each thread is (on a CPU, in the ready queue, on a
    waiter list, in the hand of the thread that wakes it, ...) and the CPU that
    owns each spinlock.  Since these are functions, mutual exclusion and "a
    thread is in one place only" are part of the form of the invariant. *)

From stdpp Require Import prelude list gmap.
From Stdlib Require Import ZArith Lia.
From S2P Require Import Prelude Synch SynchType.

Inductive place : Set :=
| LRun (c : Z) | LReady | LWait (cv : Z) | LHand (u : Z)
| LLeave (c : Z) | LDoomed (u : Z) | LIdle (c : Z).

Definition alive (l : place) : Prop :=
  match l with LLeave _ | LDoomed _ => False | _ => True end.

Definition upd {A} (f : Z -> A) (t : Z) (a : A) : Z -> A := fun u => if decide (u = t) then a else f u.
Lemma upd_eq {A} (f : Z -> A) t a : upd f t a t = a.
Proof. unfold upd. by rewrite decide_True. Qed.
Lemma upd_ne {A} (f : Z -> A) t a u : u <> t -> upd f t a u = f u.
Proof. intros. unfold upd. by rewrite decide_False. Qed.

Section invariant.
Context {act C : Type} (G : env) (act_lock : act -> option (list Z)).
Abbreviation code := (list (instr act)).
Abbreviation mach := (machine act C).

(** The threads the code will make ready, or free. *)
Definition rtok (ks : code) : list Z :=
  omap (fun i => match i with IReadyMark t => Some t | _ => None end) ks.
Definition ctok (ks : code) : list Z :=
  omap (fun i => match i with ICleanup t => Some t | _ => None end) ks.

Record cwf (x : ctx) : Prop := mk_cwf {
  cw_nodup : NoDup (c_own x);
  cw_hold : forall l, l ∈ c_hold x -> l ∈ c_own x;
  cw_spin : forall l, l ∈ c_own x -> l ∈ e_spin G;
  cw_d : level 0 x = true \/ level 1 x = true;
  cw_park : match c_park x with
            | PNot => True
            | PBack => only [sched_lock] x = true
            | POnCv cv => exists l, e_cv G !! cv = Some l /\ l ∈ c_hold x
            | _ => sched_lock ∈ c_hold x
            end;
  cw_gone : c_gone x = false;
}.

Definition running (P : gmap Z cpu) (t : Z) : Prop := exists c p, P !! c = Some p /\ cur p = t.

(** The holder field of spinlock [l]. *)
Definition holder_ok (P : gmap Z cpu) (X : Z -> ctx) (ow : Z -> option Z) (l h : Z) : Prop :=
  match ow l with
  | None => h = NULL
  | Some c => forall p, P !! c = Some p ->
      if has l (c_hold (X (cur p)))
      then h <> NULL /\ (h = cur p \/ l = sched_lock /\ ~ running P h)
      else h = NULL
  end.

Record lock_ok (L : gmap Z lockobj) (P : gmap Z cpu) (X : Z -> ctx) (ow : Z -> option Z) : Prop :=
  mk_lock_ok {
  lo_own : forall c p l, P !! c = Some p -> (l ∈ c_own (X (cur p)) <-> ow l = Some c);
  lo_dom : forall l c, ow l = Some c -> is_Some (P !! c);
  lo_spin : forall l, l ∈ e_spin G -> exists h,
    L !! l = Some (Spin (match ow l with Some _ => 1 | None => 0 end) h) /\ holder_ok P X ow l h;
  lo_cpu : forall c p, P !! c = Some p ->
    num_disabled p = c_d (X (cur p)) /\ (c_if p = true -> c_d (X (cur p)) = 0);
  lo_inj : forall c c' p p', P !! c = Some p -> P !! c' = Some p' -> cur p = cur p' -> c = c';
}.

Definition sleep_ok (L : gmap Z lockobj) (T : gmap Z (thread act)) (X : Z -> ctx) : Prop :=
  forall a, a ∈ e_sleep G -> exists h, L !! a = Some (Sleep h) /\
    forall t, is_Some (T !! t) -> (a ∈ c_sl (X t) <-> h = t).

Record type_ok (T : gmap Z (thread act)) (P : gmap Z cpu) (X : Z -> ctx) (lc : Z -> place) : Prop :=
  mk_type_ok {
  to_null : T !! NULL = None;
  to_cpu : forall c p, P !! c = Some p -> is_Some (T !! cur p);
  to_idle : forall c p, P !! c = Some p ->
    lc (idle_thread p) = LIdle c /\ is_Some (T !! idle_thread p);
  to_code : forall t th, T !! t = Some th -> running P t \/ alive (lc t) ->
    accepts G act_lock (k th) (X t) = true /\ cwf (X t);
  to_off : forall t, is_Some (T !! t) -> ~ running P t -> alive (lc t) ->
    X t = resume_ctx (c_sl (X t)) (c_idle (X t));
  to_idleu : forall c p t, P !! c = Some p -> is_Some (T !! t) -> lc t = LIdle c -> t = idle_thread p;
  to_idlec : forall t, is_Some (T !! t) -> (c_idle (X t) = true <-> exists c, lc t = LIdle c);
}.

Definition place_run (lc : Z -> place) (X : Z -> ctx) (c : Z) (p : cpu) : Prop :=
  match c_park (X (cur p)) with
  | PNot | PBack => lc (cur p) = LRun c \/ lc (cur p) = LIdle c
  | POnCv cv => lc (cur p) = LWait cv
  | PSlept => (exists cv, lc (cur p) = LWait cv) \/ exists u, lc (cur p) = LHand u
  | PMarked => lc (cur p) = LReady \/ lc (cur p) = LIdle c
  | PDead => lc (cur p) = LLeave c
  end.

Record place_ok (T : gmap Z (thread act)) (R : list Z) (V : gmap Z (list Z)) (P : gmap Z cpu)
    (X : Z -> ctx) (lc : Z -> place) : Prop := mk_place_ok {
  po_ready : NoDup R;
  po_ready_in : forall t, t ∈ R <-> is_Some (T !! t) /\ lc t = LReady;
  po_cvdom : forall cv, is_Some (V !! cv) <-> is_Some (e_cv G !! cv);
  po_cvs : forall cv ws, V !! cv = Some ws ->
    NoDup ws /\ forall t, t ∈ ws <-> is_Some (T !! t) /\ lc t = LWait cv;
  po_rtok : forall u th, T !! u = Some th -> running P u \/ alive (lc u) ->
    NoDup (rtok (k th)) /\ forall t, t ∈ rtok (k th) -> is_Some (T !! t) /\ lc t = LHand u;
  po_ctok : forall u th, T !! u = Some th -> running P u \/ alive (lc u) ->
    NoDup (ctok (k th)) /\ forall t, t ∈ ctok (k th) -> is_Some (T !! t) /\ lc t = LDoomed u;
  po_run : forall c p, P !! c = Some p -> place_run lc X c p;
  po_norun : forall t c, is_Some (T !! t) -> lc t = LRun c -> exists p, P !! c = Some p /\ cur p = t;
  po_prev : forall c p, P !! c = Some p -> c_park (X (cur p)) = PBack ->
    c_prev p = NULL \/ is_Some (T !! c_prev p) /\ c_prev p <> cur p /\
      (lc (c_prev p) = LLeave c \/ alive (lc (c_prev p)));
  po_rstate : forall t th, T !! t = Some th -> lc t = LReady -> state th = READY;
  po_dead : forall t th, T !! t = Some th -> (state th = ZOMBIE <-> ~ alive (lc t));
  po_doomed : forall t u, is_Some (T !! t) -> lc t = LDoomed u -> ~ running P t;
}.

Record inv (m : mach) (X : Z -> ctx) (lc : Z -> place) (ow : Z -> option Z) : Prop := mk_inv {
  i_lock : lock_ok (locks m) (cpus m) X ow;
  i_sleep : sleep_ok (locks m) (threads m) X;
  i_type : type_ok (threads m) (cpus m) X lc;
  i_place : place_ok (threads m) (ready_queue m) (cvs m) (cpus m) X lc;
}.

(** ** Facts about the invariant *)

Lemma cpu_unique P L X ow c c' p p' l :
  lock_ok L P X ow -> P !! c = Some p -> P !! c' = Some p' ->
  l ∈ c_own (X (cur p)) -> l ∈ c_own (X (cur p')) -> c = c'.
Proof using Type.
  intros HL H H' Ho Ho'. apply (lo_own _ _ _ _ HL c p l H) in Ho.
  apply (lo_own _ _ _ _ HL c' p' l H') in Ho'. congruence.
Qed.

(** [P'] is [P] with the record of CPU [c] replaced by [p']; the thread and
    the idle thread of the CPU stay. *)
Definition cpu_upd (P P' : gmap Z cpu) (c : Z) (p p' : cpu) : Prop :=
  P !! c = Some p /\ P' !! c = Some p' /\ (forall c', c' <> c -> P' !! c' = P !! c') /\
  cur p' = cur p /\ idle_thread p' = idle_thread p.

Lemma cpu_upd_refl P c p : P !! c = Some p -> cpu_upd P P c p p.
Proof using Type. intros. by repeat split. Qed.

Lemma cpu_upd_insert P c p p' :
  P !! c = Some p -> cur p' = cur p -> idle_thread p' = idle_thread p ->
  cpu_upd P (<[c := p']> P) c p p'.
Proof using Type.
  intros. split; [done|]. split; [apply lookup_insert_eq|]. split; [|done].
  intros c' ?. by apply lookup_insert_ne.
Qed.

Lemma cpu_upd_lookup P P' c p p' c' q :
  cpu_upd P P' c p p' -> P' !! c' = Some q ->
  (c' = c /\ q = p') \/ (c' <> c /\ P !! c' = Some q).
Proof using Type.
  intros (? & ? & H & _) Hq. destruct (decide (c' = c)) as [->|Hne]; [left; split; congruence|].
  right. split; [done|]. by rewrite <- H.
Qed.

Lemma cpu_upd_back P P' c p p' c' q :
  cpu_upd P P' c p p' -> P' !! c' = Some q ->
  exists q0, P !! c' = Some q0 /\ cur q0 = cur q /\ idle_thread q0 = idle_thread q.
Proof using Type.
  intros HU Hq. destruct (cpu_upd_lookup _ _ _ _ _ _ _ HU Hq) as [[-> ->]|[? ?]]; [|eauto].
  destruct HU as (? & ? & ? & ? & ?). exists p. auto.
Qed.

Lemma cpu_upd_sym P P' c p p' : cpu_upd P P' c p p' -> cpu_upd P' P c p' p.
Proof using Type. intros (?&?&H&?&?). split; [done|]. split; [done|]. split; [|done]. intros. symmetry. auto. Qed.

Lemma cpu_upd_running P P' c p p' t : cpu_upd P P' c p p' -> running P' t <-> running P t.
Proof using Type.
  assert (forall P P' p p', cpu_upd P P' c p p' -> running P' t -> running P t) as H.
  { intros Q Q' q q' HU (c' & r & Hr & <-).
    destruct (cpu_upd_back _ _ _ _ _ _ _ HU Hr) as (r0 & ? & ? & ?). by exists c', r0. }
  split; [by eapply H|]. eapply H. by apply cpu_upd_sym.
Qed.

Section on_cpu.
Context {L : gmap Z lockobj} {P P' : gmap Z cpu} {X : Z -> ctx} {ow : Z -> option Z}.
Context {c : Z} {p p' : cpu} (HL : lock_ok L P X ow) (HU : cpu_upd P P' c p p').

Lemma other_cpu c' q : c' <> c -> P !! c' = Some q -> cur q <> cur p.
Proof using HL HU.
  destruct HU as (Hp & _). intros Hne Hq E. apply Hne. exact (lo_inj _ _ _ _ HL _ _ _ _ Hq Hp E).
Qed.

(** Neither the lock words nor what the thread owns changes. *)
Lemma lock_ok_same x' :
  c_own x' = c_own (X (cur p)) -> c_hold x' = c_hold (X (cur p)) ->
  num_disabled p' = c_d x' -> (c_if p' = true -> c_d x' = 0) ->
  lock_ok L P' (upd X (cur p) x') ow.
Proof using HL HU.
  intros Ho Hh Hd Hi. pose proof HU as (Hp & Hp' & Hoth & Hcur & _).
  assert (forall c' q, P' !! c' = Some q ->
    c_own (upd X (cur p) x' (cur q)) = c_own (X (cur q)) /\
    c_hold (upd X (cur p) x' (cur q)) = c_hold (X (cur q))) as Hsame.
  { intros c' q Hq. destruct (cpu_upd_lookup _ _ _ _ _ _ _ HU Hq) as [[-> ->]|[Hne Hq']].
    - rewrite Hcur, !upd_eq. auto.
    - rewrite !upd_ne by (by apply (other_cpu c' q)). auto. }
  split.
  - intros c' q l Hq. rewrite (proj1 (Hsame c' q Hq)).
    destruct (cpu_upd_back _ _ _ _ _ _ _ HU Hq) as (q0 & Hq0 & <- & _). by apply (lo_own _ _ _ _ HL).
  - intros l c' E. destruct (lo_dom _ _ _ _ HL _ _ E) as [q Hq].
    destruct (decide (c' = c)) as [->|]; [by exists p'|]. rewrite Hoth by done. by exists q.
  - intros l Hl. destruct (lo_spin _ _ _ _ HL l Hl) as (h & Hlk & Hh'). exists h. split; [done|].
    unfold holder_ok in *. destruct (ow l) as [c'|]; [|done]. intros q Hq.
    rewrite (proj2 (Hsame c' q Hq)).
    destruct (cpu_upd_back _ _ _ _ _ _ _ HU Hq) as (q0 & Hq0 & <- & _).
    specialize (Hh' q0 Hq0). destruct (has l _); [|done].
    destruct Hh' as [? [?|[? Hn]]]; [auto|]. split; [done|]. right. split; [done|].
    by rewrite (cpu_upd_running _ _ _ _ _ _ HU).
  - intros c' q Hq. destruct (cpu_upd_lookup _ _ _ _ _ _ _ HU Hq) as [[-> ->]|[Hne Hq']].
    + rewrite Hcur, upd_eq. auto.
    + rewrite upd_ne by (by apply (other_cpu c' q)). exact (lo_cpu _ _ _ _ HL c' q Hq').
  - intros c1 c2 q1 q2 H1 H2 E.
    destruct (cpu_upd_back _ _ _ _ _ _ _ HU H1) as (r1 & ? & ? & _).
    destruct (cpu_upd_back _ _ _ _ _ _ _ HU H2) as (r2 & ? & ? & _).
    eapply (lo_inj _ _ _ _ HL c1 c2 r1 r2); congruence.
Qed.

(** The thread on CPU [c] changes spinlock [l], which is free or its own. *)
Lemma lock_ok_touch l x' o h :
  ow l = None \/ ow l = Some c -> o = None \/ o = Some c ->
  c_d x' = c_d (X (cur p)) ->
  (forall l', l' <> l -> (l' ∈ c_own x' <-> l' ∈ c_own (X (cur p))) /\
                        (l' ∈ c_hold x' <-> l' ∈ c_hold (X (cur p)))) ->
  (l ∈ c_own x' <-> o = Some c) ->
  match o with
  | None => h = NULL
  | Some _ => if has l (c_hold x') then h <> NULL /\ (h = cur p \/ l = sched_lock /\ ~ running P h)
              else h = NULL
  end ->
  lock_ok (<[l := Spin (match o with Some _ => 1 | None => 0 end) h]> L) P
    (upd X (cur p) x') (upd ow l o).
Proof using HL HU.
  intros Hl Ho Hd Hsame Hown Hh. pose proof HU as (Hp & _).
  split.
  - intros c' q l' Hq. destruct (decide (c' = c)) as [->|Hne].
    + replace q with p by congruence. rewrite upd_eq.
      destruct (decide (l' = l)) as [->|Hl']; [by rewrite upd_eq|].
      rewrite upd_ne by done. rewrite (proj1 (Hsame l' Hl')). by apply (lo_own _ _ _ _ HL).
    + rewrite (upd_ne X) by (by apply (other_cpu c' q)). rewrite (lo_own _ _ _ _ HL c' q l' Hq).
      destruct (decide (l' = l)) as [->|Hl']; [rewrite upd_eq|by rewrite upd_ne].
      split; intros E; destruct Hl, Ho; congruence.
  - intros l' c'. destruct (decide (l' = l)) as [->|Hl'].
    + rewrite upd_eq. intros ->. destruct Ho; simplify_eq. by exists p.
    + rewrite upd_ne by done. apply (lo_dom _ _ _ _ HL).
  - intros l' Hl'. destruct (decide (l' = l)) as [->|Hne].
    + exists h. rewrite upd_eq, lookup_insert_eq. split; [done|].
      unfold holder_ok. rewrite upd_eq. destruct o as [c'|]; [|done].
      intros q Hq. destruct Ho; simplify_eq. by rewrite upd_eq.
    + rewrite upd_ne, lookup_insert_ne by done.
      destruct (lo_spin _ _ _ _ HL l' Hl') as (h' & Hlk & Hh'). exists h'. split; [done|].
      unfold holder_ok in *. rewrite upd_ne by done. destruct (ow l') as [c'|]; [|done].
      intros q Hq. specialize (Hh' q Hq). destruct (decide (c' = c)) as [->|Hc'].
      * replace q with p in * by congruence. rewrite upd_eq.
        replace (has l' (c_hold x')) with (has l' (c_hold (X (cur p)))); [done|].
        apply bool_decide_ext. symmetry. apply Hsame. done.
      * rewrite upd_ne by (by apply (other_cpu c' q)). done.
  - intros c' q Hq. destruct (decide (c' = c)) as [->|Hne].
    + replace q with p by congruence. rewrite upd_eq, Hd. exact (lo_cpu _ _ _ _ HL c p Hp).
    + rewrite upd_ne by (by apply (other_cpu c' q)). exact (lo_cpu _ _ _ _ HL c' q Hq).
  - exact (lo_inj _ _ _ _ HL).
Qed.
End on_cpu.

(** ** Steps that leave every thread in its place *)

Section local.
Context {T : gmap Z (thread act)} {R : list Z} {V : gmap Z (list Z)} {P P' : gmap Z cpu}.
Context {X : Z -> ctx} {lc : Z -> place} {c : Z} {p p' : cpu} {th : thread act}.
Context {ks : code} {x' : ctx}.
Context (HU : cpu_upd P P' c p p') (Hth : T !! cur p = Some th).
Context (Hidle : c_idle x' = c_idle (X (cur p))).
Abbreviation T' := (alter (set_k ks) (cur p) T).
Abbreviation X' := (upd X (cur p) x').

Lemma alter_lookup u th' :
  T' !! u = Some th' ->
  (u = cur p /\ th' = set_k ks th) \/ (u <> cur p /\ T !! u = Some th').
Proof using Hth.
  intros H. destruct (decide (u = cur p)) as [->|Hne].
  - rewrite lookup_alter_eq, Hth in H. simpl in H. left. split; congruence.
  - rewrite lookup_alter_ne in H by done. auto.
Qed.
Lemma alter_dom u : is_Some (T' !! u) <-> is_Some (T !! u).
Proof using Type. apply lookup_alter_is_Some. Qed.

Lemma type_ok_local :
  type_ok T P X lc -> accepts G act_lock ks x' = true -> cwf x' -> type_ok T' P' X' lc.
Proof using Hidle Hth HU.
  intros HT Hacc Hcw. pose proof HU as (Hp & Hp' & Hoth & Hcur & Hid). split.
  - rewrite lookup_alter_ne; [apply (to_null _ _ _ _ HT)|].
    intros E. pose proof (to_null _ _ _ _ HT). congruence.
  - intros c' q Hq. destruct (cpu_upd_back _ _ _ _ _ _ _ HU Hq) as (q0 & Hq0 & <- & _).
    rewrite alter_dom. by eapply to_cpu.
  - intros c' q Hq. destruct (cpu_upd_back _ _ _ _ _ _ _ HU Hq) as (q0 & Hq0 & _ & <-).
    rewrite alter_dom. by eapply to_idle.
  - intros t th' Ht Hor. rewrite (cpu_upd_running _ _ _ _ _ _ HU) in Hor.
    destruct (alter_lookup t th' Ht) as [[-> ->]|[Hne Ht']]; [by rewrite upd_eq|].
    rewrite upd_ne by done. by eapply to_code.
  - intros t Ht Hnr Hal. rewrite (cpu_upd_running _ _ _ _ _ _ HU) in Hnr. rewrite alter_dom in Ht.
    destruct (decide (t = cur p)) as [->|Hne]; [exfalso; apply Hnr; by exists c, p|].
    rewrite upd_ne by done. by eapply to_off.
  - intros c' q t Hq Ht Hl. rewrite alter_dom in Ht.
    destruct (cpu_upd_back _ _ _ _ _ _ _ HU Hq) as (q0 & Hq0 & _ & <-). by eapply to_idleu.
  - intros t Ht. rewrite alter_dom in Ht.
    destruct (decide (t = cur p)) as [->|Hne]; [rewrite upd_eq, Hidle|rewrite upd_ne by done];
      by eapply to_idlec.
Qed.

Lemma place_ok_local :
  place_ok T R V P X lc -> rtok ks = rtok (k th) -> ctok ks = ctok (k th) ->
  c_prev p' = c_prev p ->
  c_park x' = c_park (X (cur p)) \/ c_park (X (cur p)) = PBack /\ c_park x' = PNot ->
  place_ok T' R V P' X' lc.
Proof using Hidle Hth HU.
  intros HP Hrt Hct Hprev Hpark. pose proof HU as (Hp & Hp' & Hoth & Hcur & Hid).
  pose proof (cpu_upd_running _ _ _ _ _ (cur p) HU) as Hrun.
  assert (forall c' q, P' !! c' = Some q ->
    (c_park (X' (cur q)) = c_park (X (cur q)) \/
     c_park (X (cur q)) = PBack /\ c_park (X' (cur q)) = PNot)) as Hpk.
  { intros c' q Hq. destruct (decide (cur q = cur p)) as [->|Hne]; [by rewrite upd_eq|].
    rewrite upd_ne by done. auto. }
  split.
  - apply (po_ready _ _ _ _ _ _ HP).
  - intros t. rewrite alter_dom. apply (po_ready_in _ _ _ _ _ _ HP).
  - apply (po_cvdom _ _ _ _ _ _ HP).
  - intros cv ws Hw. destruct (po_cvs _ _ _ _ _ _ HP cv ws Hw) as [? H]. split; [done|].
    intros t. rewrite alter_dom. apply H.
  - intros u th' Hu Hor. rewrite (cpu_upd_running _ _ _ _ _ _ HU) in Hor.
    destruct (alter_lookup u th' Hu) as [[-> ->]|[Hne Hu']].
    + simpl. rewrite Hrt. destruct (po_rtok _ _ _ _ _ _ HP _ _ Hth Hor) as [? H].
      split; [done|]. intros t. rewrite alter_dom. apply H.
    + destruct (po_rtok _ _ _ _ _ _ HP _ _ Hu' Hor) as [? H].
      split; [done|]. intros t. rewrite alter_dom. apply H.
  - intros u th' Hu Hor. rewrite (cpu_upd_running _ _ _ _ _ _ HU) in Hor.
    destruct (alter_lookup u th' Hu) as [[-> ->]|[Hne Hu']].
    + simpl. rewrite Hct. destruct (po_ctok _ _ _ _ _ _ HP _ _ Hth Hor) as [? H].
      split; [done|]. intros t. rewrite alter_dom. apply H.
    + destruct (po_ctok _ _ _ _ _ _ HP _ _ Hu' Hor) as [? H].
      split; [done|]. intros t. rewrite alter_dom. apply H.
  - intros c' q Hq. destruct (cpu_upd_back _ _ _ _ _ _ _ HU Hq) as (q0 & Hq0 & Hc & _).
    pose proof (po_run _ _ _ _ _ _ HP c' q0 Hq0) as H. unfold place_run in *. rewrite Hc in H.
    destruct (Hpk c' q Hq) as [->|[E ->]]; [done|]. by rewrite E in H.
  - intros t c' Ht Hl. rewrite alter_dom in Ht.
    destruct (po_norun _ _ _ _ _ _ HP t c' Ht Hl) as (q & Hq & <-).
    destruct (cpu_upd_back _ _ _ _ _ _ _ (cpu_upd_sym _ _ _ _ _ HU) Hq) as (q0 & ? & ? & _).
    by exists q0.
  - intros c' q Hq Hb. rewrite alter_dom.
    assert (c_park (X (cur q)) = PBack) as Hb' by (destruct (Hpk c' q Hq) as [<-|[? ?]]; congruence).
    destruct (cpu_upd_lookup _ _ _ _ _ _ _ HU Hq) as [[-> ->]|[Hne Hq']].
    + rewrite Hcur, Hprev in *. by apply (po_prev _ _ _ _ _ _ HP c p).
    + by apply (po_prev _ _ _ _ _ _ HP c' q).
  - intros t th' Ht Hl. destruct (alter_lookup t th' Ht) as [[-> ->]|[Hne Ht']]; simpl;
      by eapply po_rstate.
  - intros t th' Ht. destruct (alter_lookup t th' Ht) as [[-> ->]|[Hne Ht']]; simpl;
      by eapply po_dead.
  - intros t u Ht Hl. rewrite alter_dom in Ht. rewrite (cpu_upd_running _ _ _ _ _ _ HU).
    by eapply po_doomed.
Qed.
End local.

(** ** Steps that move one thread

    The thread on CPU [c] runs [ks] next and has context [x']; thread [w]
    moves to [l']. *)
Section move.
Context {T T' : gmap Z (thread act)} {R R' : list Z} {V V' : gmap Z (list Z)} {P : gmap Z cpu}.
Context {X : Z -> ctx} {lc : Z -> place} {c : Z} {p : cpu} {th : thread act}.
Context {ks : code} {x' : ctx} {w : Z} {l' : place}.
Context (Hp : P !! c = Some p) (Hth : T !! cur p = Some th).
Context (Hdom : forall u, is_Some (T' !! u) <-> is_Some (T !! u)).
Context (Hk : forall u th', T' !! u = Some th' -> exists th0, T !! u = Some th0 /\
  k th' = (if decide (u = cur p) then ks else k th0) /\ (u <> w -> state th' = state th0)).
Context (Hal : alive l' -> alive (lc w)).
Abbreviation X' := (upd X (cur p) x').
Abbreviation lc' := (upd lc w l').

Lemma move_alive u : running P u \/ alive (lc' u) -> running P u \/ alive (lc u).
Proof using Hal.
  intros [?|H]; [by left|]. destruct (decide (u = w)) as [->|]; [rewrite upd_eq in H|rewrite upd_ne in H by done]; auto.
Qed.

Lemma type_ok_move :
  type_ok T P X lc -> accepts G act_lock ks x' = true -> cwf x' -> c_idle x' = c_idle (X (cur p)) ->
  (forall c', l' = LIdle c' <-> lc w = LIdle c') -> type_ok T' P X' lc'.
Proof using Hp Hth Hdom Hk Hal.
  intros HT Hacc Hcw Hidle Hid.
  assert (forall u c', lc' u = LIdle c' <-> lc u = LIdle c') as Hid'.
  { intros u c'. destruct (decide (u = w)) as [->|]; [by rewrite upd_eq|by rewrite upd_ne]. }
  split.
  - apply eq_None_not_Some. rewrite Hdom, (to_null _ _ _ _ HT). by intros [? ?].
  - intros. rewrite Hdom. by eapply to_cpu.
  - intros c' q Hq. rewrite Hdom, Hid'. by eapply to_idle.
  - intros u th' Hu Hor%move_alive. destruct (Hk u th' Hu) as (th0 & Hu0 & -> & _).
    destruct (decide (u = cur p)) as [->|]; [by rewrite upd_eq|]. rewrite upd_ne by done. by eapply to_code.
  - intros u Hu Hnr Ha. rewrite Hdom in Hu. rewrite upd_ne by (intros ->; apply Hnr; by exists c, p).
    eapply to_off; eauto. destruct (move_alive u (or_intror Ha)); done.
  - intros c' q u Hq Hu. rewrite Hdom in Hu. rewrite Hid'. by eapply to_idleu.
  - intros u Hu. rewrite Hdom in Hu. setoid_rewrite Hid'.
    destruct (decide (u = cur p)) as [->|]; [rewrite upd_eq, Hidle|rewrite upd_ne by done]; by eapply to_idlec.
Qed.

Lemma place_ok_move :
  place_ok T R V P X lc -> (forall c', l' <> LRun c') ->
  NoDup R' -> (forall u, u ∈ R' <-> u = w /\ is_Some (T !! w) /\ l' = LReady \/ u <> w /\ u ∈ R) ->
  (forall cv, is_Some (V' !! cv) <-> is_Some (V !! cv)) ->
  (forall cv ws ws', V !! cv = Some ws -> V' !! cv = Some ws' -> NoDup ws' /\
     forall u, u ∈ ws' <-> u = w /\ is_Some (T !! w) /\ l' = LWait cv \/ u <> w /\ u ∈ ws) ->
  (forall u, lc w = LHand u -> u = cur p \/ l' = LHand u) -> (forall u, lc w <> LDoomed u) ->
  NoDup (rtok ks) ->
  (forall u, u ∈ rtok ks -> u = w /\ is_Some (T !! w) /\ l' = LHand (cur p) \/ u <> w /\ u ∈ rtok (k th)) ->
  NoDup (ctok ks) ->
  (forall u, u ∈ ctok ks -> u = w /\ is_Some (T !! w) /\ l' = LDoomed (cur p) \/ u <> w /\ u ∈ ctok (k th)) ->
  (forall c' q, P !! c' = Some q -> place_run lc' X' c' q) ->
  (forall c' q, P !! c' = Some q -> c_park (X' (cur q)) = PBack ->
     c_park (X (cur q)) = PBack /\ (c_prev q = w -> l' = LLeave c' \/ alive l')) ->
  (forall th', T' !! w = Some th' ->
     (l' = LReady -> state th' = READY) /\ (state th' = ZOMBIE <-> ~ alive l')) ->
  (forall u, l' = LDoomed u -> ~ running P w) ->
  place_ok T' R' V' P X' lc'.
Proof using Hp Hth Hdom Hk Hal.
  intros HP HnR HndR HR HVd HV Hhand Hnd Hrn Hrt Hcn Hct Hrun Hprev Hst Hdm.
  split.
  - done.
  - intros u. rewrite HR, Hdom. destruct (decide (u = w)) as [->|Hne].
    + rewrite upd_eq. tauto.
    + rewrite upd_ne by done. rewrite (po_ready_in _ _ _ _ _ _ HP). tauto.
  - intros cv. rewrite HVd. apply (po_cvdom _ _ _ _ _ _ HP).
  - intros cv ws' Hw'. assert (is_Some (V !! cv)) as [ws Hw] by (apply HVd; by exists ws').
    destruct (HV cv ws ws' Hw Hw') as [? H]. split; [done|]. intros u. rewrite H, Hdom.
    destruct (decide (u = w)) as [->|Hne]; [rewrite upd_eq; tauto|]. rewrite upd_ne by done.
    rewrite (proj2 (po_cvs _ _ _ _ _ _ HP cv ws Hw)). tauto.
  - intros u th' Hu Hor%move_alive. destruct (Hk u th' Hu) as (th0 & Hu0 & -> & _).
    destruct (po_rtok _ _ _ _ _ _ HP _ _ Hu0 Hor) as [Hn0 H0].
    destruct (decide (u = cur p)) as [->|Hup].
    + split; [done|]. intros t' Ht'. rewrite Hdom. destruct (Hrt t' Ht') as [(-> & ? & ?)|[Hne Hin]]; [by rewrite upd_eq|].
      assert (th0 = th) as -> by congruence. rewrite upd_ne by done. auto.
    + split; [done|]. intros t' Ht'. destruct (H0 t' Ht') as [? Hl]. rewrite Hdom. split; [done|].
      destruct (decide (t' = w)) as [->|]; [rewrite upd_eq|by rewrite upd_ne].
      destruct (Hhand u Hl); done.
  - intros u th' Hu Hor%move_alive. destruct (Hk u th' Hu) as (th0 & Hu0 & -> & _).
    destruct (po_ctok _ _ _ _ _ _ HP _ _ Hu0 Hor) as [Hn0 H0].
    destruct (decide (u = cur p)) as [->|Hup].
    + split; [done|]. intros t' Ht'. rewrite Hdom. destruct (Hct t' Ht') as [(-> & ? & ?)|[Hne Hin]]; [by rewrite upd_eq|].
      assert (th0 = th) as -> by congruence. rewrite upd_ne by done. auto.
    + split; [done|]. intros t' Ht'. destruct (H0 t' Ht') as [? Hl]. rewrite Hdom. split; [done|].
      rewrite upd_ne; [done|]. intros ->. by apply (Hnd u).
  - done.
  - intros u c' Hu Hl. rewrite Hdom in Hu. destruct (decide (u = w)) as [->|]; [rewrite upd_eq in Hl; by apply HnR in Hl|].
    rewrite upd_ne in Hl by done. by eapply po_norun.
  - intros c' q Hq Hb. destruct (Hprev c' q Hq Hb) as [Hb0 Hw].
    destruct (po_prev _ _ _ _ _ _ HP c' q Hq Hb0) as [?|(? & ? & Hl)]; [by left|]. right. rewrite Hdom.
    split; [done|]. split; [done|].
    destruct (decide (c_prev q = w)) as [E|]; [rewrite E, upd_eq; auto|by rewrite upd_ne].
  - intros u th' Hu Hl. destruct (decide (u = w)) as [->|Hne]; [rewrite upd_eq in Hl; by apply Hst|].
    rewrite upd_ne in Hl by done. destruct (Hk u th' Hu) as (th0 & Hu0 & _ & ->); [|done]. by eapply po_rstate.
  - intros u th' Hu. destruct (decide (u = w)) as [->|Hne]; [rewrite upd_eq; by apply Hst|].
    rewrite upd_ne by done. destruct (Hk u th' Hu) as (th0 & Hu0 & _ & ->); [|done]. by eapply po_dead.
  - intros u u' Hu Hl. rewrite Hdom in Hu. destruct (decide (u = w)) as [->|Hne]; [rewrite upd_eq in Hl; by eapply Hdm|].
    rewrite upd_ne in Hl by done. by eapply po_doomed.
Qed.
End move.
End invariant.
