(* ===== verification/SynchSafe.v ===== *)
(** * Every step preserves the invariant

    One lemma per instruction of the machine of Synch.v. *)

From stdpp Require Import prelude list gmap.
From Stdlib Require Import ZArith Lia.
From S2P Require Import Prelude Synch SynchType SynchInv.

Section safe.
Context {act C : Type} (G : env) (act_lock : act -> option (list Z)) (HG : env_ok G).
Context (run_act : Z -> act -> C -> res (list (instr act) * C)).
Abbreviation mach := (machine act C).
Abbreviation inv := (inv (C := C) G act_lock).
Abbreviation acc := (accepts G act_lock).
Abbreviation chk1 := (chk1 G act_lock).
Abbreviation chks := (chks G act_lock).
Abbreviation EXEC := (exec true run_act).

(** In a state of the client that satisfies its invariant [CI], what an action
    calls obeys the lock discipline and makes no thread ready or free by
    itself; and the action keeps [CI]. *)
Context (CI : C -> Prop).
Context (Hact : forall t a s called s' x y, CI s -> run_act t a s = Done (called, s') ->
  chk1 (IAct a) x = Some y -> c_gone x = false ->
  CI s' /\ chks called x = Some y /\ rtok called = [] /\ ctok called = []).

Lemma accepts_head i ks x :
  acc (i :: ks) x = true -> c_gone x = false ->
  exists y, chk1 i x = Some y /\ acc ks y = true /\ (c_park x = PBack -> back_instr i = true).
Proof using Type.
  intros (y & Hy & Ha)%accepts_cons Hg. unfold chk in Hy. rewrite Hg in Hy.
  apply guard_some in Hy as [Hb Hy]. exists y. split; [done|]. split; [done|].
  intros E. unfold parked in Hb. by rewrite bool_decide_true in Hb.
Qed.

(** How an update of the context keeps it well formed. *)
Lemma cwf_with_d x d :
  cwf G x -> c_park x <> PBack ->
  level 0 (with_d d x) = true \/ level 1 (with_d d x) = true -> cwf G (with_d d x).
Proof using Type. intros [] Hb Hl. split; simpl; auto. by destruct (c_park x). Qed.

Lemma cwf_with_own x o :
  cwf G x -> c_park x <> PBack -> NoDup o -> (forall l, l ∈ c_hold x -> l ∈ o) ->
  (forall l, l ∈ o -> l ∈ e_spin G) ->
  level 0 (with_own o x) = true \/ level 1 (with_own o x) = true -> cwf G (with_own o x).
Proof using Type. intros [] Hb ????. split; simpl; auto. by destruct (c_park x). Qed.

Lemma cwf_with_hold x h :
  cwf G x -> c_park x <> PBack -> (forall l, l ∈ h -> l ∈ c_own x) ->
  (forall l, l ∈ c_hold x -> l ∈ h \/ may_drop l x = true) -> cwf G (with_hold h x).
Proof using HG.
  intros [] Hb Hsub Hdrop. split; simpl; auto. unfold may_drop in Hdrop.
  destruct (c_park x); try done.
  - destruct cw_park as (l & Hl & Hin). exists l. split; [done|]. destruct (Hdrop l Hin); done.
  - destruct (Hdrop _ cw_park); [done|chk_inv; done].
  - destruct (Hdrop _ cw_park); [done|chk_inv; done].
  - destruct (Hdrop _ cw_park); [done|chk_inv; done].
Qed.

Lemma ctx_eq x d o h pk i g :
  c_d x = d -> c_own x = o -> c_hold x = h -> c_park x = pk -> c_idle x = i -> c_gone x = g ->
  x = mk_ctx d o h (c_sl x) pk i g.
Proof using Type. destruct x; simpl. congruence. Qed.

Lemma cwf_with_sl x s : cwf G x -> cwf G (with_sl s x).
Proof using Type. intros []. split; simpl; auto. Qed.

Section step.
Context {m : mach} {X : Z -> ctx} {lc : Z -> place} {ow : Z -> option Z}.
Context {c : Z} {p : cpu} {th : thread act}.
Context (HI : inv m X lc ow) (Hp : cpus m !! c = Some p) (Hth : threads m !! cur p = Some th).
Abbreviation t := (cur p).
Abbreviation x := (X (cur p)).

Lemma cur_running : running (cpus m) t.
Proof using Hp. by exists c, p. Qed.
Lemma cur_typed : acc (k th) x = true /\ cwf G x.
Proof using HI Hp Hth. apply (to_code _ _ _ _ _ _ (i_type _ _ _ _ _ _ HI) _ _ Hth). left. apply cur_running. Qed.
Lemma cur_nonnull : t <> NULL.
Proof using HI Hth. intros E. pose proof (to_null _ _ _ _ _ _ (i_type _ _ _ _ _ _ HI)). congruence. Qed.

(** A step that leaves every thread in its place. *)
Lemma inv_local {i rest called L' P' p' x' ow'} n cl :
  k th = i :: rest ->
  rtok (called ++ rest) = rtok (i :: rest) -> ctok (called ++ rest) = ctok (i :: rest) ->
  cpu_upd (cpus m) P' c p p' -> c_prev p' = c_prev p ->
  lock_ok G L' P' (upd X t x') ow' -> sleep_ok G L' (threads m) (upd X t x') ->
  acc (called ++ rest) x' = true -> cwf G x' -> c_idle x' = c_idle x ->
  c_park x' = c_park x \/ c_park x = PBack /\ c_park x' = PNot ->
  inv (mk_machine L' (cvs m) (alter (set_k (called ++ rest)) t (threads m))
         (ready_queue m) P' n cl) (upd X t x') lc ow'.
Proof using HI Hth.
  intros Hk Hrt Hct HU Hprev HL HS Hacc Hcw Hid Hpark. split; simpl.
  - done.
  - intros a Ha. destruct (HS a Ha) as (h & ? & H). exists h. split; [done|].
    intros u. rewrite lookup_alter_is_Some. apply H.
  - eapply type_ok_local; eauto. apply (i_type _ _ _ _ _ _ HI).
  - eapply place_ok_local; eauto; rewrite ?Hk; eauto. apply (i_place _ _ _ _ _ _ HI).
Qed.

Lemma sleep_ok_same x' : c_sl x' = c_sl x -> sleep_ok G (locks m) (threads m) (upd X t x').
Proof using HI.
  intros Hs a Ha. destruct (i_sleep _ _ _ _ _ _ HI a Ha) as (h & ? & H). exists h. split; [done|].
  intros u Hu. destruct (decide (u = t)) as [->|]; [rewrite upd_eq, Hs|rewrite upd_ne by done]; auto.
Qed.

Lemma sleep_ok_spin x' l o :
  l ∈ e_spin G -> c_sl x' = c_sl x -> sleep_ok G (<[l := o]> (locks m)) (threads m) (upd X t x').
Proof using HI HG.
  intros Hl Hs a Ha. destruct (sleep_ok_same x' Hs a Ha) as (h & ? & H). exists h. split; [|done].
  rewrite lookup_insert_ne; [done|]. intros ->. exact (eo_disj _ HG a Hl Ha).
Qed.

(** The common case: the instruction only changes the thread's context. *)
Lemma inv_context {i rest called x'} n cl :
  k th = i :: rest ->
  rtok (called ++ rest) = rtok (i :: rest) -> ctok (called ++ rest) = ctok (i :: rest) ->
  c_d x' = c_d x -> c_own x' = c_own x -> c_hold x' = c_hold x -> c_sl x' = c_sl x ->
  acc (called ++ rest) x' = true -> cwf G x' -> c_idle x' = c_idle x ->
  c_park x' = c_park x \/ c_park x = PBack /\ c_park x' = PNot ->
  inv (mk_machine (locks m) (cvs m) (alter (set_k (called ++ rest)) t (threads m))
         (ready_queue m) (cpus m) n cl) (upd X t x') lc ow.
Proof using HI Hth Hp.
  intros Hk Hrt Hct Hd Ho Hh Hs Hacc Hcw Hid Hpark.
  pose proof (i_lock _ _ _ _ _ _ HI) as HL.
  eapply inv_local; eauto using cpu_upd_refl, sleep_ok_same.
  eapply lock_ok_same; eauto using cpu_upd_refl; rewrite Hd; apply (lo_cpu _ _ _ _ _ HL c p Hp).
Qed.

Lemma own_ow l : l ∈ c_own x -> ow l = Some c.
Proof using HI Hp. by apply (lo_own _ _ _ _ _ (i_lock _ _ _ _ _ _ HI)). Qed.
Lemma hold_ow l : l ∈ c_hold x -> ow l = Some c.
Proof using HI Hp Hth. intros. apply own_ow, (cw_hold _ _ (proj2 cur_typed)). done. Qed.
Lemma notown_ow l : l ∉ c_own x -> ow l <> Some c.
Proof using HI Hp. intros H E. apply H. by apply (lo_own _ _ _ _ _ (i_lock _ _ _ _ _ _ HI) c p). Qed.

Definition good (rest : list (instr act)) (r : res (list (instr act) * mach)) : Prop :=
  match r with
  | Done (called, m') =>
      exists X' lc' ow', inv (upd_thread t (set_k (called ++ rest)) m') X' lc' ow'
  | Stop _ => False
  end.

(** The context after the head instruction, from its acceptance. *)
Lemma head_ok {i rest} : k th = i :: rest ->
  exists y, chk1 i x = Some y /\ acc rest y = true /\ (c_park x = PBack -> back_instr i = true) /\ cwf G x.
Proof using HI Hp Hth.
  intros Hk. destruct cur_typed as [Hacc Hcw]. rewrite Hk in Hacc.
  destruct (accepts_head _ _ _ Hacc (cw_gone _ _ Hcw)) as (y & ? & ? & ?). eauto.
Qed.

Lemma not_back {b : bool} : b = false -> (c_park x = PBack -> b = true) -> c_park x <> PBack.
Proof using Type. intros -> H E. by specialize (H E). Qed.

(** The update of the CPU's record in the goal. *)
Ltac new_cpu HU :=
  match goal with
  | |- context [insert c ?q _] => pose proof (cpu_upd_insert (cpus m) c p q Hp eq_refl eq_refl) as HU
  end.

Lemma exec_intr lvl rest : k th = IIntr lvl :: rest -> good rest (EXEC c t (IIntr lvl) m).
Proof using HI Hp Hth.
  intros Hk. destruct (head_ok Hk) as (y & Hy & Ha & Hb & Hcw). apply (not_back eq_refl) in Hb.
  pose proof (i_lock _ _ _ _ _ _ HI) as HL. destruct (lo_cpu _ _ _ _ _ HL c p Hp) as [Hd Hif].
  simpl. rewrite Hp. unfold intr_set_level. destruct lvl; simpl in Hy; chk_inv.
  - destruct (c_if p); [specialize (Hif eq_refl); lia|].
    rewrite (proj2 (Z.eqb_neq _ _)) by lia. rewrite Z.gtb_ltb, (proj2 (Z.ltb_lt _ _)) by lia. simpl.
    eexists _, lc, ow. unfold upd_thread, with_threads; simpl.
    new_cpu HU. eapply (inv_local (called := []) (x' := with_d (c_d x - 1) x)); eauto using sleep_ok_same; simpl; auto.
    + eapply lock_ok_same; eauto; simpl; [lia|].
      intros [E _]%andb_true_iff. apply Z.eqb_eq in E. lia.
    + apply cwf_with_d; auto. left. apply Z.eqb_eq. simpl. lia.
  - eexists _, lc, ow. unfold upd_thread, with_threads; simpl.
    new_cpu HU. eapply (inv_local (called := []) (x' := with_d (c_d x + 1) x)); eauto using sleep_ok_same; simpl; auto.
    + eapply lock_ok_same; eauto; simpl; [|done].
      rewrite Hd. apply wraps_small; lia.
    + apply cwf_with_d; auto. right. apply Z.eqb_eq. simpl. lia.
Qed.

(** The lock word and holder of a spinlock. *)
Lemma spin_lookup l : l ∈ e_spin G -> exists h,
  locks m !! l = Some (Spin (match ow l with Some _ => 1 | None => 0 end) h) /\
  holder_ok (cpus m) X ow l h.
Proof using HI. apply (lo_spin _ _ _ _ _ (i_lock _ _ _ _ _ _ HI)). Qed.

Lemma spin_nonnull l : l ∈ e_spin G -> (l =? NULL) = false.
Proof using HG. intros H. apply Z.eqb_neq. intros ->. exact (eo_null _ HG H). Qed.

Lemma exec_acqcheck l rest : k th = IAcqCheck l :: rest -> good rest (EXEC c t (IAcqCheck l) m).
Proof using HI Hp Hth HG.
  intros Hk. destruct (head_ok Hk) as (y & Hy & Ha & Hb & Hcw). simpl in Hy; chk_inv.
  simpl. rewrite spin_nonnull by done. destruct (spin_lookup l) as (h & -> & Hh); [done|].
  destruct (negb (h =? NULL) && (h =? t)) eqn:E; simpl.
  - exfalso. chk_inv. subst h. unfold holder_ok in Hh. destruct (ow l) as [c'|] eqn:Eo; [|done].
    destruct (lo_dom _ _ _ _ _ (i_lock _ _ _ _ _ _ HI) _ _ Eo) as [q Hq]. specialize (Hh q Hq).
    destruct (has l _); [|done]. destruct Hh as [_ [Hc|[_ Hn]]]; [|by apply Hn; exists c, p].
    assert (c = c') by (by eapply lo_inj; [apply (i_lock _ _ _ _ _ _ HI)| | |]). subst c'.
    by apply (notown_ow l).
  - eexists _, lc, ow. eapply (inv_context (called := []) (x' := x)); eauto.
Qed.

Lemma exec_tas l rest : k th = ITas l :: rest -> good rest (EXEC c t (ITas l) m).
Proof using HI Hp Hth HG.
  intros Hk. destruct (head_ok Hk) as (y & Hy & Ha & Hb & Hcw). apply (not_back eq_refl) in Hb.
  simpl in Hy. chk_inv. assert (l ∉ c_own x) as Hno by done. pose proof (notown_ow l Hno) as Hne.
  simpl. destruct (spin_lookup l) as (h & -> & Hh); [done|].
  destruct (ow l) as [c'|] eqn:Eo; simpl.
  - eexists _, lc, ow. eapply (inv_context (called := [ITas l]) (x' := x)); eauto.
    simpl. rewrite <- Hk. apply cur_typed.
  - eexists _, lc, _. unfold holder_ok in Hh. rewrite Eo in Hh.
    eapply (inv_local (called := []) (x' := with_own (l :: c_own x) x)); eauto using cpu_upd_refl.
    + eapply (lock_ok_touch _ (i_lock _ _ _ _ _ _ HI) (cpu_upd_refl _ _ _ Hp) l _ (Some c)); simpl; auto.
      * intros l' ?. split; [|done]. rewrite elem_of_cons. tauto.
      * split; [done|]. by left.
      * rewrite (proj2 (has_false _ _)); [done|]. intros ?. apply Hno. by apply (cw_hold _ _ Hcw).
    + by apply sleep_ok_spin.
    + destruct Hcw. apply cwf_with_own; [by constructor|done|by constructor| | |].
      * intros l' ?. right. auto.
      * intros l' [->|?]%elem_of_cons; auto.
      * left. apply Z.eqb_eq. simpl. lia.
Qed.

Lemma own_spin l : l ∈ c_own x -> l ∈ e_spin G.
Proof using HI Hp Hth. apply (cw_spin _ _ (proj2 cur_typed)). Qed.

Lemma exec_setholder l rest : k th = ISetHolder l :: rest -> good rest (EXEC c t (ISetHolder l) m).
Proof using HI Hp Hth HG.
  intros Hk. destruct (head_ok Hk) as (y & Hy & Ha & Hb & Hcw). apply (not_back eq_refl) in Hb.
  simpl in Hy. chk_inv. pose proof (own_spin l H) as Hl. pose proof (own_ow l H) as Eo.
  simpl. destruct (spin_lookup l) as (h & -> & Hh); [done|]. rewrite Eo. simpl.
  eexists _, lc, _.
  eapply (inv_local (called := []) (x' := with_hold (l :: c_hold x) x)); eauto using cpu_upd_refl.
  - eapply (lock_ok_touch _ (i_lock _ _ _ _ _ _ HI) (cpu_upd_refl _ _ _ Hp) l _ (Some c)); simpl; auto.
    + intros l' ?. split; [done|]. rewrite elem_of_cons. tauto.
    + done.
    + rewrite (proj2 (has_true _ _)) by (by left). split; [apply cur_nonnull|by left].
  - by apply sleep_ok_spin.
  - apply cwf_with_hold; auto.
    + intros l' [->|?]%elem_of_cons; [done|]. by apply (cw_hold _ _ Hcw).
    + intros l' ?. left. by right.
Qed.

Lemma exec_clearholder l rest : k th = IClearHolder l :: rest -> good rest (EXEC c t (IClearHolder l) m).
Proof using HI Hp Hth HG.
  intros Hk. destruct (head_ok Hk) as (y & Hy & Ha & Hb & Hcw). apply (not_back eq_refl) in Hb.
  simpl in Hy. chk_inv. pose proof (hold_ow l H) as Eo.
  pose proof (cw_hold _ _ Hcw _ H) as Hown. pose proof (own_spin l Hown) as Hl.
  simpl. rewrite spin_nonnull by done.
  destruct (spin_lookup l) as (h & -> & Hh); [done|]. rewrite Eo. simpl.
  eexists _, lc, _.
  eapply (inv_local (called := []) (x' := with_hold (rm l (c_hold x)) x)); eauto using cpu_upd_refl.
  - eapply (lock_ok_touch _ (i_lock _ _ _ _ _ _ HI) (cpu_upd_refl _ _ _ Hp) l _ (Some c)); simpl; auto.
    + intros l' ?. split; [done|]. rewrite elem_of_rm. tauto.
    + done.
    + rewrite (proj2 (has_false _ _)); [done|]. rewrite elem_of_rm. tauto.
  - by apply sleep_ok_spin.
  - apply cwf_with_hold; auto.
    + intros l' [? ?]%elem_of_rm. by apply (cw_hold _ _ Hcw).
    + intros l' ?. rewrite elem_of_rm. destruct (decide (l' = l)) as [->|]; auto.
Qed.

Lemma exec_unlock l rest : k th = IUnlock l :: rest -> good rest (EXEC c t (IUnlock l) m).
Proof using HI Hp Hth HG.
  intros Hk. destruct (head_ok Hk) as (y & Hy & Ha & Hb & Hcw). apply (not_back eq_refl) in Hb.
  simpl in Hy. chk_inv. pose proof (own_spin l H) as Hl. pose proof (own_ow l H) as Eo.
  simpl. destruct (spin_lookup l) as (h & -> & Hh); [done|]. simpl.
  eexists _, lc, _. unfold holder_ok in Hh. rewrite Eo in Hh. specialize (Hh p Hp).
  rewrite (proj2 (has_false _ _)) in Hh by done.
  eapply (inv_local (called := []) (x' := with_own (rm l (c_own x)) x)); eauto using cpu_upd_refl.
  - eapply (lock_ok_touch _ (i_lock _ _ _ _ _ _ HI) (cpu_upd_refl _ _ _ Hp) l _ None); simpl; auto.
    + intros l' ?. split; [|done]. rewrite elem_of_rm. tauto.
    + rewrite elem_of_rm. split; [tauto|done].
  - by apply sleep_ok_spin.
  - pose proof (length_rm l (c_own x) (cw_nodup _ _ Hcw) H).
    apply cwf_with_own; auto.
    + apply NoDup_filter, Hcw.
    + intros l' Hl'. rewrite elem_of_rm. split; [by apply (cw_hold _ _ Hcw)|]. by intros ->.
    + intros l' [? ?]%elem_of_rm. by apply own_spin.
    + right. apply Z.eqb_eq. simpl. lia.
Qed.

Lemma acc_chks {called x1 y rest} :
  (forall ks, chks (called ++ ks) x1 = chks ks y) -> acc rest y = true -> acc (called ++ rest) x1 = true.
Proof using Type. intros H Ha. unfold accepts. rewrite H. apply Ha. Qed.

Lemma exec_lockacquire l rest : k th = ILockAcquire l :: rest -> good rest (EXEC c t (ILockAcquire l) m).
Proof using HI Hp Hth HG.
  intros Hk. destruct (head_ok Hk) as (y & Hy & Ha & Hb & Hcw). apply (not_back eq_refl) in Hb.
  cbn [SynchType.chk1] in Hy. assert (l ∈ e_spin G) as Hl by (unfold chk_acquire in Hy; by chk_inv).
  cbn [exec]. unfold lock_acquire. destruct (spin_lookup l Hl) as (h & -> & Hh).
  eexists _, lc, ow. eapply (inv_context (called := spinlock_acquire true l) (x' := x)); eauto.
  eapply acc_chks; [|done]. intros ks. apply chks_acquire; auto.
  - apply Hcw.
  - apply (cw_hold _ _ Hcw).
Qed.

Lemma exec_lockrelease l rest : k th = ILockRelease l :: rest -> good rest (EXEC c t (ILockRelease l) m).
Proof using HI Hp Hth HG.
  intros Hk. destruct (head_ok Hk) as (y & Hy & Ha & Hb & Hcw). apply (not_back eq_refl) in Hb.
  cbn [SynchType.chk1] in Hy.
  assert (l ∈ e_spin G) as Hl by (unfold chk_release in Hy; chk_inv; by apply own_spin).
  cbn [exec]. unfold lock_release. destruct (spin_lookup l Hl) as (h & -> & Hh).
  eexists _, lc, ow. eapply (inv_context (called := spinlock_release true l) (x' := x)); eauto.
  eapply acc_chks; [|done]. intros ks. by apply chks_release; [apply Hcw| |apply Hcw|].
Qed.

Lemma exec_waitcheck cv l rest : k th = IWaitCheck cv l :: rest -> good rest (EXEC c t (IWaitCheck cv l) m).
Proof using HI Hp Hth HG.
  intros Hk. destruct (head_ok Hk) as (y & Hy & Ha & Hb & Hcw). cbn [SynchType.chk1] in Hy. chk_inv.
  assert (l ∈ c_hold x) as Hh by done. pose proof (hold_ow l Hh) as Eo.
  pose proof (own_spin l (cw_hold _ _ Hcw l Hh)) as Hl. cbn [exec].
  assert (exists l', e_cv G !! cv = Some l') as [l' Hcv] by done.
  destruct (eo_cv _ HG _ _ Hcv) as (_ & _ & Hnn).
  rewrite (proj2 (Z.eqb_neq cv NULL)), spin_nonnull by done. simpl.
  destruct (spin_lookup l Hl) as (h & -> & Hho). unfold holder_ok in Hho. rewrite Eo in Hho.
  specialize (Hho p Hp). rewrite (proj2 (has_true _ _)) in Hho by done.
  destruct Hho as [_ [->|[? _]]]; [|done]. rewrite Z.eqb_refl.
  eexists _, lc, ow. eapply (inv_context (called := []) (x' := x)); eauto.
Qed.

Lemma cwf_park_not x1 : cwf G x1 -> cwf G (with_park PNot x1).
Proof using Type. intros []. by split. Qed.

Lemma exec_startcheck rest : k th = IStartCheck :: rest -> good rest (EXEC c t IStartCheck m).
Proof using HI Hp Hth HG.
  intros Hk. destruct (head_ok Hk) as (y & Hy & Ha & Hb & Hcw). cbn [SynchType.chk1] in Hy. chk_inv.
  cbn [exec]. rewrite Hp.
  destruct (lo_cpu _ _ _ _ _ (i_lock _ _ _ _ _ _ HI) c p Hp) as [Hd Hif].
  destruct (c_if p) eqn:Eif; [specialize (Hif eq_refl); simpl in *; lia|].
  eexists _, lc, ow. eapply (inv_context (called := []) (x' := with_park PNot x)); eauto.
  by apply cwf_park_not.
Qed.

Lemma exec_ticks rest : k th = ITicks :: rest -> good rest (EXEC c t ITicks m).
Proof using HI Hp Hth HG.
  intros Hk. destruct (head_ok Hk) as (y & Hy & Ha & Hb & Hcw). cbn [SynchType.chk1] in Hy. chk_inv.
  eexists _, lc, ow. eapply (inv_context (called := []) (x' := x)); eauto.
Qed.

Lemma exec_iret rest : k th = IIret :: rest -> good rest (EXEC c t IIret m).
Proof using HI Hp Hth HG.
  intros Hk. destruct (head_ok Hk) as (y & Hy & Ha & Hb & Hcw). cbn [SynchType.chk1] in Hy. chk_inv.
  cbn [exec]. rewrite Hp.
  destruct (lo_cpu _ _ _ _ _ (i_lock _ _ _ _ _ _ HI) c p Hp) as [Hd Hif].
  eexists _, lc, ow. unfold upd_thread, with_threads, with_cpus; simpl. new_cpu HU.
  eapply (inv_local (called := []) (x' := x)); eauto using sleep_ok_same.
  apply (lock_ok_same _ (i_lock _ _ _ _ _ _ HI) HU); auto; simpl in *; lia.
Qed.

Lemma exec_act a rest : CI (client m) -> k th = IAct a :: rest ->
  good rest (EXEC c t (IAct a) m) \/ exists f, run_act t a (client m) = Stop f.
Proof using HI Hp Hth HG Hact.
  intros HC Hk. destruct (head_ok Hk) as (y & Hy & Ha & Hb & Hcw).
  cbn [exec]. destruct (run_act t a (client m)) as [[called s']|f] eqn:E; [|by eauto]. left.
  assert (chk1 (IAct a) x = Some x) as Hx.
  { cbn [SynchType.chk1] in Hy |- *. destruct (act_lock a); [|done]. apply guard_some in Hy as [-> _]. done. }
  destruct (Hact _ _ _ _ _ _ _ HC E Hx (cw_gone _ _ Hcw)) as (_ & Hc & Hr & Hct).
  assert (y = x) as -> by congruence.
  eexists _, lc, ow. eapply (inv_context (x' := x)); eauto.
  - unfold rtok. rewrite omap_app. by fold (rtok called); rewrite Hr.
  - unfold ctok. rewrite omap_app. by fold (ctok called); rewrite Hct.
  - eapply acc_chks; [|done]. intros ks. by rewrite chks_app, Hc.
Qed.

Lemma lock_ok_sleep L P X1 ow1 a o :
  lock_ok G L P X1 ow1 -> a ∈ e_sleep G -> lock_ok G (<[a := o]> L) P X1 ow1.
Proof using HG.
  intros [] Ha. split; auto. intros l Hl. rewrite lookup_insert_ne; [auto|].
  intros ->. exact (eo_disj _ HG l Hl Ha).
Qed.

(** The thread takes sleeplock [a] (free) or gives it up. *)
Lemma sleep_ok_touch a x' h h' :
  a ∈ e_sleep G -> locks m !! a = Some (Sleep h) ->
  (h = NULL /\ h' = t \/ h = t /\ h' = NULL) ->
  (forall a', a' <> a -> a' ∈ c_sl x' <-> a' ∈ c_sl x) -> (a ∈ c_sl x' <-> h' = t) ->
  sleep_ok G (<[a := Sleep h']> (locks m)) (threads m) (upd X t x').
Proof using HI Hp Hth.
  intros Ha Hl Hh Hoth Hin a' Ha'. destruct (i_sleep _ _ _ _ _ _ HI a' Ha') as (h1 & Hl1 & H1).
  destruct (decide (a' = a)) as [->|Hne].
  - exists h'. split; [apply lookup_insert_eq|]. intros u Hu.
    destruct (decide (u = t)) as [->|Hut]; [by rewrite upd_eq|]. rewrite upd_ne by done.
    rewrite (H1 u Hu). assert (h1 = h) as -> by congruence.
    assert (u <> NULL) by (intros ->; destruct Hu; pose proof (to_null _ _ _ _ _ _ (i_type _ _ _ _ _ _ HI)); congruence).
    destruct Hh as [[-> ->]|[-> ->]]; split; congruence.
  - exists h1. split; [by rewrite lookup_insert_ne|]. intros u Hu.
    destruct (decide (u = t)) as [->|Hut]; [rewrite upd_eq, Hoth by done|rewrite upd_ne by done]; auto.
Qed.

Lemma sleep_lookup a : a ∈ e_sleep G -> exists h, locks m !! a = Some (Sleep h) /\ (a ∈ c_sl x <-> h = t).
Proof using HI Hth.
  intros Ha. destruct (i_sleep _ _ _ _ _ _ HI a Ha) as (h & ? & H). exists h. split; [done|]. apply H. by exists th.
Qed.

Lemma rtok_wait cv l ks : rtok (condvar_wait true cv l ++ ks) = rtok (act := act) ks.
Proof using Type. unfold condvar_wait, sched_sched. by destruct (l =? NULL). Qed.
Lemma ctok_wait cv l ks : ctok (condvar_wait true cv l ++ ks) = ctok (act := act) ks.
Proof using Type. unfold condvar_wait, sched_sched. by destruct (l =? NULL). Qed.

Lemma exec_slloop a rest : k th = ISlLoop a :: rest -> good rest (EXEC c t (ISlLoop a) m).
Proof using HI Hp Hth HG.
  intros Hk. destruct (head_ok Hk) as (y & Hy & Ha & Hb & Hcw). cbn [SynchType.chk1] in Hy. chk_inv.
  assert (a ∈ e_sleep G) as Hs by done. cbn [exec]. destruct (sleep_lookup a Hs) as (h & Hlk & Hiff).
  rewrite Hlk. destruct (h =? NULL) eqn:E; chk_inv.
  - subst h. eexists _, lc, ow. unfold upd_thread, with_threads, with_locks; simpl.
    eapply (inv_local (called := []) (x' := with_sl (a :: c_sl x) x)); eauto using cpu_upd_refl, cwf_with_sl.
    + apply lock_ok_sleep; [|done].
      apply (lock_ok_same _ (i_lock _ _ _ _ _ _ HI) (cpu_upd_refl _ _ _ Hp)); auto;
        apply (lo_cpu _ _ _ _ _ (i_lock _ _ _ _ _ _ HI) c p Hp).
    + apply (sleep_ok_touch a _ NULL t); auto; simpl.
      * intros a' ?. rewrite elem_of_cons. tauto.
      * split; [done|]. by left.
  - eexists _, lc, ow.
    eapply (inv_context (called := condvar_wait true (sl_waiters a) (sl_lk a) ++ [ISlLoop a]) (x' := x)); eauto.
    1,2: by rewrite <- app_assoc, ?rtok_wait, ?ctok_wait.
    assert (x = mk_ctx 1 [sl_lk a] [sl_lk a] (c_sl x) PNot false false) as Hx.
    { apply ctx_eq; auto. apply Hcw. }
    rewrite <- app_assoc. unfold accepts. rewrite Hx.
    rewrite (chks_wait G act_lock) by (done || exact (eo_sleep _ HG a Hs)).
    rewrite <- Hx. cbn [app]. rewrite <- Hk. apply cur_typed.
Qed.

Lemma exec_slcheck a rest : k th = ISlCheck a :: rest -> good rest (EXEC c t (ISlCheck a) m).
Proof using HI Hp Hth HG.
  intros Hk. destruct (head_ok Hk) as (y & Hy & Ha & Hb & Hcw). cbn [SynchType.chk1] in Hy. chk_inv.
  cbn [exec]. destruct (sleep_lookup a) as (h & -> & Hiff); [done|].
  rewrite (proj2 (Z.eqb_eq _ _)) by tauto.
  eexists _, lc, ow. eapply (inv_context (called := []) (x' := x)); eauto.
Qed.

Lemma exec_slclear a rest : k th = ISlClear a :: rest -> good rest (EXEC c t (ISlClear a) m).
Proof using HI Hp Hth HG.
  intros Hk. destruct (head_ok Hk) as (y & Hy & Ha & Hb & Hcw). cbn [SynchType.chk1] in Hy. chk_inv.
  cbn [exec]. destruct (sleep_lookup a) as (h & Hlk & Hiff); [done|]. rewrite Hlk.
  eexists _, lc, ow. unfold upd_thread, with_threads, with_locks; simpl.
  eapply (inv_local (called := []) (x' := with_sl (rm a (c_sl x)) x)); eauto using cpu_upd_refl, cwf_with_sl.
  - apply lock_ok_sleep; [|done].
    apply (lock_ok_same _ (i_lock _ _ _ _ _ _ HI) (cpu_upd_refl _ _ _ Hp)); auto;
      apply (lo_cpu _ _ _ _ _ (i_lock _ _ _ _ _ _ HI) c p Hp).
  - pose proof cur_nonnull. apply (sleep_ok_touch a _ h NULL); auto; simpl.
    + right. tauto.
    + intros a' ?. rewrite elem_of_rm. tauto.
    + rewrite elem_of_rm. split; [tauto|congruence].
Qed.

(** ** Instructions that move a thread *)

Lemma place_cur : place_run lc X c p.
Proof using HI Hp. by apply (po_run _ _ _ _ _ _ _ (i_place _ _ _ _ _ _ HI)). Qed.

Lemma run_move w l' x' :
  place_run (upd lc w l') (upd X t x') c p ->
  (forall c' q, cpus m !! c' = Some q -> c' <> c -> cur q = w -> place_run (upd lc w l') X c' q) ->
  forall c' q, cpus m !! c' = Some q -> place_run (upd lc w l') (upd X t x') c' q.
Proof using HI Hp.
  intros Hc Hw c' q Hq. destruct (decide (c' = c)) as [->|Hne]; [by replace q with p by congruence|].
  pose proof (other_cpu _ (i_lock _ _ _ _ _ _ HI) (cpu_upd_refl _ _ _ Hp) c' q Hne Hq) as Hqt.
  unfold place_run. rewrite (upd_ne X) by done. destruct (decide (cur q = w)) as [E|E]; [by apply Hw|].
  rewrite upd_ne by done. by apply (po_run _ _ _ _ _ _ _ (i_place _ _ _ _ _ _ HI)).
Qed.

(** Two CPUs cannot both own a spinlock. *)
Lemma own_same_cpu c' q l : cpus m !! c' = Some q -> l ∈ c_own x -> l ∈ c_own (X (cur q)) -> c' = c.
Proof using HI Hp. intros. by eapply cpu_unique; [apply (i_lock _ _ _ _ _ _ HI)| | | |]. Qed.

Lemma inv_move {T' R' V' x' w l'} n cl :
  (forall u, is_Some (T' !! u) <-> is_Some (threads m !! u)) ->
  c_d x' = c_d x -> c_own x' = c_own x -> c_hold x' = c_hold x -> c_sl x' = c_sl x ->
  type_ok G act_lock T' (cpus m) (upd X t x') (upd lc w l') ->
  place_ok G T' R' V' (cpus m) (upd X t x') (upd lc w l') ->
  inv (mk_machine (locks m) V' T' R' (cpus m) n cl) (upd X t x') (upd lc w l') ow.
Proof using HI Hp.
  intros Hdom Hd Ho Hh Hs HT HP. pose proof (i_lock _ _ _ _ _ _ HI) as HL. split; simpl; auto.
  - eapply lock_ok_same; eauto using cpu_upd_refl; rewrite Hd; apply (lo_cpu _ _ _ _ _ HL c p Hp).
  - intros a Ha. destruct (sleep_ok_same x' Hs a Ha) as (h & ? & H). exists h. split; [done|].
    intros u. rewrite Hdom. apply H.
Qed.

Lemma cur_idle : c_idle x = false -> forall c', lc t <> LIdle c'.
Proof using HI Hth.
  intros H c' E. assert (c_idle x = true); [|congruence].
  apply (to_idlec _ _ _ _ _ _ (i_type _ _ _ _ _ _ HI)); eauto.
Qed.

Lemma notlinked u :
  (forall cv, lc u <> LWait cv) -> lc u <> LReady -> linked m u = false.
Proof using HI.
  intros Hw Hr. pose proof (i_place _ _ _ _ _ _ HI) as HP. unfold linked.
  rewrite !bool_decide_false; [done| |].
  - intros (cv & ws & Hc & Hin). apply (po_cvs _ _ _ _ _ _ _ HP cv ws Hc) in Hin as [_ E]. by apply (Hw cv).
  - intros [_ E]%(po_ready_in _ _ _ _ _ _ _ HP). done.
Qed.

Lemma tok_split {i rest} : k th = i :: rest ->
  (NoDup (rtok (i :: rest)) /\ forall u, u ∈ rtok (i :: rest) -> is_Some (threads m !! u) /\ lc u = LHand t) /\
  (NoDup (ctok (i :: rest)) /\ forall u, u ∈ ctok (i :: rest) -> is_Some (threads m !! u) /\ lc u = LDoomed t).
Proof using HI Hp Hth.
  intros <-. pose proof (i_place _ _ _ _ _ _ HI) as HP.
  split; [apply (po_rtok _ _ _ _ _ _ _ HP _ _ Hth)|apply (po_ctok _ _ _ _ _ _ _ HP _ _ Hth)]; left; apply cur_running.
Qed.

(** The thread map after the step: [t] runs [ks], and [f] changes the
    state of [w]. *)
Lemma alter1_dom ks u : is_Some (alter (set_k ks) t (threads m) !! u) <-> is_Some (threads m !! u).
Proof using Type. apply lookup_alter_is_Some. Qed.
Lemma alter2_dom ks f w u :
  is_Some (alter (set_k ks) t (alter f w (threads m)) !! u) <-> is_Some (threads m !! u).
Proof using Type. by rewrite !lookup_alter_is_Some. Qed.

Lemma alter1_k ks w u th' :
  alter (set_k ks) t (threads m) !! u = Some th' -> exists th0, threads m !! u = Some th0 /\
  k th' = (if decide (u = t) then ks else k th0) /\ (u <> w -> state th' = state th0).
Proof using Hth.
  intros Hu. destruct (alter_lookup Hth u th' Hu) as [[-> ->]|[Hne Hu']].
  - exists th. by rewrite decide_True.
  - exists th'. by rewrite decide_False.
Qed.

Lemma alter2_k ks st w u th' :
  alter (set_k ks) t (alter (set_state st) w (threads m)) !! u = Some th' -> exists th0, threads m !! u = Some th0 /\
  k th' = (if decide (u = t) then ks else k th0) /\ (u <> w -> state th' = state th0).
Proof using Hth.
  intros Hu. destruct (alter (set_state st) w (threads m) !! u) as [th1|] eqn:E1.
  2: { assert (is_Some (alter (set_state st) w (threads m) !! u)) as [? ?]; [|congruence].
       rewrite <- (lookup_alter_is_Some (set_k ks) _ t). by exists th'. }
  assert (exists th0, threads m !! u = Some th0 /\ k th1 = k th0 /\ (u <> w -> state th1 = state th0)) as (th0 & Hu0 & Hk0 & Hs0).
  { destruct (decide (u = w)) as [->|Hne].
    - rewrite lookup_alter_eq in E1. destruct (threads m !! w) as [th0|]; [|done]. simpl in E1. simplify_eq. by exists th0.
    - rewrite lookup_alter_ne in E1 by done. eauto. }
  exists th0. split; [done|]. destruct (decide (u = t)) as [->|Hne].
  - rewrite lookup_alter_eq, E1 in Hu. simpl in Hu. by simplify_eq.
  - rewrite lookup_alter_ne, E1 in Hu by done. by simplify_eq.
Qed.

Lemma alter2_state ks st w th' :
  alter (set_k ks) t (alter (set_state st) w (threads m)) !! w = Some th' -> state th' = st.
Proof using Hth.
  destruct (decide (w = t)) as [->|Hne].
  - rewrite !lookup_alter_eq. destruct (threads m !! t); simpl; intros; by simplify_eq.
  - rewrite lookup_alter_ne, lookup_alter_eq by done. destruct (threads m !! w); simpl; intros; by simplify_eq.
Qed.

Ltac open_machine :=
  unfold upd_thread, with_threads, with_cvs, with_ready;
  cbn [locks cvs threads ready_queue cpus ticks client].

(** The parts of the placement a move does not touch. *)
Lemma ready_same w l' : lc w <> LReady -> l' <> LReady -> forall u,
  u ∈ ready_queue m <-> u = w /\ is_Some (threads m !! w) /\ l' = LReady \/ u <> w /\ u ∈ ready_queue m.
Proof using HI.
  intros Hw Hl u. split; [|by intros [(_ & _ & ?)|[_ ?]]]. intros Hu. right. split; [|done].
  intros ->. by apply (po_ready_in _ _ _ _ _ _ _ (i_place _ _ _ _ _ _ HI)) in Hu as [_ ?].
Qed.

Lemma ready_append w : lc w <> LReady -> is_Some (threads m !! w) ->
  NoDup (ready_queue m ++ [w]) /\ forall u, u ∈ ready_queue m ++ [w] <->
    u = w /\ is_Some (threads m !! w) /\ LReady = LReady \/ u <> w /\ u ∈ ready_queue m.
Proof using HI.
  intros Hw Hs. pose proof (i_place _ _ _ _ _ _ HI) as HP.
  assert (w ∉ ready_queue m) as Hn by (by intros [_ ?]%(po_ready_in _ _ _ _ _ _ _ HP)). split.
  - apply NoDup_app. split; [apply HP|]. split; [|apply NoDup_singleton]. intros u Hu ->%list_elem_of_singleton. done.
  - intros u. rewrite elem_of_app, list_elem_of_singleton. split.
    + intros [Hu| ->]; [right; split; [by intros ->|done]|by left].
    + intros [(-> & _)|[_ ?]]; auto.
Qed.

Lemma cvs_same w l' : (forall cv, lc w <> LWait cv) -> (forall cv, l' <> LWait cv) ->
  forall cv ws ws', cvs m !! cv = Some ws -> cvs m !! cv = Some ws' -> NoDup ws' /\
    forall u, u ∈ ws' <-> u = w /\ is_Some (threads m !! w) /\ l' = LWait cv \/ u <> w /\ u ∈ ws.
Proof using HI.
  intros Hw Hl cv ws ws' Hws E. assert (ws' = ws) as -> by congruence.
  destruct (po_cvs _ _ _ _ _ _ _ (i_place _ _ _ _ _ _ HI) cv ws Hws) as [? Hin]. split; [done|].
  intros u. split; [|by intros [(_ & _ & ?%Hl)|[_ ?]]]. intros Hu. right. split; [|done].
  intros ->. apply Hin in Hu as [_ ?%Hw]. done.
Qed.

(** [w] is the thread that moves in or out of the waiters of [cv]. *)
Lemma cvs_touch cv ws ws1 w l' :
  cvs m !! cv = Some ws -> NoDup ws1 ->
  (forall u, u ∈ ws1 <-> u = w /\ is_Some (threads m !! w) /\ l' = LWait cv \/ u <> w /\ u ∈ ws) ->
  (forall cv', cv' <> cv -> lc w <> LWait cv' /\ l' <> LWait cv') ->
  forall cv0 ws0 ws', cvs m !! cv0 = Some ws0 -> <[cv := ws1]> (cvs m) !! cv0 = Some ws' -> NoDup ws' /\
    forall u, u ∈ ws' <-> u = w /\ is_Some (threads m !! w) /\ l' = LWait cv0 \/ u <> w /\ u ∈ ws0.
Proof using HI.
  intros Hws Hn H1 Hoth cv0 ws0 ws' H0 H'. destruct (decide (cv0 = cv)) as [->|Hne].
  - rewrite lookup_insert_eq in H'. assert (ws0 = ws) as -> by congruence. by simplify_eq.
  - rewrite lookup_insert_ne in H' by done. assert (ws' = ws0) as -> by congruence.
    destruct (po_cvs _ _ _ _ _ _ _ (i_place _ _ _ _ _ _ HI) cv0 ws0 H0) as [? Hin]. split; [done|].
    destruct (Hoth cv0 Hne) as [Hw Hl]. intros u. split; [|by intros [(_ & _ & ?)|[_ ?]]].
    intros Hu. right. split; [|done]. intros ->. by apply Hin in Hu as [_ ?].
Qed.

Lemma cvdom_touch cv ws ws1 cv0 :
  cvs m !! cv = Some ws -> is_Some (<[cv := ws1]> (cvs m) !! cv0) <-> is_Some (cvs m !! cv0).
Proof using Type.
  intros Hws. destruct (decide (cv0 = cv)) as [->|]; [rewrite lookup_insert_eq, Hws|by rewrite lookup_insert_ne].
  split; eauto.
Qed.

Lemma rtok_rest {i rest} w l' : k th = i :: rest -> rtok [i] = [] -> lc w <> LHand t ->
  NoDup (rtok rest) /\ forall u, u ∈ rtok rest ->
    u = w /\ is_Some (threads m !! w) /\ l' = LHand t \/ u <> w /\ u ∈ rtok (k th).
Proof using HI Hp Hth.
  intros Hk Hi Hw. destruct (tok_split Hk) as [[Hn H] _].
  change (i :: rest) with ([i] ++ rest) in *. unfold rtok in Hn, H, Hi |- *. rewrite omap_app, Hi in Hn, H.
  split; [done|]. intros u Hu. right. rewrite Hk, omap_app, Hi. split; [|done]. intros ->. by apply H in Hu as [_ ?].
Qed.

Lemma ctok_rest {i rest} w l' : k th = i :: rest -> ctok [i] = [] -> lc w <> LDoomed t ->
  NoDup (ctok rest) /\ forall u, u ∈ ctok rest ->
    u = w /\ is_Some (threads m !! w) /\ l' = LDoomed t \/ u <> w /\ u ∈ ctok (k th).
Proof using HI Hp Hth.
  intros Hk Hi Hw. destruct (tok_split Hk) as [_ [Hn H]].
  change (i :: rest) with ([i] ++ rest) in *. unfold ctok in Hn, H, Hi |- *. rewrite omap_app, Hi in Hn, H.
  split; [done|]. intros u Hu. right. rewrite Hk, omap_app, Hi. split; [|done]. intros ->. by apply H in Hu as [_ ?].
Qed.

(** The saved return value of [swtch] stays meaningful. *)
Lemma prev_alive w l' x' : c_park x' <> PBack -> alive l' ->
  forall c' q, cpus m !! c' = Some q -> c_park (upd X t x' (cur q)) = PBack ->
    c_park (X (cur q)) = PBack /\ (c_prev q = w -> l' = LLeave c' \/ alive l').
Proof using Type.
  intros Hx Hl c' q Hq. destruct (decide (cur q = t)) as [->|]; [rewrite upd_eq|rewrite upd_ne by done]; [done|auto].
Qed.

Lemma prev_sched w l' x' : c_park x' <> PBack -> sched_lock ∈ c_own x ->
  forall c' q, cpus m !! c' = Some q -> c_park (upd X t x' (cur q)) = PBack ->
    c_park (X (cur q)) = PBack /\ (c_prev q = w -> l' = LLeave c' \/ alive l').
Proof using HI Hp.
  intros Hx Ho c' q Hq. destruct (decide (cur q = t)) as [->|Hne]; [rewrite upd_eq|rewrite upd_ne by done]; [done|].
  intros Hb. exfalso. apply Hne.
  assert (c' = c) as ->; [|congruence]. apply (own_same_cpu c' q sched_lock Hq Ho).
  assert (running (cpus m) (cur q)) as Hr by (by exists c', q).
  destruct (to_cpu _ _ _ _ _ _ (i_type _ _ _ _ _ _ HI) c' q Hq) as [thq Hthq].
  destruct (to_code _ _ _ _ _ _ (i_type _ _ _ _ _ _ HI) _ _ Hthq (or_introl Hr)) as [_ Hcwq].
  pose proof (cw_park _ _ Hcwq) as Hpk. rewrite Hb in Hpk. chk_inv.
  match goal with H : c_own (X (cur q)) = _ |- _ => rewrite H end. by left.
Qed.

Lemma state_of u th1 : threads m !! u = Some th1 -> state th1 = ZOMBIE <-> ~ alive (lc u).
Proof using HI. apply (po_dead _ _ _ _ _ _ _ (i_place _ _ _ _ _ _ HI)). Qed.

Lemma exec_enq cv rest : k th = IEnq cv :: rest -> good rest (EXEC c t (IEnq cv) m).
Proof using HI Hp Hth HG.
  intros Hk. destruct (head_ok Hk) as (y & Hy & Ha & Hb & Hcw). cbn [SynchType.chk1] in Hy.
  destruct (e_cv G !! cv) as [l|] eqn:Ecv; [|done]. chk_inv.
  pose proof (i_place _ _ _ _ _ _ HI) as HP. pose proof place_cur as Hrun. unfold place_run in Hrun.
  assert (c_park x = PNot) as Hpk by done. assert (c_hold x = [l]) as Hhold by done.
  rewrite Hpk in Hrun. destruct Hrun as [Hlc|Hlc]; [|by apply cur_idle in Hlc].
  assert (is_Some (cvs m !! cv)) as [ws Hws] by (apply (po_cvdom _ _ _ _ _ _ _ HP); by exists l).
  destruct (po_cvs _ _ _ _ _ _ _ HP cv ws Hws) as [Hnd Hin].
  destruct (tok_split Hk) as [[Hrn Hrt] [Hcn Hct]].
  cbn [exec]. rewrite Hws, notlinked by congruence.
  eexists _, (upd lc t (LWait cv)), ow. open_machine.
  destruct (rtok_rest t (LWait cv) Hk eq_refl) as [Hrn' Hrt']; [congruence|].
  destruct (ctok_rest t (LWait cv) Hk eq_refl) as [Hcn' Hct']; [congruence|].
  eapply (inv_move (x' := with_park (POnCv cv) x)); eauto using alter1_dom.
  - eapply type_ok_move; eauto using alter1_dom, alter1_k; [rewrite Hlc; done|apply HI| |by rewrite Hlc].
    destruct Hcw. split; simpl; auto. exists l. rewrite Hhold. split; [done|]. by left.
  - eapply place_ok_move; eauto using alter1_dom, alter1_k, ready_same, cvdom_touch.
    all: try (rewrite Hlc; done). all: try done.
    + apply HP.
    + apply ready_same; congruence.
    + eapply cvs_touch; eauto.
      * apply NoDup_app. split; [done|]. split; [|apply NoDup_singleton].
        intros u Hu ->%list_elem_of_singleton. apply Hin in Hu as [_ ?]. congruence.
      * intros u. rewrite elem_of_app, list_elem_of_singleton. split.
        -- intros [Hu| ->]; [|left; eauto]. right. split; [|done]. intros ->. apply Hin in Hu as [_ ?]. congruence.
        -- intros [(-> & _)|[_ ?]]; auto.
      * intros. rewrite Hlc. split; congruence.
    + apply run_move; [unfold place_run; by rewrite !upd_eq|].
      intros c' q Hq Hne E. exfalso. by eapply (other_cpu _ (i_lock _ _ _ _ _ _ HI) (cpu_upd_refl _ _ _ Hp)).
    + apply prev_alive; done.
    + intros th' Hth'. split; [done|]. destruct (alter1_k _ NULL _ _ Hth') as (th0 & Hth0 & _ & Hst).
      rewrite Hst by apply cur_nonnull. rewrite (state_of _ _ Hth0), Hlc. done.
Qed.

Lemma sched_ready_rtok w ks : rtok (sched_ready true w ++ ks) = w :: rtok (act := act) ks.
Proof using Type. done. Qed.
Lemma sched_ready_ctok w ks : ctok (sched_ready true w ++ ks) = ctok (act := act) ks.
Proof using Type. done. Qed.

(** The waiter [w] leaves the list of [cv] for the hand of [t]. *)
Lemma pop_waiter cv l w ws ks :
  e_cv G !! cv = Some l -> l ∈ c_hold x -> sched_lock ∉ c_own x -> level 0 x = true ->
  c_d x < 2 ^ 30 -> c_park x = PNot -> cvs m !! cv = Some (w :: ws) ->
  acc ks x = true -> rtok ks = rtok (k th) -> ctok ks = ctok (k th) ->
  inv (upd_thread t (set_k (sched_ready true w ++ ks)) (with_cvs (insert cv ws) m))
    (upd X t x) (upd lc w (LHand t)) ow.
Proof using HI Hp Hth HG.
  intros Ecv Hh Hns Hlv Hd Hpk Hws Hacc Hrt Hct.
  destruct cur_typed as [_ Hcw]. pose proof (i_place _ _ _ _ _ _ HI) as HP.
  destruct (po_cvs _ _ _ _ _ _ _ HP cv _ Hws) as [[Hnw Hnd]%NoDup_cons Hin].
  assert (is_Some (threads m !! w) /\ lc w = LWait cv) as [Hsw Hlc] by (apply Hin; by left).
  destruct (po_rtok _ _ _ _ _ _ _ HP _ _ Hth (or_introl cur_running)) as [Hrn Hr].
  destruct (po_ctok _ _ _ _ _ _ _ HP _ _ Hth (or_introl cur_running)) as [Hcn Hc].
  open_machine. eapply (inv_move (x' := x)); eauto using alter1_dom.
  - eapply type_ok_move; eauto using alter1_dom, alter1_k; [by rewrite Hlc|apply HI| |by rewrite Hlc].
    unfold accepts. rewrite (chks_sched_ready G act_lock); auto; [apply HG|apply Hcw|apply Hcw|apply Hcw].
  - eapply place_ok_move; eauto using alter1_dom, alter1_k, cvdom_touch.
    all: try (rewrite Hlc; done). all: try done.
    + apply HP.
    + apply ready_same; congruence.
    + eapply cvs_touch; eauto.
      * intros u. split.
        -- intros Hu. right. split; [by intros ->|by right].
        -- intros [(_ & _ & ?)|[? Hu]]; [done|]. apply elem_of_cons in Hu as [->|?]; done.
      * intros. rewrite Hlc. split; congruence.
    + rewrite sched_ready_rtok, Hrt. constructor; [|done]. intros [_ ?]%Hr. congruence.
    + intros u. rewrite sched_ready_rtok, Hrt. intros [->|Hu]%elem_of_cons; [by left|].
      right. split; [|done]. intros ->. apply Hr in Hu as [_ ?]. congruence.
    + by rewrite sched_ready_ctok, Hct.
    + intros u. rewrite sched_ready_ctok, Hct. intros Hu. right. split; [|done].
      intros ->. apply Hc in Hu as [_ ?]. congruence.
    + pose proof place_cur as Hrun. unfold place_run in Hrun. rewrite Hpk in Hrun.
      apply run_move.
      * unfold place_run. rewrite upd_eq, Hpk, upd_ne; [done|]. intros E. rewrite E, Hlc in Hrun. by destruct Hrun.
      * intros c' q Hq Hne E. pose proof (po_run _ _ _ _ _ _ _ HP c' q Hq) as Hq'. unfold place_run in *.
        rewrite E in *. rewrite upd_eq. rewrite Hlc in Hq'. destruct (c_park (X w)) eqn:Epw; try (done || by destruct Hq'); [|right; by exists t].
        exfalso. apply Hne. injection Hq' as <-. apply (own_same_cpu c' q l Hq); [by apply (cw_hold _ _ Hcw)|].
        destruct Hsw as [thw Hthw].
        destruct (to_code _ _ _ _ _ _ (i_type _ _ _ _ _ _ HI) _ _ Hthw) as [_ Hcww]; [left; by exists c', q|].
        rewrite E. apply (cw_hold _ _ Hcww). pose proof (cw_park _ _ Hcww) as Hpw. rewrite Epw in Hpw.
        destruct Hpw as (l0 & ? & ?). by replace l with l0 by congruence.
    + apply prev_alive; [congruence|done].
    + intros th' Hth'. split; [done|]. destruct (alter1_k _ NULL _ _ Hth') as (th0 & Hth0 & _ & Hst).
      rewrite Hst; [by rewrite (state_of _ _ Hth0), Hlc|].
      intros ->. destruct Hsw. pose proof (to_null _ _ _ _ _ _ (i_type _ _ _ _ _ _ HI)). congruence.
Qed.

Lemma exec_pop cv rest : k th = IPop cv :: rest -> good rest (EXEC c t (IPop cv) m).
Proof using HI Hp Hth HG.
  intros Hk. destruct (head_ok Hk) as (y & Hy & Ha & Hb & Hcw). cbn [SynchType.chk1] in Hy.
  destruct (e_cv G !! cv) as [l|] eqn:Ecv; [|done]. apply guard_some in Hy as [Hy [= <-]].
  cbn [exec]. assert (is_Some (cvs m !! cv)) as [ws Hws]
    by (apply (po_cvdom _ _ _ _ _ _ _ (i_place _ _ _ _ _ _ HI)); by exists l).
  rewrite Hws. destruct ws as [|w ws].
  - eexists _, lc, ow. eapply (inv_context (called := []) (x' := x)); eauto.
  - repeat apply andb_true_iff in Hy as [Hy ?]. eexists _, _, ow.
    eapply (pop_waiter cv l w ws rest); eauto; rewrite ?Hk; eauto; by chk_inv.
Qed.

Lemma exec_broadcast cv rest : k th = IBroadcast cv :: rest -> good rest (EXEC c t (IBroadcast cv) m).
Proof using HI Hp Hth HG.
  intros Hk. destruct (head_ok Hk) as (y & Hy & Ha & Hb & Hcw). cbn [SynchType.chk1] in Hy.
  destruct (e_cv G !! cv) as [l|] eqn:Ecv; [|done]. apply guard_some in Hy as [Hy [= <-]].
  cbn [exec]. assert (is_Some (cvs m !! cv)) as [ws Hws]
    by (apply (po_cvdom _ _ _ _ _ _ _ (i_place _ _ _ _ _ _ HI)); by exists l).
  rewrite Hws. destruct ws as [|w ws].
  - eexists _, lc, ow. eapply (inv_context (called := []) (x' := x)); eauto.
  - repeat apply andb_true_iff in Hy as [Hy ?]. eexists _, _, ow. rewrite <- app_assoc.
    eapply (pop_waiter cv l w ws ([IBroadcast cv] ++ rest)); auto; try by chk_inv.
    + cbn [app]. rewrite <- Hk. apply cur_typed.
    + by rewrite Hk.
    + by rewrite Hk.
Qed.

(** A parked thread still on its CPU owns the scheduler's lock. *)
Lemma parked_owns c' q :
  cpus m !! c' = Some q -> c_park (X (cur q)) = PSlept \/ c_park (X (cur q)) = PMarked \/ c_park (X (cur q)) = PDead ->
  sched_lock ∈ c_own (X (cur q)).
Proof using HI.
  intros Hq Hpk. destruct (to_cpu _ _ _ _ _ _ (i_type _ _ _ _ _ _ HI) c' q Hq) as [thq Hthq].
  destruct (to_code _ _ _ _ _ _ (i_type _ _ _ _ _ _ HI) _ _ Hthq) as [_ Hcwq]; [left; by exists c', q|].
  apply (cw_hold _ _ Hcwq). pose proof (cw_park _ _ Hcwq) as H. by destruct Hpk as [E|[E|E]]; rewrite E in H.
Qed.

Lemma hand_not_running w :
  sched_lock ∈ c_own x -> c_park x = PNot -> (exists u, lc w = LHand u) -> ~ running (cpus m) w.
Proof using HI Hp.
  intros Ho Hpk [u Hlc] (c' & q & Hq & E).
  pose proof (po_run _ _ _ _ _ _ _ (i_place _ _ _ _ _ _ HI) c' q Hq) as Hr. unfold place_run in Hr.
  rewrite E, Hlc in Hr. destruct (c_park (X w)) eqn:Epw; try (done || by destruct Hr).
  assert (c' = c) as ->; [|congruence].
  apply (own_same_cpu c' q sched_lock Hq Ho), (parked_owns c' q Hq). left. congruence.
Qed.

Lemma nonnull u : is_Some (threads m !! u) -> u <> NULL.
Proof using HI. intros [? ?] ->. pose proof (to_null _ _ _ _ _ _ (i_type _ _ _ _ _ _ HI)). congruence. Qed.

Lemma exec_readymark w rest : k th = IReadyMark w :: rest -> good rest (EXEC c t (IReadyMark w) m).
Proof using HI Hp Hth HG.
  intros Hk. destruct (head_ok Hk) as (y & Hy & Ha & Hb & Hcw). cbn [SynchType.chk1] in Hy. chk_inv.
  pose proof (i_place _ _ _ _ _ _ HI) as HP.
  assert (c_park x = PNot) as Hpk by done.
  assert (sched_lock ∈ c_own x) as Hso by (by apply (cw_hold _ _ Hcw)).
  destruct (tok_split Hk) as [[Hrn Hr] [Hcn Hc]].
  change (rtok (IReadyMark w :: rest)) with (w :: rtok rest) in Hrn, Hr.
  change (ctok (IReadyMark w :: rest)) with (ctok rest) in Hcn, Hc.
  apply NoDup_cons in Hrn as [Hnw Hrn].
  destruct (Hr w) as [Hsw Hlc]; [by left|]. pose proof Hsw as [thw Hthw].
  assert (~ running (cpus m) w) as Hnr by (eapply hand_not_running; eauto).
  assert (w <> t) as Hwt by (intros ->; apply Hnr, cur_running).
  cbn [exec]. rewrite Hthw, notlinked by congruence.
  eexists _, (upd lc w LReady), ow. open_machine.
  destruct (ready_append w) as [HRn HR]; [congruence|done|].
  eapply (inv_move (x' := x)); eauto using alter2_dom.
  - eapply type_ok_move; eauto using alter2_dom; try (rewrite Hlc; done); [|apply HI].
    intros u th' Hu. by apply (alter2_k _ _ _ _ _ Hu).
  - eapply place_ok_move; eauto using alter2_dom.
    all: try (rewrite Hlc; done). all: try done.
    + intros u th' Hu. by apply (alter2_k _ _ _ _ _ Hu).
    + apply cvs_same; congruence.
    + rewrite Hlc. intros u [= ->]. by left.
    + intros u Hu. right. split; [by intros ->|]. rewrite Hk. by right.
    + intros u Hu. right. split; [|by rewrite Hk]. intros ->. apply Hc in Hu as [_ ?]. congruence.
    + pose proof place_cur as Hrun. unfold place_run in Hrun. rewrite Hpk in Hrun. apply run_move.
      * unfold place_run. by rewrite upd_eq, Hpk, upd_ne.
      * intros c' q Hq _ E. exfalso. apply Hnr. by exists c', q.
    + apply prev_alive; [congruence|done].
    + intros th' Hth'. apply alter2_state in Hth'. rewrite Hth'. split; [done|]. split; [done|]. simpl. tauto.
Qed.

(** A doomed thread can be removed. *)
Lemma remove_dom w rest u : w <> t ->
  is_Some (alter (set_k rest) t (delete w (threads m)) !! u) <-> u <> w /\ is_Some (threads m !! u).
Proof using Type.
  intros Hwt. rewrite lookup_alter_is_Some. destruct (decide (u = w)) as [->|Hne].
  - rewrite lookup_delete_eq. split; [by intros [? ?]|by intros [? ?]].
  - rewrite lookup_delete_ne by done. tauto.
Qed.

Lemma remove_lookup w rest u th' : w <> t ->
  alter (set_k rest) t (delete w (threads m)) !! u = Some th' -> u <> w /\ exists th0,
    threads m !! u = Some th0 /\ state th' = state th0 /\ k th' = (if decide (u = t) then rest else k th0).
Proof using Hth.
  intros Hwt Hu. assert (u <> w) as Huw by (eapply remove_dom; eauto). split; [done|].
  destruct (decide (u = t)) as [->|Hne].
  - rewrite lookup_alter_eq, lookup_delete_ne, Hth in Hu by done. simpl in Hu. exists th. by simplify_eq.
  - rewrite lookup_alter_ne, lookup_delete_ne in Hu by done. exists th'. done.
Qed.

Lemma exec_cleanup w rest : k th = ICleanup w :: rest -> good rest (EXEC c t (ICleanup w) m).
Proof using HI Hp Hth HG.
  intros Hk. destruct (head_ok Hk) as (y & Hy & Ha & Hb & Hcw). cbn [SynchType.chk1] in Hy. chk_inv.
  pose proof (i_place _ _ _ _ _ _ HI) as HP. pose proof (i_type _ _ _ _ _ _ HI) as HT.
  destruct (tok_split Hk) as [[Hrn Hr] [Hcn Hc]].
  change (rtok (ICleanup w :: rest)) with (rtok rest) in Hrn, Hr.
  change (ctok (ICleanup w :: rest)) with (w :: ctok rest) in Hcn, Hc.
  apply NoDup_cons in Hcn as [Hnw Hcn].
  destruct (Hc w) as [Hsw Hlc]; [by left|]. pose proof Hsw as [thw Hthw].
  pose proof (po_doomed _ _ _ _ _ _ _ HP w t Hsw Hlc) as Hnr.
  assert (w <> t) as Hwt by (intros ->; apply Hnr, cur_running).
  assert (forall u, lc u <> LDoomed t -> u <> w) as Hnotw by (intros u Hu ->; done).
  cbn [exec]. unfold thread_cleanup. rewrite (proj2 (Z.eqb_neq _ _)), Hthw by done.
  exists X, lc, ow. open_machine. cbn [app]. split; simpl.
  - apply (i_lock _ _ _ _ _ _ HI).
  - intros a Ha'. destruct (i_sleep _ _ _ _ _ _ HI a Ha') as (h & ? & Hh). exists h. split; [done|].
    intros u [_ Hu]%remove_dom; [|done]. auto.
  - split.
    + apply eq_None_not_Some. rewrite remove_dom by done. intros [_ Hn]. by apply nonnull in Hn.
    + intros c' q Hq. rewrite remove_dom by done. split; [|by eapply to_cpu].
      intros E. apply Hnr. by exists c', q.
    + intros c' q Hq. destruct (to_idle _ _ _ _ _ _ HT c' q Hq) as [Hl Hs]. split; [done|].
      rewrite remove_dom by done. split; [|done]. apply Hnotw. congruence.
    + intros u th' Hu Hor. destruct (remove_lookup w rest u th' Hwt Hu) as (Huw & th0 & Hu0 & _ & ->).
      destruct (to_code _ _ _ _ _ _ HT _ _ Hu0 Hor) as [Ha0 Hc0].
      destruct (decide (u = t)) as [->|]; done.
    + intros u [_ Hu]%remove_dom; [|done]. by apply (to_off _ _ _ _ _ _ HT).
    + intros c' q u Hq [_ Hu]%remove_dom; [|done]. by apply (to_idleu _ _ _ _ _ _ HT).
    + intros u [_ Hu]%remove_dom; [|done]. by apply (to_idlec _ _ _ _ _ _ HT).
  - split.
    + apply HP.
    + intros u. rewrite (po_ready_in _ _ _ _ _ _ _ HP), remove_dom by done. split; [|tauto].
      intros [? ?]. split; [|done]. split; [|done]. apply Hnotw. congruence.
    + apply HP.
    + intros cv ws Hws. destruct (po_cvs _ _ _ _ _ _ _ HP cv ws Hws) as [? Hin]. split; [done|].
      intros u. rewrite Hin, remove_dom by done. split; [|tauto].
      intros [? ?]. split; [|done]. split; [|done]. apply Hnotw. congruence.
    + intros u th' Hu Hor. destruct (remove_lookup w rest u th' Hwt Hu) as (Huw & th0 & Hu0 & _ & ->).
      destruct (po_rtok _ _ _ _ _ _ _ HP _ _ Hu0 Hor) as [Hn0 H0].
      assert (forall u', is_Some (threads m !! u') /\ lc u' = LHand u ->
        is_Some (alter (set_k rest) t (delete w (threads m)) !! u') /\ lc u' = LHand u) as Hfix.
      { intros u' [? ?]. rewrite remove_dom by done. split; [|done]. split; [|done]. apply Hnotw. congruence. }
      destruct (decide (u = t)) as [->|]; [split; [done|]; auto|split; [done|]; auto].
    + intros u th' Hu Hor. destruct (remove_lookup w rest u th' Hwt Hu) as (Huw & th0 & Hu0 & _ & ->).
      destruct (po_ctok _ _ _ _ _ _ _ HP _ _ Hu0 Hor) as [Hn0 H0].
      destruct (decide (u = t)) as [->|Hut]; (split; [done|]); intros u' Hu'; rewrite remove_dom by done.
      * destruct (Hc u') as [? ?]; [by right|]. split; [|done]. split; [|done]. by intros ->.
      * destruct (H0 u' Hu') as [? ?]. split; [|done]. split; [|done]. apply Hnotw. congruence.
    + apply HP.
    + intros u c' [_ Hu]%remove_dom; [|done]. by apply (po_norun _ _ _ _ _ _ _ HP).
    + intros c' q Hq Hbk. destruct (po_prev _ _ _ _ _ _ _ HP c' q Hq Hbk) as [?|(? & ? & Hl)]; [by left|].
      right. rewrite remove_dom by done. split; [|done]. split; [|done].
      intros E. rewrite E, Hlc in Hl. by destruct Hl.
    + intros u th' Hu Hl. destruct (remove_lookup w rest u th' Hwt Hu) as (Huw & th0 & Hu0 & -> & _).
      by apply (po_rstate _ _ _ _ _ _ _ HP u).
    + intros u th' Hu. destruct (remove_lookup w rest u th' Hwt Hu) as (Huw & th0 & Hu0 & -> & _).
      by apply (po_dead _ _ _ _ _ _ _ HP u).
    + intros u u' [_ Hu]%remove_dom; [|done]. by apply (po_doomed _ _ _ _ _ _ _ HP).
Qed.

(** The running thread [t] changes its own state and moves to [l']. *)
Lemma mark_self st x' l' R' rest i :
  k th = i :: rest -> rtok [i] = [] -> ctok [i] = [] -> acc rest x' = true ->
  c_d x' = c_d x -> c_own x' = c_own x -> c_hold x' = c_hold x -> c_sl x' = c_sl x ->
  c_idle x' = c_idle x -> cwf G x' -> c_park x' <> PBack -> alive (lc t) ->
  (forall u, lc t <> LHand u) ->
  (forall c', l' <> LRun c') -> (forall u, l' <> LDoomed u) -> (forall c', l' = LIdle c' <-> lc t = LIdle c') ->
  (forall cv, l' = LWait cv <-> lc t = LWait cv) ->
  NoDup R' -> (forall u, u ∈ R' <-> u = t /\ is_Some (threads m !! t) /\ l' = LReady \/ u <> t /\ u ∈ ready_queue m) ->
  place_run (upd lc t l') (upd X t x') c p -> sched_lock ∈ c_own x ->
  (l' = LReady -> st = READY) -> (st = ZOMBIE <-> ~ alive l') ->
  inv (mk_machine (locks m) (cvs m) (alter (set_k rest) t (alter (set_state st) t (threads m))) R'
         (cpus m) (ticks m) (client m)) (upd X t x') (upd lc t l') ow.
Proof using HI Hp Hth HG.
  intros Hk Hri Hci Ha Hd Ho Hh Hs Hid Hcw Hpk Hal Hhand HnR HnD HI' HW HRn HR Hrun Hso Hst1 Hst2.
  pose proof (i_place _ _ _ _ _ _ HI) as HP.
  assert (is_Some (threads m !! t)) as Hsome by (by exists th).
  destruct (rtok_rest t l' Hk Hri (Hhand t)) as [Hrn Hrt].
  destruct (ctok_rest t l' Hk Hci) as [Hcn Hct]; [by intros E; rewrite E in Hal|].
  eapply (inv_move (x' := x')); eauto using alter2_dom.
  - eapply type_ok_move; eauto using alter2_dom; [|apply HI].
    intros u th' Hu. by apply (alter2_k _ _ _ _ _ Hu).
  - eapply place_ok_move; eauto using alter2_dom, prev_sched; try done.
    + intros u th' Hu. by apply (alter2_k _ _ _ _ _ Hu).
    + intros cv ws ws' Hws E. assert (ws' = ws) as -> by congruence.
      destruct (po_cvs _ _ _ _ _ _ _ HP cv ws Hws) as [? Hin]. split; [done|]. intros u.
      destruct (decide (u = t)) as [->|]; [rewrite Hin, HW; tauto|tauto].
    + intros u E. by apply Hhand in E.
    + intros u E. rewrite E in Hal. done.
    + apply run_move; [done|]. intros c' q Hq Hne E. exfalso.
      by eapply (other_cpu _ (i_lock _ _ _ _ _ _ HI) (cpu_upd_refl _ _ _ Hp)).
    + intros th' Hth'. apply alter2_state in Hth'. rewrite Hth'. done.
    + intros u E. by apply HnD in E.
Qed.

Lemma cwf_with_park x1 pk :
  cwf G x1 -> match pk with PSlept | PMarked | PDead => sched_lock ∈ c_hold x1 | _ => False end ->
  cwf G (with_park pk x1).
Proof using Type. intros [] H. split; simpl; auto. by destruct pk. Qed.

(** The side conditions of [mark_self]. *)
Ltac mark_side :=
  try first
    [ done
    | by apply cwf_with_park
    | apply (po_ready _ _ _ _ _ _ _ (i_place _ _ _ _ _ _ HI))
    | apply ready_same; congruence
    | unfold place_run; rewrite !upd_eq; simpl; by eauto
    | simpl; split; [done|tauto]
    | simpl; split; [tauto|done] ].

Lemma exec_schedmark st rest : k th = ISchedMark st :: rest -> good rest (EXEC c t (ISchedMark st) m).
Proof using HI Hp Hth HG.
  intros Hk. destruct (head_ok Hk) as (y & Hy & Ha & Hb & Hcw). cbn [SynchType.chk1] in Hy.
  pose proof (i_place _ _ _ _ _ _ HI) as HP. pose proof (i_type _ _ _ _ _ _ HI) as HT.
  pose proof place_cur as Hrun. unfold place_run in Hrun.
  destruct (to_idle _ _ _ _ _ _ HT c p Hp) as [Hid _].
  assert (is_Some (threads m !! t)) as Hsome by (by exists th).
  cbn [exec]. rewrite Hp.
  destruct st, (c_park x) eqn:Epk; try done; chk_inv;
    assert (sched_lock ∈ c_own x) as Hso by (by apply (cw_hold _ _ Hcw)).
  - destruct (t =? idle_thread p) eqn:Eid; simpl; chk_inv.
    + rewrite <- Eid in Hid. eexists _, _, _. open_machine.
      eapply (mark_self READY _ (LIdle c)); eauto; try (by rewrite Hid); mark_side.
    + assert (lc t = LRun c) as Hlc.
      { destruct Hrun as [?|E]; [done|]. by apply (to_idleu _ _ _ _ _ _ HT c p) in E. }
      rewrite notlinked by congruence. eexists _, _, _. open_machine.
      destruct (ready_append t) as [HRn HR]; [congruence|done|].
      eapply (mark_self READY _ LReady); eauto; try (by rewrite Hlc); mark_side.
  - simpl. eexists _, _, _. open_machine.
    eapply (mark_self SLEEPING _ (LWait cv)); eauto; try (by rewrite Hrun); mark_side.
  - assert (lc t = LRun c) as Hlc.
    { destruct Hrun as [?|E]; [done|]. by apply cur_idle in E. }
    simpl. eexists _, _, _. open_machine.
    eapply (mark_self ZOMBIE _ (LLeave c)); eauto; try (by rewrite Hlc); mark_side.
Qed.

Lemma exec_schedret rest : k th = ISchedRet :: rest -> good rest (EXEC c t ISchedRet m).
Proof using HI Hp Hth HG.
  intros Hk. destruct (head_ok Hk) as (y & Hy & Ha & Hb & Hcw). cbn [SynchType.chk1] in Hy. chk_inv.
  pose proof (i_place _ _ _ _ _ _ HI) as HP. pose proof (i_type _ _ _ _ _ _ HI) as HT.
  pose proof place_cur as Hrun. unfold place_run in Hrun.
  assert (c_park x = PBack) as Hpk by done. rewrite Hpk in Hrun.
  assert (sched_lock ∈ c_own x) as Hso by (match goal with H : c_own x = _ |- _ => rewrite H end; by left).
  assert (forall ks, acc ks (mk_ctx 0 [] [] (c_sl x) PNot (c_idle x) (c_gone x)) = true ->
    acc (spinlock_release true sched_lock ++ ks) (with_park PNot x) = true) as Hacc.
  { intros ks Hks. unfold accepts.
    rewrite (chks_release G act_lock _ _ (mk_ctx 0 [] [] (c_sl x) PNot (c_idle x) (c_gone x)));
      [done|apply Hcw|done|apply Hcw|].
    unfold chk_release, level, may_drop. simpl.
    repeat match goal with H : ?a x = _ |- context [?a x] => rewrite H end. done. }
  cbn [exec]. unfold sched_return. rewrite Hp. destruct (c_prev p =? NULL) eqn:En; chk_inv.
  { eexists _, lc, ow. eapply (inv_context (x' := with_park PNot x)); eauto using cwf_park_not. }
  destruct (po_prev _ _ _ _ _ _ _ HP c p Hp Hpk) as [?|([thp Hthp] & Hpt & Hpl)]; [done|].
  rewrite Hthp. destruct (bool_decide (state thp = ZOMBIE)) eqn:Ez; chk_inv.
  2: { rewrite app_nil_r. eexists _, lc, ow. eapply (inv_context (x' := with_park PNot x)); eauto using cwf_park_not. }
  pose proof (proj1 (state_of _ _ Hthp) Ez) as Hdead.
  destruct Hpl as [Hlc|?]; [|done].
  assert (~ running (cpus m) (c_prev p)) as Hnr.
  { intros (c' & q & Hq & E). pose proof (po_run _ _ _ _ _ _ _ HP c' q Hq) as Hr. unfold place_run in Hr.
    rewrite E, Hlc in Hr.
    assert (LLeave c = LLeave c' -> False) as Hcc by (intros [= <-]; congruence).
    destruct (c_park (X (c_prev p))); first [done|by auto|by destruct Hr|by destruct Hr as [[? ?]|[? ?]]]. }
  destruct (tok_split Hk) as [[Hrn Hr] [Hcn Hc]].
  change (rtok (ISchedRet :: rest)) with (rtok rest) in Hrn, Hr.
  change (ctok (ISchedRet :: rest)) with (ctok rest) in Hcn, Hc.
  eexists _, (upd lc (c_prev p) (LDoomed t)), ow. open_machine. rewrite <- app_assoc.
  eapply (inv_move (x' := with_park PNot x)); eauto using alter1_dom.
  - eapply type_ok_move; eauto using alter1_dom, alter1_k, cwf_park_not; try (by rewrite Hlc).
    apply Hacc. unfold accepts. cbn [app].
    erewrite (chks_run G act_lock); [exact Ha|apply Hcw|done|done].
  - eapply place_ok_move; eauto using alter1_dom, alter1_k.
    all: try (rewrite Hlc; done). all: try done.
    + apply HP.
    + apply ready_same; congruence.
    + apply cvs_same; congruence.
    + intros u Hu. right. split; [|by rewrite Hk]. intros ->. apply Hr in Hu as [_ ?]. congruence.
    + change (ctok (spinlock_release true sched_lock ++ [ICleanup (c_prev p)] ++ rest)) with (c_prev p :: ctok rest).
      constructor; [|done]. intros [_ ?]%Hc. congruence.
    + change (ctok (spinlock_release true sched_lock ++ [ICleanup (c_prev p)] ++ rest)) with (c_prev p :: ctok rest).
      intros u [->|Hu]%elem_of_cons; [left; eauto|]. right. split; [|by rewrite Hk].
      intros ->. apply Hc in Hu as [_ ?]. congruence.
    + apply run_move.
      * unfold place_run. rewrite upd_eq, upd_ne by congruence. done.
      * intros c' q Hq _ E. exfalso. apply Hnr. by exists c', q.
    + apply prev_sched; done.
    + intros th' Hth'. split; [done|]. destruct (alter1_k _ NULL _ _ Hth') as (th0 & Hth0 & _ & Hst).
      rewrite Hst by done. split; [by simpl; auto|]. intros _. congruence.
Qed.

(** ** The context switch

    CPU [c] goes from thread [t], parked, to thread [n] ([t] itself when
    nothing else is ready), which moves to [ln]. *)
Section switch.
Context {n : Z} {ln : place} {y : ctx} {p' : cpu} {R' : list Z} {thn : thread act} {i : instr act}
        {rest : list (instr act)}.
Context (Hk : k th = i :: rest) (Hi : rtok [i] = [] /\ ctok [i] = []) (Hcw : cwf G x).
Context (Honly : only [sched_lock] x = true).
Context (Hpk : c_park x = PSlept \/ c_park x = PMarked \/ c_park x = PDead).
Context (Hy : y = if decide (c_park x = PDead) then with_gone x else with_park PBack x).
Context (Hacc : acc rest y = true).
Context (Hthn : threads m !! n = Some thn).
Context (Hln : lc n = LReady /\ ln = LRun c \/ n = idle_thread p /\ lc n = LIdle c /\ ln = LIdle c).
Context (HR : NoDup R' /\ forall u, u ∈ R' <-> u <> n /\ u ∈ ready_queue m).
Context (Hp' : cur p' = n /\ idle_thread p' = idle_thread p /\ num_disabled p' = num_disabled p /\
               c_if p' = c_if p /\ c_prev p' = if decide (n = t) then NULL else t).
Abbreviation P' := (<[c := p']> (cpus m)).
Abbreviation X' := (upd X (cur p) y).
Abbreviation lc' := (upd lc n ln).
Abbreviation T' := (alter (set_k rest) (cur p) (alter (set_state RUNNING) n (threads m))).

Lemma switch_alive : alive (lc n) /\ alive ln.
Proof using HI Hp Hth HG Hk Hi Hcw Honly Hpk Hy Hacc Hthn Hln HR Hp'. pose proof Hln as [[-> ->]|(_ & -> & ->)]; done. Qed.

Lemma switch_nowhere c' q : cpus m !! c' = Some q -> cur q = n -> c' = c.
Proof using HI Hp Hth HG Hk Hi Hcw Honly Hpk Hy Hacc Hthn Hln HR Hp'.
  intros Hq E. pose proof (po_run _ _ _ _ _ _ _ (i_place _ _ _ _ _ _ HI) c' q Hq) as Hr.
  unfold place_run in Hr. rewrite E in Hr. pose proof (parked_owns c' q Hq) as Ho. rewrite E in Ho.
  destruct (only_fields _ _ Honly) as (Hxo & _).
  assert (sched_lock ∈ c_own x) as Hs by (rewrite Hxo; by left).
  pose proof Hln as [[Hl _]|(_ & Hl & _)]; rewrite Hl in Hr;
    destruct (c_park (X n)) eqn:En;
    first [ done | by destruct Hr as [[? ?]|[? ?]] | by destruct Hr as [?|[= ?]]
          | by destruct Hr | apply (own_same_cpu c' q sched_lock Hq Hs); rewrite E; apply Ho; auto ].
Qed.

Lemma switch_resume : X' n = resume_ctx (c_sl (X' n)) (c_idle (X' n)).
Proof using HI Hp Hth HG Hk Hi Hcw Honly Hpk Hy Hacc Hthn Hln HR Hp'.
  destruct switch_alive as [Hal _]. destruct (Z.eq_dec n t) as [En|Hne].
  - rewrite En, upd_eq. pose proof place_cur as Hr. unfold place_run in Hr.
    rewrite Hy. destruct (decide (c_park x = PDead)) as [E|_].
    + rewrite E in Hr. by rewrite En, Hr in Hal.
    + destruct (only_fields _ _ Honly) as (? & ? & ?). unfold resume_ctx. apply ctx_eq; auto. apply Hcw.
  - rewrite upd_ne by done. apply (to_off _ _ _ _ _ _ (i_type _ _ _ _ _ _ HI)); [by exists thn| |done].
    intros (c' & q & Hq & E). pose proof (switch_nowhere c' q Hq E). subst c'. congruence.
Qed.

Lemma switch_lookup c' q : P' !! c' = Some q -> c' = c /\ q = p' \/ c' <> c /\ cpus m !! c' = Some q.
Proof using HI Hp Hth HG Hk Hi Hcw Honly Hpk Hy Hacc Hthn Hln HR Hp'.
  destruct (decide (c' = c)) as [->|Hne].
  - rewrite lookup_insert_eq. intros [= <-]. by left.
  - rewrite lookup_insert_ne by done. by right.
Qed.

(** On the other CPUs nothing changes. *)
Lemma switch_other c' q : c' <> c -> cpus m !! c' = Some q ->
  cur q <> t /\ cur q <> n /\ X' (cur q) = X (cur q) /\ lc' (cur q) = lc (cur q).
Proof using HI Hp Hth HG Hk Hi Hcw Honly Hpk Hy Hacc Hthn Hln HR Hp'.
  intros Hne Hq. assert (cur q <> t) as H1
    by exact (other_cpu _ (i_lock _ _ _ _ _ _ HI) (cpu_upd_refl _ _ _ Hp) c' q Hne Hq).
  assert (cur q <> n) as H2 by (intros E; by apply (switch_nowhere c' q) in E).
  rewrite !upd_ne by done. done.
Qed.

Lemma switch_running u : running P' u <-> u = n \/ running (cpus m) u /\ u <> t.
Proof using HI Hp Hth HG Hk Hi Hcw Honly Hpk Hy Hacc Hthn Hln HR Hp'.
  split.
  - intros (c' & q & Hq & E). destruct (switch_lookup c' q Hq) as [[-> ->]|[Hne Hq']].
    + left. pose proof Hp' as [? _]. congruence.
    + right. destruct (switch_other c' q Hne Hq') as [? _]. split; [by exists c', q|congruence].
  - intros [->|[(c' & q & Hq & E) Hne]].
    + exists c, p'. rewrite lookup_insert_eq. split; [done|apply Hp'].
    + exists c', q. rewrite lookup_insert_ne; [done|]. intros <-. congruence.
Qed.

Lemma switch_lock_ok : lock_ok G (locks m) P' X' ow.
Proof using HI Hp Hth HG Hk Hi Hcw Honly Hpk Hy Hacc Hthn Hln HR Hp'.
  pose proof (i_lock _ _ _ _ _ _ HI) as HL. destruct (only_fields _ _ Honly) as (Hxo & Hxh & Hxd).
  pose proof Hp' as (Hc & Hid & Hnd & Hif & _). pose proof switch_resume as HX.
  destruct (lo_cpu _ _ _ _ _ HL c p Hp) as [Hd Hi0]. split.
  - intros c' q l Hq. destruct (switch_lookup c' q Hq) as [[-> ->]|[Hne Hq']].
    + rewrite Hc, HX, <- (lo_own _ _ _ _ _ HL c p l Hp), Hxo. done.
    + destruct (switch_other c' q Hne Hq') as (_ & _ & -> & _). by apply (lo_own _ _ _ _ _ HL).
  - intros l c' E. destruct (decide (c' = c)) as [->|Hne]; [rewrite lookup_insert_eq; eauto|].
    rewrite lookup_insert_ne by done. by apply (lo_dom _ _ _ _ _ HL l).
  - intros l Hl. destruct (lo_spin _ _ _ _ _ HL l Hl) as (h & Hlk & Hh). exists h. split; [done|].
    unfold holder_ok in *. destruct (ow l) as [c'|] eqn:Eo; [|done]. intros q Hq.
    destruct (switch_lookup c' q Hq) as [[-> ->]|[Hne Hq']].
    + specialize (Hh p Hp). rewrite Hxh in Hh. rewrite Hc, HX. simpl.
      destruct (has l [sched_lock]) eqn:El; [|done]. apply has_true, list_elem_of_singleton in El as ->.
      destruct Hh as [Hh1 Hh2]. split; [done|]. destruct (decide (h = n)) as [->|Hhn]; [by left|].
      right. split; [done|]. rewrite switch_running. intros [?|[Hr Hht]]; [done|].
      destruct Hh2 as [?|[_ ?]]; done.
    + destruct (switch_other c' q Hne Hq') as (_ & _ & -> & _). specialize (Hh q Hq').
      destruct (has l _); [|done]. destruct Hh as [? [?|[-> _]]]; [auto|].
      exfalso. apply Hne. assert (ow sched_lock = Some c); [|congruence].
      apply (lo_own _ _ _ _ _ HL c p); [done|]. rewrite Hxo. by left.
  - intros c' q Hq. destruct (switch_lookup c' q Hq) as [[-> ->]|[Hne Hq']].
    + rewrite Hc, HX. simpl. simpl in *. rewrite Hnd, Hif. split; [lia|]. intros E. specialize (Hi0 E). lia.
    + destruct (switch_other c' q Hne Hq') as (_ & _ & -> & _). exact (lo_cpu _ _ _ _ _ HL c' q Hq').
  - intros c1 c2 q1 q2 H1 H2 E.
    destruct (switch_lookup c1 q1 H1) as [[-> ->]|[Hn1 H1']], (switch_lookup c2 q2 H2) as [[-> ->]|[Hn2 H2']].
    + done.
    + destruct (switch_other c2 q2 Hn2 H2') as (_ & ? & _). congruence.
    + destruct (switch_other c1 q1 Hn1 H1') as (_ & ? & _). congruence.
    + exact (lo_inj _ _ _ _ _ HL c1 c2 q1 q2 H1' H2' E).
Qed.

Lemma switch_sleep_ok : sleep_ok G (locks m) T' X'.
Proof using HI Hp Hth HG Hk Hi Hcw Honly Hpk Hy Hacc Hthn Hln HR Hp'.
  assert (c_sl y = c_sl x) as Hs by (rewrite Hy; by destruct decide).
  intros a Ha. destruct (sleep_ok_same y Hs a Ha) as (h & ? & H). exists h. split; [done|].
  intros u. rewrite alter2_dom. apply H.
Qed.

Lemma switch_idle_same u c' : lc' u = LIdle c' <-> lc u = LIdle c'.
Proof using HI Hp Hth HG Hk Hi Hcw Honly Hpk Hy Hacc Hthn Hln HR Hp'.
  destruct (decide (u = n)) as [->|Hne]; [rewrite upd_eq|by rewrite upd_ne].
  pose proof Hln as [[-> ->]|(_ & -> & ->)]; done.
Qed.

Lemma switch_alive_same u : alive (lc' u) <-> alive (lc u).
Proof using HI Hp Hth HG Hk Hi Hcw Honly Hpk Hy Hacc Hthn Hln HR Hp'.
  destruct (decide (u = n)) as [->|Hne]; [rewrite upd_eq|by rewrite upd_ne].
  pose proof switch_alive. tauto.
Qed.

(** A thread that dies here is neither running nor alive afterwards. *)
Lemma switch_live u : running P' u \/ alive (lc' u) -> (running (cpus m) u \/ alive (lc u)) /\
  (u = t -> c_park x <> PDead).
Proof using HI Hp Hth HG Hk Hi Hcw Honly Hpk Hy Hacc Hthn Hln HR Hp'.
  rewrite switch_running, switch_alive_same. intros Hor. split.
  - destruct Hor as [[->|[? _]]|?]; [right; apply switch_alive|by left|by right].
  - intros -> Hd. pose proof place_cur as Hr. unfold place_run in Hr. rewrite Hd in Hr.
    destruct switch_alive as [Hal _]. rewrite Hr in Hor.
    destruct Hor as [[E|[_ ?]]|?]; [|done|done]. by rewrite <- E, Hr in Hal.
Qed.

Lemma switch_ctx : c_park x <> PDead -> y = with_park PBack x /\ cwf G y.
Proof using HI Hp Hth HG Hk Hi Hcw Honly Hpk Hy Hacc Hthn Hln HR Hp'.
  intros Hd. assert (y = with_park PBack x) as -> by (rewrite Hy; by rewrite decide_False).
  split; [done|]. destruct Hcw. by split.
Qed.

Lemma switch_type_ok : type_ok G act_lock T' P' X' lc'.
Proof using HI Hp Hth HG Hk Hi Hcw Honly Hpk Hy Hacc Hthn Hln HR Hp'.
  pose proof (i_type _ _ _ _ _ _ HI) as HT.
  assert (c_idle y = c_idle x) as Hidle by (rewrite Hy; by destruct decide). split.
  - apply eq_None_not_Some. rewrite alter2_dom, (to_null _ _ _ _ _ _ HT). by intros [? ?].
  - intros c' q Hq. rewrite alter2_dom. destruct (switch_lookup c' q Hq) as [[-> ->]|[Hne Hq']].
    + pose proof Hp' as [-> _]. by exists thn.
    + by apply (to_cpu _ _ _ _ _ _ HT c').
  - intros c' q Hq. rewrite alter2_dom, switch_idle_same.
    destruct (switch_lookup c' q Hq) as [[-> ->]|[Hne Hq']]; [|by apply (to_idle _ _ _ _ _ _ HT)].
    pose proof Hp' as (_ & -> & _). by apply (to_idle _ _ _ _ _ _ HT).
  - intros u th' Hu Hor. destruct (switch_live u Hor) as [Hor0 Hd].
    destruct (alter2_k _ _ _ _ _ Hu) as (th0 & Hu0 & -> & _).
    destruct (decide (u = t)) as [->|Hne].
    + rewrite upd_eq. split; [done|]. by apply switch_ctx, Hd.
    + rewrite upd_ne by done. by apply (to_code _ _ _ _ _ _ HT).
  - intros u Hu Hnr Hal. rewrite alter2_dom in Hu. rewrite switch_running in Hnr.
    rewrite switch_alive_same in Hal. destruct (decide (u = t)) as [->|Hne].
    + rewrite upd_eq. destruct (switch_ctx) as [-> _].
      { pose proof place_cur as Hr. unfold place_run in Hr. intros Hd. rewrite Hd in Hr. by rewrite Hr in Hal. }
      destruct (only_fields _ _ Honly) as (? & ? & ?). unfold resume_ctx. apply ctx_eq; auto. apply Hcw.
    + rewrite upd_ne by done. apply (to_off _ _ _ _ _ _ HT); auto.
  - intros c' q u Hq Hu Hl. rewrite alter2_dom in Hu. rewrite switch_idle_same in Hl.
    destruct (switch_lookup c' q Hq) as [[-> ->]|[Hne Hq']]; [|by apply (to_idleu _ _ _ _ _ _ HT c')].
    pose proof Hp' as (_ & -> & _). by apply (to_idleu _ _ _ _ _ _ HT c).
  - intros u Hu. rewrite alter2_dom in Hu. setoid_rewrite switch_idle_same.
    destruct (decide (u = t)) as [->|Hne]; [rewrite upd_eq, Hidle|rewrite upd_ne by done]; by apply (to_idlec _ _ _ _ _ _ HT).
Qed.

Lemma switch_lc_other u l : l <> LReady -> (forall c', l <> LRun c') -> (lc' u = l <-> lc u = l).
Proof using HI Hp Hth HG Hk Hi Hcw Honly Hpk Hy Hacc Hthn Hln HR Hp'.
  intros H1 H2. destruct (decide (u = n)) as [->|Hne]; [rewrite upd_eq|by rewrite upd_ne].
  pose proof Hln as [[-> ->]|(_ & -> & ->)]; [|done]. split; [intros <-; by destruct (H2 c)|by intros <-].
Qed.

Lemma switch_parked : (forall c', lc t <> LRun c') /\ (lc t = LLeave c \/ alive (lc t)).
Proof using HI Hp Hth HG Hk Hi Hcw Honly Hpk Hy Hacc Hthn Hln HR Hp'.
  pose proof place_cur as Hr. unfold place_run in Hr. pose proof Hpk as [E|[E|E]]; rewrite E in Hr.
  - destruct Hr as [[cv ->]|[u ->]]; split; simpl; auto.
  - destruct Hr as [->| ->]; split; simpl; auto.
  - rewrite Hr. split; auto.
Qed.

Lemma switch_tokens u th' : T' !! u = Some th' -> running P' u \/ alive (lc' u) ->
  (NoDup (rtok (k th')) /\ forall w, w ∈ rtok (k th') -> is_Some (threads m !! w) /\ lc w = LHand u) /\
  (NoDup (ctok (k th')) /\ forall w, w ∈ ctok (k th') -> is_Some (threads m !! w) /\ lc w = LDoomed u).
Proof using HI Hp Hth HG Hk Hi Hcw Honly Hpk Hy Hacc Hthn Hln HR Hp'.
  intros Hu Hor. destruct (switch_live u Hor) as [Hor0 _]. pose proof (i_place _ _ _ _ _ _ HI) as HP.
  destruct (alter2_k _ _ _ _ _ Hu) as (th0 & Hu0 & -> & _). destruct (decide (u = t)) as [->|Hne].
  - pose proof (tok_split Hk) as Hts. pose proof Hi as [H1 H2]. change (i :: rest) with ([i] ++ rest) in Hts.
    unfold rtok, ctok in *. by rewrite !omap_app, H1, H2 in Hts.
  - split; [by apply (po_rtok _ _ _ _ _ _ _ HP)|by apply (po_ctok _ _ _ _ _ _ _ HP)].
Qed.

Lemma switch_place_ok : place_ok G T' R' (cvs m) P' X' lc'.
Proof using HI Hp Hth HG Hk Hi Hcw Honly Hpk Hy Hacc Hthn Hln HR Hp'.
  pose proof (i_place _ _ _ _ _ _ HI) as HP. pose proof HR as [HRn HRin]. split.
  - done.
  - intros u. rewrite HRin, (po_ready_in _ _ _ _ _ _ _ HP), alter2_dom. destruct (decide (u = n)) as [->|Hne].
    + rewrite upd_eq. pose proof Hln as [[_ ->]|(_ & _ & ->)]; split; intros [? ?]; done.
    + rewrite upd_ne by done. tauto.
  - apply HP.
  - intros cv ws Hws. destruct (po_cvs _ _ _ _ _ _ _ HP cv ws Hws) as [? Hin]. split; [done|].
    intros u. by rewrite Hin, alter2_dom, switch_lc_other.
  - intros u th' Hu Hor. destruct (switch_tokens u th' Hu Hor) as [[? H] _]. split; [done|].
    intros w Hw. rewrite alter2_dom, switch_lc_other by done. auto.
  - intros u th' Hu Hor. destruct (switch_tokens u th' Hu Hor) as [_ [? H]]. split; [done|].
    intros w Hw. rewrite alter2_dom, switch_lc_other by done. auto.
  - intros c' q Hq. destruct (switch_lookup c' q Hq) as [[-> ->]|[Hne Hq']]; unfold place_run.
    + pose proof Hp' as [-> _]. rewrite switch_resume. simpl. rewrite upd_eq.
      pose proof Hln as [[_ ->]|(_ & _ & ->)]; auto.
    + destruct (switch_other c' q Hne Hq') as (_ & _ & -> & ->). by apply (po_run _ _ _ _ _ _ _ HP).
  - intros u c' Hu Hl. rewrite alter2_dom in Hu. destruct (decide (u = n)) as [->|Hne].
    + rewrite upd_eq in Hl. pose proof Hln as [[_ E]|(_ & _ & E)]; rewrite E in Hl; [|done].
      injection Hl as <-. exists p'. rewrite lookup_insert_eq. split; [done|apply Hp'].
    + rewrite upd_ne in Hl by done. destruct (po_norun _ _ _ _ _ _ _ HP u c' Hu Hl) as (q & Hq & Hc).
      exists q. rewrite lookup_insert_ne; [done|]. intros <-. assert (u = t) as -> by congruence.
      by apply (proj1 switch_parked) in Hl.
  - intros c' q Hq Hb. rewrite alter2_dom. destruct (switch_lookup c' q Hq) as [[-> ->]|[Hne Hq']].
    + pose proof switch_parked as Hsp. pose proof Hp' as (-> & _ & _ & _ & ->). destruct (decide (n = t)) as [|Hnt]; [by left|]. right.
      split; [by exists th|]. split; [congruence|]. rewrite upd_ne by congruence. apply Hsp.
    + destruct (switch_other c' q Hne Hq') as (_ & _ & E & _). rewrite E in Hb.
      destruct (po_prev _ _ _ _ _ _ _ HP c' q Hq' Hb) as [?|(? & ? & Hl)]; [by left|]. right.
      split; [done|]. split; [done|]. rewrite switch_alive_same, switch_lc_other; done.
  - intros u th' Hu Hl. destruct (decide (u = n)) as [->|Hne].
    + rewrite upd_eq in Hl. by pose proof Hln as [[_ E]|(_ & _ & E)]; rewrite E in Hl.
    + rewrite upd_ne in Hl by done. destruct (alter2_k _ _ _ _ _ Hu) as (th0 & Hu0 & _ & ->); [|done].
      by apply (po_rstate _ _ _ _ _ _ _ HP u).
  - intros u th' Hu. rewrite switch_alive_same. destruct (decide (u = n)) as [->|Hne].
    + rewrite (alter2_state _ _ _ _ Hu). pose proof switch_alive. split; [done|tauto].
    + destruct (alter2_k _ _ _ _ _ Hu) as (th0 & Hu0 & _ & ->); [|done]. by apply (po_dead _ _ _ _ _ _ _ HP u).
  - intros u u' Hu Hl. rewrite alter2_dom in Hu. rewrite switch_lc_other in Hl by done. rewrite switch_running.
    intros [->|[Hr _]]; [by destruct switch_alive as [Ha _]; rewrite Hl in Ha|].
    by apply (po_doomed _ _ _ _ _ _ _ HP u u').
Qed.

Lemma inv_switch ticks0 cl : inv (mk_machine (locks m) (cvs m) T' R' P' ticks0 cl) X' lc' ow.
Proof using HI Hp Hth HG Hk Hi Hcw Honly Hpk Hy Hacc Hthn Hln HR Hp'.
  split; simpl; [apply switch_lock_ok|apply switch_sleep_ok|apply switch_type_ok|apply switch_place_ok].
Qed.
End switch.

Lemma exec_switch rest : k th = ISwitch :: rest -> good rest (EXEC c t ISwitch m).
Proof using HI Hp Hth HG.
  clear Hact. intros Hk. destruct (head_ok Hk) as (y & Hy & Ha & Hb & Hcw). cbn [SynchType.chk1] in Hy.
  apply guard_some in Hy as [Honly Hy]. pose proof (i_place _ _ _ _ _ _ HI) as HP.
  assert ((c_park x = PSlept \/ c_park x = PMarked \/ c_park x = PDead) /\
    y = if decide (c_park x = PDead) then with_gone x else with_park PBack x) as [Hpk Hyx].
  { destruct (c_park x) eqn:E; simplify_eq; simpl; auto. }
  destruct (lo_cpu _ _ _ _ _ (i_lock _ _ _ _ _ _ HI) c p Hp) as [Hd Hif].
  destruct (only_fields _ _ Honly) as (_ & _ & Hxd).
  assert (c_if p = false) as Eif by (destruct (c_if p); [specialize (Hif eq_refl); simpl in *; lia|done]).
  destruct (to_idle _ _ _ _ _ _ (i_type _ _ _ _ _ _ HI) c p Hp) as [Hid [thi Hthi]].
  assert (forall n ln thn R' m1, threads m !! n = Some thn ->
    lc n = LReady /\ ln = LRun c \/ n = idle_thread p /\ lc n = LIdle c /\ ln = LIdle c ->
    NoDup R' /\ (forall u, u ∈ R' <-> u <> n /\ u ∈ ready_queue m) ->
    m1 = mk_machine (locks m) (cvs m) (threads m) R' (cpus m) (ticks m) (client m) ->
    good rest (let m2 := upd_thread n (set_state RUNNING) m1 in
      if t =? n then Done ([], with_cpus (insert c (set_prev NULL p)) m2)
      else if c_if p then Stop KAssert else Done ([], with_cpus (insert c (set_cur n t p)) m2))) as Hgo.
  { intros n ln thn R' m1 Hthn Hln HR ->. cbv zeta. rewrite Eif. unfold good.
    destruct (Z.eqb_spec t n) as [E|E]; eexists _, (upd lc n ln), ow;
      unfold upd_thread, with_threads, with_cpus; cbn [locks cvs threads ready_queue cpus ticks client];
      eapply (inv_switch (i := ISwitch)); eauto; simpl.
    - rewrite decide_True by congruence. auto.
    - rewrite decide_False by congruence. auto. }
  cbn [exec]. unfold sched. rewrite Hp. destruct (ready_queue m) as [|n q] eqn:ER.
  - rewrite Hthi. apply (Hgo _ (LIdle c) thi []); auto.
    + split; [constructor|]. intros u. set_solver.
    + destruct m; simpl in *. congruence.
  - pose proof (po_ready _ _ _ _ _ _ _ HP) as Hnd. rewrite ?ER in Hnd. apply NoDup_cons in Hnd as [Hnq Hnd].
    destruct (proj1 (po_ready_in _ _ _ _ _ _ _ HP n)) as [[thn Hthn] Hlc]; [by left|].
    rewrite Hthn, bool_decide_true by (by eapply po_rstate).
    apply (Hgo _ (LRun c) thn q); auto. split; [done|].
    intros u. rewrite elem_of_cons. split; [intros Hu; split; [by intros ->|by right]|tauto].
Qed.

(** The head instruction of the thread on CPU [c]: it succeeds and the
    invariant holds again, or it is a client action that stops. *)
Lemma exec_ok i rest : CI (client m) -> k th = i :: rest ->
  good rest (EXEC c t i m) \/ exists a f, i = IAct a /\ run_act t a (client m) = Stop f.
Proof using HI Hp Hth HG Hact.
  intros HC Hk. destruct i.
  all: try (left; first
    [ by apply exec_intr | by apply exec_acqcheck | by apply exec_tas | by apply exec_setholder
    | by apply exec_clearholder | by apply exec_unlock | by apply exec_slloop | by apply exec_slcheck
    | by apply exec_slclear | by apply exec_lockacquire | by apply exec_lockrelease | by apply exec_waitcheck
    | by apply exec_enq | by apply exec_pop | by apply exec_broadcast | by apply exec_readymark
    | by apply exec_schedmark | by apply exec_switch | by apply exec_schedret | by apply exec_cleanup
    | by apply exec_startcheck | by apply exec_ticks | by apply exec_iret ]).
  - exfalso. by destruct (head_ok Hk) as (y & Hy & _).
  - exfalso. by destruct (head_ok Hk) as (y & Hy & _).
  - exfalso. by destruct (head_ok Hk) as (y & Hy & _).
  - destruct (exec_act _ _ HC Hk) as [?|[f ?]]; [by left|]. right. eauto.
Qed.

(** A timer interrupt. *)
Lemma timer_ok : c_if p = true -> inv
  (upd_thread t (fun th => set_k (timer_trap_handler true ++ [IIret] ++ k th) th)
     (with_cpus (insert c (set_if false p)) m)) (upd X t x) lc ow.
Proof using HI Hp Hth HG.
  intros Hif. destruct (lo_cpu _ _ _ _ _ (i_lock _ _ _ _ _ _ HI) c p Hp) as [Hd Hif'].
  specialize (Hif' Hif). destruct cur_typed as [Hacc Hcw].
  assert (c_own x = [] /\ c_hold x = [] /\ c_park x = PNot) as (Ho & Hh & Hpk).
  { destruct Hcw as [_ Hsub _ Hd' Hpk' _]. assert (c_own x = []) as Ho.
    { destruct (c_own x) as [|l ls] eqn:E; [done|]. unfold level in Hd'. rewrite E in Hd'.
      destruct Hd' as [?%Z.eqb_eq|?%Z.eqb_eq]; simpl in *; lia. }
    rewrite Ho in Hsub. assert (c_hold x = []) as Hh.
    { destruct (c_hold x) as [|l ls]; [done|]. exfalso. apply (not_elem_of_nil l), Hsub. by left. }
    split; [done|]. split; [done|]. destruct (c_park x); try done.
    - by apply only_fields in Hpk' as (? & _); congruence.
    - destruct Hpk' as (l & _ & Hl). rewrite Hh in Hl. by apply elem_of_nil in Hl.
    - rewrite Hh in Hpk'. by apply elem_of_nil in Hpk'.
    - rewrite Hh in Hpk'. by apply elem_of_nil in Hpk'.
    - rewrite Hh in Hpk'. by apply elem_of_nil in Hpk'. }
  assert (x = free_ctx (c_sl x) (c_idle x)) as Hx by (apply ctx_eq; auto; apply Hcw).
  replace (upd_thread t (fun th => set_k (timer_trap_handler true ++ [IIret] ++ k th) th)
     (with_cpus (insert c (set_if false p)) m)) with
    (mk_machine (locks m) (cvs m) (alter (set_k (timer_trap_handler true ++ [IIret] ++ k th)) t (threads m))
       (ready_queue m) (<[c := set_if false p]> (cpus m)) (ticks m) (client m)).
  2: { unfold upd_thread, with_threads, with_cpus. simpl. f_equal. apply map_eq. intros u.
       destruct (decide (u = t)) as [->|]; [by rewrite !lookup_alter_eq, Hth|by rewrite !lookup_alter_ne]. }
  new_cpu HU. split; cbn [locks cvs threads ready_queue cpus ticks client].
  - apply (lock_ok_same _ (i_lock _ _ _ _ _ _ HI) HU); auto.
  - intros a Ha. destruct (sleep_ok_same x eq_refl a Ha) as (h & ? & H). exists h. split; [done|].
    intros u. rewrite lookup_alter_is_Some. apply H.
  - eapply type_ok_local; eauto; [apply HI|].
    unfold accepts. rewrite Hx. pose proof Hacc as Hacc'. unfold accepts in Hacc'. rewrite Hx in Hacc'.
    by rewrite chks_app, (chks_timer G act_lock) by done.
  - eapply place_ok_local; eauto. apply HI.
Qed.
End step.

(** ** Reachable states *)

Definition safe (m : mach) : Prop := CI (client m) /\ exists X lc ow, inv m X lc ow.

(** The client action a machine stops at. *)
Definition client_stop (m : mach) (f : fault) : Prop :=
  exists c p th a rest, cpus m !! c = Some p /\ threads m !! cur p = Some th /\
    k th = IAct a :: rest /\ run_act (cur p) a (client m) = Stop f.

(** The client's state changes in its actions only. *)
Lemma exec_client c t i m called m' :
  EXEC c t i m = Done (called, m') ->
  match i with
  | IAct a => run_act t a (client m) = Done (called, client m')
  | _ => client m' = client m
  end.
Proof using Type.
  destruct i; cbn [exec]; intros H;
    unfold lock_acquire, lock_release, sched, sched_return, thread_cleanup in H;
    repeat (match type of H with
            | context [match ?e with _ => _ end] => destruct e eqn:?
            end; try discriminate H); simplify_eq; try reflexivity; try done.
Qed.

(** Nor does another instruction change the code of a thread, take another
    thread off its CPU, or call an action. *)
Definition is_act (i : instr act) : bool := match i with IAct _ => true | _ => false end.

Lemma exec_frame c p i m called m' :
  cpus m !! c = Some p -> EXEC c (cur p) i m = Done (called, m') ->
  (forall u th', threads m' !! u = Some th' -> exists th0, threads m !! u = Some th0 /\ k th' = k th0) /\
  (forall u, u <> cur p -> running (cpus m) u -> running (cpus m') u) /\
  (is_act i = false -> forallb (fun j => negb (is_act j)) called = true) /\
  (i <> ISwitch -> running (cpus m) (cur p) -> running (cpus m') (cur p)).
Proof using Type.
  intros Hp H.
  assert (forall T' u th' f w, T' = alter f w (threads m) -> (forall th1, k (f th1) = k th1) ->
    T' !! u = Some th' -> exists th0, threads m !! u = Some th0 /\ k th' = k th0) as Halt.
  { intros T' u th' f w -> Hf Hu. destruct (decide (u = w)) as [->|Hne].
    - rewrite lookup_alter_eq in Hu. destruct (threads m !! w) as [th0|]; [|done]. simpl in Hu. simplify_eq.
      exists th0. by rewrite Hf.
    - rewrite lookup_alter_ne in Hu by done. eauto. }
  assert (forall p' u, cur p' = cur p \/ u <> cur p -> running (cpus m) u -> running (<[c := p']> (cpus m)) u) as Hrun.
  { intros p' u Hor (c' & q & Hq & E). destruct (decide (c' = c)) as [->|Hne].
    - assert (q = p) as -> by congruence. destruct Hor as [Hc|?]; [|done].
      exists c, p'. rewrite lookup_insert_eq. split; [done|congruence].
    - exists c', q. by rewrite lookup_insert_ne. }
  destruct i; cbn [exec] in H;
    unfold lock_acquire, lock_release, sched, sched_return, thread_cleanup in H;
    repeat (match type of H with
            | context [match ?e with _ => _ end] => destruct e eqn:?
            end; try discriminate H); simplify_eq;
    (split; [|split; [|split; [try done|]]]); simpl; try done; eauto; try (by intros; apply Hrun; auto).
  all: try (unfold intr_set_level in *; repeat case_match; simplify_eq; intros; apply Hrun; simpl; by auto).
  all: try (intros u th' Hu; eapply (Halt _ u th' _ _ eq_refl); [|exact Hu]; done).
  all: try (intros u th' [_ Hu]%lookup_delete_Some; by eauto).
  all: try (intros _; by destruct (sl_lk a =? NULL)).
Qed.

Lemma step_safe e m : safe m ->
  match step true run_act e m with Done m' => safe m' | Stop f => client_stop m f end.
Proof using HG Hact.
  intros (HC & X & lc & ow & HI). destruct e as [c|c]; simpl; unfold cpu_step, timer_step;
    (destruct (cpus m !! c) as [p|] eqn:Hp; [|split; [done|by exists X, lc, ow]]);
    (destruct (to_cpu _ _ _ _ _ _ (i_type _ _ _ _ _ _ HI) c p Hp) as [th Hth]).
  - rewrite Hth. destruct (k th) as [|i rest] eqn:Hk; [split; [done|by exists X, lc, ow]|].
    destruct (exec_ok HI Hp Hth i rest HC Hk) as [Hg|(a & f & -> & Hf)].
    + unfold good in Hg. destruct (exec true run_act c (cur p) i m) as [[called m']|f] eqn:E; [|done].
      split; [|done]. apply exec_client in E. simpl.
      destruct i; try (by rewrite E). destruct (head_ok HI Hp Hth Hk) as (y & Hy & _ & _ & Hcw).
      by destruct (Hact _ _ _ _ _ _ _ HC E Hy (cw_gone _ _ Hcw)).
    + cbn [exec]. rewrite Hf. exists c, p, th, a, rest. auto.
  - destruct (c_if p) eqn:E; [|split; [done|by exists X, lc, ow]].
    split; [done|]. eexists _, lc, ow. exact (timer_ok HI Hp Hth E).
Qed.
End safe.
