(* ===== verification/SynchBoot.v ===== *)
(** * The machine after boot

    Every CPU runs its idle thread with interrupts enabled ([sched_start]) and
    the other threads are in the ready queue, about to run [thread_kstart] of
    their function. *)

From stdpp Require Import prelude list gmap.
From Stdlib Require Import ZArith Lia.
From S2P Require Import Prelude Synch SynchType SynchInv SynchSafe.

Section boot.
Context {act C : Type} (G : env) (act_lock : act -> option (list Z)) (HG : env_ok G).
(** The CPUs with their idle threads, the threads with their functions. *)
Context (idles : list (Z * Z)) (progs : list (Z * list (instr act))) (s0 : C).

Definition boot_locks : gmap Z lockobj :=
  gset_to_gmap (Spin 0 NULL) (e_spin G) ∪ gset_to_gmap (Sleep NULL) (e_sleep G).

Definition boot_threads : gmap Z (thread act) :=
  list_to_map ((fun ci => (ci.2, mk_thread RUNNING 0 [])) <$> idles) ∪
  list_to_map ((fun tp => (tp.1, mk_thread READY 0 (thread_kstart true tp.2))) <$> progs).

Definition boot_cpus : gmap Z cpu :=
  list_to_map ((fun ci => (ci.1, mk_cpu ci.2 ci.2 0 false true NULL)) <$> idles).

Definition boot : machine act C :=
  mk_machine boot_locks ((fun _ => []) <$> e_cv G) boot_threads progs.*1 boot_cpus 0 s0.

(** The CPUs and threads are distinct, and the checker accepts the programs. *)
Record boot_ok : Prop := mk_boot_ok {
  bk_cpus : NoDup idles.*1;
  bk_threads : NoDup (idles.*2 ++ progs.*1);
  bk_null : NULL ∉ idles.*2 ++ progs.*1;
  bk_progs : Forall (fun tp => accepts G act_lock (thread_kstart true tp.2) (resume_ctx [] false) = true) progs;
}.

Definition boot_ctx (t : Z) : ctx :=
  if decide (t ∈ idles.*2) then free_ctx [] true else resume_ctx [] false.
Definition boot_place (t : Z) : place :=
  match list_find (fun ci => ci.2 = t) idles with Some (_, ci) => LIdle ci.1 | None => LReady end.

Context (HB : boot_ok).

Lemma boot_cpu c p : boot_cpus !! c = Some p <-> exists i, (c, i) ∈ idles /\ p = mk_cpu i i 0 false true NULL.
Proof using HB.
  unfold boot_cpus. rewrite <- elem_of_list_to_map.
  - rewrite list_elem_of_fmap. split.
    + intros ([c' i] & [= -> ->] & Hin). eauto.
    + intros (i & Hin & ->). by exists (c, i).
  - rewrite <- list_fmap_compose. apply (bk_cpus HB).
Qed.

Lemma boot_place_idle t c : (c, t) ∈ idles -> boot_place t = LIdle c.
Proof using HB.
  intros Hin. unfold boot_place. destruct (list_find _ idles) as [[j ci]|] eqn:E.
  - apply list_find_Some in E as (Hj & Ht & _). f_equal. destruct ci as [c' t']; simpl in *. subst t'.
    apply list_elem_of_lookup in Hin as [i Hi]. pose proof (bk_threads HB) as Hnd. apply NoDup_app in Hnd as [Hnd _].
    assert (i = j) as -> by (eapply (NoDup_lookup _ _ _ t Hnd); rewrite list_lookup_fmap, ?Hi, ?Hj; done). congruence.
  - exfalso. apply list_find_None in E. rewrite Forall_forall in E. by apply (E (c, t) Hin).
Qed.

Lemma boot_place_ready t : t ∉ idles.*2 -> boot_place t = LReady.
Proof using Type.
  intros Hn. unfold boot_place. destruct (list_find _ idles) as [[j ci]|] eqn:E; [|done].
  apply list_find_Some in E as (Hj & Ht & _). destruct Hn. apply list_elem_of_fmap. exists ci. split; [done|].
  by eapply list_elem_of_lookup_2.
Qed.

Lemma boot_thread t th : boot_threads !! t = Some th <->
  (t ∈ idles.*2 /\ th = mk_thread RUNNING 0 []) \/
  ((t ∉ idles.*2) /\ exists f, (t, f) ∈ progs /\ th = mk_thread READY 0 (thread_kstart true f)).
Proof using HB.
  pose proof (bk_threads HB) as (Hn1 & Hd & Hn2)%NoDup_app. unfold boot_threads.
  rewrite lookup_union_Some_raw.
  assert (forall th, (list_to_map ((fun ci => (ci.2, mk_thread RUNNING 0 [])) <$> idles) : gmap Z (thread act)) !! t = Some th
    <-> t ∈ idles.*2 /\ th = mk_thread RUNNING 0 []) as H1.
  { intros th1. rewrite <- elem_of_list_to_map by (by rewrite <- list_fmap_compose). rewrite !list_elem_of_fmap. split.
    - intros (ci & [= -> ->] & ?). eauto.
    - intros [(ci & -> & ?) ->]. eauto. }
  assert (forall th, (list_to_map ((fun tp => (tp.1, mk_thread READY 0 (thread_kstart true tp.2))) <$> progs) : gmap Z (thread act)) !! t = Some th
    <-> exists f, (t, f) ∈ progs /\ th = mk_thread READY 0 (thread_kstart true f)) as H2.
  { intros th1. rewrite <- elem_of_list_to_map by (by rewrite <- list_fmap_compose). rewrite !list_elem_of_fmap. split.
    - intros ([t' f] & [= -> ->] & ?). eauto.
    - intros (f & ? & ->). by exists (t, f). }
  rewrite H1, H2. split.
  - intros [?|[Hn ?]]; [by left|]. right. split; [|done]. intros Hin.
    assert (is_Some ((list_to_map ((fun ci => (ci.2, mk_thread RUNNING 0 [])) <$> idles) : gmap Z (thread act)) !! t)) as [? ?].
    { eexists. by apply H1. } congruence.
  - intros [?|[Hn ?]]; [by left|]. right. split; [|done]. apply eq_None_not_Some. intros [th1 [? _]%H1]. done.
Qed.

Lemma boot_known t : is_Some (boot_threads !! t) <-> t ∈ idles.*2 \/ t ∈ progs.*1.
Proof using HB.
  pose proof (bk_threads HB) as (_ & Hd & _)%NoDup_app. split.
  - intros [th [[? _]|(_ & f & ? & _)]%boot_thread]; [by left|]. right. apply list_elem_of_fmap. by exists (t, f).
  - intros [?|Hin]; [eexists; apply boot_thread; by left|].
    apply list_elem_of_fmap in Hin as ([t' f] & -> & ?). eexists. apply boot_thread. right. split; [|eauto].
    intros Hi. apply (Hd _ Hi), list_elem_of_fmap. by exists (t', f).
Qed.

Lemma boot_running t : running boot_cpus t <-> t ∈ idles.*2.
Proof using HB.
  split.
  - intros (c & p & (i & ? & ->)%boot_cpu & <-). apply list_elem_of_fmap. by exists (c, i).
  - intros ([c i] & -> & ?)%list_elem_of_fmap. exists c, (mk_cpu i i 0 false true NULL).
    split; [|done]. apply boot_cpu. eauto.
Qed.

Lemma boot_idle_ctx t : t ∈ idles.*2 -> boot_ctx t = free_ctx [] true.
Proof using Type. intros. unfold boot_ctx. by rewrite decide_True. Qed.
Lemma boot_prog_ctx t : t ∉ idles.*2 -> boot_ctx t = resume_ctx [] false.
Proof using Type. intros. unfold boot_ctx. by rewrite decide_False. Qed.

Lemma boot_on_cpu c p : boot_cpus !! c = Some p -> (c, cur p) ∈ idles /\ idle_thread p = cur p /\
  boot_ctx (cur p) = free_ctx [] true /\ boot_place (cur p) = LIdle c /\ num_disabled p = 0.
Proof using HB.
  intros (i & Hin & ->)%boot_cpu. simpl. assert (i ∈ idles.*2) by (apply list_elem_of_fmap; by exists (c, i)).
  split; [done|]. split; [done|]. split; [by apply boot_idle_ctx|]. split; [by apply boot_place_idle|done].
Qed.

Lemma boot_lock_ok : lock_ok G boot_locks boot_cpus boot_ctx (fun _ => None).
Proof using HB HG.
  split.
  - intros c p l (_ & _ & -> & _)%boot_on_cpu. simpl. rewrite elem_of_nil. split; done.
  - done.
  - intros l Hl. exists NULL. split; [|done]. unfold boot_locks. rewrite lookup_union_Some_raw. left.
    apply lookup_gset_to_gmap_Some. done.
  - intros c p (_ & _ & -> & _ & ->)%boot_on_cpu. done.
  - intros c c' p p' (H1 & _)%boot_on_cpu (H2 & _)%boot_on_cpu E. rewrite E in H1.
    apply boot_place_idle in H1, H2. congruence.
Qed.

Lemma boot_sleep_ok : sleep_ok G boot_locks boot_threads boot_ctx.
Proof using HB HG.
  intros a Ha. exists NULL. split.
  - unfold boot_locks. rewrite lookup_union_Some_raw. right. split.
    + apply lookup_gset_to_gmap_None. intros Hs. exact (eo_disj _ HG a Hs Ha).
    + by apply lookup_gset_to_gmap_Some.
  - intros t Ht%boot_known. assert (t <> NULL) as Hn.
    { intros ->. apply (bk_null HB), elem_of_app. done. }
    unfold boot_ctx. case_decide; simpl; rewrite elem_of_nil; split; congruence || done.
Qed.

Lemma boot_cwf t : cwf G (boot_ctx t).
Proof using HG.
  unfold boot_ctx. case_decide; split; simpl; auto.
  - constructor.
  - intros l Hl. by apply elem_of_nil in Hl.
  - apply NoDup_singleton.
  - intros l ->%list_elem_of_singleton. apply HG.
Qed.

Lemma boot_type_ok : type_ok G act_lock boot_threads boot_cpus boot_ctx boot_place.
Proof using HB HG.
  split.
  - apply eq_None_not_Some. rewrite boot_known, <- elem_of_app. apply (bk_null HB).
  - intros c p (Hin & _)%boot_on_cpu. apply boot_known. left. apply list_elem_of_fmap. by exists (c, cur p).
  - intros c p (Hin & -> & _ & ? & _)%boot_on_cpu. split; [done|].
    apply boot_known. left. apply list_elem_of_fmap. by exists (c, cur p).
  - intros t th Ht _. split; [|apply boot_cwf]. apply boot_thread in Ht as [[Hi ->]|(Hn & f & Hin & ->)].
    + by rewrite boot_idle_ctx.
    + rewrite boot_prog_ctx by done. pose proof (bk_progs HB) as Hf. rewrite Forall_forall in Hf. by apply (Hf (t, f)).
  - intros t _ Hnr _. rewrite boot_running in Hnr. by rewrite boot_prog_ctx.
  - intros c p t (Hin & -> & _)%boot_on_cpu Ht Hl.
    destruct (decide (t ∈ idles.*2)) as [Hi|Hn]; [|by rewrite boot_place_ready in Hl].
    apply list_elem_of_fmap in Hi as ([c' i] & -> & Hin'). simpl in *. rewrite (boot_place_idle i c') in Hl by done.
    injection Hl as ->. pose proof (bk_cpus HB) as Hnd.
    apply list_elem_of_lookup in Hin as [a Ha], Hin' as [b Hb].
    assert (a = b) as -> by (eapply (NoDup_lookup _ _ _ c Hnd); rewrite list_lookup_fmap, ?Ha, ?Hb; done). congruence.
  - intros t Ht. destruct (decide (t ∈ idles.*2)) as [Hi|Hn].
    + rewrite boot_idle_ctx by done. apply list_elem_of_fmap in Hi as ([c i] & -> & Hin).
      simpl. rewrite (boot_place_idle i c) by done. split; eauto.
    + rewrite boot_prog_ctx, boot_place_ready by done. split; [done|by intros [? ?]].
Qed.

Lemma kstart_tokens (f : list (instr act)) :
  rtok (thread_kstart true f) = rtok f /\ ctok (thread_kstart true f) = ctok f.
Proof using Type.
  unfold thread_kstart, rtok, ctok. rewrite !omap_app. simpl. by rewrite !app_nil_r.
Qed.

(** The programs themselves make no thread ready or free. *)
Context (Htok : Forall (fun tp => rtok tp.2 = [] /\ ctok tp.2 = []) progs).

Lemma boot_place_ok : place_ok G boot_threads progs.*1 ((fun _ => []) <$> e_cv G) boot_cpus boot_ctx boot_place.
Proof using HB Htok.
  pose proof (bk_threads HB) as (Hn1 & Hd & Hn2)%NoDup_app.
  assert (forall u th, boot_threads !! u = Some th -> rtok (k th) = [] /\ ctok (k th) = []) as Ht.
  { intros u th [[_ ->]|(_ & f & Hin & ->)]%boot_thread; [done|]. cbn [k].
    destruct (kstart_tokens f) as [-> ->]. rewrite Forall_forall in Htok. by apply (Htok (u, f)). }
  assert (forall t, is_Some (boot_threads !! t) -> boot_place t = LReady \/ exists c, boot_place t = LIdle c) as Hpl.
  { intros t _. unfold boot_place. destruct (list_find _ _) as [[? ?]|]; eauto. }
  split.
  - done.
  - intros t. rewrite boot_known. split.
    + intros Hin. split; [by right|]. apply boot_place_ready. intros Hi. by apply (Hd t).
    + intros [[Hi|?] Hl]; [|done]. apply list_elem_of_fmap in Hi as ([c i] & -> & Hin).
      simpl in Hl. by rewrite (boot_place_idle i c) in Hl.
  - intros cv. by rewrite lookup_fmap, fmap_is_Some.
  - intros cv ws Hw. rewrite lookup_fmap in Hw. destruct (e_cv G !! cv); [|done]. injection Hw as <-.
    split; [constructor|]. intros t. split; [intros Hin; by apply elem_of_nil in Hin|].
    intros [Hs Hl]. destruct (Hpl t Hs) as [?|[? ?]]; congruence.
  - intros u th Hu _. destruct (Ht u th Hu) as [-> _]. split; [constructor|]. intros t Hin. by apply elem_of_nil in Hin.
  - intros u th Hu _. destruct (Ht u th Hu) as [_ ->]. split; [constructor|]. intros t Hin. by apply elem_of_nil in Hin.
  - intros c p (_ & _ & Hx & Hl & _)%boot_on_cpu. unfold place_run. rewrite Hx. simpl. auto.
  - intros t c Hs Hl. destruct (Hpl t Hs) as [?|[? ?]]; congruence.
  - intros c p (_ & _ & Hx & _)%boot_on_cpu. by rewrite Hx.
  - intros t th [[Hi ->]|(_ & f & _ & ->)]%boot_thread Hl; [|done].
    apply list_elem_of_fmap in Hi as ([c i] & -> & Hin). simpl in Hl. by rewrite (boot_place_idle i c) in Hl.
  - intros t th Ht'. assert (is_Some (boot_threads !! t)) as Hs by eauto.
    assert (alive (boot_place t)) by (destruct (Hpl t Hs) as [->|[? ->]]; done).
    apply boot_thread in Ht' as [[_ ->]|(_ & f & _ & ->)]; simpl; split; done || tauto.
  - intros t u Hs Hl. destruct (Hpl t Hs) as [?|[? ?]]; congruence.
Qed.

Lemma boot_inv : inv G act_lock boot boot_ctx boot_place (fun _ => None).
Proof using HB HG Htok.
  split; simpl; [apply boot_lock_ok|apply boot_sleep_ok|apply boot_type_ok|apply boot_place_ok].
Qed.
End boot.
