(* ===== verification/Bbq.v ===== *)
(** * The bounded buffer and the pipe on top of it (kernel/bbq.c, kernel/pipe.c)

    Their code runs on the concurrent machine of Synch.v: a function is the
    list of its instructions, and what it does to the buffers and the pipes is
    a client action.  The tests of the waiting loops and the updates behind
    them are separate actions, so that it is the lock that keeps a test true
    until the update.  Accesses without a lock, the fields of a pipe and
    [bbq_is_empty], are actions of their own that need no lock.

    [g_in] and [g_out] of a buffer and [s_ins] and [s_outs] of the whole state
    are not part of the C state: they record what was inserted and removed, and
    by which thread, for the statements.

    [bbq_is_empty] reads its two counters in one step here; without the lock
    the C code reads them one after the other. *)

From stdpp Require Import prelude list gmap.
From Stdlib Require Import ZArith Lia.
From S2P Require Import Prelude Synch.

Definition MAX_BBQ_SIZE : Z := 512.

Record BBQ : Set := mkBBQ {
  items : list Z;
  front : Z;
  next_empty : Z;
  g_in : list Z;
  g_out : list Z;
}.

#[export] Instance BBQ_eq_dec : EqDecision BBQ.
Proof. solve_decision. Defined.

(** The members of the BBQ at [q]: its spinlock comes first. *)
Definition bbq_lock (q : Z) : Z := q.
Definition item_added (q : Z) : Z := q + 16.
Definition item_removed (q : Z) : Z := q + 40.

Record pipe_t : Set := mkPipe {
  buffer : Z;
  read_file : Z;
  write_file : Z;
}.

(** The client's state: the buffers, the pipes, the [info] field of the files,
    and for each thread the last value returned to it and its read buffer.  An
    entry of the logs is the thread, the buffer and the item. *)
Record bstate : Set := mkB {
  s_bbqs : gmap Z BBQ;
  s_pipes : gmap Z pipe_t;
  s_info : gmap Z Z;
  s_ret : gmap Z Z;
  s_buf : gmap Z (list Z);
  s_ins : list (Z * (Z * Z));
  s_outs : list (Z * (Z * Z));
}.

Definition set_bbq (q : Z) (b : BBQ) (s : bstate) : bstate :=
  mkB (<[q := b]> (s_bbqs s)) (s_pipes s) (s_info s) (s_ret s) (s_buf s) (s_ins s) (s_outs s).
Definition set_pipe (p : Z) (x : pipe_t) (s : bstate) : bstate :=
  mkB (s_bbqs s) (<[p := x]> (s_pipes s)) (s_info s) (s_ret s) (s_buf s) (s_ins s) (s_outs s).
Definition set_info (f p : Z) (s : bstate) : bstate :=
  mkB (s_bbqs s) (s_pipes s) (<[f := p]> (s_info s)) (s_ret s) (s_buf s) (s_ins s) (s_outs s).
Definition set_ret (t v : Z) (s : bstate) : bstate :=
  mkB (s_bbqs s) (s_pipes s) (s_info s) (<[t := v]> (s_ret s)) (s_buf s) (s_ins s) (s_outs s).
Definition set_buf (t : Z) (l : list Z) (s : bstate) : bstate :=
  mkB (s_bbqs s) (s_pipes s) (s_info s) (s_ret s) (<[t := l]> (s_buf s)) (s_ins s) (s_outs s).
Definition log_in (t q x : Z) (s : bstate) : bstate :=
  mkB (s_bbqs s) (s_pipes s) (s_info s) (s_ret s) (s_buf s) (s_ins s ++ [(t, (q, x))]) (s_outs s).
Definition log_out (t q x : Z) (s : bstate) : bstate :=
  mkB (s_bbqs s) (s_pipes s) (s_info s) (s_ret s) (s_buf s) (s_ins s) (s_outs s ++ [(t, (q, x))]).

Inductive bact : Set :=
| InsertLoop (q item : Z)                   (* the loop of bbq_insert *)
| InsertPut (q item : Z)                    (* the update behind it *)
| RemoveLoop (q : Z)                        (* the loop of bbq_remove *)
| RemoveGet (q : Z)
| PipeWrite (f : Z) (buf : list Z)          (* pipe_write up to its loop *)
| PipeWriteLoop (q : Z) (buf : list Z) (n : Z)
| PipeRead (f count : Z)                    (* pipe_read up to its loops *)
| PipeReadLoop (q count n : Z) (block : bool)
| PipeReadStore (q count n : Z) (block : bool)
| PipeClose (f : Z).

Abbreviation code := (list (instr bact)).

Definition bbq_is_full (b : BBQ) : bool := i32 (next_empty b - front b) =? MAX_BBQ_SIZE.
Definition bbq_is_empty (b : BBQ) : bool := front b =? next_empty b.

Definition bbq_insert (q item : Z) : code :=
  spinlock_acquire true (bbq_lock q) ++ [IAct (InsertLoop q item); IAct (InsertPut q item)]
  ++ condvar_signal true (item_added q) ++ spinlock_release true (bbq_lock q).

Definition bbq_remove (q : Z) : code :=
  spinlock_acquire true (bbq_lock q) ++ [IAct (RemoveLoop q); IAct (RemoveGet q)]
  ++ condvar_signal true (item_removed q) ++ spinlock_release true (bbq_lock q).

Definition pipe_write (f : Z) (buf : list Z) : code := [IAct (PipeWrite f buf)].
Definition pipe_read (f count : Z) : code := [IAct (PipeRead f count)].
Definition pipe_close (f : Z) : code := [IAct (PipeClose f)].

(** [q->items[q->next_empty % MAX_BBQ_SIZE] = item; q->next_empty++], with the
    C remainder: a negative counter gives a negative index. *)
Definition bbq_put (item : Z) (b : BBQ) : res BBQ :=
  let i := Z.rem (next_empty b) MAX_BBQ_SIZE in
  if (0 <=? i) && bool_decide (is_Some (items b !! Z.to_nat i)) then
    Done (mkBBQ (<[Z.to_nat i := item]> (items b)) (front b) (i32 (next_empty b + 1))
            (g_in b ++ [item]) (g_out b))
  else Stop BadAccess.

Definition bbq_get (b : BBQ) : res (Z * BBQ) :=
  let i := Z.rem (front b) MAX_BBQ_SIZE in
  if 0 <=? i then
    match items b !! Z.to_nat i with
    | Some item => Done (item, mkBBQ (items b) (i32 (front b + 1)) (next_empty b) (g_in b) (g_out b ++ [item]))
    | None => Stop BadAccess
    end
  else Stop BadAccess.

Definition with_bbq {A} (s : bstate) (q : Z) (f : BBQ -> res A) : res A :=
  match s_bbqs s !! q with Some b => f b | None => Stop BadAccess end.

(** The pipe of a file, when the file has one and the pipe has a buffer. *)
Definition file_pipe (f : Z) (s : bstate) : res (option (Z * pipe_t)) :=
  match s_info s !! f with
  | None => Stop BadAccess
  | Some p =>
      if p =? NULL then Done None
      else match s_pipes s !! p with
           | None => Stop BadAccess
           | Some x => if buffer x =? NULL then Done None else Done (Some (p, x))
           end
  end.

(** [self] is the thread that runs the action. *)
Definition run_bact (self : Z) (a : bact) (s : bstate) : res (code * bstate) :=
  match a with
  | InsertLoop q item =>
      with_bbq s q (fun b =>
        if bbq_is_full b
        then Done (condvar_wait true (item_removed q) (bbq_lock q) ++ [IAct (InsertLoop q item)], s)
        else Done ([], s))
  | InsertPut q item =>
      with_bbq s q (fun b =>
        match bbq_put item b with
        | Done b' => Done ([], log_in self q item (set_bbq q b' s))
        | Stop e => Stop e
        end)
  | RemoveLoop q =>
      with_bbq s q (fun b =>
        if bbq_is_empty b
        then Done (condvar_wait true (item_added q) (bbq_lock q) ++ [IAct (RemoveLoop q)], s)
        else Done ([], s))
  | RemoveGet q =>
      with_bbq s q (fun b =>
        match bbq_get b with
        | Done (item, b') => Done ([], set_ret self item (log_out self q item (set_bbq q b' s)))
        | Stop e => Stop e
        end)
  | PipeWrite f buf =>
      match file_pipe f s with
      | Stop e => Stop e
      | Done None => Done ([], set_ret self (-1) s)
      | Done (Some (_, x)) =>
          if read_file x =? NULL then Done ([], set_ret self ERR_END s)
          else Done ([IAct (PipeWriteLoop (buffer x) buf 0)], s)
      end
  | PipeWriteLoop q buf n =>
      match buf with
      | [] => Done ([], set_ret self n s)
      | c :: buf' => Done (bbq_insert q c ++ [IAct (PipeWriteLoop q buf' (n + 1))], s)
      end
  | PipeRead f count =>
      match file_pipe f s with
      | Stop e => Stop e
      | Done None => Done ([], set_ret self (-1) s)
      | Done (Some (_, x)) =>
          Done ([IAct (PipeReadLoop (buffer x) count 0 (negb (write_file x =? NULL)))], s)
      end
  | PipeReadLoop q count n block =>
      with_bbq s q (fun b =>
        if (n <? count) && (block || negb (bbq_is_empty b))
        then Done (bbq_remove q ++ [IAct (PipeReadStore q count n block)], s)
        else Done ([], set_ret self n s))
  | PipeReadStore q count n block =>
      Done ([IAct (PipeReadLoop q count (n + 1) block)],
            set_buf self (default [] (s_buf s !! self) ++ [default 0 (s_ret s !! self)]) s)
  | PipeClose f =>
      match s_info s !! f with
      | None => Stop BadAccess
      | Some p =>
          if p =? NULL then Done ([], s)
          else match s_pipes s !! p with
               | None => Stop BadAccess
               | Some x =>
                   if f =? read_file x then
                     Done ([], set_info f NULL (set_pipe p (mkPipe (buffer x) NULL (write_file x)) s))
                   else if f =? write_file x then
                     Done ([], set_info f NULL (set_pipe p (mkPipe (buffer x) (read_file x) NULL) s))
                   else Done ([], s)
               end
      end
  end.

(** What [bbq_init] leaves in the structure it allocated; the contents of the
    array are those of the memory it got. *)
Definition bbq_initial (mem : list Z) : BBQ := mkBBQ mem 0 0 [] [].
