(* ===== verification/BbqSpec.v ===== *)
(** * The invariant of the bounded buffers

    For a set [Q] of buffers and a set [F] of pipe files.  [bbq_ok] ties the
    ring to the history; [armed] says that a thread between the test of its
    waiting loop and the update behind it still finds the test true; [traced]
    ties what each thread puts in and takes out to the code it runs. *)

From stdpp Require Import prelude list gmap.
From Stdlib Require Import ZArith Lia.
From S2P Require Import Prelude Synch SynchType SynchInv SynchSafe SynchBoot Bbq.

(** ** The ring *)

Definition in_count (b : BBQ) : Z := Z.of_nat (length (g_in b)).
Definition out_count (b : BBQ) : Z := Z.of_nat (length (g_out b)).

Record bbq_ok (b : BBQ) : Prop := mk_bbq_ok {
  bo_items : length (items b) = 512%nat;
  bo_fifo : g_out b = take (length (g_out b)) (g_in b);
  bo_count : out_count b <= in_count b <= out_count b + MAX_BBQ_SIZE;
  bo_next : next_empty b = i32 (in_count b);
  bo_front : front b = i32 (out_count b);
  bo_ring : forall i, out_count b <= i < in_count b ->
    items b !! Z.to_nat (i mod MAX_BBQ_SIZE) = g_in b !! Z.to_nat i;
}.

Definition bbq_room (b : BBQ) : Prop := in_count b < out_count b + MAX_BBQ_SIZE.
Definition bbq_some (b : BBQ) : Prop := out_count b < in_count b.

Lemma count_nonneg b : 0 <= out_count b /\ 0 <= in_count b.
Proof. unfold out_count, in_count. lia. Qed.

Lemma i32_sub x y : i32 (i32 x - i32 y) = i32 (x - y).
Proof.
  unfold wraps. set (M := 2 ^ (32 - 1)). replace (2 ^ 32) with (2 * M) by reflexivity.
  assert (M > 0) by (unfold M; lia). f_equal.
  assert (forall z, exists k, (z + M) mod (2 * M) = z + M - 2 * M * k) as Hm.
  { intros z. exists ((z + M) / (2 * M)). pose proof (Z.div_mod (z + M) (2 * M)). lia. }
  destruct (Hm x) as [kx ->], (Hm y) as [ky ->].
  replace (x + M - 2 * M * kx - M - (y + M - 2 * M * ky - M) + M) with (x - y + M + (ky - kx) * (2 * M)) by lia.
  apply Z.mod_add. lia.
Qed.

Lemma bbq_is_full_spec b : bbq_ok b -> bbq_is_full b = false <-> bbq_room b.
Proof.
  intros [? ? Hc Hn Hf ?]. unfold bbq_is_full, bbq_room. rewrite Hn, Hf, i32_sub.
  rewrite wraps_small by (unfold MAX_BBQ_SIZE in *; lia). rewrite Z.eqb_neq. unfold MAX_BBQ_SIZE in *. lia.
Qed.

Lemma bbq_is_empty_spec b : bbq_ok b -> bbq_is_empty b = false <-> bbq_some b.
Proof.
  intros [? ? Hc Hn Hf ?]. unfold bbq_is_empty, bbq_some. rewrite Z.eqb_neq. split.
  - intros Hne. destruct (decide (out_count b = in_count b)) as [E|]; [|lia]. congruence.
  - intros Hlt E. rewrite Hn, Hf in E. pose proof (i32_sub (in_count b) (out_count b)) as H.
    rewrite E in H. replace (i32 (in_count b) - i32 (in_count b)) with 0 in H by lia.
    rewrite (wraps_small 32 (in_count b - _)) in H by (unfold MAX_BBQ_SIZE in *; lia).
    change (i32 0) with 0 in H. lia.
Qed.

Lemma ring_index n : 0 <= n < 2 ^ 31 -> Z.rem (i32 n) MAX_BBQ_SIZE = n mod MAX_BBQ_SIZE.
Proof.
  intros H. rewrite wraps_small by (simpl; lia). apply Z.rem_mod_nonneg; unfold MAX_BBQ_SIZE; lia.
Qed.

Lemma i32_succ n : i32 (i32 n + 1) = i32 (n + 1).
Proof.
  pose proof (i32_sub n (-1)) as H. change (i32 (-1)) with (-1) in H.
  by replace (i32 n - -1) with (i32 n + 1) in H by lia; replace (n - -1) with (n + 1) in H by lia.
Qed.

Lemma bbq_put_ok item b :
  bbq_ok b -> bbq_room b -> in_count b < 2 ^ 31 ->
  exists b', bbq_put item b = Done b' /\ bbq_ok b' /\ g_in b' = g_in b ++ [item] /\ g_out b' = g_out b.
Proof.
  intros Hok Hroom Hlt. pose proof (count_nonneg b). destruct Hok as [Hi Hfifo Hc Hn Hf Hr].
  unfold bbq_put. rewrite Hn, ring_index by lia. set (i := in_count b mod MAX_BBQ_SIZE).
  assert (0 <= i < 512) as Hb by (apply Z.mod_pos_bound; lia).
  rewrite (proj2 (Z.leb_le 0 i)) by lia. rewrite bool_decide_true.
  2: { apply lookup_lt_is_Some. rewrite Hi. lia. }
  simpl. eexists. split; [done|]. split; [|done].
  assert (in_count (mkBBQ (<[Z.to_nat i := item]> (items b)) (front b) (i32 (i32 (in_count b) + 1))
    (g_in b ++ [item]) (g_out b)) = in_count b + 1) as Hin
    by (unfold in_count; simpl; rewrite length_app; simpl; lia).
  split; rewrite ?Hin; cbn [items front next_empty g_in g_out] in *.
  - by rewrite length_insert.
  - rewrite take_app_le; [done|]. clear -Hc. unfold in_count, out_count in Hc. simpl in *. lia.
  - unfold bbq_room, out_count in *. simpl in *. lia.
  - apply i32_succ.
  - done.
  - intros j Hj. unfold out_count in Hj. simpl in Hj. fold (out_count b) in Hj.
    destruct (decide (j = in_count b)) as [->|Hne].
    + fold i. rewrite list_lookup_insert_eq by lia. symmetry. unfold in_count.
      rewrite Nat2Z.id, lookup_app_r by lia. by rewrite Nat.sub_diag.
    + rewrite list_lookup_insert_ne.
      * rewrite (Hr j) by lia. rewrite lookup_app_l; [done|]. unfold in_count in Hj, Hne. lia.
      * unfold i, bbq_room in *. intros E. apply Z2Nat.inj in E; [|apply Z.mod_pos_bound; done..].
        assert ((in_count b - j) mod MAX_BBQ_SIZE = 0) as E0.
        { rewrite Zminus_mod, E, Z.sub_diag. done. }
        rewrite Z.mod_small in E0 by lia. lia.
Qed.

Lemma bbq_get_ok b :
  bbq_ok b -> bbq_some b -> in_count b <= 2 ^ 31 ->
  exists item b', bbq_get b = Done (item, b') /\ bbq_ok b' /\ g_in b' = g_in b /\ g_out b' = g_out b ++ [item] /\
    g_in b !! length (g_out b) = Some item.
Proof.
  intros Hok Hsome Hlt. pose proof (count_nonneg b). pose proof Hok as [Hi Hfifo Hc Hn Hf Hr].
  unfold bbq_some in Hsome. unfold bbq_get. rewrite Hf, ring_index by lia.
  set (i := out_count b mod MAX_BBQ_SIZE).
  assert (0 <= i < 512) as Hb by (apply Z.mod_pos_bound; lia).
  rewrite (proj2 (Z.leb_le 0 i)) by lia.
  assert (exists item, g_in b !! length (g_out b) = Some item) as [item Hitem].
  { apply lookup_lt_is_Some. unfold in_count, out_count in Hsome. lia. }
  assert (items b !! Z.to_nat i = Some item) as ->.
  { unfold i. rewrite (Hr (out_count b)) by lia. unfold out_count. by rewrite Nat2Z.id. }
  exists item. eexists. split; [done|]. split; [|done].
  assert (out_count (mkBBQ (items b) (i32 (i32 (out_count b) + 1)) (next_empty b) (g_in b) (g_out b ++ [item]))
    = out_count b + 1) as Hout by (unfold out_count; simpl; rewrite length_app; simpl; lia).
  split; rewrite ?Hout; cbn [items front next_empty g_in g_out] in *; auto.
  - rewrite length_app, Nat.add_1_r. simpl. by rewrite (take_S_r _ _ item), <- Hfifo.
  - unfold in_count in *. simpl. lia.
  - apply i32_succ.
  - intros j Hj. unfold in_count in Hj. simpl in Hj. apply Hr. unfold in_count. lia.
Qed.

Lemma bbq_initial_ok mem : length mem = 512%nat -> bbq_ok (bbq_initial mem).
Proof. intros. split; unfold in_count, out_count, MAX_BBQ_SIZE; simpl; auto; lia. Qed.

(** ** The client's discipline *)

Section client.
Context (G : env) (HG : env_ok G) (Q F : gset Z).
Context (HQ : forall q, q ∈ Q -> e_cv G !! item_added q = Some (bbq_lock q) /\
                                 e_cv G !! item_removed q = Some (bbq_lock q)).

Definition when_queue (q : Z) (ls : list Z) : option (list Z) :=
  if decide (q ∈ Q) then Some ls else None.
Definition when_file (f : Z) : option (list Z) := if decide (f ∈ F) then Some [] else None.

(** The lock each action needs, on a known buffer or file. *)
Definition bact_lock (a : bact) : option (list Z) :=
  match a with
  | InsertLoop q _ | InsertPut q _ | RemoveLoop q | RemoveGet q => when_queue q [bbq_lock q]
  | PipeWriteLoop q _ _ | PipeReadLoop q _ _ _ | PipeReadStore q _ _ _ => when_queue q []
  | PipeWrite f _ | PipeRead f _ | PipeClose f => when_file f
  end.

(** The buffers of the pipes are known ones. *)
Definition pipes_ok (s : bstate) : Prop :=
  (forall p x, s_pipes s !! p = Some x -> buffer x = NULL \/ buffer x ∈ Q) /\
  (forall f, f ∈ F -> exists p, s_info s !! f = Some p /\ (p = NULL \/ is_Some (s_pipes s !! p))).

Abbreviation chk1 := (chk1 G bact_lock).
Abbreviation chks := (chks G bact_lock).

Lemma queue_lock q : q ∈ Q -> bbq_lock q ∈ e_spin G /\ bbq_lock q <> sched_lock.
Proof using HG HQ. intros Hq. destruct (HQ q Hq) as [H _]. by destruct (eo_cv _ HG _ _ H) as (? & ? & _). Qed.

Lemma chks_wait_queue q cv sl ks :
  q ∈ Q -> cv = item_added q \/ cv = item_removed q ->
  let x := mk_ctx 1 [bbq_lock q] [bbq_lock q] sl PNot false false in
  chks (condvar_wait true cv (bbq_lock q) ++ ks) x = chks ks x.
Proof using HG HQ.
  intros Hq Hcv x. apply chks_wait; [done|]. destruct (HQ q Hq). by destruct Hcv as [->| ->].
Qed.

(** The two calls, from and to a thread that holds nothing. *)
Lemma chks_body q cv a1 a2 sl ks :
  q ∈ Q -> cv = item_added q \/ cv = item_removed q ->
  bact_lock a1 = Some [bbq_lock q] -> bact_lock a2 = Some [bbq_lock q] ->
  chks (spinlock_acquire true (bbq_lock q) ++ [IAct a1; IAct a2] ++ condvar_signal true cv
          ++ spinlock_release true (bbq_lock q) ++ ks) (free_ctx sl false) = chks ks (free_ctx sl false).
Proof using HG HQ.
  intros Hq Hcv H1 H2. destruct (queue_lock q Hq) as [Hs Hne].
  set (x := mk_ctx 1 [bbq_lock q] [bbq_lock q] sl PNot false false).
  rewrite (chks_acquire G bact_lock _ _ x); [|done|done|done|].
  2: { unfold chk_acquire. by rewrite bool_decide_true. }
  cbn [app]. assert (only [bbq_lock q] x = true) as Ho by (unfold only; simpl; by rewrite !bool_decide_true).
  rewrite (chks_run G bact_lock _ _ _ x); [|done|done|cbn [SynchType.chk1]; by rewrite H1, Ho].
  rewrite (chks_run G bact_lock _ _ _ x); [|done|done|cbn [SynchType.chk1]; by rewrite H2, Ho].
  unfold condvar_signal, when_enabled. cbn [app].
  rewrite (chks_run G bact_lock _ _ _ x); [|done|done|].
  2: { cbn [SynchType.chk1]. assert (e_cv G !! cv = Some (bbq_lock q)) as ->.
       { destruct (HQ q Hq). by destruct Hcv as [->| ->]. }
       apply guard_true. rewrite (proj2 (has_true _ _)) by (by left).
       rewrite (proj2 (has_false _ _)); [done|]. simpl. rewrite list_elem_of_singleton. congruence. }
  rewrite (chks_release G bact_lock _ _ (free_ctx sl false)); [done|done|done|apply NoDup_singleton|].
  unfold chk_release. rewrite guard_true.
  - unfold x, rm; simpl. rewrite filter_cons, decide_False by tauto. done.
  - rewrite !(proj2 (has_true _ _)) by (by left). done.
Qed.

Lemma chks_insert q item sl ks :
  q ∈ Q -> chks (bbq_insert q item ++ ks) (free_ctx sl false) = chks ks (free_ctx sl false).
Proof using HG HQ.
  intros Hq. unfold bbq_insert. rewrite <- !app_assoc.
  apply chks_body; auto; simpl; unfold when_queue; by rewrite decide_True.
Qed.

Lemma chks_remove q sl ks :
  q ∈ Q -> chks (bbq_remove q ++ ks) (free_ctx sl false) = chks ks (free_ctx sl false).
Proof using HG HQ.
  intros Hq. unfold bbq_remove. rewrite <- !app_assoc.
  apply chks_body; auto; simpl; unfold when_queue; by rewrite decide_True.
Qed.

(** The context in which an action runs. *)
Lemma act_ctx a x y :
  chk1 (IAct a) x = Some y -> c_gone x = false ->
  exists ls sl, bact_lock a = Some ls /\
    x = mk_ctx (Z.of_nat (length ls)) ls ls sl PNot false false /\ y = x.
Proof using Type.
  cbn [SynchType.chk1]. destruct (bact_lock a) as [ls|]; [|done].
  intros [H [= <-]]%guard_some Hg. exists ls, (c_sl x). split; [done|]. split; [|done].
  apply andb_true_iff in H as [[H Hp]%andb_true_iff Hi]. destruct (only_fields _ _ H) as (? & ? & ?).
  apply negb_true_iff in Hi. unfold parked in Hp. apply bool_decide_eq_true in Hp. by apply ctx_eq.
Qed.

Lemma when_queue_some q ls ls' : when_queue q ls = Some ls' -> q ∈ Q /\ ls' = ls.
Proof using Type. unfold when_queue. case_decide; [|done]. intros [= <-]. done. Qed.
Lemma when_file_some f ls : when_file f = Some ls -> f ∈ F /\ ls = [].
Proof using Type. unfold when_file. case_decide; [|done]. intros [= <-]. done. Qed.

Lemma pipes_ok_file f p s : pipes_ok s -> pipes_ok (set_info f NULL s) /\
  (forall x, s_pipes s !! p = Some x -> forall x', buffer x' = buffer x -> pipes_ok (set_pipe p x' s)).
Proof using Type.
  intros [H1 H2]. split; [split; [done|]|].
  - intros f' Hf'. simpl. destruct (decide (f' = f)) as [->|]; [rewrite lookup_insert_eq|rewrite lookup_insert_ne by done].
    + exists NULL. auto.
    + auto.
  - intros x Hx x' Hb. split; simpl.
    + intros p' x1. destruct (decide (p' = p)) as [->|]; [rewrite lookup_insert_eq|rewrite lookup_insert_ne by done].
      * intros [= <-]. rewrite Hb. eauto.
      * eauto.
    + intros f' Hf'. destruct (H2 f' Hf') as (p' & ? & [?|Hs]); exists p'; split; auto. right.
      destruct (decide (p' = p)) as [->|]; [rewrite lookup_insert_eq|rewrite lookup_insert_ne by done]; eauto.
Qed.

Lemma file_pipe_buffer f s p x :
  pipes_ok s -> file_pipe f s = Done (Some (p, x)) -> buffer x ∈ Q.
Proof using Type.
  intros [H1 _]. unfold file_pipe. destruct (s_info s !! f) as [p'|]; [|done].
  destruct (p' =? NULL); [done|]. destruct (s_pipes s !! p') as [x'|] eqn:E; [|done].
  destruct (Z.eqb_spec (buffer x') NULL); [done|]. intros [= <- <-]. by destruct (H1 _ _ E).
Qed.

Lemma chks_one i x : chk1 i x = Some x -> c_gone x = false -> c_park x <> PBack -> chks [i] x = Some x.
Proof using Type. intros H ? ?. by rewrite (chks_run G bact_lock i [] x x). Qed.

Lemma chks_free a sl : bact_lock a = Some [] -> chks [IAct a] (free_ctx sl false) = Some (free_ctx sl false).
Proof using Type. intros H. apply chks_one; [|done|done]. cbn [SynchType.chk1]. by rewrite H. Qed.

Lemma run_bact_ok t a s called s' x y :
  pipes_ok s -> run_bact t a s = Done (called, s') -> chk1 (IAct a) x = Some y -> c_gone x = false ->
  pipes_ok s' /\ chks called x = Some y /\ rtok called = [] /\ ctok called = [].
Proof using HG HQ.
  intros HC Hrun Hchk Hg. destruct (act_ctx a x y Hchk Hg) as (ls & sl & Hls & -> & ->).
  destruct a; cbn [bact_lock] in Hls; first
    [apply when_queue_some in Hls as [Hq ->] | apply when_file_some in Hls as [Hf ->]];
    cbn [run_bact] in Hrun.
  - unfold with_bbq in Hrun. destruct (s_bbqs s !! q) as [b|]; [|done].
    destruct (bbq_is_full b); [|by simplify_eq]. apply done_inj in Hrun as [-> ->]. split; [done|].
    rewrite rtok_wait, ctok_wait. split; [|done]. cbn [length]. rewrite chks_wait_queue by auto. by apply chks_one.
  - unfold with_bbq in Hrun. destruct (s_bbqs s !! q) as [b|]; [|done].
    destruct (bbq_put item b); by simplify_eq.
  - unfold with_bbq in Hrun. destruct (s_bbqs s !! q) as [b|]; [|done].
    destruct (bbq_is_empty b); [|by simplify_eq]. apply done_inj in Hrun as [-> ->]. split; [done|].
    rewrite rtok_wait, ctok_wait. split; [|done]. cbn [length]. rewrite chks_wait_queue by auto. by apply chks_one.
  - unfold with_bbq in Hrun. destruct (s_bbqs s !! q) as [b|]; [|done].
    destruct (bbq_get b) as [[? ?]|]; by simplify_eq.
  - destruct (file_pipe f s) as [[[p xp]|]|] eqn:E; simplify_eq; [|done].
    pose proof (file_pipe_buffer _ _ _ _ HC E) as Hb.
    destruct (read_file xp =? NULL); simplify_eq; [done|]. split; [done|]. split; [|done].
    apply chks_free. simpl. unfold when_queue. by rewrite decide_True.
  - destruct buf as [|b buf]; [by simplify_eq|]. apply done_inj in Hrun as [-> ->]. split; [done|]. split; [|done].
    rewrite (chks_insert q _ sl) by done. apply chks_free. simpl. unfold when_queue. by rewrite decide_True.
  - destruct (file_pipe f s) as [[[p xp]|]|] eqn:E; simplify_eq; [|done].
    pose proof (file_pipe_buffer _ _ _ _ HC E) as Hb. split; [done|]. split; [|done].
    apply chks_free. simpl. unfold when_queue. by rewrite decide_True.
  - unfold with_bbq in Hrun. destruct (s_bbqs s !! q) as [b|]; [|done].
    destruct ((n <? count) && (block || negb (bbq_is_empty b))); [|by simplify_eq]. apply done_inj in Hrun as [-> ->].
    split; [done|]. split; [|done]. rewrite (chks_remove q sl) by done.
    apply chks_free. simpl. unfold when_queue. by rewrite decide_True.
  - simplify_eq. split; [done|]. split; [|done]. apply chks_free. simpl. unfold when_queue. by rewrite decide_True.
  - destruct (s_info s !! f) as [p|]; [|done]. destruct (p =? NULL); simplify_eq; [done|].
    destruct (s_pipes s !! p) as [xp|] eqn:E; [|done].
    assert (forall x', buffer x' = buffer xp -> pipes_ok (set_info f NULL (set_pipe p x' s))) as Hcl.
    { intros x' Hb. apply (pipes_ok_file f p). by apply (proj2 (pipes_ok_file f p s HC) xp). }
    destruct (f =? read_file xp); simplify_eq; [by split; [apply Hcl|]|].
    destruct (f =? write_file xp); simplify_eq; [by split; [apply Hcl|]|done].
Qed.

(** ** Tests and updates

    In the code of a thread an update comes right behind the test of the same
    buffer. *)

Abbreviation code := (list (instr bact)).

Definition scan1 (i : instr bact) : option bact :=
  match i with IAct (InsertLoop q x) => Some (InsertLoop q x) | IAct (RemoveLoop q) => Some (RemoveLoop q) | _ => None end.

Definition fits (pv : option bact) (i : instr bact) : bool :=
  match i with
  | IAct (InsertPut q _) => match pv with Some (InsertLoop q' _) => q' =? q | _ => false end
  | IAct (RemoveGet q) => match pv with Some (RemoveLoop q') => q' =? q | _ => false end
  | _ => true
  end.

Fixpoint paired (pv : option bact) (ks : code) : bool :=
  match ks with [] => true | i :: r => fits pv i && paired (scan1 i) r end.

Definition scan (pv : option bact) (ks : code) : option bact :=
  match last ks with Some i => scan1 i | None => pv end.

Lemma paired_app pv ks1 ks2 : paired pv (ks1 ++ ks2) = paired pv ks1 && paired (scan pv ks1) ks2.
Proof using Type.
  revert pv. induction ks1 as [|i ks1 IH]; intros pv; simpl; [done|].
  rewrite IH, andb_assoc. do 2 f_equal. unfold scan. rewrite last_cons.
  by destruct (last ks1).
Qed.

Lemma paired_none pv ks : paired None ks = true -> paired pv ks = true.
Proof using Type.
  destruct ks as [|i r]; [done|]. simpl. rewrite !andb_true_iff. intros [H ?]. split; [|done].
  destruct i; try done. by destruct a.
Qed.

Lemma paired_no_act pv ks rest :
  forallb (fun j => negb (is_act j)) ks = true -> paired None rest = true -> paired pv (ks ++ rest) = true.
Proof using Type.
  revert pv. induction ks as [|i ks IH]; intros pv; simpl; [intros; by apply paired_none|].
  intros [Hi Hks]%andb_true_iff Hr. destruct i; try done; simpl; by apply IH.
Qed.

Definition bbq_is (s : bstate) (q : Z) (P : BBQ -> Prop) : Prop := exists b, s_bbqs s !! q = Some b /\ P b.

(** The first instruction is no update, or one whose test holds. *)
Definition arm (m : machine bact bstate) (t : Z) (i : instr bact) : Prop :=
  match i with
  | IAct (InsertPut q _) => running (cpus m) t /\ bbq_is (client m) q bbq_room
  | IAct (RemoveGet q) => running (cpus m) t /\ bbq_is (client m) q bbq_some
  | _ => True
  end.

Definition code_ok (m : machine bact bstate) (t : Z) (ks : code) : Prop :=
  match ks with [] => True | i :: r => arm m t i /\ paired (scan1 i) r = true end.

Definition armed (m : machine bact bstate) : Prop :=
  forall t th, threads m !! t = Some th -> code_ok m t (k th).

Lemma code_ok_paired m t ks : paired None ks = true -> code_ok m t ks.
Proof using Type.
  destruct ks as [|i r]; [done|]. simpl. intros [Hf Hp]%andb_true_iff. split; [|done].
  destruct i; try done. by destruct a.
Qed.

(** The buffer an action updates. *)
Definition upd_queue (a : bact) : option Z :=
  match a with InsertPut q _ | RemoveGet q => Some q | _ => None end.

Lemma run_bact_frame t a s called s' q :
  run_bact t a s = Done (called, s') -> upd_queue a <> Some q -> s_bbqs s' !! q = s_bbqs s !! q.
Proof using Type.
  intros H Hq. destruct a; cbn [run_bact] in H; unfold with_bbq in H;
    repeat (match type of H with
            | context [match ?e with _ => _ end] => destruct e eqn:?
            end; try discriminate H); apply done_inj in H as [-> ->]; try done;
    simpl in *; rewrite lookup_insert_ne; congruence.
Qed.

Section step.
Context {m : machine bact bstate} {X : Z -> ctx} {lc : Z -> place} {ow : Z -> option Z}.
Context {c : Z} {p : cpu} {th : thread bact} {i : instr bact} {rest : code}.
Context (HI : inv (C := bstate) G bact_lock m X lc ow) (HJ : armed m).
Context (Hp : cpus m !! c = Some p) (Hth : threads m !! cur p = Some th) (Hk : k th = i :: rest).

Lemma head_arm : arm m (cur p) i /\ paired (scan1 i) rest = true.
Proof using HJ Hth Hk. pose proof (HJ _ _ Hth) as H. by rewrite Hk in H. Qed.

(** What the context of the thread is at an action. *)
Lemma act_own a : i = IAct a -> exists ls, bact_lock a = Some ls /\ c_own (X (cur p)) = ls.
Proof using HI Hp Hth Hk HG.
  intros ->. destruct (head_ok G bact_lock HI Hp Hth Hk) as (y & Hy & _ & _ & Hcw).
  destruct (act_ctx _ _ _ Hy (cw_gone _ _ Hcw)) as (ls & sl & ? & E & _). exists ls. by rewrite E.
Qed.

(** Only one thread can be at an update of a buffer, or have its lock. *)
Lemma update_alone a u thu a' r' :
  i = IAct a -> upd_queue a <> None -> threads m !! u = Some thu -> running (cpus m) u ->
  k thu = IAct a' :: r' -> upd_queue a' = upd_queue a -> u = cur p.
Proof using HI Hp Hth Hk HG.
  intros Hi Ha Hu (c' & q & Hq & <-) Hku E.
  destruct (act_own a Hi) as (ls & Hls & Hown).
  destruct (head_ok G bact_lock HI Hq Hu Hku) as (y & Hy & _ & _ & Hcw).
  destruct (act_ctx _ _ _ Hy (cw_gone _ _ Hcw)) as (ls' & sl & Hls' & E' & _).
  assert (exists l, l ∈ c_own (X (cur p)) /\ l ∈ c_own (X (cur q))) as (l & H1 & H2).
  { rewrite Hown, E'. simpl. destruct a; try done; destruct a'; simpl in *; try done;
      apply when_queue_some in Hls as [_ ->]; apply when_queue_some in Hls' as [_ ->];
      injection E as ->; eexists; split; by left. }
  assert (c = c') as <- by (exact (cpu_unique _ _ _ _ _ _ _ _ _ _ (i_lock _ _ _ _ _ _ HI) Hp Hq H1 H2)). congruence.
Qed.

Context {called : code} {m' : machine bact bstate}.
Context (Hex : exec true run_bact c (cur p) i m = Done (called, m')).

Lemma armed_others u thu th0 :
  u <> cur p -> threads m' !! u = Some thu -> threads m !! u = Some th0 -> k thu = k th0 -> code_ok m' u (k thu).
Proof using HI HJ Hp Hth Hk Hex HG.
  intros Hne Hu' Hu Ek. pose proof (HJ u th0 Hu) as Hok. rewrite Ek. unfold code_ok in *.
  destruct (k th0) as [|j r] eqn:Ej; [done|]. destruct Hok as [Harm Hpr]. split; [|done].
  destruct (exec_frame _ _ _ _ _ _ _ Hp Hex) as (_ & Hrun & _).
  assert (forall q, s_bbqs (client m') !! q <> s_bbqs (client m) !! q ->
    exists a, i = IAct a /\ upd_queue a = Some q) as Hch.
  { intros q Hd. apply exec_client in Hex. destruct i as [| | | | | | | | | | | | | | | | | | | | | | | | | |a];
      try (by rewrite Hex in Hd). exists a. split; [done|].
    destruct (decide (upd_queue a = Some q)) as [|Hn]; [done|]. destruct Hd. by eapply run_bact_frame. }
  destruct j as [| | | | | | | | | | | | | | | | | | | | | | | | | |a']; try done.
  assert (forall q P, upd_queue a' = Some q -> running (cpus m) u -> bbq_is (client m) q P -> bbq_is (client m') q P) as Hst.
  { intros q P Hq Hr (b & Hb & HP). exists b. split; [|done].
    destruct (decide (s_bbqs (client m') !! q = s_bbqs (client m) !! q)) as [->|Hd]; [done|].
    destruct (Hch q Hd) as (a & Hi & Ha). destruct Hne. eapply update_alone; eauto; congruence. }
  destruct a'; try done; destruct Harm as [Hr Hb]; split; eauto.
Qed.

Context (HB : forall q b, s_bbqs (client m) !! q = Some b -> q ∈ Q -> bbq_ok b).

(** Behind the test of a loop that is left comes the update it guards. *)
Lemma armed_behind a :
  i = IAct a -> called = [] -> client m' = client m ->
  (forall q x, a = InsertLoop q x -> bbq_is (client m) q bbq_room) ->
  (forall q, a = RemoveLoop q -> bbq_is (client m) q bbq_some) ->
  code_ok m' (cur p) rest.
Proof using HI HJ Hp Hth Hk Hex HG.
  intros Hi Hc Hcl Hin Hre. destruct head_arm as [_ Hpr].
  destruct (exec_frame _ _ _ _ _ _ _ Hp Hex) as (_ & _ & _ & Hself).
  assert (running (cpus m') (cur p)) as Hr by (apply Hself; [by rewrite Hi|by exists c, p]).
  destruct rest as [|j r]; [done|]. simpl in Hpr. apply andb_true_iff in Hpr as [Hf Hpr].
  split; [|done]. rewrite Hi in Hf.
  destruct j as [| | | | | | | | | | | | | | | | | | | | | | | | | |aj]; try done.
  destruct aj; try done; simpl in Hf; destruct a; simpl in Hf; try done; apply Z.eqb_eq in Hf as <-;
    (split; [done|]); rewrite Hcl; eauto.
Qed.

Lemma wait_no_act cv l ks rest' :
  paired None (ks ++ rest') = true -> paired None ((condvar_wait true cv l ++ ks) ++ rest') = true.
Proof using Type.
  intros H. rewrite <- app_assoc. apply paired_no_act; [|done].
  unfold condvar_wait, sched_sched. by destruct (l =? NULL).
Qed.

Lemma armed_self : code_ok m' (cur p) (called ++ rest).
Proof using HI HJ Hp Hth Hk Hex HG HB.
  pose proof head_arm as [Harm Hpr]. pose proof (exec_frame _ _ _ _ _ _ _ Hp Hex) as (_ & _ & Hna & _).
  destruct (is_act i) eqn:Ea.
  2: { apply code_ok_paired, paired_no_act; [by apply Hna|]. clear -Hpr Ea. by destruct i. }
  assert (exists a, i = IAct a) as [a Hi] by (clear -Ea; destruct i; try done; eauto).
  destruct (act_own a Hi) as (ls & Hls & _).
  pose proof (exec_client _ _ _ _ _ _ _ Hex) as Hrun. rewrite Hi in Hrun, Hpr. cbn beta iota in Hrun.
  destruct a as [q item|q item|q|q| | | | | | ]; cbn [run_bact] in Hrun; unfold with_bbq in Hrun.
  - destruct (s_bbqs (client m) !! q) as [b|] eqn:Eb; [|done]. apply when_queue_some in Hls as [Hq _].
    destruct (bbq_is_full b) eqn:Ef; apply done_inj in Hrun as [Hc Hcl].
    + rewrite Hc. apply code_ok_paired. by apply wait_no_act.
    + rewrite Hc. simpl. eapply armed_behind; eauto; [|done]. intros ? ? [= <- <-]. exists b. split; [done|].
      by apply bbq_is_full_spec; [apply (HB q)|].
  - destruct (s_bbqs (client m) !! q) as [b|] eqn:Eb; [|done].
    destruct (bbq_put item b); [|done]. apply done_inj in Hrun as [-> _]. by apply code_ok_paired.
  - destruct (s_bbqs (client m) !! q) as [b|] eqn:Eb; [|done]. apply when_queue_some in Hls as [Hq _].
    destruct (bbq_is_empty b) eqn:Ef; apply done_inj in Hrun as [Hc Hcl].
    + rewrite Hc. apply code_ok_paired. by apply wait_no_act.
    + rewrite Hc. simpl. eapply armed_behind; eauto; [done|]. intros ? [= <-]. exists b. split; [done|].
      by apply bbq_is_empty_spec; [apply (HB q)|].
  - destruct (s_bbqs (client m) !! q) as [b|] eqn:Eb; [|done].
    destruct (bbq_get b) as [[? ?]|]; [|done]. apply done_inj in Hrun as [-> _]. by apply code_ok_paired.
  - destruct (file_pipe f (client m)) as [[[? ?]|]|]; [destruct (read_file _ =? NULL)| |done];
      apply done_inj in Hrun as [-> _]; by apply code_ok_paired.
  - destruct buf; apply done_inj in Hrun as [-> _]; apply code_ok_paired; [done|].
    rewrite <- app_assoc. by simpl; rewrite Z.eqb_refl.
  - destruct (file_pipe f (client m)) as [[[? ?]|]|]; [| |done]; apply done_inj in Hrun as [-> _]; by apply code_ok_paired.
  - destruct (s_bbqs (client m) !! q) as [b|] eqn:Eb; [|done].
    destruct ((n <? count) && _); apply done_inj in Hrun as [-> _]; apply code_ok_paired; [|done].
    rewrite <- app_assoc. by simpl; rewrite Z.eqb_refl.
  - apply done_inj in Hrun as [-> _]. by apply code_ok_paired.
  - destruct (s_info (client m) !! f) as [pp|]; [|done]. destruct (pp =? NULL); [apply done_inj in Hrun as [-> _]; by apply code_ok_paired|].
    destruct (s_pipes (client m) !! pp) as [xp|]; [|done].
    destruct (f =? read_file xp); [apply done_inj in Hrun as [-> _]; by apply code_ok_paired|].
    destruct (f =? write_file xp); apply done_inj in Hrun as [-> _]; by apply code_ok_paired.
Qed.
End step.
End client.

(** * The bounded buffers and pipes are queues under every schedule *)

Section spec.
Context (G : env) (HG : env_ok G) (Q F : gset Z).
Context (HQ : forall q, q ∈ Q -> e_cv G !! item_added q = Some (bbq_lock q) /\
                                 e_cv G !! item_removed q = Some (bbq_lock q)).
Abbreviation mach := (machine bact bstate).
Abbreviation lock_of := (bact_lock Q F).
Abbreviation STEP := (step true run_bact).

(** At most [n] items were inserted into each buffer. *)
Definition bbqs_ok (n : Z) (s : bstate) : Prop :=
  forall q, q ∈ Q -> bbq_is s q (fun b => bbq_ok b /\ in_count b <= n).

Definition binv (n : Z) (m : mach) : Prop :=
  safe G lock_of (pipes_ok Q F) m /\ armed m /\ bbqs_ok n (client m).

Lemma bbqs_ok_mono n n' s : n <= n' -> bbqs_ok n s -> bbqs_ok n' s.
Proof using Type. intros Hn H q Hq. destruct (H q Hq) as (b & ? & ? & ?). exists b. split; [done|]. split; [done|lia]. Qed.

Lemma binv_frame n (m m' : mach) :
  safe G lock_of (pipes_ok Q F) m' -> armed m' -> client m' = client m -> bbqs_ok n (client m) -> binv (n + 1) m'.
Proof using Type. intros ? ? E H. split; [done|]. split; [done|]. rewrite E. eapply bbqs_ok_mono; [|done]. lia. Qed.

(** An action of a thread in a good state succeeds and keeps the buffers good. *)
Lemma act_ok n m c p th a rest X lc ow :
  inv G lock_of m X lc ow -> armed m -> pipes_ok Q F (client m) -> bbqs_ok n (client m) -> n < 2 ^ 31 ->
  cpus m !! c = Some p -> threads m !! cur p = Some th -> k th = IAct a :: rest ->
  exists called s', run_bact (cur p) a (client m) = Done (called, s') /\ bbqs_ok (n + 1) s'.
Proof using HG.
  intros HI HJ HC HB Hn Hp Hth Hk.
  destruct (act_own G HG Q F HI Hp Hth Hk a eq_refl) as (ls & Hls & _).
  pose proof (HJ _ _ Hth) as Hcode. rewrite Hk in Hcode. destruct Hcode as [Harm _].
  assert (bbqs_ok (n + 1) (client m)) as HB1 by (eapply bbqs_ok_mono; [|done]; lia).
  assert (forall q b, q ∈ Q -> bbq_ok b -> in_count b <= n + 1 -> bbqs_ok (n + 1) (set_bbq q b (client m))) as Hset.
  { intros q b Hq Hb Hc q' Hq'. destruct (decide (q' = q)) as [->|Hne].
    - exists b. split; [apply lookup_insert_eq|done].
    - destruct (HB1 q' Hq') as (b' & ? & ?). exists b'. split; [|done]. simpl. by rewrite lookup_insert_ne. }
  assert (forall f, f ∈ F -> exists o, file_pipe f (client m) = Done o) as Hfile.
  { intros f Hf. destruct (proj2 HC f Hf) as (pp & Hpp & Hor). unfold file_pipe. rewrite Hpp.
    destruct (Z.eqb_spec pp NULL); [eauto|]. destruct Hor as [?|[x Hx]]; [done|]. rewrite Hx. destruct (buffer x =? NULL); eauto. }
  destruct a; cbn [bact_lock] in Hls; cbn [run_bact]; unfold with_bbq; first
    [apply (when_queue_some Q) in Hls as [Hq ->] | apply (when_file_some F) in Hls as [Hf ->]].
  - destruct (HB q Hq) as (b & -> & _). destruct (bbq_is_full b); eauto.
  - destruct (HB q Hq) as (b & Hb & Hok & Hc). destruct Harm as [_ (b' & Hb' & Hroom)].
    assert (b' = b) as -> by congruence. rewrite Hb.
    destruct (bbq_put_ok item b Hok Hroom) as (b1 & -> & Hok1 & Hin1 & _); [lia|].
    eexists _, _. split; [done|]. apply Hset; [done|done|]. unfold in_count in *. rewrite Hin1, length_app. simpl. lia.
  - destruct (HB q Hq) as (b & -> & _). destruct (bbq_is_empty b); eauto.
  - destruct (HB q Hq) as (b & Hb & Hok & Hc). destruct Harm as [_ (b' & Hb' & Hsome)].
    assert (b' = b) as -> by congruence. rewrite Hb.
    destruct (bbq_get_ok b Hok Hsome) as (item & b1 & -> & Hok1 & Hin1 & _); [lia|].
    eexists _, _. split; [done|]. apply Hset; [done|done|]. unfold in_count in *. rewrite Hin1. lia.
  - destruct (Hfile f Hf) as [[[? ?]|] ->]; [destruct (read_file _ =? NULL)|]; eauto.
  - destruct buf; eauto.
  - destruct (Hfile f Hf) as [[[? ?]|] ->]; eauto.
  - destruct (HB q Hq) as (b & -> & _). destruct ((n0 <? count) && _); eauto.
  - eauto.
  - destruct (proj2 HC f Hf) as (pp & Hpp & Hor). rewrite Hpp.
    destruct (Z.eqb_spec pp NULL); [eauto|]. destruct Hor as [?|[x Hx]]; [done|]. rewrite Hx.
    destruct (f =? read_file x); [eauto|]. destruct (f =? write_file x); eauto.
Qed.

Lemma armed_step c p th i rest m X lc ow called m' n :
  inv G lock_of m X lc ow -> armed m -> bbqs_ok n (client m) ->
  cpus m !! c = Some p -> threads m !! cur p = Some th -> k th = i :: rest ->
  exec true run_bact c (cur p) i m = Done (called, m') ->
  armed (upd_thread (cur p) (set_k (called ++ rest)) m').
Proof using HG.
  intros HI HJ HB Hp Hth Hk Hex u thu Hu. simpl in Hu.
  destruct (exec_frame _ _ _ _ _ _ _ Hp Hex) as (Hcode & _).
  destruct (decide (u = cur p)) as [->|Hne].
  - rewrite lookup_alter_eq in Hu. destruct (threads m' !! cur p); [|done]. simpl in Hu. injection Hu as <-. simpl.
    eapply (armed_self G HG Q F HI HJ Hp Hth Hk Hex). intros q b Hb Hq. destruct (HB q Hq) as (b' & ? & ? & _). congruence.
  - rewrite lookup_alter_ne in Hu by done. destruct (Hcode u thu Hu) as (th0 & Hu0 & Ek).
    by eapply (armed_others G HG Q F HI HJ Hp Hth Hk Hex).
Qed.

(** The step theorem: no instruction faults. *)
Lemma binv_step n e m : binv n m -> n < 2 ^ 31 -> exists m', STEP e m = Done m' /\ binv (n + 1) m'.
Proof using HG HQ.
  intros (Hs & HJ & HB) Hn. pose proof Hs as (HC & X & lc & ow & HI).
  pose proof (step_safe G lock_of HG run_bact (pipes_ok Q F) (run_bact_ok G HG Q F HQ) e m Hs) as Hstep.
  assert (binv (n + 1) m) as Hstay by (by apply (binv_frame n m)).
  destruct e as [c|c]; simpl in *; unfold cpu_step, timer_step in *;
    (destruct (cpus m !! c) as [p|] eqn:Hp; [|by exists m]);
    (destruct (to_cpu _ _ _ _ _ _ (i_type _ _ _ _ _ _ HI) c p Hp) as [th Hth]).
  - rewrite Hth in *. destruct (k th) as [|i rest] eqn:Hk; [by exists m|].
    assert (exists called m', exec true run_bact c (cur p) i m = Done (called, m') /\ bbqs_ok (n + 1) (client m'))
      as (called & m' & Hex & HB').
    { destruct (exec_ok G lock_of HG run_bact (pipes_ok Q F) (run_bact_ok G HG Q F HQ) HI Hp Hth i rest HC Hk)
        as [Hg|(a & f & -> & Hf)].
      - destruct (exec true run_bact c (cur p) i m) as [[called m']|] eqn:Hex; [|done].
        exists called, m'. split; [done|]. pose proof (exec_client _ _ _ _ _ _ _ Hex) as Hcl.
        destruct (is_act i) eqn:Ea.
        + destruct i; try done. destruct (act_ok n m c p th a rest X lc ow) as (? & ? & Hrun & ?); auto.
          cbn beta iota in Hcl. rewrite Hcl in Hrun. by simplify_eq.
        + assert (client m' = client m) as -> by (by destruct i). eapply bbqs_ok_mono; [|done]. lia.
      - destruct (act_ok n m c p th a rest X lc ow) as (? & ? & Hrun & ?); auto. congruence. }
    rewrite Hex in *. eexists. split; [done|]. split; [done|]. split; [|done]. by eapply armed_step.
  - destruct (c_if p) eqn:Eif; [|by exists m]. eexists. split; [done|]. apply (binv_frame n m); auto.
    intros u thu Hu. simpl in Hu. assert (running (<[c := set_if false p]> (cpus m)) u <-> running (cpus m) u) as Hrun.
    { by apply (cpu_upd_running _ _ c p (set_if false p)), cpu_upd_insert. }
    destruct (decide (u = cur p)) as [->|Hne].
    + rewrite lookup_alter_eq, Hth in Hu. simpl in Hu. injection Hu as <-. cbn [k set_k].
      apply code_ok_paired. simpl.
      pose proof (HJ _ _ Hth) as Hcode. destruct (k th) as [|i r] eqn:Hk; [done|]. destruct Hcode as [Harm Hpr].
      simpl. apply andb_true_iff. split; [|done].
      destruct (lo_cpu _ _ _ _ _ (i_lock _ _ _ _ _ _ HI) c p Hp) as [_ Hd]. specialize (Hd Eif).
      destruct i as [| | | | | | | | | | | | | | | | | | | | | | | | | |a]; try done.
      destruct (head_ok G lock_of HI Hp Hth Hk) as (y & Hy & _ & _ & Hcw).
      destruct (act_ctx _ _ _ _ _ _ Hy (cw_gone _ _ Hcw)) as (ls & sl & Hls & E & _). rewrite E in Hd. simpl in Hd.
      destruct a; try done; apply (when_queue_some Q) in Hls as [_ ->]; done.
    + rewrite lookup_alter_ne in Hu by done. pose proof (HJ _ _ Hu) as Hcode. unfold code_ok, arm in *. simpl.
      destruct (k thu) as [|i r]; [done|]. destruct i; try done. destruct a; rewrite ?Hrun; done.
Qed.
End spec.

(** * What the threads put into the buffers and got out of them *)

(** The entries of a log that belong to a thread, and the items of a buffer. *)
Definition by_thread (t : Z) (log : list (Z * (Z * Z))) : list (Z * Z) := (filter (fun e => e.1 = t) log).*2.
Definition of_queue (q : Z) (log : list (Z * (Z * Z))) : list Z := (filter (fun e => e.1 = q) log.*2).*2.

Lemma by_thread_app t l1 l2 : by_thread t (l1 ++ l2) = by_thread t l1 ++ by_thread t l2.
Proof. unfold by_thread. by rewrite filter_app, fmap_app. Qed.
Lemma of_queue_app q l1 l2 : of_queue q (l1 ++ l2) = of_queue q l1 ++ of_queue q l2.
Proof. unfold of_queue. by rewrite fmap_app, filter_app, fmap_app. Qed.

Lemma by_thread_one t u x : by_thread t [(u, x)] = if decide (u = t) then [x] else [].
Proof. unfold by_thread. rewrite filter_cons. simpl. by case_decide. Qed.
Lemma of_queue_one q t q' x : of_queue q [(t, (q', x))] = if decide (q' = q) then [x] else [].
Proof. unfold of_queue. simpl. rewrite filter_cons. simpl. by case_decide. Qed.

(** The buffer behind a file, from the state the threads start in. *)
Definition pipe_buffer (s0 : bstate) (f : Z) : option Z := p ← s_info s0 !! f; buffer <$> s_pipes s0 !! p.

(** What an action still to be run puts into the buffers: [pipe_write] writes
    its bytes, all of them and in order, or none when the pipe is closed. *)
Definition writes (s0 : bstate) (a : bact) (l : list (Z * Z)) : Prop :=
  match a with
  | InsertPut q x => l = [(q, x)]
  | PipeWriteLoop q buf _ => l = pair q <$> buf
  | PipeWrite f buf => l = [] \/ exists q, pipe_buffer s0 f = Some q /\ l = pair q <$> buf
  | _ => l = []
  end.

(** What it takes out of them: [pipe_read] at most [count] items of its pipe. *)
Definition up_to (q n : Z) (l : list (Z * Z)) : Prop :=
  Forall (fun e => e.1 = q) l /\ Z.of_nat (length l) <= Z.max 0 n.

Definition reads (s0 : bstate) (a : bact) (l : list (Z * Z)) : Prop :=
  match a with
  | RemoveGet q => exists x, l = [(q, x)]
  | PipeReadLoop q count n _ => up_to q (count - n) l
  | PipeReadStore q count n _ => up_to q (count - (n + 1)) l
  | PipeRead f count => l = [] \/ exists q, pipe_buffer s0 f = Some q /\ up_to q count l
  | _ => l = []
  end.

(** What the actions of a piece of code do, one after the other. *)
Fixpoint spells (e : bact -> list (Z * Z) -> Prop) (ks : code) (l : list (Z * Z)) : Prop :=
  match ks with
  | [] => l = []
  | IAct a :: r => exists l1 l2, l = l1 ++ l2 /\ e a l1 /\ spells e r l2
  | _ :: r => spells e r l
  end.

(** Every item taken out is stored next, as [pipe_read] does: [e] tells whether
    one is in the hands of the thread. *)
Fixpoint stores (e : bool) (ks : code) : bool :=
  match ks with
  | [] => negb e
  | IAct (RemoveGet _) :: r => negb e && stores true r
  | IAct (PipeReadStore _ _ _ _) :: r => e && stores false r
  | IAct _ :: r => negb e && stores false r
  | _ :: r => stores e r
  end.

Abbreviation no_acts := (forallb (fun j : instr bact => negb (is_act j))).

Lemma spells_no_acts e ks r l : no_acts ks = true -> spells e (ks ++ r) l <-> spells e r l.
Proof. induction ks as [|i ks IH]; [done|]. simpl. intros [Hi Hk]%andb_true_iff. destruct i; try done; simpl; by apply IH. Qed.

Lemma stores_no_acts e ks r : no_acts ks = true -> stores e (ks ++ r) = stores e r.
Proof. induction ks as [|i ks IH]; [done|]. simpl. intros [Hi Hk]%andb_true_iff. destruct i; try done; simpl; by apply IH. Qed.

Lemma spells_app e k1 k2 l : spells e (k1 ++ k2) l <-> exists l1 l2, l = l1 ++ l2 /\ spells e k1 l1 /\ spells e k2 l2.
Proof.
  revert l. induction k1 as [|i k1 IH]; intros l; simpl.
  - split; [intros; by exists [], l|]. by intros (l1 & l2 & -> & -> & ?).
  - destruct i; try apply IH. setoid_rewrite IH. split.
    + intros (l1 & l2 & -> & ? & l3 & l4 & -> & ? & ?). exists (l1 ++ l3), l4. rewrite app_assoc. naive_solver.
    + intros (l1 & l2 & -> & (l3 & l4 & -> & ? & ?) & ?). exists l3, (l4 ++ l2). rewrite app_assoc. naive_solver.
Qed.

Lemma spells_some (e : bact -> list (Z * Z) -> Prop) ks : (forall a, exists l, e a l) -> exists l, spells e ks l.
Proof.
  intros He. induction ks as [|i ks [l Hl]]; [by exists []|].
  destruct i as [| | | | | | | | | | | | | | | | | | | | | | | | | |a]; try (by exists l).
  destruct (He a) as [l1 H1]. by exists (l1 ++ l), l1, l.
Qed.

Lemma writes_some s0 a : exists l, writes s0 a l.
Proof. destruct a; simpl; by eauto using or_introl. Qed.
Lemma reads_some s0 a : exists l, reads s0 a l.
Proof.
  assert (forall q n, up_to q n []) as Hu by (split; [constructor|simpl; lia]).
  destruct a; simpl; try (by exists []); [by eexists [(q, 0)], 0|by exists []; left].
Qed.

(** The files keep their pipes and the pipes their buffers. *)
Definition same_pipes (s0 s : bstate) : Prop :=
  (forall f p, s_info s !! f = Some p -> p = NULL \/ s_info s0 !! f = Some p) /\
  (forall p, buffer <$> s_pipes s !! p = buffer <$> s_pipes s0 !! p).

Lemma same_pipes_file s0 s f p x : same_pipes s0 s -> file_pipe f s = Done (Some (p, x)) -> pipe_buffer s0 f = Some (buffer x).
Proof.
  intros [Hi Hb]. unfold file_pipe, pipe_buffer. destruct (s_info s !! f) as [p'|] eqn:E; [|done].
  destruct (Z.eqb_spec p' NULL); [done|]. destruct (Hi f p' E) as [?|Hp]; [done|]. rewrite Hp. cbn [mbind option_bind].
  rewrite <- Hb. destruct (s_pipes s !! p') as [y|]; [|done]. destruct (buffer y =? NULL); [done|]. intros [= <- <-]. done.
Qed.

(** The cases of an action that returned. *)
Ltac act_cases a H :=
  destruct a; cbn [run_bact] in H; unfold with_bbq in H;
  repeat (match type of H with
          | context [match ?e with _ => _ end] => destruct e eqn:?
          end; try discriminate H); apply done_inj in H as [-> ->].

Lemma spells_wait e cv l0 ks l : spells e (condvar_wait true cv l0 ++ ks) l <-> spells e ks l.
Proof. apply spells_no_acts. unfold condvar_wait, sched_sched. by destruct (l0 =? NULL). Qed.
Lemma stores_wait e cv l0 ks : stores e (condvar_wait true cv l0 ++ ks) = stores e ks.
Proof. apply stores_no_acts. unfold condvar_wait, sched_sched. by destruct (l0 =? NULL). Qed.

Lemma stores_behind e ks r : no_acts r = true -> stores e (ks ++ r) = stores e ks.
Proof.
  intros Hr. revert e. induction ks as [|i ks IH]; intros e; simpl.
  - pose proof (stores_no_acts e r [] Hr) as H. by rewrite app_nil_r in H.
  - destruct i; try apply IH. by destruct a; rewrite IH.
Qed.

Section act.
Context {t : Z} {a : bact} {s : bstate} {called : code} {s' : bstate}.
Context (Hrun : run_bact t a s = Done (called, s')).

Lemma act_same_pipes s0 : same_pipes s0 s -> same_pipes s0 s'.
Proof using Hrun.
  intros [Hi Hb]. act_cases a Hrun; try done; split; simpl.
  1, 3: intros f' p'; rewrite lookup_insert; case_decide; [intros [= <-]; by left|by apply Hi].
  all: intros p'; rewrite lookup_insert; case_decide; [|by apply Hb]; subst;
    match goal with E : s_pipes s !! _ = Some _ |- _ => by rewrite <- Hb, E end.
Qed.

(** What an action adds to the logs is what it was to do, up to the code it calls. *)
Lemma act_logs s0 : same_pipes s0 s -> exists oi oo,
  s_ins s' = s_ins s ++ (pair t <$> oi) /\ s_outs s' = s_outs s ++ (pair t <$> oo) /\
  (forall l, spells (writes s0) called l -> writes s0 a (oi ++ l)) /\
  (forall l, spells (reads s0) called l -> reads s0 a (oo ++ l)).
Proof using Hrun.
  intros Hs. assert (forall q n, up_to q n []) as Hu by (split; [constructor|simpl; lia]).
  assert (forall q n l, 0 < n -> (exists x l1, l = (q, x) :: l1 /\ up_to q (n - 1) l1) -> up_to q n l) as Hc.
  { intros q n l Hn (x & l1 & -> & Hf & Hl). split; [by constructor|]. cbn [length]. lia. }
  act_cases a Hrun;
    match goal with
    | |- context [log_in t ?q ?x _] => exists [(q, x)], []
    | |- context [log_out t ?q ?x _] => exists [], [(q, x)]
    | _ => exists [], []
    end; cbn [fmap list_fmap app]; rewrite ?app_nil_r; (split; [done|]); (split; [done|]);
    split; intros ll Hl; rewrite ?spells_wait in Hl; simpl in Hl |- *;
    repeat match goal with
           | H : exists _, _ |- _ => destruct H
           | H : _ /\ _ |- _ => destruct H
           | H : _ \/ _ |- _ => destruct H
           end; subst; rewrite ?app_nil_r; try done; try (by eauto).
  - right. eexists. split; [by eapply same_pipes_file|done].
  - right. eexists. split; [by eapply same_pipes_file|]. by rewrite Z.sub_0_r in *.
  - simpl. apply Hc.
    + match goal with H : (n <? count) && _ = true |- _ => apply andb_true_iff in H as [?%Z.ltb_lt _] end. lia.
    + eexists _, _. split; [done|]. by replace (count - n - 1) with (count - (n + 1)) by lia.
Qed.

(** An action of a thread leaves the results of the others alone. *)
Lemma act_frame u : u <> t -> s_ret s' !! u = s_ret s !! u /\ s_buf s' !! u = s_buf s !! u.
Proof using Hrun. intros Hu. act_cases a Hrun; simpl; rewrite ?lookup_insert_ne by done; done. Qed.

(** The items taken out by a thread are in its read buffer, but for one that
    may be in its hands. *)
Definition in_hand (u : Z) (e : bool) (s1 : bstate) : Prop :=
  (by_thread u (s_outs s1)).*2 = default [] (s_buf s1 !! u) ++ (if e then [default 0 (s_ret s1 !! u)] else []).

Lemma act_stores e rest : stores e (IAct a :: rest) = true -> in_hand t e s ->
  exists e', stores e' (called ++ rest) = true /\ in_hand t e' s'.
Proof using Hrun.
  intros Hst Hh. unfold in_hand in *.
  act_cases a Hrun; simpl in Hst; try (apply andb_true_iff in Hst as [He Hst]; apply negb_true_iff in He as ->);
    try (exists false; rewrite <- ?app_assoc, ?stores_wait; done).
  - exists true. split; [done|]. simpl. rewrite lookup_insert_eq, by_thread_app, by_thread_one, decide_True by done.
    rewrite fmap_app. simpl in *. by rewrite Hh, app_nil_r.
  - apply andb_true_iff in Hst as [-> Hst]. exists false. split; [done|]. simpl. by rewrite lookup_insert_eq, app_nil_r.
Qed.

Lemma act_queues q b b' : s_bbqs s !! q = Some b -> s_bbqs s' !! q = Some b' ->
  g_in b = of_queue q (s_ins s) /\ g_out b = of_queue q (s_outs s) ->
  g_in b' = of_queue q (s_ins s') /\ g_out b' = of_queue q (s_outs s').
Proof using Hrun.
  intros Hb Hb' [Hi Ho].
  act_cases a Hrun; simpl in *; try (assert (b' = b) as -> by congruence; done).
  all: rewrite of_queue_app, of_queue_one; rewrite lookup_insert in Hb'; case_decide; simplify_eq;
    rewrite ?app_nil_r; try done.
  - unfold bbq_put in Heqr. destruct (_ && _); simplify_eq. simpl. split; congruence.
  - unfold bbq_get in Heqr. destruct (0 <=? _); [|done]. destruct (items _ !! _); simplify_eq. simpl. split; congruence.
Qed.
End act.

(** ** Along a run *)

(** What is left to do completes what a thread has done; once the thread is
    freed only the latter is known. *)
Definition remains (e : bact -> list (Z * Z) -> Prop) (prog : code) (d : list (Z * Z)) (oc : option code) : Prop :=
  match oc with
  | Some ks => forall l, spells e ks l -> spells e prog (d ++ l)
  | None => exists l, spells e prog (d ++ l)
  end.

Definition stored (prog : code) (t : Z) (s : bstate) (oc : option code) : Prop :=
  stores false prog = true ->
  match oc with
  | Some ks => exists e, stores e ks = true /\ in_hand t e s
  | None => exists e, in_hand t e s
  end.

Record ran (s0 : bstate) (t : Z) (prog : code) (s : bstate) (oc : option code) : Prop := mk_ran {
  rn_writes : remains (writes s0) prog (by_thread t (s_ins s)) oc;
  rn_reads : remains (reads s0) prog (by_thread t (s_outs s)) oc;
  rn_stores : stored prog t s oc;
}.

Section ran.
Context {s0 : bstate} {t : Z} {prog : code}.

Lemma ran_freed s oc : ran s0 t prog s oc -> ran s0 t prog s None.
Proof using Type.
  destruct oc as [ks|]; [|done]. intros [Hw Hr Hs]. split.
  - destruct (spells_some (writes s0) ks (writes_some s0)) as [l Hl]. exists l. by apply Hw.
  - destruct (spells_some (reads s0) ks (reads_some s0)) as [l Hl]. exists l. by apply Hr.
  - intros Hp. destruct (Hs Hp) as (e & _ & ?). by exists e.
Qed.

(** Instructions that are no actions come and go. *)
Lemma ran_code s ks ks' : (forall e l, spells e ks' l -> spells e ks l) -> (forall e, stores e ks = true -> stores e ks' = true) ->
  ran s0 t prog s (Some ks) -> ran s0 t prog s (Some ks').
Proof using Type.
  intros H1 H2 [Hw Hr Hs]. split; [intros l Hl; by apply Hw, H1|intros l Hl; by apply Hr, H1|].
  intros Hp. destruct (Hs Hp) as (e & ? & ?). exists e. auto.
Qed.

Lemma ran_act a rest s called s' : run_bact t a s = Done (called, s') -> same_pipes s0 s ->
  ran s0 t prog s (Some (IAct a :: rest)) -> ran s0 t prog s' (Some (called ++ rest)).
Proof using Type.
  intros Hrun Hsp [Hw Hr Hs]. destruct (act_logs Hrun s0 Hsp) as (oi & oo & Hi & Ho & HW & HR).
  assert (forall o, by_thread t (pair t <$> o) = o) as Hby.
  { intros o. unfold by_thread. induction o as [|x o IH]; [done|]. cbn [fmap list_fmap].
    rewrite filter_cons, decide_True by done. by cbn [fmap list_fmap]; rewrite IH. }
  split.
  - intros l (l1 & l2 & -> & H1 & H2)%spells_app. rewrite Hi, by_thread_app, Hby, <- app_assoc. apply Hw.
    exists (oi ++ l1), l2. rewrite app_assoc. auto.
  - intros l (l1 & l2 & -> & H1 & H2)%spells_app. rewrite Ho, by_thread_app, Hby, <- app_assoc. apply Hr.
    exists (oo ++ l1), l2. rewrite app_assoc. auto.
  - intros Hp. destruct (Hs Hp) as (e & ? & ?). by eapply act_stores.
Qed.

Lemma ran_other u a s called s' oc : run_bact u a s = Done (called, s') -> same_pipes s0 s -> t <> u ->
  ran s0 t prog s oc -> ran s0 t prog s' oc.
Proof using Type.
  intros Hrun Hsp Hne [Hw Hr Hs]. destruct (act_logs Hrun s0 Hsp) as (oi & oo & Hi & Ho & _).
  destruct (act_frame Hrun t Hne) as [Er Eb].
  assert (forall o, by_thread t (pair u <$> o) = []) as Hby.
  { intros o. unfold by_thread. induction o as [|x o IH]; [done|]. cbn [fmap list_fmap].
    by rewrite filter_cons, decide_False by (simpl; congruence). }
  assert (by_thread t (s_ins s') = by_thread t (s_ins s)) as Ei by (by rewrite Hi, by_thread_app, Hby, app_nil_r).
  assert (by_thread t (s_outs s') = by_thread t (s_outs s)) as Eo by (by rewrite Ho, by_thread_app, Hby, app_nil_r).
  assert (forall e, in_hand t e s -> in_hand t e s') as Hh by (unfold in_hand; intros e; by rewrite Eo, Er, Eb).
  split; rewrite ?Ei, ?Eo; [done|done|]. intros Hp. specialize (Hs Hp). destruct oc; naive_solver.
Qed.
End ran.

Definition code_of (m : machine bact bstate) (t : Z) : option code := k <$> threads m !! t.

Record traced (s0 : bstate) (Q : gset Z) (progs : list (Z * code)) (m : machine bact bstate) : Prop := mk_traced {
  tr_pipes : same_pipes s0 (client m);
  tr_queues : forall q b, q ∈ Q -> s_bbqs (client m) !! q = Some b ->
    g_in b = of_queue q (s_ins (client m)) /\ g_out b = of_queue q (s_outs (client m));
  tr_ran : forall t prog, (t, prog) ∈ progs -> ran s0 t prog (client m) (code_of m t);
}.

Section traced.
Context {s0 : bstate} {Q : gset Z} {progs : list (Z * code)}.

Lemma traced_exec c p th i rest m called m' :
  traced s0 Q progs m -> (forall q, q ∈ Q -> is_Some (s_bbqs (client m) !! q)) ->
  cpus m !! c = Some p -> threads m !! cur p = Some th -> k th = i :: rest ->
  exec true run_bact c (cur p) i m = Done (called, m') ->
  traced s0 Q progs (upd_thread (cur p) (set_k (called ++ rest)) m').
Proof using Type.
  intros [Hsp Hq Hran] HQ Hp Hth Hk Hex.
  destruct (exec_frame _ _ _ _ _ _ _ Hp Hex) as (Hcode & _ & Hna & _). pose proof (exec_client _ _ _ _ _ _ _ Hex) as Hcl.
  (* the code of a thread that is not the running one stays or the thread is freed *)
  assert (forall t prog s, t <> cur p -> ran s0 t prog s (code_of m t) ->
    ran s0 t prog s (code_of (upd_thread (cur p) (set_k (called ++ rest)) m') t)) as Hoth.
  { intros t prog s Hne H. unfold code_of in *. cbn [upd_thread with_threads threads]. rewrite lookup_alter_ne by done.
    destruct (threads m' !! t) as [th'|] eqn:E; [|by eapply ran_freed]. destruct (Hcode _ _ E) as (th0 & E0 & Ek).
    rewrite E0 in H. cbn [fmap option_fmap option_map] in *. by rewrite Ek. }
  assert (forall prog s, ran s0 (cur p) prog s (Some (called ++ rest)) ->
    ran s0 (cur p) prog s (code_of (upd_thread (cur p) (set_k (called ++ rest)) m') (cur p))) as Hself.
  { intros prog s H. unfold code_of. cbn [upd_thread with_threads threads]. rewrite lookup_alter_eq.
    destruct (threads m' !! cur p); [done|]. by eapply ran_freed. }
  assert (code_of m (cur p) = Some (i :: rest)) as Ec by (unfold code_of; rewrite Hth; simpl; by rewrite Hk).
  destruct (is_act i) eqn:Ea.
  - destruct i as [| | | | | | | | | | | | | | | | | | | | | | | | | |a]; try done. split; cbn [upd_thread with_threads client].
    + by eapply act_same_pipes.
    + intros q b' HqQ Hb'. destruct (HQ q HqQ) as [b Hb]. by eapply (act_queues Hcl q b b'); [..|apply Hq].
    + intros t prog Hin. destruct (decide (t = cur p)) as [->|Hne].
      * apply Hself. eapply ran_act; [done..|]. rewrite <- Ec. by apply Hran.
      * apply Hoth; [done|]. by eapply ran_other; [..|apply Hran].
  - assert (client m' = client m) as Em by (by destruct i). split; cbn [upd_thread with_threads client]; rewrite Em; [done|done|].
    intros t prog Hin. destruct (decide (t = cur p)) as [->|Hne]; [|by apply Hoth; [|apply Hran]].
    apply Hself. apply (ran_code _ (i :: rest)); [..|rewrite <- Ec; by apply Hran].
    + intros e l H. rewrite spells_no_acts in H by (by apply Hna). by destruct i.
    + intros e H. rewrite stores_no_acts by (by apply Hna). by destruct i.
Qed.

Lemma traced_step e m m' :
  traced s0 Q progs m -> (forall q, q ∈ Q -> is_Some (s_bbqs (client m) !! q)) ->
  step true run_bact e m = Done m' -> traced s0 Q progs m'.
Proof using Type.
  intros HT HQ. destruct e as [c|c]; simpl; unfold cpu_step, timer_step;
    (destruct (cpus m !! c) as [p|] eqn:Hp; [|by intros [= <-]]).
  - destruct (threads m !! cur p) as [th|] eqn:Hth; [|done]. destruct (k th) as [|i rest] eqn:Hk; [by intros [= <-]|].
    destruct (exec true run_bact c (cur p) i m) as [[called m1]|] eqn:Hex; [|done]. intros [= <-].
    by eapply traced_exec.
  - destruct (c_if p); [|by intros [= <-]]. intros [= <-]. destruct HT as [Hsp Hq Hran]. split; [done|done|].
    intros t prog Hin. specialize (Hran t prog Hin). unfold code_of in *. simpl.
    destruct (decide (t = cur p)) as [->|Hne]; [rewrite lookup_alter_eq|by rewrite lookup_alter_ne].
    destruct (threads m !! cur p) as [th|]; [|done]. simpl in *. by apply (ran_code _ (k th)).
Qed.

Lemma traced_boot G act_lock idles : boot_ok G act_lock idles progs ->
  s_ins s0 = [] -> s_outs s0 = [] -> s_buf s0 = ∅ ->
  (forall q b, q ∈ Q -> s_bbqs s0 !! q = Some b -> g_in b = [] /\ g_out b = []) ->
  traced s0 Q progs (boot G idles progs s0).
Proof using Type.
  intros HB Hi Ho Hb HQ. split; simpl.
  - split; [by right|done].
  - intros q b. rewrite Hi, Ho. apply HQ.
  - intros t prog Hin.
    assert (threads (boot G idles progs s0) !! t = Some (mk_thread READY 0 (thread_kstart true prog))) as Ht.
    { simpl. apply (boot_thread G act_lock idles progs HB). right. split; [|eauto].
      pose proof (bk_threads _ _ _ _ HB) as (_ & Hd & _)%NoDup_app. intros Hid. apply (Hd t Hid).
      apply list_elem_of_fmap. by exists (t, prog). }
    unfold code_of. rewrite Ht. cbn [fmap option_fmap option_map k].
    apply (ran_code _ (prog ++ [])).
    + intros e l. unfold thread_kstart. rewrite spells_no_acts, app_nil_r by done. intros (l1 & l2 & -> & ? & H)%spells_app.
      simpl in H. subst. by rewrite app_nil_r.
    + intros e. unfold thread_kstart. rewrite app_nil_r, stores_no_acts by done. by rewrite stores_behind.
    + rewrite app_nil_r. split; rewrite ?Hi, ?Ho; [intros l Hl; exact Hl..|]. intros Hp. exists false. split; [done|].
      unfold in_hand. by rewrite Ho, Hb.
Qed.
End traced.

Section run.
Context (G : env) (HG : env_ok G) (Q F : gset Z).
Context (HQ : forall q, q ∈ Q -> e_cv G !! item_added q = Some (bbq_lock q) /\
                                 e_cv G !! item_removed q = Some (bbq_lock q)).
Context {s0 : bstate} {progs : list (Z * code)}.

Lemma binv_run n es m : binv G Q F n m -> traced s0 Q progs m -> n + Z.of_nat (length es) <= 2 ^ 31 ->
  exists m', run true run_bact es m = Done m' /\ binv G Q F (n + Z.of_nat (length es)) m' /\ traced s0 Q progs m'.
Proof using HG HQ.
  revert n m. induction es as [|e es IH]; intros n m Hb HT Hn; cbn [run length] in *; rewrite ?Nat2Z.inj_succ in *.
  - exists m. split; [done|]. change (Z.of_nat 0) with 0. by rewrite Z.add_0_r.
  - destruct (binv_step G HG Q F HQ n e m Hb) as (m1 & Hm1 & Hb1); [lia|]. rewrite Hm1.
    destruct (IH (n + 1) m1 Hb1) as (m' & ? & ? & ?); [|lia|].
    + eapply traced_step; [done| |done]. intros q Hq. destruct Hb as (_ & _ & Hok). destruct (Hok q Hq) as (b & ? & _). eauto.
    + exists m'. split; [done|]. by replace (n + _) with (n + 1 + Z.of_nat (length es)) by lia.
Qed.
End run.
