(* ===== verification/BbqClaims.v ===== *)
(** * What holds of the locks, the scheduler, the buffers and the pipes under
      every schedule *)

From stdpp Require Import prelude list gmap.
From Stdlib Require Import ZArith Lia.
From S2P Require Import Prelude Synch SynchType SynchInv SynchSafe SynchBoot Bbq BbqSpec.

(** ** The machine of any client *)

Section client.
Context {act C : Type} (G : env) (act_lock : act -> option (list Z)) (HG : env_ok G).
Context (run_act : Z -> act -> C -> res (list (instr act) * C)) (CI : C -> Prop).
Context (Hact : forall t a s called s' x y, CI s -> run_act t a s = Done (called, s') ->
  chk1 G act_lock (IAct a) x = Some y -> c_gone x = false ->
  CI s' /\ chks G act_lock called x = Some y /\ rtok called = [] /\ ctok called = []).

Lemma run_safe es m : safe G act_lock CI m ->
  match run true run_act es m with
  | Done m' => safe G act_lock CI m'
  | Stop f => exists es1 m1, run true run_act es1 m = Done m1 /\ client_stop run_act m1 f
  end.
Proof using HG Hact.
  revert m. induction es as [|e es IH]; intros m Hm; simpl; [done|].
  pose proof (step_safe G act_lock HG run_act CI Hact e m Hm) as Hs. destruct (step true run_act e m) as [m'|f] eqn:E.
  - specialize (IH m' Hs). destruct (run true run_act es m') as [m''|f]; [done|].
    destruct IH as (es1 & m1 & ? & ?). exists (e :: es1), m1. simpl. by rewrite E.
  - exists [], m. auto.
Qed.
End client.

(** The thread on CPU [c] is about to run an action under spinlock [l]. *)
Definition in_section {act C} (act_lock : act -> option (list Z)) (m : machine act C) (c l : Z) : Prop :=
  exists p th a rest ls, cpus m !! c = Some p /\ threads m !! cur p = Some th /\ k th = IAct a :: rest /\
    act_lock a = Some ls /\ l ∈ ls.

(** What one sees of a safe machine. *)
Record well_scheduled {act C} (act_lock : act -> option (list Z)) (m : machine act C) : Prop := mk_ws {
  ws_mutex : forall c1 c2 l, in_section act_lock m c1 l -> in_section act_lock m c2 l -> c1 = c2;
  ws_intr : forall c p l, in_section act_lock m c l -> cpus m !! c = Some p -> c_if p = false;
  ws_one_cpu : forall c1 c2 p1 p2, cpus m !! c1 = Some p1 -> cpus m !! c2 = Some p2 -> cur p1 = cur p2 -> c1 = c2;
  ws_ready : NoDup (ready_queue m) /\
    forall t, t ∈ ready_queue m -> exists th, threads m !! t = Some th /\ state th = READY;
  ws_waiters : forall cv ws, cvs m !! cv = Some ws -> NoDup ws /\
    forall t, t ∈ ws -> is_Some (threads m !! t) /\ (t ∉ ready_queue m) /\
      forall cv' ws', cvs m !! cv' = Some ws' -> t ∈ ws' -> cv' = cv;
  ws_alive : forall c p, cpus m !! c = Some p -> is_Some (threads m !! cur p);
}.

Lemma safe_well_scheduled {act C} G (act_lock : act -> option (list Z)) (CI : C -> Prop) m :
  safe G act_lock CI m -> well_scheduled act_lock m.
Proof.
  intros (_ & X & lc & ow & HI). pose proof (i_place _ _ _ _ _ _ HI) as HP.
  assert (forall c l, in_section act_lock m c l -> exists p, cpus m !! c = Some p /\ l ∈ c_own (X (cur p)) /\ c_d (X (cur p)) <> 0) as Hsec.
  { intros c l (p & th & a & rest & ls & Hp & Hth & Hk & Hls & Hl). exists p. split; [done|].
    destruct (head_ok G act_lock HI Hp Hth Hk) as (y & Hy & _). cbn [chk1] in Hy. rewrite Hls in Hy.
    apply guard_some in Hy as [H _]. apply andb_true_iff in H as [[H _]%andb_true_iff _].
    destruct (only_fields _ _ H) as (-> & _ & ->). split; [done|]. destruct ls; [by apply elem_of_nil in Hl|]. simpl. lia. }
  split.
  - intros c1 c2 l (p1 & H1 & O1 & _)%Hsec (p2 & H2 & O2 & _)%Hsec.
    exact (cpu_unique _ _ _ _ _ _ _ _ _ _ (i_lock _ _ _ _ _ _ HI) H1 H2 O1 O2).
  - intros c p l (p' & Hp' & _ & Hd)%Hsec Hp. assert (p' = p) as -> by congruence.
    destruct (lo_cpu _ _ _ _ _ (i_lock _ _ _ _ _ _ HI) c p Hp) as [_ Hif]. by destruct (c_if p); [destruct Hd; auto|].
  - exact (lo_inj _ _ _ _ _ (i_lock _ _ _ _ _ _ HI)).
  - split; [apply HP|]. intros t [[th Hth] Hl]%(po_ready_in _ _ _ _ _ _ _ HP). exists th. split; [done|].
    by apply (po_rstate _ _ _ _ _ _ _ HP t).
  - intros cv ws Hws. destruct (po_cvs _ _ _ _ _ _ _ HP cv ws Hws) as [? Hin]. split; [done|].
    intros t [Hs Hl]%Hin. split; [done|]. split.
    + intros [_ ?]%(po_ready_in _ _ _ _ _ _ _ HP). congruence.
    + intros cv' ws' Hws' Ht. apply (po_cvs _ _ _ _ _ _ _ HP cv' ws' Hws') in Ht as [_ ?]. congruence.
  - intros c p Hp. by apply (to_cpu _ _ _ _ _ _ (i_type _ _ _ _ _ _ HI) c).
Qed.

(** C2 ([spinlock_acquire], [spinlock_release], [condvar_wait], [condvar_signal],
    [sleeplock_acquire], [sched_sched], [sched_ready], [timer_trap_handler], ...):
    the locks and the scheduler are safe under every schedule.  Take any number
    of CPUs and threads whose code the lock checker accepts, and any
    interleaving of their instructions and of timer interrupts.  The machine
    never panics, fails a kassert, corrupts a list or uses a freed thread (it
    can only stop in an action of the client).  In every state reached, two CPUs
    are never inside critical sections of the same spinlock, interrupts are off
    inside them, no thread runs on two CPUs, and the ready queue and the waiter
    lists hold each thread at most once, the ready queue only READY ones. *)
Theorem synch_safe {act C} G (act_lock : act -> option (list Z))
    (run_act : Z -> act -> C -> res (list (instr act) * C)) (CI : C -> Prop) idles progs s0 es :
  env_ok G ->
  (forall t a s called s' x y, CI s -> run_act t a s = Done (called, s') ->
     chk1 G act_lock (IAct a) x = Some y -> c_gone x = false ->
     CI s' /\ chks G act_lock called x = Some y /\ rtok called = [] /\ ctok called = []) ->
  boot_ok G act_lock idles progs -> Forall (fun tp => rtok tp.2 = [] /\ ctok tp.2 = []) progs -> CI s0 ->
  match run true run_act es (boot G idles progs s0) with
  | Done m => well_scheduled act_lock m
  | Stop f => exists es1 m1, run true run_act es1 (boot G idles progs s0) = Done m1 /\ client_stop run_act m1 f
  end.
Proof.
  intros HG Hact HB Htok HC.
  pose proof (run_safe G act_lock HG run_act CI Hact es (boot G idles progs s0)) as H.
  destruct (run true run_act es (boot G idles progs s0)) as [m|f]; [|apply H];
    [apply (safe_well_scheduled G act_lock CI), H|]; (split; [done|]); do 3 eexists; by apply boot_inv.
Qed.

(** ** The buffers *)

(** The items in the buffer, in order, as the code finds them. *)
Definition bbq_contents (b : BBQ) : list Z :=
  (fun i => items b !!! Z.to_nat (Z.rem (front b + Z.of_nat i) MAX_BBQ_SIZE))
    <$> seq 0 (Z.to_nat (i32 (next_empty b - front b))).

Lemma bbq_contents_ok b : bbq_ok b -> in_count b <= 2 ^ 31 ->
  g_in b = g_out b ++ bbq_contents b /\ Z.of_nat (length (bbq_contents b)) <= MAX_BBQ_SIZE.
Proof.
  intros [Hi Hfifo Hc Hn Hf Hr] Hlt. pose proof (count_nonneg b).
  assert (Z.to_nat (i32 (next_empty b - front b)) = (length (g_in b) - length (g_out b))%nat) as Hlen.
  { rewrite Hn, Hf, i32_sub, wraps_small by (unfold MAX_BBQ_SIZE in *; lia). unfold in_count, out_count. lia. }
  assert (bbq_contents b = drop (length (g_out b)) (g_in b)) as ->.
  { apply list_eq. intros i. unfold bbq_contents. rewrite Hlen, list_lookup_fmap, lookup_drop.
    destruct (decide (i < length (g_in b) - length (g_out b))%nat) as [Hlt'|Hge].
    - rewrite lookup_seq_lt by done. simpl.
      rewrite Hf, (wraps_small 32 (out_count b)) by (unfold in_count, out_count in *; simpl; lia).
      rewrite Z.rem_mod_nonneg by (unfold MAX_BBQ_SIZE; lia).
      specialize (Hr (out_count b + Z.of_nat i)). unfold in_count, out_count in *.
      rewrite <- Nat2Z.inj_add in *. rewrite Nat2Z.id in Hr. rewrite <- Hr by lia.
      symmetry. apply list_lookup_lookup_total_lt. rewrite Hi.
      pose proof (Z.mod_pos_bound (Z.of_nat (length (g_out b) + i)) MAX_BBQ_SIZE eq_refl). unfold MAX_BBQ_SIZE in *. lia.
    - rewrite lookup_seq_ge by lia. simpl. symmetry. apply lookup_ge_None. lia. }
  split.
  - rewrite Hfifo at 1. by rewrite take_drop.
  - rewrite length_drop. unfold in_count, out_count in *. lia.
Qed.

Lemma paired_kstart f : paired None f = true -> paired None (thread_kstart true f) = true.
Proof.
  intros Hf. unfold thread_kstart. apply paired_no_act; [done|]. rewrite paired_app, Hf. simpl.
  by destruct (scan None f) as [[]|].
Qed.

(** The configuration of buffers, files and threads a theorem starts from. *)
Record bbq_boot (G : env) (Q F : gset Z) (idles : list (Z * Z)) (progs : list (Z * list (instr bact)))
    (s0 : bstate) : Prop := mk_bbq_boot {
  bb_env : env_ok G;
  bb_cvs : set_Forall (fun q => e_cv G !! item_added q = Some (bbq_lock q) /\
                                e_cv G !! item_removed q = Some (bbq_lock q)) Q;
  bb_boot : boot_ok G (bact_lock Q F) idles progs;
  bb_tok : Forall (fun tp => rtok tp.2 = [] /\ ctok tp.2 = [] /\ paired None tp.2 = true) progs;
  bb_pipes : pipes_ok Q F s0;
  bb_init : set_Forall (fun q => exists mem, length mem = 512%nat /\ s_bbqs s0 !! q = Some (bbq_initial mem)) Q;
  bb_logs : s_ins s0 = [] /\ s_outs s0 = [] /\ s_buf s0 = ∅;
}.

Lemma bbq_boot_inv G Q F idles progs s0 :
  bbq_boot G Q F idles progs s0 -> binv G Q F 0 (boot G idles progs s0).
Proof.
  intros [HG HQ HB Htok HP Hi _]. rewrite Forall_forall in Htok.
  assert (Forall (fun tp : Z * list (instr bact) => rtok tp.2 = [] /\ ctok tp.2 = []) progs) as Ht.
  { apply Forall_forall. intros tp Hin. by destruct (Htok tp Hin) as (? & ? & _). }
  split; [split; [done|]; do 3 eexists; by apply boot_inv|]. split.
  - intros t th Ht'. simpl in Ht'.
    apply (boot_thread G (bact_lock Q F) idles progs HB) in Ht' as [[_ ->]|(_ & f & Hin & ->)]; [done|].
    apply code_ok_paired, paired_kstart. by destruct (Htok _ Hin) as (_ & _ & ?).
  - intros q Hq. destruct (Hi q Hq) as (mem & Hm & Hs). exists (bbq_initial mem). split; [done|].
    split; [by apply bbq_initial_ok|done].
Qed.

Lemma bbq_boot_traced G Q F idles progs s0 :
  bbq_boot G Q F idles progs s0 -> traced s0 Q progs (boot G idles progs s0).
Proof.
  intros [_ _ HB _ _ Hi (? & ? & ?)]. eapply traced_boot; [done..|].
  intros q b Hq Hb. destruct (Hi q Hq) as (mem & _ & E). rewrite E in Hb. by injection Hb as <-.
Qed.

(** A thread with no action of its program left. *)
Definition finished (m : machine bact bstate) (t : Z) : Prop := no_acts <$> code_of m t = Some true.

(** What thread [t], which runs [prog], did to the buffers.  What it inserted
    is a prefix of what [prog] writes (the bytes given to [pipe_write], each
    call all or nothing), and all of it once the thread is done; likewise for
    what it removed.  When [prog] takes items out with [pipe_read] only, its
    read buffer holds what it removed, in order, up to one item it is about to
    store. *)
Record thread_io (s0 : bstate) (m : machine bact bstate) (t : Z) (prog : list (instr bact)) : Prop := mk_io {
  io_wrote : exists l, spells (writes s0) prog (by_thread t (s_ins (client m)) ++ l) /\ (finished m t -> l = []);
  io_read : exists l, spells (reads s0) prog (by_thread t (s_outs (client m)) ++ l) /\ (finished m t -> l = []);
  io_stored : stores false prog = true -> exists held,
    (by_thread t (s_outs (client m))).*2 = default [] (s_buf (client m) !! t) ++ held /\
    (length held <= 1)%nat /\ (finished m t -> held = []);
}.

Lemma remains_left (e : bact -> list (Z * Z) -> Prop) m t prog d : (forall a, exists l, e a l) ->
  remains e prog d (code_of m t) -> exists l, spells e prog (d ++ l) /\ (finished m t -> l = []).
Proof.
  intros He. unfold remains, finished. destruct (code_of m t) as [ks|] eqn:E.
  - intros H. destruct (spells_some e ks He) as [l Hl]. exists l. split; [by apply H|].
    simpl. intros [= Hn]. rewrite <- (app_nil_r ks), spells_no_acts in Hl by done. done.
  - intros [l Hl]. exists l. by split.
Qed.

Lemma ran_io s0 m t prog : ran s0 t prog (client m) (code_of m t) -> thread_io s0 m t prog.
Proof.
  intros [Hw Hr Hs]. split.
  - apply remains_left; [apply writes_some|done].
  - apply remains_left; [apply reads_some|done].
  - intros Hp. specialize (Hs Hp). unfold finished. destruct (code_of m t) as [ks|].
    + destruct Hs as (e & He & ->). eexists. split; [done|]. split; [by destruct e; simpl; lia|].
      simpl. intros [= Hn]. rewrite <- (app_nil_r ks), stores_no_acts in He by done. by destruct e.
    + destruct Hs as (e & ->). eexists. split; [done|]. split; [by destruct e; simpl; lia|done].
Qed.


(** ** A concrete system

    Two CPUs (idle threads 10 and 11), a pipe with files 31 (read) and 32
    (write) over the buffer at 1000, and two threads: one writes the bytes
    104, 105 to the pipe, the other reads two bytes from it. *)

Definition demo_env : env :=
  mk_env {[1; 2; 1000; 208]} {[200]} {[1016 := 1000; 1040 := 1000; 224 := 208]}.
Definition demo_state : bstate :=
  mkB {[1000 := bbq_initial (replicate 512 0)]} {[500 := mkPipe 1000 31 32]} {[31 := 500; 32 := 500]} ∅ ∅ [] [].
Definition demo_idles : list (Z * Z) := [(0, 10); (1, 11)].
Definition demo_progs : list (Z * list (instr bact)) :=
  [(20, pipe_write 32 [104; 105] ++ pipe_close 32); (21, sleeplock_acquire true 200 ++ pipe_read 31 2 ++ sleeplock_release true 200)].
Definition demo_schedule : list event :=
  [Timer 1; Timer 0] ++ concat (repeat [Exec 1; Exec 0; Exec 0] 90).

Lemma demo_boot : bbq_boot demo_env {[1000]} {[31; 32]} demo_idles demo_progs demo_state.
Proof.
  split.
  - apply (bool_decide_unpack _). vm_compute. exact I.
  - apply set_Forall_singleton. split; reflexivity.
  - split.
    + apply (bool_decide_unpack _). vm_compute. exact I.
    + apply (bool_decide_unpack _). vm_compute. exact I.
    + apply (bool_decide_unpack _). vm_compute. exact I.
    + repeat constructor; vm_compute; reflexivity.
  - repeat constructor.
  - split.
    + simpl. intros p x [_ <-]%lookup_singleton_Some. right. by apply elem_of_singleton.
    + intros f [->%elem_of_singleton| ->%elem_of_singleton]%elem_of_union; exists 500; split; [reflexivity|right|reflexivity|right];
        by exists (mkPipe 1000 31 32).
  - apply set_Forall_singleton. exists (replicate 512 0). split; reflexivity.
  - done.
Qed.

Lemma synch_safe_witness :
  match run true run_bact demo_schedule (boot demo_env demo_idles demo_progs demo_state) with
  | Done m => well_scheduled (bact_lock {[1000]} {[31; 32]}) m
  | Stop f => exists es1 m1, run true run_bact es1 (boot demo_env demo_idles demo_progs demo_state) = Done m1 /\
      client_stop run_bact m1 f
  end.
Proof.
  destruct demo_boot as [H1 H2 H3 H4 H5 _ _].
  apply (synch_safe demo_env (bact_lock {[1000]} {[31; 32]}) run_bact (pipes_ok {[1000]} {[31; 32]})); try done.
  - by apply run_bact_ok.
  - apply (Forall_impl _ _ _ H4). intros tp (? & ? & _). done.
Defined.


(** ** Where the code goes wrong *)

(** A sleeplock cannot be used with a condition variable: [condvar_wait] calls
    [sched_sched], which releases the lock while it holds [sched_lock];
    releasing a sleeplock someone waits for makes the waiter ready, which takes
    [sched_lock] again.  Thread 20 owns the sleeplock, 21 waits for it, and 20
    waits on a condition variable with it: the kernel panics. *)
Theorem condvar_wait_sleeplock_panics :
  let m0 : machine bact bstate :=
    boot (mk_env {[1; 2; 100; 208]} {[200]} {[300 := 100; 224 := 208]}) [(0, 10); (1, 11)]
      [(20, sleeplock_acquire true 200 ++ condvar_wait true 300 200); (21, sleeplock_acquire true 200)] demo_state in
  run true run_bact ([Timer 0] ++ repeat (Exec 0) 30 ++ [Timer 1] ++ repeat (Exec 1) 60 ++ repeat (Exec 0) 60) m0
  = Stop KPanic.
Proof. vm_compute. reflexivity. Qed.

(** An exited thread is freed by the thread that runs next when that thread
    returns from [sched]; a thread that starts then ([thread_start]) ignores
    it.  Threads 20 and 21 exit one after the other: 21 is freed, 20 never. *)
Theorem exited_thread_leaks :
  match run true run_bact ([Timer 0] ++ repeat (Exec 0) 80)
          (boot demo_env [(0, 10)] [(20, []); (21, [])] demo_state) with
  | Done m => (state <$> threads m !! 20) = Some ZOMBIE /\ threads m !! 21 = None /\
              ready_queue m = [] /\ (k <$> threads m !! 10) = Some []
  | Stop _ => False
  end.
Proof. vm_compute. auto. Qed.

(** The counters of a buffer are [int]s that are never reduced: after 2^31 + 1
    insertions the index of the next one is negative. *)
Theorem bbq_counter_overflow b item :
  next_empty b = i32 (2 ^ 31 + 1) -> bbq_put item b = Stop BadAccess.
Proof. intros H. unfold bbq_put. rewrite H. reflexivity. Qed.
